(* ===== verification/_CoqProject ===== *)
-Q . S2P
Prelude.v
Timeval.v
MinHeap.v
Event.v
EventQueue.v
EvMap.v
EventCore.v
EventLoop.v
EventInv.v
EventPrims.v
EvMapInv.v
EventOps.v
EventDel.v
EventLoopInv.v
EventTimers.v
EventDeadlines.v
EventMoves.v
EventAddTotal.v
EventApi.v
EventLoopSafe.v
EvMapWatch.v
EventBaseNew.v
EventDemo.v
EventProps.v
EventAssert.v
HashTable.v
HashInv.v
HashProps.v
DebugMap.v
Buffer.v
BufferInv.v
BufferOps.v
BufferMove.v
BufferPullup.v
BufferSearch.v
BufferLines.v
BufferFind.v
BufferTidy.v
BufferQueue.v
BufferProps.v
ByteQueue.v
CString.v
Address.v
Uri.v
UriCodec.v
AddressProps.v
UriParts.v
UriParse.v
HttpMsg.v
HttpParse.v
HttpSend.v
HttpStream.v
HttpChunks.v
HttpProps.v
HttpDemo.v
Dns.v
DnsNames.v
DnsSafe.v
DnsFormat.v
DnsProps.v
Resolver.v
ResolverInv.v
ResolverPump.v
ResolverFinish.v
ResolverOps.v
ResolverNew.v
ResolverReply.v
ResolverProbe.v
ResolverProps.v
ResolverDemo.v
Tagging.v
TaggingCodec.v
TaggingProps.v
RateLimit.v
TokenBucket.v
RateLimitInv.v
RateLimitOps.v
RateLimitSteps.v
RateLimitProps.v
RateLimitDemo.v
