(* ===== verification/Prelude.v ===== *)
(** * Verification library for libevent (the C sources under src/libevent)

    libevent dispatches callbacks for descriptors, signals and timeouts, and
    adds buffered I/O, rate limits, a tagged wire format, HTTP and DNS on top.
    This library models its core shallowly: a C function is a Gallina function
    of the same name on explicit states, and the theorems are about those
    functions.

    ** How C is modelled

    Integers are [Z], kept in range by the conversions [u8] ... [s64] of this
    file where the code's width matters (LP64, two's complement).  Pointers to
    events, bufferevents and groups are numbers that index a store held by the
    state, so aliasing is as in C; structures are records; the intrusive
    queues and arrays are lists.  A function returns [option]: [None] is a
    failed assertion, [event_errx], or a read outside the memory the code
    may read; C return values and null pointers are ordinary values.  A loop
    that is not structural has fuel, and the theorems say how much is enough:
    what terminates is proved to return.  The event loop, which need not end,
    has a bound on its turns and callbacks and the outcome [CutOff] at that
    bound, so [None] is an abort there too.  A few theorems assume that an
    operation returned, [backend_watches_union] and [single_queue_bounded]
    among them; that it does is another theorem.  Allocation may fail: whether
    it does is a parameter ([Platform], [mm], [event_add_ok]), and a theorem
    that needs memory says so: [push_safe] of a base (no allocation fails, or
    there is no list of common timeouts), [memory_lasts] of a resolver.

    ** The parts

    - Time values.  Timeval.v: the timeval macros of util.h.
    - The timeout heap.  MinHeap.v: minheap-internal.h, over the class
      [HeapStore] of a store of events that remember their index.
      Fuel: the size of the heap, since each turn goes one level.
    - The event core.  Event.v is the data of event_struct.h and
      event-internal.h; EventQueue.v the event_queue primitives, EvMap.v the
      maps of evmap.c (arrays, no hash table), EventCore.v adding, deleting
      and activating, EventLoop.v timeouts, closures and event_base_loop,
      EventBaseNew.v configurations and creation, all of event.c.  The
      backend is the class [Eventop], its contract [BackendInterest]; callbacks
      and the system's waiting are the class [Environment].  The loop
      runs a number of turns that is its fuel; a call of event_add calls
      itself at most once (EventAddTotal.v), a doubling of a map needs
      at most 32 turns and returns exactly for slots below 2^27 (EvMapInv.v), and processing timeouts one turn for
      each event of the heap (EventTimers.v).
    - The hash table of ht-internal.h.  HashTable.v: what its macros generate,
      over the class [HashType] of hash functions, with pointers to pointers
      into the memory of the elements; DebugMap.v: the debugging mode of event.c,
      which notes in such a table what state events are in.  Fuel: a walk through a
      bucket has a turn more than there are elements in memory.
    - Buffers.  Buffer.v: the chains of buffer.c with their last_with_data
      pointer, callbacks and freezing, and formatted output;
      BufferSearch.v pointers into buffers, searching and lines.
    - The interface of a byte queue.  ByteQueue.v: the class through which
      the parts below use buffers, and its implementation by the buffers.
    - Tagged data.  Tagging.v: all of event_tagging.c.
    - Strings and URIs.  CString.v: the characters of evutil.c and
      numbers as text, with what the code uses of strtol and its kin;
      Address.v: IPv4 and IPv6 addresses as text, of evutil.c; Uri.v:
      escapes, queries and URI references of http.c.  Fuel: the parser of
      addresses takes a character a turn, and has as many as the text.
    - HTTP messages, of http.c.  HttpMsg.v: hosts and header fields;
      HttpParse.v: reading first lines, header fields and bodies in chunks;
      HttpSend.v: writing requests and replies, and which callback answers
      a request.  Fuel: every turn of the loop over header fields takes a
      line, so the bytes of the input and one are enough; the loop over
      chunks may meet one empty chunk and has one turn more.
    - DNS.  Dns.v: names with compression, the requests of clients and what
      they make of replies, the requests to servers and the responses they
      make, of evdns.c.  Fuel: every turn of the loop that reads a name takes a
      label, which the array of the result must hold, or follows a pointer,
      of which there may be as many as the packet has bytes; every turn of the
      loop that writes one takes a label of it.
    - The resolver of evdns.c.  Resolver.v: the state of a struct evdns_base
      with the servers, requests, handles and search lists it points to, and
      the functions that change it, as computations that fail where the code
      would use a null or freed pointer or fail an assertion.  What allocation,
      timers, random numbers, opening sockets and sending give is the class
      [Network]; it uses Dns.v for the packets.  Fuel: the loop that takes
      requests from the waiting queue has as many turns as that is long, the
      one that looks for a server as many as there are; a transaction id is
      tried [patience] times; that one of these gives an id that is free
      is the hypothesis [ids_found] of the theorems.
    - Rate limits.  RateLimit.v: token buckets, limits of bufferevents and
      groups of bufferevent_ratelim.c, with the suspension of reading and
      writing of bufferevent.c.

    ** The theorems

    - EventInv.v defines [base_wf], the agreement of the flags of
      events with the queues, the heap, the common-timeout lists, the maps
      and the counters.  EventPrims.v, EvMapInv.v, EventOps.v, EventDel.v
      and EventLoopInv.v show that every operation keeps it, EventApi.v and
      [reachable_wf] (EventProps.v) that every state the API reaches has it,
      with what the loop needs of events beyond it ([live]).  A step,
      [api_step], is one operation with arguments as its documentation asks.
      EventMoves.v says what an operation may change of the events it moves
      ([stirs]); EventLoopSafe.v that the loop, callbacks included, never
      aborts on a live base and leaves it live.  On top of these: what adding,
      deleting, timeouts and priorities achieve (EventTimers.v, EventProps.v,
      EventDeadlines.v, EventAddTotal.v), that the backend watches what it
      should (EvMapWatch.v), and that the code's own checks pass and its
      traversal visits each event once (EventAssert.v).  EventDemo.v ends with
      a timeout that is lost.
    - MinHeap.v: the heap refines a finite set and sorts.
    - HashInv.v: the buckets that a table holds, and that growing, inserting,
      replacing and removing keep them; HashProps.v: a table is a set,
      traversals meet each element once, and what the code gets wrong; DebugMap.v:
      the debugging mode exits exactly when it should.
    - BufferInv.v to BufferPullup.v treat one group of buffer operations
      each, BufferLines.v and BufferFind.v searching and lines, BufferTidy.v
      shows that buffers keep no gaps of empty chains, BufferQueue.v has the abstract queue that a buffer refines, and
      BufferProps.v callbacks, moves between buffers and counterexamples.
    - TaggingCodec.v, TaggingProps.v: what is marshalled is
      unmarshalled, and no input makes it read outside the queue,
      with the one exception that is stated.
    - TokenBucket.v: the arithmetic of buckets; RateLimitInv.v to
      RateLimitProps.v the invariant of worlds of bufferevents and groups,
      that every operation keeps it, and what it gives.
    - AddressProps.v: addresses are read back from their text, no text makes
      the parser read what was not set, and texts that are accepted
      though they are no addresses.
    - UriCodec.v: escapes and queries are read back; UriParts.v and
      UriParse.v: the results of parsing are the well-formed URIs, and joining
      is inverse to it.
    - HttpStream.v: what a reader makes of a stream that arrives in pieces,
      and header fields; HttpChunks.v: the bytes that are
      written and that they are read back, and what is kept of any
      input; HttpProps.v the theorems.
    - DnsNames.v: where a name is in a packet, that it is read there, and
      that what is written is the name; DnsSafe.v: no packet makes
      the parsers read outside it; DnsFormat.v: where the
      records of a message are and what they give a client; DnsProps.v
      the theorems.
    - ResolverInv.v: the state of a resolver abstracted to its queues and
      counters ([abs]), the invariant [net_wf] of those, and that sending
      keeps it; ResolverPump.v, ResolverFinish.v: so do the waiting queue and
      the end of a request; ResolverOps.v: the invariant [wf_but] with
      handles, probes and callbacks that are owed, and the operations that
      keep it, with ResolverNew.v (requests and searches), ResolverReply.v
      (replies and what follows) and ResolverProbe.v (probes, servers and
      options); ResolverProps.v: no operation fails, every callback is called
      once, the counters are right, and how requests end.
    - The files that end in Demo.v, or the ends of the others, instantiate the
      parameters and apply each theorem to concrete data.

    ** Not modelled

    Signal delivery (signal.c): the event that reads the socket pair is added
    from inside the registration of a signal; in the model registration
    tells the backend only.  Threads, locks and notification: the model is the
    program without threading functions.  Freeing, reinitialising and
    finalizing a base.  Buffers of files, multicast, reserved space and
    reading from descriptors.  Bufferevents but for their suspension,
    the state machines of HTTP connections, RPC, listeners: mostly system
    calls and callbacks between components.  Of DNS: the files resolv.conf and
    hosts, getaddrinfo, and the sockets of servers.  Freeing a resolver and
    suspending it are modelled but are no operations of [reachable]: after
    them requests may use what was freed, as ResolverDemo.v shows.  The backends,
    OpenSSL, overlapped I/O, logging, random numbers: interfaces to the
    system. *)
From Stdlib Require Export ZArith Lia Sorted.
From stdpp Require Export prelude gmap.

Declare Scope libevent_scope.
Delimit Scope libevent_scope with le.
Global Open Scope Z_scope.

(** [lia] understands division and modulus by constants. *)
Ltac Zify.zify_post_hook ::= Z.div_mod_to_equations.

Create HintDb levent.
Create Rewrite HintDb levent.

(** ** Machine integers.

    A C integer is a [Z]; the conversions below are the ones the C
    implementation performs on an LP64 platform (int 32, long, size_t and
    pointers 64 bits, two's complement). *)
Definition UINT32_MAX : Z := 2 ^ 32 - 1.
Definition INT_MAX : Z := 2 ^ 31 - 1.
Definition EV_SIZE_MAX : Z := 2 ^ 64 - 1.
Definition EV_SSIZE_MAX : Z := 2 ^ 63 - 1.

Definition u8 (x : Z) : Z := x mod 2 ^ 8.
Definition u16 (x : Z) : Z := x mod 2 ^ 16.
Definition u32 (x : Z) : Z := x mod 2 ^ 32.
Definition u64 (x : Z) : Z := x mod 2 ^ 64.
(** Conversion to a signed 32-bit [int] and to a signed 64-bit integer. *)
Definition s32 (x : Z) : Z := (x + 2 ^ 31) mod 2 ^ 32 - 2 ^ 31.
Definition s64 (x : Z) : Z := (x + 2 ^ 63) mod 2 ^ 64 - 2 ^ 63.
(** To a [short]. *)
Definition s16 (x : Z) : Z := (x + 2 ^ 15) mod 2 ^ 16 - 2 ^ 15.

Definition is_u8 (x : Z) : Prop := 0 <= x < 2 ^ 8.
Definition is_u32 (x : Z) : Prop := 0 <= x < 2 ^ 32.
Definition is_u64 (x : Z) : Prop := 0 <= x < 2 ^ 64.

Lemma u32_small x : 0 <= x < 2 ^ 32 -> u32 x = x.
Proof. apply Z.mod_small. Qed.
Lemma u64_small x : 0 <= x < 2 ^ 64 -> u64 x = x.
Proof. apply Z.mod_small. Qed.
Lemma u8_small x : 0 <= x < 2 ^ 8 -> u8 x = x.
Proof. apply Z.mod_small. Qed.
Lemma s32_small x : - 2 ^ 31 <= x < 2 ^ 31 -> s32 x = x.
Proof. unfold s32. lia. Qed.
Lemma s64_small x : - 2 ^ 63 <= x < 2 ^ 63 -> s64 x = x.
Proof. unfold s64. lia. Qed.
(** Bits that do not overlap add up. *)
Lemma lor_shiftl_add a n x : 0 <= n -> 0 <= x < 2 ^ n -> Z.lor (Z.shiftl a n) x = a * 2 ^ n + x.
Proof.
  intros Hn Hx. rewrite <- Z.add_nocarry_lor; [by rewrite Z.shiftl_mul_pow2|].
  apply Z.bits_inj'. intros i Hi. rewrite Z.land_spec, Z.bits_0. destruct (Z.lt_ge_cases i n).
  - by rewrite Z.shiftl_spec_low.
  - rewrite <- (Z.mod_small x (2 ^ n)), Z.mod_pow2_bits_high by lia. apply andb_false_r.
Qed.
Lemma u32_range x : is_u32 (u32 x).
Proof. unfold is_u32, u32. lia. Qed.
Lemma u64_range x : is_u64 (u64 x).
Proof. unfold is_u64, u64. lia. Qed.

(** Truth value of a C [int]. *)
Definition c_true (x : Z) : bool := negb (x =? 0).
Definition c_int (b : bool) : Z := if b then 1 else 0.

(** ** Tactics. *)

(** Case analysis on the test of the first conditional. *)
Ltac case_if :=
  match goal with
  | |- context [if ?b then _ else _] =>
      lazymatch type of b with
      | bool => let E := fresh "E" in destruct b eqn:E
      end
  end.
Ltac case_if_in H :=
  match type of H with
  | context [if ?b then _ else _] =>
      lazymatch type of b with
      | bool => let E := fresh "E" in destruct b eqn:E
      end
  end.

(** Open the result of an option computation in a hypothesis. *)
Ltac inv_opt :=
  repeat match goal with
  | H : Some _ = Some _ |- _ => injection H as H; subst
  | H : None = Some _ |- _ => discriminate H
  | H : Some _ = None |- _ => discriminate H
  | H : (_, _) = (_, _) |- _ => injection H; clear H; intros; subst
  end.

(** ** Arrays: a C array of known size is a list, indexed by [Z]. *)
Section Arrays.
Context {A : Type} (dflt : A).

(** Out of range, a read gives the default and a write does nothing; the
    tests keep huge indices from being turned into unary numbers. *)
Definition arr_get (l : list A) (i : Z) : A :=
  if i <? Z.of_nat (length l) then nth (Z.to_nat i) l dflt else dflt.
Definition arr_set (l : list A) (i : Z) (x : A) : list A :=
  if i <? Z.of_nat (length l) then <[Z.to_nat i := x]> l else l.

Lemma arr_get_nth l i : arr_get l i = nth (Z.to_nat i) l dflt.
Proof. unfold arr_get. case_if; [done|]. symmetry. apply nth_overflow. lia. Qed.
Lemma arr_set_insert l i x : arr_set l i x = <[Z.to_nat i := x]> l.
Proof. unfold arr_set. case_if; [done|]. symmetry. apply list_insert_ge. lia. Qed.

Lemma arr_set_length l i x : length (arr_set l i x) = length l.
Proof. rewrite arr_set_insert. apply length_insert. Qed.

Lemma arr_get_set_eq l i x :
  0 <= i < Z.of_nat (length l) -> arr_get (arr_set l i x) i = x.
Proof.
  intros Hi. rewrite arr_get_nth, arr_set_insert. apply nth_lookup_Some with (x := x).
  apply list_lookup_insert_eq. lia.
Qed.

Lemma arr_get_set_ne l i j x :
  0 <= i -> 0 <= j -> i <> j -> arr_get (arr_set l i x) j = arr_get l j.
Proof.
  intros Hi Hj Hij. rewrite !arr_get_nth, arr_set_insert, !nth_lookup.
  rewrite list_lookup_insert_ne; [done | lia].
Qed.
End Arrays.

#[export] Hint Rewrite @arr_set_length : levent.

(** ** Lists that enumerate a predicate, each element once. *)
Section MemOk.
Context {A : Type} `{EqDecision A}.
Implicit Types (l : list A) (P Q : A -> Prop).

Definition mem_ok l P : Prop := NoDup l /\ forall x, x ∈ l <-> P x.

#[export] Instance mem_ok_proper :
  Proper ((=) ==> pointwise_relation A iff ==> iff) mem_ok.
Proof. intros l _ <- P Q HPQ. unfold mem_ok, pointwise_relation in *. by setoid_rewrite HPQ. Qed.

Lemma mem_ok_iff l P Q : (forall x, P x <-> Q x) -> mem_ok l P -> mem_ok l Q.
Proof. intros HPQ [? HP]. split; [done|]. intros x. by rewrite HP. Qed.

Lemma mem_ok_perm l l' P : l ≡ₚ l' -> mem_ok l P -> mem_ok l' P.
Proof. intros Hp [ND HP]. split; [by rewrite <- Hp|]. intros x. by rewrite <- Hp. Qed.

Lemma mem_ok_nil P : (forall x, ~ P x) -> mem_ok [] P.
Proof. intros HP. split; [constructor|]. intros x. split; [set_solver | by intros ?%HP]. Qed.

Lemma mem_ok_cons l P e : ~ P e -> mem_ok l P -> mem_ok (e :: l) (fun x => P x \/ x = e).
Proof.
  intros He [ND HP]. split; [constructor; [by rewrite HP | done]|].
  intros x. rewrite elem_of_cons, HP. tauto.
Qed.

Lemma mem_ok_snoc l P e : ~ P e -> mem_ok l P -> mem_ok (l ++ [e]) (fun x => P x \/ x = e).
Proof.
  intros He HM. apply (mem_ok_perm (e :: l)); [|by apply mem_ok_cons].
  apply Permutation_cons_append.
Qed.

Lemma mem_ok_remove l P e : mem_ok l P -> mem_ok (filter (fun x => x <> e) l) (fun x => P x /\ x <> e).
Proof.
  intros [ND HP]. split; [by apply NoDup_filter|]. intros x.
  rewrite list_elem_of_filter, HP. tauto.
Qed.
End MemOk.

(** ** Finite sums: [total w n] says [n] is the sum of the finitely many
    non-zero values of [w]. *)
Section Totals.
Context {A : Type} `{EqDecision A}.
Implicit Types (w : A -> Z) (l : list A).

Fixpoint sum_over w l : Z :=
  match l with [] => 0 | x :: l => w x + sum_over w l end.
Definition total w (n : Z) : Prop :=
  exists l, NoDup l /\ (forall x, w x <> 0 -> x ∈ l) /\ n = sum_over w l.

Lemma sum_over_ext w w' l : (forall x, x ∈ l -> w x = w' x) -> sum_over w l = sum_over w' l.
Proof. induction l as [|y l IH]; cbn; [done|]. intros Hw. rewrite Hw, IH by set_solver. done. Qed.

Lemma sum_over_update w w' l e : NoDup l -> e ∈ l -> (forall x, x <> e -> w' x = w x) ->
  sum_over w' l = sum_over w l + w' e - w e.
Proof.
  intros ND He Hw. induction ND as [|y l Hy ND IH]; [set_solver|]. cbn.
  apply elem_of_cons in He as [->|He].
  - rewrite (sum_over_ext w' w l); [lia|]. intros x Hx. apply Hw. intros ->. done.
  - rewrite IH by done. rewrite (Hw y) by (intros ->; done). lia.
Qed.

Lemma total_ext w w' n : (forall x, w' x = w x) -> total w n -> total w' n.
Proof.
  intros Hw (l & ND & Hs & ->). exists l. split_and!; [done | |].
  - intros x. rewrite Hw. apply Hs.
  - apply sum_over_ext. intros x _. by rewrite Hw.
Qed.

Lemma total_update w w' n n' e : (forall x, x <> e -> w' x = w x) -> total w n ->
  n' = n + w' e - w e -> total w' n'.
Proof.
  intros Hw (l & ND & Hs & ->) ->.
  assert (exists l', NoDup l' /\ e ∈ l' /\ (forall x, w x <> 0 -> x ∈ l') /\ sum_over w l = sum_over w l')
    as (l' & ND' & He & Hs' & ->).
  { destruct (decide (e ∈ l)) as [He|He]; [by exists l|]. exists (e :: l).
    split_and!; [by constructor | set_solver | set_solver |]. cbn.
    destruct (Z.eq_dec (w e) 0) as [->|Hne]; [lia|]. by apply Hs in Hne. }
  exists l'. split_and!; [done | |].
  - intros x. destruct (decide (x = e)) as [->|Hx]; [done|]. rewrite Hw by done. apply Hs'.
  - symmetry. by apply sum_over_update.
Qed.

Lemma total_zero w : (forall x, w x = 0) -> total w 0.
Proof. intros Hw. exists []. split_and!; [constructor | by intros x ?%(fun H => H (Hw x)) | done]. Qed.

Lemma total_nonneg w n : (forall x, 0 <= w x) -> total w n -> 0 <= n.
Proof. intros Hw (l & _ & _ & ->). induction l as [|y l IH]; cbn; [lia|]. specialize (Hw y). lia. Qed.

(** With non-negative weights, a positive sum has a positive term and a zero
    sum has none. *)
Lemma total_pos w n : (forall x, 0 <= w x) -> total w n -> 0 < n <-> exists x, 0 < w x.
Proof.
  intros Hw (l & ND & Hs & ->). split.
  - clear Hs ND. induction l as [|y l IH]; cbn; [lia|]. intros Hp.
    pose proof (Hw y). destruct (Z.eq_dec (w y) 0); [apply IH; lia | exists y; lia].
  - intros [x Hx]. assert (Hl : x ∈ l) by (apply Hs; lia). clear Hs ND.
    induction l as [|y l IH]; [set_solver|]. cbn. pose proof (Hw y).
    assert (0 <= sum_over w l).
    { clear -Hw. induction l as [|z l IH]; cbn; [lia|]. pose proof (Hw z). lia. }
    apply elem_of_cons in Hl as [->|Hl]; [lia|]. specialize (IH Hl). lia.
Qed.

(** The sum of a weight that is 1 on the elements of a list and 0 elsewhere. *)
Lemma total_count w n l : total w n -> NoDup l -> (forall x, x ∈ l -> w x = 1) -> (forall x, x ∉ l -> w x = 0) ->
  n = Z.of_nat (length l).
Proof.
  intros (l0 & ND0 & Hs & ->) ND H1 H0.
  assert (Hsum : sum_over w l0 = Z.of_nat (length (filter (fun x => x ∈ l) l0))).
  { clear ND0 Hs. induction l0 as [|y l0 IH]; [done|]. rewrite filter_cons. cbn [sum_over].
    case_decide as Hy; [rewrite H1 by done; cbn [length]; lia | rewrite H0 by done; lia]. }
  rewrite Hsum. f_equal. apply Permutation_length, NoDup_Permutation; [by apply NoDup_filter | done|].
  intros x. rewrite list_elem_of_filter. split; [by intros [? _]|]. intros Hx. split; [done|]. apply Hs. rewrite H1 by done. done.
Qed.
End Totals.
