(* ===== verification/Timeval.v ===== *)
(** * Time values (include/event2/util.h, evutil_time.c)

    The timeval macros of util.h as functions on a record, with the order
    facts the heap and the event loop use. *)
From S2P Require Import Prelude.

(** struct timeval: seconds and microseconds. *)
Record timeval := Timeval { tv_sec : Z; tv_usec : Z }.

#[export] Instance timeval_eq_dec : EqDecision timeval.
Proof. solve_decision. Defined.

(** The operators [evutil_timercmp] is used with. *)
Inductive cmp_op := CmpEq | CmpLt | CmpLe | CmpGt | CmpGe.
Definition cmpop (c : cmp_op) (x y : Z) : bool :=
  match c with
  | CmpEq => x =? y
  | CmpLt => x <? y
  | CmpLe => x <=? y
  | CmpGt => y <? x
  | CmpGe => y <=? x
  end.

Definition evutil_timercmp (tvp uvp : timeval) (c : cmp_op) : bool :=
  if tv_sec tvp =? tv_sec uvp
  then cmpop c (tv_usec tvp) (tv_usec uvp)
  else cmpop c (tv_sec tvp) (tv_sec uvp).

Definition evutil_timeradd (tvp uvp : timeval) : timeval :=
  let sec := tv_sec tvp + tv_sec uvp in
  let usec := tv_usec tvp + tv_usec uvp in
  if 1000000 <=? usec then Timeval (sec + 1) (usec - 1000000) else Timeval sec usec.

Definition evutil_timersub (tvp uvp : timeval) : timeval :=
  let sec := tv_sec tvp - tv_sec uvp in
  let usec := tv_usec tvp - tv_usec uvp in
  if usec <? 0 then Timeval (sec - 1) (usec + 1000000) else Timeval sec usec.

Definition evutil_timerclear : timeval := Timeval 0 0.

Definition evutil_timerisset (tvp : timeval) : bool :=
  c_true (tv_sec tvp) || c_true (tv_usec tvp).

(** evutil_time.c, [evutil_tv_to_msec_]: LP64 [long]. *)
Definition LONG_MAX : Z := 2 ^ 63 - 1.
Definition MAX_SECONDS_IN_MSEC_LONG : Z := Z.quot (LONG_MAX - 999) 1000.
Definition evutil_tv_to_msec_ (tv : timeval) : Z :=
  if (1000000 <? tv_usec tv) || (MAX_SECONDS_IN_MSEC_LONG <? tv_sec tv) then -1
  else s64 (tv_sec tv * 1000 + Z.quot (tv_usec tv + 999) 1000).

(** struct evutil_monotonic_timer: the fields [adjust_monotonic_time] uses. *)
Record evutil_monotonic_timer := MonoTimer {
  adjust_monotonic_clock : timeval;
  last_time : timeval
}.

Definition adjust_monotonic_time (base : evutil_monotonic_timer) (tv : timeval)
  : evutil_monotonic_timer * timeval :=
  let tv := evutil_timeradd tv (adjust_monotonic_clock base) in
  let '(base, tv) :=
    if evutil_timercmp tv (last_time base) CmpLt then
      let adjust := evutil_timersub (last_time base) tv in
      ({| base with adjust_monotonic_clock :=
            evutil_timeradd adjust (adjust_monotonic_clock base) |},
       last_time base)
    else (base, tv) in
  ({| base with last_time := tv |}, tv).

(** ** Facts about the order. *)

(** A normalised time value: what [timeradd] and [timersub] keep. *)
Definition tv_norm (t : timeval) : Prop := 0 <= tv_usec t < 1000000.

(** Microseconds of a time value; [timercmp] is the order of these numbers
    on normalised values. *)
Definition tv_us (t : timeval) : Z := tv_sec t * 1000000 + tv_usec t.

(** The strict order [timercmp (a, b, <)] decides, as a proposition. *)
Definition tv_lt (a b : timeval) : Prop := evutil_timercmp a b CmpLt = true.
Definition tv_le (a b : timeval) : Prop := evutil_timercmp a b CmpGt = false.

Ltac tv_unfold :=
  unfold tv_lt, tv_le, tv_us, tv_norm, evutil_timercmp, evutil_timeradd,
    evutil_timersub, cmpop in *; cbn [tv_sec tv_usec] in *.
Ltac tv_solve :=
  repeat match goal with x : timeval |- _ => destruct x end;
  tv_unfold; repeat case_if; cbn [tv_sec tv_usec] in *; try lia.

Lemma tv_le_refl a : tv_le a a.
Proof. tv_solve. Qed.
Lemma tv_le_trans a b c : tv_le a b -> tv_le b c -> tv_le a c.
Proof. intros H1 H2; tv_unfold. repeat case_if_in H1; repeat case_if_in H2; tv_solve. Qed.
Lemma tv_le_total a b : tv_le a b \/ tv_le b a.
Proof. tv_unfold. rewrite (Z.eqb_sym (tv_sec b)). case_if; lia. Qed.
Lemma tv_lt_le a b : tv_lt a b -> tv_le a b.
Proof. intros H; tv_unfold. case_if; lia. Qed.
Lemma tv_gt_lt a b : evutil_timercmp a b CmpGt = true <-> tv_lt b a.
Proof. tv_unfold. rewrite (Z.eqb_sym (tv_sec b)). done. Qed.
Lemma tv_le_cmp a b : tv_le a b <-> evutil_timercmp a b CmpLe = true.
Proof. tv_unfold. case_if; lia. Qed.
Lemma tv_nlt_le a b : evutil_timercmp a b CmpLt = false <-> tv_le b a.
Proof. tv_unfold. rewrite (Z.eqb_sym (tv_sec b)). done. Qed.

Lemma tv_le_us a b : tv_norm a -> tv_norm b -> tv_le a b <-> tv_us a <= tv_us b.
Proof. intros Ha Hb; tv_unfold. case_if; lia. Qed.
Lemma timeradd_us a b : tv_us (evutil_timeradd a b) = tv_us a + tv_us b.
Proof. tv_solve. Qed.
Lemma timersub_us a b : tv_us (evutil_timersub a b) = tv_us a - tv_us b.
Proof. tv_solve. Qed.
Lemma timeradd_norm a b : tv_norm a -> tv_norm b -> tv_norm (evutil_timeradd a b).
Proof. intros; tv_solve. Qed.
Lemma timersub_norm a b : tv_norm a -> tv_norm b -> tv_norm (evutil_timersub a b).
Proof. intros; tv_solve. Qed.

#[export] Hint Resolve tv_le_refl tv_lt_le timeradd_norm timersub_norm : levent.
#[export] Hint Rewrite timeradd_us timersub_us : levent.
