(* ===== verification/MinHeap.v ===== *)
(** * The timeout heap (minheap-internal.h)

    A binary min-heap of event pointers, each event remembering its index.
    The events live in a store the heap does not own: the class [HeapStore]
    is what the heap needs of it. *)
From S2P Require Import Prelude Timeval.

(** An event pointer. *)
Abbreviation eid := nat (only parsing).

(** The store of events as the heap sees it: it reads [heap_timeout] and reads
    and writes [ev_timeout_pos.min_heap_idx]. *)
Class HeapStore (St : Type) := {
  heap_timeout : St -> eid -> timeval;
  min_heap_idx : St -> eid -> Z;
  set_min_heap_idx : St -> eid -> Z -> St
}.
Class HeapStoreLaws (St : Type) `{HeapStore St} := {
  idx_set_eq st e i : min_heap_idx (set_min_heap_idx st e i) e = i;
  idx_set_ne st e e' i : e <> e' ->
    min_heap_idx (set_min_heap_idx st e i) e' = min_heap_idx st e';
  timeout_set st e e' i :
    heap_timeout (set_min_heap_idx st e i) e' = heap_timeout st e'
}.

(** struct min_heap: [p] is the allocated array ([a] slots), [n] of them used. *)
Record min_heap := MinHeap { heap_p : list eid; heap_n : Z; heap_a : Z }.

Definition p_get (l : list eid) (i : Z) : eid := arr_get 0%nat l i.

Section Operations.
Context {St : Type} `{HeapStore St}.
(** Whether [mm_realloc] of so many bytes succeeds. *)
Context (mm_realloc_ok : Z -> bool).

Definition min_heap_elem_greater (st : St) (x y : eid) : bool :=
  evutil_timercmp (heap_timeout st x) (heap_timeout st y) CmpGt.

Definition min_heap_ctor_ : min_heap := MinHeap [] 0 0.
Definition min_heap_elem_init_ (st : St) (e : eid) : St := set_min_heap_idx st e (-1).
Definition min_heap_empty_ (s : min_heap) : bool := 0 =? heap_n s.
Definition min_heap_size_ (s : min_heap) : Z := heap_n s.
Definition min_heap_top_ (s : min_heap) : option eid :=
  if c_true (heap_n s) then Some (p_get (heap_p s) 0) else None.
Definition min_heap_elt_is_top_ (st : St) (e : eid) : bool := min_heap_idx st e =? 0.

Definition min_heap_reserve_ (s : min_heap) (n0 : Z) : Z * min_heap :=
  if heap_a s <? n0 then
    let a1 := if c_true (heap_a s) then u32 (heap_a s * 2) else 8 in
    let a1 := if a1 <? n0 then n0 else a1 in
    if mm_realloc_ok (a1 * 8) then
      (0, {| s with heap_p := heap_p s ++ replicate (Z.to_nat (a1 - Z.of_nat (length (heap_p s)))) 0%nat;
                    heap_a := a1 |})
    else (-1, s)
  else (0, s).

(** [(s->p[i] = x)->ev_timeout_pos.min_heap_idx = i] *)
Definition put_slot (s : min_heap) (st : St) (i : Z) (x : eid) : min_heap * St :=
  ({| s with heap_p := arr_set (heap_p s) i x |}, set_min_heap_idx st x (s32 i)).

Definition parent_of (hole : Z) : Z := u32 (hole - 1) / 2.

Fixpoint shift_up_loop (fuel : nat) (s : min_heap) (st : St) (hole : Z) (e : eid)
  : min_heap * St * Z :=
  match fuel with
  | O => (s, st, hole)
  | S fuel =>
      let parent := parent_of hole in
      if c_true hole && min_heap_elem_greater st (p_get (heap_p s) parent) e then
        let '(s, st) := put_slot s st hole (p_get (heap_p s) parent) in
        shift_up_loop fuel s st parent e
      else (s, st, hole)
  end.

Definition min_heap_shift_up_ (s : min_heap) (st : St) (hole : Z) (e : eid) : min_heap * St :=
  let '(s, st, hole) := shift_up_loop (Z.to_nat hole + 1) s st hole e in
  put_slot s st hole e.

(** The do-while: the first move is made without the comparison. *)
Definition min_heap_shift_up_unconditional_ (s : min_heap) (st : St) (hole : Z) (e : eid)
  : min_heap * St :=
  let parent := parent_of hole in
  let '(s, st) := put_slot s st hole (p_get (heap_p s) parent) in
  let '(s, st, hole) := shift_up_loop (Z.to_nat parent + 1) s st parent e in
  put_slot s st hole e.

Fixpoint shift_down_loop (fuel : nat) (s : min_heap) (st : St) (hole : Z) (e : eid)
  : min_heap * St * Z :=
  match fuel with
  | O => (s, st, hole)
  | S fuel =>
      let min_child := u32 (2 * (hole + 1)) in
      if min_child <=? heap_n s then
        let min_child :=
          min_child - c_int ((min_child =? heap_n s)
            || min_heap_elem_greater st (p_get (heap_p s) min_child) (p_get (heap_p s) (min_child - 1))) in
        if negb (min_heap_elem_greater st e (p_get (heap_p s) min_child)) then (s, st, hole)
        else
          let '(s, st) := put_slot s st hole (p_get (heap_p s) min_child) in
          shift_down_loop fuel s st min_child e
      else (s, st, hole)
  end.

Definition min_heap_shift_down_ (s : min_heap) (st : St) (hole : Z) (e : eid) : min_heap * St :=
  let '(s, st, hole) := shift_down_loop (Z.to_nat (heap_n s) + 1) s st hole e in
  put_slot s st hole e.

Definition min_heap_push_ (s : min_heap) (st : St) (e : eid) : Z * min_heap * St :=
  let '(r, s) := min_heap_reserve_ s (u32 (heap_n s + 1)) in
  if c_true r then (-1, s, st)
  else
    let hole := heap_n s in
    let s := {| s with heap_n := u32 (heap_n s + 1) |} in
    let '(s, st) := min_heap_shift_up_ s st hole e in
    (0, s, st).

Definition min_heap_pop_ (s : min_heap) (st : St) : option eid * min_heap * St :=
  if c_true (heap_n s) then
    let e := p_get (heap_p s) 0 in
    let s := {| s with heap_n := u32 (heap_n s - 1) |} in
    let '(s, st) := min_heap_shift_down_ s st 0 (p_get (heap_p s) (heap_n s)) in
    (Some e, s, set_min_heap_idx st e (-1))
  else (None, s, st).

(** Move [e] (or its replacement [x]) up or down from [idx]: the code
    [min_heap_erase_] and [min_heap_adjust_] share. *)
Definition sift (s : min_heap) (st : St) (idx : Z) (x : eid) : min_heap * St :=
  let parent := u32 (Z.quot (idx - 1) 2) in
  if (0 <? idx) && min_heap_elem_greater st (p_get (heap_p s) parent) x
  then min_heap_shift_up_unconditional_ s st idx x
  else min_heap_shift_down_ s st idx x.

Definition min_heap_erase_ (s : min_heap) (st : St) (e : eid) : Z * min_heap * St :=
  if negb (-1 =? min_heap_idx st e) then
    let s := {| s with heap_n := u32 (heap_n s - 1) |} in
    let last := p_get (heap_p s) (heap_n s) in
    let '(s, st) := sift s st (min_heap_idx st e) last in
    (0, s, set_min_heap_idx st e (-1))
  else (-1, s, st).

Definition min_heap_adjust_ (s : min_heap) (st : St) (e : eid) : Z * min_heap * St :=
  if -1 =? min_heap_idx st e then min_heap_push_ s st e
  else
    let '(s, st) := sift s st (min_heap_idx st e) e in (0, s, st).
End Operations.

(** ** The heap invariant. *)
Section Invariant.
Context {St : Type} `{HeapStore St}.

Definition par (i : Z) : Z := (i - 1) / 2.

(** Sizes stay in the range where indices fit the [int] field. *)
Definition heap_size_ok (s : min_heap) : Prop :=
  0 <= heap_n s < 2 ^ 31 /\ heap_n s <= heap_a s < 2 ^ 32 /\ Z.of_nat (length (heap_p s)) = heap_a s.

(** [e] is in the heap. *)
Definition in_heap (s : min_heap) (e : eid) : Prop :=
  exists i, 0 <= i < heap_n s /\ p_get (heap_p s) i = e.

Record heap_wf (s : min_heap) (st : St) : Prop := {
  hw_size : heap_size_ok s;
  hw_idx : forall i, 0 <= i < heap_n s -> min_heap_idx st (p_get (heap_p s) i) = i;
  hw_order : forall i, 0 < i < heap_n s ->
    tv_le (heap_timeout st (p_get (heap_p s) (par i))) (heap_timeout st (p_get (heap_p s) i))
}.

(** The loops move a hole through the array: the slots other than [h] hold
    the elements [E], none of which is [e]. *)
Record hole_inv (s : min_heap) (st : St) (h : Z) (e : eid) (E : eid -> Prop) : Prop := {
  hi_size : heap_size_ok s;
  hi_hole : 0 <= h < heap_n s;
  hi_idx : forall i, 0 <= i < heap_n s -> i <> h -> min_heap_idx st (p_get (heap_p s) i) = i;
  hi_elem : forall x, E x <-> exists i, 0 <= i < heap_n s /\ i <> h /\ p_get (heap_p s) i = x;
  hi_fresh : ~ E e
}.

(** Heap order except at the hole. *)
Record hole_order (s : min_heap) (st : St) (h : Z) : Prop := {
  ho_other : forall i, 0 < i < heap_n s -> i <> h -> par i <> h ->
    tv_le (heap_timeout st (p_get (heap_p s) (par i))) (heap_timeout st (p_get (heap_p s) i));
  ho_skip : forall c, 0 < c < heap_n s -> par c = h -> 0 < h ->
    tv_le (heap_timeout st (p_get (heap_p s) (par h))) (heap_timeout st (p_get (heap_p s) c))
}.
Definition below_children (s : min_heap) (st : St) (h : Z) (e : eid) : Prop :=
  forall c, 0 < c < heap_n s -> par c = h -> tv_le (heap_timeout st e) (heap_timeout st (p_get (heap_p s) c)).
Definition above_parent (s : min_heap) (st : St) (h : Z) (e : eid) : Prop :=
  0 < h -> tv_le (heap_timeout st (p_get (heap_p s) (par h))) (heap_timeout st e).
End Invariant.

Section Proofs.
Context {St : Type} `{HeapStoreLaws St}.
Implicit Types (s : min_heap) (st : St) (h : Z) (e : eid).

Lemma put_slot_n s st i x : heap_n (fst (put_slot s st i x)) = heap_n s.
Proof. done. Qed.
Lemma put_slot_timeout s st i x y :
  heap_timeout (snd (put_slot s st i x)) y = heap_timeout st y.
Proof. apply timeout_set. Qed.
Lemma put_slot_size s st i x :
  heap_size_ok s -> heap_size_ok (fst (put_slot s st i x)).
Proof. unfold heap_size_ok; cbn. rewrite arr_set_length. done. Qed.
Lemma put_slot_get_eq s st i x : heap_size_ok s -> 0 <= i < heap_n s ->
  p_get (heap_p (fst (put_slot s st i x))) i = x.
Proof. intros [? [? ?]] ?. apply arr_get_set_eq. lia. Qed.
Lemma put_slot_get_ne s st i j x : 0 <= i -> 0 <= j -> i <> j ->
  p_get (heap_p (fst (put_slot s st i x))) j = p_get (heap_p s) j.
Proof. intros. by apply arr_get_set_ne. Qed.
Lemma put_slot_idx_eq s st i x : 0 <= i < 2 ^ 31 ->
  min_heap_idx (snd (put_slot s st i x)) x = i.
Proof. intros. cbn. rewrite idx_set_eq. apply s32_small. lia. Qed.
Lemma put_slot_idx_ne s st i x y : x <> y ->
  min_heap_idx (snd (put_slot s st i x)) y = min_heap_idx st y.
Proof. intros. by apply idx_set_ne. Qed.

Lemma par_range i : 0 < i -> 0 <= par i < i.
Proof. unfold par. lia. Qed.
Lemma parent_of_par h : 0 < h < 2 ^ 32 -> parent_of h = par h.
Proof. intros. unfold parent_of, par. rewrite u32_small; lia. Qed.

Lemma hole_neq s st h e E i : hole_inv s st h e E ->
  0 <= i < heap_n s -> i <> h -> p_get (heap_p s) i <> e.
Proof. intros I ? ? <-. apply (hi_fresh _ _ _ _ _ I). apply I. eauto. Qed.

(** One move of the hole from [h] to [h']. *)
Lemma hole_move s st h e E h' :
  hole_inv s st h e E -> 0 <= h' < heap_n s -> h' <> h ->
  let '(s', st') := put_slot s st h (p_get (heap_p s) h') in
  hole_inv s' st' h' e E.
Proof.
  intros I Hh' Hne. destruct (put_slot s st h (p_get (heap_p s) h')) as [s' st'] eqn:Eq.
  pose proof (hi_hole _ _ _ _ _ I) as Hh. pose proof (hi_size _ _ _ _ _ I) as Hs.
  assert (s' = fst (put_slot s st h (p_get (heap_p s) h'))) as -> by (rewrite Eq; done).
  assert (st' = snd (put_slot s st h (p_get (heap_p s) h'))) as -> by (rewrite Eq; done).
  assert (0 <= h < 2 ^ 31) by (destruct Hs; lia).
  split.
  - by apply put_slot_size.
  - by rewrite put_slot_n.
  - rewrite put_slot_n. intros i Hi Hih'. destruct (decide (i = h)) as [->|].
    + rewrite put_slot_get_eq by done. by apply put_slot_idx_eq.
    + rewrite put_slot_get_ne by lia. rewrite put_slot_idx_ne; [by apply I|].
      intros Heq. pose proof (hi_idx _ _ _ _ _ I h' Hh' Hne) as E1.
      pose proof (hi_idx _ _ _ _ _ I i Hi ltac:(done)) as E2. congruence.
  - intros x. rewrite (hi_elem _ _ _ _ _ I x). rewrite put_slot_n. split.
    + intros (i & Hi & Hih & <-). destruct (decide (i = h')) as [->|].
      * exists h. rewrite put_slot_get_eq by done. auto.
      * exists i. rewrite put_slot_get_ne by lia. auto.
    + intros (i & Hi & Hih & <-). destruct (decide (i = h)) as [->|].
      * exists h'. rewrite put_slot_get_eq by done. auto.
      * exists i. rewrite put_slot_get_ne by lia. auto.
  - apply I.
Qed.

(** Filling the hole. *)
Lemma hole_fill s st h e E :
  hole_inv s st h e E -> hole_order s st h -> below_children s st h e -> above_parent s st h e ->
  let '(s', st') := put_slot s st h e in
  heap_wf s' st' /\ (forall x, in_heap s' x <-> x = e \/ E x).
Proof.
  intros I O Hb Ha. destruct (put_slot s st h e) as [s' st'] eqn:Eq.
  pose proof (hi_hole _ _ _ _ _ I) as Hh. pose proof (hi_size _ _ _ _ _ I) as Hs.
  assert (s' = fst (put_slot s st h e)) as -> by (rewrite Eq; done).
  assert (st' = snd (put_slot s st h e)) as -> by (rewrite Eq; done).
  assert (0 <= h < 2 ^ 31) by (destruct Hs; lia).
  split; [split|].
  - by apply put_slot_size.
  - rewrite put_slot_n. intros i Hi. destruct (decide (i = h)) as [->|].
    + rewrite put_slot_get_eq by done. by apply put_slot_idx_eq.
    + rewrite put_slot_get_ne by lia. rewrite put_slot_idx_ne; [by apply I|].
      intros Heq. by apply (hole_neq _ _ _ _ _ i I).
  - rewrite put_slot_n. intros i Hi. rewrite !put_slot_timeout.
    pose proof (par_range i ltac:(lia)). destruct (decide (i = h)) as [->|].
    + rewrite put_slot_get_eq, put_slot_get_ne by (done || lia). apply Ha. lia.
    + rewrite (put_slot_get_ne _ _ h i) by lia. destruct (decide (par i = h)) as [Hp|].
      * rewrite Hp, put_slot_get_eq by (done || lia). by apply Hb.
      * rewrite put_slot_get_ne by lia. by apply O.
  - intros x. unfold in_heap. rewrite put_slot_n, (hi_elem _ _ _ _ _ I). split.
    + intros (i & Hi & <-). destruct (decide (i = h)) as [->|].
      * left. by rewrite put_slot_get_eq.
      * right. exists i. rewrite put_slot_get_ne by lia. auto.
    + intros [-> | (i & Hi & Hih & <-)].
      * exists h. by rewrite put_slot_get_eq.
      * exists i. by rewrite put_slot_get_ne by lia.
Qed.

Lemma greater_lt st x y :
  min_heap_elem_greater st x y = true -> tv_lt (heap_timeout st y) (heap_timeout st x).
Proof. apply tv_gt_lt. Qed.
Lemma not_greater_le st x y :
  min_heap_elem_greater st x y = false -> tv_le (heap_timeout st x) (heap_timeout st y).
Proof. done. Qed.

(** A step of the upward loop keeps the order and the children above [e]. *)
Lemma up_step_order s st h e E :
  hole_inv s st h e E -> hole_order s st h -> below_children s st h e -> 0 < h ->
  tv_le (heap_timeout st e) (heap_timeout st (p_get (heap_p s) (par h))) ->
  let '(s', st') := put_slot s st h (p_get (heap_p s) (par h)) in
  hole_order s' st' (par h) /\ below_children s' st' (par h) e.
Proof.
  intros I O B Hh Hlt.
  pose proof (hi_hole _ _ _ _ _ I) as Hr. pose proof (hi_size _ _ _ _ _ I) as Hs.
  destruct (put_slot s st h (p_get (heap_p s) (par h))) as [s' st'] eqn:Eq.
  assert (s' = fst (put_slot s st h (p_get (heap_p s) (par h)))) as -> by (rewrite Eq; done).
  assert (st' = snd (put_slot s st h (p_get (heap_p s) (par h)))) as -> by (rewrite Eq; done).
  pose proof (par_range h Hh) as Hp.
  assert (Hle : forall c, 0 < c < heap_n s -> par c = par h -> c <> h ->
    tv_le (heap_timeout st (p_get (heap_p s) (par h))) (heap_timeout st (p_get (heap_p s) c))).
  { intros c Hc Hpc Hne. rewrite <- Hpc. apply O; [done..|]. rewrite Hpc. lia. }
  split; [split|].
  - rewrite put_slot_n. intros i Hi Hne Hpne. rewrite !put_slot_timeout.
    assert (i <> h) by (intros ->; done).
    pose proof (par_range i ltac:(lia)).
    rewrite (put_slot_get_ne _ _ h i) by lia. destruct (decide (par i = h)) as [Hih|].
    + rewrite Hih, put_slot_get_eq by done. by apply (ho_skip _ _ _ O).
    + rewrite put_slot_get_ne by lia. by apply O.
  - rewrite put_slot_n. intros c Hc Hpc Hph. rewrite !put_slot_timeout.
    pose proof (par_range (par h) Hph).
    rewrite (put_slot_get_ne _ _ h (par (par h))) by lia.
    assert (tv_le (heap_timeout st (p_get (heap_p s) (par (par h))))
                  (heap_timeout st (p_get (heap_p s) (par h)))) as Hpp by (apply O; lia).
    destruct (decide (c = h)) as [->|].
    + by rewrite put_slot_get_eq.
    + rewrite put_slot_get_ne by lia. eapply tv_le_trans; [exact Hpp | by apply Hle].
  - intros c. rewrite put_slot_n. intros Hc Hpc. rewrite !put_slot_timeout.
    destruct (decide (c = h)) as [->|].
    + by rewrite put_slot_get_eq.
    + rewrite put_slot_get_ne by lia. eapply tv_le_trans; [exact Hlt | by apply Hle].
Qed.

(** Nothing but the moved elements' indices changes in the store. *)
Definition frame (E : eid -> Prop) (e : eid) (st st' : St) : Prop :=
  (forall x, heap_timeout st' x = heap_timeout st x) /\
  (forall x, x <> e -> ~ E x -> min_heap_idx st' x = min_heap_idx st x).

Lemma frame_refl E e st : frame E e st st.
Proof. done. Qed.
Lemma frame_trans E e st1 st2 st3 : frame E e st1 st2 -> frame E e st2 st3 -> frame E e st1 st3.
Proof.
  intros [T1 F1] [T2 F2]. split; intros; [by rewrite T2, T1 | by rewrite F2, F1].
Qed.
Lemma frame_move s st h e E h' :
  hole_inv s st h e E -> 0 <= h' < heap_n s -> h' <> h ->
  frame E e st (snd (put_slot s st h (p_get (heap_p s) h'))).
Proof.
  intros I ? ?. split; [intros; apply put_slot_timeout|].
  intros y Hy HE. apply put_slot_idx_ne. intros <-. apply HE, I. eauto.
Qed.
Lemma frame_fill E s st h e : frame E e st (snd (put_slot s st h e)).
Proof. split; intros; [apply put_slot_timeout | by apply put_slot_idx_ne]. Qed.

(** The loop ends with its test false, for every fuel above the hole. *)
Lemma shift_up_loop_ok fuel s st h e E :
  (Z.to_nat h < fuel)%nat ->
  hole_inv s st h e E -> hole_order s st h -> below_children s st h e ->
  let '(s', st', h') := shift_up_loop fuel s st h e in
  hole_inv s' st' h' e E /\ hole_order s' st' h' /\ below_children s' st' h' e /\
  above_parent s' st' h' e /\ heap_n s' = heap_n s /\ heap_a s' = heap_a s /\ frame E e st st'.
Proof.
  revert s st h. induction fuel as [|fuel IH]; intros s st h Hf I O B; [lia|].
  cbn [shift_up_loop].
  pose proof (hi_hole _ _ _ _ _ I) as Hr. pose proof (hi_size _ _ _ _ _ I) as Hs.
  destruct (c_true h) eqn:Hc; cbn [andb].
  2:{ unfold c_true in Hc. assert (h = 0) by lia. subst.
      split_and!; auto using frame_refl. intros ?. lia. }
  unfold c_true in Hc. assert (0 < h) by lia.
  rewrite parent_of_par by (destruct Hs; lia).
  destruct (min_heap_elem_greater st (p_get (heap_p s) (par h)) e) eqn:Hg.
  - pose proof (par_range h ltac:(lia)) as Hp.
    pose proof (hole_move s st h e E (par h) I ltac:(lia) ltac:(lia)) as I'.
    pose proof (up_step_order s st h e E I O B ltac:(lia)
      (tv_lt_le _ _ (greater_lt _ _ _ Hg))) as O'.
    pose proof (frame_move s st h e E (par h) I ltac:(lia) ltac:(lia)) as F.
    pose proof (put_slot_n s st h (p_get (heap_p s) (par h))) as Hn.
    assert (heap_a (fst (put_slot s st h (p_get (heap_p s) (par h)))) = heap_a s) as Ha by done.
    destruct (put_slot s st h (p_get (heap_p s) (par h))) as [s1 st1].
    cbn [fst snd] in *. destruct O' as [O1 B1].
    specialize (IH s1 st1 (par h) ltac:(lia) I' O1 B1).
    destruct (shift_up_loop fuel s1 st1 (par h) e) as [[s2 st2] h2].
    destruct IH as (? & ? & ? & ? & Hn2 & Ha2 & F2).
    split_and!; try done; try congruence. by apply (frame_trans _ _ _ _ _ F).
  - split_and!; auto using frame_refl.
    intros ?. by apply not_greater_le.
Qed.

(** What both shifts establish. *)
Definition shift_post (s : min_heap) (st : St) (e : eid) (E : eid -> Prop)
  (r : min_heap * St) : Prop :=
  heap_wf (fst r) (snd r) /\ (forall x, in_heap (fst r) x <-> x = e \/ E x) /\
  heap_n (fst r) = heap_n s /\ heap_a (fst r) = heap_a s /\ frame E e st (snd r).

Lemma finish_shift s st s0 st0 h e E :
  hole_inv s st h e E -> hole_order s st h -> below_children s st h e -> above_parent s st h e ->
  heap_n s = heap_n s0 -> heap_a s = heap_a s0 -> frame E e st0 st ->
  shift_post s0 st0 e E (put_slot s st h e).
Proof.
  intros I O B A Hn Ha F. pose proof (hole_fill s st h e E I O B A) as W.
  pose proof (frame_fill E s st h e) as F'.
  destruct (put_slot s st h e) as [s' st'] eqn:Eq.
  assert (heap_n s' = heap_n s /\ heap_a s' = heap_a s) as [Hn' Ha'] by (unfold put_slot in Eq; by inv_opt).
  unfold shift_post; cbn [fst snd] in *. destruct W as [W1 W2].
  split_and!; try done; try congruence. by apply (frame_trans _ _ _ _ _ F).
Qed.

Lemma shift_up_ok s st h e E :
  hole_inv s st h e E -> hole_order s st h -> below_children s st h e ->
  shift_post s st e E (min_heap_shift_up_ s st h e).
Proof.
  intros I O B. unfold min_heap_shift_up_.
  pose proof (shift_up_loop_ok (Z.to_nat h + 1) s st h e E ltac:(lia) I O B) as L.
  destruct (shift_up_loop (Z.to_nat h + 1) s st h e) as [[s' st'] h'].
  destruct L as (? & ? & ? & ? & ? & ? & ?). by apply finish_shift.
Qed.

(** The do-while, entered when the first comparison would succeed. *)
Lemma shift_up_unconditional_ok s st h e E :
  hole_inv s st h e E -> hole_order s st h -> below_children s st h e -> 0 < h ->
  min_heap_elem_greater st (p_get (heap_p s) (par h)) e = true ->
  shift_post s st e E (min_heap_shift_up_unconditional_ s st h e).
Proof.
  intros I O B Hh Hg. pose proof (hi_hole _ _ _ _ _ I). pose proof (hi_size _ _ _ _ _ I) as Hs.
  pose proof (par_range h Hh). unfold min_heap_shift_up_unconditional_.
  rewrite parent_of_par by (destruct Hs; lia).
  pose proof (hole_move s st h e E (par h) I ltac:(lia) ltac:(lia)) as I'.
  pose proof (up_step_order s st h e E I O B Hh (tv_lt_le _ _ (greater_lt _ _ _ Hg))) as O'.
  pose proof (frame_move s st h e E (par h) I ltac:(lia) ltac:(lia)) as F.
  pose proof (put_slot_n s st h (p_get (heap_p s) (par h))) as Hn.
  assert (heap_a (fst (put_slot s st h (p_get (heap_p s) (par h)))) = heap_a s) as Ha by done.
  destruct (put_slot s st h (p_get (heap_p s) (par h))) as [s1 st1].
  cbn [fst snd] in *. destruct O' as [O1 B1].
  pose proof (shift_up_loop_ok (Z.to_nat (par h) + 1) s1 st1 (par h) e E ltac:(lia) I' O1 B1) as L.
  destruct (shift_up_loop (Z.to_nat (par h) + 1) s1 st1 (par h) e) as [[s2 st2] h2].
  destruct L as (? & ? & ? & ? & ? & ? & F2).
  apply finish_shift; try done; try congruence. by apply (frame_trans _ _ _ _ _ F).
Qed.
End Proofs.

Section Down.
Context {St : Type} `{HeapStoreLaws St}.
Implicit Types (s : min_heap) (st : St) (h : Z) (e : eid).

(** The smaller child of [h], as the downward loop picks it. *)
Definition min_child_of (s : min_heap) (st : St) (h : Z) : Z :=
  2 * (h + 1) - c_int ((2 * (h + 1) =? heap_n s)
    || min_heap_elem_greater st (p_get (heap_p s) (2 * (h + 1))) (p_get (heap_p s) (2 * (h + 1) - 1))).

Lemma min_child_range s st h : 0 <= h -> 2 * (h + 1) <= heap_n s ->
  h < min_child_of s st h < heap_n s /\ par (min_child_of s st h) = h.
Proof.
  intros Hh Hc. unfold min_child_of, par, c_int.
  destruct (Z.eqb_spec (2 * (h + 1)) (heap_n s)); cbn [orb]; [lia|].
  case_if; lia.
Qed.

Lemma min_child_le s st h c : 0 <= h -> 2 * (h + 1) <= heap_n s -> 0 < c < heap_n s -> par c = h ->
  tv_le (heap_timeout st (p_get (heap_p s) (min_child_of s st h))) (heap_timeout st (p_get (heap_p s) c)).
Proof.
  intros Hh Hn Hc Hp. unfold min_child_of, c_int.
  assert (c = 2 * (h + 1) \/ c = 2 * (h + 1) - 1) as Hcc by (unfold par in Hp; lia).
  destruct (Z.eqb_spec (2 * (h + 1)) (heap_n s)); cbn [orb].
  - assert (c = 2 * (h + 1) - 1) as -> by lia. auto with levent.
  - destruct (min_heap_elem_greater _ _ _) eqn:Hg.
    + destruct Hcc as [-> | ->]; auto using greater_lt with levent.
    + rewrite Z.sub_0_r. destruct Hcc as [-> | ->]; auto using not_greater_le with levent.
Qed.

Lemma down_step_order s st h e E :
  hole_inv s st h e E -> hole_order s st h -> 2 * (h + 1) <= heap_n s ->
  tv_le (heap_timeout st (p_get (heap_p s) (min_child_of s st h))) (heap_timeout st e) ->
  let '(s', st') := put_slot s st h (p_get (heap_p s) (min_child_of s st h)) in
  hole_order s' st' (min_child_of s st h) /\ above_parent s' st' (min_child_of s st h) e.
Proof.
  intros I O Hn Hlt. set (c := min_child_of s st h) in *.
  pose proof (hi_hole _ _ _ _ _ I) as Hr. pose proof (hi_size _ _ _ _ _ I) as Hs.
  destruct (min_child_range s st h ltac:(lia) Hn) as [Hc Hpc]. fold c in Hc, Hpc.
  pose proof (put_slot_size s st h (p_get (heap_p s) c) Hs) as Hs'.
  destruct (put_slot s st h (p_get (heap_p s) c)) as [s' st'] eqn:Eq.
  assert (s' = fst (put_slot s st h (p_get (heap_p s) c))) as -> by (rewrite Eq; done).
  assert (st' = snd (put_slot s st h (p_get (heap_p s) c))) as -> by (rewrite Eq; done).
  split; [split|].
  - rewrite put_slot_n. intros i Hi Hne Hpne. rewrite !put_slot_timeout.
    pose proof (par_range i ltac:(lia)).
    destruct (decide (i = h)) as [->|].
    + rewrite put_slot_get_eq by done. rewrite put_slot_get_ne by lia.
      apply (ho_skip _ _ _ O); lia.
    + rewrite (put_slot_get_ne _ _ h i) by lia. destruct (decide (par i = h)) as [Hih|].
      * rewrite Hih, put_slot_get_eq by done. apply min_child_le; lia.
      * rewrite put_slot_get_ne by lia. by apply O.
  - rewrite put_slot_n, Hpc. intros g Hg Hpg _. rewrite !put_slot_timeout.
    pose proof (par_range g ltac:(lia)).
    rewrite put_slot_get_eq by done. rewrite put_slot_get_ne by lia.
    rewrite <- Hpg. apply O; [lia..|]. rewrite Hpg. lia.
  - intros _. rewrite Hpc, !put_slot_timeout. by rewrite put_slot_get_eq.
Qed.

Lemma shift_down_loop_ok fuel s st h e E :
  (Z.to_nat (heap_n s - h) <= fuel)%nat ->
  hole_inv s st h e E -> hole_order s st h -> above_parent s st h e ->
  let '(s', st', h') := shift_down_loop fuel s st h e in
  hole_inv s' st' h' e E /\ hole_order s' st' h' /\ below_children s' st' h' e /\
  above_parent s' st' h' e /\ heap_n s' = heap_n s /\ heap_a s' = heap_a s /\ frame E e st st'.
Proof.
  revert s st h. induction fuel as [|fuel IH]; intros s st h Hf I O A;
    pose proof (hi_hole _ _ _ _ _ I) as Hr; pose proof (hi_size _ _ _ _ _ I) as Hs; [lia|].
  cbn [shift_down_loop]. rewrite u32_small by (destruct Hs; lia).
  destruct (Z.leb_spec (2 * (h + 1)) (heap_n s)) as [Hle|Hgt].
  2:{ split_and!; auto using frame_refl.
      intros c Hc Hp. unfold par in Hp. lia. }
  fold (min_child_of s st h). set (c := min_child_of s st h).
  destruct (min_child_range s st h ltac:(lia) Hle) as [Hc Hpc]. fold c in Hc, Hpc.
  destruct (min_heap_elem_greater st e (p_get (heap_p s) c)) eqn:Hg; cbn [negb].
  - pose proof (hole_move s st h e E c I ltac:(lia) ltac:(lia)) as I'.
    pose proof (down_step_order s st h e E I O Hle
      (tv_lt_le _ _ (greater_lt _ _ _ Hg))) as O'.
    pose proof (frame_move s st h e E c I ltac:(lia) ltac:(lia)) as F.
    fold c in O'. pose proof (put_slot_n s st h (p_get (heap_p s) c)) as Hn.
    assert (heap_a (fst (put_slot s st h (p_get (heap_p s) c))) = heap_a s) as Ha by done.
    destruct (put_slot s st h (p_get (heap_p s) c)) as [s1 st1].
    cbn [fst snd] in *. destruct O' as [O1 A1].
    specialize (IH s1 st1 c ltac:(rewrite Hn; lia) I' O1 A1).
    destruct (shift_down_loop fuel s1 st1 c e) as [[s2 st2] h2].
    destruct IH as (? & ? & ? & ? & Hn2 & Ha2 & F2).
    split_and!; try done; try congruence. by apply (frame_trans _ _ _ _ _ F).
  - split_and!; auto using frame_refl.
    intros g Hgr Hpg. eapply tv_le_trans; [by apply not_greater_le|].
    apply min_child_le; lia.
Qed.

Lemma shift_down_ok s st h e E :
  hole_inv s st h e E -> hole_order s st h -> above_parent s st h e ->
  shift_post s st e E (min_heap_shift_down_ s st h e).
Proof.
  intros I O A. unfold min_heap_shift_down_. pose proof (hi_hole _ _ _ _ _ I).
  pose proof (shift_down_loop_ok (Z.to_nat (heap_n s) + 1) s st h e E ltac:(lia) I O A) as L.
  destruct (shift_down_loop (Z.to_nat (heap_n s) + 1) s st h e) as [[s' st'] h'].
  destruct L as (? & ? & ? & ? & ? & ? & ?). by apply finish_shift.
Qed.

(** A hole in a heap: the slot of any element, or a new slot at the end. *)
Lemma sift_ok s st h e E :
  hole_inv s st h e E -> hole_order s st h ->
  (* the children of the hole are not smaller than its parent's element *)
  (min_heap_elem_greater st (p_get (heap_p s) (par h)) e = true -> 0 < h -> below_children s st h e) ->
  shift_post s st e E (sift s st h e).
Proof.
  intros I O B. unfold sift. pose proof (hi_hole _ _ _ _ _ I).
  pose proof (hi_size _ _ _ _ _ I) as Hs.
  destruct (Z.ltb_spec 0 h); cbn [andb].
  - rewrite Z.quot_div_nonneg, u32_small by (destruct Hs; lia). fold (par h).
    destruct (min_heap_elem_greater _ _ _) eqn:Hg.
    + apply shift_up_unconditional_ok; auto.
    + apply shift_down_ok; auto. intros _. by apply not_greater_le.
  - apply shift_down_ok; auto. intros ?. lia.
Qed.
End Down.

(** ** The operations. *)
Section Specs.
Context {St : Type} `{HeapStoreLaws St}.
Implicit Types (s : min_heap) (st : St) (e : eid).

(** The order facts survive a change of [e]'s own timeout. *)
Definition same_but (e : eid) (st st' : St) : Prop :=
  (forall x, x <> e -> heap_timeout st' x = heap_timeout st x) /\
  (forall x, min_heap_idx st' x = min_heap_idx st x).

Lemma same_but_refl e st : same_but e st st.
Proof. done. Qed.

Lemma in_heap_idx s st x : heap_wf s st -> in_heap s x ->
  0 <= min_heap_idx st x < heap_n s /\ p_get (heap_p s) (min_heap_idx st x) = x.
Proof. intros W (i & Hi & <-). by rewrite (hw_idx _ _ W i Hi). Qed.

Lemma heap_idx_inj s st i j : heap_wf s st -> 0 <= i < heap_n s -> 0 <= j < heap_n s ->
  p_get (heap_p s) i = p_get (heap_p s) j -> i = j.
Proof.
  intros W Hi Hj Heq. rewrite <- (hw_idx _ _ W i Hi), <- (hw_idx _ _ W j Hj). by rewrite Heq.
Qed.

(** Opening a hole at index [i] of a heap, possibly dropping the last slot. *)
Lemma open_hole s st st' i m e :
  heap_wf s st -> 0 <= i < m -> m <= heap_n s -> same_but (p_get (heap_p s) i) st st' ->
  (forall j, 0 <= j < m -> j <> i -> p_get (heap_p s) j <> e) ->
  let s' := {| s with heap_n := m |} in
  hole_inv s' st' i e (fun x => exists j, 0 <= j < m /\ j <> i /\ p_get (heap_p s) j = x) /\
  hole_order s' st' i.
Proof.
  intros W Hi Hm [ST SI] He s'. pose proof (hw_size _ _ W) as Hs.
  assert (Hne : forall j, 0 <= j < m -> j <> i ->
    heap_timeout st' (p_get (heap_p s) j) = heap_timeout st (p_get (heap_p s) j)).
  { intros j Hj Hji. apply ST. intros Heq. apply Hji.
    by apply (heap_idx_inj s st); [done | lia | lia |]. }
  split; [split|split]; subst s'; cbn [heap_n heap_p heap_a].
  - destruct Hs as (? & ? & ?). unfold heap_size_ok; cbn. lia.
  - done.
  - intros j Hj Hji. rewrite SI. apply W. lia.
  - done.
  - intros (j & Hj & Hji & Heq). by apply (He j).
  - intros j Hj Hji Hpj. pose proof (par_range j ltac:(lia)).
    rewrite !Hne by lia. apply W. lia.
  - intros c Hc Hpc Hi0. pose proof (par_range i Hi0). pose proof (par_range c ltac:(lia)).
    rewrite !Hne by lia. eapply tv_le_trans; [apply (hw_order _ _ W); lia|].
    rewrite <- Hpc. apply W. lia.
Qed.

(** When [e] must move up from [i], it is below the children of [i]. *)
Lemma move_up_below s st st' i m e :
  heap_wf s st -> 0 <= i < m -> m <= heap_n s -> same_but (p_get (heap_p s) i) st st' ->
  min_heap_elem_greater st' (p_get (heap_p s) (par i)) e = true -> 0 < i ->
  below_children {| s with heap_n := m |} st' i e.
Proof.
  intros W Hi Hm [ST SI] Hg Hi0 c Hc Hpc. cbn [heap_p heap_n] in *.
  pose proof (par_range i Hi0). pose proof (par_range c ltac:(lia)).
  assert (Hne : forall j, 0 <= j < m -> j <> i ->
    heap_timeout st' (p_get (heap_p s) j) = heap_timeout st (p_get (heap_p s) j)).
  { intros j Hj Hji. apply ST. intros Heq. apply Hji.
    by apply (heap_idx_inj s st); [done | lia | lia |]. }
  apply greater_lt, tv_lt_le in Hg. rewrite Hne in Hg by lia. rewrite Hne by lia.
  eapply tv_le_trans; [exact Hg|].
  eapply tv_le_trans; [apply (hw_order _ _ W); lia|].
  rewrite <- Hpc. apply W. lia.
Qed.

(** Dropping the last slot of a heap. *)
Lemma drop_last s st st' : heap_wf s st -> 0 < heap_n s ->
  (forall x, heap_timeout st' x = heap_timeout st x) ->
  (forall x, x <> p_get (heap_p s) (heap_n s - 1) -> min_heap_idx st' x = min_heap_idx st x) ->
  forall q, Z.of_nat (length q) = heap_a s ->
  (forall j, 0 <= j < heap_n s - 1 -> p_get q j = p_get (heap_p s) j) ->
  heap_wf {| heap_p := q; heap_n := heap_n s - 1; heap_a := heap_a s |} st'.
Proof.
  intros W Hn HT HI q Hq Hg. pose proof (hw_size _ _ W) as (? & ? & ?).
  split; cbn [heap_p heap_n heap_a].
  - unfold heap_size_ok; cbn. lia.
  - intros i Hi. rewrite Hg by done. rewrite HI; [apply W; lia|].
    intros Heq. apply (heap_idx_inj s st) in Heq; [lia | done | lia | lia].
  - intros i Hi. pose proof (par_range i ltac:(lia)). rewrite !Hg, !HT by lia.
    apply W. lia.
Qed.

(** What [min_heap_erase_] and [min_heap_pop_] establish for [e]. *)
Definition removed_post (s : min_heap) (st : St) (e : eid) (s' : min_heap) (st' : St) : Prop :=
  heap_wf s' st' /\ heap_n s' = heap_n s - 1 /\
  (forall x, in_heap s' x <-> in_heap s x /\ x <> e) /\
  min_heap_idx st' e = -1 /\
  (forall x, heap_timeout st' x = heap_timeout st x) /\
  (forall x, ~ in_heap s x -> min_heap_idx st' x = min_heap_idx st x).

(** Resetting the index of an element that is not in the heap. *)
Lemma heap_wf_reset s st e : heap_wf s st -> ~ in_heap s e ->
  heap_wf s (set_min_heap_idx st e (-1)).
Proof.
  intros W He. split; [apply W| |].
  - intros i Hi. rewrite idx_set_ne; [by apply W|]. intros ->. apply He. by exists i.
  - intros i Hi. rewrite !timeout_set. by apply W.
Qed.

(** Removing the element at index [i], by refilling its slot from the end. *)
Lemma remove_at s st i :
  heap_wf s st -> 0 <= i < heap_n s - 1 ->
  let e := p_get (heap_p s) i in
  let s1 := {| s with heap_n := heap_n s - 1 |} in
  forall s' st',
  shift_post s1 st (p_get (heap_p s) (heap_n s - 1))
    (fun x => exists j, 0 <= j < heap_n s - 1 /\ j <> i /\ p_get (heap_p s) j = x) (s', st') ->
  removed_post s st e s' (set_min_heap_idx st' e (-1)).
Proof.
  intros W Hi e s1 s' st' (W' & M & Hn & _ & [FT FI]). cbn [fst snd] in *.
  assert (Hmem : forall x, in_heap s' x <-> in_heap s x /\ x <> e).
  { intros x. rewrite M. split.
    - intros [-> | (j & Hj & Hji & <-)]; (split; [eexists; split; [|done]; lia|]);
        unfold e; intros Heq; apply (heap_idx_inj s st) in Heq; try done; lia.
    - intros [(j & Hj & <-) Hxe]. destruct (decide (j = heap_n s - 1)) as [->|]; [by left|].
      right. exists j. split_and!; [lia..| | done]. intros ->. done. }
  assert (~ in_heap s' e) by (rewrite Hmem; tauto).
  split_and!.
  - by apply heap_wf_reset.
  - done.
  - done.
  - apply idx_set_eq.
  - intros x. by rewrite timeout_set, FT.
  - intros x Hx. rewrite idx_set_ne.
    + apply FI.
      * intros ->. apply Hx. exists (heap_n s - 1). split; [lia | done].
      * intros (j & Hj & _ & <-). apply Hx. exists j. split; [lia | done].
    + intros <-. apply Hx. exists i. split; [lia | done].
Qed.

(** Removing the last element: the refill writes the slot just dropped. *)
Lemma remove_last s st i s' st' :
  heap_wf s st -> 0 < heap_n s -> i = heap_n s - 1 ->
  let e := p_get (heap_p s) i in
  (s', st') = put_slot {| s with heap_n := heap_n s - 1 |} st i e ->
  removed_post s st e s' (set_min_heap_idx st' e (-1)).
Proof.
  intros W Hn -> e Heq. unfold put_slot in Heq. cbn [heap_p heap_n heap_a] in Heq. inv_opt.
  pose proof (hw_size _ _ W) as (? & ? & ?).
  assert (Hg : forall j, 0 <= j < heap_n s - 1 ->
    p_get (arr_set (heap_p s) (heap_n s - 1) e) j = p_get (heap_p s) j).
  { intros j Hj. apply arr_get_set_ne; lia. }
  assert (Hmem : forall x, in_heap {| heap_p := arr_set (heap_p s) (heap_n s - 1) e; heap_n := heap_n s - 1; heap_a := heap_a s |} x
    <-> in_heap s x /\ x <> e).
  { intros x. unfold in_heap; cbn [heap_p heap_n]. split.
    - intros (j & Hj & <-). rewrite Hg by done. split; [exists j; split; [lia | done]|].
      unfold e. intros Heq. apply (heap_idx_inj s st) in Heq; [lia | done | lia | lia].
    - intros [(j & Hj & <-) Hne]. exists j. assert (j <> heap_n s - 1) by (intros ->; done).
      rewrite Hg by lia. split; [lia | done]. }
  split_and!.
  - apply (drop_last s st); [done | done | | | by rewrite arr_set_length | done].
    + intros x. by rewrite !timeout_set.
    + intros x Hx. by rewrite !idx_set_ne.
  - done.
  - exact Hmem.
  - apply idx_set_eq.
  - intros x. by rewrite !timeout_set.
  - intros x Hx. assert (e <> x) by (intros <-; apply Hx; exists (heap_n s - 1); split; [lia | done]).
    by rewrite !idx_set_ne.
Qed.
End Specs.

Section Operation_specs.
Context {St : Type} `{HeapStoreLaws St}.
Implicit Types (s : min_heap) (st : St) (e : eid).

(** The top is a minimum. *)
Lemma root_le s st i : heap_wf s st -> 0 <= i < heap_n s ->
  tv_le (heap_timeout st (p_get (heap_p s) 0)) (heap_timeout st (p_get (heap_p s) i)).
Proof.
  intros W [Hi Hn]. revert Hn. pattern i. apply Z_lt_induction; [|done].
  intros j IH Hj. destruct (decide (j <= 0)) as [Hle|].
  - destruct (decide (j = 0)) as [->|]; [auto with levent|].
    unfold p_get. rewrite !arr_get_nth. replace (Z.to_nat j) with (Z.to_nat 0) by lia. auto with levent.
  - pose proof (par_range j ltac:(lia)).
    eapply tv_le_trans; [apply (IH (par j)); lia | apply W; lia].
Qed.

Lemma top_min s st e : heap_wf s st -> min_heap_top_ s = Some e ->
  in_heap s e /\ forall x, in_heap s x -> tv_le (heap_timeout st e) (heap_timeout st x).
Proof.
  intros W Ht. unfold min_heap_top_, c_true in Ht. case_if_in Ht; [|done]. inv_opt.
  pose proof (hw_size _ _ W) as (? & ? & ?). split.
  - exists 0. split; [lia | done].
  - intros x (i & Hi & <-). by apply root_le.
Qed.

Lemma top_none s st : heap_wf s st -> min_heap_top_ s = None <-> forall x, ~ in_heap s x.
Proof.
  intros W. pose proof (hw_size _ _ W) as (? & ? & ?). unfold min_heap_top_, c_true.
  destruct (Z.eqb_spec (heap_n s) 0); cbn; split; try done.
  - intros _ x (i & Hi & _). lia.
  - intros Hx. exfalso. apply (Hx (p_get (heap_p s) 0)). exists 0. split; [lia | done].
Qed.

(** A negative index is the mark of an event outside the heap. *)
Lemma idx_nonneg s st x : heap_wf s st -> in_heap s x -> min_heap_idx st x <> -1.
Proof. intros W Hx. pose proof (in_heap_idx s st x W Hx). lia. Qed.

Lemma reserve_ok (mm_realloc_ok : Z -> bool) s st k : heap_wf s st -> k < 2 ^ 31 ->
  match min_heap_reserve_ mm_realloc_ok s k with
  | (r, s') =>
      (r = 0 /\ heap_wf s' st /\ heap_n s' = heap_n s /\ k <= heap_a s' /\
         forall i, 0 <= i < heap_n s -> p_get (heap_p s') i = p_get (heap_p s) i) \/
      (r = -1 /\ s' = s /\ exists b, mm_realloc_ok b = false)
  end.
Proof.
  intros W Hk. pose proof (hw_size _ _ W) as (Hn & Ha & Hl).
  unfold min_heap_reserve_. destruct (Z.ltb_spec (heap_a s) k); [|left; split_and!; done].
  set (a1 := if c_true (heap_a s) then u32 (heap_a s * 2) else 8).
  set (a2 := if a1 <? k then k else a1).
  assert (heap_a s <= a2 /\ k <= a2 /\ a2 < 2 ^ 32) as (Ha2 & Hk2 & Hb).
  { subst a2 a1. unfold c_true, u32. destruct (Z.eqb_spec (heap_a s) 0); cbn [negb]; case_if; lia. }
  destruct (mm_realloc_ok (a2 * 8)) eqn:Hr; [left | right; eauto].
  assert (Hget : forall i, 0 <= i < heap_n s ->
    p_get (heap_p s ++ replicate (Z.to_nat (a2 - Z.of_nat (length (heap_p s)))) 0%nat) i = p_get (heap_p s) i).
  { intros i Hi. unfold p_get. rewrite !arr_get_nth. apply app_nth1. lia. }
  split_and!; cbn [heap_p heap_n heap_a]; try done. split; cbn [heap_p heap_n heap_a].
  - unfold heap_size_ok; cbn [heap_p heap_n heap_a]. rewrite length_app, length_replicate. lia.
  - intros i Hi. rewrite Hget by done. by apply W.
  - intros i Hi. pose proof (par_range i ltac:(lia)). rewrite !Hget by lia. by apply W.
Qed.

(** What a successful push of a new element establishes. *)
Definition pushed_post (s : min_heap) (st : St) (e : eid) (s' : min_heap) (st' : St) : Prop :=
  heap_wf s' st' /\ heap_n s' = heap_n s + 1 /\
  (forall x, in_heap s' x <-> x = e \/ in_heap s x) /\
  (forall x, heap_timeout st' x = heap_timeout st x) /\
  (forall x, x <> e -> ~ in_heap s x -> min_heap_idx st' x = min_heap_idx st x).

Lemma push_ok (mm_realloc_ok : Z -> bool) s st e : heap_wf s st -> heap_n s + 1 < 2 ^ 31 -> ~ in_heap s e ->
  let '(r, s', st') := min_heap_push_ mm_realloc_ok s st e in
  (r = 0 /\ pushed_post s st e s' st') \/
  (r = -1 /\ s' = s /\ st' = st /\ exists b, mm_realloc_ok b = false).
Proof.
  intros W Hn He. pose proof (hw_size _ _ W) as (Hs1 & Hs2 & Hs3).
  unfold min_heap_push_. rewrite u32_small by lia.
  pose proof (reserve_ok mm_realloc_ok s st (heap_n s + 1) W Hn) as R.
  destruct (min_heap_reserve_ mm_realloc_ok s (heap_n s + 1)) as [r s1].
  destruct R as [(-> & W1 & Hn1 & Ha1 & Hg) | (-> & -> & Hb)]; [|by right].
  change (c_true 0) with false. cbv iota zeta.
  rewrite Hn1, u32_small by lia.
  set (s2 := {| s1 with heap_n := heap_n s + 1 |}).
  pose proof (hw_size _ _ W1) as (Hq1 & Hq2 & Hq3).
  assert (I : hole_inv s2 st (heap_n s) e (fun x => in_heap s x)).
  { split; subst s2; cbn [heap_n heap_p heap_a].
    - unfold heap_size_ok; cbn [heap_n heap_p heap_a]. lia.
    - lia.
    - intros i Hi Hne. apply W1. lia.
    - intros x. split.
      + intros (i & Hi & <-). exists i. rewrite Hg by lia. split_and!; [lia..|done].
      + intros (i & Hi & Hne & <-). exists i. rewrite Hg by lia. split; [lia|done].
    - done. }
  assert (O : hole_order s2 st (heap_n s)).
  { split; subst s2; cbn [heap_n heap_p heap_a].
    - intros i Hi ? ?. apply W1. lia.
    - intros c Hc Hp. unfold par in Hp. lia. }
  assert (B : below_children s2 st (heap_n s) e).
  { intros c Hc Hp. subst s2; cbn [heap_n] in Hc. unfold par in Hp. lia. }
  destruct (shift_up_ok s2 st (heap_n s) e _ I O B) as (W' & M & Hn' & _ & [FT FI]).
  destruct (min_heap_shift_up_ s2 st (heap_n s) e) as [s' st']. cbn [fst snd] in *.
  left. split; [done|]. split_and!; auto.
Qed.

(** With room in the array, or an allocator that does not fail, a push succeeds. *)
Lemma push_room (mm_realloc_ok : Z -> bool) s st e :
  heap_wf s st -> heap_n s + 1 < 2 ^ 31 -> ~ in_heap s e ->
  heap_n s < heap_a s \/ (forall b, mm_realloc_ok b = true) ->
  let '(r, s', st') := min_heap_push_ mm_realloc_ok s st e in r = 0 /\ pushed_post s st e s' st'.
Proof.
  intros W Hn He Hroom. pose proof (push_ok mm_realloc_ok s st e W Hn He) as P.
  assert (Hr : (min_heap_push_ mm_realloc_ok s st e).1.1 = 0).
  { pose proof (hw_size _ _ W) as (? & ? & ?). unfold min_heap_push_, min_heap_reserve_.
    rewrite (u32_small (heap_n s + 1)) by lia.
    destruct (Z.ltb_spec (heap_a s) (heap_n s + 1)).
    - destruct Hroom as [|Hm]; [lia|]. rewrite Hm. cbn. by destruct (min_heap_shift_up_ _ _ _ _).
    - cbn. by destruct (min_heap_shift_up_ _ _ _ _). }
  destruct (min_heap_push_ _ _ _ _) as [[r s'] st']. cbn in Hr. subst r.
  destruct P as [P | [? _]]; [done | lia].
Qed.

Lemma sift_removed s st i : heap_wf s st -> 0 <= i < heap_n s ->
  let e := p_get (heap_p s) i in
  let s1 := {| s with heap_n := heap_n s - 1 |} in
  let '(s', st') := sift s1 st i (p_get (heap_p s) (heap_n s - 1)) in
  removed_post s st e s' (set_min_heap_idx st' e (-1)).
Proof.
  intros W Hi e s1. pose proof (hw_size _ _ W) as (Hs1 & Hs2 & Hs3).
  destruct (decide (i = heap_n s - 1)) as [Hlast|].
  - (* the element is the last one: the loops stop at once *)
    assert (sift s1 st i (p_get (heap_p s) (heap_n s - 1)) = put_slot s1 st i e) as ->.
    { unfold sift. subst s1; cbn [heap_p heap_n]. replace (p_get (heap_p s) (heap_n s - 1)) with e by (by subst).
      rewrite andb_comm. destruct (min_heap_elem_greater _ _ _) eqn:Hg; cbn [andb].
      - destruct (Z.ltb_spec 0 i).
        + rewrite Z.quot_div_nonneg, u32_small in Hg by lia.
          pose proof (hw_order _ _ W i ltac:(lia)) as Ho. unfold tv_le in Ho.
          unfold min_heap_elem_greater, par in *. unfold e in Hg. congruence.
        + unfold min_heap_shift_down_. rewrite Nat.add_1_r. cbn [shift_down_loop heap_n].
          rewrite u32_small by lia. by destruct (Z.leb_spec (2 * (i + 1)) (heap_n s - 1)); [lia|].
      - unfold min_heap_shift_down_. rewrite Nat.add_1_r. cbn [shift_down_loop heap_n].
        rewrite u32_small by lia. by destruct (Z.leb_spec (2 * (i + 1)) (heap_n s - 1)); [lia|]. }
    destruct (put_slot s1 st i e) as [s' st'] eqn:Eq.
    apply (remove_last s st i s' st'); [done | lia | done | by rewrite <- Eq].
  - assert (Hl : forall j, 0 <= j < heap_n s - 1 -> j <> i -> p_get (heap_p s) j <> p_get (heap_p s) (heap_n s - 1)).
    { intros j Hj _ Heq. apply (heap_idx_inj s st) in Heq; [lia | done | lia | lia]. }
    destruct (open_hole s st st i (heap_n s - 1) _ W ltac:(lia) ltac:(lia) (same_but_refl _ _) Hl)
      as [I O].
    pose proof (sift_ok _ st i _ _ I O
      (fun Hg Hi0 => move_up_below s st st i (heap_n s - 1) _ W ltac:(lia) ltac:(lia)
                       (same_but_refl _ _) Hg Hi0)) as P.
    fold s1 in P. destruct (sift s1 st i (p_get (heap_p s) (heap_n s - 1))) as [s' st'].
    by apply (remove_at s st i); [done | lia |].
Qed.

Lemma erase_ok s st e : heap_wf s st -> in_heap s e ->
  let '(r, s', st') := min_heap_erase_ s st e in
  r = 0 /\ removed_post s st e s' st'.
Proof.
  intros W He. destruct (in_heap_idx s st e W He) as [Hi Hp].
  pose proof (hw_size _ _ W) as (Hs1 & Hs2 & Hs3).
  unfold min_heap_erase_. destruct (Z.eqb_spec (-1) (min_heap_idx st e)); [lia|]. cbn [negb].
  rewrite u32_small by lia. cbn [heap_n heap_p].
  pose proof (sift_removed s st (min_heap_idx st e) W Hi) as P. cbv zeta in P. rewrite Hp in P.
  destruct (sift _ _ _ _) as [s' st']. done.
Qed.

Lemma erase_absent s st e : min_heap_idx st e = -1 -> min_heap_erase_ s st e = (-1, s, st).
Proof. unfold min_heap_erase_. by intros ->. Qed.

Lemma pop_ok s st : heap_wf s st ->
  match min_heap_pop_ s st with
  | (Some e, s', st') => min_heap_top_ s = Some e /\ removed_post s st e s' st'
  | (None, s', st') => heap_n s = 0 /\ s' = s /\ st' = st
  end.
Proof.
  intros W. pose proof (hw_size _ _ W) as (Hs1 & Hs2 & Hs3).
  unfold min_heap_pop_, min_heap_top_, c_true. destruct (Z.eqb_spec (heap_n s) 0); [done|].
  cbn [negb]. rewrite u32_small by lia. cbn [heap_n heap_p].
  pose proof (sift_removed s st 0 W ltac:(lia)) as P. cbv zeta in P.
  unfold sift in P. cbn [Z.ltb Z.compare andb] in P.
  destruct (min_heap_shift_down_ _ _ _ _) as [s' st']. done.
Qed.

(** [st0] is the store before [e]'s timeout was changed. *)
Lemma adjust_ok (mm_realloc_ok : Z -> bool) s st0 st e : heap_wf s st0 -> in_heap s e -> same_but e st0 st ->
  let '(r, s', st') := min_heap_adjust_ mm_realloc_ok s st e in
  r = 0 /\ heap_wf s' st' /\ (forall x, in_heap s' x <-> in_heap s x) /\
  (forall x, heap_timeout st' x = heap_timeout st x) /\
  (forall x, ~ in_heap s x -> min_heap_idx st' x = min_heap_idx st x).
Proof.
  intros W He SB. destruct (in_heap_idx s st0 e W He) as [Hi Hp].
  pose proof SB as [ST SI]. rewrite <- SI in Hi, Hp.
  unfold min_heap_adjust_. destruct (Z.eqb_spec (-1) (min_heap_idx st e)); [lia|].
  set (i := min_heap_idx st e) in *.
  rewrite <- Hp in SB.
  assert (Hl : forall j, 0 <= j < heap_n s -> j <> i -> p_get (heap_p s) j <> e).
  { intros j Hj Hji Heq. apply Hji. apply (heap_idx_inj s st0); [done..|]. by rewrite Hp. }
  destruct (open_hole s st0 st i (heap_n s) e W Hi ltac:(lia) SB Hl) as [I O].
  replace {| s with heap_n := heap_n s |} with s in I, O by (by destruct s).
  pose proof (sift_ok s st i e _ I O) as P.
  destruct P as (W' & M & _ & _ & [FT FI]).
  { intros Hg Hi0. pose proof (move_up_below s st0 st i (heap_n s) e W Hi ltac:(lia) SB Hg Hi0) as B.
    by destruct s. }
  destruct (sift s st i e) as [s' st']. cbn [fst snd] in *. split_and!; try done.
  - intros x. rewrite M. split.
    + intros [-> | (j & Hj & Hji & <-)]; [done | by exists j].
    + intros (j & Hj & <-). destruct (decide (j = i)) as [->|]; [by left | right; eauto].
  - intros x Hx. apply FI.
    + intros ->. done.
    + intros (j & Hj & Hji & <-). apply Hx. by exists j.
Qed.
End Operation_specs.

(** ** The store frame: a heap operation changes the store only through
    [set_min_heap_idx]. *)
Section Store_frame.
Context {St : Type} `{HeapStore St}.
Context (P : St -> St -> Prop) `{!PreOrder P}.
Hypothesis P_idx : forall st e i, P st (set_min_heap_idx st e i).
Implicit Types (s : min_heap) (st : St) (e : eid).

Lemma shift_up_loop_frame fuel s st h e : P st (shift_up_loop fuel s st h e).1.2.
Proof using All.
  revert s st h. induction fuel as [|fuel IH]; intros s st h; cbn [shift_up_loop]; [reflexivity|].
  case_if; [|reflexivity]. cbn [put_slot]. etrans; [apply P_idx | apply IH].
Qed.

Lemma shift_up_frame s st h e : P st (min_heap_shift_up_ s st h e).2.
Proof using All.
  unfold min_heap_shift_up_. pose proof (shift_up_loop_frame (Z.to_nat h + 1) s st h e) as F.
  destruct (shift_up_loop _ _ _ _ _) as [[s' st'] h']. cbn in *. etrans; [exact F | apply P_idx].
Qed.

Lemma shift_up_unconditional_frame s st h e : P st (min_heap_shift_up_unconditional_ s st h e).2.
Proof using All.
  unfold min_heap_shift_up_unconditional_. cbn [put_slot].
  match goal with |- context [shift_up_loop ?f ?s ?st ?h ?e] =>
    pose proof (shift_up_loop_frame f s st h e) as F; destruct (shift_up_loop f s st h e) as [[s' st'] h'] end.
  cbn in *. etrans; [apply P_idx|]. etrans; [exact F | apply P_idx].
Qed.

Lemma shift_down_loop_frame fuel s st h e : P st (shift_down_loop fuel s st h e).1.2.
Proof using All.
  revert s st h. induction fuel as [|fuel IH]; intros s st h; cbn [shift_down_loop]; [reflexivity|].
  cbv zeta. case_if; [|reflexivity]. case_if; [reflexivity|]. cbn [put_slot].
  etrans; [apply P_idx | apply IH].
Qed.

Lemma shift_down_frame s st h e : P st (min_heap_shift_down_ s st h e).2.
Proof using All.
  unfold min_heap_shift_down_. pose proof (shift_down_loop_frame (Z.to_nat (heap_n s) + 1) s st h e) as F.
  destruct (shift_down_loop _ _ _ _ _) as [[s' st'] h']. cbn in *. etrans; [exact F | apply P_idx].
Qed.

Lemma push_frame mm s st e : P st (min_heap_push_ mm s st e).2.
Proof using All.
  unfold min_heap_push_. destruct (min_heap_reserve_ _ _ _) as [r s1].
  case_if; [reflexivity|].
  match goal with |- context [min_heap_shift_up_ ?s ?st ?h ?e] =>
    pose proof (shift_up_frame s st h e) as F; destruct (min_heap_shift_up_ s st h e) end.
  exact F.
Qed.

Lemma erase_frame s st e : P st (min_heap_erase_ s st e).2.
Proof using All.
  unfold min_heap_erase_, sift. cbv zeta. case_if; [|reflexivity]. case_if.
  - match goal with |- context [min_heap_shift_up_unconditional_ ?s ?st ?h ?e] =>
      pose proof (shift_up_unconditional_frame s st h e) as F;
      destruct (min_heap_shift_up_unconditional_ s st h e) end.
    cbn in *. etrans; [exact F | apply P_idx].
  - match goal with |- context [min_heap_shift_down_ ?s ?st ?h ?e] =>
      pose proof (shift_down_frame s st h e) as F; destruct (min_heap_shift_down_ s st h e) end.
    cbn in *. etrans; [exact F | apply P_idx].
Qed.
End Store_frame.

(** The loops keep the array's size and the number of elements. *)
Section Heap_frame.
Context {St : Type} `{HeapStore St}.
Implicit Types (s : min_heap) (st : St) (e : eid).
Definition same_shape s s' : Prop := heap_n s' = heap_n s /\ heap_a s' = heap_a s.

Lemma shift_up_loop_shape fuel s st h e : same_shape s (shift_up_loop fuel s st h e).1.1.
Proof.
  revert s st h. induction fuel as [|fuel IH]; intros s st h; cbn [shift_up_loop]; [done|].
  case_if; [|done]. cbn [put_slot].
  match goal with |- context [shift_up_loop _ ?s' ?st' ?h' _] => exact (IH s' st' h') end.
Qed.
Lemma shift_down_loop_shape fuel s st h e : same_shape s (shift_down_loop fuel s st h e).1.1.
Proof.
  revert s st h. induction fuel as [|fuel IH]; intros s st h; cbn [shift_down_loop]; [done|].
  cbv zeta. case_if; [|done]. case_if; [done|]. cbn [put_slot].
  match goal with |- context [shift_down_loop _ ?s' ?st' ?h' _] => exact (IH s' st' h') end.
Qed.
Lemma shift_up_shape s st h e : same_shape s (min_heap_shift_up_ s st h e).1.
Proof.
  unfold min_heap_shift_up_. pose proof (shift_up_loop_shape (Z.to_nat h + 1) s st h e) as F.
  by destruct (shift_up_loop _ _ _ _ _) as [[s' st'] h'].
Qed.
Lemma sift_shape s st h e : same_shape s (sift s st h e).1.
Proof.
  unfold sift. cbv zeta. case_if.
  - unfold min_heap_shift_up_unconditional_. cbn [put_slot].
    match goal with |- context [shift_up_loop ?f ?s ?st ?h ?e] =>
      pose proof (shift_up_loop_shape f s st h e) as F; by destruct (shift_up_loop f s st h e) as [[s' st'] h'] end.
  - unfold min_heap_shift_down_. pose proof (shift_down_loop_shape (Z.to_nat (heap_n s) + 1) s st h e) as F.
    by destruct (shift_down_loop _ _ _ _ _) as [[s' st'] h'].
Qed.

Lemma erase_shape s st e : min_heap_idx st e <> -1 ->
  let s' := (min_heap_erase_ s st e).1.2 in heap_n s' = u32 (heap_n s - 1) /\ heap_a s' = heap_a s.
Proof.
  intros Hi. unfold min_heap_erase_. destruct (Z.eqb_spec (-1) (min_heap_idx st e)); [lia|]. cbn [negb].
  match goal with |- context [sift ?s ?st ?h ?e] => pose proof (sift_shape s st h e) as F; destruct (sift s st h e) end.
  exact F.
Qed.
End Heap_frame.

(** The invariant only looks at the timeouts and the indices. *)
Lemma heap_wf_ext {St} `{HeapStore St} s st st' :
  (forall x, heap_timeout st' x = heap_timeout st x) ->
  (forall x, in_heap s x -> min_heap_idx st' x = min_heap_idx st x) ->
  heap_wf s st -> heap_wf s st'.
Proof.
  intros HT HI W. split; [apply W | |].
  - intros i Hi. rewrite HI by (by exists i). by apply W.
  - intros i Hi. rewrite !HT. by apply W.
Qed.

(** ** The heap as a priority queue.

    The abstract state is the finite set of pending events; [represents] is
    the abstraction relation the operations refine. *)
Section Priority_queue.
Context {St : Type} `{HeapStoreLaws St}.
Implicit Types (s : min_heap) (st : St) (e : eid) (X : gset nat).

Definition represents s st X : Prop :=
  heap_wf s st /\ forall x, x ∈ X <-> in_heap s x.

(** A heap and a store that pass a boolean check are well formed. *)
Definition heap_wfb s st : bool :=
  (0 <=? heap_n s) && (heap_n s <? 2 ^ 31) && (heap_n s <=? heap_a s) && (heap_a s <? 2 ^ 32) &&
  (Z.of_nat (length (heap_p s)) =? heap_a s) &&
  forallb (fun i => min_heap_idx st (p_get (heap_p s) i) =? i) (seqZ 0 (heap_n s)) &&
  forallb (fun i => (i =? 0) || negb (evutil_timercmp (heap_timeout st (p_get (heap_p s) (par i)))
                                        (heap_timeout st (p_get (heap_p s) i)) CmpGt))
          (seqZ 0 (heap_n s)).

Lemma heap_wfb_sound s st : heap_wfb s st = true -> heap_wf s st.
Proof.
  unfold heap_wfb. rewrite !andb_true_iff, !forallb_forall. intros [[[[[[? ?] ?] ?] ?] Hidx] Hord].
  split; [unfold heap_size_ok; lia | |].
  - intros i Hi. specialize (Hidx i). rewrite <- list_elem_of_In, elem_of_seqZ in Hidx. lia.
  - intros i Hi. specialize (Hord i). rewrite <- list_elem_of_In, elem_of_seqZ in Hord.
    unfold tv_le. destruct (evutil_timercmp _ _ _); [|done]. cbn [negb] in Hord. lia.
Qed.

Lemma heap_elements s st X : represents s st X ->
  X = list_to_set ((fun i => p_get (heap_p s) i) <$> seqZ 0 (heap_n s)).
Proof.
  intros [W HX]. apply set_eq. intros x. rewrite HX, elem_of_list_to_set, list_elem_of_fmap.
  unfold in_heap. setoid_rewrite elem_of_seqZ. split; intros (i & ? & ?); exists i; split; try done; lia.
Qed.

Lemma ctor_represents st : represents min_heap_ctor_ st ∅.
Proof.
  split.
  - by apply heap_wfb_sound.
  - intros x. split; [set_solver|]. intros (i & Hi & _). cbn in Hi. lia.
Qed.

Lemma represents_size s st X : represents s st X -> heap_n s = Z.of_nat (size X).
Proof.
  intros R. rewrite (heap_elements _ _ _ R). destruct R as [W _].
  pose proof (hw_size _ _ W) as (? & ? & ?).
  rewrite size_list_to_set.
  - rewrite length_fmap, length_seqZ. lia.
  - apply NoDup_fmap_2_strong; [|apply NoDup_seqZ].
    intros i j Hi Hj. rewrite elem_of_seqZ in Hi, Hj. intros Hij. cbn in Hij.
    by apply (heap_idx_inj s st i j W); [lia..|].
Qed.

Lemma push_represents (mm_realloc_ok : Z -> bool) s st X e : represents s st X -> heap_n s + 1 < 2 ^ 31 -> e ∉ X ->
  let '(r, s', st') := min_heap_push_ mm_realloc_ok s st e in
  (r = 0 /\ represents s' st' ({[e]} ∪ X) /\ forall x, heap_timeout st' x = heap_timeout st x) \/
  (r = -1 /\ s' = s /\ st' = st /\ exists b, mm_realloc_ok b = false).
Proof.
  intros [W HX] Hn He. rewrite HX in He.
  pose proof (push_ok mm_realloc_ok s st e W Hn He) as P.
  destruct (min_heap_push_ _ _ _ _) as [[r s'] st']. destruct P as [(-> & P) | P]; [left | by right].
  destruct P as (W' & _ & M & T & _). split_and!; [done | split; [done|] | done].
  intros x. rewrite M, elem_of_union, elem_of_singleton, HX. done.
Qed.

Lemma pop_represents s st X : represents s st X ->
  match min_heap_pop_ s st with
  | (Some e, s', st') =>
      e ∈ X /\ (forall x, x ∈ X -> tv_le (heap_timeout st e) (heap_timeout st x)) /\
      represents s' st' (X ∖ {[e]}) /\ min_heap_idx st' e = -1 /\
      forall x, heap_timeout st' x = heap_timeout st x
  | (None, s', st') => X = ∅ /\ s' = s /\ st' = st
  end.
Proof.
  intros [W HX]. pose proof (pop_ok s st W) as P.
  destruct (min_heap_pop_ s st) as [[[e|] s'] st'].
  - destruct P as (T & W' & _ & M & I & HT & _). destruct (top_min s st e W T) as [Hin Hmin].
    split_and!; [by apply HX | | split; [done|] | done | done].
    + intros x Hx. by apply Hmin, HX.
    + intros x. rewrite M, elem_of_difference, elem_of_singleton, HX. done.
  - destruct P as (Hn & -> & ->). split_and!; try done.
    apply set_eq. intros x. rewrite HX. split; [intros (i & Hi & _); lia | set_solver].
Qed.

(** Popping until the heap is empty. *)
Fixpoint drain (fuel : nat) s st : list eid :=
  match fuel with
  | O => []
  | S fuel =>
      match min_heap_pop_ s st with
      | (Some e, s', st') => e :: drain fuel s' st'
      | (None, _, _) => []
      end
  end.

Lemma drain_ok fuel s st X : represents s st X -> (size X <= fuel)%nat ->
  list_to_set (drain fuel s st) = X /\ NoDup (drain fuel s st) /\
  StronglySorted (fun a b => tv_le (heap_timeout st a) (heap_timeout st b)) (drain fuel s st).
Proof.
  revert s st X. induction fuel as [|fuel IH]; intros s st X R Hsz.
  { cbn [drain]. split_and!; [|constructor|constructor].
    symmetry. apply leibniz_equiv, size_empty_inv. lia. }
  cbn [drain]. pose proof (pop_represents s st X R) as P.
  destruct (min_heap_pop_ s st) as [[[e|] s'] st'].
  - destruct P as (He & Hmin & R' & _ & HT).
    destruct (IH s' st' _ R') as (HS & ND & SS).
    { rewrite size_difference by set_solver. rewrite size_singleton.
      assert (size X <> 0)%nat by (intros ?%size_empty_inv; set_solver). lia. }
    split_and!.
    + rewrite list_to_set_cons, HS. apply set_eq. intros x. destruct (decide (x = e)); set_solver.
    + constructor; [|done]. intros Hin%(elem_of_list_to_set (C:=gset nat)). rewrite HS in Hin. set_solver.
    + constructor.
      * clear -SS HT. induction SS as [|a l SS IH F]; constructor; [done|].
        eapply Forall_impl; [exact F|]. intros b. cbn. by rewrite !HT.
      * apply Forall_forall. intros x Hx%(elem_of_list_to_set (C:=gset nat)). rewrite HS in Hx.
        apply Hmin. set_solver.
  - destruct P as (-> & _). split_and!; [done | constructor..].
Qed.
End Priority_queue.

(** ** The properties of the heap. *)
Section Heap_properties.
Context {St : Type} `{HeapStoreLaws St}.
Implicit Types (s : min_heap) (st : St) (e : eid) (X : gset nat).

(** Pushing an event that is not in the heap adds exactly that event to
    the represented set and keeps heap order and back-indices; it fails only
    when the allocator does, and then nothing changed. *)
Theorem min_heap_push_refines (mm_realloc_ok : Z -> bool) s st X e :
  represents s st X -> heap_n s + 1 < 2 ^ 31 -> e ∉ X ->
  let '(r, s', st') := min_heap_push_ mm_realloc_ok s st e in
  (r = 0 /\ represents s' st' ({[e]} ∪ X) /\ forall x, heap_timeout st' x = heap_timeout st x) \/
  (r = -1 /\ s' = s /\ st' = st /\ exists b, mm_realloc_ok b = false).
Proof. apply push_represents. Qed.

(** C20: repeatedly popping a well-formed heap returns every event it
    holds, each once, in order of non-decreasing timeout. *)
Theorem min_heap_drain_sorted s st X : represents s st X ->
  let l := drain (size X) s st in
  list_to_set l = X /\ NoDup l /\
  StronglySorted (fun a b => tv_le (heap_timeout st a) (heap_timeout st b)) l.
Proof. intros R. by apply drain_ok. Qed.

(** Erasing an event removes exactly it, from any position, and marks it
    as out of the heap; erasing an event that is not in a heap reports -1 and
    changes nothing. *)
Theorem min_heap_erase_refines s st X e :
  represents s st X -> (e ∉ X -> min_heap_idx st e = -1) ->
  let '(r, s', st') := min_heap_erase_ s st e in
  r = (if decide (e ∈ X) then 0 else -1) /\ represents s' st' (X ∖ {[e]}) /\
  min_heap_idx st' e = -1 /\ forall x, heap_timeout st' x = heap_timeout st x.
Proof.
  intros [W HX] Hout. destruct (decide (e ∈ X)) as [Hin|Hni].
  - pose proof (erase_ok s st e W ltac:(by apply HX)) as P.
    destruct (min_heap_erase_ s st e) as [[r s'] st'].
    destruct P as (-> & W' & _ & M & I & T & _). split_and!; try done.
    split; [done|]. intros x. rewrite M, elem_of_difference, elem_of_singleton, HX. done.
  - rewrite erase_absent by auto. split_and!; auto.
    split; [done|]. intros x. rewrite <- HX. set_solver.
Qed.

(** After an element's timeout changed, adjusting restores heap order
    around it without adding or losing any event. *)
Theorem min_heap_adjust_refines (mm_realloc_ok : Z -> bool) s st0 st X e :
  represents s st0 X -> e ∈ X -> same_but e st0 st ->
  let '(r, s', st') := min_heap_adjust_ mm_realloc_ok s st e in
  r = 0 /\ represents s' st' X /\ forall x, heap_timeout st' x = heap_timeout st x.
Proof.
  intros [W HX] He SB. pose proof (adjust_ok mm_realloc_ok s st0 st e W ltac:(by apply HX) SB) as P.
  destruct (min_heap_adjust_ _ _ _ _) as [[r s'] st'].
  destruct P as (-> & W' & M & T & _). split_and!; try done.
  split; [done|]. intros x. by rewrite M, HX.
Qed.

(** C21: the heap is a set of events.  Pushing adds one, or fails with nothing
    changed when the allocator does; erasing takes one out from any position,
    or reports -1 when it is in no heap; adjusting after its timeout changed
    keeps the set.  Each restores heap order and back-indices. *)
Theorem min_heap_refines_set (mm_realloc_ok : Z -> bool) s st X e : represents s st X ->
  (e ∉ X -> heap_n s + 1 < 2 ^ 31 ->
   let '(r, s', st') := min_heap_push_ mm_realloc_ok s st e in
   (r = 0 /\ represents s' st' ({[e]} ∪ X) /\ forall x, heap_timeout st' x = heap_timeout st x) \/
   (r = -1 /\ s' = s /\ st' = st /\ exists b, mm_realloc_ok b = false)) /\
  ((e ∉ X -> min_heap_idx st e = -1) ->
   let '(r, s', st') := min_heap_erase_ s st e in
   r = (if decide (e ∈ X) then 0 else -1) /\ represents s' st' (X ∖ {[e]}) /\
   min_heap_idx st' e = -1 /\ forall x, heap_timeout st' x = heap_timeout st x) /\
  (forall st1, e ∈ X -> same_but e st st1 ->
   let '(r, s', st') := min_heap_adjust_ mm_realloc_ok s st1 e in
   r = 0 /\ represents s' st' X /\ forall x, heap_timeout st' x = heap_timeout st1 x).
Proof.
  intros HR. split; [|split].
  - intros. by apply min_heap_push_refines.
  - by apply min_heap_erase_refines.
  - intros st1. by apply min_heap_adjust_refines.
Qed.
End Heap_properties.

(** ** Witnesses: a store that is a function, and a heap of three events. *)
Module HeapWitness.
Definition store : Type := nat -> timeval * Z.
#[export] Instance store_HeapStore : HeapStore store := {
  heap_timeout st e := (st e).1;
  min_heap_idx st e := (st e).2;
  set_min_heap_idx st e i := fun x => if decide (x = e) then ((st x).1, i) else st x
}.
#[export] Instance store_laws : HeapStoreLaws store.
Proof. split; intros; cbn; repeat case_decide; done. Qed.

(** Event [e] times out at second [10 - e]; events 1, 2, 3 are pushed. *)
Definition st0 : store := fun e => (Timeval (10 - Z.of_nat e) 0, -1).
Definition always (_ : Z) : bool := true.
Definition push3 : Z * min_heap * store :=
  let '(_, s, st) := min_heap_push_ always min_heap_ctor_ st0 1%nat in
  let '(_, s, st) := min_heap_push_ always s st 2%nat in
  min_heap_push_ always s st 3%nat.
Definition h3 : min_heap := push3.1.2.
Definition st3 : store := push3.2.
Definition X3 : gset nat := {[1; 2; 3]}%nat.

Lemma h3_represents : represents h3 st3 X3.
Proof.
  split; [apply heap_wfb_sound; vm_compute; reflexivity|]. intros x. unfold in_heap.
  assert (heap_n h3 = 3) as -> by (vm_compute; reflexivity). unfold X3.
  assert (Hi : forall i, p_get (heap_p h3) i = nth (Z.to_nat i) [3; 1; 2; 0; 0; 0; 0; 0]%nat 0%nat)
    by (intros; apply arr_get_nth).
  setoid_rewrite Hi. rewrite !elem_of_union, !elem_of_singleton. split.
  - intros [[-> | ->] | ->]; [exists 1 | exists 2 | exists 0]; (split; [lia | reflexivity]).
  - intros (i & Hr & <-). assert (i = 0 \/ i = 1 \/ i = 2) as [-> | [-> | ->]] by lia; cbn; tauto.
Qed.

(** Event 3, the top, is moved to second 100. *)
Definition st3' : store := fun x => if decide (x = 3%nat) then (Timeval 100 0, (st3 x).2) else st3 x.
Lemma min_heap_refines_set_witness :
  (let '(r, s', st') := min_heap_push_ always h3 st3 4%nat in
   (r = 0 /\ represents s' st' ({[4%nat]} ∪ X3) /\ forall x, heap_timeout st' x = heap_timeout st3 x) \/
   (r = -1 /\ s' = h3 /\ st' = st3 /\ exists b, always b = false)) /\
  (let '(r, s', st') := min_heap_erase_ h3 st3 1%nat in
   r = (if decide (1%nat ∈ X3) then 0 else -1) /\ represents s' st' (X3 ∖ {[1%nat]}) /\
   min_heap_idx st' 1%nat = -1 /\ forall x, heap_timeout st' x = heap_timeout st3 x) /\
  (let '(r, s', st') := min_heap_adjust_ always h3 st3' 3%nat in
   r = 0 /\ represents s' st' X3 /\ forall x, heap_timeout st' x = heap_timeout st3' x).
Proof.
  split; [|split].
  - refine (proj1 (min_heap_refines_set always h3 st3 X3 4%nat h3_represents) _ _); [unfold X3; set_solver | vm_compute; reflexivity].
  - refine (proj1 (proj2 (min_heap_refines_set always h3 st3 X3 1%nat h3_represents)) _). unfold X3. set_solver.
  - refine (proj2 (proj2 (min_heap_refines_set always h3 st3 X3 3%nat h3_represents)) st3' _ _); [unfold X3; set_solver|].
    split; intros; cbn; unfold st3'; case_decide; try done; by destruct (st3 _).
Defined.

Lemma min_heap_drain_sorted_witness :
  drain 3 h3 st3 = [3; 2; 1]%nat /\
  let l := drain (size X3) h3 st3 in
  list_to_set l = X3 /\ NoDup l /\
  StronglySorted (fun a b => tv_le (heap_timeout st3 a) (heap_timeout st3 b)) l.
Proof. split; [vm_compute; reflexivity | apply (min_heap_drain_sorted h3 st3 X3 h3_represents)]. Defined.

End HeapWitness.
