(* ===== verification/Event.v ===== *)
(** * Events, the event base and its queues (event.c, event-internal.h,
      event2/event_struct.h)

    The store of events and the event_base record, and the primitive queue
    operations [event_queue_*] every other operation is built from.  An
    operation returns [None] where the code would abort ([EVUTIL_ASSERT],
    [event_errx]). *)
From S2P Require Import Prelude Timeval MinHeap.

(** ** Constants. *)
Definition EVLIST_TIMEOUT : Z := 0x01.
Definition EVLIST_INSERTED : Z := 0x02.
Definition EVLIST_SIGNAL : Z := 0x04.
Definition EVLIST_ACTIVE : Z := 0x08.
Definition EVLIST_INTERNAL : Z := 0x10.
Definition EVLIST_ACTIVE_LATER : Z := 0x20.
Definition EVLIST_FINALIZING : Z := 0x40.
Definition EVLIST_INIT : Z := 0x80.
Definition EVLIST_ALL : Z := 0xff.

Definition EV_TIMEOUT : Z := 0x01.
Definition EV_READ : Z := 0x02.
Definition EV_WRITE : Z := 0x04.
Definition EV_SIGNAL : Z := 0x08.
Definition EV_PERSIST : Z := 0x10.
Definition EV_ET : Z := 0x20.
Definition EV_FINALIZE : Z := 0x40.
Definition EV_CLOSED : Z := 0x80.

Definition EV_CLOSURE_EVENT : Z := 0.
Definition EV_CLOSURE_EVENT_SIGNAL : Z := 1.
Definition EV_CLOSURE_EVENT_PERSIST : Z := 2.
Definition EV_CLOSURE_CB_SELF : Z := 3.
Definition EV_CLOSURE_CB_FINALIZE : Z := 4.
Definition EV_CLOSURE_EVENT_FINALIZE : Z := 5.
Definition EV_CLOSURE_EVENT_FINALIZE_FREE : Z := 6.

Definition COMMON_TIMEOUT_MICROSECONDS_MASK : Z := 0x000fffff.
Definition MICROSECONDS_MASK : Z := COMMON_TIMEOUT_MICROSECONDS_MASK.
Definition COMMON_TIMEOUT_IDX_MASK : Z := 0x0ff00000.
Definition COMMON_TIMEOUT_IDX_SHIFT : Z := 20.
Definition COMMON_TIMEOUT_MASK : Z := 0xf0000000.
Definition COMMON_TIMEOUT_MAGIC : Z := 0x50000000.
Definition MAX_COMMON_TIMEOUTS : Z := 256.

(** ** Flag words. *)
(** [flags & mask] as a test, [flags |= mask], [flags &= ~mask]. *)
Definition has (flags mask : Z) : bool := c_true (Z.land flags mask).
Definition set_flag (flags mask : Z) : Z := Z.lor flags mask.
Definition clr_flag (flags mask : Z) : Z := Z.ldiff flags mask.

Lemma has_set fl a b : has (set_flag fl a) b = has fl b || has a b.
Proof.
  unfold has, set_flag, c_true. rewrite Z.land_lor_distr_l.
  pose proof (Z.lor_eq_0_iff (Z.land fl b) (Z.land a b)).
  destruct (Z.eqb_spec (Z.land fl b) 0), (Z.eqb_spec (Z.land a b) 0),
    (Z.eqb_spec (Z.lor (Z.land fl b) (Z.land a b)) 0); cbn; tauto.
Qed.
Lemma has_lor fl a b : has fl (Z.lor a b) = has fl a || has fl b.
Proof.
  pose proof (has_set a b fl) as HS. unfold has, set_flag in *.
  by rewrite (Z.land_comm fl (Z.lor a b)), (Z.land_comm fl a), (Z.land_comm fl b).
Qed.
Lemma has_clr fl a b : Z.land a b = 0 -> has (clr_flag fl a) b = has fl b.
Proof.
  intros Hab. unfold has, clr_flag. f_equal. apply Z.bits_inj'. intros n Hn.
  rewrite !Z.land_spec, Z.ldiff_spec. assert (Hbit : Z.testbit (Z.land a b) n = false) by (rewrite Hab; apply Z.bits_0).
  rewrite Z.land_spec in Hbit. destruct (Z.testbit a n), (Z.testbit b n), (Z.testbit fl n); done.
Qed.
Lemma has_clr_same fl a : has (clr_flag fl a) a = false.
Proof.
  unfold has, clr_flag, c_true. rewrite Z.land_comm.
  replace (Z.land a (Z.ldiff fl a)) with 0; [done|]. symmetry. apply Z.bits_inj'. intros n Hn.
  rewrite Z.land_spec, Z.ldiff_spec, Z.bits_0. destruct (Z.testbit a n), (Z.testbit fl n); done.
Qed.

Lemma has_pow2 fl n : 0 <= n -> has fl (2 ^ n) = Z.testbit fl n.
Proof.
  intros Hn. unfold has, c_true.
  replace (Z.land fl (2 ^ n)) with (if Z.testbit fl n then 2 ^ n else 0).
  - destruct (Z.testbit fl n); [|done]. pose proof (Z.pow_pos_nonneg 2 n). lia.
  - apply Z.bits_inj'. intros m Hm. rewrite Z.land_spec, Z.pow2_bits_eqb by done.
    destruct (Z.eqb_spec n m) as [<-|Hne].
    + rewrite andb_true_r. destruct (Z.testbit fl n); [by apply Z.pow2_bits_true | apply Z.bits_0].
    + rewrite andb_false_r. destruct (Z.testbit fl n); [apply Z.pow2_bits_false; lia | apply Z.bits_0].
Qed.
Lemma has_clr_pow2 fl a n : 0 <= n -> has (clr_flag fl a) (2 ^ n) = has fl (2 ^ n) && negb (has a (2 ^ n)).
Proof. intros Hn. rewrite !has_pow2 by done. unfold clr_flag. by rewrite Z.ldiff_spec. Qed.

(** Decide every test of a flag word built from constants. *)
Ltac flags :=
  rewrite ?has_set, ?has_clr_same, ?has_lor;
  repeat match goal with
  | |- context [has (clr_flag ?f ?a) ?b] =>
      is_const a; is_const b; rewrite (has_clr f a b) by reflexivity
  | |- context [has ?a ?b] =>
      is_const a; is_const b; let v := eval vm_compute in (has a b) in change (has a b) with v
  end;
  rewrite ?orb_false_r, ?orb_true_r, ?orb_false_l, ?orb_true_l.

(** ** Data. *)

(** struct event with the struct event_callback at its head.  A plain
    event_callback (a deferred callback) is one whose [EVLIST_INIT] is clear;
    only its [evcb_*] fields mean anything.  [ev_pncalls] is a pointer to the
    local variable of [event_signal_closure] or null.  In C the heap index
    shares a union, [ev_timeout_pos], with the links of a common-timeout list;
    here the lists are values of their own, and [ev_min_heap_idx] says
    something only of an event in the heap ([base_wf]), where alone the code
    uses it: an event waits in the heap or on a list, never in both. *)
Record event := Event {
  ev_flags : Z;
  ev_pri : Z;
  ev_closure : Z;
  ev_callback : Z;
  ev_arg : Z;
  ev_timeout : timeval;
  ev_min_heap_idx : Z;
  ev_fd : Z;
  ev_base : bool;
  ev_io_timeout : timeval;
  ev_ncalls : Z;
  ev_pncalls : bool;
  ev_events : Z;
  ev_res : Z
}.

Definition no_event : event :=
  Event 0 0 0 0 0 evutil_timerclear (-1) (-1) false evutil_timerclear 0 false 0 0.
#[export] Instance event_inhabited : Inhabited event := populate no_event.

(** struct common_timeout_list. *)
Record common_timeout_list := CommonTimeoutList {
  ctl_events : list eid;
  ctl_duration : timeval;
  ctl_timeout_event : eid
}.

(** struct evmap_io. *)
Record evmap_io := EvmapIo {
  io_events : list eid;
  nread : Z;
  nwrite : Z;
  nclose : Z
}.

(** struct event_once, named by the event it holds. *)
Record event_once := EventOnce { eo_ev : eid; eo_cb : Z; eo_arg : Z }.

(** struct event_base.  [evbase] is the backend's own state.  A map from a
    descriptor (or a signal) to its entry stands for the [entries] array of
    [nentries] slots: a slot that was never constructed is absent.
    [closure_ncalls] is the local variable [ncalls] of the running
    [event_signal_closure]. *)
Record event_base (B : Type) := EventBase {
  evbase : B;
  virtual_event_count : Z;
  virtual_event_count_max : Z;
  event_count : Z;
  event_count_max : Z;
  event_count_active : Z;
  event_count_active_max : Z;
  event_gotterm : bool;
  event_break : bool;
  event_continue : bool;
  event_running_priority : Z;
  running_loop : bool;
  n_deferreds_queued : Z;
  activequeues : list (list eid);
  active_later_queue : list eid;
  common_timeout_queues : list common_timeout_list;
  n_common_timeouts_allocated : Z;
  io_entries : gmap Z evmap_io;
  io_nentries : Z;
  sigmap_entries : gmap Z (list eid);
  sigmap_nentries : Z;
  timeheap : min_heap;
  tv_cache : timeval;
  tv_clock_diff : timeval;
  last_updated_clock_diff : Z;
  no_cache_time : bool;
  max_dispatch_time : timeval;
  max_dispatch_callbacks : Z;
  limit_callbacks_after_prio : Z;
  current_event : option eid;
  closure_ncalls : Z;
  once_events : list event_once
}.
Arguments evbase {_}. Arguments virtual_event_count {_}. Arguments virtual_event_count_max {_}.
Arguments event_count {_}. Arguments event_count_max {_}. Arguments event_count_active {_}.
Arguments event_count_active_max {_}. Arguments event_gotterm {_}. Arguments event_break {_}.
Arguments event_continue {_}. Arguments event_running_priority {_}. Arguments running_loop {_}.
Arguments n_deferreds_queued {_}. Arguments activequeues {_}. Arguments active_later_queue {_}.
Arguments common_timeout_queues {_}. Arguments n_common_timeouts_allocated {_}.
Arguments io_entries {_}. Arguments io_nentries {_}. Arguments sigmap_entries {_}.
Arguments sigmap_nentries {_}. Arguments timeheap {_}. Arguments tv_cache {_}.
Arguments tv_clock_diff {_}. Arguments last_updated_clock_diff {_}. Arguments no_cache_time {_}.
Arguments max_dispatch_time {_}. Arguments max_dispatch_callbacks {_}.
Arguments limit_callbacks_after_prio {_}. Arguments current_event {_}. Arguments closure_ncalls {_}.
Arguments once_events {_}.

(** The whole state: every event structure, the base, and what the system
    clocks show ([monotonic_now] for [evutil_gettime_monotonic_], [wall_now]
    for [evutil_gettimeofday]). *)
Record state (B : Type) := State {
  events : gmap eid event;
  base : event_base B;
  monotonic_now : timeval;
  wall_now : timeval
}.
Arguments events {_}. Arguments base {_}. Arguments monotonic_now {_}. Arguments wall_now {_}.

(** struct eventop: the operations of a backend the maps call.  [add] and
    [del] take the descriptor, the events previously enabled and the events
    to enable or disable; [None] is -1.  [fdinfo_len] is what the backend
    records per descriptor, part of the map's allocations. *)
Class Eventop (B : Type) := {
  evsel_add : B -> Z -> Z -> Z -> option B;
  evsel_del : B -> Z -> Z -> Z -> option B;
  evsigsel_add : B -> Z -> Z -> Z -> option B;
  evsigsel_del : B -> Z -> Z -> Z -> option B;
  fdinfo_len : Z;
  sig_fdinfo_len : Z
}.

Section Access.
Context {B : Type}.
Implicit Types (st : state B) (e : eid).

(** [*ev]. *)
Definition get st e : event := events st !!! e.
(** [ev->field = ...]. *)
Definition upd st e (f : event -> event) : state B :=
  {| st with events := <[e := f (get st e)]> (events st) |}.
Definition upd_base st (f : event_base B -> event_base B) : state B :=
  {| st with base := f (base st) |}.

Definition flag st e (mask : Z) : bool := has (ev_flags (get st e)) mask.
Definition set_flags st e (fl : Z) : state B := upd st e (fun ev => {| ev with ev_flags := fl |}).

Definition nactivequeues st : Z := Z.of_nat (length (activequeues (base st))).
Definition n_common_timeouts st : Z := Z.of_nat (length (common_timeout_queues (base st))).
End Access.

(** The heap sees the events through the store. *)
#[export] Instance state_HeapStore {B} : HeapStore (state B) := {
  heap_timeout st e := ev_timeout (get st e);
  min_heap_idx st e := ev_min_heap_idx (get st e);
  set_min_heap_idx st e i := upd st e (fun ev => {| ev with ev_min_heap_idx := i |})
}.

(** ** Reading an updated store. *)
Section AccessLemmas.
Context {B : Type}.
Implicit Types (st : state B) (e x : eid).

Lemma get_upd st e f x : get (upd st e f) x = if decide (x = e) then f (get st e) else get st x.
Proof.
  unfold get, upd; cbn [events]. case_decide as Hx; subst.
  - apply lookup_total_insert_eq.
  - by apply lookup_total_insert_ne.
Qed.
Lemma get_upd_eq st e f : get (upd st e f) e = f (get st e).
Proof. rewrite get_upd. by rewrite decide_True. Qed.
Lemma get_upd_ne st e f x : x <> e -> get (upd st e f) x = get st x.
Proof. intros. rewrite get_upd. by rewrite decide_False. Qed.
Lemma get_upd_base st f x : get (upd_base st f) x = get st x.
Proof. done. Qed.
Lemma base_upd st e f : base (upd st e f) = base st.
Proof. done. Qed.
Lemma base_upd_base st f : base (upd_base st f) = f (base st).
Proof. done. Qed.

#[export] Instance state_laws : HeapStoreLaws (state B).
Proof.
  split; intros; cbn; rewrite ?get_upd; repeat case_decide; subst; done.
Qed.

(** [st'] differs from [st] in heap indices only. *)
Definition idx_frame st st' : Prop :=
  base st' = base st /\ monotonic_now st' = monotonic_now st /\ wall_now st' = wall_now st /\ forall x, exists i, get st' x = {| (get st x) with ev_min_heap_idx := i |}.

#[export] Instance idx_frame_preorder : PreOrder idx_frame.
Proof.
  split.
  - intros st. split_and!; try done. intros x. exists (ev_min_heap_idx (get st x)). by destruct (get st x).
  - intros a b c (? & ? & ? & Hab) (? & ? & ? & Hbc). split_and!; try congruence. intros x.
    destruct (Hab x) as [i Hi], (Hbc x) as [j ->]. exists j. by rewrite Hi.
Qed.
Lemma idx_frame_set st e i : idx_frame st (set_min_heap_idx st e i).
Proof.
  split_and!; try done. intros x. cbn. rewrite get_upd. case_decide; subst; [by eexists|].
  exists (ev_min_heap_idx (get st x)). by destruct (get st x).
Qed.
End AccessLemmas.

(** ** Time. *)
Section Time.
Context {B : Type}.
Implicit Types (st : state B).

Definition CLOCK_SYNC_INTERVAL : Z := 5.

(** The cached time, or the monotonic clock; the difference between the two
    clocks is refreshed when it is old. *)
Definition gettime st : timeval * state B :=
  if c_true (tv_sec (tv_cache (base st))) then (tv_cache (base st), st)
  else
    let tp := monotonic_now st in
    if last_updated_clock_diff (base st) + CLOCK_SYNC_INTERVAL <? tv_sec tp then
      (tp, upd_base st (fun b => {| b with
             tv_clock_diff := evutil_timersub (wall_now st) tp;
             last_updated_clock_diff := tv_sec tp |}))
    else (tp, st).

Definition event_base_gettimeofday_cached st : timeval :=
  if tv_sec (tv_cache (base st)) =? 0 then wall_now st
  else evutil_timeradd (tv_cache (base st)) (tv_clock_diff (base st)).

Definition clear_time_cache st : state B :=
  upd_base st (fun b => {| b with tv_cache := {| (tv_cache b) with tv_sec := 0 |} |}).

Definition update_time_cache st : state B :=
  let st := clear_time_cache st in
  if no_cache_time (base st) then st
  else
    let '(tv, st) := gettime st in
    upd_base st (fun b => {| b with tv_cache := tv |}).
End Time.
