(* ===== verification/EventQueue.v ===== *)
(** * The queue primitives of the event base (event.c)

    Each event_queue function moves one event into or out of one of the four places an
    event can be: inserted (registered with the maps), active, active-later
    and waiting for a timeout.  Errors the code answers with [event_errx] or
    a failed [EVUTIL_ASSERT] are [None]. *)
From S2P Require Import Prelude Timeval MinHeap Event.

(** What the program's environment decides: whether an allocation of so many
    bytes succeeds, whether debug mode is on, and how many event structures
    the program uses.  They number fewer than [INT_MAX] because a heap index
    is an [int]. *)
Class Platform := {
  mm_ok : Z -> bool;
  event_debug_mode_on_ : bool;
  max_events : nat;
  max_events_int : Z.of_nat max_events + 1 < 2 ^ 31
}.

(** [EVUTIL_ASSERT]. *)
Definition evutil_assert (b : bool) : option unit := if b then Some tt else None.

(** TAILQ/LIST removal of an element, and of the lists of lists. *)
Definition tailq_remove (e : eid) (l : list eid) : list eid := filter (fun x => x <> e) l.
Definition queue_at (qs : list (list eid)) (i : Z) : list eid := arr_get [] qs i.

Section Queues.
Context {B : Type} `{Platform}.
Implicit Types (st : state B) (e : eid).

Definition count_unit (flags : Z) : Z := Z.land (Z.lnot (Z.shiftr flags 4)) 1.
Definition DECR_EVENT_COUNT st (flags : Z) : state B :=
  upd_base st (fun b => {| b with event_count := event_count b - count_unit flags |}).
Definition INCR_EVENT_COUNT st (flags : Z) : state B :=
  upd_base st (fun b => {| b with
    event_count := event_count b + count_unit flags;
    event_count_max := Z.max (event_count_max b) (event_count b + count_unit flags) |}).

Definition is_common_timeout st (tv : timeval) : bool :=
  if negb (Z.land (tv_usec tv) COMMON_TIMEOUT_MASK =? COMMON_TIMEOUT_MAGIC) then false
  else
    let idx := Z.shiftr (Z.land (tv_usec tv) COMMON_TIMEOUT_IDX_MASK) COMMON_TIMEOUT_IDX_SHIFT in
    idx <? n_common_timeouts st.

Definition is_same_common_timeout (tv1 tv2 : timeval) : bool :=
  Z.ldiff (tv_usec tv1) MICROSECONDS_MASK =? Z.ldiff (tv_usec tv2) MICROSECONDS_MASK.

Definition COMMON_TIMEOUT_IDX (tv : timeval) : Z :=
  Z.shiftr (Z.land (tv_usec tv) COMMON_TIMEOUT_IDX_MASK) COMMON_TIMEOUT_IDX_SHIFT.

Definition get_common_timeout_list st (tv : timeval) : option common_timeout_list :=
  common_timeout_queues (base st) !! Z.to_nat (COMMON_TIMEOUT_IDX tv).
Definition set_common_timeout_list st (tv : timeval) (ctl : common_timeout_list) : state B :=
  upd_base st (fun b => {| b with
    common_timeout_queues := <[Z.to_nat (COMMON_TIMEOUT_IDX tv) := ctl]> (common_timeout_queues b) |}).

Definition event_queue_remove_inserted st e : option (state B) :=
  if negb (flag st e EVLIST_INSERTED) then None
  else
    let st := DECR_EVENT_COUNT st (ev_flags (get st e)) in
    Some (set_flags st e (clr_flag (ev_flags (get st e)) EVLIST_INSERTED)).

Definition event_queue_remove_active st e : option (state B) :=
  if negb (flag st e EVLIST_ACTIVE) then None
  else
    let st := DECR_EVENT_COUNT st (ev_flags (get st e)) in
    let st := set_flags st e (clr_flag (ev_flags (get st e)) EVLIST_ACTIVE) in
    let pri := ev_pri (get st e) in
    Some (upd_base st (fun b => {| b with
      event_count_active := event_count_active b - 1;
      activequeues := arr_set (activequeues b) pri
                        (tailq_remove e (queue_at (activequeues b) pri)) |})).

Definition event_queue_remove_active_later st e : option (state B) :=
  if negb (flag st e EVLIST_ACTIVE_LATER) then None
  else
    let st := DECR_EVENT_COUNT st (ev_flags (get st e)) in
    let st := set_flags st e (clr_flag (ev_flags (get st e)) EVLIST_ACTIVE_LATER) in
    Some (upd_base st (fun b => {| b with
      event_count_active := event_count_active b - 1;
      active_later_queue := tailq_remove e (active_later_queue b) |})).

Definition event_queue_remove_timeout st e : option (state B) :=
  if negb (flag st e EVLIST_TIMEOUT) then None
  else
    let st := DECR_EVENT_COUNT st (ev_flags (get st e)) in
    let st := set_flags st e (clr_flag (ev_flags (get st e)) EVLIST_TIMEOUT) in
    let tv := ev_timeout (get st e) in
    if is_common_timeout st tv then
      ctl ← get_common_timeout_list st tv;
      Some (set_common_timeout_list st tv
              {| ctl with ctl_events := tailq_remove e (ctl_events ctl) |})
    else
      let '(_, s, st) := min_heap_erase_ (timeheap (base st)) st e in
      Some (upd_base st (fun b => {| b with timeheap := s |})).

(** The reverse walk of [insert_common_timeout_inorder]: [l] is the list
    read backwards. *)
Fixpoint insert_inorder_rev st (l : list eid) e : option (list eid) :=
  match l with
  | [] => Some [e]
  | x :: l' =>
      _ ← evutil_assert (is_same_common_timeout (ev_timeout (get st x)) (ev_timeout (get st e)));
      if evutil_timercmp (ev_timeout (get st e)) (ev_timeout (get st x)) CmpGe
      then Some (e :: x :: l')
      else r ← insert_inorder_rev st l' e; Some (x :: r)
  end.
Definition insert_common_timeout_inorder st (ctl : common_timeout_list) e
  : option common_timeout_list :=
  r ← insert_inorder_rev st (reverse (ctl_events ctl)) e;
  Some {| ctl with ctl_events := reverse r |}.

Definition event_queue_insert_inserted st e : option (state B) :=
  if flag st e EVLIST_INSERTED then None
  else
    let st := INCR_EVENT_COUNT st (ev_flags (get st e)) in
    Some (set_flags st e (set_flag (ev_flags (get st e)) EVLIST_INSERTED)).

Definition event_queue_insert_active st e : option (state B) :=
  if flag st e EVLIST_ACTIVE then Some st
  else
    let st := INCR_EVENT_COUNT st (ev_flags (get st e)) in
    let st := set_flags st e (set_flag (ev_flags (get st e)) EVLIST_ACTIVE) in
    let pri := ev_pri (get st e) in
    _ ← evutil_assert (pri <? nactivequeues st);
    Some (upd_base st (fun b => {| b with
      event_count_active := event_count_active b + 1;
      event_count_active_max := Z.max (event_count_active_max b) (event_count_active b + 1);
      activequeues := arr_set (activequeues b) pri (queue_at (activequeues b) pri ++ [e]) |})).

Definition event_queue_insert_active_later st e : option (state B) :=
  if flag st e (Z.lor EVLIST_ACTIVE_LATER EVLIST_ACTIVE) then Some st
  else
    let st := INCR_EVENT_COUNT st (ev_flags (get st e)) in
    let st := set_flags st e (set_flag (ev_flags (get st e)) EVLIST_ACTIVE_LATER) in
    _ ← evutil_assert (ev_pri (get st e) <? nactivequeues st);
    Some (upd_base st (fun b => {| b with
      event_count_active := event_count_active b + 1;
      event_count_active_max := Z.max (event_count_active_max b) (event_count_active b + 1);
      active_later_queue := active_later_queue b ++ [e] |})).

(** The result of [min_heap_push_] is ignored, as in the code. *)
Definition event_queue_insert_timeout st e : option (state B) :=
  if flag st e EVLIST_TIMEOUT then None
  else
    let st := INCR_EVENT_COUNT st (ev_flags (get st e)) in
    let st := set_flags st e (set_flag (ev_flags (get st e)) EVLIST_TIMEOUT) in
    let tv := ev_timeout (get st e) in
    if is_common_timeout st tv then
      ctl ← get_common_timeout_list st tv;
      ctl ← insert_common_timeout_inorder st ctl e;
      Some (set_common_timeout_list st tv ctl)
    else
      let '(_, s, st) := min_heap_push_ mm_ok (timeheap (base st)) st e in
      Some (upd_base st (fun b => {| b with timeheap := s |})).

(** The loop of [event_queue_make_later_events_active]: one turn per queued
    callback. *)
Fixpoint make_later_active_loop (q : list eid) st : option (state B) :=
  match q with
  | [] => Some st
  | e :: q' =>
      let st := upd_base st (fun b => {| b with active_later_queue := q' |}) in
      let st := set_flags st e
        (set_flag (clr_flag (ev_flags (get st e)) EVLIST_ACTIVE_LATER) EVLIST_ACTIVE) in
      let pri := ev_pri (get st e) in
      _ ← evutil_assert (pri <? nactivequeues st);
      let st := upd_base st (fun b => {| b with
        activequeues := arr_set (activequeues b) pri (queue_at (activequeues b) pri ++ [e]);
        n_deferreds_queued := n_deferreds_queued b
          + c_int (ev_closure (get st e) =? EV_CLOSURE_CB_SELF) |}) in
      make_later_active_loop q' st
  end.
Definition event_queue_make_later_events_active st : option (state B) :=
  make_later_active_loop (active_later_queue (base st)) st.
End Queues.
