(* ===== verification/EvMap.v ===== *)
(** * The maps from descriptors and signals to events (evmap.c)

    Registration of an event with the backend happens here: the backend is
    told only when the set of conditions watched on a descriptor changes.
    Modelled for the array representation (no EVMAP_USE_HT). *)
From S2P Require Import Prelude Timeval MinHeap Event EventQueue.

Section EvMap.
Context {B : Type} `{Eventop B} `{Platform}.
Implicit Types (st : state B) (e : eid).

Definition evmap_io_init : evmap_io := EvmapIo [] 0 0 0.

(** The doubling loop of [evmap_make_space], [while (nentries <= slot)
    nentries <<= 1] on a 32-bit [int].  [None] when 32 turns do not end it: by
    then the wrapped value is 0 and stays 0. *)
Fixpoint grow_entries (fuel : nat) (nentries slot : Z) : option Z :=
  match fuel with
  | O => None
  | S fuel => if nentries <=? slot then grow_entries fuel (s32 (Z.shiftl nentries 1)) slot
              else Some nentries
  end.
Definition grow_fuel : nat := 33.
(** The return value and the new number of entries; [None] if the call never
    returns, or the size [nentries * msize] overflows an [int]. *)
Definition evmap_make_space (nentries slot msize : Z) : option (Z * Z) :=
  if nentries <=? slot then
    n1 ← grow_entries grow_fuel (if c_true nentries then nentries else 32) slot;
    if INT_MAX <? n1 * msize then None
    else if mm_ok (n1 * msize) then Some (0, n1) else Some (-1, nentries)
  else Some (0, nentries).

Definition sizeof_evmap_io : Z := 16.
Definition sizeof_evmap_signal : Z := 8.

(** [GET_IO_SLOT_AND_CTOR]: the entry of the slot, constructed if absent;
    [None] when memory runs out. *)
Definition get_io_slot_and_ctor st (fd : Z) : option evmap_io :=
  match io_entries (base st) !! fd with
  | Some ctx => Some ctx
  | None => if mm_ok (sizeof_evmap_io + fdinfo_len) then Some evmap_io_init else None
  end.
Definition set_io_slot st (fd : Z) (ctx : evmap_io) : state B :=
  upd_base st (fun b => {| b with io_entries := <[fd := ctx]> (io_entries b) |}).
Definition set_evbase st (bk : B) : state B :=
  upd_base st (fun b => {| b with evbase := bk |}).

(** [old] as [evmap_io_add_] and [evmap_io_del_] compute it. *)
Definition io_old (nr nw nc : Z) : Z :=
  let old := 0 in
  let old := if c_true nr then Z.lor old EV_READ else old in
  let old := if c_true nw then Z.lor old EV_WRITE else old in
  if c_true nc then Z.lor old EV_CLOSED else old.

(** [if (ev_events & bit) if (++n == 1) res |= bit] *)
Definition io_incr (evs bit : Z) (r : Z * Z) : Z * Z :=
  let '(cnt, res) := r in
  if has evs bit then (cnt + 1, if cnt + 1 =? 1 then Z.lor res bit else res) else (cnt, res).
Definition io_decr (evs bit : Z) (r : Z * Z) : Z * Z :=
  let '(cnt, res) := r in
  if has evs bit then (cnt - 1, if cnt - 1 =? 0 then Z.lor res bit else res) else (cnt, res).

(** -1 on error, 0 if the backend needed no change, 1 if it was told. *)
Definition evmap_io_add_ st (fd : Z) e : option (Z * state B) :=
  _ ← evutil_assert (fd =? ev_fd (get st e));
  if fd <? 0 then Some (0, st)
  else
    '(r, nentries) ← evmap_make_space (io_nentries (base st)) fd 8;
    if r =? -1 then Some (-1, st)
    else
        let st := upd_base st (fun b => {| b with io_nentries := nentries |}) in
        match get_io_slot_and_ctor st fd with
        | None => Some (-1, st)
        | Some ctx =>
            let st := set_io_slot st fd ctx in
            let evs := ev_events (get st e) in
            let old := io_old (nread ctx) (nwrite ctx) (nclose ctx) in
            let '(nr, res) := io_incr evs EV_READ (nread ctx, 0) in
            let '(nw, res) := io_incr evs EV_WRITE (nwrite ctx, res) in
            let '(nc, res) := io_incr evs EV_CLOSED (nclose ctx, res) in
            if (0xffff <? nr) || (0xffff <? nw) || (0xffff <? nc) then Some (-1, st)
            else if event_debug_mode_on_ &&
              match io_events ctx with
              | [] => false
              | old_ev :: _ => negb (Z.land (ev_events (get st old_ev)) EV_ET =? Z.land evs EV_ET)
              end then Some (-1, st)
            else
              let finish st retval :=
                Some (retval, set_io_slot st fd (EvmapIo (e :: io_events ctx) nr nw nc)) in
              if c_true res then
                match evsel_add (evbase (base st)) fd old (Z.lor (Z.land evs EV_ET) res) with
                | None => Some (-1, st)
                | Some bk => finish (set_evbase st bk) 1
                end
              else finish st 0
        end.

Definition evmap_io_del_ st (fd : Z) e : option (Z * state B) :=
  if fd <? 0 then Some (0, st)
  else
    _ ← evutil_assert (fd =? ev_fd (get st e));
    if io_nentries (base st) <=? fd then Some (-1, st)
    else
      ctx ← io_entries (base st) !! fd;
      let evs := ev_events (get st e) in
      let old := io_old (nread ctx) (nwrite ctx) (nclose ctx) in
      let '(nr, res) := io_decr evs EV_READ (nread ctx, 0) in
      let '(nw, res) := io_decr evs EV_WRITE (nwrite ctx, res) in
      let '(nc, res) := io_decr evs EV_CLOSED (nclose ctx, res) in
      _ ← evutil_assert ((0 <=? nr) && (0 <=? nw) && (0 <=? nc));
      let '(st, retval) :=
        if c_true res then
          match evsel_del (evbase (base st)) fd old res with
          | None => (st, -1)
          | Some bk => (set_evbase st bk, 1)
          end
        else (st, 0) in
      Some (retval, set_io_slot st fd (EvmapIo (tailq_remove e (io_events ctx)) nr nw nc)).

(** A negative signal number indexes before the array: [None]. *)
Definition evmap_signal_add_ st (sig : Z) e : option (Z * state B) :=
  '(r, nentries) ← evmap_make_space (sigmap_nentries (base st)) sig 8;
  if r =? -1 then Some (-1, st)
  else
      let st := upd_base st (fun b => {| b with sigmap_nentries := nentries |}) in
      _ ← evutil_assert (0 <=? sig);
      let slot := sigmap_entries (base st) !! sig in
      if match slot with None => negb (mm_ok (sizeof_evmap_signal + sig_fdinfo_len)) | Some _ => false end
      then Some (-1, st)
      else
        let ctx := default [] slot in
        let set st l := upd_base st (fun b => {| b with
                          sigmap_entries := <[sig := l]> (sigmap_entries b) |}) in
        let st := set st ctx in
        match ctx with
        | [] =>
            match evsigsel_add (evbase (base st)) (ev_fd (get st e)) 0 EV_SIGNAL with
            | None => Some (-1, st)
            | Some bk => Some (1, set (set_evbase st bk) (e :: ctx))
            end
        | _ => Some (1, set st (e :: ctx))
        end.

Definition evmap_signal_del_ st (sig : Z) e : option (Z * state B) :=
  if sigmap_nentries (base st) <=? sig then Some (-1, st)
  else
    ctx ← sigmap_entries (base st) !! sig;
    let ctx := tailq_remove e ctx in
    let st := upd_base st (fun b => {| b with
                sigmap_entries := <[sig := ctx]> (sigmap_entries b) |}) in
    match ctx with
    | [] =>
        match evsigsel_del (evbase (base st)) (ev_fd (get st e)) 0 EV_SIGNAL with
        | None => Some (-1, st)
        | Some bk => Some (1, set_evbase st bk)
        end
    | _ => Some (1, st)
    end.
End EvMap.
