(* ===== verification/EventCore.v ===== *)
(** * Adding, deleting and activating events (event.c)

    The operations of the API under the base lock.  Modelled for a program
    that has not installed threading functions ([evthread_id_fn_] is null):
    then [EVBASE_IN_THREAD] is true and [EVBASE_NEED_NOTIFY] false, so no
    operation waits on a condition and nobody is notified. *)
From S2P Require Import Prelude Timeval MinHeap Event EventQueue EvMap.

Definition EVENT_DEL_NOBLOCK : Z := 0.
Definition EVENT_DEL_BLOCK : Z := 1.
Definition EVENT_DEL_AUTOBLOCK : Z := 2.
Definition EVENT_DEL_EVEN_IF_FINALIZING : Z := 3.
Definition EVENT_FINALIZE_FREE_ : Z := 0x10000.
Definition MAX_DEFERREDS_QUEUED : Z := 32.

Definition EV_IO : Z := Z.lor EV_READ (Z.lor EV_WRITE EV_CLOSED).

Section Core.
Context {B : Type} `{Eventop B} `{Platform}.
Implicit Types (st : state B) (e : eid).

(** ** Setting an event up. *)

(** [arg] is [None] for [event_self_cbarg()]. *)
Definition event_assign st e (fd evs callback : Z) (arg : option Z) : Z * state B :=
  let st := upd st e (fun ev => {| ev with
    ev_base := true; ev_callback := callback;
    ev_arg := match arg with Some x => x | None => Z.of_nat e end;
    ev_fd := fd; ev_events := evs; ev_res := 0; ev_flags := EVLIST_INIT;
    ev_ncalls := 0; ev_pncalls := false |}) in
  if has evs EV_SIGNAL && has evs EV_IO then (-1, st)
  else
    let st :=
      if has evs EV_SIGNAL then upd st e (fun ev => {| ev with ev_closure := EV_CLOSURE_EVENT_SIGNAL |})
      else if has evs EV_PERSIST then
        upd st e (fun ev => {| ev with ev_io_timeout := evutil_timerclear;
                                       ev_closure := EV_CLOSURE_EVENT_PERSIST |})
      else upd st e (fun ev => {| ev with ev_closure := EV_CLOSURE_EVENT |}) in
    let st := min_heap_elem_init_ st e in
    (0, upd st e (fun ev => {| ev with ev_pri := u8 (Z.quot (nactivequeues st) 2) |})).

Definition event_priority_set st e (pri : Z) : Z * state B :=
  if flag st e EVLIST_ACTIVE then (-1, st)
  else if (pri <? 0) || (nactivequeues st <=? pri) then (-1, st)
  else (0, upd st e (fun ev => {| ev with ev_pri := u8 pri |})).

(** The pending conditions among [evmask], and the reported timeout. *)
Definition event_pending st e (evmask : Z) (want_tv : bool) : Z * option timeval :=
  if negb (ev_base (get st e)) then (0, None)
  else
    let ev := get st e in
    let flags := 0 in
    let flags := if has (ev_flags ev) EVLIST_INSERTED
                 then Z.lor flags (Z.land (ev_events ev) (Z.lor EV_IO EV_SIGNAL)) else flags in
    let flags := if has (ev_flags ev) (Z.lor EVLIST_ACTIVE EVLIST_ACTIVE_LATER)
                 then Z.lor flags (ev_res ev) else flags in
    let flags := if has (ev_flags ev) EVLIST_TIMEOUT then Z.lor flags EV_TIMEOUT else flags in
    let evmask := Z.land evmask (Z.lor EV_TIMEOUT (Z.lor EV_IO EV_SIGNAL)) in
    let tv :=
      if want_tv && has (Z.land flags evmask) EV_TIMEOUT then
        Some (evutil_timeradd (tv_clock_diff (base st))
                {| (ev_timeout ev) with tv_usec := Z.land (tv_usec (ev_timeout ev)) MICROSECONDS_MASK |})
      else None in
    (Z.land flags evmask, tv).

(** ** Adding. *)

(** [*ev->ev_pncalls = 0]: abort a signal callback loop that is running. *)
Definition abort_signal_loop st e : state B :=
  if c_true (ev_ncalls (get st e)) && ev_pncalls (get st e)
  then upd_base st (fun b => {| b with closure_ncalls := 0 |}) else st.

(** The registration half of [event_add_nolock_]. *)
Definition event_add_register st e : option (Z * state B) :=
  if has (ev_events (get st e)) (Z.lor EV_IO EV_SIGNAL)
     && negb (flag st e (Z.lor EVLIST_INSERTED (Z.lor EVLIST_ACTIVE EVLIST_ACTIVE_LATER))) then
    '(res, st) ←
      (if has (ev_events (get st e)) EV_IO then evmap_io_add_ st (ev_fd (get st e)) e
       else if has (ev_events (get st e)) EV_SIGNAL
       then evmap_signal_add_ st (s32 (ev_fd (get st e))) e
       else Some (0, st));
    st ← (if negb (res =? -1) then event_queue_insert_inserted st e else Some st);
    Some (if res =? 1 then 0 else res, st)
  else Some (0, st).

(** The new [ev_timeout]. *)
Definition add_deadline (now tv : timeval) (common tv_is_absolute : bool) : timeval :=
  if tv_is_absolute then tv
  else if common then
    let t := evutil_timeradd now {| tv with tv_usec := Z.land (tv_usec tv) MICROSECONDS_MASK |} in
    {| t with tv_usec := Z.lor (tv_usec t) (Z.ldiff (tv_usec tv) MICROSECONDS_MASK) |}
  else evutil_timeradd now tv.

(** The timeout half, up to the insertion; returns also whether [tv] is a
    common timeout. *)
Definition event_add_timeout st e (tv : timeval) (tv_is_absolute : bool)
  : option (bool * state B) :=
  let st := if (ev_closure (get st e) =? EV_CLOSURE_EVENT_PERSIST) && negb tv_is_absolute
            then upd st e (fun ev => {| ev with ev_io_timeout := tv |}) else st in
  st ← (if flag st e EVLIST_TIMEOUT then event_queue_remove_timeout st e else Some st);
  st ← (if flag st e EVLIST_ACTIVE && has (ev_res (get st e)) EV_TIMEOUT then
          let st := if has (ev_events (get st e)) EV_SIGNAL then abort_signal_loop st e else st in
          event_queue_remove_active st e
        else Some st);
  let '(now, st) := gettime st in
  let common_timeout := is_common_timeout st tv in
  let st := upd st e (fun ev => {| ev with
              ev_timeout := add_deadline now tv common_timeout tv_is_absolute |}) in
  st ← event_queue_insert_timeout st e;
  Some (common_timeout, st).

(** [common_timeout_schedule] calls back into [event_add_nolock_] for the
    internal event of the list, whose own timeout is an ordinary one. *)
Fixpoint event_add_nolock_ (fuel : nat) st e (tv : option timeval) (tv_is_absolute : bool)
  : option (Z * state B) :=
  match fuel with
  | O => None
  | S fuel =>
      _ ← evutil_assert (negb (c_true (Z.ldiff (ev_flags (get st e)) EVLIST_ALL)));
      if flag st e EVLIST_FINALIZING then Some (-1, st)
      else
        let '(r, heap) :=
          match tv with
          | Some _ =>
              if negb (flag st e EVLIST_TIMEOUT)
              then min_heap_reserve_ mm_ok (timeheap (base st))
                     (u32 (1 + min_heap_size_ (timeheap (base st))))
              else (0, timeheap (base st))
          | None => (0, timeheap (base st))
          end in
        if r =? -1 then Some (-1, st)
        else
          let st := upd_base st (fun b => {| b with timeheap := heap |}) in
          '(res, st) ← event_add_register st e;
          match tv with
          | None => Some (res, st)
          | Some tv =>
              if res =? -1 then Some (res, st)
              else
                '(common_timeout, st) ← event_add_timeout st e tv tv_is_absolute;
                if (common_timeout : bool) then
                  ctl ← get_common_timeout_list st (ev_timeout (get st e));
                  if decide (head (ctl_events ctl) = Some e) then
                    (* common_timeout_schedule *)
                    let t := ev_timeout (get st e) in
                    let timeout := {| t with tv_usec := Z.land (tv_usec t) MICROSECONDS_MASK |} in
                    '(_, st) ← event_add_nolock_ fuel st (ctl_timeout_event ctl) (Some timeout) true;
                    Some (res, st)
                  else Some (res, st)
                else Some (res, st)
          end
  end.

(** Two levels of calls are enough: the second adds an ordinary timeout. *)
Definition add_fuel : nat := 2.
Definition event_add_nolock st e tv tv_is_absolute : option (Z * state B) :=
  event_add_nolock_ add_fuel st e tv tv_is_absolute.

Definition event_add st e (tv : option timeval) : option (Z * state B) :=
  if negb (ev_base (get st e)) then Some (-1, st) else event_add_nolock st e tv false.

Definition common_timeout_schedule st (ctl : common_timeout_list) (hd : eid) : option (state B) :=
  let t := ev_timeout (get st hd) in
  let timeout := {| t with tv_usec := Z.land (tv_usec t) MICROSECONDS_MASK |} in
  '(_, st) ← event_add_nolock st (ctl_timeout_event ctl) (Some timeout) true;
  Some st.

Definition event_remove_timer_nolock_ st e : option (Z * state B) :=
  if flag st e EVLIST_TIMEOUT then
    st ← event_queue_remove_timeout st e;
    (* ev_io.ev_timeout overlays the signal fields of the union *)
    Some (0, upd st e (fun ev => {| ev with ev_io_timeout := evutil_timerclear;
                                            ev_ncalls := 0; ev_pncalls := false |}))
  else Some (0, st).
Definition event_remove_timer st e : option (Z * state B) :=
  if negb (ev_base (get st e)) then Some (-1, st) else event_remove_timer_nolock_ st e.

(** ** Deleting. *)
Definition event_del_nolock_ st e (blocking : Z) : option (Z * state B) :=
  if negb (ev_base (get st e)) then Some (-1, st)
  else if negb (blocking =? EVENT_DEL_EVEN_IF_FINALIZING) && flag st e EVLIST_FINALIZING
  then Some (0, st)
  else
    _ ← evutil_assert (negb (c_true (Z.ldiff (ev_flags (get st e)) EVLIST_ALL)));
    let st := if has (ev_events (get st e)) EV_SIGNAL then abort_signal_loop st e else st in
    st ← (if flag st e EVLIST_TIMEOUT then event_queue_remove_timeout st e else Some st);
    st ← (if flag st e EVLIST_ACTIVE then event_queue_remove_active st e
          else if flag st e EVLIST_ACTIVE_LATER then event_queue_remove_active_later st e
          else Some st);
    if flag st e EVLIST_INSERTED then
      st ← event_queue_remove_inserted st e;
      '(res, st) ←
        (if has (ev_events (get st e)) EV_IO then evmap_io_del_ st (ev_fd (get st e)) e
         else evmap_signal_del_ st (s32 (ev_fd (get st e))) e);
      Some (if res =? 1 then 0 else res, st)
    else Some (0, st).

Definition event_del st e : option (Z * state B) :=
  if negb (ev_base (get st e)) then Some (-1, st) else event_del_nolock_ st e EVENT_DEL_AUTOBLOCK.

(** ** Activating. *)
Definition event_callback_activate_nolock_ st e : option (Z * state B) :=
  if flag st e EVLIST_FINALIZING then Some (0, st)
  else
    let m := Z.land (ev_flags (get st e)) (Z.lor EVLIST_ACTIVE EVLIST_ACTIVE_LATER) in
    if m =? EVLIST_ACTIVE then Some (0, st)
    else
      '(r, st) ←
        (if m =? EVLIST_ACTIVE_LATER then
           st ← event_queue_remove_active_later st e; Some (0, st)
         else if m =? 0 then Some (1, st)
         else None);
      st ← event_queue_insert_active st e;
      Some (r, st).

Definition event_active_nolock_ st e (res ncalls : Z) : option (state B) :=
  if flag st e EVLIST_FINALIZING then Some st
  else
    let m := Z.land (ev_flags (get st e)) (Z.lor EVLIST_ACTIVE EVLIST_ACTIVE_LATER) in
    if m =? EVLIST_ACTIVE then
      Some (upd st e (fun ev => {| ev with ev_res := s16 (Z.lor (ev_res ev) res) |}))
    else
      st ← (if m =? EVLIST_ACTIVE_LATER
            then Some (upd st e (fun ev => {| ev with ev_res := s16 (Z.lor (ev_res ev) res) |}))
            else if m =? 0 then Some (upd st e (fun ev => {| ev with ev_res := s16 res |}))
            else None);
      let st := if ev_pri (get st e) <? event_running_priority (base st)
                then upd_base st (fun b => {| b with event_continue := true |}) else st in
      let st := if has (ev_events (get st e)) EV_SIGNAL
                then upd st e (fun ev => {| ev with ev_ncalls := s16 ncalls; ev_pncalls := false |})
                else st in
      '(_, st) ← event_callback_activate_nolock_ st e;
      Some st.

Definition event_active st e (res ncalls : Z) : option (state B) :=
  if negb (ev_base (get st e)) then Some st else event_active_nolock_ st e res ncalls.

Definition event_callback_activate_later_nolock_ st e : option (Z * state B) :=
  if flag st e (Z.lor EVLIST_ACTIVE EVLIST_ACTIVE_LATER) then Some (0, st)
  else
    st ← event_queue_insert_active_later st e;
    Some (1, st).

Definition event_active_later_nolock_ st e (res : Z) : option (state B) :=
  if flag st e (Z.lor EVLIST_ACTIVE EVLIST_ACTIVE_LATER) then
    Some (upd st e (fun ev => {| ev with ev_res := s16 (Z.lor (ev_res ev) res) |}))
  else
    let st := upd st e (fun ev => {| ev with ev_res := s16 res |}) in
    '(_, st) ← event_callback_activate_later_nolock_ st e;
    Some st.

Definition event_callback_cancel_nolock_ st e (even_if_finalizing : bool) : option (Z * state B) :=
  if flag st e EVLIST_FINALIZING && negb even_if_finalizing then Some (0, st)
  else if flag st e EVLIST_INIT then
    event_del_nolock_ st e (if even_if_finalizing then EVENT_DEL_EVEN_IF_FINALIZING
                            else EVENT_DEL_AUTOBLOCK)
  else
    let m := Z.land (ev_flags (get st e)) (Z.lor EVLIST_ACTIVE EVLIST_ACTIVE_LATER) in
    if m =? EVLIST_ACTIVE then st ← event_queue_remove_active st e; Some (0, st)
    else if m =? EVLIST_ACTIVE_LATER then st ← event_queue_remove_active_later st e; Some (0, st)
    else if m =? 0 then Some (0, st)
    else None.

(** ** Deferred callbacks. *)
Definition event_deferred_cb_init_ st e (priority fn arg : Z) : state B :=
  upd st e (fun ev => {| ev with ev_flags := 0; ev_callback := fn; ev_arg := arg;
                                 ev_pri := priority; ev_closure := EV_CLOSURE_CB_SELF |}).
Definition event_deferred_cb_set_priority_ st e (priority : Z) : state B :=
  upd st e (fun ev => {| ev with ev_pri := priority |}).
Definition event_deferred_cb_cancel_ st e : option (Z * state B) :=
  event_callback_cancel_nolock_ st e false.
Definition event_deferred_cb_schedule_ st e : option (Z * state B) :=
  if MAX_DEFERREDS_QUEUED <? n_deferreds_queued (base st) then
    event_callback_activate_later_nolock_ st e
  else
    '(r, st) ← event_callback_activate_nolock_ st e;
    let st := if c_true r then
                upd_base st (fun b => {| b with n_deferreds_queued := n_deferreds_queued b + 1 |})
              else st in
    Some (r, st).

(** ** Finalizers. *)
Definition event_finalize_nolock_ st (flags : Z) e (cb : Z) : option (Z * state B) :=
  let closure := if has flags EVENT_FINALIZE_FREE_ then EV_CLOSURE_EVENT_FINALIZE_FREE
                 else EV_CLOSURE_EVENT_FINALIZE in
  '(_, st) ← event_del_nolock_ st e EVENT_DEL_NOBLOCK;
  let st := upd st e (fun ev => {| ev with ev_closure := closure; ev_callback := cb |}) in
  st ← event_active_nolock_ st e EV_FINALIZE 1;
  Some (0, set_flags st e (set_flag (ev_flags (get st e)) EVLIST_FINALIZING)).

Definition event_callback_finalize_nolock_ st e (cb : Z) : option (state B) :=
  '(_, st) ← (if flag st e EVLIST_INIT then event_del_nolock_ st e EVENT_DEL_NOBLOCK
              else event_callback_cancel_nolock_ st e false);
  let st := upd st e (fun ev => {| ev with ev_closure := EV_CLOSURE_CB_FINALIZE; ev_callback := cb |}) in
  '(_, st) ← event_callback_activate_nolock_ st e;
  Some (set_flags st e (set_flag (ev_flags (get st e)) EVLIST_FINALIZING)).

(** ** Activation by the maps (evmap.c). *)
Fixpoint evmap_io_active_loop (l : list eid) st (evs : Z) : option (state B) :=
  match l with
  | [] => Some st
  | e :: l =>
      st ← (if has (ev_events (get st e)) evs
            then event_active_nolock_ st e (Z.land (ev_events (get st e)) evs) 1 else Some st);
      evmap_io_active_loop l st evs
  end.
Definition evmap_io_active_ st (fd evs : Z) : option (state B) :=
  if (fd <? 0) || (io_nentries (base st) <=? fd) then Some st
  else
    match io_entries (base st) !! fd with
    | None => Some st
    | Some ctx => evmap_io_active_loop (io_events ctx) st evs
    end.

Fixpoint evmap_signal_active_loop (l : list eid) st (ncalls : Z) : option (state B) :=
  match l with
  | [] => Some st
  | e :: l => st ← event_active_nolock_ st e EV_SIGNAL ncalls; evmap_signal_active_loop l st ncalls
  end.
Definition evmap_signal_active_ st (sig ncalls : Z) : option (state B) :=
  if (sig <? 0) || (sigmap_nentries (base st) <=? sig) then Some st
  else
    match sigmap_entries (base st) !! sig with
    | None => Some st
    | Some ctx => evmap_signal_active_loop ctx st ncalls
    end.
End Core.
