(* ===== verification/EventLoop.v ===== *)
(** * The event loop (event.c)

    Timeouts, the closures that run callbacks, the processing of the active
    queues and [event_base_loop] itself.  What is not in the repository's
    control is a parameter: the user's callbacks ([user_call]) and the
    backend's [dispatch], which wait for the system and activate events
    through the maps.  Both may run any operation of the API on the state
    they are given.  [None] is an abort: a failed assertion.  The processing of
    the active events and the loop itself may go on for ever, so they run at
    most so many callbacks and turns; one that reaches that bound ends with
    [CutOff], in the state it has reached. *)
From S2P Require Import Prelude Timeval MinHeap Event EventQueue EvMap EventCore.

(** How a callback is called: an event's [(fd, res, arg)], a deferred
    callback's [(self, arg)], a finalizer's [(self, arg)]. *)
Inductive call :=
  | CallEvent (fd res arg : Z)
  | CallSelf (self : eid) (arg : Z)
  | CallFinalize (self : eid) (arg : Z).

Class Environment (B : Type) := {
  user_call : Z -> call -> state B -> option (state B);
  evsel_dispatch : state B -> option timeval -> option (Z * state B)
}.

(** The static callbacks of event.c, as reserved function pointers. *)
Definition common_timeout_callback_ptr : Z := -1.
Definition event_loopexit_cb_ptr : Z := -2.
Definition event_once_cb_ptr : Z := -3.

Definition EVLOOP_ONCE : Z := 0x01.
Definition EVLOOP_NONBLOCK : Z := 0x02.
Definition EVLOOP_NO_EXIT_ON_EMPTY : Z := 0x04.
Definition EVENT_MAX_PRIORITIES : Z := 256.
Definition EVENT_BASE_COUNT_ACTIVE : Z := 1.
Definition EVENT_BASE_COUNT_VIRTUAL : Z := 2.
Definition EVENT_BASE_COUNT_ADDED : Z := 4.

Section Base.
Context {B : Type} `{Eventop B} `{Platform}.
Implicit Types (st : state B) (e : eid).

(** ** Inspection and configuration of a base. *)
Definition N_ACTIVE_CALLBACKS st : Z := event_count_active (base st).
Definition event_haveevents st : bool :=
  (0 <? virtual_event_count (base st)) || (0 <? event_count (base st)).

(** [mm_calloc] of [npriorities] queue heads of 16 bytes.  The old array is
    freed first: on failure the base is left with no queue. *)
Definition event_base_priority_init st (npriorities : Z) : Z * state B :=
  if c_true (N_ACTIVE_CALLBACKS st) || (npriorities <? 1) || (EVENT_MAX_PRIORITIES <=? npriorities)
  then (-1, st)
  else if npriorities =? nactivequeues st then (0, st)
  else
    let st := upd_base st (fun b => {| b with activequeues := [] |}) in
    if mm_ok (npriorities * 16) then
      (0, upd_base st (fun b => {| b with activequeues := replicate (Z.to_nat npriorities) [] |}))
    else (-1, st).

Definition event_base_get_npriorities st : Z := nactivequeues st.

Definition event_base_get_num_events st (type : Z) : Z :=
  let r := 0 in
  let r := if has type EVENT_BASE_COUNT_ACTIVE then r + event_count_active (base st) else r in
  let r := if has type EVENT_BASE_COUNT_VIRTUAL then r + virtual_event_count (base st) else r in
  if has type EVENT_BASE_COUNT_ADDED then r + event_count (base st) else r.

Definition event_base_get_max_events st (type : Z) (clear : bool) : Z * state B :=
  let '(r, st) := (0, st) in
  let '(r, st) := if has type EVENT_BASE_COUNT_ACTIVE then
      (r + event_count_active_max (base st),
       if clear then upd_base st (fun b => {| b with event_count_active_max := 0 |}) else st)
    else (r, st) in
  let '(r, st) := if has type EVENT_BASE_COUNT_VIRTUAL then
      (r + virtual_event_count_max (base st),
       if clear then upd_base st (fun b => {| b with virtual_event_count_max := 0 |}) else st)
    else (r, st) in
  if has type EVENT_BASE_COUNT_ADDED then
    (r + event_count_max (base st),
     if clear then upd_base st (fun b => {| b with event_count_max := 0 |}) else st)
  else (r, st).

Definition event_base_add_virtual_ st : state B :=
  upd_base st (fun b => {| b with
    virtual_event_count := virtual_event_count b + 1;
    virtual_event_count_max := Z.max (virtual_event_count_max b) (virtual_event_count b + 1) |}).
Definition event_base_del_virtual_ st : option (state B) :=
  _ ← evutil_assert (0 <? virtual_event_count (base st));
  Some (upd_base st (fun b => {| b with virtual_event_count := virtual_event_count b - 1 |})).

Definition event_base_loopbreak st : Z * state B :=
  (0, upd_base st (fun b => {| b with event_break := true |})).
Definition event_base_loopcontinue st : Z * state B :=
  (0, upd_base st (fun b => {| b with event_continue := true |})).
Definition event_base_got_break st : bool := event_break (base st).
Definition event_base_got_exit st : bool := event_gotterm (base st).

Definition event_base_active_by_fd st (fd evs : Z) : option (state B) :=
  evmap_io_active_ st fd (Z.land evs EV_IO).
Definition event_base_active_by_signal st (sig : Z) : option (state B) :=
  evmap_signal_active_ st sig 1.

(** ** Common timeouts. *)

(** The microseconds of a duration, brought under a second as the code does
    (for more than a million of them only). *)
Definition normalise_duration st (duration : timeval) : timeval :=
  if 1000000 <? tv_usec duration then
    let usec := if is_common_timeout st duration then Z.land (tv_usec duration) MICROSECONDS_MASK
                else tv_usec duration in
    Timeval (tv_sec duration + Z.quot usec 1000000) (Z.rem usec 1000000)
  else duration.

(** The search among the existing queues. *)
Fixpoint find_common_timeout (l : list common_timeout_list) (duration : timeval) : option timeval :=
  match l with
  | [] => None
  | ctl :: l =>
      if (tv_sec duration =? tv_sec (ctl_duration ctl)) &&
         (tv_usec duration =? Z.land (tv_usec (ctl_duration ctl)) MICROSECONDS_MASK)
      then Some (ctl_duration ctl) else find_common_timeout l duration
  end.

Definition sizeof_common_timeout_list : Z := 176.

(** [new_ev] is the timeout event inside the new list; the result is the
    encoded duration, or [None] inside for a null pointer. *)
Definition event_base_init_common_timeout st (duration : timeval) (new_ev : eid)
  : option (option timeval * state B) :=
  let duration := normalise_duration st duration in
  match find_common_timeout (common_timeout_queues (base st)) duration with
  | Some d => _ ← evutil_assert (is_common_timeout st d); Some (Some d, st)
  | None =>
      let n := n_common_timeouts st in
      if n =? MAX_COMMON_TIMEOUTS then Some (None, st)
      else
        let grow := n_common_timeouts_allocated (base st) =? n in
        let n1 := if n <? 16 then 16 else n * 2 in
        if grow && negb (mm_ok (n1 * 8)) then Some (None, st)
        else
          let st := if grow then upd_base st (fun b => {| b with n_common_timeouts_allocated := n1 |}) else st in
          if negb (mm_ok sizeof_common_timeout_list) then Some (None, st)
          else
            let d := Timeval (tv_sec duration)
                       (Z.lor (Z.lor (tv_usec duration) COMMON_TIMEOUT_MAGIC)
                              (Z.shiftl n COMMON_TIMEOUT_IDX_SHIFT)) in
            let '(_, st) := event_assign st new_ev (-1) 0 common_timeout_callback_ptr (Some n) in
            let st := set_flags st new_ev (set_flag (ev_flags (get st new_ev)) EVLIST_INTERNAL) in
            let '(_, st) := event_priority_set st new_ev 0 in
            let st := upd_base st (fun b => {| b with
              common_timeout_queues := common_timeout_queues b ++ [CommonTimeoutList [] d new_ev] |}) in
            _ ← evutil_assert (is_common_timeout st d);
            Some (Some d, st)
  end.

(** Whether the head of a common list has not expired yet. *)
Definition common_pending st (e : eid) (now : timeval) : bool :=
  let t := ev_timeout (get st e) in
  (tv_sec now <? tv_sec t) ||
  ((tv_sec t =? tv_sec now) && (tv_usec now <? Z.land (tv_usec t) MICROSECONDS_MASK)).

(** The loop: the first event not expired, if any. *)
Fixpoint common_timeout_loop (fuel : nat) (idx : nat) (now : timeval) st : option (option eid * state B) :=
  match fuel with
  | O => None
  | S fuel =>
      ctl ← common_timeout_queues (base st) !! idx;
      match ctl_events ctl with
      | [] => Some (None, st)
      | e :: _ =>
          if common_pending st e now then Some (Some e, st)
          else
            '(_, st) ← event_del_nolock_ st e EVENT_DEL_NOBLOCK;
            st ← event_active_nolock_ st e EV_TIMEOUT 1;
            common_timeout_loop fuel idx now st
      end
  end.
Definition common_timeout_callback st (idx : nat) : option (state B) :=
  let '(now, st) := gettime st in
  ctl ← common_timeout_queues (base st) !! idx;
  '(ev, st) ← common_timeout_loop (S (length (ctl_events ctl))) idx now st;
  match ev with
  | None => Some st
  | Some e =>
      ctl ← common_timeout_queues (base st) !! idx;
      common_timeout_schedule st ctl e
  end.

(** ** Ordinary timeouts. *)

(** The timeout for the backend; [None] inside means no limit. *)
Definition timeout_next st : option (option timeval * state B) :=
  match min_heap_top_ (timeheap (base st)) with
  | None => Some (None, st)
  | Some e =>
      let '(now, st) := gettime st in
      if evutil_timercmp (ev_timeout (get st e)) now CmpLe then Some (Some evutil_timerclear, st)
      else
        let tv := evutil_timersub (ev_timeout (get st e)) now in
        _ ← evutil_assert (0 <=? tv_sec tv);
        _ ← evutil_assert (0 <=? tv_usec tv);
        Some (Some tv, st)
  end.

Fixpoint timeout_process_loop (fuel : nat) (now : timeval) st : option (state B) :=
  match fuel with
  | O => None
  | S fuel =>
      match min_heap_top_ (timeheap (base st)) with
      | None => Some st
      | Some e =>
          if evutil_timercmp (ev_timeout (get st e)) now CmpGt then Some st
          else
            '(_, st) ← event_del_nolock_ st e EVENT_DEL_NOBLOCK;
            st ← event_active_nolock_ st e EV_TIMEOUT 1;
            timeout_process_loop fuel now st
      end
  end.
(** Every turn takes an event off the heap: its size bounds the turns. *)
Definition timeout_process st : option (state B) :=
  if min_heap_empty_ (timeheap (base st)) then Some st
  else
    let '(now, st) := gettime st in
    timeout_process_loop (S (Z.to_nat (min_heap_size_ (timeheap (base st))))) now st.

(** ** Events scheduled once. *)
Definition sizeof_event_once : Z := 160.

(** [new_ev] is the event inside the allocated structure. *)
Definition event_base_once st (fd evs callback arg : Z) (tv : option timeval) (new_ev : eid)
  : option (Z * state B) :=
  if has evs (Z.lor EV_SIGNAL EV_PERSIST) then Some (-1, st)
  else if negb (mm_ok sizeof_event_once) then Some (-1, st)
  else
    let '(bad, activate, st) :=
      if Z.land evs (Z.lor EV_TIMEOUT (Z.lor EV_SIGNAL EV_IO)) =? EV_TIMEOUT then
        let '(_, st) := event_assign st new_ev (-1) 0 event_once_cb_ptr (Some (Z.of_nat new_ev)) in
        (false, match tv with None => true | Some t => negb (evutil_timerisset t) end, st)
      else if has evs EV_IO then
        let '(_, st) := event_assign st new_ev fd (Z.land evs EV_IO) event_once_cb_ptr (Some (Z.of_nat new_ev)) in
        (false, false, st)
      else (true, false, st) in
    if bad : bool then Some (-1, st)
    else
      '(res, st) ← (if activate : bool then st ← event_active_nolock_ st new_ev EV_TIMEOUT 1; Some (0, st)
                    else event_add_nolock st new_ev tv false);
      if negb (res =? 0) then Some (res, st)
      else Some (0, upd_base st (fun b => {| b with
                      once_events := EventOnce new_ev callback arg :: once_events b |})).

Definition event_base_loopexit st (tv : option timeval) (new_ev : eid) : option (Z * state B) :=
  event_base_once st (-1) EV_TIMEOUT event_loopexit_cb_ptr 0 tv new_ev.
Definition event_loopexit_cb st : state B :=
  upd_base st (fun b => {| b with event_gotterm := true |}).
End Base.

Section Loop.
Context {B : Type} `{Eventop B} `{Platform} `{Environment B}.
Implicit Types (st : state B) (e : eid).

(** ** Calling back. *)

(** A user's function, or [event_loopexit_cb]. *)
Definition run_function st (f : Z) (c : call) : option (state B) :=
  if f =? event_loopexit_cb_ptr then Some (event_loopexit_cb st) else user_call f c st.

Definition event_once_cb st (fd evs : Z) (eonce : eid) : option (state B) :=
  o ← find (fun o => bool_decide (eo_ev o = eonce)) (once_events (base st));
  st ← run_function st (eo_cb o) (CallEvent fd evs (eo_arg o));
  Some (upd_base st (fun b => {| b with
    once_events := filter (fun o => eo_ev o <> eonce) (once_events b) |})).

(** [( *ev->ev_callback)(fd, res, arg)]. *)
Definition run_event_callback st (f fd res arg : Z) : option (state B) :=
  if f =? common_timeout_callback_ptr then common_timeout_callback st (Z.to_nat arg)
  else if f =? event_once_cb_ptr then event_once_cb st fd res (Z.to_nat arg)
  else run_function st f (CallEvent fd res arg).

(** ** Closures. *)

(** [closure_ncalls] is the local variable [ncalls]; a callback that deletes
    the event zeroes it through [ev_pncalls]. *)
Fixpoint event_signal_loop (fuel : nat) st e : option (state B) :=
  if negb (c_true (closure_ncalls (base st))) then Some st
  else
    match fuel with
    | O => None
    | S fuel =>
        let st := upd_base st (fun b => {| b with closure_ncalls := s16 (closure_ncalls b - 1) |}) in
        let n := closure_ncalls (base st) in
        let st := upd st e (fun ev => {| ev with ev_ncalls := n;
                                         ev_pncalls := if n =? 0 then false else ev_pncalls ev |}) in
        st ← run_event_callback st (ev_callback (get st e)) (ev_fd (get st e)) (ev_res (get st e)) (ev_arg (get st e));
        if event_break (base st) then
          Some (if negb (closure_ncalls (base st) =? 0)
                then upd st e (fun ev => {| ev with ev_pncalls := false |}) else st)
        else event_signal_loop fuel st e
    end.
(** At most [2^16] calls: [ncalls] is a [short] that is only decremented or
    zeroed. *)
Definition event_signal_closure st e : option (state B) :=
  let ncalls := ev_ncalls (get st e) in
  let st := if negb (ncalls =? 0) then upd st e (fun ev => {| ev with ev_pncalls := true |}) else st in
  let st := upd_base st (fun b => {| b with closure_ncalls := ncalls |}) in
  event_signal_loop (Z.to_nat (u16 ncalls)) st e.

(** When a persistent event runs next. *)
Definition persist_run_at st e (now : timeval) : timeval :=
  let ev := get st e in
  let common := is_common_timeout st (ev_timeout ev) in
  let mask t := {| (t : timeval) with tv_usec := Z.land (tv_usec t) MICROSECONDS_MASK |} in
  let delay := if common then mask (ev_io_timeout ev) else ev_io_timeout ev in
  let usec_mask := if common then Z.ldiff (tv_usec (ev_io_timeout ev)) MICROSECONDS_MASK else 0 in
  let relative_to := if has (ev_res ev) EV_TIMEOUT
                     then (if common then mask (ev_timeout ev) else ev_timeout ev) else now in
  let run_at := evutil_timeradd relative_to delay in
  let run_at := if evutil_timercmp run_at now CmpLt then evutil_timeradd now delay else run_at in
  {| run_at with tv_usec := Z.lor (tv_usec run_at) usec_mask |}.

Definition event_persist_closure st e : option (state B) :=
  st ← (if c_true (tv_sec (ev_io_timeout (get st e))) || c_true (tv_usec (ev_io_timeout (get st e))) then
          _ ← evutil_assert (is_same_common_timeout (ev_timeout (get st e)) (ev_io_timeout (get st e)));
          let '(now, st) := gettime st in
          '(_, st) ← event_add_nolock st e (Some (persist_run_at st e now)) true;
          Some st
        else Some st);
  run_event_callback st (ev_callback (get st e)) (ev_fd (get st e)) (ev_res (get st e)) (ev_arg (get st e)).

(** The switch on [evcb_closure]. *)
Definition run_closure st e : option (state B) :=
  let ev := get st e in
  let closure := ev_closure ev in
  let is_ev := has (ev_flags ev) EVLIST_INIT in
  let no_current st := upd_base st (fun b => {| b with current_event := None |}) in
  if closure =? EV_CLOSURE_EVENT_SIGNAL then
    _ ← evutil_assert is_ev; event_signal_closure st e
  else if closure =? EV_CLOSURE_EVENT_PERSIST then
    _ ← evutil_assert is_ev; event_persist_closure st e
  else if closure =? EV_CLOSURE_EVENT then
    _ ← evutil_assert is_ev;
    run_event_callback st (ev_callback ev) (ev_fd ev) (ev_res ev) (ev_arg ev)
  else if closure =? EV_CLOSURE_CB_SELF then
    run_function st (ev_callback ev) (CallSelf e (ev_arg ev))
  else if (closure =? EV_CLOSURE_EVENT_FINALIZE) || (closure =? EV_CLOSURE_EVENT_FINALIZE_FREE) then
    _ ← evutil_assert is_ev;
    _ ← evutil_assert (has (ev_flags ev) EVLIST_FINALIZING);
    run_function (no_current st) (ev_callback ev) (CallFinalize e (ev_arg ev))
  else if closure =? EV_CLOSURE_CB_FINALIZE then
    _ ← evutil_assert (has (ev_flags ev) EVLIST_FINALIZING);
    run_function (no_current st) (ev_callback ev) (CallFinalize e (ev_arg ev))
  else None.

(** ** The active queues. *)

(** How a function that may go on for ever ended: with a value, or at the
    bound on its turns or callbacks. *)
Inductive outcome := Returned (retval : Z) | CutOff.

(** Taking the event off its queue before its callback runs. *)
Definition dequeue_active st e : option (state B) :=
  if flag st e EVLIST_INIT then
    if has (ev_events (get st e)) EV_PERSIST || flag st e EVLIST_FINALIZING
    then event_queue_remove_active st e
    else '(_, st) ← event_del_nolock_ st e EVENT_DEL_NOBLOCK; Some st
  else event_queue_remove_active st e.

(** One queue, [pri]; [count] events that are not internal have run. *)
Fixpoint event_process_active_single_queue (fuel : nat) (pri : Z) (max_to_process : Z)
    (endtime : option timeval) (count : Z) st : option (outcome * state B) :=
  match queue_at (activequeues (base st)) pri with
  | [] => Some (Returned count, st)
  | e :: _ =>
      match fuel with
      | O => Some (CutOff, st)
      | S fuel =>
          st ← dequeue_active st e;
          let count := if flag st e EVLIST_INTERNAL then count else count + 1 in
          let st := upd_base st (fun b => {| b with current_event := Some e |}) in
          st ← run_closure st e;
          let st := upd_base st (fun b => {| b with current_event := None |}) in
          if event_break (base st) then Some (Returned (-1), st)
          else if max_to_process <=? count then Some (Returned count, st)
          else
            let '(expired, st) :=
              match endtime with
              | Some endtime =>
                  if c_true count then
                    let st := update_time_cache st in
                    let '(now, st) := gettime st in
                    (evutil_timercmp now endtime CmpGe, st)
                  else (false, st)
              | None => (false, st)
              end in
            if expired : bool then Some (Returned count, st)
            else if event_continue (base st) then Some (Returned count, st)
            else event_process_active_single_queue fuel pri max_to_process endtime count st
      end
  end.

(** The scan over the priorities from [i] on; [n] exceeds the number of
    queues. *)
Fixpoint process_active_from (n : nat) (fuel : nat) (i maxcb limit_after_prio : Z)
    (endtime : option timeval) st : option (outcome * state B) :=
  match n with
  | O => None
  | S n =>
      if nactivequeues st <=? i then Some (Returned 0, st)
      else match queue_at (activequeues (base st)) i with
      | [] => process_active_from n fuel (i + 1) maxcb limit_after_prio endtime st
      | _ :: _ =>
          let st := upd_base st (fun b => {| b with event_running_priority := i |}) in
          '(c, st) ← (if i <? limit_after_prio
                      then event_process_active_single_queue fuel i INT_MAX None 0 st
                      else event_process_active_single_queue fuel i maxcb endtime 0 st);
          match c with
          | Returned 0 => process_active_from n fuel (i + 1) maxcb limit_after_prio endtime st
          | _ => Some (c, st)
          end
      end
  end.
Definition event_process_active (fuel : nat) st : option (outcome * state B) :=
  let maxcb := max_dispatch_callbacks (base st) in
  let limit := limit_callbacks_after_prio (base st) in
  let '(endtime, st) :=
    if 0 <=? tv_sec (max_dispatch_time (base st)) then
      let st := update_time_cache st in
      let '(tv, st) := gettime st in
      (Some (evutil_timeradd (max_dispatch_time (base st)) tv), st)
    else (None, st) in
  '(c, st) ← process_active_from (Z.to_nat EVENT_MAX_PRIORITIES) fuel 0 maxcb limit endtime st;
  match c with
  | Returned _ => Some (c, upd_base st (fun b => {| b with event_running_priority := -1 |}))
  | CutOff => Some (CutOff, st)
  end.

(** ** The loop. *)

(** One turn: leave with an outcome, or go on. *)
Inductive loop_outcome := LoopExit (o : outcome) | LoopAgain.

Definition event_loop_turn (fuel : nat) (flags : Z) st : option (loop_outcome * state B) :=
  let st := upd_base st (fun b => {| b with event_continue := false; n_deferreds_queued := 0 |}) in
  if event_gotterm (base st) || event_break (base st) then Some (LoopExit (Returned 0), st)
  else
    '(tv, st) ← (if negb (c_true (N_ACTIVE_CALLBACKS st)) && negb (has flags EVLOOP_NONBLOCK)
                 then timeout_next st else Some (Some evutil_timerclear, st));
    if negb (has flags EVLOOP_NO_EXIT_ON_EMPTY) && negb (event_haveevents st)
       && negb (c_true (N_ACTIVE_CALLBACKS st)) then Some (LoopExit (Returned 1), st)
    else
      st ← event_queue_make_later_events_active st;
      let st := clear_time_cache st in
      '(res, st) ← evsel_dispatch st tv;
      if res =? -1 then Some (LoopExit (Returned (-1)), st)
      else
        let st := update_time_cache st in
        st ← timeout_process st;
        if c_true (N_ACTIVE_CALLBACKS st) then
          '(n, st) ← event_process_active fuel st;
          match n with
          | CutOff => Some (LoopExit CutOff, st)
          | Returned n =>
              if has flags EVLOOP_ONCE && (N_ACTIVE_CALLBACKS st =? 0) && negb (n =? 0)
              then Some (LoopExit (Returned 0), st) else Some (LoopAgain, st)
          end
        else if has flags EVLOOP_NONBLOCK then Some (LoopExit (Returned 0), st)
        else Some (LoopAgain, st).

(** [turns] bounds the turns of the outer loop, [fuel] the callbacks of one
    scan of a queue. *)
Fixpoint event_loop_run (turns fuel : nat) (flags : Z) st : option (outcome * state B) :=
  match turns with
  | O => Some (CutOff, st)
  | S turns =>
      '(o, st) ← event_loop_turn fuel flags st;
      match o with
      | LoopExit r => Some (r, st)
      | LoopAgain => event_loop_run turns fuel flags st
      end
  end.

Definition event_base_loop (turns fuel : nat) (flags : Z) st : option (outcome * state B) :=
  if running_loop (base st) then Some (Returned (-1), st)
  else
    let st := upd_base st (fun b => {| b with running_loop := true |}) in
    let st := clear_time_cache st in
    let st := upd_base st (fun b => {| b with event_gotterm := false; event_break := false |}) in
    '(r, st) ← event_loop_run turns fuel flags st;
    match r with
    | Returned _ => Some (r, upd_base (clear_time_cache st) (fun b => {| b with running_loop := false |}))
    | CutOff => Some (CutOff, st)
    end.
Definition event_base_dispatch (turns fuel : nat) st : option (outcome * state B) :=
  event_base_loop turns fuel 0 st.
End Loop.
