(* ===== verification/EventInv.v ===== *)
(** * The invariant of the event base

    What it means for the flags of the events, the queues, the heap, the maps
    and the counters of a base to agree, in four parts, each with the lemmas
    that say how the primitives of EventQueue.v and EvMap.v act on it. *)
From S2P Require Import Prelude Timeval MinHeap Event EventQueue EvMap EventCore.

(** ** The weight of an event in [event_count]. *)
Definition weight (fl : Z) : Z :=
  if has fl EVLIST_INTERNAL then 0
  else c_int (has fl EVLIST_INSERTED) + c_int (has fl EVLIST_ACTIVE)
       + c_int (has fl EVLIST_ACTIVE_LATER) + c_int (has fl EVLIST_TIMEOUT).
Definition active_weight (fl : Z) : Z :=
  c_int (has fl EVLIST_ACTIVE) + c_int (has fl EVLIST_ACTIVE_LATER).

Lemma count_unit_has fl : count_unit fl = if has fl EVLIST_INTERNAL then 0 else 1.
Proof.
  unfold count_unit, EVLIST_INTERNAL. change 16 with (2 ^ 4). rewrite has_pow2 by lia.
  change 1 with (Z.ones 1) at 1. rewrite Z.land_ones by lia. change (2 ^ 1) with 2.
  rewrite <- Z.bit0_mod, Z.lnot_spec, Z.shiftr_spec by lia. change (0 + 4) with 4. by destruct (Z.testbit fl 4).
Qed.

(** Bits of the four places, apart from each other and from [EVLIST_INTERNAL]. *)
Inductive place_flag : Z -> Prop :=
  | PlaceInserted : place_flag EVLIST_INSERTED
  | PlaceActive : place_flag EVLIST_ACTIVE
  | PlaceLater : place_flag EVLIST_ACTIVE_LATER
  | PlaceTimeout : place_flag EVLIST_TIMEOUT.

Lemma weight_set fl p : place_flag p -> has fl p = false ->
  weight (set_flag fl p) = weight fl + count_unit fl.
Proof.
  intros Hp Hf. rewrite count_unit_has. unfold weight.
  destruct Hp; flags; rewrite Hf; destruct (has fl EVLIST_INTERNAL); cbn [c_int]; lia.
Qed.
Lemma weight_clr fl p : place_flag p -> has fl p = true ->
  weight (clr_flag fl p) = weight fl - count_unit fl.
Proof.
  intros Hp Hf. rewrite count_unit_has. unfold weight.
  destruct Hp; flags; rewrite Hf; destruct (has fl EVLIST_INTERNAL); cbn [c_int]; lia.
Qed.

Lemma ldiff_set fl p m : Z.ldiff fl m = 0 -> Z.ldiff p m = 0 -> Z.ldiff (set_flag fl p) m = 0.
Proof. unfold set_flag. intros H1 H2. apply Z.bits_inj'. intros n Hn.
  pose proof (f_equal (fun z => Z.testbit z n) H1) as E1. pose proof (f_equal (fun z => Z.testbit z n) H2) as E2.
  cbn in E1, E2. rewrite Z.bits_0, Z.ldiff_spec in *. rewrite Z.lor_spec.
  destruct (Z.testbit fl n), (Z.testbit p n), (Z.testbit m n); done.
Qed.
Lemma ldiff_clr fl p m : Z.ldiff fl m = 0 -> Z.ldiff (clr_flag fl p) m = 0.
Proof.
  unfold clr_flag. intros H1. apply Z.bits_inj'. intros n Hn.
  pose proof (f_equal (fun z => Z.testbit z n) H1) as E1. cbn in E1. rewrite Z.bits_0, !Z.ldiff_spec in *.
  destruct (Z.testbit fl n), (Z.testbit p n), (Z.testbit m n); done.
Qed.
Lemma place_all p : place_flag p -> Z.ldiff p EVLIST_ALL = 0.
Proof. by destruct 1. Qed.

(** Close the part on the flag words after a set or a clear. *)
Ltac all_flags F := first [apply ldiff_set; [all_flags F | done] | apply ldiff_clr; all_flags F | apply F].

Section Inv.
Context {B : Type} `{Eventop B} `{Platform}.
Implicit Types (st : state B) (e x : eid).

(** ** The four parts. *)

(** Flags and queues agree. *)
Record queues_ok st : Prop := {
  qo_queue : forall i, 0 <= i < nactivequeues st ->
    mem_ok (queue_at (activequeues (base st)) i)
           (fun e => flag st e EVLIST_ACTIVE = true /\ ev_pri (get st e) = i);
  qo_pri : forall e, flag st e EVLIST_ACTIVE = true -> ev_pri (get st e) < nactivequeues st;
  qo_pri_nonneg : forall e, 0 <= ev_pri (get st e);
  qo_later : mem_ok (active_later_queue (base st)) (fun e => flag st e EVLIST_ACTIVE_LATER = true);
  qo_excl : forall e, flag st e EVLIST_ACTIVE = true -> flag st e EVLIST_ACTIVE_LATER = false
}.

(** [EVLIST_TIMEOUT], the heap and the common-timeout lists agree. *)
Definition in_common st i e : Prop :=
  flag st e EVLIST_TIMEOUT = true /\ is_common_timeout st (ev_timeout (get st e)) = true /\
  Z.to_nat (COMMON_TIMEOUT_IDX (ev_timeout (get st e))) = i.
Definition timeout_order st (a b : eid) : Prop := tv_le (ev_timeout (get st a)) (ev_timeout (get st b)).

Record timers_ok st : Prop := {
  to_heap : heap_wf (timeheap (base st)) st;
  to_in_heap : forall e, in_heap (timeheap (base st)) e <->
    flag st e EVLIST_TIMEOUT = true /\ is_common_timeout st (ev_timeout (get st e)) = false;
  to_common : forall i ctl, common_timeout_queues (base st) !! i = Some ctl ->
    mem_ok (ctl_events ctl) (in_common st i) /\
    StronglySorted (timeout_order st) (ctl_events ctl);
  to_bound : forall e, flag st e EVLIST_TIMEOUT = true -> (e < max_events)%nat;
  to_inner : forall i ctl, common_timeout_queues (base st) !! i = Some ctl ->
    (ctl_timeout_event ctl < max_events)%nat
}.

(** The maps hold exactly the events [ins] says are inserted. *)
Definition count_of st (bit : Z) (l : list eid) : Z :=
  Z.of_nat (length (filter (fun e => has (ev_events (get st e)) bit = true) l)).
Definition nentries_ok (n : Z) : Prop := n = 0 \/ exists k, 0 <= k <= 22 /\ n = 32 * 2 ^ k.
Definition is_io st e : bool := has (ev_events (get st e)) EV_IO.

Record io_ok st (ins : eid -> bool) (fd : Z) (ctx : evmap_io) : Prop := {
  io_range : 0 <= fd < io_nentries (base st);
  io_mem : mem_ok (io_events ctx) (fun e => ins e = true /\ is_io st e = true /\ ev_fd (get st e) = fd);
  io_nread : nread ctx = count_of st EV_READ (io_events ctx);
  io_nwrite : nwrite ctx = count_of st EV_WRITE (io_events ctx);
  io_nclose : nclose ctx = count_of st EV_CLOSED (io_events ctx)
}.
Record maps_ok st (ins : eid -> bool) : Prop := {
  mo_io : forall fd ctx, io_entries (base st) !! fd = Some ctx -> io_ok st ins fd ctx;
  mo_io_total : forall e, ins e = true -> is_io st e = true -> 0 <= ev_fd (get st e) ->
    is_Some (io_entries (base st) !! ev_fd (get st e));
  mo_sig : forall sig l, sigmap_entries (base st) !! sig = Some l ->
    0 <= sig < sigmap_nentries (base st) /\
    mem_ok l (fun e => ins e = true /\ is_io st e = false /\ s32 (ev_fd (get st e)) = sig);
  mo_sig_total : forall e, ins e = true -> is_io st e = false ->
    is_Some (sigmap_entries (base st) !! s32 (ev_fd (get st e)));
  mo_io_n : nentries_ok (io_nentries (base st));
  mo_sig_n : nentries_ok (sigmap_nentries (base st))
}.

(** The counters. *)
Record counts_ok st : Prop := {
  co_count : total (fun e => weight (ev_flags (get st e))) (event_count (base st));
  co_active : total (fun e => active_weight (ev_flags (get st e))) (event_count_active (base st))
}.

(** No flag outside [EVLIST_ALL]; the initialised events are the program's. *)
Record flags_ok st : Prop := {
  fo_all : forall e, Z.ldiff (ev_flags (get st e)) EVLIST_ALL = 0;
  fo_init : forall e, flag st e EVLIST_INIT = true -> (e < max_events)%nat
}.

Definition inserted st e : bool := flag st e EVLIST_INSERTED.
Record base_wf st : Prop := {
  wf_flags : flags_ok st;
  wf_queues : queues_ok st;
  wf_timers : timers_ok st;
  wf_maps : maps_ok st (inserted st);
  wf_counts : counts_ok st
}.

(** ** Each part depends only on what it mentions. *)
Lemma flags_ext st st' : (forall e, ev_flags (get st' e) = ev_flags (get st e)) -> flags_ok st -> flags_ok st'.
Proof. intros HF [F1 F2]. split; intros e; [by rewrite HF | unfold flag; rewrite HF; apply F2]. Qed.

Lemma queues_ext st st' :
  (forall e, flag st' e EVLIST_ACTIVE = flag st e EVLIST_ACTIVE) ->
  (forall e, flag st' e EVLIST_ACTIVE_LATER = flag st e EVLIST_ACTIVE_LATER) ->
  (forall e, ev_pri (get st' e) = ev_pri (get st e)) ->
  activequeues (base st') = activequeues (base st) ->
  active_later_queue (base st') = active_later_queue (base st) ->
  queues_ok st -> queues_ok st'.
Proof.
  intros HA HL HP Hq Hl Q. assert (Hn : nactivequeues st' = nactivequeues st) by (unfold nactivequeues; by rewrite Hq).
  split; rewrite ?Hn, ?Hq, ?Hl.
  - intros i Hi. eapply mem_ok_iff; [|by apply Q]. intros x. cbn. by rewrite HA, HP.
  - intros e. rewrite HA, HP. apply Q.
  - intros e. rewrite HP. apply Q.
  - eapply mem_ok_iff; [|by apply Q]. intros x. cbn. by rewrite HL.
  - intros e. rewrite HA, HL. apply Q.
Qed.

Lemma is_common_ext st st' tv : length (common_timeout_queues (base st')) = length (common_timeout_queues (base st)) ->
  is_common_timeout st' tv = is_common_timeout st tv.
Proof. unfold is_common_timeout, n_common_timeouts. by intros ->. Qed.

Lemma sorted_ext {A} (R R' : A -> A -> Prop) (l : list A) :
  (forall a b, a ∈ l -> b ∈ l -> R a b -> R' a b) -> StronglySorted R l -> StronglySorted R' l.
Proof.
  intros HR SS. induction SS as [|a l SS IH F]; constructor.
  - apply IH. intros x y ? ?. apply HR; set_solver.
  - rewrite Forall_forall in F |- *. intros b Hb. apply HR; [set_solver..|auto].
Qed.

Lemma timers_ext st st' :
  (forall e, flag st' e EVLIST_TIMEOUT = flag st e EVLIST_TIMEOUT) ->
  (forall e, ev_timeout (get st' e) = ev_timeout (get st e)) ->
  (forall e, ev_min_heap_idx (get st' e) = ev_min_heap_idx (get st e)) ->
  timeheap (base st') = timeheap (base st) ->
  common_timeout_queues (base st') = common_timeout_queues (base st) ->
  timers_ok st -> timers_ok st'.
Proof.
  intros HF HT HI Hh Hc T. split; rewrite ?Hh, ?Hc.
  - eapply heap_wf_ext; [| |apply T]; cbn; auto.
  - intros e. rewrite HF, HT, (is_common_ext st st') by (by rewrite Hc). apply T.
  - intros i ctl Hi. destruct (to_common _ T i ctl Hi) as [M SS]. split.
    + eapply mem_ok_iff; [|exact M]. intros x. unfold in_common.
      rewrite HF, HT, (is_common_ext st st') by (by rewrite Hc). done.
    + eapply sorted_ext; [|exact SS]. unfold timeout_order. intros a b _ _. by rewrite !HT.
  - intros e. rewrite HF. apply T.
  - apply T.
Qed.

Lemma count_of_ext st st' bit l :
  (forall e, e ∈ l -> ev_events (get st' e) = ev_events (get st e)) -> count_of st' bit l = count_of st bit l.
Proof.
  intros HE. unfold count_of. f_equal. induction l as [|y l IH]; [done|].
  rewrite !filter_cons, (HE y) by set_solver. repeat case_decide; cbn [length]; rewrite IH by set_solver; done.
Qed.

Lemma maps_ext st st' (ins ins' : eid -> bool) :
  (forall e, ins' e = ins e) ->
  (forall e, ins e = true -> ev_events (get st' e) = ev_events (get st e)) ->
  (forall e, ins e = true -> ev_fd (get st' e) = ev_fd (get st e)) ->
  io_entries (base st') = io_entries (base st) ->
  io_nentries (base st') = io_nentries (base st) ->
  sigmap_entries (base st') = sigmap_entries (base st) ->
  sigmap_nentries (base st') = sigmap_nentries (base st) ->
  maps_ok st ins -> maps_ok st' ins'.
Proof.
  intros HI HE HF H1 H2 H3 H4 M.
  assert (Hio : forall x, ins x = true -> is_io st' x = is_io st x) by (intros; unfold is_io; by rewrite HE).
  split; rewrite ?H1, ?H2, ?H3, ?H4; try apply M.
  - intros fd ctx Hl. destruct (mo_io _ _ M fd ctx Hl) as [? ME ? ? ?].
    assert (Hev : forall e, e ∈ io_events ctx -> ev_events (get st' e) = ev_events (get st e)).
    { intros e He. apply HE. by apply ME in He as [? _]. }
    split; rewrite ?H2, ?(count_of_ext st st') by done; try done.
    eapply mem_ok_iff; [|exact ME]. intros x. cbn. rewrite HI.
    split; intros (Hx & ?); rewrite ?HF, ?Hio in * by done; done.
  - intros e. rewrite HI. intros He. rewrite HF, Hio by done. by apply M.
  - intros sig l Hl. destruct (mo_sig _ _ M sig l Hl) as [? ME]. split; [done|].
    eapply mem_ok_iff; [|exact ME]. intros x. cbn. rewrite HI.
    split; intros (Hx & ?); rewrite ?HF, ?Hio in * by done; done.
  - intros e. rewrite HI. intros He. rewrite HF, Hio by done. by apply M.
Qed.

Lemma counts_ext st st' :
  (forall e, weight (ev_flags (get st' e)) = weight (ev_flags (get st e))) ->
  (forall e, active_weight (ev_flags (get st' e)) = active_weight (ev_flags (get st e))) ->
  event_count (base st') = event_count (base st) ->
  event_count_active (base st') = event_count_active (base st) ->
  counts_ok st -> counts_ok st'.
Proof.
  intros HW HA Hc Hc' [C1 C2]. split; rewrite ?Hc, ?Hc'.
  - eapply total_ext; [|exact C1]. exact HW.
  - eapply total_ext; [|exact C2]. exact HA.
Qed.

(** ** The primitives. *)

(** [st'] is [st] with the event [e] changed by [f]; the base is described
    apart. *)
Definition changed st e (f : event -> event) st' : Prop :=
  forall x, get st' x = if decide (x = e) then f (get st e) else get st x.
Definition with_flags (fl : Z) (ev : event) : event := {| ev with ev_flags := fl |}.

Lemma changed_flag st e fl st' x m : changed st e (with_flags fl) st' ->
  flag st' x m = if decide (x = e) then has fl m else flag st x m.
Proof. intros C. unfold flag. rewrite C. by case_decide. Qed.
Lemma changed_flags st e fl st' x : changed st e (with_flags fl) st' ->
  ev_flags (get st' x) = if decide (x = e) then fl else ev_flags (get st x).
Proof. intros C. rewrite C. by case_decide. Qed.
(** A field other than the flags. *)
Lemma changed_same {T} (g : event -> T) st e fl st' x :
  changed st e (with_flags fl) st' -> (forall ev, g (with_flags fl ev) = g ev) -> g (get st' x) = g (get st x).
Proof. intros C Hg. rewrite C. case_decide; subst; auto. Qed.

(** Open a successful run of an operation: the tests that succeeded. *)
Ltac open_run H :=
  cbv zeta in H;
  repeat match type of H with
  | (if ?b then _ else _) = Some _ =>
      let E := fresh "E" in destruct b eqn:E; try discriminate H; rewrite ?negb_false_iff, ?negb_true_iff in E
  | (evutil_assert ?b ≫= _) = Some _ =>
      let E := fresh "E" in destruct b eqn:E; cbn [evutil_assert mbind option_bind] in H; try discriminate H
  end.

Lemma remove_inserted_run st e st' : event_queue_remove_inserted st e = Some st' ->
  flag st e EVLIST_INSERTED = true /\
  changed st e (with_flags (clr_flag (ev_flags (get st e)) EVLIST_INSERTED)) st' /\
  base st' = {| (base st) with event_count := event_count (base st) - count_unit (ev_flags (get st e)) |}.
Proof.
  unfold event_queue_remove_inserted. intros R. open_run R. inv_opt. split_and!; try done.
  intros x. rewrite ?get_upd_base. unfold set_flags. by rewrite get_upd.
Qed.

Lemma insert_inserted_run st e st' : event_queue_insert_inserted st e = Some st' ->
  flag st e EVLIST_INSERTED = false /\
  changed st e (with_flags (set_flag (ev_flags (get st e)) EVLIST_INSERTED)) st' /\
  base st' = base (INCR_EVENT_COUNT st (ev_flags (get st e))).
Proof.
  unfold event_queue_insert_inserted. intros R. open_run R. inv_opt. split_and!; try done.
  intros x. rewrite ?get_upd_base. unfold set_flags. by rewrite get_upd.
Qed.

Lemma remove_active_run st e st' : event_queue_remove_active st e = Some st' ->
  flag st e EVLIST_ACTIVE = true /\
  changed st e (with_flags (clr_flag (ev_flags (get st e)) EVLIST_ACTIVE)) st' /\
  base st' = {| (base st) with
    event_count := event_count (base st) - count_unit (ev_flags (get st e));
    event_count_active := event_count_active (base st) - 1;
    activequeues := arr_set (activequeues (base st)) (ev_pri (get st e))
                      (tailq_remove e (queue_at (activequeues (base st)) (ev_pri (get st e)))) |}.
Proof.
  unfold event_queue_remove_active. intros R. open_run R. inv_opt. split_and!; try done.
  - intros x. rewrite ?get_upd_base. unfold set_flags. by rewrite get_upd.
  - unfold set_flags. rewrite get_upd_eq. reflexivity.
Qed.

Lemma remove_later_run st e st' : event_queue_remove_active_later st e = Some st' ->
  flag st e EVLIST_ACTIVE_LATER = true /\
  changed st e (with_flags (clr_flag (ev_flags (get st e)) EVLIST_ACTIVE_LATER)) st' /\
  base st' = {| (base st) with
    event_count := event_count (base st) - count_unit (ev_flags (get st e));
    event_count_active := event_count_active (base st) - 1;
    active_later_queue := tailq_remove e (active_later_queue (base st)) |}.
Proof.
  unfold event_queue_remove_active_later. intros R. open_run R. inv_opt. split_and!; try done.
  intros x. rewrite ?get_upd_base. unfold set_flags. by rewrite get_upd.
Qed.

Lemma insert_active_run st e st' : event_queue_insert_active st e = Some st' ->
  (flag st e EVLIST_ACTIVE = true /\ st' = st) \/
  (flag st e EVLIST_ACTIVE = false /\ ev_pri (get st e) < nactivequeues st /\
   changed st e (with_flags (set_flag (ev_flags (get st e)) EVLIST_ACTIVE)) st' /\
   base st' = {| (base (INCR_EVENT_COUNT st (ev_flags (get st e)))) with
     event_count_active := event_count_active (base st) + 1;
     event_count_active_max := Z.max (event_count_active_max (base st)) (event_count_active (base st) + 1);
     activequeues := arr_set (activequeues (base st)) (ev_pri (get st e))
                       (queue_at (activequeues (base st)) (ev_pri (get st e)) ++ [e]) |}).
Proof.
  unfold event_queue_insert_active. intros R. open_run R; inv_opt; [by left|right].
  unfold set_flags in *. rewrite get_upd_eq in *. apply Z.ltb_lt in E0.
  split_and!; try done; try exact E0; [intros x; rewrite ?get_upd_base; unfold set_flags; by rewrite get_upd].
Qed.

Lemma insert_later_run st e st' : event_queue_insert_active_later st e = Some st' ->
  (flag st e (Z.lor EVLIST_ACTIVE_LATER EVLIST_ACTIVE) = true /\ st' = st) \/
  (flag st e EVLIST_ACTIVE = false /\ flag st e EVLIST_ACTIVE_LATER = false /\
   ev_pri (get st e) < nactivequeues st /\
   changed st e (with_flags (set_flag (ev_flags (get st e)) EVLIST_ACTIVE_LATER)) st' /\
   base st' = {| (base (INCR_EVENT_COUNT st (ev_flags (get st e)))) with
     event_count_active := event_count_active (base st) + 1;
     event_count_active_max := Z.max (event_count_active_max (base st)) (event_count_active (base st) + 1);
     active_later_queue := active_later_queue (base st) ++ [e] |}).
Proof.
  unfold event_queue_insert_active_later. intros R. open_run R; inv_opt; [by left|right].
  unfold set_flags in *. rewrite get_upd_eq in *. apply Z.ltb_lt in E0.
  unfold flag in E. rewrite has_lor in E. apply orb_false_iff in E as [? ?].
  split_and!; try done; try exact E0; [intros x; rewrite ?get_upd_base; unfold set_flags; by rewrite get_upd].
Qed.

(** The primitives on timeouts also move heap indices. *)
Definition changed_idx st e (f : event -> event) st' : Prop :=
  forall x, exists i, get st' x =
    {| (if decide (x = e) then f (get st e) else get st x) with ev_min_heap_idx := i |}.

Lemma changed_weaken st e f st' : changed st e f st' -> changed_idx st e f st'.
Proof. intros C x. exists (ev_min_heap_idx (get st' x)). rewrite C. by destruct (if decide _ then _ else _). Qed.
Lemma changed_idx_flag st e fl st' x m : changed_idx st e (with_flags fl) st' ->
  flag st' x m = if decide (x = e) then has fl m else flag st x m.
Proof. intros C. unfold flag. destruct (C x) as [i ->]. by case_decide. Qed.
Lemma changed_idx_flags st e fl st' x : changed_idx st e (with_flags fl) st' ->
  ev_flags (get st' x) = if decide (x = e) then fl else ev_flags (get st x).
Proof. intros C. destruct (C x) as [i ->]. by case_decide. Qed.
Lemma changed_idx_same {T} (g : event -> T) st e fl st' x :
  changed_idx st e (with_flags fl) st' ->
  (forall ev i, g {| (with_flags fl ev) with ev_min_heap_idx := i |} = g ev) ->
  (forall ev i, g {| ev with ev_min_heap_idx := i |} = g ev) -> g (get st' x) = g (get st x).
Proof. intros C Hg Hg'. destruct (C x) as [i ->]. case_decide; subst; auto. Qed.

Lemma flags_changed st e fl st' : changed_idx st e (with_flags fl) st' -> Z.ldiff fl EVLIST_ALL = 0 ->
  has fl EVLIST_INIT = flag st e EVLIST_INIT -> flags_ok st -> flags_ok st'.
Proof.
  intros C Hf Hi [F1 F2]. split; intros x.
  - rewrite (changed_idx_flags _ _ _ _ _ C). case_decide; [done | apply F1].
  - rewrite (changed_idx_flag _ _ _ _ _ _ C). case_decide; [subst; rewrite Hi; apply F2 | apply F2].
Qed.

Lemma frame_changed st st1 st' e f : changed st e f st1 -> idx_frame st1 st' -> changed_idx st e f st'.
Proof. intros C (_ & _ & _ & F) x. destruct (F x) as [i ->]. exists i. by rewrite C. Qed.

(** What [event_queue_remove_timeout] and [event_queue_insert_timeout] leave
    in the base. *)
Definition timeouts_only (b b' : event_base B) : Prop :=
  length (common_timeout_queues b') = length (common_timeout_queues b) /\
  exists h q c m, b' = {| b with timeheap := h; common_timeout_queues := q; event_count := c; event_count_max := m |}.

Lemma erase_idx_frame s st e : idx_frame st (min_heap_erase_ s st e).2.
Proof. apply erase_frame; [apply idx_frame_preorder | apply idx_frame_set]. Qed.
Lemma push_idx_frame mm s st e : idx_frame st (min_heap_push_ mm s st e).2.
Proof. apply push_frame; [apply idx_frame_preorder | apply idx_frame_set]. Qed.

Lemma remove_timeout_run st e st' : event_queue_remove_timeout st e = Some st' ->
  flag st e EVLIST_TIMEOUT = true /\
  changed_idx st e (with_flags (clr_flag (ev_flags (get st e)) EVLIST_TIMEOUT)) st' /\
  event_count (base st') = event_count (base st) - count_unit (ev_flags (get st e)) /\
  timeouts_only (base st) (base st').
Proof.
  unfold event_queue_remove_timeout. intros R. cbv zeta in R.
  destruct (flag st e EVLIST_TIMEOUT) eqn:E; cbn [negb] in R; [|discriminate R].
  set (st1 := set_flags _ _ _) in R.
  assert (C : changed st e (with_flags (clr_flag (ev_flags (get st e)) EVLIST_TIMEOUT)) st1)
    by (intros x; subst st1; unfold set_flags; by rewrite get_upd).
  split; [done|]. destruct (is_common_timeout st1 (ev_timeout (get st1 e))).
  - destruct (get_common_timeout_list _ _) as [ctl|] eqn:Hctl; [|discriminate R]. cbn in R. inv_opt.
    split_and!; [apply changed_weaken; exact C | done |].
    split; [apply length_insert | by repeat eexists].
  - pose proof (erase_idx_frame (timeheap (base st1)) st1 e) as F.
    destruct (min_heap_erase_ _ _ _) as [[r s] st2]. inv_opt. cbn in F.
    split_and!; [exact (frame_changed _ st1 st2 _ _ C F) | | ].
    + cbn. by destruct F as [-> _].
    + destruct F as [F _]. split; cbn; rewrite F; [done | by repeat eexists].
Qed.

Lemma insert_timeout_run st e st' : event_queue_insert_timeout st e = Some st' ->
  flag st e EVLIST_TIMEOUT = false /\
  changed_idx st e (with_flags (set_flag (ev_flags (get st e)) EVLIST_TIMEOUT)) st' /\
  event_count (base st') = event_count (base st) + count_unit (ev_flags (get st e)) /\
  timeouts_only (base st) (base st').
Proof.
  unfold event_queue_insert_timeout. intros R. cbv zeta in R.
  destruct (flag st e EVLIST_TIMEOUT) eqn:E; [discriminate R|].
  set (st1 := set_flags _ _ _) in R.
  assert (C : changed st e (with_flags (set_flag (ev_flags (get st e)) EVLIST_TIMEOUT)) st1)
    by (intros x; subst st1; unfold set_flags; by rewrite get_upd).
  split; [done|]. destruct (is_common_timeout st1 (ev_timeout (get st1 e))).
  - destruct (get_common_timeout_list _ _) as [ctl|] eqn:Hctl; [|discriminate R]. cbn in R.
    destruct (insert_common_timeout_inorder _ _ _) as [ctl'|]; [|discriminate R]. cbn in R. inv_opt.
    split_and!; [apply changed_weaken; exact C | done |].
    split; [apply length_insert | by repeat eexists].
  - pose proof (push_idx_frame mm_ok (timeheap (base st1)) st1 e) as F.
    destruct (min_heap_push_ _ _ _ _) as [[r s] st2]. inv_opt. cbn in F.
    split_and!; [exact (frame_changed _ st1 st2 _ _ C F) | | ].
    + cbn. by destruct F as [-> _].
    + destruct F as [F _]. split; cbn; rewrite F; [done | by repeat eexists].
Qed.

End Inv.
