(* ===== verification/EventPrims.v ===== *)
(** * The queue primitives keep the invariant

    For every event_queue function, what it does to each part of the
    invariant of EventInv.v. *)
From S2P Require Import Prelude Timeval MinHeap Event EventQueue EvMap EventCore EventInv.

Section Prims.
Context {B : Type} `{Eventop B} `{Platform}.
Implicit Types (st : state B) (e x : eid).

(** ** Counters. *)
Lemma counts_changed st e fl st' : changed_idx st e (with_flags fl) st' ->
  event_count (base st') = event_count (base st) + weight fl - weight (ev_flags (get st e)) ->
  event_count_active (base st') = event_count_active (base st) + active_weight fl - active_weight (ev_flags (get st e)) ->
  counts_ok st -> counts_ok st'.
Proof.
  intros C Hc Ha [C1 C2].
  assert (HF : forall x, ev_flags (get st' x) = if decide (x = e) then fl else ev_flags (get st x))
    by (intros; by apply changed_idx_flags).
  split.
  - eapply (total_update _ _ _ _ e); [|exact C1|].
    + intros x Hx. cbn. by rewrite HF, decide_False.
    + rewrite Hc, HF, decide_True by done. lia.
  - eapply (total_update _ _ _ _ e); [|exact C2|].
    + intros x Hx. cbn. by rewrite HF, decide_False.
    + rewrite Ha, HF, decide_True by done. lia.
Qed.

Ltac active_weights := unfold active_weight; flags; cbn [c_int]; try lia.

Lemma counts_remove st e p st' : place_flag p -> flag st e p = true ->
  changed_idx st e (with_flags (clr_flag (ev_flags (get st e)) p)) st' ->
  event_count (base st') = event_count (base st) - count_unit (ev_flags (get st e)) ->
  event_count_active (base st') = event_count_active (base st)
    - c_int (has p (Z.lor EVLIST_ACTIVE EVLIST_ACTIVE_LATER)) ->
  counts_ok st -> counts_ok st'.
Proof.
  intros Hp Hf C Hc Ha. apply (counts_changed st e _ st' C).
  - rewrite Hc, weight_clr by done. lia.
  - rewrite Ha. unfold flag in Hf. destruct Hp; active_weights; rewrite ?Hf; cbn; lia.
Qed.
Lemma counts_insert st e p st' : place_flag p -> flag st e p = false ->
  changed_idx st e (with_flags (set_flag (ev_flags (get st e)) p)) st' ->
  event_count (base st') = event_count (base st) + count_unit (ev_flags (get st e)) ->
  event_count_active (base st') = event_count_active (base st)
    + c_int (has p (Z.lor EVLIST_ACTIVE EVLIST_ACTIVE_LATER)) ->
  counts_ok st -> counts_ok st'.
Proof.
  intros Hp Hf C Hc Ha. apply (counts_changed st e _ st' C).
  - rewrite Hc, weight_set by done. lia.
  - rewrite Ha. unfold flag in Hf. destruct Hp; active_weights; rewrite ?Hf; cbn; lia.
Qed.

(** ** Parts a change of one place does not touch. *)
Lemma queues_other st e fl st' : changed_idx st e (with_flags fl) st' ->
  has fl EVLIST_ACTIVE = flag st e EVLIST_ACTIVE -> has fl EVLIST_ACTIVE_LATER = flag st e EVLIST_ACTIVE_LATER ->
  activequeues (base st') = activequeues (base st) ->
  active_later_queue (base st') = active_later_queue (base st) -> queues_ok st -> queues_ok st'.
Proof.
  intros C HA HL. apply queues_ext.
  - intros x. rewrite (changed_idx_flag st e fl st') by done. case_decide; by subst.
  - intros x. rewrite (changed_idx_flag st e fl st') by done. case_decide; by subst.
  - intros x. by apply (changed_idx_same ev_pri st e fl st').
Qed.

Lemma timers_other st e fl st' : changed st e (with_flags fl) st' ->
  has fl EVLIST_TIMEOUT = flag st e EVLIST_TIMEOUT ->
  timeheap (base st') = timeheap (base st) ->
  common_timeout_queues (base st') = common_timeout_queues (base st) -> timers_ok st -> timers_ok st'.
Proof.
  intros C HA. apply timers_ext.
  - intros x. rewrite (changed_flag st e fl st') by done. case_decide; by subst.
  - intros x. by apply (changed_same ev_timeout st e fl st').
  - intros x. by apply (changed_same ev_min_heap_idx st e fl st').
Qed.

Lemma maps_other st e fl st' ins : changed_idx st e (with_flags fl) st' ->
  io_entries (base st') = io_entries (base st) -> io_nentries (base st') = io_nentries (base st) ->
  sigmap_entries (base st') = sigmap_entries (base st) -> sigmap_nentries (base st') = sigmap_nentries (base st) ->
  maps_ok st ins -> maps_ok st' ins.
Proof.
  intros C. apply maps_ext; [done | |].
  - intros x _. by apply (changed_idx_same ev_events st e fl st').
  - intros x _. by apply (changed_idx_same ev_fd st e fl st').
Qed.

(** ** The active queues. *)
Lemma queue_at_set qs p q i : 0 <= p < Z.of_nat (length qs) -> 0 <= i ->
  queue_at (arr_set qs p q) i = if decide (i = p) then q else queue_at qs i.
Proof.
  intros Hp Hi. unfold queue_at. case_decide; subst; [by apply arr_get_set_eq | apply arr_get_set_ne; lia].
Qed.

(** A change of one event's queue position: the other queues are untouched. *)
Lemma queues_update st st' e fl q : queues_ok st -> ev_pri (get st e) < nactivequeues st ->
  changed_idx st e (with_flags fl) st' ->
  activequeues (base st') = arr_set (activequeues (base st)) (ev_pri (get st e)) q ->
  mem_ok q (fun x => flag st' x EVLIST_ACTIVE = true /\ ev_pri (get st x) = ev_pri (get st e)) ->
  mem_ok (active_later_queue (base st')) (fun x => flag st' x EVLIST_ACTIVE_LATER = true) ->
  (has fl EVLIST_ACTIVE = true -> has fl EVLIST_ACTIVE_LATER = false) ->
  queues_ok st'.
Proof.
  intros Q Hp C Hq Hm Hlat Hex.
  assert (Hn : nactivequeues st' = nactivequeues st) by (unfold nactivequeues; by rewrite Hq, arr_set_length).
  assert (HP : forall x, ev_pri (get st' x) = ev_pri (get st x))
    by (intros x; by apply (changed_idx_same ev_pri st e fl st')).
  pose proof (qo_pri_nonneg _ Q e) as H0e.
  split; rewrite ?Hn.
  - intros i Hi. rewrite Hq, queue_at_set by (unfold nactivequeues in *; lia).
    case_decide as Hip.
    + subst i. eapply mem_ok_iff; [|exact Hm]. intros x. cbn. by rewrite HP.
    + eapply mem_ok_iff; [|by apply Q]. intros x. cbn.
      rewrite HP, (changed_idx_flag st e fl st') by done. case_decide; subst; naive_solver lia.
  - intros x. rewrite HP, (changed_idx_flag st e fl st') by done. case_decide; subst; [lia | apply Q].
  - intros x. rewrite HP. apply Q.
  - done.
  - intros x. rewrite !(changed_idx_flag st e fl st') by done. case_decide; [done | apply Q].
Qed.

Lemma remove_active_queues st e st' :
  event_queue_remove_active st e = Some st' -> queues_ok st -> queues_ok st'.
Proof.
  intros (Hf & C%changed_weaken & Hb)%remove_active_run Q.
  pose proof (qo_pri _ Q e Hf). pose proof (qo_pri_nonneg _ Q e).
  eapply (queues_update st st' e); [done | done | exact C | by rewrite Hb | | |].
  - eapply mem_ok_iff; [|apply mem_ok_remove, Q; lia]. intros x. cbn.
    rewrite (changed_idx_flag _ _ _ _ _ _ C). case_decide; subst; flags; naive_solver.
  - rewrite Hb. cbn. eapply mem_ok_iff; [|apply Q]. intros x. cbn.
    rewrite (changed_idx_flag _ _ _ _ _ _ C). case_decide; subst; by flags.
  - flags. done.
Qed.

Lemma insert_active_queues st e st' : event_queue_insert_active st e = Some st' ->
  (flag st e EVLIST_ACTIVE = false -> flag st e EVLIST_ACTIVE_LATER = false) ->
  queues_ok st -> queues_ok st'.
Proof.
  intros [[? ->] | (Hf & Hp & C%changed_weaken & Hb)]%insert_active_run HL Q; [done|].
  specialize (HL Hf). pose proof (qo_pri_nonneg _ Q e).
  eapply (queues_update st st' e); [done | done | exact C | by rewrite Hb | | |].
  - eapply mem_ok_iff; [|apply mem_ok_snoc; [|apply Q; lia]]; [|cbn; rewrite Hf; naive_solver].
    intros x. cbn. rewrite (changed_idx_flag _ _ _ _ _ _ C). case_decide; subst; flags; naive_solver.
  - rewrite Hb. cbn. eapply mem_ok_iff; [|apply Q]. intros x. cbn.
    rewrite (changed_idx_flag _ _ _ _ _ _ C). case_decide; subst; by flags.
  - flags. by unfold flag in HL.
Qed.

(** ** The later queue. *)
Lemma queues_later st st' e fl : queues_ok st -> changed_idx st e (with_flags fl) st' ->
  has fl EVLIST_ACTIVE = flag st e EVLIST_ACTIVE ->
  activequeues (base st') = activequeues (base st) ->
  mem_ok (active_later_queue (base st')) (fun x => flag st' x EVLIST_ACTIVE_LATER = true) ->
  (has fl EVLIST_ACTIVE = true -> has fl EVLIST_ACTIVE_LATER = false) -> queues_ok st'.
Proof.
  intros Q C HA Hq Hlat Hex.
  assert (Hn : nactivequeues st' = nactivequeues st) by (unfold nactivequeues; by rewrite Hq).
  assert (HP : forall x, ev_pri (get st' x) = ev_pri (get st x))
    by (intros x; by apply (changed_idx_same ev_pri st e fl st')).
  assert (HF : forall x, flag st' x EVLIST_ACTIVE = flag st x EVLIST_ACTIVE)
    by (intros x; rewrite (changed_idx_flag _ _ _ _ _ _ C); case_decide; by subst).
  split; rewrite ?Hn, ?Hq.
  - intros i Hi. eapply mem_ok_iff; [|by apply Q]. intros x. cbn. by rewrite HP, HF.
  - intros x. rewrite HP, HF. apply Q.
  - intros x. rewrite HP. apply Q.
  - done.
  - intros x. rewrite !(changed_idx_flag st e fl st') by done. case_decide; [done | apply Q].
Qed.

Lemma remove_later_queues st e st' :
  event_queue_remove_active_later st e = Some st' -> queues_ok st -> queues_ok st'.
Proof.
  intros (Hf & C%changed_weaken & Hb)%remove_later_run Q.
  eapply (queues_later st st' e); [done | exact C | by flags | by rewrite Hb | | by flags].
  rewrite Hb. cbn. eapply mem_ok_iff; [|apply mem_ok_remove, Q]. intros x. cbn.
  rewrite (changed_idx_flag _ _ _ _ _ _ C). case_decide; subst; flags; naive_solver.
Qed.

Lemma insert_later_queues st e st' :
  event_queue_insert_active_later st e = Some st' -> queues_ok st -> queues_ok st'.
Proof.
  intros [[? ->] | (Hf & HL & Hp & C%changed_weaken & Hb)]%insert_later_run Q; [done|].
  eapply (queues_later st st' e); [done | exact C | by flags | by rewrite Hb | |].
  - rewrite Hb. cbn. eapply mem_ok_iff; [|apply mem_ok_snoc, Q; cbn; by rewrite HL]. intros x. cbn.
    rewrite (changed_idx_flag _ _ _ _ _ _ C). case_decide; subst; flags; naive_solver.
  - flags. unfold flag in Hf. by rewrite Hf.
Qed.
(** ** Timeouts. *)
Lemma sorted_filter {A} (R : A -> A -> Prop) (P : A -> Prop) `{!forall z, Decision (P z)} l :
  StronglySorted R l -> StronglySorted R (filter P l).
Proof.
  intros SS. induction SS as [|a l SS IH F]; [constructor|]. rewrite filter_cons. case_decide; [|done].
  constructor; [done|]. rewrite Forall_forall in F |- *. intros b Hb%list_elem_of_filter. apply F, Hb.
Qed.

Lemma idx_frame_timeout st st' x : idx_frame st st' -> ev_timeout (get st' x) = ev_timeout (get st x).
Proof. intros (_ & _ & _ & F). by destruct (F x) as [i ->]. Qed.
Lemma idx_frame_flag st st' x m : idx_frame st st' -> flag st' x m = flag st x m.
Proof. intros (_ & _ & _ & F). unfold flag. by destruct (F x) as [i ->]. Qed.

(** Rebuild [timers_ok] after the timeout bit of [e] changed to [b]: the heap
    and one list may have been replaced. *)
Lemma timers_rebuild st st' e b :
  timers_ok st -> (b = true -> (e < max_events)%nat) ->
  (forall x, flag st' x EVLIST_TIMEOUT = if decide (x = e) then b else flag st x EVLIST_TIMEOUT) ->
  (forall x, ev_timeout (get st' x) = ev_timeout (get st x)) ->
  length (common_timeout_queues (base st')) = length (common_timeout_queues (base st)) ->
  heap_wf (timeheap (base st')) st' ->
  (forall x, in_heap (timeheap (base st')) x <->
     if decide (x = e) then b = true /\ is_common_timeout st (ev_timeout (get st e)) = false
     else in_heap (timeheap (base st)) x) ->
  (forall i ctl', common_timeout_queues (base st') !! i = Some ctl' ->
     exists ctl, common_timeout_queues (base st) !! i = Some ctl /\
       ctl_timeout_event ctl' = ctl_timeout_event ctl /\
       (forall x, x ∈ ctl_events ctl' <->
          if decide (x = e) then b = true /\ is_common_timeout st (ev_timeout (get st e)) = true /\
                                 Z.to_nat (COMMON_TIMEOUT_IDX (ev_timeout (get st e))) = i
          else x ∈ ctl_events ctl) /\
       NoDup (ctl_events ctl') /\ StronglySorted (timeout_order st) (ctl_events ctl')) ->
  timers_ok st'.
Proof.
  intros T Hmax HF HT Hlen W HM HC.
  assert (Hic : forall tv, is_common_timeout st' tv = is_common_timeout st tv)
    by (intros; by apply is_common_ext).
  split; [done | | | |].
  - intros x. rewrite HM, HF, HT, Hic. case_decide; [by subst | apply T].
  - intros i ctl' Hi. destruct (HC i ctl' Hi) as (ctl & Hctl & _ & Hmem & ND & SS).
    destruct (to_common _ T i ctl Hctl) as [[_ M] _].
    split; [split; [done|] |].
    + intros x. rewrite Hmem. unfold in_common. rewrite HF, HT, Hic.
      case_decide; [by subst|]. rewrite M. done.
    + eapply sorted_ext; [|exact SS]. intros a c _ _. unfold timeout_order. by rewrite !HT.
  - intros x. rewrite HF. case_decide; [by subst | apply T].
  - intros i ctl' Hi. destruct (HC i ctl' Hi) as (ctl & Hctl & -> & _). by apply (to_inner _ T i).
Qed.

(** The heap holds at most the program's events. *)
Lemma heap_bound st : timers_ok st -> heap_n (timeheap (base st)) + 1 < 2 ^ 31.
Proof.
  intros T. pose proof (to_heap _ T) as W. pose proof (hw_size _ _ W) as (Hs & _ & _).
  set (l := (fun i => p_get (heap_p (timeheap (base st))) i) <$> seqZ 0 (heap_n (timeheap (base st)))).
  assert (ND : NoDup l).
  { apply NoDup_fmap_2_strong; [|apply NoDup_seqZ]. intros i j Hi Hj. rewrite elem_of_seqZ in Hi, Hj.
    intros Hij. by apply (heap_idx_inj _ st i j W); [lia..|]. }
  assert (Hsub : l ⊆+ seq 0 max_events).
  { apply NoDup_submseteq; [done|]. intros x. unfold l. rewrite list_elem_of_fmap.
    intros (i & -> & Hi). rewrite elem_of_seqZ in Hi. apply elem_of_seq.
    assert (Hin : in_heap (timeheap (base st)) (p_get (heap_p (timeheap (base st))) i)) by (exists i; split; [lia | done]).
    apply T in Hin as [Hf _]. apply (to_bound _ T) in Hf. lia. }
  apply submseteq_length in Hsub. unfold l in Hsub. rewrite length_fmap, length_seqZ, length_seq in Hsub.
  pose proof max_events_int. lia.
Qed.

Lemma remove_timeout_timers st e st' :
  event_queue_remove_timeout st e = Some st' -> timers_ok st -> timers_ok st' /\
  heap_n (timeheap (base st')) <= heap_n (timeheap (base st)) /\
  (is_common_timeout st (ev_timeout (get st e)) = false ->
     heap_n (timeheap (base st')) < heap_a (timeheap (base st'))).
Proof.
  intros R T. destruct (remove_timeout_run _ _ _ R) as (Hf & C & _ & [Hlen _]).
  assert (HF : forall x, flag st' x EVLIST_TIMEOUT = if decide (x = e) then false else flag st x EVLIST_TIMEOUT)
    by (intros x; rewrite (changed_idx_flag _ _ _ _ _ _ C); case_decide; by flags).
  assert (HT : forall x, ev_timeout (get st' x) = ev_timeout (get st x))
    by (intros x; by apply (changed_idx_same ev_timeout _ _ _ _ _ C)).
  unfold event_queue_remove_timeout in R. rewrite Hf in R. cbn [negb] in R. cbv zeta in R.
  set (st1 := set_flags _ _ _) in R.
  assert (Hb1 : base st1 = base (DECR_EVENT_COUNT st (ev_flags (get st e)))) by done.
  assert (HT1 : forall x, ev_timeout (get st1 x) = ev_timeout (get st x))
    by (intros x; subst st1; unfold set_flags; rewrite get_upd; by case_decide; subst).
  assert (W1 : heap_wf (timeheap (base st)) st1).
  { eapply heap_wf_ext; [exact HT1 | | apply T]. intros x _. cbn. subst st1. unfold set_flags.
    rewrite get_upd. by case_decide; subst. }
  destruct (is_common_timeout st1 (ev_timeout (get st1 e))) eqn:Hc.
  - destruct (get_common_timeout_list _ _) as [ctl|] eqn:Hctl; [|discriminate R]. cbn in R. inv_opt.
    rewrite HT1 in *. change (is_common_timeout st (ev_timeout (get st e)) = true) in Hc.
    assert (Hnh : ~ in_heap (timeheap (base st)) e) by (intros [_ ?]%(to_in_heap _ T); congruence).
    split; [|split; [done | congruence]].
    apply (timers_rebuild st _ e false); [exact T | done | exact HF | exact HT | exact Hlen | by eapply heap_wf_ext; [| |exact W1] | |].
    + intros x. cbn. case_decide; [subst; split; [by intros ?%Hnh | by intros [? _]] | done].
    + intros i ctl' Hi. cbn in Hi. apply list_lookup_insert_Some in Hi as [(<- & <- & _) | [Hne Hi]].
      * exists ctl. split; [done|]. split; [done|]. destruct (to_common _ T _ _ Hctl) as [M SS]. cbn [ctl_events].
        split_and!; [|apply NoDup_filter, M | by apply sorted_filter].
        intros x. unfold tailq_remove. rewrite list_elem_of_filter.
        case_decide; [split; by intros [? _] | tauto].
      * exists ctl'. destruct (to_common _ T _ _ Hi) as [M SS]. split_and!; [done | done | | apply M | done].
        intros x. case_decide; [subst | done]. destruct M as [_ M]. rewrite M.
        split; [by intros (_ & _ & ?) | by intros [? _]].
  - rewrite HT1 in Hc. change (is_common_timeout st (ev_timeout (get st e)) = false) in Hc.
    assert (Hin : in_heap (timeheap (base st)) e) by (by apply T).
    pose proof (erase_ok (timeheap (base st)) st1 e W1 Hin) as P.
    pose proof (hw_size _ _ W1) as (Hsz1 & Hsz2 & _).
    destruct (in_heap_idx _ _ _ W1 Hin) as [Hix _].
    destruct (erase_shape (timeheap (base st)) st1 e ltac:(lia)) as [Hn' Ha'].
    pose proof (erase_idx_frame (timeheap (base st1)) st1 e) as F. rewrite Hb1 in R, F.
    change (timeheap (base (DECR_EVENT_COUNT st (ev_flags (get st e))))) with (timeheap (base st)) in *.
    destruct (min_heap_erase_ _ _ _) as [[r s] st2]. cbn in F. inv_opt.
    destruct P as (_ & W' & _ & M & _ & _). cbn [fst snd] in Hn', Ha'. rewrite u32_small in Hn' by lia.
    assert (Hq : common_timeout_queues (base st2) = common_timeout_queues (base st))
      by (by destruct F as [-> _]).
    split; [|cbn; lia].
    apply (timers_rebuild st _ e false); [exact T | done | exact HF | exact HT | exact Hlen | by eapply heap_wf_ext; [| |exact W'] | |].
    + cbn. intros x. rewrite M. case_decide; [subst; split; [by intros [_ ?] | by intros [? _]] | tauto].
    + cbn. rewrite Hq. intros i ctl Hi. exists ctl. destruct (to_common _ T _ _ Hi) as [Mc SS].
      split_and!; [done | done | | apply Mc | done]. intros x. case_decide; [subst | done].
      destruct Mc as [_ Mc]. rewrite Mc.
      split; [intros (_ & ? & _); congruence | by intros [? _]].
Qed.

(** The walk that finds the place of a common timeout. *)
Lemma insert_inorder_rev_ok st l e r : insert_inorder_rev st l e = Some r ->
  r ≡ₚ e :: l /\ (StronglySorted (fun a b => timeout_order st b a) l -> StronglySorted (fun a b => timeout_order st b a) r).
Proof.
  revert r. induction l as [|y l IH]; intros r R; cbn in R.
  { inv_opt. split; [done|]. repeat constructor. }
  destruct (is_same_common_timeout _ _); [|discriminate R]. cbn in R.
  destruct (evutil_timercmp _ _ CmpGe) eqn:Hge; cbn in R.
  - inv_opt. split; [done|]. intros SS. constructor; [done|]. inversion SS as [|? ? SS' F]; subst.
    assert (Hye : timeout_order st y e).
    { unfold timeout_order, tv_le. tv_unfold. rewrite (Z.eqb_sym (tv_sec (ev_timeout (get st y)))). case_if; lia. }
    constructor; [done|]. eapply Forall_impl; [exact F|]. intros b Hb. exact (tv_le_trans _ _ _ Hb Hye).
  - destruct (insert_inorder_rev st l e) as [r'|]; [|discriminate R]. cbn in R. inv_opt.
    destruct (IH r' eq_refl) as [Hp SSr]. split; [rewrite Hp; constructor|].
    intros SS. inversion SS as [|? ? SS' F]; subst. constructor; [auto|].
    rewrite Forall_forall in F |- *. intros b. rewrite Hp, elem_of_cons. intros [->|Hb]; [|auto].
    unfold timeout_order, tv_le. tv_unfold. case_if; lia.
Qed.

Lemma sorted_app {A} (R : A -> A -> Prop) l k : StronglySorted R l -> StronglySorted R k ->
  (forall a b, a ∈ l -> b ∈ k -> R a b) -> StronglySorted R (l ++ k).
Proof.
  intros SS Hk. induction SS as [|a l SS IH F]; intros HR; [done|]. cbn. constructor.
  - apply IH. intros; apply HR; set_solver.
  - rewrite Forall_forall in F |- *. intros b [Hb|Hb]%elem_of_app; [auto | apply HR; set_solver].
Qed.
Lemma sorted_reverse {A} (R : A -> A -> Prop) l : StronglySorted R l -> StronglySorted (fun a b => R b a) (reverse l).
Proof.
  intros SS. induction SS as [|a l SS IH F]; [constructor|]. rewrite reverse_cons.
  apply sorted_app; [done | repeat constructor|]. rewrite Forall_forall in F.
  intros x b Hx ->%list_elem_of_singleton. apply F. by rewrite elem_of_reverse in Hx.
Qed.

Lemma insert_common_ok st ctl e ctl' : insert_common_timeout_inorder st ctl e = Some ctl' ->
  ctl_events ctl' ≡ₚ e :: ctl_events ctl /\ ctl_timeout_event ctl' = ctl_timeout_event ctl /\
  (StronglySorted (timeout_order st) (ctl_events ctl) -> StronglySorted (timeout_order st) (ctl_events ctl')).
Proof.
  unfold insert_common_timeout_inorder. destruct (insert_inorder_rev _ _ _) as [r|] eqn:R; [|done].
  cbn. intros; inv_opt. cbn. destruct (insert_inorder_rev_ok _ _ _ _ R) as [Hp SS]. split_and!; [|done|].
  - by rewrite reverse_Permutation, Hp, reverse_Permutation.
  - intros S1. apply (sorted_reverse (fun a b => timeout_order st b a)), SS. by apply sorted_reverse.
Qed.

Definition heap_room st : Prop :=
  heap_n (timeheap (base st)) < heap_a (timeheap (base st)) \/ forall b, mm_ok b = true.

Lemma insert_timeout_timers st e st' : event_queue_insert_timeout st e = Some st' ->
  (e < max_events)%nat -> (is_common_timeout st (ev_timeout (get st e)) = false -> heap_room st) ->
  timers_ok st -> timers_ok st' /\ heap_n (timeheap (base st')) <= heap_n (timeheap (base st)) + 1.
Proof.
  intros R Hmax Hroom T. destruct (insert_timeout_run _ _ _ R) as (Hf & C & _ & [Hlen _]).
  assert (HF : forall x, flag st' x EVLIST_TIMEOUT = if decide (x = e) then true else flag st x EVLIST_TIMEOUT)
    by (intros x; rewrite (changed_idx_flag _ _ _ _ _ _ C); case_decide; by flags).
  assert (HT : forall x, ev_timeout (get st' x) = ev_timeout (get st x))
    by (intros x; by apply (changed_idx_same ev_timeout _ _ _ _ _ C)).
  unfold event_queue_insert_timeout in R. rewrite Hf in R. cbv zeta in R.
  set (st1 := set_flags _ _ _) in R.
  assert (Hb1 : base st1 = base (INCR_EVENT_COUNT st (ev_flags (get st e)))) by done.
  assert (HT1 : forall x, ev_timeout (get st1 x) = ev_timeout (get st x))
    by (intros x; subst st1; unfold set_flags; rewrite get_upd; by case_decide; subst).
  assert (W1 : heap_wf (timeheap (base st)) st1).
  { eapply heap_wf_ext; [exact HT1 | | apply T]. intros x _. cbn. subst st1. unfold set_flags.
    rewrite get_upd. by case_decide; subst. }
  assert (Hnh : ~ in_heap (timeheap (base st)) e) by (intros [? _]%(to_in_heap _ T); congruence).
  assert (Hnc : forall i ctl, common_timeout_queues (base st) !! i = Some ctl -> e ∉ ctl_events ctl).
  { intros i ctl Hi He. destruct (to_common _ T _ _ Hi) as [[_ M] _]. apply M in He as [? _]. congruence. }
  destruct (is_common_timeout st1 (ev_timeout (get st1 e))) eqn:Hc.
  - destruct (get_common_timeout_list _ _) as [ctl|] eqn:Hctl; [|discriminate R]. cbn in R.
    destruct (insert_common_timeout_inorder st1 ctl e) as [ctl1|] eqn:Hins; [|discriminate R]. cbn in R.
    inv_opt. rewrite HT1 in *. change (is_common_timeout st (ev_timeout (get st e)) = true) in Hc.
    destruct (insert_common_ok _ _ _ _ Hins) as (Hp & Hinner & SSi).
    split; [|cbn; lia].
    apply (timers_rebuild st _ e true); [exact T | done | exact HF | exact HT | exact Hlen | by eapply heap_wf_ext; [| |exact W1] | |].
    + intros x. cbn. case_decide; [subst; split; [by intros ?%Hnh | intros [_ ?]; congruence] | done].
    + intros i ctl' Hi. cbn in Hi. apply list_lookup_insert_Some in Hi as [(<- & <- & _) | [Hne Hi]].
      * exists ctl. split; [done|]. split; [done|]. destruct (to_common _ T _ _ Hctl) as [[ND M] SS]. split_and!.
        -- intros x. rewrite Hp, elem_of_cons. case_decide; [|tauto].
           split; [intros _; split_and!; [done | exact Hc | done] | by left].
        -- rewrite Hp. constructor; [by eapply Hnc | done].
        -- eapply sorted_ext; [|apply SSi]; [|eapply sorted_ext; [|exact SS]];
             intros a b _ _; unfold timeout_order; by rewrite !HT1.
      * exists ctl'. destruct (to_common _ T _ _ Hi) as [M SS]. split_and!; [done | done | | apply M | done].
        intros x. case_decide; [subst | done]. split; [intros He; by apply Hnc in Hi | by intros (_ & _ & ?)].
  - rewrite HT1 in Hc. change (is_common_timeout st (ev_timeout (get st e)) = false) in Hc.
    pose proof (push_room mm_ok (timeheap (base st)) st1 e W1 (heap_bound st T) Hnh (Hroom Hc)) as P.
    pose proof (push_idx_frame mm_ok (timeheap (base st1)) st1 e) as F. rewrite Hb1 in R, F.
    change (timeheap (base (INCR_EVENT_COUNT st (ev_flags (get st e))))) with (timeheap (base st)) in *.
    destruct (min_heap_push_ _ _ _ _) as [[r s] st2]. cbn in F. inv_opt.
    destruct P as (_ & W' & Hn' & M & _).
    assert (Hq : common_timeout_queues (base st2) = common_timeout_queues (base st))
      by (by destruct F as [-> _]).
    split; [|cbn; lia].
    apply (timers_rebuild st _ e true); [exact T | done | exact HF | exact HT | exact Hlen | by eapply heap_wf_ext; [| |exact W'] | |].
    + cbn. intros x. rewrite M. case_decide; [|tauto]. split; [intros _; split; [done | exact Hc] | by left].
    + cbn. rewrite Hq. intros i ctl Hi. exists ctl. destruct (to_common _ T _ _ Hi) as [Mc SS].
      split_and!; [done | done | | apply Mc | done]. intros x. case_decide; [subst | done].
      split; [intros He; by apply Hnc in Hi | intros (_ & ? & _); congruence].
Qed.

End Prims.
