(* ===== verification/EvMapInv.v ===== *)
(** * The maps keep the invariant (evmap.c)

    Growing the tables, and what registration and removal do to the part of
    the invariant about the maps. *)
From S2P Require Import Prelude Timeval MinHeap Event EventQueue EvMap EventCore EventInv.

Section Growth.
Context `{Platform}.

(** From 2^30 on, the doubling wraps around to a value that never grows. *)
Lemma grow_stuck fuel n slot : 0 <= slot -> n = 0 \/ n = - 2 ^ 31 -> grow_entries fuel n slot = None.
Proof.
  intros Hs. revert n. induction fuel as [|fuel IH]; intros n Hn; cbn [grow_entries]; [done|].
  destruct (Z.leb_spec n slot); [|lia]. apply IH. left. by destruct Hn as [-> | ->].
Qed.

Lemma grow_step k : 0 <= k < 25 -> s32 (Z.shiftl (32 * 2 ^ k) 1) = 32 * 2 ^ (k + 1).
Proof.
  intros Hk. rewrite Z.shiftl_mul_pow2 by lia. rewrite Z.pow_add_r by lia.
  pose proof (Z.pow_lt_mono_r 2 k 25 ltac:(lia) ltac:(lia) ltac:(lia)).
  pose proof (Z.pow_pos_nonneg 2 k). change (2 ^ 25) with 33554432 in *. change (2 ^ 1) with 2.
  rewrite s32_small; lia.
Qed.

Lemma grow_ok fuel k slot n1 : 0 <= k <= 25 -> 0 <= slot ->
  grow_entries fuel (32 * 2 ^ k) slot = Some n1 ->
  slot < n1 /\ 32 * 2 ^ k <= n1 /\ (32 * 2 ^ k <= slot -> n1 <= 2 * slot) /\ exists k', 0 <= k' <= 25 /\ n1 = 32 * 2 ^ k'.
Proof.
  revert k. induction fuel as [|fuel IH]; intros k Hk Hs; cbn [grow_entries]; [done|].
  destruct (Z.leb_spec (32 * 2 ^ k) slot).
  - destruct (Z.eq_dec k 25) as [->|].
    { change (s32 (Z.shiftl (32 * 2 ^ 25) 1)) with (- 2 ^ 31). rewrite grow_stuck by auto. done. }
    rewrite grow_step by lia. intros G. destruct (IH (k + 1) ltac:(lia) Hs G) as (? & Hle & Hdbl & k' & Hk' & ->).
    rewrite (Z.pow_add_r 2 k 1) in Hle, Hdbl by lia. change (2 ^ 1) with 2 in *. pose proof (Z.pow_pos_nonneg 2 k).
    split_and!; [done | lia | | by exists k']. intros _. destruct (Z.le_gt_cases (32 * (2 ^ k * 2)) slot); [by apply Hdbl|].
    destruct fuel as [|fuel]; [done|]. cbn [grow_entries] in G. rewrite (Z.pow_add_r 2 k 1) in G by lia. change (2 ^ 1) with 2 in G.
    destruct (Z.leb_spec (32 * (2 ^ k * 2)) slot); [lia|]. injection G as G. lia.
  - intros; inv_opt. split_and!; [done | lia | lia | by exists k].
Qed.

Lemma grow_total fuel k slot : 0 <= k <= 25 -> 0 <= slot < 2 ^ 30 -> (Z.to_nat (26 - k) <= fuel)%nat ->
  is_Some (grow_entries fuel (32 * 2 ^ k) slot).
Proof.
  revert k. induction fuel as [|fuel IH]; intros k Hk Hs Hf; cbn [grow_entries]; [lia|].
  destruct (Z.leb_spec (32 * 2 ^ k) slot) as [Hle|]; [|by eexists].
  destruct (Z.eq_dec k 25) as [->|]; [change (32 * 2 ^ 25) with (2 ^ 30) in Hle; lia|].
  rewrite grow_step by lia. apply IH; lia.
Qed.

Lemma start_entries n : nentries_ok n ->
  exists k, 0 <= k <= 22 /\ (if c_true n then n else 32) = 32 * 2 ^ k /\ n <= 32 * 2 ^ k.
Proof.
  intros [-> | (k & Hk & ->)]; [by exists 0|]. exists k. pose proof (Z.pow_pos_nonneg 2 k).
  unfold c_true. destruct (Z.eqb_spec (32 * 2 ^ k) 0); cbn [negb]; lia.
Qed.
(** The entries of both maps are pointers. *)
Lemma entries_small k : 0 <= k <= 25 -> 32 * 2 ^ k * 8 <= INT_MAX <-> k <= 22.
Proof.
  intros Hk. unfold INT_MAX. split; intros Hle.
  - destruct (Z.le_gt_cases k 22); [done|]. pose proof (Z.pow_le_mono_r 2 23 k ltac:(lia) ltac:(lia)). change (2 ^ 23) with 8388608 in *. lia.
  - pose proof (Z.pow_le_mono_r 2 k 22 ltac:(lia) ltac:(lia)). change (2 ^ 22) with 4194304 in *. lia.
Qed.

Lemma make_space_ok n slot r n' : nentries_ok n -> 0 <= slot ->
  evmap_make_space n slot 8 = Some (r, n') ->
  (r = 0 /\ nentries_ok n' /\ slot < n' /\ n <= n') \/ (r = -1 /\ n' = n).
Proof.
  intros Hn Hs. unfold evmap_make_space. destruct (Z.leb_spec n slot) as [Hle|].
  - destruct (start_entries n Hn) as (k & Hk & -> & Hnk).
    destruct (grow_entries _ _ _) as [n1|] eqn:G; cbn [mbind option_bind]; [|done].
    destruct (grow_ok _ k _ _ ltac:(lia) Hs G) as (? & ? & _ & k' & Hk' & ->).
    destruct (Z.ltb_spec INT_MAX (32 * 2 ^ k' * 8)) as [|Hov]; [done|]. apply (entries_small k' Hk') in Hov.
    case_if; intros; inv_opt; [left | by right]. split_and!; [done | right; exists k'; by split; [lia|] | lia | lia].
  - intros; inv_opt. left. done.
Qed.

Lemma make_space_total n slot : nentries_ok n -> 0 <= slot < 2 ^ 27 ->
  is_Some (evmap_make_space n slot 8).
Proof.
  intros Hn Hs. unfold evmap_make_space. destruct (Z.leb_spec n slot) as [Hle|]; [|by eexists].
  destruct (start_entries n Hn) as (k & Hk & -> & _).
  destruct (grow_total grow_fuel k slot ltac:(lia) ltac:(lia) ltac:(unfold grow_fuel; lia)) as [n1 E]. rewrite E. cbn [mbind option_bind].
  destruct (grow_ok grow_fuel k slot n1 ltac:(lia) ltac:(lia) E) as (? & ? & Hdbl & k' & Hk' & ->).
  assert (Hsm : 32 * 2 ^ k' * 8 <= INT_MAX).
  { apply (entries_small k' Hk'). destruct (Z.le_gt_cases k' 22); [done|]. exfalso.
    pose proof (Z.pow_le_mono_r 2 23 k' ltac:(lia) ltac:(lia)). pose proof (Z.pow_le_mono_r 2 k 22 ltac:(lia) ltac:(lia)). change (2 ^ 23) with 8388608 in *. change (2 ^ 22) with 4194304 in *.
    change (2 ^ 27) with 134217728 in *. destruct (Z.le_gt_cases (32 * 2 ^ k) slot) as [Hk2|Hk2]; [specialize (Hdbl Hk2); lia|].
    unfold grow_fuel in E. cbn [grow_entries] in E. destruct (Z.leb_spec (32 * 2 ^ k) slot); [lia|]. injection E as E. lia. }
  destruct (Z.ltb_spec INT_MAX (32 * 2 ^ k' * 8)); [lia|]. case_if; eauto.
Qed.

Lemma make_space_none n slot : nentries_ok n -> 2 ^ 27 <= slot ->
  evmap_make_space n slot 8 = None.
Proof.
  intros Hn Hs. unfold evmap_make_space.
  destruct (start_entries n Hn) as (k & Hk & Hst & Hnk).
  assert (32 * 2 ^ k <= 2 ^ 27).
  { pose proof (Z.pow_le_mono_r 2 k 22 ltac:(lia) ltac:(lia)). change (2 ^ 22) with 4194304 in *. lia. }
  destruct (Z.leb_spec n slot); [|lia]. rewrite Hst.
  destruct (grow_entries _ _ _) as [n1|] eqn:G; cbn [mbind option_bind]; [|done].
  destruct (grow_ok grow_fuel k slot n1 ltac:(lia) ltac:(lia) G) as (? & _ & _ & k' & Hk' & ->).
  destruct (Z.ltb_spec INT_MAX (32 * 2 ^ k' * 8)) as [|Hov]; [done|]. apply (entries_small k' Hk') in Hov.
  pose proof (Z.pow_le_mono_r 2 k' 22 ltac:(lia) ltac:(lia)). change (2 ^ 22) with 4194304 in *. lia.
Qed.
End Growth.

Section MapsInv.
Context {B : Type} `{Eventop B} `{Platform}.
Implicit Types (st : state B) (e x : eid) (ins : eid -> bool).

(** ** Counting. *)
Lemma count_cons st bit e l : count_of st bit (e :: l) =
  count_of st bit l + c_int (has (ev_events (get st e)) bit).
Proof. unfold count_of. rewrite filter_cons. case_decide as Hd; [rewrite Hd | rewrite (not_true_is_false _ Hd)]; cbn [length c_int]; lia. Qed.

Lemma count_perm st bit l l' : l ≡ₚ l' -> count_of st bit l = count_of st bit l'.
Proof. intros Hp. unfold count_of. by rewrite Hp. Qed.

Lemma tailq_perm e l : NoDup l -> e ∈ l -> l ≡ₚ e :: tailq_remove e l.
Proof.
  intros ND He. apply NoDup_Permutation; [done | |].
  - constructor; [|by apply NoDup_filter]. unfold tailq_remove. rewrite list_elem_of_filter. naive_solver.
  - intros x. unfold tailq_remove. rewrite elem_of_cons, list_elem_of_filter.
    destruct (decide (x = e)) as [->|]; naive_solver.
Qed.

Lemma count_remove st bit e l : NoDup l -> e ∈ l ->
  count_of st bit (tailq_remove e l) = count_of st bit l - c_int (has (ev_events (get st e)) bit).
Proof. intros ND He. rewrite (count_perm st bit l _ (tailq_perm e l ND He)), count_cons. lia. Qed.

Lemma io_incr_fst evs bit n res : (io_incr evs bit (n, res)).1 = n + c_int (has evs bit).
Proof. cbn. case_if; cbn; lia. Qed.
Lemma io_decr_fst evs bit n res : (io_decr evs bit (n, res)).1 = n - c_int (has evs bit).
Proof. cbn. case_if; cbn; lia. Qed.

(** ** Changing one slot. *)

(** [st'] has the same events and, in the maps, at most a new slot [fd]. *)
Lemma maps_io_update st st' ins ins' e fd ctx' :
  maps_ok st ins -> (forall x, get st' x = get st x) ->
  io_entries (base st') = <[fd := ctx']> (io_entries (base st)) ->
  io_nentries (base st) <= io_nentries (base st') -> nentries_ok (io_nentries (base st')) ->
  sigmap_entries (base st') = sigmap_entries (base st) ->
  sigmap_nentries (base st') = sigmap_nentries (base st) ->
  (forall x, x <> e -> ins' x = ins x) -> is_io st e = true -> ev_fd (get st e) = fd ->
  io_ok st' ins' fd ctx' -> maps_ok st' ins'.
Proof.
  intros M HG Hio Hn Hnok Hs1 Hs2 Hins He Hfd Hok.
  assert (Hisio : forall x, is_io st' x = is_io st x) by (intros; unfold is_io; by rewrite HG).
  split; rewrite ?Hs1, ?Hs2; try apply M; try done.
  - intros fd' ctx Hl. rewrite Hio in Hl. apply lookup_insert_Some in Hl as [[<- <-] | [Hne Hl]]; [done|].
    destruct (mo_io _ _ M fd' ctx Hl) as [? ME ? ? ?].
    split; rewrite ?(count_of_ext st st') by (intros; by rewrite HG); try done; [lia|].
    eapply mem_ok_iff; [|exact ME]. intros x. cbn. rewrite Hisio, HG.
    destruct (decide (x = e)) as [->|Hx]; [naive_solver | by rewrite Hins].
  - intros x Hx Hi Hf. rewrite Hio, HG, lookup_insert_is_Some in *. rewrite Hisio in Hi.
    destruct (decide (fd = ev_fd (get st x))) as [|Hne]; [by left|right; split; [done|]].
    assert (x <> e) by (intros ->; done). rewrite Hins in Hx by done. by apply M.
  - intros sig l Hl. destruct (mo_sig _ _ M sig l Hl) as [? ME]. split; [done|].
    eapply mem_ok_iff; [|exact ME]. intros x. cbn. rewrite Hisio, HG.
    destruct (decide (x = e)) as [->|Hx]; [rewrite He; naive_solver | by rewrite Hins].
  - intros x. rewrite HG, Hisio. intros Hx Hi. assert (x <> e) by (intros ->; congruence).
    rewrite Hins in Hx by done. by apply M.
Qed.

Lemma maps_sig_update st st' ins ins' e sig l' :
  maps_ok st ins -> (forall x, get st' x = get st x) ->
  sigmap_entries (base st') = <[sig := l']> (sigmap_entries (base st)) ->
  sigmap_nentries (base st) <= sigmap_nentries (base st') -> nentries_ok (sigmap_nentries (base st')) ->
  io_entries (base st') = io_entries (base st) -> io_nentries (base st') = io_nentries (base st) ->
  (forall x, x <> e -> ins' x = ins x) -> is_io st e = false -> s32 (ev_fd (get st e)) = sig ->
  0 <= sig < sigmap_nentries (base st') ->
  mem_ok l' (fun x => ins' x = true /\ is_io st x = false /\ s32 (ev_fd (get st x)) = sig) ->
  maps_ok st' ins'.
Proof.
  intros M HG Hsig Hn Hnok Hs1 Hs2 Hins He Hfd Hr Hok.
  assert (Hisio : forall x, is_io st' x = is_io st x) by (intros; unfold is_io; by rewrite HG).
  split; rewrite ?Hs1, ?Hs2; try apply M; try done.
  - intros fd' ctx Hl. destruct (mo_io _ _ M fd' ctx Hl) as [? ME ? ? ?].
    split; rewrite ?(count_of_ext st st') by (intros; by rewrite HG); try done; [lia|].
    eapply mem_ok_iff; [|exact ME]. intros x. cbn. rewrite Hisio, HG.
    destruct (decide (x = e)) as [->|Hx]; [rewrite He; naive_solver | by rewrite Hins].
  - intros x. rewrite HG, Hisio. intros Hx Hi. assert (x <> e) by (intros ->; congruence).
    rewrite Hins in Hx by done. by apply M.
  - intros sig' l Hl. rewrite Hsig in Hl. apply lookup_insert_Some in Hl as [[<- <-] | [Hne Hl]].
    + split; [done|]. eapply mem_ok_iff; [|exact Hok]. intros x. cbn. by rewrite Hisio, HG.
    + destruct (mo_sig _ _ M sig' l Hl) as [? ME]. split; [lia|].
      eapply mem_ok_iff; [|exact ME]. intros x. cbn. rewrite Hisio, HG.
      destruct (decide (x = e)) as [->|Hx]; [naive_solver | by rewrite Hins].
  - intros x Hx Hi. rewrite Hsig, HG, lookup_insert_is_Some in *. rewrite Hisio in Hi.
    destruct (decide (sig = s32 (ev_fd (get st x)))) as [|Hne]; [by left|right; split; [done|]].
    assert (x <> e) by (intros ->; done). rewrite Hins in Hx by done. by apply M.
Qed.
(** ** The operations. *)

(** Only the backend's state and the tables changed. *)
Definition maps_only st st' : Prop :=
  events st' = events st /\ monotonic_now st' = monotonic_now st /\ wall_now st' = wall_now st /\
  exists bk io n sg sn, base st' = {| (base st) with
    evbase := bk; io_entries := io; io_nentries := n; sigmap_entries := sg; sigmap_nentries := sn |}.
Lemma maps_only_refl st : maps_only st st.
Proof.
  split_and!; try done. exists (evbase (base st)), (io_entries (base st)), (io_nentries (base st)),
    (sigmap_entries (base st)), (sigmap_nentries (base st)). by destruct (base st).
Qed.
Lemma maps_only_get st st' x : maps_only st st' -> get st' x = get st x.
Proof. unfold get. by intros [-> _]. Qed.

Definition set_ins ins e (b : bool) : eid -> bool := fun x => if decide (x = e) then b else ins x.
(** The outcome of an addition or a removal: [-1], or [0] or [1]. *)
Definition map_result (r : Z) : Prop := r = -1 \/ r = 0 \/ r = 1.

Lemma set_ins_ne ins e b x : x <> e -> set_ins ins e b x = ins x.
Proof. intros. unfold set_ins. by rewrite decide_False. Qed.

(** The slot of a descriptor, before the event is linked into it. *)
Lemma io_slot_ok st ins fd ctx : maps_ok st ins -> 0 <= fd < io_nentries (base st) ->
  get_io_slot_and_ctor st fd = Some ctx -> io_ok st ins fd ctx.
Proof.
  intros M Hfd. unfold get_io_slot_and_ctor. destruct (io_entries (base st) !! fd) eqn:Hl.
  { intros E. injection E as <-. by apply (mo_io _ _ M). }
  case_if; [|done]. intros E'. injection E' as <-. split; [done | | done..].
  apply mem_ok_nil. intros x (Hi & Hio & Hx).
  destruct (mo_io_total _ _ M x Hi Hio ltac:(lia)) as [c Hc]. rewrite Hx in Hc. congruence.
Qed.

Lemma io_ok_ext st st' ins fd ctx : io_ok st ins fd ctx -> (forall x, get st' x = get st x) ->
  io_nentries (base st) <= io_nentries (base st') -> io_ok st' ins fd ctx.
Proof.
  intros [? Hm ? ? ?] HG Hn. split; rewrite ?(count_of_ext st st') by (intros; by rewrite HG); try done; [lia|].
  eapply mem_ok_iff; [|exact Hm]. intros x. cbn. unfold is_io. by rewrite HG.
Qed.

Lemma maps_grow st ins n : maps_ok st ins -> io_nentries (base st) <= n -> nentries_ok n ->
  maps_ok (upd_base st (fun b => {| b with io_nentries := n |})) ins.
Proof.
  intros M Hn Hok. split; try apply M; try done. intros fd ctx Hl. apply (io_ok_ext st); [by apply M | done..].
Qed.

Lemma io_linked st ins e fd ctx : io_ok st ins fd ctx -> ins e = false -> is_io st e = true ->
  ev_fd (get st e) = fd ->
  io_ok st (set_ins ins e true) fd
    (EvmapIo (e :: io_events ctx)
       (nread ctx + c_int (has (ev_events (get st e)) EV_READ))
       (nwrite ctx + c_int (has (ev_events (get st e)) EV_WRITE))
       (nclose ctx + c_int (has (ev_events (get st e)) EV_CLOSED))).
Proof.
  intros [Hr Hm H1 H2 H3] He Hio Hfd. split; cbn; rewrite ?count_cons, ?H1, ?H2, ?H3; try done.
  eapply mem_ok_iff; [|apply mem_ok_cons; [|exact Hm]]; [|cbn; rewrite He; naive_solver].
  intros x. cbn. unfold set_ins. case_decide; [subst|]; naive_solver.
Qed.

Lemma io_unlinked st ins e fd ctx : io_ok st ins fd ctx -> e ∈ io_events ctx ->
  io_ok st (set_ins ins e false) fd
    (EvmapIo (tailq_remove e (io_events ctx))
       (nread ctx - c_int (has (ev_events (get st e)) EV_READ))
       (nwrite ctx - c_int (has (ev_events (get st e)) EV_WRITE))
       (nclose ctx - c_int (has (ev_events (get st e)) EV_CLOSED))).
Proof.
  intros [Hr Hm H1 H2 H3] He. split; cbn; rewrite ?count_remove, ?H1, ?H2, ?H3; try done; try apply Hm; try done.
  eapply mem_ok_iff; [|apply mem_ok_remove, Hm].
  intros x. cbn. unfold set_ins. case_decide; [subst|]; naive_solver.
Qed.

(** Unfold the three counters of an addition or a removal. *)
Ltac counters :=
  repeat match goal with
  | H : context [io_incr ?evs ?bit (?n, ?r)] |- _ =>
      let c := fresh "cnt" in let q := fresh "res" in let E := fresh "Ec" in
      pose proof (io_incr_fst evs bit n r) as E; destruct (io_incr evs bit (n, r)) as [c q]; cbn [fst] in E; subst c
  | H : context [io_decr ?evs ?bit (?n, ?r)] |- _ =>
      let c := fresh "cnt" in let q := fresh "res" in let E := fresh "Ec" in
      pose proof (io_decr_fst evs bit n r) as E; destruct (io_decr evs bit (n, r)) as [c q]; cbn [fst] in E; subst c
  end.

Lemma io_add_ok st ins fd e r st' :
  maps_ok st ins -> ins e = false -> is_io st e = true -> evmap_io_add_ st fd e = Some (r, st') ->
  maps_only st st' /\ map_result r /\ maps_ok st' (if r =? -1 then ins else set_ins ins e true).
Proof.
  intros M He Hio. unfold evmap_io_add_.
  destruct (Z.eqb_spec fd (ev_fd (get st e))) as [Hfd|]; cbn [evutil_assert mbind option_bind]; [|done].
  destruct (Z.ltb_spec fd 0) as [Hneg|Hpos].
  { intros; inv_opt. split_and!; [apply maps_only_refl | right; by left|]. cbn [Z.eqb Pos.eqb].
    (* a negative descriptor is in no table *)
    split; try apply M.
    - intros fd ctx Hl. destruct (mo_io _ _ M fd ctx Hl) as [? ME ? ? ?]. split; try done.
      eapply mem_ok_iff; [|exact ME]. intros x. cbn. unfold set_ins. case_decide; [subst; naive_solver lia | done].
    - intros x. unfold set_ins. case_decide; [subst; lia | apply M].
    - intros sig l Hl. destruct (mo_sig _ _ M sig l Hl) as [? ME]. split; [done|].
      eapply mem_ok_iff; [|exact ME]. intros x. cbn. unfold set_ins. case_decide; [subst; rewrite Hio; naive_solver | done].
    - intros x. unfold set_ins. case_decide; [subst; congruence | apply M]. }
  destruct (evmap_make_space _ _ _) as [[rs n]|] eqn:Hms; cbn [mbind option_bind]; [|done].
  destruct (make_space_ok _ _ _ _ (mo_io_n _ _ M) Hpos Hms) as [(-> & Hnok & Hlt & Hle) | (-> & ->)].
  2: { cbn [Z.eqb Pos.eqb]. intros; inv_opt. split_and!; [apply maps_only_refl | by left | done]. }
  cbn [Z.eqb Pos.eqb]. cbv zeta. set (st1 := upd_base st _).
  assert (M1 : maps_ok st1 ins) by (by apply maps_grow).
  assert (O1 : maps_only st st1) by (split_and!; try done; by repeat eexists).
  destruct (get_io_slot_and_ctor st1 fd) as [ctx|] eqn:Hslot.
  2: { intros; inv_opt. split_and!; [done | by left | done]. }
  pose proof (io_slot_ok _ _ _ _ M1 (conj Hpos Hlt : 0 <= fd < io_nentries (base st1)) Hslot) as Hok.
  set (st2 := set_io_slot st1 fd ctx).
  assert (M2 : maps_ok st2 ins).
  { apply (maps_io_update st1 st2 ins ins e fd ctx); try done; try apply M1. by destruct Hok. }
  assert (O2 : maps_only st st2) by (split_and!; try done; by repeat eexists).
  intros R. counters. change (ev_events (get st2 e)) with (ev_events (get st e)) in R.
  case_if_in R; [inv_opt; split_and!; [done | by left | done]|].
  case_if_in R; [inv_opt; split_and!; [done | by left | done]|].
  pose proof (io_linked st1 ins e fd ctx Hok He Hio (eq_sym Hfd)) as Hlink.
  assert (Hfin : forall st3 ctx', events st3 = events st -> monotonic_now st3 = monotonic_now st -> wall_now st3 = wall_now st ->
     (exists bk, base st3 = {| (base st2) with evbase := bk |}) ->
     io_ok st1 (set_ins ins e true) fd ctx' ->
     maps_only st (set_io_slot st3 fd ctx') /\ maps_ok (set_io_slot st3 fd ctx') (set_ins ins e true)).
  { intros st3 ctx' Hev Hmn Hwn [bk Hb] Hk.
    assert (HG : forall x, get (set_io_slot st3 fd ctx') x = get st1 x) by (intros; unfold get; cbn; by rewrite Hev).
    split; [split_and!; try done; cbn; rewrite Hb; by repeat eexists|].
    apply (maps_io_update st1 _ ins _ e fd ctx'); try done; cbn; rewrite ?Hb; try done.
    - unfold st2. cbn. by rewrite insert_insert_eq.
    - apply set_ins_ne.
    - apply (io_ok_ext st1); [exact Hk | exact HG | cbn; by rewrite Hb]. }
  destruct (c_true _).
  - destruct (evsel_add _ _ _ _) as [bk|]; [|inv_opt; split_and!; [done | by left | done]].
    injection R as <- <-. edestruct (Hfin (set_evbase st2 bk)) as [? ?]; [done | done | done | by eexists | exact Hlink|].
    split_and!; [done | right; by right | done].
  - injection R as <- <-. edestruct (Hfin st2) as [? ?]; [done | done | done | | exact Hlink|].
    { exists (evbase (base st2)). by destruct (base st2). }
    split_and!; [done | right; by left | done].
Qed.

Lemma count_nonneg st bit l : 0 <= count_of st bit l.
Proof. unfold count_of. lia. Qed.

(** Removal of an inserted event cannot hit an assertion. *)
Lemma io_del_ok st ins e :
  maps_ok st ins -> ins e = true -> is_io st e = true ->
  exists r st', evmap_io_del_ st (ev_fd (get st e)) e = Some (r, st') /\
    maps_only st st' /\ map_result r /\ maps_ok st' (set_ins ins e false).
Proof.
  intros M He Hio. unfold evmap_io_del_. set (fd := ev_fd (get st e)).
  destruct (Z.ltb_spec fd 0) as [Hneg|Hpos].
  { exists 0, st. split_and!; [done | apply maps_only_refl | right; by left|].
    split; try apply M.
    - intros fd' ctx Hl. destruct (mo_io _ _ M fd' ctx Hl) as [? ME ? ? ?]. split; try done.
      eapply mem_ok_iff; [|exact ME]. intros x. cbn. unfold set_ins. case_decide; [subst x; fold fd; naive_solver lia | done].
    - intros x. unfold set_ins. case_decide; [done | apply M].
    - intros sig l Hl. destruct (mo_sig _ _ M sig l Hl) as [? ME]. split; [done|].
      eapply mem_ok_iff; [|exact ME]. intros x. cbn. unfold set_ins. case_decide; [subst; rewrite Hio; naive_solver | done].
    - intros x. unfold set_ins. case_decide; [done | apply M]. }
  rewrite Z.eqb_refl. cbn [evutil_assert mbind option_bind].
  destruct (mo_io_total _ _ M e He Hio Hpos) as [ctx Hl]. fold fd in Hl.
  pose proof (mo_io _ _ M fd ctx Hl) as Hok. pose proof (io_range _ _ _ _ Hok).
  destruct (Z.leb_spec (io_nentries (base st)) fd); [lia|].
  rewrite Hl. cbn [mbind option_bind].
  assert (Hin : e ∈ io_events ctx) by (by apply Hok).
  pose proof (io_unlinked st ins e fd ctx Hok Hin) as Hun.
  pose proof (io_nread _ _ _ _ Hun) as C1. pose proof (io_nwrite _ _ _ _ Hun) as C2. pose proof (io_nclose _ _ _ _ Hun) as C3.
  cbn [nread nwrite nclose] in C1, C2, C3.
  pose proof (count_nonneg st EV_READ (io_events {| io_events := tailq_remove e (io_events ctx); nread := 0; nwrite := 0; nclose := 0 |})).
  pose proof (count_nonneg st EV_WRITE (tailq_remove e (io_events ctx))).
  pose proof (count_nonneg st EV_CLOSED (tailq_remove e (io_events ctx))).
  cbn [io_events] in *.
  repeat match goal with
  | |- context [io_decr ?evs ?bit (?n, ?r)] =>
      let c := fresh "cnt" in let q := fresh "res" in let E := fresh "Ec" in
      pose proof (io_decr_fst evs bit n r) as E; destruct (io_decr evs bit (n, r)) as [c q]; cbn [fst] in E; subst c
  end.
  cbv zeta. rewrite C1, C2, C3 in *.
  destruct (_ && _ && _) eqn:Hnn; [|lia]. cbn [evutil_assert mbind option_bind].
  assert (Hfin : forall st3, (exists bk, st3 = set_evbase st bk) ->
    forall c, io_ok st (set_ins ins e false) fd c ->
    maps_only st (set_io_slot st3 fd c) /\ maps_ok (set_io_slot st3 fd c) (set_ins ins e false)).
  { intros st3 [bk ->] c Hc. split; [split_and!; try done; by repeat eexists|].
    apply (maps_io_update st _ ins _ e fd c); try done; try apply M; [apply set_ins_ne|].
    by apply (io_ok_ext st). }
  destruct (c_true _).
  - destruct (evsel_del _ _ _ _) as [bk|].
    + edestruct (Hfin (set_evbase st bk)) as [? ?]; [by eexists | exact Hun|].
      do 2 eexists. split_and!; [done | done | right; by right | done].
    + edestruct (Hfin (set_evbase st (evbase (base st)))) as [F1 F2]; [by eexists | exact Hun|].
      assert (Hst : set_evbase st (evbase (base st)) = st) by (by destruct st as [? [] ? ?]). rewrite Hst in *.
      do 2 eexists. split_and!; [done | done | by left | done].
  - edestruct (Hfin (set_evbase st (evbase (base st)))) as [F1 F2]; [by eexists | exact Hun|].
    assert (Hst : set_evbase st (evbase (base st)) = st) by (by destruct st as [? [] ? ?]). rewrite Hst in *.
    do 2 eexists. split_and!; [done | done | right; by left | done].
Qed.

Lemma sig_add_ok st ins e r st' :
  maps_ok st ins -> ins e = false -> is_io st e = false ->
  evmap_signal_add_ st (s32 (ev_fd (get st e))) e = Some (r, st') ->
  maps_only st st' /\ map_result r /\ maps_ok st' (if r =? -1 then ins else set_ins ins e true).
Proof.
  intros M He Hio. unfold evmap_signal_add_. set (sig := s32 (ev_fd (get st e))).
  destruct (evmap_make_space _ _ _) as [[rs n]|] eqn:Hms; cbn [mbind option_bind]; [|done].
  destruct (Z.eqb_spec rs (-1)) as [->|Hrs].
  { intros; inv_opt. split_and!; [apply maps_only_refl | by left | done]. }
  cbv zeta. destruct (Z.leb_spec 0 sig) as [Hpos|]; cbn [evutil_assert mbind option_bind]; [|done].
  destruct (make_space_ok _ _ _ _ (mo_sig_n _ _ M) Hpos Hms) as [(-> & Hnok & Hlt & Hle) | (-> & _)]; [|done].
  set (st1 := upd_base st _).
  assert (M1 : maps_ok st1 ins).
  { split; try apply M; try done.
    - intros fd c Hl. apply (io_ok_ext st); [by apply (mo_io _ _ M) | done..].
    - intros s l Hl. destruct (mo_sig _ _ M s l Hl). split; [unfold st1; cbn; lia | done]. }
  assert (O1 : maps_only st st1) by (split_and!; try done; by repeat eexists).
  case_if; [intros; inv_opt; split_and!; [done | by left | done]|].
  set (ctx := default [] _).
  assert (Hmem : mem_ok ctx (fun x => ins x = true /\ is_io st x = false /\ s32 (ev_fd (get st x)) = sig)).
  { subst ctx. change (sigmap_entries (base st1)) with (sigmap_entries (base st)).
    destruct (sigmap_entries (base st) !! sig) as [l|] eqn:Hl; cbn; [by apply (mo_sig _ _ M)|].
    apply mem_ok_nil. intros x (Hi & Hx & Hs). destruct (mo_sig_total _ _ M x Hi Hx) as [c Hc]. rewrite Hs in Hc. congruence. }
  assert (Hfin : forall bk l ins', mem_ok l (fun x => ins' x = true /\ is_io st x = false /\ s32 (ev_fd (get st x)) = sig) ->
    (forall x, x <> e -> ins' x = ins x) ->
    forall st3, events st3 = events st -> monotonic_now st3 = monotonic_now st -> wall_now st3 = wall_now st ->
    base st3 = {| (base st1) with evbase := bk; sigmap_entries := <[sig := l]> (sigmap_entries (base st)) |} ->
    maps_only st st3 /\ maps_ok st3 ins').
  { intros bk l ins' Hl Hne st3 Hev Hm Hw Hb. split; [split_and!; try done; rewrite Hb; by repeat eexists|].
    apply (maps_sig_update st st3 ins ins' e sig l); rewrite ?Hb; try done. intros x. unfold get. by rewrite Hev. }
  assert (Hself : forall x, x <> e -> ins x = ins x) by done.
  pose proof (fun st3 => Hfin (evbase (base st)) ctx ins Hmem Hself st3) as Hfail.
  assert (Hadd : mem_ok (e :: ctx) (fun x => set_ins ins e true x = true /\ is_io st x = false /\ s32 (ev_fd (get st x)) = sig)).
  { eapply mem_ok_iff; [|apply mem_ok_cons; [|exact Hmem]]; [|cbn; rewrite He; naive_solver].
    intros x. cbn. unfold set_ins. case_decide; [subst x|]; naive_solver. }
  clearbody ctx. destruct ctx as [|c0 ctx].
  - destruct (evsigsel_add _ _ _ _) as [bk|]; intros R; injection R as <- <-.
    + edestruct (Hfin bk [e] _ Hadd (set_ins_ne _ _ _)) as [? ?]; [..|split_and!; [done | right; by right | done]]; try done.
      cbn. by rewrite insert_insert_eq.
    + edestruct Hfail as [? ?]; [..|split_and!; [done | by left | done]]; try done.
  - intros R; injection R as <- <-.
    edestruct (Hfin (evbase (base st)) _ _ Hadd (set_ins_ne _ _ _)) as [? ?]; [..|split_and!; [done | right; by right | done]]; try done.
    cbn. by rewrite insert_insert_eq.
Qed.

Lemma sig_del_ok st ins e :
  maps_ok st ins -> ins e = true -> is_io st e = false ->
  exists r st', evmap_signal_del_ st (s32 (ev_fd (get st e))) e = Some (r, st') /\
    maps_only st st' /\ map_result r /\ maps_ok st' (set_ins ins e false).
Proof.
  intros M He Hio. unfold evmap_signal_del_. set (sig := s32 (ev_fd (get st e))).
  destruct (mo_sig_total _ _ M e He Hio) as [ctx Hl]. fold sig in Hl.
  destruct (mo_sig _ _ M sig ctx Hl) as [Hr Hm].
  destruct (Z.leb_spec (sigmap_nentries (base st)) sig); [lia|]. rewrite Hl. cbn [mbind option_bind]. cbv zeta.
  assert (Hdel : mem_ok (tailq_remove e ctx) (fun x => set_ins ins e false x = true /\ is_io st x = false /\ s32 (ev_fd (get st x)) = sig)).
  { eapply mem_ok_iff; [|apply mem_ok_remove, Hm]. intros x. cbn. unfold set_ins. case_decide; [subst x|]; naive_solver. }
  assert (Hfin : forall bk st3, events st3 = events st -> monotonic_now st3 = monotonic_now st -> wall_now st3 = wall_now st ->
    base st3 = {| (base st) with evbase := bk; sigmap_entries := <[sig := tailq_remove e ctx]> (sigmap_entries (base st)) |} ->
    maps_only st st3 /\ maps_ok st3 (set_ins ins e false)).
  { intros bk st3 Hev Hmn Hw Hb. split; [split_and!; try done; rewrite Hb; by repeat eexists|].
    apply (maps_sig_update st st3 ins _ e sig (tailq_remove e ctx)); rewrite ?Hb; try done; try apply M.
    - intros x. unfold get. by rewrite Hev.
    - apply set_ins_ne. }
  destruct (tailq_remove e ctx) as [|c0 l].
  - destruct (evsigsel_del _ _ _ _) as [bk|]; do 2 eexists.
    + edestruct (Hfin bk) as [? ?]; [..|split_and!; [reflexivity | done | right; by right | done]]; done.
    + edestruct (Hfin (evbase (base st))) as [? ?]; [..|split_and!; [reflexivity | done | by left | done]]; done.
  - do 2 eexists.
    edestruct (Hfin (evbase (base st))) as [? ?]; [..|split_and!; [reflexivity | done | right; by right | done]]; done.
Qed.

End MapsInv.
