(* ===== verification/EventOps.v ===== *)
(** * The operations keep the invariant

    Every operation of EventCore.v takes a well-formed base to a well-formed
    base, on every branch. *)
From S2P Require Import Prelude Timeval MinHeap Event EventQueue EvMap EventCore EventInv EventPrims EvMapInv.

(** Open one bind of a successful computation. *)
Ltac bind_in H x E :=
  match type of H with
  | (?m ≫= _) = Some _ => destruct m as [x|] eqn:E; cbn [mbind option_bind] in H; [|discriminate H]
  end.

Section Ops.
Context {B : Type} `{Eventop B} `{Platform}.
Implicit Types (st : state B) (e x : eid).

(** ** Primitives, all parts together. *)
Lemma inserted_changed st e fl st' x : changed_idx st e (with_flags fl) st' ->
  has fl EVLIST_INSERTED = flag st e EVLIST_INSERTED -> inserted st' x = inserted st x.
Proof.
  intros C Hf. unfold inserted. rewrite (changed_idx_flag _ _ _ _ _ _ C). case_decide; by subst.
Qed.

Lemma maps_same st st' ins ins' : (forall x, ins' x = ins x) ->
  (forall x, ev_events (get st' x) = ev_events (get st x)) -> (forall x, ev_fd (get st' x) = ev_fd (get st x)) ->
  io_entries (base st') = io_entries (base st) -> io_nentries (base st') = io_nentries (base st) ->
  sigmap_entries (base st') = sigmap_entries (base st) -> sigmap_nentries (base st') = sigmap_nentries (base st) ->
  maps_ok st ins -> maps_ok st' ins'.
Proof. intros. by apply (maps_ext st st' ins ins'). Qed.

Lemma maps_changed st e fl st' : changed_idx st e (with_flags fl) st' ->
  has fl EVLIST_INSERTED = flag st e EVLIST_INSERTED ->
  io_entries (base st') = io_entries (base st) -> io_nentries (base st') = io_nentries (base st) ->
  sigmap_entries (base st') = sigmap_entries (base st) -> sigmap_nentries (base st') = sigmap_nentries (base st) ->
  maps_ok st (inserted st) -> maps_ok st' (inserted st').
Proof.
  intros C Hf. apply maps_same.
  - intros x. by apply (inserted_changed st e fl).
  - intros x. by apply (changed_idx_same ev_events st e fl st').
  - intros x. by apply (changed_idx_same ev_fd st e fl st').
Qed.

Lemma remove_active_wf st e st' : event_queue_remove_active st e = Some st' -> base_wf st -> base_wf st'.
Proof.
  intros R [F Q T M N]. destruct (remove_active_run _ _ _ R) as (Hf & C & Hb). pose proof (changed_weaken _ _ _ _ C) as Ci.
  split; [apply (flags_changed _ _ _ _ Ci); [all_flags F | by flags | done]|by eapply remove_active_queues | | |].
  - apply (timers_other st e _ st' C); rewrite ?Hb; try done. by flags.
  - apply (maps_changed st e _ st' Ci); rewrite ?Hb; try done. by flags.
  - apply (counts_remove st e EVLIST_ACTIVE st'); rewrite ?Hb; try done. constructor.
Qed.

Lemma remove_later_wf st e st' : event_queue_remove_active_later st e = Some st' -> base_wf st -> base_wf st'.
Proof.
  intros R [F Q T M N]. destruct (remove_later_run _ _ _ R) as (Hf & C & Hb). pose proof (changed_weaken _ _ _ _ C) as Ci.
  split; [apply (flags_changed _ _ _ _ Ci); [all_flags F | by flags | done]|by eapply remove_later_queues | | |].
  - apply (timers_other st e _ st' C); rewrite ?Hb; try done. by flags.
  - apply (maps_changed st e _ st' Ci); rewrite ?Hb; try done. by flags.
  - apply (counts_remove st e EVLIST_ACTIVE_LATER st'); rewrite ?Hb; try done. constructor.
Qed.

Lemma insert_active_wf st e st' : event_queue_insert_active st e = Some st' ->
  (flag st e EVLIST_ACTIVE = false -> flag st e EVLIST_ACTIVE_LATER = false) -> base_wf st -> base_wf st'.
Proof.
  intros R HL [F Q T M N]. pose proof (insert_active_queues _ _ _ R HL Q) as Q'.
  destruct (insert_active_run _ _ _ R) as [[_ ->] | (Hf & _ & C & Hb)]; [done|].
  pose proof (changed_weaken _ _ _ _ C) as Ci.
  split; [apply (flags_changed _ _ _ _ Ci); [all_flags F | by flags | done] | done | | |].
  - apply (timers_other st e _ st' C); rewrite ?Hb; try done. by flags.
  - apply (maps_changed st e _ st' Ci); rewrite ?Hb; try done. by flags.
  - apply (counts_insert st e EVLIST_ACTIVE st'); rewrite ?Hb; try done. constructor.
Qed.

Lemma insert_later_wf st e st' : event_queue_insert_active_later st e = Some st' -> base_wf st -> base_wf st'.
Proof.
  intros R [F Q T M N]. pose proof (insert_later_queues _ _ _ R Q) as Q'.
  destruct (insert_later_run _ _ _ R) as [[_ ->] | (_ & Hf & _ & C & Hb)]; [done|].
  pose proof (changed_weaken _ _ _ _ C) as Ci.
  split; [apply (flags_changed _ _ _ _ Ci); [all_flags F | by flags | done] | done | | |].
  - apply (timers_other st e _ st' C); rewrite ?Hb; try done. by flags.
  - apply (maps_changed st e _ st' Ci); rewrite ?Hb; try done. by flags.
  - apply (counts_insert st e EVLIST_ACTIVE_LATER st'); rewrite ?Hb; try done. constructor.
Qed.

Lemma remove_timeout_wf st e st' : event_queue_remove_timeout st e = Some st' -> base_wf st -> base_wf st'.
Proof.
  intros R [F Q T M N]. destruct (remove_timeout_run _ _ _ R) as (Hf & C & Hc & Hl & h & q & c & m & Hb).
  split.
  - apply (flags_changed _ _ _ _ C); [all_flags F | by flags | done].
  - apply (queues_other st e _ st' C); rewrite ?Hb; try done; by flags.
  - by eapply remove_timeout_timers.
  - apply (maps_changed st e _ st' C); rewrite ?Hb; try done. by flags.
  - apply (counts_remove st e EVLIST_TIMEOUT st'); try done; [constructor|].
    change (c_int (has EVLIST_TIMEOUT (Z.lor EVLIST_ACTIVE EVLIST_ACTIVE_LATER))) with 0. rewrite Hb. cbn. lia.
Qed.

Lemma insert_timeout_wf st e st' : event_queue_insert_timeout st e = Some st' ->
  (e < max_events)%nat -> (is_common_timeout st (ev_timeout (get st e)) = false -> heap_room st) ->
  base_wf st -> base_wf st'.
Proof.
  intros R Hmax Hr [F Q T M N]. destruct (insert_timeout_run _ _ _ R) as (Hf & C & Hc & Hl & h & q & c & m & Hb).
  split.
  - apply (flags_changed _ _ _ _ C); [all_flags F | by flags | done].
  - apply (queues_other st e _ st' C); rewrite ?Hb; try done; by flags.
  - by eapply insert_timeout_timers.
  - apply (maps_changed st e _ st' C); rewrite ?Hb; try done. by flags.
  - apply (counts_insert st e EVLIST_TIMEOUT st'); try done; [constructor|].
    change (c_int (has EVLIST_TIMEOUT (Z.lor EVLIST_ACTIVE EVLIST_ACTIVE_LATER))) with 0. rewrite Hb. cbn. lia.
Qed.

(** ** States that agree on what the invariant reads. *)
Definition same_event (a b : event) : Prop :=
  ev_flags a = ev_flags b /\ ev_pri a = ev_pri b /\ ev_timeout a = ev_timeout b /\
  ev_min_heap_idx a = ev_min_heap_idx b /\ ev_fd a = ev_fd b /\ ev_events a = ev_events b.
Definition same_base (a b : event_base B) : Prop :=
  event_count a = event_count b /\ event_count_active a = event_count_active b /\
  activequeues a = activequeues b /\ active_later_queue a = active_later_queue b /\
  common_timeout_queues a = common_timeout_queues b /\ timeheap a = timeheap b /\
  io_entries a = io_entries b /\ io_nentries a = io_nentries b /\
  sigmap_entries a = sigmap_entries b /\ sigmap_nentries a = sigmap_nentries b.
Definition same_view st st' : Prop :=
  (forall x, same_event (get st' x) (get st x)) /\ same_base (base st') (base st).

Lemma wf_view st st' : same_view st st' -> base_wf st -> base_wf st'.
Proof.
  intros [HE (B1 & B2 & B3 & B4 & B5 & B6 & B7 & B8 & B9 & B10)] [F Q T M N].
  assert (HF : forall x, ev_flags (get st' x) = ev_flags (get st x)) by (intros x; apply (HE x)).
  assert (Hfl : forall x m, flag st' x m = flag st x m) by (intros; unfold flag; by rewrite HF).
  split.
  - by apply (flags_ext st).
  - apply (queues_ext st); try done. intros x. apply (HE x).
  - apply (timers_ext st); try done; intros x; apply (HE x).
  - apply (maps_same st _ (inserted st)); try done; intros x; [apply Hfl | apply (HE x)..].
  - apply (counts_ext st); try done; intros x; by rewrite HF.
Qed.

#[export] Instance same_view_equiv : Equivalence same_view.
Proof.
  split.
  - intros st. split; [intros x|]; by repeat split.
  - intros a b [HE HB]. split; [intros x; specialize (HE x)|]; unfold same_event, same_base in *; intuition congruence.
  - intros a b c [HE HB] [HE' HB'].
    split; [intros x; specialize (HE x); specialize (HE' x)|]; unfold same_event, same_base in *; intuition congruence.
Qed.
#[export] Instance base_wf_proper : Proper (same_view ==> iff) base_wf.
Proof. intros a b Hab. split; apply wf_view; [done | by symmetry]. Qed.

Lemma view_upd st e f : (forall ev, same_event (f ev) ev) -> same_view st (upd st e f).
Proof.
  intros Hf. split; [|by repeat split]. intros x. rewrite get_upd. case_decide; [by subst | by repeat split].
Qed.
Lemma view_upd_base st f : (forall b, same_base (f b) b) -> same_view st (upd_base st f).
Proof. intros Hf. split; [intros x; by repeat split | apply Hf]. Qed.

(** Writes to fields the invariant does not read. *)
Lemma wf_upd st e f : (forall ev, same_event (f ev) ev) -> base_wf st -> base_wf (upd st e f).
Proof. intros Hf. apply wf_view. by apply view_upd. Qed.
Lemma wf_upd_base st f : (forall b, same_base (f b) b) -> base_wf st -> base_wf (upd_base st f).
Proof. intros Hf. apply wf_view. by apply view_upd_base. Qed.

(** A change of the timeout of an event that waits for none. *)
Lemma wf_set_timeout st e tv : flag st e EVLIST_TIMEOUT = false -> base_wf st ->
  base_wf (upd st e (fun ev => {| ev with ev_timeout := tv |})).
Proof.
  intros Hf [F Q T M N]. set (st' := upd _ _ _).
  assert (HG : forall x, x <> e -> get st' x = get st x) by (intros; unfold st'; by rewrite get_upd_ne).
  assert (Hfl : forall x m, flag st' x m = flag st x m)
    by (intros x m; unfold flag, st'; rewrite get_upd; case_decide; by subst).
  assert (Hnh : ~ in_heap (timeheap (base st)) e) by (intros [? _]%(to_in_heap _ T); congruence).
  split.
  - apply (flags_ext st); [|done]. intros x. unfold st'. rewrite get_upd. case_decide; by subst.
  - apply (queues_ext st); try done. intros x. unfold st'. rewrite get_upd. case_decide; by subst.
  - split.
    + pose proof (to_heap _ T) as W. split; [apply W | |].
      * intros i Hi. cbn. change (base st') with (base st). rewrite HG; [by apply W|].
        intros Heq. apply Hnh. by exists i.
      * intros i Hi. pose proof (par_range i ltac:(lia)). cbn. change (base st') with (base st) in *.
        rewrite !HG; [by apply W | intros Heq; apply Hnh; eexists; split; [|exact Heq]; lia..].
    + intros x. change (base st') with (base st). rewrite (to_in_heap _ T), Hfl.
      destruct (decide (x = e)) as [->|Hx]; [rewrite Hf; naive_solver|]. rewrite HG by done. done.
    + intros i ctl Hi. destruct (to_common _ T i ctl Hi) as [[ND Mm] SS].
      assert (Hne : forall x, x ∈ ctl_events ctl -> x <> e).
      { intros x Hx ->. apply Mm in Hx as [? _]. congruence. }
      split; [split; [done|]|].
      * intros x. rewrite Mm. unfold in_common. rewrite Hfl.
        destruct (decide (x = e)) as [->|Hx]; [rewrite Hf; naive_solver|]. rewrite HG by done. done.
      * eapply sorted_ext; [|exact SS]. intros a b Ha Hb'. unfold timeout_order. by rewrite !HG by auto.
    + intros x. rewrite Hfl. apply T.
    + apply T.
  - apply (maps_same st _ (inserted st)); try done; intros x; [apply Hfl | unfold st'; rewrite get_upd; case_decide; by subst..].
  - apply (counts_ext st); try done; intros x; unfold st'; rewrite get_upd; case_decide; by subst.
Qed.
(** ** Registration with the maps. *)

(** The map operations leave the other three parts alone. *)
Lemma maps_only_parts st st' : maps_only st st' -> base_wf st ->
  flags_ok st' /\ queues_ok st' /\ timers_ok st' /\ counts_ok st'.
Proof.
  intros O [F Q T _ N]. assert (HG : forall x, get st' x = get st x) by (intros; by apply maps_only_get).
  destruct O as (_ & _ & _ & bk & io & n & sg & sn & Hb).
  split_and!.
  - apply (flags_ext st); [|done]. intros x. by rewrite HG.
  - apply (queues_ext st); rewrite ?Hb; try done; intros x; unfold flag; by rewrite HG.
  - apply (timers_ext st); rewrite ?Hb; try done; intros x; unfold flag; by rewrite HG.
  - apply (counts_ext st); rewrite ?Hb; try done; intros x; by rewrite HG.
Qed.

(** Everything but the maps, the [EVLIST_INSERTED] bit of [e] and the count. *)
Definition registration st e st' : Prop :=
  (exists fl, changed st e (with_flags fl) st' /\
     forall m, Z.land EVLIST_INSERTED m = 0 -> has fl m = flag st e m) /\
  monotonic_now st' = monotonic_now st /\ wall_now st' = wall_now st /\
  exists bk io n sg sn c m, base st' = {| (base st) with
    evbase := bk; io_entries := io; io_nentries := n; sigmap_entries := sg; sigmap_nentries := sn;
    event_count := c; event_count_max := m |}.

Lemma registration_refl st e : registration st e st.
Proof.
  split_and!; try done.
  - exists (ev_flags (get st e)). split; [|done]. intros x. case_decide; [subst; by destruct (get st _) | done].
  - exists (evbase (base st)), (io_entries (base st)), (io_nentries (base st)), (sigmap_entries (base st)),
      (sigmap_nentries (base st)), (event_count (base st)), (event_count_max (base st)). by destruct (base st).
Qed.

Lemma registration_maps st e st1 : maps_only st st1 -> registration st e st1.
Proof.
  intros O. assert (HG : forall x, get st1 x = get st x) by (intros; by apply maps_only_get).
  destruct O as (_ & ? & ? & bk & io & n & sg & sn & Hb). split_and!; try done.
  - exists (ev_flags (get st e)). split; [|done]. intros x. rewrite HG. case_decide; [subst; by destruct (get st _) | done].
  - exists bk, io, n, sg, sn, (event_count (base st)), (event_count_max (base st)). rewrite Hb. by destruct (base st).
Qed.

Lemma insert_inserted_maps st st1 e st2 : maps_only st st1 -> base_wf st -> flag st e EVLIST_INSERTED = false ->
  maps_ok st1 (set_ins (inserted st) e true) -> event_queue_insert_inserted st1 e = Some st2 ->
  base_wf st2 /\ registration st e st2 /\ flag st2 e EVLIST_INSERTED = true.
Proof.
  intros O W Hf M R. destruct (maps_only_parts _ _ O W) as (F & Q & T & N).
  destruct (insert_inserted_run _ _ _ R) as (Hf1 & C & Hb). pose proof (changed_weaken _ _ _ _ C) as Ci.
  assert (HG : forall x, get st1 x = get st x) by (intros; by apply maps_only_get).
  split; [split | split; [split_and!|]].
  - apply (flags_changed _ _ _ _ Ci); [all_flags F | by flags | done].
  - apply (queues_other st1 e _ st2 Ci); rewrite ?Hb; try done; by flags.
  - apply (timers_other st1 e _ st2 C); rewrite ?Hb; try done; by flags.
  - apply (maps_same st1 _ (set_ins (inserted st) e true)); rewrite ?Hb; try done.
    + intros x. unfold inserted, set_ins. rewrite (changed_flag _ _ _ _ _ _ C).
      case_decide; [by flags | unfold flag; by rewrite HG].
    + intros x. by apply (changed_same ev_events _ _ _ _ _ C).
    + intros x. by apply (changed_same ev_fd _ _ _ _ _ C).
  - apply (counts_insert st1 e EVLIST_INSERTED st2); rewrite ?Hb; try done; [constructor|].
    change (c_int (has EVLIST_INSERTED (Z.lor EVLIST_ACTIVE EVLIST_ACTIVE_LATER))) with 0. cbn. lia.
  - eexists. split.
    + intros x. rewrite (C x), <- (HG x), <- (HG e). reflexivity.
    + intros m Hm. rewrite has_set. unfold flag. rewrite HG.
      replace (has EVLIST_INSERTED m) with false by (unfold has; by rewrite Hm). by rewrite orb_false_r.
  - unfold event_queue_insert_inserted in R. rewrite Hf1 in R. inv_opt. apply O.
  - unfold event_queue_insert_inserted in R. rewrite Hf1 in R. inv_opt. apply O.
  - destruct O as (_ & _ & _ & bk & io & n & sg & sn & Hb1). rewrite Hb. unfold INCR_EVENT_COUNT. cbn.
    rewrite Hb1. by repeat eexists.
  - rewrite (changed_flag _ _ _ _ _ _ C), decide_True by done. by flags.
Qed.

(** The conditions under which [event_add_nolock_] registers. *)
Definition wants_registration st e : bool :=
  has (ev_events (get st e)) (Z.lor EV_IO EV_SIGNAL)
  && negb (flag st e (Z.lor EVLIST_INSERTED (Z.lor EVLIST_ACTIVE EVLIST_ACTIVE_LATER))).

Lemma register_ok st e r st' : event_add_register st e = Some (r, st') -> base_wf st ->
  base_wf st' /\ registration st e st' /\ (r = -1 \/ r = 0) /\
  (r = -1 -> forall x, get st' x = get st x) /\
  (r = 0 -> flag st' e EVLIST_INSERTED = flag st e EVLIST_INSERTED || wants_registration st e).
Proof.
  intros R W. unfold event_add_register in R. fold (wants_registration st e) in R.
  destruct (wants_registration st e) eqn:Hw.
  2: { inv_opt. split_and!; [done | apply registration_refl | by right | done | by rewrite orb_false_r]. }
  unfold wants_registration in Hw. apply andb_true_iff in Hw as [Hev Hfl]. apply negb_true_iff in Hfl.
  unfold flag in Hfl. rewrite !has_lor in Hfl, Hev. apply orb_false_iff in Hfl as [Hins Hfl].
  fold (flag st e EVLIST_INSERTED) in Hins.
  bind_in R p E. destruct p as [rm st1]. cbv beta iota in R.
  assert (HS : maps_only st st1 /\ map_result rm /\
               maps_ok st1 (if rm =? -1 then inserted st else set_ins (inserted st) e true)).
  { destruct (has (ev_events (get st e)) EV_IO) eqn:Hio.
    - by apply (io_add_ok _ _ _ _ _ _ (wf_maps _ W) Hins Hio E).
    - cbn [orb] in Hev. rewrite Hev in E. by apply (sig_add_ok _ _ _ _ _ (wf_maps _ W) Hins Hio E). }
  destruct HS as (O & Hr & M). destruct (Z.eqb_spec rm (-1)) as [->|Hne]; cbn [negb] in R.
  - cbn [mbind option_bind] in R. inv_opt. cbn [Z.eqb Pos.eqb] in *. destruct (maps_only_parts _ _ O W) as (F & Q & T & N).
    assert (HG : forall x, get st' x = get st x) by (intros; by apply maps_only_get).
    split_and!; [ | by apply registration_maps | by left | done | done].
    split; try done. apply (maps_same st' _ (inserted st)); try done.
    intros x. unfold inserted, flag. by rewrite HG.
  - bind_in R st2 E2. destruct (insert_inserted_maps _ _ _ _ O W Hins M E2) as (W2 & G2 & F2).
    inv_opt. split_and!; [done | done | | | ].
    + destruct Hr as [-> | [-> | ->]]; cbn; auto.
    + intros Hq. destruct Hr as [-> | [-> | ->]]; cbn in Hq; done.
    + intros _. by rewrite F2, orb_true_r.
Qed.

(** ** Removal from the maps. *)
Lemma unregister_ok st e st1 : base_wf st -> event_queue_remove_inserted st e = Some st1 ->
  exists r st', (if has (ev_events (get st1 e)) EV_IO then evmap_io_del_ st1 (ev_fd (get st1 e)) e
                 else evmap_signal_del_ st1 (s32 (ev_fd (get st1 e))) e) = Some (r, st') /\
    base_wf st' /\ maps_only st1 st' /\ map_result r.
Proof.
  intros W R. destruct (remove_inserted_run _ _ _ R) as (Hf & C & Hb). pose proof (changed_weaken _ _ _ _ C) as Ci.
  destruct W as [F Q T M N].
  assert (Hins1 : forall x, inserted st1 x = set_ins (inserted st) e false x).
  { intros x. unfold inserted, set_ins. rewrite (changed_flag _ _ _ _ _ _ C). case_decide; by flags. }
  assert (M1 : maps_ok st1 (inserted st)).
  { apply (maps_same st _ (inserted st)); rewrite ?Hb; try done; intros x;
      [by apply (changed_same ev_events _ _ _ _ _ C) | by apply (changed_same ev_fd _ _ _ _ _ C)]. }
  assert (HD : exists r st', (if has (ev_events (get st1 e)) EV_IO then evmap_io_del_ st1 (ev_fd (get st1 e)) e
                 else evmap_signal_del_ st1 (s32 (ev_fd (get st1 e))) e) = Some (r, st') /\
              maps_only st1 st' /\ map_result r /\ maps_ok st' (set_ins (inserted st) e false)).
  { destruct (has (ev_events (get st1 e)) EV_IO) eqn:Hio; [by apply io_del_ok | by apply sig_del_ok]. }
  destruct HD as (r & st' & E & O & Hr & M'). exists r, st'. split_and!; [done | | done | done].
  assert (HG : forall x, get st' x = get st1 x) by (intros; by apply maps_only_get).
  destruct O as (_ & _ & _ & bk & io & n & sg & sn & Hb').
  split.
  - apply (flags_ext st1); [intros x; by rewrite HG|]. apply (flags_changed _ _ _ _ Ci); [all_flags F | by flags | done].
  - apply (queues_ext st1); rewrite ?Hb'; try done; [intros x; unfold flag; by rewrite HG.. |].
    apply (queues_other st e _ st1 Ci); rewrite ?Hb; try done; by flags.
  - apply (timers_ext st1); rewrite ?Hb'; try done; [intros x; unfold flag; by rewrite HG.. |].
    apply (timers_other st e _ st1 C); rewrite ?Hb; try done; by flags.
  - apply (maps_same st' _ (set_ins (inserted st) e false)); try done.
    intros x. rewrite <- Hins1. unfold inserted, flag. by rewrite HG.
  - apply (counts_ext st1); rewrite ?Hb'; try done; [intros x; by rewrite HG..|].
    apply (counts_remove st e EVLIST_INSERTED st1); rewrite ?Hb; try done; [constructor|].
    change (c_int (has EVLIST_INSERTED (Z.lor EVLIST_ACTIVE EVLIST_ACTIVE_LATER))) with 0. cbn. lia.
Qed.

(** ** Adding. *)

(** No allocation fails, or no common timeout exists.  [event_queue_insert_timeout]
    ignores a failing [min_heap_push_], and an event that moves from a common
    list to the heap has no slot reserved: without this the invariant breaks. *)
Definition push_safe st : Prop :=
  (forall b, mm_ok b = true) \/ common_timeout_queues (base st) = [].
Definition hp st : min_heap := timeheap (base st).

Lemma not_common st tv : common_timeout_queues (base st) = [] -> is_common_timeout st tv = false.
Proof.
  intros Hc. unfold is_common_timeout, n_common_timeouts. rewrite Hc. case_if; [done|]. cbn.
  apply Z.ltb_ge, Z.shiftr_nonneg, Z.land_nonneg. right. done.
Qed.
Lemma push_safe_len st st' : length (common_timeout_queues (base st')) = length (common_timeout_queues (base st)) ->
  push_safe st -> push_safe st'.
Proof. intros Hl [?|Hc]; [by left | right]. apply nil_length_inv. by rewrite Hl, Hc. Qed.

Lemma abort_signal_view st e : same_view st (abort_signal_loop st e).
Proof. unfold abort_signal_loop. case_if; [|reflexivity]. apply view_upd_base. intros b. by repeat split. Qed.
Lemma gettime_view st : same_view st (gettime st).2.
Proof.
  unfold gettime. case_if; [reflexivity|]. cbv zeta. case_if; [|reflexivity].
  apply view_upd_base. intros b. by repeat split.
Qed.

Lemma gettime_get st x : get (gettime st).2 x = get st x.
Proof. unfold gettime. case_if; [done|]. cbv zeta. by case_if. Qed.

(** What a step of the addition leaves unchanged. *)
Record add_frame e st st' : Prop := {
  af_timeout : forall x, x <> e -> flag st' x EVLIST_TIMEOUT = flag st x EVLIST_TIMEOUT;
  af_inserted : forall x, inserted st' x = inserted st x;
  af_common : length (common_timeout_queues (base st')) = length (common_timeout_queues (base st))
}.
#[export] Instance add_frame_preorder e : PreOrder (add_frame e).
Proof.
  split; [done|]. intros a b c [HT HI HC] [HT' HI' HC'].
  split; [intros x ?; by rewrite HT', HT | intros x; by rewrite HI' | by rewrite HC'].
Qed.
Lemma add_frame_view e st st' : same_view st st' -> add_frame e st st'.
Proof.
  intros [HE HB]. split.
  - intros x _. unfold flag. by rewrite (proj1 (HE x)).
  - intros x. unfold inserted, flag. by rewrite (proj1 (HE x)).
  - by rewrite (proj1 (proj2 (proj2 (proj2 (proj2 HB))))).
Qed.

Lemma add_frame_changed e fl st st' : changed_idx st e (with_flags fl) st' ->
  has fl EVLIST_INSERTED = flag st e EVLIST_INSERTED ->
  length (common_timeout_queues (base st')) = length (common_timeout_queues (base st)) -> add_frame e st st'.
Proof.
  intros C Hf Hl. split; [|intros x; by apply (inserted_changed _ _ _ _ _ C) | done].
  intros x Hx. by rewrite (changed_idx_flag _ _ _ _ _ _ C), decide_False.
Qed.

Lemma drop_timeout_ok st e st' : base_wf st -> push_safe st ->
  (flag st e EVLIST_TIMEOUT = false -> heap_n (hp st) < heap_a (hp st)) ->
  (if flag st e EVLIST_TIMEOUT then event_queue_remove_timeout st e else Some st) = Some st' ->
  base_wf st' /\ add_frame e st st' /\ flag st' e EVLIST_TIMEOUT = false /\
  (heap_n (hp st') < heap_a (hp st') \/ forall b, mm_ok b = true).
Proof.
  intros W S Hres R. destruct (flag st e EVLIST_TIMEOUT) eqn:Hf.
  - pose proof (remove_timeout_wf _ _ _ R W) as W'.
    destruct (remove_timeout_timers _ _ _ R (wf_timers _ W)) as (_ & _ & Hroom).
    destruct (remove_timeout_run _ _ _ R) as (_ & C & _ & Hl & _).
    split_and!; [done | apply (add_frame_changed _ _ _ _ C); [by flags | done] | | ].
    + rewrite (changed_idx_flag _ _ _ _ _ _ C), decide_True by done. by flags.
    + destruct S as [?|Hc]; [by right | left]. apply Hroom. by apply not_common.
  - inv_opt. split_and!; [done | reflexivity | done | left; auto].
Qed.

Lemma drop_active_ok st e st' : base_wf st ->
  (if flag st e EVLIST_ACTIVE && has (ev_res (get st e)) EV_TIMEOUT then
     event_queue_remove_active (if has (ev_events (get st e)) EV_SIGNAL then abort_signal_loop st e else st) e
   else Some st) = Some st' ->
  base_wf st' /\ add_frame e st st' /\ flag st' e EVLIST_TIMEOUT = flag st e EVLIST_TIMEOUT /\ hp st' = hp st.
Proof.
  intros W R. destruct (_ && _); [|inv_opt; split_and!; [done | reflexivity | done..]].
  set (st1 := if has (ev_events (get st e)) EV_SIGNAL then abort_signal_loop st e else st) in *.
  assert (V : same_view st st1) by (subst st1; case_if; [apply abort_signal_view | reflexivity]).
  assert (W1 : base_wf st1) by (by rewrite <- V).
  destruct (remove_active_run _ _ _ R) as (_ & C%changed_weaken & Hb).
  split_and!.
  - by eapply remove_active_wf.
  - etrans; [by apply add_frame_view|]. apply (add_frame_changed _ _ _ _ C); [by flags | by rewrite Hb].
  - rewrite (changed_idx_flag _ _ _ _ _ _ C), decide_True by done. flags.
    unfold flag. by rewrite (proj1 (proj1 V e)).
  - unfold hp. rewrite Hb. cbn. apply V.
Qed.

Lemma add_timeout_ok st e tv abs c st' : base_wf st -> push_safe st -> (e < max_events)%nat ->
  (flag st e EVLIST_TIMEOUT = false -> heap_n (hp st) < heap_a (hp st)) ->
  event_add_timeout st e tv abs = Some (c, st') ->
  base_wf st' /\ add_frame e st st' /\ flag st' e EVLIST_TIMEOUT = true /\ c = is_common_timeout st tv.
Proof.
  intros W S Hmax Hres R. unfold event_add_timeout in R. cbv zeta in R.
  set (st0 := if _ : bool then upd st e _ else st) in R.
  assert (V0 : same_view st st0).
  { subst st0. case_if; [|reflexivity]. apply view_upd. intros ev. by repeat split. }
  assert (W0 : base_wf st0) by (by rewrite <- V0).
  pose proof (add_frame_view e _ _ V0) as F0.
  assert (Hhp0 : hp st0 = hp st) by (unfold hp; apply V0).
  assert (Hf0 : flag st0 e EVLIST_TIMEOUT = flag st e EVLIST_TIMEOUT) by (unfold flag; by rewrite (proj1 (proj1 V0 e))).
  bind_in R st1 E1.
  destruct (drop_timeout_ok st0 e st1 W0 (push_safe_len _ _ (af_common _ _ _ F0) S) ltac:(rewrite Hhp0, Hf0; done) E1)
    as (W1 & F1 & Hf1 & Hr1).
  bind_in R st2 E2. destruct (drop_active_ok st1 e st2 W1 E2) as (W2 & F2 & Hf2 & Hhp2).
  pose proof (gettime_view st2) as V3. destruct (gettime st2) as [now st3]. cbn [snd] in V3.
  assert (W3 : base_wf st3) by (by rewrite <- V3).
  assert (Hf3 : flag st3 e EVLIST_TIMEOUT = false) by (unfold flag; rewrite (proj1 (proj1 V3 e)); by rewrite <- Hf1, <- Hf2).
  set (st4 := upd st3 e _) in R.
  assert (W4 : base_wf st4) by (by apply wf_set_timeout).
  assert (F4 : add_frame e st3 st4).
  { split; [| |done]; intros x; unfold inserted, flag, st4; rewrite get_upd; case_decide; by subst. }
  assert (F : add_frame e st st4).
  { etrans; [exact F0|]. etrans; [exact F1|]. etrans; [exact F2|]. etrans; [by apply add_frame_view | exact F4]. }
  assert (Hhp4 : hp st4 = hp st1) by (unfold hp in *; cbn; rewrite <- Hhp2; apply V3).
  assert (Hf4 : flag st4 e EVLIST_TIMEOUT = false) by (unfold flag, st4; by rewrite get_upd_eq).
  bind_in R st5 E5. injection R as <- <-.
  assert (Hroom : heap_room st4).
  { unfold heap_room. fold (hp st4). by rewrite Hhp4. }
  destruct (insert_timeout_run _ _ _ E5) as (_ & C & _ & Hl & _).
  split_and!.
  - eapply insert_timeout_wf; [exact E5 | done | done | done].
  - etrans; [exact F|]. apply (add_frame_changed _ _ _ _ C); [by flags | done].
  - rewrite (changed_idx_flag _ _ _ _ _ _ C), decide_True by done. by flags.
  - apply is_common_ext. transitivity (length (common_timeout_queues (base st4))); [done | apply F].
Qed.

Lemma wf_reserve st k r h : base_wf st -> k < 2 ^ 31 ->
  min_heap_reserve_ mm_ok (hp st) k = (r, h) ->
  base_wf (upd_base st (fun b => {| b with timeheap := h |})) /\
  heap_n h = heap_n (hp st) /\ (r = 0 /\ k <= heap_a h \/ r = -1 /\ h = hp st).
Proof.
  intros [F Q T M N] Hk R. pose proof (reserve_ok mm_ok (hp st) st k (to_heap _ T) Hk) as P. rewrite R in P.
  assert (HW : heap_wf h st /\ heap_n h = heap_n (hp st) /\
    (forall i, 0 <= i < heap_n (hp st) -> p_get (heap_p h) i = p_get (heap_p (hp st)) i) /\
    (r = 0 /\ k <= heap_a h \/ r = -1 /\ h = hp st)).
  { destruct P as [(-> & W & Hn & Ha & Hg) | (-> & -> & _)]; [split_and!; auto|].
    split_and!; [apply T | done | done | by right]. }
  destruct HW as (W & Hn & Hg & Hr). split_and!; [|done|done].
  assert (Hin : forall x, in_heap h x <-> in_heap (hp st) x).
  { intros x. unfold in_heap. rewrite Hn. split; intros (i & Hi & <-); exists i; by rewrite Hg. }
  split.
  - by apply (flags_ext st).
  - by apply (queues_ext st).
  - split; cbn.
    + by eapply heap_wf_ext; [| |exact W].
    + intros x. rewrite Hin. apply T.
    + intros i ctl Hi. by apply T.
    + intros x. apply T.
    + apply T.
  - by apply (maps_same st _ (inserted st)).
  - by apply (counts_ext st).
Qed.

(** The outcome of an addition. *)
Record added st e (tv : option timeval) (r : Z) st' : Prop := {
  ad_result : r = -1 \/ r = 0;
  ad_failed : r = -1 -> forall x, get st' x = get st x;
  ad_inserted : r = 0 -> wants_registration st e = true -> inserted st' e = true;
  ad_inserted_mono : forall x, inserted st x = true -> inserted st' x = true;
  ad_timeout : r = 0 -> is_Some tv -> flag st' e EVLIST_TIMEOUT = true;
  ad_timeout_mono : forall x, flag st x EVLIST_TIMEOUT = true -> flag st' x EVLIST_TIMEOUT = true;
  ad_common : length (common_timeout_queues (base st')) = length (common_timeout_queues (base st))
}.

Lemma registration_flag st e st' x m : registration st e st' -> Z.land EVLIST_INSERTED m = 0 ->
  flag st' x m = flag st x m.
Proof.
  intros ((fl & C & Hfl) & _) Hm. rewrite (changed_flag _ _ _ _ _ _ C). case_decide; [subst; by apply Hfl | done].
Qed.
Lemma registration_inserted st e st' x : registration st e st' -> x <> e -> inserted st' x = inserted st x.
Proof.
  intros ((fl & C & Hfl) & _) Hx. unfold inserted. by rewrite (changed_flag _ _ _ _ _ _ C), decide_False.
Qed.
Lemma registration_base st e st' : registration st e st' -> hp st' = hp st /\
  common_timeout_queues (base st') = common_timeout_queues (base st).
Proof. unfold hp. by intros (_ & _ & _ & bk & io & n & sg & sn & c & m & ->). Qed.

Lemma add_ok fuel st e tv abs r st' : base_wf st -> push_safe st -> (e < max_events)%nat ->
  event_add_nolock_ fuel st e tv abs = Some (r, st') -> base_wf st' /\ added st e tv r st'.
Proof.
  revert st e tv abs r st'. induction fuel as [|fuel IH]; intros st e tv abs r st' W S Hmax R; [done|].
  pose proof (heap_bound _ (wf_timers _ W)) as Hsz. fold (hp st) in Hsz.
  cbn [event_add_nolock_] in R.
  destruct (evutil_assert _) as [[]|]; cbn [mbind option_bind] in R; [|done].
  destruct (flag st e EVLIST_FINALIZING) eqn:Hfin.
  { inv_opt. split; [done|]. split; try done; by left. }
  pose proof (hw_size _ _ (to_heap _ (wf_timers _ W))) as (Hs1 & Hs2 & _). fold (hp st) in Hs1, Hs2.
  destruct (match tv with Some _ => _ | None => _ end) as [rr h] eqn:Hres. fold (hp st) in Hres.
  assert (HR : base_wf (upd_base st (fun b => {| b with timeheap := h |})) /\ heap_n h = heap_n (hp st) /\
    (rr = -1 -> h = hp st) /\
    (rr <> -1 -> is_Some tv -> flag st e EVLIST_TIMEOUT = false -> heap_n h < heap_a h)).
  { assert (Hno : rr = 0 -> h = hp st -> (is_Some tv -> flag st e EVLIST_TIMEOUT = true) ->
      base_wf (upd_base st (fun b => {| b with timeheap := h |})) /\ heap_n h = heap_n (hp st) /\
      (rr = -1 -> h = hp st) /\ (rr <> -1 -> is_Some tv -> flag st e EVLIST_TIMEOUT = false -> heap_n h < heap_a h)).
    { intros -> -> HT. split_and!; [|done..|]; [by apply wf_view with st; [split; [|by repeat split]; intros x; by repeat split|] |].
      intros _ Htv Hf. rewrite HT in Hf; done. }
    destruct tv as [t|]; [|injection Hres as <- <-; apply Hno; try done; by intros [? ?]].
    destruct (flag st e EVLIST_TIMEOUT) eqn:Hf; cbn [negb] in Hres; [injection Hres as <- <-; by apply Hno|].
    unfold min_heap_size_ in Hres. rewrite u32_small in Hres by lia.
    destruct (wf_reserve st (1 + heap_n (hp st)) rr h W ltac:(lia) Hres) as (W1 & Hn & [[-> ?] | [-> ->]]);
      (split_and!; [done | done | done |]); intros; lia. }
  destruct HR as (W1 & Hn & Hback & Hroom).
  destruct (Z.eqb_spec rr (-1)) as [->|Hrr].
  { inv_opt. split; [done|]. split; try done; by left. }
  set (st1 := upd_base st _) in *. cbv zeta in R.
  bind_in R p E. destruct p as [r0 st2].
  destruct (register_ok _ _ _ _ E W1) as (W2 & G & Hr0 & Hfail & Hok).
  destruct (registration_base _ _ _ G) as [Hh2 Hc2].
  assert (Hins2 : forall x, inserted st x = true -> inserted st2 x = true).
  { intros x Hx. destruct (decide (x = e)) as [->|]; [|by rewrite (registration_inserted _ _ _ _ G)].
    destruct Hr0 as [-> | ->]; [unfold inserted, flag; by rewrite Hfail|].
    unfold inserted in *. rewrite Hok by done. change (flag st e EVLIST_INSERTED || wants_registration st1 e = true). by rewrite Hx. }
  assert (HT2 : forall x, flag st2 x EVLIST_TIMEOUT = flag st x EVLIST_TIMEOUT)
    by (intros; by apply (registration_flag _ _ _ _ _ G)).
  assert (Hnew : r0 = 0 -> wants_registration st e = true -> inserted st2 e = true).
  { intros Hz Hw. unfold inserted. rewrite Hok by done.
    change (flag st e EVLIST_INSERTED || wants_registration st e = true). by rewrite Hw, orb_true_r. }
  destruct tv as [tv|].
  2: { injection R as <- <-. split; [done|].
       split; [done | exact Hfail | exact Hnew | exact Hins2 | intros _ [? Hq]; discriminate Hq
              | intros x; by rewrite HT2 | by rewrite Hc2]. }
  destruct (Z.eqb_spec r0 (-1)) as [->|Hr0ne].
  { injection R as <- <-. split; [done|].
    split; [by left | exact Hfail | done | exact Hins2 | done | intros x; by rewrite HT2 | by rewrite Hc2]. }
  assert (r0 = 0) as -> by (destruct Hr0; done).
  bind_in R q E3. destruct q as [c st3].
  assert (S2 : push_safe st2) by (eapply (push_safe_len st); [by rewrite Hc2 | done]).
  assert (Hhp1 : hp st1 = h) by done.
  destruct (add_timeout_ok st2 e tv abs c st3 W2 S2 Hmax) as (W3 & F3 & Hf3 & ->).
  { rewrite HT2, Hh2, Hhp1. intros. apply Hroom; done. }
  { exact E3. }
  assert (A3 : added st e (Some tv) 0 st3).
  { split; [by right | done | | | done | |].
    - intros _ Hw. rewrite (af_inserted _ _ _ F3). auto.
    - intros x Hx. rewrite (af_inserted _ _ _ F3). auto.
    - intros x Hx. destruct (decide (x = e)) as [->|]; [done|]. rewrite (af_timeout _ _ _ F3) by done. by rewrite HT2.
    - rewrite (af_common _ _ _ F3). by rewrite Hc2. }
  destruct (is_common_timeout st2 tv); [|by injection R as <- <-].
  bind_in R ctl E4. case_decide; [|by injection R as <- <-].
  bind_in R q E5. destruct q as [r5 st5]. injection R as <- <-.
  pose proof (to_inner _ (wf_timers _ W3) _ _ E4) as Hin.
  destruct (IH _ _ _ _ _ _ W3 (push_safe_len _ _ (ad_common _ _ _ _ _ A3) S) Hin E5) as [W5 A5].
  split; [done|]. split; [by right | done | | | | |].
  - intros _ Hw. by apply A5, A3.
  - intros x Hx. by apply A5, A3.
  - intros _ Ht. by apply A5, A3.
  - intros x Hx. by apply A5, A3.
  - rewrite (ad_common _ _ _ _ _ A5). apply A3.
Qed.

End Ops.
