(* ===== verification/EventDel.v ===== *)
(** * Deleting and activating events keep the invariant

    Deletion of an event of a well-formed base always completes and leaves the
    event in none of the four places; the activation functions keep the
    invariant. *)
From S2P Require Import Prelude Timeval MinHeap Event EventQueue EvMap EventCore EventInv EventPrims EvMapInv EventOps.

Section Del.
Context {B : Type} `{Eventop B} `{Platform}.
Implicit Types (st : state B) (e x : eid).

(** Events other than [e] keep everything but a heap index; [e] keeps
    everything but its flags and that index. *)
Record only_flags e st st' : Prop := {
  of_other : forall x, x <> e -> exists i, get st' x = {| (get st x) with ev_min_heap_idx := i |};
  of_self : exists fl i, get st' e = {| (get st e) with ev_flags := fl; ev_min_heap_idx := i |}
}.
#[export] Instance only_flags_preorder e : PreOrder (only_flags e).
Proof.
  split.
  - intros st. split.
    + intros x _. exists (ev_min_heap_idx (get st x)). by destruct (get st x).
    + exists (ev_flags (get st e)), (ev_min_heap_idx (get st e)). by destruct (get st e).
  - intros a b c [O1 (f1 & i1 & S1)] [O2 (f2 & i2 & S2)]. split.
    + intros x Hx. destruct (O1 x Hx) as [i Hi], (O2 x Hx) as [j Hj]. exists j. by rewrite Hj, Hi.
    + exists f2, i2. by rewrite S2, S1.
Qed.
Lemma only_flags_changed st e fl st' : changed_idx st e (with_flags fl) st' -> only_flags e st st'.
Proof.
  intros C. split.
  - intros x Hx. destruct (C x) as [i Hi]. exists i. by rewrite Hi, decide_False.
  - destruct (C e) as [i Hi]. exists fl, i. by rewrite Hi, decide_True.
Qed.
Lemma only_flags_same st e st' : (forall x, get st' x = get st x) -> only_flags e st st'.
Proof.
  intros HG. split.
  - intros x _. exists (ev_min_heap_idx (get st x)). rewrite HG. by destruct (get st x).
  - exists (ev_flags (get st e)), (ev_min_heap_idx (get st e)). rewrite HG. by destruct (get st e).
Qed.

(** The numbers of queues and of common timeouts. *)
Definition same_sizes st st' : Prop :=
  length (activequeues (base st')) = length (activequeues (base st)) /\
  length (common_timeout_queues (base st')) = length (common_timeout_queues (base st)).
#[export] Instance same_sizes_preorder : PreOrder same_sizes.
Proof. split; [by split|]. intros a b c [] []. split; congruence. Qed.

(** [st'] is [st] with [e] taken out of the place [p]. *)
Record taken_out st e (p : Z) st' : Prop := {
  tk_wf : base_wf st';
  tk_flags : only_flags e st st';
  tk_sizes : same_sizes st st';
  tk_gone : flag st' e p = false;
  tk_keep : forall m, Z.land p m = 0 -> flag st' e m = flag st e m
}.

Lemma taken_changed st e p st' : changed_idx st e (with_flags (clr_flag (ev_flags (get st e)) p)) st' ->
  base_wf st' -> same_sizes st st' -> taken_out st e p st'.
Proof.
  intros C W Z. split; [done | by eapply only_flags_changed | done | |].
  - rewrite (changed_idx_flag _ _ _ _ _ _ C), decide_True by done. apply has_clr_same.
  - intros m Hm. rewrite (changed_idx_flag _ _ _ _ _ _ C), decide_True by done. by apply has_clr.
Qed.
Lemma taken_refl st e p : base_wf st -> flag st e p = false -> taken_out st e p st.
Proof. intros W Hf. split; [done | by apply only_flags_same | done | done | done]. Qed.

Lemma common_idx_nonneg tv : 0 <= COMMON_TIMEOUT_IDX tv.
Proof. unfold COMMON_TIMEOUT_IDX. apply Z.shiftr_nonneg, Z.land_nonneg. by right. Qed.

Lemma drop_timeout_some st e : base_wf st ->
  exists st', (if flag st e EVLIST_TIMEOUT then event_queue_remove_timeout st e else Some st) = Some st' /\
    taken_out st e EVLIST_TIMEOUT st'.
Proof.
  intros W. destruct (flag st e EVLIST_TIMEOUT) eqn:Hf.
  2: { exists st. split; [done|]. by apply taken_refl. }
  assert (HS : exists st', event_queue_remove_timeout st e = Some st').
  { unfold event_queue_remove_timeout. rewrite Hf. cbn [negb]. cbv zeta. set (st1 := set_flags _ _ _).
    assert (HT1 : ev_timeout (get st1 e) = ev_timeout (get st e)) by (unfold st1, set_flags; by rewrite get_upd_eq).
    rewrite HT1. destruct (is_common_timeout st1 _) eqn:Hc.
    2: { destruct (min_heap_erase_ _ _ _) as [[r s] st2]. by eexists. }
    change (is_common_timeout st (ev_timeout (get st e)) = true) in Hc.
    destruct (get_common_timeout_list st1 (ev_timeout (get st e))) as [ctl|] eqn:Hl; [by eexists|].
    exfalso. unfold get_common_timeout_list in Hl. apply lookup_ge_None in Hl.
    unfold is_common_timeout, n_common_timeouts in Hc. case_if_in Hc; [done|].
    apply Z.ltb_lt in Hc. unfold COMMON_TIMEOUT_IDX in Hl. change (base st1) with (base (DECR_EVENT_COUNT st (ev_flags (get st e)))) in Hl.
    cbn [base common_timeout_queues DECR_EVENT_COUNT upd_base] in Hl.
    pose proof (common_idx_nonneg (ev_timeout (get st e))) as Hnn. unfold COMMON_TIMEOUT_IDX in Hnn. lia. }
  destruct HS as [st' R]. exists st'. split; [done|].
  destruct (remove_timeout_run _ _ _ R) as (_ & C & _ & Hl & h & q & c & m & Hb).
  apply taken_changed; [done | by eapply remove_timeout_wf | split; [by rewrite Hb | done]].
Qed.

Lemma drop_queue_some st e : base_wf st ->
  exists st', (if flag st e EVLIST_ACTIVE then event_queue_remove_active st e
               else if flag st e EVLIST_ACTIVE_LATER then event_queue_remove_active_later st e
               else Some st) = Some st' /\
    base_wf st' /\ only_flags e st st' /\ same_sizes st st' /\
    flag st' e EVLIST_ACTIVE = false /\ flag st' e EVLIST_ACTIVE_LATER = false /\
    forall m, Z.land (Z.lor EVLIST_ACTIVE EVLIST_ACTIVE_LATER) m = 0 -> flag st' e m = flag st e m.
Proof.
  intros W.
  assert (Hm : forall m, Z.land (Z.lor EVLIST_ACTIVE EVLIST_ACTIVE_LATER) m = 0 ->
     Z.land EVLIST_ACTIVE m = 0 /\ Z.land EVLIST_ACTIVE_LATER m = 0).
  { intros m Hm. rewrite Z.land_lor_distr_l in Hm. by apply Z.lor_eq_0_iff in Hm. }
  destruct (flag st e EVLIST_ACTIVE) eqn:Hf; [|destruct (flag st e EVLIST_ACTIVE_LATER) eqn:Hl].
  - unfold event_queue_remove_active at 1. rewrite Hf. cbn [negb]. cbv zeta. eexists. split; [done|].
    assert (R : event_queue_remove_active st e = Some _) by (unfold event_queue_remove_active; rewrite Hf; reflexivity).
    pose proof (remove_active_wf _ _ _ R W) as W'.
    destruct (remove_active_run _ _ _ R) as (_ & C%changed_weaken & Hb').
    match type of R with _ = Some ?s => assert (Z : same_sizes st s)
      by (split; rewrite Hb'; cbn; rewrite ?arr_set_length; done) end.
    destruct (taken_changed _ _ _ _ C W' Z) as [_ F _ G K].
    split_and!; [done | done | done | done | | intros m Hmm; by apply K, Hm].
    etrans; [by apply K|]. by apply (qo_excl _ (wf_queues _ W)).
  - unfold event_queue_remove_active_later at 1. rewrite Hl. cbn [negb]. cbv zeta. eexists. split; [done|].
    assert (R : event_queue_remove_active_later st e = Some _) by (unfold event_queue_remove_active_later; rewrite Hl; reflexivity).
    pose proof (remove_later_wf _ _ _ R W) as W'.
    destruct (remove_later_run _ _ _ R) as (_ & C%changed_weaken & Hb').
    match type of R with _ = Some ?s => assert (Z : same_sizes st s)
      by (split; rewrite Hb'; cbn; rewrite ?arr_set_length; done) end.
    destruct (taken_changed _ _ _ _ C W' Z) as [_ F _ G K].
    split_and!; [done | done | done | | done | intros m Hmm; by apply K, Hm].
    etrans; [by apply K|]. done.
  - exists st. by split_and!.
Qed.

(** Nothing but [e]'s flags changed, and [e] is in no place. *)
Definition detached st e : Prop :=
  flag st e EVLIST_TIMEOUT = false /\ flag st e EVLIST_ACTIVE = false /\
  flag st e EVLIST_ACTIVE_LATER = false /\ flag st e EVLIST_INSERTED = false.

Lemma of_field {T} (g : event -> T) st e st' :
  only_flags e st st' -> (forall ev fl i, g {| ev with ev_flags := fl; ev_min_heap_idx := i |} = g ev) ->
  forall x, g (get st' x) = g (get st x).
Proof.
  intros [O (fl & i & S)] Hg x. destruct (decide (x = e)) as [->|Hx]; [by rewrite S|].
  destruct (O x Hx) as [j ->]. apply (Hg (get st x) (ev_flags (get st x)) j).
Qed.

Lemma del_ok st e blocking : base_wf st -> ev_base (get st e) = true ->
  blocking = EVENT_DEL_EVEN_IF_FINALIZING \/ flag st e EVLIST_FINALIZING = false ->
  exists r st', event_del_nolock_ st e blocking = Some (r, st') /\
    base_wf st' /\ only_flags e st st' /\ same_sizes st st' /\ detached st' e /\ (r = 0 \/ r = -1) /\
    forall m, Z.land (Z.lor (Z.lor EVLIST_TIMEOUT EVLIST_INSERTED) (Z.lor EVLIST_ACTIVE EVLIST_ACTIVE_LATER)) m = 0 ->
      flag st' e m = flag st e m.
Proof.
  intros W Hb Hfin. unfold event_del_nolock_. rewrite Hb. cbn [negb].
  assert (Hg : negb (blocking =? EVENT_DEL_EVEN_IF_FINALIZING) && flag st e EVLIST_FINALIZING = false).
  { destruct Hfin as [-> | ->]; [by rewrite Z.eqb_refl | apply andb_false_r]. }
  rewrite Hg. rewrite (fo_all _ (wf_flags _ W) e). cbn [c_true Z.eqb negb evutil_assert mbind option_bind]. cbv zeta.
  set (st0 := if has _ EV_SIGNAL then _ else st).
  assert (HG0 : forall x, get st0 x = get st x).
  { intros x. subst st0. case_if; [|done]. unfold abort_signal_loop. by case_if. }
  assert (W0 : base_wf st0).
  { subst st0. case_if; [|done]. by rewrite <- abort_signal_view. }
  assert (Z0 : same_sizes st st0).
  { subst st0. case_if; [|done]. unfold abort_signal_loop. by case_if. }
  assert (HF0 : forall m, flag st0 e m = flag st e m) by (intros; unfold flag; by rewrite HG0).
  destruct (drop_timeout_some st0 e W0) as (st1 & -> & [W1 O1 Z1 G1 K1]). cbn [mbind option_bind].
  destruct (drop_queue_some st1 e W1) as (st2 & -> & W2 & O2 & Z2 & GA2 & GL2 & K2). cbn [mbind option_bind].
  assert (O02 : only_flags e st st2).
  { etrans; [by apply only_flags_same|]. etrans; [exact O1 | exact O2]. }
  assert (Z02 : same_sizes st st2) by (etrans; [exact Z0|]; etrans; [exact Z1 | exact Z2]).
  assert (GT2 : flag st2 e EVLIST_TIMEOUT = false) by (by rewrite K2).
  assert (K02 : forall m, Z.land (Z.lor (Z.lor EVLIST_TIMEOUT EVLIST_INSERTED) (Z.lor EVLIST_ACTIVE EVLIST_ACTIVE_LATER)) m = 0 ->
    flag st2 e m = flag st e m /\ Z.land EVLIST_INSERTED m = 0).
  { intros m Hm. rewrite !Z.land_lor_distr_l, !Z.lor_eq_0_iff in Hm. destruct Hm as [[? ?] [? ?]].
    split; [|done]. rewrite K2, K1; [done..|]. by rewrite Z.land_lor_distr_l, Z.lor_eq_0_iff. }
  destruct (flag st2 e EVLIST_INSERTED) eqn:Hins.
  2: { exists 0, st2. split_and!; [done | done | done | done | done | by left |]. intros m Hm. by apply K02. }
  assert (HS : exists st3, event_queue_remove_inserted st2 e = Some st3)
    by (unfold event_queue_remove_inserted; rewrite Hins; by eexists).
  destruct HS as [st3 R3]. rewrite R3. cbn [mbind option_bind].
  destruct (unregister_ok _ _ _ W2 R3) as (r & st4 & -> & W4 & M4 & Hr). cbn [mbind option_bind].
  destruct (remove_inserted_run _ _ _ R3) as (_ & C3%changed_weaken & Hb3).
  assert (HG4 : forall x, get st4 x = get st3 x) by (intros; by apply maps_only_get).
  assert (HF4 : forall m, flag st4 e m = has (clr_flag (ev_flags (get st2 e)) EVLIST_INSERTED) m).
  { intros m. unfold flag at 1. rewrite HG4. change (flag st3 e m = has (clr_flag (ev_flags (get st2 e)) EVLIST_INSERTED) m).
    by rewrite (changed_idx_flag _ _ _ _ _ _ C3), decide_True. }
  assert (Z4 : same_sizes st2 st4).
  { destruct M4 as (_ & _ & _ & bk & io & n & sg & sn & Hb4). split; by rewrite Hb4, Hb3. }
  do 2 eexists. split_and!; [done | done | | by etrans | | | ].
  - etrans; [exact O02|]. etrans; [by eapply only_flags_changed | by apply only_flags_same].
  - unfold detached. rewrite !HF4. flags. unfold flag in *. done.
  - destruct Hr as [-> | [-> | ->]]; cbn; auto.
  - intros m Hm. destruct (K02 m Hm) as [<- Hi]. rewrite HF4, has_clr by done. done.
Qed.

(** With the event in no place, it is in no queue, list, heap or map. *)
Lemma detached_nowhere st e : base_wf st -> detached st e ->
  (forall i, 0 <= i < nactivequeues st -> e ∉ queue_at (activequeues (base st)) i) /\
  e ∉ active_later_queue (base st) /\ ~ in_heap (timeheap (base st)) e /\
  (forall i ctl, common_timeout_queues (base st) !! i = Some ctl -> e ∉ ctl_events ctl) /\
  (forall fd ctx, io_entries (base st) !! fd = Some ctx -> e ∉ io_events ctx) /\
  (forall sig l, sigmap_entries (base st) !! sig = Some l -> e ∉ l).
Proof.
  intros [F Q T M N] (DT & DA & DL & DI). split_and!.
  - intros i Hi He. apply (qo_queue _ Q i Hi) in He as [? _]. congruence.
  - intros He. apply (qo_later _ Q) in He. congruence.
  - intros He. apply (to_in_heap _ T) in He as [? _]. congruence.
  - intros i ctl Hi He. destruct (to_common _ T i ctl Hi) as [[_ Mm] _]. apply Mm in He as [? _]. congruence.
  - intros fd ctx Hl He. apply (io_mem _ _ _ _ (mo_io _ _ M fd ctx Hl)) in He as [He _]. unfold inserted in He. congruence.
  - intros sig l Hl He. apply (mo_sig _ _ M sig l Hl) in He as [He _]. unfold inserted in He. congruence.
Qed.
End Del.

(** * Activation, cancellation and the remaining operations keep the invariant *)
Section Activate.
Context {B : Type} `{Eventop B} `{Platform}.
Implicit Types (st : state B) (e x : eid).

(** The switch on [evcb_flags & (EVLIST_ACTIVE|EVLIST_ACTIVE_LATER)]. *)
Lemma active_switch st e :
  let m := Z.land (ev_flags (get st e)) (Z.lor EVLIST_ACTIVE EVLIST_ACTIVE_LATER) in
  match flag st e EVLIST_ACTIVE, flag st e EVLIST_ACTIVE_LATER with
  | true, true => m = Z.lor EVLIST_ACTIVE EVLIST_ACTIVE_LATER
  | true, false => m = EVLIST_ACTIVE
  | false, true => m = EVLIST_ACTIVE_LATER
  | false, false => m = 0
  end.
Proof.
  cbv zeta. unfold flag. set (fl := ev_flags (get st e)). unfold EVLIST_ACTIVE, EVLIST_ACTIVE_LATER.
  change 8 with (2 ^ 3). change 32 with (2 ^ 5). rewrite !has_pow2 by lia.
  assert (Hb : forall n, 0 <= n -> Z.land fl (2 ^ n) = if Z.testbit fl n then 2 ^ n else 0).
  { intros n Hn. apply Z.bits_inj'. intros k Hk. rewrite Z.land_spec, Z.pow2_bits_eqb by done.
    destruct (Z.eqb_spec n k) as [<-|Hne].
    - rewrite andb_true_r. destruct (Z.testbit fl n); [by rewrite Z.pow2_bits_true | by rewrite Z.bits_0].
    - rewrite andb_false_r. destruct (Z.testbit fl n); [by rewrite Z.pow2_bits_false | by rewrite Z.bits_0]. }
  rewrite Z.land_lor_distr_r, !Hb by lia. by destruct (Z.testbit fl 3), (Z.testbit fl 5).
Qed.

Lemma remove_later_clears st e st' : event_queue_remove_active_later st e = Some st' ->
  flag st' e EVLIST_ACTIVE_LATER = false /\ flag st' e EVLIST_ACTIVE = flag st e EVLIST_ACTIVE.
Proof.
  intros (_ & C%changed_weaken & _)%remove_later_run.
  rewrite !(changed_idx_flag _ _ _ _ _ _ C), !decide_True by done. split; by flags.
Qed.

Lemma callback_activate_wf st e r st' :
  event_callback_activate_nolock_ st e = Some (r, st') -> base_wf st -> base_wf st'.
Proof.
  intros R W. unfold event_callback_activate_nolock_ in R.
  case_if_in R; [by inv_opt|]. cbv zeta in R. pose proof (active_switch st e) as Hm. cbv zeta in Hm.
  set (m := Z.land _ _) in *. clearbody m.
  destruct (flag st e EVLIST_ACTIVE) eqn:HA, (flag st e EVLIST_ACTIVE_LATER) eqn:HL; subst m;
    cbn [Z.eqb Pos.eqb EVLIST_ACTIVE EVLIST_ACTIVE_LATER mbind option_bind] in R.
  - by vm_compute in R.
  - by injection R as _ <-.
  - bind_in R p E1. destruct p as [r1 st1]. bind_in E1 st2 E2. injection E1 as <- <-.
    destruct (remove_later_clears _ _ _ E2) as [HL' HA'].
    bind_in R st3 E3. injection R as _ <-.
    eapply insert_active_wf; [exact E3 | done | by eapply remove_later_wf].
  - bind_in R st3 E3. injection R as _ <-.
    by eapply insert_active_wf.
Qed.

Lemma active_wf st e res n st' : event_active_nolock_ st e res n = Some st' -> base_wf st -> base_wf st'.
Proof.
  intros R W. unfold event_active_nolock_ in R. case_if_in R; [by inv_opt|]. cbv zeta in R.
  set (m := Z.land _ _) in R.
  destruct (m =? EVLIST_ACTIVE).
  { injection R as <-. apply wf_upd; [intros ev; by repeat split | done]. }
  bind_in R st1 E1.
  assert (W1 : base_wf st1).
  { destruct (m =? EVLIST_ACTIVE_LATER); [|destruct (m =? 0); [|discriminate E1]];
      injection E1 as <-; (apply wf_upd; [intros ev; by repeat split | done]). }
  set (st2 := if _ : bool then upd_base st1 _ else st1) in R.
  assert (W2 : base_wf st2) by (subst st2; case_if; [apply wf_upd_base; [intros b; by repeat split | done] | done]).
  set (st3 := if _ : bool then upd st2 e _ else st2) in R.
  assert (W3 : base_wf st3) by (subst st3; case_if; [apply wf_upd; [intros ev; by repeat split | done] | done]).
  bind_in R p E4. destruct p as [r st4]. injection R as <-. by eapply callback_activate_wf.
Qed.

Lemma activate_later_wf st e r st' :
  event_callback_activate_later_nolock_ st e = Some (r, st') -> base_wf st -> base_wf st'.
Proof.
  intros R W. unfold event_callback_activate_later_nolock_ in R. case_if_in R; [by inv_opt|].
  bind_in R st1 E1. injection R as _ <-. by eapply insert_later_wf.
Qed.

Lemma active_later_wf st e res st' : event_active_later_nolock_ st e res = Some st' -> base_wf st -> base_wf st'.
Proof.
  intros R W. unfold event_active_later_nolock_ in R. case_if_in R.
  - injection R as <-. apply wf_upd; [intros ev; by repeat split | done].
  - cbv zeta in R. bind_in R p E1. destruct p as [r st1]. injection R as <-.
    eapply activate_later_wf; [exact E1|]. apply wf_upd; [intros ev; by repeat split | done].
Qed.

(** Deletion, when it is known to have run. *)
Lemma del_wf st e b r st' : event_del_nolock_ st e b = Some (r, st') -> base_wf st -> base_wf st'.
Proof.
  intros R W. destruct (ev_base (get st e)) eqn:Hb.
  2: { unfold event_del_nolock_ in R. rewrite Hb in R. by injection R as _ <-. }
  destruct (decide (b = EVENT_DEL_EVEN_IF_FINALIZING \/ flag st e EVLIST_FINALIZING = false)) as [Hf|Hf].
  - destruct (del_ok st e b W Hb Hf) as (r' & st1 & R' & W' & _). rewrite R in R'. by injection R' as _ ->.
  - unfold event_del_nolock_ in R. rewrite Hb in R. cbn [negb] in R.
    destruct (Z.eqb_spec b EVENT_DEL_EVEN_IF_FINALIZING) as [->|]; [tauto|].
    destruct (flag st e EVLIST_FINALIZING) eqn:Hfin; [|tauto]. cbn in R. by injection R as _ <-.
Qed.

Lemma cancel_wf st e f r st' :
  event_callback_cancel_nolock_ st e f = Some (r, st') -> base_wf st -> base_wf st'.
Proof.
  intros R W. unfold event_callback_cancel_nolock_ in R. case_if_in R; [by inv_opt|].
  case_if_in R; [by eapply del_wf|]. cbv zeta in R. set (m := Z.land _ _) in R.
  destruct (m =? EVLIST_ACTIVE); [bind_in R st1 E1; injection R as _ <-; by eapply remove_active_wf|].
  destruct (m =? EVLIST_ACTIVE_LATER); [bind_in R st1 E1; injection R as _ <-; by eapply remove_later_wf|].
  destruct (m =? 0); [|discriminate R]. by injection R as _ <-.
Qed.

Lemma deferred_schedule_wf st e r st' :
  event_deferred_cb_schedule_ st e = Some (r, st') -> base_wf st -> base_wf st'.
Proof.
  intros R W. unfold event_deferred_cb_schedule_ in R. case_if_in R; [by eapply activate_later_wf|].
  bind_in R p E1. destruct p as [r1 st1]. injection R as _ <-.
  pose proof (callback_activate_wf _ _ _ _ E1 W).
  case_if; [apply wf_upd_base; [intros b; by repeat split | done] | done].
Qed.

(** Setting a flag that is in no place and not [EVLIST_INTERNAL]. *)
Lemma wf_set_finalizing st e : base_wf st ->
  base_wf (set_flags st e (set_flag (ev_flags (get st e)) EVLIST_FINALIZING)).
Proof.
  intros W. destruct W as [F Q T M N]. set (st' := set_flags _ _ _).
  assert (C : changed st e (with_flags (set_flag (ev_flags (get st e)) EVLIST_FINALIZING)) st')
    by (intros x; unfold st', set_flags; by rewrite get_upd).
  pose proof (changed_weaken _ _ _ _ C) as Ci.
  split.
  - apply (flags_changed _ _ _ _ Ci); [all_flags F | by flags | done].
  - apply (queues_other st e _ st' Ci); try done; by flags.
  - apply (timers_other st e _ st' C); try done; by flags.
  - apply (maps_changed st e _ st' Ci); try done; by flags.
  - apply (counts_ext st); try done; intros x; rewrite (changed_idx_flags _ _ _ _ _ Ci); case_decide;
      subst; try done; unfold weight, active_weight; by flags.
Qed.

Lemma finalize_wf st fl e cb r st' : event_finalize_nolock_ st fl e cb = Some (r, st') -> base_wf st -> base_wf st'.
Proof.
  intros R W. unfold event_finalize_nolock_ in R. cbv zeta in R.
  bind_in R p E1. destruct p as [r1 st1]. pose proof (del_wf _ _ _ _ _ E1 W) as W1.
  bind_in R st2 E2. injection R as _ <-. apply wf_set_finalizing. eapply active_wf; [exact E2|].
  apply wf_upd; [intros ev; by repeat split | done].
Qed.

Lemma callback_finalize_wf st e cb st' : event_callback_finalize_nolock_ st e cb = Some st' -> base_wf st -> base_wf st'.
Proof.
  intros R W. unfold event_callback_finalize_nolock_ in R.
  bind_in R p E1. destruct p as [r1 st1].
  assert (W1 : base_wf st1) by (destruct (flag st e EVLIST_INIT); [by eapply del_wf | by eapply cancel_wf]).
  cbv zeta in R. bind_in R q E2. destruct q as [r2 st2]. injection R as <-. apply wf_set_finalizing.
  eapply callback_activate_wf; [exact E2|]. apply wf_upd; [intros ev; by repeat split | done].
Qed.

Lemma remove_timer_wf st e r st' : event_remove_timer st e = Some (r, st') -> base_wf st -> base_wf st'.
Proof.
  intros R W. unfold event_remove_timer, event_remove_timer_nolock_ in R.
  case_if_in R; [by inv_opt|]. case_if_in R; [|by inv_opt]. bind_in R st1 E1. injection R as _ <-.
  apply wf_upd; [intros ev; by repeat split|]. by eapply remove_timeout_wf.
Qed.

(** A change of priority of an event that is not active. *)
Lemma wf_set_pri st e p : flag st e EVLIST_ACTIVE = false -> 0 <= p -> base_wf st ->
  base_wf (upd st e (fun ev => {| ev with ev_pri := p |})).
Proof.
  intros HA Hp [F Q T M N]. set (st' := upd _ _ _).
  assert (HF : forall x, ev_flags (get st' x) = ev_flags (get st x))
    by (intros x; unfold st'; rewrite get_upd; case_decide; by subst).
  assert (Hfl : forall x m, flag st' x m = flag st x m) by (intros; unfold flag; by rewrite HF).
  split.
  - by apply (flags_ext st).
  - split.
    + intros i Hi. eapply mem_ok_iff; [|by apply Q]. intros x. cbn. rewrite Hfl.
      unfold st'. rewrite get_upd. case_decide; [subst; rewrite HA; naive_solver | done].
    + intros x. rewrite Hfl. unfold st'. rewrite get_upd. case_decide; [subst; congruence | apply Q].
    + intros x. unfold st'. rewrite get_upd. case_decide; [done | apply Q].
    + eapply mem_ok_iff; [|apply Q]. intros x. cbn. by rewrite Hfl.
    + intros x. rewrite !Hfl. apply Q.
  - apply (timers_ext st); try done; intros x; unfold st'; rewrite get_upd; case_decide; by subst.
  - apply (maps_same st _ (inserted st)); try done; intros x; [apply Hfl | unfold st'; rewrite get_upd; case_decide; by subst..].
  - apply (counts_ext st); try done; intros x; by rewrite HF.
Qed.

Lemma priority_set_wf st e p : base_wf st -> base_wf (event_priority_set st e p).2.
Proof.
  intros W. unfold event_priority_set. case_if; [done|]. case_if; [done|]. cbn.
  apply wf_set_pri; [done | unfold u8; lia | done].
Qed.

(** ** Activation by the maps. *)
Lemma io_active_loop_wf l st evs st' : evmap_io_active_loop l st evs = Some st' -> base_wf st -> base_wf st'.
Proof.
  revert st. induction l as [|e l IH]; intros st R W; cbn [evmap_io_active_loop] in R; [by inv_opt|].
  bind_in R st1 E1. apply (IH st1 R). case_if_in E1; [by eapply active_wf | by injection E1 as <-].
Qed.
Lemma io_active_wf st fd evs st' : evmap_io_active_ st fd evs = Some st' -> base_wf st -> base_wf st'.
Proof.
  intros R W. unfold evmap_io_active_ in R. case_if_in R; [by inv_opt|].
  destruct (_ !! _); [by eapply io_active_loop_wf | by inv_opt].
Qed.
Lemma signal_active_loop_wf l st n st' : evmap_signal_active_loop l st n = Some st' -> base_wf st -> base_wf st'.
Proof.
  revert st. induction l as [|e l IH]; intros st R W; cbn [evmap_signal_active_loop] in R; [by inv_opt|].
  bind_in R st1 E1. apply (IH st1 R). by eapply active_wf.
Qed.
Lemma signal_active_wf st s n st' : evmap_signal_active_ st s n = Some st' -> base_wf st -> base_wf st'.
Proof.
  intros R W. unfold evmap_signal_active_ in R. case_if_in R; [by inv_opt|].
  destruct (_ !! _); [by eapply signal_active_loop_wf | by inv_opt].
Qed.

(** ** Moving the later queue. *)

(** One turn of the loop: the head of the later queue becomes active.  The
    event counters do not change, its two bits are swapped. *)
Lemma make_later_step st e q : base_wf st -> active_later_queue (base st) = e :: q ->
  ev_pri (get st e) < nactivequeues st -> forall f, (forall b, same_base (f b) b) ->
  base_wf (upd_base (set_flags (upd_base st (fun b => {| b with active_later_queue := q |})) e
      (set_flag (clr_flag (ev_flags (get st e)) EVLIST_ACTIVE_LATER) EVLIST_ACTIVE))
    (fun b => f {| b with activequeues := arr_set (activequeues b) (ev_pri (get st e))
                       (queue_at (activequeues b) (ev_pri (get st e)) ++ [e]) |})).
Proof.
  intros [F Q T M N] Hq Hp f Hf. set (fl := set_flag _ _).
  set (st1 := upd_base (set_flags (upd_base st (fun b => {| b with active_later_queue := q |})) e fl)
    (fun b => {| b with activequeues := arr_set (activequeues b) (ev_pri (get st e))
                       (queue_at (activequeues b) (ev_pri (get st e)) ++ [e]) |})).
  assert (HL : flag st e EVLIST_ACTIVE_LATER = true) by (apply (qo_later _ Q); rewrite Hq; set_solver).
  assert (HA : flag st e EVLIST_ACTIVE = false).
  { destruct (flag st e EVLIST_ACTIVE) eqn:HA; [|done]. apply (qo_excl _ Q) in HA. congruence. }
  assert (C : changed st e (with_flags fl) st1) by (intros x; unfold st1, set_flags; rewrite get_upd_base; by rewrite get_upd).
  pose proof (changed_weaken _ _ _ _ C) as Ci. pose proof (qo_pri_nonneg _ Q e).
  assert (W1 : base_wf st1).
  { split.
    - apply (flags_changed _ _ _ _ Ci); [unfold fl; all_flags F | unfold fl; by flags | done].
    - eapply (queues_update st st1 e fl _ Q Hp Ci eq_refl).
      + eapply mem_ok_iff; [|apply mem_ok_snoc; [|apply Q; lia]]; [|cbn; rewrite HA; naive_solver].
        intros x. cbn. rewrite (changed_idx_flag _ _ _ _ _ _ Ci). unfold fl. case_decide; subst; flags; naive_solver.
      + cbn. pose proof (qo_later _ Q) as [ND HM]. rewrite Hq in ND, HM. inversion ND as [|? ? Hni ND']; subst.
        split; [done|]. intros x. rewrite (changed_idx_flag _ _ _ _ _ _ Ci). specialize (HM x). cbn in HM.
        unfold fl. case_decide; subst; flags; [by split | rewrite <- HM; set_solver].
      + intros _. unfold fl. by flags.
    - apply (timers_other st e fl st1 C); try done. unfold fl. by flags.
    - apply (maps_changed st e fl st1 Ci); try done. unfold fl. by flags.
    - apply (counts_changed st e fl st1 Ci); [| |done]; cbn; unfold flag in HA, HL.
      + assert (weight fl = weight (ev_flags (get st e))) as ->; [|lia].
        unfold weight, fl. flags. rewrite HA, HL. destruct (has (ev_flags (get st e)) EVLIST_INTERNAL); cbn; lia.
      + assert (active_weight fl = active_weight (ev_flags (get st e))) as ->; [|lia].
        unfold active_weight, fl. flags. by rewrite HA, HL. }
  change (base_wf (upd_base st1 f)). by apply wf_upd_base.
Qed.

Lemma set_flags_pri st e fl x : ev_pri (get (set_flags st e fl) x) = ev_pri (get st x).
Proof. unfold set_flags. rewrite get_upd. by case_decide; subst. Qed.
Lemma set_flags_closure st e fl x : ev_closure (get (set_flags st e fl) x) = ev_closure (get st x).
Proof. unfold set_flags. rewrite get_upd. by case_decide; subst. Qed.

Lemma make_later_loop_wf q st st' : make_later_active_loop q st = Some st' ->
  active_later_queue (base st) = q -> base_wf st -> base_wf st'.
Proof.
  revert st. induction q as [|e q IH]; intros st R Hq W; cbn [make_later_active_loop] in R; [by inv_opt|].
  cbv zeta in R. rewrite !set_flags_pri, !set_flags_closure in R.
  destruct (evutil_assert _) as [[]|] eqn:Ha; cbn [mbind option_bind] in R; [|discriminate R].
  unfold evutil_assert in Ha. case_if_in Ha; [|discriminate Ha]. apply Z.ltb_lt in E.
  apply (IH _ R); [done|].
  apply (make_later_step st e q W Hq E (fun b => {| b with n_deferreds_queued := n_deferreds_queued b + c_int (ev_closure (get st e) =? EV_CLOSURE_CB_SELF) |})).
  intros b. by repeat split.
Qed.
Lemma make_later_wf st st' : event_queue_make_later_events_active st = Some st' -> base_wf st -> base_wf st'.
Proof. intros R. by apply (make_later_loop_wf _ _ _ R). Qed.
End Activate.
