(* ===== verification/EventLoopInv.v ===== *)
(** * The rest of the API keeps the invariant

    Setting events up, priorities, common timeouts, events scheduled once and
    the pieces of the event loop leave a base well formed. *)
From S2P Require Import Prelude Timeval MinHeap Event EventQueue EvMap EventCore EventLoop EventInv EventPrims EvMapInv EventOps EventDel.

Section LoopInv.
Context {B : Type} `{Eventop B} `{Platform}.
Implicit Types (st : state B) (e x : eid).

(** ** Writing an event that is in no place. *)
Lemma wf_detached st st' e : base_wf st -> detached st e -> detached st' e ->
  (forall x, x <> e -> get st' x = get st x) -> base st' = base st ->
  0 <= ev_pri (get st' e) -> Z.ldiff (ev_flags (get st' e)) EVLIST_ALL = 0 -> (e < max_events)%nat -> base_wf st'.
Proof.
  intros [F Q T M N] (DT & DA & DL & DI) (DT' & DA' & DL' & DI') HG Hb Hp Hall Hmax.
  assert (Hfl : forall x m, x <> e -> flag st' x m = flag st x m) by (intros; unfold flag; by rewrite HG).
  assert (Hnh : ~ in_heap (timeheap (base st)) e) by (intros [? _]%(to_in_heap _ T); congruence).
  assert (Hcase : forall x m, flag st e m = false -> flag st' e m = false -> flag st' x m = flag st x m).
  { intros x m H1 H2. destruct (decide (x = e)) as [->|]; [by rewrite H1, H2 | by apply Hfl]. }
  assert (Hw : forall fl, has fl EVLIST_TIMEOUT = false -> has fl EVLIST_ACTIVE = false ->
     has fl EVLIST_ACTIVE_LATER = false -> has fl EVLIST_INSERTED = false -> weight fl = 0 /\ active_weight fl = 0).
  { intros fl H1 H2 H3 H4. unfold weight, active_weight. rewrite H1, H2, H3, H4.
    by destruct (has fl EVLIST_INTERNAL). }
  split.
  - split; intros x; destruct (decide (x = e)) as [->|Hx]; try done; [rewrite HG by done; apply F |].
    rewrite Hfl by done. apply F.
  - split; unfold nactivequeues; rewrite ?Hb.
    + intros i Hi. eapply mem_ok_iff; [|by apply Q]. intros x. cbn. rewrite (Hcase x EVLIST_ACTIVE) by done.
      destruct (decide (x = e)) as [->|Hx]; [rewrite DA; naive_solver | by rewrite HG].
    + intros x. rewrite (Hcase x EVLIST_ACTIVE) by done. intros Hx.
      rewrite HG by (intros ->; congruence). by apply Q.
    + intros x. destruct (decide (x = e)) as [->|Hx]; [done | rewrite HG by done; apply Q].
    + eapply mem_ok_iff; [|apply Q]. intros x. cbn. by rewrite (Hcase x EVLIST_ACTIVE_LATER).
    + intros x. rewrite (Hcase x EVLIST_ACTIVE), (Hcase x EVLIST_ACTIVE_LATER) by done. apply Q.
  - split; rewrite ?Hb.
    + pose proof (to_heap _ T) as W. split; [apply W | |].
      * intros i Hi. cbn. rewrite HG; [by apply W | intros Heq; apply Hnh; by exists i].
      * intros i Hi. pose proof (par_range i ltac:(lia)). cbn.
        rewrite !HG; [by apply W | intros Heq; apply Hnh; eexists; split; [|exact Heq]; lia..].
    + intros x. rewrite (to_in_heap _ T), (Hcase x EVLIST_TIMEOUT), (is_common_ext st st') by (by rewrite ?Hb).
      destruct (decide (x = e)) as [->|Hx]; [rewrite DT; naive_solver | by rewrite HG].
    + intros i ctl Hi. destruct (to_common _ T i ctl Hi) as [[ND Mm] SS].
      assert (Hne : forall x, x ∈ ctl_events ctl -> x <> e).
      { intros x Hx ->. apply Mm in Hx as [? _]. congruence. }
      split; [split; [done|]|].
      * intros x. rewrite Mm. unfold in_common. rewrite (Hcase x EVLIST_TIMEOUT), (is_common_ext st st') by (by rewrite ?Hb).
        destruct (decide (x = e)) as [->|Hx]; [rewrite DT; naive_solver | by rewrite HG].
      * eapply sorted_ext; [|exact SS]. intros a b Ha Hb'. unfold timeout_order. by rewrite !HG by auto.
    + intros x. rewrite (Hcase x EVLIST_TIMEOUT) by done. apply T.
    + apply T.
  - assert (Hne : forall x, inserted st x = true -> x <> e) by (intros x Hx ->; unfold inserted in Hx; congruence).
    apply (maps_ext st st' (inserted st)); rewrite ?Hb; try done.
    + intros x. unfold inserted. by apply Hcase.
    + intros x Hx. by rewrite HG by auto.
    + intros x Hx. by rewrite HG by auto.
  - apply (counts_ext st); rewrite ?Hb; try done; intros x; (destruct (decide (x = e)) as [->|Hx]; [|by rewrite HG]).
    + destruct (Hw _ DT DA DL DI) as [-> _]. by destruct (Hw _ DT' DA' DL' DI') as [-> _].
    + destruct (Hw _ DT DA DL DI) as [_ ->]. by destruct (Hw _ DT' DA' DL' DI') as [_ ->].
Qed.

(** [event_assign] writes one event and nothing else. *)
Lemma assign_shape st e fd evs cb arg :
  let st' := (event_assign st e fd evs cb arg).2 in
  base st' = base st /\ (forall x, x <> e -> get st' x = get st x) /\
  ev_flags (get st' e) = EVLIST_INIT /\ (0 <= ev_pri (get st e) -> 0 <= ev_pri (get st' e)) /\
  ev_base (get st' e) = true /\ ev_events (get st' e) = evs /\ ev_fd (get st' e) = fd.
Proof.
  cbv zeta. unfold event_assign. cbv zeta.
  assert (Hne : forall (s : state B) f x, x <> e -> get (upd s e f) x = get s x) by (intros; by apply get_upd_ne).
  case_if; [|case_if; [|case_if]]; cbn [snd fst min_heap_elem_init_ set_min_heap_idx state_HeapStore];
    (split; [done|]; split; [intros x Hx; unfold min_heap_elem_init_; cbn; by rewrite !Hne|]);
    unfold min_heap_elem_init_; cbn [set_min_heap_idx state_HeapStore]; rewrite !get_upd_eq; cbn;
    (split; [done|]; split; [|done]); try done; intros _; unfold u8; lia.
Qed.

Lemma assign_wf st e fd evs cb arg : base_wf st -> detached st e -> (e < max_events)%nat ->
  base_wf (event_assign st e fd evs cb arg).2.
Proof.
  intros W D Hmax. destruct (assign_shape st e fd evs cb arg) as (Hb & HG & Hf & Hp & _).
  assert (Hd : detached (event_assign st e fd evs cb arg).2 e) by (unfold detached, flag; rewrite Hf; done).
  apply (wf_detached st _ e); try done; [apply Hp, W | by rewrite Hf].
Qed.

Lemma deferred_init_wf st e p fn arg : base_wf st -> detached st e -> (e < max_events)%nat -> 0 <= p ->
  base_wf (event_deferred_cb_init_ st e p fn arg).
Proof.
  intros W D Hmax Hp. unfold event_deferred_cb_init_.
  apply (wf_detached st _ e); try done; rewrite ?get_upd_eq; try done.
  - unfold detached, flag. rewrite get_upd_eq. done.
  - intros x Hx. by rewrite get_upd_ne.
Qed.

(** ** Configuration. *)
Lemma queue_at_none qs i : ~ (0 <= i < Z.of_nat (length qs)) -> 0 <= i -> queue_at qs i = [].
Proof. intros Hn Hi. unfold queue_at, arr_get. destruct (Z.ltb_spec i (Z.of_nat (length qs))); [lia | done]. Qed.
Lemma queue_at_replicate n i : queue_at (replicate n []) i = [].
Proof.
  unfold queue_at. rewrite arr_get_nth. destruct (nth_lookup_or_length (replicate n ([] : list nat)) (Z.to_nat i) []) as [Hl|Hl].
  - by apply lookup_replicate in Hl as [-> _].
  - by apply nth_overflow.
Qed.

(** Without active callbacks the queues can be replaced by empty ones. *)
Lemma no_active st : counts_ok st -> event_count_active (base st) = 0 ->
  forall x, flag st x EVLIST_ACTIVE = false /\ flag st x EVLIST_ACTIVE_LATER = false.
Proof.
  intros N Hz x. pose proof (co_active _ N) as HT. rewrite Hz in HT.
  assert (Hnn : forall y, 0 <= active_weight (ev_flags (get st y))).
  { intros y. unfold active_weight. destruct (has _ _), (has _ _); cbn; lia. }
  destruct (total_pos _ _ Hnn HT) as [_ Hpos].
  assert (Hx : ~ 0 < active_weight (ev_flags (get st x))) by (intros Hx; specialize (Hpos (ex_intro _ x Hx)); lia).
  unfold active_weight, flag in *. destruct (has _ _), (has _ _); cbn in Hx; lia || done.
Qed.

Lemma priority_init_wf st n r st' : event_base_priority_init st n = (r, st') -> base_wf st -> base_wf st'.
Proof.
  intros R W. unfold event_base_priority_init in R. destruct W as [F Q T M N].
  unfold N_ACTIVE_CALLBACKS, c_true in R. destruct (Z.eqb_spec (event_count_active (base st)) 0) as [Hz|]; cbn [negb orb] in R;
    [|injection R as <- <-; by split].
  case_if_in R; [injection R as <- <-; by split|]. case_if_in R; [injection R as <- <-; by split|]. cbv zeta in R.
  pose proof (no_active _ N Hz) as Hno.
  assert (HW : forall k, base_wf (upd_base st (fun b => {| b with activequeues := replicate k [] |}))).
  { intros k. split; [by apply (flags_ext st) | | by apply (timers_ext st) | by apply (maps_same st _ (inserted st)) | by apply (counts_ext st)].
    split.
    - intros i Hi. cbn. rewrite queue_at_replicate. apply mem_ok_nil. intros x [Hx _].
      change (flag st x EVLIST_ACTIVE = true) in Hx. destruct (Hno x). congruence.
    - intros x Hx. change (flag st x EVLIST_ACTIVE = true) in Hx. destruct (Hno x). congruence.
    - apply Q.
    - apply Q.
    - apply Q. }
  case_if_in R; injection R as <- <-; [apply (HW (Z.to_nat n)) | apply (HW 0%nat)].
Qed.

(** Heap timeouts are ordinary ones: the new list takes none of them. *)
Definition heap_timeouts_norm st : Prop :=
  forall e, flag st e EVLIST_TIMEOUT = true -> is_common_timeout st (ev_timeout (get st e)) = false ->
    tv_norm (ev_timeout (get st e)).

Lemma norm_not_common st tv : tv_norm tv -> is_common_timeout st tv = false.
Proof.
  intros Hn. unfold is_common_timeout. destruct (Z.eqb_spec (Z.land (tv_usec tv) COMMON_TIMEOUT_MASK) COMMON_TIMEOUT_MAGIC) as [E|]; [|done].
  exfalso. unfold tv_norm in Hn. assert (Hz : Z.land (tv_usec tv) COMMON_TIMEOUT_MASK = 0); [|rewrite Hz in E; done].
  assert (Hs : tv_usec tv = Z.land (tv_usec tv) (Z.ones 20)) by (rewrite Z.land_ones by lia; rewrite Z.mod_small; lia).
  rewrite Hs, <- Z.land_assoc. change (Z.land (Z.ones 20) COMMON_TIMEOUT_MASK) with 0. apply Z.land_0_r.
Qed.

Lemma new_common_wf st ctl : base_wf st -> heap_timeouts_norm st -> ctl_events ctl = [] ->
  (ctl_timeout_event ctl < max_events)%nat ->
  base_wf (upd_base st (fun b => {| b with common_timeout_queues := common_timeout_queues b ++ [ctl] |})).
Proof.
  intros [F Q T M N] Hnorm Hemp Hmax. set (st' := upd_base _ _).
  assert (Hic : forall tv, is_common_timeout st tv = true -> is_common_timeout st' tv = true).
  { intros tv. unfold is_common_timeout, n_common_timeouts, st'. case_if; [done|].
    cbn [base upd_base common_timeout_queues]. rewrite length_app. cbn [length].
    intros Hl%Z.ltb_lt. apply Z.ltb_lt. lia. }
  assert (Hsame : forall x, flag st x EVLIST_TIMEOUT = true ->
    is_common_timeout st' (ev_timeout (get st x)) = is_common_timeout st (ev_timeout (get st x))).
  { intros x Hx. destruct (is_common_timeout st (ev_timeout (get st x))) eqn:Hc; [by apply Hic|].
    apply norm_not_common. by apply Hnorm. }
  split; [by apply (flags_ext st) | by apply (queues_ext st) | | by apply (maps_same st _ (inserted st)) | by apply (counts_ext st)].
  split.
  - eapply heap_wf_ext; [| |apply T]; done.
  - intros x. change (in_heap (timeheap (base st)) x <-> flag st x EVLIST_TIMEOUT = true /\ is_common_timeout st' (ev_timeout (get st x)) = false).
    rewrite (to_in_heap _ T). split; intros [Hx ?]; (split; [done|]); [by rewrite Hsame | by rewrite <- Hsame].
  - intros i c Hi. cbn in Hi. apply lookup_app_Some in Hi as [Hi | [Hge Hi]].
    + destruct (to_common _ T i c Hi) as [Mc SS]. split; [|done]. eapply mem_ok_iff; [|exact Mc].
      intros x. unfold in_common. change (flag st' x EVLIST_TIMEOUT) with (flag st x EVLIST_TIMEOUT).
      change (get st' x) with (get st x). split; intros (Hx & Hc & ?); (split_and!; [done | | done]); [by rewrite Hsame | by rewrite <- Hsame].
    + apply list_lookup_singleton_Some in Hi as [Hi <-]. rewrite Hemp. split; [|constructor].
      apply mem_ok_nil. intros x (Hx & Hc & Hidx). change (flag st x EVLIST_TIMEOUT = true) in Hx.
      change (get st' x) with (get st x) in *. rewrite Hsame in Hc by done.
      unfold is_common_timeout in Hc. case_if_in Hc; [done|]. unfold n_common_timeouts in Hc. pose proof (common_idx_nonneg (ev_timeout (get st x))) as Hnn.
      unfold COMMON_TIMEOUT_IDX in Hidx, Hnn. apply Z.ltb_lt in Hc. lia.
  - intros x. apply T.
  - intros i c Hi. cbn in Hi. apply lookup_app_Some in Hi as [Hi | [Hge Hi]]; [by apply (to_inner _ T i)|].
    by apply list_lookup_singleton_Some in Hi as [_ <-].
Qed.
Lemma detached_set_flags st e fl : base_wf st -> detached st e -> (e < max_events)%nat ->
  Z.ldiff fl EVLIST_ALL = 0 ->
  has fl EVLIST_TIMEOUT = false -> has fl EVLIST_ACTIVE = false ->
  has fl EVLIST_ACTIVE_LATER = false -> has fl EVLIST_INSERTED = false -> base_wf (set_flags st e fl).
Proof.
  intros W D Hmax Hall H1 H2 H3 H4. unfold set_flags.
  apply (wf_detached st _ e); rewrite ?get_upd_eq; try done; try apply W.
  - unfold detached, flag. rewrite !get_upd_eq. done.
  - intros x Hx. by rewrite get_upd_ne.
Qed.

Lemma assign_detached st e fd evs cb arg : detached (event_assign st e fd evs cb arg).2 e.
Proof. destruct (assign_shape st e fd evs cb arg) as (_ & _ & Hf & _). unfold detached, flag. rewrite Hf. done. Qed.

Lemma init_common_wf st d new r st' : base_wf st -> heap_timeouts_norm st -> detached st new ->
  (new < max_events)%nat -> event_base_init_common_timeout st d new = Some (r, st') -> base_wf st'.
Proof.
  intros W Hn D Hmax R. unfold event_base_init_common_timeout in R. cbv zeta in R.
  set (dn := normalise_duration st d) in R. clearbody dn.
  destruct (find_common_timeout _ dn) as [d'|].
  { destruct (is_common_timeout st d'); cbn in R; [|done]. by injection R as _ <-. }
  case_if_in R; [by injection R as _ <-|]. case_if_in R; [by injection R as _ <-|].
  set (st0 := if _ : bool then upd_base st _ else st) in R.
  assert (V0 : same_view st st0).
  { subst st0. case_if; [|reflexivity]. apply view_upd_base. intros b. by repeat split. }
  assert (W0 : base_wf st0) by (by rewrite <- V0).
  assert (D0 : detached st0 new).
  { unfold detached, flag in *. by rewrite (proj1 (proj1 V0 new)). }
  assert (Hn0 : heap_timeouts_norm st0).
  { intros x. unfold flag. destruct (proj1 V0 x) as (-> & _ & -> & _).
    rewrite (is_common_ext st st0); [apply Hn|]. by rewrite (proj1 (proj2 (proj2 (proj2 (proj2 (proj2 V0)))))). }
  case_if_in R; [by injection R as _ <-|].
  pose proof (assign_wf st0 new (-1) 0 common_timeout_callback_ptr (Some (n_common_timeouts st)) W0 D0 Hmax) as W1.
  pose proof (assign_detached st0 new (-1) 0 common_timeout_callback_ptr (Some (n_common_timeouts st))) as D1.
  pose proof (assign_shape st0 new (-1) 0 common_timeout_callback_ptr (Some (n_common_timeouts st))) as (Hb1 & HG1 & Hf1 & _).
  destruct (event_assign st0 new (-1) 0 common_timeout_callback_ptr (Some (n_common_timeouts st))) as [r1 st1]. cbn [snd] in *.
  rewrite Hf1 in R. change (set_flag EVLIST_INIT EVLIST_INTERNAL) with 0x90 in R.
  assert (W2 : base_wf (set_flags st1 new 0x90)) by (by apply detached_set_flags).
  pose proof (priority_set_wf (set_flags st1 new 0x90) new 0 W2) as W3.
  assert (Hev : forall x, ev_flags (get (event_priority_set (set_flags st1 new 0x90) new 0).2 x) = ev_flags (get (set_flags st1 new 0x90) x) /\
                ev_timeout (get (event_priority_set (set_flags st1 new 0x90) new 0).2 x) = ev_timeout (get (set_flags st1 new 0x90) x)).
  { intros x. unfold event_priority_set. case_if; [done|]. case_if; [done|]. cbn [snd]. rewrite get_upd. case_decide; by subst. }
  assert (Hbase : base (event_priority_set (set_flags st1 new 0x90) new 0).2 = base st1).
  { unfold event_priority_set. case_if; [done|]. by case_if. }
  destruct (event_priority_set _ _ _) as [r3 st3]. cbn [snd] in *.
  bind_in R u E4. injection R as _ <-. apply new_common_wf; [done | | done | done].
  intros x. destruct (Hev x) as [HF HT]. unfold flag. rewrite HF, HT.
  rewrite (is_common_ext st0 st3) by (by rewrite Hbase, Hb1).
  unfold set_flags. rewrite get_upd. case_decide.
  - change (ev_flags _) with 0x90. intros Hx. discriminate Hx.
  - rewrite HG1 by done. apply Hn0.
Qed.

(** ** Activation and time. *)
Lemma gettime_wf st : base_wf st -> base_wf (gettime st).2.
Proof. apply wf_view, gettime_view. Qed.
Lemma clear_time_view st : same_view st (clear_time_cache st).
Proof. apply view_upd_base. intros b. by repeat split. Qed.
Lemma update_time_view st : same_view st (update_time_cache st).
Proof.
  unfold update_time_cache. cbv zeta. pose proof (clear_time_view st) as V1.
  set (st1 := clear_time_cache st) in *. clearbody st1. case_if; [done|].
  pose proof (gettime_view st1) as V2. destruct (gettime st1) as [tv st2]. cbn [snd] in V2.
  transitivity st1; [done|]. transitivity st2; [done|]. apply view_upd_base. intros b. by repeat split.
Qed.

Lemma common_loop_wf fuel idx now st r st' : common_timeout_loop fuel idx now st = Some (r, st') ->
  base_wf st -> base_wf st'.
Proof.
  revert st. induction fuel as [|fuel IH]; intros st R W; cbn [common_timeout_loop] in R; [done|].
  bind_in R ctl E1. destruct (ctl_events ctl) as [|e l]; [by injection R as _ <-|].
  case_if_in R; [by injection R as _ <-|].
  bind_in R p E2. destruct p as [r2 st2]. bind_in R st3 E3. apply (IH _ R).
  eapply active_wf; [exact E3|]. by eapply del_wf.
Qed.

Lemma timeout_loop_wf fuel now st st' : timeout_process_loop fuel now st = Some st' -> base_wf st -> base_wf st'.
Proof.
  revert st. induction fuel as [|fuel IH]; intros st R W; cbn [timeout_process_loop] in R; [done|].
  destruct (min_heap_top_ _) as [e|]; [|by inv_opt]. case_if_in R; [by inv_opt|].
  bind_in R p E2. destruct p as [r2 st2]. bind_in R st3 E3. apply (IH _ R).
  eapply active_wf; [exact E3|]. by eapply del_wf.
Qed.
Lemma timeout_process_wf st st' : timeout_process st = Some st' -> base_wf st -> base_wf st'.
Proof.
  intros R W. unfold timeout_process in R. case_if_in R; [by inv_opt|].
  pose proof (gettime_wf st W). destruct (gettime st) as [now st1]. by eapply timeout_loop_wf.
Qed.

Lemma add_wf st e tv abs r st' : base_wf st -> push_safe st -> (e < max_events)%nat ->
  event_add_nolock st e tv abs = Some (r, st') -> base_wf st'.
Proof. intros W S Hm R. by eapply add_ok. Qed.

Lemma common_callback_wf st idx st' : common_timeout_callback st idx = Some st' ->
  (forall b, mm_ok b = true) -> base_wf st -> base_wf st'.
Proof.
  intros R Hmm W. unfold common_timeout_callback in R.
  pose proof (gettime_wf st W). destruct (gettime st) as [now st1]. cbn [snd] in *.
  bind_in R ctl E1. bind_in R p E2. destruct p as [ev st2]. pose proof (common_loop_wf _ _ _ _ _ _ E2 ltac:(done)) as W2.
  destruct ev as [e|]; [|by injection R as <-]. bind_in R ctl2 E3.
  unfold common_timeout_schedule in R. cbv zeta in R. bind_in R q E4. destruct q as [r4 st4]. injection R as <-.
  eapply (add_wf st2); [done | by left | by apply (to_inner _ (wf_timers _ W2) idx) | exact E4].
Qed.

Lemma base_once_wf st fd evs cb arg tv new r st' : base_wf st -> push_safe st -> detached st new ->
  (new < max_events)%nat -> event_base_once st fd evs cb arg tv new = Some (r, st') -> base_wf st'.
Proof.
  intros W S D Hmax R. unfold event_base_once in R. case_if_in R; [by injection R as _ <-|].
  case_if_in R; [by injection R as _ <-|].
  assert (HA : forall f ev, base_wf (event_assign st new f ev event_once_cb_ptr (Some (Z.of_nat new))).2 /\
               push_safe (event_assign st new f ev event_once_cb_ptr (Some (Z.of_nat new))).2).
  { intros f ev. split; [by apply assign_wf|]. eapply push_safe_len; [|exact S].
    by destruct (assign_shape st new f ev event_once_cb_ptr (Some (Z.of_nat new))) as [-> _]. }
  set (p := if Z.land _ _ =? EV_TIMEOUT then _ else _) in R.
  assert (HP : base_wf p.2 /\ push_safe p.2).
  { subst p. case_if; [|case_if]; [| |done];
      match goal with |- context [event_assign st new ?f ?ev _ _] => specialize (HA f ev) end;
      destruct (event_assign _ _ _ _ _ _) as [r1 st1]; done. }
  destruct p as [[bad act] st1]. cbn [snd] in HP. destruct HP as [W1 S1].
  destruct bad; [by injection R as _ <-|].
  bind_in R q E2. destruct q as [res st2].
  assert (W2 : base_wf st2).
  { destruct act.
    - bind_in E2 st3 E3. injection E2 as _ <-. by eapply active_wf.
    - by eapply (add_wf st1). }
  case_if_in R; injection R as _ <-; [done|]. apply wf_upd_base; [|done]. intros b. by repeat split.
Qed.

Lemma max_events_wf st t c : base_wf st -> base_wf (event_base_get_max_events st t c).2.
Proof.
  intros W. unfold event_base_get_max_events.
  destruct (has t EVENT_BASE_COUNT_ACTIVE), (has t EVENT_BASE_COUNT_VIRTUAL), (has t EVENT_BASE_COUNT_ADDED), c;
    cbn [snd]; try done; repeat (apply wf_upd_base; [intros b; by repeat split|]); done.
Qed.

End LoopInv.
