(* ===== verification/EventTimers.v ===== *)
(** * What the timeout functions achieve

    Activation of an event that is in no place, the processing of the expired
    timeouts, and the time the backend is told to wait. *)
From S2P Require Import Prelude Timeval MinHeap Event EventQueue EvMap EventCore EventLoop EventInv EventPrims EvMapInv EventOps EventDel EventLoopInv.

Section Timers.
Context {B : Type} `{Eventop B} `{Platform}.
Implicit Types (st : state B) (e x : eid).

(** Only [e] changed, and of the base only its active queue, the counters,
    [event_continue]. *)
Record activated st e res st' : Prop := {
  ac_wf : base_wf st';
  ac_others : forall x, x <> e -> get st' x = get st x;
  ac_flag : forall m, flag st' e m = flag st e m || has EVLIST_ACTIVE m;
  ac_res : ev_res (get st' e) = s16 res;
  ac_timeout : ev_timeout (get st' e) = ev_timeout (get st e);
  ac_pri : ev_pri (get st' e) = ev_pri (get st e);
  ac_ev_base : ev_base (get st' e) = ev_base (get st e);
  ac_heap : timeheap (base st') = timeheap (base st);
  ac_common : common_timeout_queues (base st') = common_timeout_queues (base st);
  ac_queues : activequeues (base st') = arr_set (activequeues (base st)) (ev_pri (get st e))
                (queue_at (activequeues (base st)) (ev_pri (get st e)) ++ [e])
}.

Lemma active_total st e res n : base_wf st ->
  flag st e EVLIST_FINALIZING = false -> flag st e EVLIST_ACTIVE = false -> flag st e EVLIST_ACTIVE_LATER = false ->
  ev_pri (get st e) < nactivequeues st ->
  exists st', event_active_nolock_ st e res n = Some st' /\ activated st e res st'.
Proof.
  intros W Hfin HA HL Hp. unfold event_active_nolock_. rewrite Hfin. cbv zeta.
  pose proof (active_switch st e) as Hm. rewrite HA, HL in Hm. cbv zeta in Hm. rewrite Hm.
  change (0 =? EVLIST_ACTIVE) with false. change (0 =? EVLIST_ACTIVE_LATER) with false. cbn [Z.eqb mbind option_bind].
  set (st1 := upd st e _).
  assert (E1 : get st1 e = {| (get st e) with ev_res := s16 res |}) by (unfold st1; by rewrite get_upd_eq).
  assert (O1 : forall x, x <> e -> get st1 x = get st x) by (intros; unfold st1; by rewrite get_upd_ne).
  assert (W1 : base_wf st1) by (apply wf_upd; [intros ev; by repeat split | done]).
  set (st2 := if _ : bool then upd_base st1 _ else st1).
  assert (E2 : forall x, get st2 x = get st1 x) by (intros; subst st2; by case_if).
  assert (W2 : base_wf st2) by (subst st2; case_if; [apply wf_upd_base; [intros b; by repeat split | done] | done]).
  assert (B2 : timeheap (base st2) = timeheap (base st) /\ common_timeout_queues (base st2) = common_timeout_queues (base st) /\
               activequeues (base st2) = activequeues (base st)) by (subst st2; by case_if).
  set (st3 := if _ : bool then upd st2 e _ else st2).
  assert (O3 : forall x, x <> e -> get st3 x = get st x).
  { intros x Hx. subst st3. case_if; [rewrite get_upd_ne by done|]; rewrite E2; by apply O1. }
  assert (E3 : ev_flags (get st3 e) = ev_flags (get st e) /\ ev_res (get st3 e) = s16 res /\
     ev_timeout (get st3 e) = ev_timeout (get st e) /\ ev_pri (get st3 e) = ev_pri (get st e) /\
     ev_base (get st3 e) = ev_base (get st e)).
  { subst st3. case_if; [rewrite get_upd_eq|]; rewrite E2, E1; done. }
  assert (W3 : base_wf st3) by (subst st3; case_if; [apply wf_upd; [intros ev; by repeat split | done] | done]).
  assert (B3 : base st3 = base st2) by (subst st3; by case_if).
  destruct E3 as (F3 & R3 & T3 & P3 & V3).
  assert (HF3 : forall m, flag st3 e m = flag st e m) by (intros; unfold flag; by rewrite F3).
  unfold event_callback_activate_nolock_. rewrite HF3, Hfin, F3. cbv zeta. rewrite Hm.
  change (0 =? EVLIST_ACTIVE) with false. change (0 =? EVLIST_ACTIVE_LATER) with false. cbn [Z.eqb mbind option_bind].
  assert (HS : exists st4, event_queue_insert_active st3 e = Some st4).
  { unfold event_queue_insert_active. rewrite HF3, HA. cbv zeta. unfold set_flags. rewrite get_upd_eq. cbn [ev_pri].
    change (ev_pri (get (INCR_EVENT_COUNT st3 (ev_flags (get st3 e))) e)) with (ev_pri (get st3 e)).
    change (nactivequeues (upd (INCR_EVENT_COUNT st3 (ev_flags (get st3 e))) e _)) with (nactivequeues st3).
    assert (Hn3 : nactivequeues st3 = nactivequeues st) by (unfold nactivequeues; rewrite B3; by destruct B2 as (_ & _ & ->)).
    rewrite P3, Hn3. destruct (Z.ltb_spec (ev_pri (get st e)) (nactivequeues st)); [by eexists | lia]. }
  destruct HS as [st4 R4]. rewrite R4. cbn [mbind option_bind]. exists st4. split; [done|].
  assert (W4 : base_wf st4) by (eapply insert_active_wf; [exact R4 | by rewrite !HF3 | done]).
  destruct (insert_active_run _ _ _ R4) as [[Hx _] | (_ & _ & C & Hb)]; [rewrite HF3 in Hx; congruence|].
  destruct B2 as (Bh & Bc & Bq).
  split.
  - done.
  - intros x Hx. by rewrite C, decide_False, O3.
  - intros m. rewrite (changed_flag _ _ _ _ _ _ C), decide_True by done. rewrite has_set, F3. done.
  - by rewrite C, decide_True.
  - by rewrite C, decide_True.
  - by rewrite C, decide_True.
  - by rewrite C, decide_True.
  - rewrite Hb. cbn. by rewrite B3.
  - rewrite Hb. cbn. by rewrite B3.
  - rewrite Hb. cbn. by rewrite B3, Bq, P3.
Qed.

(** ** The set of events in the heap. *)
Definition heap_set st : gset nat :=
  list_to_set ((fun i => p_get (heap_p (hp st)) i) <$> seqZ 0 (heap_n (hp st))).

Lemma heap_set_spec st : base_wf st -> represents (hp st) st (heap_set st).
Proof.
  intros W. split; [apply W|]. intros x. unfold heap_set, in_heap.
  rewrite elem_of_list_to_set, list_elem_of_fmap. setoid_rewrite elem_of_seqZ.
  split; intros (i & ? & ?); exists i; split; try done; lia.
Qed.
Lemma heap_set_elem st x : base_wf st -> x ∈ heap_set st <->
  flag st x EVLIST_TIMEOUT = true /\ is_common_timeout st (ev_timeout (get st x)) = false.
Proof. intros W. destruct (heap_set_spec st W) as [_ ->]. apply W. Qed.

Lemma size_list_le (l : list nat) : (size (list_to_set l : gset nat) <= length l)%nat.
Proof.
  induction l as [|x l IH]; cbn; [by rewrite size_empty|].
  rewrite size_union_alt, size_singleton.
  assert (size (list_to_set l ∖ {[x]} : gset nat) <= size (list_to_set l : gset nat))%nat by (apply subseteq_size; set_solver).
  lia.
Qed.
Lemma heap_set_size st : base_wf st -> (size (heap_set st) <= Z.to_nat (heap_n (hp st)))%nat.
Proof.
  intros W. unfold heap_set. etrans; [apply size_list_le|]. by rewrite length_fmap, length_seqZ.
Qed.

(** ** Expired timeouts. *)

(** What the loop needs of every event that waits: a base, no finalizer, and
    a priority with a queue. *)
Definition pending_ok st : Prop :=
  forall e, flag st e EVLIST_TIMEOUT = true ->
    ev_base (get st e) = true /\ flag st e EVLIST_FINALIZING = false /\ ev_pri (get st e) < nactivequeues st.

(** A test for it, over the events that exist. *)
Definition pending_okb st : bool :=
  bool_decide (map_Forall (fun _ ev =>
    negb (has (ev_flags ev) EVLIST_TIMEOUT) ||
    (ev_base ev && negb (has (ev_flags ev) EVLIST_FINALIZING) && (ev_pri ev <? nactivequeues st)) = true) (events st)).
Lemma pending_okb_ok st : pending_okb st = true -> pending_ok st.
Proof.
  intros Hb%bool_decide_eq_true e Hf. unfold flag, get in *. rewrite lookup_total_alt in *.
  destruct (events st !! e) as [ev|] eqn:Ev; cbn [default from_option] in *; [|by vm_compute in Hf].
  pose proof (Hb e ev Ev) as Ht. cbv beta in Ht. cbn in Hf. rewrite Hf in Ht. cbn in Ht.
  apply andb_true_iff in Ht as [[Hb1 Hfin%negb_true_iff]%andb_true_iff Hp%Z.ltb_lt]. done.
Qed.

(** Apart from heap indices, [st'] is [st] with [e] moved from the heap to its
    active queue. *)
Record fired st e st' : Prop := {
  fi_wf : base_wf st';
  fi_others : forall x, x <> e -> exists i, get st' x = {| (get st x) with ev_min_heap_idx := i |};
  fi_flags : flag st' e EVLIST_TIMEOUT = false /\ flag st' e EVLIST_ACTIVE = true;
  fi_res : ev_res (get st' e) = EV_TIMEOUT;
  fi_timeout : ev_timeout (get st' e) = ev_timeout (get st e);
  fi_sizes : same_sizes st st'
}.

Lemma fire_ok st e : base_wf st -> pending_ok st -> flag st e EVLIST_TIMEOUT = true ->
  exists r st1 st2, event_del_nolock_ st e EVENT_DEL_NOBLOCK = Some (r, st1) /\
    event_active_nolock_ st1 e EV_TIMEOUT 1 = Some st2 /\ fired st e st2.
Proof.
  intros W PO HT. destruct (PO e HT) as (Hb & Hfin & Hp).
  destruct (del_ok st e EVENT_DEL_NOBLOCK W Hb (or_intror Hfin)) as (r & st1 & R1 & W1 & O1 & Z1 & (DT & DA & DL & DI) & _ & K1).
  assert (Hp1 : ev_pri (get st1 e) = ev_pri (get st e)) by (by apply (of_field ev_pri st e st1)).
  destruct (active_total st1 e EV_TIMEOUT 1 W1) as (st2 & R2 & A2).
  { by rewrite K1. }
  { done. }
  { done. }
  { rewrite Hp1. unfold nactivequeues in *. destruct Z1 as [-> _]. done. }
  exists r, st1, st2. split_and!; [done | done |]. split.
  - apply A2.
  - intros x Hx. rewrite (ac_others _ _ _ _ A2) by done. by apply O1.
  - rewrite !(ac_flag _ _ _ _ A2), DT. split; by flags.
  - apply A2.
  - rewrite (ac_timeout _ _ _ _ A2). by apply (of_field ev_timeout st e st1).
  - etrans; [exact Z1|]. split; [by rewrite (ac_queues _ _ _ _ A2), arr_set_length | by rewrite (ac_common _ _ _ _ A2)].
Qed.

Lemma fired_field {T} (g : event -> T) st e st' : fired st e st' ->
  (forall ev i, g {| ev with ev_min_heap_idx := i |} = g ev) -> forall x, x <> e -> g (get st' x) = g (get st x).
Proof. intros F Hg x Hx. destruct (fi_others _ _ _ F x Hx) as [i ->]. apply Hg. Qed.
Lemma fired_flag st e st' x m : fired st e st' -> x <> e -> flag st' x m = flag st x m.
Proof. intros F Hx. unfold flag. by rewrite (fired_field ev_flags st e st' F). Qed.

Lemma fired_timeout st e st' x : fired st e st' -> ev_timeout (get st' x) = ev_timeout (get st x).
Proof.
  intros F. destruct (decide (x = e)) as [->|Hx]; [apply F | by apply (fired_field ev_timeout st e st' F)].
Qed.

Lemma fired_pending st e st' : fired st e st' -> pending_ok st -> pending_ok st'.
Proof.
  intros F PO x Hx. destruct (decide (x = e)) as [->|Hne].
  - destruct (fi_flags _ _ _ F). congruence.
  - rewrite (fired_flag _ _ _ _ _ F) in Hx by done. destruct (PO x Hx) as (? & ? & ?).
    rewrite (fired_flag _ _ _ _ _ F), (fired_field ev_base _ _ _ F), (fired_field ev_pri _ _ _ F) by done.
    split_and!; [done | done |]. unfold nactivequeues in *. destruct (fi_sizes _ _ _ F) as [-> _]. done.
Qed.

Lemma fired_heap st e st' : base_wf st -> fired st e st' -> heap_set st' = heap_set st ∖ {[e]}.
Proof.
  intros W F. apply set_eq. intros x. rewrite elem_of_difference, elem_of_singleton.
  rewrite !heap_set_elem by (done || apply F). rewrite (is_common_ext st st') by apply (fi_sizes _ _ _ F).
  rewrite (fired_timeout _ _ _ _ F). destruct (decide (x = e)) as [->|Hne].
  - destruct (fi_flags _ _ _ F) as [-> _]. naive_solver.
  - rewrite (fired_flag _ _ _ _ _ F) by done. naive_solver.
Qed.

(** Everything in the heap that has expired by [now] is activated with
    [EV_TIMEOUT]; the rest stays. *)
Record expired_processed (now : timeval) st st' : Prop := {
  ep_wf : base_wf st';
  ep_fired : forall x, x ∈ heap_set st -> tv_le (ev_timeout (get st x)) now ->
    flag st' x EVLIST_TIMEOUT = false /\ flag st' x EVLIST_ACTIVE = true /\ ev_res (get st' x) = EV_TIMEOUT;
  ep_rest : forall x, ~ (x ∈ heap_set st /\ tv_le (ev_timeout (get st x)) now) ->
    exists i, get st' x = {| (get st x) with ev_min_heap_idx := i |};
  ep_heap : forall x, x ∈ heap_set st' <-> x ∈ heap_set st /\ tv_lt now (ev_timeout (get st x))
}.

Lemma tv_le_lt_dec a b : tv_le a b \/ tv_lt b a.
Proof.
  destruct (evutil_timercmp a b CmpGt) eqn:Hc; [right; by apply tv_gt_lt | by left].
Qed.
Lemma tv_lt_not_le a b : tv_lt b a -> ~ tv_le a b.
Proof. intros Hl Hle. unfold tv_le in Hle. apply tv_gt_lt in Hl. congruence. Qed.

Lemma timeout_loop_ok fuel now st : base_wf st -> pending_ok st -> (size (heap_set st) < fuel)%nat ->
  exists st', timeout_process_loop fuel now st = Some st' /\ expired_processed now st st'.
Proof.
  revert st. induction fuel as [|fuel IH]; intros st W PO Hsz; [lia|]. cbn [timeout_process_loop].
  destruct (heap_set_spec st W) as [Wh HX]. fold (hp st).
  assert (Hself : forall x, exists i, get st x = {| (get st x) with ev_min_heap_idx := i |}).
  { intros x. exists (ev_min_heap_idx (get st x)). by destruct (get st x). }
  destruct (min_heap_top_ (hp st)) as [e|] eqn:Htop.
  2: { assert (Hno : forall x, x ∉ heap_set st).
       { intros x Hx. apply HX in Hx. by apply (proj1 (top_none (hp st) st Wh) Htop x). }
       exists st. split; [done|]. split; [done | intros x Hx; by apply Hno in Hx | done |].
       intros x. split; [intros Hx | intros [Hx _]]; by apply Hno in Hx. }
  destruct (top_min (hp st) st e Wh Htop) as [Hin Hmin].
  assert (HeX : e ∈ heap_set st) by (by apply HX).
  destruct (evutil_timercmp (ev_timeout (get st e)) now CmpGt) eqn:Hcmp.
  - exists st. split; [done|]. apply tv_gt_lt in Hcmp.
    assert (Hlate : forall x, x ∈ heap_set st -> tv_lt now (ev_timeout (get st x))).
    { intros x Hx. destruct (tv_le_lt_dec (ev_timeout (get st x)) now) as [Hle|]; [|done].
      exfalso. apply (tv_lt_not_le _ _ Hcmp). eapply tv_le_trans; [|exact Hle]. by apply Hmin, HX. }
    split; [done | | done |].
    + intros x Hx Hle. by apply tv_lt_not_le in Hle; [|apply Hlate].
    + intros x. split; [intros Hx; split; [done | by apply Hlate] | by intros [? _]].
  - assert (HT : flag st e EVLIST_TIMEOUT = true) by (by apply heap_set_elem in HeX as [? _]).
    destruct (fire_ok st e W PO HT) as (r & st1 & st2 & R1 & R2 & F).
    rewrite R1. cbn [mbind option_bind]. rewrite R2. cbn [mbind option_bind].
    pose proof (fired_heap st e st2 W F) as Hheap.
    destruct (IH st2 (fi_wf _ _ _ F) (fired_pending _ _ _ F PO)) as (st' & R' & [W' F' S' H']).
    { rewrite Hheap, size_difference by set_solver. rewrite size_singleton.
      assert (size (heap_set st) <> 0)%nat by (intros ?%size_empty_inv; set_solver). lia. }
    exists st'. split; [done|]. split; [done | | |].
    + intros x Hx Hle. destruct (decide (x = e)) as [->|Hne].
      * destruct (S' e) as [i Hi]; [rewrite Hheap; set_solver|]. unfold flag. rewrite Hi.
        destruct (fi_flags _ _ _ F). split_and!; [done | done | apply F].
      * apply F'; [rewrite Hheap; set_solver | by rewrite (fired_timeout _ _ _ _ F)].
    + intros x Hx. destruct (decide (x = e)) as [->|Hne]; [destruct Hx; split; [done | exact Hcmp]|].
      destruct (S' x) as [i ->].
      { rewrite Hheap, (fired_timeout _ _ _ _ F). intros [? ?]. apply Hx. set_solver. }
      destruct (fi_others _ _ _ F x Hne) as [j ->]. by exists i.
    + intros x. rewrite H', Hheap, (fired_timeout _ _ _ _ F). destruct (decide (x = e)) as [->|Hne]; [|set_solver].
      split; [set_solver|]. intros [_ Hl]. exfalso. by apply (tv_lt_not_le _ _ Hl).
Qed.
End Timers.
