(* ===== verification/EventDeadlines.v ===== *)
(** * Deadlines of persistent events and of common timeouts

    What [event_persist_closure] computes as the next deadline, and the
    encoding of a common timeout in the microseconds of its duration. *)
From S2P Require Import Prelude Timeval MinHeap Event EventQueue EvMap EventCore EventLoop EventInv EventPrims EvMapInv EventOps EventDel EventLoopInv EventTimers.

(** ** Bits of the microseconds. *)
Lemma mask_small n : 0 <= n < 2 ^ 20 -> Z.land n MICROSECONDS_MASK = n.
Proof.
  intros Hn. unfold MICROSECONDS_MASK, COMMON_TIMEOUT_MICROSECONDS_MASK. change 0xfffff with (Z.ones 20).
  rewrite Z.land_ones by lia. by apply Z.mod_small.
Qed.
Lemma mask_lor n h : 0 <= n < 2 ^ 20 -> Z.land h MICROSECONDS_MASK = 0 -> Z.land (Z.lor n h) MICROSECONDS_MASK = n.
Proof. intros Hn Hh. by rewrite Z.land_lor_distr_l, Hh, Z.lor_0_r, mask_small. Qed.
Lemma high_mask h : Z.land (Z.ldiff h MICROSECONDS_MASK) MICROSECONDS_MASK = 0.
Proof. apply Z.bits_inj'. intros n Hn. rewrite Z.land_spec, Z.ldiff_spec, Z.bits_0. by destruct (Z.testbit h n), (Z.testbit MICROSECONDS_MASK n). Qed.
Lemma high_lor n h : 0 <= n < 2 ^ 20 -> Z.ldiff (Z.lor n (Z.ldiff h MICROSECONDS_MASK)) MICROSECONDS_MASK = Z.ldiff h MICROSECONDS_MASK.
Proof.
  intros Hn. rewrite <- (mask_small n Hn). apply Z.bits_inj'. intros k Hk.
  rewrite !Z.ldiff_spec, !Z.lor_spec, !Z.ldiff_spec, !Z.land_spec.
  by destruct (Z.testbit h k), (Z.testbit MICROSECONDS_MASK k), (Z.testbit n k).
Qed.

Section Deadlines.
Context {B : Type} `{Eventop B} `{Platform}.
Implicit Types (st : state B).

(** A deadline or duration without the marks of a common timeout. *)
Definition plain (common : bool) (t : timeval) : timeval :=
  if common then {| t with tv_usec := Z.land (tv_usec t) MICROSECONDS_MASK |} else t.

(** The next deadline is normalised and keeps the marks of the interval. *)
Lemma persist_run_shape st e now (c := is_common_timeout st (ev_timeout (get st e))) : tv_norm now ->
  tv_norm (plain c (ev_timeout (get st e))) -> tv_norm (plain c (ev_io_timeout (get st e))) ->
  exists t, tv_norm t /\ persist_run_at st e now =
    Timeval (tv_sec t) (Z.lor (tv_usec t) (if c then Z.ldiff (tv_usec (ev_io_timeout (get st e))) MICROSECONDS_MASK else 0)).
Proof.
  intros Hn Hd Hp. unfold persist_run_at. fold c. cbv zeta.
  change (if c then {| (ev_io_timeout (get st e)) with tv_usec := Z.land (tv_usec (ev_io_timeout (get st e))) MICROSECONDS_MASK |}
          else ev_io_timeout (get st e)) with (plain c (ev_io_timeout (get st e))).
  set (from := if has _ _ then _ else now). assert (Hf : tv_norm from) by (subst from; case_if; done).
  eexists. split; [|reflexivity]. case_if; by apply timeradd_norm.
Qed.

(** C27: a persistent event whose timeout ran is next due one period after its
    last deadline, so that the period does not drift, unless that has passed
    already; an event made active otherwise, or late, is due one period from
    now.  The deadline is not before now, and one on a common list keeps the
    marks of that list. *)
Theorem persist_deadline st e now (ev := get st e) (c := is_common_timeout st (ev_timeout ev))
  (run := persist_run_at st e now) (Hnow : tv_norm now) (Hdl : tv_norm (plain c (ev_timeout ev)))
  (Hper : tv_norm (plain c (ev_io_timeout ev))) (Hpos : 0 <= tv_us (plain c (ev_io_timeout ev))) :
  let period := tv_us (plain c (ev_io_timeout ev)) in
  let next := tv_us (plain c (ev_timeout ev)) + period in
  tv_us (plain c run) =
    (if has (ev_res ev) EV_TIMEOUT && (tv_us now <=? next) then next else tv_us now + period) /\
  tv_us now <= tv_us (plain c run) /\
  (c = true -> Z.ldiff (tv_usec run) MICROSECONDS_MASK = Z.ldiff (tv_usec (ev_io_timeout ev)) MICROSECONDS_MASK).
Proof.
  cbv zeta. unfold run, persist_run_at. fold ev. fold c. cbv zeta.
  set (delay := if c then _ else ev_io_timeout ev). set (from := if has _ _ then _ else now).
  set (high := if c then Z.ldiff _ _ else 0).
  assert (Hd : delay = plain c (ev_io_timeout ev)) by done.
  assert (Hf : tv_norm from /\ tv_us from = if has (ev_res ev) EV_TIMEOUT then tv_us (plain c (ev_timeout ev)) else tv_us now).
  { subst from. destruct (has (ev_res ev) EV_TIMEOUT); done. }
  set (at0 := evutil_timeradd from delay). set (at1 := if evutil_timercmp at0 now CmpLt then _ else at0).
  destruct Hf as [Hfn Hfu]. rewrite <- Hd in Hper, Hpos |- *.
  assert (N0 : tv_norm at0) by (by apply timeradd_norm).
  assert (U0 : tv_us at0 = tv_us from + tv_us delay) by apply timeradd_us.
  assert (N1 : tv_norm at1) by (subst at1; case_if; [by apply timeradd_norm | done]).
  assert (U1 : tv_us at1 = if tv_us at0 <? tv_us now then tv_us now + tv_us delay else tv_us at0).
  { subst at1. destruct (evutil_timercmp at0 now CmpLt) eqn:Hc.
    - apply tv_lt_le in Hc as Hle. apply tv_le_us in Hle; [|done..].
      destruct (Z.ltb_spec (tv_us at0) (tv_us now)); [apply timeradd_us|]. exfalso.
      assert (tv_le now at0) as Hn by (apply tv_le_us; [done..|lia]). apply tv_nlt_le in Hn. congruence.
    - apply tv_nlt_le, tv_le_us in Hc; [|done..]. destruct (Z.ltb_spec (tv_us at0) (tv_us now)); [lia | done]. }
  assert (Hplain : tv_us (plain c {| at1 with tv_usec := Z.lor (tv_usec at1) high |}) = tv_us at1).
  { subst high. unfold plain. destruct c; unfold tv_us; cbn [tv_sec tv_usec].
    - rewrite mask_lor; [done | unfold tv_norm in *; lia | apply high_mask].
    - by rewrite Z.lor_0_r. }
  rewrite Hplain, U1, U0, Hfu. split_and!.
  - destruct (has (ev_res ev) EV_TIMEOUT); cbn [andb];
      repeat match goal with |- context [?a <? ?b] => destruct (Z.ltb_spec a b) | |- context [?a <=? ?b] => destruct (Z.leb_spec a b) end; lia.
  - destruct (has (ev_res ev) EV_TIMEOUT);
      repeat match goal with |- context [?a <? ?b] => destruct (Z.ltb_spec a b) end; lia.
  - intros Hct. subst high. rewrite Hct. cbn [tv_usec]. apply high_lor. unfold tv_norm in *. lia.
Qed.

(** ** The encoding. *)
Lemma find_app l d c : find_common_timeout l d = None -> tv_sec d = tv_sec (ctl_duration c) ->
  tv_usec d = Z.land (tv_usec (ctl_duration c)) MICROSECONDS_MASK -> find_common_timeout (l ++ [c]) d = Some (ctl_duration c).
Proof.
  intros Hl Hs Hu. induction l as [|y l IH]; cbn in *.
  - by rewrite Hs, Hu, !Z.eqb_refl.
  - case_if_in Hl; [done|]. auto.
Qed.
Lemma find_sound l d r : find_common_timeout l d = Some r ->
  tv_sec r = tv_sec d /\ Z.land (tv_usec r) MICROSECONDS_MASK = tv_usec d.
Proof.
  induction l as [|y l IH]; cbn; [done|]. destruct (_ && _) eqn:Hc; [|apply IH].
  intros [= <-]. apply andb_true_iff in Hc as [H1%Z.eqb_eq H2%Z.eqb_eq]. done.
Qed.

(** The queues after a call, whichever way it ended. *)
Lemma init_common_queues st d new r st' : tv_norm d -> event_base_init_common_timeout st d new = Some (Some r, st') ->
  find_common_timeout (common_timeout_queues (base st')) d = Some r /\ is_common_timeout st' r = true.
Proof.
  intros Hn R. unfold event_base_init_common_timeout in R. cbv zeta in R.
  assert (Hd : normalise_duration st d = d).
  { unfold normalise_duration, tv_norm in *. destruct (Z.ltb_spec 1000000 (tv_usec d)); [lia | done]. }
  rewrite Hd in R. destruct (find_common_timeout _ d) as [d'|] eqn:Hf.
  { destruct (is_common_timeout st d') eqn:Hc; cbn in R; [|done]. by injection R as -> ->. }
  do 3 (case_if_in R; [done|]).
  set (st0 := if _ : bool then upd_base st _ else st) in R.
  assert (Hq0 : common_timeout_queues (base st0) = common_timeout_queues (base st)) by (subst st0; by case_if).
  pose proof (assign_shape st0 new (-1) 0 common_timeout_callback_ptr (Some (n_common_timeouts st))) as (Hb1 & _).
  destruct (event_assign _ _ _ _ _ _) as [r1 st1]. cbn [snd] in Hb1.
  assert (Hbase : base (event_priority_set (set_flags st1 new (set_flag (ev_flags (get st1 new)) EVLIST_INTERNAL)) new 0).2 = base st1).
  { unfold event_priority_set. case_if; [done|]. by case_if. }
  destruct (event_priority_set _ _ _) as [r3 st3]. cbn [snd] in Hbase.
  set (dn := Timeval _ _) in R. bind_in R u Er. injection R as <- <-.
  unfold evutil_assert in Er. case_if_in Er; [|done]. split; [|done].
  cbn [base upd_base common_timeout_queues]. rewrite Hbase, Hb1, Hq0.
  apply (find_app _ d (CommonTimeoutList [] dn new)); [done | done|]. subst dn. cbn [ctl_duration tv_usec].
  rewrite <- Z.lor_assoc. symmetry. apply mask_lor; [unfold tv_norm in *; lia|].
  rewrite Z.land_lor_distr_l. change (Z.land COMMON_TIMEOUT_MAGIC MICROSECONDS_MASK) with 0. rewrite Z.lor_0_l.
  unfold MICROSECONDS_MASK, COMMON_TIMEOUT_MICROSECONDS_MASK, COMMON_TIMEOUT_IDX_SHIFT. change 0xfffff with (Z.ones 20).
  rewrite Z.land_ones, Z.shiftl_mul_pow2 by lia. by rewrite Z.mod_mul.
Qed.

(** The duration [event_base_init_common_timeout] returns is marked as a
    common timeout of the base and stands for the duration asked for; asking
    for the same duration again returns it again and changes nothing. *)
Theorem common_timeout_stable st d new r st' new' (Hnorm : tv_norm d)
  (Hinit : event_base_init_common_timeout st d new = Some (Some r, st')) :
  is_common_timeout st' r = true /\ plain true r = d /\
  event_base_init_common_timeout st' d new' = Some (Some r, st').
Proof.
  destruct (init_common_queues st d new r st' Hnorm Hinit) as [Hf Hc].
  destruct (find_sound _ _ _ Hf) as [Hs Hu]. split_and!; [done | | ].
  - unfold plain. destruct r, d; cbn in *; congruence.
  - unfold event_base_init_common_timeout. cbv zeta.
    assert (Hd : normalise_duration st' d = d).
    { unfold normalise_duration, tv_norm in *. destruct (Z.ltb_spec 1000000 (tv_usec d)); [lia | done]. }
    by rewrite Hd, Hf, Hc.
Qed.
End Deadlines.
