(* ===== verification/EventMoves.v ===== *)
(** * What an operation may disturb (event.c)

    One relation for everything the later theorems need to know that the
    operations leave alone: [stirs G T st st'] says that only the places of
    events may have changed, an event [x] being put into a place [p] only if
    [G x p], and its deadlines only if [T x]. *)
From S2P Require Import Prelude Timeval MinHeap Event EventQueue EvMap EventCore EventLoop EventInv EventPrims EvMapInv EventOps EventDel EventLoopInv EventTimers.

(** A value of a [short]. *)
Definition short (n : Z) : Prop := - 2 ^ 15 <= n < 2 ^ 15.
Lemma s16_short n : short (s16 n).
Proof. unfold short, s16. lia. Qed.

Section Moves.
Context {B : Type} `{Eventop B} `{Platform}.
Implicit Types (st : state B) (e x : eid).

(** The fields that the places of an event do not concern. *)
Definition statics (ev : event) : Z * Z * Z * Z * Z * Z * bool :=
  (ev_callback ev, ev_arg ev, ev_fd ev, ev_events ev, ev_closure ev, ev_pri ev, ev_base ev).
Record moved (ev ev' : event) : Prop := {
  mv_statics : statics ev' = statics ev;
  mv_ncalls : short (ev_ncalls ev) -> short (ev_ncalls ev');
  mv_init : has (ev_flags ev') EVLIST_INIT = has (ev_flags ev) EVLIST_INIT;
  mv_fin : has (ev_flags ev') EVLIST_FINALIZING = has (ev_flags ev) EVLIST_FINALIZING
}.
#[export] Instance moved_preorder : PreOrder moved.
Proof. split; [by split|]. intros a b c [] []. split; [congruence | auto | congruence..]. Qed.

(** The deadlines: kept, but the interval of a removed timer is cleared. *)
Definition same_times (ev ev' : event) : Prop :=
  ev_timeout ev' = ev_timeout ev /\ (ev_io_timeout ev' = ev_io_timeout ev \/ ev_io_timeout ev' = evutil_timerclear).
#[export] Instance same_times_preorder : PreOrder same_times.
Proof.
  split; [split; [done | by left]|]. intros a b c [H1 H2] [H3 H4]. split; [congruence|].
  destruct H2 as [H2|H2], H4 as [H4|H4]; rewrite ?H4; auto.
Qed.

Definition world st :=
  (nactivequeues st, ctl_timeout_event <$> common_timeout_queues (base st), once_events (base st),
   current_event (base st), tv_cache (base st), monotonic_now st).

Implicit Types (G : eid -> Z -> Prop) (T : eid -> Prop).
Record stirs G T st st' : Prop := {
  si_world : world st' = world st;
  si_ncalls : closure_ncalls (base st') = closure_ncalls (base st) \/ closure_ncalls (base st') = 0;
  si_moved : forall x, moved (get st x) (get st' x);
  si_times : forall x, ~ T x -> same_times (get st x) (get st' x);
  si_gains : forall x p, place_flag p -> flag st' x p = true -> flag st x p = true \/ G x p
}.
#[export] Instance stirs_preorder G T : PreOrder (stirs G T).
Proof.
  split.
  - intros st. split; [done | by left | done | done | by left].
  - intros a b c [W1 N1 M1 T1 G1] [W2 N2 M2 T2 G2]. split.
    + congruence.
    + destruct N2 as [->|]; [done | by right].
    + intros x. etrans; [apply M1 | apply M2].
    + intros x Hx. etrans; [by apply T1 | by apply T2].
    + intros x p Hp Hf. destruct (G2 x p Hp Hf) as [|]; [by apply G1 | by right].
Qed.

Lemma stirs_weaken G G' T T' st st' : (forall x p, G x p -> G' x p) -> (forall x, T x -> T' x) ->
  stirs G T st st' -> stirs G' T' st st'.
Proof.
  intros HG HT [W N M HTm Hg]. split; [done | done | done | auto|].
  intros x p Hp Hf. destruct (Hg x p Hp Hf); [by left | right; auto].
Qed.

(** Nothing gains a place, no deadline changes. *)
Definition nothing (x : eid) (p : Z) : Prop := False.
Definition nobody (x : eid) : Prop := False.
Lemma stirs_still G T st st' : stirs nothing nobody st st' -> stirs G T st st'.
Proof. by apply stirs_weaken. Qed.

Section Steps.
Context (G : eid -> Z -> Prop) (T : eid -> Prop).

Lemma stirs_upd_base st st1 f : stirs G T st st1 ->
  (forall b, activequeues (f b) = activequeues b /\ common_timeout_queues (f b) = common_timeout_queues b /\
     once_events (f b) = once_events b /\ current_event (f b) = current_event b /\ tv_cache (f b) = tv_cache b /\
     (closure_ncalls (f b) = closure_ncalls b \/ closure_ncalls (f b) = 0)) ->
  stirs G T st (upd_base st1 f).
Proof.
  intros S Hf. etrans; [exact S|]. destruct (Hf (base st1)) as (H1 & H2 & H3 & H4 & H5 & H6).
  split; [|done|done|done|by left]. unfold world, nactivequeues. cbn. by rewrite H1, H2, H3, H4, H5.
Qed.
Lemma stirs_upd st st1 e f : stirs G T st st1 -> moved (get st1 e) (f (get st1 e)) ->
  (~ T e -> same_times (get st1 e) (f (get st1 e))) -> ev_flags (f (get st1 e)) = ev_flags (get st1 e) ->
  stirs G T st (upd st1 e f).
Proof.
  intros S Hm Ht Hf. etrans; [exact S|]. split; [done | by left | | |].
  - intros x. rewrite get_upd. case_decide; by subst.
  - intros x Hx. rewrite get_upd. case_decide; [subst; by apply Ht | done].
  - intros x p _. unfold flag. rewrite get_upd. case_decide; [subst; rewrite Hf|]; by left.
Qed.
Lemma stirs_flags st st1 e fl : stirs G T st st1 -> has fl EVLIST_INIT = flag st1 e EVLIST_INIT ->
  has fl EVLIST_FINALIZING = flag st1 e EVLIST_FINALIZING ->
  (forall p, place_flag p -> has fl p = true -> flag st1 e p = true \/ G e p) -> stirs G T st (set_flags st1 e fl).
Proof.
  intros S Hi Hfin Hg. etrans; [exact S|]. split; [done | by left | | |].
  - intros x. unfold set_flags. rewrite get_upd. case_decide; [subst; by split | done].
  - intros x _. unfold set_flags. rewrite get_upd. case_decide; [subst; by split; [|left] | done].
  - intros x p Hp. unfold flag at 1, set_flags. rewrite get_upd. case_decide; [subst; by apply Hg | by left].
Qed.
Lemma stirs_set_flag st st1 e fl p : fl = ev_flags (get st1 e) -> stirs G T st st1 -> place_flag p -> G e p ->
  stirs G T st (set_flags st1 e (set_flag fl p)).
Proof.
  intros -> S Hp HG. apply stirs_flags; [done | destruct Hp; by flags | destruct Hp; by flags|].
  intros q Hq. rewrite has_set. intros [Hx|Hx]%orb_true_iff; [by left|right].
  replace q with p; [done|]. destruct Hp, Hq; done.
Qed.
Lemma stirs_clr_flag st st1 e fl p : fl = ev_flags (get st1 e) -> stirs G T st st1 -> place_flag p ->
  stirs G T st (set_flags st1 e (clr_flag fl p)).
Proof.
  intros -> S Hp. apply stirs_flags; [done | destruct Hp; by flags | destruct Hp; by flags|].
  intros q Hq Hx. left. destruct Hp, Hq; revert Hx; by flags.
Qed.
Lemma stirs_idx st st1 st' : stirs G T st st1 -> idx_frame st1 st' -> stirs G T st st'.
Proof.
  intros S (Hb & Hm & _ & Hg). etrans; [exact S|]. split; rewrite ?Hb.
  - unfold world, nactivequeues. by rewrite Hb, Hm.
  - by left.
  - intros x. destruct (Hg x) as [i ->]. by split.
  - intros x _. destruct (Hg x) as [i ->]. by split; [|left].
  - intros x p _. unfold flag. destruct (Hg x) as [i ->]. by left.
Qed.
Lemma stirs_list st st1 tv ctl ctl' : stirs G T st st1 -> get_common_timeout_list st1 tv = Some ctl ->
  ctl_timeout_event ctl' = ctl_timeout_event ctl -> stirs G T st (set_common_timeout_list st1 tv ctl').
Proof.
  intros S Hl Hi. etrans; [exact S|]. split; [|by left|done|done|by left].
  unfold world. f_equal. f_equal. f_equal. f_equal. f_equal. cbn. rewrite list_fmap_insert. apply list_insert_id.
  unfold get_common_timeout_list in Hl. by rewrite list_lookup_fmap, Hl, Hi.
Qed.

(** ** The primitives. *)
Lemma remove_timeout_stirs st e st' : event_queue_remove_timeout st e = Some st' -> stirs G T st st'.
Proof.
  unfold event_queue_remove_timeout. intros R. case_if_in R; [done|]. cbv zeta in R. set (st1 := set_flags _ _ _) in R.
  assert (Q1 : stirs G T st st1) by (apply stirs_clr_flag; [done | by apply stirs_upd_base; [|intros; split_and!; auto] | constructor]).
  case_if_in R.
  - bind_in R ctl Er. injection R as <-. by eapply stirs_list.
  - pose proof (erase_idx_frame (timeheap (base st1)) st1 e) as F. destruct (min_heap_erase_ _ _ _) as [[r s] st2].
    injection R as <-. apply stirs_upd_base; [by eapply stirs_idx | intros; split_and!; auto].
Qed.
Lemma insert_timeout_stirs st e st' : G e EVLIST_TIMEOUT -> event_queue_insert_timeout st e = Some st' -> stirs G T st st'.
Proof.
  unfold event_queue_insert_timeout. intros HG R. case_if_in R; [done|]. cbv zeta in R. set (st1 := set_flags _ _ _) in R.
  assert (Q1 : stirs G T st st1) by (apply stirs_set_flag; [done | by apply stirs_upd_base; [|intros; split_and!; auto] | constructor | done]).
  case_if_in R.
  - bind_in R ctl Er. bind_in R ctl' Er2. injection R as <-. eapply stirs_list; [done..|].
    unfold insert_common_timeout_inorder in Er2. bind_in Er2 l Er3. by injection Er2 as <-.
  - pose proof (push_idx_frame mm_ok (timeheap (base st1)) st1 e) as F. destruct (min_heap_push_ _ _ _ _) as [[r s] st2].
    injection R as <-. apply stirs_upd_base; [by eapply stirs_idx | intros; split_and!; auto].
Qed.
Lemma queues_world st f : (forall b, common_timeout_queues (f b) = common_timeout_queues b /\
     once_events (f b) = once_events b /\ current_event (f b) = current_event b /\ tv_cache (f b) = tv_cache b /\
     closure_ncalls (f b) = closure_ncalls b /\ length (activequeues (f b)) = length (activequeues b)) ->
  stirs G T st (upd_base st f).
Proof.
  intros Hf. destruct (Hf (base st)) as (H2 & H3 & H4 & H5 & H6 & H1).
  split; [|left; by cbn|done|done|by left]. unfold world, nactivequeues. cbn. by rewrite H1, H2, H3, H4, H5.
Qed.
Lemma remove_active_stirs st e st' : event_queue_remove_active st e = Some st' -> stirs G T st st'.
Proof.
  unfold event_queue_remove_active. intros R. case_if_in R; [done|]. cbv zeta in R. injection R as <-.
  etrans; [|apply queues_world; intros b; split_and!; try done; apply arr_set_length].
  apply stirs_clr_flag; [done | by apply stirs_upd_base; [|intros; split_and!; auto] | constructor].
Qed.
Lemma remove_later_stirs st e st' : event_queue_remove_active_later st e = Some st' -> stirs G T st st'.
Proof.
  unfold event_queue_remove_active_later. intros R. case_if_in R; [done|]. cbv zeta in R. injection R as <-.
  etrans; [|apply queues_world; intros b; by split_and!].
  apply stirs_clr_flag; [done | by apply stirs_upd_base; [|intros; split_and!; auto] | constructor].
Qed.
Lemma insert_active_stirs st e st' : G e EVLIST_ACTIVE -> event_queue_insert_active st e = Some st' -> stirs G T st st'.
Proof.
  unfold event_queue_insert_active. intros HG R. case_if_in R; [by inv_opt|]. cbv zeta in R. bind_in R u Er. injection R as <-.
  etrans; [|apply queues_world; intros b; split_and!; try done; apply arr_set_length].
  apply stirs_set_flag; [done | by apply stirs_upd_base; [|intros; split_and!; auto] | constructor | done].
Qed.
Lemma insert_later_stirs st e st' : G e EVLIST_ACTIVE_LATER -> event_queue_insert_active_later st e = Some st' -> stirs G T st st'.
Proof.
  unfold event_queue_insert_active_later. intros HG R. case_if_in R; [by inv_opt|]. cbv zeta in R. bind_in R u Er. injection R as <-.
  etrans; [|apply queues_world; intros b; by split_and!].
  apply stirs_set_flag; [done | by apply stirs_upd_base; [|intros; split_and!; auto] | constructor | done].
Qed.
Lemma remove_inserted_stirs st e st' : event_queue_remove_inserted st e = Some st' -> stirs G T st st'.
Proof.
  unfold event_queue_remove_inserted. intros R. case_if_in R; [done|]. cbv zeta in R. injection R as <-.
  apply stirs_clr_flag; [done | by apply stirs_upd_base; [|intros; split_and!; auto] | constructor].
Qed.
Lemma insert_inserted_stirs st e st' : G e EVLIST_INSERTED -> event_queue_insert_inserted st e = Some st' -> stirs G T st st'.
Proof.
  unfold event_queue_insert_inserted. intros HG R. case_if_in R; [done|]. cbv zeta in R. injection R as <-.
  apply stirs_set_flag; [done | by apply stirs_upd_base; [|intros; split_and!; auto] | constructor | done].
Qed.

(** ** The maps. *)
Ltac stir_base := repeat (apply stirs_upd_base; [|intros; split_and!; auto]); try done; try reflexivity.
(** Open a run of an operation of the maps: every state it passes through
    differs from the first in the base only. *)
Ltac split_map R :=
  cbv zeta in R;
  repeat match type of R with
  | (if _ then _ else _) = Some _ => case_if_in R; [try (injection R as _ <-; stir_base)|]
  | (_ ≫= _) = Some _ => let x := fresh "v" in let E := fresh "E" in bind_in R x E
  | (let '(_, _) := ?m in _) = Some _ => let E := fresh "P" in destruct m eqn:E
  | match ?m with _ => _ end = Some _ => destruct m
  end; try discriminate R; try (injection R as _ <-; stir_base).
Lemma io_add_stirs st fd e r st' : evmap_io_add_ st fd e = Some (r, st') -> stirs G T st st'.
Proof. unfold evmap_io_add_. intros R. split_map R. Qed.
Lemma io_del_stirs st fd e r st' : evmap_io_del_ st fd e = Some (r, st') -> stirs G T st st'.
Proof.
  unfold evmap_io_del_. intros R. split_map R. case_if_in P2; [destruct (evsel_del _ _ _ _)|]; injection P2 as <- _; stir_base.
Qed.
Lemma sig_add_stirs st fd e r st' : evmap_signal_add_ st fd e = Some (r, st') -> stirs G T st st'.
Proof. unfold evmap_signal_add_. intros R. split_map R. Qed.
Lemma sig_del_stirs st fd e r st' : evmap_signal_del_ st fd e = Some (r, st') -> stirs G T st st'.
Proof. unfold evmap_signal_del_. intros R. split_map R. Qed.

(** ** The operations. *)
Lemma abort_stirs st e : stirs G T st (abort_signal_loop st e).
Proof. unfold abort_signal_loop. case_if; [|done]. stir_base. Qed.
Lemma gettime_stirs st : stirs G T st (gettime st).2.
Proof. unfold gettime. case_if; [done|]. cbv zeta. case_if; [|done]. cbn [snd]. stir_base. Qed.

Lemma register_stirs st e r st' : G e EVLIST_INSERTED -> event_add_register st e = Some (r, st') -> stirs G T st st'.
Proof.
  unfold event_add_register. intros HG R. case_if_in R; [|by injection R as _ <-].
  bind_in R p Er. destruct p as [r1 st1]. bind_in R st2 Q2. injection R as _ <-.
  assert (S1 : stirs G T st st1).
  { case_if_in Er; [by eapply io_add_stirs|]. case_if_in Er; [by eapply sig_add_stirs | by injection Er as _ <-]. }
  etrans; [exact S1|]. case_if_in Q2; [by eapply insert_inserted_stirs | by injection Q2 as <-].
Qed.

Lemma remove_timer_stirs st e r st' : event_remove_timer st e = Some (r, st') -> stirs G T st st'.
Proof.
  unfold event_remove_timer, event_remove_timer_nolock_. intros R. case_if_in R; [by injection R as _ <-|].
  case_if_in R; [|by injection R as _ <-]. bind_in R st1 Q1. injection R as _ <-.
  apply stirs_upd; [by eapply remove_timeout_stirs | by split | by split; [|right] | done].
Qed.

Lemma del_stirs st e b r st' : event_del_nolock_ st e b = Some (r, st') -> stirs G T st st'.
Proof.
  unfold event_del_nolock_. intros R. case_if_in R; [by injection R as _ <-|]. case_if_in R; [by injection R as _ <-|].
  bind_in R u Ea. cbv zeta in R. set (st0 := if has _ EV_SIGNAL then _ else st) in R.
  assert (S0 : stirs G T st st0) by (subst st0; case_if; [apply abort_stirs | done]).
  bind_in R st1 Q1. bind_in R st2 Q2.
  assert (S2 : stirs G T st st2).
  { etrans; [exact S0|]. etrans; [case_if_in Q1; [by eapply remove_timeout_stirs | by injection Q1 as <-]|].
    case_if_in Q2; [by eapply remove_active_stirs|]. case_if_in Q2; [by eapply remove_later_stirs | by injection Q2 as <-]. }
  case_if_in R; [|by injection R as _ <-]. bind_in R st3 Q3. bind_in R p Q4. destruct p as [r4 st4]. injection R as _ <-.
  etrans; [exact S2|]. etrans; [by eapply remove_inserted_stirs|].
  case_if_in Q4; [by eapply io_del_stirs | by eapply sig_del_stirs].
Qed.
Lemma event_del_stirs st e r st' : event_del st e = Some (r, st') -> stirs G T st st'.
Proof. unfold event_del. intros R. case_if_in R; [by injection R as _ <- | by eapply del_stirs]. Qed.

Lemma callback_activate_stirs st e r st' : G e EVLIST_ACTIVE ->
  event_callback_activate_nolock_ st e = Some (r, st') -> stirs G T st st'.
Proof.
  unfold event_callback_activate_nolock_. intros HG R. case_if_in R; [by injection R as _ <-|]. cbv zeta in R.
  case_if_in R; [by injection R as _ <-|]. bind_in R p Q1. destruct p as [r1 st1]. bind_in R st2 Q2. injection R as _ <-.
  etrans; [|by eapply insert_active_stirs]. case_if_in Q1.
  - bind_in Q1 st3 Q3. injection Q1 as _ <-. by eapply remove_later_stirs.
  - case_if_in Q1; [by injection Q1 as _ <- | done].
Qed.

Lemma stirs_res st st1 e n : stirs G T st st1 -> stirs G T st (upd st1 e (fun ev => {| ev with ev_res := n ev |})).
Proof. intros S. apply stirs_upd; [done | by split | by split; [|left] | done]. Qed.

Lemma active_nolock_stirs st e res n st' : G e EVLIST_ACTIVE -> event_active_nolock_ st e res n = Some st' -> stirs G T st st'.
Proof.
  unfold event_active_nolock_. intros HG R. case_if_in R; [by injection R as <-|]. cbv zeta in R.
  case_if_in R; [injection R as <-; by apply (stirs_res _ _ _ (fun ev => _))|].
  bind_in R st1 Q1. bind_in R p Q2. destruct p as [r2 st2]. injection R as <-.
  assert (S1 : stirs G T st st1).
  { case_if_in Q1; [injection Q1 as <-; by apply (stirs_res _ _ _ (fun ev => _))|].
    case_if_in Q1; [injection Q1 as <-; by apply (stirs_res _ _ _ (fun ev => _)) | done]. }
  etrans; [|by eapply callback_activate_stirs].
  set (st3 := if ev_pri _ <? _ then _ else st1). assert (S3 : stirs G T st st3) by (subst st3; case_if; stir_base).
  case_if; [|done]. apply stirs_upd; [done | split; try done; intros _; apply s16_short | by split; [|left] | done].
Qed.
Lemma event_active_stirs st e res n st' : G e EVLIST_ACTIVE -> event_active st e res n = Some st' -> stirs G T st st'.
Proof. unfold event_active. intros HG R. case_if_in R; [by injection R as <- | by eapply active_nolock_stirs]. Qed.

Lemma activate_later_stirs st e r st' : G e EVLIST_ACTIVE_LATER ->
  event_callback_activate_later_nolock_ st e = Some (r, st') -> stirs G T st st'.
Proof.
  unfold event_callback_activate_later_nolock_. intros HG R. case_if_in R; [by injection R as _ <-|].
  bind_in R st1 Q1. injection R as _ <-. by eapply insert_later_stirs.
Qed.
Lemma active_later_stirs st e res st' : G e EVLIST_ACTIVE_LATER -> event_active_later_nolock_ st e res = Some st' -> stirs G T st st'.
Proof.
  unfold event_active_later_nolock_. intros HG R. case_if_in R; [injection R as <-; by apply (stirs_res _ _ _ (fun ev => _))|].
  cbv zeta in R. bind_in R p Q1. destruct p as [r1 st1]. injection R as <-.
  etrans; [|by eapply activate_later_stirs]. by apply (stirs_res _ _ _ (fun ev => _)).
Qed.
Lemma cancel_stirs st e b r st' : event_callback_cancel_nolock_ st e b = Some (r, st') -> stirs G T st st'.
Proof.
  unfold event_callback_cancel_nolock_. intros R. case_if_in R; [by injection R as _ <-|].
  case_if_in R; [by eapply del_stirs|]. cbv zeta in R.
  case_if_in R; [bind_in R st1 Q1; injection R as _ <-; by eapply remove_active_stirs|].
  case_if_in R; [bind_in R st1 Q1; injection R as _ <-; by eapply remove_later_stirs|].
  case_if_in R; [by injection R as _ <- | done].
Qed.
Lemma schedule_stirs st e r st' : G e EVLIST_ACTIVE -> G e EVLIST_ACTIVE_LATER ->
  event_deferred_cb_schedule_ st e = Some (r, st') -> stirs G T st st'.
Proof.
  unfold event_deferred_cb_schedule_. intros HA HL R. case_if_in R; [by eapply activate_later_stirs|].
  bind_in R p Q1. destruct p as [r1 st1]. injection R as _ <-.
  pose proof (callback_activate_stirs _ _ _ _ HA Q1). case_if; [stir_base | done].
Qed.

Lemma io_active_loop_stirs l st evs st' : (forall x, x ∈ l -> G x EVLIST_ACTIVE) ->
  evmap_io_active_loop l st evs = Some st' -> stirs G T st st'.
Proof.
  revert st. induction l as [|e l IH]; intros st HG R; cbn [evmap_io_active_loop] in R; [by injection R as <-|].
  bind_in R st1 Q1. etrans; [|eapply IH; [|exact R]; set_solver].
  case_if_in Q1; [eapply active_nolock_stirs; [|exact Q1]; set_solver | by injection Q1 as <-].
Qed.
Lemma signal_active_loop_stirs l st n st' : (forall x, x ∈ l -> G x EVLIST_ACTIVE) ->
  evmap_signal_active_loop l st n = Some st' -> stirs G T st st'.
Proof.
  revert st. induction l as [|e l IH]; intros st HG R; cbn [evmap_signal_active_loop] in R; [by injection R as <-|].
  bind_in R st1 Q1. etrans; [|eapply IH; [|exact R]; set_solver]. eapply active_nolock_stirs; [|exact Q1]; set_solver.
Qed.
Lemma make_later_stirs q st st' : (forall x, x ∈ q -> G x EVLIST_ACTIVE) ->
  make_later_active_loop q st = Some st' -> stirs G T st st'.
Proof.
  revert st. induction q as [|e q IH]; intros st HG R; cbn [make_later_active_loop] in R; [by injection R as <-|].
  cbv zeta in R. bind_in R u Q1. etrans; [|eapply IH; [|exact R]; set_solver].
  etrans; [|apply queues_world; intros b; split_and!; try done; apply arr_set_length].
  apply stirs_flags; [stir_base | by flags | by flags |].
  intros p Hp. rewrite has_set. intros [Hx|Hx]%orb_true_iff.
  - left. destruct Hp; revert Hx; by flags.
  - right. destruct Hp; try done. apply HG. set_solver.
Qed.
End Steps.
End Moves.

(** ** Consequences. *)
Section MovesUse.
Context {B : Type} `{Eventop B} `{Platform}.
Implicit Types (st : state B) (e x : eid).

Record same_world st st' : Prop := {
  sw_queues : nactivequeues st' = nactivequeues st;
  sw_inner : ctl_timeout_event <$> common_timeout_queues (base st') = ctl_timeout_event <$> common_timeout_queues (base st);
  sw_once : once_events (base st') = once_events (base st);
  sw_current : current_event (base st') = current_event (base st);
  sw_cache : tv_cache (base st') = tv_cache (base st);
  sw_clock : monotonic_now st' = monotonic_now st
}.
Lemma world_same st st' : world st' = world st -> same_world st st'.
Proof.
  intros Hw. split; [exact (f_equal (fun w => w.1.1.1.1.1) Hw) | exact (f_equal (fun w => w.1.1.1.1.2) Hw)
    | exact (f_equal (fun w => w.1.1.1.2) Hw) | exact (f_equal (fun w => w.1.1.2) Hw)
    | exact (f_equal (fun w => w.1.2) Hw) | exact (f_equal snd Hw)].
Qed.
Lemma world_lists st st' : world st' = world st ->
  length (common_timeout_queues (base st')) = length (common_timeout_queues (base st)).
Proof. intros Hw%world_same. pose proof (f_equal length (sw_inner _ _ Hw)) as Hl. by rewrite !length_fmap in Hl. Qed.
Lemma world_common st st' tv : world st' = world st -> is_common_timeout st' tv = is_common_timeout st tv.
Proof. intros Hw. by apply is_common_ext, world_lists. Qed.
Lemma world_gettime st st' : world st' = world st -> (gettime st').1 = (gettime st).1.
Proof.
  intros Hw%world_same. unfold gettime. rewrite (sw_cache _ _ Hw), (sw_clock _ _ Hw).
  case_if; [done|]. cbv zeta. by repeat case_if.
Qed.

(** The timeouts of the clocks. *)
Definition clock_norm st : Prop := tv_norm (tv_cache (base st)) /\ tv_norm (monotonic_now st).
Lemma world_clock st st' : world st' = world st -> clock_norm st -> clock_norm st'.
Proof. intros Hw%world_same. unfold clock_norm. by rewrite (sw_cache _ _ Hw), (sw_clock _ _ Hw). Qed.
Lemma gettime_norm st : clock_norm st -> tv_norm (gettime st).1.
Proof. intros [Hc Hm]. unfold gettime. case_if; [done|]. cbv zeta. by case_if. Qed.

Lemma moved_field {A} (g : event -> A) ev ev' : moved ev ev' -> (forall a b, statics a = statics b -> g a = g b) -> g ev' = g ev.
Proof. intros M Hg. apply Hg, M. Qed.
Lemma stirs_events G T st st' x : stirs G T st st' -> ev_events (get st' x) = ev_events (get st x).
Proof. intros S. apply (moved_field ev_events); [by apply (si_moved _ _ _ _ S)|]. intros [] []. unfold statics; cbn. congruence. Qed.
End MovesUse.
