(* ===== verification/EventAddTotal.v ===== *)
(** * Adding an event does not abort

    [event_add] has assertions on its way: the lists of common timeouts hold
    only events of their own list, the queues hold what the flags say, and the
    descriptor is one the maps can grow to.  Under the invariant and sane
    arguments all of them hold, and the call [event_add_nolock_] makes to
    itself does not recurse further. *)
From S2P Require Import Prelude Timeval MinHeap Event EventQueue EvMap EventCore EventLoop EventInv EventPrims EvMapInv EventOps EventDel EventLoopInv EventTimers EventDeadlines EventMoves.

(** ** The marks of a common timeout as numbers. *)
Lemma idx_value tv : COMMON_TIMEOUT_IDX tv = (tv_usec tv / 2 ^ 20) mod 256.
Proof.
  unfold COMMON_TIMEOUT_IDX, COMMON_TIMEOUT_IDX_MASK, COMMON_TIMEOUT_IDX_SHIFT.
  rewrite Z.shiftr_land. change (Z.shiftr 267386880 20) with (Z.ones 8). rewrite Z.land_ones, Z.shiftr_div_pow2 by lia. done.
Qed.
Lemma magic_value u : Z.land u COMMON_TIMEOUT_MASK = COMMON_TIMEOUT_MAGIC -> (u / 2 ^ 28) mod 16 = 5.
Proof.
  intros Hm. apply (f_equal (fun z => Z.shiftr z 28)) in Hm. rewrite Z.shiftr_land in Hm.
  change (Z.shiftr COMMON_TIMEOUT_MASK 28) with (Z.ones 4) in Hm. change (Z.shiftr COMMON_TIMEOUT_MAGIC 28) with 5 in Hm.
  rewrite Z.land_ones, Z.shiftr_div_pow2 in Hm by lia. done.
Qed.
Lemma high_value u : Z.ldiff u MICROSECONDS_MASK = (u / 2 ^ 20) * 2 ^ 20.
Proof.
  unfold MICROSECONDS_MASK, COMMON_TIMEOUT_MICROSECONDS_MASK. change 0xfffff with (Z.ones 20).
  rewrite Z.ldiff_ones_r by lia. by rewrite Z.shiftl_mul_pow2, Z.shiftr_div_pow2 by lia.
Qed.

(** The low bits replaced under marks that they do not meet. *)
Lemma remark_land n u m : 0 <= n < 2 ^ 20 -> Z.land MICROSECONDS_MASK m = 0 ->
  Z.land (Z.lor n (Z.ldiff u MICROSECONDS_MASK)) m = Z.land u m.
Proof.
  intros Hn Hm. rewrite <- (mask_small n Hn). apply Z.bits_inj'. intros k Hk.
  pose proof (f_equal (fun z => Z.testbit z k) Hm) as Hb. cbv beta in Hb.
  rewrite Z.bits_0, Z.land_spec in Hb. rewrite !Z.land_spec, Z.lor_spec, Z.ldiff_spec, Z.land_spec.
  destruct (Z.testbit u k), (Z.testbit MICROSECONDS_MASK k), (Z.testbit n k), (Z.testbit m k); done.
Qed.
Lemma remark_value n u : 0 <= n < 2 ^ 20 -> Z.lor n (Z.ldiff u MICROSECONDS_MASK) = n + (u / 2 ^ 20) * 2 ^ 20.
Proof.
  intros Hn. rewrite <- high_value.
  assert (Hd : Z.land n (Z.ldiff u MICROSECONDS_MASK) = 0).
  { rewrite <- (mask_small n Hn), <- Z.land_assoc, (Z.land_comm MICROSECONDS_MASK), high_mask. apply Z.land_0_r. }
  by rewrite Z.add_nocarry_lxor, Z.lxor_lor.
Qed.

(** A time value that fits the encoding. *)
Definition usec32 (tv : timeval) : Prop := 0 <= tv_usec tv < 2 ^ 32.

Section AddTotal.
Context {B : Type} `{Eventop B} `{Platform}.
Implicit Types (st : state B) (e x : eid).

Lemma common_magic st tv : is_common_timeout st tv = true ->
  Z.land (tv_usec tv) COMMON_TIMEOUT_MASK = COMMON_TIMEOUT_MAGIC /\ COMMON_TIMEOUT_IDX tv < n_common_timeouts st.
Proof.
  unfold is_common_timeout. destruct (Z.eqb_spec (Z.land (tv_usec tv) COMMON_TIMEOUT_MASK) COMMON_TIMEOUT_MAGIC); [|done].
  cbn [negb]. cbv zeta. intros Hl%Z.ltb_lt. done.
Qed.

Lemma same_common st a b : usec32 a -> usec32 b -> is_common_timeout st a = true -> is_common_timeout st b = true ->
  COMMON_TIMEOUT_IDX a = COMMON_TIMEOUT_IDX b -> is_same_common_timeout a b = true.
Proof.
  intros Ha Hb [Ma%magic_value _]%common_magic [Mb%magic_value _]%common_magic Hi. rewrite !idx_value in Hi.
  unfold is_same_common_timeout. rewrite !high_value. apply Z.eqb_eq. f_equal. unfold usec32 in *. lia.
Qed.

(** Marks survive a change of the low bits. *)
Lemma remark_common st tv n : 0 <= n < 2 ^ 20 -> usec32 tv -> is_common_timeout st tv = true ->
  let t s := Timeval s (Z.lor n (Z.ldiff (tv_usec tv) MICROSECONDS_MASK)) in
  forall s, is_common_timeout st (t s) = true /\ COMMON_TIMEOUT_IDX (t s) = COMMON_TIMEOUT_IDX tv /\ usec32 (t s).
Proof.
  intros Hn Hu Hc t s. split_and!.
  - apply common_magic in Hc as [Hm Hi]. unfold is_common_timeout.
    change (tv_usec (t s)) with (Z.lor n (Z.ldiff (tv_usec tv) MICROSECONDS_MASK)).
    rewrite !remark_land by done. rewrite Hm, Z.eqb_refl. cbv zeta. cbn [negb]. by apply Z.ltb_lt.
  - unfold COMMON_TIMEOUT_IDX. change (tv_usec (t s)) with (Z.lor n (Z.ldiff (tv_usec tv) MICROSECONDS_MASK)).
    by rewrite remark_land.
  - unfold usec32 in *. cbn [t tv_usec]. rewrite remark_value by done. lia.
Qed.

(** ** The insertion into a list. *)
Definition lists_usec32 st : Prop := forall x, flag st x EVLIST_TIMEOUT = true ->
  is_common_timeout st (ev_timeout (get st x)) = true -> usec32 (ev_timeout (get st x)).

Lemma insert_inorder_total st l e :
  Forall (fun x => is_same_common_timeout (ev_timeout (get st x)) (ev_timeout (get st e)) = true) l ->
  is_Some (insert_inorder_rev st l e).
Proof.
  induction 1 as [|x l Hx HF IH]; cbn [insert_inorder_rev]; [by eexists|].
  rewrite Hx. cbn. case_if; [by eexists|]. destruct IH as [r ->]. by eexists.
Qed.

Lemma insert_timeout_total st e : base_wf st -> flag st e EVLIST_TIMEOUT = false ->
  (is_common_timeout st (ev_timeout (get st e)) = true -> usec32 (ev_timeout (get st e)) /\ lists_usec32 st) ->
  is_Some (event_queue_insert_timeout st e).
Proof.
  intros W Hf He. unfold event_queue_insert_timeout. rewrite Hf. cbv zeta.
  set (st1 := set_flags _ _ _).
  assert (HT : forall x, ev_timeout (get st1 x) = ev_timeout (get st x)).
  { intros x. unfold st1, set_flags. rewrite get_upd. case_decide; by subst. }
  assert (HC : forall tv, is_common_timeout st1 tv = is_common_timeout st tv) by done.
  rewrite HT, HC. destruct (is_common_timeout st (ev_timeout (get st e))) eqn:Hc.
  2: { destruct (min_heap_push_ _ _ _ _) as [[r s] st2]. by eexists. }
  destruct (He eq_refl) as [Hu HL]. clear He.
  destruct (common_magic _ _ Hc) as [_ Hi]. pose proof (common_idx_nonneg (ev_timeout (get st e))) as Hnn.
  unfold get_common_timeout_list.
  destruct (lookup_lt_is_Some_2 (common_timeout_queues (base st1)) (Z.to_nat (COMMON_TIMEOUT_IDX (ev_timeout (get st e))))) as [ctl Hctl].
  { change (base st1) with (base (INCR_EVENT_COUNT st (ev_flags (get st e)))). cbn. unfold n_common_timeouts in Hi. lia. }
  rewrite Hctl. cbn [mbind option_bind]. unfold insert_common_timeout_inorder.
  destruct (insert_inorder_total st1 (reverse (ctl_events ctl)) e) as [r ->]; [|by eexists].
  apply Forall_forall. intros x Hx. rewrite elem_of_reverse in Hx. rewrite !HT.
  destruct (to_common _ (wf_timers _ W) _ _ Hctl) as [[_ Hm] _]. apply Hm in Hx as (Hxf & Hxc & Hxi).
  apply (same_common st); [by apply HL | done | done | done |].
  pose proof (common_idx_nonneg (ev_timeout (get st x))). lia.
Qed.

(** ** Registration. *)

(** The descriptor or signal is one the maps can grow to. *)
Definition addable st e : Prop :=
  (is_io st e = true -> ev_fd (get st e) < 2 ^ 27) /\
  (is_io st e = false -> has (ev_events (get st e)) EV_SIGNAL = true -> 0 <= s32 (ev_fd (get st e)) < 2 ^ 27).

Lemma io_add_total st e : maps_ok st (inserted st) -> ev_fd (get st e) < 2 ^ 27 -> is_Some (evmap_io_add_ st (ev_fd (get st e)) e).
Proof.
  intros M Hfd. unfold evmap_io_add_. rewrite Z.eqb_refl. cbn [evutil_assert mbind option_bind].
  destruct (Z.ltb_spec (ev_fd (get st e)) 0); [by eexists|].
  destruct (make_space_total (io_nentries (base st)) (ev_fd (get st e)) (mo_io_n _ _ M)) as [[r n] ->]; [lia|].
  cbn [mbind option_bind]. case_if; [by eexists|]. cbv zeta. destruct (get_io_slot_and_ctor _ _); [|by eexists].
  repeat (destruct (io_incr _ _ _)). case_if; [by eexists|]. case_if; [by eexists|]. case_if; [|by eexists].
  destruct (evsel_add _ _ _ _); by eexists.
Qed.
Lemma sig_add_total st sig e : maps_ok st (inserted st) -> 0 <= sig < 2 ^ 27 -> is_Some (evmap_signal_add_ st sig e).
Proof.
  intros M Hs. unfold evmap_signal_add_.
  destruct (make_space_total (sigmap_nentries (base st)) sig (mo_sig_n _ _ M)) as [[r n] ->]; [lia|].
  cbn [mbind option_bind]. case_if; [by eexists|]. cbv zeta. destruct (Z.leb_spec 0 sig); [|lia].
  cbn [evutil_assert mbind option_bind]. case_if; [by eexists|]. destruct (default [] _); [|by eexists].
  destruct (evsigsel_add _ _ _ _); by eexists.
Qed.
Lemma register_total st e : base_wf st -> addable st e -> is_Some (event_add_register st e).
Proof.
  intros W [Hio Hsig]. unfold event_add_register. fold (wants_registration st e).
  destruct (wants_registration st e) eqn:Hw; [|by eexists].
  unfold wants_registration in Hw. apply andb_true_iff in Hw as [Hev Hfl]. apply negb_true_iff in Hfl.
  unfold flag in Hfl. rewrite !has_lor in Hfl, Hev. apply orb_false_iff in Hfl as [Hins _].
  assert (HS : exists r st1, (if has (ev_events (get st e)) EV_IO then evmap_io_add_ st (ev_fd (get st e)) e
     else if has (ev_events (get st e)) EV_SIGNAL then evmap_signal_add_ st (s32 (ev_fd (get st e))) e else Some (0, st)) = Some (r, st1) /\
     maps_only st st1).
  { unfold is_io in *. destruct (has (ev_events (get st e)) EV_IO) eqn:Ei.
    - destruct (io_add_total st e (wf_maps _ W) (Hio eq_refl)) as [[r st1] R]. exists r, st1. split; [done|].
      exact (proj1 (io_add_ok _ _ _ _ _ _ (wf_maps _ W) Hins Ei R)).
    - cbn [orb] in Hev. rewrite Hev. destruct (sig_add_total st _ e (wf_maps _ W) (Hsig eq_refl Hev)) as [[r st1] R].
      exists r, st1. split; [done|]. exact (proj1 (sig_add_ok _ _ _ _ _ (wf_maps _ W) Hins Ei R)). }
  destruct HS as (r & st1 & -> & O). cbn [mbind option_bind]. destruct (negb (r =? -1)); cbn [mbind option_bind]; [|by eexists].
  unfold event_queue_insert_inserted, flag. rewrite (maps_only_get _ _ e O), Hins. by eexists.
Qed.

(** ** The timeout. *)

(** Arguments the encoding is meant for. *)
Definition tv_sane st (tv : timeval) : Prop :=
  if is_common_timeout st tv then usec32 tv /\ tv_norm (plain true tv) /\ lists_usec32 st else tv_norm tv.

Lemma deadline_sane st now tv abs : tv_norm now -> tv_sane st tv ->
  let d := add_deadline now tv (is_common_timeout st tv) abs in
  is_common_timeout st d = is_common_timeout st tv /\ tv_norm (plain (is_common_timeout st tv) d) /\
  (is_common_timeout st tv = true -> usec32 d).
Proof.
  intros Hn Hs d. unfold tv_sane in Hs. destruct (is_common_timeout st tv) eqn:Hc.
  - destruct Hs as (Hu & Hp & _). subst d. unfold add_deadline. destruct abs; [done|]. cbv zeta.
    change {| tv with tv_usec := Z.land (tv_usec tv) MICROSECONDS_MASK |} with (plain true tv).
    pose proof (timeradd_norm now (plain true tv) Hn Hp) as Ha. set (t := evutil_timeradd now (plain true tv)) in *.
    assert (Hb : 0 <= tv_usec t < 2 ^ 20) by (unfold tv_norm in Ha; lia).
    destruct (remark_common st tv (tv_usec t) Hb Hu Hc (tv_sec t)) as (H1 & _ & H3).
    split_and!; [exact H1 | | intros _; exact H3].
    unfold plain, tv_norm. cbn [tv_usec]. rewrite mask_lor; [exact Ha | done | apply high_mask].
  - assert (Hd : tv_norm d) by (subst d; unfold add_deadline; destruct abs; [done | by apply timeradd_norm]).
    split_and!; [by rewrite norm_not_common | done | done].
Qed.

(** The state after the timeout half: [st] with a new deadline for [e]. *)
Definition gains_wait e x p : Prop := x = e /\ p = EVLIST_TIMEOUT.
Record timed st e (tv : timeval) (abs : bool) st' : Prop := {
  tm_stirs : stirs (gains_wait e) (eq e) st st';
  tm_deadline : ev_timeout (get st' e) = add_deadline (gettime st).1 tv (is_common_timeout st tv) abs;
  tm_io : ev_io_timeout (get st' e) = (if (ev_closure (get st e) =? EV_CLOSURE_EVENT_PERSIST) && negb abs
            then tv else ev_io_timeout (get st e)) \/ ev_io_timeout (get st' e) = evutil_timerclear
}.

Lemma drop_active_stirs G T st e st' :
  (if flag st e EVLIST_ACTIVE && has (ev_res (get st e)) EV_TIMEOUT then
     event_queue_remove_active (if has (ev_events (get st e)) EV_SIGNAL then abort_signal_loop st e else st) e
   else Some st) = Some st' -> stirs G T st st'.
Proof.
  intros R. case_if_in R; [|by injection R as <-]. etrans; [|by eapply remove_active_stirs].
  case_if; [apply abort_stirs | done].
Qed.

Lemma add_timeout_run st e tv abs c st' : event_add_timeout st e tv abs = Some (c, st') ->
  c = is_common_timeout st tv /\ timed st e tv abs st'.
Proof.
  unfold event_add_timeout. cbv zeta. set (st0 := if _ : bool then upd st e _ else st). intros R.
  assert (Q0 : stirs (gains_wait e) (eq e) st st0) by (subst st0; case_if; [by apply stirs_upd; [|by split| |] | done]).
  bind_in R st1 Q1. bind_in R st2 Q2. pose proof (gettime_stirs nothing nobody st2) as Q3.
  assert (Q02 : stirs nothing nobody st0 st2).
  { etrans; [case_if_in Q1; [by eapply remove_timeout_stirs | by injection Q1 as <-] | by eapply drop_active_stirs]. }
  assert (Hn : (gettime st2).1 = (gettime st).1).
  { apply world_gettime. rewrite (si_world _ _ _ _ Q02). apply Q0. }
  destruct (gettime st2) as [now st3]. cbn [fst snd] in *. subst now.
  assert (Q13 : stirs nothing nobody st0 st3) by (etrans; [exact Q02 | exact Q3]).
  pose proof (stirs_still (gains_wait e) (eq e) _ _ Q13) as Q13'.
  assert (Hc3 : is_common_timeout st3 tv = is_common_timeout st tv).
  { apply world_common. rewrite (si_world _ _ _ _ Q13'). apply Q0. }
  rewrite Hc3 in R. set (st4 := upd st3 e _) in R. bind_in R st5 Q5. injection R as <- <-. split; [done|].
  assert (Q4 : stirs (gains_wait e) (eq e) st st4).
  { subst st4. apply stirs_upd; [by etrans | by split | done | done]. }
  pose proof (insert_timeout_stirs (gains_wait e) nobody _ _ _ (conj eq_refl eq_refl) Q5) as S5.
  destruct (si_times _ _ _ _ S5 e (fun F => F)) as [T5 I5].
  assert (E4 : ev_timeout (get st4 e) = add_deadline (gettime st).1 tv (is_common_timeout st tv) abs /\
               ev_io_timeout (get st4 e) = ev_io_timeout (get st3 e)) by (unfold st4; by rewrite get_upd_eq).
  destruct E4 as [E4 I4]. destruct (si_times _ _ _ _ Q13 e (fun F => F)) as [_ I3].
  assert (I0 : ev_io_timeout (get st0 e) = (if (ev_closure (get st e) =? EV_CLOSURE_EVENT_PERSIST) && negb abs
            then tv else ev_io_timeout (get st e))) by (subst st0; case_if; [by rewrite get_upd_eq | done]).
  split.
  - etrans; [exact Q4|]. eapply stirs_weaken; [| |exact S5]; [done | by intros x []].
  - congruence.
  - rewrite <- I0. destruct I5 as [->|]; [|by right]. rewrite I4. destruct I3 as [->|]; auto.
Qed.

Lemma timed_sane st e tv abs st' : clock_norm st -> tv_sane st tv -> timed st e tv abs st' ->
  is_common_timeout st' (ev_timeout (get st' e)) = is_common_timeout st tv /\
  tv_norm (plain (is_common_timeout st tv) (ev_timeout (get st' e))) /\
  (is_common_timeout st tv = true -> usec32 (ev_timeout (get st' e))).
Proof.
  intros Hck Hs T. rewrite (world_common st) by apply (tm_stirs _ _ _ _ _ T). rewrite (tm_deadline _ _ _ _ _ T).
  apply deadline_sane; [by apply gettime_norm | done].
Qed.

Lemma drop_active_total st e : base_wf st ->
  is_Some (if flag st e EVLIST_ACTIVE && has (ev_res (get st e)) EV_TIMEOUT then
     event_queue_remove_active (if has (ev_events (get st e)) EV_SIGNAL then abort_signal_loop st e else st) e
   else Some st).
Proof.
  intros W. destruct (flag st e EVLIST_ACTIVE) eqn:Ha; cbn [andb]; [|by exists st].
  case_if; [|by exists st]. set (st1 := if _ : bool then _ else st).
  assert (F1 : flag st1 e EVLIST_ACTIVE = true).
  { subst st1. case_if; [|done]. pose proof (abort_signal_view st e) as [V _]. unfold flag. rewrite (proj1 (V e)). exact Ha. }
  unfold event_queue_remove_active. rewrite F1. by eexists.
Qed.

Lemma add_timeout_total st e tv abs : base_wf st -> clock_norm st -> tv_sane st tv ->
  exists st', event_add_timeout st e tv abs = Some (is_common_timeout st tv, st') /\ timed st e tv abs st'.
Proof.
  intros W Hck Hs.
  enough (HS : is_Some (event_add_timeout st e tv abs)).
  { destruct HS as [[c st'] R]. destruct (add_timeout_run _ _ _ _ _ _ R) as [-> T]. by exists st'. }
  unfold event_add_timeout. cbv zeta.
  set (st0 := if _ : bool then upd st e _ else st).
  assert (Q0 : stirs (gains_wait e) (eq e) st st0) by (subst st0; case_if; [by apply stirs_upd; [|by split| |] | done]).
  assert (V0 : same_view st st0) by (subst st0; case_if; [apply view_upd; intros ev; by repeat split | reflexivity]).
  assert (W0 : base_wf st0) by (by rewrite <- V0).
  destruct (drop_timeout_some st0 e W0) as (st1 & R1 & T1). rewrite R1. cbn [mbind option_bind].
  assert (Q1 : stirs nothing nobody st0 st1) by (case_if_in R1; [by eapply remove_timeout_stirs | by injection R1 as <-]).
  pose proof (tk_wf _ _ _ _ T1) as W1. pose proof (tk_gone _ _ _ _ T1) as Hf1.
  destruct (drop_active_total st1 e W1) as [st2 R2]. pose proof (drop_active_stirs nothing nobody _ _ _ R2) as Q2.
  destruct (drop_active_ok st1 e st2 W1 R2) as (W2 & F2 & Hf2 & _). cbv zeta in R2. rewrite R2. cbn [mbind option_bind].
  pose proof (gettime_stirs nothing nobody st2) as Q3. pose proof (gettime_view st2) as V3.
  assert (Hck2 : clock_norm st2).
  { eapply world_clock; [|exact Hck]. rewrite (si_world _ _ _ _ Q2), (si_world _ _ _ _ Q1). apply Q0. }
  pose proof (gettime_norm st2 Hck2) as Hnow.
  destruct (gettime st2) as [now st3]. cbn [fst snd] in *.
  assert (Q03 : stirs (gains_wait e) (eq e) st st3).
  { etrans; [exact Q0|]. apply stirs_still. etrans; [exact Q1|]. etrans; [exact Q2 | exact Q3]. }
  assert (W3 : base_wf st3) by (by rewrite <- V3).
  assert (Hf3 : flag st3 e EVLIST_TIMEOUT = false) by (unfold flag; rewrite (proj1 (proj1 V3 e)); by rewrite <- Hf1, <- Hf2).
  assert (HC : forall t, is_common_timeout st3 t = is_common_timeout st t) by (intros t; by apply world_common, Q03).
  rewrite HC. destruct (deadline_sane st now tv abs Hnow Hs) as (Hd1 & Hd2 & Hd3).
  set (d := add_deadline now tv (is_common_timeout st tv) abs) in *.
  set (st4 := upd st3 e _).
  assert (W4 : base_wf st4) by (by apply wf_set_timeout).
  assert (Hf4 : flag st4 e EVLIST_TIMEOUT = false) by (unfold flag, st4; by rewrite get_upd_eq).
  assert (He4 : ev_timeout (get st4 e) = d) by (unfold st4; by rewrite get_upd_eq).
  destruct (insert_timeout_total st4 e W4 Hf4) as [st5 ->]; [|by eexists].
  rewrite He4. change (is_common_timeout st4 d) with (is_common_timeout st3 d). rewrite HC, Hd1. intros Hc.
  split; [by apply Hd3|]. unfold tv_sane in Hs. rewrite Hc in Hs. destruct Hs as (_ & _ & HL).
  intros x Hx Hxc. destruct (decide (x = e)) as [->|Hne]; [congruence|].
  revert Hx Hxc. change (is_common_timeout st4) with (is_common_timeout st3). unfold flag, st4. rewrite get_upd_ne by done. fold (flag st3 x EVLIST_TIMEOUT).
  rewrite HC, (proj1 (si_times _ _ _ _ Q03 x (fun Hx => Hne (eq_sym Hx)))). intros Hx Hxc. apply HL; [|done].
  destruct (si_gains _ _ _ _ Q03 x EVLIST_TIMEOUT PlaceTimeout Hx) as [|[? _]]; done.
Qed.

(** ** The whole addition. *)

(** The timers inside the common-timeout lists watch nothing else. *)
Definition inner_idle st : Prop := forall i ctl, common_timeout_queues (base st) !! i = Some ctl ->
  ev_events (get st (ctl_timeout_event ctl)) = 0.

Lemma flags_assert st e : base_wf st -> evutil_assert (negb (c_true (Z.ldiff (ev_flags (get st e)) EVLIST_ALL))) = Some tt.
Proof. intros W. by rewrite (fo_all _ (wf_flags _ W)). Qed.

(** The rescheduling of a list's own timer for a plain deadline returns. *)
Definition reschedules (fuel : nat) : Prop := forall st i ctl t,
  base_wf st -> push_safe st -> clock_norm st -> common_timeout_queues (base st) !! i = Some ctl ->
  ev_events (get st (ctl_timeout_event ctl)) = 0 -> tv_norm t ->
  is_Some (event_add_nolock_ fuel st (ctl_timeout_event ctl) (Some t) true).

Lemma add_level fuel st e tv abs : base_wf st -> push_safe st -> (e < max_events)%nat -> clock_norm st -> addable st e ->
  (forall t, tv = Some t -> tv_sane st t) ->
  (forall t, tv = Some t -> is_common_timeout st t = true -> inner_idle st /\ reschedules fuel) ->
  is_Some (event_add_nolock_ (S fuel) st e tv abs).
Proof.
  intros W S Hmax Hck Had Hs Hrec. cbn [event_add_nolock_]. rewrite flags_assert by done. cbn [mbind option_bind].
  case_if; [by eexists|].
  pose proof (heap_bound _ (wf_timers _ W)) as Hsz. fold (hp st) in Hsz.
  pose proof (hw_size _ _ (to_heap _ (wf_timers _ W))) as (Hs1 & Hs2 & _). fold (hp st) in Hs1, Hs2.
  destruct (match tv with Some _ => _ | None => _ end) as [rr h] eqn:Hres. fold (hp st) in Hres.
  case_if; [by eexists|]. cbv zeta. set (st1 := upd_base st _).
  assert (HR : base_wf st1 /\ heap_n h = heap_n (hp st) /\
    (is_Some tv -> flag st e EVLIST_TIMEOUT = false -> heap_n h < heap_a h)).
  { assert (Hno : h = hp st -> base_wf st1) by (intros ->; apply wf_view with st; [split; [|by repeat split]; intros x; by repeat split | done]).
    destruct tv as [t|]; [|injection Hres as <- <-; split_and!; [by apply Hno | done | by intros [? ?]]].
    destruct (flag st e EVLIST_TIMEOUT) eqn:Hf; cbn [negb] in Hres; [injection Hres as <- <-; split_and!; [by apply Hno | done | done]|].
    unfold min_heap_size_ in Hres. rewrite u32_small in Hres by lia.
    destruct (wf_reserve st (1 + heap_n (hp st)) rr h W ltac:(lia) Hres) as (W1 & Hn & [[-> ?] | [-> ->]]); [|done].
    split_and!; [done | done | lia]. }
  destruct HR as (W1 & Hn & Hroom).
  destruct (register_total st1 e W1 Had) as [[r0 st2] R2]. rewrite R2. cbn [mbind option_bind].
  destruct (register_ok _ _ _ _ R2 W1) as (W2 & G & Hr0 & _ & _). destruct (registration_base _ _ _ G) as [Hh2 Hc2].
  destruct tv as [tv|]; [|by eexists]. case_if; [by eexists|].
  assert (Q1 : stirs (fun x p => x = e /\ p = EVLIST_INSERTED) nobody st st1) by (apply stirs_upd_base; [done | intros b; split_and!; auto]).
  assert (Q2 : stirs (fun x p => x = e /\ p = EVLIST_INSERTED) nobody st st2) by (etrans; [exact Q1 | by eapply register_stirs]).
  assert (HC2 : forall t, is_common_timeout st2 t = is_common_timeout st t) by (intros t; by apply world_common, Q2).
  assert (HT2 : forall x, flag st2 x EVLIST_TIMEOUT = flag st x EVLIST_TIMEOUT) by (intros; by apply (registration_flag _ _ _ _ _ G)).
  assert (Hs2' : tv_sane st2 tv).
  { specialize (Hs tv eq_refl). unfold tv_sane in *. rewrite HC2. destruct (is_common_timeout st tv); [|done].
    destruct Hs as (? & ? & HL). split_and!; [done | done|]. intros x. rewrite HT2, (proj1 (si_times _ _ _ _ Q2 x (fun F => F))), HC2. apply HL. }
  assert (Hck2 : clock_norm st2) by (apply (world_clock st); [apply Q2 | exact Hck]).
  destruct (add_timeout_total st2 e tv abs W2 Hck2 Hs2') as (st3 & R3 & T3).
  destruct (timed_sane _ _ _ _ _ Hck2 Hs2' T3) as (Hc3 & Hnorm & _).
  rewrite R3. cbn [mbind option_bind]. destruct (is_common_timeout st2 tv) eqn:Hc; [|by eexists].
  assert (S2 : push_safe st2) by (eapply (push_safe_len st); [by rewrite Hc2 | done]).
  destruct (add_timeout_ok st2 e tv abs true st3 W2 S2 Hmax) as (W3 & F3 & _ & _).
  { rewrite HT2, Hh2. change (hp st1) with h. intros. by apply Hroom. }
  { exact R3. }
  destruct (common_magic _ _ Hc3) as [_ Hi].
  pose proof (common_idx_nonneg (ev_timeout (get st3 e))) as Hnn. unfold get_common_timeout_list.
  destruct (lookup_lt_is_Some_2 (common_timeout_queues (base st3)) (Z.to_nat (COMMON_TIMEOUT_IDX (ev_timeout (get st3 e))))) as [ctl Hctl].
  { unfold n_common_timeouts in Hi. lia. }
  rewrite Hctl. cbn [mbind option_bind]. case_decide; [|by eexists].
  rewrite HC2 in Hc. destruct (Hrec tv eq_refl Hc) as [Hidle HR].
  assert (Hin : ev_events (get st3 (ctl_timeout_event ctl)) = 0).
  { rewrite (stirs_events _ _ _ _ _ (tm_stirs _ _ _ _ _ T3)), (stirs_events _ _ _ _ _ Q2).
    pose proof (f_equal (fun l => l !! Z.to_nat (COMMON_TIMEOUT_IDX (ev_timeout (get st3 e))))
      (sw_inner _ _ (world_same _ _ (si_world _ _ _ _ (tm_stirs _ _ _ _ _ T3))))) as Hl.
    cbv beta in Hl. rewrite (sw_inner _ _ (world_same _ _ (si_world _ _ _ _ Q2))), !list_lookup_fmap, Hctl in Hl. cbn in Hl.
    destruct (common_timeout_queues (base st) !! _) as [c0|] eqn:Hq0; [|done]. cbn in Hl. injection Hl as ->. by apply (Hidle _ _ Hq0). }
  destruct (HR st3 _ ctl _ W3 (push_safe_len _ _ (af_common _ _ _ F3) S2) (world_clock _ _ (si_world _ _ _ _ (tm_stirs _ _ _ _ _ T3)) Hck2) Hctl Hin Hnorm) as [[r4 st4] R4].
  unfold plain in R4. rewrite R4. by eexists.
Qed.

Lemma reschedules_one fuel : reschedules (S fuel).
Proof.
  intros st i ctl t W S Hck Hl Hev Hn. pose proof (norm_not_common st t Hn) as Hnc.
  apply add_level; try done.
  - by apply (to_inner _ (wf_timers _ W) i).
  - unfold addable, is_io. rewrite Hev. split; [done|]. intros _ Hx. discriminate Hx.
  - intros t' [= <-]. unfold tv_sane. by rewrite Hnc.
  - intros t' [= <-]. by rewrite Hnc.
Qed.

Lemma add_nolock_total st e tv abs : base_wf st -> push_safe st -> (e < max_events)%nat -> clock_norm st ->
  addable st e -> inner_idle st -> (forall t, tv = Some t -> tv_sane st t) ->
  exists r st', event_add_nolock st e tv abs = Some (r, st').
Proof.
  intros W S He Hck Hfd Hidle Htv. destruct (add_level 1 st e tv abs) as [[r st'] R]; try done; [|by exists r, st'].
  intros t _ _. split; [done | apply reschedules_one].
Qed.

(** C7: [event_add] returns, without a failed assertion: on a well-formed base
    with normalised clocks, for a descriptor below 2^27 and a timeout that is
    a normalised duration or one that [event_base_init_common_timeout] made.
    The call it makes to itself, to move the timer of a common list, is the
    only one. *)
Theorem event_add_returns st e tv (Hwf : base_wf st) (Hmem : push_safe st) (Hinit : flag st e EVLIST_INIT = true)
  (Hclock : clock_norm st) (Hfd : addable st e) (Hidle : inner_idle st)
  (Htv : forall t, tv = Some t -> tv_sane st t) : exists r st', event_add st e tv = Some (r, st').
Proof.
  unfold event_add. case_if; [by eexists _, _|].
  apply add_nolock_total; try done. by apply (fo_init _ (wf_flags _ Hwf)).
Qed.
End AddTotal.
