(* ===== verification/EventApi.v ===== *)
(** * The API of the event base as a step relation

    [api_step] has a rule for every operation a program or a backend may call,
    with the preconditions the operation's documentation puts on its
    arguments.  [live] is what those preconditions maintain beyond [base_wf]:
    every event that is waiting, registered or active carries a closure, a
    callback, a priority and deadlines the loop can use. *)
From S2P Require Import Prelude Timeval MinHeap Event EventQueue EvMap EventCore EventLoop EventInv EventPrims EvMapInv EventOps EventDel EventLoopInv EventTimers EventDeadlines EventMoves EventAddTotal.

Section Api.
Context {B : Type} `{Eventop B} `{Platform}.
Implicit Types (st : state B) (e x : eid).

(** ** Arguments. *)

(** A function a program can name: the static callbacks of event.c are not. *)
Definition user_fn (f : Z) : Prop := f <> common_timeout_callback_ptr /\ f <> event_once_cb_ptr.
(** The timer inside a list of common timeouts; an event scheduled once. *)
Definition inner st x : Prop := x ∈ ctl_timeout_event <$> common_timeout_queues (base st).
Definition once_entry st x : Prop := x ∈ eo_ev <$> once_events (base st).

(** A timeout: a normalised duration, or one that
    [event_base_init_common_timeout] made of a normalised one. *)
Definition tv_arg st (t : timeval) : Prop :=
  if is_common_timeout st t then usec32 t /\ tv_norm (plain true t) else tv_norm t.
(** What [event_assign] asks: not a signal and a descriptor in one event, and
    a descriptor or a signal number the maps can hold. *)
Definition event_args (fd evs cb : Z) : Prop :=
  user_fn cb /\ has evs EV_SIGNAL && has evs EV_IO = false /\
  (has evs EV_IO = true -> fd < 2 ^ 27) /\ (has evs EV_SIGNAL = true -> 0 <= s32 fd < 2 ^ 27).
(** Memory for an event that is in no place of the base, and not inside a
    list of common timeouts. *)
Definition unused st e : Prop := detached st e /\ (e < max_events)%nat /\ ~ inner st e.

(** The closure of an event agrees with its flags. *)
Definition closure_ok (ev : event) : Prop :=
  let c := ev_closure ev in
  let init := has (ev_flags ev) EVLIST_INIT = true in
  let fin := has (ev_flags ev) EVLIST_FINALIZING = true in
  ((c = EV_CLOSURE_EVENT \/ c = EV_CLOSURE_EVENT_SIGNAL \/ c = EV_CLOSURE_EVENT_PERSIST) /\ init) \/
  c = EV_CLOSURE_CB_SELF \/
  ((c = EV_CLOSURE_EVENT_FINALIZE \/ c = EV_CLOSURE_EVENT_FINALIZE_FREE) /\ init /\ fin) \/
  (c = EV_CLOSURE_CB_FINALIZE /\ fin).
(** An event or callback the program has set up, and not one of
    [event_base_once], to which it has no pointer. *)
Definition ready st e : Prop := closure_ok (get st e) /\ ev_callback (get st e) <> event_once_cb_ptr.

(** ** The steps. *)
Inductive api_step : state B -> state B -> Prop :=
  | step_assign st e fd evs cb arg :
      unused st e -> event_args fd evs cb -> api_step st (event_assign st e fd evs cb arg).2
  | step_deferred_init st e p fn arg :
      unused st e -> user_fn fn -> 0 <= p -> (0 < nactivequeues st -> p < nactivequeues st) ->
      api_step st (event_deferred_cb_init_ st e p fn arg)
  | step_add st e tv r st' : flag st e EVLIST_INIT = true -> ev_callback (get st e) <> event_once_cb_ptr ->
      (forall t, tv = Some t -> tv_arg st t) -> event_add st e tv = Some (r, st') -> api_step st st'
  | step_del st e r st' : event_del st e = Some (r, st') -> api_step st st'
  | step_remove_timer st e r st' : event_remove_timer st e = Some (r, st') -> api_step st st'
  | step_priority_set st e p : api_step st (event_priority_set st e p).2
  | step_active st e res n st' : ready st e -> event_active st e res n = Some st' -> api_step st st'
  | step_active_later st e res st' : ready st e -> event_active_later_nolock_ st e res = Some st' -> api_step st st'
  | step_activate st e r st' : ready st e -> event_callback_activate_nolock_ st e = Some (r, st') -> api_step st st'
  | step_cancel st e f r st' : event_callback_cancel_nolock_ st e f = Some (r, st') -> api_step st st'
  | step_finalize st fl e cb r st' : flag st e EVLIST_INIT = true -> user_fn cb ->
      event_finalize_nolock_ st fl e cb = Some (r, st') -> api_step st st'
  | step_callback_finalize st e cb st' : ready st e -> user_fn cb ->
      event_callback_finalize_nolock_ st e cb = Some st' -> api_step st st'
  | step_schedule st e r st' : ready st e -> event_deferred_cb_schedule_ st e = Some (r, st') -> api_step st st'
  | step_active_by_fd st fd evs st' : event_base_active_by_fd st fd evs = Some st' -> api_step st st'
  | step_active_by_signal st sig st' : event_base_active_by_signal st sig = Some st' -> api_step st st'
  | step_io_active st fd evs st' : evmap_io_active_ st fd evs = Some st' -> api_step st st'
  | step_signal_active st sig n st' : evmap_signal_active_ st sig n = Some st' -> api_step st st'
  | step_priority_init st n : (forall e, ev_pri (get st e) < n) -> api_step st (event_base_priority_init st n).2
  | step_init_common st d new r st' : unused st new ->
      event_base_init_common_timeout st d new = Some (r, st') -> api_step st st'
  | step_once st fd evs cb arg tv new r st' : unused st new -> ~ once_entry st new ->
      current_event (base st) <> Some new -> (has evs EV_IO = true -> fd < 2 ^ 27) ->
      (forall t, tv = Some t -> tv_arg st t) ->
      event_base_once st fd evs cb arg tv new = Some (r, st') -> api_step st st'
  | step_max_events st t c : api_step st (event_base_get_max_events st t c).2
  | step_add_virtual st : api_step st (event_base_add_virtual_ st)
  | step_del_virtual st st' : event_base_del_virtual_ st = Some st' -> api_step st st'
  | step_loopbreak st : api_step st (event_base_loopbreak st).2
  | step_loopcontinue st : api_step st (event_base_loopcontinue st).2
  | step_loopexit st : api_step st (event_loopexit_cb st)
  | step_update_time st : api_step st (update_time_cache st)
  | step_clock st m w : tv_norm m -> api_step st {| st with monotonic_now := m; wall_now := w |}
  | step_backend st bk : api_step st (set_evbase st bk).

(** ** The invariant. *)

(** Events of [event_base_once]: the one whose callback is running, and the
    one being added, which is not in the list yet. *)
Record scope := Scope { running_once : option eid; new_once : option eid }.
Definition at_rest : scope := Scope None None.

Definition is_zero (t : timeval) : Prop := tv_sec t = 0 /\ tv_usec t = 0.
Implicit Type (s : scope).
Record event_ok s st x : Prop := {
  eo_pri : 0 < nactivequeues st -> ev_pri (get st x) < nactivequeues st;
  eo_base : flag st x EVLIST_INIT = true -> ev_base (get st x) = true;
  eo_wait : flag st x EVLIST_TIMEOUT = true ->
    tv_arg st (ev_timeout (get st x)) /\ flag st x EVLIST_INIT = true /\ flag st x EVLIST_FINALIZING = false;
  eo_inserted : flag st x EVLIST_INSERTED = true -> flag st x EVLIST_INIT = true;
  eo_persist : ev_closure (get st x) = EV_CLOSURE_EVENT_PERSIST ->
    is_zero (ev_io_timeout (get st x)) \/
    (tv_arg st (ev_io_timeout (get st x)) /\ tv_arg st (ev_timeout (get st x)) /\
     is_same_common_timeout (ev_timeout (get st x)) (ev_io_timeout (get st x)) = true);
  eo_fd : flag st x EVLIST_INIT = true -> addable st x;
  eo_closure : flag st x EVLIST_INIT = true \/ flag st x EVLIST_ACTIVE = true \/ flag st x EVLIST_ACTIVE_LATER = true ->
    closure_ok (get st x);
  eo_ncalls : short (ev_ncalls (get st x));
  eo_common : ev_callback (get st x) = common_timeout_callback_ptr -> Z.of_nat (Z.to_nat (ev_arg (get st x))) < n_common_timeouts st;
  eo_once : ev_callback (get st x) = event_once_cb_ptr ->
    (ev_arg (get st x) = Z.of_nat x /\ flag st x EVLIST_INIT = true /\ flag st x EVLIST_FINALIZING = false /\
     has (ev_events (get st x)) EV_PERSIST = false /\ ev_closure (get st x) = EV_CLOSURE_EVENT) /\
    (current_event (base st) = Some x -> running_once s = Some x) /\
    (detached st x \/ (once_entry st x \/ new_once s = Some x) /\ running_once s <> Some x);
  eo_inner : inner st x -> flag st x EVLIST_INIT = true /\ ev_events (get st x) = 0 /\
    ev_closure (get st x) <> EV_CLOSURE_EVENT_PERSIST /\ ev_callback (get st x) <> event_once_cb_ptr
}.
Record fit s st : Prop := {
  lv_clock : clock_norm st;
  lv_queues : nactivequeues st < EVENT_MAX_PRIORITIES;
  lv_events : forall x, event_ok s st x;
  lv_running : forall x, running_once s = Some x -> once_entry st x /\ current_event (base st) = Some x
}.
Definition live s st : Prop := base_wf st /\ fit s st.

(** ** What keeps it. *)
Lemma detached_dec st x : detached st x \/ ~ detached st x.
Proof.
  unfold detached. destruct (flag st x EVLIST_TIMEOUT), (flag st x EVLIST_ACTIVE),
    (flag st x EVLIST_ACTIVE_LATER), (flag st x EVLIST_INSERTED); intuition congruence.
Qed.
Lemma detached_places st x : detached st x <-> forall p, place_flag p -> flag st x p = false.
Proof.
  split.
  - intros (? & ? & ? & ?) p []; done.
  - intros Hp. split_and!; apply Hp; constructor.
Qed.
Lemma gained_place st st' x : detached st x -> ~ detached st' x ->
  exists p, place_flag p /\ flag st' x p = true /\ flag st x p = false.
Proof.
  intros (DT & DA & DL & DI) D'.
  destruct (flag st' x EVLIST_TIMEOUT) eqn:HT; [exists EVLIST_TIMEOUT; by split_and!; [constructor| |]|].
  destruct (flag st' x EVLIST_ACTIVE) eqn:HA; [exists EVLIST_ACTIVE; by split_and!; [constructor| |]|].
  destruct (flag st' x EVLIST_ACTIVE_LATER) eqn:HL; [exists EVLIST_ACTIVE_LATER; by split_and!; [constructor| |]|].
  destruct (flag st' x EVLIST_INSERTED) eqn:HI; [exists EVLIST_INSERTED; by split_and!; [constructor| |]|].
  destruct D'. by split_and!.
Qed.
Lemma placed_ready s st x : fit s st -> ~ detached st x -> closure_ok (get st x).
Proof.
  intros L Hd. pose proof (lv_events _ _ L x) as E. apply (eo_closure _ _ _ E).
  destruct (flag st x EVLIST_ACTIVE) eqn:HA; [auto|]. destruct (flag st x EVLIST_ACTIVE_LATER) eqn:HL; [auto|]. left.
  destruct (flag st x EVLIST_TIMEOUT) eqn:HT; [by apply (eo_wait _ _ _ E)|].
  destruct (flag st x EVLIST_INSERTED) eqn:HI; [by apply (eo_inserted _ _ _ E)|]. destruct Hd. by split_and!.
Qed.

Lemma tv_arg_world st st' t : world st' = world st -> tv_arg st' t <-> tv_arg st t.
Proof. intros Hw. unfold tv_arg. by rewrite (world_common _ _ t Hw). Qed.
Lemma inner_world st st' x : world st' = world st -> inner st' x <-> inner st x.
Proof. intros Hw%world_same. unfold inner. by rewrite (sw_inner _ _ Hw). Qed.
Lemma moved_statics ev ev' : moved ev ev' -> ev_callback ev' = ev_callback ev /\ ev_arg ev' = ev_arg ev /\ ev_fd ev' = ev_fd ev /\
  ev_events ev' = ev_events ev /\ ev_closure ev' = ev_closure ev /\ ev_pri ev' = ev_pri ev /\ ev_base ev' = ev_base ev.
Proof. intros M. pose proof (mv_statics _ _ M) as Hs. unfold statics in Hs. injection Hs as -> -> -> -> -> -> ->. by split_and!. Qed.
Lemma moved_closure ev ev' : moved ev ev' -> closure_ok ev' <-> closure_ok ev.
Proof.
  intros M. destruct (moved_statics _ _ M) as (_ & _ & _ & _ & Hc & _).
  unfold closure_ok. by rewrite Hc, (mv_init _ _ M), (mv_fin _ _ M).
Qed.

(** An event that may be put into a place. *)
Definition may_place s st x : Prop := ev_callback (get st x) = event_once_cb_ptr ->
  new_once s = Some x /\ running_once s <> Some x.
Definition may_queue s st x : Prop := closure_ok (get st x) /\ may_place s st x.
Lemma ready_may s st x : ready st x -> may_queue s st x.
Proof. intros [Hc Hn]. by split. Qed.

(** An event that only changed place. *)
Definition queue_flag (p : Z) : Prop := p = EVLIST_ACTIVE \/ p = EVLIST_ACTIVE_LATER.
Lemma event_ok_kept s st st' x : fit s st -> world st' = world st -> moved (get st x) (get st' x) ->
  same_times (get st x) (get st' x) ->
  (forall p, place_flag p -> flag st' x p = true ->
     flag st x p = true \/ (queue_flag p /\ (may_queue s st x \/ ~ detached st x))) ->
  event_ok s st' x.
Proof.
  intros L Hw M [HT HI] Hg. pose proof (lv_events _ _ L x) as E. pose proof (world_same _ _ Hw) as Hw'.
  destruct (moved_statics _ _ M) as (Scb & Sarg & Sfd & Sev & Scl & Spri & Sb).
  assert (Hinit : flag st' x EVLIST_INIT = flag st x EVLIST_INIT) by apply M.
  assert (Hfin : flag st' x EVLIST_FINALIZING = flag st x EVLIST_FINALIZING) by apply M.
  assert (Hno : forall p, place_flag p -> ~ queue_flag p -> flag st' x p = true -> flag st x p = true)
    by (intros p Hp Hq Hf; destruct (Hg p Hp Hf) as [|[? _]]; done).
  assert (Hcl : (may_queue s st x \/ ~ detached st x) -> closure_ok (get st x)) by (intros [[? _]|]; [done | by eapply placed_ready]).
  split; rewrite ?(sw_queues _ _ Hw'), ?Spri, ?Sb, ?Hinit, ?Hfin, ?Scl, ?Scb, ?Sarg, ?Sev.
  - apply E.
  - apply E.
  - intros Hf. apply Hno in Hf; [|constructor | by intros [|]]. rewrite HT, (tv_arg_world _ _ _ Hw). by apply E.
  - intros Hf. apply Hno in Hf; [|constructor | by intros [|]]. by apply (eo_inserted _ _ _ E).
  - intros Hc. rewrite HT, !(tv_arg_world _ _ _ Hw). destruct HI as [-> | ->]; [by apply E | by left].
  - unfold addable, is_io. rewrite Sev, Sfd. apply (eo_fd _ _ _ E).
  - intros Hf. apply (moved_closure _ _ M). destruct Hf as [Hf|Hf]; [apply E; auto|].
    destruct Hf as [Hf|Hf]; [destruct (Hg _ PlaceActive Hf) as [Hx|[_ Hx]] | destruct (Hg _ PlaceLater Hf) as [Hx|[_ Hx]]];
      first [by apply Hcl | apply E; auto].
  - by apply (mv_ncalls _ _ M), E.
  - unfold n_common_timeouts. rewrite (world_lists _ _ Hw). apply E.
  - intros Hc. unfold once_entry. rewrite (sw_once _ _ Hw'), (sw_current _ _ Hw').
    destruct (eo_once _ _ _ E Hc) as ((? & ? & ? & ? & ?) & H2 & H3). split_and!; [done..|].
    destruct (detached_dec st x) as [D|D]; [|right; by destruct H3].
    destruct (detached_dec st' x) as [D'|D']; [by left|]. right.
    destruct (gained_place _ _ _ D D') as (p & Hp & Hf & Hn).
    destruct (Hg p Hp Hf) as [Hx|[_ [[_ Hm]|Hx]]]; [congruence | | done].
    destruct (Hm Hc). split; [by right | done].
  - rewrite (inner_world _ _ _ Hw). apply (eo_inner _ _ _ E).
Qed.

(** The events outside [E] only changed place. *)
Lemma fit_frame s st st' (E : eid -> Prop) : fit s st -> world st' = world st ->
  (forall x, E x \/ ~ E x) -> (forall x, E x -> event_ok s st' x) ->
  (forall x, ~ E x -> moved (get st x) (get st' x) /\ same_times (get st x) (get st' x) /\
     forall p, place_flag p -> flag st' x p = true -> flag st x p = true \/ (queue_flag p /\ (may_queue s st x \/ ~ detached st x))) ->
  fit s st'.
Proof.
  intros L Hw Hdec HE HN. pose proof (world_same _ _ Hw) as Hw'. split.
  - by apply (world_clock _ _ Hw), (lv_clock _ _ L).
  - rewrite (sw_queues _ _ Hw'). apply (lv_queues _ _ L).
  - intros x. destruct (Hdec x) as [Hx|Hx]; [by apply HE|]. destruct (HN x Hx) as (? & ? & ?). by eapply event_ok_kept.
  - unfold once_entry. rewrite (sw_once _ _ Hw'), (sw_current _ _ Hw'). apply (lv_running _ _ L).
Qed.
Lemma fit_stirs s G st st' : fit s st -> stirs G nobody st st' ->
  (forall x p, G x p -> queue_flag p /\ (may_queue s st x \/ ~ detached st x)) -> fit s st'.
Proof.
  intros L S HG. apply (fit_frame s st st' nobody L); [apply S | intros x; right; by intros [] | by intros x []|].
  intros x _. split_and!; [apply (si_moved _ _ _ _ S) | apply (si_times _ _ _ _ S); by intros []|].
  intros p Hp Hf. destruct (si_gains _ _ _ _ S x p Hp Hf); [by left | right; auto].
Qed.
Lemma fit_still s st st' : fit s st -> stirs nothing nobody st st' -> fit s st'.
Proof. intros L S. by eapply fit_stirs. Qed.

(** Only [e] changed. *)
Lemma fit_one s st st' e : fit s st -> world st' = world st ->
  (forall x, x <> e -> get st' x = get st x) -> event_ok s st' e -> fit s st'.
Proof.
  intros L Hw Hx He. apply (fit_frame s st st' (fun x => x = e) L Hw).
  - intros x. destruct (decide (x = e)); auto.
  - by intros x ->.
  - intros x Hne. unfold flag. rewrite (Hx x Hne). split_and!; [done..|]. by left.
Qed.

(** ** The lists of common timeouts only grow; the calls of a running signal
    closure are only stopped. *)
Record steady st st' : Prop := {
  sd_lists : n_common_timeouts st <= n_common_timeouts st';
  sd_ncalls : closure_ncalls (base st') = closure_ncalls (base st) \/ closure_ncalls (base st') = 0;
  sd_current : current_event (base st') = current_event (base st);
  sd_queues : (forall b, mm_ok b = true) -> 0 < nactivequeues st -> 0 < nactivequeues st'
}.
#[export] Instance steady_preorder : PreOrder steady.
Proof.
  split; [split; auto; lia|]. intros a b c [L1 N1 C1 Q1] [L2 N2 C2 Q2]. split; [lia | | congruence | auto].
  destruct N2 as [->|]; auto.
Qed.
Lemma steady_stirs G T st st' : stirs G T st st' -> steady st st'.
Proof.
  intros S. pose proof (world_same _ _ (si_world _ _ _ _ S)) as Hw.
  split; [|apply S | apply (sw_current _ _ Hw) | by rewrite (sw_queues _ _ Hw)].
  unfold n_common_timeouts. rewrite (world_lists _ _ (si_world _ _ _ _ S)). lia.
Qed.
Lemma steady_base st st' : base st' = base st -> steady st st'.
Proof. intros Hb. split; unfold n_common_timeouts, nactivequeues; rewrite Hb; auto; lia. Qed.
Lemma steady_upd st st1 e f : steady st st1 -> steady st (upd st1 e f).
Proof. intros S. etrans; [exact S | by apply steady_base]. Qed.
Lemma push_safe_steady st st' : steady st st' -> push_safe st' -> push_safe st.
Proof.
  intros S [?|Hc]; [by left|right]. pose proof (sd_lists _ _ S) as Hl. unfold n_common_timeouts in Hl. rewrite Hc in Hl.
  apply nil_length_inv. cbn in Hl. lia.
Qed.

Definition anything x (p : Z) : Prop := True.
Definition anybody x : Prop := True.
Lemma stirs_any G T st st' : stirs G T st st' -> stirs anything anybody st st'.
Proof. by apply stirs_weaken. Qed.

(** What [event_add_nolock_] touches: the places and deadlines of the event
    and of the timers inside the lists.  It sets the deadline from the clock,
    and fails only for a finalizing event or for the want of memory or of the
    backend's consent. *)
Definition add_gains st e x (p : Z) : Prop := (x = e /\ (p = EVLIST_INSERTED \/ p = EVLIST_TIMEOUT)) \/ inner st x.
Definition add_times st e x : Prop := x = e \/ inner st x.
Record settled st e (tv : option timeval) (abs : bool) (r : Z) st' : Prop := {
  se_stirs : stirs (add_gains st e) (add_times st e) st st';
  se_deadline t : tv = Some t -> r <> -1 -> ~ inner st e ->
    ev_timeout (get st' e) = add_deadline (gettime st).1 t (is_common_timeout st t) abs;
  se_fails : r = -1 -> flag st e EVLIST_FINALIZING = true \/ wants_registration st e = true \/ exists b, mm_ok b = false
}.

Lemma reserve_fails (h h' : min_heap) k : min_heap_reserve_ mm_ok h k = (-1, h') -> exists b, mm_ok b = false.
Proof.
  unfold min_heap_reserve_. intros R. case_if_in R; [|done]. cbv zeta in R. set (b := _ * 8) in R.
  destruct (mm_ok b) eqn:Hb; [done | by exists b].
Qed.
Lemma add_settled fuel st e tv abs r st' : event_add_nolock_ fuel st e tv abs = Some (r, st') -> settled st e tv abs r st'.
Proof.
  revert st e tv abs r st'. induction fuel as [|fuel IH]; intros st e tv abs r st' R; [done|].
  cbn [event_add_nolock_] in R. bind_in R u Qa. destruct (flag st e EVLIST_FINALIZING) eqn:Hfin.
  { injection R as <- <-. split; [done | done | by left]. }
  destruct (match tv with Some _ => _ | None => _ end) as [rr h] eqn:Hres.
  destruct (Z.eqb_spec rr (-1)) as [->|_].
  { injection R as <- <-. split; [done | done|]. intros _. do 2 right. destruct tv; [|done].
    case_if_in Hres; [by eapply reserve_fails | done]. }
  cbv zeta in R. set (st1 := upd_base st _) in R.
  assert (S1 : forall G, stirs G nobody st st1) by (intros G; apply stirs_upd_base; [done | intros b; split_and!; auto]).
  bind_in R p Q1. destruct p as [r2 st2].
  set (G1 := fun x p => x = e /\ p = EVLIST_INSERTED).
  assert (S12 : stirs G1 nobody st st2) by (etrans; [apply S1 | by eapply register_stirs]).
  assert (S2 : stirs (add_gains st e) (add_times st e) st st2).
  { eapply stirs_weaken; [| |exact S12]; [|by intros x []]. intros x p [-> ->]. left. auto. }
  assert (Hw : r2 = -1 -> flag st e EVLIST_FINALIZING = true \/ wants_registration st e = true \/ exists b, mm_ok b = false).
  { intros ->. right; left. unfold event_add_register in Q1. fold (wants_registration st1 e) in Q1.
    change (wants_registration st e) with (wants_registration st1 e). by case_if_in Q1. }
  destruct tv as [tv|]; [|injection R as <- <-; by split]. case_if_in R; [injection R as <- <-|].
  { split; [done | |done]. intros t _ Hr. by apply Z.eqb_eq in E. }
  bind_in R q Q3. destruct q as [c st3]. destruct (add_timeout_run _ _ _ _ _ _ Q3) as [-> T3].
  assert (S13 : stirs (add_gains st e) (add_times st e) st st3).
  { etrans; [exact S2|]. eapply stirs_weaken; [| |exact (tm_stirs _ _ _ _ _ T3)].
    - intros x p [-> ->]. left. auto.
    - intros x <-. by left. }
  assert (HD : ev_timeout (get st3 e) = add_deadline (gettime st).1 tv (is_common_timeout st tv) abs).
  { rewrite (tm_deadline _ _ _ _ _ T3). rewrite (world_gettime st st2 (si_world _ _ _ _ S2)).
    by rewrite (world_common st st2 tv (si_world _ _ _ _ S2)). }
  assert (A3 : settled st e (Some tv) abs r2 st3) by (split; [done | by intros t [= <-] | done]).
  destruct (is_common_timeout st2 tv); [|by injection R as <- <-].
  bind_in R ctl Q4. case_decide; [|by injection R as <- <-].
  bind_in R q Q5. destruct q as [r5 st5]. injection R as <- <-.
  assert (Hin : forall x, inner st3 x <-> inner st x) by (intros x; apply inner_world, S13).
  assert (Hc : inner st (ctl_timeout_event ctl)).
  { apply Hin. unfold inner. apply list_elem_of_fmap. exists ctl. split; [done|]. by eapply list_elem_of_lookup_2. }
  pose proof (IH _ _ _ _ _ _ Q5) as [S5 _ _].
  split; [|intros t [= <-] _ Hne|done].
  - etrans; [exact S13|]. eapply stirs_weaken; [| |exact S5].
    + intros x p [[-> _]|Hx]; right; [done | by apply Hin].
    + intros x [-> |Hx]; right; [done | by apply Hin].
  - rewrite <- HD. apply (si_times _ _ _ _ S5). intros [-> |Hx]; [done | by apply Hne, Hin].
Qed.
Lemma add_stirs fuel st e tv abs r st' : event_add_nolock_ fuel st e tv abs = Some (r, st') -> stirs anything anybody st st'.
Proof. intros R. eapply stirs_any, se_stirs, add_settled, R. Qed.

(** ** Adding an event. *)
Lemma norm_high t : tv_norm t -> Z.ldiff (tv_usec t) MICROSECONDS_MASK = 0.
Proof. intros Hn. rewrite high_value. unfold tv_norm in Hn. rewrite Z.div_small by lia. done. Qed.
Lemma same_common_high a b : is_same_common_timeout a b = true <->
  Z.ldiff (tv_usec a) MICROSECONDS_MASK = Z.ldiff (tv_usec b) MICROSECONDS_MASK.
Proof. apply Z.eqb_eq. Qed.
Lemma deadline_same st now tv : tv_norm now -> tv_arg st tv ->
  is_same_common_timeout (add_deadline now tv (is_common_timeout st tv) false) tv = true.
Proof.
  intros Hn Ha. apply same_common_high. unfold tv_arg in Ha. unfold add_deadline.
  destruct (is_common_timeout st tv).
  - cbv zeta. cbn [tv_usec]. change {| tv with tv_usec := Z.land (tv_usec tv) MICROSECONDS_MASK |} with (plain true tv).
    pose proof (timeradd_norm now (plain true tv) Hn (proj2 Ha)) as Hs. apply high_lor. unfold tv_norm in Hs. lia.
  - rewrite !norm_high; [done | done | by apply timeradd_norm].
Qed.
Lemma tv_arg_sane s st t : fit s st -> tv_arg st t -> tv_sane st t.
Proof.
  intros L Ha. unfold tv_arg, tv_sane in *. destruct (is_common_timeout st t); [|done]. destruct Ha as [Hu Hp].
  split_and!; [done..|]. intros x Hx Hc. destruct (eo_wait _ _ _ (lv_events _ _ L x) Hx) as [Hw _].
  unfold tv_arg in Hw. rewrite Hc in Hw. apply Hw.
Qed.

(** What an addition may pass for the interval of a persistent event. *)
Definition interval_ok st e (tv : timeval) : Prop := ev_closure (get st e) = EV_CLOSURE_EVENT_PERSIST ->
  is_zero (ev_io_timeout (get st e)) \/
  (tv_arg st (ev_io_timeout (get st e)) /\ is_same_common_timeout tv (ev_io_timeout (get st e)) = true).

(** The event added: its deadline is new, and it may have been registered. *)
Lemma event_ok_added s st st' e : fit s st -> world st' = world st -> moved (get st e) (get st' e) ->
  flag st e EVLIST_INIT = true -> flag st e EVLIST_FINALIZING = false -> may_place s st e ->
  (forall p, place_flag p -> flag st' e p = true -> flag st e p = true \/ p = EVLIST_INSERTED \/ p = EVLIST_TIMEOUT) ->
  (flag st' e EVLIST_TIMEOUT = true -> tv_arg st (ev_timeout (get st' e))) ->
  (ev_closure (get st e) = EV_CLOSURE_EVENT_PERSIST -> is_zero (ev_io_timeout (get st' e)) \/
    (tv_arg st (ev_io_timeout (get st' e)) /\ tv_arg st (ev_timeout (get st' e)) /\
     is_same_common_timeout (ev_timeout (get st' e)) (ev_io_timeout (get st' e)) = true)) ->
  event_ok s st' e.
Proof.
  intros L Hw M Hi Hf Hm Hg HT HP. pose proof (lv_events _ _ L e) as E. pose proof (world_same _ _ Hw) as Hw'.
  destruct (moved_statics _ _ M) as (Scb & Sarg & Sfd & Sev & Scl & Spri & Sb).
  assert (Hinit : flag st' e EVLIST_INIT = flag st e EVLIST_INIT) by apply M.
  assert (Hfin : flag st' e EVLIST_FINALIZING = flag st e EVLIST_FINALIZING) by apply M.
  split; rewrite ?(sw_queues _ _ Hw'), ?Spri, ?Sb, ?Hinit, ?Hfin, ?Scl, ?Scb, ?Sarg, ?Sev.
  - apply (eo_pri _ _ _ E).
  - apply (eo_base _ _ _ E).
  - intros Hx. by rewrite (tv_arg_world _ _ _ Hw); auto.
  - done.
  - rewrite !(tv_arg_world _ _ _ Hw). exact HP.
  - unfold addable, is_io. rewrite Sev, Sfd. apply (eo_fd _ _ _ E).
  - intros _. apply (moved_closure _ _ M), (eo_closure _ _ _ E). auto.
  - by apply (mv_ncalls _ _ M), (eo_ncalls _ _ _ E).
  - unfold n_common_timeouts. rewrite (world_lists _ _ Hw). apply (eo_common _ _ _ E).
  - intros Hc. unfold once_entry. rewrite (sw_once _ _ Hw'), (sw_current _ _ Hw').
    destruct (eo_once _ _ _ E Hc) as ((? & ? & ? & ? & ?) & H2 & _). destruct (Hm Hc). split_and!; [done..|]. right. split; [by right | done].
  - rewrite (inner_world _ _ _ Hw). apply (eo_inner _ _ _ E).
Qed.

Lemma add_fit fuel s st e tv abs r st' : fit s st -> flag st e EVLIST_INIT = true -> may_place s st e ->
  (forall t, tv = Some t -> tv_arg st t) -> (forall t, tv = Some t -> abs = true -> interval_ok st e t) ->
  event_add_nolock_ fuel st e tv abs = Some (r, st') -> fit s st'.
Proof.
  revert st e tv abs r st'. induction fuel as [|fuel IH]; intros st e tv abs r st' L Hi Hm Ha Hio R; [done|].
  cbn [event_add_nolock_] in R. bind_in R u Qa. destruct (flag st e EVLIST_FINALIZING) eqn:Hf; [by injection R as _ <-|].
  destruct (match tv with Some _ => _ | None => _ end) as [rr h]. case_if_in R; [by injection R as _ <-|].
  cbv zeta in R. set (st1 := upd_base st _) in R.
  set (G := fun x p => x = e /\ (p = EVLIST_INSERTED \/ p = EVLIST_TIMEOUT)).
  set (G1 := fun x p => x = e /\ p = EVLIST_INSERTED).
  assert (S1 : stirs G1 nobody st st1) by (apply stirs_upd_base; [done | intros b; split_and!; auto]).
  bind_in R p Q1. destruct p as [r2 st2].
  assert (S2 : stirs G1 nobody st st2) by (etrans; [exact S1 | by eapply register_stirs]).
  pose proof (si_world _ _ _ _ S2) as Hw2.
  assert (Hend : forall st', stirs G (eq e) st st' ->
    (flag st' e EVLIST_TIMEOUT = true -> tv_arg st (ev_timeout (get st' e))) ->
    (ev_closure (get st e) = EV_CLOSURE_EVENT_PERSIST -> is_zero (ev_io_timeout (get st' e)) \/
      (tv_arg st (ev_io_timeout (get st' e)) /\ tv_arg st (ev_timeout (get st' e)) /\
       is_same_common_timeout (ev_timeout (get st' e)) (ev_io_timeout (get st' e)) = true)) -> fit s st').
  { intros st0 S HT HP. apply (fit_frame s st st0 (eq e) L); [apply S | intros x; destruct (decide (e = x)); auto | |].
    - intros x <-. apply (event_ok_added s st); try done; [apply S | apply S|].
      intros p Hp Hx. destruct (si_gains _ _ _ _ S e p Hp Hx) as [|[_ ?]]; auto.
    - intros x Hx. split_and!; [apply S | by apply S|]. intros p Hp Hx'.
      destruct (si_gains _ _ _ _ S x p Hp Hx') as [|[-> _]]; [by left | done]. }
  assert (S2' : stirs G (eq e) st st2) by (eapply stirs_weaken; [| |exact S2]; [intros x p [-> ->]; by split; [|left] | by intros x []]).
  destruct (si_times _ _ _ _ S2 e (fun F => F)) as [HT2 HI2].
  assert (L2 : fit s st2).
  { apply Hend; [done | |].
    - intros Hx. rewrite HT2. destruct (si_gains _ _ _ _ S2 e _ PlaceTimeout Hx) as [Hx'|[_ Hx']]; [|done].
      by apply (eo_wait _ _ _ (lv_events _ _ L e)).
    - intros Hc. rewrite HT2. destruct HI2 as [-> | ->]; [by apply (eo_persist _ _ _ (lv_events _ _ L e)) | by left]. }
  destruct tv as [tv|]; [|by injection R as _ <-]. case_if_in R; [by injection R as _ <-|].
  bind_in R q Q3. destruct q as [c st3]. destruct (add_timeout_run _ _ _ _ _ _ Q3) as [-> T3].
  pose proof (tm_stirs _ _ _ _ _ T3) as S3.
  assert (HC2 : forall t, is_common_timeout st2 t = is_common_timeout st t) by (intros t; by apply world_common).
  assert (Hat : tv_arg st2 tv) by (apply (tv_arg_world _ _ _ Hw2); by apply Ha).
  pose proof (lv_clock _ _ L2) as Hck2.
  destruct (timed_sane _ _ _ _ _ Hck2 (tv_arg_sane _ _ _ L2 Hat) T3) as (Hc3 & Hn3 & Hu3).
  assert (Hw23 : world st3 = world st2) by apply S3. assert (Hw3 : world st3 = world st) by congruence.
  assert (S13 : stirs G (eq e) st st3).
  { etrans; [exact S2'|]. eapply stirs_weaken; [| |exact S3]; [intros x p [-> ->]; by split; [|right] | done]. }
  assert (Hcl2 : ev_closure (get st2 e) = ev_closure (get st e)) by apply (moved_statics _ _ (si_moved _ _ _ _ S2 e)).
  assert (Harg3 : tv_arg st (ev_timeout (get st3 e))).
  { apply (tv_arg_world st st3 _ Hw3). unfold tv_arg. rewrite Hc3. destruct (is_common_timeout st2 tv); [|done]. auto. }
  assert (L3 : fit s st3).
  { apply Hend; [done | done|]. intros Hc. destruct (tm_io _ _ _ _ _ T3) as [-> | ->]; [|by left].
    rewrite Hcl2, Hc, Z.eqb_refl, (tm_deadline _ _ _ _ _ T3) in *. cbn [andb]. destruct abs; cbn [negb].
    - change (add_deadline (gettime st2).1 tv (is_common_timeout st2 tv) true) with tv in *.
      destruct HI2 as [-> | ->]; [|by left]. destruct (Hio tv eq_refl eq_refl Hc) as [Hz | [? ?]]; [by left | by right].
    - right. split_and!; [by apply Ha | done |]. apply deadline_same; [by apply gettime_norm | done]. }
  destruct (is_common_timeout st2 tv) eqn:Hc; [|by injection R as _ <-].
  bind_in R ctl Q4. case_decide; [|by injection R as _ <-]. bind_in R q Q5. destruct q as [r5 st5]. injection R as _ <-.
  assert (Hin : inner st3 (ctl_timeout_event ctl)).
  { unfold inner. apply list_elem_of_fmap. exists ctl. split; [done|]. by eapply list_elem_of_lookup_2. }
  destruct (eo_inner _ _ _ (lv_events _ _ L3 _) Hin) as (Hi4 & _ & Hp4 & Ho4).
  eapply (IH st3 (ctl_timeout_event ctl)); [done | done | by intros | | | exact Q5].
  - intros t [= <-]. change (tv_arg st3 (plain true (ev_timeout (get st3 e)))). unfold tv_arg.
    rewrite (norm_not_common st3 _ Hn3). done.
  - intros t _ _ Hx. done.
Qed.

(** ** Setting events up. *)
Definition assigned_closure (evs : Z) : Z :=
  if has evs EV_SIGNAL then EV_CLOSURE_EVENT_SIGNAL
  else if has evs EV_PERSIST then EV_CLOSURE_EVENT_PERSIST else EV_CLOSURE_EVENT.
Lemma assign_event st e fd evs cb arg : has evs EV_SIGNAL && has evs EV_IO = false ->
  let ev := get (event_assign st e fd evs cb arg).2 e in
  ev_callback ev = cb /\ ev_arg ev = match arg with Some a => a | None => Z.of_nat e end /\
  ev_closure ev = assigned_closure evs /\ ev_pri ev = u8 (Z.quot (nactivequeues st) 2) /\ ev_ncalls ev = 0 /\
  (ev_closure ev = EV_CLOSURE_EVENT_PERSIST -> ev_io_timeout ev = evutil_timerclear).
Proof.
  intros Hs. cbv zeta. unfold event_assign, assigned_closure. cbv zeta. rewrite Hs.
  destruct (has evs EV_SIGNAL); [|destruct (has evs EV_PERSIST)]; cbn [snd];
    unfold min_heap_elem_init_; cbn [set_min_heap_idx state_HeapStore]; rewrite !get_upd_eq; by cbn.
Qed.

Lemma assign_event_ok s st e fd evs cb arg :
  fit s st -> has evs EV_SIGNAL && has evs EV_IO = false -> (has evs EV_IO = true -> fd < 2 ^ 27) ->
  (has evs EV_SIGNAL = true -> 0 <= s32 fd < 2 ^ 27) -> ~ inner st e ->
  (cb <> common_timeout_callback_ptr) ->
  (cb = event_once_cb_ptr -> arg = Some (Z.of_nat e) /\ current_event (base st) <> Some e /\
     has evs EV_PERSIST = false /\ has evs EV_SIGNAL = false) ->
  event_ok s (event_assign st e fd evs cb arg).2 e.
Proof.
  intros L Hs Hio Hsig Hin Hcb Honce. destruct (assign_shape st e fd evs cb arg) as (Hb & _ & Hf & _ & Hbase & Hev & Hfd).
  destruct (assign_event st e fd evs cb arg Hs) as (Acb & Aarg & Acl & Apri & An & Aio).
  set (st' := (event_assign st e fd evs cb arg).2) in *.
  assert (Hfl : forall m, flag st' e m = has EVLIST_INIT m) by (intros m; unfold flag; by rewrite Hf).
  assert (Hinit : flag st' e EVLIST_INIT = true) by (rewrite Hfl; done).
  split; rewrite ?Hinit, ?Hfl, ?Hb, ?Acb.
  - unfold nactivequeues at 1 2. rewrite Hb, Apri. fold (nactivequeues st). intros Hp.
    pose proof (lv_queues _ _ L) as Hq. unfold EVENT_MAX_PRIORITIES in Hq. rewrite u8_small; Z.to_euclidean_division_equations; lia.
  - done.
  - intros Hx. by vm_compute in Hx.
  - done.
  - intros Hc. left. rewrite (Aio Hc). done.
  - intros _. unfold addable, is_io. rewrite Hev, Hfd. auto.
  - intros _. unfold closure_ok. left. rewrite Acl. fold (flag st' e EVLIST_INIT). split; [|done].
    unfold assigned_closure. case_if; [auto|]. case_if; auto.
  - by rewrite An.
  - done.
  - intros Hc. destruct (Honce Hc) as (-> & Hcur & Hpe & Hsg). rewrite Aarg, Hev, Acl. unfold assigned_closure.
    rewrite Hpe, Hsg. split_and!; [done..|]. left. unfold detached. by rewrite !Hfl.
  - intros Hx. destruct Hin. unfold inner in *. by rewrite Hb in Hx.
Qed.
Lemma assign_world st e fd evs cb arg : world (event_assign st e fd evs cb arg).2 = world st.
Proof.
  destruct (assign_shape st e fd evs cb arg) as (Hb & _). unfold world, nactivequeues. rewrite Hb. f_equal.
  unfold event_assign. cbv zeta. by repeat case_if.
Qed.
Lemma assign_fit s st e fd evs cb arg : fit s st -> unused st e -> event_args fd evs cb -> fit s (event_assign st e fd evs cb arg).2.
Proof.
  intros L (_ & _ & Hin) ([Hu1 Hu2] & Hs & Hio & Hsig).
  apply (fit_one s st _ e L); [apply assign_world | apply assign_shape|].
  apply assign_event_ok; try done.
Qed.

Lemma deferred_fit s st e p fn arg : fit s st -> unused st e -> user_fn fn -> (0 < nactivequeues st -> p < nactivequeues st) ->
  fit s (event_deferred_cb_init_ st e p fn arg).
Proof.
  intros L (D & _ & Hin) [Hu1 Hu2] Hp. apply (fit_one s st _ e L); [done | intros x Hx; by apply get_upd_ne|].
  pose proof (lv_events _ _ L e) as E.
  split; unfold flag, addable, is_io, detached, event_deferred_cb_init_ in *; rewrite ?get_upd_eq; cbn; try done.
  - right; by left.
  - apply (eo_ncalls _ _ _ E).
Qed.
Lemma priority_set_fit s st e p : fit s st -> fit s (event_priority_set st e p).2.
Proof.
  intros L. unfold event_priority_set. case_if; [done|]. case_if; [done|]. cbn [snd].
  apply (fit_one s st _ e L); [done | intros x Hx; by apply get_upd_ne|].
  pose proof (lv_events _ _ L e) as Ev. pose proof (lv_queues _ _ L) as Hq. unfold EVENT_MAX_PRIORITIES in Hq.
  assert (Hp : 0 <= p < nactivequeues st) by lia.
  destruct Ev. split; unfold detached, addable, is_io, closure_ok, flag in *; rewrite ?get_upd_eq; try done.
  intros _. cbn [ev_pri]. rewrite u8_small by lia. apply Hp.
Qed.

(** ** Activation. *)
Definition queues_one e x p : Prop := x = e /\ queue_flag p.
Lemma queue_fit s st e st' : fit s st -> may_queue s st e \/ ~ detached st e -> stirs (queues_one e) nobody st st' -> fit s st'.
Proof. intros L Hm S. eapply fit_stirs; [exact L | exact S|]. intros x p [-> Hq]. done. Qed.

(** Registered events are made active by the backend. *)
Lemma io_slot_placed s st fd evs st' : base_wf st -> fit s st -> evmap_io_active_ st fd evs = Some st' -> fit s st'.
Proof.
  intros W L R. unfold evmap_io_active_ in R. case_if_in R; [by injection R as <-|].
  destruct (io_entries (base st) !! fd) as [ctx|] eqn:Hl; [|by injection R as <-].
  apply (fit_stirs s (fun x p => x ∈ io_events ctx /\ p = EVLIST_ACTIVE) st); [done | |].
  - eapply io_active_loop_stirs; [|exact R]. by intros x Hx.
  - intros x p [Hx ->]. split; [by left|]. right. intros (_ & _ & _ & Hi).
    apply (io_mem _ _ _ _ (mo_io _ _ (wf_maps _ W) fd ctx Hl)) in Hx as [Hx _]. unfold inserted in Hx. congruence.
Qed.
Lemma sig_slot_placed s st sig n st' : base_wf st -> fit s st -> evmap_signal_active_ st sig n = Some st' -> fit s st'.
Proof.
  intros W L R. unfold evmap_signal_active_ in R. case_if_in R; [by injection R as <-|].
  destruct (sigmap_entries (base st) !! sig) as [ctx|] eqn:Hl; [|by injection R as <-].
  apply (fit_stirs s (fun x p => x ∈ ctx /\ p = EVLIST_ACTIVE) st); [done | |].
  - eapply signal_active_loop_stirs; [|exact R]. by intros x Hx.
  - intros x p [Hx ->]. split; [by left|]. right. intros (_ & _ & _ & Hi).
    apply (mo_sig _ _ (wf_maps _ W) sig ctx Hl) in Hx as [Hx _]. unfold inserted in Hx. congruence.
Qed.

(** ** Finalizers. *)
Lemma del_no_timeout s st e b r st' : base_wf st -> fit s st -> b <> EVENT_DEL_EVEN_IF_FINALIZING ->
  flag st e EVLIST_INIT = true -> event_del_nolock_ st e b = Some (r, st') -> flag st' e EVLIST_TIMEOUT = false.
Proof.
  intros W L Hb Hi R. pose proof (lv_events _ _ L e) as Ev.
  destruct (flag st e EVLIST_FINALIZING) eqn:Hf.
  - unfold event_del_nolock_ in R. rewrite (eo_base _ _ _ Ev Hi), Hf in R.
    destruct (Z.eqb_spec b EVENT_DEL_EVEN_IF_FINALIZING); [done|]. cbn [negb andb] in R. injection R as _ <-.
    destruct (flag st e EVLIST_TIMEOUT) eqn:Ht; [|done]. destruct (eo_wait _ _ _ Ev Ht) as (_ & _ & ?). congruence.
  - destruct (del_ok st e b W (eo_base _ _ _ Ev Hi) (or_intror Hf)) as (r' & st1 & R' & _ & _ & _ & D & _).
    rewrite R in R'. injection R' as <- <-. apply D.
Qed.

Definition finalizing_closure st e (c : Z) : Prop :=
  ((c = EV_CLOSURE_EVENT_FINALIZE \/ c = EV_CLOSURE_EVENT_FINALIZE_FREE) /\ flag st e EVLIST_INIT = true) \/
  c = EV_CLOSURE_CB_FINALIZE.
Lemma finalized_fit s st e c cb st2 : fit s st -> flag st e EVLIST_TIMEOUT = false -> user_fn cb -> finalizing_closure st e c ->
  stirs (queues_one e) nobody (upd st e (fun ev => {| ev with ev_closure := c; ev_callback := cb |})) st2 ->
  fit s (set_flags st2 e (set_flag (ev_flags (get st2 e)) EVLIST_FINALIZING)).
Proof.
  intros L Ht [Hu1 Hu2] Hc S. set (st1 := upd st e _) in *. set (st3 := set_flags _ _ _).
  pose proof (lv_events _ _ L e) as Ev.
  assert (Hw : world st3 = world st) by apply S.
  assert (G1 : get st1 e = {| (get st e) with ev_closure := c; ev_callback := cb |}) by (unfold st1; by rewrite get_upd_eq).
  apply (fit_frame s st st3 (eq e) L Hw); [intros x; destruct (decide (e = x)); auto | intros x <- | intros x Hne].
  - pose proof (si_moved _ _ _ _ S e) as M. destruct (si_times _ _ _ _ S e (fun F => F)) as [HT HI].
    assert (G3 : get st3 e = {| (get st2 e) with ev_flags := set_flag (ev_flags (get st2 e)) EVLIST_FINALIZING |})
      by (unfold st3, set_flags; by rewrite get_upd_eq).
    destruct (moved_statics _ _ M) as (Scb & Sarg & Sfd & Sev & Scl & Spri & Sb). rewrite G1 in Scb, Sarg, Sfd, Sev, Scl, Spri, Sb. cbn in *.
    assert (F3 : forall m, flag st3 e m = has EVLIST_FINALIZING m || flag st2 e m)
      by (intros m; unfold flag; rewrite G3; cbn [ev_flags]; by rewrite has_set, orb_comm).
    assert (Hi2 : flag st2 e EVLIST_INIT = flag st e EVLIST_INIT) by (unfold flag; by rewrite (mv_init _ _ M), G1).
    pose proof (world_same _ _ Hw) as Hw'.
    assert (Hg : forall p, place_flag p -> ~ queue_flag p -> flag st2 e p = true -> flag st e p = true).
    { intros p Hp Hq Hf. destruct (si_gains _ _ _ _ S e p Hp Hf) as [Hx|[_ Hx]]; [|done]. unfold flag in *. by rewrite G1 in Hx. }
    split; rewrite ?F3, ?(sw_queues _ _ Hw'), ?G3; cbn [ev_pri ev_base ev_closure ev_callback ev_ncalls ev_arg]; rewrite ?Spri, ?Sb, ?Scl, ?Scb.
    + apply (eo_pri _ _ _ Ev).
    + cbn [orb]. rewrite Hi2. apply (eo_base _ _ _ Ev).
    + intros Hf. apply Hg in Hf; [congruence | constructor | by intros [|]].
    + intros Hf. apply Hg in Hf; [|constructor | by intros [|]]. cbn [orb]. rewrite Hi2. by apply (eo_inserted _ _ _ Ev).
    + intros Hx. exfalso. destruct Hc as [[[-> | ->] _] | ->]; done.
    + cbn [orb]. rewrite Hi2. unfold addable, is_io. rewrite G3. cbn [ev_events ev_fd]. rewrite Sev, Sfd. apply (eo_fd _ _ _ Ev).
    + intros _. unfold closure_ok. cbn [ev_closure ev_flags]. rewrite !has_set. fold (flag st2 e EVLIST_INIT). rewrite Hi2.
      assert (Hfin : has (ev_flags (get st2 e)) EVLIST_FINALIZING || has EVLIST_FINALIZING EVLIST_FINALIZING = true) by apply orb_true_r.
      destruct Hc as [[Hc Hi] | ->]; [|by right; right; right]. right; right; left. by rewrite Hi.
    + apply (mv_ncalls _ _ M). rewrite G1. apply (eo_ncalls _ _ _ Ev).
    + done.
    + done.
    + rewrite (inner_world _ _ _ Hw). intros Hx. destruct (eo_inner _ _ _ Ev Hx) as (? & ? & _). cbn [orb]. rewrite Hi2.
      cbn [ev_events]. rewrite Sev. split_and!; [done | done | | done]. destruct Hc as [[[-> | ->] _] | ->]; done.
  - assert (G3 : get st3 x = get st2 x) by (unfold st3, set_flags; rewrite get_upd_ne by done; done).
    assert (G1x : get st1 x = get st x) by (unfold st1; rewrite get_upd_ne by done; done).
    unfold flag. rewrite G3, <- G1x. split_and!; [apply (si_moved _ _ _ _ S) | apply (si_times _ _ _ _ S); by intros []|].
    intros p Hp Hf. destruct (si_gains _ _ _ _ S x p Hp Hf) as [|[-> _]]; [by left | done].
Qed.

Lemma finalize_fit s st fl e cb r st' : base_wf st -> fit s st -> flag st e EVLIST_INIT = true -> user_fn cb ->
  event_finalize_nolock_ st fl e cb = Some (r, st') -> fit s st'.
Proof.
  intros W L Hi Hu R. unfold event_finalize_nolock_ in R. cbv zeta in R. set (c := if has fl _ then _ else _) in R.
  bind_in R p Q1. destruct p as [r1 st1]. bind_in R st2 Q2. injection R as _ <-.
  pose proof (del_stirs nothing nobody _ _ _ _ _ Q1) as S1.
  assert (Hi1 : flag st1 e EVLIST_INIT = true) by (unfold flag in *; by rewrite (mv_init _ _ (si_moved _ _ _ _ S1 e))).
  apply (finalized_fit s st1 e c cb); [by eapply fit_still | by eapply (del_no_timeout s st e EVENT_DEL_NOBLOCK) | done | |].
  - left. split; [subst c; case_if; auto | done].
  - eapply active_nolock_stirs; [|exact Q2]. split; [done | by left].
Qed.
Lemma callback_finalize_fit s st e cb st' : base_wf st -> fit s st -> user_fn cb ->
  event_callback_finalize_nolock_ st e cb = Some st' -> fit s st'.
Proof.
  intros W L Hu R. unfold event_callback_finalize_nolock_ in R. cbv zeta in R.
  bind_in R p Q1. destruct p as [r1 st1]. bind_in R q Q2. destruct q as [r2 st2]. injection R as <-.
  assert (S1 : stirs nothing nobody st st1) by (case_if_in Q1; [by eapply del_stirs | by eapply cancel_stirs]).
  apply (finalized_fit s st1 e EV_CLOSURE_CB_FINALIZE cb); [by eapply fit_still | | done | by right |].
  - destruct (flag st e EVLIST_INIT) eqn:Hi; [by eapply (del_no_timeout s st e EVENT_DEL_NOBLOCK)|].
    destruct (flag st1 e EVLIST_TIMEOUT) eqn:Ht; [|done]. destruct (si_gains _ _ _ _ S1 e _ PlaceTimeout Ht) as [Hx|[]].
    destruct (eo_wait _ _ _ (lv_events _ _ L e) Hx) as (_ & ? & _). congruence.
  - eapply callback_activate_stirs; [|exact Q2]. split; [done | by left].
Qed.

(** ** The base. *)
Lemma event_ok_same s st st' x : get st' x = get st x -> n_common_timeouts st' = n_common_timeouts st ->
  (0 < nactivequeues st' -> ev_pri (get st x) < nactivequeues st') -> (inner st' x <-> inner st x) ->
  once_events (base st') = once_events (base st) -> current_event (base st') = current_event (base st) ->
  event_ok s st x -> event_ok s st' x.
Proof.
  intros Hg Hn Hp Hin Ho Hc [].
  assert (Ha : forall t, tv_arg st' t <-> tv_arg st t) by (intros t; unfold tv_arg, is_common_timeout; by rewrite Hn).
  split; unfold detached, addable, is_io, once_entry, flag in *; rewrite ?Hg, ?Ha, ?Hn, ?Hin, ?Ho, ?Hc; done.
Qed.
Lemma priority_init_fit s st n : fit s st -> (forall e, ev_pri (get st e) < n) -> fit s (event_base_priority_init st n).2.
Proof.
  intros L Hp. unfold event_base_priority_init. case_if; [done|]. case_if; [done|]. cbv zeta.
  assert (Hn : 0 <= n < EVENT_MAX_PRIORITIES) by lia.
  assert (HW : forall k, (k = 0 \/ Z.of_nat k = n)%nat -> fit s (upd_base st (fun b => {| b with activequeues := replicate k [] |}))).
  { intros k Hk. split.
    - apply (lv_clock _ _ L).
    - unfold nactivequeues. cbn. rewrite length_replicate. unfold EVENT_MAX_PRIORITIES in *. lia.
    - intros x. apply (event_ok_same s st); try done; [|apply (lv_events _ _ L)].
      unfold nactivequeues. cbn. rewrite length_replicate. specialize (Hp x). lia.
    - apply (lv_running _ _ L). }
  case_if; cbn [snd]; [apply (HW (Z.to_nat n)); lia | apply (HW 0%nat); lia].
Qed.

(** A new list of common timeouts. *)
Lemma tv_arg_more st st' t : n_common_timeouts st <= n_common_timeouts st' -> tv_arg st t ->
  tv_arg st' t.
Proof.
  intros Hn. unfold tv_arg. destruct (is_common_timeout st t) eqn:Hc.
  - intros Ha. replace (is_common_timeout st' t) with true; [done|]. symmetry. revert Hc. unfold is_common_timeout.
    case_if; [done|]. cbv zeta. intros Hl%Z.ltb_lt. apply Z.ltb_lt. lia.
  - intros Ha. by rewrite norm_not_common.
Qed.
Lemma event_ok_more s st st' x ctl : get st' x = get st x -> nactivequeues st' = nactivequeues st ->
  common_timeout_queues (base st') = common_timeout_queues (base st) ++ [ctl] -> x <> ctl_timeout_event ctl ->
  once_events (base st') = once_events (base st) -> current_event (base st') = current_event (base st) ->
  event_ok s st x -> event_ok s st' x.
Proof.
  intros Hg Hq Hl Hx Ho Hc [].
  assert (Hn : n_common_timeouts st <= n_common_timeouts st') by (unfold n_common_timeouts; rewrite Hl, length_app; lia).
  assert (Ha : forall t, tv_arg st t -> tv_arg st' t) by (intros t; by apply tv_arg_more).
  assert (Hin : inner st' x -> inner st x).
  { unfold inner. rewrite Hl, fmap_app, elem_of_app. intros [|Hi]; [done|]. cbn in Hi. set_solver. }
  split; unfold detached, addable, is_io, once_entry, flag in *; rewrite ?Hg, ?Hq, ?Ho, ?Hc; auto; try done.
  - intros Hf. destruct (eo_wait0 Hf) as (? & ? & ?). auto.
  - intros Hp. destruct (eo_persist0 Hp) as [|(? & ? & ?)]; [by left | right; auto].
  - intros Hcb. specialize (eo_common0 Hcb). lia.
Qed.

Lemma init_common_fit s st d new r st' : fit s st -> unused st new ->
  event_base_init_common_timeout st d new = Some (r, st') -> fit s st'.
Proof.
  intros L (D & _ & Hin) R. unfold event_base_init_common_timeout in R. cbv zeta in R.
  set (dn := normalise_duration st d) in R. clearbody dn.
  destruct (find_common_timeout _ dn) as [d'|].
  { destruct (is_common_timeout st d'); cbn in R; [|done]. by injection R as _ <-. }
  case_if_in R; [by injection R as _ <-|]. case_if_in R; [by injection R as _ <-|].
  set (st0 := if _ : bool then upd_base st _ else st) in R.
  assert (S0 : stirs nothing nobody st st0) by (subst st0; case_if; [apply stirs_upd_base; [done | intros b; split_and!; auto] | done]).
  pose proof (fit_still _ _ _ L S0) as L0. pose proof (si_world _ _ _ _ S0) as Hw0.
  assert (Hin0 : ~ inner st0 new) by (by rewrite (inner_world _ _ _ Hw0)).
  case_if_in R; [by injection R as _ <-|].
  assert (Hn : n_common_timeouts st0 = n_common_timeouts st) by (unfold n_common_timeouts; by rewrite (world_lists _ _ Hw0)).
  rewrite <- Hn in R. clear S0 Hw0 Hn L D Hin. clearbody st0.
  set (arg := Some (n_common_timeouts st0)) in R.
  pose proof (assign_world st0 new (-1) 0 common_timeout_callback_ptr arg) as Hw1.
  pose proof (assign_event st0 new (-1) 0 common_timeout_callback_ptr arg eq_refl) as (Acb & Aarg & Acl & Apri & An & _).
  pose proof (assign_shape st0 new (-1) 0 common_timeout_callback_ptr arg) as (Hb1 & HG1 & Hf1 & _ & Hbs1 & Hev1 & _).
  destruct (event_assign st0 new (-1) 0 common_timeout_callback_ptr arg) as [r1 st1]. cbn [snd] in *.
  rewrite Hf1 in R. change (set_flag EVLIST_INIT EVLIST_INTERNAL) with 0x90 in R. set (st2 := set_flags st1 new 0x90) in R.
  assert (E2 : get st2 new = {| (get st1 new) with ev_flags := 0x90 |}) by (unfold st2, set_flags; by rewrite get_upd_eq).
  assert (O2 : forall x, x <> new -> get st2 x = get st1 x) by (intros; unfold st2, set_flags; by rewrite get_upd_ne).
  assert (H3 : (forall x, x <> new -> get (event_priority_set st2 new 0).2 x = get st2 x) /\
    (exists p, get (event_priority_set st2 new 0).2 new = {| (get st2 new) with ev_pri := p |} /\
       (0 < nactivequeues st0 -> p < nactivequeues st0)) /\
    base (event_priority_set st2 new 0).2 = base st1 /\ world (event_priority_set st2 new 0).2 = world st0).
  { assert (Hfa : flag st2 new EVLIST_ACTIVE = false) by (unfold flag; by rewrite E2).
    assert (Hq : nactivequeues st2 = nactivequeues st0) by (change (nactivequeues st2) with (nactivequeues st1); by apply (sw_queues _ _ (world_same _ _ Hw1))).
    unfold event_priority_set. rewrite Hfa, Hq. clear E2. case_if; cbn [snd].
    - split_and!; try done. exists (ev_pri (get st2 new)). split; [by destruct (get st2 new) | lia].
    - split_and!; try done; [intros x Hx; by rewrite get_upd_ne|]. exists (u8 0). rewrite get_upd_eq. split; [done|]. by change (u8 0) with 0. }
  destruct H3 as (O3 & (p & E3 & Hp) & Hb3 & Hw3). destruct (event_priority_set st2 new 0) as [r3 st3]. cbn [snd] in *.
  bind_in R u Q4. injection R as _ <-. set (ctl := CommonTimeoutList _ _ _) in *. set (st4 := upd_base st3 _).
  assert (Hl4 : common_timeout_queues (base st4) = common_timeout_queues (base st0) ++ [ctl]).
  { change (common_timeout_queues (base st3) ++ [ctl] = common_timeout_queues (base st0) ++ [ctl]). by rewrite Hb3, Hb1. }
  pose proof (world_same _ _ Hw3) as Hw3'.
  assert (Hn4 : n_common_timeouts st4 = n_common_timeouts st0 + 1) by (unfold n_common_timeouts; rewrite Hl4, length_app; cbn; lia).
  split.
  - apply (world_clock _ _ Hw3), (lv_clock _ _ L0).
  - change (nactivequeues st3 < EVENT_MAX_PRIORITIES). rewrite (sw_queues _ _ Hw3'). apply (lv_queues _ _ L0).
  - intros x. destruct (decide (x = new)) as [->|Hx].
    2: { apply (event_ok_more s st0 st4 x ctl); [|apply (sw_queues _ _ Hw3')|done|done|apply (sw_once _ _ Hw3')|apply (sw_current _ _ Hw3')|apply (lv_events _ _ L0)].
         change (get st3 x = get st0 x). by rewrite O3, O2, HG1. }
    assert (E4 : get st4 new = {| {| (get st1 new) with ev_flags := 0x90 |} with ev_pri := p |}) by (rewrite <- E2; exact E3).
    split; unfold detached, addable, is_io, closure_ok, flag; rewrite ?E4; cbn [ev_flags ev_pri ev_base ev_closure ev_callback ev_arg ev_ncalls ev_events ev_fd]; try done.
    + change (nactivequeues st4) with (nactivequeues st3). by rewrite (sw_queues _ _ Hw3').
    + intros Hc. by rewrite Acl in Hc.
    + by rewrite Hev1.
    + intros _. left. rewrite Acl. split; [by left | done].
    + by rewrite An.
    + intros _. rewrite Aarg. subst arg. unfold n_common_timeouts in *. lia.
    + by rewrite Acb.
    + intros _. rewrite Hev1, Acl, Acb. done.
  - unfold once_entry. change (base st4) with {| (base st3) with common_timeout_queues := common_timeout_queues (base st3) ++ [ctl] |}.
    cbn [once_events current_event]. rewrite (sw_once _ _ Hw3'), (sw_current _ _ Hw3'). apply (lv_running _ _ L0).
Qed.

(** ** Events scheduled once. *)
Definition adding s e : scope := Scope (running_once s) (Some e).
Lemma event_ok_adding s st x e : new_once s = None -> event_ok s st x -> event_ok (adding s e) st x.
Proof.
  intros Hs []. split; try done. intros Hc. destruct (eo_once0 Hc) as ((? & ? & ? & ? & ?) & ? & Hd). split_and!; [done..|].
  destruct Hd as [|[[|Hn] ?]]; [by left | right; by split; [left|] | congruence].
Qed.
Lemma adding_event_ok s st x e : new_once s = None -> event_ok (adding s e) st x -> (x = e -> detached st x \/ once_entry st x) ->
  event_ok s st x.
Proof.
  intros Hs [] Hx. split; try done. intros Hc. destruct (eo_once0 Hc) as ((? & ? & ? & ? & ?) & Hcur & Hd). split_and!; [done..|].
  destruct Hd as [|[[|Hn] Hr]]; [by left | right; by split; [left|] |]. cbn in Hn. injection Hn as <-.
  destruct (Hx eq_refl); [by left | right; by split; [left|]].
Qed.

Lemma once_fit s st fd evs cb arg tv new r st' : new_once s = None -> base_wf st -> push_safe st -> fit s st ->
  unused st new -> ~ once_entry st new -> current_event (base st) <> Some new -> (has evs EV_IO = true -> fd < 2 ^ 27) ->
  (forall t, tv = Some t -> tv_arg st t) -> event_base_once st fd evs cb arg tv new = Some (r, st') -> fit s st'.
Proof.
  intros Hs W S L (D & Hmax & Hin) He Hcur Hio Ha R. unfold event_base_once in R.
  case_if_in R; [by injection R as _ <-|]. case_if_in R; [by injection R as _ <-|].
  assert (Hrun : running_once s <> Some new) by (intros Hr; by destruct (lv_running _ _ L new Hr)).
  assert (Hev : forall f ev, has ev EV_SIGNAL = false -> has ev EV_PERSIST = false -> (has ev EV_IO = true -> f < 2 ^ 27) ->
    let st1 := (event_assign st new f ev event_once_cb_ptr (Some (Z.of_nat new))).2 in
    base_wf st1 /\ push_safe st1 /\ fit (adding s new) st1 /\ world st1 = world st /\
    flag st1 new EVLIST_INIT = true /\ detached st1 new /\ may_place (adding s new) st1 new).
  { intros f ev Hsg Hpe Hf st1. destruct (assign_shape st new f ev event_once_cb_ptr (Some (Z.of_nat new))) as (Hb & HG & Hfl & _). fold st1 in Hb, HG, Hfl.
    assert (La : fit (adding s new) st) by (split; [apply L | apply L | intros x; by apply event_ok_adding, (lv_events _ _ L) | apply (lv_running _ _ L)]).
    assert (Hw : world st1 = world st) by apply assign_world.
    split_and!; try done.
    - by apply assign_wf.
    - eapply push_safe_len; [|exact S]. by rewrite Hb.
    - apply (fit_one _ st st1 new La Hw HG). apply assign_event_ok; try done; by rewrite Hsg.
    - unfold flag. by rewrite Hfl.
    - unfold detached, flag. by rewrite Hfl. }
  set (p := if Z.land _ _ =? EV_TIMEOUT then _ else _) in R.
  assert (HP : p.1.1 = true /\ p.2 = st \/
    base_wf p.2 /\ push_safe p.2 /\ fit (adding s new) p.2 /\ world p.2 = world st /\
    flag p.2 new EVLIST_INIT = true /\ detached p.2 new /\ may_place (adding s new) p.2 new).
  { subst p. case_if; [|case_if]; [| |by left]; right.
    - specialize (Hev (-1) 0 eq_refl eq_refl ltac:(done)). cbv zeta in Hev. by destruct (event_assign _ _ _ _ _ _) as [r1 st1].
    - specialize (Hev fd (Z.land evs EV_IO)). cbv zeta in Hev. destruct (event_assign _ _ _ _ _ _) as [r1 st1]. cbn [snd] in *.
      apply Hev; [| |auto]; unfold has; rewrite <- Z.land_assoc;
        [change (Z.land EV_IO EV_SIGNAL) with 0 | change (Z.land EV_IO EV_PERSIST) with 0]; by rewrite Z.land_0_r. }
  destruct p as [[bad act] st1]. cbn [fst snd] in HP. destruct HP as [[-> ->] | (W1 & S1 & L1 & Hw1 & Hi1 & D1 & M1)]; [by injection R as _ <-|].
  destruct bad; [injection R as _ <-|].
  { split; [apply L1 | apply L1 | | apply (lv_running _ _ L1)]. intros x. apply (adding_event_ok s st1 x new Hs); [apply (lv_events _ _ L1)|].
    intros ->. by left. }
  bind_in R q Q2. destruct q as [res st2].
  assert (HQ : fit (adding s new) st2 /\ (res = 0 \/ detached st2 new)).
  { destruct act.
    - bind_in Q2 st3 Q3. injection Q2 as <- <-. split; [|by left].
      apply (queue_fit _ st1 new); [done | left; split; [|done]; apply (eo_closure _ _ _ (lv_events _ _ L1 new)); auto|].
      eapply active_nolock_stirs; [|exact Q3]. split; [done | by left].
    - split; [eapply (add_fit add_fuel _ st1 new tv false); [exact L1 | exact Hi1 | exact M1 | | by intros | exact Q2]|].
      { intros t Ht. apply (tv_arg_world _ _ _ Hw1). auto. }
      destruct (add_ok _ _ _ _ _ _ _ W1 S1 Hmax Q2) as [_ A]. destruct (ad_result _ _ _ _ _ A) as [->|]; [right|by left].
      unfold detached, flag. rewrite (ad_failed _ _ _ _ _ A eq_refl). exact D1. }
  destruct HQ as [L2 HQ]. case_if_in R; injection R as _ <-.
  - destruct HQ as [->|D2]; [done|]. split; [apply L2 | apply L2 | | apply (lv_running _ _ L2)].
    intros x. apply (adding_event_ok s st2 x new Hs); [apply (lv_events _ _ L2)|]. intros ->. by left.
  - set (st3 := upd_base st2 _).
    assert (Hen : forall x, once_entry st3 x <-> x = new \/ once_entry st2 x) by (intros x; unfold once_entry; cbn; set_solver).
    split; [apply L2 | apply L2 | | intros x Hx; destruct (lv_running _ _ L2 x Hx); split; [apply Hen; by right | done]].
    intros x. apply (adding_event_ok s st3 x new Hs); [|intros ->; right; apply Hen; by left].
    destruct (lv_events _ _ L2 x). split; try done. intros Hc. destruct (eo_once0 Hc) as ((? & ? & ? & ? & ?) & ? & Hd). split_and!; [done..|].
    destruct Hd as [|[Hd ?]]; [by left | right]. split; [|done]. rewrite Hen. tauto.
Qed.

(** ** Clocks. *)
Lemma clock_fit s st m w : tv_norm m -> fit s st -> fit s {| st with monotonic_now := m; wall_now := w |}.
Proof.
  intros Hm L. split; [split; [apply L | done] | apply L | | apply (lv_running _ _ L)].
  intros x. apply (event_ok_same s st); try done; [apply (eo_pri _ _ _ (lv_events _ _ L x)) | apply (lv_events _ _ L)].
Qed.
Lemma cache_fit s st f : fit s st -> tv_norm (tv_cache (f (base st))) ->
  (forall b, activequeues (f b) = activequeues b /\ common_timeout_queues (f b) = common_timeout_queues b /\
     once_events (f b) = once_events b /\ current_event (f b) = current_event b) -> fit s (upd_base st f).
Proof.
  intros L Hn Hf. destruct (Hf (base st)) as (H1 & H2 & H3 & H4). split.
  - split; [done | apply L].
  - unfold nactivequeues. cbn. rewrite H1. apply L.
  - intros x. apply (event_ok_same s st); unfold n_common_timeouts, nactivequeues, inner; cbn; rewrite ?H1, ?H2, ?H3, ?H4; try done;
      [apply (eo_pri _ _ _ (lv_events _ _ L x)) | apply (lv_events _ _ L)].
  - unfold once_entry. cbn. rewrite H3, H4. apply (lv_running _ _ L).
Qed.
Lemma clear_time_fit s st : fit s st -> fit s (clear_time_cache st).
Proof. intros L. apply cache_fit; [done | apply (lv_clock _ _ L) | done]. Qed.
Lemma update_time_fit s st : fit s st -> fit s (update_time_cache st).
Proof.
  intros L%clear_time_fit. unfold update_time_cache. cbv zeta. case_if; [done|].
  pose proof (gettime_norm _ (lv_clock _ _ L)) as Hn.
  pose proof (fit_still _ _ _ L (gettime_stirs nothing nobody _)) as L2.
  destruct (gettime (clear_time_cache st)) as [tv st2]. cbn [fst snd] in *. by apply cache_fit.
Qed.

(** ** Every step. *)
Lemma steady_upd_base st st1 f : steady st st1 -> (forall b, common_timeout_queues (f b) = common_timeout_queues b /\
  closure_ncalls (f b) = closure_ncalls b /\ current_event (f b) = current_event b /\ activequeues (f b) = activequeues b) ->
  steady st (upd_base st1 f).
Proof.
  intros S Hf. etrans; [exact S|]. destruct (Hf (base st1)) as (H1 & H2 & H3 & H4).
  split; unfold n_common_timeouts, nactivequeues; cbn; rewrite ?H1, ?H2, ?H3, ?H4; auto; lia.
Qed.
Lemma priority_init_steady st n : steady st (event_base_priority_init st n).2.
Proof.
  unfold event_base_priority_init. case_if; [done|]. case_if; [done|]. cbv zeta.
  case_if; cbn [snd]; (split; [done | by left | done|]); intros Hmm _.
  - unfold nactivequeues. cbn. rewrite length_replicate. lia.
  - by rewrite Hmm in *.
Qed.
Lemma steady_assign st st1 e fd evs cb arg : steady st st1 -> steady st (event_assign st1 e fd evs cb arg).2.
Proof. intros S. etrans; [exact S|]. apply steady_base. by destruct (assign_shape st1 e fd evs cb arg) as [? _]. Qed.
Lemma steady_priority_set st e p : steady st (event_priority_set st e p).2.
Proof. apply steady_base. unfold event_priority_set. by repeat case_if. Qed.

Lemma finalize_steady st fl e cb r st' : event_finalize_nolock_ st fl e cb = Some (r, st') -> steady st st'.
Proof.
  unfold event_finalize_nolock_. cbv zeta. intros R. bind_in R p Q1. destruct p as [r1 st1]. bind_in R st2 Q2. injection R as _ <-.
  apply steady_upd. etrans; [|eapply steady_stirs, (active_nolock_stirs anything anybody); [done | exact Q2]].
  apply steady_upd. eapply steady_stirs, (del_stirs anything anybody). exact Q1.
Qed.
Lemma callback_finalize_steady st e cb st' : event_callback_finalize_nolock_ st e cb = Some st' -> steady st st'.
Proof.
  unfold event_callback_finalize_nolock_. cbv zeta. intros R.
  bind_in R p Q1. destruct p as [r1 st1]. bind_in R q Q2. destruct q as [r2 st2]. injection R as <-.
  apply steady_upd. etrans; [|eapply steady_stirs, (callback_activate_stirs anything anybody); [done | exact Q2]].
  apply steady_upd. apply (steady_stirs anything anybody). case_if_in Q1; [by eapply del_stirs | by eapply cancel_stirs].
Qed.
Lemma init_common_steady st d new r st' : event_base_init_common_timeout st d new = Some (r, st') -> steady st st'.
Proof.
  intros R. unfold event_base_init_common_timeout in R. cbv zeta in R.
  destruct (find_common_timeout _ _) as [d'|].
  { destruct (is_common_timeout st d'); cbn in R; [|done]. by injection R as _ <-. }
  case_if_in R; [by injection R as _ <-|]. case_if_in R; [by injection R as _ <-|].
  set (st0 := if _ : bool then upd_base st _ else st) in R.
  assert (S0 : steady st st0) by (subst st0; case_if; [by apply steady_upd_base | done]).
  case_if_in R; [by injection R as _ <-|].
  pose proof (steady_assign st st0 new (-1) 0 common_timeout_callback_ptr (Some (n_common_timeouts st)) S0) as S1.
  destruct (event_assign _ _ _ _ _ _) as [r1 st1]. cbn [snd] in S1. set (st2 := set_flags _ _ _) in R.
  assert (S2 : steady st st2) by (by apply steady_upd).
  pose proof (steady_priority_set st2 new 0) as S3. destruct (event_priority_set _ _ _) as [r3 st3]. cbn [snd] in S3.
  bind_in R u Q4. injection R as _ <-. etrans; [exact S2|]. etrans; [exact S3|].
  split; [unfold n_common_timeouts; cbn; rewrite length_app; lia | by left | done | done].
Qed.
Lemma once_steady st fd evs cb arg tv new r st' : event_base_once st fd evs cb arg tv new = Some (r, st') -> steady st st'.
Proof.
  intros R. unfold event_base_once in R. case_if_in R; [by injection R as _ <-|]. case_if_in R; [by injection R as _ <-|].
  set (p := if Z.land _ _ =? EV_TIMEOUT then _ else _) in R.
  assert (HP : steady st p.2).
  { subst p. case_if; [|case_if]; [| |done];
      match goal with |- context [event_assign st new ?f ?ev ?c ?a] => pose proof (steady_assign st st new f ev c a (reflexivity st)) end;
      destruct (event_assign _ _ _ _ _ _) as [r1 st1]; done. }
  destruct p as [[bad act] st1]. cbn [snd] in HP. destruct bad; [by injection R as _ <-|].
  bind_in R q Q2. destruct q as [res st2].
  assert (S2 : steady st st2).
  { etrans; [exact HP|]. apply (steady_stirs anything anybody). destruct act.
    - bind_in Q2 st3 Q3. injection Q2 as _ <-. by eapply active_nolock_stirs.
    - by eapply add_stirs. }
  case_if_in R; injection R as _ <-; [done|]. by apply steady_upd_base.
Qed.
Lemma update_time_steady st : steady st (update_time_cache st).
Proof.
  unfold update_time_cache. cbv zeta. assert (S1 : steady st (clear_time_cache st)) by (by apply steady_upd_base).
  case_if; [done|]. pose proof (steady_stirs anything anybody _ _ (gettime_stirs _ _ (clear_time_cache st))) as S2.
  destruct (gettime (clear_time_cache st)) as [tv st2]. cbn [snd] in S2. apply steady_upd_base; [by etrans | done].
Qed.

Lemma max_events_stirs G T st t c : stirs G T st (event_base_get_max_events st t c).2.
Proof.
  unfold event_base_get_max_events.
  destruct (has t EVENT_BASE_COUNT_ACTIVE), (has t EVENT_BASE_COUNT_VIRTUAL), (has t EVENT_BASE_COUNT_ADDED), c;
    cbn [snd]; repeat (apply stirs_upd_base; [|intros b; split_and!; auto]); done.
Qed.
Lemma del_virtual_stirs G T st st' : event_base_del_virtual_ st = Some st' -> stirs G T st st'.
Proof.
  unfold event_base_del_virtual_. intros R. bind_in R u Q. injection R as <-. apply stirs_upd_base; [done | intros b; split_and!; auto].
Qed.

Lemma event_add_stirs st e tv r st' : event_add st e tv = Some (r, st') -> stirs anything anybody st st'.
Proof. unfold event_add. intros R. case_if_in R; [by injection R as _ <- | by eapply add_stirs]. Qed.
Lemma io_active_stirs st fd evs st' : evmap_io_active_ st fd evs = Some st' -> stirs anything anybody st st'.
Proof.
  unfold evmap_io_active_. intros R. case_if_in R; [by injection R as <-|].
  destruct (io_entries _ !! fd); [by eapply io_active_loop_stirs | by injection R as <-].
Qed.
Lemma signal_active_stirs st sig n st' : evmap_signal_active_ st sig n = Some st' -> stirs anything anybody st st'.
Proof.
  unfold evmap_signal_active_. intros R. case_if_in R; [by injection R as <-|].
  destruct (sigmap_entries _ !! sig); [by eapply signal_active_loop_stirs | by injection R as <-].
Qed.

Lemma api_step_steady st st' : api_step st st' -> steady st st'.
Proof.
  intros A. destruct A.
  - by apply steady_assign.
  - by apply steady_upd.
  - by eapply steady_stirs, event_add_stirs.
  - by eapply steady_stirs, (event_del_stirs anything anybody).
  - by eapply steady_stirs, (remove_timer_stirs anything anybody).
  - apply steady_priority_set.
  - by eapply steady_stirs, (event_active_stirs anything anybody).
  - by eapply steady_stirs, (active_later_stirs anything anybody).
  - by eapply steady_stirs, (callback_activate_stirs anything anybody).
  - by eapply steady_stirs, (cancel_stirs anything anybody).
  - by eapply finalize_steady.
  - by eapply callback_finalize_steady.
  - by eapply steady_stirs, (schedule_stirs anything anybody).
  - by eapply steady_stirs, io_active_stirs.
  - by eapply steady_stirs, signal_active_stirs.
  - by eapply steady_stirs, io_active_stirs.
  - by eapply steady_stirs, signal_active_stirs.
  - apply priority_init_steady.
  - by eapply init_common_steady.
  - by eapply once_steady.
  - apply (steady_stirs anything anybody), max_events_stirs.
  - by apply steady_upd_base.
  - by eapply steady_stirs, (del_virtual_stirs anything anybody).
  - by apply steady_upd_base.
  - by apply steady_upd_base.
  - by apply steady_upd_base.
  - apply update_time_steady.
  - by apply steady_base.
  - by apply steady_upd_base.
Qed.

Lemma fit_norm s st : fit s st -> heap_timeouts_norm st.
Proof.
  intros L x Hx Hc. destruct (eo_wait _ _ _ (lv_events _ _ L x) Hx) as [Ha _]. unfold tv_arg in Ha. by rewrite Hc in Ha.
Qed.

Lemma api_step_wf s st st' : api_step st st' -> push_safe st -> live s st -> base_wf st'.
Proof.
  intros A S [W L]. pose proof (fit_norm _ _ L) as Hn.
  destruct A; repeat match goal with Hu : unused _ _ |- _ => destruct Hu as (? & ? & _) end.
  - by apply assign_wf.
  - by apply deferred_init_wf.
  - unfold event_add in *. destruct (negb (ev_base (get st e))); [by simplify_eq|].
    eapply (add_wf st e); [done | done | by apply (fo_init _ (wf_flags _ W)) | done].
  - unfold event_del in *. destruct (negb (ev_base (get st e))); [by simplify_eq | by eapply del_wf].
  - by eapply remove_timer_wf.
  - by apply priority_set_wf.
  - unfold event_active in *. destruct (negb (ev_base (get st e))); [by simplify_eq | by eapply active_wf].
  - by eapply active_later_wf.
  - by eapply callback_activate_wf.
  - by eapply cancel_wf.
  - by eapply finalize_wf.
  - by eapply callback_finalize_wf.
  - by eapply deferred_schedule_wf.
  - by eapply io_active_wf.
  - by eapply signal_active_wf.
  - by eapply io_active_wf.
  - by eapply signal_active_wf.
  - destruct (event_base_priority_init st n) as [r st'] eqn:R. by eapply priority_init_wf.
  - by eapply init_common_wf.
  - by eapply base_once_wf.
  - by apply max_events_wf.
  - apply wf_upd_base; [|done]. intros b. by repeat split.
  - unfold event_base_del_virtual_ in *. destruct (evutil_assert _); [|done]. cbn in *. simplify_eq.
    apply wf_upd_base; [|done]. intros b. by repeat split.
  - apply wf_upd_base; [|done]. intros b. by repeat split.
  - apply wf_upd_base; [|done]. intros b. by repeat split.
  - apply wf_upd_base; [|done]. intros b. by repeat split.
  - by apply (wf_view _ _ (update_time_view st)).
  - eapply wf_view; [|exact W]. split; [intros x|]; by repeat split.
  - apply wf_upd_base; [|done]. intros b. by repeat split.
Qed.

Lemma api_step_fit s st st' : new_once s = None -> api_step st st' -> push_safe st -> live s st -> fit s st'.
Proof.
  intros Hs A S [W L].
  assert (HB : forall st f, fit s st -> (forall b, activequeues (f b) = activequeues b /\ common_timeout_queues (f b) = common_timeout_queues b /\
     once_events (f b) = once_events b /\ current_event (f b) = current_event b /\ tv_cache (f b) = tv_cache b /\
     closure_ncalls (f b) = closure_ncalls b) -> fit s (upd_base st f)).
  { intros st0 f L0 Hf. eapply fit_still; [exact L0|]. apply stirs_upd_base; [done|]. intros b.
    destruct (Hf b) as (? & ? & ? & ? & ? & ?). split_and!; auto. }
  destruct A.
  - by apply assign_fit.
  - by apply deferred_fit.
  - unfold event_add in *. destruct (negb (ev_base (get st e))); [by simplify_eq|].
    eapply (add_fit add_fuel s st e tv false); [done | done | by intros ?| done | by intros | done].
  - by eapply fit_still, event_del_stirs.
  - by eapply fit_still, remove_timer_stirs.
  - by apply priority_set_fit.
  - eapply queue_fit; [exact L | left; by apply ready_may|]. eapply event_active_stirs; [|done]. split; [done | by left].
  - eapply queue_fit; [exact L | left; by apply ready_may|]. eapply active_later_stirs; [|done]. split; [done | by right].
  - eapply queue_fit; [exact L | left; by apply ready_may|]. eapply callback_activate_stirs; [|done]. split; [done | by left].
  - by eapply fit_still, cancel_stirs.
  - by eapply finalize_fit.
  - by eapply callback_finalize_fit.
  - eapply queue_fit; [exact L | left; by apply ready_may|].
    eapply schedule_stirs; [| |done]; (split; [done|]); [by left | by right].
  - by eapply io_slot_placed.
  - by eapply sig_slot_placed.
  - by eapply io_slot_placed.
  - by eapply sig_slot_placed.
  - by apply priority_init_fit.
  - by eapply init_common_fit.
  - by eapply once_fit.
  - eapply fit_still, max_events_stirs. exact L.
  - by apply HB.
  - by eapply fit_still, del_virtual_stirs.
  - by apply HB.
  - by apply HB.
  - by apply HB.
  - by apply update_time_fit.
  - by apply clock_fit.
  - by apply HB.
Qed.

Lemma api_step_live s st st' : new_once s = None -> api_step st st' -> push_safe st' -> live s st -> live s st'.
Proof.
  intros Hs A S L. apply (push_safe_steady _ _ (api_step_steady _ _ A)) in S.
  split; [by eapply api_step_wf | by eapply api_step_fit].
Qed.
Lemma api_steps_steady st st' : rtc api_step st st' -> steady st st'.
Proof. induction 1; [done|]. etrans; [by apply api_step_steady | done]. Qed.
Lemma api_steps_live s st st' : new_once s = None -> rtc api_step st st' -> push_safe st' -> live s st -> live s st'.
Proof.
  intros Hs A S. induction A as [|a b c A1 A2 IH]; [done|]. intros L. apply IH; [done|].
  eapply api_step_live; [done | exact A1 | | exact L]. by apply (push_safe_steady _ _ (api_steps_steady _ _ A2)).
Qed.
End Api.
