(* ===== verification/EventLoopSafe.v ===== *)
(** * The loop does not abort

    Callbacks and the backend return, and act on the base through the API
    ([api_step]).  Then every function of EventLoop.v, started in a [live]
    state with queues, runs to an outcome without a failed assertion and
    leaves a [live] state. *)
From S2P Require Import Prelude Timeval MinHeap Event EventQueue EvMap EventCore EventLoop EventInv EventPrims EvMapInv EventOps EventDel EventLoopInv EventTimers EventDeadlines EventMoves EventAddTotal EventApi.

(** A live state whose queues exist. *)
Definition sound {B : Type} `{Eventop B} `{Platform} (s : scope) (st : state B) : Prop :=
  live s st /\ 0 < nactivequeues st.

(** Callbacks and dispatch return, having used the base only through the API. *)
Class ApiEnvironment (B : Type) `{Eventop B} `{Platform} `{Environment B} : Prop := {
  user_call_api s f c (st : state B) : new_once s = None -> sound s st ->
    exists st', user_call f c st = Some st' /\ rtc api_step st st';
  dispatch_api (st : state B) tv : sound at_rest st ->
    exists r st', evsel_dispatch st tv = Some (r, st') /\ rtc api_step st st'
}.

Section Returns.
Context {B : Type} `{Eventop B} `{Platform}.
Implicit Types (st : state B) (e x : eid) (s : scope).

(** ** Activation returns. *)
Lemma insert_active_total st e : ev_pri (get st e) < nactivequeues st -> is_Some (event_queue_insert_active st e).
Proof.
  intros Hp. unfold event_queue_insert_active. case_if; [by eexists|]. cbv zeta. unfold set_flags. rewrite get_upd_eq.
  cbn [ev_pri]. change (ev_pri (get (INCR_EVENT_COUNT st (ev_flags (get st e))) e)) with (ev_pri (get st e)).
  change (nactivequeues (upd (INCR_EVENT_COUNT st (ev_flags (get st e))) e _)) with (nactivequeues st).
  destruct (Z.ltb_spec (ev_pri (get st e)) (nactivequeues st)); [by eexists | lia].
Qed.
Lemma callback_activate_total st e : (flag st e EVLIST_ACTIVE = true -> flag st e EVLIST_ACTIVE_LATER = false) ->
  ev_pri (get st e) < nactivequeues st -> is_Some (event_callback_activate_nolock_ st e).
Proof.
  intros Hx Hp. unfold event_callback_activate_nolock_. case_if; [by eexists|]. cbv zeta.
  pose proof (active_switch st e) as Hm. cbv zeta in Hm.
  destruct (flag st e EVLIST_ACTIVE) eqn:HA; [rewrite (Hx eq_refl) in Hm; rewrite Hm; by eexists|].
  destruct (flag st e EVLIST_ACTIVE_LATER) eqn:HL; rewrite Hm.
  - change (EVLIST_ACTIVE_LATER =? EVLIST_ACTIVE) with false. rewrite Z.eqb_refl.
    destruct (event_queue_remove_active_later st e) as [st1|] eqn:R;
      [|unfold event_queue_remove_active_later in R; rewrite HL in R; done].
    cbn [mbind option_bind]. pose proof (remove_later_stirs nothing nobody _ _ _ R) as S.
    destruct (insert_active_total st1 e) as [st2 ->]; [|by eexists].
    destruct (moved_statics _ _ (si_moved _ _ _ _ S e)) as (_ & _ & _ & _ & _ & -> & _).
    by rewrite (sw_queues _ _ (world_same _ _ (si_world _ _ _ _ S))).
  - change (0 =? EVLIST_ACTIVE) with false. change (0 =? EVLIST_ACTIVE_LATER) with false. cbn [Z.eqb mbind option_bind].
    destruct (insert_active_total st e Hp) as [st2 ->]. by eexists.
Qed.

Lemma active_returns st e res n : base_wf st -> ev_pri (get st e) < nactivequeues st ->
  is_Some (event_active_nolock_ st e res n).
Proof.
  intros W Hp. pose proof (qo_excl _ (wf_queues _ W) e) as Hx.
  unfold event_active_nolock_. case_if; [by eexists|]. cbv zeta. pose proof (active_switch st e) as Hm. cbv zeta in Hm.
  set (m := Z.land _ _) in *. case_if; [by eexists|].
  set (st1 := if m =? EVLIST_ACTIVE_LATER then _ else _).
  assert (H1 : exists st1', st1 = Some st1' /\ stirs nothing nobody st st1').
  { subst st1. case_if; [eexists; split; [done|]; by apply (stirs_res _ _ _ _ _ (fun ev => _))|].
    case_if; [eexists; split; [done|]; by apply (stirs_res _ _ _ _ _ (fun ev => _))|]. exfalso.
    destruct (flag st e EVLIST_ACTIVE) eqn:HA; [rewrite (Hx eq_refl) in Hm; rewrite Hm in *; done|].
    destruct (flag st e EVLIST_ACTIVE_LATER) eqn:HL; rewrite Hm in *; done. }
  clearbody st1. destruct H1 as (st1' & -> & S1). cbn [mbind option_bind].
  set (st2 := if ev_pri _ <? _ then _ else st1'). assert (S2 : stirs nothing nobody st st2)
    by (subst st2; case_if; [apply stirs_upd_base; [done | intros b; split_and!; auto] | done]).
  set (st3 := if has _ _ then _ else st2). assert (S3 : stirs nothing nobody st st3).
  { subst st3. case_if; [|done]. apply stirs_upd; [done | split; try done; intros _; apply s16_short | by split; [|left] | done]. }
  destruct (callback_activate_total st3 e) as [[r st4] ->]; [| |by eexists].
  - intros HA. destruct (si_gains _ _ _ _ S3 e _ PlaceActive HA) as [HA'|[]]. apply Hx in HA'.
    destruct (flag st3 e EVLIST_ACTIVE_LATER) eqn:HL; [|done].
    destruct (si_gains _ _ _ _ S3 e _ PlaceLater HL) as [HL'|[]]. congruence.
  - destruct (moved_statics _ _ (si_moved _ _ _ _ S3 e)) as (_ & _ & _ & _ & _ & -> & _).
    by rewrite (sw_queues _ _ (world_same _ _ (si_world _ _ _ _ S3))).
Qed.

Lemma active_some s st e res n : sound s st -> is_Some (event_active_nolock_ st e res n).
Proof. intros [[W L] Hq]. apply active_returns; [done | by apply (eo_pri _ _ _ (lv_events _ _ L e))]. Qed.
Lemma io_active_loop_returns l st evs : base_wf st -> (forall x, ev_pri (get st x) < nactivequeues st) ->
  is_Some (evmap_io_active_loop l st evs).
Proof.
  revert st. induction l as [|e l IH]; intros st W Hp; cbn [evmap_io_active_loop]; [by eexists|].
  case_if; [|by apply IH].
  destruct (active_returns st e (Z.land (ev_events (get st e)) evs) 1 W (Hp e)) as [st1 R]. rewrite R. cbn [mbind option_bind].
  pose proof (active_nolock_stirs (queues_one e) nobody _ _ _ _ _ (conj eq_refl (or_introl eq_refl)) R) as S.
  apply IH; [by eapply active_wf|]. intros x.
  destruct (moved_statics _ _ (si_moved _ _ _ _ S x)) as (_ & _ & _ & _ & _ & -> & _).
  by rewrite (sw_queues _ _ (world_same _ _ (si_world _ _ _ _ S))).
Qed.
Lemma io_active_some s st fd evs : sound s st -> is_Some (evmap_io_active_ st fd evs).
Proof.
  intros [[W L] Hq]. unfold evmap_io_active_. case_if; [by eexists|]. destruct (io_entries _ !! fd); [|by eexists].
  apply io_active_loop_returns; [done|]. intros x. by apply (eo_pri _ _ _ (lv_events _ _ L x)).
Qed.
Lemma event_del_some s st e : sound s st -> is_Some (event_del st e).
Proof.
  intros [[W _] _]. unfold event_del. destruct (ev_base (get st e)) eqn:Hb; cbn [negb]; [|by eexists].
  destruct (flag st e EVLIST_FINALIZING) eqn:Hf.
  - unfold event_del_nolock_. rewrite Hb, Hf. by eexists.
  - destruct (del_ok st e EVENT_DEL_AUTOBLOCK W Hb (or_intror Hf)) as (r & st' & R & _). by eexists.
Qed.

(** The result of a step that only moves events. *)
Lemma sound_stirs s G st st' : sound s st -> base_wf st' -> stirs G nobody st st' ->
  (forall x p, G x p -> queue_flag p /\ (may_queue s st x \/ ~ detached st x)) -> sound s st'.
Proof.
  intros [[W L] Hq] W' S HG. split; [split; [done | by eapply fit_stirs]|].
  by rewrite (sw_queues _ _ (world_same _ _ (si_world _ _ _ _ S))).
Qed.
Lemma sound_still s st st' : sound s st -> base_wf st' -> stirs nothing nobody st st' -> sound s st'.
Proof. intros L W S. by eapply sound_stirs. Qed.
Lemma active_sound s st e res n st' : sound s st -> may_queue s st e \/ ~ detached st e ->
  event_active_nolock_ st e res n = Some st' -> sound s st'.
Proof.
  intros L Hm R. eapply (sound_stirs s (queues_one e) st); [done | eapply active_wf; [exact R | apply L] | | by intros x p [-> ?]].
  eapply active_nolock_stirs; [|exact R]. split; [done | by left].
Qed.

Lemma api_steps_sound s st st' : (forall b, mm_ok b = true) -> new_once s = None -> sound s st ->
  rtc api_step st st' -> sound s st'.
Proof.
  intros Hmm Hs [L Hq] A. split; [|by apply (sd_queues _ _ (api_steps_steady _ _ A))].
  eapply api_steps_live; [done | exact A | by left | done].
Qed.

(** ** The timeouts. *)
Lemma make_later_total q st : (forall x, x ∈ q -> ev_pri (get st x) < nactivequeues st) -> is_Some (make_later_active_loop q st).
Proof.
  revert st. induction q as [|e q IH]; intros st Hq; cbn [make_later_active_loop]; [by eexists|]. cbv zeta.
  set (st1 := upd_base st _). set (st2 := set_flags st1 _ _).
  assert (Hp : forall x, ev_pri (get st2 x) = ev_pri (get st x)).
  { intros x. unfold st2, set_flags. rewrite get_upd. case_decide; by subst. }
  rewrite Hp. change (nactivequeues st2) with (nactivequeues st).
  destruct (Z.ltb_spec (ev_pri (get st e)) (nactivequeues st)) as [|Hge]; [|specialize (Hq e ltac:(set_solver)); lia].
  cbn [evutil_assert mbind option_bind]. apply IH. intros x Hx. set (st3 := upd_base st2 _).
  change (get st3 x) with (get st2 x). rewrite Hp.
  replace (nactivequeues st3) with (nactivequeues st); [apply Hq; set_solver|].
  unfold nactivequeues, st3. cbn. by rewrite arr_set_length.
Qed.
Lemma make_later_sound st : sound at_rest st ->
  exists st', event_queue_make_later_events_active st = Some st' /\ sound at_rest st'.
Proof.
  intros Hs. pose proof Hs as [[W L] Hq]. unfold event_queue_make_later_events_active.
  destruct (make_later_total (active_later_queue (base st)) st) as [st' R].
  { intros x _. by apply (eo_pri _ _ _ (lv_events _ _ L x)). }
  exists st'. split; [done|]. apply (sound_stirs _ (fun x p => x ∈ active_later_queue (base st) /\ p = EVLIST_ACTIVE) st _ Hs).
  - by eapply make_later_wf.
  - eapply make_later_stirs; [|exact R]. by intros.
  - intros x p [Hx ->]. split; [by left|]. right. intros (_ & _ & Hl & _). apply (qo_later _ (wf_queues _ W)) in Hx. congruence.
Qed.

Lemma live_pending st s : fit s st -> 0 < nactivequeues st -> pending_ok st.
Proof.
  intros L Hq x Hx. pose proof (lv_events _ _ L x) as Ev. destruct (eo_wait _ _ _ Ev Hx) as (_ & Hi & Hf).
  split_and!; [by apply (eo_base _ _ _ Ev) | done | by apply (eo_pri _ _ _ Ev)].
Qed.

(** Taking a waiting event out and making it active. *)
Lemma fire_sound s st e r st1 st2 : sound s st -> flag st e EVLIST_TIMEOUT = true ->
  event_del_nolock_ st e EVENT_DEL_NOBLOCK = Some (r, st1) -> event_active_nolock_ st1 e EV_TIMEOUT 1 = Some st2 -> sound s st2.
Proof.
  intros Hs Ht R1 R2. pose proof Hs as [[W L] Hq]. pose proof (del_wf _ _ _ _ _ R1 W) as W1. pose proof (active_wf _ _ _ _ _ R2 W1) as W2.
  apply (sound_stirs s (queues_one e) st); [done | done | |].
  - etrans; [by eapply del_stirs|]. eapply active_nolock_stirs; [|exact R2]. split; [done | by left].
  - intros x p [-> ?]. split; [done|]. right. intros (Hf & _). congruence.
Qed.
Lemma timeout_loop_sound s fuel now st st' : sound s st -> timeout_process_loop fuel now st = Some st' -> sound s st'.
Proof.
  revert st. induction fuel as [|fuel IH]; intros st Hs R; cbn [timeout_process_loop] in R; [done|].
  destruct (min_heap_top_ _) as [e|] eqn:Et; [|by inv_opt]. case_if_in R; [by inv_opt|].
  bind_in R p E2. destruct p as [r2 st2]. bind_in R st3 E3. eapply IH; [|exact R]. eapply fire_sound; [exact Hs | | exact E2 | exact E3].
  pose proof Hs as [[W L] Hq]. destruct (top_min _ _ _ (to_heap _ (wf_timers _ W)) Et) as [Hin _]. by apply (to_in_heap _ (wf_timers _ W)) in Hin as [? _].
Qed.
Lemma timeout_process_sound st : sound at_rest st -> exists st', timeout_process st = Some st' /\ sound at_rest st'.
Proof.
  intros Hs. unfold timeout_process. case_if; [by exists st|].
  assert (S1 : sound at_rest (gettime st).2) by (eapply sound_still; [exact Hs | apply gettime_wf, Hs | apply gettime_stirs]).
  destruct (gettime st) as [now st1]. cbn [snd] in S1. pose proof S1 as [[W1 L1] Hq1].
  destruct (timeout_loop_ok (S (Z.to_nat (min_heap_size_ (timeheap (base st1))))) now st1 W1) as (st' & R & _).
  - by eapply live_pending.
  - pose proof (heap_set_size st1 W1). unfold min_heap_size_, hp in *. lia.
  - exists st'. split; [done|]. by eapply timeout_loop_sound.
Qed.

(** The wait handed to the backend is the time left to the earliest deadline
    of the heap. *)
Lemma timeout_next_spec st : base_wf st ->
  (forall x, x ∈ heap_set st -> tv_norm (ev_timeout (get st x))) -> tv_norm (gettime st).1 ->
  exists tv, option_map fst (timeout_next st) = Some tv /\
    match tv with
    | None => heap_set st = ∅
    | Some t => exists e, e ∈ heap_set st /\
        (forall x, x ∈ heap_set st -> tv_le (ev_timeout (get st e)) (ev_timeout (get st x))) /\
        tv_norm t /\ tv_us t = Z.max 0 (tv_us (ev_timeout (get st e)) - tv_us (gettime st).1)
    end.
Proof.
  intros Hwf Hnorm Hnow. unfold timeout_next. pose proof (to_heap _ (wf_timers _ Hwf)) as Wh. destruct (heap_set_spec st Hwf) as [_ HX].
  destruct (min_heap_top_ (timeheap (base st))) as [e|] eqn:Et.
  - destruct (top_min _ _ _ Wh Et) as [Hin Hmin]. apply HX in Hin.
    pose proof (gettime_get st e) as Hg. destruct (gettime st) as [now st1]. cbn [fst snd] in *. rewrite Hg.
    set (d := ev_timeout (get st e)) in *. specialize (Hnorm e Hin). fold d in Hnorm.
    assert (Hmin' : forall x, x ∈ heap_set st -> tv_le d (ev_timeout (get st x))) by (intros x Hx; by apply Hmin, HX).
    destruct (evutil_timercmp d now CmpLe) eqn:Hc.
    + eexists. split; [reflexivity|]. exists e. split_and!; [done | done | done|].
      apply tv_le_cmp, tv_le_us in Hc; [|done|done]. fold d. change (tv_us evutil_timerclear) with 0. lia.
    + assert (Hlt : tv_us now < tv_us d).
      { destruct (tv_le_total d now) as [Hle|Hle]; [apply tv_le_cmp in Hle; congruence|].
        apply tv_le_us in Hle; [|done..]. destruct (Z.eq_dec (tv_us now) (tv_us d)) as [Heq|]; [|lia].
        exfalso. assert (tv_le d now) as ?%tv_le_cmp by (apply tv_le_us; [done..|lia]). congruence. }
      pose proof (timersub_norm _ _ Hnorm Hnow) as Hn. pose proof (timersub_us d now) as Hu.
      cbv zeta. unfold evutil_assert. replace (0 <=? tv_sec _) with true.
      2: { symmetry. apply Z.leb_le. unfold tv_us, tv_norm in *. lia. }
      replace (0 <=? tv_usec _) with true by (symmetry; apply Z.leb_le, Hn).
      eexists. split; [reflexivity|]. exists e. fold d. split_and!; [done..|lia].
  - exists None. split; [done|]. apply set_eq. intros x. rewrite HX. split; [|set_solver].
    intros Hx. by apply (proj1 (top_none _ _ Wh) Et) in Hx.
Qed.
Lemma timeout_next_state st tv st' : timeout_next st = Some (tv, st') -> st' = st \/ st' = (gettime st).2.
Proof.
  unfold timeout_next. destruct (min_heap_top_ _) as [e|]; [|intros E; injection E as _ <-; by left].
  destruct (gettime st) as [now st1]. cbn [snd].
  case_if; [intros E'; injection E' as _ <-; by right|]. cbv zeta.
  intros R. bind_in R u1 E1. bind_in R u2 E2. injection R as _ <-. by right.
Qed.
Lemma timeout_next_sound st : sound at_rest st -> exists tv st', timeout_next st = Some (tv, st') /\ sound at_rest st'.
Proof.
  intros Hs. pose proof Hs as [[W L] Hq].
  destruct (timeout_next_spec st W) as (tv & R & _); [|apply gettime_norm, L|].
  { intros x Hx. apply (heap_set_elem st x W) in Hx as [Hx Hc]. by apply (fit_norm _ _ L). }
  destruct (timeout_next st) as [[tv' st']|] eqn:E; [|done]. exists tv', st'. split; [done|].
  destruct (timeout_next_state _ _ _ E) as [-> | ->]; [done|].
  eapply sound_still; [exact Hs | apply gettime_wf, W | apply gettime_stirs].
Qed.

(** ** Common timeouts. *)
Lemma common_loop_sound s idx now fuel st ctl : sound s st -> common_timeout_queues (base st) !! idx = Some ctl ->
  (length (ctl_events ctl) < fuel)%nat ->
  exists ev st', common_timeout_loop fuel idx now st = Some (ev, st') /\ sound s st' /\ stirs anything anybody st st' /\
    is_Some (common_timeout_queues (base st') !! idx) /\
    forall e, ev = Some e -> flag st' e EVLIST_TIMEOUT = true /\ is_common_timeout st' (ev_timeout (get st' e)) = true.
Proof.
  revert st ctl. induction fuel as [|fuel IH]; intros st ctl Hs Hl Hn; [lia|]. cbn [common_timeout_loop].
  rewrite Hl. cbn [mbind option_bind]. pose proof Hs as [[W L] Hq].
  destruct (to_common _ (wf_timers _ W) _ _ Hl) as [[ND Hm] _].
  destruct (ctl_events ctl) as [|e l] eqn:Hc; [by exists None, st|].
  destruct (proj1 (Hm e) (list_elem_of_here _ _)) as (Ht & Hcom & Hidx).
  case_if; [exists (Some e), st; split_and!; try done; by intros x [= <-]|].
  destruct (fire_ok st e W (live_pending _ _ L Hq) Ht) as (r & st1 & st2 & R1 & R2 & F).
  rewrite R1. cbn [mbind option_bind]. rewrite R2. cbn [mbind option_bind].
  pose proof (fire_sound _ _ _ _ _ _ Hs Ht R1 R2) as Hs2.
  destruct (lookup_lt_is_Some_2 (common_timeout_queues (base st2)) idx) as [ctl2 Hl2].
  { destruct (fi_sizes _ _ _ F) as [_ ->]. by eapply lookup_lt_Some. }
  destruct (to_common _ (wf_timers _ (fi_wf _ _ _ F)) _ _ Hl2) as [[ND2 Hm2] _].
  assert (Hlen : (S (length (ctl_events ctl2)) <= length (e :: l))%nat).
  { change (S (length (ctl_events ctl2))) with (length (e :: ctl_events ctl2)).
    apply submseteq_length, NoDup_submseteq.
    - constructor; [|done]. intros (Hx & _)%Hm2. destruct (fi_flags _ _ _ F). congruence.
    - intros x [->|Hx]%elem_of_cons; [by left|]. apply Hm2 in Hx as (Hx & Hxc & Hxi).
      assert (Hne : x <> e) by (intros ->; destruct (fi_flags _ _ _ F); congruence). apply Hm.
      rewrite (fired_flag _ _ _ _ _ F) in Hx by done. rewrite (fired_timeout _ _ _ _ F) in Hxc, Hxi.
      rewrite (is_common_ext st st2) in Hxc by apply (fi_sizes _ _ _ F). done. }
  destruct (IH st2 ctl2 Hs2 Hl2) as (ev & st' & R & Hs' & St & Hi & He); [cbn [length] in *; lia|].
  exists ev, st'. split_and!; try done. etrans; [by eapply del_stirs|]. etrans; [by eapply active_nolock_stirs | exact St].
Qed.

Context (no_oom : forall b, mm_ok b = true).

Lemma add_sound s st e tv abs r st' : sound s st -> flag st e EVLIST_INIT = true -> may_place s st e ->
  (forall t, tv = Some t -> tv_arg st t) -> (forall t, tv = Some t -> abs = true -> interval_ok st e t) ->
  event_add_nolock st e tv abs = Some (r, st') -> sound s st'.
Proof using no_oom.
  intros [[W L] Hq] Hi Hm Ha Hio R. split; [split|].
  - eapply (add_wf st e); [done | by left | by apply (fo_init _ (wf_flags _ W)) | exact R].
  - by eapply add_fit.
  - by rewrite (sw_queues _ _ (world_same _ _ (si_world _ _ _ _ (add_stirs _ _ _ _ _ _ _ R)))).
Qed.
Lemma fit_inner_idle s st : fit s st -> inner_idle st.
Proof.
  intros L i ctl Hl. apply (eo_inner _ _ _ (lv_events _ _ L _)).
  apply list_elem_of_fmap. exists ctl. split; [done|]. by eapply list_elem_of_lookup_2.
Qed.

Lemma common_callback_sound s st idx : sound s st -> Z.of_nat idx < n_common_timeouts st ->
  exists st', common_timeout_callback st idx = Some st' /\ sound s st' /\ steady st st'.
Proof using no_oom.
  intros Hs Hidx. unfold common_timeout_callback. pose proof (gettime_stirs nothing nobody st) as S0.
  assert (Hs1 : sound s (gettime st).2) by (eapply sound_still; [exact Hs | apply gettime_wf, Hs | done]).
  destruct (gettime st) as [now st1]. cbn [snd] in *.
  destruct (lookup_lt_is_Some_2 (common_timeout_queues (base st1)) idx) as [ctl Hl].
  { rewrite (world_lists _ _ (si_world _ _ _ _ S0)). unfold n_common_timeouts in Hidx. lia. }
  rewrite Hl. cbn [mbind option_bind].
  destruct (common_loop_sound s idx now (S (length (ctl_events ctl))) st1 ctl Hs1 Hl ltac:(lia)) as (ev & st2 & R & Hs2 & S2 & [ctl2 Hl2] & He).
  rewrite R. cbn [mbind option_bind].
  assert (Sd : steady st st2) by (eapply steady_stirs; etrans; [eapply stirs_any, S0 | exact S2]).
  destruct ev as [e|]; [|by exists st2]. rewrite Hl2. cbn [mbind option_bind].
  destruct (He e eq_refl) as [Ht Hc]. pose proof Hs2 as [[W2 L2] Hq2].
  destruct (eo_wait _ _ _ (lv_events _ _ L2 e) Ht) as [Ha _]. unfold tv_arg in Ha. rewrite Hc in Ha. destruct Ha as [_ Hn].
  unfold common_timeout_schedule. cbv zeta.
  destruct (reschedules_one 1 st2 idx ctl2 (plain true (ev_timeout (get st2 e))) W2 (or_introl no_oom) (lv_clock _ _ L2) Hl2
    (fit_inner_idle _ _ L2 _ _ Hl2) Hn) as [[r st3] R3].
  unfold event_add_nolock, add_fuel. unfold plain in R3. rewrite R3. cbn [mbind option_bind]. exists st3. split; [done|].
  assert (Hin : inner st2 (ctl_timeout_event ctl2)).
  { apply list_elem_of_fmap. exists ctl2. split; [done|]. by eapply list_elem_of_lookup_2. }
  destruct (eo_inner _ _ _ (lv_events _ _ L2 _) Hin) as (Hi & _ & Hp & Ho). split.
  - eapply (add_sound s st2); [done | exact Hi | by intros | | | exact R3].
    + intros t [= <-]. change (tv_arg st2 (plain true (ev_timeout (get st2 e)))). unfold tv_arg. by rewrite (norm_not_common st2 _ Hn).
    + intros t _ _ Hx. done.
  - etrans; [exact Sd|]. eapply steady_stirs, add_stirs. exact R3.
Qed.

(** ** The interval of a persistent event. *)
Lemma same_is_common st a b : is_same_common_timeout a b = true -> is_common_timeout st a = is_common_timeout st b.
Proof using.
  intros Hs%same_common_high.
  assert (Hl : forall u m, Z.land MICROSECONDS_MASK m = 0 -> Z.land u m = Z.land (Z.ldiff u MICROSECONDS_MASK) m).
  { intros u m Hm. apply Z.bits_inj'. intros k Hk. pose proof (f_equal (fun z => Z.testbit z k) Hm) as Hb. cbv beta in Hb.
    rewrite Z.bits_0, Z.land_spec in Hb. rewrite !Z.land_spec, Z.ldiff_spec.
    destruct (Z.testbit u k), (Z.testbit MICROSECONDS_MASK k), (Z.testbit m k); done. }
  unfold is_common_timeout. by rewrite !(Hl (tv_usec a)), !(Hl (tv_usec b)), Hs.
Qed.
Lemma persist_run_arg st e now : tv_norm now -> tv_arg st (ev_timeout (get st e)) -> tv_arg st (ev_io_timeout (get st e)) ->
  is_same_common_timeout (ev_timeout (get st e)) (ev_io_timeout (get st e)) = true ->
  tv_arg st (persist_run_at st e now) /\ is_same_common_timeout (persist_run_at st e now) (ev_io_timeout (get st e)) = true.
Proof using.
  intros Hn Ht Hi Hs. pose proof (same_is_common st _ _ Hs) as Hc. unfold tv_arg in Ht, Hi. rewrite <- Hc in Hi.
  destruct (is_common_timeout st (ev_timeout (get st e))) eqn:Hco.
  - destruct Ht as [_ Ht], Hi as [Hu Hi].
    destruct (persist_run_shape st e now Hn) as (t & Htn & ->); [by rewrite Hco.. |]. rewrite Hco.
    assert (Hb : 0 <= tv_usec t < 2 ^ 20) by (unfold tv_norm in Htn; lia).
    destruct (remark_common st (ev_io_timeout (get st e)) (tv_usec t) Hb Hu (eq_sym Hc) (tv_sec t)) as (H1 & _ & H3). split.
    + unfold tv_arg. rewrite H1. split; [exact H3|]. unfold plain, tv_norm. cbn [tv_usec]. rewrite mask_lor; [exact Htn | done | apply high_mask].
    + apply same_common_high. cbn [tv_usec]. by apply high_lor.
  - destruct (persist_run_shape st e now Hn) as (t & Htn & ->); [by rewrite Hco.. |]. rewrite Hco, Z.lor_0_r.
    assert (Hx : Timeval (tv_sec t) (tv_usec t) = t) by (by destruct t). rewrite Hx. split.
    + unfold tv_arg. by rewrite norm_not_common.
    + apply same_common_high. by rewrite !norm_high.
Qed.
End Returns.

(** * The loop *)
Section Safe.
Context {B : Type} `{ApiEnvironment B}.
Context (no_oom : forall b, mm_ok b = true).
Implicit Types (st : state B) (e x : eid) (s : scope).

(** ** Callbacks. *)
Definition no_current st : state B := upd_base st (fun b => {| b with current_event := None |}).
Definition now_running st e : state B := upd_base st (fun b => {| b with current_event := Some e |}).
(** What a closure leaves: a sound state once no event is current. *)
Definition rested st : Prop := sound at_rest (no_current st).

Lemma wf_current st c : base_wf st -> base_wf (upd_base st (fun b => {| b with current_event := c |})).
Proof using. apply wf_upd_base. intros b. by repeat split. Qed.
Lemma sound_rested st : sound at_rest st -> rested st.
Proof using.
  intros [[W L] Hq]. split; [split; [by apply wf_current|] | done]. split; [apply L | apply L | | done].
  intros x. destruct (lv_events _ _ L x). split; try done. intros Hc. destruct (eo_once Hc) as ((? & ? & ? & ? & ?) & _ & ?). by split_and!.
Qed.

Lemma sound_base s st f : sound s st -> (forall b, same_base (f b) b) -> (forall b, once_events (f b) = once_events b /\
  current_event (f b) = current_event b /\ tv_cache (f b) = tv_cache b) ->
  (forall b, closure_ncalls (f b) = closure_ncalls b \/ closure_ncalls (f b) = 0) -> sound s (upd_base st f).
Proof using.
  intros Hs Hsb Hf Hn. eapply sound_still; [exact Hs | apply wf_upd_base; [done | apply Hs]|].
  apply stirs_upd_base; [done|]. intros b. destruct (Hf b) as (? & ? & ?), (Hsb b) as (? & ? & ? & ? & ? & ? & ?). split_and!; auto.
Qed.

Lemma run_function_sound s st f c : new_once s = None -> sound s st ->
  exists st', run_function st f c = Some st' /\ sound s st' /\ steady st st'.
Proof using All.
  intros Hn Hs. unfold run_function. case_if.
  - eexists. split; [done|]. split; [apply sound_base; [done | | done | by left]; intros b; by repeat split | by apply steady_upd_base].
  - destruct (user_call_api s f c st Hn Hs) as (st' & R & A). exists st'. split; [done|].
    split; [by eapply api_steps_sound | by apply api_steps_steady].
Qed.

(** The callback of an event that is not one of [event_base_once]. *)
Lemma event_callback_sound s st e fd res : new_once s = None -> sound s st -> ev_callback (get st e) <> event_once_cb_ptr ->
  exists st', run_event_callback st (ev_callback (get st e)) fd res (ev_arg (get st e)) = Some st' /\ sound s st' /\ steady st st'.
Proof using All.
  intros Hn Hs Ho. unfold run_event_callback. destruct (Z.eqb_spec (ev_callback (get st e)) common_timeout_callback_ptr) as [Hc|].
  - apply common_callback_sound; [done | done|]. by apply (eo_common _ _ _ (lv_events _ _ (proj2 (proj1 Hs)) e)).
  - destruct (Z.eqb_spec (ev_callback (get st e)) event_once_cb_ptr); [done | by apply run_function_sound].
Qed.

Lemma find_once st e : once_entry st e -> is_Some (find (fun o => bool_decide (eo_ev o = e)) (once_events (base st))).
Proof using.
  unfold once_entry. induction (once_events (base st)) as [|o l IH]; cbn; [by intros ?%not_elem_of_nil|].
  case_bool_decide; [by eexists|]. intros [Hx|Hx]%elem_of_cons; [congruence | by apply IH].
Qed.
(** The callback of an event scheduled once, which then is forgotten. *)
Lemma once_cb_sound st fd res e : sound (Scope (Some e) None) st ->
  exists st', event_once_cb st fd res e = Some st' /\ rested st'.
Proof using All.
  intros Hs. unfold event_once_cb. destruct (find_once st e) as [o Ho]; [by apply (lv_running _ _ (proj2 (proj1 Hs)) e)|].
  rewrite Ho. cbn [mbind option_bind].
  destruct (run_function_sound (Scope (Some e) None) st (eo_cb o) (CallEvent fd res (eo_arg o)) eq_refl Hs) as (st1 & -> & [[W1 L1] Hq1] & _).
  cbn [mbind option_bind]. eexists. split; [done|]. unfold rested. set (st2 := upd_base st1 _).
  assert (W2 : base_wf st2) by (apply wf_upd_base; [intros b; by repeat split | done]).
  split; [split; [by apply wf_current|] | done]. split; [apply L1 | apply L1 | | done].
  intros x. destruct (lv_events _ _ L1 x). split; try done. intros Hc. destruct (eo_once Hc) as ((? & ? & ? & ? & ?) & _ & Hd). split_and!; [done.. | done|].
  cbn [running_once] in Hd. destruct Hd as [|[[Hen|] Hne]]; [by left | right | done]. split; [left | done].
  unfold once_entry in *. cbn. rewrite list_elem_of_fmap in *. destruct Hen as (o' & -> & Hin). exists o'. split; [done|].
  apply list_elem_of_filter. split; [|done]. intros Heq. apply Hne. by f_equal.
Qed.

(** ** Closures. *)
Lemma current_not_once st e : sound at_rest st -> current_event (base st) = Some e -> ev_callback (get st e) <> event_once_cb_ptr.
Proof using.
  intros [[W L] _] Hc Ho. destruct (eo_once _ _ _ (lv_events _ _ L e) Ho) as (_ & Hr & _). by specialize (Hr Hc).
Qed.

Lemma sound_ncalls st e n f : sound at_rest st -> short n ->
  sound at_rest (upd st e (fun ev => {| ev with ev_ncalls := n; ev_pncalls := f ev |})).
Proof using.
  intros Hs Hn. eapply sound_still; [exact Hs | apply wf_upd; [intros ev; by repeat split | apply Hs]|].
  apply stirs_upd; [done | by split | by split; [|left] | done].
Qed.
Lemma s16_pred c : short c -> c <> 0 -> u16 (s16 (c - 1)) = u16 c - 1.
Proof using. unfold short, s16, u16. intros ? ?. Z.to_euclidean_division_equations. lia. Qed.

Lemma sound_closure_ncalls st n : sound at_rest st -> sound at_rest (upd_base st (fun b => {| b with closure_ncalls := n |})).
Proof using.
  intros [[W L] Hq]. split; [split; [apply wf_upd_base; [intros b; by repeat split | done]|] | done].
  split; [apply L | apply L | | done]. intros x. apply (event_ok_same at_rest st); try done; apply (lv_events _ _ L).
Qed.

Lemma signal_loop_sound fuel st e : sound at_rest st -> current_event (base st) = Some e ->
  short (closure_ncalls (base st)) -> (Z.to_nat (u16 (closure_ncalls (base st))) <= fuel)%nat ->
  exists st', event_signal_loop fuel st e = Some st' /\ sound at_rest st'.
Proof using All.
  revert st. induction fuel as [|fuel IH]; intros st Hs Hc Hn Hf; cbn [event_signal_loop].
  - case_if; [by exists st|]. exfalso. unfold c_true in *. destruct (Z.eqb_spec (closure_ncalls (base st)) 0); [done|].
    unfold short, u16 in *. Z.to_euclidean_division_equations; lia.
  - case_if; [by exists st|]. cbv zeta. set (st1 := upd_base st _). set (st2 := upd st1 e _).
    assert (Hne : closure_ncalls (base st) <> 0) by (unfold c_true in *; destruct (Z.eqb_spec (closure_ncalls (base st)) 0); done).
    assert (Hs2 : sound at_rest st2) by (apply sound_ncalls; [by apply sound_closure_ncalls | apply s16_short]).
    assert (Hc2 : current_event (base st2) = Some e) by exact Hc.
    destruct (event_callback_sound at_rest st2 e (ev_fd (get st2 e)) (ev_res (get st2 e)) eq_refl Hs2 (current_not_once _ _ Hs2 Hc2)) as (st3 & -> & Hs3 & Sd).
    cbn [mbind option_bind]. case_if.
    + eexists. split; [done|]. case_if; [|done]. eapply sound_still; [exact Hs3 | apply wf_upd; [intros ev; by repeat split | apply Hs3]|].
      apply stirs_upd; [done | by split | by split; [|left] | done].
    + assert (Hcn : closure_ncalls (base st2) = s16 (closure_ncalls (base st) - 1)) by done.
      apply IH; [done | by rewrite (sd_current _ _ Sd) | |]; destruct (sd_ncalls _ _ Sd) as [-> | ->]; rewrite ?Hcn.
      * apply s16_short.
      * unfold short. lia.
      * rewrite s16_pred by done. lia.
      * change (u16 0) with 0. lia.
Qed.
Lemma signal_closure_sound st e : sound at_rest st -> current_event (base st) = Some e ->
  exists st', event_signal_closure st e = Some st' /\ sound at_rest st'.
Proof using All.
  intros Hs Hc. unfold event_signal_closure. cbv zeta. pose proof (eo_ncalls _ _ _ (lv_events _ _ (proj2 (proj1 Hs)) e)) as Hn.
  set (st1 := if _ : bool then _ else st).
  assert (Hs1 : sound at_rest st1 /\ base st1 = base st).
  { subst st1. case_if; [|done]. split; [|done]. eapply sound_still; [exact Hs | apply wf_upd; [intros ev; by repeat split | apply Hs]|].
    apply stirs_upd; [done | by split | by split; [|left] | done]. }
  destruct Hs1 as [Hs1 Hb1]. apply signal_loop_sound; [by apply sound_closure_ncalls | by cbn; rewrite Hb1 | done | done].
Qed.

Lemma persist_closure_sound st e : sound at_rest st -> ev_closure (get st e) = EV_CLOSURE_EVENT_PERSIST ->
  flag st e EVLIST_INIT = true -> exists st', event_persist_closure st e = Some st' /\ sound at_rest st'.
Proof using All.
  intros Hs Hcl Hi. pose proof Hs as [[W L] Hq]. pose proof (lv_events _ _ L e) as Ev.
  assert (Ho : ev_callback (get st e) <> event_once_cb_ptr).
  { intros Ho. destruct (eo_once _ _ _ Ev Ho) as ((_ & _ & _ & _ & Hx) & _). by rewrite Hcl in Hx. }
  unfold event_persist_closure. set (tm := if _ : bool then _ else Some st).
  assert (HT : exists st1, tm = Some st1 /\ sound at_rest st1 /\ ev_callback (get st1 e) <> event_once_cb_ptr).
  { subst tm. destruct (eo_persist _ _ _ Ev Hcl) as [[Hz1 Hz2]|(Hio & Htm & Hsame)].
    { rewrite Hz1, Hz2. cbn [c_true Z.eqb negb orb]. by exists st. }
    case_if; [|by exists st]. rewrite Hsame. cbn [evutil_assert mbind option_bind].
    pose proof (gettime_stirs nothing nobody st) as S1. pose proof (gettime_norm st (lv_clock _ _ L)) as Hnow.
    assert (Hs1 : sound at_rest (gettime st).2) by (eapply sound_still; [exact Hs | apply gettime_wf, W | done]).
    pose proof (gettime_get st e) as Hg. destruct (gettime st) as [now st1]. cbn [fst snd] in *.
    pose proof Hs1 as [[W1 L1] Hq1].
    assert (Hi1 : flag st1 e EVLIST_INIT = true) by (unfold flag; by rewrite Hg).
    pose proof (si_world _ _ _ _ S1) as Hw1.
    destruct (persist_run_arg st1 e now Hnow) as [Hra Hrs].
    { rewrite Hg. by apply (tv_arg_world _ _ _ Hw1). }
    { rewrite Hg. by apply (tv_arg_world _ _ _ Hw1). }
    { by rewrite Hg. }
    destruct (add_level 1 st1 e (Some (persist_run_at st1 e now)) true W1 (or_introl no_oom)) as [[r st2] R2].
    { by apply (fo_init _ (wf_flags _ W1)). }
    { apply (lv_clock _ _ L1). }
    { by apply (eo_fd _ _ _ (lv_events _ _ L1 e)). }
    { intros t [= <-]. by eapply tv_arg_sane. }
    { intros t _ _. split; [by eapply fit_inner_idle | apply reschedules_one]. }
    unfold event_add_nolock, add_fuel. rewrite R2. cbn [mbind option_bind]. exists st2. split; [done|]. split.
    - eapply (add_sound no_oom at_rest st1); [done | exact Hi1 | | | | exact R2].
      + intros Hx. by rewrite Hg in Hx.
      + by intros t [= <-].
      + intros t [= <-] _ _. right. split; [|done]. rewrite Hg. by apply (tv_arg_world _ _ _ Hw1).
    - destruct (moved_statics _ _ (si_moved _ _ _ _ (add_stirs _ _ _ _ _ _ _ R2) e)) as (-> & _). by rewrite Hg. }
  destruct HT as (st1 & -> & Hs1 & Ho1). cbn [mbind option_bind].
  destruct (event_callback_sound at_rest st1 e (ev_fd (get st1 e)) (ev_res (get st1 e)) eq_refl Hs1 Ho1) as (st2 & -> & ? & _). by exists st2.
Qed.

(** The closure of an event just taken off its queue. *)
Lemma run_closure_sound st e : sound at_rest st -> closure_ok (get st e) ->
  (ev_callback (get st e) = event_once_cb_ptr -> detached st e /\ once_entry st e) ->
  exists st', run_closure (now_running st e) e = Some st' /\ rested st'.
Proof using All.
  intros Hs Hcl Hon. pose proof Hs as [[W L] Hq]. pose proof (lv_events _ _ L e) as Ev.
  set (sc := Scope (if decide (ev_callback (get st e) = event_once_cb_ptr) then Some e else None) None).
  assert (Hr : sound sc (now_running st e)).
  { split; [split; [by apply wf_current|] | done]. split; [apply L | apply L | |].
    - intros x. destruct (lv_events _ _ L x). split; try done. intros Hc. destruct (eo_once Hc) as ((? & ? & ? & ? & ?) & _ & Hd). split_and!; [done.. | |].
      + cbn. intros [= <-]. by rewrite decide_True.
      + destruct (decide (x = e)) as [->|Hne]; [left; by apply Hon|]. destruct Hd as [|[Hd _]]; [by left | right].
        split; [exact Hd|]. cbn. case_decide; [intros [= <-]|]; done.
    - intros x Hx. cbn in Hx. case_decide; [injection Hx as <-; by split; [apply Hon|] | done]. }
  set (st1 := now_running st e) in *. change (get st e) with (get st1 e) in *.
  unfold run_closure. cbv zeta. change (upd_base st1 (fun b => {| b with current_event := None |})) with (no_current st1).
  assert (Hno : ev_closure (get st1 e) <> EV_CLOSURE_EVENT -> sound at_rest st1 /\ ev_callback (get st1 e) <> event_once_cb_ptr).
  { intros Hne. assert (Hx : ev_callback (get st1 e) <> event_once_cb_ptr).
    { intros Ho. destruct (eo_once _ _ _ Ev Ho) as ((_ & _ & _ & _ & Hx) & _). done. }
    split; [|done]. subst sc. by rewrite decide_False in Hr. }
  assert (Hfun : ev_closure (get st1 e) <> EV_CLOSURE_EVENT -> forall c st', (st' = st1 \/ st' = no_current st1) ->
    exists st2, run_function st' (ev_callback (get st1 e)) c = Some st2 /\ rested st2).
  { intros Hne c st' Hst. destruct (Hno Hne) as [Hs1 _].
    destruct (run_function_sound at_rest st' (ev_callback (get st1 e)) c eq_refl) as (st2 & R & Hs2 & _).
    { destruct Hst as [-> | ->]; [done | by apply sound_rested]. }
    exists st2. split; [done | by apply sound_rested]. }
  destruct Hcl as [[Hcl Hi]|[Hcl|[[Hcl [Hi Hf]]|[Hcl Hf]]]].
  - rewrite Hi. destruct Hcl as [Hcl|[Hcl|Hcl]]; rewrite Hcl; cbn [Z.eqb Pos.eqb EV_CLOSURE_EVENT EV_CLOSURE_EVENT_SIGNAL EV_CLOSURE_EVENT_PERSIST evutil_assert mbind option_bind].
    + subst sc. case_decide as Ho.
      * rewrite Ho. unfold run_event_callback. cbn [Z.eqb Pos.eqb event_once_cb_ptr common_timeout_callback_ptr].
        destruct (eo_once _ _ _ Ev Ho) as ((Ha & _) & _). change (get st e) with (get st1 e) in Ha. rewrite Ha, Nat2Z.id. by apply once_cb_sound.
      * destruct (event_callback_sound at_rest st1 e (ev_fd (get st1 e)) (ev_res (get st1 e)) eq_refl Hr Ho) as (st2 & R & Hs2 & _).
        exists st2. split; [exact R | by apply sound_rested].
    + destruct (signal_closure_sound st1 e) as (st2 & R & Hs2); [apply Hno; by rewrite Hcl | done|]. exists st2. split; [exact R | by apply sound_rested].
    + destruct (persist_closure_sound st1 e) as (st2 & R & Hs2); [apply Hno; by rewrite Hcl | done | done|]. exists st2. split; [exact R | by apply sound_rested].
  - rewrite Hcl in *. apply (Hfun ltac:(done)); by left.
  - rewrite Hi, Hf. destruct Hcl as [Hcl|Hcl]; rewrite Hcl in *; cbn [Z.eqb Pos.eqb orb evutil_assert mbind option_bind]; apply (Hfun ltac:(done)); by right.
  - rewrite Hf, Hcl in *. apply (Hfun ltac:(done)); by right.
Qed.

(** ** The active queues. *)
Lemma remove_active_some st e : flag st e EVLIST_ACTIVE = true -> is_Some (event_queue_remove_active st e).
Proof using. intros Ha. unfold event_queue_remove_active. rewrite Ha. by eexists. Qed.

Lemma dequeue_sound st e : sound at_rest st -> flag st e EVLIST_ACTIVE = true ->
  exists st', dequeue_active st e = Some st' /\ sound at_rest st' /\ closure_ok (get st' e) /\
    (ev_callback (get st' e) = event_once_cb_ptr -> detached st' e /\ once_entry st' e).
Proof using.
  intros Hs Ha. pose proof Hs as [[W L] Hq]. pose proof (lv_events _ _ L e) as Ev.
  assert (Hend : forall st', base_wf st' -> stirs nothing nobody st st' ->
    (ev_callback (get st e) = event_once_cb_ptr -> detached st' e) ->
    sound at_rest st' /\ closure_ok (get st' e) /\ (ev_callback (get st' e) = event_once_cb_ptr -> detached st' e /\ once_entry st' e)).
  { intros st' W' S Hd. pose proof (si_moved _ _ _ _ S e) as M. split_and!.
    - by eapply sound_still.
    - apply (moved_closure _ _ M), (eo_closure _ _ _ Ev). auto.
    - destruct (moved_statics _ _ M) as (-> & _). intros Ho. split; [by apply Hd|].
      unfold once_entry. rewrite (sw_once _ _ (world_same _ _ (si_world _ _ _ _ S))).
      destruct (eo_once _ _ _ Ev Ho) as (_ & _ & [(_ & Hx & _)|[[?|?] _]]); [congruence | done | done]. }
  unfold dequeue_active. destruct (remove_active_some st e Ha) as [st1 R1].
  pose proof (remove_active_wf _ _ _ R1 W) as W1. pose proof (remove_active_stirs nothing nobody _ _ _ R1) as S1.
  case_if; [case_if|].
  - exists st1. split; [done|]. apply Hend; [done..|]. intros Ho. destruct (eo_once _ _ _ Ev Ho) as ((_ & _ & Hf & Hp & _) & _).
    rewrite Hf, Hp in *. done.
  - match goal with Hx : _ || _ = false |- _ => destruct (orb_false_elim _ _ Hx) as [_ Hf] end.
    destruct (del_ok st e EVENT_DEL_NOBLOCK W (eo_base _ _ _ Ev ltac:(done)) (or_intror Hf)) as (r & st2 & R2 & W2 & _ & _ & D2 & _).
    rewrite R2. cbn [mbind option_bind]. exists st2. split; [done|]. apply Hend; [done | by eapply del_stirs | done].
  - exists st1. split; [done|]. apply Hend; [done..|]. intros Ho. destruct (eo_once _ _ _ Ev Ho) as ((_ & Hi & _) & _). congruence.
Qed.

Lemma queue_head st i e l : 0 <= i -> queue_at (activequeues (base st)) i = e :: l -> sound at_rest st -> flag st e EVLIST_ACTIVE = true.
Proof using.
  intros Hi Hl [[W _] _]. destruct (Z_lt_le_dec i (nactivequeues st)) as [Hlt|Hge].
  - apply (qo_queue _ (wf_queues _ W) i ltac:(lia)). rewrite Hl. by left.
  - rewrite queue_at_none in Hl; [done | unfold nactivequeues in Hge; lia | done].
Qed.

Lemma update_time_sound st : sound at_rest st -> sound at_rest (update_time_cache st).
Proof using.
  intros [[W L] Hq]. split; [split; [by apply (wf_view _ _ (update_time_view st)) | by apply update_time_fit]|].
  pose proof (update_time_view st) as V. destruct V as [_ (_ & _ & Va & _)]. unfold nactivequeues in *. by rewrite Va.
Qed.
Lemma gettime_sound st : sound at_rest st -> sound at_rest (gettime st).2.
Proof using. intros Hs. eapply sound_still; [exact Hs | apply gettime_wf, Hs | apply gettime_stirs]. Qed.

Lemma single_queue_sound fuel pri mx en c st : 0 <= pri -> sound at_rest st ->
  exists o st', event_process_active_single_queue fuel pri mx en c st = Some (o, st') /\ sound at_rest st'.
Proof using All.
  intros Hpri. revert c st. induction fuel as [|fuel IH]; intros c st Hs; cbn [event_process_active_single_queue].
  - destruct (queue_at _ _); by eexists _, st.
  - destruct (queue_at _ _) as [|e l] eqn:Hl; [by eexists _, st|].
    destruct (dequeue_sound st e Hs (queue_head _ _ _ _ Hpri Hl Hs)) as (st1 & -> & Hs1 & Hcl & Ho). cbn [mbind option_bind]. cbv zeta.
    destruct (run_closure_sound st1 e Hs1 Hcl Ho) as (st2 & R & Hs2). unfold now_running in R. rewrite R. cbn [mbind option_bind].
    change (upd_base st2 (fun b => {| b with current_event := None |})) with (no_current st2). unfold rested in Hs2.
    set (cnt := if flag st1 e EVLIST_INTERNAL then c else c + 1).
    case_if; [by eexists _, _|]. case_if; [by eexists _, _|].
    set (p := match en with Some _ => _ | None => _ end).
    assert (Hp : sound at_rest p.2).
    { subst p. destruct en as [t|]; [|done]. case_if; [|done].
      pose proof (gettime_sound _ (update_time_sound _ Hs2)) as Hg. by destruct (gettime (update_time_cache (no_current st2))). }
    destruct p as [ex st3]. cbn [snd] in Hp. destruct ex; [by eexists _, _|]. case_if; [by eexists _, _ | by apply IH].
Qed.

Lemma running_priority_sound st n : sound at_rest st -> sound at_rest (upd_base st (fun b => {| b with event_running_priority := n |})).
Proof using. intros Hs. apply sound_base; [done | intros b; by repeat split | done | by left]. Qed.

Lemma process_from_sound n fuel i mx lim en st : 0 <= i < EVENT_MAX_PRIORITIES -> Z.of_nat n + i = EVENT_MAX_PRIORITIES -> sound at_rest st ->
  exists o st', process_active_from n fuel i mx lim en st = Some (o, st') /\ sound at_rest st'.
Proof using All.
  revert i st. induction n as [|n IH]; intros i st Hi Hn Hs; [unfold EVENT_MAX_PRIORITIES in *; lia|]. cbn [process_active_from].
  pose proof (lv_queues _ _ (proj2 (proj1 Hs))) as Hq.
  destruct (Z.leb_spec (nactivequeues st) i); [by eexists _, _|].
  destruct (queue_at _ _) as [|e l] eqn:Hl; [apply IH; [lia..|done]|]. cbv zeta.
  assert (HR : exists o st1, (if i <? lim then event_process_active_single_queue fuel i INT_MAX None 0
       (upd_base st (fun b => {| b with event_running_priority := i |}))
     else event_process_active_single_queue fuel i mx en 0 (upd_base st (fun b => {| b with event_running_priority := i |}))) = Some (o, st1) /\ sound at_rest st1).
  { case_if; apply single_queue_sound; (lia || by apply running_priority_sound). }
  destruct HR as (o & st1 & -> & Hs1). cbn [mbind option_bind].
  destruct o as [[| |]|]; try by eexists _, _. apply IH; [lia..|done].
Qed.
Lemma process_active_sound fuel st : sound at_rest st ->
  exists o st', event_process_active fuel st = Some (o, st') /\ sound at_rest st'.
Proof using All.
  intros Hs. unfold event_process_active. cbv zeta. set (p := if _ : bool then _ else _).
  assert (Hp : sound at_rest p.2).
  { subst p. case_if; [|done]. pose proof (gettime_sound _ (update_time_sound _ Hs)) as Hg. by destruct (gettime (update_time_cache st)). }
  destruct p as [en st1]. cbn [snd] in Hp.
  destruct (process_from_sound (Z.to_nat EVENT_MAX_PRIORITIES) fuel 0 (max_dispatch_callbacks (base st)) (limit_callbacks_after_prio (base st)) en st1) as (o & st2 & -> & Hs2);
    [done..|]. cbn [mbind option_bind]. destruct o; [|by eexists _, _]. eexists _, _. split; [done|]. by apply running_priority_sound.
Qed.

(** ** The loop. *)
Lemma clear_time_sound st : sound at_rest st -> sound at_rest (clear_time_cache st).
Proof using.
  intros [[W L] Hq]. split; [split; [by apply (wf_view _ _ (clear_time_view st)) | by apply clear_time_fit] | done].
Qed.
Lemma turn_sound fuel flags st : sound at_rest st ->
  exists o st', event_loop_turn fuel flags st = Some (o, st') /\ sound at_rest st'.
Proof using All.
  intros Hs. unfold event_loop_turn. cbv zeta. set (st1 := upd_base st _).
  assert (Hs1 : sound at_rest st1) by (apply sound_base; [done | intros b; by repeat split | done | by left]).
  case_if; [by eexists _, _|]. set (tn := if _ : bool then timeout_next st1 else _).
  assert (HT : exists tv st2, tn = Some (tv, st2) /\ sound at_rest st2).
  { subst tn. case_if; [by apply timeout_next_sound | by eexists _, _]. }
  destruct HT as (tv & st2 & -> & Hs2). cbn [mbind option_bind]. case_if; [by eexists _, _|].
  destruct (make_later_sound st2 Hs2) as (st3 & -> & Hs3). cbn [mbind option_bind].
  pose proof (clear_time_sound _ Hs3) as Hs3'.
  destruct (dispatch_api (clear_time_cache st3) tv Hs3') as (r & st4 & -> & A). cbn [mbind option_bind].
  pose proof (api_steps_sound at_rest _ _ no_oom eq_refl Hs3' A) as Hs4. case_if; [by eexists _, _|].
  destruct (timeout_process_sound _ (update_time_sound _ Hs4)) as (st5 & -> & Hs5). cbn [mbind option_bind].
  case_if; [|case_if; by eexists _, _].
  destruct (process_active_sound fuel st5 Hs5) as (o & st6 & -> & Hs6). cbn [mbind option_bind].
  destruct o; [case_if|]; by eexists _, _.
Qed.
Lemma loop_run_sound turns fuel flags st : sound at_rest st ->
  exists o st', event_loop_run turns fuel flags st = Some (o, st') /\ sound at_rest st'.
Proof using All.
  revert st. induction turns as [|turns IH]; intros st Hs; cbn [event_loop_run]; [by eexists _, _|].
  destruct (turn_sound fuel flags st Hs) as (o & st1 & -> & Hs1). cbn [mbind option_bind].
  destruct o as [r|]; [by eexists _, _ | by apply IH].
Qed.
Lemma base_loop_sound turns fuel flags st : sound at_rest st ->
  exists o st', event_base_loop turns fuel flags st = Some (o, st') /\ sound at_rest st'.
Proof using All.
  intros Hs. unfold event_base_loop. case_if; [by eexists _, _|]. cbv zeta.
  assert (Hb : forall st f, sound at_rest st -> (forall b, same_base (f b) b) -> (forall b, once_events (f b) = once_events b /\
    current_event (f b) = current_event b /\ tv_cache (f b) = tv_cache b) -> (forall b, closure_ncalls (f b) = closure_ncalls b) -> sound at_rest (upd_base st f)).
  { intros st0 f Hs0 H1' H2' H3'. apply sound_base; auto. }
  set (st1 := upd_base (clear_time_cache _) _).
  destruct (loop_run_sound turns fuel flags st1) as (o & st2 & -> & Hs2).
  { apply Hb; [|intros b; by repeat split | done | done]. apply clear_time_sound, Hb; [done | intros b; by repeat split | done | done]. }
  cbn [mbind option_bind]. destruct o; [|by eexists _, _]. eexists _, _. split; [done|].
  apply Hb; [by apply clear_time_sound | intros b; by repeat split | done | done].
Qed.
End Safe.
