(* ===== verification/EvMapWatch.v ===== *)
(** * What the backend watches (evmap.c)

    The backend is told of a change only when the first event for a condition
    arrives on a descriptor or the last one leaves.  Against an interface
    that states what a backend does with such a call, the conditions it
    watches on a descriptor are at any time those of the events in the map. *)
From S2P Require Import Prelude Timeval MinHeap Event EventQueue EvMap EventCore EventInv EventPrims EvMapInv EventOps.

(** The contract of a backend: [interest b fd] is the set of conditions it
    watches.  A call must state the present set, and changes that one alone. *)
Class BackendInterest (B : Type) `{Eventop B} := {
  interest : B -> Z -> Z;
  add_interest b fd old evs b' : evsel_add b fd old evs = Some b' -> interest b fd = old ->
    forall x, interest b' x = if x =? fd then Z.lor old (Z.land evs EV_IO) else interest b x;
  del_interest b fd old evs b' : evsel_del b fd old evs = Some b' -> interest b fd = old ->
    forall x, interest b' x = if x =? fd then Z.ldiff old evs else interest b x;
  sig_add_interest b sig old evs b' : evsigsel_add b sig old evs = Some b' -> forall x, interest b' x = interest b x;
  sig_del_interest b sig old evs b' : evsigsel_del b sig old evs = Some b' -> forall x, interest b' x = interest b x
}.

Section Watch.
Context {B : Type} `{BackendInterest B} `{Platform}.
Implicit Types (st : state B) (e : eid).

(** The conditions an entry stands for; an absent entry stands for none. *)
Definition slot_interest st (fd : Z) : Z :=
  match io_entries (base st) !! fd with
  | Some ctx => io_old (nread ctx) (nwrite ctx) (nclose ctx)
  | None => 0
  end.
Record watches st : Prop := {
  wa_interest : forall fd, interest (evbase (base st)) fd = slot_interest st fd;
  wa_nonneg : forall fd ctx, io_entries (base st) !! fd = Some ctx ->
    0 <= nread ctx /\ 0 <= nwrite ctx /\ 0 <= nclose ctx
}.

(** One condition in a set of conditions. *)
Inductive io_bit : Z -> Prop := BitRead : io_bit EV_READ | BitWrite : io_bit EV_WRITE | BitClosed : io_bit EV_CLOSED.

(** The counts after the three increments, and the conditions that are new. *)
Definition io_delta (d : Z -> Z -> Z * Z -> Z * Z) evs ctx : Z * Z * Z * Z :=
  let '(nr, res) := d evs EV_READ (nread ctx, 0) in
  let '(nw, res) := d evs EV_WRITE (nwrite ctx, res) in
  let '(nc, res) := d evs EV_CLOSED (nclose ctx, res) in
  (nr, nw, nc, res).

Lemma incr_delta evs ctx nr nw nc res : 0 <= nread ctx -> 0 <= nwrite ctx -> 0 <= nclose ctx ->
  io_delta io_incr evs ctx = (nr, nw, nc, res) ->
  io_old nr nw nc = Z.lor (io_old (nread ctx) (nwrite ctx) (nclose ctx)) res /\ Z.land res EV_IO = res.
Proof.
  intros Hr Hw Hc E. destruct ctx as [l r w c]; cbn [nread nwrite nclose] in *.
  unfold io_delta, io_incr in E.
  assert (P : forall n, 0 <= n -> c_true (n + 1) = true) by (intros n Hn; unfold c_true; destruct (Z.eqb_spec (n + 1) 0); [lia|done]).
  assert (Q : forall n, 0 <= n -> (n + 1 =? 1) = negb (c_true n)).
  { intros n Hn. unfold c_true. rewrite negb_involutive. destruct (Z.eqb_spec (n + 1) 1), (Z.eqb_spec n 0); (done || lia). }
  rewrite !Q in E by done.
  destruct (has evs EV_READ), (has evs EV_WRITE), (has evs EV_CLOSED), (c_true r) eqn:Er, (c_true w) eqn:Ew, (c_true c) eqn:Ec;
    injection E as <- <- <- <-; unfold io_old; rewrite ?P, ?Er, ?Ew, ?Ec by done; done.
Qed.

Lemma decr_delta evs ctx nr nw nc res : io_delta io_decr evs ctx = (nr, nw, nc, res) ->
  0 <= nr -> 0 <= nw -> 0 <= nc ->
  io_old nr nw nc = Z.ldiff (io_old (nread ctx) (nwrite ctx) (nclose ctx)) res.
Proof.
  intros E Hr Hw Hc. destruct ctx as [l r w c]; cbn [nread nwrite nclose] in *.
  unfold io_delta, io_decr in E.
  assert (Q : forall n, (n - 1 =? 0) = negb (c_true (n - 1))) by (intros n; unfold c_true; by rewrite negb_involutive).
  assert (P : forall n, 0 <= n - 1 -> c_true n = true) by (intros n Hn; unfold c_true; destruct (Z.eqb_spec n 0); [lia|done]).
  rewrite !Q in E.
  destruct (has evs EV_READ), (has evs EV_WRITE), (has evs EV_CLOSED); injection E as <- <- <- <-; unfold io_old;
    rewrite ?(P r), ?(P w), ?(P c) by done;
    destruct (c_true (r - 1)), (c_true (w - 1)), (c_true (c - 1)), (c_true r), (c_true w), (c_true c); done.
Qed.

Lemma io_old_has nr nw nc : has (io_old nr nw nc) EV_READ = c_true nr /\
  has (io_old nr nw nc) EV_WRITE = c_true nw /\ has (io_old nr nw nc) EV_CLOSED = c_true nc.
Proof. unfold io_old. by destruct (c_true nr), (c_true nw), (c_true nc). Qed.

Lemma slot_insert st fd ctx x : slot_interest (set_io_slot st fd ctx) x =
  if x =? fd then io_old (nread ctx) (nwrite ctx) (nclose ctx) else slot_interest st x.
Proof.
  unfold slot_interest, set_io_slot; cbn. destruct (Z.eqb_spec x fd) as [->|Hne].
  - by rewrite lookup_insert_eq.
  - by rewrite lookup_insert_ne by done.
Qed.

Lemma count_true st bit l : c_true (count_of st bit l) = true <-> exists e, e ∈ l /\ has (ev_events (get st e)) bit = true.
Proof.
  induction l as [|y l IH].
  - split; [done | intros (e & He & _); set_solver].
  - rewrite count_cons. pose proof (count_nonneg st bit l). split.
    + intros Hc. destruct (has (ev_events (get st y)) bit) eqn:Hy; [exists y; set_solver|].
      cbn [c_int] in Hc. rewrite Z.add_0_r in Hc. apply IH in Hc as (e & ? & ?). exists e. set_solver.
    + intros (e & [->|He]%elem_of_cons & Hb).
      * rewrite Hb; cbn [c_int]. unfold c_true. destruct (Z.eqb_spec (count_of st bit l + 1) 0); [lia|done].
      * assert (Hp : c_true (count_of st bit l) = true) by (apply IH; eauto). unfold c_true in *.
        destruct (has (ev_events (get st y)) bit); cbn [c_int];
          destruct (Z.eqb_spec (count_of st bit l) 0); try done;
          (destruct (Z.eqb_spec (count_of st bit l + 1) 0) || destruct (Z.eqb_spec (count_of st bit l + 0) 0)); try done; lia.
Qed.

(** When the maps are right, the backend watches what the events ask for. *)
Lemma watched_iff st ins : maps_ok st ins -> watches st -> forall fd bit, 0 <= fd -> io_bit bit ->
  has (interest (evbase (base st)) fd) bit = true <->
  exists e, ins e = true /\ is_io st e = true /\ ev_fd (get st e) = fd /\ has (ev_events (get st e)) bit = true.
Proof.
  intros M Wt fd bit Hfd Hb. rewrite (wa_interest _ Wt). unfold slot_interest.
  destruct (io_entries (base st) !! fd) as [ctx|] eqn:E1.
  - destruct (mo_io _ _ M fd ctx E1) as [_ [_ Hm] Hr Hw Hc].
    destruct (io_old_has (nread ctx) (nwrite ctx) (nclose ctx)) as (R1 & R2 & R3).
    assert (Hcount : has (io_old (nread ctx) (nwrite ctx) (nclose ctx)) bit = c_true (count_of st bit (io_events ctx))).
    { destruct Hb; congruence. }
    rewrite Hcount, count_true. split.
    + intros (e & He & Hbit). apply Hm in He as (? & ? & ?). by exists e.
    + intros (e & ? & ? & ? & ?). exists e. split; [by apply Hm | done].
  - split; [by destruct Hb|]. intros (e & Hi & Ho & <- & Hbit).
    destruct (mo_io_total _ _ M e Hi Ho Hfd) as [ctx Hctx]. congruence.
Qed.

Lemma watches_set st fd ctx bk : watches st ->
  0 <= nread ctx /\ 0 <= nwrite ctx /\ 0 <= nclose ctx ->
  (forall x, interest bk x = if x =? fd then io_old (nread ctx) (nwrite ctx) (nclose ctx)
                             else interest (evbase (base st)) x) ->
  watches (set_io_slot (set_evbase st bk) fd ctx).
Proof.
  intros Wt Hn Hb. split.
  - intros x. rewrite slot_insert. change (evbase _) with bk. rewrite Hb.
    destruct (x =? fd); [done|]. apply Wt.
  - intros x c. cbn. destruct (decide (x = fd)) as [->|Hx].
    + by rewrite lookup_insert_eq; intros [= <-].
    + rewrite lookup_insert_ne by done. apply (wa_nonneg _ Wt).
Qed.
Lemma watches_same st fd ctx : watches st -> 0 <= nread ctx /\ 0 <= nwrite ctx /\ 0 <= nclose ctx ->
  io_old (nread ctx) (nwrite ctx) (nclose ctx) = slot_interest st fd -> watches (set_io_slot st fd ctx).
Proof.
  intros Wt Hn Hc. apply (watches_set st fd ctx (evbase (base st))); [done | done|].
  intros x. destruct (Z.eqb_spec x fd) as [->|]; [|done]. by rewrite Hc, (wa_interest _ Wt).
Qed.

Lemma slot_get st fd ctx : get_io_slot_and_ctor st fd = Some ctx ->
  slot_interest st fd = io_old (nread ctx) (nwrite ctx) (nclose ctx).
Proof.
  unfold get_io_slot_and_ctor, slot_interest. destruct (io_entries (base st) !! fd); [by intros [= ->]|].
  case_if; [by intros [= <-] | done].
Qed.

Lemma io_add_watches st fd e r st' : watches st ->
  evmap_io_add_ st fd e = Some (r, st') -> watches st'.
Proof.
  intros Wt R. unfold evmap_io_add_ in R. bind_in R u E1. case_if_in R; [by simplify_eq|].
  bind_in R p E2. destruct p as [r0 n0]. case_if_in R; [by simplify_eq|]. cbv zeta in R.
  set (st1 := upd_base st _) in R.
  assert (Wt1 : watches st1) by (split; apply Wt).
  destruct (get_io_slot_and_ctor st1 fd) as [ctx|] eqn:Eslot; [|by simplify_eq].
  pose proof (slot_get _ _ _ Eslot) as Hslot.
  set (st2 := set_io_slot st1 fd ctx) in R.
  assert (Hctx : 0 <= nread ctx /\ 0 <= nwrite ctx /\ 0 <= nclose ctx).
  { unfold get_io_slot_and_ctor in Eslot. destruct (io_entries (base st1) !! fd) eqn:El.
    - simplify_eq. by apply (wa_nonneg _ Wt fd).
    - case_if_in Eslot; [|done]. by simplify_eq. }
  assert (Wt2 : watches st2) by (by apply watches_same).
  destruct Hctx as (Hr0 & Hw0 & Hc0).
  set (evs := ev_events (get st2 e)) in R. fold evs in R.
  destruct (io_incr evs EV_READ (nread ctx, 0)) as [nr res1] eqn:D1.
  destruct (io_incr evs EV_WRITE (nwrite ctx, res1)) as [nw res2] eqn:D2.
  destruct (io_incr evs EV_CLOSED (nclose ctx, res2)) as [nc res] eqn:D3.
  assert (D : io_delta io_incr evs ctx = (nr, nw, nc, res)) by (unfold io_delta; by rewrite D1, D2, D3).
  destruct (incr_delta _ _ _ _ _ _ Hr0 Hw0 Hc0 D) as [Hold Hres].
  assert (Hn : 0 <= nr /\ 0 <= nw /\ 0 <= nc).
  { pose proof (io_incr_fst evs EV_READ (nread ctx) 0). pose proof (io_incr_fst evs EV_WRITE (nwrite ctx) res1).
    pose proof (io_incr_fst evs EV_CLOSED (nclose ctx) res2). rewrite D1, D2, D3 in *. cbn [fst] in *.
    unfold c_int in *. split_and!; repeat case_match; lia. }
  case_if_in R; [by simplify_eq|]. case_if_in R; [by simplify_eq|]. case_if_in R.
  - destruct (evsel_add _ _ _ _) as [bk|] eqn:Eadd; [|by simplify_eq].
    injection R as <- <-. apply watches_set; [done | done |]. cbn [nread nwrite nclose]. intros x.
    assert (Hcur : interest (evbase (base st2)) fd = io_old (nread ctx) (nwrite ctx) (nclose ctx)).
    { rewrite (wa_interest _ Wt2). unfold st2. by rewrite slot_insert, Z.eqb_refl. }
    rewrite (add_interest _ _ _ _ _ Eadd Hcur x). destruct (x =? fd); [|done]. rewrite Hold. f_equal.
    rewrite Z.land_lor_distr_l, <- Z.land_assoc. change (Z.land EV_ET EV_IO) with 0. by rewrite Z.land_0_r, Z.lor_0_l.
  - injection R as <- <-. apply watches_same; [done | done |]. cbn [nread nwrite nclose].
    rewrite Hold. replace res with 0. 2: { unfold c_true in *. by destruct (Z.eqb_spec res 0). }
    rewrite Z.lor_0_r. unfold st2. by rewrite slot_insert, Z.eqb_refl.
Qed.

Lemma io_del_watches st e r st' : watches st ->
  evmap_io_del_ st (ev_fd (get st e)) e = Some (r, st') -> r <> -1 -> watches st'.
Proof.
  intros Wt R Hr. unfold evmap_io_del_ in R. case_if_in R; [by simplify_eq|].
  bind_in R u E1. case_if_in R; [by simplify_eq|]. bind_in R ctx E2. cbv zeta in R.
  set (evs := ev_events (get st e)) in R. set (fd := ev_fd (get st e)) in *.
  destruct (io_decr evs EV_READ (nread ctx, 0)) as [nr res1] eqn:D1.
  destruct (io_decr evs EV_WRITE (nwrite ctx, res1)) as [nw res2] eqn:D2.
  destruct (io_decr evs EV_CLOSED (nclose ctx, res2)) as [nc res] eqn:D3.
  assert (D : io_delta io_decr evs ctx = (nr, nw, nc, res)) by (unfold io_delta; by rewrite D1, D2, D3).
  bind_in R v E3. unfold evutil_assert in E3. case_if_in E3; [|done]. clear E3.
  assert (Hn : 0 <= nr /\ 0 <= nw /\ 0 <= nc) by lia.
  assert (Hold : io_old nr nw nc = Z.ldiff (io_old (nread ctx) (nwrite ctx) (nclose ctx)) res).
  { apply (decr_delta _ _ _ _ _ _ D); lia. }
  assert (Hslot : slot_interest st fd = io_old (nread ctx) (nwrite ctx) (nclose ctx)).
  { unfold slot_interest. by rewrite E2. }
  case_if_in R.
  - destruct (evsel_del _ _ _ _) as [bk|] eqn:Edel; [|by simplify_eq].
    injection R as <- <-. apply watches_set; [done | done |]. cbn [nread nwrite nclose]. intros x.
    rewrite (del_interest _ _ _ _ _ Edel) by (by rewrite (wa_interest _ Wt), Hslot). by rewrite Hold.
  - injection R as <- <-. apply watches_same; [done | done |]. cbn [nread nwrite nclose].
    rewrite Hold, Hslot. replace res with 0. 2: { unfold c_true in *. by destruct (Z.eqb_spec res 0). }
    by rewrite Z.ldiff_0_r.
Qed.

(** ** Signals do not change it. *)
Lemma sig_add_watches st sig e r st' : watches st -> evmap_signal_add_ st sig e = Some (r, st') -> watches st'.
Proof.
  intros Wt R. unfold evmap_signal_add_ in R. bind_in R p E1. destruct p as [r0 n0].
  case_if_in R; [by simplify_eq|]. cbv zeta in R. bind_in R u E2.
  case_if_in R; [simplify_eq; split; apply Wt|]. destruct (default [] _).
  - destruct (evsigsel_add _ _ _ _) as [bk|] eqn:Ea; simplify_eq; [|split; apply Wt].
    split; [|apply Wt]. intros x. cbn [base evbase upd_base set_evbase]. rewrite (sig_add_interest _ _ _ _ _ Ea). apply Wt.
  - simplify_eq. split; apply Wt.
Qed.
Lemma sig_del_watches st sig e r st' : watches st -> evmap_signal_del_ st sig e = Some (r, st') -> watches st'.
Proof.
  intros Wt R. unfold evmap_signal_del_ in R. case_if_in R; [by simplify_eq|].
  bind_in R ctx E1. cbv zeta in R. destruct (tailq_remove e ctx).
  - destruct (evsigsel_del _ _ _ _) as [bk|] eqn:Ea; simplify_eq; [|split; apply Wt].
    split; [|apply Wt]. intros x. cbn [base evbase upd_base set_evbase]. rewrite (sig_del_interest _ _ _ _ _ Ea). apply Wt.
  - simplify_eq. split; apply Wt.
Qed.

(** ** The operations around the maps. *)

(** [st'] has the maps and the backend of [st]. *)
Definition same_watch st st' : Prop :=
  evbase (base st') = evbase (base st) /\ io_entries (base st') = io_entries (base st).
#[local] Instance same_watch_preorder : PreOrder same_watch.
Proof. split; [done|]. intros a b c [? ?] [? ?]. split; congruence. Qed.
Lemma watches_frame st st' : same_watch st st' -> watches st -> watches st'.
Proof. intros [He Hi] [W1 W2]. split; unfold slot_interest; by rewrite ?He, Hi. Qed.

Lemma watch_timeouts st st' : timeouts_only (base st) (base st') -> same_watch st st'.
Proof. intros (_ & tw & tl & c & m & Hb). unfold same_watch. by rewrite Hb. Qed.
Lemma drop_timeout_watch st e st' :
  (if flag st e EVLIST_TIMEOUT then event_queue_remove_timeout st e else Some st) = Some st' -> same_watch st st'.
Proof.
  intros R. case_if_in R; [|by inv_opt]. apply remove_timeout_run in R as (_ & _ & _ & T). by apply watch_timeouts.
Qed.
Lemma remove_active_watch st e st' : event_queue_remove_active st e = Some st' -> same_watch st st'.
Proof. intros (_ & _ & Hb)%remove_active_run. unfold same_watch. by rewrite Hb. Qed.
Lemma remove_later_watch st e st' : event_queue_remove_active_later st e = Some st' -> same_watch st st'.
Proof. intros (_ & _ & Hb)%remove_later_run. unfold same_watch. by rewrite Hb. Qed.
Lemma abort_watch st e : same_watch st (abort_signal_loop st e).
Proof. unfold abort_signal_loop. by case_if. Qed.
Lemma gettime_watch st : same_watch st (gettime st).2.
Proof. unfold gettime. case_if; [done|]. cbv zeta. by case_if. Qed.

Lemma add_timeout_watch st e tv abs c st' : event_add_timeout st e tv abs = Some (c, st') -> same_watch st st'.
Proof.
  unfold event_add_timeout. cbv zeta. set (st1 := if _ && _ then _ else st). intros R.
  assert (S1 : same_watch st st1) by (subst st1; by case_if).
  bind_in R st2 E2. bind_in R st3 E3. pose proof (gettime_watch st3) as S4.
  destruct (gettime st3) as [now st4]. cbn [snd] in S4. bind_in R st5 E5. injection R as _ <-.
  apply insert_timeout_run in E5 as (_ & _ & _ & T5). apply watch_timeouts in T5.
  transitivity st1; [done|]. transitivity st2; [by eapply drop_timeout_watch|].
  transitivity st3.
  { case_if_in E3; [|by inv_opt]. apply remove_active_watch in E3.
    transitivity (if has (ev_events (get st2 e)) EV_SIGNAL then abort_signal_loop st2 e else st2); [|done].
    case_if; [apply abort_watch | done]. }
  transitivity st4; [done | exact T5].
Qed.

Lemma register_watches st e r st' : watches st ->
  event_add_register st e = Some (r, st') -> watches st'.
Proof.
  intros Wt R. unfold event_add_register in R. case_if_in R; [|by inv_opt].
  bind_in R p E1. destruct p as [res st1]. bind_in R st2 E2. inv_opt.
  assert (W1 : watches st1).
  { case_if_in E1; [by eapply io_add_watches|].
    case_if_in E1; [by eapply sig_add_watches | by inv_opt]. }
  case_if_in E2; [|by inv_opt]. apply insert_inserted_run in E2 as (_ & _ & Hb).
  eapply watches_frame; [|exact W1]. unfold same_watch; by rewrite Hb.
Qed.

Lemma add_watches fuel st e tv abs r st' : watches st ->
  event_add_nolock_ fuel st e tv abs = Some (r, st') -> watches st'.
Proof.
  revert st e tv abs r st'. induction fuel as [|fuel IH]; intros st e tv abs r st' Wt R; [done|].
  cbn [event_add_nolock_] in R. bind_in R u Er1. case_if_in R; [by inv_opt|].
  destruct (match tv with Some _ => _ | None => _ end) as [rr h]. case_if_in R; [by inv_opt|].
  cbv zeta in R. bind_in R p Er2. destruct p as [res st2].
  assert (W2 : watches st2) by (eapply register_watches; [|exact Er2]; split; apply Wt).
  destruct tv as [tv|]; [|by inv_opt]. case_if_in R; [by inv_opt|].
  bind_in R q Er3. destruct q as [c st3].
  assert (W3 : watches st3) by (eapply watches_frame; [by eapply add_timeout_watch | done]).
  case_if_in R; [|by inv_opt]. bind_in R ctl Er4. case_decide; [|by inv_opt].
  bind_in R p5 Er5. destruct p5 as [r5 st5]. inv_opt. by eapply IH.
Qed.

Lemma drop_queue_watch st e st' :
  (if flag st e EVLIST_ACTIVE then event_queue_remove_active st e
   else if flag st e EVLIST_ACTIVE_LATER then event_queue_remove_active_later st e
   else Some st) = Some st' -> same_watch st st'.
Proof.
  intros R. case_if_in R; [by apply remove_active_watch in R|].
  case_if_in R; [by apply remove_later_watch in R | by inv_opt].
Qed.

Lemma del_watches st e b r st' : watches st -> event_del_nolock_ st e b = Some (r, st') -> r <> -1 -> watches st'.
Proof.
  intros Wt R Hr. unfold event_del_nolock_ in R. case_if_in R; [by inv_opt|]. case_if_in R; [by inv_opt|].
  bind_in R u Er1. cbv zeta in R. set (st1 := if has _ EV_SIGNAL then _ else st) in R.
  assert (S1 : same_watch st st1) by (subst st1; case_if; [apply abort_watch | done]).
  bind_in R st2 Er2. bind_in R st3 Er3.
  assert (W3 : watches st3).
  { eapply watches_frame; [|exact Wt]. etrans; [exact S1|].
    etrans; [by eapply drop_timeout_watch | by eapply drop_queue_watch]. }
  case_if_in R; [|by inv_opt]. bind_in R st4 Er4. bind_in R p Er5. destruct p as [res st5]. injection R as Hres <-.
  assert (Hres1 : res <> -1) by (destruct (Z.eqb_spec res 1); lia).
  apply remove_inserted_run in Er4 as (_ & _ & Hb).
  assert (W4 : watches st4) by (eapply watches_frame; [|exact W3]; unfold same_watch; by rewrite Hb).
  case_if_in Er5; [by eapply io_del_watches | by eapply sig_del_watches].
Qed.
End Watch.
