(* ===== verification/EventBaseNew.v ===== *)
(** * Configurations and the creation of a base (event.c)

    [event_config] and its setters, the choice of a backend among those the
    library was built with, and [event_base_new_with_config].  The table
    [eventops], whose entries start a backend, and the process's environment
    are parameters.  Without threading functions there is no lock to
    allocate. *)
From Stdlib Require Import Strings.String Strings.Ascii.
From S2P Require Import Prelude Timeval MinHeap Event EventQueue EvMap EventCore EventLoop EventInv EventPrims EvMapInv EventOps EventDel EventLoopInv EventTimers EventDeadlines EventMoves EventAddTotal EventApi.

Definition EVENT_BASE_FLAG_NOLOCK : Z := 0x01.
Definition EVENT_BASE_FLAG_IGNORE_ENV : Z := 0x02.
Definition EVENT_BASE_FLAG_NO_CACHE_TIME : Z := 0x08.
Definition EVENT_BASE_FLAG_PRECISE_TIMER : Z := 0x20.

(** struct event_config; an entry of [entries] is the name it avoids. *)
Record event_config := EventConfig {
  cfg_entries : list string;
  cfg_n_cpus_hint : Z;
  cfg_max_dispatch_interval : timeval;
  cfg_max_dispatch_callbacks : Z;
  cfg_limit_callbacks_after_prio : Z;
  cfg_require_features : Z;
  cfg_flags : Z
}.

(** An entry of [eventops]: its name, its features and its [init], which
    returns the backend's state, or [None] for a null pointer, and may use
    the base. *)
Record eventop (B : Type) := EventopEntry {
  evsel_name : string;
  evsel_features : Z;
  evsel_init : state B -> option B * state B
}.
Arguments evsel_name {_}. Arguments evsel_features {_}. Arguments evsel_init {_}.

(** [EVUTIL_TOUPPER_]: the table is the identity off the lower-case letters. *)
Definition ascii_toupper (c : ascii) : ascii :=
  let n := nat_of_ascii c in
  if (97 <=? n)%nat && (n <=? 122)%nat then ascii_of_nat (n - 32) else c.
Fixpoint upper (s : string) : string :=
  match s with
  | EmptyString => EmptyString
  | String c s => String (ascii_toupper c) (upper s)
  end.

Section Config.
Context `{Platform}.
Implicit Types (cfg : event_config).

Definition sizeof_event_config : Z := 64.
Definition sizeof_event_config_entry : Z := 24.

Definition event_config_new : option event_config :=
  if mm_ok sizeof_event_config then
    Some (EventConfig [] 0 (Timeval (-1) 0) INT_MAX 1 0 0)
  else None.

Definition event_config_set_flag cfg (flag : Z) : Z * event_config :=
  (0, {| cfg with cfg_flags := Z.lor (cfg_flags cfg) flag |}).

Definition event_config_avoid_method cfg (method : string) : Z * event_config :=
  if mm_ok sizeof_event_config_entry then
    if mm_ok (Z.of_nat (String.length method) + 1) then
      (0, {| cfg with cfg_entries := cfg_entries cfg ++ [method] |})
    else (-1, cfg)
  else (-1, cfg).

Definition event_config_require_features cfg (features : Z) : Z * event_config :=
  (0, {| cfg with cfg_require_features := features |}).

Definition event_config_set_num_cpus_hint cfg (cpus : Z) : Z * event_config :=
  (0, {| cfg with cfg_n_cpus_hint := cpus |}).

Definition event_config_set_max_dispatch_interval cfg (max_interval : option timeval)
    (max_callbacks min_priority : Z) : Z * event_config :=
  let cfg := match max_interval with
             | Some t => {| cfg with cfg_max_dispatch_interval := t |}
             | None => {| cfg with cfg_max_dispatch_interval :=
                            {| (cfg_max_dispatch_interval cfg) with tv_sec := -1 |} |}
             end in
  (0, {| cfg with cfg_max_dispatch_callbacks := if 0 <=? max_callbacks then max_callbacks else INT_MAX;
                  cfg_limit_callbacks_after_prio := if min_priority <? 0 then 0 else min_priority |}).

Fixpoint is_avoided (entries : list string) (method : string) : bool :=
  match entries with
  | [] => false
  | e :: entries => if String.eqb e method then true else is_avoided entries method
  end.
Definition event_config_is_avoided_method cfg (method : string) : bool :=
  is_avoided (cfg_entries cfg) method.

(** The buffer holds 63 characters and the terminator; the first eight are
    upper case already. *)
Definition event_is_method_disabled (getenv : string -> bool) (name : string) : bool :=
  let environment := substring 0 63 ("EVENT_NO" ++ name) in
  getenv (substring 0 8 environment ++ upper (substring 8 55 environment))%string.
End Config.

Section New.
Context {B : Type} `{Eventop B} `{Platform}.
Context (eventops : list (eventop B)) (getenv : string -> bool).
Implicit Types (st : state B) (cfg : option event_config).

Definition sizeof_event_base : Z := 784.

(** Whether the loop over [eventops] passes an entry over. *)
Definition method_skipped cfg (check_env : bool) (op : eventop B) : bool :=
  match cfg with
  | Some c => event_config_is_avoided_method c (evsel_name op) ||
              negb (Z.land (evsel_features op) (cfg_require_features c) =? cfg_require_features c)
  | None => false
  end || (check_env && event_is_method_disabled getenv (evsel_name op)).

(** The loop: the first entry that is not skipped and that starts. *)
Fixpoint select_method (ops : list (eventop B)) cfg (check_env : bool) st
  : option (eventop B) * state B :=
  match ops with
  | [] => (None, st)
  | op :: ops =>
      if method_skipped cfg check_env op then select_method ops cfg check_env st
      else
        match evsel_init op st with
        | (Some b, st) => (Some op, set_evbase st b)
        | (None, st) => select_method ops cfg check_env st
        end
  end.

(** What [mm_calloc] returns, with the constructors called before a backend
    starts; [nil_base] is the null [evbase]. *)
Definition zero_base (nil_base : B) : event_base B := {|
  evbase := nil_base;
  virtual_event_count := 0; virtual_event_count_max := 0;
  event_count := 0; event_count_max := 0; event_count_active := 0; event_count_active_max := 0;
  event_gotterm := false; event_break := false; event_continue := false;
  event_running_priority := 0; running_loop := false; n_deferreds_queued := 0;
  activequeues := []; active_later_queue := [];
  common_timeout_queues := []; n_common_timeouts_allocated := 0;
  io_entries := ∅; io_nentries := 0; sigmap_entries := ∅; sigmap_nentries := 0;
  timeheap := min_heap_ctor_;
  tv_cache := evutil_timerclear; tv_clock_diff := evutil_timerclear; last_updated_clock_diff := 0;
  no_cache_time := false; max_dispatch_time := evutil_timerclear; max_dispatch_callbacks := 0;
  limit_callbacks_after_prio := 0; current_event := None; closure_ncalls := 0; once_events := [] |}.

(** The flags of the base, [EVENT_BASE_FLAG_PRECISE_TIMER] set whenever the
    environment was consulted. *)
Definition base_flags cfg : Z :=
  let flags := match cfg with Some c => cfg_flags c | None => 0 end in
  let should_check_environment := negb (has flags EVENT_BASE_FLAG_IGNORE_ENV) in
  let precise_time := has flags EVENT_BASE_FLAG_PRECISE_TIMER in
  if should_check_environment && negb precise_time then Z.lor flags EVENT_BASE_FLAG_PRECISE_TIMER
  else flags.

(** The limits of one dispatch: time, callbacks, priority. *)
Definition dispatch_limits cfg : timeval * Z * Z :=
  let '(time, prio) := match cfg with
                       | Some c => (cfg_max_dispatch_interval c, cfg_limit_callbacks_after_prio c)
                       | None => (Timeval (-1) 0, 1)
                       end in
  let callbacks := match cfg with
                   | Some c => if 0 <=? cfg_max_dispatch_callbacks c then cfg_max_dispatch_callbacks c
                               else INT_MAX
                   | None => INT_MAX
                   end in
  (time, callbacks,
   if (callbacks =? INT_MAX) && (tv_sec time =? -1) then INT_MAX else prio).

(** The new base in the store of events, with the chosen method; [st] gives
    the store and the clocks. *)
Definition event_base_new_with_config st (nil_base : B) cfg : option (eventop B * state B) :=
  if negb (mm_ok sizeof_event_base) then None
  else
    let flags := base_flags cfg in
    let check_env := negb (has flags EVENT_BASE_FLAG_IGNORE_ENV) in
    let st := {| st with base :=
      {| (zero_base nil_base) with no_cache_time := has flags EVENT_BASE_FLAG_NO_CACHE_TIME |} |} in
    let '(_, st) := gettime st in
    let '(time, callbacks, prio) := dispatch_limits cfg in
    let st := upd_base st (fun b => {| b with max_dispatch_time := time;
                max_dispatch_callbacks := callbacks; limit_callbacks_after_prio := prio |}) in
    match select_method eventops cfg check_env st with
    | (None, _) => None
    | (Some op, st) =>
        let '(r, st) := event_base_priority_init st 1 in
        if r <? 0 then None else Some (op, st)
    end.

Definition event_base_new st (nil_base : B) : option (eventop B * state B) :=
  cfg ← event_config_new;
  event_base_new_with_config st nil_base (Some cfg).

(** ** The new base is live. *)
Definition blank st : Prop := forall e, get st e = no_event.

Lemma zero_wf st nil_base b : blank st -> same_base b (zero_base nil_base) -> base_wf {| st with base := b |}.
Proof.
  intros Bl (c1 & c2 & c3 & c4 & c5 & c6 & c7 & c8 & c9 & c10).
  assert (G : forall e, get {| st with base := b |} e = no_event) by apply Bl.
  assert (F : forall e m, flag {| st with base := b |} e m = false) by (intros e m; unfold flag; by rewrite G).
  split.
  - split; intros e; [by rewrite G | by rewrite F].
  - split; cbn [base]; rewrite ?c3, ?c4.
    + intros i. unfold nactivequeues; cbn [base]; rewrite c3; cbn; lia.
    + intros e; by rewrite F.
    + intros e; by rewrite G.
    + split; [constructor|]. intros e. rewrite F. set_solver.
    + intros e; by rewrite F.
  - split; cbn [base]; rewrite ?c5, ?c6.
    + split; [split_and!; cbn; (lia || done) | intros i Hi; cbn in Hi; lia | intros i Hi; cbn in Hi; lia].
    + intros e. rewrite F. split; [|by intros [? _]]. intros (i & Hi & _). cbn in Hi. lia.
    + by intros i ctl ?.
    + intros e; by rewrite F.
    + by intros i ctl ?.
  - split; cbn [base]; rewrite ?c7, ?c8, ?c9, ?c10; try (by left).
    + intros fd ctx. cbn. by rewrite lookup_empty.
    + intros e. unfold inserted. by rewrite F.
    + intros fd ctx. cbn. by rewrite lookup_empty.
    + intros e. unfold inserted. by rewrite F.
  - split; cbn [base]; rewrite ?c1, ?c2.
    + apply total_zero. intros e. by rewrite G.
    + apply total_zero. intros e. by rewrite G.
Qed.

(** A backend's [init] uses the base through the API only; the base has no
    queue yet, and no event gets a priority. *)
Definition zero_priorities st : Prop := forall e, ev_pri (get st e) <= 0.
Definition init_ok (op : eventop B) : Prop := forall st b st', evsel_init op st = (b, st') ->
  rtc api_step st st' /\ (zero_priorities st -> zero_priorities st').

Lemma select_live ops cfg ce st r st' : Forall init_ok ops ->
  select_method ops cfg ce st = (r, st') -> push_safe st' -> live at_rest st -> zero_priorities st ->
  live at_rest st' /\ zero_priorities st'.
Proof.
  intros F. revert st. induction F as [|op ops Hop F IH]; intros st R S L Z; cbn in R; [by simplify_eq|].
  case_if_in R; [by eapply IH|].
  assert (Hst : forall st1 st2, select_method ops cfg ce st1 = (r, st2) -> steady st1 st2).
  { clear -F. induction F as [|op ops Hop F IH]; intros st1 st2 R; cbn in R; [by simplify_eq|].
    case_if_in R; [by eapply IH|]. destruct (evsel_init op st1) as [[b|] st3] eqn:E1; destruct (Hop _ _ _ E1) as [A _].
    - simplify_eq. apply steady_upd_base; [by apply api_steps_steady | done].
    - etrans; [by apply api_steps_steady | by eapply IH]. }
  destruct (evsel_init op st) as [[b|] st1] eqn:E1; destruct (Hop _ _ _ E1) as [A HZ].
  - simplify_eq. pose proof (api_steps_live at_rest _ _ eq_refl A S L) as L1. split; [|by apply HZ].
    eapply (api_step_live at_rest st1); [done | apply step_backend | exact S | done].
  - pose proof (push_safe_steady _ _ (Hst _ _ R) S) as S1. apply (IH st1 R S); [|by apply HZ].
    by apply (api_steps_live at_rest _ _ eq_refl A S1).
Qed.

(** Which entry is chosen: all before it are skipped or do not start. *)
Lemma select_first ops cfg ce st op st' : select_method ops cfg ce st = (Some op, st') ->
  exists pre post st0 b st1, ops = pre ++ op :: post /\ method_skipped cfg ce op = false /\
    evsel_init op st0 = (Some b, st1) /\ st' = set_evbase st1 b /\
    Forall (fun o => method_skipped cfg ce o = true \/ exists s, fst (evsel_init o s) = None) pre.
Proof.
  revert st. induction ops as [|o ops IH]; intros st R; cbn in R; [done|].
  case_if_in R.
  - destruct (IH _ R) as (pre & post & st0 & b & st1 & -> & Hs & Hi & He & HF).
    exists (o :: pre), post, st0, b, st1. split_and!; [done..|]. constructor; [by left | done].
  - destruct (evsel_init o st) as [[b|] s1] eqn:E1.
    + simplify_eq. by exists [], ops, st, b, s1.
    + destruct (IH _ R) as (pre & post & st0 & b & st1 & -> & Hs & Hi & He & HF).
      exists (o :: pre), post, st0, b, st1. split_and!; [done..|]. constructor; [|done].
      right. exists st. by rewrite E1.
Qed.

Lemma init_base_live st nil_base f : blank st -> tv_norm (monotonic_now st) ->
  live at_rest (gettime {| st with base := {| (zero_base nil_base) with no_cache_time := f |} |}).2.
Proof.
  intros Bl Hck. set (st1 := {| st with base := _ |}).
  assert (G : forall e, get st1 e = no_event) by apply Bl.
  split.
  - eapply wf_view; [apply gettime_view|]. eapply (zero_wf st nil_base); [done|]. by repeat split.
  - eapply (fit_still _ st1); [|apply gettime_stirs]. split; [by split | done | | done].
    intros x. split; unfold addable, is_io, flag; rewrite ?G; try done; [by intros [|[|]] | by intros ?%not_elem_of_nil].
Qed.
End New.

Section NewTheorem.
Context {B : Type} `{Eventop B} `{Platform}.

Lemma new_base_live eventops getenv (st : state B) nil_base cfg op st' : blank st -> tv_norm (monotonic_now st) ->
  Forall init_ok eventops -> push_safe st' ->
  event_base_new_with_config eventops getenv st nil_base cfg = Some (op, st') -> live at_rest st' /\ nactivequeues st' = 1 /\
  exists s s', select_method getenv eventops cfg (negb (has (base_flags cfg) EVENT_BASE_FLAG_IGNORE_ENV)) s = (Some op, s').
Proof.
  intros Hblank Hck Hinit Hmem Hnew. unfold event_base_new_with_config in Hnew. case_if_in Hnew; [done|].
  pose proof (init_base_live st nil_base (has (base_flags cfg) EVENT_BASE_FLAG_NO_CACHE_TIME) Hblank Hck) as L1.
  cbv zeta in Hnew. set (st0 := {| st with base := _ |}) in *.
  assert (Z1 : zero_priorities (gettime st0).2) by (intros x; rewrite gettime_get; change (get st0 x) with (get st x); by rewrite Hblank).
  destruct (gettime st0) as [now st1]. cbn [snd] in L1, Z1.
  destruct (dispatch_limits cfg) as [[time cbs] prio].
  destruct (select_method _ _ _ _ _) as [[op'|] st2] eqn:E1; [|done].
  destruct (event_base_priority_init st2 1) as [r st3] eqn:E2. case_if_in Hnew; [done|]. simplify_eq.
  pose proof (priority_init_steady st2 1) as Sd. rewrite E2 in Sd. cbn [snd] in Sd.
  edestruct select_live as [L2 Z2]; [exact Hinit | exact E1 | exact (push_safe_steady _ _ Sd Hmem) | | exact Z1 |].
  { destruct L1 as [W1 F1]. split; [apply wf_upd_base; [intros b; by repeat split | done]|].
    eapply fit_still; [exact F1|]. apply stirs_upd_base; [done | intros b; split_and!; auto]. }
  assert (A : api_step st2 st') by (replace st' with (event_base_priority_init st2 1).2 by (by rewrite E2); apply step_priority_init; intros e; specialize (Z2 e); lia).
  split_and!; [by eapply api_step_live | | by eexists _, _].
  unfold event_base_priority_init in E2. case_if_in E2; [by simplify_eq|].
  case_if_in E2; [simplify_eq; lia|]. case_if_in E2; simplify_eq; done.
Qed.

(** A base made by [event_base_new_with_config] is well formed and has
    one queue of active events, and its method is the first of the table that
    the configuration and the environment allow and that starts. *)
Theorem new_base_ok eventops getenv (st : state B) nil_base cfg op st'
  (Hblank : blank st) (Hclock : tv_norm (monotonic_now st)) (Hinit : Forall init_ok eventops) (Hmem : push_safe st')
  (Hnew : event_base_new_with_config eventops getenv st nil_base cfg = Some (op, st')) :
  live at_rest st' /\ nactivequeues st' = 1 /\
  exists pre post, eventops = pre ++ op :: post /\
    (forall c, cfg = Some c -> event_config_is_avoided_method c (evsel_name op) = false /\
       Z.land (evsel_features op) (cfg_require_features c) = cfg_require_features c) /\
    Forall (fun o => method_skipped getenv cfg (negb (has (base_flags cfg) EVENT_BASE_FLAG_IGNORE_ENV)) o = true \/
                     exists s, fst (evsel_init o s) = None) pre.
Proof.
  destruct (new_base_live _ _ _ _ _ _ _ Hblank Hclock Hinit Hmem Hnew) as (W & N & s & s' & E1). split_and!; [done | done|].
  destruct (select_first _ _ _ _ _ _ _ E1) as (pre & post & st0 & b & s1 & -> & Hs & _ & _ & HF).
  exists pre, post. split_and!; [done| |done]. intros c ->. unfold method_skipped in Hs.
  apply orb_false_iff in Hs as [Hs _]. apply orb_false_iff in Hs as [Ha Hf].
  split; [done|]. by apply Z.eqb_eq, negb_false_iff.
Qed.
End NewTheorem.
