(* ===== verification/EventDemo.v ===== *)
(** * A concrete platform and backend

    A backend that keeps the conditions it watches in a map, on a platform
    where memory does not run out; the witnesses of the event theorems run on
    bases built with it.  At the end, on a platform where memory does run out, a
    timeout that is lost. *)
From Stdlib Require Import Strings.String.
From S2P Require Import Prelude Timeval MinHeap Event EventQueue EvMap EventCore EventLoop EventInv EventPrims EvMapInv EventOps EventDel EventLoopInv EventTimers EventDeadlines EventMoves EventAddTotal EventApi EventLoopSafe EvMapWatch EventBaseNew.

(** The conditions watched on each descriptor. *)
Notation table := (gmap Z Z).
Definition watched (b : table) (fd : Z) : Z := default 0 (b !! fd).

#[export] Instance demo_backend : Eventop table := {
  evsel_add b fd old evs := Some (<[fd := Z.lor old (Z.land evs EV_IO)]> b);
  evsel_del b fd old evs := Some (<[fd := Z.ldiff old evs]> b);
  evsigsel_add b sig old evs := Some b;
  evsigsel_del b sig old evs := Some b;
  fdinfo_len := 0;
  sig_fdinfo_len := 0
}.

Lemma demo_max : Z.of_nat 100 + 1 < 2 ^ 31.
Proof. done. Qed.
#[export] Instance demo_platform : Platform := {
  mm_ok _ := true; event_debug_mode_on_ := false; max_events := 100; max_events_int := demo_max
}.

#[export] Program Instance demo_interest : BackendInterest table := { interest := watched }.
Next Obligation.
  intros b fd old evs b' [= <-] _ x. unfold watched. destruct (Z.eqb_spec x fd) as [->|].
  - by rewrite lookup_insert_eq.
  - by rewrite lookup_insert_ne by done.
Qed.
Next Obligation.
  intros b fd old evs b' [= <-] _ x. unfold watched. destruct (Z.eqb_spec x fd) as [->|].
  - by rewrite lookup_insert_eq.
  - by rewrite lookup_insert_ne by done.
Qed.
Next Obligation. by intros b sig old evs b' [= <-] x. Qed.
Next Obligation. by intros b sig old evs b' [= <-] x. Qed.

(** Function 7 leaves the loop, function 8 deletes event 2, any other returns.
    [dispatch] takes six seconds and finds descriptor 4 readable. *)
#[export] Instance demo_environment : Environment table := {
  user_call f c st :=
    if f =? 7 then Some (event_loopexit_cb st)
    else if f =? 8 then r ← event_del st 2%nat; Some r.2
    else Some st;
  evsel_dispatch st tv :=
    st ← evmap_io_active_ {| st with monotonic_now := evutil_timeradd (monotonic_now st) (Timeval 6 0) |} 4 EV_READ;
    Some (0, st)
}.

#[export] Instance demo_api : ApiEnvironment table.
Proof.
  split.
  - intros s f c st Hn S. cbn. case_if; [|case_if].
    + eexists. split; [done|]. apply rtc_once, step_loopexit.
    + destruct (event_del_some s st 2%nat S) as [[r st1] R]. rewrite R. eexists. split; [done|]. by eapply rtc_once, step_del.
    + by exists st.
  - intros st tv S. cbn. set (st1 := {| st with monotonic_now := _ |}).
    assert (A1 : api_step st st1).
    { apply (step_clock st _ (wall_now st)), timeradd_norm; [apply (lv_clock _ _ (proj2 (proj1 S))) | by vm_compute]. }
    destruct (io_active_some at_rest st1 4 EV_READ) as [st2 R].
    { exact (api_steps_sound at_rest _ _ (fun _ => eq_refl) eq_refl S (rtc_once _ _ A1)). }
    rewrite R. eexists _, st2. split; [done|]. eapply rtc_l; [exact A1 | by eapply rtc_once, step_io_active].
Qed.

(** Testing every event of a store. *)
Definition store_all {B} (P : event -> bool) (st : state B) : bool :=
  P no_event && bool_decide (map_Forall (fun _ ev => P ev = true) (events st)).
Lemma store_check {B} P (st : state B) e : store_all P st = true -> P (get st e) = true.
Proof.
  intros [H0 Hb%bool_decide_eq_true]%andb_true_iff. unfold get. rewrite lookup_total_alt.
  destruct (events st !! e) as [ev|] eqn:Ev; [by apply (Hb e ev) | done].
Qed.
Definition usec_norm (ev : event) : bool := (0 <=? tv_usec (ev_timeout ev)) && (tv_usec (ev_timeout ev) <? 1000000).
Lemma usec_norm_ok {B} (st : state B) : store_all usec_norm st = true -> forall x, tv_norm (ev_timeout (get st x)).
Proof. intros Hs x. pose proof (store_check _ _ x Hs) as Hx. unfold usec_norm, tv_norm in *. lia. Qed.

(** ** A base with events. *)
Definition clean : state table := State table ∅ (zero_base ∅) (Timeval 100 0) (Timeval 1000 0).
Definition no_getenv (s : string) : bool := false.
Definition never_starts : eventop table := EventopEntry table "epoll" 7 (fun st => (None, st)).
Definition starts : eventop table := EventopEntry table "poll" 4 (fun st => (Some ∅, st)).
Definition force {A} (d : A) (o : option A) : A := default d o.

(** A fresh base; one with descriptor event 1 (fd 4, read) and timeout event 2
    (five seconds, function 8), and an unused event 3. *)
Definition fresh_base : state table :=
  force clean (snd <$> event_base_new_with_config [never_starts; starts] no_getenv clean ∅ None).
Definition with_event (st : state table) e fd evs cb tv : state table :=
  let '(_, st) := event_assign st e fd evs cb None in
  force st (snd <$> event_add st e tv).
Definition demo1 : state table := with_event fresh_base 1%nat 4 (Z.lor EV_READ EV_PERSIST) 9 None.
Definition demo2 : state table := with_event demo1 2%nat (-1) 0 8 (Some (Timeval 5 0)).
Definition demo3 : state table := (event_assign demo2 3%nat 4 EV_WRITE 7 None).2.

Lemma clean_blank : blank clean.
Proof. done. Qed.
Lemma fresh_new : exists op, event_base_new_with_config [never_starts; starts] no_getenv clean ∅ None = Some (op, fresh_base).
Proof. eexists. vm_compute. reflexivity. Qed.
Lemma backends_ok : Forall init_ok [never_starts; starts].
Proof. repeat constructor; by injection H as <- <-. Qed.
Lemma clean_clock : tv_norm (monotonic_now clean).
Proof. by vm_compute. Qed.
Lemma no_lack (st : state table) : push_safe st.
Proof. by left. Qed.

(** Each is live because the API made it. *)
Lemma fresh_live : live at_rest fresh_base.
Proof.
  destruct fresh_new as [op R].
  by destruct (new_base_live _ _ _ _ _ _ _ clean_blank clean_clock backends_ok (no_lack _) R) as [? _].
Qed.
Definition unusedb (st : state table) (e : nat) : bool :=
  (Z.land (ev_flags (get st e)) (Z.lor (Z.lor EVLIST_TIMEOUT EVLIST_INSERTED) (Z.lor EVLIST_ACTIVE EVLIST_ACTIVE_LATER)) =? 0) &&
  (e <? 100)%nat && negb (existsb (fun x => Nat.eqb x e) (ctl_timeout_event <$> common_timeout_queues (base st))).
Lemma unused_check (st : state table) e : unusedb st e = true -> unused st e.
Proof.
  unfold unusedb. intros [[Hf%Z.eqb_eq He%Nat.ltb_lt]%andb_true_iff Hn%negb_true_iff]%andb_true_iff. split_and!.
  - unfold detached, flag, has, c_true. split_and!; apply negb_false_iff, Z.eqb_eq.
    all: match goal with |- Z.land _ ?p = 0 =>
           change p with (Z.land (Z.lor (Z.lor EVLIST_TIMEOUT EVLIST_INSERTED) (Z.lor EVLIST_ACTIVE EVLIST_ACTIVE_LATER)) p) end.
    all: by rewrite Z.land_assoc, Hf.
  - done.
  - intros Hin%list_elem_of_In. assert (Hx : existsb (fun x => Nat.eqb x e) (ctl_timeout_event <$> common_timeout_queues (base st)) = true)
      by (apply existsb_exists; exists e; by rewrite Nat.eqb_refl). congruence.
Qed.
Lemma assign_callback (st : state table) e fd evs cb arg : ev_callback (get (event_assign st e fd evs cb arg).2 e) = cb.
Proof.
  unfold event_assign. cbv zeta. case_if; [|case_if; [|case_if]];
    cbn [snd fst min_heap_elem_init_ set_min_heap_idx state_HeapStore]; unfold min_heap_elem_init_;
    cbn [set_min_heap_idx state_HeapStore]; by rewrite !get_upd_eq.
Qed.
Lemma with_steps (st : state table) e fd evs cb tv : unusedb st e = true -> event_args fd evs cb -> (forall t, tv = Some t -> tv_arg st t) ->
  rtc api_step st (with_event st e fd evs cb tv).
Proof.
  intros D%unused_check Ha Ht. unfold with_event. destruct (assign_shape st e fd evs cb None) as (Hb & _ & Hf & _).
  pose proof (assign_callback st e fd evs cb None) as Hc.
  pose proof (step_assign st e fd evs cb None D Ha) as S1.
  destruct (event_assign st e fd evs cb None) as [r st1]. cbn [snd] in *.
  destruct (event_add st1 e tv) as [[r2 st2]|] eqn:R2; cbn; [|by apply rtc_once].
  eapply rtc_l; [exact S1|]. eapply rtc_once, step_add; [| | |exact R2].
  - unfold flag. by rewrite Hf.
  - rewrite Hc. apply Ha.
  - intros t Et. unfold tv_arg. rewrite (is_common_ext st st1); [by apply Ht | by rewrite Hb].
Qed.
Ltac arguments := split_and!; vm_compute; intuition discriminate.
Lemma demo1_steps : rtc api_step fresh_base demo1.
Proof. apply with_steps; [by vm_compute | arguments | done]. Qed.
Lemma demo2_steps : rtc api_step fresh_base demo2.
Proof.
  etrans; [apply demo1_steps|]. apply with_steps; [by vm_compute | arguments|].
  intros t [= <-]. by vm_compute.
Qed.
Lemma demo3_steps : rtc api_step fresh_base demo3.
Proof. eapply rtc_r; [apply demo2_steps|]. apply step_assign; [apply unused_check; by vm_compute | arguments]. Qed.
Lemma fresh_leads (st : state table) : rtc api_step fresh_base st -> live at_rest st.
Proof. intros A. by apply (api_steps_live at_rest _ _ eq_refl A (no_lack _)), fresh_live. Qed.
Lemma demo1_wf : base_wf demo1.
Proof. by apply fresh_leads, demo1_steps. Qed.
Lemma demo2_wf : base_wf demo2.
Proof. by apply fresh_leads, demo2_steps. Qed.
Lemma demo3_wf : base_wf demo3.
Proof. by apply fresh_leads, demo3_steps. Qed.
Lemma demo3_sound : sound at_rest demo3.
Proof. split; [by apply fresh_leads, demo3_steps | by vm_compute]. Qed.

(** The base once the five seconds are over. *)
Definition demo_late : state table := {| demo2 with monotonic_now := Timeval 105 1 |}.
Lemma demo_late_wf : base_wf demo_late.
Proof.
  apply fresh_leads. eapply rtc_r; [apply demo2_steps|]. apply (step_clock demo2 _ (wall_now demo2)). by vm_compute.
Qed.

(** The base once descriptor 4 was found readable. *)
Definition demo_active : state table := force clean (event_active demo1 1%nat EV_READ 1).

(** The base with event 3 added too. *)
Definition demo_added : state table := force clean (snd <$> event_add demo3 3%nat None).
Lemma demo_added_run : event_add demo3 3%nat None = Some (0, demo_added).
Proof. vm_compute. reflexivity. Qed.
Lemma fresh_watches : watches fresh_base.
Proof.
  split.
  - intros fd. transitivity 0; [|symmetry]; unfold slot_interest; vm_compute; reflexivity.
  - intros fd ctx. vm_compute. discriminate.
Qed.
Lemma assign_watches (st : state table) e fd evs cb arg : watches st -> watches (event_assign st e fd evs cb arg).2.
Proof.
  intros Wt. eapply watches_frame; [|exact Wt]. pose proof (assign_shape st e fd evs cb arg) as [Hb _].
  unfold same_watch. by rewrite Hb.
Qed.
Lemma with_watches st e fd evs cb tv : watches st -> watches (with_event st e fd evs cb tv).
Proof.
  intros Wt. unfold with_event. pose proof (assign_watches st e fd evs cb None Wt) as W1.
  destruct (event_assign st e fd evs cb None) as [r st1]. cbn [snd] in W1.
  destruct (event_add st1 e tv) as [[r2 st2]|] eqn:R2; [|done]. cbn. unfold event_add in R2.
  case_if_in R2; [by simplify_eq | by eapply add_watches].
Qed.
Lemma demo3_watches : watches demo3.
Proof. apply assign_watches, with_watches, with_watches, fresh_watches. Qed.

Lemma new_base_ok_witness : nactivequeues fresh_base = 1.
Proof.
  destruct fresh_new as [op R].
  exact (proj1 (proj2 (new_base_ok [never_starts; starts] no_getenv clean ∅ None op fresh_base clean_blank clean_clock backends_ok (no_lack _) R))).
Defined.

(** ** Runs. *)

(** Event 4, persistent with a period of two seconds, made active late. *)
Definition demo_persist : state table :=
  let st := with_event fresh_base 4%nat (-1) EV_PERSIST 9 (Some (Timeval 2 0)) in
  upd st 4%nat (fun ev => {| ev with ev_res := EV_TIMEOUT |}).
Lemma persist_deadline_witness : tv_us (persist_run_at demo_persist 4%nat (Timeval 102 500000)) = 104000000.
Proof.
  destruct (persist_deadline demo_persist 4%nat (Timeval 102 500000)) as [R _].
  - split; cbn; lia.
  - vm_compute. split; [discriminate | reflexivity].
  - vm_compute. split; [discriminate | reflexivity].
  - vm_compute. discriminate.
  - revert R. vm_compute. exact (fun R => R).
Defined.
Definition got_duration (p : option timeval * state table) : bool := match p.1 with Some _ => true | None => false end.
Lemma common_timeout_stable_witness : exists r st', event_base_init_common_timeout fresh_base (Timeval 3 250) 9%nat = Some (Some r, st') /\
  plain true r = Timeval 3 250.
Proof.
  destruct (event_base_init_common_timeout fresh_base (Timeval 3 250) 9%nat) as [[[r|] st']|] eqn:R.
  - exists r, st'. split; [reflexivity|].
    refine (proj1 (proj2 (common_timeout_stable fresh_base (Timeval 3 250) 9%nat r st' 9%nat _ R))). split; cbn; lia.
  - exfalso. assert (Hc : option_map got_duration (Some (None : option timeval, st')) = Some true)
      by (rewrite <- R; vm_compute; reflexivity). discriminate Hc.
  - exfalso. assert (Hc : option_map got_duration None = Some true)
      by (rewrite <- R; vm_compute; reflexivity). discriminate Hc.
Defined.
(** A base with the common timeout of three seconds, event 1 on its list. *)
Definition three_seconds : timeval := Timeval 3 (Z.lor 250 COMMON_TIMEOUT_MAGIC).
Definition demo_list : state table :=
  force clean (snd <$> event_base_init_common_timeout fresh_base (Timeval 3 250) 9%nat).
Definition demo_common : state table := with_event demo_list 1%nat (-1) 0 9 (Some three_seconds).
Definition demo_second : state table := (event_assign demo_common 2%nat 4 EV_READ 9 None).2.

Lemma demo_list_run : exists r, event_base_init_common_timeout fresh_base (Timeval 3 250) 9%nat = Some (r, demo_list).
Proof. eexists. vm_compute. reflexivity. Qed.
Lemma demo_common_steps : rtc api_step fresh_base demo_common.
Proof.
  destruct demo_list_run as [r R].
  eapply rtc_l; [apply (step_init_common fresh_base (Timeval 3 250) 9%nat r demo_list); [apply unused_check; by vm_compute | exact R]|].
  apply with_steps; [by vm_compute | arguments|]. intros t [= <-]. unfold tv_arg. vm_compute. repeat split; discriminate.
Qed.
Lemma demo_second_wf : base_wf demo_second.
Proof.
  apply fresh_leads. eapply rtc_r; [apply demo_common_steps|]. apply step_assign; [apply unused_check; by vm_compute | arguments].
Qed.
Definition usec32b (ev : event) : bool := (0 <=? tv_usec (ev_timeout ev)) && (tv_usec (ev_timeout ev) <? 2 ^ 32).
Lemma lists_usec32_check (st : state table) : store_all usec32b st = true -> lists_usec32 st.
Proof. intros Hs x _ _. pose proof (store_check _ _ x Hs) as Hx. unfold usec32b, usec32 in *. lia. Qed.
Definition inner_idleb (st : state table) : bool :=
  forallb (fun ctl => ev_events (get st (ctl_timeout_event ctl)) =? 0) (common_timeout_queues (base st)).
Lemma inner_idle_check st : inner_idleb st = true -> inner_idle st.
Proof.
  intros Hs i ctl Hl. unfold inner_idleb in Hs. rewrite forallb_forall in Hs. apply Z.eqb_eq, Hs.
  apply list_elem_of_In. by eapply list_elem_of_lookup_2.
Qed.
Definition clock_normb (st : state table) : bool :=
  let ok t := (0 <=? tv_usec t) && (tv_usec t <? 1000000) in ok (tv_cache (base st)) && ok (monotonic_now st).
Lemma clock_norm_check st : clock_normb st = true -> clock_norm st.
Proof. unfold clock_normb, clock_norm, tv_norm. lia. Qed.
Lemma tv_sane_check (st : state table) t : is_common_timeout st t = true -> usec32 t -> tv_norm (plain true t) ->
  store_all usec32b st = true -> tv_sane st t.
Proof. intros Hc Hu Hn Hs. unfold tv_sane. rewrite Hc. split_and!; [done | done | by apply lists_usec32_check]. Qed.

Lemma event_add_returns_witness : exists r st', event_add demo_second 2%nat (Some three_seconds) = Some (r, st').
Proof.
  apply (event_add_returns demo_second 2%nat (Some three_seconds) demo_second_wf).
  - left. intros b. reflexivity.
  - vm_compute. reflexivity.
  - apply clock_norm_check. vm_compute. reflexivity.
  - split; [intros _; vm_compute; reflexivity | intros Hx; exfalso; revert Hx; vm_compute; discriminate].
  - apply inner_idle_check. vm_compute. reflexivity.
  - intros t Ht. injection Ht as <-. apply tv_sane_check.
    + vm_compute. reflexivity.
    + vm_compute. split; [discriminate | reflexivity].
    + vm_compute. split; [discriminate | reflexivity].
    + vm_compute. reflexivity.
Defined.

(** * A timeout lost when memory runs out (event.c)

    [event_queue_insert_timeout] ignores the result of [min_heap_push_], and
    [event_add_nolock_] reserves room in the heap only for an event that was
    not waiting already.  An event that waits on a common-timeout list and is
    added again with an ordinary timeout therefore leaves the list, and when
    the heap cannot grow enters nothing, while the call reports success. *)
(** A platform that cannot give the heap an array of 32 pointers. *)
#[local] Instance tight_platform : Platform := {
  mm_ok n := negb (n =? 256); event_debug_mode_on_ := false; max_events := 100; max_events_int := demo_max
}.

Definition add_on (pf : Platform) (st : state table) (e : nat) (tv : timeval) : state table :=
  let '(_, st) := @event_assign table st e (-1) 0 9 None in
  force st (snd <$> @event_add table demo_backend pf st e (Some tv)).

(** The list's own timer and fifteen others fill the sixteen places of the heap;
    event 1 waits on the list. *)
Definition full_heap : state table :=
  let st := force clean (snd <$> @event_base_init_common_timeout table tight_platform fresh_base (Timeval 3 250) 90%nat) in
  let st := add_on tight_platform st 1 three_seconds in
  foldl (fun st e => add_on tight_platform st e (Timeval (Z.of_nat e) 0)) st (seq 11 15).

Definition heap_members (st : state table) : list nat :=
  (fun i => p_get (heap_p (timeheap (base st))) i) <$> seqZ 0 (heap_n (timeheap (base st))).
Definition list_members (st : state table) : list nat := common_timeout_queues (base st) ≫= ctl_events.

(** Out of memory, [event_add] of an event that waited on a common-timeout
    list returns 0 and reports the event pending, though it is neither in the
    heap nor on any list: its timeout will never fire. *)
Theorem add_loses_timeout : exists st',
  flag full_heap 1%nat EVLIST_TIMEOUT = true /\ 1%nat ∈ list_members full_heap /\
  event_add full_heap 1%nat (Some (Timeval 7 0)) = Some (0, st') /\
  (event_pending st' 1%nat EV_TIMEOUT false).1 = EV_TIMEOUT /\
  1%nat ∉ heap_members st' /\ 1%nat ∉ list_members st'.
Proof.
  eexists. split; [vm_compute; reflexivity|]. split; [apply (bool_decide_eq_true_1 _); vm_compute; reflexivity|].
  split; [vm_compute; reflexivity|]. split; [vm_compute; reflexivity|].
  split; apply (bool_decide_eq_true_1 _); vm_compute; reflexivity.
Qed.
