(* ===== verification/EventProps.v ===== *)
(** * What the event core guarantees

    The theorems about the event loop, each with a run of the demonstration
    base of EventDemo.v that satisfies its hypotheses. *)
From S2P Require Import Prelude Timeval MinHeap Event EventQueue EvMap EventCore EventLoop EventInv EventPrims EvMapInv EventOps EventDel EventLoopInv EventTimers EventDeadlines EventMoves EventAddTotal EventApi EventLoopSafe EvMapWatch EventBaseNew EventDemo.

Section Reach.
Context {B : Type} `{Eventop B} `{Platform}.

(** C1: every state the API reaches from a base that
    [event_base_new_with_config] made is live: the flags of the events agree
    with the queues, the heap, the common-timeout lists, the maps and the
    counters ([base_wf]), and every event that waits, is registered or is
    active has a closure, a callback, a priority and deadlines the loop can use
    ([fit]).  A step of [api_step] is one operation with arguments as its
    documentation asks.  Either no allocation fails, or no list of common
    timeouts was made ([Hmem], of the last state, as lists are never removed);
    without it the invariant can break ([add_loses_timeout] in EventDemo.v). *)
Theorem reachable_wf eventops getenv (st0 st1 st : state B) nil_base cfg op
  (Hblank : blank st0) (Hclock : tv_norm (monotonic_now st0)) (Hinit : Forall init_ok eventops)
  (Hnew : event_base_new_with_config eventops getenv st0 nil_base cfg = Some (op, st1))
  (Hsteps : rtc api_step st1 st) (Hmem : push_safe st) : live at_rest st.
Proof.
  apply (api_steps_live at_rest _ _ eq_refl Hsteps Hmem).
  assert (Hmem1 : push_safe st1) by exact (push_safe_steady _ _ (api_steps_steady _ _ Hsteps) Hmem).
  by destruct (new_base_live _ _ _ _ _ _ _ Hblank Hclock Hinit Hmem1 Hnew) as [? _].
Qed.

(** C5: [event_del] on an event of the base returns and leaves the event in no
    queue, heap, list or map; the base stays well formed, every other event
    keeps all its fields but the heap index, and the event itself all but its
    flags and heap index. *)
Theorem event_del_detaches (st : state B) e (Hwf : base_wf st) (Hbase : ev_base (get st e) = true)
  (Hfin : flag st e EVLIST_FINALIZING = false) :
  exists r st', event_del st e = Some (r, st') /\ (r = 0 \/ r = -1) /\ base_wf st' /\ only_flags e st st' /\
    (forall i, 0 <= i < nactivequeues st' -> e ∉ queue_at (activequeues (base st')) i) /\
    e ∉ active_later_queue (base st') /\ ~ in_heap (timeheap (base st')) e /\
    (forall i ctl, common_timeout_queues (base st') !! i = Some ctl -> e ∉ ctl_events ctl) /\
    (forall fd ctx, io_entries (base st') !! fd = Some ctx -> e ∉ io_events ctx) /\
    (forall sig l, sigmap_entries (base st') !! sig = Some l -> e ∉ l).
Proof.
  destruct (del_ok st e EVENT_DEL_AUTOBLOCK Hwf Hbase (or_intror Hfin)) as (r & st' & R & W' & O & _ & D & Hr & _).
  exists r, st'. unfold event_del. rewrite Hbase; cbn [negb]. split_and!; try done; by apply detached_nowhere.
Qed.


(** C3: an expired timeout fires and no other: [timeout_process] returns, has
    made every event of the heap whose deadline has passed active with result
    [EV_TIMEOUT] and no longer waiting, and has left every other event as it
    was, heap index apart; the heap holds those whose deadline is to come. *)
Theorem timeout_process_fires (st : state B) (Hwf : base_wf st) (Hpend : pending_ok st) :
  exists st', timeout_process st = Some st' /\ expired_processed (gettime st).1 st st'.
Proof.
  pose proof (gettime_view st) as V. unfold timeout_process. case_if.
  - exists st. split; [done|].
    assert (Hno : forall x, x ∉ heap_set st).
    { intros x (i & Hi & _)%(proj2 (heap_set_spec st Hwf)). unfold min_heap_empty_, hp in *. lia. }
    assert (Hself : forall x, exists i, get st x = {| (get st x) with ev_min_heap_idx := i |})
      by (intros x; exists (ev_min_heap_idx (get st x)); by destruct (get st x)).
    split; [done | intros x Hx; by apply Hno in Hx | done | intros x].
    split; [intros Hx; by apply Hno in Hx | intros [Hx _]; by apply Hno in Hx].
  - assert (Hev : forall x, get (gettime st).2 x = get st x) by apply gettime_get.
    destruct (gettime st) as [now st1]. cbn [fst snd] in *.
    pose proof (wf_view _ _ V Hwf) as W1. destruct V as [_ (_ & _ & Va & _ & Vc & Vh & _)].
    assert (Hfl : forall x m, flag st1 x m = flag st x m) by (intros x m; unfold flag; by rewrite Hev).
    assert (HS : heap_set st1 = heap_set st) by (unfold heap_set, hp; by rewrite Vh).
    destruct (timeout_loop_ok (S (Z.to_nat (min_heap_size_ (timeheap (base st1))))) now st1 W1) as (st' & R & [W' F' R' H']).
    + intros x. rewrite !Hfl, Hev. unfold nactivequeues in *. rewrite Va. apply Hpend.
    + pose proof (heap_set_size st1 W1). unfold min_heap_size_, hp in *. lia.
    + exists st'. split; [done|]. rewrite HS in *.
      split; [done | intros x; rewrite <- Hev; apply F' | intros x; rewrite <- Hev; apply R' | intros x; rewrite <- Hev; apply H'].
Qed.
End Reach.

Lemma reachable_wf_witness : live at_rest demo3.
Proof.
  destruct fresh_new as [op R].
  apply (reachable_wf [never_starts; starts] no_getenv clean fresh_base demo3 ∅ None op clean_blank clean_clock backends_ok R demo3_steps).
  left. intros b; reflexivity.
Defined.
Lemma event_del_detaches_witness : exists r st', event_del demo2 1%nat = Some (r, st') /\ (r = 0 \/ r = -1).
Proof.
  destruct (event_del_detaches demo2 1%nat demo2_wf) as (r & st' & R & Hr & _); [by vm_compute.. |].
  exists r, st'. split; [exact R | exact Hr].
Defined.
Lemma timeout_process_fires_witness : exists st', timeout_process demo_late = Some st' /\ flag st' 2%nat EVLIST_ACTIVE = true.
Proof.
  destruct (timeout_process_fires demo_late demo_late_wf) as (st' & R & [_ F _ _]).
  - apply pending_okb_ok. by vm_compute.
  - exists st'. split; [exact R|]. apply F.
    + apply (proj2 (heap_set_elem demo_late 2%nat demo_late_wf)). split; vm_compute; reflexivity.
    + vm_compute; reflexivity.
Defined.

(** ** The loop. *)
Section LoopProps.
Context {B : Type} `{ApiEnvironment B}.

(** The results of the loop. *)
Definition loop_result (o : outcome) : Prop := o = CutOff \/ exists r, o = Returned r /\ -1 <= r <= 1.
Lemma returned_result r : -1 <= r <= 1 -> loop_result (Returned r).
Proof. intros Hr. right. by exists r. Qed.
Lemma turn_result fuel flags (st : state B) o st' : event_loop_turn fuel flags st = Some (LoopExit o, st') -> loop_result o.
Proof.
  unfold event_loop_turn. cbv zeta. intros R. case_if_in R; [injection R as <- _; by apply returned_result|].
  bind_in R p Q1. destruct p as [tv st1]. case_if_in R; [injection R as <- _; by apply returned_result|].
  bind_in R st2 Q2. bind_in R p Q3. destruct p as [r st3]. case_if_in R; [injection R as <- _; by apply returned_result|].
  bind_in R st4 Q4. case_if_in R; [|case_if_in R; [injection R as <- _; by apply returned_result | done]].
  bind_in R p Q5. destruct p as [[n|] st5]; [|injection R as <- _; by left].
  case_if_in R; [injection R as <- _; by apply returned_result | done].
Qed.
Lemma base_loop_result turns fuel flags (st : state B) o st' : event_base_loop turns fuel flags st = Some (o, st') -> loop_result o.
Proof.
  unfold event_base_loop. intros R. case_if_in R; [injection R as <- _; by apply returned_result|]. cbv zeta in R.
  bind_in R p Q. destruct p as [o1 st1]. assert (Ho : o1 = o) by (by destruct o1; injection R). subst o1. clear R.
  revert Q. generalize (upd_base (clear_time_cache (upd_base st (fun b => {| b with running_loop := true |})))
    (fun b => {| b with event_gotterm := false; event_break := false |})).
  induction turns as [|turns IH]; intros s R; cbn [event_loop_run] in R; [injection R as <- _; by left|].
  bind_in R p Q. destruct p as [[o1|] s1]; [injection R as -> _; by eapply turn_result | by eapply IH].
Qed.

(** C2: [event_base_loop] never aborts: on a live base with queues, however
    many turns and callbacks it is given, it comes to an outcome without a
    failed assertion, and the base it leaves is live.  The outcome is a return
    of -1, 0 or 1, or [CutOff] when the turns or callbacks are used up.
    Callbacks and the backend return and use the base through the API
    ([ApiEnvironment]), and no allocation fails. *)
Theorem event_base_loop_returns turns fuel flags (st : state B) (Hmem : forall b, mm_ok b = true)
  (Hsound : sound at_rest st) :
  exists o st', event_base_loop turns fuel flags st = Some (o, st') /\ sound at_rest st' /\ loop_result o.
Proof.
  destruct (base_loop_sound Hmem turns fuel flags st Hsound) as (o & st' & R & S).
  exists o, st'. split_and!; [done | done|]. by eapply base_loop_result.
Qed.

(** C22: the wait handed to the backend is the time left to the earliest
    deadline of the heap, zero if it has passed, and unlimited when no event
    waits; its assertions do not fail. *)
Theorem timeout_next_earliest (st : state B) (Hwf : base_wf st)
  (Hnorm : forall x, x ∈ heap_set st -> tv_norm (ev_timeout (get st x))) (Hnow : tv_norm (gettime st).1) :
  exists tv, option_map fst (timeout_next st) = Some tv /\
    match tv with
    | None => heap_set st = ∅
    | Some t => exists e, e ∈ heap_set st /\
        (forall x, x ∈ heap_set st -> tv_le (ev_timeout (get st e)) (ev_timeout (get st x))) /\
        tv_norm t /\ tv_us t = Z.max 0 (tv_us (ev_timeout (get st e)) - tv_us (gettime st).1)
    end.
Proof. by apply timeout_next_spec. Qed.

(** A scan of one queue under a limit of [max] callbacks runs no more
    events that are not internal than that, and at least one is allowed. *)
Theorem single_queue_bounded fuel pri max endtime (st : state B) c st'
  (Hrun : event_process_active_single_queue fuel pri max endtime 0 st = Some (Returned c, st')) :
  c = -1 \/ 0 <= c <= Z.max 1 max.
Proof.
  assert (Hgen : forall count st, 0 <= count <= Z.max 1 max -> count < max \/ count = 0 ->
    event_process_active_single_queue fuel pri max endtime count st = Some (Returned c, st') -> c = -1 \/ 0 <= c <= Z.max 1 max).
  { clear Hrun st. induction fuel as [|fuel IH]; intros count st Hc Hlt R; cbn [event_process_active_single_queue] in R.
    - destruct (queue_at _ _); [|done]. simplify_eq. by right.
    - destruct (queue_at _ _) as [|e l]; [simplify_eq; by right|].
      bind_in R st1 E1. cbv zeta in R. set (count' := if flag st1 e EVLIST_INTERNAL then count else count + 1) in R.
      assert (Hc' : 0 <= count' <= Z.max 1 max) by (subst count'; case_if; lia).
      bind_in R st2 E2. case_if_in R; [simplify_eq; by left|]. case_if_in R; [simplify_eq; by right|].
      set (pr := match endtime with Some _ => _ | None => _ end) in R. destruct pr as [ex st4].
      destruct ex; [simplify_eq; by right|]. case_if_in R; [simplify_eq; by right|].
      eapply IH; [exact Hc' | lia | exact R]. }
  eapply Hgen; [| |exact Hrun]; lia.
Qed.
End LoopProps.

Lemma event_base_loop_returns_witness : exists st', event_base_loop 5 5 EVLOOP_ONCE demo3 = Some (Returned 0, st') /\ base_wf st'.
Proof.
  destruct (event_base_loop_returns 5 5 EVLOOP_ONCE demo3) as (o & st' & R & [[W _] _] & _);
    [intros b; reflexivity | exact demo3_sound |].
  exists st'. split; [|exact W]. rewrite R. f_equal. f_equal.
  assert (Ho : option_map fst (Some (o, st')) = Some (Returned 0)) by (rewrite <- R; vm_compute; reflexivity).
  injection Ho as ->. reflexivity.
Defined.
Lemma timeout_next_earliest_witness : exists tv, option_map fst (timeout_next demo2) = Some tv /\ tv = Some (Timeval 5 0).
Proof.
  destruct (timeout_next_earliest demo2 demo2_wf) as (tv & R & _).
  - intros x _. revert x. apply usec_norm_ok. vm_compute. reflexivity.
  - vm_compute. split; [discriminate | reflexivity].
  - exists tv. split; [exact R|]. revert R. vm_compute. intros R; injection R as <-. reflexivity.
Defined.
Definition demo_active_run : option (outcome * state table) := event_process_active_single_queue 3 0 1 None 0 demo_active.
Lemma single_queue_bounded_witness : exists c st', demo_active_run = Some (Returned c, st') /\ 0 <= c <= 1.
Proof.
  assert (Ho : option_map fst demo_active_run = Some (Returned 1)) by (vm_compute; reflexivity).
  destruct demo_active_run as [[o st']|] eqn:R; [|discriminate Ho]. injection Ho as ->. exists 1, st'. split; [reflexivity|].
  destruct (single_queue_bounded 3 0 1 None _ 1 st' R) as [Hc|Hc]; [discriminate Hc | exact Hc].
Defined.

(** ** Activation, registration, deadlines. *)
Section MoreProps.
Context {B : Type} `{BackendInterest B} `{Platform}.

(** [event_active] on an idle event returns, puts the event at the end of
    the queue of its priority and nowhere else, records the result and leaves
    every other event, the heap and the common-timeout lists alone. *)
Theorem event_active_appends (st : state B) e res n (Hwf : base_wf st) (Hbase : ev_base (get st e) = true)
  (Hfin : flag st e EVLIST_FINALIZING = false) (Hact : flag st e EVLIST_ACTIVE = false)
  (Hlater : flag st e EVLIST_ACTIVE_LATER = false) (Hpri : ev_pri (get st e) < nactivequeues st) :
  exists st', event_active st e res n = Some st' /\ base_wf st' /\
    (forall i, 0 <= i < nactivequeues st -> queue_at (activequeues (base st')) i =
       queue_at (activequeues (base st)) i ++ (if i =? ev_pri (get st e) then [e] else [])) /\
    ev_res (get st' e) = s16 res /\ (forall x, x <> e -> get st' x = get st x) /\
    timeheap (base st') = timeheap (base st) /\ common_timeout_queues (base st') = common_timeout_queues (base st).
Proof.
  unfold event_active. rewrite Hbase; cbn [negb].
  destruct (active_total st e res n Hwf Hfin Hact Hlater Hpri) as (st' & R & A).
  exists st'. split; [done|]. pose proof (qo_pri_nonneg _ (wf_queues _ Hwf) e) as Hnn.
  split_and!; [apply A | | apply A | apply A | apply A | apply A].
  intros i Hi. rewrite (ac_queues _ _ _ _ A), queue_at_set by (unfold nactivequeues in *; lia).
  destruct (Z.eqb_spec i (ev_pri (get st e))) as [->|Hne]; case_decide; try done. by rewrite app_nil_r.
Qed.

(** C6: when the backend watches what the registered events ask for, it does so
    again after an [event_add] that returned, whatever its result, and after an
    [event_del] that returned without failing: on each descriptor it watches
    exactly the conditions that some registered event on it asks for.  Either
    no allocation fails or the base has no list of common timeouts. *)
Theorem backend_watches_union (st st' : state B) e tv r fd bit (Hwf : base_wf st) (Hmem : push_safe st)
  (Hwatch : watches st) (Hinit : flag st e EVLIST_INIT = true)
  (Hop : event_add st e tv = Some (r, st') \/ (event_del st e = Some (r, st') /\ r <> -1))
  (Hfd : 0 <= fd) (Hbit : io_bit bit) :
  watches st' /\
  (has (interest (evbase (base st')) fd) bit = true <->
   exists x, flag st' x EVLIST_INSERTED = true /\ is_io st' x = true /\
             ev_fd (get st' x) = fd /\ has (ev_events (get st' x)) bit = true).
Proof.
  assert (HW : base_wf st' /\ watches st').
  { destruct Hop as [R|[R Hr]]; unfold event_add, event_del in R; case_if_in R; simplify_eq; try done.
    - split; [eapply add_wf; [done | done | by apply (fo_init _ (wf_flags _ Hwf)) | exact R] | by eapply add_watches].
    - split; [by eapply del_wf | by eapply del_watches]. }
  destruct HW as [W' Wt']. split; [done|]. by apply (watched_iff st' (inserted st') (wf_maps _ W') Wt').
Qed.

(** [evmap_make_space], from any number of entries a map of pointers can have
    reached, returns exactly for slots below 2^27; then it leaves at least
    [slot] + 1 entries, or fails without a change.  For the other slots the
    size overflows an [int], or the doubling does and never ends. *)
Theorem make_space_terminates n slot (Hn : nentries_ok n) (Hslot : 0 <= slot) :
  (is_Some (evmap_make_space n slot 8) <-> slot < 2 ^ 27) /\
  forall r n', evmap_make_space n slot 8 = Some (r, n') ->
    (r = 0 /\ nentries_ok n' /\ slot < n' /\ n <= n') \/ (r = -1 /\ n' = n).
Proof.
  split; [split|].
  - intros [x Hx]. destruct (Z.lt_ge_cases slot (2 ^ 27)) as [|Hge]; [done|].
    rewrite make_space_none in Hx by done. discriminate Hx.
  - intros Hlt. by apply make_space_total.
  - intros r n' R. by eapply make_space_ok.
Qed.

(** What [event_pending] reports for [EV_TIMEOUT]: the event waits in the
    heap or in a common-timeout list, or is active because of a timeout. *)
Theorem event_pending_timeout (st : state B) e (Hwf : base_wf st) (Hbase : ev_base (get st e) = true) :
  c_true (event_pending st e EV_TIMEOUT false).1 = true <->
  in_heap (timeheap (base st)) e \/
  (exists i ctl, common_timeout_queues (base st) !! i = Some ctl /\ e ∈ ctl_events ctl) \/
  (flag st e (Z.lor EVLIST_ACTIVE EVLIST_ACTIVE_LATER) = true /\ has (ev_res (get st e)) EV_TIMEOUT = true).
Proof.
  assert (HT : flag st e EVLIST_TIMEOUT = true <-> in_heap (timeheap (base st)) e \/
    (exists i ctl, common_timeout_queues (base st) !! i = Some ctl /\ e ∈ ctl_events ctl)).
  { split.
    - intros Hf. destruct (is_common_timeout st (ev_timeout (get st e))) eqn:Hc.
      + right. pose proof Hc as Hr. unfold is_common_timeout in Hr. case_if_in Hr; [done|].
        apply Z.ltb_lt in Hr. fold (COMMON_TIMEOUT_IDX (ev_timeout (get st e))) in Hr.
        pose proof (common_idx_nonneg (ev_timeout (get st e))) as Hnn.
        destruct (lookup_lt_is_Some_2 (common_timeout_queues (base st)) (Z.to_nat (COMMON_TIMEOUT_IDX (ev_timeout (get st e)))))
          as [ctl Hctl]; [unfold n_common_timeouts in Hr; lia|].
        exists (Z.to_nat (COMMON_TIMEOUT_IDX (ev_timeout (get st e)))), ctl. split; [done|].
        apply (to_common _ (wf_timers _ Hwf) _ _ Hctl). done.
      + left. by apply (to_in_heap _ (wf_timers _ Hwf)).
    - intros [Hh|(i & ctl & Hl & He)].
      + by apply (to_in_heap _ (wf_timers _ Hwf)) in Hh as [? _].
      + apply (to_common _ (wf_timers _ Hwf) _ _ Hl) in He. by destruct He. }
  enough (Hf : c_true (event_pending st e EV_TIMEOUT false).1 = true <-> flag st e EVLIST_TIMEOUT = true \/
     (flag st e (Z.lor EVLIST_ACTIVE EVLIST_ACTIVE_LATER) = true /\ has (ev_res (get st e)) EV_TIMEOUT = true)) by tauto.
  clear HT. unfold event_pending. rewrite Hbase. cbv zeta. cbn [negb fst andb].
  fold (flag st e EVLIST_TIMEOUT) (flag st e EVLIST_INSERTED) (flag st e (Z.lor EVLIST_ACTIVE EVLIST_ACTIVE_LATER)).
  change (Z.land EV_TIMEOUT (Z.lor EV_TIMEOUT (Z.lor EV_IO EV_SIGNAL))) with EV_TIMEOUT.
  match goal with |- c_true (Z.land ?x EV_TIMEOUT) = true <-> _ => change (c_true (Z.land x EV_TIMEOUT)) with (has x EV_TIMEOUT) end.
  assert (Hlor : forall a b, has (Z.lor a b) EV_TIMEOUT = has a EV_TIMEOUT || has b EV_TIMEOUT) by (intros; apply has_set).
  assert (Hio : has (Z.land (ev_events (get st e)) (Z.lor EV_IO EV_SIGNAL)) EV_TIMEOUT = false).
  { unfold has. rewrite <- Z.land_assoc. change (Z.land (Z.lor EV_IO EV_SIGNAL) EV_TIMEOUT) with 0. by rewrite Z.land_0_r. }
  destruct (flag st e EVLIST_TIMEOUT), (flag st e (Z.lor EVLIST_ACTIVE EVLIST_ACTIVE_LATER)), (flag st e EVLIST_INSERTED);
    rewrite ?Hlor, ?Hio; destruct (has (ev_res (get st e)) EV_TIMEOUT); cbn; intuition discriminate.
Qed.

(** [event_priority_set] succeeds exactly on an event that is not active
    and for a priority that has a queue; then that is the event's priority,
    not truncated. *)
Theorem event_priority_set_ok (st : state B) e pri (Hmax : nactivequeues st <= EVENT_MAX_PRIORITIES) :
  ((event_priority_set st e pri).1 = 0 <-> flag st e EVLIST_ACTIVE = false /\ 0 <= pri < nactivequeues st) /\
  ((event_priority_set st e pri).1 = 0 -> ev_pri (get (event_priority_set st e pri).2 e) = pri) /\
  ((event_priority_set st e pri).1 <> 0 -> (event_priority_set st e pri).2 = st).
Proof.
  unfold event_priority_set, EVENT_MAX_PRIORITIES in *. destruct (flag st e EVLIST_ACTIVE); cbn [fst snd].
  { split_and!; [|done..]. split; [done | by intros [? _]]. }
  case_if; cbn [fst snd]; split_and!; try done.
  - split; [done|]. lia.
  - split; [|done]. intros _. split; [done|]. lia.
  - intros _. rewrite get_upd_eq. cbn [ev_pri]. apply u8_small. lia.
Qed.
End MoreProps.

Lemma event_active_appends_witness : exists st', event_active demo3 3%nat EV_WRITE 1 = Some st' /\ base_wf st'.
Proof.
  destruct (event_active_appends demo3 3%nat EV_WRITE 1 demo3_wf) as (st' & R & W & _); [vm_compute; reflexivity..|].
  exists st'. split; [exact R | exact W].
Defined.
Lemma backend_watches_union_witness :
  has (interest (evbase (base demo_added)) 4) EV_WRITE = true <->
  exists x, flag demo_added x EVLIST_INSERTED = true /\ is_io demo_added x = true /\
            ev_fd (get demo_added x) = 4 /\ has (ev_events (get demo_added x)) EV_WRITE = true.
Proof.
  refine (proj2 (backend_watches_union demo3 demo_added 3%nat None 0 4 EV_WRITE demo3_wf _ demo3_watches _ (or_introl demo_added_run) _ BitWrite)).
  - left. intros b. reflexivity.
  - vm_compute. reflexivity.
  - lia.
Defined.
Lemma make_space_terminates_witness : is_Some (evmap_make_space 32 1000 8).
Proof.
  apply (make_space_terminates (H1 := demo_platform) 32 1000); [|lia | lia].
  right. exists 0. split; [lia | reflexivity].
Defined.
Lemma event_pending_timeout_witness : c_true (event_pending demo2 2%nat EV_TIMEOUT false).1 = true.
Proof.
  apply (event_pending_timeout demo2 2%nat demo2_wf); [vm_compute; reflexivity|].
  left. apply (to_in_heap _ (wf_timers _ demo2_wf)). split; vm_compute; reflexivity.
Defined.
Lemma event_priority_set_ok_witness : ev_pri (get (event_priority_set demo3 3%nat 0).2 3%nat) = 0.
Proof.
  apply (event_priority_set_ok demo3 3%nat 0); [vm_compute; discriminate | vm_compute; reflexivity].
Defined.
