(* ===== verification/EventAssert.v ===== *)
(** * The library's own checks and traversals (event.c, evmap.c)

    [event_base_assert_ok_nolock_] checks a base for consistency, and
    [event_base_foreach_event_nolock_] calls a function on its events.  The
    macros that look for cycles in the linked lists have no counterpart: a
    list of the model has none. *)
From S2P Require Import Prelude Timeval MinHeap Event EventQueue EvMap EventCore EventLoop EventInv EventPrims EvMapInv EventOps EventDel EventLoopInv EventTimers EventDeadlines EventMoves EventAddTotal EventApi EventLoopSafe EvMapWatch EventBaseNew EventDemo.

Section Checks.
Context {B : Type} `{Eventop B} `{Platform}.
Implicit Types (st : state B) (e x : eid).

(** A run of assertions over a list. *)
Fixpoint assert_all {A} (chk : A -> option unit) (l : list A) : option unit :=
  match l with [] => Some tt | x :: l => _ ← chk x; assert_all chk l end.

(** The loops over the slots of a map. *)
Definition evmap_io_foreach_fd st (fn : Z -> evmap_io -> option unit) : option unit :=
  assert_all (fun fd => match io_entries (base st) !! fd with None => Some tt | Some ctx => fn fd ctx end)
             (seqZ 0 (io_nentries (base st))).
Definition evmap_signal_foreach_signal st (fn : Z -> list eid -> option unit) : option unit :=
  assert_all (fun sig => match sigmap_entries (base st) !! sig with None => Some tt | Some ctx => fn sig ctx end)
             (seqZ 0 (sigmap_nentries (base st))).

(** The loop of the helper: the counts of the three conditions. *)
Fixpoint io_check_loop st (fd : Z) (l : list eid) (n_read n_write n_close : Z) : option (Z * Z * Z) :=
  match l with
  | [] => Some (n_read, n_write, n_close)
  | e :: l =>
      _ ← evutil_assert (flag st e EVLIST_INSERTED);
      _ ← evutil_assert (ev_fd (get st e) =? fd);
      _ ← evutil_assert (negb (has (ev_events (get st e)) EV_SIGNAL));
      _ ← evutil_assert (has (ev_events (get st e)) EV_IO);
      let evs := ev_events (get st e) in
      io_check_loop st fd l (if has evs EV_READ then n_read + 1 else n_read)
        (if has evs EV_WRITE then n_write + 1 else n_write)
        (if has evs EV_CLOSED then n_close + 1 else n_close)
  end.
Definition evmap_io_check_integrity_fn st (fd : Z) (io_info : evmap_io) : option unit :=
  '(n_read, n_write, n_close) ← io_check_loop st fd (io_events io_info) 0 0 0;
  _ ← evutil_assert (n_read =? nread io_info);
  _ ← evutil_assert (n_write =? nwrite io_info);
  evutil_assert (n_close =? nclose io_info).

Definition evmap_signal_check_integrity_fn st (signum : Z) (sig_info : list eid) : option unit :=
  assert_all (fun e =>
    _ ← evutil_assert (flag st e EVLIST_INSERTED);
    _ ← evutil_assert (ev_fd (get st e) =? signum);
    _ ← evutil_assert (has (ev_events (get st e)) EV_SIGNAL);
    evutil_assert (negb (has (ev_events (get st e)) EV_IO))) sig_info.

(** For a backend that keeps no changelist. *)
Definition evmap_check_integrity_ st : option unit :=
  _ ← evmap_io_foreach_fd st (evmap_io_check_integrity_fn st);
  evmap_signal_foreach_signal st (evmap_signal_check_integrity_fn st).

Definition heap_assert st (i : Z) : option unit :=
  let parent := Z.quot (i - 1) 2 in
  let ev := p_get (heap_p (timeheap (base st))) i in
  let p_ev := p_get (heap_p (timeheap (base st))) parent in
  _ ← evutil_assert (flag st ev EVLIST_TIMEOUT);
  _ ← evutil_assert (evutil_timercmp (ev_timeout (get st p_ev)) (ev_timeout (get st ev)) CmpLe);
  evutil_assert (ev_min_heap_idx (get st ev) =? i).

Fixpoint common_assert st (i : Z) (last : option eid) (l : list eid) : option unit :=
  match l with
  | [] => Some tt
  | ev :: l =>
      _ ← match last with
          | Some last => evutil_assert (evutil_timercmp (ev_timeout (get st last)) (ev_timeout (get st ev)) CmpLe)
          | None => Some tt
          end;
      _ ← evutil_assert (flag st ev EVLIST_TIMEOUT);
      _ ← evutil_assert (is_common_timeout st (ev_timeout (get st ev)));
      _ ← evutil_assert (COMMON_TIMEOUT_IDX (ev_timeout (get st ev)) =? i);
      common_assert st i (Some ev) l
  end.

(** The loops over the active queues: the number of callbacks seen. *)
Definition active_bits st e : Z := Z.land (ev_flags (get st e)) (Z.lor EVLIST_ACTIVE EVLIST_ACTIVE_LATER).
Fixpoint active_assert st (i : Z) (l : list eid) (count : Z) : option Z :=
  match l with
  | [] => Some count
  | e :: l =>
      _ ← evutil_assert (active_bits st e =? EVLIST_ACTIVE);
      _ ← evutil_assert (ev_pri (get st e) =? i);
      active_assert st i l (count + 1)
  end.
Fixpoint queues_assert st (i : Z) (qs : list (list eid)) (count : Z) : option Z :=
  match qs with
  | [] => Some count
  | q :: qs => count ← active_assert st i q count; queues_assert st (i + 1) qs count
  end.
Fixpoint later_assert st (l : list eid) (count : Z) : option Z :=
  match l with
  | [] => Some count
  | e :: l => _ ← evutil_assert (active_bits st e =? EVLIST_ACTIVE_LATER); later_assert st l (count + 1)
  end.

Definition event_base_assert_ok_nolock_ st : option unit :=
  _ ← evmap_check_integrity_ st;
  _ ← assert_all (heap_assert st) (seqZ 1 (heap_n (timeheap (base st)) - 1));
  _ ← assert_all (fun i => match common_timeout_queues (base st) !! Z.to_nat i with
                           | Some ctl => common_assert st i None (ctl_events ctl)
                           | None => Some tt
                           end) (seqZ 0 (n_common_timeouts st));
  count ← queues_assert st 0 (activequeues (base st)) 0;
  count ← later_assert st (active_later_queue (base st)) count;
  evutil_assert (count =? event_count_active (base st)).
End Checks.

Section ChecksHold.
Context {B : Type} `{Eventop B} `{Platform}.
Implicit Types (st : state B) (e x : eid).

(** What [event_assign] checks of its arguments: a registered event is for a
    descriptor or for a signal, not for both; a signal number is an [int]. *)
Definition assigned_ok st : Prop := forall e, flag st e EVLIST_INSERTED = true ->
  if is_io st e then has (ev_events (get st e)) EV_SIGNAL = false
  else has (ev_events (get st e)) EV_SIGNAL = true /\ s32 (ev_fd (get st e)) = ev_fd (get st e).

Lemma assert_all_ok {A} (chk : A -> option unit) (l : list A) : (forall y : A, y ∈ l -> chk y = Some tt) -> assert_all chk l = Some tt.
Proof. induction l as [|y l IH]; [done|]. intros Hc. cbn. rewrite Hc by set_solver. cbn. apply IH. set_solver. Qed.

Lemma io_loop_counts st fd l r w c :
  (forall e, e ∈ l -> flag st e EVLIST_INSERTED = true /\ ev_fd (get st e) = fd /\
                      has (ev_events (get st e)) EV_SIGNAL = false /\ has (ev_events (get st e)) EV_IO = true) ->
  io_check_loop st fd l r w c = Some (r + count_of st EV_READ l, w + count_of st EV_WRITE l, c + count_of st EV_CLOSED l).
Proof.
  revert r w c. induction l as [|e l IH]; intros r w c Hl; cbn [io_check_loop].
  - unfold count_of. cbn. by rewrite !Z.add_0_r.
  - destruct (Hl e) as (-> & -> & -> & ->); [set_solver|]. rewrite Z.eqb_refl. cbn [evutil_assert mbind option_bind negb].
    rewrite IH by set_solver. rewrite !count_cons. apply f_equal, pair_equal_spec. split; [apply pair_equal_spec; split|];
      [destruct (has _ EV_READ) | destruct (has _ EV_WRITE) | destruct (has _ EV_CLOSED)]; cbn [c_int]; lia.
Qed.

Lemma io_check_ok st fd ctx : assigned_ok st -> io_ok st (inserted st) fd ctx -> evmap_io_check_integrity_fn st fd ctx = Some tt.
Proof.
  intros HA [_ [_ Hm] Hr Hw Hc]. unfold evmap_io_check_integrity_fn. rewrite io_loop_counts.
  - cbn [mbind option_bind]. rewrite Hr, Hw, Hc, !Z.add_0_l, !Z.eqb_refl. done.
  - intros e He. apply Hm in He as (Hi & Hio & Hfd). specialize (HA e Hi). rewrite Hio in HA. done.
Qed.
Lemma sig_check_ok st sig l : assigned_ok st ->
  mem_ok l (fun e => inserted st e = true /\ is_io st e = false /\ s32 (ev_fd (get st e)) = sig) ->
  evmap_signal_check_integrity_fn st sig l = Some tt.
Proof.
  intros HA [_ Hm]. apply assert_all_ok. intros e He. apply Hm in He as (Hi & Hio & Hs).
  specialize (HA e Hi). rewrite Hio in HA. destruct HA as [Hsig Hfd]. unfold inserted, is_io in *.
  rewrite Hi, Hsig, Hio, <- Hs, Hfd, Z.eqb_refl. done.
Qed.

Lemma heap_check_ok st i : base_wf st -> 0 < i < heap_n (timeheap (base st)) -> heap_assert st i = Some tt.
Proof.
  intros W Hi. pose proof (wf_timers _ W) as T. unfold heap_assert. cbv zeta.
  assert (Hin : in_heap (timeheap (base st)) (p_get (heap_p (timeheap (base st))) i)) by (exists i; split; [lia|done]).
  apply (to_in_heap _ T) in Hin as [-> _]. cbn [evutil_assert mbind option_bind].
  pose proof (hw_order _ _ (to_heap _ T) i Hi) as Ho. pose proof (hw_idx _ _ (to_heap _ T) i ltac:(lia)) as Hx. cbn in Ho, Hx.
  rewrite Z.quot_div_nonneg by lia. unfold par in Ho. apply tv_le_cmp in Ho. rewrite Ho, Hx, Z.eqb_refl. done.
Qed.

Lemma common_check_ok st i last l : (forall e, e ∈ l -> flag st e EVLIST_TIMEOUT = true /\
    is_common_timeout st (ev_timeout (get st e)) = true /\ COMMON_TIMEOUT_IDX (ev_timeout (get st e)) = i) ->
  StronglySorted (timeout_order st) (option_list last ++ l) -> common_assert st i last l = Some tt.
Proof.
  revert last. induction l as [|e l IH]; intros last Hl HS; [done|]. cbn [common_assert].
  replace (match last with Some _ => _ | None => _ end) with (Some tt).
  2: { destruct last as [y|]; [|done]. cbn in HS. inversion HS as [|? ? _ HF]; subst. inversion HF as [|? ? Hle _]; subst.
       apply tv_le_cmp in Hle. by rewrite Hle. }
  destruct (Hl e) as (-> & -> & ->); [set_solver|]. rewrite Z.eqb_refl. cbn [evutil_assert mbind option_bind].
  apply IH; [set_solver|]. cbn. destruct last; cbn in HS; [by inversion HS | done].
Qed.

(** The queues, and the count of what is in them. *)
Lemma active_check_ok st i l c : (forall e, e ∈ l -> active_bits st e = EVLIST_ACTIVE /\ ev_pri (get st e) = i) ->
  active_assert st i l c = Some (c + Z.of_nat (length l)).
Proof.
  revert c. induction l as [|e l IH]; intros c Hl; cbn [active_assert length]; [apply f_equal; lia|].
  destruct (Hl e) as [-> ->]; [set_solver|]. rewrite !Z.eqb_refl. cbn [evutil_assert mbind option_bind].
  rewrite IH by set_solver. apply f_equal. lia.
Qed.
Lemma later_check_ok st l c : (forall e, e ∈ l -> active_bits st e = EVLIST_ACTIVE_LATER) ->
  later_assert st l c = Some (c + Z.of_nat (length l)).
Proof.
  revert c. induction l as [|e l IH]; intros c Hl; cbn [later_assert length]; [apply f_equal; lia|].
  rewrite Hl, Z.eqb_refl by set_solver. cbn [evutil_assert mbind option_bind]. rewrite IH by set_solver. apply f_equal. lia.
Qed.
Lemma queues_check_ok st i qs c :
  (forall k q e, qs !! k = Some q -> e ∈ q -> active_bits st e = EVLIST_ACTIVE /\ ev_pri (get st e) = i + Z.of_nat k) ->
  queues_assert st i qs c = Some (c + Z.of_nat (length (mjoin qs))).
Proof.
  revert i c. induction qs as [|q qs IH]; intros i c Hq; cbn [queues_assert]; [cbn; apply f_equal; lia|].
  change (mjoin (q :: qs)) with (q ++ mjoin qs).
  rewrite active_check_ok. 2: { intros e He. destruct (Hq 0%nat q e eq_refl He). split; [done | lia]. }
  cbn [mbind option_bind]. rewrite IH. 2: { intros k q' e Hk He. destruct (Hq (S k) q' e Hk He). split; [done | lia]. }
  rewrite length_app. apply f_equal. lia.
Qed.
Lemma join_nodup (f : eid -> Z) qs i : (forall k q, qs !! k = Some q -> NoDup q /\ forall e, e ∈ q -> f e = i + Z.of_nat k) ->
  NoDup (mjoin qs).
Proof.
  revert i. induction qs as [|q qs IH]; intros i Hq; [constructor|]. change (mjoin (q :: qs)) with (q ++ mjoin qs).
  apply NoDup_app. destruct (Hq 0%nat q eq_refl) as [ND Hf]. split_and!; [done | |].
  - intros x Hx (q' & Hx' & Hin)%list_elem_of_join. apply list_elem_of_lookup in Hin as [k Hk].
    destruct (Hq (S k) q' Hk) as [_ Hf']. pose proof (Hf x Hx). pose proof (Hf' x Hx'). lia.
  - apply (IH (i + 1)). intros k q' Hk. destruct (Hq (S k) q' Hk) as [? Hf']. split; [done|]. intros e He. pose proof (Hf' e He). lia.
Qed.

Lemma queue_lookup st k q : queues_ok st -> activequeues (base st) !! k = Some q ->
  mem_ok q (fun e => flag st e EVLIST_ACTIVE = true /\ ev_pri (get st e) = Z.of_nat k).
Proof.
  intros Q Hk. pose proof (lookup_lt_Some _ _ _ Hk). pose proof (qo_queue _ Q (Z.of_nat k)) as Hm.
  unfold nactivequeues, queue_at in Hm. rewrite arr_get_nth in Hm. rewrite Nat2Z.id, (nth_lookup_Some _ _ _ _ Hk) in Hm. apply Hm. lia.
Qed.
Lemma active_bits_ok st e : queues_ok st -> flag st e EVLIST_ACTIVE = true -> active_bits st e = EVLIST_ACTIVE.
Proof.
  intros Q Ha. pose proof (active_switch st e) as Hs. cbv zeta in Hs. by rewrite Ha, (qo_excl _ Q e Ha) in Hs.
Qed.
Lemma later_bits_ok st e : queues_ok st -> flag st e EVLIST_ACTIVE_LATER = true -> active_bits st e = EVLIST_ACTIVE_LATER.
Proof.
  intros Q Hl. pose proof (active_switch st e) as Hs. cbv zeta in Hs.
  destruct (flag st e EVLIST_ACTIVE) eqn:Ha; [rewrite (qo_excl _ Q e Ha) in Hl; done|]. by rewrite Hl in Hs.
Qed.

Lemma active_member st e : base_wf st -> e ∈ mjoin (activequeues (base st)) <-> flag st e EVLIST_ACTIVE = true.
Proof.
  intros W. pose proof (wf_queues _ W) as Q. rewrite list_elem_of_join. split.
    - intros (q & He & Hin). apply list_elem_of_lookup in Hin as [k Hk]. destruct (queue_lookup st k q Q Hk) as [_ Hm]. exact (proj1 (proj1 (Hm e) He)).
    - intros Ha. pose proof (qo_pri _ Q e Ha) as Hp. pose proof (qo_pri_nonneg _ Q e) as Hnn.
      destruct (lookup_lt_is_Some_2 (activequeues (base st)) (Z.to_nat (ev_pri (get st e)))) as [q Hq]; [unfold nactivequeues in Hp; lia|].
      exists q. split; [|by eapply list_elem_of_lookup_2]. destruct (queue_lookup st _ q Q Hq) as [_ Hm]. apply Hm. split; [done | lia].
Qed.

Lemma active_count st : base_wf st ->
  event_count_active (base st) = Z.of_nat (length (mjoin (activequeues (base st)) ++ active_later_queue (base st))).
Proof.
  intros W. pose proof (wf_queues _ W) as Q. destruct (qo_later _ Q) as [NDl Hl].
  assert (Hj : forall e, e ∈ mjoin (activequeues (base st)) <-> flag st e EVLIST_ACTIVE = true) by (intros e; by apply active_member).
  assert (Hw : forall e, active_weight (ev_flags (get st e)) = c_int (flag st e EVLIST_ACTIVE) + c_int (flag st e EVLIST_ACTIVE_LATER)) by done.
  apply (total_count _ _ _ (co_active _ (wf_counts _ W))).
  - apply NoDup_app. split_and!; [|intros x Hx Hx'; apply Hj in Hx; apply Hl in Hx'; by rewrite (qo_excl _ Q x Hx) in Hx' | done].
    apply (join_nodup (fun e => ev_pri (get st e)) _ 0). intros k q Hk. destruct (queue_lookup st k q Q Hk) as [ND Hm].
    split; [done|]. intros e He. apply Hm in He as [_ He]. lia.
  - intros e He. rewrite Hw. apply elem_of_app in He as [He|He].
    + apply Hj in He. by rewrite He, (qo_excl _ Q e He).
    + apply Hl in He. destruct (flag st e EVLIST_ACTIVE) eqn:Ha; [by rewrite (qo_excl _ Q e Ha) in He | by rewrite He].
  - intros e He. rewrite Hw. rewrite elem_of_app, Hj, Hl in He.
    destruct (flag st e EVLIST_ACTIVE), (flag st e EVLIST_ACTIVE_LATER); tauto || done.
Qed.

(** C25: on every well-formed base whose events were assigned properly the
    library's own consistency check, [event_base_assert_ok_nolock_], passes:
    the maps with their counts, the heap, the common-timeout lists, the
    queues of active events and their number. *)
Theorem assert_ok_passes st (Hwf : base_wf st) (Hassign : assigned_ok st) : event_base_assert_ok_nolock_ st = Some tt.
Proof.
  pose proof (wf_queues _ Hwf) as Q. pose proof (wf_timers _ Hwf) as T. pose proof (wf_maps _ Hwf) as M.
  unfold event_base_assert_ok_nolock_, evmap_check_integrity_, evmap_io_foreach_fd, evmap_signal_foreach_signal.
  rewrite (assert_all_ok _ (seqZ 0 (io_nentries (base st)))).
  2: { intros fd _. destruct (io_entries (base st) !! fd) as [ctx|] eqn:El; [|done]. by apply io_check_ok, M. }
  cbn [mbind option_bind]. rewrite (assert_all_ok _ (seqZ 0 (sigmap_nentries (base st)))).
  2: { intros sig _. destruct (sigmap_entries (base st) !! sig) as [l|] eqn:El; [|done]. apply sig_check_ok; [done|]. by apply (mo_sig _ _ M). }
  cbn [mbind option_bind]. rewrite (assert_all_ok (heap_assert st)).
  2: { intros i Hi%elem_of_seqZ. apply heap_check_ok; [done | lia]. }
  cbn [mbind option_bind]. rewrite (assert_all_ok _ (seqZ 0 (n_common_timeouts st))).
  2: { intros i Hi%elem_of_seqZ. destruct (common_timeout_queues (base st) !! Z.to_nat i) as [ctl|] eqn:El; [|done].
       destruct (to_common _ T _ _ El) as [[_ Hm] HS]. apply common_check_ok; [|done].
       intros e He. apply Hm in He as (? & ? & Hx). split_and!; [done | done|].
       pose proof (common_idx_nonneg (ev_timeout (get st e))). lia. }
  cbn [mbind option_bind]. rewrite queues_check_ok.
  2: { intros k q e Hk He. destruct (queue_lookup st k q Q Hk) as [_ Hm]. apply Hm in He as [Ha Hp]. split; [by apply active_bits_ok | lia]. }
  cbn [mbind option_bind]. rewrite later_check_ok.
  2: { intros e He. destruct (qo_later _ Q) as [_ Hm]. apply Hm in He. by apply later_bits_ok. }
  cbn [mbind option_bind]. rewrite (active_count st Hwf), length_app.
  rewrite Z.add_0_l, <- Nat2Z.inj_add, Z.eqb_refl. done.
Qed.
End ChecksHold.

Definition assigned_okb (ev : event) : bool :=
  negb (has (ev_flags ev) EVLIST_INSERTED) ||
  (if has (ev_events ev) EV_IO then negb (has (ev_events ev) EV_SIGNAL)
   else has (ev_events ev) EV_SIGNAL && (s32 (ev_fd ev) =? ev_fd ev)).
Lemma assigned_check (st : state table) : store_all assigned_okb st = true -> assigned_ok st.
Proof.
  intros Hs e He. pose proof (store_check _ _ e Hs) as Hx. unfold assigned_okb, flag, is_io in *. rewrite He in Hx. cbn in Hx.
  destruct (has (ev_events (get st e)) EV_IO); [by apply negb_true_iff|].
  apply andb_true_iff in Hx as [? ?%Z.eqb_eq]. done.
Qed.
Lemma assert_ok_passes_witness : event_base_assert_ok_nolock_ demo3 = Some tt.
Proof. apply (assert_ok_passes demo3 demo3_wf). apply assigned_check. vm_compute. reflexivity. Defined.

(** * Visiting the events of a base (event.c, evmap.c)

    [event_base_foreach_event_nolock_] calls a function on the events of the
    maps, the heap, the common-timeout lists and the active queues, in that
    order, until it returns a value other than 0; the function may keep a
    state of its own but, as its type says, does not change the base. *)
Section Foreach.
Context {B : Type} `{Eventop B} `{Platform} {A : Type}.
Implicit Types (st : state B) (e : eid) (fn : A -> eid -> A * Z).

(** [LIST_FOREACH] with a test: [if ((r = fn(base, ev, arg))) return r]. *)
Fixpoint foreach_until fn (skip : eid -> bool) (a : A) (l : list eid) : A * Z :=
  match l with
  | [] => (a, 0)
  | e :: l =>
      if skip e then foreach_until fn skip a l
      else let '(a, r) := fn a e in if c_true r then (a, r) else foreach_until fn skip a l
  end.
(** The same over the slots of a map or an array of lists. *)
Fixpoint foreach_list {T} (fn : A -> eid -> A * Z) (skip : eid -> bool) (events_of : T -> list eid) (a : A) (l : list T) : A * Z :=
  match l with
  | [] => (a, 0)
  | t :: l => let '(a, r) := foreach_until fn skip a (events_of t) in if c_true r then (a, r) else foreach_list fn skip events_of a l
  end.

Definition io_slot_events st (fd : Z) : list eid :=
  match io_entries (base st) !! fd with Some ctx => io_events ctx | None => [] end.
Definition sig_slot_events st (sig : Z) : list eid :=
  match sigmap_entries (base st) !! sig with Some ctx => ctx | None => [] end.

Definition evmap_foreach_event_ st fn (a : A) : A * Z :=
  let never e := false in
  let '(a, r) := foreach_list fn never (io_slot_events st) a (seqZ 0 (io_nentries (base st))) in
  if c_true r then (a, r)
  else foreach_list fn never (sig_slot_events st) a (seqZ 0 (sigmap_nentries (base st))).

Definition event_base_foreach_event_nolock_ st fn (a : A) : A * Z :=
  let '(a, r) := evmap_foreach_event_ st fn a in
  if c_true r then (a, r)
  else
    let inserted e := flag st e EVLIST_INSERTED in
    let '(a, r) := foreach_until fn inserted a
      ((fun u => p_get (heap_p (timeheap (base st))) u) <$> seqZ 0 (heap_n (timeheap (base st)))) in
    if c_true r then (a, r)
    else
      let '(a, r) := foreach_list fn inserted ctl_events a (common_timeout_queues (base st)) in
      if c_true r then (a, r)
      else
        foreach_list fn
          (fun e => negb (Z.land (ev_flags (get st e)) (Z.lor EVLIST_INIT (Z.lor EVLIST_INSERTED EVLIST_TIMEOUT)) =? EVLIST_INIT))
          (fun q => q) a (activequeues (base st)).
End Foreach.

Section ForeachProps.
Context {B : Type} `{Eventop B} `{Platform}.
Implicit Types (st : state B) (e : eid).

(** The function that records what it is called on. *)
Definition record_event (l : list eid) e : list eid * Z := (l ++ [e], 0).
Definition visited st : list eid := (event_base_foreach_event_nolock_ st record_event []).1.

Definition kept (skip : eid -> bool) (l : list eid) : list eid := filter (fun e => skip e = false) l.

Lemma record_until skip a l : foreach_until record_event skip a l = (a ++ kept skip l, 0).
Proof.
  unfold kept. revert a. induction l as [|e l IH]; intros a; cbn [foreach_until]; [by rewrite app_nil_r|].
  rewrite filter_cons. destruct (skip e) eqn:Hs; [by rewrite IH, decide_False|].
  cbn [record_event c_true Z.eqb negb]. rewrite IH, decide_True by done. by rewrite <- app_assoc.
Qed.
Lemma record_list {T} skip (evs : T -> list eid) a l :
  foreach_list record_event skip evs a l = (a ++ kept skip (l ≫= evs), 0).
Proof.
  revert a. induction l as [|t l IH]; intros a; cbn [foreach_list]; [by rewrite app_nil_r|].
  rewrite record_until. cbn [c_true Z.eqb negb]. rewrite IH, <- app_assoc. f_equal. f_equal.
  change ((t :: l) ≫= evs) with (evs t ++ (l ≫= evs)). unfold kept. by rewrite filter_app.
Qed.

Definition active_skip st e : bool :=
  negb (Z.land (ev_flags (get st e)) (Z.lor EVLIST_INIT (Z.lor EVLIST_INSERTED EVLIST_TIMEOUT)) =? EVLIST_INIT).

Lemma bind_id_join (ls : list (list eid)) : ls ≫= (fun q => q) = mjoin ls.
Proof. induction ls as [|q ls IH]; [done|]. change (q ++ (ls ≫= (fun q => q)) = q ++ mjoin ls). by rewrite IH. Qed.
Lemma visited_app st : visited st =
  kept (fun _ => false) (seqZ 0 (io_nentries (base st)) ≫= io_slot_events st) ++
  kept (fun _ => false) (seqZ 0 (sigmap_nentries (base st)) ≫= sig_slot_events st) ++
  kept (fun e => flag st e EVLIST_INSERTED)
    ((fun u => p_get (heap_p (timeheap (base st))) u) <$> seqZ 0 (heap_n (timeheap (base st)))) ++
  kept (fun e => flag st e EVLIST_INSERTED) (common_timeout_queues (base st) ≫= ctl_events) ++
  kept (active_skip st) (mjoin (activequeues (base st))).
Proof.
  unfold visited, event_base_foreach_event_nolock_, evmap_foreach_event_. cbv zeta.
  repeat (progress (rewrite ?record_list, ?record_until; cbn [c_true Z.eqb negb fst])).
  cbn [app]. rewrite <- !app_assoc. by rewrite bind_id_join.
Qed.

(** ** Each event once. *)
Lemma bind_nodup (T : Type) (f : T -> list eid) (key : eid -> T) l : NoDup l -> (forall t, t ∈ l -> NoDup (f t)) ->
  (forall t e, t ∈ l -> e ∈ f t -> key e = t) -> NoDup (l ≫= f).
Proof.
  intros ND Hf Hk. induction ND as [|t l Ht ND IH]; [constructor|]. change ((t :: l) ≫= f) with (f t ++ (l ≫= f)).
  apply NoDup_app. split_and!; [apply Hf; set_solver | | apply IH; set_solver].
  intros e He (t' & He' & Ht')%list_elem_of_bind. assert (key e = t) by (apply Hk; set_solver).
  assert (key e = t') by (apply Hk; set_solver). by simplify_eq.
Qed.

(** In a map: an inserted event that is not on a negative descriptor. *)
Definition in_maps st e : Prop := flag st e EVLIST_INSERTED = true /\ (is_io st e = true -> 0 <= ev_fd (get st e)).

Lemma io_part st : base_wf st ->
  mem_ok (seqZ 0 (io_nentries (base st)) ≫= io_slot_events st)
    (fun e => flag st e EVLIST_INSERTED = true /\ is_io st e = true /\ 0 <= ev_fd (get st e)).
Proof.
  intros W. pose proof (wf_maps _ W) as M.
  assert (Hs : forall fd, NoDup (io_slot_events st fd) /\ forall e, e ∈ io_slot_events st fd ->
     flag st e EVLIST_INSERTED = true /\ is_io st e = true /\ ev_fd (get st e) = fd /\ 0 <= fd).
  { intros fd. unfold io_slot_events. destruct (io_entries (base st) !! fd) as [ctx|] eqn:El; [|split; [constructor | set_solver]].
    destruct (mo_io _ _ M fd ctx El) as [Hr [ND Hm] _ _ _]. split; [done|]. intros e (? & ? & ?)%Hm. split_and!; try done. lia. }
  split.
  - apply (bind_nodup Z _ (fun e => ev_fd (get st e))); [apply NoDup_seqZ | intros; apply Hs|].
    intros fd e _ He. by apply Hs in He as (_ & _ & ? & _).
  - intros e. rewrite list_elem_of_bind. split.
    + intros (fd & He & _). apply Hs in He as (? & ? & <- & ?). done.
    + intros (Hi & Hio & Hfd). destruct (mo_io_total _ _ M e Hi Hio Hfd) as [ctx El].
      destruct (mo_io _ _ M _ ctx El) as [Hr [_ Hm] _ _ _]. exists (ev_fd (get st e)). split.
      * unfold io_slot_events. rewrite El. by apply Hm.
      * apply elem_of_seqZ. lia.
Qed.
Lemma sig_part st : base_wf st ->
  mem_ok (seqZ 0 (sigmap_nentries (base st)) ≫= sig_slot_events st)
    (fun e => flag st e EVLIST_INSERTED = true /\ is_io st e = false).
Proof.
  intros W. pose proof (wf_maps _ W) as M.
  assert (Hs : forall sig, NoDup (sig_slot_events st sig) /\ forall e, e ∈ sig_slot_events st sig ->
     flag st e EVLIST_INSERTED = true /\ is_io st e = false /\ s32 (ev_fd (get st e)) = sig).
  { intros sig. unfold sig_slot_events. destruct (sigmap_entries (base st) !! sig) as [l|] eqn:El; [|split; [constructor | set_solver]].
    destruct (mo_sig _ _ M sig l El) as [_ [ND Hm]]. split; [done|]. by intros e (? & ? & ?)%Hm. }
  split.
  - apply (bind_nodup Z _ (fun e => s32 (ev_fd (get st e)))); [apply NoDup_seqZ | intros; apply Hs|].
    intros sig e _ He. by apply Hs in He as (_ & _ & ?).
  - intros e. rewrite list_elem_of_bind. split.
    + intros (sig & He & _). apply Hs in He as (? & ? & ?). done.
    + intros (Hi & Hio). destruct (mo_sig_total _ _ M e Hi Hio) as [l El].
      destruct (mo_sig _ _ M _ l El) as [Hr [_ Hm]]. exists (s32 (ev_fd (get st e))). split.
      * unfold sig_slot_events. rewrite El. by apply Hm.
      * apply elem_of_seqZ. lia.
Qed.
Lemma heap_part st : base_wf st ->
  mem_ok ((fun u => p_get (heap_p (timeheap (base st))) u) <$> seqZ 0 (heap_n (timeheap (base st))))
    (fun e => flag st e EVLIST_TIMEOUT = true /\ is_common_timeout st (ev_timeout (get st e)) = false).
Proof.
  intros W. pose proof (wf_timers _ W) as T. split.
  - apply NoDup_fmap_2_strong; [|apply NoDup_seqZ]. intros i j Hi%elem_of_seqZ Hj%elem_of_seqZ Heq.
    pose proof (hw_idx _ _ (to_heap _ T) i ltac:(lia)) as Hx. pose proof (hw_idx _ _ (to_heap _ T) j ltac:(lia)) as Hy. congruence.
  - intros e. rewrite <- (to_in_heap _ T). rewrite list_elem_of_fmap. unfold in_heap. setoid_rewrite elem_of_seqZ.
    split; intros (i & ? & ?); exists i; (split; [done || lia|]); done || lia.
Qed.
Lemma common_part st : base_wf st ->
  mem_ok (common_timeout_queues (base st) ≫= ctl_events)
    (fun e => flag st e EVLIST_TIMEOUT = true /\ is_common_timeout st (ev_timeout (get st e)) = true).
Proof.
  intros W. pose proof (wf_timers _ W) as T.
  assert (Hj : common_timeout_queues (base st) ≫= ctl_events = mjoin (ctl_events <$> common_timeout_queues (base st))).
  { generalize (common_timeout_queues (base st)). intros l. induction l as [|c l IH]; [done|].
    change (ctl_events c ++ (l ≫= ctl_events) = ctl_events c ++ mjoin (ctl_events <$> l)). by rewrite IH. }
  rewrite Hj. split.
  - apply (join_nodup (fun e => Z.of_nat (Z.to_nat (COMMON_TIMEOUT_IDX (ev_timeout (get st e))))) _ 0).
    intros k q Hk. rewrite list_lookup_fmap in Hk. destruct (common_timeout_queues (base st) !! k) as [ctl|] eqn:El; [|done].
    injection Hk as <-. destruct (to_common _ T k ctl El) as [[ND Hm] _]. split; [done|]. intros e (_ & _ & ->)%Hm. lia.
  - intros e. rewrite list_elem_of_join. setoid_rewrite list_elem_of_fmap. split.
    + intros (q & He & ctl & -> & Hin). apply list_elem_of_lookup in Hin as [k Hk].
      destruct (to_common _ T k ctl Hk) as [[_ Hm] _]. destruct (proj1 (Hm e) He) as (? & ? & _). done.
    + intros [Hf Hc]. pose proof Hc as Hr. unfold is_common_timeout in Hr. case_if_in Hr; [done|]. apply Z.ltb_lt in Hr.
      fold (COMMON_TIMEOUT_IDX (ev_timeout (get st e))) in Hr. pose proof (common_idx_nonneg (ev_timeout (get st e))) as Hnn.
      destruct (lookup_lt_is_Some_2 (common_timeout_queues (base st)) (Z.to_nat (COMMON_TIMEOUT_IDX (ev_timeout (get st e)))))
        as [ctl Hctl]; [unfold n_common_timeouts in Hr; lia|].
      destruct (to_common _ T _ ctl Hctl) as [[_ Hm] _]. exists (ctl_events ctl). split; [by apply Hm|].
      exists ctl. split; [done | by eapply list_elem_of_lookup_2].
Qed.
Lemma active_part st : base_wf st ->
  mem_ok (mjoin (activequeues (base st))) (fun e => flag st e EVLIST_ACTIVE = true).
Proof.
  intros W. pose proof (wf_queues _ W) as Q. split.
  - apply (join_nodup (fun e => ev_pri (get st e)) _ 0). intros k q Hk. destruct (queue_lookup st k q Q Hk) as [ND Hm].
    split; [done|]. intros e He. apply Hm in He as [_ He]. lia.
  - intros e. by apply active_member.
Qed.
Lemma active_skip_has st e : active_skip st e = false <->
  flag st e EVLIST_INIT = true /\ flag st e EVLIST_INSERTED = false /\ flag st e EVLIST_TIMEOUT = false.
Proof.
  unfold active_skip, flag. rewrite negb_false_iff, Z.eqb_eq. set (fl := ev_flags (get st e)).
  change EVLIST_INIT with (2 ^ 7). change EVLIST_INSERTED with (2 ^ 1). change EVLIST_TIMEOUT with (2 ^ 0).
  rewrite !has_pow2 by lia. split.
  - intros Hm. pose proof (f_equal (fun z => Z.testbit z 7) Hm) as H7. pose proof (f_equal (fun z => Z.testbit z 1) Hm) as H1'.
    pose proof (f_equal (fun z => Z.testbit z 0) Hm) as H0'. cbv beta in *. rewrite !Z.land_spec in *. cbn in H7, H1', H0'.
    by rewrite andb_true_r in *.
  - intros (H7 & H1' & H0'). apply Z.bits_inj'. intros n Hn. rewrite Z.land_spec.
    assert (Hc : n = 0 \/ n = 1 \/ n = 7 \/ (n <> 0 /\ n <> 1 /\ n <> 7)) by lia.
    destruct Hc as [-> | [-> | [-> | (N0 & N1 & N7)]]]; try (rewrite ?H7, ?H1', ?H0'; done).
    rewrite !Z.lor_spec, !Z.pow2_bits_eqb by lia.
    destruct (Z.eqb_spec 7 n), (Z.eqb_spec 1 n), (Z.eqb_spec 0 n); lia.
Qed.

Lemma kept_ok skip l P : mem_ok l P -> mem_ok (kept skip l) (fun e => P e /\ skip e = false).
Proof.
  intros [ND Hm]. split; [by apply NoDup_filter|]. intros e. unfold kept. rewrite list_elem_of_filter, Hm. tauto.
Qed.
Lemma app_ok (l l' : list eid) P Q : mem_ok l P -> mem_ok l' Q -> (forall e, P e -> Q e -> False) -> mem_ok (l ++ l') (fun e => P e \/ Q e).
Proof.
  intros [ND Hm] [ND' Hm'] Hd. split; [|intros e; by rewrite elem_of_app, Hm, Hm'].
  apply NoDup_app. split_and!; [done | | done]. intros e ?%Hm ?%Hm'. eauto.
Qed.

(** [event_base_foreach_event] calls its function exactly once on each
    event that is registered with a descriptor or a signal, and on each other
    event that is waiting for a timeout or is active; it passes over the
    deferred callbacks and over the events registered for a descriptor that
    is negative, even when they wait for a timeout or are active. *)
Theorem foreach_visits_once st (Hwf : base_wf st) :
  NoDup (visited st) /\
  forall e, e ∈ visited st <->
    (flag st e EVLIST_INSERTED = true /\ (is_io st e = true -> 0 <= ev_fd (get st e))) \/
    (flag st e EVLIST_INSERTED = false /\
     (flag st e EVLIST_TIMEOUT = true \/ (flag st e EVLIST_ACTIVE = true /\ flag st e EVLIST_INIT = true))).
Proof.
  rewrite visited_app.
  eassert (Hall : mem_ok
    (kept (fun _ => false) (seqZ 0 (io_nentries (base st)) ≫= io_slot_events st) ++
     kept (fun _ => false) (seqZ 0 (sigmap_nentries (base st)) ≫= sig_slot_events st) ++
     kept (fun e => flag st e EVLIST_INSERTED)
       ((fun u => p_get (heap_p (timeheap (base st))) u) <$> seqZ 0 (heap_n (timeheap (base st)))) ++
     kept (fun e => flag st e EVLIST_INSERTED) (common_timeout_queues (base st) ≫= ctl_events) ++
     kept (active_skip st) (mjoin (activequeues (base st)))) _).
  { apply app_ok; [apply kept_ok, io_part, Hwf | |].
    - apply app_ok; [apply kept_ok, sig_part, Hwf | |].
      + apply app_ok; [apply kept_ok, heap_part, Hwf | |].
        * apply app_ok; [apply kept_ok, common_part, Hwf | apply kept_ok, active_part, Hwf |].
          intros e [[? ?] _] [_ (? & ? & ?)%active_skip_has]. congruence.
        * intros e [[? ?] _] [[[? ?] _] | [_ (? & ? & ?)%active_skip_has]]; congruence.
      + intros e [[? ?] _] [[_ ?] | [[_ ?] | [_ (? & ? & ?)%active_skip_has]]]; congruence.
    - intros e [(? & ? & ?) _] [[[? ?] _] | [[_ ?] | [[_ ?] | [_ (? & ? & ?)%active_skip_has]]]]; congruence. }
  destruct Hall as [ND Hm]. split; [exact ND|]. intros e. rewrite Hm, active_skip_has.
  destruct (flag st e EVLIST_INSERTED), (flag st e EVLIST_TIMEOUT), (is_io st e), (flag st e EVLIST_ACTIVE), (flag st e EVLIST_INIT),
    (is_common_timeout st (ev_timeout (get st e))); intuition congruence.
Qed.
End ForeachProps.

Lemma foreach_visits_once_witness : NoDup (visited demo3) /\ 2%nat ∈ visited demo3.
Proof.
  split; [apply (foreach_visits_once demo3 demo3_wf)|].
  apply (proj2 (proj2 (foreach_visits_once demo3 demo3_wf) 2%nat)). right. split; [vm_compute; reflexivity|]. left. vm_compute. reflexivity.
Defined.
