(* ===== verification/HashTable.v ===== *)
(** * Hash tables (ht-internal.h)

    The functions that HT_PROTOTYPE and HT_GENERATE generate.  An element is in
    memory at an address, with the pointer to the next element of its bucket
    and the cached value of its hash function; the buckets are the array of
    the table.  A function returns [None] where the code would follow a null
    pointer, read outside an array or divide by zero. *)
From S2P Require Import Prelude.
Open Scope Z_scope.

(** ** The hash functions of the header. *)
Definition ht_improve_hash_ (h : Z) : Z :=
  let h := u32 (h + Z.lxor (u32 (Z.shiftl h 9)) UINT32_MAX) in
  let h := Z.lxor h (Z.lor (Z.shiftr h 14) (u32 (Z.shiftl h 18))) in
  let h := u32 (h + u32 (Z.shiftl h 4)) in
  Z.lxor h (Z.lor (Z.shiftr h 10) (u32 (Z.shiftl h 22))).
(** The string [s] without its NUL. *)
Definition ht_string_hash_ (s : list Z) : Z :=
  let h := u32 (Z.shiftl (default 0 (head s)) 7) in
  Z.lxor (foldl (fun h c => Z.lxor (u32 (1000003 * h)) c) h s) (u32 (Z.of_nat (length s))).

(** ** What an instance of the table gives: the macro arguments [hashfn] and
    [eqfn], and the result of [(unsigned)(load*n)]. *)
Class HashType (K : Type) := { hashfn : K -> Z; eqfn : K -> K -> bool; load_of : Z -> Z }.

Section Table.
Context {K : Type} `{HT : HashType K}.

Record entry := Entry { key : K; hte_next : option Z; hte_hash : Z }.
(** The table with the memory of all elements. *)
Record ht := Ht { elts : gmap Z entry; hth_table : option (list (option Z)); hth_table_length : Z; hth_n_entries : Z; hth_load_limit : Z; hth_prime_idx : Z }.
(** A pointer to a pointer: a bucket, or the next field of an element. *)
Inductive place := Bucket (b : Z) | Next (e : Z).

Definition set_elts (w : ht) (m : gmap Z entry) : ht := Ht m (hth_table w) (hth_table_length w) (hth_n_entries w) (hth_load_limit w) (hth_prime_idx w).
Definition set_table (w : ht) (t : list (option Z)) : ht := Ht (elts w) (Some t) (hth_table_length w) (hth_n_entries w) (hth_load_limit w) (hth_prime_idx w).
Definition set_count (w : ht) (n : Z) : ht := Ht (elts w) (hth_table w) (hth_table_length w) (u32 n) (hth_load_limit w) (hth_prime_idx w).
Definition set_next (m : gmap Z entry) (e : Z) (p : option Z) : option (gmap Z entry) :=
  x ← m !! e; Some (<[e := Entry (key x) p (hte_hash x)]> m).

Definition arr_at {A} (t : list A) (b : Z) : option A := if b <? 0 then None else t !! Z.to_nat b.
(** Reading and writing through a place, on the memory and the array. *)
Definition read_at (m : gmap Z entry) (t : list (option Z)) (p : place) : option (option Z) :=
  match p with Bucket b => arr_at t b | Next e => hte_next <$> m !! e end.
Definition write_at (m : gmap Z entry) (t : list (option Z)) (p : place) (v : option Z) : option (gmap Z entry * list (option Z)) :=
  match p with
  | Bucket b => _ ← arr_at t b; Some (m, <[Z.to_nat b := v]> t)
  | Next e => m ← set_next m e v; Some (m, t)
  end.
Definition get (w : ht) (p : place) : option (option Z) := t ← hth_table w; read_at (elts w) t p.
Definition put (w : ht) (p : place) (v : option Z) : option ht :=
  t ← hth_table w; '(m, t) ← write_at (elts w) t p v; Some (set_table (set_elts w m) t).

Definition HT_INIT (w : ht) : ht := Ht (elts w) None 0 0 0 (-1).
Definition HT_EMPTY (w : ht) : bool := hth_n_entries w =? 0.
Definition HT_SIZE (w : ht) : Z := hth_n_entries w.
Definition HT_SET_HASH_ (w : ht) (elm : Z) : option ht :=
  x ← elts w !! elm; Some (set_elts w (<[elm := Entry (key x) (hte_next x) (hashfn (key x))]> (elts w))).
Definition HT_ELT_HASH_ (m : gmap Z entry) (elm : Z) : option Z := hte_hash <$> m !! elm.
Definition HT_BUCKET_ (w : ht) (elm : Z) : option place :=
  h ← HT_ELT_HASH_ (elts w) elm; if hth_table_length w =? 0 then None else Some (Bucket (h mod hth_table_length w)).

Fixpoint ht_find_loop (turns : nat) (w : ht) (p : place) (elm : Z) : option place :=
  match turns with
  | O => None
  | S turns =>
      q ← get w p;
      match q with
      | None => Some p
      | Some q => x ← elts w !! q; y ← elts w !! elm; if eqfn (key x) (key y) then Some p else ht_find_loop turns w (Next q) elm
      end
  end.
(** More turns than there are elements in memory. *)
Definition walk (w : ht) : nat := S (size (elts w)).
Definition HT_FIND_P_ (w : ht) (elm : Z) : option (option place) :=
  match hth_table w with
  | None => Some None
  | Some _ => p ← HT_BUCKET_ w elm; p ← ht_find_loop (walk w) w p elm; Some (Some p)
  end.
Definition HT_FIND (w : ht) (elm : Z) : option (option Z * ht) :=
  w ← HT_SET_HASH_ w elm; p ← HT_FIND_P_ w elm;
  match p with Some p => q ← get w p; Some (q, w) | None => Some (None, w) end.

(** ** Growing. *)
Definition PRIMES : list Z :=
  [53; 97; 193; 389; 769; 1543; 3079; 6151; 12289; 24593; 49157; 98317; 196613; 393241; 786433; 1572869;
   3145739; 6291469; 12582917; 25165843; 50331653; 100663319; 201326611; 402653189; 805306457; 1610612741].
Definition N_PRIMES : Z := Z.of_nat (length PRIMES).
(** The loop that looks for a length: the new length, its limit and index. *)
Fixpoint grow_loop (turns : nat) (size prime_idx : Z) : option (Z * Z * Z) :=
  match turns with
  | O => None
  | S turns =>
      let prime_idx := prime_idx + 1 in
      new_len ← arr_at PRIMES prime_idx;
      let new_load_limit := load_of new_len in
      if (new_load_limit <=? size) && (prime_idx <? N_PRIMES) then grow_loop turns size prime_idx else Some (new_len, new_load_limit, prime_idx)
  end.
(** Moving a bucket to a new array. *)
Fixpoint move_bucket (turns : nat) (m : gmap Z entry) (new_table : list (option Z)) (new_len : Z) (elm : option Z) : option (gmap Z entry * list (option Z)) :=
  match elm with
  | None => Some (m, new_table)
  | Some e =>
      match turns with
      | O => None
      | S turns =>
          x ← m !! e; let next := hte_next x in
          let b2 := hte_hash x mod new_len in
          top ← arr_at new_table b2; m ← set_next m e top;
          move_bucket turns m (<[Z.to_nat b2 := Some e]> new_table) new_len next
      end
  end.
Fixpoint move_buckets (turns : nat) (m : gmap Z entry) (old new_table : list (option Z)) (new_len : Z) (bs : list Z) : option (gmap Z entry * list (option Z)) :=
  match bs with
  | [] => Some (m, new_table)
  | b :: bs => elm ← arr_at old b; '(m, new_table) ← move_bucket turns m new_table new_len elm; move_buckets turns m old new_table new_len bs
  end.
(** Spreading bucket [b] of an array that became longer. *)
Fixpoint spread_bucket (turns : nat) (m : gmap Z entry) (t : list (option Z)) (new_len b : Z) (pE : place) : option (gmap Z entry * list (option Z)) :=
  e ← read_at m t pE;
  match e with
  | None => Some (m, t)
  | Some e =>
      match turns with
      | O => None
      | S turns =>
          x ← m !! e; let b2 := hte_hash x mod new_len in
          if b2 =? b then spread_bucket turns m t new_len b (Next e)
          else
            '(m, t) ← write_at m t pE (hte_next x);
            top ← arr_at t b2; m ← set_next m e top;
            spread_bucket turns m (<[Z.to_nat b2 := Some e]> t) new_len b pE
      end
  end.
Fixpoint spread_buckets (turns : nat) (m : gmap Z entry) (t : list (option Z)) (new_len : Z) (bs : list Z) : option (gmap Z entry * list (option Z)) :=
  match bs with
  | [] => Some (m, t)
  | b :: bs => '(m, t) ← spread_bucket turns m t new_len b (Bucket b); spread_buckets turns m t new_len bs
  end.
(** The indices of an array from [from] on. *)
Definition indices (from len : Z) : list Z := map Z.of_nat (seq (Z.to_nat from) (Z.to_nat len - Z.to_nat from)).
(** [malloc_ok] and [realloc_ok] say what the two allocations would give. *)
Definition HT_GROW (malloc_ok realloc_ok : bool) (w : ht) (size : Z) : option (Z * ht) :=
  if hth_prime_idx w =? N_PRIMES - 1 then Some (0, w)
  else if size <? hth_load_limit w then Some (0, w)
  else
    '(new_len, new_load_limit, prime_idx) ← grow_loop (S (length PRIMES)) size (hth_prime_idx w);
    let done r := '(m, t) ← r; Some (0, Ht m (Some t) new_len (hth_n_entries w) new_load_limit prime_idx) in
    let old := default [] (hth_table w) in
    if malloc_ok then done (move_buckets (walk w) (elts w) old (replicate (Z.to_nat new_len) None) new_len (indices 0 (hth_table_length w)))
    else if negb realloc_ok then Some (-1, w)
    else done (spread_buckets (walk w) (elts w) (old ++ replicate (Z.to_nat (new_len - hth_table_length w)) None) new_len (indices 0 (hth_table_length w))).
Definition grow_if_full (malloc_ok realloc_ok : bool) (w : ht) : option ht :=
  if bool_decide (hth_table w = None) || (hth_load_limit w <=? hth_n_entries w) then snd <$> HT_GROW malloc_ok realloc_ok w (u32 (hth_n_entries w + 1)) else Some w.

(** ** Inserting and removing. *)
Definition HT_INSERT (malloc_ok realloc_ok : bool) (w : ht) (elm : Z) : option ht :=
  w ← grow_if_full malloc_ok realloc_ok w;
  w ← HT_SET_HASH_ (set_count w (hth_n_entries w + 1)) elm;
  p ← HT_BUCKET_ w elm; q ← get w p;
  m ← set_next (elts w) elm q; put (set_elts w m) p (Some elm).
Definition HT_REPLACE (malloc_ok realloc_ok : bool) (w : ht) (elm : Z) : option (option Z * ht) :=
  w ← grow_if_full malloc_ok realloc_ok w;
  w ← HT_SET_HASH_ w elm;
  p ← HT_FIND_P_ w elm; p ← p; r ← get w p; w ← put w p (Some elm);
  let added := Some (None, set_count w (hth_n_entries w + 1)) in
  match r with
  | Some r =>
      if r =? elm then added
      else x ← elts w !! r; m ← set_next (elts w) elm (hte_next x); m ← set_next m r None; Some (Some r, set_elts w m)
  | None => added
  end.
Definition HT_REMOVE (w : ht) (elm : Z) : option (option Z * ht) :=
  w ← HT_SET_HASH_ w elm; p ← HT_FIND_P_ w elm;
  match p with
  | None => Some (None, w)
  | Some p =>
      r ← get w p;
      match r with
      | None => Some (None, w)
      | Some r =>
          x ← elts w !! r; w ← put w p (hte_next x); m ← set_next (elts w) r None;
          Some (Some r, set_count (set_elts w m) (hth_n_entries w - 1))
      end
  end.
(** The macro HT_FIND_OR_INSERT_ up to its branches: the element found if any, and the
    place for a new one; and HT_FOI_INSERT_ for the new one. *)
Definition HT_FIND_OR_INSERT_ (malloc_ok realloc_ok : bool) (w : ht) (elm : Z) : option (option Z * place * ht) :=
  w ← grow_if_full malloc_ok realloc_ok w;
  w ← HT_SET_HASH_ w elm; p ← HT_FIND_P_ w elm; p ← p; q ← get w p; Some (q, p, w).
Definition HT_FOI_INSERT_ (w : ht) (elm newent : Z) (var : place) : option ht :=
  h ← HT_ELT_HASH_ (elts w) elm; x ← elts w !! newent;
  w ← put (set_elts w (<[newent := Entry (key x) None h]> (elts w))) var (Some newent);
  Some (set_count w (hth_n_entries w + 1)).

(** ** Visiting the elements. *)
Section Foreach.
Context {D : Type} (fn : D -> Z -> K -> bool * D).
Fixpoint foreach_bucket (turns : nat) (w : ht) (p : place) (data : D) : option (ht * D) :=
  q ← get w p;
  match q with
  | None => Some (w, data)
  | Some e =>
      match turns with
      | O => None
      | S turns =>
          x ← elts w !! e;
          let '(r, data) := fn data e (key x) in
          if r then w ← put (set_count w (hth_n_entries w - 1)) p (hte_next x); foreach_bucket turns w p data
          else foreach_bucket turns w (Next e) data
      end
  end.
Fixpoint foreach_buckets (turns : nat) (w : ht) (bs : list Z) (data : D) : option (ht * D) :=
  match bs with [] => Some (w, data) | b :: bs => '(w, data) ← foreach_bucket turns w (Bucket b) data; foreach_buckets turns w bs data end.
Definition HT_FOREACH_FN (w : ht) (data : D) : option (ht * D) :=
  match hth_table w with None => Some (w, data) | Some _ => foreach_buckets (walk w) w (indices 0 (hth_table_length w)) data end.
End Foreach.

(** The first bucket of these that is not empty. *)
Fixpoint first_bucket (w : ht) (bs : list Z) : option (option place) :=
  match bs with
  | [] => Some None
  | b :: bs => q ← get w (Bucket b); match q with Some _ => Some (Some (Bucket b)) | None => first_bucket w bs end
  end.
Definition HT_START (w : ht) : option (option place) := first_bucket w (indices 0 (hth_table_length w)).
Definition next_bucket (w : ht) (hash : Z) : option (option place) :=
  if hth_table_length w =? 0 then None else first_bucket w (indices (hash mod hth_table_length w + 1) (hth_table_length w)).
Definition HT_NEXT (w : ht) (elm : place) : option (option place) :=
  e ← get w elm; e ← e; x ← elts w !! e;
  match hte_next x with Some _ => Some (Some (Next e)) | None => next_bucket w (hte_hash x) end.
Definition HT_NEXT_RMV (w : ht) (elm : place) : option (option place * ht) :=
  e ← get w elm; e ← e; x ← elts w !! e;
  w ← put w elm (hte_next x);
  let w := set_count w (hth_n_entries w - 1) in
  match hte_next x with Some _ => Some (Some elm, w) | None => p ← next_bucket w (hte_hash x); Some (p, w) end.
(** The loop of HT_FOREACH, giving the elements it visits. *)
Fixpoint foreach_loop (turns : nat) (w : ht) (x : option place) : option (list Z) :=
  match x with
  | None => Some []
  | Some p =>
      match turns with
      | O => None
      | S turns => e ← get w p; e ← e; next ← HT_NEXT w p; l ← foreach_loop turns w next; Some (e :: l)
      end
  end.
Definition HT_FOREACH (w : ht) : option (list Z) := x ← HT_START w; foreach_loop (walk w) w x.
Definition HT_CLEAR (w : ht) : ht := HT_INIT w.
(** The loops that remove and free every element, as of evmap_io_clear_ and
    event_disable_debug_mode, giving the elements freed. *)
Fixpoint clear_loop (turns : nat) (w : ht) (ent : option place) : option (list Z * ht) :=
  match ent with
  | None => Some ([], w)
  | Some p =>
      match turns with
      | O => None
      | S turns =>
          this ← get w p; this ← this;
          '(next, w) ← HT_NEXT_RMV w p;
          '(l, w) ← clear_loop turns (set_elts w (delete this (elts w))) next; Some (this :: l, w)
      end
  end.
Definition clear_table (w : ht) : option (list Z * ht) :=
  ent ← HT_START w; '(l, w) ← clear_loop (walk w) w ent; Some (l, HT_CLEAR w).

(** ** The check of a table: what is counted and the first thing that is bad. *)
Fixpoint rep_bucket (turns : nat) (w : ht) (i n : Z) (elm : option Z) : option (Z + Z) :=
  match elm with
  | None => Some (inl n)
  | Some e =>
      match turns with
      | O => None
      | S turns =>
          x ← elts w !! e;
          if negb (hte_hash x =? hashfn (key x)) then Some (inr (1000 + i))
          else if negb (hte_hash x mod hth_table_length w =? i) then Some (inr (10000 + i))
          else rep_bucket turns w i (u32 (n + 1)) (hte_next x)
      end
  end.
Fixpoint rep_buckets (turns : nat) (w : ht) (idxs : list Z) (n : Z) : option (Z + Z) :=
  match idxs with
  | [] => Some (inl n)
  | i :: idxs => q ← get w (Bucket i); r ← rep_bucket turns w i n q; match r with inl n => rep_buckets turns w idxs n | inr _ => Some r end
  end.
Definition HT_REP_IS_BAD_ (w : ht) : option Z :=
  let no_table := bool_decide (hth_table w = None) in
  if hth_table_length w =? 0 then
    Some (if no_table && (hth_n_entries w =? 0) && (hth_load_limit w =? 0) && (hth_prime_idx w =? -1) then 0 else 1)
  else if no_table || (hth_prime_idx w <? 0) || (hth_load_limit w =? 0) then Some 2
  else if hth_load_limit w <? hth_n_entries w then Some 3
  else
    prime ← arr_at PRIMES (hth_prime_idx w);
    if negb (hth_table_length w =? prime) then Some 4
    else if negb (hth_load_limit w =? load_of (hth_table_length w)) then Some 5
    else
      r ← rep_buckets (walk w) w (indices 0 (hth_table_length w)) 0;
      Some (match r with inl n => if n =? hth_n_entries w then 0 else 6 | inr bad => bad end).
End Table.
Arguments entry K : clear implicits.
Arguments ht K : clear implicits.
