(* ===== verification/HashInv.v ===== *)
(** * The buckets of a hash table

    [rep m t bs]: in the memory [m] the array [t] holds the chains [bs].  The
    lemmas say what reading and writing through a pointer into a chain, and
    moving elements to other chains, do to [bs]. *)
From S2P Require Import Prelude HashTable.
Open Scope Z_scope.

Section Buckets.
Context {K : Type}.
Implicit Types (m : gmap Z (entry K)) (t : list (option Z)) (bs : list (list Z)) (l : list Z).

Fixpoint chain m (p : option Z) l : Prop :=
  match l with [] => p = None | x :: l => p = Some x /\ exists e, m !! x = Some e /\ chain m (hte_next e) l end.
Definition rep m t bs : Prop := Forall2 (chain m) t bs /\ NoDup (concat bs).
(** Only next fields differ. *)
Definition fixed m m' : Prop := forall x, (fun e => (key e, hte_hash e)) <$> m !! x = (fun e => (key e, hte_hash e)) <$> m' !! x.
(** Nothing but the elements [l] differs. *)
Definition outside l m m' : Prop := forall x, x ∉ l -> m' !! x = m !! x.
Definition place_of (b : nat) (pre : list Z) : place := match last pre with None => Bucket (Z.of_nat b) | Some x => Next x end.

#[export] Instance fixed_equivalence : Equivalence fixed.
Proof. split; [by intros m x | by intros m m' E x | by intros m m' m'' E F x; rewrite E]. Qed.

Lemma fixed_dom m m' x : fixed m m' -> is_Some (m !! x) -> is_Some (m' !! x).
Proof. intros F [e He]. specialize (F x). rewrite He in F. destruct (m' !! x); [by eexists | done]. Qed.
Lemma fixed_entry m m' x e : fixed m m' -> m !! x = Some e -> exists p, m' !! x = Some (Entry (key e) p (hte_hash e)).
Proof. intros F He. specialize (F x). rewrite He in F. destruct (m' !! x) as [[k p h]|]; [|done]. inversion F; subst. by exists p. Qed.
Lemma fixed_size m m' : fixed m m' -> size m = size m'.
Proof.
  intros F. rewrite <- !size_dom. f_equal. apply set_eq. intros x. rewrite !elem_of_dom. split; apply fixed_dom; [done | by symmetry].
Qed.
Lemma set_next_ok m x e p : m !! x = Some e -> exists m', set_next m x p = Some m' /\ m' = <[x := Entry (key e) p (hte_hash e)]> m /\ fixed m m'.
Proof.
  intros He. unfold set_next. rewrite He. eexists. split_and!; [done | done |]. intros y.
  destruct (decide (x = y)) as [<-|Hn]; [by rewrite lookup_insert_eq, He | by rewrite lookup_insert_ne].
Qed.

Lemma chain_frame m m' l : forall p, (forall x, x ∈ l -> m' !! x = m !! x) -> chain m p l -> chain m' p l.
Proof.
  induction l as [|x l IH]; intros p Hm; [done|]. intros (-> & e & He & Hc). split; [done|]. exists e.
  rewrite Hm by set_solver. split; [done|]. apply IH; [set_solver | done].
Qed.
Lemma chain_head m p l : chain m p l -> p = head l.
Proof. destruct l; [done|]. by intros [-> _]. Qed.
Lemma chain_app m pre post : forall p, chain m p (pre ++ post) ->
  match last pre with None => p = head post | Some x => exists e, m !! x = Some e /\ hte_next e = head post end /\ chain m (head post) post.
Proof.
  induction pre as [|x pre IH]; intros p Hc.
  - cbn in *. pose proof (chain_head _ _ _ Hc) as ->. done.
  - destruct Hc as (-> & e & He & Hc). destruct (IH _ Hc) as [H1 H2]. split; [|done]. rewrite last_cons. destruct (last pre); [done|]. by exists e.
Qed.
Lemma chain_dom m p l x : chain m p l -> x ∈ l -> is_Some (m !! x).
Proof.
  revert p. induction l as [|y l IH]; intros p; [by intros _ ?%elem_of_nil|]. intros (-> & e & He & Hc) [->|Hx]%elem_of_cons; [by eexists | by eapply IH].
Qed.
(** The chain behind a field that is written. *)
Lemma chain_write m pre v post' x e : forall p post, last pre = Some x -> m !! x = Some e -> chain m p (pre ++ post) -> NoDup pre -> x ∉ post' -> chain m v post' ->
  chain (<[x := Entry (key e) v (hte_hash e)]> m) p (pre ++ post').
Proof.
  induction pre as [|y pre IH]; intros p post Hl He Hc ND Hx Hv; [done|]. destruct Hc as (-> & f & Hf & Hc). apply NoDup_cons in ND as [Hy ND]. cbn. split; [done|].
  rewrite last_cons in Hl. destruct (last pre) as [z|] eqn:Hz.
  - injection Hl as ->. assert (y <> x). { intros ->. apply Hy. apply last_Some in Hz as [q ->]. set_solver. }
    exists f. rewrite lookup_insert_ne by done. split; [done|]. by eapply IH.
  - injection Hl as ->. apply last_None in Hz as ->. cbn in *. replace f with e in * by congruence. eexists. rewrite lookup_insert_eq. split; [done|]. cbn.
    apply (chain_frame m); [|done]. intros z Hz. rewrite lookup_insert_ne; [done | congruence].
Qed.

(** ** Chains of the array. *)
Lemma buckets_split bs b l : bs !! b = Some l -> exists rest, concat bs ≡ₚ l ++ rest /\ forall l', concat (<[b := l']> bs) ≡ₚ l' ++ rest.
Proof.
  intros Hb. exists (concat (take b bs) ++ concat (drop (S b) bs)). assert (Hlt := lookup_lt_Some _ _ _ Hb). split.
  - rewrite <- (take_drop_middle bs b l Hb) at 1. rewrite concat_app. cbn. solve_Permutation.
  - intros l'. rewrite insert_take_drop, concat_app by done. cbn. solve_Permutation.
Qed.
Lemma elem_of_concat bs x : x ∈ concat bs <-> exists b l, bs !! b = Some l /\ x ∈ l.
Proof.
  rewrite list_elem_of_In, in_concat. split.
  - intros (l & Hl & Hx). apply list_elem_of_In, list_elem_of_lookup in Hl as [b Hb]. exists b, l. by rewrite list_elem_of_In.
  - intros (b & l & Hb & Hx). exists l. rewrite <- !list_elem_of_In. split; [by eapply list_elem_of_lookup_2 | done].
Qed.
Lemma rep_dom m t bs x : rep m t bs -> x ∈ concat bs -> is_Some (m !! x).
Proof.
  intros [F _] (b & l & Hb & Hx)%elem_of_concat. destruct (Forall2_lookup_r _ _ _ _ _ F Hb) as (p & _ & Hc). by eapply chain_dom.
Qed.
Lemma rep_length m t bs : rep m t bs -> length t = length bs.
Proof. intros [F _]. by eapply Forall2_length. Qed.
Lemma chains_frame m m' t bs : (forall x, x ∈ concat bs -> m' !! x = m !! x) -> Forall2 (chain m) t bs -> Forall2 (chain m') t bs.
Proof.
  intros Hm F. induction F as [|p l t bs Hp F IH]; cbn in *; constructor; [|apply IH; set_solver]. apply (chain_frame m); [set_solver | done].
Qed.
Lemma rep_frame m m' t bs : (forall x, x ∈ concat bs -> m' !! x = m !! x) -> rep m t bs -> rep m' t bs.
Proof. intros Hm [F ND]. split; [by eapply chains_frame | done]. Qed.
Lemma rep_bound m t bs : rep m t bs -> (length (concat bs) <= size m)%nat.
Proof.
  intros R. rewrite <- size_dom, <- (size_list_to_set (C := gset Z)) by apply R. apply subseteq_size. intros x. rewrite elem_of_list_to_set, elem_of_dom. by eapply rep_dom.
Qed.
Lemma bucket_bound m t bs b l : rep m t bs -> bs !! b = Some l -> (length l <= size m)%nat.
Proof.
  intros R Hb. pose proof (rep_bound _ _ _ R). destruct (buckets_split _ _ _ Hb) as (rest & E & _). rewrite E, length_app in H. lia.
Qed.
Lemma bucket_nodup m t bs b l : rep m t bs -> bs !! b = Some l -> NoDup l.
Proof. intros [_ ND] Hb. destruct (buckets_split _ _ _ Hb) as (rest & E & _). rewrite E in ND. by apply NoDup_app in ND as [? _]. Qed.
Lemma arr_at_lookup {A} (a : list A) b : arr_at a (Z.of_nat b) = a !! b.
Proof. unfold arr_at. rewrite (proj2 (Z.ltb_ge _ 0)) by lia. by rewrite Nat2Z.id. Qed.

Lemma get_place m t bs b pre post : rep m t bs -> bs !! b = Some (pre ++ post) -> read_at m t (place_of b pre) = Some (head post).
Proof.
  intros [F _] Hb. destruct (Forall2_lookup_r _ _ _ _ _ F Hb) as (p & Hp & Hc). destruct (chain_app _ _ _ _ Hc) as [Hl _]. unfold place_of, read_at.
  destruct (last pre) as [x|]; [destruct Hl as (e & -> & E); cbn; by rewrite E | rewrite arr_at_lookup; by subst].
Qed.
Lemma at_place m t bs b pre x post : rep m t bs -> bs !! b = Some (pre ++ x :: post) -> exists e, m !! x = Some e /\ hte_next e = head post /\ chain m (head post) post.
Proof.
  intros [F _] Hb. destruct (Forall2_lookup_r _ _ _ _ _ F Hb) as (p & Hp & Hc). destruct (chain_app _ _ _ _ Hc) as [_ (_ & e & He & Hn)]. exists e. pose proof (chain_head _ _ _ Hn) as E. by rewrite E in *.
Qed.
Lemma place_snoc b pre x : place_of b (pre ++ [x]) = Next x.
Proof. unfold place_of. by rewrite last_snoc. Qed.

Lemma put_place m t bs b pre post v post' : rep m t bs -> bs !! b = Some (pre ++ post) -> chain m v post' -> NoDup (concat (<[b := pre ++ post']> bs)) ->
  exists m' t', write_at m t (place_of b pre) v = Some (m', t') /\ rep m' t' (<[b := pre ++ post']> bs) /\ fixed m m' /\ (forall x, last pre <> Some x -> m' !! x = m !! x).
Proof.
  intros R Hb Hv ND'. destruct R as [F ND]. destruct (Forall2_lookup_r _ _ _ _ _ F Hb) as (p & Hp & Hc). unfold place_of. destruct (last pre) as [x|] eqn:Hl.
  - destruct (chain_app _ _ _ _ Hc) as [Hx _]. rewrite Hl in Hx. destruct Hx as (e & He & _). destruct (set_next_ok m x e v He) as (m' & E & Em & Hf). cbn. rewrite E. cbn.
    exists m', t. split_and!; [done | | done |]; [|intros y Hy; rewrite Em, lookup_insert_ne; congruence]. split; [|done].
    destruct (buckets_split _ _ _ Hb) as (rest & E1 & E2). rewrite E1 in ND. rewrite E2 in ND'.
    assert (Hpre : x ∈ pre) by (apply last_Some in Hl as [q ->]; set_solver).
    apply Forall2_same_length_lookup. rewrite length_insert. split; [by eapply Forall2_length|]. intros c q l Hq Hlk.
    rewrite list_lookup_insert_Some in Hlk. destruct Hlk as [(-> & <- & _)|[Hne Hlk]].
    + replace q with p in * by congruence. rewrite <- app_assoc in ND'. apply NoDup_app in ND' as (NDp & Hdis & _). rewrite Em.
      eapply chain_write; try done. intros Hx'. apply (Hdis x); [done|]. set_solver.
    + apply (chain_frame m); [|by eapply Forall2_lookup_lr]. intros y Hy. rewrite Em, lookup_insert_ne; [done|]. intros <-.
      destruct (buckets_split bs c l Hlk) as (rest' & E3 & _). apply NoDup_app in ND as (_ & Hdis & _).
      assert (Hbc : <[b:=[]]> bs !! c = Some l) by by rewrite list_lookup_insert_ne. apply (Hdis x); [set_solver|]. specialize (E2 []). cbn in E2. rewrite <- E2. apply elem_of_concat. by exists c, l.
  - apply last_None in Hl as ->. cbn. rewrite arr_at_lookup, Hp. cbn. rewrite Nat2Z.id. exists m, (<[b := v]> t). split_and!; try done. split; [|done]. by apply Forall2_insert.
Qed.

(** A new element at the front of a chain. *)
Lemma push_front m t bs b l e x : rep m t bs -> bs !! b = Some l -> e ∉ concat bs -> m !! e = Some x ->
  arr_at t (Z.of_nat b) = Some (head l) /\ exists m', set_next m e (head l) = Some m' /\ rep m' (<[b := Some e]> t) (<[b := e :: l]> bs) /\ fixed m m' /\ outside [e] m m'.
Proof.
  intros R Hb He Hx. pose proof (get_place m t bs b [] l R Hb) as G. cbn in G. split; [done|]. destruct (set_next_ok m e x (head l) Hx) as (m' & E & Em & Hf). exists m'. split; [done|]. split; [|split; [done|]; intros y Hy; rewrite Em, lookup_insert_ne; [done | set_solver]].
  assert (R' : rep m' t bs). { apply (rep_frame m); [|done]. intros y Hy. rewrite Em, lookup_insert_ne; [done|]. by intros <-. }
  destruct (put_place m' t bs b [] l (Some e) (e :: l) R' Hb) as (m2 & t2 & E2 & R2 & _).
  - cbn. split; [done|]. exists (Entry (key x) (head l) (hte_hash x)). split; [by rewrite Em, lookup_insert_eq|]. cbn. destruct R' as [F _].
    destruct (Forall2_lookup_r _ _ _ _ _ F Hb) as (p & _ & Hc). by rewrite <- (chain_head _ _ _ Hc).
  - destruct (buckets_split _ _ _ Hb) as (rest & E1 & E2). cbn. rewrite E2. cbn. constructor; [|destruct R as [_ ND]; by rewrite E1 in ND]. by rewrite <- E1.
  - cbn in E2. rewrite arr_at_lookup in E2. destruct (t !! b); [|done]. cbn in E2. rewrite Nat2Z.id in E2. by injection E2 as <- <-.
Qed.
Lemma push_concat bs b l e : bs !! b = Some l -> concat (<[b := e :: l]> bs) ≡ₚ e :: concat bs.
Proof. intros Hb. destruct (buckets_split _ _ _ Hb) as (rest & E1 & E2). by rewrite E2, E1. Qed.
Lemma cut_concat bs b pre x post : bs !! b = Some (pre ++ x :: post) -> concat bs ≡ₚ x :: concat (<[b := pre ++ post]> bs).
Proof. intros Hb. destruct (buckets_split _ _ _ Hb) as (rest & E1 & E2). rewrite E2, E1. solve_Permutation. Qed.
(** Unlinking an element. *)
Lemma unlink m t bs b pre x post e : rep m t bs -> bs !! b = Some (pre ++ x :: post) -> m !! x = Some e ->
  exists m' t', write_at m t (place_of b pre) (hte_next e) = Some (m', t') /\ rep m' t' (<[b := pre ++ post]> bs) /\ fixed m m' /\ m' !! x = Some e /\ outside (concat bs) m m'.
Proof.
  intros R Hb He. destruct (at_place _ _ _ _ _ _ _ R Hb) as (e' & He' & Hn & Hc). replace e' with e in * by congruence. rewrite Hn.
  pose proof (cut_concat _ _ _ _ _ Hb) as E. assert (ND := proj2 R). rewrite E in ND. apply NoDup_cons in ND as [Hx ND].
  destruct (put_place m t bs b pre (x :: post) (head post) post R Hb Hc ND) as (m' & t' & E1 & R' & F & G). exists m', t'.
  assert (Hlast : forall y, last pre = Some y -> y ∈ concat (<[b := pre ++ post]> bs)).
  { intros y Hl. apply elem_of_concat. exists b, (pre ++ post). split; [rewrite list_lookup_insert_eq; [done|]; by eapply lookup_lt_Some|]. apply last_Some in Hl as [q ->]. set_solver. }
  split_and!; try done; [rewrite G; [done|]; by intros Hl%Hlast|]. intros y Hy. apply G. intros Hl%Hlast. apply Hy. rewrite E. set_solver.
Qed.

(** Putting an element in the place of another. *)
Lemma swap_lists (e r : Z) pre post rest : NoDup ((pre ++ r :: post) ++ rest) -> e ∉ (pre ++ r :: post) ++ rest ->
  NoDup ((pre ++ e :: post) ++ rest) /\ NoDup ((pre ++ [e]) ++ rest) /\ e <> r /\ r ∉ (pre ++ e :: post) ++ rest /\ (forall x, x ∈ pre -> x <> e /\ x <> r /\ x ∉ post).
Proof.
  intros ND He. assert (P : (pre ++ r :: post) ++ rest ≡ₚ r :: pre ++ post ++ rest) by solve_Permutation. rewrite P in ND, He. apply NoDup_cons in ND as [Hr ND]. apply not_elem_of_cons in He as [Hne He].
  assert (Q : (pre ++ e :: post) ++ rest ≡ₚ e :: pre ++ post ++ rest) by solve_Permutation. rewrite Q. assert (ND' : NoDup (e :: pre ++ post ++ rest)) by by constructor. split; [done|]. split.
  - assert (Q' : e :: pre ++ post ++ rest ≡ₚ post ++ (pre ++ [e]) ++ rest) by solve_Permutation. rewrite Q' in ND'. by apply NoDup_app in ND' as (_ & _ & ?).
  - split; [done|]. split; [apply not_elem_of_cons; split; [congruence | done]|]. intros x Hx. apply NoDup_app in ND as (_ & Hd & _).
    split_and!; [intros ->; apply He, elem_of_app; by left | intros ->; apply Hr, elem_of_app; by left |]. intros Hp. apply (Hd x Hx), elem_of_app. by left.
Qed.
Lemma last_in (pre : list Z) x : last pre = Some x -> x ∈ pre.
Proof. intros [q ->]%last_Some. apply elem_of_app. right. by left. Qed.
Lemma swap m t bs b pre r post e f : rep m t bs -> bs !! b = Some (pre ++ r :: post) -> e ∉ concat bs -> (exists y, m !! e = Some y /\ hte_next y = None) -> m !! r = Some f ->
  exists m1 t1 m2 m3, write_at m t (place_of b pre) (Some e) = Some (m1, t1) /\ m1 !! r = Some f /\ set_next m1 e (hte_next f) = Some m2 /\ set_next m2 r None = Some m3 /\
    rep m3 t1 (<[b := pre ++ e :: post]> bs) /\ fixed m m3 /\ outside (e :: concat bs) m m3 /\ (exists g, m3 !! r = Some g /\ hte_next g = None).
Proof.
  intros R Hb He (y & Hy & Hyn) Hf. destruct (at_place _ _ _ _ _ _ _ R Hb) as (f' & Hf' & Hnx & Hcp). replace f' with f in * by congruence. rewrite Hnx.
  destruct (buckets_split _ _ _ Hb) as (rest & C1 & C2). assert (ND := proj2 R). rewrite C1 in ND. assert (He' := He). rewrite C1 in He'. destruct (swap_lists e r pre post rest ND He') as (N1 & N2 & Hne & Hr & Hpre).
  destruct (put_place m t bs b pre (r :: post) (Some e) [e] R Hb) as (m1 & t1 & E1 & R1 & F1 & G1); [cbn; split; [done|]; by exists y | by rewrite C2 |].
  set (bs1 := <[b := pre ++ [e]]> bs) in *. assert (Hlt := lookup_lt_Some _ _ _ Hb).
  assert (Eb : <[b := (pre ++ [e]) ++ post]> bs1 = <[b := pre ++ e :: post]> bs) by (unfold bs1; rewrite list_insert_insert_eq, <- app_assoc; done).
  destruct (put_place m1 t1 bs1 b (pre ++ [e]) [] (head post) post R1) as (m2 & t2 & E2 & R2 & F2 & G2).
  { unfold bs1. rewrite app_nil_r. by apply list_lookup_insert_eq. }
  { apply (chain_frame m); [|done]. intros x Hx. apply G1. intros Hl%last_in. by destruct (Hpre x Hl) as (_ & _ & ?). }
  { by rewrite Eb, C2. }
  rewrite Eb in R2. rewrite place_snoc in E2. cbn [write_at] in E2. destruct (set_next m1 e (head post)) as [m2'|] eqn:En; [|done]. cbn [mbind option_bind] in E2. injection E2 as -> <-.
  assert (Hr2 : is_Some (m2 !! r)) by (apply (fixed_dom m); [by rewrite F1 | by eexists]). destruct Hr2 as [g Hg]. destruct (set_next_ok m2 r g None Hg) as (m3 & E3 & Em3 & F3).
  exists m1, t1, m2, m3. split_and!; [done | | done | done | | by rewrite F1, F2 | | rewrite Em3, lookup_insert_eq; by eexists].
  - rewrite G1; [done|]. intros Hl%last_in. by destruct (Hpre r Hl) as (_ & ? & _).
  - apply (rep_frame m2); [|done]. intros x Hx. rewrite Em3, lookup_insert_ne; [done|]. intros <-. by rewrite C2 in Hx.
  - intros x [Hxe Hx]%not_elem_of_cons. rewrite C1 in Hx. assert (Hin : forall z, z ∈ pre \/ z = r -> z ∈ (pre ++ r :: post) ++ rest) by (intros z Hz; rewrite !elem_of_app, elem_of_cons; tauto).
    rewrite Em3, lookup_insert_ne by (intros <-; apply Hx, Hin; by right). rewrite G2, G1; [done | intros Hl%last_in; apply Hx, Hin; by left | rewrite last_snoc; congruence].
Qed.
End Buckets.

(** * Hash tables grow

    The invariant [table_ok] of a hash table with the buckets [bs], and that
    growing keeps it and the elements, whichever of the two ways is taken. *)
(** What an instance promises: [eqfn] is an equivalence that [hashfn] respects,
    and every length allows some elements. *)
Class HashLaws (K : Type) `{HashType K} := {
  #[global] eqfn_equiv :: Equivalence (fun a b : K => eqfn a b = true);
  eqfn_hash : forall a b : K, eqfn a b = true -> hashfn a = hashfn b;
  load_pos : forall p, p ∈ PRIMES -> 0 < load_of p }.
(** Tables of as many elements do not outgrow the last prime. *)
Definition max_load `{HashType K} : Z := Z.min (load_of 1610612741) (2 ^ 32).

Section Grow.
Context {K : Type} `{HashType K}.
Implicit Types (m : gmap Z (entry K)) (t : list (option Z)) (bs : list (list Z)) (l : list Z) (w : ht K).

Definition hash_of m x : Z := default 0 (hte_hash <$> m !! x).
Definition placed m (n : Z) x (b : nat) : Prop := hash_of m x mod n = Z.of_nat b.
Record table_ok w bs : Prop := {
  ok_table : match hth_table w with Some t => rep (elts w) t bs /\ hth_table_length w = Z.of_nat (length t) | None => bs = [] /\ hth_table_length w = 0 end;
  ok_placed : forall b l x, bs !! b = Some l -> x ∈ l -> placed (elts w) (hth_table_length w) x b;
  ok_hash : forall x e, x ∈ concat bs -> elts w !! x = Some e -> hte_hash e = hashfn (key e);
  ok_keys : forall x y e f, x ∈ concat bs -> y ∈ concat bs -> elts w !! x = Some e -> elts w !! y = Some f -> eqfn (key e) (key f) = true -> x = y;
  ok_count : hth_n_entries w = Z.of_nat (length (concat bs));
  ok_small : Z.of_nat (length (concat bs)) < 2 ^ 32;
  ok_prime : match hth_table w with
             | Some _ => arr_at PRIMES (hth_prime_idx w) = Some (hth_table_length w) /\ hth_load_limit w = load_of (hth_table_length w)
             | None => hth_prime_idx w = -1 /\ hth_load_limit w = 0
             end }.

Lemma fixed_hash m m' x : fixed m m' -> hash_of m' x = hash_of m x.
Proof. intros F. specialize (F x). unfold hash_of. destruct (m !! x), (m' !! x); inversion F; cbn; congruence. Qed.
Lemma fixed_placed m m' n x b : fixed m m' -> placed m' n x b <-> placed m n x b.
Proof. intros F. unfold placed. by rewrite (fixed_hash m m'). Qed.
Lemma entry_placed m x e n : m !! x = Some e -> 0 < n -> placed m n x (Z.to_nat (hte_hash e mod n)).
Proof. intros He Hn. unfold placed, hash_of. rewrite He. cbn. pose proof (Z.mod_pos_bound (hte_hash e) n Hn). lia. Qed.
Lemma bucket_exists {A} (a : list A) h : (0 < length a)%nat -> exists x, a !! Z.to_nat (h mod Z.of_nat (length a)) = Some x.
Proof. intros Ha. apply lookup_lt_is_Some. pose proof (Z.mod_pos_bound h (Z.of_nat (length a))). lia. Qed.
Lemma mod_index h n : 0 < n -> exists b, h mod n = Z.of_nat b /\ (b < Z.to_nat n)%nat.
Proof. intros Hn. exists (Z.to_nat (h mod n)). pose proof (Z.mod_pos_bound h n). lia. Qed.

(** ** Moving to a new array. *)
Lemma move_bucket_ok l : forall turns m t bs p, rep m t bs -> (0 < length t)%nat -> chain m p l -> NoDup (l ++ concat bs) -> (length l <= turns)%nat ->
  (forall b l x, bs !! b = Some l -> x ∈ l -> placed m (Z.of_nat (length t)) x b) ->
  exists m' t' bs', move_bucket turns m t (Z.of_nat (length t)) p = Some (m', t') /\ rep m' t' bs' /\ length t' = length t /\ concat bs' ≡ₚ l ++ concat bs /\ fixed m m' /\
    outside l m m' /\ forall b l x, bs' !! b = Some l -> x ∈ l -> placed m' (Z.of_nat (length t)) x b.
Proof.
  induction l as [|e l IH]; intros turns m t bs p R Ht Hc ND Htu Hp.
  - cbn in Hc. subst p. exists m, t, bs. destruct turns; cbn; by split_and!.
  - destruct Hc as (-> & x & Hx & Hc). destruct turns as [|turns]; [cbn in Htu; lia|]. cbn [move_bucket]. rewrite Hx. cbn [mbind option_bind].
    destruct (mod_index (hte_hash x) (Z.of_nat (length t))) as (b2 & Eb & Hb2); [lia|]. rewrite Nat2Z.id in Hb2. pose proof (rep_length _ _ _ R) as HL. destruct (lookup_lt_is_Some_2 bs b2) as [l2 Hl2]; [lia|].
    apply NoDup_cons in ND as [He ND]. destruct (push_front m t bs b2 l2 e x R Hl2) as (E1 & m' & E2 & R' & F & _); [set_solver | done|].
    rewrite Eb, E1. cbn [mbind option_bind]. rewrite E2. cbn [mbind option_bind]. rewrite Nat2Z.id.
    assert (Hm : forall y, y <> e -> m' !! y = m !! y). { unfold set_next in E2. rewrite Hx in E2. cbn in E2. injection E2 as <-. intros y Hy. by rewrite lookup_insert_ne. }
    replace (length t) with (length (<[b2 := Some e]> t)) by apply length_insert.
    destruct (IH turns m' (<[b2 := Some e]> t) (<[b2 := e :: l2]> bs) (hte_next x)) as (m2 & t2 & bs2 & E & R2 & L2 & C2 & F2 & G2 & P2).
    + done.
    + by rewrite length_insert.
    + apply (chain_frame m); [|done]. intros y Hy. apply Hm. intros ->. set_solver.
    + rewrite (push_concat bs b2 l2 e Hl2), <- Permutation_middle. by constructor.
    + cbn in Htu. lia.
    + intros b lb y Hlb Hy. rewrite length_insert, (fixed_placed m m') by done. apply list_lookup_insert_Some in Hlb as [(<- & <- & _)|[_ Hlb]]; [|by eapply Hp].
      apply elem_of_cons in Hy as [->|Hy]; [|by eapply Hp]. unfold placed, hash_of. rewrite Hx. by cbn.
    + exists m2, t2, bs2. split_and!; try done.
      * rewrite C2, (push_concat bs b2 l2 e Hl2). solve_Permutation.
      * by rewrite F.
      * intros y Hy. rewrite G2, Hm; [done | set_solver | set_solver].
Qed.
Lemma move_buckets_ok turns todo : forall d ps m t bs, rep m t bs -> (0 < length t)%nat -> Forall2 (chain m) ps todo -> NoDup (concat todo ++ concat bs) ->
  (length (concat todo) <= turns)%nat -> (forall b l x, bs !! b = Some l -> x ∈ l -> placed m (Z.of_nat (length t)) x b) ->
  exists m' t' bs', move_buckets turns m (d ++ ps) t (Z.of_nat (length t)) (map Z.of_nat (seq (length d) (length ps))) = Some (m', t') /\ rep m' t' bs' /\ length t' = length t /\ concat bs' ≡ₚ concat todo ++ concat bs /\ fixed m m' /\ outside (concat todo) m m' /\ forall b l x, bs' !! b = Some l -> x ∈ l -> placed m' (Z.of_nat (length t)) x b.
Proof.
  induction todo as [|l todo IH]; intros d ps m t bs R Ht Hc ND Htu Hp; inversion Hc as [|p ? ps' ? Hpl Hrest E1 E2]; subst; [exists m, t, bs; by split_and!|].
  cbn [length seq map move_buckets]. rewrite arr_at_lookup, list_lookup_middle by done. cbn [mbind option_bind].
  cbn in ND, Htu. rewrite <- app_assoc in ND. rewrite length_app in Htu. assert (ND' := ND). apply NoDup_app in ND as (H1 & H2 & H3).
  destruct (move_bucket_ok l turns m t bs p R Ht Hpl) as (m1 & t1 & bs1 & -> & R1 & L1 & C1 & F1 & G1 & P1); [|lia|done|].
  { apply NoDup_app in H3 as (_ & _ & H3). apply NoDup_app. split_and!; [done | set_solver | done]. }
  cbn [mbind option_bind]. rewrite <- L1 in *. replace (S (length d)) with (length (d ++ [p])) by (rewrite length_app; cbn; lia). rewrite (cons_middle p d ps'), (app_assoc d [p] ps').
  destruct (IH (d ++ [p]) ps' m1 t1 bs1) as (m2 & t2 & bs2 & E3 & R2 & L2 & C2 & F2 & G2 & P2); try done.
  - apply (chains_frame m); [|done]. intros x Hx. apply G1. set_solver.
  - rewrite C1, (app_assoc _ l), (Permutation_app_comm _ l), <- app_assoc. done.
  - lia.
  - exists m2, t2, bs2. split_and!; try done; [rewrite C2, C1; cbn; solve_Permutation | by rewrite F1 |]. intros x Hx. cbn in Hx. rewrite G2, G1; [done | set_solver | set_solver].
Qed.

(** ** Spreading over a longer array. *)
(** Every element is in its bucket, but those that were before in a bucket
    that satisfies [Q]. *)
Definition spread m (n : Z) bs0 (Q : nat -> Prop) bs : Prop :=
  forall b l x, bs !! b = Some l -> x ∈ l -> placed m n x b \/ Q b /\ exists l0, bs0 !! b = Some l0 /\ x ∈ l0.
Lemma spread_bucket_ok post : forall turns m t bs b pre, rep m t bs -> bs !! b = Some (pre ++ post) -> (length post <= turns)%nat -> (forall x, x ∈ pre -> placed m (Z.of_nat (length t)) x b) ->
  exists m' t' bs', spread_bucket turns m t (Z.of_nat (length t)) (Z.of_nat b) (place_of b pre) = Some (m', t') /\ rep m' t' bs' /\ length t' = length t /\ concat bs' ≡ₚ concat bs /\ fixed m m' /\ outside (concat bs) m m' /\
    spread m' (Z.of_nat (length t)) bs (fun c => c <> b) bs'.
Proof.
  induction post as [|x post IH]; intros turns m t bs b pre R Hb Htu Hpre.
  - exists m, t, bs. assert (E : spread_bucket turns m t (Z.of_nat (length t)) (Z.of_nat b) (place_of b pre) = Some (m, t)) by (destruct turns; cbn [spread_bucket]; by rewrite (get_place m t bs b pre [])).
    split_and!; try done. intros c l y Hc Hy. destruct (decide (c = b)) as [->|Hn]; [|right; split; [done | by exists l]]. left. apply Hpre. rewrite app_nil_r in Hb. congruence.
  - destruct turns as [|turns]; [cbn in Htu; lia|]. cbn [spread_bucket]. rewrite (get_place m t bs b pre (x :: post) R Hb). cbn [head mbind option_bind].
    destruct (at_place _ _ _ _ _ _ _ R Hb) as (e & He & _). rewrite He. cbn [mbind option_bind]. pose proof (rep_length _ _ _ R) as HL. assert (Hlt := lookup_lt_Some _ _ _ Hb).
    destruct (mod_index (hte_hash e) (Z.of_nat (length t))) as (b2 & Eb & Hb2); [lia|]. rewrite Nat2Z.id in Hb2. rewrite Eb. assert (Hpx : placed m (Z.of_nat (length t)) x b2) by (unfold placed, hash_of; by rewrite He).
    destruct (decide (b2 = b)) as [->|Hne].
    + rewrite Z.eqb_refl. rewrite <- (place_snoc b pre x). apply IH; [done | by rewrite <- app_assoc | cbn in Htu; lia|]. intros y [Hy| ->%list_elem_of_singleton]%elem_of_app; [by apply Hpre | done].
    + rewrite (proj2 (Z.eqb_neq _ _)) by lia. destruct (unlink m t bs b pre x post e R Hb He) as (m1 & t1 & -> & R1 & F1 & E1 & G1). cbn [mbind option_bind].
      set (bs1 := <[b := pre ++ post]> bs) in *. pose proof (cut_concat _ _ _ _ _ Hb) as C1. fold bs1 in C1. assert (ND := proj2 R). rewrite C1 in ND. apply NoDup_cons in ND as [Hx ND].
      pose proof (rep_length _ _ _ R1) as HL1. unfold bs1 in HL1. rewrite length_insert in HL1. destruct (lookup_lt_is_Some_2 bs1 b2) as [l2 Hl2]; [unfold bs1; rewrite length_insert; lia|].
      destruct (push_front m1 t1 bs1 b2 l2 x e R1 Hl2 Hx E1) as (Et & m2 & Em & R2 & F2 & G2). rewrite Et. cbn [mbind option_bind]. rewrite Em. cbn [mbind option_bind]. rewrite Nat2Z.id.
      assert (L2 : length (<[b2 := Some x]> t1) = length t) by (rewrite length_insert; lia). rewrite <- L2 in *.
      destruct (IH turns m2 (<[b2:=Some x]> t1) (<[b2 := x :: l2]> bs1) b pre R2) as (m3 & t3 & bs3 & E3 & R3 & L3 & C3 & F3 & G3 & S3).
      { rewrite list_lookup_insert_ne by done. unfold bs1. apply list_lookup_insert_eq. lia. }
      { cbn in Htu. lia. }
      { intros y Hy. rewrite (fixed_placed m m2); [by apply Hpre | by rewrite F1]. }
      exists m3, t3, bs3. split_and!; try done; [rewrite C3, (push_concat bs1 b2 l2 x Hl2); by symmetry | by rewrite F1, F2 | |].
      { intros y Hy. rewrite G3, G2, G1; [done | done | rewrite C1 in Hy; set_solver | rewrite (push_concat bs1 b2 l2 x Hl2); by rewrite <- C1]. }
      intros c l y Hc Hy. destruct (S3 c l y Hc Hy) as [?|[Hcb (l0 & Hl0 & Hy0)]]; [by left|].
      apply list_lookup_insert_Some in Hl0 as [(<- & <- & _)|[_ Hl0]].
      * apply elem_of_cons in Hy0 as [->|Hy0]; [left; rewrite (fixed_placed m m3); [done | by rewrite F1, F2]|]. right. split; [done|]. exists l2. split; [|done]. by rewrite <- Hl2; unfold bs1; rewrite list_lookup_insert_ne.
      * right. split; [done|]. exists l0. split; [|done]. by rewrite <- Hl0; unfold bs1; rewrite list_lookup_insert_ne.
Qed.
Lemma spread_buckets_ok turns k : forall a m t bs bs0, rep m t bs -> (a + k <= length t)%nat -> (size m <= turns)%nat -> spread m (Z.of_nat (length t)) bs0 (fun c => a <= c < a + k)%nat bs ->
  exists m' t' bs', spread_buckets turns m t (Z.of_nat (length t)) (map Z.of_nat (seq a k)) = Some (m', t') /\ rep m' t' bs' /\ length t' = length t /\ concat bs' ≡ₚ concat bs /\ fixed m m' /\ outside (concat bs) m m' /\
    forall b l x, bs' !! b = Some l -> x ∈ l -> placed m' (Z.of_nat (length t)) x b.
Proof.
  induction k as [|k IH]; intros a m t bs bs0 R Hk Htu Hs.
  - exists m, t, bs. split_and!; try done. intros b l x Hb Hx. destruct (Hs b l x Hb Hx) as [?|[? _]]; [done | lia].
  - cbn [seq map spread_buckets]. pose proof (rep_length _ _ _ R). destruct (lookup_lt_is_Some_2 bs a) as [la Hla]; [lia|]. pose proof (bucket_bound _ _ _ _ _ R Hla).
    destruct (spread_bucket_ok la turns m t bs a [] R Hla) as (m1 & t1 & bs1 & E1 & R1 & L1 & C1 & F1 & G1 & S1); [lia | by intros ? ?%elem_of_nil|].
    cbn in E1. rewrite E1. cbn [mbind option_bind]. rewrite <- L1 in *. destruct (IH (S a) m1 t1 bs1 bs1) as (m2 & t2 & bs2 & E2 & R2 & L2 & C2 & F2 & G2 & P2); [done | lia | by rewrite <- (fixed_size m m1) | |].
    + intros b l x Hb Hx. destruct (S1 b l x Hb Hx) as [?|[Hne (l0 & Hl0 & Hx0)]]; [by left|]. destruct (Hs b l0 x Hl0 Hx0) as [?|[? _]]; [left; by rewrite (fixed_placed m m1)|]. right. split; [lia | by exists l].
    + exists m2, t2, bs2. split_and!; try done; [by rewrite C2, C1 | by rewrite F1 |]. intros x Hx. rewrite G2, G1; [done | done | by rewrite C1].
Qed.

(** ** The lengths. *)
Lemma sorted_lookup {A} (R : A -> A -> Prop) a : StronglySorted R a -> forall i j x y, a !! i = Some x -> a !! j = Some y -> (i < j)%nat -> R x y.
Proof.
  induction 1 as [|z a S IH F]; intros [|i] [|j] x y Hx Hy Hij; cbn in *; try done; [lia | | lia |].
  - injection Hx as ->. by apply (proj1 (Forall_lookup _ _) F j).
  - apply (IH i j); [done | done | lia].
Qed.
Lemma concat_replicate_nil {A} n : concat (replicate n ([] : list A)) = [].
Proof. by induction n. Qed.
Lemma prime_at i p : arr_at PRIMES i = Some p -> 0 <= i < 26 /\ 0 < p.
Proof.
  unfold arr_at. destruct (i <? 0) eqn:E; [done|]. apply Z.ltb_ge in E. intros Hp. pose proof (lookup_lt_Some _ _ _ Hp) as Hi. cbn in Hi. split; [lia|].
  assert (F : Forall (Z.lt 0) PRIMES) by (unfold PRIMES; repeat constructor). by apply (proj1 (Forall_lookup _ _) F _ _ Hp).
Qed.
Lemma prime_there i : 0 <= i < 26 -> exists p, arr_at PRIMES i = Some p.
Proof. intros Hi. unfold arr_at. rewrite (proj2 (Z.ltb_ge _ 0)) by lia. apply lookup_lt_is_Some. cbn. lia. Qed.
Lemma primes_grow i j p q : arr_at PRIMES i = Some p -> arr_at PRIMES j = Some q -> i < j -> p < q.
Proof.
  intros Hp Hq Hij. destruct (prime_at _ _ Hp) as [Hi _], (prime_at _ _ Hq) as [Hj _]. unfold arr_at in *. rewrite (proj2 (Z.ltb_ge i 0)) in Hp by lia. rewrite (proj2 (Z.ltb_ge j 0)) in Hq by lia.
  assert (F : StronglySorted Z.lt PRIMES) by (unfold PRIMES; repeat constructor). apply (sorted_lookup _ _ F (Z.to_nat i) (Z.to_nat j)); [done | done | lia].
Qed.
Lemma grow_loop_ok turns : forall size i, -1 <= i < 25 -> (Z.to_nat (26 - i) <= turns)%nat -> size < load_of 1610612741 ->
  exists len j, grow_loop turns size i = Some (len, load_of len, j) /\ i < j /\ arr_at PRIMES j = Some len /\ size < load_of len.
Proof.
  induction turns as [|turns IH]; intros size i Hi Ht Hs; [lia|]. cbn [grow_loop]. destruct (prime_there (i + 1)) as [p Hp]; [lia|]. rewrite Hp. cbn [mbind option_bind].
  destruct (load_of p <=? size) eqn:E; cbn [andb].
  - apply Z.leb_le in E. assert (i + 1 <> 25). { intros Ei. rewrite Ei in Hp. injection Hp as <-. lia. }
    rewrite (proj2 (Z.ltb_lt _ _)) by (unfold N_PRIMES; cbn; lia). destruct (IH size (i + 1)) as (len & j & -> & Hj & HP & HL); [lia | lia | done|]. exists len, j. split_and!; [done | lia | done | done].
  - apply Z.leb_gt in E. exists p, (i + 1). split_and!; [done | lia | done | done].
Qed.
Lemma indices_map (n : nat) : indices 0 (Z.of_nat n) = map Z.of_nat (seq 0 n).
Proof. unfold indices. by rewrite Nat2Z.id, Nat.sub_0_r. Qed.

Lemma table_ok_new w bs m t bs' len j : table_ok w bs -> rep m t bs' -> Z.of_nat (length t) = len -> concat bs' ≡ₚ concat bs -> fixed (elts w) m -> arr_at PRIMES j = Some len ->
  (forall b l x, bs' !! b = Some l -> x ∈ l -> placed m len x b) -> table_ok (Ht m (Some t) len (hth_n_entries w) (load_of len) j) bs'.
Proof.
  intros W R L C F P Hp. assert (G : forall x e, m !! x = Some e -> exists p, elts w !! x = Some (Entry (key e) p (hte_hash e))) by (intros x e; by apply fixed_entry).
  split; cbn; try done.
  - intros x e Hx He. destruct (G _ _ He) as [p E]. rewrite C in Hx. apply (ok_hash w bs W x _ Hx E).
  - intros x y e f Hx Hy He Hf. destruct (G _ _ He) as [p E], (G _ _ Hf) as [q E']. rewrite C in Hx, Hy. apply (ok_keys w bs W x y _ _ Hx Hy E E').
  - by rewrite C, (ok_count w bs W).
  - rewrite C. apply W.
Qed.
Lemma table_ok_init w : table_ok (HT_INIT w) [].
Proof. split; cbn; try done; [intros x e Hx | intros x y e f Hx]; by apply elem_of_nil in Hx. Qed.
Lemma HT_GROW_ok mo ro w bs size : table_ok w bs -> size < load_of 1610612741 -> exists r w' bs', HT_GROW mo ro w size = Some (r, w') /\ table_ok w' bs' /\ concat bs' ≡ₚ concat bs /\ fixed (elts w) (elts w') /\ outside (concat bs) (elts w) (elts w') /\
  (hth_table w <> None \/ mo = true \/ ro = true -> 0 <= hth_load_limit w <= size \/ hth_table w <> None -> hth_table w' <> None).
Proof.
  intros W Hs. unfold HT_GROW. change (N_PRIMES - 1) with 25. destruct (hth_prime_idx w =? 25) eqn:E1; [|apply Z.eqb_neq in E1; destruct (size <? hth_load_limit w) eqn:E2].
  1,2: exists 0, w, bs; split; [reflexivity|]; split; [done|]; split; [reflexivity|]; split; [reflexivity|]; split; [done|]; intros _ [Hl|Hn]; [|done].
  { apply Z.eqb_eq in E1. pose proof (ok_prime w bs W) as P. by destruct (hth_table w); [|lia]. }
  { apply Z.ltb_lt in E2. lia. }
  assert (Hi : -1 <= hth_prime_idx w < 25 /\ (hth_prime_idx w = -1 \/ arr_at PRIMES (hth_prime_idx w) = Some (hth_table_length w))).
  { pose proof (ok_prime w bs W) as P. destruct (hth_table w); [|lia]. destruct P as [P _]. destruct (prime_at _ _ P). split; [lia | by right]. }
  destruct Hi as [Hi Hlen]. destruct (grow_loop_ok (S (length PRIMES)) size (hth_prime_idx w) Hi) as (len & j & E & Hj & HP & HL); [cbn; lia | done|]. rewrite E. cbn [mbind option_bind].
  destruct (prime_at _ _ HP) as [_ Hpos].
  assert (T : exists t, hth_table w = Some t /\ rep (elts w) t bs /\ hth_table_length w = Z.of_nat (length t) \/ hth_table w = None /\ t = [] /\ bs = [] /\ hth_table_length w = 0).
  { pose proof (ok_table w bs W) as P. destruct (hth_table w) as [t|]; [exists t; left; tauto | exists []; right; tauto]. }
  destruct T as [t T].
  assert (D : default [] (hth_table w) = t /\ rep (elts w) t bs /\ hth_table_length w = Z.of_nat (length t)).
  { destruct T as [(-> & ? & ?)|(-> & -> & -> & ->)]; cbn; split_and!; try done. split; [constructor | constructor]. }
  destruct D as (-> & R & L). rewrite L, indices_map. assert (HS := rep_bound _ _ _ R). destruct mo; [|destruct ro; cbn [negb]].
  - destruct (move_buckets_ok (walk w) bs [] t (elts w) (replicate (Z.to_nat len) None) (replicate (Z.to_nat len) [])) as (m' & t' & bs' & E3 & R' & L' & C' & F' & G' & P').
    + split; [by apply Forall2_replicate|]. rewrite concat_replicate_nil. constructor.
    + rewrite length_replicate. lia.
    + apply R.
    + rewrite concat_replicate_nil, app_nil_r. apply R.
    + unfold walk. lia.
    + intros b l x Hb. apply lookup_replicate in Hb as [-> _]. by intros ?%elem_of_nil.
    + rewrite length_replicate, Z2Nat.id in * by lia. cbn [length app] in E3. rewrite E3. cbn [mbind option_bind]. rewrite concat_replicate_nil, app_nil_r in C'. eexists 0, _, bs'. split; [done|].
      split_and!; [|done | done | done | done]. apply (table_ok_new w bs); try done; lia.
  - assert (Hl : Z.of_nat (length t) <= len). { destruct Hlen as [Hm|Hlen]; [|rewrite L in Hlen; pose proof (primes_grow _ _ _ _ Hlen HP Hj); lia].
      destruct T as [(E0 & _)|(_ & -> & _)]; [|cbn; lia]. pose proof (ok_prime w bs W) as P. rewrite E0 in P. destruct P as [P _]. destruct (prime_at _ _ P). lia. }
    set (n := Z.to_nat (len - Z.of_nat (length t))). destruct (spread_buckets_ok (walk w) (length t) 0 (elts w) (t ++ replicate n None) (bs ++ replicate n []) (bs ++ replicate n [])) as (m' & t' & bs' & E3 & R' & L' & C' & F' & G' & P').
    + destruct R as [F ND]. split; [apply Forall2_app; [done|]; by apply Forall2_replicate|]. by rewrite concat_app, concat_replicate_nil, app_nil_r.
    + rewrite length_app. lia.
    + unfold walk. lia.
    + intros b l x Hb Hx. right. split; [|by exists l]. apply lookup_app_Some in Hb as [Hb|[_ Hb]]; [rewrite (rep_length _ _ _ R); apply lookup_lt_Some in Hb; lia|]. apply lookup_replicate in Hb as [-> _]. by apply elem_of_nil in Hx.
    + assert (Ln : Z.of_nat (length (t ++ replicate n None)) = len) by (rewrite length_app, length_replicate; lia). rewrite Ln in *. rewrite E3. cbn [mbind option_bind].
      rewrite concat_app, concat_replicate_nil, app_nil_r in C', G'. eexists 0, _, bs'. split; [done|]. split_and!; [|done | done | done | done]. apply (table_ok_new w bs); try done; lia.
  - exists (-1), w, bs. split_and!; try done. intros [?|[?|?]]; done.
Qed.
End Grow.

(** * Operations of a hash table

    Finding the place of an element, and what inserting, replacing and
    removing there do to the buckets. *)
Section Ops.
Context {K : Type} `{HL : HashLaws K}.
Implicit Types (m : gmap Z (entry K)) (t : list (option Z)) (bs : list (list Z)) (l : list Z) (w : ht K).

(** The key in memory of an element. *)
Definition keys w (x : Z) : option K := key <$> elts w !! x.
Definition same_keys w w' : Prop := forall x, keys w' x = keys w x.
#[export] Instance same_keys_equivalence : Equivalence same_keys.
Proof. split; [by intros w x | by intros w w' E x | by intros w w' w'' E F x; rewrite F]. Qed.
Definition eq_key w (x y : Z) : Prop := exists a b, keys w x = Some a /\ keys w y = Some b /\ eqfn a b = true.
#[export] Instance eq_key_dec w x y : Decision (eq_key w x y).
Proof.
  unfold eq_key. destruct (keys w x) as [a|]; [|right; by intros (? & ? & [=] & _)]. destruct (keys w y) as [b|]; [|right; by intros (? & ? & _ & [=] & _)].
  destruct (eqfn a b) eqn:E; [left; by exists a, b | right]. intros (? & ? & [= <-] & [= <-] & ?). congruence.
Defined.
Lemma eq_key_same w w' x y : same_keys w w' -> eq_key w' x y <-> eq_key w x y.
Proof. intros E. unfold eq_key. by rewrite !E. Qed.
Lemma eq_key_sym w x y : eq_key w x y -> eq_key w y x.
Proof. intros (a & b & Ha & Hb & E). exists b, a. split_and!; [done | done |]. exact (@Equivalence_Symmetric _ _ eqfn_equiv a b E). Qed.
Lemma eq_key_trans w x y z : eq_key w x y -> eq_key w y z -> eq_key w x z.
Proof. intros (a & b & Ha & Hb & E) (b' & c & Hb' & Hc & F). replace b' with b in * by congruence. exists a, c. split_and!; [done | done |]. exact (@Equivalence_Transitive _ _ eqfn_equiv a b c E F). Qed.
Lemma fixed_keys w w' : fixed (elts w) (elts w') -> same_keys w w'.
Proof. intros F x. unfold keys. specialize (F x). destruct (elts w !! x), (elts w' !! x); inversion F; cbn; congruence. Qed.

Lemma ok_members_key w bs x : table_ok w bs -> x ∈ concat bs -> exists e, elts w !! x = Some e.
Proof.
  intros W Hx. pose proof (ok_table w bs W) as T. destruct (hth_table w) as [t|]; [exact (rep_dom _ t bs x (proj1 T) Hx) | destruct T as [-> _]; by apply elem_of_nil in Hx].
Qed.
Lemma ok_unique w bs x y : table_ok w bs -> x ∈ concat bs -> y ∈ concat bs -> eq_key w x y -> x = y.
Proof.
  intros W Hx Hy (a & b & Ha & Hb & E). unfold keys in *. destruct (elts w !! x) as [e|] eqn:He; [|done]. destruct (elts w !! y) as [f|] eqn:Hf; [|done]. cbn in *. injection Ha as <-. injection Hb as <-. by apply (ok_keys w bs W x y e f).
Qed.
Lemma ok_nodup w bs : table_ok w bs -> NoDup (concat bs).
Proof. intros W. pose proof (ok_table w bs W) as T. destruct (hth_table w) as [t|]; [apply T | destruct T as [-> _]; constructor]. Qed.
Lemma ok_positive w bs t : table_ok w bs -> hth_table w = Some t -> rep (elts w) t bs /\ hth_table_length w = Z.of_nat (length t) /\ (0 < length t)%nat.
Proof.
  intros W Ht. pose proof (ok_table w bs W) as T. pose proof (ok_prime w bs W) as P. rewrite Ht in *. destruct T as [R L], P as [P _]. split_and!; [done | done |]. apply prime_at in P. lia.
Qed.
Lemma ht_frame w bs m : table_ok w bs -> (forall x, x ∈ concat bs -> m !! x = elts w !! x) -> table_ok (set_elts w m) bs.
Proof.
  intros W G. split; cbn.
  - pose proof (ok_table w bs W) as T. destruct (hth_table w) as [t|]; [|done]. split; [|apply T]. apply (rep_frame (elts w)); [done | apply T].
  - intros b l x Hb Hx. unfold placed, hash_of. rewrite G by (apply elem_of_concat; by exists b, l). exact (ok_placed w bs W b l x Hb Hx).
  - intros x e Hx. rewrite G by done. by apply (ok_hash w bs W).
  - intros x y e f Hx Hy. rewrite !G by done. by apply (ok_keys w bs W).
  - apply W.
  - apply W.
  - apply W.
Qed.
Lemma set_hash_ok w bs elm y : table_ok w bs -> elts w !! elm = Some y -> let y' := Entry (key y) (hte_next y) (hashfn (key y)) in
  exists w', HT_SET_HASH_ w elm = Some w' /\ w' = set_elts w (<[elm := y']> (elts w)) /\ table_ok w' bs /\ same_keys w w' /\ elts w' !! elm = Some y'.
Proof.
  intros W Hy y'. unfold HT_SET_HASH_. rewrite Hy. cbn [mbind option_bind]. eexists. split; [done|]. split; [done|]. split_and!.
  - apply ht_frame; [done|]. intros x Hx. destruct (decide (x = elm)) as [->|Hn]; [|by rewrite lookup_insert_ne]. rewrite lookup_insert_eq, Hy. f_equal. unfold y'. rewrite <- (ok_hash w bs W elm y Hx Hy). by destruct y.
  - intros x. unfold keys. cbn. destruct (decide (x = elm)) as [->|Hn]; [by rewrite lookup_insert_eq, Hy | by rewrite lookup_insert_ne].
  - cbn. by rewrite lookup_insert_eq.
Qed.

(** ** Finding. *)
Lemma ht_find_loop_ok post : forall turns w bs t b pre elm y, hth_table w = Some t -> rep (elts w) t bs -> bs !! b = Some (pre ++ post) -> elts w !! elm = Some y -> (length post < turns)%nat ->
  exists mid rest, post = mid ++ rest /\ ht_find_loop turns w (place_of b pre) elm = Some (place_of b (pre ++ mid)) /\
    (forall x, x ∈ mid -> ~ eq_key w x elm) /\ (forall x, head rest = Some x -> eq_key w x elm).
Proof.
  induction post as [|x post IH]; intros turns w bs t b pre elm y Ht R Hb Hy Htu; (destruct turns as [|turns]; [cbn in Htu; lia|]); cbn [ht_find_loop]; unfold get; rewrite Ht; cbn [mbind option_bind]; rewrite (get_place _ _ _ _ _ _ R Hb); cbn [head mbind option_bind].
  - exists [], []. rewrite !app_nil_r. split_and!; [done | done | by intros ? ?%elem_of_nil | done].
  - destruct (at_place _ _ _ _ _ _ _ R Hb) as (e & He & _). rewrite He, Hy. cbn [mbind option_bind]. destruct (eqfn (key e) (key y)) eqn:E.
    + exists [], (x :: post). rewrite app_nil_r. split_and!; [done | done | by intros ? ?%elem_of_nil |]. intros z [= <-]. exists (key e), (key y). unfold keys. by rewrite He, Hy.
    + rewrite <- (place_snoc b pre x). destruct (IH turns w bs t b (pre ++ [x]) elm y Ht R) as (mid & rest & -> & F & N & M); [by rewrite <- app_assoc | done | cbn in Htu; lia|].
      exists (x :: mid), rest. rewrite F, <- app_assoc. split_and!; [done | done | | done]. intros z [->|Hz]%elem_of_cons; [|by apply N].
      intros (a & c & Ha & Hc & Ee). unfold keys in *. rewrite He in Ha. rewrite Hy in Hc. cbn in *. congruence.
Qed.
Lemma mod_same_hash w bs b l x elm y t : table_ok w bs -> hth_table w = Some t -> bs !! b = Some l -> x ∈ l -> eq_key w x elm -> elts w !! elm = Some y -> hashfn (key y) mod hth_table_length w = Z.of_nat b.
Proof.
  intros W Ht Hb Hx (a & c & Ha & Hc & E) Hy. assert (Hin : x ∈ concat bs) by (apply elem_of_concat; by exists b, l). destruct (ok_members_key w bs x W Hin) as [e He].
  unfold keys in *. rewrite He in Ha. rewrite Hy in Hc. cbn in *. injection Ha as <-. injection Hc as <-. rewrite <- (eqfn_hash _ _ E). pose proof (ok_placed w bs W b l x Hb Hx) as P.
  unfold placed, hash_of in P. rewrite He in P. cbn in P. by rewrite (ok_hash w bs W x e Hin He) in P.
Qed.
(** Where an element is, or where it goes. *)
Definition found_at w bs elm b pre post : Prop :=
  bs !! b = Some (pre ++ post) /\ placed (elts w) (hth_table_length w) elm b /\
  match post with [] => forall x, x ∈ concat bs -> ~ eq_key w x elm | x :: _ => eq_key w x elm end.
Lemma HT_FIND_P_ok w bs elm y t : table_ok w bs -> hth_table w = Some t -> elts w !! elm = Some y -> hte_hash y = hashfn (key y) ->
  exists b pre post, HT_FIND_P_ w elm = Some (Some (place_of b pre)) /\ HT_BUCKET_ w elm = Some (place_of b []) /\ found_at w bs elm b pre post.
Proof.
  intros W Ht Hy Hh. destruct (ok_positive w bs t W Ht) as (R & L & Hpos). unfold HT_FIND_P_, HT_BUCKET_, HT_ELT_HASH_. rewrite Ht, Hy. cbn [fmap option_fmap option_map mbind option_bind].
  rewrite (proj2 (Z.eqb_neq _ _)) by lia. destruct (mod_index (hte_hash y) (hth_table_length w)) as (b & Eb & Hb); [lia|]. rewrite Eb. cbn [mbind option_bind].
  destruct (lookup_lt_is_Some_2 bs b) as [l Hl]; [rewrite <- (rep_length _ _ _ R); lia|]. change (Bucket (Z.of_nat b)) with (place_of b []).
  destruct (ht_find_loop_ok l (walk w) w bs t b [] elm y Ht R Hl Hy) as (mid & rest & -> & -> & N & M). { pose proof (bucket_bound _ _ _ _ _ R Hl). unfold walk. lia. }
  cbn [app mbind option_bind]. exists b, mid, rest. split; [done|]. split; [done|]. split; [done|]. split; [unfold placed, hash_of; by rewrite Hy|]. destruct rest as [|x rest]; [|by apply M].
  intros x (c & lc & Hc & Hx)%elem_of_concat E. pose proof (mod_same_hash w bs c lc x elm y t W Ht Hc Hx E Hy) as P. rewrite <- Hh, Eb in P. replace c with b in * by lia. rewrite app_nil_r in Hl. apply (N x); [|done]. congruence.
Qed.
Lemma get_found w bs elm b pre post t : table_ok w bs -> hth_table w = Some t -> found_at w bs elm b pre post -> get w (place_of b pre) = Some (head post).
Proof. intros W Ht [Hb _]. destruct (ok_positive w bs t W Ht) as (R & _). unfold get. rewrite Ht. by apply (get_place _ _ bs). Qed.

(** ** Changing the buckets. *)
Lemma eq_key_entries w x y e f : elts w !! x = Some e -> elts w !! y = Some f -> eqfn (key e) (key f) = true -> eq_key w x y.
Proof. intros He Hf E. exists (key e), (key f). unfold keys. by rewrite He, Hf. Qed.
Lemma table_ok_edit w bs t m' t' bs' n : table_ok w bs -> hth_table w = Some t -> rep m' t' bs' -> fixed (elts w) m' -> length bs' = length bs ->
  (forall b l x, bs' !! b = Some l -> x ∈ l -> placed (elts w) (hth_table_length w) x b) -> (forall x e, x ∈ concat bs' -> elts w !! x = Some e -> hte_hash e = hashfn (key e)) ->
  (forall x y, x ∈ concat bs' -> y ∈ concat bs' -> eq_key w x y -> x = y) -> n = Z.of_nat (length (concat bs')) -> n < 2 ^ 32 ->
  table_ok (Ht m' (Some t') (hth_table_length w) n (hth_load_limit w) (hth_prime_idx w)) bs'.
Proof.
  intros W Ht R F L P Hh Hk -> Hn. destruct (ok_positive w bs t W Ht) as (R0 & L0 & _).
  assert (G : forall x e, m' !! x = Some e -> exists p, elts w !! x = Some (Entry (key e) p (hte_hash e))) by (intros x e; by apply fixed_entry).
  split; cbn.
  - split; [done|]. rewrite L0, (rep_length _ _ _ R), L, (rep_length _ _ _ R0). done.
  - intros b l x Hb Hx. apply (fixed_placed (elts w)); [done|]. by apply (P b l).
  - intros x e Hx He. destruct (G _ _ He) as [p E]. apply (Hh x _ Hx E).
  - intros x y e f Hx Hy He Hf E. destruct (G _ _ He) as [p Ee], (G _ _ Hf) as [q Ef]. apply Hk; [done | done|]. by apply (eq_key_entries w x y _ _ Ee Ef).
  - done.
  - done.
  - pose proof (ok_prime w bs W) as Q. by rewrite Ht in Q.
Qed.
Lemma table_ok_add w bs t m' t' b pre post elm y : table_ok w bs -> hth_table w = Some t -> elts w !! elm = Some y -> hte_hash y = hashfn (key y) ->
  bs !! b = Some (pre ++ post) -> placed (elts w) (hth_table_length w) elm b -> (forall x, x ∈ concat bs -> ~ eq_key w x elm) ->
  rep m' t' (<[b := pre ++ elm :: post]> bs) -> fixed (elts w) m' -> Z.of_nat (length (concat bs)) + 1 < 2 ^ 32 ->
  table_ok (Ht m' (Some t') (hth_table_length w) (u32 (hth_n_entries w + 1)) (hth_load_limit w) (hth_prime_idx w)) (<[b := pre ++ elm :: post]> bs).
Proof.
  intros W Ht Hy Hh Hb Hp Hne R F Hn. assert (C : concat (<[b := pre ++ elm :: post]> bs) ≡ₚ elm :: concat bs).
  { destruct (buckets_split _ _ _ Hb) as (rest & E1 & E2). rewrite E2, E1. solve_Permutation. }
  apply (table_ok_edit w bs t); try done.
  - apply length_insert.
  - intros c l x Hc Hx. apply list_lookup_insert_Some in Hc as [(<- & <- & _)|[_ Hc]]; [|by apply (ok_placed w bs W c l)].
    apply elem_of_app in Hx as [Hx|[->|Hx]%elem_of_cons]; [|done|]; apply (ok_placed w bs W b (pre ++ post)); set_solver.
  - intros x e Hx He. rewrite C in Hx. apply elem_of_cons in Hx as [->|Hx]; [congruence | by apply (ok_hash w bs W x)].
  - intros x z Hx Hz E. rewrite C in Hx, Hz. apply elem_of_cons in Hx as [->|Hx], Hz as [->|Hz]; [done | | by apply Hne in E | by apply (ok_unique w bs)].
    apply eq_key_sym in E. by apply Hne in E.
  - rewrite C. cbn [length]. rewrite (ok_count w bs W), u32_small by lia. lia.
  - rewrite (ok_count w bs W), u32_small by lia. lia.
Qed.
Lemma table_ok_cut w bs t m' t' b pre x post : table_ok w bs -> hth_table w = Some t -> bs !! b = Some (pre ++ x :: post) -> rep m' t' (<[b := pre ++ post]> bs) -> fixed (elts w) m' ->
  table_ok (Ht m' (Some t') (hth_table_length w) (u32 (hth_n_entries w - 1)) (hth_load_limit w) (hth_prime_idx w)) (<[b := pre ++ post]> bs).
Proof.
  intros W Ht Hb R F. pose proof (ok_small w bs W) as Hn. pose proof (cut_concat _ _ _ _ _ Hb) as C.
  apply (table_ok_edit w bs t); try done.
  - apply length_insert.
  - intros c l z Hc Hz. apply list_lookup_insert_Some in Hc as [(<- & <- & _)|[_ Hc]]; [|by apply (ok_placed w bs W c l)].
    apply (ok_placed w bs W b (pre ++ x :: post)); set_solver.
  - intros z e Hz He. apply (ok_hash w bs W z); [rewrite C; set_solver | done].
  - intros z z' Hz Hz' E. apply (ok_unique w bs); [done | rewrite C; set_solver | rewrite C; set_solver | done].
  - rewrite (ok_count w bs W), C. rewrite C in Hn. cbn [length] in *. rewrite u32_small by lia. lia.
  - rewrite (ok_count w bs W). rewrite C in *. cbn [length] in *. rewrite u32_small by lia. lia.
Qed.

Lemma grow_if_full_ok mo ro w bs : table_ok w bs -> Z.of_nat (length (concat bs)) + 1 < max_load -> exists w' bs', grow_if_full mo ro w = Some w' /\ table_ok w' bs' /\ concat bs' ≡ₚ concat bs /\
  fixed (elts w) (elts w') /\ outside (concat bs) (elts w) (elts w') /\ (hth_table w <> None \/ mo = true \/ ro = true -> hth_table w' <> None).
Proof.
  intros W Hn. unfold max_load in Hn. unfold grow_if_full. rewrite (ok_count w bs W). destruct (bool_decide (hth_table w = None) || _) eqn:E.
  - rewrite u32_small by lia. destruct (HT_GROW_ok mo ro w bs (Z.of_nat (length (concat bs)) + 1) W) as (r & w' & bs' & -> & W' & C & F & G & Ht); [lia|]. cbn [fmap option_fmap option_map snd].
    exists w', bs'. split_and!; try done. intros Hm. apply Ht; [done|]. destruct (hth_table w) eqn:T; [by right|]. left. pose proof (ok_prime w bs W) as P. rewrite T in P. lia.
  - apply orb_false_iff in E as [E _]. apply bool_decide_eq_false in E. exists w, bs. split_and!; try done.
Qed.
End Ops.
