(* ===== verification/HashProps.v ===== *)
(** * Hash tables are sets

    What the functions of a hash table do is what the same operations do on a
    set of elements, of which no two have equal keys; visiting and clearing a table
    meet each element once. *)
From S2P Require Import Prelude HashTable HashInv.
Open Scope Z_scope.

Section Props.
Context {K : Type} `{HL : HashLaws K}.
Implicit Types (w : ht K) (bs : list (list Z)).

(** ** The specification: the set of elements, and whether there is an array. *)
Record table := Table { members : gset Z; has_table : bool }.
(** The element of a set whose key is equal to that of [e]. *)
Definition find_in w (S : gset Z) (e : Z) : option Z := head (filter (fun x => eq_key w x e) (elements S)).
Inductive op := Find (e : Z) | Insert (malloc_ok realloc_ok : bool) (e : Z) | Replace (malloc_ok realloc_ok : bool) (e : Z) | Remove (e : Z)
  | FindOrInsert (malloc_ok realloc_ok : bool) (e new : Z).
Definition run_op w (o : op) : option (option Z * ht K) :=
  match o with
  | Find e => HT_FIND w e
  | Insert mo ro e => w ← HT_INSERT mo ro w e; Some (None, w)
  | Replace mo ro e => HT_REPLACE mo ro w e
  | Remove e => HT_REMOVE w e
  | FindOrInsert mo ro e new =>
      '(q, p, w) ← HT_FIND_OR_INSERT_ mo ro w e;
      match q with Some q => Some (Some q, w) | None => w ← HT_FOI_INSERT_ w e new p; Some (Some new, w) end
  end.
Definition spec_op w0 (a : table) (o : op) : option Z * table :=
  let S := members a in
  let without r := match r with Some x => S ∖ {[x]} | None => S end in
  match o with
  | Find e => (find_in w0 S e, a)
  | Insert _ _ e => (None, Table ({[e]} ∪ S) true)
  | Replace _ _ e => let r := find_in w0 S e in (r, Table ({[e]} ∪ without r) true)
  | Remove e => let r := find_in w0 S e in (r, Table (without r) (has_table a))
  | FindOrInsert _ _ e new => match find_in w0 S e with Some x => (Some x, Table S true) | None => (Some new, Table ({[new]} ∪ S) true) end
  end.
(** What a caller has to see to: elements are in memory, one that is inserted is
    not there yet, there is memory for a first array and there are fewer elements
    than the last prime allows. *)
Definition can_add (a : table) (mo ro : bool) : Prop := Z.of_nat (size (members a)) + 1 < max_load /\ (has_table a = true \/ mo = true \/ ro = true).
Definition legal w0 (a : table) (o : op) : Prop :=
  let in_memory e := is_Some (keys w0 e) in
  match o with
  | Find e | Remove e => in_memory e
  | Insert mo ro e => in_memory e /\ find_in w0 (members a) e = None /\ can_add a mo ro
  | Replace mo ro e => in_memory e /\ e ∉ members a /\ can_add a mo ro
  | FindOrInsert mo ro e new => in_memory e /\ eq_key w0 new e /\ new ∉ members a /\ can_add a mo ro
  end.
Fixpoint run w (os : list op) : option (list (option Z) * ht K) :=
  match os with [] => Some ([], w) | o :: os => '(r, w) ← run_op w o; '(rs, w) ← run w os; Some (r :: rs, w) end.
Fixpoint spec_run w0 (a : table) (os : list op) : list (option Z) * table :=
  match os with [] => ([], a) | o :: os => let '(r, a) := spec_op w0 a o in let '(rs, a) := spec_run w0 a os in (r :: rs, a) end.
Fixpoint legal_run w0 (a : table) (os : list op) : Prop :=
  match os with [] => True | o :: os => legal w0 a o /\ legal_run w0 (snd (spec_op w0 a o)) os end.

(** ** The representation. *)
Definition unlinked w bs : Prop := forall x e, x ∉ concat bs -> elts w !! x = Some e -> hte_next e = None.
Definition holds w (a : table) : Prop :=
  exists bs, table_ok w bs /\ (forall x, x ∈ members a <-> x ∈ concat bs) /\ (has_table a = true <-> hth_table w <> None) /\ unlinked w bs.

Lemma find_in_same w w0 S e : same_keys w0 w -> find_in w S e = find_in w0 S e.
Proof. intros E. unfold find_in. f_equal. apply list_filter_iff. intros x. by apply eq_key_same. Qed.
Lemma find_in_none w S e : (forall x, x ∈ S -> ~ eq_key w x e) -> find_in w S e = None.
Proof.
  intros Hn. unfold find_in. destruct (filter _ _) as [|x l] eqn:E; [done|]. assert (Hx : x ∈ filter (fun x => eq_key w x e) (elements S)) by (rewrite E; by left).
  apply list_elem_of_filter in Hx as [Hx Hs]. apply elem_of_elements in Hs. by apply Hn in Hx.
Qed.
Lemma find_in_none_inv w S e x : find_in w S e = None -> x ∈ S -> ~ eq_key w x e.
Proof.
  unfold find_in. intros E Hx Hk. apply head_None in E. apply elem_of_elements in Hx. assert (Hin : x ∈ filter (fun x => eq_key w x e) (elements S)) by by apply list_elem_of_filter.
  rewrite E in Hin. by apply elem_of_nil in Hin.
Qed.
Lemma find_in_some w S e x : x ∈ S -> eq_key w x e -> (forall y, y ∈ S -> eq_key w y x -> y = x) -> find_in w S e = Some x.
Proof.
  intros Hx Hk Hu. destruct (find_in w S e) as [y|] eqn:E; [|by apply (find_in_none_inv w S e x) in E].
  unfold find_in in E. apply head_Some in E as [l E]. assert (Hy : y ∈ filter (fun x => eq_key w x e) (elements S)) by (rewrite E; by left).
  apply list_elem_of_filter in Hy as [Hy Hs]. apply elem_of_elements in Hs. f_equal. apply Hu; [done|]. eapply eq_key_trans; [done|]. by apply eq_key_sym.
Qed.
Lemma found_find_in w bs S elm b pre post : table_ok w bs -> (forall x, x ∈ S <-> x ∈ concat bs) -> found_at w bs elm b pre post -> find_in w S elm = head post.
Proof.
  intros W HS (Hb & _ & Hp). destruct post as [|x post]; [apply find_in_none; intros x Hx; apply Hp; by apply HS|].
  assert (Hx : x ∈ concat bs) by (apply elem_of_concat; exists b, (pre ++ x :: post); split; [done | set_solver]).
  apply find_in_some; [by apply HS | done|]. intros y Hy E. apply (ok_unique w bs); [done | by apply HS | done | done].
Qed.
Lemma in_memory_entry w w0 e : same_keys w0 w -> is_Some (keys w0 e) -> exists y, elts w !! e = Some y.
Proof. intros E [k Hk]. rewrite <- (E e) in Hk. unfold keys in Hk. destruct (elts w !! e) as [y|]; [by exists y | done]. Qed.
Lemma same_set_hash w elm y : elts w !! elm = Some y -> forall x e, <[elm := Entry (key y) (hte_next y) (hashfn (key y))]> (elts w) !! x = Some e -> exists f, elts w !! x = Some f /\ hte_next e = hte_next f.
Proof. intros Hy x e He. destruct (decide (x = elm)) as [->|Hn]; [rewrite lookup_insert_eq in He; injection He as <-; by exists y | rewrite lookup_insert_ne in He by done; by exists e]. Qed.
Lemma size_members w bs (S : gset Z) : table_ok w bs -> (forall x, x ∈ S <-> x ∈ concat bs) -> size S = length (concat bs).
Proof.
  intros W HS. rewrite <- (size_list_to_set (C := gset Z) (concat bs)) by by eapply ok_nodup. f_equal. apply set_eq. intros x. rewrite HS. by rewrite elem_of_list_to_set.
Qed.
(** A search, up to what is done at the place that it gives. *)
Lemma search_ok w bs elm y : table_ok w bs -> unlinked w bs -> elts w !! elm = Some y ->
  exists w', HT_SET_HASH_ w elm = Some w' /\ table_ok w' bs /\ same_keys w w' /\ unlinked w' bs /\ hth_table w' = hth_table w /\
    (exists y', elts w' !! elm = Some y' /\ hte_hash y' = hashfn (key y') /\ key y' = key y) /\
    match hth_table w with
    | None => HT_FIND_P_ w' elm = Some None /\ bs = []
    | Some t => exists b pre post, HT_FIND_P_ w' elm = Some (Some (place_of b pre)) /\ HT_BUCKET_ w' elm = Some (place_of b []) /\ found_at w' bs elm b pre post /\ get w' (place_of b pre) = Some (head post)
    end.
Proof.
  intros W U Hy. destruct (set_hash_ok w bs elm y W Hy) as (w' & E & Ew & W' & Sk & Hy'). exists w'. split; [done|]. split; [done|]. split; [done|].
  split; [intros x e Hx He; rewrite Ew in He; destruct (same_set_hash w elm y Hy x e He) as (f & Hf & ->); by apply (U x f)|].
  assert (Et : hth_table w' = hth_table w) by by rewrite Ew. split; [done|]. split; [by eexists|]. destruct (hth_table w) as [t|] eqn:T.
  - destruct (HT_FIND_P_ok w' bs elm _ t W' Et Hy') as (b & pre & post & E1 & E2 & Hf); [done|]. exists b, pre, post. split; [done|]. split; [done|]. split; [done|]. by eapply get_found.
  - unfold HT_FIND_P_. rewrite Et. split; [done|]. pose proof (ok_table w bs W) as P. rewrite T in P. apply P.
Qed.

(** ** Each operation. *)
Definition refines w0 w (a : table) (o : op) : Prop :=
  exists w', run_op w o = Some (fst (spec_op w0 a o), w') /\ holds w' (snd (spec_op w0 a o)) /\ same_keys w0 w'.

Lemma find_refines w0 w a e : holds w a -> same_keys w0 w -> legal w0 a (Find e) -> refines w0 w a (Find e).
Proof.
  intros (bs & W & HS & HT & U) Sk [y Hy]%(in_memory_entry w w0 e Sk). destruct (search_ok w bs e y W U Hy) as (w' & E & W' & Sk' & U' & Et & _ & Hf).
  assert (Hs : same_keys w0 w') by by rewrite Sk. assert (Hh : holds w' a) by (exists bs; by rewrite Et). unfold refines, run_op, HT_FIND. rewrite E. cbn [mbind option_bind spec_op fst snd].
  destruct (hth_table w) as [t|].
  - destruct Hf as (b & pre & post & -> & _ & Hf & Hg). cbn [mbind option_bind]. rewrite Hg. cbn [mbind option_bind]. exists w'.
    rewrite <- (find_in_same w' w0) by done. by rewrite (found_find_in w' bs _ e b pre post).
  - destruct Hf as [-> ->]. cbn [mbind option_bind]. exists w'. rewrite find_in_none; [done|]. intros x Hx%HS. by apply elem_of_nil in Hx.
Qed.
Lemma remove_refines w0 w a e : holds w a -> same_keys w0 w -> legal w0 a (Remove e) -> refines w0 w a (Remove e).
Proof.
  intros (bs & W & HS & HT & U) Sk [y Hy]%(in_memory_entry w w0 e Sk). destruct (search_ok w bs e y W U Hy) as (w' & E & W' & Sk' & U' & Et & _ & Hf).
  assert (Hs : same_keys w0 w') by by rewrite Sk. assert (Hh : holds w' a) by (exists bs; by rewrite Et). unfold refines, run_op, HT_REMOVE. rewrite E. cbn [mbind option_bind spec_op fst snd].
  destruct (hth_table w) as [t|] eqn:T; [|destruct Hf as [-> ->]; cbn [mbind option_bind]; exists w'; rewrite find_in_none by (intros x Hx%HS; by apply elem_of_nil in Hx); by destruct a].
  destruct Hf as (b & pre & post & -> & _ & Hf & Hg). cbn [mbind option_bind]. rewrite Hg. cbn [mbind option_bind]. rewrite <- (find_in_same w' w0) by done. rewrite (found_find_in w' bs _ e b pre post) by done.
  destruct post as [|x post]; cbn [head]; [exists w'; by destruct a|]. destruct Hf as (Hb & _). destruct (ok_positive w' bs t W' Et) as (R & _).
  destruct (at_place _ _ _ _ _ _ _ R Hb) as (f & Hx & _). destruct (unlink _ _ _ _ _ _ _ _ R Hb Hx) as (m & t' & Ep & R' & F & Gx & G). rewrite Hx. cbn [mbind option_bind]. unfold put. rewrite Et. cbn [mbind option_bind]. rewrite Ep. cbn [mbind option_bind].
  destruct (set_next_ok m x f None Gx) as (m' & En & Em & F'). cbn [set_elts set_table elts]. rewrite En. cbn [mbind option_bind]. eexists. split; [reflexivity|].
  pose proof (cut_concat _ _ _ _ _ Hb) as C. assert (ND := ok_nodup w' bs W'). rewrite C in ND. apply NoDup_cons in ND as [Hx0 ND]. assert (Fm : fixed (elts w') m') by by rewrite F.
  split; [|rewrite Hs; by apply (fixed_keys w')]. exists (<[b := pre ++ post]> bs). split_and!.
  - apply (table_ok_cut w' bs t m' t' b pre x post); try done. apply (rep_frame m); [|done]. intros z Hz. rewrite Em, lookup_insert_ne; [done|]. by intros <-.
  - intros z. cbn. rewrite elem_of_difference, elem_of_singleton, HS, C, elem_of_cons. split; [tauto|]. intros Hz. split; [by right|]. by intros ->.
  - cbn. rewrite HT. split; done.
  - intros z g Hz. cbn. rewrite Em. destruct (decide (z = x)) as [->|Hn]; [rewrite lookup_insert_eq; by intros [= <-]|]. rewrite lookup_insert_ne by done.
    assert (Hz' : z ∉ concat bs) by (rewrite C; set_solver). rewrite (G z Hz'). by apply U'.
Qed.

(** Growing and searching come before an element is added. *)
Lemma grow_search_ok w0 w a mo ro e : holds w a -> same_keys w0 w -> is_Some (keys w0 e) -> can_add a mo ro ->
  exists w1 w2 bs t b pre post y, grow_if_full mo ro w = Some w1 /\ HT_SET_HASH_ w1 e = Some w2 /\ table_ok w2 bs /\ (forall x, x ∈ members a <-> x ∈ concat bs) /\ unlinked w2 bs /\ same_keys w0 w2 /\
    hth_table w2 = Some t /\ elts w2 !! e = Some y /\ hte_hash y = hashfn (key y) /\ HT_FIND_P_ w2 e = Some (Some (place_of b pre)) /\ HT_BUCKET_ w2 e = Some (place_of b []) /\
    found_at w2 bs e b pre post /\ get w2 (place_of b pre) = Some (head post) /\ Z.of_nat (length (concat bs)) + 1 < 2 ^ 32.
Proof.
  intros (bs & W & HS & HT & U) Sk He [Hn Hm]. rewrite (size_members w bs _ W HS) in Hn. destruct (grow_if_full_ok mo ro w bs W Hn) as (w1 & bs1 & E1 & W1 & C & F & G & Ht).
  assert (Sk1 : same_keys w0 w1) by (rewrite Sk; by apply fixed_keys). destruct (in_memory_entry w1 w0 e Sk1 He) as [y Hy].
  assert (U1 : unlinked w1 bs1) by (intros x f Hx; rewrite C in Hx; rewrite (G x Hx); by apply U).
  destruct (search_ok w1 bs1 e y W1 U1 Hy) as (w2 & E2 & W2 & Sk2 & U2 & Et & (y' & Hy' & Hh & _) & Hf).
  destruct (hth_table w1) as [t|]; [|exfalso; apply Ht; [rewrite <- HT; tauto | done]]. destruct Hf as (b & pre & post & E3 & E4 & Hf & Hg).
  exists w1, w2, bs1, t, b, pre, post, y'. split_and!; try done; [intros x; rewrite C; apply HS | by rewrite Sk1 | rewrite C; unfold max_load in Hn; lia].
Qed.
(** An element put at a place. *)
Lemma added_holds w0 w a bs t b pre post e y m' t' : table_ok w bs -> (forall x, x ∈ members a <-> x ∈ concat bs) -> unlinked w bs -> same_keys w0 w -> hth_table w = Some t ->
  elts w !! e = Some y -> hte_hash y = hashfn (key y) -> bs !! b = Some (pre ++ post) -> placed (elts w) (hth_table_length w) e b -> (forall x, x ∈ concat bs -> ~ eq_key w x e) -> Z.of_nat (length (concat bs)) + 1 < 2 ^ 32 ->
  rep m' t' (<[b := pre ++ e :: post]> bs) -> fixed (elts w) m' -> outside (e :: concat bs) (elts w) m' ->
  let w' := Ht m' (Some t') (hth_table_length w) (u32 (hth_n_entries w + 1)) (hth_load_limit w) (hth_prime_idx w) in holds w' (Table ({[e]} ∪ members a) true) /\ same_keys w0 w'.
Proof.
  intros W HS U Sk Ht Hy Hh Hb Hp Hne Hn R F G w'. split; [|rewrite Sk; by apply (fixed_keys w w')]. exists (<[b := pre ++ e :: post]> bs).
  assert (C : concat (<[b := pre ++ e :: post]> bs) ≡ₚ e :: concat bs). { destruct (buckets_split _ _ _ Hb) as (rest & E1 & E2). rewrite E2, E1. solve_Permutation. }
  split_and!; [by apply (table_ok_add w bs t m' t' b pre post e y) | | done |].
  - intros x. cbn. rewrite C, elem_of_union, elem_of_singleton, HS, elem_of_cons. done.
  - intros x f Hx. rewrite C in Hx. cbn. rewrite (G x Hx). apply U. set_solver.
Qed.
(** An element put in the place of another. *)
Lemma swapped_holds w0 w a bs t b pre r post e y m' t' : table_ok w bs -> (forall x, x ∈ members a <-> x ∈ concat bs) -> unlinked w bs -> same_keys w0 w -> hth_table w = Some t ->
  elts w !! e = Some y -> hte_hash y = hashfn (key y) -> bs !! b = Some (pre ++ r :: post) -> placed (elts w) (hth_table_length w) e b -> eq_key w r e -> e ∉ concat bs ->
  rep m' t' (<[b := pre ++ e :: post]> bs) -> fixed (elts w) m' -> outside (e :: concat bs) (elts w) m' -> (exists g, m' !! r = Some g /\ hte_next g = None) ->
  let w' := Ht m' (Some t') (hth_table_length w) (hth_n_entries w) (hth_load_limit w) (hth_prime_idx w) in holds w' (Table ({[e]} ∪ members a ∖ {[r]}) true) /\ same_keys w0 w'.
Proof.
  intros W HS U Sk Ht Hy Hh Hb Hp Hk He R F G (g & Hg & Hgn) w'. split; [|rewrite Sk; by apply (fixed_keys w w')]. exists (<[b := pre ++ e :: post]> bs).
  destruct (buckets_split _ _ _ Hb) as (rest & C1 & C2). set (l := pre ++ post ++ rest).
  assert (C : concat (<[b := pre ++ e :: post]> bs) ≡ₚ e :: l) by (rewrite C2; unfold l; solve_Permutation). assert (C0 : concat bs ≡ₚ r :: l) by (rewrite C1; unfold l; solve_Permutation).
  assert (ND := ok_nodup w bs W). rewrite C0 in ND. apply NoDup_cons in ND as [Hr ND]. assert (Hin : forall x, x ∈ l -> x ∈ concat bs) by (intros x Hx; rewrite C0; by right).
  assert (Hrin : r ∈ concat bs) by (rewrite C0; by left).
  assert (Hno : forall x, x ∈ l -> ~ eq_key w x e).
  { intros x Hx E. assert (x = r) as ->; [|done]. apply (ok_unique w bs); [done | by apply Hin | done |]. eapply eq_key_trans; [done|]. by apply eq_key_sym. }
  split_and!.
  - apply (table_ok_edit w bs t); try done.
    + apply length_insert.
    + intros c lc x Hc Hx. apply list_lookup_insert_Some in Hc as [(<- & <- & _)|[_ Hc]]; [|by apply (ok_placed w bs W c lc)].
      apply elem_of_app in Hx as [Hx|[->|Hx]%elem_of_cons]; [|done|]; apply (ok_placed w bs W b (pre ++ r :: post)); try done; apply elem_of_app; [by left | right; by right].
    + intros x h Hx Hh'. rewrite C in Hx. apply elem_of_cons in Hx as [->|Hx]; [congruence|]. apply (ok_hash w bs W x); [by apply Hin | done].
    + intros x z Hx Hz E. rewrite C in Hx, Hz. apply elem_of_cons in Hx as [->|Hx], Hz as [->|Hz]; [done | | by apply Hno in E |].
      * apply eq_key_sym in E. by apply Hno in E.
      * apply (ok_unique w bs); [done | by apply Hin | by apply Hin | done].
    + rewrite (ok_count w bs W), C, C0. done.
    + rewrite (ok_count w bs W). apply W.
  - intros x. cbn. rewrite C, elem_of_union, elem_of_difference, !elem_of_singleton, HS, C0, !elem_of_cons. split; [tauto|]. intros [->|Hx]; [by left|]. right. split; [by right|]. by intros ->.
  - done.
  - intros x h Hx. rewrite C in Hx. apply not_elem_of_cons in Hx as [Hxe Hx]. cbn. destruct (decide (x = r)) as [->|Hn]; [rewrite Hg; by intros [= <-]|].
    assert (Hx0 : x ∉ concat bs) by (rewrite C0; by apply not_elem_of_cons). rewrite (G x) by (by apply not_elem_of_cons). by apply U.
Qed.
Lemma insert_refines w0 w a mo ro e : holds w a -> same_keys w0 w -> legal w0 a (Insert mo ro e) -> refines w0 w a (Insert mo ro e).
Proof.
  intros Hw Sk (He & Hfi & Hadd). destruct (grow_search_ok w0 w a mo ro e Hw Sk He Hadd) as (w1 & w2 & bs & t & b & pre & post & y & E1 & E2 & W & HS & U & Sk2 & Ht & Hy & Hh & _ & E4 & (Hb & Hp & _) & _ & Hn).
  unfold refines, run_op, HT_INSERT. rewrite E1. cbn [mbind option_bind]. assert (E : HT_SET_HASH_ (set_count w1 (hth_n_entries w1 + 1)) e = Some (set_count w2 (hth_n_entries w2 + 1))).
  { unfold HT_SET_HASH_ in *. cbn. destruct (elts w1 !! e); [|done]. cbn in *. by injection E2 as <-. }
  rewrite E. cbn [mbind option_bind]. change (HT_BUCKET_ (set_count w2 (hth_n_entries w2 + 1)) e) with (HT_BUCKET_ w2 e). rewrite E4. cbn [mbind option_bind]. unfold get, put. cbn [set_count hth_table elts]. rewrite Ht. cbn [mbind option_bind].
  destruct (ok_positive w2 bs t W Ht) as (R & _). rewrite (get_place _ _ bs b [] (pre ++ post) R Hb). cbn [mbind option_bind].
  assert (Hne : forall x, x ∈ concat bs -> ~ eq_key w2 x e). { intros x Hx. apply (find_in_none_inv w2 (members a)); [by rewrite (find_in_same w2 w0) | by apply HS]. }
  assert (He0 : e ∉ concat bs). { intros Hin. apply (Hne e Hin). exists (key y), (key y). unfold keys. rewrite Hy. split_and!; [done | done |]. apply (@Equivalence_Reflexive _ _ eqfn_equiv). }
  destruct (push_front _ _ _ _ _ _ _ R Hb He0 Hy) as (Ea & m' & Em & R' & F & G). rewrite Em. cbn [mbind option_bind]. cbn [place_of last write_at set_elts hth_table elts mbind option_bind]. change (hth_table (set_count w2 (hth_n_entries w2 + 1))) with (hth_table w2). rewrite Ht. cbn [mbind option_bind]. rewrite Ea. cbn [mbind option_bind].
  rewrite Nat2Z.id. eexists. split; [reflexivity|]. apply (added_holds w0 w2 a bs t b [] (pre ++ post) e y); try done. intros x Hx. apply G. set_solver.
Qed.
Lemma replace_refines w0 w a mo ro e : holds w a -> same_keys w0 w -> legal w0 a (Replace mo ro e) -> refines w0 w a (Replace mo ro e).
Proof.
  intros Hw Sk (He & Hni & Hadd). destruct (grow_search_ok w0 w a mo ro e Hw Sk He Hadd) as (w1 & w2 & bs & t & b & pre & post & y & E1 & E2 & W & HS & U & Sk2 & Ht & Hy & Hh & E3 & _ & Hf & Hg & Hn).
  unfold refines, run_op, HT_REPLACE. rewrite E1. cbn [mbind option_bind]. rewrite E2. cbn [mbind option_bind]. rewrite E3. cbn [mbind option_bind]. rewrite Hg. cbn [mbind option_bind].
  destruct (ok_positive w2 bs t W Ht) as (R & _). unfold put. rewrite Ht. cbn [mbind option_bind spec_op fst snd]. rewrite <- (find_in_same w2 w0), (found_find_in w2 bs _ e b pre post W HS Hf) by done.
  assert (He0 : e ∉ concat bs) by by rewrite <- HS. assert (Hne0 : hte_next y = None) by by apply (U e y). destruct Hf as (Hb & Hp & Hk). destruct post as [|r post]; cbn [head].
  - destruct (put_place (elts w2) t bs b pre [] (Some e) [e] R Hb) as (m' & t' & -> & R' & F & G); [cbn; split; [done|]; by exists y | |].
    { destruct (buckets_split _ _ _ Hb) as (rest & C1 & C2). rewrite C2. assert (C : (pre ++ [e]) ++ rest ≡ₚ e :: concat bs) by (rewrite C1; solve_Permutation). rewrite C. constructor; [done | apply R]. }
    cbn [mbind option_bind]. eexists. split; [reflexivity|]. apply (added_holds w0 w2 a bs t b pre [] e y); try done. intros x Hx. apply G. intros Hl. apply Hx. right. apply elem_of_concat. exists b, (pre ++ []). split; [done|].
    apply last_Some in Hl as [q ->]. set_solver.
  - destruct (at_place _ _ _ _ _ _ _ R Hb) as (f & Hr & _). destruct (swap _ t bs b pre r post e f R Hb He0) as (m1 & t1 & m2 & m3 & -> & G1 & S2 & S3 & R' & F & G & (g & Hgr & Hgn)); [by exists y | done|].
    cbn [mbind option_bind]. rewrite (proj2 (Z.eqb_neq r e)); [|intros ->; apply He0, elem_of_concat; exists b, (pre ++ e :: post); split; [done | apply elem_of_app; right; by left]].
    cbn [set_table set_elts elts]. rewrite G1. cbn [mbind option_bind]. rewrite S2. cbn [mbind option_bind]. rewrite S3. cbn [mbind option_bind]. eexists. split; [reflexivity|].
    apply (swapped_holds w0 w2 a bs t b pre r post e y); try done. by exists g.
Qed.
Lemma find_or_insert_refines w0 w a mo ro e new : holds w a -> same_keys w0 w -> legal w0 a (FindOrInsert mo ro e new) -> refines w0 w a (FindOrInsert mo ro e new).
Proof.
  intros Hw Sk (He & Hk & Hni & Hadd). destruct (grow_search_ok w0 w a mo ro e Hw Sk He Hadd) as (w1 & w2 & bs & t & b & pre & post & y & E1 & E2 & W & HS & U & Sk2 & Ht & Hy & Hh & E3 & _ & Hf & Hg & Hn).
  unfold refines, run_op, HT_FIND_OR_INSERT_. rewrite E1. cbn [mbind option_bind]. rewrite E2. cbn [mbind option_bind]. rewrite E3. cbn [mbind option_bind]. rewrite Hg. cbn [mbind option_bind spec_op].
  rewrite <- (find_in_same w2 w0), (found_find_in w2 bs _ e b pre post W HS Hf) by done. destruct Hf as (Hb & Hp & Hnf). destruct post as [|x post]; cbn [head fst snd].
  2: { exists w2. split; [done|]. split; [|done]. exists bs. split_and!; [done | done | by rewrite Ht | done]. }
  assert (Hk2 : eq_key w2 new e) by by apply (eq_key_same w0 w2). destruct Hk2 as (kn & ke & Hkn & Hke & Eq). assert (Hn0 : new ∉ concat bs) by by rewrite <- HS.
  unfold keys in Hkn, Hke. rewrite Hy in Hke. injection Hke as <-. destruct (elts w2 !! new) as [x|] eqn:Hx; [|done]. injection Hkn as <-.
  unfold HT_FOI_INSERT_, HT_ELT_HASH_. rewrite Hy, Hx. cbn [fmap option_fmap option_map mbind option_bind]. set (m1 := <[new := Entry (key x) None (hte_hash y)]> (elts w2)). set (w3 := set_elts w2 m1).
  assert (W3 : table_ok w3 bs). { apply ht_frame; [done|]. intros z Hz. unfold m1. rewrite lookup_insert_ne; [done|]. by intros <-. }
  assert (Sk3 : same_keys w2 w3). { intros z. unfold keys, w3, m1. cbn. destruct (decide (z = new)) as [->|]; [by rewrite lookup_insert_eq, Hx | by rewrite lookup_insert_ne]. }
  destruct (ok_positive w3 bs t W3 Ht) as (R & _). unfold put. change (hth_table w3) with (hth_table w2). rewrite Ht. cbn [mbind option_bind].
  destruct (put_place m1 t bs b pre [] (Some new) [new] R Hb) as (m' & t' & Ep & R' & F & G).
  { cbn. split; [done|]. eexists. unfold m1. by rewrite lookup_insert_eq. }
  { destruct (buckets_split _ _ _ Hb) as (rest & C1 & C2). rewrite C2. assert (C : (pre ++ [new]) ++ rest ≡ₚ new :: concat bs) by (rewrite C1; solve_Permutation). rewrite C. constructor; [done | apply R]. }
  change (elts w3) with m1. rewrite Ep. cbn [mbind option_bind]. eexists. split; [reflexivity|].
  apply (added_holds w0 w3 a bs t b pre [] new (Entry (key x) None (hte_hash y)) m' t' W3 HS); try done.
  - intros z f Hz. cbn. unfold m1. rewrite lookup_insert_Some. intros [[<- <-]|[_ Hf]]; [done|]. by apply (U z).
  - by rewrite Sk2.
  - unfold w3, m1. cbn. apply lookup_insert_eq.
  - cbn. by rewrite (eqfn_hash _ _ Eq).
  - unfold placed, hash_of in *. cbn. unfold m1. rewrite lookup_insert_eq. rewrite Hy in Hp. done.
  - intros z Hz E. apply (Hnf z Hz). apply (eq_key_same w2 w3) in E; [|done]. eapply eq_key_trans; [done|]. by apply (eq_key_same w0 w2).
  - intros z [Hzn Hz]%not_elem_of_cons. apply G. intros Hl%last_in. apply Hz, elem_of_concat. exists b, (pre ++ []). split; [done|]. apply elem_of_app. by left.
Qed.
Lemma op_refines w0 w a o : holds w a -> same_keys w0 w -> legal w0 a o -> refines w0 w a o.
Proof. destruct o; [apply find_refines | apply insert_refines | apply replace_refines | apply remove_refines | apply find_or_insert_refines]. Qed.

(** C18: Finding, inserting, replacing, removing and finding or inserting, in any
    order from an empty table on, give what they give on a set of elements with
    different keys, and the table holds that set: nothing is lost or
    duplicated when the table grows, in either of its ways, or cannot grow. *)
Theorem ht_refines_set w os : (forall x e, elts w !! x = Some e -> hte_next e = None) -> legal_run w (Table ∅ false) os ->
  exists w', run (HT_INIT w) os = Some (fst (spec_run w (Table ∅ false) os), w') /\ holds w' (snd (spec_run w (Table ∅ false) os)).
Proof.
  intros U. assert (H0 : holds (HT_INIT w) (Table ∅ false)). { exists []. split; [apply table_ok_init|]. split; [intros x; cbn; by rewrite elem_of_empty, elem_of_nil|]. split; [cbn; split; [done | congruence]|]. by intros x e _ He; apply (U x). }
  revert H0. generalize (Table ∅ false) as a. assert (Sk : same_keys w (HT_INIT w)) by done. revert Sk. generalize (HT_INIT w) as v.
  induction os as [|o os IH]; intros v Sk a Hv Hl; [by exists v|]. destruct Hl as [Hl Hls]. destruct (op_refines w v a o Hv Sk Hl) as (v1 & E & Hv1 & Sk1). cbn [run spec_run]. rewrite E.
  cbn [mbind option_bind]. destruct (spec_op w a o) as [r a1]. cbn [fst snd] in *. destruct (IH v1 Sk1 a1 Hv1 Hls) as (v2 & E2 & Hv2). rewrite E2. cbn [mbind option_bind].
  destruct (spec_run w a1 os) as [rs a2]. cbn [fst snd] in *. by exists v2.
Qed.
End Props.

(** * Visiting the elements of a hash table

    The traversals meet each element once, clearing a table frees each
    once, and the check of a table accepts every table that the operations make. *)
Section Visit.
Context {K : Type} `{HL : HashLaws K}.
Implicit Types (w : ht K) (bs : list (list Z)).

Lemma indices_from (a n : nat) : indices (Z.of_nat a) (Z.of_nat n) = map Z.of_nat (seq a (n - a)).
Proof. unfold indices. by rewrite !Nat2Z.id. Qed.
(** The next bucket that is not empty. *)
Lemma first_bucket_ok w bs t k : forall a, table_ok w bs -> hth_table w = Some t -> (a + k = length bs)%nat ->
  first_bucket w (map Z.of_nat (seq a k)) = Some None /\ concat (drop a bs) = [] \/
  exists b x l, first_bucket w (map Z.of_nat (seq a k)) = Some (Some (Bucket (Z.of_nat b))) /\ (a <= b)%nat /\ bs !! b = Some (x :: l) /\ concat (drop a bs) = concat (drop b bs).
Proof.
  induction k as [|k IH]; intros a W Ht Hk; cbn [seq map first_bucket].
  - left. split; [done|]. by rewrite drop_ge by lia.
  - destruct (lookup_lt_is_Some_2 bs a) as [l Hl]; [lia|]. destruct (ok_positive w bs t W Ht) as (R & _). unfold get at 1 2. rewrite Ht. cbn [mbind option_bind].
    rewrite (get_place _ _ bs a [] l R Hl : read_at (elts w) t (Bucket (Z.of_nat a)) = _). cbn [mbind option_bind]. destruct l as [|x l]; cbn [head].
    + assert (D : concat (drop a bs) = concat (drop (S a) bs)) by by rewrite (drop_S bs [] a). destruct (IH (S a) W Ht) as [[E E0]|(b & x & l & E & Hb & Hl' & E0)]; [lia | left; by rewrite D|].
      right. exists b, x, l. rewrite D. split_and!; [done | lia | done | done].
    + right. exists a, x, l. by split_and!.
Qed.
Lemma next_bucket_ok w bs t b h : table_ok w bs -> hth_table w = Some t -> h mod hth_table_length w = Z.of_nat b ->
  next_bucket w h = first_bucket w (map Z.of_nat (seq (S b) (length bs - S b))).
Proof.
  intros W Ht Hp. destruct (ok_positive w bs t W Ht) as (R & L & Hpos). unfold next_bucket. rewrite (proj2 (Z.eqb_neq _ _)) by lia.
  rewrite Hp, L, (rep_length _ _ _ R). replace (Z.of_nat b + 1) with (Z.of_nat (S b)) by lia. by rewrite indices_from.
Qed.
Lemma hash_index w bs b l x e : table_ok w bs -> bs !! b = Some l -> x ∈ l -> elts w !! x = Some e -> hte_hash e mod hth_table_length w = Z.of_nat b.
Proof. intros W Hb Hx He. pose proof (ok_placed w bs W b l x Hb Hx) as P. unfold placed, hash_of in P. by rewrite He in P. Qed.
Lemma HT_START_ok w bs t : table_ok w bs -> hth_table w = Some t -> HT_START w = first_bucket w (map Z.of_nat (seq 0 (length bs))).
Proof. intros W Ht. destruct (ok_positive w bs t W Ht) as (R & L & _). unfold HT_START. by rewrite L, (rep_length _ _ _ R), indices_map. Qed.
Lemma get_here w bs t b pre post : table_ok w bs -> hth_table w = Some t -> bs !! b = Some (pre ++ post) -> get w (place_of b pre) = Some (head post).
Proof. intros W Ht Hb. destruct (ok_positive w bs t W Ht) as (R & _). unfold get. rewrite Ht. by apply (get_place _ _ bs). Qed.
Lemma drop_bucket bs b l : bs !! b = Some l -> concat (drop b bs) = l ++ concat (drop (S b) bs).
Proof. intros Hb. by rewrite (drop_S bs l b). Qed.

(** ** The loop of HT_FOREACH. *)
Lemma foreach_loop_ok w bs t n : table_ok w bs -> hth_table w = Some t -> forall turns b pre x post, bs !! b = Some (pre ++ x :: post) ->
  n = length ((x :: post) ++ concat (drop (S b) bs)) -> (n <= turns)%nat -> foreach_loop turns w (Some (place_of b pre)) = Some ((x :: post) ++ concat (drop (S b) bs)).
Proof.
  intros W Ht. induction n as [n IH] using lt_wf_ind. intros turns b pre x post Hb Hn Htu. destruct turns as [|turns]; [cbn in *; lia|]. cbn [foreach_loop].
  destruct (ok_positive w bs t W Ht) as (R & _). destruct (at_place _ _ _ _ _ _ _ R Hb) as (e & He & Hnx & _). unfold HT_NEXT. rewrite (get_here w bs t b pre _ W Ht Hb). cbn [head mbind option_bind]. rewrite He. cbn [mbind option_bind].
  rewrite Hnx. destruct post as [|y post]; cbn [head].
  - rewrite (next_bucket_ok w bs t b _ W Ht) by (apply (hash_index w bs b _ x e W Hb); [apply elem_of_app; right; by left | done]). assert (Hlt := lookup_lt_Some _ _ _ Hb).
    destruct (first_bucket_ok w bs t (length bs - S b) (S b) W Ht) as [[-> ->]|(c & y & l & -> & Hc & Hl & E)]; [lia | by destruct turns|]. cbn [mbind option_bind].
    change (Bucket (Z.of_nat c)) with (place_of c []). rewrite E, (drop_bucket _ _ _ Hl) in *. cbn in Hn, Htu. rewrite (IH (length ((y :: l) ++ concat (drop (S c) bs))) ltac:(cbn; lia) turns c [] y l Hl eq_refl ltac:(cbn; lia)). done.
  - cbn [mbind option_bind]. rewrite <- (place_snoc b pre x). cbn in Hn, Htu. assert (Hb' : bs !! b = Some ((pre ++ [x]) ++ y :: post)) by by rewrite <- app_assoc. rewrite (IH (length ((y :: post) ++ concat (drop (S b) bs))) ltac:(cbn; lia) turns b (pre ++ [x]) y post Hb' eq_refl ltac:(cbn; lia)). done.
Qed.
Lemma HT_FOREACH_ok w bs : table_ok w bs -> HT_FOREACH w = Some (concat bs).
Proof.
  intros W. pose proof (ok_table w bs W) as T. unfold HT_FOREACH. destruct (hth_table w) as [t|] eqn:Ht.
  - rewrite (HT_START_ok w bs t W Ht). destruct (first_bucket_ok w bs t (length bs) 0 W Ht) as [[-> E]|(b & x & l & -> & _ & Hb & E)]; [done | rewrite drop_0 in E; by rewrite E |].
    cbn [mbind option_bind]. rewrite drop_0, (drop_bucket _ _ _ Hb) in E. change (Bucket (Z.of_nat b)) with (place_of b []). rewrite (foreach_loop_ok w bs t _ W Ht _ b [] x l Hb eq_refl); [by rewrite E|].
    rewrite <- E. destruct T as [R _]. pose proof (rep_bound _ _ _ R). unfold walk. lia.
  - destruct T as [-> L]. unfold HT_START, indices. by rewrite L.
Qed.
(** HT_FOREACH ends after it has visited every element of the table once. *)
Theorem ht_foreach_once w a : holds w a -> exists l, HT_FOREACH w = Some l /\ NoDup l /\ forall x, x ∈ l <-> x ∈ members a.
Proof. intros (bs & W & HS & _). exists (concat bs). split; [by apply HT_FOREACH_ok|]. split; [by eapply ok_nodup|]. intros x. by rewrite HS. Qed.

(** ** Removing while visiting. *)
Lemma remove_first w bs t b x post e : table_ok w bs -> hth_table w = Some t -> bs !! b = Some (x :: post) -> elts w !! x = Some e ->
  exists w', put w (Bucket (Z.of_nat b)) (hte_next e) = Some w' /\ let w'' := set_count w' (hth_n_entries w' - 1) in
    table_ok w'' (<[b := post]> bs) /\ fixed (elts w) (elts w'') /\ outside (concat bs) (elts w) (elts w'') /\ hth_table w'' <> None /\ hte_next e = head post /\ hth_table_length w'' = hth_table_length w.
Proof.
  intros W Ht Hb He. destruct (ok_positive w bs t W Ht) as (R & _). destruct (at_place _ _ _ b [] x post R Hb) as (e' & He' & Hnx & _). replace e' with e in * by congruence.
  destruct (HashInv.unlink _ _ _ b [] x post e R Hb He) as (m' & t' & E & R' & F & _ & G). unfold put. rewrite Ht. cbn [mbind option_bind]. cbn [place_of last] in E. rewrite E. cbn [mbind option_bind]. eexists. split; [reflexivity|].
  split_and!; [|done | done | done | done | done]. by apply (table_ok_cut w bs t m' t' b [] x post).
Qed.
(** The memory after elements were freed. *)
Definition freed w (l : list Z) (w' : ht K) : Prop := (forall x, x ∈ l -> elts w' !! x = None) /\ forall x, x ∉ l -> keys w' x = keys w x.
Lemma clear_loop_ok n : forall turns w bs t b x post, table_ok w bs -> hth_table w = Some t -> bs !! b = Some (x :: post) -> concat (take b bs) = [] -> n = length (concat bs) -> (n <= turns)%nat ->
  exists w', clear_loop turns w (Some (Bucket (Z.of_nat b))) = Some (concat bs, w') /\ freed w (concat bs) w' /\ outside (concat bs) (elts w) (elts w').
Proof.
  induction n as [|n IH]; intros turns w bs t b x post W Ht Hb E Hn Htu; [pose proof (cut_concat bs b [] x post Hb) as C; rewrite C in Hn; done|].
  destruct turns as [|turns]; [lia|]. cbn [clear_loop]. pose proof (get_here w bs t b [] _ W Ht Hb) as Hg. cbn [place_of last head] in Hg. rewrite Hg. cbn [mbind option_bind].
  assert (Hin : x ∈ concat bs) by (apply elem_of_concat; exists b, (x :: post); split; [done | by left]). destruct (ok_members_key w bs x W Hin) as [e He].
  unfold HT_NEXT_RMV. rewrite Hg. cbn [mbind option_bind]. rewrite He. cbn [mbind option_bind]. destruct (remove_first w bs t b x post e W Ht Hb He) as (w1 & -> & W2 & F2 & G2 & T2 & Hnx & Len). cbn [mbind option_bind].
  set (w2 := set_count w1 (hth_n_entries w1 - 1)) in *. set (bs1 := <[b := post]> bs) in *. set (w3 := set_elts w2 (delete x (elts w2))).
  assert (Hlt := lookup_lt_Some _ _ _ Hb). assert (Hb1 : bs1 !! b = Some post) by (unfold bs1; by apply list_lookup_insert_eq).
  assert (Ebs : concat bs = x :: concat bs1). { unfold bs1. rewrite insert_take_drop by done. rewrite <- (take_drop_middle bs b _ Hb) at 1. rewrite !concat_app, E. done. }
  assert (ND := ok_nodup w bs W). rewrite Ebs in ND, Hn. apply NoDup_cons in ND as [Hx ND]. cbn in Hn. assert (E1 : concat (take b bs1) = []) by (unfold bs1; by rewrite take_insert_ge by lia).
  assert (W3 : table_ok w3 bs1). { apply ht_frame; [done|]. intros z Hz. rewrite lookup_delete_ne; [done|]. by intros <-. }
  assert (Hf : forall w', freed w3 (concat bs1) w' /\ outside (concat bs1) (elts w3) (elts w') -> freed w (concat bs) w' /\ outside (concat bs) (elts w) (elts w')).
  { intros w' [[A1 A2] A3]. rewrite Ebs. split; [split|].
    - intros z [->|Hz]%elem_of_cons; [|by apply A1]. rewrite A3 by done. cbn. by rewrite lookup_delete_eq.
    - intros z [Hzx Hz]%not_elem_of_cons. rewrite A2 by done. rewrite <- (fixed_keys w w2 F2 z). unfold keys, w3. cbn. by rewrite lookup_delete_ne.
    - intros z Hz. assert (Hz' := Hz). rewrite <- Ebs in Hz'. apply not_elem_of_cons in Hz as [Hzx Hz]. rewrite A3 by done. cbn. rewrite lookup_delete_ne by done. by apply G2. }
  destruct (hth_table w2) as [t2|] eqn:T2'; [|done]. rewrite Hnx. destruct post as [|y post]; cbn [head].
  - assert (Hmod : hte_hash e mod hth_table_length w2 = Z.of_nat b).
    { rewrite Len. by apply (hash_index w bs b [x] x e W Hb); [left|]. }
    rewrite (next_bucket_ok w2 bs1 t2 b _ W2 T2' Hmod).
    assert (E2 : concat bs1 = concat (drop (S b) bs1)). { rewrite <- (take_drop b bs1) at 1. rewrite concat_app, E1, (drop_bucket bs1 b [] Hb1). done. }
    assert (Hlen : length bs1 = length bs) by apply length_insert.
    destruct (first_bucket_ok w2 bs1 t2 (length bs1 - S b) (S b) W2 T2') as [[-> E3]|(c & y & l & -> & Hc & Hl & E3)]; [lia| |]; cbn [mbind option_bind]; fold w3.
    + exists w3. assert (E4 : concat bs1 = []) by by rewrite E2. split; [rewrite Ebs, E4; by destruct turns|]. apply Hf. rewrite E4. split; [split; [by intros z ?%elem_of_nil | done] | done].
    + destruct (IH turns w3 bs1 t2 c y l W3 T2' Hl) as (w' & -> & A); [|lia|lia|].
      { apply (app_inv_tail (concat (drop c bs1))). rewrite <- concat_app, take_drop, E2, E3. done. }
      cbn [mbind option_bind]. exists w'. split; [by rewrite Ebs|]. by apply Hf.
  - cbn [mbind option_bind]. fold w2. fold w3. destruct (IH turns w3 bs1 t2 b y post W3 T2' Hb1 E1) as (w' & -> & A); [lia | lia |]. cbn [mbind option_bind]. exists w'. rewrite Ebs. split; [done|]. rewrite <- Ebs. by apply Hf.
Qed.
(** The loops that clear a table (evmap_io_clear_, event_disable_debug_mode) free every
    element of it once, touch no element after it was freed and none that is
    not in the table, and leave an empty table. *)
Theorem ht_clear_frees w a : holds w a ->
  exists l w', clear_table w = Some (l, w') /\ NoDup l /\ (forall x, x ∈ l <-> x ∈ members a) /\ holds w' (Table ∅ false) /\ freed w l w'.
Proof.
  intros (bs & W & HS & _ & U). pose proof (ok_table w bs W) as T. assert (Hm : forall w', outside (concat bs) (elts w) (elts w') /\ freed w (concat bs) w' -> holds (HT_CLEAR w') (Table ∅ false)).
  { intros w' [G [Hf _]]. exists []. split; [apply table_ok_init|]. split; [intros x; cbn; by rewrite elem_of_empty, elem_of_nil|]. split; [cbn; split; [done | congruence]|].
    intros x e _ He. cbn in He. destruct (decide (x ∈ concat bs)) as [Hx|Hx]; [by rewrite (Hf x Hx) in He|]. rewrite (G x Hx) in He. by apply (U x). }
  exists (concat bs). unfold clear_table. destruct (hth_table w) as [t|] eqn:Ht.
  - rewrite (HT_START_ok w bs t W Ht). destruct (first_bucket_ok w bs t (length bs) 0 W Ht) as [[-> E]|(b & x & l & -> & _ & Hb & E)]; [done | |]; cbn [mbind option_bind]; rewrite drop_0 in E.
    + exists (HT_CLEAR w). rewrite E in *. cbn. split; [done|]. split; [constructor|]. split; [intros x; symmetry; apply HS|]. split; [apply Hm; split; [done|]|]; by split; [intros x ?%elem_of_nil|].
    + destruct (clear_loop_ok (length (concat bs)) (walk w) w bs t b x l W Ht Hb) as (w' & -> & Hf & G); [|done| |].
      { apply (app_inv_tail (concat (drop b bs))). by rewrite <- concat_app, take_drop, E. }
      { destruct T as [R _]. pose proof (rep_bound _ _ _ R). unfold walk. lia. }
      cbn [mbind option_bind]. eexists. split; [done|]. split; [by eapply ok_nodup|]. split; [intros z; symmetry; apply HS|]. split; [by apply Hm | done].
  - destruct T as [-> L]. exists (HT_CLEAR w). unfold HT_START, indices. rewrite L. cbn. split; [done|]. split; [constructor|]. split; [intros x; symmetry; apply HS|]. split; [apply Hm; split; [done|]|]; by split; [intros x ?%elem_of_nil|].
Qed.

(** ** HT_FOREACH_FN. *)
Section Foreach.
Context {D : Type} (fn : D -> Z -> K -> bool * D).
(** What calling the function on a list of elements keeps, and its data in the end. *)
Fixpoint visit (kk : Z -> option K) (l : list Z) (data : D) : list Z * D :=
  match l with
  | [] => ([], data)
  | x :: l => match kk x with
              | Some k => let '(r, data) := fn data x k in let '(kept, data) := visit kk l data in (if r then kept else x :: kept, data)
              | None => (l, data)
              end
  end.
Lemma visit_same kk kk' l : (forall x, kk' x = kk x) -> forall data, visit kk' l data = visit kk l data.
Proof. intros E. induction l as [|x l IH]; intros data; cbn; [done|]. rewrite E. destruct (kk x); [|done]. destruct (fn data x k) as [r d]. by rewrite IH. Qed.
Lemma visit_kept kk l : forall data x, x ∈ fst (visit kk l data) -> x ∈ l.
Proof.
  induction l as [|y l IH]; intros data x; cbn; [done|]. destruct (kk y); [|intros ?; by right]. destruct (fn data y k) as [r d]. pose proof (IH d x) as I. destruct (visit kk l d) as [kept d']. cbn in *.
  destruct r; [intros Hx; right; by apply I|]. intros [->|Hx]%elem_of_cons; [by left | right; by apply I].
Qed.
Lemma visit_app kk l1 : forall l2 data, (forall x, x ∈ l1 -> kk x <> None) -> visit kk (l1 ++ l2) data = let '(k1, d1) := visit kk l1 data in let '(k2, d2) := visit kk l2 d1 in (k1 ++ k2, d2).
Proof.
  induction l1 as [|x l1 IH]; intros l2 data Hk; cbn; [by destruct (visit kk l2 data)|]. destruct (kk x) as [k|] eqn:E; [|by destruct (Hk x); [left|]].
  destruct (fn data x k) as [r d]. rewrite IH by (intros z Hz; apply Hk; by right). destruct (visit kk l1 d) as [k1 d1], (visit kk l2 d1) as [k2 d2]. by destruct r.
Qed.
Lemma foreach_bucket_ok post : forall turns w bs t b pre data, table_ok w bs -> hth_table w = Some t -> bs !! b = Some (pre ++ post) -> (length post <= turns)%nat -> let '(kept, data') := visit (keys w) post data in
  exists w', foreach_bucket fn turns w (place_of b pre) data = Some (w', data') /\ table_ok w' (<[b := pre ++ kept]> bs) /\ hth_table w' <> None /\ fixed (elts w) (elts w') /\ outside (concat bs) (elts w) (elts w').
Proof.
  induction post as [|x post IH]; intros turns w bs t b pre data W Ht Hb Htu.
  - cbn [visit]. exists w. rewrite list_insert_id by done. assert (E : foreach_bucket fn turns w (place_of b pre) data = Some (w, data)) by (destruct turns; cbn [foreach_bucket]; by rewrite (get_here w bs t b pre [] W Ht Hb)).
    split; [done|]. split; [done|]. by rewrite Ht.
  - destruct turns as [|turns]; [cbn in Htu; lia|]. cbn [visit foreach_bucket]. rewrite (get_here w bs t b pre _ W Ht Hb). cbn [head mbind option_bind].
    destruct (ok_positive w bs t W Ht) as (R & _). destruct (at_place _ _ _ _ _ _ _ R Hb) as (e & He & _). rewrite He. cbn [mbind option_bind]. unfold keys at 1. rewrite He. cbn [fmap option_fmap option_map].
    destruct (fn data x (key e)) as [r d]. cbn in Htu. destruct r.
    + destruct (HashInv.unlink _ _ _ _ _ _ _ _ R Hb He) as (m' & t' & E & R' & F & _ & G). unfold put. change (hth_table (set_count w (hth_n_entries w - 1))) with (hth_table w). rewrite Ht. cbn [mbind option_bind].
      change (elts (set_count w (hth_n_entries w - 1))) with (elts w). rewrite E. cbn [mbind option_bind]. set (w1 := set_table _ t'). set (bs1 := <[b := pre ++ post]> bs) in *.
      assert (W1 : table_ok w1 bs1) by by apply (table_ok_cut w bs t m' t' b pre x post). assert (Hlt := lookup_lt_Some _ _ _ Hb). assert (Hb1 : bs1 !! b = Some (pre ++ post)) by by apply list_lookup_insert_eq.
      pose proof (IH turns w1 bs1 t' b pre d W1 eq_refl Hb1 ltac:(lia)) as I.
      rewrite (visit_same (keys w) (keys w1) post (fixed_keys w w1 F)) in I. destruct (visit (keys w) post d) as [kept d']. destruct I as (w' & E' & W' & T' & F' & G'). exists w'. unfold bs1 in W'. rewrite list_insert_insert_eq in W'. split; [done|]. split; [done|]. split; [done|].
      split; [transitivity m'; [done | exact F']|]. intros z Hz. rewrite (G' z); [by apply G|]. intros Hz'. apply Hz. rewrite (cut_concat _ _ _ _ _ Hb). by right.
    + rewrite <- (place_snoc b pre x). assert (Hb1 : bs !! b = Some ((pre ++ [x]) ++ post)) by by rewrite <- app_assoc. pose proof (IH turns w bs t b (pre ++ [x]) d W Ht Hb1 ltac:(lia)) as I.
      destruct (visit (keys w) post d) as [kept d']. destruct I as (w' & E' & W' & I). rewrite <- app_assoc in W'. by exists w'.
Qed.
Lemma foreach_buckets_ok k : forall turns a w bs t data, table_ok w bs -> hth_table w = Some t -> (a + k = length bs)%nat -> (size (elts w) <= turns)%nat -> let '(kept, data') := visit (keys w) (concat (drop a bs)) data in
  exists w' bs', foreach_buckets fn turns w (map Z.of_nat (seq a k)) data = Some (w', data') /\ table_ok w' bs' /\ concat bs' ≡ₚ concat (take a bs) ++ kept /\ fixed (elts w) (elts w') /\ outside (concat bs) (elts w) (elts w') /\ hth_table w' <> None.
Proof.
  induction k as [|k IH]; intros turns a w bs t data W Ht Hk Htu.
  - rewrite drop_ge by lia. cbn. exists w, bs. rewrite take_ge by lia. rewrite app_nil_r, Ht. done.
  - cbn [seq map foreach_buckets]. destruct (lookup_lt_is_Some_2 bs a) as [l Hl]; [lia|]. rewrite (drop_bucket bs a l Hl). destruct (ok_positive w bs t W Ht) as (R & _). pose proof (bucket_bound _ _ _ _ _ R Hl).
    rewrite visit_app; [|intros x Hx; destruct (ok_members_key w bs x W) as [e He]; [apply elem_of_concat; by exists a, l | unfold keys; by rewrite He]].
    pose proof (visit_kept (keys w) l data) as Hkept. pose proof (foreach_bucket_ok l turns w bs t a [] data W Ht Hl ltac:(lia)) as I. destruct (visit (keys w) l data) as [k1 d1]. destruct I as (w1 & E1 & W1 & T1 & F1 & G1). cbn [place_of last app] in E1, W1. rewrite E1. cbn [mbind option_bind].
    destruct (hth_table w1) as [t1|] eqn:Ht1; [|done]. set (bs1 := <[a := k1]> bs) in *. pose proof (IH turns (S a) w1 bs1 t1 d1 W1 Ht1) as I. assert (L1 : length bs1 = length bs) by apply length_insert.
    rewrite (visit_same (keys w) (keys w1) _ (fixed_keys w w1 F1)) in I. replace (drop (S a) bs1) with (drop (S a) bs) in I by (unfold bs1; by rewrite drop_insert_lt by lia). destruct (visit (keys w) (concat (drop (S a) bs)) d1) as [k2 d2].
    destruct I as (w' & bs' & E2 & W2 & C2 & F2 & G2 & T2); [lia | by rewrite <- (fixed_size _ _ F1) |]. rewrite E2. exists w', bs'. split; [done|]. split; [done|].
    assert (Hlt := lookup_lt_Some _ _ _ Hl). assert (Ta : take (S a) bs1 = take a bs ++ [k1]) by (rewrite (take_S_r bs1 a k1) by (by apply list_lookup_insert_eq); unfold bs1; by rewrite take_insert_ge by lia).
    split; [rewrite C2, Ta, concat_app; cbn; rewrite app_nil_r, <- app_assoc; done|]. split; [by rewrite F1|]. split; [|done].
    intros z Hz. rewrite (G2 z), (G1 z); [done | done|]. intros (c & lc & Hc & Hz')%elem_of_concat. apply Hz. apply elem_of_concat. apply list_lookup_insert_Some in Hc as [(<- & <- & _)|[_ Hc]]; [exists a, l; split; [done | by apply Hkept] | by exists c, lc].
Qed.
(** The function is called on every element once, with the data of the call before, and the
    table keeps the elements for which it gave 0. *)
Theorem ht_foreach_fn_keeps w a data : holds w a -> exists l w' bs', NoDup l /\ (forall x, x ∈ l <-> x ∈ members a) /\
  let '(kept, data') := visit (keys w) l data in HT_FOREACH_FN fn w data = Some (w', data') /\ table_ok w' bs' /\ concat bs' ≡ₚ kept /\ same_keys w w'.
Proof.
  intros (bs & W & HS & _). pose proof (ok_table w bs W) as T. unfold HT_FOREACH_FN. exists (concat bs). destruct (hth_table w) as [t|] eqn:Ht.
  - pose proof (foreach_buckets_ok (length bs) (walk w) 0 w bs t data W Ht eq_refl ltac:(unfold walk; lia)) as I. rewrite drop_0 in I. destruct (visit (keys w) (concat bs) data) as [kept d].
    destruct I as (w' & bs' & E & W' & C & F & _). exists w', bs'. split; [by eapply ok_nodup|]. split; [intros x; symmetry; apply HS|]. destruct T as [R L]. rewrite L, (rep_length _ _ _ R), indices_map, E. split_and!; [done | done | done | by apply fixed_keys].
  - destruct T as [-> L]. exists w, []. split; [constructor|]. split; [intros x; symmetry; apply HS|]. cbn. done.
Qed.
End Foreach.

(** ** The check. *)
Lemma rep_bucket_ok post : forall turns w bs t b pre n, table_ok w bs -> hth_table w = Some t -> bs !! b = Some (pre ++ post) -> (length post <= turns)%nat -> 0 <= n -> n + Z.of_nat (length post) < 2 ^ 32 ->
  rep_bucket turns w (Z.of_nat b) n (head post) = Some (inl (n + Z.of_nat (length post))).
Proof.
  induction post as [|x post IH]; intros turns w bs t b pre n W Ht Hb Htu Hn Hs; [destruct turns; cbn; do 2 f_equal; lia|]. destruct turns as [|turns]; [cbn in Htu; lia|]. cbn [head rep_bucket].
  destruct (ok_positive w bs t W Ht) as (R & _). destruct (at_place _ _ _ _ _ _ _ R Hb) as (e & He & Hnx & _). rewrite He. cbn [mbind option_bind]. assert (Hin : x ∈ pre ++ x :: post) by (apply elem_of_app; right; by left).
  rewrite <- (ok_hash w bs W x e); [|apply elem_of_concat; by exists b, (pre ++ x :: post) | done]. rewrite Z.eqb_refl, (hash_index w bs b _ x e W Hb Hin He), Z.eqb_refl. cbn [negb]. cbn [length] in *.
  rewrite Hnx, u32_small by lia. rewrite (IH turns w bs t b (pre ++ [x])); [do 2 f_equal; lia | done | done | by rewrite <- app_assoc | lia | lia | lia].
Qed.
Lemma rep_buckets_ok w bs t k : forall a n, table_ok w bs -> hth_table w = Some t -> (a + k = length bs)%nat -> 0 <= n -> n + Z.of_nat (length (concat (drop a bs))) < 2 ^ 32 ->
  rep_buckets (walk w) w (map Z.of_nat (seq a k)) n = Some (inl (n + Z.of_nat (length (concat (drop a bs))))).
Proof.
  induction k as [|k IH]; intros a n W Ht Hk Hn Hs; cbn [seq map rep_buckets].
  - rewrite drop_ge by lia. cbn. do 2 f_equal. lia.
  - destruct (lookup_lt_is_Some_2 bs a) as [l Hl]; [lia|]. pose proof (get_here w bs t a [] l W Ht Hl) as Hg. cbn [place_of last] in Hg. rewrite Hg. cbn [mbind option_bind].
    rewrite (drop_bucket bs a l Hl), length_app in *. destruct (ok_positive w bs t W Ht) as (R & _). pose proof (bucket_bound _ _ _ _ _ R Hl).
    rewrite (rep_bucket_ok l (walk w) w bs t a [] n W Ht Hl) by (unfold walk; lia). cbn [mbind option_bind]. rewrite IH by (done || lia). do 2 f_equal. lia.
Qed.
(** HT_REP_IS_BAD_ accepts every table that the operations make, but for a
    table that could not grow, of which it says that it holds more than its limit. *)
Theorem ht_rep_is_good w a : holds w a -> HT_REP_IS_BAD_ w = Some (if has_table a && (hth_load_limit w <? Z.of_nat (size (members a))) then 3 else 0).
Proof.
  intros (bs & W & HS & HT & _). rewrite (size_members w bs _ W HS). pose proof (ok_table w bs W) as T. pose proof (ok_prime w bs W) as P. unfold HT_REP_IS_BAD_. rewrite (ok_count w bs W). destruct (hth_table w) as [t|] eqn:Ht.
  - rewrite (proj2 HT) by done. cbn [andb]. destruct (ok_positive w bs t W Ht) as (R & L & Hpos), P as [P ->]. destruct (prime_at _ _ P) as [Hi _]. rewrite (proj2 (Z.eqb_neq (hth_table_length w) 0)) by lia.
    assert (HL0 : 0 < load_of (hth_table_length w)). { apply load_pos. unfold arr_at in P. rewrite (proj2 (Z.ltb_ge (hth_prime_idx w) 0)) in P by lia. by eapply list_elem_of_lookup_2. }
    rewrite bool_decide_eq_false_2 by done. rewrite (proj2 (Z.ltb_ge (hth_prime_idx w) 0)), (proj2 (Z.eqb_neq (load_of _) 0)) by lia. cbn [orb].
    destruct (load_of (hth_table_length w) <? Z.of_nat (length (concat bs))); [done|]. rewrite P. cbn [mbind option_bind]. rewrite !Z.eqb_refl. cbn [negb].
    rewrite L, (rep_length _ _ _ R), indices_map, (rep_buckets_ok w bs t (length bs) 0 0 W Ht) by (done || lia || (rewrite drop_0; apply W)). cbn [mbind option_bind]. by rewrite drop_0, Z.eqb_refl.
  - destruct T as [-> ->], P as [-> ->]. destruct (has_table a) eqn:E; [exfalso; by apply HT|]. done.
Qed.
End Visit.

(** ** Concrete tables, of elements whose keys are numbers. *)
Section Demo.
#[local] Instance numbers : HashType Z := {| hashfn k := u32 k; eqfn := Z.eqb; load_of n := n / 2 |}.
#[local] Instance numbers_laws : HashLaws Z.
Proof.
  split.
  - split; [intros a; apply Z.eqb_refl | intros a b; cbn; lia | intros a b c; cbn; lia].
  - intros a b E. cbn in *. f_equal. lia.
  - intros p Hp. assert (F : Forall (fun p => 0 < p / 2) PRIMES) by (unfold PRIMES; repeat constructor). by apply (proj1 (Forall_forall _ _) F).
Qed.
(** Elements 0 to 39 with keys 0, 53, ..., which share a bucket of the first array, and three with keys of these. *)
Definition demo_ht : ht Z :=
  Ht (list_to_map (map (fun i => (i, Entry (53 * (i mod 40)) None 0)) (map Z.of_nat (seq 0 43)))) None 0 0 0 0.
Definition demo_ops : list op :=
  map (fun i => Insert (i <? 20) true i) (map Z.of_nat (seq 0 39)) ++ [Find 40; Replace true true 41; FindOrInsert true true 42 42; FindOrInsert true true 39 39; Remove 40].
Lemma demo_unlinked x e : elts demo_ht !! x = Some e -> hte_next e = None.
Proof.
  intros He. assert (F : map_Forall (fun _ e => hte_next e = None) (elts demo_ht)) by (apply (bool_decide_unpack _); vm_compute; exact I). by apply (F x e).
Qed.
#[local] Instance legal_dec w a o : Decision (legal w a o).
Proof. destruct o; cbn; unfold can_add; apply _. Defined.
#[local] Instance legal_run_dec w os : forall a, Decision (legal_run w a os).
Proof. induction os as [|o os IH]; intros a; cbn; apply _. Defined.
Lemma demo_legal : legal_run demo_ht (Table ∅ false) demo_ops.
Proof. apply (bool_decide_unpack _). vm_compute. exact I. Qed.
Lemma ht_refines_set_witness : exists w', run (HT_INIT demo_ht) demo_ops = Some (fst (spec_run demo_ht (Table ∅ false) demo_ops), w') /\ holds w' (snd (spec_run demo_ht (Table ∅ false) demo_ops)).
Proof. exact (ht_refines_set demo_ht demo_ops demo_unlinked demo_legal). Defined.
(** The results of the last five operations. *)
Lemma demo_results : drop 39 (fst (spec_run demo_ht (Table ∅ false) demo_ops)) = [Some 0; Some 1; Some 2; Some 39; Some 0].
Proof. by vm_compute. Qed.
(** The loop of HT_GROW reads behind the last prime. *)
Lemma grow_past_primes : HT_GROW true true (HT_INIT demo_ht) 805306370 = None.
Proof. by vm_compute. Qed.
(** Without memory for a first array, HT_INSERT divides by the length 0 of none. *)
Lemma insert_without_memory : HT_GROW false false (HT_INIT demo_ht) 1 = Some (-1, HT_INIT demo_ht) /\ HT_INSERT false false (HT_INIT demo_ht) 0 = None.
Proof. by vm_compute. Qed.
(** An element that is replaced by itself is counted twice. *)
Lemma replace_counts_twice : exists w r w', HT_INSERT true true (HT_INIT demo_ht) 0 = Some w /\ HT_REPLACE true true w 0 = Some (r, w') /\ HT_FOREACH w' = Some [0] /\ HT_SIZE w' = 2 /\ HT_REP_IS_BAD_ w' = Some 6.
Proof. do 3 eexists. split; [by vm_compute|]. split; [by vm_compute|]. by vm_compute. Qed.
(** HT_REPLACE does not set the next field of a new element: what it
    points to gets into the table. *)
Definition dangling_ht : ht Z := set_elts demo_ht (<[0 := Entry 0 (Some 1) 0]> (elts demo_ht)).
Lemma replace_keeps_next : exists r w', HT_REPLACE true true (HT_INIT dangling_ht) 0 = Some (r, w') /\ HT_FOREACH w' = Some [0; 1] /\ HT_SIZE w' = 1.
Proof. do 2 eexists. split; [by vm_compute|]. by vm_compute. Qed.
End Demo.
