(* ===== verification/DebugMap.v ===== *)
(** * The debugging map of events (event.c)

    In debugging mode the library notes in a hash table which addresses are
    events that were set up, and which of them are added, and exits when a function
    is called on an event in the wrong state.  [None] is that exit. *)
From S2P Require Import Prelude HashTable HashInv HashProps.
Open Scope Z_scope.

(** ** The entries, by the address of an event. *)
Record event_debug_entry := DebugEntry { ptr : Z; added : bool }.
Definition hash_debug_entry (e : event_debug_entry) : Z := Z.shiftr (u32 (ptr e)) 6.
Definition eq_debug_entry (a b : event_debug_entry) : bool := ptr a =? ptr b.
#[export] Instance event_debug_map : HashType event_debug_entry := {| hashfn := hash_debug_entry; eqfn := eq_debug_entry; load_of n := n / 2 |}.
#[export] Instance event_debug_map_laws : HashLaws event_debug_entry.
Proof.
  split.
  - split; [intros a; apply Z.eqb_refl | intros a b; cbn; unfold eq_debug_entry; lia | intros a b c; cbn; unfold eq_debug_entry; lia].
  - intros a b E. cbn in *. unfold eq_debug_entry, hash_debug_entry in *. f_equal. f_equal. lia.
  - intros p Hp. assert (F : Forall (fun p => 0 < p / 2) PRIMES) by (unfold PRIMES; repeat constructor). by apply (proj1 (Forall_forall _ _) F).
Qed.

(** The globals of the debugging mode. *)
Record debug := Debug { global_debug_map : ht event_debug_entry; event_debug_mode_on_ : bool; event_debug_mode_too_late : bool }.
(** Which allocations succeed during a call: of an entry, and the two of the table. *)
Record memory := Memory { entry_ok : bool; malloc_ok : bool; realloc_ok : bool }.
Definition set_map (d : debug) (w : ht event_debug_entry) : debug := Debug w (event_debug_mode_on_ d) (event_debug_mode_too_late d).
Definition noted (d : debug) : debug := Debug (global_debug_map d) (event_debug_mode_on_ d) true.

(** A variable of the macros is at an address that is not in use. *)
Definition alloc (w : ht event_debug_entry) (k : event_debug_entry) : Z * ht event_debug_entry :=
  let a := fresh (dom (elts w)) in (a, set_elts w (<[a := Entry k None 0]> (elts w))).
Definition mm_free (w : ht event_debug_entry) (a : Z) : ht event_debug_entry := set_elts w (delete a (elts w)).
Definition lookup (w : ht event_debug_entry) (ev : Z) : option (option Z * ht event_debug_entry) :=
  let '(find, w) := alloc w (DebugEntry ev false) in
  '(dent, w) ← HT_FIND w find; Some (dent, mm_free w find).
Definition set_added (w : ht event_debug_entry) (dent : Z) (b : bool) : option (ht event_debug_entry) :=
  e ← elts w !! dent; Some (set_elts w (<[dent := Entry (DebugEntry (ptr (key e)) b) (hte_next e) (hte_hash e)]> (elts w))).

Definition event_debug_note_setup_ (m : memory) (d : debug) (ev : Z) : option debug :=
  if event_debug_mode_on_ d then
    '(dent, w) ← lookup (global_debug_map d) ev;
    match dent with
    | Some dent => w ← set_added w dent false; Some (noted (set_map d w))
    | None =>
        if entry_ok m then
          let '(dent, w) := alloc w (DebugEntry ev false) in
          w ← HT_INSERT (malloc_ok m) (realloc_ok m) w dent; Some (noted (set_map d w))
        else None
    end
  else Some (noted d).
Definition event_debug_note_teardown_ (d : debug) (ev : Z) : option debug :=
  if event_debug_mode_on_ d then
    let '(find, w) := alloc (global_debug_map d) (DebugEntry ev false) in
    '(dent, w) ← HT_REMOVE w find;
    let w := mm_free w find in
    Some (noted (set_map d (match dent with Some dent => mm_free w dent | None => w end)))
  else Some (noted d).
(** event_debug_note_add_ and event_debug_note_del_. *)
Definition event_debug_note (b : bool) (d : debug) (ev : Z) : option debug :=
  if event_debug_mode_on_ d then
    '(dent, w) ← lookup (global_debug_map d) ev; dent ← dent; w ← set_added w dent b; Some (noted (set_map d w))
  else Some (noted d).
Definition event_debug_note_add_ : debug -> Z -> option debug := event_debug_note true.
Definition event_debug_note_del_ : debug -> Z -> option debug := event_debug_note false.
Definition event_debug_assert_is_setup_ (d : debug) (ev : Z) : option debug :=
  if event_debug_mode_on_ d then '(dent, w) ← lookup (global_debug_map d) ev; _ ← dent; Some (set_map d w) else Some d.
Definition event_debug_assert_not_added_ (d : debug) (ev : Z) : option debug :=
  if event_debug_mode_on_ d then
    '(dent, w) ← lookup (global_debug_map d) ev;
    match dent with
    | Some dent => e ← elts w !! dent; if added (key e) then None else Some (set_map d w)
    | None => Some (set_map d w)
    end
  else Some d.
Definition event_enable_debug_mode (d : debug) : option debug :=
  if event_debug_mode_on_ d || event_debug_mode_too_late d then None else Some (Debug (HT_INIT (global_debug_map d)) true (event_debug_mode_too_late d)).
Definition event_disable_debug_mode (d : debug) : option debug :=
  '(_, w) ← clear_table (global_debug_map d); Some (Debug w false (event_debug_mode_too_late d)).

(** ** What the map stands for: the events set up, and whether they are added. *)
Definition tracks (w : ht event_debug_entry) (s : gmap Z bool) : Prop :=
  exists b, holds w (Table (dom (elts w)) b) /\ forall ev x, s !! ev = Some x <-> exists a, keys w a = Some (DebugEntry ev x).
Inductive call := Setup (m : memory) (ev : Z) | Teardown (ev : Z) | NoteAdd (ev : Z) | NoteDel (ev : Z) | AssertSetup (ev : Z) | AssertNotAdded (ev : Z).
Definition do_call (d : debug) (c : call) : option debug :=
  match c with
  | Setup m ev => event_debug_note_setup_ m d ev
  | Teardown ev => event_debug_note_teardown_ d ev
  | NoteAdd ev => event_debug_note_add_ d ev
  | NoteDel ev => event_debug_note_del_ d ev
  | AssertSetup ev => event_debug_assert_is_setup_ d ev
  | AssertNotAdded ev => event_debug_assert_not_added_ d ev
  end.
Definition spec_call (s : gmap Z bool) (c : call) : option (gmap Z bool) :=
  match c with
  | Setup _ ev => Some (<[ev := false]> s)
  | Teardown ev => Some (delete ev s)
  | NoteAdd ev => _ ← s !! ev; Some (<[ev := true]> s)
  | NoteDel ev => _ ← s !! ev; Some (<[ev := false]> s)
  | AssertSetup ev => _ ← s !! ev; Some s
  | AssertNotAdded ev => if default false (s !! ev) then None else Some s
  end.

(** ** Memory of elements that are not in the table, and keys that change. *)
Section Memory.
Context {K : Type} `{HL : HashLaws K}.
Implicit Types (w : ht K).
Lemma alloc_holds w a f e : holds w a -> f ∉ members a -> hte_next e = None -> holds (set_elts w (<[f := e]> (elts w))) a.
Proof.
  intros (bs & W & HS & HT & U) Hf Hn. exists bs. split; [|split; [done|split; [done|]]].
  - apply ht_frame; [done|]. intros x Hx%HS. rewrite lookup_insert_ne; [done|]. by intros ->.
  - intros x g Hx. cbn. rewrite lookup_insert_Some. intros [[<- <-]|[_ Hg]]; [done | by apply (U x)].
Qed.
Lemma free_holds w a f : holds w a -> f ∉ members a -> holds (set_elts w (delete f (elts w))) a.
Proof.
  intros (bs & W & HS & HT & U) Hf. exists bs. split; [|split; [done|split; [done|]]].
  - apply ht_frame; [done|]. intros x Hx%HS. rewrite lookup_delete_ne; [done|]. by intros ->.
  - intros x g Hx. cbn. rewrite lookup_delete_Some. intros [_ Hg]. by apply (U x).
Qed.
Lemma chain_next (m m' : gmap Z (entry K)) l : (forall x, hte_next <$> m' !! x = hte_next <$> m !! x) -> forall p, chain m p l -> chain m' p l.
Proof.
  intros E. induction l as [|x l IH]; intros p; [done|]. intros (-> & e & He & Hc). split; [done|]. specialize (E x). rewrite He in E. destruct (m' !! x) as [e'|]; [|done]. cbn in E. injection E as E.
  exists e'. split; [done|]. rewrite E. by apply IH.
Qed.
Lemma rekey_holds w a x e k : holds w a -> elts w !! x = Some e -> eqfn k (key e) = true -> holds (set_elts w (<[x := Entry k (hte_next e) (hte_hash e)]> (elts w))) a.
Proof.
  intros (bs & W & HS & HT & U) He Hk. exists bs. set (m := <[x := Entry k (hte_next e) (hte_hash e)]> (elts w)).
  assert (G : forall y f, m !! y = Some f -> exists g, elts w !! y = Some g /\ hte_next f = hte_next g /\ hte_hash f = hte_hash g /\ eqfn (key f) (key g) = true).
  { intros y f. unfold m. rewrite lookup_insert_Some. intros [[<- <-]|[_ Hf]]; [by exists e|]. exists f. split_and!; try done. apply (@Equivalence_Reflexive _ _ eqfn_equiv). }
  assert (N : forall y, (fun f => (hte_next f, hte_hash f)) <$> m !! y = (fun f => (hte_next f, hte_hash f)) <$> elts w !! y).
  { intros y. unfold m. destruct (decide (y = x)) as [->|]; [by rewrite lookup_insert_eq, He | by rewrite lookup_insert_ne]. }
  split; [|split; [done|split; [done|]]]; [split; cbn|].
  - pose proof (ok_table w bs W) as T. destruct (hth_table w) as [t|]; [|done]. destruct T as [[F ND] L]. split; [|done]. split; [|done]. eapply Forall2_impl; [exact F|]. intros p l. apply chain_next.
    intros y. specialize (N y). destruct (m !! y), (elts w !! y); cbn in *; congruence.
  - intros b l y Hb Hy. pose proof (ok_placed w bs W b l y Hb Hy) as P. unfold placed, hash_of in *. specialize (N y). destruct (m !! y), (elts w !! y); cbn in *; congruence.
  - intros y f Hy Hf. destruct (G y f Hf) as (g & Hg & _ & -> & E). rewrite (ok_hash w bs W y g Hy Hg). symmetry. by apply eqfn_hash.
  - intros y z f f' Hy Hz Hf Hf' E. destruct (G y f Hf) as (g & Hg & _ & _ & Eg), (G z f' Hf') as (g' & Hg' & _ & _ & Eg'). apply (ok_keys w bs W y z g g'); try done.
    apply (@Equivalence_Transitive _ _ eqfn_equiv _ (key f)); [by apply (@Equivalence_Symmetric _ _ eqfn_equiv)|]. by apply (@Equivalence_Transitive _ _ eqfn_equiv _ (key f')).
  - apply W.
  - apply W.
  - apply W.
  - intros y f Hy Hf. destruct (G y f Hf) as (g & Hg & -> & _). by apply (U y).
Qed.
End Memory.

(** ** The calls. *)
Implicit Types (w : ht event_debug_entry) (s : gmap Z bool) (d : debug).
Lemma elem_of_memory w x : x ∈ dom (elts w) <-> is_Some (keys w x).
Proof. unfold keys. by rewrite elem_of_dom, fmap_is_Some. Qed.
Lemma same_memory w w' : same_keys w w' -> dom (elts w') = dom (elts w).
Proof. intros E. apply set_eq. intros x. by rewrite !elem_of_memory, (E x). Qed.
Lemma keys_insert w x e y : keys (set_elts w (<[x := e]> (elts w))) y = if decide (y = x) then Some (key e) else keys w y.
Proof. unfold keys. cbn. destruct (decide (y = x)) as [->|]; [by rewrite lookup_insert_eq | by rewrite lookup_insert_ne]. Qed.
Lemma keys_delete w x y : keys (mm_free w x) y = if decide (y = x) then None else keys w y.
Proof. unfold keys. cbn. destruct (decide (y = x)) as [->|]; [by rewrite lookup_delete_eq | by rewrite lookup_delete_ne]. Qed.
Lemma fresh_no_key w : keys w (fresh (dom (elts w))) = None.
Proof. destruct (keys w _) as [k|] eqn:E; [|done]. exfalso. apply (is_fresh (dom (elts w))). rewrite elem_of_memory, E. by eexists. Qed.
Lemma tracks_same w w' s b : tracks w s -> same_keys w w' -> holds w' (Table (dom (elts w)) b) -> tracks w' s.
Proof. intros (b' & _ & Hs) E Hw. exists b. rewrite (same_memory w w' E). split; [done|]. intros ev x. rewrite Hs. split; intros [a Ha]; exists a; by rewrite <- Ha, (E a). Qed.
Lemma lookup_ok w s ev : tracks w s -> exists r w', lookup w ev = Some (r, w') /\ tracks w' s /\ same_keys w w' /\
  match s !! ev with Some x => exists a, r = Some a /\ keys w' a = Some (DebugEntry ev x) | None => r = None end.
Proof.
  intros Tr. assert (Tr' := Tr). destruct Tr as (b & Hw & Hs). unfold lookup, alloc. set (f := fresh (dom (elts w))). set (w1 := set_elts w _). assert (Hf : f ∉ dom (elts w)) by apply is_fresh.
  assert (Hw1 : holds w1 (Table (dom (elts w)) b)) by by apply alloc_holds. assert (K1 : forall y, keys w1 y = if decide (y = f) then Some (DebugEntry ev false) else keys w y) by (intros y; apply keys_insert).
  destruct (find_refines w1 w1 _ f Hw1) as (w2 & E & Hw2 & K2); [done | cbn; rewrite K1, decide_True by done; by eexists |]. cbn [run_op spec_op fst snd members] in *. rewrite E. cbn [mbind option_bind].
  assert (Sk : same_keys w (mm_free w2 f)). { intros y. rewrite keys_delete, (K2 y), K1. destruct (decide (y = f)) as [->|]; [|done]. symmetry. apply fresh_no_key. }
  assert (Tr2 : tracks (mm_free w2 f) s) by (eapply (tracks_same w _ s b Tr' Sk), free_holds; done).
  eexists _, _. split; [done|]. split; [done|]. split; [done|]. destruct (s !! ev) as [x|] eqn:Ev.
  - apply Hs in Ev as [a Ha]. assert (Hin : a ∈ dom (elts w)) by (rewrite elem_of_memory, Ha; by eexists). assert (Haf : a <> f) by (intros ->; done). exists a. split; [|by rewrite (Sk a)].
    apply find_in_some; [done | |]. { exists (DebugEntry ev x), (DebugEntry ev false). rewrite !K1, (decide_False (P := a = f)), decide_True by done. split_and!; [done | done |]. apply Z.eqb_refl. }
    intros y Hy Hk. destruct Hw1 as (bs & W1 & HS & _). apply (ok_unique w1 bs); [done | by apply HS | by apply HS | done].
  - apply find_in_none. intros a Ha (k & k' & Hk & Hk' & E'). rewrite !K1 in *. rewrite decide_True in Hk' by done. injection Hk' as <-. rewrite decide_False in Hk by (intros ->; done).
    assert (s !! ev = Some (added k)); [|congruence]. apply Hs. exists a. rewrite Hk. f_equal. destruct k as [p x]. cbn in *. unfold eq_debug_entry in E'. cbn in E'. f_equal. lia.
Qed.
Lemma set_added_ok w s a ev x b : tracks w s -> keys w a = Some (DebugEntry ev x) -> exists w', set_added w a b = Some w' /\ tracks w' (<[ev := b]> s).
Proof.
  intros (t & Hw & Hs) Ha. unfold set_added. assert (Ha' := Ha). unfold keys in Ha'. destruct (elts w !! a) as [e|] eqn:He; [|done]. cbn in Ha'. injection Ha' as Hk. cbn [mbind option_bind]. eexists. split; [done|].
  set (w' := set_elts w _). assert (K' : forall y, keys w' y = if decide (y = a) then Some (DebugEntry ev b) else keys w y). { intros y. unfold w'. rewrite keys_insert. cbn. by rewrite Hk. }
  exists t. assert (D : dom (elts w') = dom (elts w)). { apply set_eq. intros y. rewrite !elem_of_memory, K'. destruct (decide (y = a)) as [->|]; [|done]. rewrite Ha. split; by eexists. }
  rewrite D. split; [apply rekey_holds; [done | done | rewrite Hk; apply Z.eqb_refl]|]. intros ev' x'. destruct (decide (ev' = ev)) as [->|Hn].
  - rewrite lookup_insert_eq. split; [intros [= <-]; exists a; by rewrite K', decide_True|]. intros [a' Ha']. rewrite K' in Ha'. destruct (decide (a' = a)); [congruence|]. exfalso.
    destruct Hw as (bs & W & HS & _). assert (a' = a); [|done]. apply (ok_unique w bs); [done | | |].
    + apply HS. cbn. rewrite elem_of_memory, Ha'. by eexists.
    + apply HS. cbn. rewrite elem_of_memory, Ha. by eexists.
    + exists (DebugEntry ev x'), (DebugEntry ev x). split_and!; [done | done |]. apply Z.eqb_refl.
  - rewrite lookup_insert_ne by done. rewrite Hs. split; intros [a' Ha']; exists a'.
    + rewrite K', decide_False; [done|]. intros ->. congruence.
    + rewrite K' in Ha'. destruct (decide (a' = a)); congruence.
Qed.
Lemma tracked_size w s : tracks w s -> (size (dom (elts w)) <= size s)%nat.
Proof.
  intros (b & (bs & W & HS & _) & Hs). rewrite <- (size_dom s). set (p := fun x => default 0 (ptr <$> keys w x)).
  assert (E : forall x, x ∈ elements (dom (elts w)) -> exists k, keys w x = Some k /\ p x = ptr k). { intros x [k Hk]%elem_of_elements%elem_of_memory. exists k. unfold p. by rewrite Hk. }
  assert (ND : NoDup (p <$> elements (dom (elts w)))).
  { apply NoDup_fmap_2_strong; [|apply NoDup_elements]. intros x y Hx Hy Hp. destruct (E x Hx) as (k & Hk & Ek), (E y Hy) as (k' & Hk' & Ek'). apply elem_of_elements in Hx, Hy.
    apply (ok_unique w bs); [done | by apply HS | by apply HS |]. exists k, k'. split_and!; [done | done |]. apply Z.eqb_eq. congruence. }
  transitivity (size (list_to_set (C := gset Z) (p <$> elements (dom (elts w))))); [rewrite size_list_to_set by done; by rewrite length_fmap|].
  apply subseteq_size. intros z. rewrite elem_of_list_to_set, list_elem_of_fmap. intros (x & -> & Hx). destruct (E x Hx) as (k & Hk & ->). apply elem_of_dom. exists (added k). apply Hs. exists x. rewrite Hk. by destruct k.
Qed.
Definition enough (m : memory) : Prop := entry_ok m = true /\ (malloc_ok m = true \/ realloc_ok m = true).
Lemma insert_tracked w s ev m : tracks w s -> s !! ev = None -> enough m -> Z.of_nat (size s) + 1 < max_load -> let '(dent, w1) := alloc w (DebugEntry ev false) in
  exists w', HT_INSERT (malloc_ok m) (realloc_ok m) w1 dent = Some w' /\ tracks w' (<[ev := false]> s).
Proof.
  intros Tr Ev [_ Hm] Hn. pose proof (tracked_size w s Tr) as Hsz. destruct Tr as (b & Hw & Hs). unfold alloc. set (f := fresh (dom (elts w))). set (w1 := set_elts w _). assert (Hf : f ∉ dom (elts w)) by apply is_fresh.
  assert (Hw1 : holds w1 (Table (dom (elts w)) b)) by by apply alloc_holds. assert (K1 : forall y, keys w1 y = if decide (y = f) then Some (DebugEntry ev false) else keys w y) by (intros y; apply keys_insert).
  assert (Nf : find_in w1 (dom (elts w)) f = None).
  { apply find_in_none. intros a Ha (k & k' & Hk & Hk' & E'). rewrite !K1 in *. rewrite decide_True in Hk' by done. injection Hk' as <-. rewrite decide_False in Hk by (intros ->; done).
    assert (s !! ev = Some (added k)); [|congruence]. apply Hs. exists a. rewrite Hk. f_equal. destruct k as [p x]. cbn in *. unfold eq_debug_entry in E'. cbn in E'. f_equal. lia. }
  destruct (insert_refines w1 w1 _ (malloc_ok m) (realloc_ok m) f Hw1) as (w2 & E & Hw2 & K2); [done | |].
  { split; [rewrite K1, decide_True by done; by eexists|]. split; [done|]. split; [cbn; lia | tauto]. }
  cbn [run_op spec_op fst snd members] in *. destruct (HT_INSERT _ _ w1 f) as [w2'|]; [|done]. cbn in E. injection E as ->. exists w2. split; [done|]. exists true.
  assert (D : dom (elts w2) = {[f]} ∪ dom (elts w)). { apply set_eq. intros y. rewrite elem_of_union, elem_of_singleton, !elem_of_memory, (K2 y), K1. destruct (decide (y = f)) as [->|]; [|tauto]. split; [by left | by eexists]. }
  rewrite D. split; [done|]. intros ev' x'. destruct (decide (ev' = ev)) as [->|Hne].
  - rewrite lookup_insert_eq. split; [intros [= <-]; exists f; by rewrite (K2 f), K1, decide_True|]. intros [a Ha]. rewrite (K2 a), K1 in Ha. destruct (decide (a = f)); [congruence|].
    assert (s !! ev = Some x') by (apply Hs; by exists a). congruence.
  - rewrite lookup_insert_ne by done. rewrite Hs. split; intros [a Ha]; exists a.
    + rewrite (K2 a), K1, decide_False; [done|]. intros ->. unfold f in Ha. by rewrite fresh_no_key in Ha.
    + rewrite (K2 a), K1 in Ha. destruct (decide (a = f)); congruence.
Qed.
Lemma teardown_tracked d s ev : tracks (global_debug_map d) s -> event_debug_mode_on_ d = true -> exists d', event_debug_note_teardown_ d ev = Some d' /\ tracks (global_debug_map d') (delete ev s) /\ event_debug_mode_on_ d' = true.
Proof.
  intros Tr On. unfold event_debug_note_teardown_. rewrite On. set (w := global_debug_map d) in *. assert (Tr' := Tr). destruct Tr as (b & Hw & Hs). unfold alloc. set (f := fresh (dom (elts w))). set (w1 := set_elts w _). assert (Hf : f ∉ dom (elts w)) by apply is_fresh.
  assert (Hw1 : holds w1 (Table (dom (elts w)) b)) by by apply alloc_holds. assert (K1 : forall y, keys w1 y = if decide (y = f) then Some (DebugEntry ev false) else keys w y) by (intros y; apply keys_insert).
  destruct (remove_refines w1 w1 _ f Hw1) as (w2 & E & Hw2 & K2); [done | cbn; rewrite K1, decide_True by done; by eexists |]. cbn [run_op spec_op fst snd members has_table] in *. rewrite E. cbn [mbind option_bind].
  destruct (find_in w1 (dom (elts w)) f) as [a|] eqn:Fi; eexists; (split; [done|]); (split; [|done]); cbn [noted set_map global_debug_map].
  - assert (Ha : a ∈ dom (elts w) /\ eq_key w1 a f).
    { unfold find_in in Fi. apply head_Some in Fi as [l El]. assert (Hin : a ∈ filter (fun x => eq_key w1 x f) (elements (dom (elts w)))) by (rewrite El; by left). apply list_elem_of_filter in Hin as [Hk Hin]. by apply elem_of_elements in Hin. }
    destruct Ha as [Ha (k & k' & Hk & Hk' & E')]. rewrite !K1 in *. rewrite decide_True in Hk' by done. injection Hk' as <-. assert (Haf : a <> f) by (intros ->; done). rewrite decide_False in Hk by done. cbn in E'. unfold eq_debug_entry in E'. cbn in E'.
    set (w3 := mm_free (mm_free w2 f) a). assert (K3 : forall y, keys w3 y = if decide (y = a) then None else keys w y).
    { intros y. unfold w3. rewrite !keys_delete, (K2 y), K1. destruct (decide (y = a)); [done|]. destruct (decide (y = f)) as [->|]; [|done]. symmetry. apply fresh_no_key. }
    assert (D : dom (elts w3) = dom (elts w) ∖ {[a]}). { apply set_eq. intros y. rewrite elem_of_difference, elem_of_singleton, !elem_of_memory, K3. destruct (decide (y = a)); [|tauto]. split; [by intros [??] | tauto]. }
    exists b. rewrite D. split; [apply free_holds; [apply free_holds; [done|] |]; cbn; set_solver|]. intros ev' x'. destruct (decide (ev' = ev)) as [->|Hne].
    + rewrite lookup_delete_eq. split; [done|]. intros [a' Ha']. rewrite K3 in Ha'. destruct (decide (a' = a)) as [->|Hn]; [done|]. exfalso. apply Hn.
      destruct Hw as (bs & W & HS & _). apply (ok_unique w bs); [done | apply HS; cbn; rewrite elem_of_memory, Ha'; by eexists | by apply HS |]. exists (DebugEntry ev x'), k. split_and!; [done | done |]. apply Z.eqb_eq. cbn. lia.
    + rewrite lookup_delete_ne by done. rewrite Hs. split; intros [a' Ha']; exists a'; [rewrite K3, decide_False; [done|] | rewrite K3 in Ha'; by destruct (decide (a' = a))].
      intros ->. rewrite Hk in Ha'. injection Ha' as ->. cbn in E'. lia.
  - assert (Ev : s !! ev = None).
    { destruct (s !! ev) as [x|] eqn:Ev; [|done]. exfalso. apply Hs in Ev as [a Ha]. assert (Hin : a ∈ dom (elts w)) by (rewrite elem_of_memory, Ha; by eexists). apply (find_in_none_inv w1 _ f a Fi Hin).
      exists (DebugEntry ev x), (DebugEntry ev false). rewrite !K1, (decide_True (P := f = f)), decide_False by (done || (intros ->; done)). split_and!; [done | done |]. apply Z.eqb_refl. }
    rewrite delete_id by done. apply (tracks_same w _ s b Tr'); [|by apply free_holds]. intros y. rewrite keys_delete, (K2 y), K1. destruct (decide (y = f)) as [->|]; [|done]. symmetry. apply fresh_no_key.
Qed.

(** ** The debugging mode as a monitor. *)
Definition call_ok (s : gmap Z bool) (c : call) : Prop := match c with Setup m _ => enough m /\ Z.of_nat (size s) + 1 < max_load | _ => True end.
Lemma call_tracked d s c : tracks (global_debug_map d) s -> event_debug_mode_on_ d = true -> call_ok s c ->
  match spec_call s c with Some s' => exists d', do_call d c = Some d' /\ tracks (global_debug_map d') s' /\ event_debug_mode_on_ d' = true | None => do_call d c = None end.
Proof.
  intros Tr On Hc. destruct c as [m ev|ev|ev|ev|ev|ev]; cbn [do_call spec_call]; [|by apply teardown_tracked| | | |].
  all: destruct (lookup_ok _ s ev Tr) as (r & w & E & Tr' & Sk & Hr).
  - unfold event_debug_note_setup_. rewrite On. destruct Hc as [Hm Hn]. destruct (s !! ev) as [x|] eqn:Ev.
    + destruct Hr as (a & -> & Ha). rewrite E. cbn [mbind option_bind]. destruct (set_added_ok w s a ev x false Tr' Ha) as (w' & -> & Tr2). cbn [mbind option_bind]. by eexists.
    + subst r. rewrite E. cbn [mbind option_bind]. rewrite (proj1 Hm). pose proof (insert_tracked w s ev m Tr' Ev Hm Hn) as I. destruct (alloc w _) as [a w1]. destruct I as (w' & -> & Tr2). cbn [mbind option_bind]. by eexists.
  - unfold event_debug_note_add_, event_debug_note. rewrite On, E. cbn [mbind option_bind]. destruct (s !! ev) as [x|]; [|by subst r]. destruct Hr as (a & -> & Ha). cbn [mbind option_bind].
    destruct (set_added_ok w s a ev x true Tr' Ha) as (w' & -> & Tr2). cbn [mbind option_bind]. by eexists.
  - unfold event_debug_note_del_, event_debug_note. rewrite On, E. cbn [mbind option_bind]. destruct (s !! ev) as [x|]; [|by subst r]. destruct Hr as (a & -> & Ha). cbn [mbind option_bind].
    destruct (set_added_ok w s a ev x false Tr' Ha) as (w' & -> & Tr2). cbn [mbind option_bind]. by eexists.
  - unfold event_debug_assert_is_setup_. rewrite On, E. cbn [mbind option_bind]. destruct (s !! ev) as [x|]; [|by subst r]. destruct Hr as (a & -> & Ha). cbn [mbind option_bind]. by eexists.
  - unfold event_debug_assert_not_added_. rewrite On, E. cbn [mbind option_bind]. destruct (s !! ev) as [x|]; [|subst r; by eexists]. destruct Hr as (a & -> & Ha). unfold keys in Ha.
    destruct (elts w !! a) as [e|]; [|done]. cbn [mbind option_bind]. injection Ha as Ha. rewrite Ha. cbn. destruct x; [done|]. by eexists.
Qed.
Lemma spec_size s c s' : spec_call s c = Some s' -> (size s' <= S (size s))%nat.
Proof.
  assert (I : forall ev b, (size (<[ev := b]> s) <= S (size s))%nat) by (intros ev b; rewrite map_size_insert; destruct (s !! ev); cbn; lia).
  assert (D : forall ev, (size (delete ev s) <= size s)%nat) by (intros ev; rewrite map_size_delete; destruct (s !! ev); cbn; lia).
  destruct c as [m ev|ev|ev|ev|ev|ev]; cbn; [intros [= <-]; apply I | intros [= <-]; specialize (D ev); lia | | | |].
  - destruct (s !! ev); [|done]. intros [= <-]. apply I.
  - destruct (s !! ev); [|done]. intros [= <-]. apply I.
  - destruct (s !! ev); [|done]. intros [= <-]. lia.
  - destruct (default false (s !! ev)); [done|]. intros [= <-]. lia.
Qed.
Fixpoint calls (d : debug) (cs : list call) : option debug := match cs with [] => Some d | c :: cs => d ← do_call d c; calls d cs end.
Fixpoint spec_calls (s : gmap Z bool) (cs : list call) : option (gmap Z bool) := match cs with [] => Some s | c :: cs => s ← spec_call s c; spec_calls s cs end.

(** C19: Whenever setting up an event finds memory for its entry, and to grow the table if that
    is needed, and with fewer calls than the table can ever hold entries: from when it is
    enabled until it is disabled, the debugging mode exits the program at the first call that notes or asserts something of an event that was not set up, or
    that asserts of an event that is added that it is not, as [spec_call] says,
    and at no other call; disabling it then frees all entries and nothing else. *)
Theorem debug_mode_monitors d d0 cs : elts (global_debug_map d) = ∅ -> event_enable_debug_mode d = Some d0 ->
  Forall (fun c => match c with Setup m _ => enough m | _ => True end) cs -> Z.of_nat (length cs) < max_load ->
  match spec_calls ∅ cs with
  | Some s => exists d1 d2, calls d0 cs = Some d1 /\ tracks (global_debug_map d1) s /\ event_disable_debug_mode d1 = Some d2 /\ elts (global_debug_map d2) = ∅ /\ event_debug_mode_on_ d2 = false
  | None => calls d0 cs = None
  end.
Proof.
  intros Hm He Hc Hn. assert (H0 : tracks (global_debug_map d0) ∅ /\ event_debug_mode_on_ d0 = true).
  { unfold event_enable_debug_mode in He. destruct (_ || _); [done|]. injection He as <-. split; [|done]. exists false. cbn. rewrite Hm, dom_empty_L. split.
    - exists []. split; [apply table_ok_init|]. split; [intros x; cbn; by rewrite elem_of_empty, elem_of_nil|]. split; [cbn; split; [done | congruence]|]. intros x e _. cbn. by rewrite Hm.
    - intros ev x. rewrite lookup_empty. split; [done|]. intros [a Ha]. unfold keys in Ha. cbn in Ha. by rewrite Hm in Ha. }
  destruct H0 as [Tr On]. assert (Hs : Z.of_nat (size (∅ : gmap Z bool)) + Z.of_nat (length cs) < max_load) by by rewrite map_size_empty. clear He Hn. revert d0 Tr On Hs. generalize (∅ : gmap Z bool) as s.
  induction Hc as [|c cs Hc1 Hc IH]; intros s d0 Tr On Hs; cbn [spec_calls calls].
  - exists d0. unfold event_disable_debug_mode. destruct Tr as (b & Hw & Ht). destruct (ht_clear_frees _ _ Hw) as (l & w & -> & _ & Hl & _ & [Hf Hk]). cbn [mbind option_bind]. eexists. split; [done|]. split; [by exists b|]. split; [done|]. split; [|done].
    cbn. apply map_empty. intros x. destruct (decide (x ∈ l)) as [Hx|Hx]; [by apply Hf|]. specialize (Hk x Hx). rewrite Hl in Hx. cbn in Hx. apply not_elem_of_dom in Hx. unfold keys in Hk. rewrite Hx in Hk. by destruct (elts w !! x).
  - cbn [length] in Hs. assert (Ok : call_ok s c) by (destruct c; cbn in *; try done; split; [done | lia]). pose proof (call_tracked d0 s c Tr On Ok) as I. destruct (spec_call s c) as [s'|] eqn:E; cbn [mbind option_bind]; [|by rewrite I].
    destruct I as (d' & -> & Tr' & On'). cbn [mbind option_bind]. apply IH; [done | done|]. apply spec_size in E. lia.
Qed.

(** Two events of which one is torn down, and a call on it after that. *)
Definition demo_debug : debug := Debug (Ht ∅ None 0 0 0 0) false false.
Definition demo_memory : memory := Memory true false true.
Definition demo_calls : list call := [Setup demo_memory 64; Setup demo_memory 4160; NoteAdd 64; AssertSetup 64; NoteDel 64; AssertNotAdded 64; Teardown 4160; Setup demo_memory 64; NoteAdd 64].
Lemma debug_mode_monitors_witness : exists d1 d2, calls (Debug (HT_INIT (global_debug_map demo_debug)) true false) demo_calls = Some d1 /\ tracks (global_debug_map d1) {[64 := true]} /\
  event_disable_debug_mode d1 = Some d2 /\ elts (global_debug_map d2) = ∅ /\ event_debug_mode_on_ d2 = false.
Proof.
  apply (debug_mode_monitors demo_debug _ demo_calls eq_refl eq_refl); [|reflexivity]. repeat constructor; cbn; by right.
Defined.
Lemma torn_down_event_added : calls (Debug (HT_INIT (global_debug_map demo_debug)) true false) (demo_calls ++ [NoteAdd 4160]) = None /\ calls (Debug (HT_INIT (global_debug_map demo_debug)) true false) (demo_calls ++ [AssertNotAdded 64]) = None.
Proof. by vm_compute. Qed.
