(* ===== verification/Buffer.v ===== *)
(** * Byte buffers (buffer.c)

    An evbuffer is a list of chains, each a block of memory whose middle part
    holds data.  A buffer here is not locked and not deferred: callbacks run
    at once, and only observe the buffer.  Chains of files and chains shared
    between buffers (sendfile, multicast) are not modelled; chains that
    reference foreign memory are. *)
From S2P Require Import Prelude Event.

Notation byte := Z (only parsing).
Definition zlen {A} (l : list A) : Z := Z.of_nat (length l).
Definition ztake {A} (n : Z) (l : list A) : list A := take (Z.to_nat n) l.
Definition zdrop {A} (n : Z) (l : list A) : list A := drop (Z.to_nat n) l.

Definition EVBUFFER_CHAIN_MAX : Z := EV_SSIZE_MAX.
Definition EVBUFFER_CHAIN_SIZE : Z := 48.
Definition MIN_BUFFER_SIZE : Z := 1024.
Definition EVBUFFER_CHAIN_MAX_AUTO_SIZE : Z := 4096.
Definition MAX_TO_COPY_IN_EXPAND : Z := 4096.
Definition MAX_TO_REALIGN_IN_EXPAND : Z := 2048.
Definition EVBUFFER_REFERENCE : Z := 0x0004.
Definition EVBUFFER_IMMUTABLE : Z := 0x0008.
Definition EVBUFFER_MEM_PINNED_R : Z := 0x0010.
Definition EVBUFFER_MEM_PINNED_W : Z := 0x0020.
Definition EVBUFFER_MEM_PINNED_ANY : Z := Z.lor EVBUFFER_MEM_PINNED_R EVBUFFER_MEM_PINNED_W.
Definition EVBUFFER_CB_ENABLED : Z := 1.

(** struct evbuffer_chain: the data are the [off] bytes from
    [buffer + misalign] on; the bytes around them have no meaning. *)
Record evbuffer_chain := Chain {
  buffer_len : Z;
  misalign : Z;
  chain_data : list byte;
  chain_flags : Z
}.
Definition off (ch : evbuffer_chain) : Z := zlen (chain_data ch).

(** struct evbuffer_cb_info and a callback entry: its flags and its name. *)
Record evbuffer_cb_info := CbInfo { orig_size : Z; n_added : Z; n_deleted : Z }.
Record evbuffer_cb_entry := CbEntry { cb_flags : Z; cb_func : Z }.

(** struct evbuffer.  [first] and [last] are the ends of [chains];
    [last_with_datap] is the position in it of the chain that it leads to (0
    also for an empty list).  [calls] records the callbacks that ran. *)
Record evbuffer := Evbuffer {
  chains : list evbuffer_chain;
  last_with_datap : nat;
  total_len : Z;
  n_add_for_cb : Z;
  n_del_for_cb : Z;
  freeze_start : bool;
  freeze_end : bool;
  callbacks : list evbuffer_cb_entry;
  calls : list (Z * evbuffer_cb_info)
}.

Definition evbuffer_new : evbuffer := Evbuffer [] 0 0 0 0 false false [] [].

Definition CHAIN_SPACE_LEN (ch : evbuffer_chain) : Z :=
  if has (chain_flags ch) EVBUFFER_IMMUTABLE then 0
  else buffer_len ch - (misalign ch + off ch).
Definition CHAIN_PINNED (ch : evbuffer_chain) : bool := has (chain_flags ch) EVBUFFER_MEM_PINNED_ANY.
Definition CHAIN_PINNED_R (ch : evbuffer_chain) : bool := has (chain_flags ch) EVBUFFER_MEM_PINNED_R.

(** [*last_with_datap]. *)
Definition last_with_data (buf : evbuffer) : option evbuffer_chain := chains buf !! last_with_datap buf.
Definition set_chain (buf : evbuffer) (i : nat) (ch : evbuffer_chain) : evbuffer :=
  {| buf with chains := <[i := ch]> (chains buf) |}.

(** ** Callbacks. *)
Fixpoint run_cb_list (l : list evbuffer_cb_entry) (info : evbuffer_cb_info) : list (Z * evbuffer_cb_info) :=
  match l with
  | [] => []
  | c :: l => if Z.land (cb_flags c) EVBUFFER_CB_ENABLED =? EVBUFFER_CB_ENABLED
              then (cb_func c, info) :: run_cb_list l info else run_cb_list l info
  end.
Definition evbuffer_run_callbacks (buf : evbuffer) : evbuffer :=
  match callbacks buf with
  | [] => {| buf with n_add_for_cb := 0; n_del_for_cb := 0 |}
  | cbs =>
      if (n_add_for_cb buf =? 0) && (n_del_for_cb buf =? 0) then buf
      else
        let info := CbInfo (u64 (total_len buf + n_del_for_cb buf - n_add_for_cb buf))
                           (n_add_for_cb buf) (n_del_for_cb buf) in
        {| buf with n_add_for_cb := 0; n_del_for_cb := 0; calls := calls buf ++ run_cb_list cbs info |}
  end.
Definition evbuffer_invoke_callbacks_ (buf : evbuffer) : evbuffer :=
  match callbacks buf with
  | [] => {| buf with n_add_for_cb := 0; n_del_for_cb := 0 |}
  | _ => evbuffer_run_callbacks buf
  end.

Section Buffer.
(** Whether an allocation of so many bytes succeeds. *)
Context (mm : Z -> bool).
Implicit Types (buf : evbuffer) (ch : evbuffer_chain).

(** ** Chains. *)

(** [while (to_alloc < size) to_alloc <<= 1]; 64 doublings suffice. *)
Fixpoint round_up (fuel : nat) (to_alloc size : Z) : Z :=
  match fuel with
  | O => to_alloc
  | S fuel => if to_alloc <? size then round_up fuel (Z.shiftl to_alloc 1) size else to_alloc
  end.
Definition evbuffer_chain_new (size : Z) : option evbuffer_chain :=
  if EVBUFFER_CHAIN_MAX - EVBUFFER_CHAIN_SIZE <? size then None
  else
    let size := size + EVBUFFER_CHAIN_SIZE in
    let to_alloc := if size <? EVBUFFER_CHAIN_MAX / 2 then round_up 64 MIN_BUFFER_SIZE size else size in
    if mm to_alloc then Some (Chain (to_alloc - EVBUFFER_CHAIN_SIZE) 0 [] 0) else None.

(** Where the new chain will go: the position of the first chain, from
    [last_with_datap] on, that is neither pinned nor holds data; that chain
    and all after it are freed. *)
Fixpoint first_victim (l : list evbuffer_chain) : nat :=
  match l with
  | [] => 0
  | ch :: l => if c_true (off ch) || CHAIN_PINNED ch then S (first_victim l) else 0
  end.
Definition evbuffer_chains_all_empty (l : list evbuffer_chain) : bool := forallb (fun ch => negb (c_true (off ch))) l.
Definition evbuffer_free_trailing_empty_chains buf : option (evbuffer * nat) :=
  let i := (last_with_datap buf + first_victim (drop (last_with_datap buf) (chains buf)))%nat in
  if evbuffer_chains_all_empty (drop i (chains buf)) then
    Some ({| buf with chains := take i (chains buf) |}, i)
  else None.

Definition evbuffer_chain_insert buf ch : option evbuffer :=
  match last_with_data buf with
  | None =>
      match chains buf with
      | [] => Some {| buf with chains := [ch]; last_with_datap := 0; total_len := u64 (total_len buf + off ch) |}
      | _ => None
      end
  | Some _ =>
      '(buf, chp) ← evbuffer_free_trailing_empty_chains buf;
      Some {| buf with chains := chains buf ++ [ch];
                       last_with_datap := if c_true (off ch) then chp else last_with_datap buf;
                       total_len := u64 (total_len buf + off ch) |}
  end.
(** The chain is the last one of the result. *)
Definition evbuffer_chain_insert_new buf (datlen : Z) : option (option evbuffer) :=
  match evbuffer_chain_new datlen with
  | None => Some None
  | Some ch => buf ← evbuffer_chain_insert buf ch; Some (Some buf)
  end.

Definition evbuffer_chain_align ch : option evbuffer_chain :=
  if has (chain_flags ch) EVBUFFER_IMMUTABLE || has (chain_flags ch) EVBUFFER_MEM_PINNED_ANY then None
  else Some {| ch with misalign := 0 |}.
Definition evbuffer_chain_should_realign ch (datlen : Z) : bool :=
  (datlen <=? buffer_len ch - off ch) && (off ch <? buffer_len ch / 2) && (off ch <=? MAX_TO_REALIGN_IN_EXPAND).

(** ** Adding. *)

(** [memcpy] of [data] behind the data of a chain. *)
Definition chain_append ch (data : list byte) : evbuffer_chain := {| ch with chain_data := chain_data ch ++ data |}.
Definition added buf (n : Z) : evbuffer :=
  {| buf with total_len := u64 (total_len buf + n); n_add_for_cb := u64 (n_add_for_cb buf + n) |}.

(** The part of [evbuffer_add] that needs another chain: [i] is the position
    of the chain in use, [remain] the space left in it. *)
Definition add_new_chain buf (i : nat) ch (data : list byte) (remain : Z) : option (Z * evbuffer) :=
  let to_alloc := buffer_len ch in
  let to_alloc := if to_alloc <=? EVBUFFER_CHAIN_MAX_AUTO_SIZE / 2 then Z.shiftl to_alloc 1 else to_alloc in
  let to_alloc := if to_alloc <? zlen data then zlen data else to_alloc in
  match evbuffer_chain_new to_alloc with
  | None => Some (-1, buf)
  | Some tmp =>
      let buf := if c_true remain
                 then added (set_chain buf i (chain_append ch (ztake remain data))) remain else buf in
      let rest := zdrop remain data in
      buf ← evbuffer_chain_insert buf (chain_append tmp rest);
      Some (0, evbuffer_invoke_callbacks_ {| buf with n_add_for_cb := u64 (n_add_for_cb buf + zlen rest) |})
  end.

Definition evbuffer_add buf (data : list byte) : option (Z * evbuffer) :=
  let datlen := zlen data in
  if freeze_end buf then Some (-1, buf)
  else if EV_SIZE_MAX - total_len buf <? datlen then Some (-1, buf)
  else
    start ← (match last_with_data buf with
             | Some ch => Some (Some (buf, last_with_datap buf, ch))
             | None =>
                 match last (chains buf) with
                 | Some ch => Some (Some (buf, pred (length (chains buf)), ch))
                 | None =>
                     match evbuffer_chain_new datlen with
                     | None => Some None
                     | Some ch => buf ← evbuffer_chain_insert buf ch; Some (Some (buf, 0%nat, ch))
                     end
                 end
             end);
    match start with
    | None => Some (-1, buf)
    | Some (buf, i, ch) =>
        if negb (has (chain_flags ch) EVBUFFER_IMMUTABLE) then
          _ ← (if (0 <=? misalign ch) && (misalign ch <=? EVBUFFER_CHAIN_MAX) then Some tt else None);
          let remain := buffer_len ch - misalign ch - off ch in
          if datlen <=? remain then
            Some (0, evbuffer_invoke_callbacks_ (added (set_chain buf i (chain_append ch data)) datlen))
          else if negb (CHAIN_PINNED ch) && evbuffer_chain_should_realign ch datlen then
            ch ← evbuffer_chain_align ch;
            Some (0, evbuffer_invoke_callbacks_ (added (set_chain buf i (chain_append ch data)) datlen))
          else add_new_chain buf i ch data remain
        else add_new_chain buf i ch data 0
    end.

(** The part of [evbuffer_prepend] that needs another chain. *)
Definition prepend_new_chain buf (data : list byte) : option (Z * evbuffer) :=
  let datlen := zlen data in
  match evbuffer_chain_new datlen with
  | None => Some (-1, buf)
  | Some tmp =>
      if datlen <=? buffer_len tmp then
        let tmp := {| (chain_append tmp data) with misalign := buffer_len tmp - datlen |} in
        let buf := {| buf with chains := tmp :: chains buf; last_with_datap := S (last_with_datap buf) |} in
        Some (0, evbuffer_invoke_callbacks_ (added buf datlen))
      else None
  end.
Definition evbuffer_prepend buf (data : list byte) : option (Z * evbuffer) :=
  let datlen := zlen data in
  if freeze_start buf then Some (-1, buf)
  else if EV_SIZE_MAX - total_len buf <? datlen then Some (-1, buf)
  else
    start ← (match chains buf with
             | ch :: _ => Some (Some (buf, ch))
             | [] => match evbuffer_chain_new datlen with
                     | None => Some None
                     | Some ch => buf ← evbuffer_chain_insert buf ch; Some (Some (buf, ch))
                     end
             end);
    match start with
    | None => Some (-1, buf)
    | Some (buf, ch) =>
        if negb (has (chain_flags ch) EVBUFFER_IMMUTABLE) then
          _ ← (if (0 <=? misalign ch) && (misalign ch <=? EVBUFFER_CHAIN_MAX) then Some tt else None);
          let ch := if off ch =? 0 then {| ch with misalign := buffer_len ch |} else ch in
          let put n bytes := added (set_chain buf 0 {| ch with chain_data := bytes ++ chain_data ch;
                                                               misalign := misalign ch - n |}) n in
          if datlen <=? misalign ch then Some (0, evbuffer_invoke_callbacks_ (put datlen data))
          else if c_true (misalign ch) then
            let k := datlen - misalign ch in
            prepend_new_chain (put (misalign ch) (zdrop k data)) (ztake k data)
          else prepend_new_chain (set_chain buf 0 ch) data
        else prepend_new_chain buf data
    end.

(** ** Removing. *)
Definition HAS_PINNED_R buf : bool := match last (chains buf) with Some ch => CHAIN_PINNED_R ch | None => false end.
Definition ZERO_CHAIN buf : evbuffer := {| buf with chains := []; last_with_datap := 0; total_len := 0 |}.

(** The loop of [evbuffer_drain]: [l] is the rest of the list, [lwd] the
    position in it of the chain [last_with_datap] leads to.  Whether the loop
    frees that chain or the one whose [next] it is, it resets the pointer to
    [first]; otherwise the position moves up.  A pinned chain ends the loop,
    emptied. *)
Fixpoint drain_loop (l : list evbuffer_chain) (remaining : Z) (lwd : nat)
  : option (list evbuffer_chain * Z * nat) :=
  match l with
  | [] => None
  | ch :: l' =>
      if off ch <=? remaining then
        let remaining := remaining - off ch in
        if CHAIN_PINNED_R ch then
          if remaining =? 0 then
            Some ({| ch with misalign := misalign ch + off ch; chain_data := [] |} :: l', remaining,
                  match lwd with 0%nat | 1%nat => 0%nat | _ => lwd end)
          else None
        else drain_loop l' remaining (pred lwd)
      else Some (l, remaining, lwd)
  end.

Definition evbuffer_drain buf (len : Z) : option (Z * evbuffer) :=
  let old_len := total_len buf in
  if old_len =? 0 then Some (0, buf)
  else if freeze_start buf then Some (-1, buf)
  else
    let finish buf len :=
      Some (0, evbuffer_invoke_callbacks_ {| buf with n_del_for_cb := u64 (n_del_for_cb buf + len) |}) in
    if (old_len <=? len) && negb (HAS_PINNED_R buf) then finish (ZERO_CHAIN buf) old_len
    else
      let len := if old_len <=? len then old_len else len in
      '(l, remaining, lwd) ← drain_loop (chains buf) len (last_with_datap buf);
      match l with
      | [] => None
      | ch :: l =>
          if remaining <=? off ch then
            finish {| buf with
              chains := {| ch with misalign := misalign ch + remaining; chain_data := zdrop remaining (chain_data ch) |} :: l;
              last_with_datap := lwd; total_len := total_len buf - len |} len
          else None
      end.

(** ** Copying out. *)

(** The two copies of [evbuffer_copyout_from]: [l] starts at the chain of the
    position, [pos_in_chain] bytes of which are passed over. *)
Fixpoint copyout_loop (l : list evbuffer_chain) (pos_in_chain datlen : Z) : option (list byte) :=
  if datlen =? 0 then Some []
  else
    match l with
    | [] => None
    | ch :: l =>
        if off ch - pos_in_chain <=? datlen then
          let copylen := off ch - pos_in_chain in
          rest ← copyout_loop l 0 (datlen - copylen);
          Some (zdrop pos_in_chain (chain_data ch) ++ rest)
        else if datlen + pos_in_chain <=? off ch
        then Some (ztake datlen (zdrop pos_in_chain (chain_data ch))) else None
    end.
(** From the start of the buffer: the result and the bytes copied. *)
Definition evbuffer_copyout buf (datlen : Z) : option (Z * list byte) :=
  let datlen := if total_len buf <? datlen then total_len buf else datlen in
  if datlen =? 0 then Some (0, [])
  else if freeze_start buf then Some (-1, [])
  else data ← copyout_loop (chains buf) 0 datlen; Some (datlen, data).

(** The result is narrowed to an [int]. *)
Definition evbuffer_remove buf (datlen : Z) : option (Z * list byte * evbuffer) :=
  '(n, data) ← evbuffer_copyout buf datlen;
  if 0 <? n then
    '(r, buf) ← evbuffer_drain buf n;
    Some (s32 (if r <? 0 then -1 else n), data, buf)
  else Some (s32 n, data, buf).

(** ** Moving data between two different buffers. *)

(** [last_with_datap] past the chains that hold data now. *)
Fixpoint data_prefix (l : list evbuffer_chain) : nat :=
  match l with [] => 0 | ch :: l => if c_true (off ch) then S (data_prefix l) else 0 end.
Definition advance_last_with_data buf : evbuffer :=
  match last_with_data buf with
  | None => buf
  | Some _ => {| buf with last_with_datap :=
      (last_with_datap buf + data_prefix (drop (S (last_with_datap buf)) (chains buf)))%nat |}
  end.

(** [PRESERVE_PINNED] and [RESTORE_PINNED] for a source without pinned
    chains, which are for overlapped I/O only: [None] otherwise. *)
Definition PRESERVE_PINNED (src : evbuffer) : option unit := if HAS_PINNED_R src then None else Some tt.
Definition RESTORE_PINNED (src : evbuffer) : evbuffer := ZERO_CHAIN src.
Definition COPY_CHAIN (dst src : evbuffer) : evbuffer :=
  {| dst with chains := chains src; last_with_datap := last_with_datap src; total_len := total_len src |}.
Definition APPEND_CHAIN (dst src : evbuffer) : option evbuffer :=
  '(dst, chp) ← evbuffer_free_trailing_empty_chains dst;
  Some {| dst with chains := chains dst ++ chains src; last_with_datap := (chp + last_with_datap src)%nat;
                   total_len := u64 (total_len dst + total_len src) |}.
Definition PREPEND_CHAIN (dst src : evbuffer) : evbuffer :=
  {| dst with chains := chains src ++ chains dst; total_len := u64 (total_len dst + total_len src);
     last_with_datap := match last_with_data dst with
                        | None => last_with_datap src
                        | Some _ => (length (chains src) + last_with_datap dst)%nat
                        end |}.

(** The result, [outbuf] and [inbuf]; [outbuf == inbuf] is the test for one
    buffer given twice, which changes nothing. *)
Definition evbuffer_add_buffer (outbuf inbuf : evbuffer) : option (Z * evbuffer * evbuffer) :=
  let in_total_len := total_len inbuf in
  if in_total_len =? 0 then Some (0, outbuf, inbuf)
  else if freeze_end outbuf || freeze_start inbuf then Some (-1, outbuf, inbuf)
  else
    _ ← PRESERVE_PINNED inbuf;
    outbuf ← (if total_len outbuf =? 0 then Some (COPY_CHAIN outbuf inbuf) else APPEND_CHAIN outbuf inbuf);
    let inbuf := RESTORE_PINNED inbuf in
    Some (0, evbuffer_invoke_callbacks_ {| outbuf with n_add_for_cb := u64 (n_add_for_cb outbuf + in_total_len) |},
             evbuffer_invoke_callbacks_ {| inbuf with n_del_for_cb := u64 (n_del_for_cb inbuf + in_total_len) |}).

Definition evbuffer_prepend_buffer (outbuf inbuf : evbuffer) : option (Z * evbuffer * evbuffer) :=
  let in_total_len := total_len inbuf in
  if in_total_len =? 0 then Some (0, outbuf, inbuf)
  else if freeze_start outbuf || freeze_start inbuf then Some (-1, outbuf, inbuf)
  else
    _ ← PRESERVE_PINNED inbuf;
    let outbuf := if total_len outbuf =? 0 then COPY_CHAIN outbuf inbuf else PREPEND_CHAIN outbuf inbuf in
    let inbuf := RESTORE_PINNED inbuf in
    Some (0, evbuffer_invoke_callbacks_ {| outbuf with n_add_for_cb := u64 (n_add_for_cb outbuf + in_total_len) |},
             evbuffer_invoke_callbacks_ {| inbuf with n_del_for_cb := u64 (n_del_for_cb inbuf + in_total_len) |}).

(** The loop of [evbuffer_remove_buffer]: whole chains that fit, which the
    code asserts not to include the last one with data.  [lwd] is the position
    of that one in [l], or [None] once [last_with_datap] was reset to [first]:
    from then on the assertion compares with the first chain of the buffer.
    The result: the chains taken, those left, the bytes still wanted, [lwd]. *)
Fixpoint take_chains (l : list evbuffer_chain) (datlen : Z) (lwd : option nat)
  : option (list evbuffer_chain * list evbuffer_chain * Z * option nat) :=
  match l with
  | [] => None
  | ch :: l' =>
      if off ch <=? datlen then
        match lwd with
        | Some 0%nat => None
        | _ =>
            let lwd := match lwd with Some (S (S k)) => Some (S k) | _ => None end in
            '(taken, rest, d, lwd) ← take_chains l' (datlen - off ch) lwd;
            Some (ch :: taken, rest, d, lwd)
        end
      else Some ([], l, datlen, lwd)
  end.
Definition chains_len (l : list evbuffer_chain) : Z := foldr (fun ch n => off ch + n) 0 l.

(** The result, [src] and [dst].  The result of [evbuffer_add] is ignored. *)
Definition evbuffer_remove_buffer (src dst : evbuffer) (datlen : Z) : option (Z * evbuffer * evbuffer) :=
  if datlen =? 0 then Some (0, src, dst)
  else if freeze_end dst || freeze_start src then Some (-1, src, dst)
  else if total_len src <=? datlen then
    let datlen := total_len src in
    '(_, dst, src) ← evbuffer_add_buffer dst src;
    Some (s32 datlen, src, dst)
  else
    '(taken, rest, datlen, lwd) ← take_chains (chains src) datlen (Some (last_with_datap src));
    let nread := chains_len taken in
    '(src, dst) ←
      (if c_true nread then
         '(dst, chp) ← evbuffer_free_trailing_empty_chains dst;
         let dst := {| dst with chains := chains dst ++ taken |} in
         let dst := advance_last_with_data dst in
         Some ({| src with chains := rest; last_with_datap := default 0%nat lwd |},
               {| dst with total_len := u64 (total_len dst + nread); n_add_for_cb := u64 (n_add_for_cb dst + nread) |})
       else Some ({| src with last_with_datap := match lwd with Some k => (length taken + k)%nat | None => 0%nat end |}, dst));
    let i := if c_true nread then 0%nat else length taken in
    ch ← chains src !! i;
    '(_, dst) ← evbuffer_add dst (ztake datlen (chain_data ch));
    let src := set_chain src i {| ch with misalign := misalign ch + datlen; chain_data := zdrop datlen (chain_data ch) |} in
    let nread := nread + datlen in
    let src := {| src with total_len := total_len src - nread; n_del_for_cb := u64 (n_del_for_cb src + nread) |} in
    if c_true nread then Some (s32 nread, evbuffer_invoke_callbacks_ src, evbuffer_invoke_callbacks_ dst)
    else Some (s32 nread, src, dst).

(** ** Making data or space contiguous. *)

(** The check that no chain the data come from is pinned. *)
Fixpoint pullup_pinned (l : list evbuffer_chain) (remaining : Z) : bool :=
  match l with
  | [] => false
  | ch :: l => if CHAIN_PINNED ch then true
               else if remaining <=? off ch then false else pullup_pinned l (remaining - off ch)
  end.
(** The chains that are pulled in whole: their bytes, those left and the size
    still to copy. *)
Fixpoint pullup_loop (l : list evbuffer_chain) (size : Z) : list byte * list evbuffer_chain * Z :=
  match l with
  | [] => ([], [], size)
  | ch :: l' =>
      if off ch <=? size then
        let '(bytes, rest, size) := pullup_loop l' (size - off ch) in
        (chain_data ch ++ bytes, rest, size)
      else ([], l, size)
  end.
(** [tmp] is the chain that receives the data, [l] the chains copied from,
    [k] the position of the first of them. *)
Definition pullup_into buf (tmp : evbuffer_chain) (l : list evbuffer_chain) (k : nat) (size : Z) : evbuffer :=
  let '(bytes, rest, size) := pullup_loop l size in
  let removed := (length l - length rest)%nat in
  let '(bytes, rest) :=
    match rest with
    | [] => (bytes, [])
    | ch :: rest => (bytes ++ ztake size (chain_data ch),
                     {| ch with misalign := misalign ch + size; chain_data := zdrop size (chain_data ch) |} :: rest)
    end in
  let lwd := last_with_datap buf in
  (* whether the freed chains k .. k + removed - 1 include the last with data,
     and the one whose next pointer last_with_datap is *)
  let removed_last_with_data := (k <=? lwd)%nat && (lwd <? k + removed)%nat in
  let removed_last_with_datap := (S k <=? lwd)%nat && (lwd <? S (k + removed))%nat in
  let tmp := chain_append tmp bytes in
  let lwd :=
    if removed_last_with_data then 0%nat
    else if removed_last_with_datap then
      match rest with ch :: _ => if c_true (off ch) then 1%nat else 0%nat | [] => 0%nat end
    else (* the pointer is to first, or to a chain that stays *)
      if (lwd =? 0)%nat then 0%nat else (lwd - (k + removed) + 1)%nat in
  {| buf with chains := tmp :: rest; last_with_datap := lwd |}.

(** The bytes the returned pointer leads to, or [None] inside. *)
Definition evbuffer_pullup buf (size : Z) : option (option (list byte) * evbuffer) :=
  let size := if size <? 0 then total_len buf else size in
  if (size =? 0) || (total_len buf <? size) then Some (None, buf)
  else
    match chains buf with
    | [] => None
    | ch :: l =>
        let ret buf := match chains buf with [] => None | tmp :: _ => Some (Some (chain_data tmp), buf) end in
        if size <=? off ch then ret buf
        else if pullup_pinned l (size - off ch) then Some (None, buf)
        else if CHAIN_PINNED ch then
          if CHAIN_SPACE_LEN ch <? size - off ch then Some (None, buf)
          else ret (pullup_into buf ch l 1 (size - off ch))
        else if size <=? buffer_len ch - misalign ch then ret (pullup_into buf ch l 1 (size - off ch))
        else
          match evbuffer_chain_new size with
          | None => Some (None, buf)
          | Some tmp => ret (pullup_into buf tmp (chains buf) 0 size)
          end
    end.

(** The position of the chain with [datlen] bytes of space, or [None] inside
    for a null pointer; the final assertions included. *)
Definition evbuffer_expand_singlechain buf (datlen : Z) : option (option nat * evbuffer) :=
  let chainp := match last_with_data buf with
                | Some ch => if CHAIN_SPACE_LEN ch =? 0 then S (last_with_datap buf) else last_with_datap buf
                | None => last_with_datap buf
                end in
  let ok buf i := match chains buf !! i with
                  | Some ch => if datlen <=? CHAIN_SPACE_LEN ch then Some (Some i, buf) else None
                  | None => None
                  end in
  let insert_new :=
    r ← evbuffer_chain_insert_new buf datlen;
    match r with None => Some (None, buf) | Some buf => ok buf (pred (length (chains buf))) end in
  match chains buf !! chainp with
  | None => insert_new
  | Some ch =>
      if has (chain_flags ch) (Z.lor EVBUFFER_IMMUTABLE EVBUFFER_MEM_PINNED_ANY) then insert_new
      else if datlen <=? CHAIN_SPACE_LEN ch then ok buf chainp
      else if off ch =? 0 then insert_new
      else if evbuffer_chain_should_realign ch datlen then
        ch ← evbuffer_chain_align ch; ok (set_chain buf chainp ch) chainp
      else if (CHAIN_SPACE_LEN ch <? buffer_len ch / 8) || (MAX_TO_COPY_IN_EXPAND <? off ch) ||
              (EVBUFFER_CHAIN_MAX - off ch <=? datlen) then
        match chains buf !! S chainp with
        | Some nx => if datlen <=? CHAIN_SPACE_LEN nx then ok buf (S chainp) else insert_new
        | None => insert_new
        end
      else
        match evbuffer_chain_new (off ch + datlen) with
        | None => Some (None, buf)
        | Some tmp => ok (set_chain buf chainp (chain_append tmp (chain_data ch))) chainp
        end
  end.
Definition evbuffer_expand buf (datlen : Z) : option (Z * evbuffer) :=
  '(r, buf) ← evbuffer_expand_singlechain buf datlen;
  Some (match r with Some _ => 0 | None => -1 end, buf).

(** ** Formatted text.

    [evbuffer_add_vprintf] with a format and arguments that produce [text].  As
    long as the text and its NUL do not fit, the loop asks for room; [None]
    stands for more tries than that. *)
Fixpoint printf_loop (tries : nat) buf (i : nat) (text : list byte) : option (Z * evbuffer) :=
  match tries with
  | O => None
  | S tries =>
      ch ← chains buf !! i;
      let sz := zlen text in
      if INT_MAX <? sz then Some (-1, buf)
      else if sz <? CHAIN_SPACE_LEN ch then
        let buf := set_chain buf i (chain_append ch text) in
        let buf := added buf sz in
        Some (sz, evbuffer_invoke_callbacks_ (advance_last_with_data buf))
      else
        '(r, buf) ← evbuffer_expand_singlechain buf (sz + 1);
        match r with None => Some (-1, buf) | Some i => printf_loop tries buf i text end
  end.
Definition evbuffer_add_vprintf buf (text : list byte) : option (Z * evbuffer) :=
  if freeze_end buf then Some (-1, buf)
  else
    '(r, buf) ← evbuffer_expand_singlechain buf 64;
    match r with None => Some (-1, buf) | Some i => printf_loop 2 buf i text end.
Definition evbuffer_add_printf := evbuffer_add_vprintf.

(** ** Foreign memory, inspection, freezing. *)
Definition sizeof_evbuffer_chain_reference : Z := 16.
Definition evbuffer_add_reference (outbuf : evbuffer) (data : list byte) : option (Z * evbuffer) :=
  match evbuffer_chain_new sizeof_evbuffer_chain_reference with
  | None => Some (-1, outbuf)
  | Some _ =>
      if freeze_end outbuf then Some (-1, outbuf)
      else
        let ch := Chain (zlen data) 0 data (Z.lor EVBUFFER_REFERENCE EVBUFFER_IMMUTABLE) in
        outbuf ← evbuffer_chain_insert outbuf ch;
        Some (0, evbuffer_invoke_callbacks_ {| outbuf with n_add_for_cb := u64 (n_add_for_cb outbuf + zlen data) |})
  end.

Definition evbuffer_get_length buf : Z := total_len buf.
Definition evbuffer_get_contiguous_space buf : Z := match chains buf with ch :: _ => off ch | [] => 0 end.
Definition evbuffer_freeze buf (start : bool) : Z * evbuffer :=
  (0, if start then {| buf with freeze_start := true |} else {| buf with freeze_end := true |}).
Definition evbuffer_unfreeze buf (start : bool) : Z * evbuffer :=
  (0, if start then {| buf with freeze_start := false |} else {| buf with freeze_end := false |}).
End Buffer.
