(* ===== verification/BufferInv.v ===== *)
(** * A buffer is a queue of bytes

    The invariant of an evbuffer, the bytes it stands for, and what its
    operations do to them. *)
From S2P Require Import Prelude Event Buffer.

(** ** The bytes. *)
Definition content (l : list evbuffer_chain) : list byte := l ≫= chain_data.
Definition bytes_of (buf : evbuffer) : list byte := content (chains buf).

(** A chain lies in its block; one that may not be written has no space; none
    is pinned. *)
Record chain_ok (ch : evbuffer_chain) : Prop := {
  ck_misalign : 0 <= misalign ch;
  ck_fits : misalign ch + off ch <= buffer_len ch;
  ck_max : buffer_len ch <= EVBUFFER_CHAIN_MAX - EVBUFFER_CHAIN_SIZE;
  ck_unpinned : has (chain_flags ch) EVBUFFER_MEM_PINNED_ANY = false;
  ck_immutable : has (chain_flags ch) EVBUFFER_IMMUTABLE = true -> misalign ch + off ch = buffer_len ch
}.

(** [last_with_datap] leads to a chain of the buffer, unless there is none, and
    no data come after that chain. *)
Definition lwd_ok (l : list evbuffer_chain) (k : nat) : Prop :=
  content (drop (S k) l) = [] /\ ((k < length l)%nat \/ (l = [] /\ k = 0%nat)).

Record evbuffer_wf (buf : evbuffer) : Prop := {
  ew_chains : Forall chain_ok (chains buf);
  ew_total : total_len buf = zlen (bytes_of buf);
  ew_max : total_len buf <= EV_SIZE_MAX;
  ew_lwd : lwd_ok (chains buf) (last_with_datap buf)
}.

(** ** Lists of chains. *)
Lemma content_app l l' : content (l ++ l') = content l ++ content l'.
Proof. unfold content. by rewrite bind_app. Qed.
Lemma content_cons ch l : content (ch :: l) = chain_data ch ++ content l.
Proof. done. Qed.
Lemma content_split l k ch : l !! k = Some ch -> content l = content (take k l) ++ chain_data ch ++ content (drop (S k) l).
Proof. intros Hk. rewrite <- (take_drop_middle l k ch Hk) at 1. by rewrite content_app. Qed.
Lemma content_insert l k ch ch' : l !! k = Some ch ->
  content (<[k := ch']> l) = content (take k l) ++ chain_data ch' ++ content (drop (S k) l).
Proof.
  intros Hk. pose proof (lookup_lt_Some _ _ _ Hk). rewrite (content_split (<[k := ch']> l) k ch').
  - rewrite take_insert_ge by lia. by rewrite drop_insert_lt by lia.
  - by rewrite list_lookup_insert_eq.
Qed.

Lemma zlen_app {A} (l l' : list A) : zlen (l ++ l') = zlen l + zlen l'.
Proof. unfold zlen. rewrite length_app. lia. Qed.
Lemma zlen_nonneg {A} (l : list A) : 0 <= zlen l.
Proof. unfold zlen. lia. Qed.
Lemma zlen_nil {A} (l : list A) : zlen l = 0 <-> l = [].
Proof. unfold zlen. destruct l; cbn; split; (done || lia). Qed.
Lemma off_true ch : c_true (off ch) = true <-> chain_data ch <> [].
Proof. unfold c_true, off. rewrite negb_true_iff, Z.eqb_neq, zlen_nil. done. Qed.
Lemma off_false ch : c_true (off ch) = false <-> chain_data ch = [].
Proof. unfold c_true, off. rewrite negb_false_iff, Z.eqb_eq, zlen_nil. done. Qed.
Lemma content_nil_forall l : content l = [] <-> Forall (fun ch => chain_data ch = []) l.
Proof.
  induction l as [|ch l IH]; [by split|]. rewrite content_cons, Forall_cons, <- IH.
  split; [intros [? ?]%app_eq_nil; done | intros [-> ->]; done].
Qed.
Lemma all_empty_ok l : evbuffer_chains_all_empty l = true <-> content l = [].
Proof.
  unfold evbuffer_chains_all_empty. induction l as [|ch l IH]; [done|]. cbn [forallb].
  rewrite andb_true_iff, negb_true_iff, off_false, IH, content_cons.
  split; [by intros [-> ->] | by intros [? ?]%app_eq_nil].
Qed.
Lemma zdrop_take {A} n (l : list A) : ztake n l ++ zdrop n l = l.
Proof. apply take_drop. Qed.
Lemma zlen_ztake {A} n (l : list A) : 0 <= n <= zlen l -> zlen (ztake n l) = n.
Proof. unfold zlen, ztake. intros. rewrite length_take. lia. Qed.
Lemma zlen_zdrop {A} n (l : list A) : 0 <= n <= zlen l -> zlen (zdrop n l) = zlen l - n.
Proof. unfold zlen, zdrop. intros. rewrite length_drop. lia. Qed.

(** ** Chains and their place. *)
Implicit Types (buf : evbuffer) (ch : evbuffer_chain).

Lemma round_up_ok fuel a size : 0 < a -> size <= a * 2 ^ Z.of_nat fuel ->
  size <= round_up fuel a size /\ a <= round_up fuel a size /\ round_up fuel a size <= Z.max a (2 * size).
Proof.
  revert a. induction fuel as [|fuel IH]; intros a Ha Hs; cbn [round_up].
  - change (2 ^ Z.of_nat 0) with 1 in Hs. lia.
  - destruct (Z.ltb_spec a size); [|lia]. rewrite Z.shiftl_mul_pow2 by lia. change (2 ^ 1) with 2.
    rewrite Nat2Z.inj_succ, Z.pow_succ_r in Hs by lia. destruct (IH (a * 2)) as (H1 & H2 & H3); [lia | lia|]. lia.
Qed.

#[local] Opaque round_up.
Lemma chain_new_ok mm size ch : 0 <= size -> evbuffer_chain_new mm size = Some ch ->
  chain_ok ch /\ chain_data ch = [] /\ misalign ch = 0 /\ chain_flags ch = 0 /\ size <= buffer_len ch.
Proof.
  intros Hs R. unfold evbuffer_chain_new in R. cbv zeta in R. case_if_in R; [done|]. case_if_in R; [|done]. injection R as <-.
  set (n := if _ : bool then _ else _).
  assert (Hn : size + EVBUFFER_CHAIN_SIZE <= n /\ n <= EVBUFFER_CHAIN_MAX).
  { unfold n, EVBUFFER_CHAIN_SIZE, EVBUFFER_CHAIN_MAX, EV_SSIZE_MAX, MIN_BUFFER_SIZE in *.
    destruct (Z.ltb_spec (size + 48) ((2 ^ 63 - 1) / 2)) as [Hlt|]; [|lia].
    destruct (round_up_ok 64 1024 (size + 48)) as (? & ? & ?); [lia | change (Z.of_nat 64) with 64; lia |].
    generalize dependent (round_up 64 1024 (size + 48)). intros. lia. }
  unfold EVBUFFER_CHAIN_SIZE in *. split_and!; cbn; try done; [|lia]. split; cbn; try done; unfold off, zlen, EVBUFFER_CHAIN_SIZE; cbn; lia.
Qed.

(** An allocation fails for want of memory, or because the size is not allowed. *)
Lemma chain_new_none mm size : evbuffer_chain_new mm size = None -> size <= EVBUFFER_CHAIN_MAX - EVBUFFER_CHAIN_SIZE ->
  exists n, mm n = false.
Proof.
  unfold evbuffer_chain_new. intros R Hs. rewrite (proj2 (Z.ltb_ge _ _) Hs) in R. cbv zeta in R.
  destruct (mm _) eqn:Hm in R; [done | by eexists].
Qed.

Lemma first_victim_ok l : Forall chain_ok l -> first_victim l = data_prefix l.
Proof.
  induction 1 as [|ch l Hc HF IH]; [done|]. cbn [first_victim data_prefix].
  unfold CHAIN_PINNED. rewrite (ck_unpinned _ Hc), orb_false_r, IH. done.
Qed.
Lemma data_prefix_nil l : content l = [] -> data_prefix l = 0%nat.
Proof.
  destruct l as [|ch l]; [done|]. rewrite content_cons. intros [Hc _]%app_eq_nil. cbn. by apply off_false in Hc as ->.
Qed.

(** What [evbuffer_free_trailing_empty_chains] keeps: all the data. *)
Lemma free_trailing_ok buf : evbuffer_wf buf ->
  exists i, evbuffer_free_trailing_empty_chains buf = Some ({| buf with chains := take i (chains buf) |}, i) /\
    (i <= length (chains buf))%nat /\ content (take i (chains buf)) = bytes_of buf /\
    (last_with_datap buf <= i <= S (last_with_datap buf))%nat.
Proof.
  intros W. unfold evbuffer_free_trailing_empty_chains. cbv zeta. set (k := last_with_datap buf).
  rewrite first_victim_ok by (apply Forall_drop, W).
  destruct (ew_lwd _ W) as [Hd HL]. fold k in Hd, HL.
  assert (Hi : exists i, (k + data_prefix (drop k (chains buf)))%nat = i /\ content (drop i (chains buf)) = [] /\
                         (i <= length (chains buf))%nat /\ (k <= i <= S k)%nat).
  { destruct HL as [HL|[Hn Hk0]]; [|exists 0%nat; rewrite Hn, Hk0; repeat split; (done || cbn; lia)]. destruct (lookup_lt_is_Some_2 _ _ HL) as [ch Hk].
    rewrite (drop_S _ ch k Hk). cbn [data_prefix]. rewrite (data_prefix_nil _ Hd). destruct (c_true (off ch)) eqn:Ho.
    - exists (S k). repeat split; (done || lia).
    - exists k. apply off_false in Ho. rewrite (drop_S _ ch k Hk), content_cons, Ho. repeat split; (done || lia). }
  destruct Hi as (i & -> & Hc & Hle & Hr). exists i. rewrite (proj2 (all_empty_ok _) Hc). split_and!; try (done || lia).
  unfold bytes_of. rewrite <- (take_drop i (chains buf)) at 2. by rewrite content_app, Hc, app_nil_r.
Qed.

(** Appending a chain. *)
(** An empty chain is inserted right after the last one with data. *)
Lemma chain_insert_last buf ch buf' : evbuffer_chain_insert buf ch = Some buf' -> evbuffer_wf buf -> off ch = 0 ->
  (pred (length (chains buf')) <= S (last_with_datap buf'))%nat.
Proof.
  intros R W Ho. unfold evbuffer_chain_insert, last_with_data in R. destruct (chains buf !! last_with_datap buf) as [c0|] eqn:Hk.
  - destruct (free_trailing_ok buf W) as (i & E & Hi & _ & Hki). rewrite E in R. cbn [mbind option_bind] in R. injection R as <-.
    cbn [chains last_with_datap]. rewrite Ho, length_app, length_take. cbn. lia.
  - destruct (chains buf); [|done]. injection R as <-. cbn. lia.
Qed.

Lemma chain_insert_ok buf ch : evbuffer_wf buf -> chain_ok ch -> total_len buf + off ch <= EV_SIZE_MAX ->
  exists buf', evbuffer_chain_insert buf ch = Some buf' /\ evbuffer_wf buf' /\
    bytes_of buf' = bytes_of buf ++ chain_data ch /\
    chains buf' !! pred (length (chains buf')) = Some ch /\ (chains buf = [] -> chains buf' = [ch] /\ last_with_datap buf' = 0%nat).
Proof.
  intros W Hc Hmax. unfold evbuffer_chain_insert, last_with_data. destruct (ew_lwd _ W) as [Hd HL].
  pose proof (ew_total _ W) as Ht. pose proof (zlen_nonneg (bytes_of buf)). pose proof (zlen_nonneg (chain_data ch)) as Hoff. fold (off ch) in Hoff.
  assert (Hu : u64 (total_len buf + off ch) = total_len buf + off ch) by (apply u64_small; unfold EV_SIZE_MAX in *; lia).
  destruct (chains buf !! last_with_datap buf) as [c0|] eqn:Hk.
  - destruct (free_trailing_ok buf W) as (i & -> & Hi & Hct & Hki). cbn [mbind option_bind]. eexists. split; [reflexivity|].
    cbn [chains last_with_datap total_len]. rewrite Hu.
    assert (Hbs : content (take i (chains buf) ++ [ch]) = bytes_of buf ++ chain_data ch).
    { rewrite content_app, Hct. cbn. by rewrite app_nil_r. }
    assert (Hlen : length (take i (chains buf)) = i) by (rewrite length_take; lia).
    split_and!; [|exact Hbs | | intros Hn; by rewrite Hn in Hk].
    2: { rewrite lookup_app_r by (rewrite length_app, Hlen; cbn; lia). rewrite length_app, Hlen. cbn.
         by replace (pred (i + 1) - i)%nat with 0%nat by lia. }
    split; cbn [chains last_with_datap total_len].
    + apply Forall_app. split; [apply Forall_take, W | by constructor].
    + unfold bytes_of in *. cbn [chains]. rewrite Hbs, zlen_app. unfold off. lia.
    + done.
    + split; [|left; rewrite length_app, Hlen; case_if; cbn; lia]. case_if.
      * by rewrite drop_ge by (rewrite length_app, Hlen; cbn; lia).
      * apply off_false in E. rewrite drop_app, content_app, (drop_ge (take i (chains buf))) by lia.
        destruct (S (last_with_datap buf) - length (take i (chains buf)))%nat; cbn; [by rewrite E | by rewrite drop_nil].
  - destruct HL as [HL|[Hn Hk0]]; [by apply lookup_lt_is_Some_2 in HL as [? ?]; congruence|].
    rewrite Hn. eexists. split; [reflexivity|]. rewrite Hu.
    assert (Hb0 : bytes_of buf = []) by (unfold bytes_of; by rewrite Hn).
    split_and!; [| by rewrite Hb0; unfold bytes_of; cbn; rewrite app_nil_r | done | done].
    split; cbn [chains last_with_datap total_len]; [by apply Forall_singleton | | done | split; [done | left; cbn; lia]].
    unfold bytes_of. cbn. rewrite app_nil_r, Ht, Hb0. unfold off, zlen. cbn. lia.
Qed.
