(* ===== verification/BufferOps.v ===== *)
(** * Adding to and removing from a buffer

    [evbuffer_add], [evbuffer_prepend], [evbuffer_drain], [evbuffer_copyout] and
    [evbuffer_remove] on the bytes a buffer stands for, with what their
    callbacks are told. *)
From S2P Require Import Prelude Event Buffer BufferInv.

(** ** What an operation reports. *)

(** No change waits to be reported. *)
Definition quiet (buf : evbuffer) : Prop := n_add_for_cb buf = 0 /\ n_del_for_cb buf = 0.

(** From [buf] to [buf'] so many bytes came and went: the configuration is
    the same and each enabled callback was called once, with the old length. *)
Record notified (buf buf' : evbuffer) (came went : Z) : Prop := {
  nt_start : freeze_start buf' = freeze_start buf;
  nt_end : freeze_end buf' = freeze_end buf;
  nt_callbacks : callbacks buf' = callbacks buf;
  nt_quiet : quiet buf -> quiet buf';
  nt_calls : quiet buf ->
    calls buf' = calls buf ++ (if (came =? 0) && (went =? 0) then []
                               else run_cb_list (callbacks buf) (CbInfo (total_len buf) came went))
}.

Lemma notified_refl buf : notified buf buf 0 0.
Proof. split; try done. intros _. by rewrite app_nil_r. Qed.

Lemma notified_frame buf1 buf buf' came went : notified buf1 buf' came went ->
  freeze_start buf1 = freeze_start buf -> freeze_end buf1 = freeze_end buf -> callbacks buf1 = callbacks buf ->
  calls buf1 = calls buf -> n_add_for_cb buf1 = n_add_for_cb buf -> n_del_for_cb buf1 = n_del_for_cb buf ->
  total_len buf1 = total_len buf -> notified buf buf' came went.
Proof.
  intros [N1 N2 N3 N4 N5] Hf1 Hf2 Hf3 Hf4 Hf5 Hf6 Hf7. unfold quiet in *. rewrite Hf1, Hf2, Hf5, Hf6, Hf3, Hf4, Hf7 in *.
  by split.
Qed.

(** [evbuffer_invoke_callbacks_] touches no data. *)
Lemma invoke_data buf : let buf' := evbuffer_invoke_callbacks_ buf in
  chains buf' = chains buf /\ last_with_datap buf' = last_with_datap buf /\ total_len buf' = total_len buf.
Proof. unfold evbuffer_invoke_callbacks_, evbuffer_run_callbacks. destruct (callbacks buf); [done|]. by case_if. Qed.
Lemma invoke_wf buf : evbuffer_wf (evbuffer_invoke_callbacks_ buf) <-> evbuffer_wf buf.
Proof.
  destruct (invoke_data buf) as (Hc & Hl & Ht).
  split; intros [? ? ? ?]; split; unfold bytes_of in *; rewrite ?Hc, ?Hl, ?Ht in *; done.
Qed.
Lemma invoke_frame buf : let buf' := evbuffer_invoke_callbacks_ buf in
  freeze_start buf' = freeze_start buf /\ freeze_end buf' = freeze_end buf /\ callbacks buf' = callbacks buf.
Proof.
  unfold evbuffer_invoke_callbacks_, evbuffer_run_callbacks. destruct (callbacks buf) eqn:Hc; [done|]. by case_if.
Qed.
Lemma invoke_bytes buf : bytes_of (evbuffer_invoke_callbacks_ buf) = bytes_of buf.
Proof. unfold bytes_of. by destruct (invoke_data buf) as (-> & _ & _). Qed.

(** A change that was counted and not reported yet. *)
Record changed (buf mid : evbuffer) (came went : Z) : Prop := {
  cg_start : freeze_start mid = freeze_start buf;
  cg_end : freeze_end mid = freeze_end buf;
  cg_callbacks : callbacks mid = callbacks buf;
  cg_calls : calls mid = calls buf;
  cg_count : quiet buf -> n_add_for_cb mid = came /\ n_del_for_cb mid = went;
  cg_total : total_len mid = total_len buf + came - went
}.
Lemma changed_refl buf : changed buf buf 0 0.
Proof. split; try done. lia. Qed.

(** The change that is reported is the one that was counted. *)
Lemma invoke_notified buf mid came went : changed buf mid came went -> 0 <= total_len buf <= EV_SIZE_MAX ->
  notified buf (evbuffer_invoke_callbacks_ mid) came went.
Proof.
  intros [Hs He Hc Hl Hn Ht] Hr. unfold evbuffer_invoke_callbacks_, evbuffer_run_callbacks. rewrite Hc.
  destruct (callbacks buf) as [|cb cbs] eqn:Hcb.
  - split; cbn; rewrite ?Hs, ?He, ?Hc, ?Hl, ?Hcb; try done. intros _. case_if; by rewrite app_nil_r.
  - destruct ((n_add_for_cb mid =? 0) && (n_del_for_cb mid =? 0)) eqn:Hz; cbv iota.
    + split; rewrite ?Hs, ?He, ?Hc, ?Hl, ?Hcb; try done.
      * intros _. unfold quiet. lia.
      * intros [Ha Hd]%Hn. rewrite <- Ha, <- Hd, Hz. by rewrite app_nil_r.
    + split; cbn [freeze_start freeze_end callbacks calls]; rewrite ?Hs, ?He, ?Hc, ?Hl, ?Hcb; try done.
      intros [Ha Hd]%Hn. rewrite <- Ha, <- Hd, Hz. cbv iota. do 2 f_equal. rewrite Ha, Hd, Ht.
      replace (total_len buf + came - went + went - came) with (total_len buf) by lia.
      rewrite u64_small; [done | unfold EV_SIZE_MAX in Hr; lia].
Qed.

(** ** Changing one chain. *)
Lemma total_range buf : evbuffer_wf buf -> 0 <= total_len buf <= EV_SIZE_MAX.
Proof. intros W. pose proof (ew_max _ W). rewrite (ew_total _ W) in *. pose proof (zlen_nonneg (bytes_of buf)). lia. Qed.

Lemma put_wf buf buf' k ch ch' : evbuffer_wf buf -> chains buf !! k = Some ch -> chain_ok ch' ->
  (k <= last_with_datap buf)%nat ->
  chains buf' = <[k := ch']> (chains buf) -> last_with_datap buf' = last_with_datap buf ->
  total_len buf' = total_len buf + off ch' - off ch -> total_len buf' <= EV_SIZE_MAX -> evbuffer_wf buf'.
Proof.
  intros W Hk Hc Hle Hcs Hl Ht Hm. split; unfold bytes_of; rewrite ?Hcs, ?Hl.
  - apply Forall_insert; [apply W | done].
  - rewrite Ht, (ew_total _ W). unfold bytes_of, off. rewrite (content_insert _ _ _ _ Hk), (content_split _ _ _ Hk), !zlen_app. lia.
  - done.
  - destruct (ew_lwd _ W) as [Hd HL]. split; [rewrite drop_insert_lt by lia; done | rewrite length_insert].
    destruct HL as [|[Hn _]]; [by left | by rewrite Hn in Hk].
Qed.

Lemma chain_append_ok ch data : chain_ok ch -> has (chain_flags ch) EVBUFFER_IMMUTABLE = false ->
  misalign ch + off ch + zlen data <= buffer_len ch -> chain_ok (chain_append ch data).
Proof.
  intros [H1 H2 H3 H4 H5] Hi Hf. unfold off in *. split; cbn; unfold off; cbn; rewrite ?zlen_app; try done; try lia.
  by rewrite Hi.
Qed.
Lemma chain_align_ok ch : chain_ok ch -> has (chain_flags ch) EVBUFFER_IMMUTABLE = false ->
  evbuffer_chain_align ch = Some {| ch with misalign := 0 |} /\ chain_ok {| ch with misalign := 0 |}.
Proof.
  intros [H1 H2 H3 H4 H5] Hi. unfold evbuffer_chain_align. rewrite Hi, H4. split; [done|].
  split; cbn; unfold off in *; cbn; try done; try lia. by rewrite Hi.
Qed.

Lemma chain_insert_frame buf ch buf' : evbuffer_chain_insert buf ch = Some buf' ->
  freeze_start buf' = freeze_start buf /\ freeze_end buf' = freeze_end buf /\ callbacks buf' = callbacks buf /\
  calls buf' = calls buf /\ n_add_for_cb buf' = n_add_for_cb buf /\ n_del_for_cb buf' = n_del_for_cb buf /\
  total_len buf' = u64 (total_len buf + off ch).
Proof.
  unfold evbuffer_chain_insert, evbuffer_free_trailing_empty_chains, last_with_data. intros R.
  destruct (chains buf !! last_with_datap buf).
  - cbv zeta in R. destruct (evbuffer_chains_all_empty _); [|done]. cbn [mbind option_bind] in R. by injection R as <-.
  - destruct (chains buf); [|done]. by injection R as <-.
Qed.

(** ** Appending. *)
Section Ops.
Context (mm : Z -> bool).
Implicit Types (buf : evbuffer) (ch : evbuffer_chain).

(** Why an operation that adds may fail: the buffer is frozen, its length
    would overflow, or no block of the size can be had. *)
Definition add_refused (frozen : bool) buf (datlen : Z) : Prop :=
  frozen = true \/ EV_SIZE_MAX - total_len buf < datlen \/
  exists n, datlen <= n /\ (n = datlen \/ n <= EVBUFFER_CHAIN_MAX - EVBUFFER_CHAIN_SIZE) /\ evbuffer_chain_new mm n = None.

(** The result of an operation that appends [data] to a buffer that gained
    [came] bytes since [base], not reported yet. *)
Definition appended base (came : Z) buf (data : list byte) (r : Z) (buf' : evbuffer) : Prop :=
  evbuffer_wf buf' /\
  ((r = 0 /\ bytes_of buf' = bytes_of buf ++ data /\ notified base buf' (came + zlen data) 0) \/
   (r = -1 /\ buf' = buf /\ add_refused (freeze_end buf) buf (zlen data))).

(** The state before, and the bytes gained since. *)
Definition since base (came : Z) buf : Prop := changed base buf came 0 /\ 0 <= came /\ 0 <= total_len base <= EV_SIZE_MAX.

Lemma since_refl buf : evbuffer_wf buf -> since buf 0 buf.
Proof. intros W. split_and!; [apply changed_refl | lia | apply (total_range _ W)..]. Qed.
Lemma since_frame buf base came buf1 : since base came buf ->
  freeze_start buf1 = freeze_start buf -> freeze_end buf1 = freeze_end buf -> callbacks buf1 = callbacks buf ->
  calls buf1 = calls buf -> n_add_for_cb buf1 = n_add_for_cb buf -> n_del_for_cb buf1 = n_del_for_cb buf ->
  total_len buf1 = total_len buf -> since base came buf1.
Proof.
  intros ([C1 C2 C3 C4 C5 C6] & Hcame) Hf1 Hf2 Hf3 Hf4 Hf5 Hf6 Hf7. split; [|done].
  split; rewrite ?Hf1, ?Hf2, ?Hf3, ?Hf4, ?Hf5, ?Hf6, ?Hf7; done.
Qed.

(** Data that go into the chain [last_with_datap] leads to. *)
Lemma add_in_place buf ch ch' data : evbuffer_wf buf -> last_with_data buf = Some ch ->
  chain_ok ch' -> chain_data ch' = chain_data ch ++ data -> total_len buf + zlen data <= EV_SIZE_MAX ->
  let mid := added (set_chain buf (last_with_datap buf) ch') (zlen data) in
  evbuffer_wf mid /\ bytes_of mid = bytes_of buf ++ data /\ total_len mid = total_len buf + zlen data.
Proof.
  intros W Hk Hc Hd Hm mid. pose proof (total_range _ W). pose proof (zlen_nonneg data).
  assert (Ht : total_len mid = total_len buf + zlen data) by (cbn; apply u64_small; unfold EV_SIZE_MAX in *; lia).
  split_and!; [| |done].
  - apply (put_wf buf mid (last_with_datap buf) ch ch'); try done; try lia. rewrite Ht. unfold off. rewrite Hd, zlen_app. lia.
  - unfold bytes_of, mid. cbn. destruct (ew_lwd _ W) as [Hn _]. unfold last_with_data in Hk.
    rewrite (content_insert _ _ _ _ Hk), (content_split _ _ _ Hk), Hn, Hd, !app_nil_r. by rewrite app_assoc.
Qed.

(** ... and are then reported. *)
Lemma add_in_place_done base came buf ch ch' data : since base came buf -> evbuffer_wf buf -> last_with_data buf = Some ch ->
  chain_ok ch' -> chain_data ch' = chain_data ch ++ data -> total_len buf + zlen data <= EV_SIZE_MAX ->
  appended base came buf data 0 (evbuffer_invoke_callbacks_ (added (set_chain buf (last_with_datap buf) ch') (zlen data))).
Proof.
  intros ([C1 C2 C3 C4 C5 C6] & Hcame & Hbase) W Hk Hc Hd Hm.
  destruct (add_in_place buf ch ch' data W Hk Hc Hd Hm) as (Wm & Hb & Ht).
  split; [by apply invoke_wf|]. left. split_and!; [done | by rewrite invoke_bytes|].
  apply invoke_notified; [|done]. split; try done; [|lia]. intros [Ha Hd']%C5. cbn. rewrite Ha. split; [|done].
  pose proof (zlen_nonneg data). apply u64_small. unfold EV_SIZE_MAX in *. lia.
Qed.

(** The size asked for when another chain is needed. *)
Lemma new_size_ok ch datlen : chain_ok ch ->
  let to_alloc := if buffer_len ch <=? EVBUFFER_CHAIN_MAX_AUTO_SIZE / 2 then Z.shiftl (buffer_len ch) 1 else buffer_len ch in
  let n := if to_alloc <? datlen then datlen else to_alloc in
  datlen <= n /\ (n = datlen \/ n <= EVBUFFER_CHAIN_MAX - EVBUFFER_CHAIN_SIZE).
Proof.
  intros [_ _ Hmax _ _] to_alloc n. unfold n. destruct (Z.ltb_spec to_alloc datlen); [lia|]. split; [lia | right]. unfold to_alloc.
  rewrite Z.shiftl_mul_pow2 by lia. unfold EVBUFFER_CHAIN_MAX, EVBUFFER_CHAIN_MAX_AUTO_SIZE, EVBUFFER_CHAIN_SIZE, EV_SSIZE_MAX in *.
  case_if; lia.
Qed.

Lemma add_new_chain_ok base came buf ch data remain : since base came buf -> evbuffer_wf buf -> last_with_data buf = Some ch ->
  0 <= remain <= zlen data -> (remain <> 0 -> has (chain_flags ch) EVBUFFER_IMMUTABLE = false) ->
  misalign ch + off ch + remain <= buffer_len ch -> total_len buf + zlen data <= EV_SIZE_MAX ->
  exists r buf', add_new_chain mm buf (last_with_datap buf) ch data remain = Some (r, buf') /\ appended base came buf data r buf'.
Proof.
  intros ([C1 C2 C3 C4 C5 C6] & Hcame & Hbase) W Hk Hr Himm Hfit Hm. unfold add_new_chain. cbv zeta.
  set (n := if _ <? zlen data then _ else _). assert (HF : Forall chain_ok (chains buf)) by apply W.
  assert (Hch : chain_ok ch) by (eapply Forall_lookup_1; eauto). pose proof (total_range _ W) as Htr. pose proof (zlen_nonneg data) as Hz.
  assert (Hn : zlen data <= n /\ (n = zlen data \/ n <= EVBUFFER_CHAIN_MAX - EVBUFFER_CHAIN_SIZE)) by (by apply new_size_ok).
  clearbody n. destruct Hn as [Hn Hnb].
  destruct (evbuffer_chain_new mm n) as [tmp|] eqn:Hnew.
  2: { eexists _, _. split; [done|]. split; [done|]. right. split_and!; try done. right. right. by exists n. }
  destruct (chain_new_ok mm n tmp) as (Hc & Hd & Hmis & Hfl & Hlen); [lia | done|].
  set (mid := if c_true remain then _ else _).
  assert (Hmid : evbuffer_wf mid /\ bytes_of mid = bytes_of buf ++ ztake remain data /\ total_len mid = total_len buf + remain).
  { unfold mid, c_true. destruct (Z.eqb_spec remain 0) as [->|Hne]; cbn [negb].
    - rewrite app_nil_r. split_and!; (done || lia).
    - pose proof (add_in_place buf ch (chain_append ch (ztake remain data)) (ztake remain data) W Hk) as Hp.
      rewrite (zlen_ztake remain data Hr) in Hp. apply Hp; [|done | lia].
      apply chain_append_ok; [done | by apply Himm | rewrite zlen_ztake by done; lia]. }
  destruct Hmid as (Wm & Hbm & Htm). pose proof (zlen_zdrop remain data Hr) as Hzd.
  assert (Hcr : chain_ok (chain_append tmp (zdrop remain data))).
  { apply chain_append_ok; [done | by rewrite Hfl |]. unfold off. rewrite Hd, Hmis, Hzd. change (zlen []) with 0. lia. }
  assert (Ho : off (chain_append tmp (zdrop remain data)) = zlen data - remain) by (unfold off; cbn; by rewrite Hd).
  destruct (chain_insert_ok mid _ Wm Hcr) as (buf2 & E2 & W2 & Hb2 & _); [lia|]. rewrite E2. cbn [mbind option_bind].
  eexists _, _. split; [done|]. split; [apply invoke_wf; destruct W2; by split|]. left. split; [done|].
  rewrite invoke_bytes. unfold bytes_of in *. cbn [chains]. rewrite Hb2, Hbm. cbn. rewrite Hd. cbn.
  rewrite <- app_assoc, zdrop_take. split; [done|].
  destruct (chain_insert_frame _ _ _ E2) as (Hf1 & Hf2 & Hf3 & Hf4 & Hf5 & Hf6 & Hf7). rewrite Ho in Hf7.
  assert (Hmid : freeze_start mid = freeze_start buf /\ freeze_end mid = freeze_end buf /\ callbacks mid = callbacks buf /\
                 calls mid = calls buf /\ n_del_for_cb mid = n_del_for_cb buf) by (unfold mid; by case_if).
  destruct Hmid as (Hm1 & Hm2 & Hm3 & Hm4 & Hm6).
  apply invoke_notified; [|done]. split; try (cbn; congruence); cbn [n_add_for_cb n_del_for_cb total_len].
  - intros [Ha Hdl]%C5. rewrite Hf5, Hf6, Hm6, Hdl, Hzd. split; [|done]. unfold mid, c_true.
    destruct (Z.eqb_spec remain 0) as [->|]; cbn; rewrite Ha; unfold EV_SIZE_MAX in *; [|rewrite (u64_small (came + _)) by lia];
      rewrite u64_small; lia.
  - rewrite Hf7, Htm, u64_small; [lia | unfold EV_SIZE_MAX in *; lia].
Qed.

(** The rest of [evbuffer_add], from the chain it starts with. *)
Lemma add_start_ok base came buf ch data : since base came buf -> evbuffer_wf buf -> last_with_data buf = Some ch -> total_len buf + zlen data <= EV_SIZE_MAX ->
  exists r buf',
    (if negb (has (chain_flags ch) EVBUFFER_IMMUTABLE) then
       _ ← (if (0 <=? misalign ch) && (misalign ch <=? EVBUFFER_CHAIN_MAX) then Some tt else None);
       let remain := buffer_len ch - misalign ch - off ch in
       if zlen data <=? remain then
         Some (0, evbuffer_invoke_callbacks_ (added (set_chain buf (last_with_datap buf) (chain_append ch data)) (zlen data)))
       else if negb (CHAIN_PINNED ch) && evbuffer_chain_should_realign ch (zlen data) then
         ch ← evbuffer_chain_align ch;
         Some (0, evbuffer_invoke_callbacks_ (added (set_chain buf (last_with_datap buf) (chain_append ch data)) (zlen data)))
       else add_new_chain mm buf (last_with_datap buf) ch data remain
     else add_new_chain mm buf (last_with_datap buf) ch data 0) = Some (r, buf') /\ appended base came buf data r buf'.
Proof.
  intros HS W Hk Hm. pose proof (zlen_nonneg data). assert (HF : Forall chain_ok (chains buf)) by apply W.
  assert (Hch : chain_ok ch) by (eapply Forall_lookup_1; eauto). pose proof Hch as [H1 H2 H3 H4 H5].
  pose proof (zlen_nonneg (chain_data ch)) as Hoff. fold (off ch) in Hoff.
  destruct (has (chain_flags ch) EVBUFFER_IMMUTABLE) eqn:Hi; cbn [negb].
  { apply add_new_chain_ok; (done || lia). }
  rewrite (proj2 (Z.leb_le _ _) H1), (proj2 (Z.leb_le (misalign ch) _)) by (unfold EVBUFFER_CHAIN_SIZE in *; lia). cbn [andb mbind option_bind]. cbv zeta.
  destruct (Z.leb_spec (zlen data) (buffer_len ch - misalign ch - off ch)) as [Hfit|Hfit].
  { eexists _, _. split; [done|]. apply (add_in_place_done base came buf ch); try done. apply chain_append_ok; (done || lia). }
  unfold CHAIN_PINNED. rewrite H4. cbn [negb andb]. unfold evbuffer_chain_should_realign.
  destruct ((zlen data <=? buffer_len ch - off ch) && _ && _) eqn:Hre.
  - destruct (chain_align_ok ch Hch Hi) as [-> Hca]. cbn [mbind option_bind]. eexists _, _. split; [done|].
    apply (add_in_place_done base came buf ch); try done. apply chain_append_ok; try done. cbn. unfold off in *. cbn. lia.
  - apply add_new_chain_ok; (done || lia).
Qed.

(** Data in front: the chain takes them before its own. *)
Definition prepended ch (data : list byte) : evbuffer_chain :=
  {| ch with chain_data := data ++ chain_data ch; misalign := misalign ch - zlen data |}.
Lemma prepended_ok ch data : chain_ok ch -> has (chain_flags ch) EVBUFFER_IMMUTABLE = false ->
  zlen data <= misalign ch -> chain_ok (prepended ch data).
Proof.
  intros [H1 H2 H3 H4 H5] Hi Hf. unfold off in *. split; cbn; unfold off; cbn; rewrite ?zlen_app; try done; try lia.
Qed.
Lemma prepend_in_place buf ch ch' l data : evbuffer_wf buf -> chains buf = ch :: l -> chain_data ch' = chain_data ch ->
  chain_ok (prepended ch' data) -> total_len buf + zlen data <= EV_SIZE_MAX ->
  let mid := added (set_chain buf 0 (prepended ch' data)) (zlen data) in
  evbuffer_wf mid /\ bytes_of mid = data ++ bytes_of buf /\ changed buf mid (zlen data) 0.
Proof.
  intros W Hcs Hd Hok Hm mid. pose proof (total_range _ W). pose proof (zlen_nonneg data). unfold EV_SIZE_MAX in *.
  assert (Ht : total_len mid = total_len buf + zlen data) by (cbn; apply u64_small; lia).
  split_and!.
  - apply (put_wf buf mid 0 ch (prepended ch' data)); try done; try lia; [by rewrite Hcs | |unfold EV_SIZE_MAX; lia].
    rewrite Ht. unfold off. cbn. rewrite zlen_app, Hd. lia.
  - unfold bytes_of, mid. cbn. rewrite Hcs. cbn. by rewrite Hd, <- app_assoc.
  - split; try done; [|lia]. intros [Ha ?]. cbn. rewrite Ha. split; [apply u64_small; lia | done].
Qed.

(** The result of [evbuffer_prepend].  When no block can be had for the data
    that do not fit in the first chain, the rest of them is in the buffer. *)
Definition put_before buf (data : list byte) (r : Z) (buf' : evbuffer) : Prop :=
  evbuffer_wf buf' /\
  ((r = 0 /\ bytes_of buf' = data ++ bytes_of buf /\ notified buf buf' (zlen data) 0) \/
   (r = -1 /\ exists n, 0 <= n <= zlen data /\ bytes_of buf' = zdrop n data ++ bytes_of buf /\
      changed buf buf' (zlen data - n) 0 /\
      (n <> zlen data -> evbuffer_chain_new mm n = None) /\
      (freeze_start buf = true \/ EV_SIZE_MAX - total_len buf < zlen data \/ evbuffer_chain_new mm n = None))).

Lemma prepend_new_chain_ok buf mid data n : evbuffer_wf buf -> evbuffer_wf mid -> chains mid <> [] ->
  0 <= n <= zlen data -> bytes_of mid = zdrop n data ++ bytes_of buf -> changed buf mid (zlen data - n) 0 ->
  total_len buf + zlen data <= EV_SIZE_MAX ->
  exists r buf', prepend_new_chain mm mid (ztake n data) = Some (r, buf') /\ put_before buf data r buf'.
Proof.
  intros W Wm Hne Hn Hb Hcg Hmax. unfold prepend_new_chain. cbv zeta. rewrite zlen_ztake by done. pose proof (total_range _ W).
  destruct (evbuffer_chain_new mm n) as [tmp|] eqn:Hnew.
  2: { eexists _, _. split; [done|]. split; [done|]. right. split; [done|]. exists n. split_and!; try done; [lia.. | auto]. }
  destruct (chain_new_ok mm n tmp) as (Hc & Hd & Hmis & Hfl & Hlen); [lia | done|].
  rewrite (proj2 (Z.leb_le _ _) Hlen). eexists _, _. split; [done|].
  destruct Hcg as [C1 C2 C3 C4 C5 C6]. unfold EV_SIZE_MAX in *.
  assert (Hu : u64 (total_len mid + n) = total_len buf + zlen data) by (rewrite u64_small; lia).
  split.
  - apply invoke_wf. split; cbn [chains last_with_datap total_len added]; rewrite ?Hu.
    + constructor; [|apply Wm]. destruct Hc as [H1 H2 H3 H4 H5]. unfold off in *.
      split; cbn; unfold off; cbn; rewrite ?Hd, ?Hfl; cbn; rewrite ?zlen_ztake by done; try done; lia.
    + unfold bytes_of in *. cbn [chains added]. rewrite content_cons, Hb. cbn [chain_data chain_append].
      rewrite Hd, !zlen_app, zlen_zdrop, zlen_ztake, (ew_total _ W) by done. unfold bytes_of. change (zlen []) with 0. lia.
    + done.
    + destruct (ew_lwd _ Wm) as [Hdr HL]. split; [exact Hdr|]. left. destruct HL as [|[? _]]; [cbn; lia | done].
  - left. rewrite invoke_bytes. split_and!; [done | |].
    + unfold bytes_of in *. cbn [chains added]. rewrite content_cons, Hb. cbn [chain_data chain_append].
      by rewrite Hd, app_nil_l, app_assoc, zdrop_take.
    + apply invoke_notified; [|done]. split; try done; cbn; [|lia]. intros [Ha Hdl]%C5. rewrite Ha, Hdl. split; [rewrite u64_small; lia | done].
Qed.

(** [evbuffer_prepend] on a buffer with a first chain. *)
Lemma prepend_start_ok buf ch l data : evbuffer_wf buf -> chains buf = ch :: l -> total_len buf + zlen data <= EV_SIZE_MAX ->
  exists r buf',
    (if negb (has (chain_flags ch) EVBUFFER_IMMUTABLE) then
       _ ← (if (0 <=? misalign ch) && (misalign ch <=? EVBUFFER_CHAIN_MAX) then Some tt else None);
       let ch := if off ch =? 0 then {| ch with misalign := buffer_len ch |} else ch in
       let put n bytes := added (set_chain buf 0 {| ch with chain_data := bytes ++ chain_data ch;
                                                            misalign := misalign ch - n |}) n in
       if zlen data <=? misalign ch then Some (0, evbuffer_invoke_callbacks_ (put (zlen data) data))
       else if c_true (misalign ch) then
         let k := zlen data - misalign ch in
         prepend_new_chain mm (put (misalign ch) (zdrop k data)) (ztake k data)
       else prepend_new_chain mm (set_chain buf 0 ch) data
     else prepend_new_chain mm buf data) = Some (r, buf') /\ put_before buf data r buf'.
Proof.
  intros W Hcs Hm. pose proof (zlen_nonneg data) as Hz. pose proof (total_range _ W) as Hr. pose proof (ew_chains _ W) as HF.
  rewrite Hcs in HF. apply Forall_cons in HF as [Hch _]. pose proof Hch as [H1 H2 H3 H4 H5].
  pose proof (zlen_nonneg (chain_data ch)) as Hoff. fold (off ch) in Hoff.
  assert (Hwhole : ztake (zlen data) data = data /\ zdrop (zlen data) data = []).
  { unfold ztake, zdrop, zlen. rewrite Nat2Z.id. split; [by rewrite firstn_all | by rewrite drop_all]. }
  destruct Hwhole as [Ht Hd].
  destruct (has (chain_flags ch) EVBUFFER_IMMUTABLE) eqn:Hi; cbn [negb].
  { pose proof (prepend_new_chain_ok buf buf data (zlen data)) as Hp. rewrite Ht, Hd, Z.sub_diag in Hp.
    apply Hp; try done; [by rewrite Hcs | apply changed_refl]. }
  rewrite (proj2 (Z.leb_le _ _) H1), (proj2 (Z.leb_le (misalign ch) _)) by (unfold EVBUFFER_CHAIN_SIZE in *; lia). cbn [andb mbind option_bind]. cbv zeta.
  set (ch' := if off ch =? 0 then _ else ch).
  assert (Hc' : chain_ok ch' /\ chain_data ch' = chain_data ch /\ has (chain_flags ch') EVBUFFER_IMMUTABLE = false).
  { unfold ch'. destruct (Z.eqb_spec (off ch) 0) as [H0|]; [|done]. split_and!; try done.
    split; cbn; try done; unfold off in *; cbn; lia. }
  clearbody ch'. destruct Hc' as (Hc' & Hd' & Hi'). pose proof (ck_misalign _ Hc').
  destruct (Z.leb_spec (zlen data) (misalign ch')) as [Hfit|Hfit].
  { eexists _, _. split; [done|]. destruct (prepend_in_place buf ch ch' l data) as (Wm & Hb & Hcg); try done; [by apply prepended_ok|].
    split; [by apply invoke_wf|]. left. split_and!; [done | by rewrite invoke_bytes | by apply invoke_notified]. }
  unfold c_true. destruct (Z.eqb_spec (misalign ch') 0) as [Hz'|Hnz]; cbn [negb].
  - pose proof (prepend_new_chain_ok buf (set_chain buf 0 ch') data (zlen data)) as Hp.
    rewrite Ht, Hd, Z.sub_diag in Hp. apply Hp; try done.
    + apply (put_wf buf _ 0 ch ch'); try done; try lia; [by rewrite Hcs | unfold off; rewrite Hd'; cbn; lia | apply W].
    + cbn. by rewrite Hcs.
    + unfold bytes_of. cbn. rewrite Hcs. cbn. by rewrite Hd'.
    + split; try done. cbn. lia.
  - set (k := zlen data - misalign ch'). assert (Hk : 0 <= k <= zlen data) by (unfold k; lia).
    assert (Hm' : misalign ch' = zlen (zdrop k data)) by (rewrite zlen_zdrop by done; unfold k; lia).
    destruct (prepend_in_place buf ch ch' l (zdrop k data)) as (Wm & Hb & Hcg); try done;
      [apply prepended_ok; (done || lia) | rewrite zlen_zdrop by done; lia|].
    unfold prepended in *. rewrite <- Hm' in Wm, Hb, Hcg.
    apply prepend_new_chain_ok; try done; [cbn; by rewrite Hcs|]. by replace (zlen data - k) with (misalign ch') by (unfold k; lia).
Qed.

Lemma buffer_add_ok base came buf data : since base came buf -> evbuffer_wf buf ->
  exists r buf', evbuffer_add mm buf data = Some (r, buf') /\ appended base came buf data r buf'.
Proof.
  intros HS W. unfold evbuffer_add. cbv zeta.
  destruct (freeze_end buf) eqn:Hf; [eexists _, _; split; [done|]; split; [done|]; right; split_and!; try done; by left|].
  destruct (Z.ltb_spec (EV_SIZE_MAX - total_len buf) (zlen data)) as [Hov|Hm].
  { eexists _, _; split; [done|]; split; [done|]; right; split_and!; try done. right. by left. }
  pose proof (zlen_nonneg data) as Hz.
  (* the chain to start with, made when there is none *)
  destruct (last_with_data buf) as [ch|] eqn:Hk; cbn [mbind option_bind].
  { apply add_start_ok; (done || lia). }
  destruct (ew_lwd _ W) as [_ [Hl|[Hn Hk0]]]; [by apply lookup_lt_is_Some_2 in Hl as [? ?]; unfold last_with_data in Hk; congruence|].
  rewrite Hn. cbn [last]. destruct (evbuffer_chain_new mm (zlen data)) as [ch|] eqn:Hnew; cbn [mbind option_bind].
  2: { eexists _, _; split; [done|]; split; [done|]; right; split_and!; try done. right. right. exists (zlen data). split; [lia | auto]. }
  destruct (chain_new_ok mm _ ch Hz Hnew) as (Hc & Hd & Hmis & Hfl & Hlen). pose proof (total_range _ W).
  assert (Ho : off ch = 0) by (unfold off; by rewrite Hd).
  destruct (chain_insert_ok buf ch W Hc) as (buf1 & E1 & W1 & Hb1 & _ & Hc1); [lia|]. destruct (Hc1 Hn) as [Hcs Hl1].
  destruct (chain_insert_frame _ _ _ E1) as (Hf1 & Hf2 & Hf3 & Hf4 & Hf5 & Hf6 & Hf7).
  rewrite E1. cbn [mbind option_bind]. rewrite Hd, app_nil_r in Hb1.
  rewrite Ho, Z.add_0_r, u64_small in Hf7 by (unfold EV_SIZE_MAX in *; lia).
  destruct (add_start_ok base came buf1 ch data) as (r & buf' & R & HA); [by apply (since_frame buf) | done | unfold last_with_data; by rewrite Hcs, Hl1 | lia|].
  rewrite Hl1 in R. exists r, buf'. split; [exact R|]. destruct HA as [W' HA]. split; [done|].
  rewrite Hfl in R. cbn in R. rewrite Ho, Hmis in R.
  destruct HA as [(-> & Hb & Hnt)|(-> & _ & _)]; [|by rewrite (proj2 (Z.leb_le (zlen data) _)) in R by lia].
  left. split_and!; [done | by rewrite Hb, Hb1 | done].
Qed.

Lemma prepend_ok buf data : evbuffer_wf buf ->
  exists r buf', evbuffer_prepend mm buf data = Some (r, buf') /\ put_before buf data r buf'.
Proof.
  intros W. unfold evbuffer_prepend. cbv zeta. pose proof (zlen_nonneg data) as Hz.
  assert (Hdz : zdrop (zlen data) data = []) by (unfold zdrop, zlen; rewrite Nat2Z.id; apply drop_all).
  assert (Hfail : (freeze_start buf = true \/ EV_SIZE_MAX - total_len buf < zlen data \/ evbuffer_chain_new mm (zlen data) = None) ->
    exists r buf', Some (-1, buf) = Some (r, buf') /\ put_before buf data r buf').
  { intros Hwhy. exists (-1), buf. split; [done|]. split; [done|]. right. split; [done|]. exists (zlen data). rewrite Hdz, Z.sub_diag. split_and!; (apply changed_refl || done || lia). }
  destruct (freeze_start buf) eqn:Hf; [by apply Hfail; left|].
  destruct (Z.ltb_spec (EV_SIZE_MAX - total_len buf) (zlen data)) as [Hov|Hm]; [by apply Hfail; right; left|].
  destruct (chains buf) as [|ch l] eqn:Hcs; cbn [mbind option_bind]; [|eapply prepend_start_ok; (done || lia)].
  destruct (evbuffer_chain_new mm (zlen data)) as [ch|] eqn:Hnew; cbn [mbind option_bind]; [|by apply Hfail; right; right].
  destruct (chain_new_ok mm _ ch Hz Hnew) as (Hc & Hd & Hmis & Hfl & Hlen). pose proof (total_range _ W).
  assert (Ho : off ch = 0) by (unfold off; by rewrite Hd).
  destruct (chain_insert_ok buf ch W Hc) as (buf1 & E1 & W1 & Hb1 & _ & Hc1); [lia|]. destruct (Hc1 Hcs) as [Hcs1 Hl1].
  destruct (chain_insert_frame _ _ _ E1) as (Hf1 & Hf2 & Hf3 & Hf4 & Hf5 & Hf6 & Hf7).
  rewrite E1. cbn [mbind option_bind]. rewrite Hd, app_nil_r in Hb1.
  rewrite Ho, Z.add_0_r, u64_small in Hf7 by (unfold EV_SIZE_MAX in *; lia).
  destruct (prepend_start_ok buf1 ch [] data W1 Hcs1) as (r & buf' & R & HA); [lia|].
  exists r, buf'. split; [exact R|]. destruct HA as [W' HA]. split; [done|].
  rewrite Hfl in R. cbn in R. rewrite Ho, Hmis in R. cbn in R.
  destruct HA as [(-> & Hb & Hnt)|(-> & _)]; [|by rewrite (proj2 (Z.leb_le (zlen data) _)) in R by lia].
  left. split_and!; [done | by rewrite Hb, Hb1|]. by apply (notified_frame buf1).
Qed.
End Ops.

(** ** Removing. *)
Section Removing.
Implicit Types (buf : evbuffer) (ch : evbuffer_chain).

Lemma unpinned_r ch : chain_ok ch -> CHAIN_PINNED_R ch = false.
Proof.
  intros [_ _ _ H _]. unfold CHAIN_PINNED_R, EVBUFFER_MEM_PINNED_ANY, has, c_true in *.
  rewrite negb_false_iff, Z.eqb_eq, Z.land_lor_distr_r, Z.lor_eq_0_iff in *. by destruct H.
Qed.
Lemma no_pinned_r buf : evbuffer_wf buf -> HAS_PINNED_R buf = false.
Proof.
  intros W. unfold HAS_PINNED_R. destruct (last (chains buf)) as [ch|] eqn:Hl; [|done]. apply unpinned_r.
  apply last_Some in Hl as [l Hl]. pose proof (ew_chains _ W) as HF. rewrite Hl in HF. apply Forall_app in HF as [_ HF].
  by apply Forall_cons in HF as [? _].
Qed.

Lemma zdrop_app_ge {A} n (l l' : list A) : zlen l <= n -> zdrop n (l ++ l') = zdrop (n - zlen l) l'.
Proof. unfold zdrop, zlen. intros. rewrite drop_app_ge by lia. f_equal. lia. Qed.
Lemma zdrop_app_le {A} n (l l' : list A) : n <= zlen l -> zdrop n (l ++ l') = zdrop n l ++ l'.
Proof. unfold zdrop, zlen. intros. apply drop_app_le. lia. Qed.
Lemma ztake_app_ge {A} n (l l' : list A) : zlen l <= n -> ztake n (l ++ l') = l ++ ztake (n - zlen l) l'.
Proof. unfold ztake, zlen. intros. rewrite take_app_ge by lia. do 2 f_equal. lia. Qed.
Lemma ztake_app_le {A} n (l l' : list A) : n <= zlen l -> ztake n (l ++ l') = ztake n l.
Proof. unfold ztake, zlen. intros. apply take_app_le. lia. Qed.
Lemma zdrop_ge {A} n (l : list A) : zlen l <= n -> zdrop n l = [].
Proof. unfold zdrop, zlen. intros. apply drop_ge. lia. Qed.
Lemma ztake_ge {A} n (l : list A) : zlen l <= n -> ztake n l = l.
Proof. unfold ztake, zlen. intros. apply take_ge. lia. Qed.

(** The last chain with data is passed over only with all the data. *)
Lemma lwd_ok_cons ch l k : lwd_ok (ch :: l) k -> content l <> [] -> exists k', k = S k' /\ lwd_ok l k'.
Proof.
  intros [Hd HL] Hne. destruct k as [|k]; [by cbn in Hd|]. exists k. split; [done|]. split; [exact Hd|].
  destruct HL as [|[? _]]; [left; cbn in *; lia | done].
Qed.

Lemma drain_loop_ok l rem k : Forall chain_ok l -> lwd_ok l k -> 0 <= rem < zlen (content l) ->
  exists ch l' rem' k', drain_loop l rem k = Some (ch :: l', rem', k') /\ 0 <= rem' < off ch /\
    Forall chain_ok (ch :: l') /\ lwd_ok (ch :: l') k' /\ content l = ztake rem (content l) ++ zdrop rem' (content (ch :: l')) /\
    zlen (content (ch :: l')) = zlen (content l) - rem + rem'.
Proof.
  revert rem k. induction l as [|ch l IH]; intros rem k HF HL Hr; [change (zlen (content [])) with 0 in Hr; lia|]. cbn [drain_loop].
  rewrite content_cons, zlen_app in *. fold (off ch) in *. pose proof (zlen_nonneg (chain_data ch)) as Hoff. fold (off ch) in Hoff.
  destruct (Z.leb_spec (off ch) rem) as [Hle|Hgt].
  - pose proof HF as HF'. apply Forall_cons in HF' as [Hc HFl]. rewrite (unpinned_r ch Hc).
    destruct (lwd_ok_cons ch l k HL) as (k' & -> & HL'); [intros Hn; rewrite Hn in Hr; change (zlen []) with 0 in Hr; lia|]. cbn [pred].
    destruct (IH (rem - off ch) k' HFl HL' ltac:(lia)) as (ch' & l' & rem' & k'' & R & Hr' & HF'' & HL'' & Hc' & Hz).
    exists ch', l', rem', k''. rewrite ztake_app_ge by (fold (off ch); lia). fold (off ch).
    split_and!; try done; try lia. rewrite <- app_assoc. by rewrite <- Hc'.
  - exists ch, l, rem, k. rewrite content_cons, zlen_app. fold (off ch). split_and!; try done; try lia. by rewrite zdrop_take.
Qed.

(** Skipping bytes of the first chain. *)
Lemma skip_ok ch n : chain_ok ch -> 0 <= n <= off ch ->
  chain_ok {| ch with misalign := misalign ch + n; chain_data := zdrop n (chain_data ch) |}.
Proof.
  intros [H1 H2 H3 H4 H5] Hn. unfold off in *.
  split; cbn; unfold off; cbn; rewrite ?zlen_zdrop by done; try done; lia.
Qed.
End Removing.

(** The result of an operation that removes the first [n] bytes. *)
Definition drained (buf : evbuffer) (n : Z) (r : Z) (buf' : evbuffer) : Prop :=
  evbuffer_wf buf' /\
  ((r = 0 /\ bytes_of buf' = zdrop n (bytes_of buf) /\ notified buf buf' 0 (Z.min n (total_len buf))) \/
   (r = -1 /\ buf' = buf /\ freeze_start buf = true /\ bytes_of buf <> [])).

Lemma buffer_drain_ok buf len : evbuffer_wf buf -> 0 <= len ->
  exists r buf', evbuffer_drain buf len = Some (r, buf') /\ drained buf len r buf'.
Proof.
  intros W Hlen. pose proof (total_range _ W) as Hr. pose proof (ew_total _ W) as Ht. unfold evbuffer_drain. cbv zeta.
  destruct (Z.eqb_spec (total_len buf) 0) as [Hz|Hnz].
  { eexists _, _. split; [done|]. split; [done|]. left. split; [done|]. rewrite Ht in Hz. pose proof Hz as Hn. apply zlen_nil in Hn.
    rewrite Hn, Ht, Hz. split; [by unfold zdrop; rewrite drop_nil|]. rewrite Z.min_r by lia. apply notified_refl. }
  assert (Hne : bytes_of buf <> []) by (intros Hn; rewrite Hn in Ht; done).
  destruct (freeze_start buf) eqn:Hf; [eexists _, _; split; [done|]; split; [done|]; by right|].
  rewrite no_pinned_r, andb_true_r by done. unfold EV_SIZE_MAX in Hr. destruct (Z.leb_spec (total_len buf) len) as [Hle|Hlt].
  - eexists _, _. split; [done|]. split; [apply invoke_wf; split; cbn; (done || by split; [|right])|]. left. split; [done|].
    rewrite invoke_bytes, zdrop_ge by lia. split; [done|]. rewrite Z.min_r by lia.
    apply invoke_notified; [|unfold EV_SIZE_MAX; lia]. split; try done; cbn; [|lia]. intros [? Hd]. rewrite Hd. split; [done | apply u64_small; lia].
  - destruct (drain_loop_ok (chains buf) len (last_with_datap buf)) as (ch & l & rem & k & R & Hrem & HF & HL & Hc & Hzl);
      [apply W | apply W | unfold bytes_of in Ht; lia|].
    rewrite R. cbn [mbind option_bind]. rewrite (proj2 (Z.leb_le _ _)) by lia. eexists _, _. split; [done|].
    apply Forall_cons in HF as [Hch HFl]. rewrite content_cons in *.
    assert (Hb : zdrop len (bytes_of buf) = zdrop rem (chain_data ch) ++ content l).
    { unfold bytes_of. rewrite Hc. rewrite zdrop_app_ge; rewrite zlen_ztake by (unfold bytes_of in Ht; lia); [|lia].
      rewrite Z.sub_diag. cbn. apply zdrop_app_le. unfold off in Hrem. lia. }
    split; [apply invoke_wf; split; cbn [chains last_with_datap total_len]|left].
    + constructor; [by apply skip_ok; [done | lia] | done].
    + unfold bytes_of in *. cbn [chains]. rewrite content_cons. cbn [chain_data]. rewrite <- Hb, zlen_zdrop by lia. lia.
    + unfold EV_SIZE_MAX. lia.
    + destruct HL as [Hd HL]. split; [done|]. destruct HL as [HL|[? _]]; [by left | done].
    + rewrite invoke_bytes, Hb. split_and!; [done | by unfold bytes_of; cbn [chains]; rewrite content_cons|]. rewrite Z.min_l by lia.
      apply invoke_notified; [|unfold EV_SIZE_MAX; lia]. split; try done; cbn; [|lia]. intros [? Hd]. rewrite Hd. split; [done | apply u64_small; lia].
Qed.

(** ** Copying out. *)
Lemma copyout_loop_ok l pos n : 0 <= n -> 0 <= pos <= match l with ch :: _ => off ch | [] => 0 end ->
  n + pos <= zlen (content l) -> copyout_loop l pos n = Some (ztake n (zdrop pos (content l))).
Proof.
  revert pos n. induction l as [|ch l IH]; intros pos n Hn Hp Hz; cbn [copyout_loop].
  { change (zlen (content [])) with 0 in Hz. assert (n = 0) as -> by lia. done. }
  destruct (Z.eqb_spec n 0) as [->|Hnz]; [done|]. rewrite content_cons, zlen_app in *. fold (off ch) in Hz.
  rewrite zdrop_app_le by (unfold off in Hp; lia). pose proof (zlen_zdrop pos (chain_data ch)) as Hzd. fold (off ch) in Hzd.
  destruct (Z.leb_spec (off ch - pos) n) as [Hle|Hgt].
  - rewrite IH; [|lia | destruct l; [lia | unfold off; pose proof (zlen_nonneg (chain_data e)); lia] | lia].
    cbn [mbind option_bind]. rewrite ztake_app_ge by lia. rewrite Hzd by lia. done.
  - rewrite (proj2 (Z.leb_le _ _)) by lia. by rewrite ztake_app_le by lia.
Qed.

Lemma copyout_ok buf n : evbuffer_wf buf -> 0 <= n ->
  evbuffer_copyout buf n =
    Some (if freeze_start buf && negb (Z.min n (total_len buf) =? 0) then (-1, [])
          else (Z.min n (total_len buf), ztake n (bytes_of buf))).
Proof.
  intros W Hn. pose proof (total_range _ W) as Hr. pose proof (ew_total _ W) as Ht. unfold evbuffer_copyout. cbv zeta.
  replace (if total_len buf <? n then total_len buf else n) with (Z.min n (total_len buf)) by (case_if; lia).
  destruct (Z.eqb_spec (Z.min n (total_len buf)) 0) as [Hz|Hnz]; cbn [negb].
  - rewrite andb_false_r, Hz. replace (ztake n (bytes_of buf)) with (@nil byte); [done|].
    destruct (decide (n = 0)) as [->|]; [done|]. assert (Hb : bytes_of buf = []) by (apply zlen_nil; lia). rewrite Hb. by destruct (Z.to_nat n) eqn:En; unfold ztake; rewrite En.
  - rewrite andb_true_r. destruct (freeze_start buf); [done|].
    rewrite copyout_loop_ok; [| lia | destruct (chains buf); [lia | unfold off; pose proof (zlen_nonneg (chain_data e)); lia]
                              | unfold bytes_of in Ht; lia].
    cbn [mbind option_bind]. do 2 f_equal. change (zdrop 0 (content (chains buf))) with (bytes_of buf).
    destruct (decide (n <= total_len buf)); [by rewrite Z.min_l by lia|]. rewrite Z.min_r, !ztake_ge by lia. done.
Qed.

(** [evbuffer_remove] is a copy and a drain. *)
Lemma remove_ok buf n : evbuffer_wf buf -> 0 <= n -> Z.min n (total_len buf) <= INT_MAX ->
  exists buf', evbuffer_wf buf' /\
    if freeze_start buf && negb (Z.min n (total_len buf) =? 0)
    then evbuffer_remove buf n = Some (-1, [], buf') /\ buf' = buf
    else evbuffer_remove buf n = Some (Z.min n (total_len buf), ztake n (bytes_of buf), buf') /\
         bytes_of buf' = zdrop n (bytes_of buf) /\ notified buf buf' 0 (Z.min n (total_len buf)).
Proof.
  intros W Hn Hi. unfold evbuffer_remove. rewrite copyout_ok by done. pose proof (total_range _ W) as Hr. pose proof (ew_total _ W) as Ht.
  destruct (freeze_start buf && negb (Z.min n (total_len buf) =? 0)) eqn:Hf; cbn [mbind option_bind].
  { exists buf. done. }
  unfold INT_MAX in Hi. destruct (Z.ltb_spec 0 (Z.min n (total_len buf))) as [Hpos|Hz].
  - destruct (buffer_drain_ok buf (Z.min n (total_len buf)) W ltac:(lia)) as (r & buf' & R & W' & HD). rewrite R. cbn [mbind option_bind].
    destruct HD as [(-> & Hb & Hnt)|(_ & _ & Hfz & _)]; [|rewrite Hfz in Hf; lia].
    exists buf'. split; [done|]. cbn. rewrite s32_small by lia. split; [done|]. rewrite (Z.min_l (Z.min _ _)) in Hnt by lia.
    split; [|done]. rewrite Hb. destruct (decide (n <= total_len buf)); [by rewrite Z.min_l by lia|]. rewrite Z.min_r, !zdrop_ge by lia. done.
  - exists buf. split; [done|]. rewrite s32_small by lia. assert (Z.min n (total_len buf) = 0) as -> by lia. split; [done|].
    split; [|apply notified_refl]. destruct (decide (n = 0)) as [->|]; [done|].
    assert (Hb : bytes_of buf = []) by (apply zlen_nil; lia). rewrite Hb. unfold zdrop. by rewrite drop_nil.
Qed.
