(* ===== verification/BufferMove.v ===== *)
(** * Moving data between buffers

    [evbuffer_add_buffer], [evbuffer_prepend_buffer] and
    [evbuffer_remove_buffer] on the bytes of the two buffers. *)
From S2P Require Import Prelude Event Buffer BufferInv BufferOps.

Section Moving.
Implicit Types (buf src dst : evbuffer) (ch : evbuffer_chain).

(** The result of moving all the bytes of [inbuf]. *)
Definition moved_all (outbuf inbuf : evbuffer) (bytes : list byte) (outbuf' inbuf' : evbuffer) : Prop :=
  evbuffer_wf outbuf' /\ evbuffer_wf inbuf' /\ bytes_of outbuf' = bytes /\ bytes_of inbuf' = [] /\
  notified outbuf outbuf' (total_len inbuf) 0 /\ notified inbuf inbuf' 0 (total_len inbuf).

(** Taking over the chains of a buffer leaves it empty, and is reported. *)
Lemma moved_all_intro outbuf inbuf mid bytes : evbuffer_wf inbuf -> 0 <= total_len outbuf ->
  total_len outbuf + total_len inbuf <= EV_SIZE_MAX -> evbuffer_wf mid -> bytes_of mid = bytes ->
  total_len mid = total_len outbuf + total_len inbuf ->
  freeze_start mid = freeze_start outbuf -> freeze_end mid = freeze_end outbuf -> callbacks mid = callbacks outbuf ->
  calls mid = calls outbuf -> n_add_for_cb mid = n_add_for_cb outbuf -> n_del_for_cb mid = n_del_for_cb outbuf ->
  let n := total_len inbuf in
  let zero := RESTORE_PINNED inbuf in
  moved_all outbuf inbuf bytes
    (evbuffer_invoke_callbacks_ {| mid with n_add_for_cb := u64 (n_add_for_cb mid + n) |})
    (evbuffer_invoke_callbacks_ {| zero with n_del_for_cb := u64 (n_del_for_cb zero + n) |}).
Proof.
  intros W Ho Hmax Wm Hb Ht H1 H2 H3 H4 H5 H6 n zero. pose proof (total_range _ W). unfold EV_SIZE_MAX in *. unfold moved_all.
  rewrite !invoke_wf, !invoke_bytes. split_and!; try done.
  - destruct Wm. by split.
  - split; cbn; (done || by split; [|right]).
  - apply invoke_notified; [|unfold EV_SIZE_MAX; lia]. split; try done; cbn; [|lia].
    intros [Ha Hd]. rewrite H5, H6, Ha, Hd. split; [apply u64_small; lia | done].
  - apply invoke_notified; [|unfold EV_SIZE_MAX; lia]. split; try done; cbn; [|lia].
    intros [Ha Hd]. rewrite Hd. split; [done | apply u64_small; lia].
Qed.

Lemma wf_nonempty buf : evbuffer_wf buf -> total_len buf <> 0 -> (last_with_datap buf < length (chains buf))%nat.
Proof.
  intros W Hnz. destruct (ew_lwd _ W) as [_ [|[Hn _]]]; [done|]. rewrite (ew_total _ W) in Hnz. unfold bytes_of in Hnz. by rewrite Hn in Hnz.
Qed.

Lemma COPY_CHAIN_ok outbuf inbuf : evbuffer_wf outbuf -> evbuffer_wf inbuf -> total_len outbuf = 0 ->
  evbuffer_wf (COPY_CHAIN outbuf inbuf) /\ bytes_of outbuf = [] /\ bytes_of (COPY_CHAIN outbuf inbuf) = bytes_of inbuf.
Proof. intros Wo Wi Hz. split_and!; [destruct Wi; by split | |done]. apply zlen_nil. by rewrite <- (ew_total _ Wo). Qed.

Lemma APPEND_CHAIN_ok outbuf inbuf : evbuffer_wf outbuf -> evbuffer_wf inbuf -> total_len inbuf <> 0 ->
  total_len outbuf + total_len inbuf <= EV_SIZE_MAX ->
  exists i, APPEND_CHAIN outbuf inbuf =
      Some {| outbuf with chains := take i (chains outbuf) ++ chains inbuf; last_with_datap := (i + last_with_datap inbuf)%nat;
                          total_len := total_len outbuf + total_len inbuf |} /\
    (forall mid, APPEND_CHAIN outbuf inbuf = Some mid -> evbuffer_wf mid /\ bytes_of mid = bytes_of outbuf ++ bytes_of inbuf).
Proof.
  intros Wo Wi Hnz Hmax. pose proof (total_range _ Wo). pose proof (total_range _ Wi). pose proof (wf_nonempty _ Wi Hnz).
  unfold APPEND_CHAIN. destruct (free_trailing_ok outbuf Wo) as (i & -> & Hi & Hct & _). cbn [mbind option_bind].
  assert (Hu : u64 (total_len outbuf + total_len inbuf) = total_len outbuf + total_len inbuf) by (apply u64_small; unfold EV_SIZE_MAX in *; lia).
  exists i. cbn. rewrite Hu. split; [done|]. intros mid [= <-].
  assert (Hlen : length (take i (chains outbuf)) = i) by (rewrite length_take; lia).
  assert (Hb : content (take i (chains outbuf) ++ chains inbuf) = bytes_of outbuf ++ bytes_of inbuf) by (by rewrite content_app, Hct).
  split; [|done]. split; cbn [chains last_with_datap total_len].
  - apply Forall_app. split; [apply Forall_take, Wo | apply Wi].
  - unfold bytes_of in *. cbn [chains]. rewrite Hb, zlen_app, (ew_total _ Wo), (ew_total _ Wi). done.
  - done.
  - destruct (ew_lwd _ Wi) as [Hd _]. split; [|left; rewrite length_app; lia].
    rewrite drop_app_ge by lia. rewrite Hlen. by replace (S (i + last_with_datap inbuf) - i)%nat with (S (last_with_datap inbuf)) by lia.
Qed.

(** [evbuffer_add_buffer]. *)
Lemma add_buffer_ok outbuf inbuf : evbuffer_wf outbuf -> evbuffer_wf inbuf -> total_len outbuf + total_len inbuf <= EV_SIZE_MAX ->
  exists outbuf' inbuf',
    if (total_len inbuf =? 0) || negb (freeze_end outbuf || freeze_start inbuf)
    then evbuffer_add_buffer outbuf inbuf = Some (0, outbuf', inbuf') /\
         moved_all outbuf inbuf (bytes_of outbuf ++ bytes_of inbuf) outbuf' inbuf'
    else evbuffer_add_buffer outbuf inbuf = Some (-1, outbuf, inbuf).
Proof.
  intros Wo Wi Hmax. pose proof (total_range _ Wo) as Hro. unfold evbuffer_add_buffer. cbv zeta.
  destruct (Z.eqb_spec (total_len inbuf) 0) as [Hz|Hnz]; cbn [orb].
  { exists outbuf, inbuf. split; [done|]. assert (Hb : bytes_of inbuf = []) by (apply zlen_nil; by rewrite <- (ew_total _ Wi)).
    unfold moved_all. rewrite Hb, app_nil_r, Hz. split_and!; try done; apply notified_refl. }
  destruct (freeze_end outbuf || freeze_start inbuf); cbn [negb]; [by exists outbuf, inbuf|].
  unfold PRESERVE_PINNED. rewrite (no_pinned_r _ Wi). cbn [mbind option_bind].
  destruct (Z.eqb_spec (total_len outbuf) 0) as [Hoz|Honz]; cbn [mbind option_bind].
  - destruct (COPY_CHAIN_ok outbuf inbuf Wo Wi Hoz) as (Wm & Hb & Hbm). rewrite Hb, app_nil_l.
    eexists _, _. split; [reflexivity|]. apply moved_all_intro; try done; try lia. cbn. lia.
  - destruct (APPEND_CHAIN_ok outbuf inbuf Wo Wi Hnz Hmax) as (i & Ea & Hm). destruct (Hm _ Ea) as [Wm Hbm]. rewrite Ea. cbn [mbind option_bind].
    eexists _, _. split; [reflexivity|]. apply moved_all_intro; try done; lia.
Qed.

Lemma PREPEND_CHAIN_ok outbuf inbuf : evbuffer_wf outbuf -> evbuffer_wf inbuf -> total_len outbuf <> 0 ->
  total_len outbuf + total_len inbuf <= EV_SIZE_MAX ->
  let mid := PREPEND_CHAIN outbuf inbuf in
  evbuffer_wf mid /\ bytes_of mid = bytes_of inbuf ++ bytes_of outbuf /\ total_len mid = total_len outbuf + total_len inbuf.
Proof.
  intros Wo Wi Hnz Hmax mid. pose proof (total_range _ Wo). pose proof (total_range _ Wi). pose proof (wf_nonempty _ Wo Hnz) as Hl.
  assert (Ht : total_len mid = total_len outbuf + total_len inbuf) by (cbn; apply u64_small; unfold EV_SIZE_MAX in *; lia).
  assert (Hb : bytes_of mid = bytes_of inbuf ++ bytes_of outbuf) by (unfold bytes_of; cbn [chains mid PREPEND_CHAIN]; by rewrite content_app).
  split_and!; [|done | done]. split; [|by rewrite Hb, zlen_app, Ht, (ew_total _ Wo), (ew_total _ Wi), Z.add_comm | lia |].
  - cbn. apply Forall_app. split; [apply Wi | apply Wo].
  - unfold mid, PREPEND_CHAIN, last_with_data. cbn [chains last_with_datap]. destruct (lookup_lt_is_Some_2 _ _ Hl) as [ch ->].
    destruct (ew_lwd _ Wo) as [Hd _]. split; [|left; rewrite length_app; lia]. rewrite drop_app_ge by lia.
    by replace (S (length (chains inbuf) + last_with_datap outbuf) - length (chains inbuf))%nat with (S (last_with_datap outbuf)) by lia.
Qed.

(** [evbuffer_prepend_buffer]. *)
Lemma prepend_buffer_ok outbuf inbuf : evbuffer_wf outbuf -> evbuffer_wf inbuf -> total_len outbuf + total_len inbuf <= EV_SIZE_MAX ->
  exists outbuf' inbuf',
    if (total_len inbuf =? 0) || negb (freeze_start outbuf || freeze_start inbuf)
    then evbuffer_prepend_buffer outbuf inbuf = Some (0, outbuf', inbuf') /\
         moved_all outbuf inbuf (bytes_of inbuf ++ bytes_of outbuf) outbuf' inbuf'
    else evbuffer_prepend_buffer outbuf inbuf = Some (-1, outbuf, inbuf).
Proof.
  intros Wo Wi Hmax. pose proof (total_range _ Wo) as Hro. unfold evbuffer_prepend_buffer. cbv zeta.
  destruct (Z.eqb_spec (total_len inbuf) 0) as [Hz|Hnz]; cbn [orb].
  { exists outbuf, inbuf. split; [done|]. assert (Hb : bytes_of inbuf = []) by (apply zlen_nil; by rewrite <- (ew_total _ Wi)).
    unfold moved_all. rewrite Hb, Hz. split_and!; try done; apply notified_refl. }
  destruct (freeze_start outbuf || freeze_start inbuf); cbn [negb]; [by exists outbuf, inbuf|].
  unfold PRESERVE_PINNED. rewrite (no_pinned_r _ Wi). cbn [mbind option_bind].
  destruct (Z.eqb_spec (total_len outbuf) 0) as [Hoz|Honz].
  - destruct (COPY_CHAIN_ok outbuf inbuf Wo Wi Hoz) as (Wm & Hb & Hbm). rewrite Hb, app_nil_r.
    eexists _, _. split; [reflexivity|]. apply moved_all_intro; try done; try lia. cbn. lia.
  - destruct (PREPEND_CHAIN_ok outbuf inbuf Wo Wi Honz Hmax) as (Wm & Hbm & Ht).
    eexists _, _. split; [reflexivity|]. apply moved_all_intro; try done; lia.
Qed.

(** ** A part of the data. *)

(** No chain before the one [last_with_datap] leads to is empty. *)
Definition tidy buf : Prop := Forall (fun ch => chain_data ch <> []) (take (last_with_datap buf) (chains buf)).

Lemma chains_len_content l : chains_len l = zlen (content l).
Proof. induction l as [|ch l IH]; [done|]. cbn [chains_len foldr]. fold (chains_len l). by rewrite IH, content_cons, zlen_app. Qed.

Lemma take_chains_ok l d k : lwd_ok l k -> 0 <= d < zlen (content l) ->
  Forall (fun ch => chain_data ch <> []) (take k l) ->
  exists taken ch rest lwd, take_chains l d (Some k) = Some (taken, ch :: rest, d - zlen (content taken), lwd) /\
    l = taken ++ ch :: rest /\ 0 <= d - zlen (content taken) < off ch /\ Forall (fun ch => chain_data ch <> []) taken /\
    k = (length taken + default 0%nat lwd)%nat /\ (taken = [] -> lwd = Some k).
Proof.
  revert d k. induction l as [|ch l IH]; intros d k HL Hd Hne; [change (zlen (content [])) with 0 in Hd; lia|].
  cbn [take_chains]. rewrite content_cons, zlen_app in Hd. fold (off ch) in Hd. pose proof (zlen_nonneg (chain_data ch)) as Hoff. fold (off ch) in Hoff.
  destruct (Z.leb_spec (off ch) d) as [Hle|Hgt].
  2: { exists [], ch, l, (Some k). cbn [length content default]. change (zlen (content [])) with 0. rewrite Z.sub_0_r. split_and!; try done; lia. }
  assert (Hcl : content l <> []) by (intros Hn; rewrite Hn in Hd; change (zlen []) with 0 in Hd; lia).
  destruct (lwd_ok_cons ch l k HL Hcl) as (k' & -> & HL'). cbn [take] in Hne. apply Forall_cons in Hne as [Hce Hne].
  destruct k' as [|k'].
  - (* the next chain is the last with data, and ends the loop *)
    destruct l as [|ch' l]; [done|]. destruct HL' as [Hn _]. change (drop 1 (ch' :: l)) with l in Hn. rewrite content_cons, Hn, app_nil_r in Hd. fold (off ch') in Hd.
    cbn [take_chains]. rewrite (proj2 (Z.leb_gt _ _)) by lia. cbn [mbind option_bind].
    exists [ch], ch', l, None. rewrite content_cons. cbn [content]. rewrite app_nil_r. fold (off ch).
    split_and!; try done; try lia. by constructor.
  - destruct (IH (d - off ch) (S k') HL' ltac:(lia) Hne) as (taken & ch' & rest & lwd & R & -> & Hd' & HF & Hk & _).
    rewrite R. cbn [mbind option_bind]. exists (ch :: taken), ch', rest, lwd. rewrite content_cons, zlen_app. fold (off ch).
    replace (d - (off ch + zlen (content taken))) with (d - off ch - zlen (content taken)) by lia.
    split_and!; try done; [lia.. | by constructor | cbn; lia].
Qed.

Lemma data_prefix_all l : Forall (fun ch => chain_data ch <> []) l -> data_prefix l = length l.
Proof. induction 1 as [|ch l Hc HF IH]; [done|]. cbn [data_prefix]. apply off_true in Hc as ->. by rewrite IH. Qed.

(** The chains taken from [src], as the end of [dst]. *)
Lemma take_over_ok dst taken : evbuffer_wf dst -> Forall chain_ok taken -> taken <> [] ->
  Forall (fun ch => chain_data ch <> []) taken -> total_len dst + zlen (content taken) <= EV_SIZE_MAX ->
  exists mid chp, evbuffer_free_trailing_empty_chains dst = Some (mid, chp) /\
    let dst' := advance_last_with_data {| mid with chains := chains mid ++ taken |} in
    let dst'' := {| dst' with total_len := u64 (total_len dst' + zlen (content taken));
                              n_add_for_cb := u64 (n_add_for_cb dst' + zlen (content taken)) |} in
    evbuffer_wf dst'' /\ bytes_of dst'' = bytes_of dst ++ content taken /\ changed dst dst'' (zlen (content taken)) 0.
Proof.
  intros W HF Hne Hall Hmax. pose proof (total_range _ W). pose proof (zlen_nonneg (content taken)).
  destruct (free_trailing_ok dst W) as (i & -> & Hi & Hct & Hki). eexists _, _. split; [reflexivity|]. cbv zeta.
  cbn [chains last_with_datap total_len n_add_for_cb n_del_for_cb freeze_start freeze_end callbacks calls].
  set (l := take i (chains dst) ++ taken). assert (Hlen : length (take i (chains dst)) = i) by (rewrite length_take; lia).
  assert (Hpos : (0 < length taken)%nat) by (destruct taken; [done | cbn; lia]).
  assert (Hll : length l = (i + length taken)%nat) by (unfold l; by rewrite length_app, Hlen).
  set (mid := {| dst with chains := l |}).
  assert (Hadv : advance_last_with_data mid = {| mid with last_with_datap := pred (length l) |}).
  { unfold advance_last_with_data, last_with_data, mid. cbn [chains last_with_datap].
    destruct (lookup_lt_is_Some_2 l (last_with_datap dst)) as [c ->]; [lia|].
    assert (Hix : (last_with_datap dst + data_prefix (drop (S (last_with_datap dst)) l))%nat = pred (length l)).
    { unfold l at 1. rewrite drop_app_ge by lia. rewrite data_prefix_all by (by apply Forall_drop). rewrite length_drop. lia. }
    by rewrite Hix. }
  rewrite Hadv. unfold EV_SIZE_MAX in *.
  assert (Hb : content l = bytes_of dst ++ content taken) by (unfold l; by rewrite content_app, Hct).
  split_and!; [|exact Hb|].
  - split; cbn [chains last_with_datap total_len mid].
    + apply Forall_app. split; [apply Forall_take, W | done].
    + rewrite u64_small by (cbn; lia). unfold bytes_of in *. cbn [chains]. rewrite Hb, zlen_app. cbn. rewrite (ew_total _ W). done.
    + rewrite u64_small by (cbn; lia). cbn. unfold EV_SIZE_MAX. lia.
    + split; [by rewrite drop_ge by lia | left; lia].
  - split; try done; cbn; [|rewrite u64_small; lia]. intros [Ha Hd]. rewrite Ha. split; [apply u64_small; lia | done].
Qed.

(** The result of moving the first [n] bytes of [src]. *)
Definition moved src dst (n : Z) (src' dst' : evbuffer) : Prop :=
  evbuffer_wf src' /\ evbuffer_wf dst' /\ bytes_of src' = zdrop n (bytes_of src) /\
  bytes_of dst' = bytes_of dst ++ ztake n (bytes_of src) /\ notified dst dst' n 0 /\ notified src src' 0 n.

End Moving.

Section Partial.
Context (mm : Z -> bool).
Implicit Types (buf src dst : evbuffer) (ch : evbuffer_chain).

(** ... and the result when [src] loses them but [dst] gets only the first of
    them, because no block can be had for the rest. *)
Definition lost src dst (n : Z) (src' dst' : evbuffer) : Prop :=
  evbuffer_wf src' /\ evbuffer_wf dst' /\ bytes_of src' = zdrop n (bytes_of src) /\
  exists k size, k < n /\ bytes_of dst' = bytes_of dst ++ ztake k (bytes_of src) /\
    size <= EVBUFFER_CHAIN_MAX - EVBUFFER_CHAIN_SIZE /\ evbuffer_chain_new mm size = None.

(** [src] after the loop: the chains taken are gone, and part of the next. *)
Lemma src_left_ok src taken ch rest lwd n : evbuffer_wf src -> chains src = taken ++ ch :: rest ->
  last_with_datap src = (length taken + lwd)%nat -> 0 <= n < off ch ->
  let t := zlen (content taken) in
  let src' := {| src with chains := {| ch with misalign := misalign ch + n; chain_data := zdrop n (chain_data ch) |} :: rest;
                          last_with_datap := lwd; total_len := total_len src - (t + n);
                          n_del_for_cb := u64 (n_del_for_cb src + (t + n)) |} in
  evbuffer_wf (evbuffer_invoke_callbacks_ src') /\ bytes_of (evbuffer_invoke_callbacks_ src') = zdrop (t + n) (bytes_of src) /\
  notified src (evbuffer_invoke_callbacks_ src') 0 (t + n).
Proof.
  intros W Hcs Hl Hn t src'. pose proof (total_range _ W) as Hr. pose proof (zlen_nonneg (content taken)). fold t in H.
  pose proof (ew_chains _ W) as HF. rewrite Hcs in HF. apply Forall_app in HF as [_ HF]. apply Forall_cons in HF as [Hch HFr].
  assert (Hb : bytes_of src = content taken ++ chain_data ch ++ content rest) by (unfold bytes_of; by rewrite Hcs, content_app, content_cons).
  assert (Hbs : bytes_of src' = zdrop (t + n) (bytes_of src)).
  { rewrite Hb, zdrop_app_ge by (unfold t; lia). replace (t + n - zlen (content taken)) with n by (unfold t; lia).
    rewrite zdrop_app_le by (unfold off in Hn; lia). done. }
  assert (Ht : total_len src = t + off ch + zlen (content rest)) by (rewrite (ew_total _ W), Hb, !zlen_app; unfold t, off; lia).
  pose proof (zlen_nonneg (content rest)). rewrite invoke_wf, invoke_bytes. unfold EV_SIZE_MAX in *. split_and!; [|done|].
  - split; [| |cbn; unfold EV_SIZE_MAX; lia|].
    + cbn. constructor; [apply skip_ok; (done || lia) | done].
    + rewrite Hbs, zlen_zdrop, <- (ew_total _ W) by (rewrite <- (ew_total _ W); lia). done.
    + cbn. destruct (ew_lwd _ W) as [Hd HL]. rewrite Hcs, Hl in Hd, HL. split.
      * rewrite drop_app_ge in Hd by lia. by replace (S (length taken + lwd) - length taken)%nat with (S lwd) in Hd by lia.
      * left. destruct HL as [HL|[HL _]]; [rewrite length_app in HL; cbn in *; lia | by destruct taken].
  - apply invoke_notified; [|done]. split; try done; cbn; [|lia]. intros [Ha Hd]. rewrite Hd. split; [done | apply u64_small; lia].
Qed.

(** A second round of callbacks has nothing to report. *)
Lemma invoke_quiet buf : quiet buf -> evbuffer_invoke_callbacks_ buf = buf.
Proof.
  intros [Ha Hd]. unfold evbuffer_invoke_callbacks_, evbuffer_run_callbacks. destruct buf. cbn in *. subst. by destruct callbacks.
Qed.
Lemma notified_invoke buf buf' came went : notified buf buf' came went -> notified buf (evbuffer_invoke_callbacks_ buf') came went.
Proof.
  intros [N1 N2 N3 N4 N5]. destruct (invoke_frame buf') as (H1 & H2 & H3). split; rewrite ?H1, ?H2, ?H3; try done; intros Hq; rewrite invoke_quiet by (by apply N4); auto.
Qed.

(** The last copy, of part of the chain [ch]. *)
Lemma finish_move src dst dst2 taken ch rest n src' :
  evbuffer_wf src' -> bytes_of src' = zdrop n (bytes_of src) -> notified src src' 0 n -> evbuffer_wf dst -> evbuffer_wf dst2 ->
  bytes_of src = content taken ++ chain_data ch ++ content rest ->
  bytes_of dst2 = bytes_of dst ++ content taken -> changed dst dst2 (zlen (content taken)) 0 ->
  0 <= n - zlen (content taken) < off ch -> total_len src = zlen (bytes_of src) ->
  total_len src + total_len dst <= EV_SIZE_MAX -> n <= INT_MAX -> freeze_end dst = false ->
  exists r dst3, evbuffer_add mm dst2 (ztake (n - zlen (content taken)) (chain_data ch)) = Some (r, dst3) /\
    (moved src dst n src' (evbuffer_invoke_callbacks_ dst3) \/ lost src dst n src' (evbuffer_invoke_callbacks_ dst3)).
Proof.
  intros Ws' Hs' Hns Wd W2 Hbs Hb2 Hcg Hd Hts Hmax Hint Hf. set (t := zlen (content taken)) in *. pose proof (total_range _ Wd).
  assert (0 <= t) by apply zlen_nonneg. pose proof (zlen_nonneg (content rest)).
  assert (Hpiece : zlen (ztake (n - t) (chain_data ch)) = n - t) by (apply zlen_ztake; unfold off in Hd; lia).
  assert (Hsum : zlen (bytes_of src) = t + off ch + zlen (content rest)) by (rewrite Hbs, !zlen_app; unfold t, off; lia).
  destruct (buffer_add_ok mm dst t dst2 (ztake (n - t) (chain_data ch))) as (r & dst3 & R & W3 & HA); [split; [done | lia] | done|].
  exists r, dst3. split; [exact R|]. destruct HA as [(-> & Hb3 & Hn3)|(-> & -> & Hwhy)]; [left|].
  - unfold moved. rewrite invoke_wf, invoke_bytes. split_and!; try done.
    + rewrite Hb3, Hb2, Hbs, <- app_assoc. f_equal. rewrite ztake_app_ge by (fold t; lia). fold t.
      by rewrite ztake_app_le by (unfold off in Hd; lia).
    + apply notified_invoke. rewrite Hpiece in Hn3. by replace (t + (n - t)) with n in Hn3 by lia.
  - destruct (decide (n = t)) as [->|Hne].
    { left. unfold moved. rewrite invoke_wf, invoke_bytes. split_and!; try done; [|by apply invoke_notified].
      rewrite Hb2, Hbs, ztake_app_le, ztake_ge by (fold t; lia). done. }
    right. unfold lost. rewrite invoke_wf, invoke_bytes. split_and!; try done. rewrite Hpiece in Hwhy.
    destruct Hcg as [_ Hfe _ _ _ Ht]. destruct Hwhy as [Hfz|[Hov|(size & Hsz & Hsm & Hnew)]]; [congruence | lia|].
    exists t, size. rewrite Hb2, Hbs, ztake_app_le, ztake_ge by (fold t; lia). unfold INT_MAX, EVBUFFER_CHAIN_MAX, EVBUFFER_CHAIN_SIZE, EV_SSIZE_MAX in *. split_and!; (done || lia).
Qed.

(** [evbuffer_remove_buffer] when the data it needs are part of [src]. *)
Lemma remove_part_ok src dst n : evbuffer_wf src -> evbuffer_wf dst -> tidy src -> 0 < n < total_len src ->
  total_len src + total_len dst <= EV_SIZE_MAX -> n <= INT_MAX -> freeze_end dst = false -> freeze_start src = false ->
  exists src' dst', evbuffer_remove_buffer mm src dst n = Some (n, src', dst') /\
    (moved src dst n src' dst' \/ lost src dst n src' dst').
Proof.
  intros Ws Wd Htidy Hn Hmax Hint Hf1 Hf2. pose proof (total_range _ Ws) as Hrs. pose proof (ew_total _ Ws) as Hts. unfold INT_MAX in Hint.
  unfold evbuffer_remove_buffer. assert (Hfz : freeze_end dst || freeze_start src = false) by (by rewrite Hf1, Hf2).
  rewrite (proj2 (Z.eqb_neq _ _)), Hfz, (proj2 (Z.leb_gt _ _)) by lia.
  destruct (take_chains_ok (chains src) n (last_with_datap src)) as (taken & ch & rest & lwd & R & Hcs & Hd & Hall & Hk & Hnil);
    [apply Ws | unfold bytes_of in Hts; lia | done|].
  assert (Hbs : bytes_of src = content taken ++ chain_data ch ++ content rest) by (unfold bytes_of; by rewrite Hcs, content_app, content_cons).
  rewrite R. cbn [mbind option_bind]. cbv zeta. rewrite chains_len_content.
  destruct (src_left_ok src taken ch rest (default 0%nat lwd) (n - zlen (content taken)) Ws Hcs Hk Hd) as (Ws' & Hs' & Hns).
  replace (zlen (content taken) + (n - zlen (content taken))) with n in * by lia.
  assert (Hcn : c_true n = true) by (unfold c_true; apply negb_true_iff, Z.eqb_neq; lia).
  destruct taken as [|c0 taken].
  - rewrite (Hnil eq_refl) in *. change (chains_len []) with 0. change (zlen (content [])) with 0 in *. rewrite Z.sub_0_r in *.
    cbn [length default] in *. change (c_true 0) with false. cbv iota. cbn [mbind option_bind chains Nat.add]. rewrite Hcs. cbn [lookup list_lookup app mbind option_bind].
    destruct (finish_move src dst dst [] ch rest n _ Ws' Hs' Hns Wd Wd Hbs) as (r & dst3 & Ra & HA);
      try done; [by rewrite app_nil_r | apply changed_refl | change (zlen (content [])) with 0; lia|].
    change (zlen (content [])) with 0 in Ra. rewrite Z.sub_0_r in Ra. unfold id in *. rewrite Ra. cbn [mbind option_bind]. rewrite ?Z.add_0_l, Hcn, (s32_small n) by lia.
    eexists _, _. split; [|exact HA]. done.
  - set (l := c0 :: taken) in *. assert (Hpos : 0 < zlen (content l)).
    { apply Forall_cons in Hall as [Hc _]. unfold l. rewrite content_cons, zlen_app. pose proof (zlen_nonneg (content taken)).
      assert (zlen (chain_data c0) <> 0) by (by rewrite zlen_nil). pose proof (zlen_nonneg (chain_data c0)). lia. }
    assert (Hct : c_true (zlen (content l)) = true) by (unfold c_true; apply negb_true_iff, Z.eqb_neq; lia). rewrite Hct.
    pose proof (ew_chains _ Ws) as HF. rewrite Hcs in HF. apply Forall_app in HF as [HF _].
    assert (Hlt : total_len dst + zlen (content l) <= EV_SIZE_MAX) by lia.
    destruct (take_over_ok dst l Wd HF ltac:(done) Hall Hlt) as (m & chp & Et & Wd2 & Hb2 & Hcg). rewrite Et. cbn [mbind option_bind].
    cbn [chains lookup list_lookup mbind option_bind].
    destruct (finish_move src dst _ l ch rest n _ Ws' Hs' Hns Wd Wd2 Hbs Hb2 Hcg Hd Hts Hmax Hint Hf1) as (r & dst3 & Ra & HA).
    rewrite Ra. cbn [mbind option_bind]. replace (zlen (content l) + (n - zlen (content l))) with n by lia. rewrite Hcn, (s32_small n) by lia.
    eexists _, _. split; [|exact HA]. done.
Qed.

(** [evbuffer_remove_buffer], for a [src] without empty chains before its data. *)
Lemma remove_buffer_ok src dst n : evbuffer_wf src -> evbuffer_wf dst -> tidy src -> 0 <= n ->
  total_len src + total_len dst <= EV_SIZE_MAX -> Z.min n (total_len src) <= INT_MAX ->
  let m := Z.min n (total_len src) in
  exists src' dst',
    if negb (n =? 0) && (freeze_end dst || freeze_start src)
    then evbuffer_remove_buffer mm src dst n = Some (-1, src, dst)
    else evbuffer_remove_buffer mm src dst n = Some (m, src', dst') /\ (moved src dst m src' dst' \/ lost src dst m src' dst').
Proof.
  intros Ws Wd Ht Hn Hmax Hint m. pose proof (total_range _ Ws) as Hrs. pose proof (ew_total _ Ws) as Hts.
  destruct (Z.eqb_spec n 0) as [Hz|Hnz]; cbn [negb andb].
  { exists src, dst. assert (Hm : m = 0) by (unfold m; lia). rewrite Hm, Hz. split; [done|]. left. unfold moved.
    change (ztake 0 (bytes_of src)) with (@nil byte). rewrite app_nil_r. split_and!; try done; apply notified_refl. }
  destruct (freeze_end dst || freeze_start src) eqn:Hf.
  { exists src, dst. unfold evbuffer_remove_buffer. by rewrite (proj2 (Z.eqb_neq _ _) Hnz), Hf. }
  destruct (Z.le_gt_cases (total_len src) n) as [Hle|Hgt].
  - destruct (add_buffer_ok dst src Wd Ws ltac:(lia)) as (dst' & src' & HA). rewrite Hf, orb_true_r in HA. destruct HA as [R HA].
    exists src', dst'. unfold evbuffer_remove_buffer. rewrite (proj2 (Z.eqb_neq _ _) Hnz), Hf, (proj2 (Z.leb_le _ _) Hle), R.
    cbn [mbind option_bind]. unfold m, INT_MAX in *. rewrite Z.min_r in * by lia. rewrite s32_small by lia. split; [done|]. left.
    destruct HA as (H1 & H2 & H3 & H4 & H5 & H6). unfold moved. rewrite zdrop_ge, ztake_ge by lia. split_and!; done.
  - apply orb_false_iff in Hf as [Hf1 Hf2]. unfold m. rewrite Z.min_l in * by lia.
    apply remove_part_ok; try done. lia.
Qed.
End Partial.
