(* ===== verification/BufferPullup.v ===== *)
(** * Making data or space contiguous

    [evbuffer_pullup] and [evbuffer_expand] rearrange the chains of a buffer
    and keep its bytes. *)
From S2P Require Import Prelude Event Buffer BufferInv BufferOps.

Section Pullup.
Context (mm : Z -> bool).
Implicit Types (buf : evbuffer) (ch : evbuffer_chain).

(** Everything but the layout of the data is the same. *)
Definition same_but_layout buf buf' : Prop :=
  bytes_of buf' = bytes_of buf /\ total_len buf' = total_len buf /\
  freeze_start buf' = freeze_start buf /\ freeze_end buf' = freeze_end buf /\ callbacks buf' = callbacks buf /\
  calls buf' = calls buf /\ n_add_for_cb buf' = n_add_for_cb buf /\ n_del_for_cb buf' = n_del_for_cb buf.

Lemma pullup_loop_ok l size : 0 <= size <= zlen (content l) ->
  exists taken rest, pullup_loop l size = (content taken, rest, size - zlen (content taken)) /\ l = taken ++ rest /\
    0 <= size - zlen (content taken) /\
    match rest with [] => size = zlen (content taken) | ch :: _ => size - zlen (content taken) < off ch end.
Proof.
  revert size. induction l as [|ch l IH]; intros size Hs; cbn [pullup_loop].
  { change (zlen (content [])) with 0 in Hs. exists [], []. change (zlen (content [])) with 0. split_and!; (done || lia || (repeat f_equal; lia)). }
  rewrite content_cons, zlen_app in Hs. fold (off ch) in Hs. pose proof (zlen_nonneg (chain_data ch)) as Hoff. fold (off ch) in Hoff.
  destruct (Z.leb_spec (off ch) size) as [Hle|Hgt].
  - destruct (IH (size - off ch) ltac:(lia)) as (taken & rest & -> & -> & Hn & Hm). exists (ch :: taken), rest.
    rewrite content_cons, zlen_app. fold (off ch). replace (size - (off ch + zlen (content taken))) with (size - off ch - zlen (content taken)) by lia.
    split_and!; try done. destruct rest; lia.
  - exists [], (ch :: l). change (zlen (content [])) with 0. rewrite Z.sub_0_r. split_and!; (done || lia).
Qed.

(** The position of the last chain with data after [taken] were merged into
    one chain in front of what is left of [rest]. *)
Lemma pullup_lwd pre taken rest rest' lwd tmp : lwd_ok (pre ++ taken ++ rest) lwd ->
  match rest, rest' with
  | [], [] => True
  | ch :: l, ch' :: l' => l' = l /\ chain_data ch <> [] /\ chain_data ch' <> []
  | _, _ => False
  end ->
  (pre = [] /\ taken <> [] \/ exists c, pre = [c] /\ content (taken ++ rest) <> []) ->
  let k := length pre in
  let removed := length taken in
  lwd_ok (tmp :: rest')
    (if (k <=? lwd)%nat && (lwd <? k + removed)%nat then 0%nat
     else if (S k <=? lwd)%nat && (lwd <? S (k + removed))%nat
          then match rest' with ch :: _ => if c_true (off ch) then 1%nat else 0%nat | [] => 0%nat end
          else if (lwd =? 0)%nat then 0%nat else (lwd - (k + removed) + 1)%nat).
Proof.
  intros [Hd HL] Hrest Hpre k removed.
  assert (Hlen : length (pre ++ taken ++ rest) = (k + removed + length rest)%nat) by (rewrite !length_app; unfold k, removed; lia).
  assert (Hk : (k = 0 /\ 0 < removed)%nat \/ (k = 1 /\ 0 < lwd)%nat).
  { destruct Hpre as [[Hp Ht]|(c & Hp & Hne)]; [left | right]; unfold k, removed; rewrite Hp in *.
    - destruct taken; [done | cbn; lia].
    - split; [done|]. destruct lwd; [done | lia]. }
  assert (Hlt : (lwd < k + removed + length rest)%nat) by (destruct HL as [|[HL _]]; [lia | rewrite HL in Hlen; cbn in Hlen; lia]).
  destruct rest as [|c l], rest' as [|c' l']; try done.
  - cbn [length] in Hlt. replace (_ && _) with true by (symmetry; apply andb_true_intro; split; [apply Nat.leb_le | apply Nat.ltb_lt]; lia).
    split; [done | left; cbn; lia].
  - destruct Hrest as (-> & Hc & Hc'). apply off_true in Hc'. rewrite Hc'.
    assert (Hge : (k + removed <= lwd)%nat).
    { destruct (le_lt_dec (k + removed) lwd) as [|Hl]; [done|]. exfalso. apply Hc. clear - Hd Hl Hc.
      rewrite app_assoc, drop_app_le in Hd by (rewrite length_app; unfold k, removed in *; lia).
      rewrite content_app, content_cons in Hd. apply app_eq_nil in Hd as [_ Hd]. by apply app_eq_nil in Hd as [Hd _]. }
    assert (Hgoal : lwd_ok (tmp :: c' :: l) (S (lwd - (k + removed)))).
    { rewrite app_assoc, drop_app_ge in Hd by (rewrite length_app; unfold k, removed in *; lia).
      rewrite length_app in Hd. fold k removed in Hd. replace (S lwd - (k + removed))%nat with (S (lwd - (k + removed))) in Hd by lia.
      split; [exact Hd | left; cbn in *; lia]. }
    clear - Hge Hk Hgoal. rewrite (proj2 (Nat.ltb_ge _ _) Hge), andb_false_r.
    destruct (Nat.leb_spec (S k) lwd), (Nat.ltb_spec lwd (S (k + removed))), (Nat.eqb_spec lwd 0); cbn [andb]; try lia;
      try (replace (lwd - (k + removed))%nat with 0%nat in Hgoal by lia; exact Hgoal); by rewrite Nat.add_1_r.
Qed.

(** The copy into [tmp], which holds the data of the chains before [l]. *)
Lemma pullup_into_ok buf tmp pre l size : evbuffer_wf buf -> chains buf = pre ++ l ->
  chain_data tmp = content pre -> chain_ok tmp -> has (chain_flags tmp) EVBUFFER_IMMUTABLE = false ->
  misalign tmp + off tmp + size <= buffer_len tmp -> 0 < size <= zlen (content l) ->
  (pre = [] /\ match l with ch :: _ => off ch <= size | [] => True end \/ exists c, pre = [c]) ->
  exists tmp' rest, chains (pullup_into buf tmp l (length pre) size) = tmp' :: rest /\
    chain_data tmp' = content pre ++ ztake size (content l) /\
    evbuffer_wf (pullup_into buf tmp l (length pre) size) /\ same_but_layout buf (pullup_into buf tmp l (length pre) size).
Proof.
  intros W Hcs Ht Hok Hi Hfit Hs Hpre. unfold pullup_into.
  destruct (pullup_loop_ok l size) as (taken & rest & -> & -> & Hn & Hm); [lia|]. set (n := size - zlen (content taken)) in *.
  replace (length (taken ++ rest) - length rest)%nat with (length taken) by (rewrite length_app; lia).
  set (p := match rest with [] => _ | _ => _ end).
  assert (Hp : exists bytes rest', p = (bytes, rest') /\ bytes = ztake size (content (taken ++ rest)) /\
      bytes ++ content rest' = content (taken ++ rest) /\ Forall chain_ok rest' /\
      match rest, rest' with
      | [], [] => True
      | ch :: l, ch' :: l' => l' = l /\ chain_data ch <> [] /\ chain_data ch' <> []
      | _, _ => False
      end).
  { pose proof (ew_chains _ W) as HF. rewrite Hcs in HF. apply Forall_app in HF as [_ HF]. apply Forall_app in HF as [_ HF].
    rewrite content_app, ztake_app_ge by lia. fold n. unfold p. destruct rest as [|ch l].
    - eexists _, _. split; [done|]. cbn [content]. replace (ztake n _) with (@nil byte) by (by destruct (Z.to_nat n) eqn:En; unfold ztake; rewrite En).
      rewrite !app_nil_r. done.
    - apply Forall_cons in HF as [Hc HF]. eexists _, _. split; [done|]. rewrite !content_cons. cbn [chain_data].
      rewrite ztake_app_le by (unfold off in Hm; lia). split_and!; try done.
      + by rewrite <- app_assoc, (app_assoc (ztake n _)), zdrop_take.
      + constructor; [apply skip_ok; [done | lia] | done].
      + by intros ->%zlen_nil || (intros Hx; unfold off in Hm; rewrite Hx in Hm; change (zlen []) with 0 in Hm; lia).
      + intros Hx%zlen_nil. rewrite zlen_zdrop in Hx by (unfold off in Hm; lia). unfold off in Hm. lia. }
  destruct Hp as (bytes & rest' & -> & Hb & Hbr & HFr & Hshape).
  assert (Hcne : content (taken ++ rest) <> []) by (intros Hx; rewrite Hx in Hs; change (zlen []) with 0 in Hs; lia).
  assert (Hbs : content (chain_append tmp bytes :: rest') = bytes_of buf).
  { rewrite content_cons. cbn [chain_data chain_append]. unfold bytes_of. by rewrite Hcs, content_app, Ht, <- app_assoc, Hbr. }
  assert (Hzb : zlen bytes = size) by (rewrite Hb; apply zlen_ztake; lia).
  eexists _, _. split; [reflexivity|]. split; [by rewrite <- Hb, <- Ht|]. split.
  - split; cbn [chains last_with_datap total_len].
    + constructor; [apply chain_append_ok; (done || lia) | done].
    + rewrite (ew_total _ W). unfold bytes_of at 2. cbn [chains]. by rewrite Hbs.
    + apply W.
    + apply (pullup_lwd pre taken rest rest'); [rewrite <- Hcs; apply W | done|].
      destruct Hpre as [[-> Hh]|(c & ->)]; [left | right; by exists c]. split; [done|]. intros ->. cbn [app] in *.
      unfold n in *. change (zlen (content [])) with 0 in *. clear - Hs Hm Hh. destruct rest; lia.
  - unfold same_but_layout. cbn. split_and!; try done.
Qed.

(** The check for pinned chains finds none. *)
Lemma pullup_pinned_ok l n : Forall chain_ok l -> pullup_pinned l n = false.
Proof.
  intros HF. revert n. induction HF as [|ch l Hc HF IH]; intros n; [done|]. cbn [pullup_pinned].
  unfold CHAIN_PINNED. rewrite (ck_unpinned _ Hc), IH. by case_match.
Qed.

(** What [evbuffer_pullup] returns: a pointer to the bytes asked for, or a
    null pointer for none, for too many, or without memory. *)
Lemma pullup_ok buf size : evbuffer_wf buf ->
  let n := if size <? 0 then total_len buf else size in
  exists p buf', evbuffer_pullup mm buf size = Some (p, buf') /\ evbuffer_wf buf' /\ same_but_layout buf buf' /\
    match p with
    | Some bytes => 0 < n <= total_len buf /\ n <= zlen bytes /\ ztake n bytes = ztake n (bytes_of buf)
    | None => buf' = buf /\ (n = 0 \/ total_len buf < n \/ evbuffer_chain_new mm n = None)
    end.
Proof.
  intros W n. unfold evbuffer_pullup. fold n. assert (Hn0 : 0 <= n) by (pose proof (total_range _ W); unfold n; case_if; lia). clearbody n.
  cbv zeta. destruct ((n =? 0) || (total_len buf <? n)) eqn:Hno.
  { exists None, buf. split_and!; try done. lia. }
  assert (Hn : 0 < n <= total_len buf) by lia. clear Hno. pose proof (ew_total _ W) as Ht. pose proof (ew_chains _ W) as HF.
  assert (Hz : total_len buf = zlen (content (chains buf))) by done. destruct (chains buf) as [|ch l] eqn:Hcs.
  { change (zlen (content [])) with 0 in Hz. lia. }
  rewrite content_cons, zlen_app in Hz. fold (off ch) in Hz. pose proof HF as HF'. apply Forall_cons in HF' as [Hch HFl].
  destruct (Z.leb_spec n (off ch)) as [Hle|Hgt].
  { exists (Some (chain_data ch)), buf. split_and!; try done; try lia. unfold bytes_of. rewrite Hcs, content_cons.
    by rewrite ztake_app_le by done. }
  rewrite (pullup_pinned_ok l _ HFl). unfold CHAIN_PINNED. rewrite (ck_unpinned _ Hch).
  (* the same end for both copies *)
  assert (Hend : forall tmp pre l' m, bytes_of buf = content (pre ++ l') -> n = zlen (content pre) + m -> 0 <= m ->
    (exists tmp' rest, chains (pullup_into buf tmp l' (length pre) m) = tmp' :: rest /\
      chain_data tmp' = content pre ++ ztake m (content l') /\
      evbuffer_wf (pullup_into buf tmp l' (length pre) m) /\ same_but_layout buf (pullup_into buf tmp l' (length pre) m)) ->
    m <= zlen (content l') ->
    exists p buf', match chains (pullup_into buf tmp l' (length pre) m) with
                   | [] => None | t :: _ => Some (Some (chain_data t), pullup_into buf tmp l' (length pre) m) end = Some (p, buf') /\
      evbuffer_wf buf' /\ same_but_layout buf buf' /\
      match p with
      | Some bytes => 0 < n <= total_len buf /\ n <= zlen bytes /\ ztake n bytes = ztake n (bytes_of buf)
      | None => buf' = buf /\ (n = 0 \/ total_len buf < n \/ evbuffer_chain_new mm n = None)
      end).
  { intros tmp pre l' m Hb Hnm Hm0 (tmp' & rest & -> & Hd & Wm & Hsame) Hm. eexists _, _. split; [reflexivity|].
    assert (Hzl : zlen (chain_data tmp') = n) by (rewrite Hd, zlen_app, zlen_ztake; lia). split_and!; try done; try lia.
    rewrite ztake_ge by lia. rewrite Hd, Hb, content_app. rewrite ztake_app_ge by lia. do 2 f_equal. lia. }
  destruct (Z.leb_spec n (buffer_len ch - misalign ch)) as [Hfit|Hnofit].
  - apply (Hend ch [ch] l (n - off ch)); try lia; [unfold bytes_of; by rewrite Hcs | cbn; rewrite app_nil_r; fold (off ch); lia |].
    apply pullup_into_ok; try done; try lia; [cbn; by rewrite app_nil_r | | right; by exists ch].
    destruct (has (chain_flags ch) EVBUFFER_IMMUTABLE) eqn:Hi; [|done]. pose proof (ck_immutable _ Hch Hi). lia.
  - destruct (evbuffer_chain_new mm n) as [tmp|] eqn:Hnew; [|exists None, buf; split_and!; (done || auto)].
    destruct (chain_new_ok mm n tmp Hn0 Hnew) as (Hc & Hd & Hmis & Hfl & Hlen).
    assert (Ho : off tmp = 0) by (unfold off; by rewrite Hd).
    apply (Hend tmp [] (ch :: l) n); try done; try (rewrite content_cons, zlen_app; fold (off ch); lia); [unfold bytes_of; by rewrite Hcs|].
    apply (pullup_into_ok buf tmp [] (ch :: l)); try done; [by rewrite Hfl | lia | rewrite content_cons, zlen_app; fold (off ch); lia | left; split; [done | lia]].
Qed.

(** ** Room for more data. *)

(** The chain that is returned has the room, and no data come after it. *)
Definition has_room buf (i : nat) (datlen : Z) : Prop :=
  exists ch, chains buf !! i = Some ch /\ datlen <= CHAIN_SPACE_LEN ch /\ (last_with_datap buf <= i <= S (last_with_datap buf))%nat.
Definition expanded buf (datlen : Z) (r : option nat) buf' : Prop :=
  evbuffer_wf buf' /\ same_but_layout buf buf' /\
  match r with
  | Some i => has_room buf' i datlen
  | None => exists n, datlen <= n <= datlen + MAX_TO_COPY_IN_EXPAND /\ evbuffer_chain_new mm n = None
  end.

Lemma same_but_layout_refl buf : same_but_layout buf buf.
Proof. by repeat split. Qed.

(** The last step of each successful path. *)
Lemma expand_done buf buf' i ch datlen : evbuffer_wf buf' -> same_but_layout buf buf' -> chains buf' !! i = Some ch ->
  datlen <= CHAIN_SPACE_LEN ch -> (last_with_datap buf' <= i <= S (last_with_datap buf'))%nat ->
  exists r buf'', match chains buf' !! i with
                  | Some ch => if datlen <=? CHAIN_SPACE_LEN ch then Some (Some i, buf') else None
                  | None => None
                  end = Some (r, buf'') /\ expanded buf datlen r buf''.
Proof.
  intros W HS Hi Hroom Hl. rewrite Hi, (proj2 (Z.leb_le _ _) Hroom). eexists _, _. split; [done|]. split_and!; try done. by exists ch.
Qed.

Lemma expand_new buf datlen : evbuffer_wf buf -> 0 <= datlen ->
  exists r buf'', (r ← evbuffer_chain_insert_new mm buf datlen;
    match r with
    | None => Some (None, buf)
    | Some buf => match chains buf !! pred (length (chains buf)) with
                  | Some ch => if datlen <=? CHAIN_SPACE_LEN ch then Some (Some (pred (length (chains buf))), buf) else None
                  | None => None
                  end
    end) = Some (r, buf'') /\ expanded buf datlen r buf''.
Proof.
  intros W Hd. unfold evbuffer_chain_insert_new. destruct (evbuffer_chain_new mm datlen) as [ch|] eqn:Hnew; cbn [mbind option_bind].
  2: { exists None, buf. split; [done|]. split_and!; [done | apply same_but_layout_refl |]. exists datlen. split; [unfold MAX_TO_COPY_IN_EXPAND; lia | done]. }
  destruct (chain_new_ok mm _ ch Hd Hnew) as (Hc & Hdt & Hmis & Hfl & Hlen). pose proof (total_range _ W).
  assert (Ho : off ch = 0) by (unfold off; by rewrite Hdt).
  destruct (chain_insert_ok buf ch W Hc) as (buf1 & E1 & W1 & Hb1 & Hlast & _); [lia|].
  destruct (chain_insert_frame _ _ _ E1) as (Hf1 & Hf2 & Hf3 & Hf4 & Hf5 & Hf6 & Hf7).
  rewrite Ho, Z.add_0_r, u64_small in Hf7 by (unfold EV_SIZE_MAX in *; lia). rewrite Hdt, app_nil_r in Hb1.
  rewrite E1. cbn [mbind option_bind]. apply (expand_done buf buf1 _ ch); try done.
  - unfold CHAIN_SPACE_LEN. rewrite Hfl, Hmis, Ho. change (has 0 EVBUFFER_IMMUTABLE) with false. cbv iota. lia.
  - pose proof (chain_insert_last _ _ _ E1 W Ho). destruct (ew_lwd _ W1) as [_ [|[Hn Hz]]]; [lia|]. by rewrite Hn in Hlast.
Qed.

Lemma expand_set buf i ch ch' datlen : evbuffer_wf buf -> chains buf !! i = Some ch -> chain_ok ch' ->
  chain_data ch' = chain_data ch -> i = last_with_datap buf -> datlen <= CHAIN_SPACE_LEN ch' ->
  exists r buf'', match chains (set_chain buf i ch') !! i with
                  | Some ch => if datlen <=? CHAIN_SPACE_LEN ch then Some (Some i, set_chain buf i ch') else None
                  | None => None
                  end = Some (r, buf'') /\ expanded buf datlen r buf''.
Proof.
  intros W Hi Hc Hd Hl Hroom. apply (expand_done buf _ i ch'); try done.
  - apply (put_wf buf _ i ch ch'); try done; [lia | unfold off; rewrite Hd; cbn; lia | apply W].
  - repeat split; try done. unfold bytes_of. cbn. by rewrite (content_insert _ _ _ _ Hi), Hd, <- (content_split _ _ _ Hi).
  - cbn. apply list_lookup_insert_eq. by apply lookup_lt_Some in Hi.
  - cbn. lia.
Qed.

Lemma expand_ok buf datlen : evbuffer_wf buf -> 0 <= datlen ->
  exists r buf', evbuffer_expand_singlechain mm buf datlen = Some (r, buf') /\ expanded buf datlen r buf'.
Proof.
  intros W Hd. unfold evbuffer_expand_singlechain. cbv zeta. set (i := match last_with_data buf with Some _ => _ | None => _ end).
  assert (Hi : i = last_with_datap buf \/ i = S (last_with_datap buf)) by (unfold i; repeat case_match; auto).
  destruct (chains buf !! i) as [ch|] eqn:Hch; [|by apply expand_new].
  assert (Hok : chain_ok ch) by (eapply Forall_lookup_1; [apply W | done]).
  destruct (has (chain_flags ch) (Z.lor EVBUFFER_IMMUTABLE EVBUFFER_MEM_PINNED_ANY)) eqn:Hfl; [by apply expand_new|].
  assert (Himm : has (chain_flags ch) EVBUFFER_IMMUTABLE = false).
  { unfold has, c_true in *. rewrite negb_false_iff, Z.eqb_eq, Z.land_lor_distr_r, Z.lor_eq_0_iff in *. by destruct Hfl. }
  destruct (Z.leb_spec datlen (CHAIN_SPACE_LEN ch)) as [Hroom|Hno].
  { pose proof (expand_done buf buf i ch datlen W (same_but_layout_refl buf) Hch Hroom ltac:(lia)) as X. by rewrite Hch, (proj2 (Z.leb_le _ _) Hroom) in X. }
  destruct (Z.eqb_spec (off ch) 0) as [Hz|Hnz]; [by apply expand_new|].
  assert (Hil : i = last_with_datap buf).
  { destruct Hi as [|Hi]; [done|]. exfalso. destruct (ew_lwd _ W) as [Hn _]. rewrite Hi in Hch.
    rewrite (drop_S _ ch _ Hch), content_cons in Hn. apply app_eq_nil in Hn as [Hn _]. unfold off in Hnz. by rewrite Hn in Hnz. }
  unfold CHAIN_SPACE_LEN in Hno. rewrite Himm in Hno. pose proof Hok as [H1 H2 H3 H4 H5].
  destruct (evbuffer_chain_should_realign ch datlen) eqn:Hre.
  - destruct (chain_align_ok ch Hok Himm) as [-> Hca]. cbn [mbind option_bind]. apply (expand_set buf i ch); try done.
    unfold evbuffer_chain_should_realign in Hre. unfold CHAIN_SPACE_LEN, off in *. cbn [chain_flags buffer_len misalign chain_data]. rewrite Himm. clear - Hre. lia.
  - destruct (_ || _ || _) eqn:Hbig.
    + destruct (chains buf !! S i) as [nx|] eqn:Hnx; [|by apply expand_new].
      destruct (Z.leb_spec datlen (CHAIN_SPACE_LEN nx)) as [Hr|]; [|by apply expand_new].
      pose proof (expand_done buf buf (S i) nx datlen W (same_but_layout_refl buf) Hnx Hr ltac:(lia)) as X. by rewrite Hnx, (proj2 (Z.leb_le _ _) Hr) in X.
    + destruct (evbuffer_chain_new mm (off ch + datlen)) as [tmp|] eqn:Hnew.
      2: { exists None, buf. split; [done|]. split_and!; [done | apply same_but_layout_refl|]. exists (off ch + datlen). split; [|done].
           pose proof (zlen_nonneg (chain_data ch)). unfold off in *. lia. }
      pose proof (zlen_nonneg (chain_data ch)) as Hoff. fold (off ch) in Hoff.
      destruct (chain_new_ok mm (off ch + datlen) tmp) as (Hc & Hdt & Hmis & Hft & Hlen); [lia | done|].
      assert (Ho : off tmp = 0) by (unfold off; by rewrite Hdt).
      apply (expand_set buf i ch); try done.
      * apply chain_append_ok; [done | by rewrite Hft | unfold off in *; lia].
      * cbn. by rewrite Hdt.
      * unfold CHAIN_SPACE_LEN, off in *. cbn [chain_append chain_flags buffer_len misalign chain_data]. rewrite Hft, Hdt, Hmis, app_nil_l.
        change (has 0 EVBUFFER_IMMUTABLE) with false. cbv iota. lia.
Qed.
End Pullup.

(** * Formatted text is appended *)
Section Printf.
Context (mm : Z -> bool).
Implicit Types buf : evbuffer.

(** [last_with_datap] after data were put in its chain or in the next one. *)
Lemma advance_ok buf mid i ch ch' : evbuffer_wf buf -> chains buf !! i = Some ch -> (last_with_datap buf <= i <= S (last_with_datap buf))%nat ->
  chains mid = <[i := ch']> (chains buf) -> last_with_datap mid = last_with_datap buf ->
  advance_last_with_data mid = {| mid with last_with_datap := if c_true (off ch') then i else last_with_datap buf |}.
Proof.
  intros W Hi Hl Hc Hlw. unfold advance_last_with_data, last_with_data. rewrite Hc, Hlw.
  set (k := last_with_datap buf) in *. pose proof (lookup_lt_Some _ _ _ Hi) as Hlen.
  destruct (lookup_lt_is_Some_2 (<[i:=ch']> (chains buf)) k) as [c0 Hc0]; [rewrite length_insert; lia|]. rewrite Hc0. f_equal.
  destruct (ew_lwd _ W) as [Hd _]. fold k in Hd. destruct (Nat.eq_dec i k) as [->|Hne].
  - rewrite drop_insert_lt by lia. rewrite (data_prefix_nil _ Hd). case_if; lia.
  - replace i with (S k) in * by lia. rewrite (drop_S _ ch') by (apply list_lookup_insert_eq; lia).
    rewrite drop_insert_lt by lia. cbn [data_prefix]. rewrite (drop_S _ ch _ Hi), content_cons in Hd. apply app_eq_nil in Hd as [_ Hd].
    rewrite (data_prefix_nil _ Hd). case_if; lia.
Qed.

Lemma put_text buf i ch text : evbuffer_wf buf -> chains buf !! i = Some ch -> (last_with_datap buf <= i <= S (last_with_datap buf))%nat ->
  zlen text < CHAIN_SPACE_LEN ch -> total_len buf + zlen text <= EV_SIZE_MAX ->
  let mid := advance_last_with_data (added (set_chain buf i (chain_append ch text)) (zlen text)) in
  evbuffer_wf mid /\ bytes_of mid = bytes_of buf ++ text /\ changed buf mid (zlen text) 0.
Proof.
  intros W Hi Hl Hroom Hm mid. pose proof (total_range _ W). pose proof (zlen_nonneg text).
  assert (Hu : u64 (total_len buf + zlen text) = total_len buf + zlen text) by (apply u64_small; unfold EV_SIZE_MAX in *; lia).
  set (ch' := chain_append ch text) in *.
  assert (Emid : mid = {| (added (set_chain buf i ch') (zlen text)) with last_with_datap := if c_true (off ch') then i else last_with_datap buf |}).
  { by apply (advance_ok buf _ i ch ch'). }
  assert (Hch : chain_ok ch) by (eapply Forall_lookup_1; [apply W | done]).
  assert (Himm : has (chain_flags ch) EVBUFFER_IMMUTABLE = false) by (unfold CHAIN_SPACE_LEN in Hroom; destruct (has _ _); [lia | done]).
  assert (Hch' : chain_ok ch') by (apply chain_append_ok; [done | done | unfold CHAIN_SPACE_LEN in Hroom; rewrite Himm in Hroom; lia]).
  destruct (ew_lwd _ W) as [Hd HL]. pose proof (lookup_lt_Some _ _ _ Hi) as Hlen.
  assert (Hafter : content (drop (S i) (chains buf)) = []).
  { destruct (Nat.eq_dec i (last_with_datap buf)) as [->|]; [done|]. replace i with (S (last_with_datap buf)) in * by lia.
    rewrite (drop_S _ ch _ Hi), content_cons in Hd. by apply app_eq_nil in Hd as [_ ?]. }
  assert (Hb : bytes_of mid = bytes_of buf ++ text).
  { rewrite Emid. unfold bytes_of. cbn [chains added set_chain]. rewrite (content_insert _ _ _ _ Hi), (content_split _ _ _ Hi), Hafter, !app_nil_r.
    unfold ch'. cbn [chain_append chain_data]. by rewrite app_assoc. }
  split; [|split; [exact Hb|]].
  - split.
    + rewrite Emid. cbn. apply Forall_insert; [apply W | done].
    + rewrite Hb, zlen_app, <- (ew_total _ W), Emid. cbn. exact Hu.
    + rewrite Emid. cbn. lia.
    + rewrite Emid. cbn [chains last_with_datap added set_chain]. split; [|left; rewrite length_insert; case_if; lia].
      case_if; [by rewrite drop_insert_lt by lia|]. apply off_false in E. destruct (Nat.eq_dec i (last_with_datap buf)) as [->|]; [by rewrite drop_insert_lt by lia|].
      replace i with (S (last_with_datap buf)) by lia. rewrite (drop_S _ ch') by (apply list_lookup_insert_eq; lia).
      rewrite drop_insert_lt, content_cons, E by lia. replace i with (S (last_with_datap buf)) in Hafter by lia. exact Hafter.
  - rewrite Emid. split; try done; cbn; [|lia]. intros [Ha Hd']. rewrite Ha. split; [apply u64_small; unfold EV_SIZE_MAX in *; lia | done].
Qed.

Lemma layout_trans a b c : same_but_layout a b -> same_but_layout b c -> same_but_layout a c.
Proof. unfold same_but_layout. intros (?&?&?&?&?&?&?&?) (?&?&?&?&?&?&?&?). split_and!; congruence. Qed.
Lemma layout_changed buf buf1 mid n : same_but_layout buf buf1 -> changed buf1 mid n 0 -> changed buf mid n 0.
Proof.
  intros (E1&E2&E3&E4&E5&E6&E7&E8) [C1 C2 C3 C4 C5 C6]. split; try congruence.
  intros [Q1 Q2]. apply C5. by split; congruence.
Qed.

(** Why no text was added. *)
Definition printf_refused buf (text : list byte) : Prop :=
  freeze_end buf = true \/ INT_MAX < zlen text \/
  exists n, evbuffer_chain_new mm n = None /\ n <= Z.max 64 (zlen text + 1) + MAX_TO_COPY_IN_EXPAND.
Definition printed buf (text : list byte) (r : Z) buf' : Prop :=
  evbuffer_wf buf' /\
  ((r = zlen text /\ bytes_of buf' = bytes_of buf ++ text /\ notified buf buf' (zlen text) 0) \/
   (r = -1 /\ same_but_layout buf buf' /\ printf_refused buf text)).

Lemma printf_here buf buf1 i ch text : evbuffer_wf buf -> evbuffer_wf buf1 -> same_but_layout buf buf1 -> chains buf1 !! i = Some ch ->
  (last_with_datap buf1 <= i <= S (last_with_datap buf1))%nat -> zlen text < CHAIN_SPACE_LEN ch -> total_len buf + zlen text <= EV_SIZE_MAX ->
  printed buf text (zlen text) (evbuffer_invoke_callbacks_ (advance_last_with_data (added (set_chain buf1 i (chain_append ch text)) (zlen text)))).
Proof.
  intros W W1 HS Hi Hl Hroom Hm. pose proof HS as (Hb & Ht & _).
  destruct (put_text buf1 i ch text W1 Hi Hl Hroom) as (Wm & Hbm & Hc); [by rewrite Ht|].
  split; [by apply invoke_wf|]. left. split; [done|]. split; [by rewrite invoke_bytes, Hbm, Hb|].
  apply invoke_notified; [by eapply layout_changed | by apply total_range].
Qed.
Lemma printf_ok buf text : evbuffer_wf buf -> total_len buf + zlen text <= EV_SIZE_MAX ->
  exists r buf', evbuffer_add_printf mm buf text = Some (r, buf') /\ printed buf text r buf'.
Proof.
  intros W Hm. unfold evbuffer_add_printf, evbuffer_add_vprintf. pose proof (zlen_nonneg text).
  destruct (freeze_end buf) eqn:Hf; [eexists _, _; split; [done|]; split; [done|]; right; split; [done|]; split; [apply same_but_layout_refl | by left]|].
  destruct (expand_ok mm buf 64 W) as (r1 & buf1 & -> & W1 & HS1 & Hr1); [lia|]. cbn [mbind option_bind].
  destruct r1 as [i|].
  2: { destruct Hr1 as (n & Hn & Hnone). eexists _, _. split; [done|]. split; [done|]. right. split; [done|]. split; [done|]. right. right. exists n. split; [done|]. lia. }
  destruct Hr1 as (ch & Hi & Hroom & Hl). cbn [printf_loop]. rewrite Hi. cbn [mbind option_bind].
  destruct (Z.ltb_spec INT_MAX (zlen text)) as [Hbig|Hsmall].
  { eexists _, _. split; [done|]. split; [done|]. right. split; [done|]. split; [done|]. right. by left. }
  destruct (Z.ltb_spec (zlen text) (CHAIN_SPACE_LEN ch)) as [Hfit|Hno]; [eexists _, _; split; [done|]; by apply printf_here|].
  destruct (expand_ok mm buf1 (zlen text + 1) W1) as (r2 & buf2 & -> & W2 & HS2 & Hr2); [lia|]. cbn [mbind option_bind].
  pose proof (layout_trans _ _ _ HS1 HS2) as HS. destruct r2 as [i2|].
  2: { destruct Hr2 as (n & Hn & Hnone). eexists _, _. split; [done|]. split; [done|]. right. split; [done|]. split; [done|]. right. right. exists n. split; [done|]. lia. }
  destruct Hr2 as (ch2 & Hi2 & Hroom2 & Hl2). rewrite Hi2. cbn [mbind option_bind].
  rewrite (proj2 (Z.ltb_lt (zlen text) (CHAIN_SPACE_LEN ch2))) by lia.
  eexists _, _. split; [done|]. by apply printf_here; (done || lia).
Qed.
End Printf.
