(* ===== verification/BufferSearch.v ===== *)
(** * Positions in a buffer, searching and reading lines (buffer.c)

    A pointer to a chain is its place among the chains of the buffer.  Reading
    where no data are is [None]. *)
From S2P Require Import Prelude Event Buffer BufferInv.

(** struct evbuffer_ptr. *)
Record evbuffer_ptr := Ptr { ptr_pos : Z; ptr_chain : option nat; pos_in_chain : Z }.
Definition PTR_NOT_FOUND : evbuffer_ptr := Ptr (-1) None 0.
Inductive evbuffer_ptr_how := EVBUFFER_PTR_SET | EVBUFFER_PTR_ADD.
Inductive evbuffer_eol_style := EVBUFFER_EOL_ANY | EVBUFFER_EOL_CRLF | EVBUFFER_EOL_CRLF_STRICT | EVBUFFER_EOL_LF | EVBUFFER_EOL_NUL.

(** [memchr] and [memcmp] on data. *)
Fixpoint memchr (s : list byte) (c : Z) : option Z :=
  match s with [] => None | x :: s => if x =? c then Some 0 else k ← memchr s c; Some (1 + k) end.
Fixpoint memcmp (a b : list byte) : Z :=
  match a, b with x :: a, y :: b => if x =? y then memcmp a b else x - y | _, _ => 0 end.

Definition CHUNK_SZ : Z := 128.
(** Every turn takes a chunk, and there are no more of them than characters. *)
Fixpoint find_eol_loop (fuel : nat) (s : list byte) : option Z :=
  match fuel, s with
  | O, _ | _, [] => None
  | S fuel, _ =>
      let chunk := if CHUNK_SZ <? zlen s then CHUNK_SZ else zlen s in
      match memchr (ztake chunk s) 13, memchr (ztake chunk s) 10 with
      | Some cr, Some lf => if lf <? cr then Some lf else Some cr
      | Some cr, None => Some cr
      | None, Some lf => Some lf
      | None, None => k ← find_eol_loop fuel (zdrop CHUNK_SZ s); Some (CHUNK_SZ + k)
      end
  end.
Definition find_eol_char (s : list byte) : option Z := find_eol_loop (length s) s.

Section Search.
Context (mm : Z -> bool).
Implicit Types (buf : evbuffer) (it p : evbuffer_ptr) (l : list evbuffer_chain).

(** The chain at a pointer and those after it, with its place. *)
Definition chains_from buf (c : option nat) : list evbuffer_chain := match c with Some c => drop c (chains buf) | None => [] end.
Definition chain_index (c : option nat) : nat := default 0%nat c.
Definition next_chain buf (c : nat) : option nat := if (S c <? length (chains buf))%nat then Some (S c) else None.

(** The walk of [evbuffer_strchr] and [evbuffer_find_eol_char]: [i] bytes of the
    first chain of [l] are passed over. *)
Fixpoint find_loop (find : list byte -> option Z) l (idx : nat) (i pos : Z) : option evbuffer_ptr :=
  match l with
  | [] => None
  | ch :: l =>
      match find (zdrop i (chain_data ch)) with
      | Some k => Some (Ptr (pos + k) (Some idx) (i + k))
      | None => find_loop find l (S idx) 0 (pos + (off ch - i))
      end
  end.
(** [None] is -1; the position that it leaves is not used. *)
Definition evbuffer_strchr buf it (chr : Z) : option evbuffer_ptr :=
  find_loop (fun s => memchr s chr) (chains_from buf (ptr_chain it)) (chain_index (ptr_chain it)) (pos_in_chain it) (ptr_pos it).
Definition evbuffer_find_eol_char buf it : option evbuffer_ptr :=
  find_loop find_eol_char (chains_from buf (ptr_chain it)) (chain_index (ptr_chain it)) (pos_in_chain it) (ptr_pos it).

Fixpoint span (chrset : list byte) (s : list byte) : Z :=
  match s with [] => 0 | c :: s => if existsb (fun x => c =? x) chrset then 1 + span chrset s else 0 end.
Fixpoint strspn_loop (chrset : list byte) l (idx : nat) (i count pos : Z) : Z * evbuffer_ptr :=
  match l with
  | [] => (count, Ptr (pos + count) None 0)
  | ch :: l =>
      let n := span chrset (zdrop i (chain_data ch)) in
      if i + n <? off ch then (count + n, Ptr (pos + (count + n)) (Some idx) (i + n))
      else match l with
           | [] => (count + n, Ptr (pos + (count + n)) (Some idx) 0)
           | _ => strspn_loop chrset l (S idx) 0 (count + n) pos
           end
  end.
Definition evbuffer_strspn buf it (chrset : list byte) : Z * evbuffer_ptr :=
  match ptr_chain it with
  | None => (0, it)
  | Some c => strspn_loop chrset (drop c (chains buf)) c (pos_in_chain it) 0 (ptr_pos it)
  end.
Definition evbuffer_getchr buf it : option Z :=
  match ptr_chain it with
  | None => Some (-1)
  | Some c => ch ← chains buf !! c; if (0 <=? pos_in_chain it) && (pos_in_chain it <? off ch) then chain_data ch !! Z.to_nat (pos_in_chain it) else None
  end.

(** ** Moving a position. *)

(** The chain and the place in it, or what is left to go at the end. *)
Fixpoint set_loop l (idx : nat) (position rest : Z) : Z + nat * Z :=
  match l with
  | [] => inl rest
  | ch :: l => if off ch <=? u64 (position + rest) then set_loop l (S idx) 0 (u64 (rest - (off ch - position))) else inr (idx, position + rest)
  end.
Definition evbuffer_ptr_set buf p (position : Z) (how : evbuffer_ptr_how) : option (Z * evbuffer_ptr) :=
  let rest := position in
  let start := match how with
  | EVBUFFER_PTR_SET => Some (Some 0%nat, s64 position, 0)
  | EVBUFFER_PTR_ADD =>
      if (ptr_pos p <? 0) || (EV_SIZE_MAX - position <? ptr_pos p) then None
      else Some (ptr_chain p, s64 (ptr_pos p + position), pos_in_chain p)
  end in
  match start with
  | None => Some (-1, p)
  | Some (chain, pos, position) =>
      _ ← (if position <=? EV_SIZE_MAX - rest then Some tt else None);
      Some (match set_loop (chains_from buf chain) (chain_index chain) position rest with
            | inr (c, i) => (0, Ptr pos (Some c) i)
            | inl rest => if rest =? 0 then (0, Ptr pos None 0) else (-1, PTR_NOT_FOUND)
            end)
  end.
Definition evbuffer_ptr_subtract buf p (howfar : Z) : option (Z * evbuffer_ptr) :=
  if ptr_pos p <? 0 then Some (-1, p)
  else if ptr_pos p <? howfar then Some (-1, p)
  else match ptr_chain p with
       | Some c => if howfar <=? pos_in_chain p then Some (0, Ptr (ptr_pos p - howfar) (Some c) (pos_in_chain p - howfar))
                   else evbuffer_ptr_set buf p (ptr_pos p - howfar) EVBUFFER_PTR_SET
       | None => evbuffer_ptr_set buf p (ptr_pos p - howfar) EVBUFFER_PTR_SET
       end.

(** ** Searching. *)
Fixpoint ptr_memcmp_loop l (position : Z) (mem : list byte) : Z :=
  match mem, l with
  | [], _ | _, [] => 0
  | _, ch :: l =>
      let n_comparable := if off ch <? zlen mem + position then off ch - position else zlen mem in
      let r := memcmp (ztake n_comparable (zdrop position (chain_data ch))) (ztake n_comparable mem) in
      if c_true r then r else ptr_memcmp_loop l 0 (zdrop n_comparable mem)
  end.
Definition evbuffer_ptr_memcmp buf p (mem : list byte) : Z :=
  if (ptr_pos p <? 0) || (EV_SIZE_MAX - zlen mem <? ptr_pos p) || (total_len buf <? ptr_pos p + zlen mem) then -1
  else ptr_memcmp_loop (chains_from buf (ptr_chain p)) (pos_in_chain p) mem.

(** Every turn passes a chain or a byte: [fuel] is one more than there are. *)
Fixpoint search_loop (fuel : nat) buf (what : list byte) (first : byte) (end_ : option evbuffer_ptr) p : option evbuffer_ptr :=
  match fuel with
  | O => None
  | S fuel =>
      match ptr_chain p with
      | None => Some PTR_NOT_FOUND
      | Some c =>
          ch ← chains buf !! c;
          match memchr (zdrop (pos_in_chain p) (chain_data ch)) first with
          | Some k =>
              let p := Ptr (ptr_pos p + k) (Some c) (pos_in_chain p + k) in
              if evbuffer_ptr_memcmp buf p what =? 0 then
                Some (match end_ with
                      | Some e => if ptr_pos e <? ptr_pos p + zlen what then PTR_NOT_FOUND else p
                      | None => p
                      end)
              else search_loop fuel buf what first end_
                     (if pos_in_chain p + 1 =? off ch then Ptr (ptr_pos p + 1) (next_chain buf c) 0
                      else Ptr (ptr_pos p + 1) (Some c) (pos_in_chain p + 1))
          | None =>
              if decide (end_ ≫= ptr_chain = Some c) then Some PTR_NOT_FOUND
              else search_loop fuel buf what first end_ (Ptr (ptr_pos p + (off ch - pos_in_chain p)) (next_chain buf c) 0)
          end
      end
  end.
Definition search_fuel buf : nat := S (length (chains buf) + length (bytes_of buf)).
Definition first_ptr buf : evbuffer_ptr := Ptr 0 (match chains buf with [] => None | _ => Some 0%nat end) 0.
Definition evbuffer_search_range buf (what : list byte) (start end_ : option evbuffer_ptr) : option evbuffer_ptr :=
  let pos := default (first_ptr buf) start in
  match what with
  | [] => Some pos
  | first :: _ => if EV_SSIZE_MAX <? zlen what then Some pos else search_loop (search_fuel buf) buf what first end_ pos
  end.
Definition evbuffer_search buf (what : list byte) (start : option evbuffer_ptr) : option evbuffer_ptr :=
  evbuffer_search_range buf what start None.
(** The bytes from the place that was found on, that were made contiguous. *)
Definition evbuffer_find buf (what : list byte) : option (option (list byte) * evbuffer) :=
  ptr ← evbuffer_search buf what None;
  if ptr_pos ptr <? 0 then Some (None, buf)
  else '(search, buf) ← evbuffer_pullup mm buf (ptr_pos ptr + zlen what); Some (option_map (zdrop (ptr_pos ptr)) search, buf).

(** ** Lines: where the end is, and how long it is. *)
Definition search_eol_from buf it (eol_style : evbuffer_eol_style) : option (evbuffer_ptr * Z) :=
  match eol_style with
  | EVBUFFER_EOL_ANY =>
      match evbuffer_find_eol_char buf it with
      | None => Some (PTR_NOT_FOUND, 0)
      | Some it => Some (it, fst (evbuffer_strspn buf it [13; 10]))
      end
  | EVBUFFER_EOL_CRLF_STRICT =>
      it ← evbuffer_search buf [13; 10] (Some it);
      Some (if ptr_pos it <? 0 then (PTR_NOT_FOUND, 0) else (it, 2))
  | EVBUFFER_EOL_CRLF =>
      let start_pos := ptr_pos it in
      match evbuffer_strchr buf it 10 with
      | None => Some (PTR_NOT_FOUND, 0)
      | Some it =>
          if ptr_pos it =? start_pos then Some (it, 1)
          else
            '(r, it2) ← evbuffer_ptr_subtract buf it 1;
            if r <? 0 then Some (it, 1)
            else c ← evbuffer_getchr buf it2; Some (if c =? 13 then (it2, 2) else (it, 1))
      end
  | EVBUFFER_EOL_LF => Some (match evbuffer_strchr buf it 10 with Some it => (it, 1) | None => (PTR_NOT_FOUND, 0) end)
  | EVBUFFER_EOL_NUL => Some (match evbuffer_strchr buf it 0 with Some it => (it, 1) | None => (PTR_NOT_FOUND, 0) end)
  end.
Definition evbuffer_search_eol buf (start : option evbuffer_ptr) (eol_style : evbuffer_eol_style) : option (evbuffer_ptr * Z) :=
  match start with
  | Some (Ptr _ None _) => Some (PTR_NOT_FOUND, 0)
  | _ => search_eol_from buf (default (first_ptr buf) start) eol_style
  end.
(** The line, whose length is what the caller is told. *)
Definition evbuffer_readln buf (eol_style : evbuffer_eol_style) : option (option (list byte) * evbuffer) :=
  if freeze_start buf then Some (None, buf)
  else
    '(it, extra_drain) ← evbuffer_search_eol buf None eol_style;
    if ptr_pos it <? 0 then Some (None, buf)
    else if mm (ptr_pos it + 1) then
      '(_, line, buf) ← evbuffer_remove buf (ptr_pos it);
      '(_, buf) ← evbuffer_drain buf extra_drain;
      Some (Some line, buf)
    else Some (None, buf).
Definition evbuffer_readline buf := evbuffer_readln buf EVBUFFER_EOL_ANY.

(** ** Looking at data from a position on. *)
Definition evbuffer_copyout_from buf p (datlen : Z) : option (Z * list byte) :=
  if EV_SSIZE_MAX - ptr_pos p <? datlen then Some (-1, [])
  else
    let datlen := if total_len buf <? datlen + ptr_pos p then total_len buf - ptr_pos p else datlen in
    if datlen =? 0 then Some (0, [])
    else if freeze_start buf then Some (-1, [])
    else data ← copyout_loop (chains_from buf (ptr_chain p)) (pos_in_chain p) datlen; Some (datlen, data).

(** The number of vectors, and those that were filled. *)
Fixpoint peek_loop l (idx n_vec len len_so_far : Z) (vec : list (list byte)) : Z * list (list byte) :=
  match l with
  | [] => (idx, vec)
  | ch :: l =>
      if (0 <=? len) && (len <=? len_so_far) then (idx, vec)
      else if idx <? n_vec then peek_loop l (idx + 1) n_vec len (len_so_far + off ch) (vec ++ [chain_data ch])
      else if len <? 0 then (idx, vec)
      else peek_loop l (idx + 1) n_vec len (len_so_far + off ch) vec
  end.
Definition evbuffer_peek buf (len : Z) (start_at : option evbuffer_ptr) (n_vec : Z) : option (Z * list (list byte)) :=
  match start_at with
  | Some (Ptr _ None _) => Some (0, [])
  | Some (Ptr pos (Some c) i) =>
      ch ← chains buf !! c;
      let len := if (n_vec =? 0) && (len <? 0) then total_len buf - pos else len in
      Some (peek_loop (drop (S c) (chains buf)) 1 n_vec len (off ch - i) (if 0 <? n_vec then [zdrop i (chain_data ch)] else []))
  | None =>
      let len := if (n_vec =? 0) && (len <? 0) then total_len buf else len in
      Some (peek_loop (chains buf) 0 n_vec len 0 [])
  end.
End Search.
