(* ===== verification/BufferLines.v ===== *)
(** * Searching a buffer is searching its bytes

    What the functions of BufferSearch.v find, said of the bytes that a buffer
    stands for. *)
From S2P Require Import Prelude Event Buffer BufferInv BufferOps BufferSearch.

(** ** Searching a list of bytes. *)
Fixpoint index_of (Q : Z -> bool) (s : list byte) : option Z :=
  match s with [] => None | x :: s => if Q x then Some 0 else k ← index_of Q s; Some (1 + k) end.

Lemma zlen_cons {A} (x : A) l : zlen (x :: l) = 1 + zlen l.
Proof. unfold zlen. cbn [length]. lia. Qed.
Lemma zdrop_0 {A} (l : list A) : zdrop 0 l = l.
Proof. done. Qed.
Lemma zdrop_zdrop {A} a b (l : list A) : 0 <= a -> 0 <= b -> zdrop a (zdrop b l) = zdrop (b + a) l.
Proof. intros. unfold zdrop. rewrite drop_drop. f_equal. lia. Qed.
Lemma zdrop_succ {A} n (x : A) l : 0 <= n -> zdrop (1 + n) (x :: l) = zdrop n l.
Proof. intros. unfold zdrop. by replace (Z.to_nat (1 + n)) with (S (Z.to_nat n)) by lia. Qed.
Lemma zdrop_lookup_0 {A} n (l : list A) x : 0 <= n -> l !! Z.to_nat n = Some x -> exists l', zdrop n l = x :: l'.
Proof. intros Hn Hx. exists (drop (S (Z.to_nat n)) l). unfold zdrop. by apply drop_S. Qed.

Lemma index_of_range Q s k : index_of Q s = Some k -> 0 <= k < zlen s.
Proof.
  revert k. induction s as [|x s IH]; intros k; [done|]. cbn. unfold zlen in *. cbn [length]. case_if; [intros [= <-]; lia|].
  destruct (index_of Q s) as [j|]; [|done]. cbn. intros [= <-]. specialize (IH j eq_refl). lia.
Qed.
Lemma index_of_some Q s k : index_of Q s = Some k -> exists x s', zdrop k s = x :: s' /\ Q x = true /\ forall y, y ∈ ztake k s -> Q y = false.
Proof.
  revert k. induction s as [|x s IH]; intros k; [done|]. cbn. destruct (Q x) eqn:E; [intros [= <-]; exists x, s; by split_and!; [| |set_solver]|].
  destruct (index_of Q s) as [j|] eqn:Ej; [|done]. cbn. intros [= <-]. pose proof (index_of_range _ _ _ Ej).
  destruct (IH j eq_refl) as (y & s' & Hd & Hy & Ht). exists y, s'. rewrite zdrop_succ by lia. split_and!; [done..|].
  intros z. unfold ztake in *. replace (Z.to_nat (1 + j)) with (S (Z.to_nat j)) by lia. cbn. rewrite elem_of_cons. intros [->|Hz]; auto.
Qed.
Lemma index_of_none Q s : index_of Q s = None -> forall y, y ∈ s -> Q y = false.
Proof.
  induction s as [|x s IH]; [set_solver|]. cbn. destruct (Q x) eqn:E; [done|]. destruct (index_of Q s); [done|]. intros _ y. rewrite elem_of_cons. intros [->|Hy]; auto.
Qed.
Lemma index_of_app Q s t : index_of Q (s ++ t) = match index_of Q s with Some k => Some k | None => k ← index_of Q t; Some (zlen s + k) end.
Proof.
  induction s as [|x s IH]; cbn; [by destruct (index_of Q t)|]. destruct (Q x); [done|]. rewrite IH. destruct (index_of Q s); [done|].
  destruct (index_of Q t); [|done]. cbn. f_equal. unfold zlen. cbn [length]. lia.
Qed.

Lemma memchr_index s c : memchr s c = index_of (fun x => x =? c) s.
Proof. induction s as [|x s IH]; cbn; [done|]. by rewrite IH. Qed.

Definition is_eol (x : Z) : bool := (x =? 13) || (x =? 10).
Lemma index_or P Q s : index_of (fun x => P x || Q x) s =
  match index_of P s, index_of Q s with
  | Some a, Some b => if b <? a then Some b else Some a
  | Some a, None => Some a | None, Some b => Some b | None, None => None
  end.
Proof.
  induction s as [|x s IH]; [done|]. cbn. destruct (P x); cbn [orb].
  - destruct (Q x); [done|]. destruct (index_of Q s) as [b|] eqn:Eb; [|done]. cbn. apply index_of_range in Eb. by replace (1 + b <? 0) with false by lia.
  - destruct (Q x); [by destruct (index_of P s) as [a|] eqn:Ea; [apply index_of_range in Ea; cbn; replace (0 <? 1 + a) with true by lia|]|].
    rewrite IH. destruct (index_of P s) as [a|], (index_of Q s) as [b|]; cbn; try done.
    replace (1 + b <? 1 + a) with (b <? a) by lia. by case_if.
Qed.

(** Looking at one chunk after the other finds the first. *)
Lemma find_eol_index s : find_eol_char s = index_of is_eol s.
Proof.
  unfold find_eol_char. assert (forall fuel s, (length s <= fuel)%nat -> find_eol_loop fuel s = index_of is_eol s) as HA; [|by apply HA].
  clear s. induction fuel as [|fuel IH]; intros s Hlen; [destruct s; [done | cbn in Hlen; lia]|].
  destruct s as [|x s]; [done|]. cbn [find_eol_loop]. set (t := x :: s) in *. set (chunk := if CHUNK_SZ <? zlen t then CHUNK_SZ else zlen t).
  assert (ztake chunk t ++ zdrop CHUNK_SZ t = t /\ (index_of is_eol (zdrop CHUNK_SZ t) <> None -> zlen (ztake chunk t) = CHUNK_SZ)) as [Ht Hl].
  { unfold chunk, CHUNK_SZ. case_if.
    - split; [apply zdrop_take | intros _; apply zlen_ztake; lia].
    - rewrite (zdrop_ge 128 t) by lia. rewrite app_nil_r. split; [apply ztake_ge; lia | done]. }
  transitivity (index_of is_eol (ztake chunk t ++ zdrop CHUNK_SZ t)); [|by rewrite Ht].
  rewrite index_of_app, !memchr_index, IH. unfold is_eol in *. rewrite (index_or _ _ (ztake chunk t)).
  2:{ unfold zdrop. rewrite length_drop. unfold CHUNK_SZ. lia. }
  destruct (index_of (fun x => x =? 13) _), (index_of (fun x => x =? 10) _); try done; [by case_if|].
  destruct (index_of _ (zdrop CHUNK_SZ t)) as [k|]; [|done]. cbn. by rewrite Hl.
Qed.

(** ** Positions. *)
Implicit Types (buf : evbuffer) (p : evbuffer_ptr) (l : list evbuffer_chain).

(** The position leads to its byte, or to the end of a chain before it. *)
Definition ptr_ok buf p : Prop :=
  match ptr_chain p with
  | Some c => exists ch, chains buf !! c = Some ch /\ 0 <= pos_in_chain p <= off ch /\
      ptr_pos p = zlen (content (take c (chains buf))) + pos_in_chain p
  | None => ptr_pos p = zlen (bytes_of buf) /\ pos_in_chain p = 0
  end.
(** It leads to its byte. *)
Definition ptr_at buf p : Prop := ptr_ok buf p /\ exists c ch, ptr_chain p = Some c /\ chains buf !! c = Some ch /\ pos_in_chain p < off ch.

Lemma first_ptr_ok buf : ptr_ok buf (first_ptr buf).
Proof.
  unfold ptr_ok, first_ptr, bytes_of. destruct (chains buf) as [|ch l]; cbn; [done|].
  exists ch. cbn. pose proof (zlen_nonneg (chain_data ch)). by unfold off.
Qed.

Lemma zdrop_app_sum (a b : list byte) i : 0 <= i -> zdrop (zlen a + i) (a ++ b) = zdrop i b.
Proof. intros Hi. rewrite zdrop_app_ge by lia. f_equal. lia. Qed.

Lemma ptr_ok_rest buf p : ptr_ok buf p -> zdrop (ptr_pos p) (bytes_of buf) = zdrop (pos_in_chain p) (content (chains_from buf (ptr_chain p))).
Proof.
  unfold ptr_ok, bytes_of, chains_from. destruct (ptr_chain p) as [c|].
  - intros (ch & Hc & Hi & ->). rewrite <- (take_drop c (chains buf)) at 2. rewrite content_app, zdrop_app_sum by lia. done.
  - intros [-> ->]. rewrite zdrop_ge by lia. done.
Qed.
Lemma ptr_ok_range buf p : ptr_ok buf p -> 0 <= ptr_pos p <= zlen (bytes_of buf).
Proof.
  unfold ptr_ok, bytes_of. destruct (ptr_chain p) as [c|]; [|intros [-> _]; pose proof (zlen_nonneg (content (chains buf))); lia].
  intros (ch & Hc & Hi & ->). rewrite (content_split _ _ _ Hc), !zlen_app. unfold off in Hi.
  pose proof (zlen_nonneg (content (take c (chains buf)))). pose proof (zlen_nonneg (content (drop (S c) (chains buf)))). lia.
Qed.

(** The chain [c] after the start of [l]. *)
Lemma from_lookup buf c0 c ch : chains_from buf (Some c0) !! c = Some ch -> chains buf !! (c0 + c)%nat = Some ch /\
  content (take (c0 + c) (chains buf)) = content (take c0 (chains buf)) ++ content (take c (chains_from buf (Some c0))).
Proof.
  cbn. rewrite lookup_drop. intros Hc. split; [done|]. rewrite <- content_app. f_equal.
  rewrite take_drop_commute. pose proof (lookup_lt_Some _ _ _ Hc).
  transitivity (take c0 (take (c0 + c) (chains buf)) ++ drop c0 (take (c0 + c) (chains buf))); [by rewrite take_drop|].
  f_equal. rewrite take_take. f_equal. lia.
Qed.

Lemma find_loop_ok f Q : (forall s, f s = index_of Q s) -> forall l idx i pos,
  0 <= i -> i <= match l with ch :: _ => off ch | [] => 0 end ->
  match index_of Q (zdrop i (content l)) with
  | None => find_loop f l idx i pos = None
  | Some k => exists c ch i', find_loop f l idx i pos = Some (Ptr (pos + k) (Some (idx + c)%nat) i') /\
      l !! c = Some ch /\ 0 <= i' < off ch /\ zlen (content (take c l)) + i' = i + k
  end.
Proof.
  intros Hf. induction l as [|ch l IH]; intros idx i pos Hi Hle.
  - cbn in Hle. replace i with 0 by lia. done.
  - unfold off in Hle. rewrite content_cons, zdrop_app_le, index_of_app by done. cbn [find_loop]. rewrite Hf.
    destruct (index_of Q (zdrop i (chain_data ch))) as [k|] eqn:Ek.
    + pose proof (index_of_range _ _ _ Ek) as Hk. rewrite zlen_zdrop in Hk by lia. exists 0%nat, ch, (i + k).
      rewrite Nat.add_0_r. unfold off. split_and!; [done | done | lia | lia | change (0 + (i + k) = i + k); lia].
    + specialize (IH (S idx) 0 (pos + (off ch - i)) ltac:(lia)). rewrite zdrop_0, zlen_zdrop in * by lia.
      destruct (index_of Q (content l)) as [k|] eqn:Ekl; cbn [mbind option_bind].
      * destruct IH as (c & ch' & i' & R & Hc & Hi' & Hp); [destruct l; [lia | unfold off; pose proof (zlen_nonneg (chain_data e)); lia]|].
        exists (S c), ch', i'. rewrite R. split_and!; [|done|lia|lia|].
        -- f_equal. f_equal; [unfold off; lia | f_equal; lia].
        -- cbn [take]. rewrite content_cons, zlen_app. lia.
      * apply IH. destruct l; [lia | unfold off; pose proof (zlen_nonneg (chain_data e)); lia].
Qed.

Lemma ptr_walk_ok buf p f Q : (forall s, f s = index_of Q s) -> ptr_ok buf p ->
  match index_of Q (zdrop (ptr_pos p) (bytes_of buf)) with
  | None => find_loop f (chains_from buf (ptr_chain p)) (chain_index (ptr_chain p)) (pos_in_chain p) (ptr_pos p) = None
  | Some k => exists p', find_loop f (chains_from buf (ptr_chain p)) (chain_index (ptr_chain p)) (pos_in_chain p) (ptr_pos p) = Some p' /\
      ptr_at buf p' /\ ptr_pos p' = ptr_pos p + k
  end.
Proof.
  intros Hf Hp. rewrite (ptr_ok_rest _ _ Hp). destruct (ptr_chain p) as [c0|] eqn:Ec; [|change (content (chains_from buf None)) with (@nil byte); unfold zdrop; by rewrite drop_nil].
  unfold ptr_ok in Hp. rewrite Ec in Hp. destruct Hp as (ch0 & Hc0 & Hi & Hpos).
  assert (chains_from buf (Some c0) = ch0 :: drop (S c0) (chains buf)) as Hfrom by (cbn; by apply drop_S).
  pose proof (find_loop_ok f Q Hf (chains_from buf (Some c0)) (chain_index (Some c0)) (pos_in_chain p) (ptr_pos p) ltac:(lia)) as HL.
  destruct (index_of Q _) as [k|]; [|apply HL; rewrite Hfrom; lia].
  destruct HL as (c & ch & i' & R & Hc & Hi' & Hsum); [rewrite Hfrom; lia|]. rewrite R. eexists. split; [done|].
  destruct (from_lookup _ _ _ _ Hc) as [Hc' Htake]. change (chain_index (Some c0)) with c0. split; [|done]. split.
  - exists ch. cbn [ptr_chain pos_in_chain ptr_pos]. split_and!; [done | lia | lia |]. rewrite Htake, zlen_app. lia.
  - exists (c0 + c)%nat, ch. split_and!; [done | done | cbn; lia].
Qed.

Lemma strchr_ok buf p chr : ptr_ok buf p ->
  match index_of (fun x => x =? chr) (zdrop (ptr_pos p) (bytes_of buf)) with
  | None => evbuffer_strchr buf p chr = None
  | Some k => exists p', evbuffer_strchr buf p chr = Some p' /\ ptr_at buf p' /\ ptr_pos p' = ptr_pos p + k
  end.
Proof. apply ptr_walk_ok. intros s. apply memchr_index. Qed.
Lemma find_eol_char_ok buf p : ptr_ok buf p ->
  match index_of is_eol (zdrop (ptr_pos p) (bytes_of buf)) with
  | None => evbuffer_find_eol_char buf p = None
  | Some k => exists p', evbuffer_find_eol_char buf p = Some p' /\ ptr_at buf p' /\ ptr_pos p' = ptr_pos p + k
  end.
Proof. apply ptr_walk_ok. apply find_eol_index. Qed.

Lemma ptr_at_byte buf p : ptr_at buf p -> exists x rest, zdrop (ptr_pos p) (bytes_of buf) = x :: rest /\ evbuffer_getchr buf p = Some x.
Proof.
  intros [Hp (c & ch & Ec & Hc & Hlt)]. pose proof Hp as Hp'. unfold ptr_ok in Hp'. rewrite Ec in Hp'. destruct Hp' as (ch' & Hc' & Hi & _).
  rewrite Hc in Hc'. injection Hc' as <-. rewrite (ptr_ok_rest _ _ Hp), Ec. cbn [chains_from]. rewrite (drop_S _ _ _ Hc), content_cons.
  unfold off in *. rewrite zdrop_app_le by lia. destruct (zdrop (pos_in_chain p) (chain_data ch)) as [|x rest] eqn:Ez.
  { pose proof (zlen_zdrop (pos_in_chain p) (chain_data ch) ltac:(lia)) as HL. rewrite Ez in HL. change (zlen []) with 0 in HL. lia. }
  exists x, (rest ++ content (drop (S c) (chains buf))). split; [done|]. unfold evbuffer_getchr. rewrite Ec, Hc. cbn [mbind option_bind]. unfold off.
  replace (_ && _) with true by lia. unfold zdrop in Ez. pose proof (f_equal (fun s : list byte => s !! 0%nat) Ez) as HL. cbn in HL.
  by rewrite lookup_drop, Nat.add_0_r in HL.
Qed.

(** ** Moving a position. *)
Lemma set_loop_ok l : forall idx position rest,
  0 <= position -> position <= match l with ch :: _ => off ch | [] => 0 end -> 0 <= rest -> position + rest < 2 ^ 64 ->
  if position + rest <? zlen (content l)
  then exists c ch i, set_loop l idx position rest = inr ((idx + c)%nat, i) /\ l !! c = Some ch /\ 0 <= i < off ch /\
    zlen (content (take c l)) + i = position + rest
  else set_loop l idx position rest = inl (position + rest - zlen (content l)).
Proof.
  induction l as [|ch l IH]; intros idx position rest Hp Hle Hr Hb.
  - cbn in Hle. change (zlen (content [])) with 0. replace (position + rest <? 0) with false by lia. cbn. f_equal. lia.
  - rewrite content_cons, zlen_app. fold (off ch). pose proof (zlen_nonneg (content l)). cbn [set_loop]. rewrite u64_small by lia.
    destruct (off ch <=? position + rest) eqn:E.
    + rewrite u64_small by lia. specialize (IH (S idx) 0 (rest - (off ch - position)) ltac:(lia)).
      destruct (Z.ltb_spec (position + rest) (off ch + zlen (content l))).
      * replace (0 + (rest - (off ch - position)) <? zlen (content l)) with true in IH by lia.
        destruct IH as (c & ch' & i & R & Hc & Hi & Hs); [destruct l; [lia | unfold off; apply zlen_nonneg] | lia | lia|].
        exists (S c), ch', i. rewrite R. split_and!; [f_equal; f_equal; lia | done | lia | lia |].
        cbn [take]. rewrite content_cons, zlen_app. fold (off ch). lia.
      * replace (0 + (rest - (off ch - position)) <? zlen (content l)) with false in IH by lia.
        rewrite IH; [f_equal; lia | destruct l; [lia | unfold off; apply zlen_nonneg] | lia | lia].
    + replace (position + rest <? off ch + zlen (content l)) with true by lia.
      exists 0%nat, ch, (position + rest). rewrite Nat.add_0_r. split_and!; [done | done | lia | lia |]. change (0 + (position + rest) = position + rest). lia.
Qed.

Lemma ptr_set_ok buf p n how : zlen (bytes_of buf) <= EV_SSIZE_MAX -> 0 <= n <= EV_SSIZE_MAX ->
  (how = EVBUFFER_PTR_ADD -> ptr_ok buf p) ->
  let m := match how with EVBUFFER_PTR_SET => n | EVBUFFER_PTR_ADD => ptr_pos p + n end in
  exists p', evbuffer_ptr_set buf p n how = Some (if m <=? zlen (bytes_of buf) then 0 else -1, p') /\
    if m <=? zlen (bytes_of buf) then ptr_ok buf p' /\ ptr_pos p' = m /\ (m < zlen (bytes_of buf) -> ptr_at buf p') else p' = PTR_NOT_FOUND.
Proof.
  intros Hmax Hn Hp m. unfold EV_SSIZE_MAX in *.
  assert (exists chain i, ptr_ok buf (Ptr (m - n) chain i) /\
    evbuffer_ptr_set buf p n how = Some (match set_loop (chains_from buf chain) (chain_index chain) i n with
            | inr (c, i) => (0, Ptr (s64 m) (Some c) i)
            | inl rest => if rest =? 0 then (0, Ptr (s64 m) None 0) else (-1, PTR_NOT_FOUND)
            end)) as (chain & i & Hok & ->).
  { unfold evbuffer_ptr_set. destruct how; unfold m.
    - exists (match chains buf with [] => None | _ => Some 0%nat end), 0. rewrite Z.sub_diag. split; [apply first_ptr_ok|].
      cbn [mbind option_bind]. replace (0 <=? EV_SIZE_MAX - n) with true by (unfold EV_SIZE_MAX; lia). cbn [mbind option_bind].
      destruct (chains buf) eqn:E; cbn [chains_from chain_index default]; rewrite ?E; done.
    - specialize (Hp eq_refl). pose proof (ptr_ok_range _ _ Hp). exists (ptr_chain p), (pos_in_chain p).
      replace (ptr_pos p + n - n) with (ptr_pos p) by lia. split; [by destruct p|].
      replace (_ || _) with false by (unfold EV_SIZE_MAX; lia). pose proof Hp as Hp2. unfold ptr_ok in Hp2.
      assert (0 <= pos_in_chain p <= zlen (bytes_of buf)) as Hpic.
      { destruct (ptr_chain p) as [c|]; [|lia]. destruct Hp2 as (ch & _ & Hi & Hpos). pose proof (zlen_nonneg (content (take c (chains buf)))). lia. }
      by replace (pos_in_chain p <=? EV_SIZE_MAX - n) with true by (unfold EV_SIZE_MAX; lia). }
  pose proof (ptr_ok_range _ _ Hok) as Hrange. cbn [ptr_pos] in Hrange. pose proof Hok as Hok2. unfold ptr_ok in Hok2. cbn [ptr_chain ptr_pos pos_in_chain] in Hok2.
  assert (m <= zlen (bytes_of buf) -> s64 m = m) as Hs by (intros; apply s64_small; lia).
  destruct chain as [c0|].
  - destruct Hok2 as (ch0 & Hc0 & Hi & Hpos). assert (chains_from buf (Some c0) = ch0 :: drop (S c0) (chains buf)) as Hfrom by (cbn; by apply drop_S).
    pose proof (set_loop_ok (chains_from buf (Some c0)) (chain_index (Some c0)) i n ltac:(lia) ltac:(rewrite Hfrom; lia) ltac:(lia)) as HL.
    pose proof (f_equal zlen (content_app (take c0 (chains buf)) (drop c0 (chains buf)))) as Hsum. rewrite take_drop, zlen_app in Hsum.
    change (content (chains buf)) with (bytes_of buf) in Hsum. change (drop c0 (chains buf)) with (chains_from buf (Some c0)) in Hsum.
    pose proof (zlen_nonneg (content (take c0 (chains buf)))) as Htk. specialize (HL ltac:(lia)).
    destruct (Z.ltb_spec (i + n) (zlen (content (chains_from buf (Some c0))))).
    + destruct HL as (c & ch & j & -> & Hc & Hj & Hsum2). destruct (from_lookup _ _ _ _ Hc) as [Hc' Htake]. change (chain_index (Some c0)) with c0.
      replace (m <=? zlen (bytes_of buf)) with true by lia. rewrite Hs by lia. eexists. split; [done|].
      assert (ptr_ok buf (Ptr m (Some (c0 + c)%nat) j)) as HP by (exists ch; cbn [ptr_chain pos_in_chain ptr_pos]; split_and!; [done | lia | lia | rewrite Htake, zlen_app; lia]).
      split_and!; [done | done |]. intros _. split; [done|]. exists (c0 + c)%nat, ch. split_and!; [done | done | cbn; lia].
    + rewrite HL. replace (i + n - _ =? 0) with (m =? zlen (bytes_of buf)) by lia. destruct (Z.eqb_spec m (zlen (bytes_of buf))) as [Hm|].
      * rewrite Hs by lia. rewrite Hm. replace (zlen (bytes_of buf) <=? zlen (bytes_of buf)) with true by lia. eexists. split; [done|]. split_and!; [done | done | lia].
      * replace (m <=? zlen (bytes_of buf)) with false by lia. by eexists.
  - destruct Hok2 as [Hpos ->]. cbn [chains_from set_loop]. replace (n =? 0) with (m =? zlen (bytes_of buf)) by lia. destruct (Z.eqb_spec m (zlen (bytes_of buf))) as [Hm|].
    + rewrite Hs by lia. rewrite Hm. replace (zlen (bytes_of buf) <=? zlen (bytes_of buf)) with true by lia. eexists. split; [done|]. split_and!; [done | done | lia].
    + replace (m <=? zlen (bytes_of buf)) with false by lia. by eexists.
Qed.

Lemma ptr_subtract_ok buf p n : zlen (bytes_of buf) <= EV_SSIZE_MAX -> ptr_at buf p -> 0 < n ->
  if n <=? ptr_pos p then exists p', evbuffer_ptr_subtract buf p n = Some (0, p') /\ ptr_at buf p' /\ ptr_pos p' = ptr_pos p - n
  else evbuffer_ptr_subtract buf p n = Some (-1, p).
Proof.
  intros Hmax [Hp (c & ch & Ec & Hc & Hlt)] Hn. pose proof (ptr_ok_range _ _ Hp) as Hr. unfold evbuffer_ptr_subtract. rewrite Ec.
  replace (ptr_pos p <? 0) with false by lia. destruct (Z.leb_spec n (ptr_pos p)); [|by replace (ptr_pos p <? n) with true by lia].
  replace (ptr_pos p <? n) with false by lia. pose proof Hp as Hp2. unfold ptr_ok in Hp2. rewrite Ec in Hp2. destruct Hp2 as (ch' & Hc' & Hi & Hpos).
  rewrite Hc in Hc'. injection Hc' as <-. case_if.
  - eexists. split_and!; [done | | done]. split.
    + exists ch. cbn. split_and!; [done | lia | lia |]. lia.
    + exists c, ch. split_and!; [done | done | cbn; lia].
  - destruct (ptr_set_ok buf p (ptr_pos p - n) EVBUFFER_PTR_SET Hmax) as (p' & R & HP); [lia | done|]. cbn zeta beta iota in *.
    replace (ptr_pos p - n <=? zlen (bytes_of buf)) with true in * by lia. destruct HP as (_ & Hpos' & Hat). exists p'. split_and!; [done | apply Hat; lia | done].
Qed.
