(* ===== verification/BufferFind.v ===== *)
(** * Finding strings and the ends of lines in a buffer *)
From S2P Require Import Prelude Event Buffer BufferInv BufferOps BufferPullup BufferSearch BufferLines.

Implicit Types (buf : evbuffer) (p : evbuffer_ptr) (l : list evbuffer_chain).

(** ** Comparing. *)
Lemma memcmp_app a a' b b' : length a = length b -> memcmp (a ++ a') (b ++ b') = if c_true (memcmp a b) then memcmp a b else memcmp a' b'.
Proof.
  revert b. induction a as [|x a IH]; intros [|y b]; try done. cbn. intros [= Hl]. destruct (Z.eqb_spec x y); [by apply IH|].
  unfold c_true. by replace (x - y =? 0) with false by lia.
Qed.
Lemma memcmp_zero a b : length a = length b -> memcmp a b = 0 <-> a = b.
Proof.
  revert b. induction a as [|x a IH]; intros [|y b]; try done. cbn. intros [= Hl]. destruct (Z.eqb_spec x y) as [->|Hne].
  - rewrite IH by done. split; [by intros -> | by intros [=]].
  - split; [lia | by intros [= ? _]].
Qed.

Lemma ptr_memcmp_loop_ok l : forall position mem,
  0 <= position -> position <= match l with ch :: _ => off ch | [] => 0 end -> zlen mem <= zlen (content l) - position ->
  ptr_memcmp_loop l position mem = memcmp (ztake (zlen mem) (zdrop position (content l))) mem.
Proof.
  induction l as [|ch l IH]; intros position mem Hp Hle Hlen.
  - change (zlen (content [])) with 0 in Hlen. cbn in Hle. destruct mem; [done|]. rewrite zlen_cons in Hlen. pose proof (zlen_nonneg mem). lia.
  - rewrite content_cons, zlen_app in *. fold (off ch) in *. pose proof (zlen_nonneg mem). rewrite zdrop_app_le by (unfold off in *; lia).
    set (s := zdrop position (chain_data ch)). assert (zlen s = off ch - position) as Hs by (unfold s, off in *; rewrite zlen_zdrop by lia; done).
    destruct mem as [|x mem]; [done|]. cbn [ptr_memcmp_loop]. set (w := x :: mem) in *. fold s.
    destruct (Z.ltb_spec (off ch) (zlen w + position)).
    + rewrite <- Hs, (ztake_ge (zlen s) s) by lia. rewrite (ztake_app_ge (zlen w)) by lia.
      transitivity (memcmp (s ++ ztake (zlen w - zlen s) (content l)) (ztake (zlen s) w ++ zdrop (zlen s) w)); [|by rewrite zdrop_take].
      rewrite memcmp_app.
      2:{ pose proof (zlen_ztake (zlen s) w ltac:(lia)) as HL. unfold zlen in *. lia. }
      destruct (c_true _) eqn:Ec; [done|]. rewrite IH; [|lia | destruct l; [lia | unfold off; apply zlen_nonneg] | rewrite zlen_zdrop by lia; lia].
      by rewrite zlen_zdrop by lia.
    + rewrite (ztake_app_le (zlen w) s) by lia. rewrite (ztake_ge (zlen w) w) by lia. destruct (c_true _) eqn:Ec; [done|].
      unfold c_true in Ec. apply negb_false_iff, Z.eqb_eq in Ec. rewrite Ec. rewrite zdrop_ge by lia. by destruct l.
Qed.

(** The bytes [what] are at position [n]. *)
Definition occurs (what s : list byte) (n : Z) : Prop := 0 <= n /\ ztake (zlen what) (zdrop n s) = what.

Lemma zlen_ztake_eq {A} n (l l' : list A) : ztake n l = l' -> zlen l' = n -> zlen l' <= zlen l.
Proof. intros <- _. unfold zlen, ztake. rewrite length_take. lia. Qed.
Lemma occurs_range what s n : what <> [] -> occurs what s n -> n + zlen what <= zlen s.
Proof.
  intros Hw [Hn Ho]. pose proof (zlen_ztake_eq _ _ _ Ho eq_refl) as HL. unfold zlen, zdrop in *. rewrite length_drop in HL.
  assert (length what <> 0)%nat by (by destruct what). lia.
Qed.

Lemma ptr_memcmp_ok buf p what : total_len buf = zlen (bytes_of buf) -> zlen (bytes_of buf) <= EV_SSIZE_MAX -> zlen what <= EV_SSIZE_MAX ->
  what <> [] -> ptr_ok buf p -> evbuffer_ptr_memcmp buf p what = 0 <-> occurs what (bytes_of buf) (ptr_pos p).
Proof.
  intros Ht Hmax Hw Hne Hp. pose proof (ptr_ok_range _ _ Hp) as Hr. unfold evbuffer_ptr_memcmp, EV_SSIZE_MAX, EV_SIZE_MAX in *.
  replace (ptr_pos p <? 0) with false by lia. replace (2 ^ 64 - 1 - zlen what <? ptr_pos p) with false by lia. cbn [orb].
  destruct (Z.ltb_spec (total_len buf) (ptr_pos p + zlen what)) as [Hlt|Hge].
  { split; [done|]. intros Ho%occurs_range; [lia | done]. }
  rewrite ptr_memcmp_loop_ok.
  - rewrite <- (ptr_ok_rest _ _ Hp). rewrite memcmp_zero; [unfold occurs; split; [by split; [lia|] | by intros []]|].
    pose proof (zlen_ztake (zlen what) (zdrop (ptr_pos p) (bytes_of buf))) as HL. rewrite zlen_zdrop in HL by lia. specialize (HL ltac:(pose proof (zlen_nonneg what); lia)). unfold zlen in *. lia.
  - unfold ptr_ok in Hp. destruct (ptr_chain p); [destruct Hp as (? & _ & ? & _) | destruct Hp]; lia.
  - unfold ptr_ok in Hp. destruct (ptr_chain p) as [c|]; [|cbn; lia]. destruct Hp as (ch & Hc & Hi & _). cbn. rewrite (drop_S _ _ _ Hc). lia.
  - pose proof (f_equal zlen (ptr_ok_rest _ _ Hp)) as HL. rewrite zlen_zdrop in HL by lia. rewrite zlen_zdrop in HL; [lia|].
    unfold ptr_ok in Hp. destruct (ptr_chain p) as [c|]; [|destruct Hp as [_ ->]; split; [lia | apply zlen_nonneg]]. destruct Hp as (ch & Hc & Hi & _). cbn. rewrite (drop_S _ _ _ Hc), content_cons, zlen_app.
    fold (off ch). pose proof (zlen_nonneg (content (drop (S c) (chains buf)))). lia.
Qed.

(** ** Searching. *)
Section Found.
Context (buf : evbuffer) (what : list byte) (first : byte) (end_ : option evbuffer_ptr).
Context (Hw : head what = Some first) (Hlen : zlen what <= EV_SSIZE_MAX).
Context (Ht : total_len buf = zlen (bytes_of buf)) (Hmax : zlen (bytes_of buf) <= EV_SSIZE_MAX).
Context (Hend : match end_ with Some e => ptr_ok buf e | None => True end).

(** An occurrence that does not reach over the end. *)
Definition fits (n : Z) : Prop := occurs what (bytes_of buf) n /\ match end_ with Some e => n + zlen what <= ptr_pos e | None => True end.
Definition first_fit (from : Z) (r : evbuffer_ptr) : Prop :=
  r = PTR_NOT_FOUND /\ (forall n, from <= n -> ~ fits n) \/
  ptr_at buf r /\ from <= ptr_pos r /\ fits (ptr_pos r) /\ forall n, from <= n < ptr_pos r -> ~ occurs what (bytes_of buf) n.

Lemma what_ne : what <> [].
Proof. intros ->. done. Qed.
Lemma occurs_first n : occurs what (bytes_of buf) n -> exists rest, zdrop n (bytes_of buf) = first :: rest.
Proof.
  intros [Hn Ho]. destruct what as [|f w]; [done|]. cbn in Hw. injection Hw as ->. unfold ztake in Ho.
  destruct (zdrop n (bytes_of buf)) as [|x s] eqn:E; [by rewrite take_nil in Ho|]. exists s.
  replace (Z.to_nat (zlen (first :: w))) with (S (length w)) in Ho by (unfold zlen; cbn [length]; lia). cbn in Ho. by injection Ho as -> _.
Qed.

(** Where the next byte is looked for: none is skipped. *)
Lemma advance_chain c ch p : ptr_ok buf p -> ptr_chain p = Some c -> chains buf !! c = Some ch ->
  ptr_ok buf (Ptr (ptr_pos p + (off ch - pos_in_chain p)) (next_chain buf c) 0).
Proof.
  intros Hp Ec Hc. unfold ptr_ok in *. rewrite Ec in Hp. destruct Hp as (ch' & Hc' & Hi & Hpos). rewrite Hc in Hc'. injection Hc' as <-.
  assert (content (take (S c) (chains buf)) = content (take c (chains buf)) ++ chain_data ch) as Ht1.
  { rewrite (take_S_r _ _ _ Hc), content_app. cbn. by rewrite app_nil_r. }
  unfold next_chain. cbn [ptr_chain ptr_pos pos_in_chain]. destruct (Nat.ltb_spec (S c) (length (chains buf))) as [Hlt|Hge].
  - destruct (lookup_lt_is_Some_2 _ _ Hlt) as [ch2 Hc2]. exists ch2. split_and!; [done | lia | unfold off; apply zlen_nonneg |].
    rewrite Ht1, zlen_app. fold (off ch). lia.
  - split; [|done]. unfold bytes_of. rewrite <- (firstn_all2 (n := S c) (chains buf)) by lia. rewrite Ht1, zlen_app. fold (off ch). lia.
Qed.

Lemma next_chain_length c : length (chains_from buf (next_chain buf c)) = length (drop (S c) (chains buf)).
Proof. unfold next_chain. destruct (Nat.ltb_spec (S c) (length (chains buf))); [done|]. cbn. rewrite drop_ge by lia. done. Qed.

Lemma no_first_no_occurs from k : 0 <= from -> index_of (fun x => x =? first) (zdrop from (bytes_of buf)) = k ->
  forall n, from <= n -> match k with Some k => n < from + k | None => True end -> ~ occurs what (bytes_of buf) n.
Proof.
  intros Hfrom Hk n Hn Hlt Ho. destruct (occurs_first n Ho) as (rest & Hr).
  assert (zdrop (n - from) (zdrop from (bytes_of buf)) = first :: rest) as Hd by (rewrite zdrop_zdrop by lia; rewrite <- Hr; f_equal; lia).
  set (s := zdrop from (bytes_of buf)) in *.
  assert (s !! Z.to_nat (n - from) = Some first) as Hl.
  { pose proof (f_equal (fun s : list byte => s !! 0%nat) Hd) as HL. cbn in HL. unfold zdrop in HL. by rewrite lookup_drop, Nat.add_0_r in HL. }
  destruct k as [k|].
  - destruct (index_of_some _ _ _ Hk) as (x & s' & _ & _ & Hbefore). specialize (Hbefore first). rewrite Z.eqb_refl in Hbefore.
    discriminate Hbefore. apply list_elem_of_lookup. exists (Z.to_nat (n - from)). unfold ztake. rewrite lookup_take. case_decide; [done | lia].
  - pose proof (index_of_none _ _ Hk first) as Hnone. cbv beta in Hnone. rewrite Z.eqb_refl in Hnone. discriminate Hnone. by apply list_elem_of_lookup_2 in Hl.
Qed.

Lemma first_fit_extend from mid r : from <= mid -> (forall n, from <= n < mid -> ~ occurs what (bytes_of buf) n) -> first_fit mid r -> first_fit from r.
Proof.
  intros Hle Hb [[-> HF]|(Ha & Hge & Hfit & HF)]; [left | right].
  - split; [done|]. intros n Hn [Ho He]. destruct (Z.lt_ge_cases n mid); [apply (Hb n); [lia | done] | by apply (HF n); [lia | split]].
  - split_and!; [done | lia | done |]. intros n Hn. destruct (Z.lt_ge_cases n mid); [apply Hb; lia | apply HF; lia].
Qed.

(** The first byte is there: either it is an occurrence, or the search goes on. *)
Lemma found_first p c ch k : ptr_ok buf p -> ptr_chain p = Some c -> chains buf !! c = Some ch -> 0 <= k < off ch - pos_in_chain p -> 0 <= pos_in_chain p ->
  let p1 := Ptr (ptr_pos p + k) (Some c) (pos_in_chain p + k) in
  let p2 := if pos_in_chain p1 + 1 =? off ch then Ptr (ptr_pos p1 + 1) (next_chain buf c) 0 else Ptr (ptr_pos p1 + 1) (Some c) (pos_in_chain p1 + 1) in
  ptr_at buf p1 /\ (evbuffer_ptr_memcmp buf p1 what = 0 <-> occurs what (bytes_of buf) (ptr_pos p1)) /\
  ptr_ok buf p2 /\ ptr_pos p2 = ptr_pos p1 + 1 /\ (length (chains_from buf (ptr_chain p2)) <= S (length (drop (S c) (chains buf))))%nat.
Proof.
  intros Hp Ec Hc Hk Hi p1 p2. pose proof Hp as Hp2. unfold ptr_ok in Hp2. rewrite Ec in Hp2. destruct Hp2 as (ch' & Hc' & _ & Hpos).
  rewrite Hc in Hc'. injection Hc' as <-.
  assert (ptr_ok buf p1) as Hp1 by (exists ch; cbn; split_and!; [done | lia | lia | lia]).
  split_and!; [split; [done|]; exists c, ch; split_and!; [done | done | cbn; lia] | by apply (ptr_memcmp_ok buf p1 what Ht Hmax Hlen what_ne Hp1) .. | | |];
    unfold p2; cbn [ptr_pos p1 pos_in_chain]; case_if; try done.
  - pose proof (advance_chain _ _ _ Hp1 eq_refl Hc) as Ha. cbn [ptr_pos p1 pos_in_chain] in Ha.
    by replace (ptr_pos p + k + (off ch - (pos_in_chain p + k))) with (ptr_pos p + k + 1) in Ha by lia.
  - exists ch. cbn. split_and!; [done | lia | lia | lia].
  - cbn [ptr_chain]. rewrite (next_chain_length c). lia.
  - cbn. by rewrite (drop_S _ _ _ Hc).
Qed.

Lemma search_loop_ok fuel : forall p, ptr_ok buf p ->
  Z.of_nat (length (chains_from buf (ptr_chain p))) + (zlen (bytes_of buf) - ptr_pos p) < Z.of_nat fuel ->
  exists r, search_loop fuel buf what first end_ p = Some r /\ first_fit (ptr_pos p) r.
Proof.
  induction fuel as [|fuel IH]; intros p Hp Hf; [pose proof (ptr_ok_range _ _ Hp); lia|]. cbn [search_loop].
  pose proof (ptr_ok_range _ _ Hp) as Hr. pose proof (ptr_ok_rest _ _ Hp) as Hrest. destruct (ptr_chain p) as [c|] eqn:Ec.
  2:{ exists PTR_NOT_FOUND. split; [done|]. left. split; [done|]. intros n Hn [Ho _]. apply occurs_range in Ho; [|apply what_ne].
      unfold ptr_ok in Hp. rewrite Ec in Hp. destruct Hp as [Hp _]. destruct what; [done|]. rewrite zlen_cons in Ho. pose proof (zlen_nonneg l). lia. }
  pose proof Hp as Hp2. unfold ptr_ok in Hp2. rewrite Ec in Hp2. destruct Hp2 as (ch & Hc & Hi & Hpos). rewrite Hc. cbn [mbind option_bind].
  cbn [chains_from] in Hf, Hrest. rewrite (drop_S _ _ _ Hc) in Hf, Hrest. cbn [length] in Hf. rewrite content_cons in Hrest. rewrite zdrop_app_le in Hrest by (unfold off in Hi; lia).
  pose proof (advance_chain _ _ _ Hp Ec Hc) as Hadv.
  rewrite memchr_index. pose proof (f_equal (index_of (fun x => x =? first)) Hrest) as Hidx. rewrite index_of_app in Hidx.
  destruct (index_of _ (zdrop (pos_in_chain p) (chain_data ch))) as [k|] eqn:Ek.
  - pose proof (index_of_range _ _ _ Ek) as Hk. rewrite zlen_zdrop in Hk by (unfold off in Hi; lia). fold (off ch) in Hk.
    destruct (found_first p c ch k Hp Ec Hc Hk) as (Hat1 & Hcmp & Hp2 & Hpos2 & Hl2); [lia|]. cbv zeta.
    assert (forall n, ptr_pos p <= n < ptr_pos p + k -> ~ occurs what (bytes_of buf) n) as Hbefore.
    { intros n Hn. apply (no_first_no_occurs (ptr_pos p) (Some k)); [lia | done | lia | lia]. }
    destruct (Z.eqb_spec (evbuffer_ptr_memcmp buf (Ptr (ptr_pos p + k) (Some c) (pos_in_chain p + k)) what) 0) as [Hz|Hz].
    + apply Hcmp in Hz. eexists. split; [done|]. apply (first_fit_extend _ (ptr_pos p + k)); [lia | done|]. unfold first_fit, fits.
      destruct end_ as [e|]; [|right; cbn in *; split_and!; [done | lia | done | done | intros; lia]].
      cbn [ptr_pos] in *. destruct (Z.ltb_spec (ptr_pos e) (ptr_pos p + k + zlen what)); [left | right].
      * split; [done|]. intros n Hn [_ Hle]. lia.
      * split_and!; [done | cbn; lia | done | done | cbn; intros; lia].
    + destruct (IH _ Hp2) as (r & R & HF); [cbn [ptr_pos] in *; lia|]. exists r. split; [done|].
      apply (first_fit_extend _ (ptr_pos p + k + 1)); [lia | | by cbn [ptr_pos] in *; rewrite Hpos2 in HF].
      intros n Hn Ho. destruct (Z.eq_dec n (ptr_pos p + k)) as [->|]; [by apply Hz, Hcmp | apply (Hbefore n); [lia | done]].
  - assert (forall n, ptr_pos p <= n < ptr_pos p + (off ch - pos_in_chain p) -> ~ occurs what (bytes_of buf) n) as Hb2.
    { intros n Hn. apply (no_first_no_occurs (ptr_pos p) _ ltac:(lia) Hidx n); [lia|]. destruct (index_of _ (content _)) as [j|] eqn:Ej; [|done].
      cbn. apply index_of_range in Ej. rewrite zlen_zdrop by (unfold off in Hi; lia). fold (off ch). lia. }
    destruct (decide (end_ ≫= ptr_chain = Some c)) as [He|He].
    + exists PTR_NOT_FOUND. split; [done|]. apply (first_fit_extend _ (ptr_pos p + (off ch - pos_in_chain p))); [lia | done|].
      left. split; [done|]. intros n Hn [Ho Hle]. destruct end_ as [e|]; [|done]. cbn in He.
      unfold ptr_ok in Hend. rewrite He in Hend. destruct Hend as (ch' & Hc' & Hie & Hpe). rewrite Hc in Hc'. injection Hc' as <-.
      pose proof what_ne. destruct what; [done|]. rewrite zlen_cons in Hle. pose proof (zlen_nonneg l). lia.
    + destruct (IH _ Hadv) as (r & R & HF); [cbn [ptr_chain ptr_pos]; rewrite next_chain_length; lia|]. exists r. split; [done|].
      by apply (first_fit_extend _ (ptr_pos p + (off ch - pos_in_chain p))); [lia | |].
Qed.
End Found.

(** ** The functions that search. *)
Definition start_ok buf (start : option evbuffer_ptr) : Prop := match start with Some p => ptr_ok buf p | None => True end.
Definition start_pos (start : option evbuffer_ptr) : Z := match start with Some p => ptr_pos p | None => 0 end.
Lemma default_start_ok buf start : start_ok buf start -> ptr_ok buf (default (first_ptr buf) start) /\ ptr_pos (default (first_ptr buf) start) = start_pos start.
Proof. destruct start; [done|]. intros _. split; [apply first_ptr_ok | done]. Qed.

Lemma search_range_ok buf what start end_ : total_len buf = zlen (bytes_of buf) -> zlen (bytes_of buf) <= EV_SSIZE_MAX -> zlen what <= EV_SSIZE_MAX ->
  start_ok buf start -> start_ok buf end_ -> what <> [] ->
  exists r, evbuffer_search_range buf what start end_ = Some r /\ first_fit buf what end_ (start_pos start) r.
Proof.
  intros Ht Hmax Hw Hs He Hne. destruct (default_start_ok buf start Hs) as [Hp Hpos]. unfold evbuffer_search_range. destruct what as [|first w]; [done|].
  replace (EV_SSIZE_MAX <? _) with false by lia. rewrite <- Hpos. apply search_loop_ok; try done.
  pose proof (ptr_ok_range _ _ Hp). unfold search_fuel. set (p := default _ _) in *.
  assert (length (chains_from buf (ptr_chain p)) <= length (chains buf))%nat by (destruct (ptr_chain p); cbn; [rewrite length_drop|]; lia).
  unfold zlen in *. lia.
Qed.

(** The first occurrence in a list. *)
Fixpoint find_list (what s : list byte) : option Z :=
  if decide (ztake (zlen what) s = what) then Some 0 else match s with [] => None | _ :: s => k ← find_list what s; Some (1 + k) end.
Lemma occurs_cons what x s n : 0 <= n -> occurs what (x :: s) (1 + n) <-> occurs what s n.
Proof. intros Hn. unfold occurs. rewrite zdrop_succ by done. split; intros [_ ?]; (split; [lia | done]). Qed.
Lemma find_list_ok what s : what <> [] ->
  match find_list what s with
  | Some n => occurs what s n /\ forall m, 0 <= m < n -> ~ occurs what s m
  | None => forall m, ~ occurs what s m
  end.
Proof.
  intros Hne. induction s as [|x s IH]; cbn [find_list]; case_decide as Hd.
  - split; [by split|]. intros; lia.
  - intros m Ho. apply occurs_range in Ho as Hr; [|done]. destruct Ho as [Hm Ho]. unfold zdrop in Ho. rewrite drop_nil in Ho. done.
  - split; [by split|]. intros; lia.
  - assert (forall m, 0 <= m -> occurs what (x :: s) m -> 1 <= m /\ occurs what s (m - 1)) as Hm.
    { intros m Hm Ho. destruct (Z.eq_dec m 0) as [->|]; [by destruct Ho|]. split; [lia|]. apply (occurs_cons what x s (m - 1)); [lia|]. by replace (1 + (m - 1)) with m by lia. }
    destruct (find_list what s) as [k|]; cbn [mbind option_bind].
    + destruct IH as [Ho HF]. split; [apply occurs_cons; [by destruct Ho | done]|]. intros m Hlt Hom. destruct (Hm m ltac:(lia) Hom) as [? Hom']. apply (HF (m - 1)); [lia | done].
    + intros m Ho. destruct (Hm m ltac:(by destruct Ho) Ho) as [_ Ho']. by apply (IH (m - 1)).
Qed.
Lemma occurs_zdrop what s from n : 0 <= from -> from <= n -> occurs what s n <-> occurs what (zdrop from s) (n - from).
Proof.
  intros Hf Hn. unfold occurs. rewrite zdrop_zdrop by lia. replace (from + (n - from)) with n by lia. split; intros [_ ?]; (split; [lia | done]).
Qed.

(** How many of the characters come first. *)
Lemma span_range chrset s : 0 <= span chrset s <= zlen s.
Proof. induction s as [|c s IH]; [done|]. cbn [span]. rewrite zlen_cons. case_if; lia. Qed.
Lemma span_app chrset s t : span chrset (s ++ t) = if span chrset s <? zlen s then span chrset s else zlen s + span chrset t.
Proof.
  induction s as [|c s IH]; [done|]. cbn [app span]. rewrite zlen_cons. pose proof (span_range chrset s). destruct (existsb _ _).
  - rewrite IH. destruct (Z.ltb_spec (span chrset s) (zlen s)); [by replace (1 + span chrset s <? 1 + zlen s) with true by lia|].
    replace (1 + span chrset s <? 1 + zlen s) with false by lia. lia.
  - pose proof (zlen_nonneg s). by replace (0 <? 1 + zlen s) with true by lia.
Qed.
Lemma strspn_loop_ok chrset l : forall idx i count pos, l <> [] -> 0 <= i -> i <= match l with ch :: _ => off ch | [] => 0 end ->
  fst (strspn_loop chrset l idx i count pos) = count + span chrset (zdrop i (content l)).
Proof.
  induction l as [|ch l IH]; intros idx i count pos Hne Hi Hle; [done|]. cbn [strspn_loop]. rewrite content_cons.
  unfold off in *. rewrite zdrop_app_le, span_app, zlen_zdrop by lia. set (n := span chrset (zdrop i (chain_data ch))).
  pose proof (span_range chrset (zdrop i (chain_data ch))) as Hn. rewrite zlen_zdrop in Hn by lia. fold n in Hn.
  destruct (Z.ltb_spec (i + n) (zlen (chain_data ch))); [by replace (n <? zlen (chain_data ch) - i) with true by lia|].
  replace (n <? zlen (chain_data ch) - i) with false by lia. destruct l as [|ch2 l]; [change (content []) with (@nil byte); cbn [fst span]; lia|].
  rewrite IH; [rewrite zdrop_0; lia | done | lia | unfold off; apply zlen_nonneg].
Qed.
Lemma strspn_ok buf p chrset : ptr_at buf p -> fst (evbuffer_strspn buf p chrset) = span chrset (zdrop (ptr_pos p) (bytes_of buf)).
Proof.
  intros [Hp (c & ch & Ec & Hc & Hlt)]. rewrite (ptr_ok_rest _ _ Hp). unfold evbuffer_strspn, ptr_ok in *. rewrite Ec in *. destruct Hp as (ch' & Hc' & Hi & _).
  rewrite Hc in Hc'. injection Hc' as <-. cbn [chains_from]. rewrite strspn_loop_ok; [done | by rewrite (drop_S _ _ _ Hc) | lia | rewrite (drop_S _ _ _ Hc); lia].
Qed.

(** ** Lines. *)

(** Where the end of the first line is in some bytes, and how long it is. *)
Definition eol_of (style : evbuffer_eol_style) (s : list byte) : option (Z * Z) :=
  match style with
  | EVBUFFER_EOL_ANY => n ← index_of is_eol s; Some (n, span [13; 10] (zdrop n s))
  | EVBUFFER_EOL_CRLF_STRICT => n ← find_list [13; 10] s; Some (n, 2)
  | EVBUFFER_EOL_CRLF =>
      n ← index_of (fun x => x =? 10) s;
      Some (if decide (0 < n /\ s !! Z.to_nat (n - 1) = Some 13) then (n - 1, 2) else (n, 1))
  | EVBUFFER_EOL_LF => n ← index_of (fun x => x =? 10) s; Some (n, 1)
  | EVBUFFER_EOL_NUL => n ← index_of (fun x => x =? 0) s; Some (n, 1)
  end.

Lemma eol_of_range style s n k : eol_of style s = Some (n, k) -> 0 <= n /\ 0 < k /\ n + k <= zlen s.
Proof.
  destruct style; cbn [eol_of].
  - destruct (index_of is_eol s) as [j|] eqn:E; [|done]. cbn. intros [= <- <-]. pose proof (index_of_range _ _ _ E).
    destruct (index_of_some _ _ _ E) as (x & s' & Hd & Hx & _). pose proof (span_range [13; 10] (zdrop j s)) as Hs. rewrite zlen_zdrop in Hs by lia.
    split_and!; [lia | | lia]. rewrite Hd. cbn [span]. pose proof (span_range [13; 10] s'). unfold is_eol in Hx.
    replace (existsb (fun y => x =? y) [13; 10]) with true by (cbn; rewrite orb_false_r; done). lia.
  - destruct (index_of _ s) as [j|] eqn:E; [|done]. cbn. pose proof (index_of_range _ _ _ E). case_decide; intros [= <- <-]; lia.
  - pose proof (find_list_ok [13; 10] s ltac:(done)) as HF. destruct (find_list [13; 10] s) as [j|]; [|done]. cbn. intros [= <- <-]. destruct HF as [Ho _].
    pose proof (occurs_range [13; 10] s j ltac:(done) Ho) as Hr. destruct Ho. change (zlen [13; 10]) with 2 in Hr. lia.
  - destruct (index_of _ s) as [j|] eqn:E; [|done]. cbn. pose proof (index_of_range _ _ _ E). intros [= <- <-]; lia.
  - destruct (index_of _ s) as [j|] eqn:E; [|done]. cbn. pose proof (index_of_range _ _ _ E). intros [= <- <-]; lia.
Qed.

Lemma first_fit_list buf what from r : 0 <= from -> what <> [] -> first_fit buf what None from r ->
  match find_list what (zdrop from (bytes_of buf)) with
  | Some n => ptr_at buf r /\ ptr_pos r = from + n
  | None => r = PTR_NOT_FOUND
  end.
Proof.
  intros Hfrom Hne HF. pose proof (find_list_ok what (zdrop from (bytes_of buf)) Hne) as HL. destruct (find_list _ _) as [k|].
  - destruct HL as [Ho HL]. assert (0 <= k) as Hk by apply Ho. assert (occurs what (bytes_of buf) (from + k)) as Hok.
    { apply (proj2 (occurs_zdrop what (bytes_of buf) from (from + k) Hfrom ltac:(lia))). by replace (from + k - from) with k by lia. }
    destruct HF as [[_ HF]|(Ha & Hge & [Hfit _] & HF)]; [exfalso; apply (HF (from + k)); [lia | by split]|].
    split; [done|]. destruct (Z.lt_total (ptr_pos r) (from + k)) as [Hlt|[He|Hgt]]; [|done|].
    + exfalso. apply (HL (ptr_pos r - from)); [lia|]. apply (proj1 (occurs_zdrop what (bytes_of buf) from (ptr_pos r) Hfrom Hge)), Hfit.
    + exfalso. apply (HF (from + k)); [lia | done].
  - destruct HF as [[-> _]|(Ha & Hge & [Hfit _] & HF)]; [done|]. exfalso. apply (HL (ptr_pos r - from)). apply (proj1 (occurs_zdrop what (bytes_of buf) from (ptr_pos r) Hfrom Hge)), Hfit.
Qed.

Lemma not_found_chain buf r : ptr_at buf r -> ptr_pos r <? 0 = false.
Proof. intros [Hp _]. pose proof (ptr_ok_range _ _ Hp). lia. Qed.

(** From a position on; a CR before it does not count. *)
Lemma search_eol_from_ok buf p style : total_len buf = zlen (bytes_of buf) -> zlen (bytes_of buf) <= EV_SSIZE_MAX -> ptr_ok buf p ->
  exists it m, search_eol_from buf p style = Some (it, m) /\
    match eol_of style (zdrop (ptr_pos p) (bytes_of buf)) with
    | Some (n, k) => ptr_at buf it /\ ptr_pos it = ptr_pos p + n /\ m = k
    | None => it = PTR_NOT_FOUND /\ m = 0
    end.
Proof.
  intros Ht Hmax Hp. pose proof (ptr_ok_range _ _ Hp) as Hr. set (s := zdrop (ptr_pos p) (bytes_of buf)).
  unfold search_eol_from. destruct style; cbn [eol_of].
  - pose proof (find_eol_char_ok buf p Hp) as HF. fold s in HF. destruct (index_of is_eol s) as [k|] eqn:Ek; [|rewrite HF; by eexists _, _].
    destruct HF as (p' & -> & Ha & Hpk). eexists _, _. split; [done|]. split_and!; [done | lia|]. rewrite strspn_ok by done. f_equal.
    pose proof (index_of_range _ _ _ Ek). unfold s. rewrite zdrop_zdrop by lia. f_equal. lia.
  - pose proof (strchr_ok buf p 10 Hp) as HF. fold s in HF. destruct (index_of _ s) as [k|] eqn:Ek; [|rewrite HF; by eexists _, _].
    destruct HF as (p' & -> & Ha & Hpk). pose proof (index_of_range _ _ _ Ek) as Hk. cbn [mbind option_bind].
    destruct (Z.eqb_spec (ptr_pos p') (ptr_pos p)) as [He|Hne].
    { eexists _, _. split; [done|]. rewrite decide_False by lia. split_and!; [done | lia | done]. }
    pose proof (ptr_subtract_ok buf p' 1 Hmax Ha ltac:(lia)) as HS. replace (1 <=? ptr_pos p') with true in HS by lia.
    destruct HS as (p2 & -> & Ha2 & Hp2). cbn [mbind option_bind]. replace (0 <? 0) with false by done.
    destruct (ptr_at_byte buf p2 Ha2) as (x & rest & Hx & ->). cbn [mbind option_bind].
    assert (s !! Z.to_nat (k - 1) = Some x) as Hl.
    { unfold s, zdrop. rewrite lookup_drop. replace (Z.to_nat (ptr_pos p) + Z.to_nat (k - 1))%nat with (Z.to_nat (ptr_pos p2) + 0)%nat by lia.
      rewrite <- lookup_drop. unfold zdrop in Hx. by rewrite Hx. }
    rewrite Hl. destruct (Z.eqb_spec x 13) as [->|Hx13]; (eexists _, _; split; [done|]).
    + rewrite decide_True by (split; [lia | done]). split_and!; [done | lia | done].
    + rewrite decide_False by (intros [_ [=]]; done). split_and!; [done | lia | done].
  - destruct (search_range_ok buf [13; 10] (Some p) None Ht Hmax) as (r & R & HF); try done. unfold evbuffer_search. rewrite R. cbn [mbind option_bind start_pos] in *.
    apply first_fit_list in HF; [|lia|done]. fold s in HF. destruct (find_list [13; 10] s) as [k|]; cbn [mbind option_bind].
    + destruct HF as [Ha Hk]. rewrite (not_found_chain _ _ Ha). eexists _, _. split; [done|]. split_and!; [done | lia | done].
    + subst r. by eexists _, _.
  - pose proof (strchr_ok buf p 10 Hp) as HF. fold s in HF. destruct (index_of _ s) as [k|]; [|rewrite HF; by eexists _, _].
    destruct HF as (p' & -> & Ha & Hpk). eexists _, _. split; [done|]. split_and!; [done | lia | done].
  - pose proof (strchr_ok buf p 0 Hp) as HF. fold s in HF. destruct (index_of _ s) as [k|]; [|rewrite HF; by eexists _, _].
    destruct HF as (p' & -> & Ha & Hpk). eexists _, _. split; [done|]. split_and!; [done | lia | done].
Qed.

Lemma search_eol_ok buf start style : total_len buf = zlen (bytes_of buf) -> zlen (bytes_of buf) <= EV_SSIZE_MAX -> start_ok buf start ->
  exists it m, evbuffer_search_eol buf start style = Some (it, m) /\
    match eol_of style (zdrop (start_pos start) (bytes_of buf)) with
    | Some (n, k) => ptr_at buf it /\ ptr_pos it = start_pos start + n /\ m = k
    | None => it = PTR_NOT_FOUND /\ m = 0
    end.
Proof.
  intros Ht Hmax Hs. destruct (default_start_ok buf start Hs) as [Hp Hpos]. rewrite <- Hpos.
  destruct start as [[a [c|] b]|]; [by apply search_eol_from_ok | | by apply search_eol_from_ok].
  exists PTR_NOT_FOUND, 0. split; [done|]. cbn in Hs. destruct Hs as [Hs _]. cbn in *. rewrite zdrop_ge by lia. by destruct style; vm_compute.
Qed.

Section Lines.
Context (mm : Z -> bool).

Lemma readln_ok buf style : evbuffer_wf buf -> total_len buf <= INT_MAX ->
  exists r buf', evbuffer_readln mm buf style = Some (r, buf') /\ evbuffer_wf buf' /\
    match r with
    | Some line => freeze_start buf = false /\ exists n k, eol_of style (bytes_of buf) = Some (n, k) /\ line = ztake n (bytes_of buf) /\
        bytes_of buf' = zdrop (n + k) (bytes_of buf) /\ exists buf1, notified buf buf1 0 n /\ notified buf1 buf' 0 k
    | None => buf' = buf /\ (freeze_start buf = true \/ eol_of style (bytes_of buf) = None \/ exists n, mm n = false)
    end.
Proof.
  intros W Hmax. pose proof (ew_total _ W) as Ht. unfold evbuffer_readln. destruct (freeze_start buf) eqn:Hf; [eexists None, buf; split_and!; [done | done | done | by left]|].
  destruct (search_eol_ok buf None style Ht) as (it & m & R & HE); [unfold INT_MAX, EV_SSIZE_MAX in *; lia | done|]. rewrite R. cbn [mbind option_bind start_pos] in *.
  rewrite zdrop_0 in HE. destruct (eol_of style (bytes_of buf)) as [[n k]|] eqn:EO; [|destruct HE as [-> _]; exists None, buf; split_and!; auto].
  destruct HE as (Ha & Hpos & ->). rewrite (not_found_chain _ _ Ha). rewrite Hpos, Z.add_0_l. destruct (eol_of_range _ _ _ _ EO) as (Hn & Hk & Hle).
  destruct (mm (n + 1)) eqn:Hm; [|exists None, buf; split_and!; eauto].
  destruct (remove_ok buf n W Hn) as (buf1 & W1 & HR); [lia|]. rewrite Hf in HR. cbn [andb] in HR. destruct HR as (R1 & Hb1 & Hn1). rewrite Z.min_l in * by lia.
  rewrite R1. cbn [mbind option_bind]. destruct (buffer_drain_ok buf1 k W1 ltac:(lia)) as (r & buf2 & R2 & W2 & HD). rewrite R2. cbn [mbind option_bind].
  assert (total_len buf1 = total_len buf - n) as Ht1 by (rewrite (ew_total _ W1), Hb1, zlen_zdrop by lia; lia).
  destruct HD as [(_ & Hb2 & Hn2)|(_ & _ & Hfz & _)]; [|rewrite (nt_start _ _ _ _ Hn1) in Hfz; congruence]. rewrite Z.min_l in Hn2 by lia.
  eexists _, _. split; [done|]. split; [done|]. cbn beta iota. split; [done|]. exists n, k. split_and!; [done | done | | by exists buf1].
  rewrite Hb2, Hb1, zdrop_zdrop by lia. done.
Qed.

Lemma copyout_from_ok buf p n : total_len buf = zlen (bytes_of buf) -> zlen (bytes_of buf) <= EV_SSIZE_MAX -> ptr_ok buf p -> 0 <= n ->
  let m := Z.min n (zlen (bytes_of buf) - ptr_pos p) in
  evbuffer_copyout_from buf p n = Some (if (EV_SSIZE_MAX - ptr_pos p <? n) || (freeze_start buf && negb (m =? 0)) then (-1, [])
    else (m, ztake m (zdrop (ptr_pos p) (bytes_of buf)))).
Proof.
  intros Ht Hmax Hp Hn m. pose proof (ptr_ok_range _ _ Hp) as Hr. unfold evbuffer_copyout_from. destruct (EV_SSIZE_MAX - ptr_pos p <? n); [done|]. cbn [orb].
  replace (if total_len buf <? n + ptr_pos p then total_len buf - ptr_pos p else n) with m by (unfold m; case_if; lia).
  destruct (Z.eqb_spec m 0) as [->|Hm]; [by rewrite andb_false_r|]. rewrite andb_true_r. destruct (freeze_start buf); [done|].
  rewrite (ptr_ok_rest _ _ Hp). rewrite copyout_loop_ok; [done | lia | |].
  - unfold ptr_ok in Hp. destruct (ptr_chain p) as [c|]; [|destruct Hp; cbn; lia]. destruct Hp as (ch & Hc & Hi & _). cbn. rewrite (drop_S _ _ _ Hc). lia.
  - pose proof (f_equal zlen (ptr_ok_rest _ _ Hp)) as HL. rewrite zlen_zdrop in HL by lia. unfold ptr_ok in Hp. destruct (ptr_chain p) as [c|]; [|destruct Hp; lia].
    destruct Hp as (ch & Hc & Hi & _). cbn [chains_from] in *. rewrite (drop_S _ _ _ Hc), content_cons in *. pose proof (zlen_nonneg (content (drop (S c) (chains buf)))).
    rewrite zlen_zdrop in HL by (rewrite zlen_app; fold (off ch); lia). lia.
Qed.

(** Once they are full the vectors stay as they are. *)
Lemma peek_loop_full l : forall idx n_vec len so_far vec, n_vec <= idx ->
  exists n, peek_loop l idx n_vec len so_far vec = (n, vec) /\ idx <= n.
Proof.
  induction l as [|ch l IH]; intros idx n_vec len so_far vec Hi; cbn [peek_loop]; [by exists idx|]. case_if; [by exists idx|].
  replace (idx <? n_vec) with false by lia. case_if; [by exists idx|]. destruct (IH (idx + 1) n_vec len (so_far + off ch) vec ltac:(lia)) as (n & -> & Hn).
  exists n. split; [done | lia].
Qed.
(** The vectors hold data in order; if there are enough of them, all the data
    or as much as was asked for. *)
Lemma peek_loop_ok l : forall idx n_vec len so_far vec n out, 0 <= idx -> zlen vec = Z.min idx n_vec -> peek_loop l idx n_vec len so_far vec = (n, out) ->
  zlen out = Z.min n n_vec /\ exists taken rest, concat out = concat vec ++ taken /\ content l = taken ++ rest /\
    (n <= n_vec -> rest = [] \/ 0 <= len <= so_far + zlen taken \/ len < 0 /\ n = n_vec).
Proof.
  induction l as [|ch l IH]; intros idx n_vec len so_far vec n out Hi Hv R; cbn [peek_loop] in R.
  { injection R as <- <-. split; [done|]. exists [], []. rewrite app_nil_r. split_and!; [done | done | by left]. }
  destruct ((0 <=? len) && (len <=? so_far)) eqn:E1.
  { injection R as <- <-. split; [done|]. exists [], (content (ch :: l)). rewrite app_nil_r. split_and!; [done | done|]. intros _. right. left. change (zlen []) with 0. lia. }
  destruct (Z.ltb_spec idx n_vec) as [Hlt|Hge].
  - apply IH in R; [|lia|]. 2:{ rewrite zlen_app. change (zlen [chain_data ch]) with 1. lia. }
    destruct R as (Hz & taken & rest & Hc & Hrest & Hall). split; [done|]. exists (chain_data ch ++ taken), rest.
    rewrite Hc, concat_app. cbn [concat]. rewrite app_nil_r, <- app_assoc. split_and!; [done | by rewrite content_cons, Hrest, <- app_assoc |].
    intros Hn. rewrite zlen_app. fold (off ch). destruct (Hall Hn) as [->|[?|?]]; [by left | right; left; lia | right; right; lia].
  - destruct (Z.ltb_spec len 0).
    + injection R as <- <-. split; [done|]. exists [], (content (ch :: l)). rewrite app_nil_r. split_and!; [done | done|]. intros Hn. right. right. lia.
    + destruct (peek_loop_full l (idx + 1) n_vec len (so_far + off ch) vec ltac:(lia)) as (n' & R' & Hn'). rewrite R' in R. injection R as <- <-.
      split; [lia|]. exists [], (content (ch :: l)). rewrite app_nil_r. split_and!; [done | done | intros; lia].
Qed.

Lemma peek_ok buf len start n_vec : start_ok buf start -> 0 <= n_vec -> total_len buf = zlen (bytes_of buf) ->
  exists n out, evbuffer_peek buf len start n_vec = Some (n, out) /\ zlen out = Z.min n n_vec /\
    exists rest, zdrop (start_pos start) (bytes_of buf) = concat out ++ rest /\
      (n <= n_vec -> rest = [] \/ 0 <= len <= zlen (concat out) \/ len < 0 /\ n = n_vec).
Proof.
  intros Hs Hv Ht. unfold evbuffer_peek. destruct start as [[pos [c|] i]|]; cbn [start_pos ptr_pos].
  - cbn [start_ok] in Hs. pose proof Hs as Hs2. unfold ptr_ok in Hs2. cbn in Hs2. destruct Hs2 as (ch & Hc & Hi & Hpos). rewrite Hc. cbn [mbind option_bind].
    set (l2 := if _ && _ then _ else len). destruct (peek_loop _ _ _ _ _ _) as [n out] eqn:R. exists n, out. split; [done|].
    pose proof (ptr_ok_rest _ _ Hs) as Hrest. cbn [ptr_pos ptr_chain pos_in_chain chains_from] in Hrest. rewrite (drop_S _ _ _ Hc), content_cons, zdrop_app_le in Hrest by (unfold off in Hi; lia).
    destruct (Z.ltb_spec 0 n_vec) as [Hpos'|Hz].
    + apply peek_loop_ok in R; [|lia|change (zlen [zdrop i (chain_data ch)]) with 1; lia]. destruct R as (Hz & taken & rest & Hc2 & Hcr & Hall). split; [done|].
      cbn [concat] in Hc2. rewrite app_nil_r in Hc2. exists rest. rewrite Hrest, Hcr, Hc2, <- app_assoc. split; [done|]. intros Hn.
      replace l2 with len in Hall by (unfold l2; by replace (n_vec =? 0) with false by lia). rewrite zlen_app, zlen_zdrop by (unfold off in Hi; lia). fold (off ch).
      destruct (Hall Hn) as [?|[?|?]]; [by left | right; left; lia | right; right; lia].
    + destruct (peek_loop_full (drop (S c) (chains buf)) 1 n_vec l2 (off ch - i) [] ltac:(lia)) as (n' & R' & Hn'). rewrite R' in R. injection R as <- <-.
      split; [change (zlen []) with 0; lia|]. eexists. split; [done|]. intros; lia.
  - cbn in Hs. destruct Hs as [Hp _]. cbn in Hp. exists 0, []. split; [done|]. split; [change (zlen []) with 0; lia|]. exists []. rewrite zdrop_ge by lia. split; [done | by left].
  - set (l2 := if _ && _ then _ else len). destruct (peek_loop _ _ _ _ _ _) as [n out] eqn:R. exists n, out. split; [done|]. pose proof R as R0.
    apply peek_loop_ok in R; [|lia|change (zlen []) with 0; lia]. destruct R as (Hz & taken & rest & Hc2 & Hcr & Hall). split; [done|]. exists rest.
    cbn in Hc2. rewrite zdrop_0. unfold bytes_of. rewrite Hcr, Hc2. split; [done|]. intros Hn. destruct (Z.eqb_spec n_vec 0) as [->|Hnz].
    + destruct (Z.ltb_spec len 0); unfold l2 in Hall; cbn in Hall; [|destruct (Hall Hn) as [?|[?|?]]; [by left | right; left; lia | right; right; lia]].
      right. right. split; [done|]. destruct (peek_loop_full (chains buf) 0 0 l2 0 [] ltac:(lia)) as (n' & R' & Hn'). rewrite R' in R0. injection R0 as <- _. lia.
    + replace l2 with len in Hall by (unfold l2; by replace (n_vec =? 0) with false by lia). destruct (Hall Hn) as [?|[?|?]]; [by left | right; left; lia | right; right; lia].
Qed.
End Lines.
