(* ===== verification/BufferTidy.v ===== *)
(** * Buffers without gaps

    A buffer is neat when no empty chain precedes the last one with data and
    every empty chain has room.  The operations of a byte queue keep it so;
    [evbuffer_remove_buffer] needs it. *)
From S2P Require Import Prelude Event Buffer BufferInv BufferOps BufferMove BufferPullup BufferSearch BufferLines BufferFind.

Definition roomy (ch : evbuffer_chain) : Prop := chain_data ch = [] -> 0 < CHAIN_SPACE_LEN ch.
Definition full (ch : evbuffer_chain) : Prop := chain_data ch <> [].
(** The chains, and the place of the last one with data. *)
Definition neat_at (l : list evbuffer_chain) (k : nat) : Prop := Forall full (take k l) /\ Forall roomy l.
Definition neat (buf : evbuffer) : Prop := neat_at (chains buf) (last_with_datap buf).

Implicit Types (buf : evbuffer) (ch : evbuffer_chain) (l : list evbuffer_chain).

Lemma neat_tidy buf : neat buf -> tidy buf.
Proof. by intros [H _]. Qed.
Lemma full_roomy ch : full ch -> roomy ch.
Proof. intros H E. contradiction. Qed.
Lemma neat_frame buf buf' : chains buf' = chains buf -> last_with_datap buf' = last_with_datap buf -> neat buf -> neat buf'.
Proof. unfold neat. by intros -> ->. Qed.
Lemma neat_invoke buf : neat buf -> neat (evbuffer_invoke_callbacks_ buf).
Proof. destruct (invoke_data buf) as (H1 & H2 & _). by apply neat_frame. Qed.
Lemma neat_nil k : neat_at [] k.
Proof. split; [by rewrite take_nil | done]. Qed.

(** A chain is replaced. *)
Lemma neat_insert l k i ch ch' : neat_at l k -> l !! i = Some ch -> roomy ch' -> (full ch -> full ch') -> neat_at (<[i := ch']> l) k.
Proof.
  intros [H1 H2] Hi Hr Hf. split; [|by apply Forall_insert].
  apply Forall_lookup. intros j c Hj. apply lookup_take_Some in Hj as [Hj Hlt]. destruct (decide (i = j)) as [->|Hne].
  - rewrite list_lookup_insert_eq in Hj by (by eapply lookup_lt_Some). injection Hj as <-. apply Hf.
    rewrite Forall_lookup in H1. apply (H1 j), lookup_take_Some. by split.
  - rewrite list_lookup_insert_ne in Hj by done. rewrite Forall_lookup in H1. apply (H1 j), lookup_take_Some. by split.
Qed.
(** The chain after those with data. *)
Lemma neat_next l k ch : neat_at l k -> l !! k = Some ch -> full ch -> neat_at l (S k).
Proof. intros [H1 H2] Hk Hf. split; [|done]. rewrite (take_S_r _ _ _ Hk). apply Forall_app. by split; [|constructor]. Qed.
Lemma neat_app l l' k : neat_at l k -> (k <= length l)%nat -> Forall roomy l' -> neat_at (l ++ l') k.
Proof. intros [H1 H2] Hk Hr. split; [by rewrite take_app_le | by apply Forall_app]. Qed.
Lemma neat_take l k i : neat_at l k -> neat_at (take i l) (Nat.min k i).
Proof. intros [H1 H2]. split; [|by apply Forall_take]. rewrite take_take. rewrite (Nat.min_l (Nat.min k i) i), Nat.min_comm by lia. rewrite <- take_take. by apply Forall_take. Qed.

Lemma append_roomy ch data : roomy ch -> roomy (chain_append ch data).
Proof.
  unfold roomy, CHAIN_SPACE_LEN. cbn. unfold off. cbn. intros H Hd. apply app_eq_nil in Hd as [Hd ->]. rewrite app_nil_r. by apply H.
Qed.
Lemma append_full ch data : full ch -> full (chain_append ch data).
Proof. unfold full. cbn. by destruct (chain_data ch). Qed.
Lemma align_roomy ch ch' : 0 <= misalign ch -> roomy ch -> evbuffer_chain_align ch = Some ch' -> roomy ch' /\ (full ch -> full ch').
Proof.
  unfold evbuffer_chain_align. intros Hm Hr R. case_if_in R; [done|]. injection R as <-. split; [|done]. apply orb_false_iff in E as [E _].
  unfold roomy, CHAIN_SPACE_LEN in *. cbn in *. unfold off in *. cbn in *. rewrite E in *. intros Hd. specialize (Hr Hd). lia.
Qed.
Lemma skip_full ch m n : 0 <= n < off ch -> full {| ch with misalign := m; chain_data := zdrop n (chain_data ch) |}.
Proof.
  intros Hn Hd. cbn in Hd. apply (f_equal length) in Hd. unfold zdrop, off, zlen in *. rewrite length_drop in Hd. cbn in Hd. lia.
Qed.

Section Neat.
Context (mm : Z -> bool).

#[local] Opaque round_up.
Lemma chain_new_roomy size ch : 0 <= size -> evbuffer_chain_new mm size = Some ch -> roomy ch.
Proof.
  intros Hs R. destruct (chain_new_ok mm size ch Hs R) as (_ & Hd & Hm & Hf & Hl). unfold roomy, CHAIN_SPACE_LEN. intros _.
  rewrite Hf. change (has 0 EVBUFFER_IMMUTABLE) with false. cbn iota. rewrite Hm. unfold off. rewrite Hd. change (zlen []) with 0.
  unfold evbuffer_chain_new in R. case_if_in R; [done|]. cbv zeta in R. case_if_in R; [|done]. injection R as <-. cbn in *.
  case_if; [|unfold EVBUFFER_CHAIN_SIZE, EVBUFFER_CHAIN_MAX, EV_SSIZE_MAX in *; lia].
  unfold EVBUFFER_CHAIN_SIZE, EVBUFFER_CHAIN_MAX, EV_SSIZE_MAX, MIN_BUFFER_SIZE in *.
  destruct (round_up_ok 64 1024 (size + 48)) as (? & ? & ?); [lia | change (Z.of_nat 64) with 64; lia |].
  generalize dependent (round_up 64 1024 (size + 48)). intros. lia.
Qed.

(** What [evbuffer_free_trailing_empty_chains] keeps. *)
Lemma free_trailing_neat buf mid i : evbuffer_wf buf -> neat buf -> evbuffer_free_trailing_empty_chains buf = Some (mid, i) ->
  chains mid = take i (chains buf) /\ last_with_datap mid = last_with_datap buf /\ (last_with_datap buf <= i <= length (chains buf))%nat /\
  neat_at (take i (chains buf)) i.
Proof.
  intros W HN R. destruct (free_trailing_ok buf W) as (j & E & Hj & Hc & Hr). rewrite E in R. injection R as <- <-. split_and!; try done; try lia.
  assert (Hat : neat_at (chains buf) j).
  { destruct (Nat.eq_dec j (last_with_datap buf)) as [->|Hne]; [done|]. replace j with (S (last_with_datap buf)) in * by lia.
    destruct (lookup_lt_is_Some_2 (chains buf) (last_with_datap buf)) as [ch Hk]; [lia|]. apply (neat_next _ _ ch); [done | done|].
    unfold evbuffer_free_trailing_empty_chains in E. cbv zeta in E. case_if_in E; [|done]. injection E as _ E.
    rewrite (drop_S _ ch _ Hk), first_victim_ok in E by (rewrite <- (drop_S _ ch _ Hk); apply Forall_drop, W). cbn [data_prefix] in E.
    destruct (c_true (off ch)) eqn:Ho; [by apply off_true | lia]. }
  apply (neat_take _ _ j) in Hat. by rewrite Nat.min_id in Hat.
Qed.

Lemma chain_insert_neat buf ch buf' : evbuffer_wf buf -> neat buf -> roomy ch -> evbuffer_chain_insert buf ch = Some buf' -> neat buf'.
Proof.
  intros W HN Hr R. unfold evbuffer_chain_insert in R. destruct (last_with_data buf) as [c0|].
  - destruct (evbuffer_free_trailing_empty_chains buf) as [[mid i]|] eqn:E; [|done]. cbn [mbind option_bind] in R. injection R as <-.
    destruct (free_trailing_neat _ _ _ W HN E) as (-> & Hl & Hi & Hat). unfold neat. cbn [chains last_with_datap].
    assert (Hlen : length (take i (chains buf)) = i) by (rewrite length_take; lia).
    assert (HA : neat_at (take i (chains buf) ++ [ch]) i) by (apply neat_app; [done | lia | by constructor]).
    case_if; [done|]. rewrite Hl. split; [|apply HA]. rewrite take_app_le, take_take, Nat.min_l by lia. apply HN.
  - destruct (chains buf); [|done]. injection R as <-. split; [done | by constructor].
Qed.

Lemma set_chain_neat buf i ch ch' : neat buf -> chains buf !! i = Some ch -> roomy ch' -> (full ch -> full ch') -> neat (set_chain buf i ch').
Proof. intros HN Hi Hr Hf. unfold neat, set_chain. cbn. by apply (neat_insert _ _ _ ch). Qed.
Lemma wf_chain buf i ch : evbuffer_wf buf -> chains buf !! i = Some ch -> chain_ok ch.
Proof. intros W Hi. eapply Forall_lookup_1; [apply W | done]. Qed.
Lemma neat_chain buf i ch : neat buf -> chains buf !! i = Some ch -> roomy ch.
Proof. intros [_ H] Hi. by eapply Forall_lookup_1. Qed.

(** ** The operations. *)

Lemma add_new_chain_neat buf i ch data remain r buf' : evbuffer_wf buf -> neat buf -> chains buf !! i = Some ch -> chain_ok ch -> (i <= last_with_datap buf)%nat ->
  0 <= remain <= zlen data -> remain = 0 \/ (has (chain_flags ch) EVBUFFER_IMMUTABLE = false /\ misalign ch + off ch + remain <= buffer_len ch) ->
  total_len buf + zlen data <= EV_SIZE_MAX -> add_new_chain mm buf i ch data remain = Some (r, buf') -> neat buf'.
Proof.
  intros W HN Hi Hch Hle Hr Hroom Hm R. unfold add_new_chain in R. cbv zeta in R. set (size := if _ <? zlen data then _ else _) in R.
  assert (Hs : 0 <= size) by (destruct (new_size_ok mm ch (zlen data) Hch) as [H1 _]; pose proof (zlen_nonneg data); fold size in H1; lia).
  destruct (evbuffer_chain_new mm size) as [tmp|] eqn:En; [|by injection R as _ <-].
  pose proof (chain_new_roomy size tmp Hs En) as Hroomy. set (buf1 := if c_true remain then _ else _) in R.
  assert (H1 : evbuffer_wf buf1 /\ neat buf1).
  { unfold buf1. destruct (c_true remain) eqn:E; [|done].
    assert (Hnz : remain <> 0) by (unfold c_true in E; lia). destruct Hroom as [|[Himm Hfit]]; [done|].
    assert (Hz : zlen (ztake remain data) = remain) by (apply zlen_ztake; lia). pose proof (total_range _ W).
    split.
    - apply (put_wf buf _ i ch (chain_append ch (ztake remain data))); try done; [by apply chain_append_ok; rewrite ?Hz | |].
      + cbn. unfold off. cbn. rewrite zlen_app, Hz, u64_small by (unfold EV_SIZE_MAX in *; lia). lia.
      + cbn. rewrite u64_small by (unfold EV_SIZE_MAX in *; lia). lia.
    - eapply neat_frame; [..|apply (set_chain_neat buf i ch (chain_append ch (ztake remain data)))]; try done; [by apply append_roomy, (neat_chain buf i) | apply append_full]. }
  destruct H1 as [W1 N1]. destruct (evbuffer_chain_insert _ _) as [buf2|] eqn:Ei; [|done]. cbn [mbind option_bind] in R. injection R as _ <-.
  apply neat_invoke. eapply neat_frame; [..|eapply (chain_insert_neat buf1); [exact W1 | exact N1 | by apply append_roomy | exact Ei]]; done.
Qed.

(** [evbuffer_add] from the chain it starts with. *)
Lemma add_at_neat buf i ch data r buf' : evbuffer_wf buf -> neat buf -> chains buf !! i = Some ch -> (i <= last_with_datap buf)%nat ->
  total_len buf + zlen data <= EV_SIZE_MAX ->
  (if negb (has (chain_flags ch) EVBUFFER_IMMUTABLE) then
     _ ← (if (0 <=? misalign ch) && (misalign ch <=? EVBUFFER_CHAIN_MAX) then Some tt else None);
     let remain := buffer_len ch - misalign ch - off ch in
     if zlen data <=? remain then
       Some (0, evbuffer_invoke_callbacks_ (added (set_chain buf i (chain_append ch data)) (zlen data)))
     else if negb (CHAIN_PINNED ch) && evbuffer_chain_should_realign ch (zlen data) then
       ch ← evbuffer_chain_align ch;
       Some (0, evbuffer_invoke_callbacks_ (added (set_chain buf i (chain_append ch data)) (zlen data)))
     else add_new_chain mm buf i ch data remain
   else add_new_chain mm buf i ch data 0) = Some (r, buf') -> neat buf'.
Proof.
  intros W HN Hi Hle Hm R. pose proof (wf_chain _ _ _ W Hi) as Hch. pose proof (neat_chain _ _ _ HN Hi) as Hr. pose proof Hch as [H1 H2 _ _ _].
  pose proof (zlen_nonneg data). assert (Hput : forall ch', roomy ch' -> (full ch -> full ch') -> neat (evbuffer_invoke_callbacks_ (added (set_chain buf i (chain_append ch' data)) (zlen data)))).
  { intros ch' Hr' Hf'. apply neat_invoke. eapply neat_frame; [..|apply (set_chain_neat buf i ch (chain_append ch' data))]; try done; [by apply append_roomy | intros Hf; by apply append_full, Hf']. }
  destruct (has (chain_flags ch) EVBUFFER_IMMUTABLE) eqn:Himm; cbn [negb] in R.
  - by apply (add_new_chain_neat buf i ch data 0 r buf' W HN Hi Hch Hle); [lia | left | |].
  - destruct (if (0 <=? misalign ch) && _ then _ else _) eqn:Eg in R; [|done]. cbn [mbind option_bind] in R. cbv zeta in R. case_if_in R; [injection R as _ <-; by apply Hput|]. case_if_in R.
    + destruct (evbuffer_chain_align ch) as [ch'|] eqn:Ea; [|done]. cbn [mbind option_bind] in R. injection R as _ <-.
      destruct (align_roomy _ _ H1 Hr Ea). by apply Hput.
    + apply (add_new_chain_neat buf i ch data (buffer_len ch - misalign ch - off ch) r buf' W HN Hi Hch Hle); [lia | right; split; [done | lia] | done | done].
Qed.

Lemma add_neat buf data r buf' : evbuffer_wf buf -> neat buf -> evbuffer_add mm buf data = Some (r, buf') -> neat buf'.
Proof.
  intros W HN R. unfold evbuffer_add in R. cbv zeta in R. case_if_in R; [by injection R as _ <-|]. case_if_in R; [by injection R as _ <-|].
  pose proof (zlen_nonneg data). assert (Hm : total_len buf + zlen data <= EV_SIZE_MAX) by lia.
  destruct (last_with_data buf) as [ch|] eqn:Hl.
  - cbn [mbind option_bind] in R. apply (add_at_neat buf (last_with_datap buf) ch data r); [done | done | exact Hl | lia | done | exact R].
  - destruct (ew_lwd _ W) as [_ [HL|[Hn Hk]]]; [unfold last_with_data in Hl; apply lookup_lt_is_Some_2 in HL as [? HL]; congruence|].
    rewrite Hn in R. cbn [last] in R. destruct (evbuffer_chain_new mm (zlen data)) as [ch|] eqn:En; [|by injection R as _ <-].
    destruct (chain_new_ok mm _ _ ltac:(done) En) as (Hc & Hd & _). assert (Hoff : off ch = 0) by (unfold off; by rewrite Hd).
    destruct (chain_insert_ok buf ch W Hc) as (buf1 & E1 & W1 & _ & _ & H1); [rewrite Hoff; pose proof (total_range _ W); lia|].
    rewrite E1 in R. cbn [mbind option_bind] in R. destruct (H1 Hn) as [Hc1 Hk1].
    destruct (chain_insert_frame _ _ _ E1) as (_ & _ & _ & _ & _ & _ & Ht).
    apply (add_at_neat buf1 0 ch data r); [done | | by rewrite Hc1 | lia | | done].
    + apply (chain_insert_neat buf ch); try done. by apply (chain_new_roomy (zlen data)).
    + rewrite Ht, Hoff, Z.add_0_r, u64_small by (pose proof (total_range _ W); unfold EV_SIZE_MAX in *; lia). done.
Qed.

(** Removing from the front. *)
Lemma neat_tail ch l k : neat_at (ch :: l) k -> neat_at l (pred k).
Proof. intros [H1 H2%Forall_cons]. split; [|apply H2]. destruct k; [by rewrite take_0|]. cbn in *. by apply Forall_cons in H1 as [_ ?]. Qed.
Lemma neat_head ch ch' l k : neat_at (ch :: l) k -> full ch' -> neat_at (ch' :: l) k.
Proof.
  intros HN Hf. apply (neat_insert _ _ 0 ch ch' HN); [done | by apply full_roomy | done].
Qed.
Lemma drain_loop_neat l rem k l' rem' k' : Forall chain_ok l -> neat_at l k -> drain_loop l rem k = Some (l', rem', k') -> neat_at l' k'.
Proof.
  revert rem k. induction l as [|ch l IH]; intros rem k HF HN R; [done|]. apply Forall_cons in HF as [Hc HF]. cbn [drain_loop] in R.
  case_if_in R; [|by injection R as <- _ <-]. rewrite (unpinned_r _ Hc) in R. by apply (IH _ _ HF (neat_tail _ _ _ HN) R).
Qed.
Lemma drain_neat buf n r buf' : evbuffer_wf buf -> neat buf -> 0 <= n -> evbuffer_drain buf n = Some (r, buf') -> neat buf'.
Proof.
  intros W HN Hn R. unfold evbuffer_drain in R. cbv zeta in R. case_if_in R; [by injection R as _ <-|]. case_if_in R; [by injection R as _ <-|].
  case_if_in R. { injection R as _ <-. apply neat_invoke. apply neat_nil. }
  destruct (drain_loop _ _ _) as [[[l rem] k]|] eqn:E2; [|done]. cbn [mbind option_bind] in R.
  pose proof (drain_loop_neat _ _ _ _ _ _ (ew_chains _ W) HN E2) as HN2. destruct l as [|ch l]; [done|]. case_if_in R; [|done]. injection R as _ <-.
  apply neat_invoke. unfold neat. cbn [chains last_with_datap].
  assert (Hr : 0 <= rem < off ch).
  { rewrite (no_pinned_r _ W), andb_true_r in E1. replace (if total_len buf <=? n then _ else _) with n in E2 by (case_if; lia).
    destruct (drain_loop_ok (chains buf) n (last_with_datap buf)) as (ch0 & l0 & rem0 & k0 & R0 & Hr0 & _); [apply W | apply W | | ].
    { rewrite (ew_total _ W) in *. unfold bytes_of in *. lia. }
    rewrite E2 in R0. injection R0 as <- <- <- <-. lia. }
  apply (neat_head ch); [done|]. by apply skip_full.
Qed.
Lemma remove_neat buf n m data buf' : evbuffer_wf buf -> neat buf -> evbuffer_remove buf n = Some (m, data, buf') -> neat buf'.
Proof.
  intros W HN R. unfold evbuffer_remove in R. destruct (evbuffer_copyout buf n) as [[k d]|]; [|done]. cbn [mbind option_bind] in R.
  case_if_in R; [|by injection R as _ _ <-]. destruct (evbuffer_drain buf k) as [[r b]|] eqn:Ed; [|done]. cbn [mbind option_bind] in R. injection R as _ _ <-.
  eapply drain_neat; [done | done | | exact Ed]. lia.
Qed.

(** Pulling data into the first chain. *)
Lemma neat_skip pre l k : neat_at (pre ++ l) k -> neat_at l (k - length pre).
Proof.
  intros [H1 H2]. apply Forall_app in H2 as [_ H2]. split; [|done]. rewrite take_app in H1. by apply Forall_app in H1 as [_ ?].
Qed.
Lemma neat_cons tmp l k : full tmp -> neat_at l (pred k) -> neat_at (tmp :: l) k.
Proof. intros Hf [H1 H2]. split; [destruct k; [done | by constructor] | constructor; [by apply full_roomy | done]]. Qed.
Lemma neat_less l j k : neat_at l k -> (j <= k)%nat -> neat_at l j.
Proof.
  intros [H1 H2] Hj. split; [|done]. replace j with (Nat.min j k) by lia. rewrite <- take_take. by apply Forall_take.
Qed.
Lemma pullup_into_neat buf tmp pre l size tmp' rest' : neat buf -> chains buf = pre ++ l -> (length pre <= 1)%nat -> 0 <= size <= zlen (content l) ->
  chains (pullup_into buf tmp l (length pre) size) = tmp' :: rest' -> full tmp' -> neat (pullup_into buf tmp l (length pre) size).
Proof.
  intros HN Hcs Hpre Hs Hc Hf. unfold neat. rewrite Hc. revert Hc. unfold neat in HN. rewrite Hcs in HN. unfold pullup_into.
  destruct (pullup_loop_ok mm l size Hs) as (taken & rest & -> & -> & Hn & Hm). set (n := size - zlen (content taken)) in *.
  replace (length (taken ++ rest) - length rest)%nat with (length taken) by (rewrite length_app; lia).
  apply neat_skip in HN as HN1. apply neat_skip in HN1. set (k := length pre) in *. set (lwd := last_with_datap buf) in *. set (m := length taken) in *.
  assert (Hrest : forall j, (j <= lwd - k - m)%nat -> neat_at (match rest with [] => [] | ch :: rest => {| ch with misalign := misalign ch + n; chain_data := zdrop n (chain_data ch) |} :: rest end) j).
  { intros j Hj. eapply neat_less; [|exact Hj]. destruct rest as [|ch l]; [apply neat_nil|]. apply (neat_head ch); [done | by apply skip_full]. }
  destruct rest as [|ch l]; cbn [chains last_with_datap]; intros [= <- <-]; (apply neat_cons; [done|]); cbn [mbind option_bind]; apply Hrest.
  all: destruct (Nat.leb_spec k lwd), (Nat.ltb_spec lwd (k + m)), (Nat.leb_spec (S k) lwd), (Nat.ltb_spec lwd (S (k + m))), (Nat.eqb_spec lwd 0); cbn [andb]; try case_if; cbn [pred]; lia.
Qed.
Lemma pullup_neat buf n p buf' : evbuffer_wf buf -> neat buf -> 0 <= n -> evbuffer_pullup mm buf n = Some (p, buf') -> neat buf'.
Proof.
  intros W HN Hn0 R. destruct (pullup_ok mm buf n W) as (p0 & b0 & R0 & _ & _ & Hp). rewrite R in R0. injection R0 as <- <-.
  replace (if n <? 0 then total_len buf else n) with n in Hp by (case_if; lia). unfold evbuffer_pullup in R. cbv zeta in R.
  replace (if n <? 0 then total_len buf else n) with n in R by (case_if; lia). case_if_in R; [by injection R as _ <-|]. rewrite (ew_total _ W) in E.
  pose proof (ew_chains _ W) as HF. unfold bytes_of in E. destruct (chains buf) as [|ch l] eqn:Hcs; [done|]. rewrite content_cons, zlen_app in E. fold (off ch) in E.
  pose proof (zlen_nonneg (chain_data ch)) as Hoff. fold (off ch) in Hoff. apply Forall_cons in HF as [Hc HF].
  case_if_in R; [by injection R as _ <-|]. rewrite (pullup_pinned_ok _ _ HF) in R. unfold CHAIN_PINNED in R. rewrite (ck_unpinned _ Hc) in R.
  assert (Hfin : forall tmp pre l0 sz, chains buf = pre ++ l0 -> (length pre <= 1)%nat -> 0 <= sz <= zlen (content l0) ->
    match chains (pullup_into buf tmp l0 (length pre) sz) with [] => None | t :: _ => Some (Some (chain_data t), pullup_into buf tmp l0 (length pre) sz) end = Some (p, buf') -> neat buf').
  { intros tmp pre l0 sz Hl Hk Hsz Hr. destruct (chains (pullup_into buf tmp l0 (length pre) sz)) as [|t rest] eqn:Ec; [done|]. injection Hr as <- <-.
    apply (pullup_into_neat buf tmp pre l0 sz t rest HN Hl Hk Hsz Ec). intros Hd. destruct Hp as (_ & Hlen & _). rewrite Hd in Hlen. change (zlen []) with 0 in Hlen. lia. }
  case_if_in R; [apply (Hfin ch [ch] l (n - off ch)); (done || (cbn; lia) || lia)|].
  destruct (evbuffer_chain_new mm n) as [tmp|]; [|by injection R as _ <-].
  apply (Hfin tmp [] (ch :: l) n); [done | cbn; lia | rewrite content_cons, zlen_app; fold (off ch); lia | done].
Qed.

(** Room for more data: the chain is the last one with data, or follows it. *)
Definition behind buf (r : option nat) : Prop :=
  match r with
  | Some i => i = last_with_datap buf \/ exists ch, chains buf !! last_with_datap buf = Some ch /\ full ch
  | None => True
  end.
Lemma insert_new_neat buf datlen r buf' : evbuffer_wf buf -> neat buf -> 0 <= datlen ->
  (r ← evbuffer_chain_insert_new mm buf datlen;
   match r with
   | None => Some (None, buf)
   | Some buf => match chains buf !! pred (length (chains buf)) with
                 | Some ch => if datlen <=? CHAIN_SPACE_LEN ch then Some (Some (pred (length (chains buf))), buf) else None
                 | None => None
                 end
   end) = Some (r, buf') -> neat buf' /\ behind buf' r.
Proof.
  intros W HN Hd R. unfold evbuffer_chain_insert_new in R. destruct (evbuffer_chain_new mm datlen) as [ch|] eqn:En.
  2: { cbn [mbind option_bind] in R. by injection R as <- <-. }
  pose proof (chain_new_roomy _ _ Hd En) as Hr. destruct (chain_new_ok mm _ _ Hd En) as (_ & Hdt & _).
  destruct (evbuffer_chain_insert buf ch) as [buf1|] eqn:Ei; cbn [mbind option_bind] in R; [|done].
  pose proof (chain_insert_neat _ _ _ W HN Hr Ei) as HN1.
  destruct (chains buf1 !! pred (length (chains buf1))); [|done]. case_if_in R; [|done]. injection R as <- <-. split; [done|].
  unfold evbuffer_chain_insert in Ei. destruct (last_with_data buf).
  - destruct (evbuffer_free_trailing_empty_chains buf) as [[mid i]|] eqn:Ef; [|done]. cbn [mbind option_bind] in Ei. injection Ei as <-.
    destruct (free_trailing_ok buf W) as (j & Ej & _ & _ & Hj). destruct (free_trailing_neat _ _ _ W HN Ef) as (Hc & Hl & Hi & [Hat _]).
    rewrite Ef in Ej. injection Ej as _ ->. unfold behind. cbn [chains last_with_datap]. unfold off. rewrite Hdt. cbn iota. rewrite Hc, Hl.
    rewrite length_app, length_take. change (c_true (zlen [])) with false. cbn iota. cbn [length].
    destruct (Nat.eq_dec j (last_with_datap buf)) as [->|Hne]; [left; lia | right]. replace j with (S (last_with_datap buf)) in * by lia.
    destruct (lookup_lt_is_Some_2 (chains buf) (last_with_datap buf)) as [c Hk]; [lia|]. exists c.
    assert (Hk' : take (S (last_with_datap buf)) (chains buf) !! last_with_datap buf = Some c) by (apply lookup_take_Some; split; [done | lia]).
    split; [by apply lookup_app_l_Some|]. rewrite take_take, Nat.min_id, Forall_lookup in Hat. by apply (Hat _ _ Hk').
  - destruct (chains buf); [|done]. injection Ei as <-. by left.
Qed.

Lemma expand_neat buf datlen r buf' : evbuffer_wf buf -> neat buf -> 0 <= datlen ->
  evbuffer_expand_singlechain mm buf datlen = Some (r, buf') -> neat buf' /\ behind buf' r.
Proof.
  intros W HN Hd R. unfold evbuffer_expand_singlechain in R. cbv zeta in R. set (i := match last_with_data buf with Some _ => _ | None => _ end) in R.
  assert (Hi : behind buf (Some i)).
  { unfold behind, i. destruct (last_with_data buf) as [c|] eqn:Hl; [|by left]. case_if; [right | by left]. exists c. split; [done|].
    intros Hn. pose proof (neat_chain _ _ _ HN Hl Hn). lia. }
  destruct (chains buf !! i) as [ch|] eqn:Hch; [|by apply (insert_new_neat _ _ _ _ W HN Hd R)].
  case_if_in R; [by apply (insert_new_neat _ _ _ _ W HN Hd R)|]. case_if_in R; [by injection R as <- <-|].
  case_if_in R; [by apply (insert_new_neat _ _ _ _ W HN Hd R)|].
  assert (Hf : full ch) by (intros Hn; unfold off in E1; by rewrite Hn in E1).
  assert (Hset : forall ch' room, full ch' -> (if datlen <=? room then Some (Some i, set_chain buf i ch') else None) = Some (r, buf') -> neat buf' /\ behind buf' r).
  { intros ch' room Hf' R'. case_if_in R'; [|done]. injection R' as <- <-. split; [apply (set_chain_neat buf i ch); [done | done | by apply full_roomy | done]|].
    unfold behind. cbn [chains last_with_datap set_chain]. destruct Hi as [|(c & Hc & Hfc)]; [by left | right].
    destruct (Nat.eq_dec i (last_with_datap buf)) as [He|Hne].
    - exists ch'. split; [|done]. rewrite He. apply list_lookup_insert_eq. by apply lookup_lt_Some in Hc.
    - exists c. by rewrite list_lookup_insert_ne. }
  assert (Hup : forall ch', chains (set_chain buf i ch') !! i = Some ch').
  { intros ch'. cbn. apply list_lookup_insert_eq. by apply lookup_lt_Some in Hch. }
  case_if_in R.
  - destruct (evbuffer_chain_align ch) as [ch'|] eqn:Ea; [|done]. cbn [mbind option_bind] in R. rewrite Hup in R.
    pose proof (wf_chain _ _ _ W Hch) as [Hm _ _ _ _]. destruct (align_roomy _ _ Hm (neat_chain _ _ _ HN Hch) Ea) as [_ Hfa]. by apply (Hset ch' _ (Hfa Hf) R).
  - case_if_in R.
    + destruct (chains buf !! S i) as [nx|] eqn:Hnx; [|by apply (insert_new_neat _ _ _ _ W HN Hd R)].
      case_if_in R; [|by apply (insert_new_neat _ _ _ _ W HN Hd R)]. injection R as <- <-. split; [done|].
      destruct Hi as [Hi|(c & Hc & Hfc)]; right; [exists ch; by rewrite <- Hi | by exists c].
    + destruct (evbuffer_chain_new mm (off ch + datlen)) as [tmp|] eqn:En; [|by injection R as <- <-]. rewrite Hup in R.
      apply (Hset (chain_append tmp (chain_data ch)) _ ltac:(intros Hn; cbn in Hn; apply app_eq_nil in Hn as [_ Hn]; by apply Hf) R).
Qed.

(** ** Text. *)
Lemma put_text_neat buf i ch text : evbuffer_wf buf -> neat buf -> behind buf (Some i) -> chains buf !! i = Some ch ->
  (last_with_datap buf <= i <= S (last_with_datap buf))%nat ->
  neat (evbuffer_invoke_callbacks_ (advance_last_with_data (added (set_chain buf i (chain_append ch text)) (zlen text)))).
Proof.
  intros W HN Hb Hi Hl. apply neat_invoke. rewrite (advance_ok buf _ i ch (chain_append ch text)) by done.
  pose proof (set_chain_neat buf i ch (chain_append ch text) HN Hi (append_roomy _ _ (neat_chain _ _ _ HN Hi)) (append_full _ _)) as HS.
  unfold neat. cbn [chains last_with_datap added set_chain]. case_if; [|exact HS].
  destruct (Nat.eq_dec i (last_with_datap buf)) as [->|Hne]; [exact HS|]. destruct Hb as [|(c & Hc & Hf)]; [done|].
  assert (Hs : i = S (last_with_datap buf)) by lia. rewrite Hs. rewrite Hs in HS. apply (neat_next _ _ c); [exact HS | by rewrite list_lookup_insert_ne by lia | done].
Qed.
Lemma printf_loop_neat tries : forall buf i text r buf', evbuffer_wf buf -> neat buf -> behind buf (Some i) ->
  (last_with_datap buf <= i <= S (last_with_datap buf))%nat -> printf_loop mm tries buf i text = Some (r, buf') -> neat buf'.
Proof.
  induction tries as [|tries IH]; intros buf i text r buf' W HN Hb Hl R; [done|]. cbn [printf_loop] in R. pose proof (zlen_nonneg text).
  destruct (chains buf !! i) as [ch|] eqn:Hi; [|done]. cbn [mbind option_bind] in R. case_if_in R; [by injection R as _ <-|].
  case_if_in R; [injection R as _ <-; by apply put_text_neat|].
  destruct (expand_ok mm buf (zlen text + 1) W ltac:(lia)) as (r1 & buf1 & Re & W1 & _ & Hr). rewrite Re in R. cbn [mbind option_bind] in R.
  destruct (expand_neat _ (zlen text + 1) _ _ W HN ltac:(lia) Re) as [HN1 Hb1]. destruct r1 as [j|]; [|by injection R as _ <-].
  destruct Hr as (c & Hc & _ & Hj). by apply (IH buf1 j text r buf').
Qed.
Lemma printf_neat buf text r buf' : evbuffer_wf buf -> neat buf -> evbuffer_add_printf mm buf text = Some (r, buf') -> neat buf'.
Proof.
  intros W HN R. unfold evbuffer_add_printf, evbuffer_add_vprintf in R. case_if_in R; [by injection R as _ <-|].
  destruct (expand_ok mm buf 64 W ltac:(lia)) as (r1 & buf1 & Re & W1 & _ & Hr). rewrite Re in R. cbn [mbind option_bind] in R.
  destruct (expand_neat _ 64 _ _ W HN ltac:(lia) Re) as [HN1 Hb1]. destruct r1 as [j|]; [|by injection R as _ <-].
  destruct Hr as (c & Hc & _ & Hj). by apply (printf_loop_neat 2 buf1 j text r buf').
Qed.

(** ** Moving between buffers. *)
Lemma append_chains_neat l l' i k : neat_at l i -> i = length l -> neat_at l' k -> neat_at (l ++ l') (i + k).
Proof.
  intros [H1 H2] -> [H3 H4]. split; [|by apply Forall_app]. rewrite take_app_add. apply Forall_app. split; [|done]. by rewrite firstn_all in H1.
Qed.
Lemma add_buffer_neat buf src r buf' src' : evbuffer_wf buf -> evbuffer_wf src -> neat buf -> neat src ->
  evbuffer_add_buffer buf src = Some (r, buf', src') -> neat buf' /\ neat src'.
Proof.
  intros W Ws HN HNs R. unfold evbuffer_add_buffer in R. cbv zeta in R. case_if_in R; [by injection R as _ <- <-|]. case_if_in R; [by injection R as _ <- <-|].
  destruct (PRESERVE_PINNED src) as [[]|]; [|done]. cbn [mbind option_bind] in R.
  assert (HZ : forall n, neat (evbuffer_invoke_callbacks_ {| (RESTORE_PINNED src) with n_del_for_cb := n |})) by (intros n; apply neat_invoke, neat_nil).
  case_if_in R; cbn [mbind option_bind] in R.
  - injection R as _ <- <-. split; [|apply HZ]. by apply neat_invoke.
  - unfold APPEND_CHAIN in R. destruct (evbuffer_free_trailing_empty_chains buf) as [[mid i]|] eqn:Ef; [|done]. cbn [mbind option_bind] in R.
    injection R as _ <- <-. split; [|apply HZ]. apply neat_invoke. destruct (free_trailing_neat _ _ _ W HN Ef) as (Hc & _ & Hi & Hat).
    unfold neat. cbn [chains last_with_datap]. rewrite Hc. apply append_chains_neat; [done | rewrite length_take; lia | done].
Qed.

Lemma data_prefix_full l : Forall full (take (data_prefix l) l).
Proof. induction l as [|ch l IH]; [done|]. cbn [data_prefix]. destruct (c_true (off ch)) eqn:E; [|done]. constructor; [by apply off_true | done]. Qed.
Lemma advance_neat mid : neat mid -> (forall ch, chains mid !! last_with_datap mid = Some ch -> full ch) -> neat (advance_last_with_data mid).
Proof.
  intros HN Hf. unfold advance_last_with_data. destruct (last_with_data mid) as [ch|] eqn:Hl; [|done]. unfold neat in *. cbn [chains last_with_datap].
  set (k := last_with_datap mid) in *. set (n := data_prefix _). destruct (neat_next _ _ ch HN Hl (Hf _ Hl)) as [H1 H2].
  apply (neat_less _ _ (S k + n)); [|lia]. split; [|done]. rewrite <- (take_drop (S k) (chains mid)). apply lookup_lt_Some in Hl as Hlt. fold k in Hlt.
  assert (Hlen : length (take (S k) (chains mid)) = S k) by (rewrite length_take; lia). rewrite <- Hlen at 1. rewrite take_app_add. apply Forall_app. split; [done|].
  apply data_prefix_full.
Qed.
(** The chains taken over by [evbuffer_remove_buffer]. *)
Lemma take_over_neat dst taken mid i : evbuffer_wf dst -> neat dst -> taken <> [] -> Forall full taken ->
  evbuffer_free_trailing_empty_chains dst = Some (mid, i) -> neat (advance_last_with_data {| mid with chains := chains mid ++ taken |}).
Proof.
  intros W HN Hne Ht Ef. destruct (free_trailing_neat _ _ _ W HN Ef) as (Hc & Hl & Hi & Hat). destruct (free_trailing_ok dst W) as (j & Ej & _ & _ & Hj).
  rewrite Ef in Ej. injection Ej as _ <-. assert (Hlen : length (take i (chains dst)) = i) by (rewrite length_take; lia).
  assert (Hall : neat_at (take i (chains dst) ++ taken) i).
  { apply neat_app; [done | lia|]. eapply Forall_impl; [exact Ht | apply full_roomy]. }
  apply advance_neat; unfold neat; cbn [chains last_with_datap]; rewrite Hc, Hl; [apply (neat_less _ _ i Hall); lia|].
  intros ch Hk. destruct Hat as [Hat _]. rewrite take_take, Nat.min_id in Hat. assert (Hf : Forall full (take i (chains dst) ++ taken)) by (by apply Forall_app).
  by eapply Forall_lookup_1.
Qed.

Lemma remove_buffer_neat src dst n r src' dst' : evbuffer_wf src -> evbuffer_wf dst -> neat src -> neat dst -> 0 <= n ->
  total_len src + total_len dst <= EV_SIZE_MAX ->
  evbuffer_remove_buffer mm src dst n = Some (r, src', dst') -> neat src' /\ neat dst'.
Proof.
  intros Ws Wd HNs HNd Hn Hmax R. unfold evbuffer_remove_buffer in R. case_if_in R; [by injection R as _ <- <-|]. case_if_in R; [by injection R as _ <- <-|].
  case_if_in R.
  { destruct (evbuffer_add_buffer dst src) as [[[? d] s]|] eqn:Ea; [|done]. cbn [mbind option_bind] in R. injection R as _ <- <-.
    by destruct (add_buffer_neat _ _ _ _ _ Wd Ws HNd HNs Ea). }
  rewrite (ew_total _ Ws) in E1, Hmax. pose proof (total_range _ Wd).
  destruct (take_chains_ok (chains src) n (last_with_datap src)) as (taken & ch & rest & lwd & Et & Hcs & Hd & Hall & Hk & Hnil); [apply Ws | unfold bytes_of in E1; lia | apply HNs|].
  rewrite Et in R. cbn [mbind option_bind] in R. cbv zeta in R. rewrite chains_len_content in R.
  assert (Hbs : zlen (bytes_of src) = zlen (content taken) + off ch + zlen (content rest)) by (unfold bytes_of; rewrite Hcs, content_app, content_cons, !zlen_app; unfold off; lia).
  pose proof (zlen_nonneg (content rest)). pose proof (zlen_nonneg (content taken)).
  set (d := n - zlen (content taken)) in *. set (ch' := {| ch with misalign := misalign ch + d; chain_data := zdrop d (chain_data ch) |}) in *.
  assert (Hfull : full ch') by (by apply skip_full). unfold neat in HNs. rewrite Hcs in HNs. pose proof (neat_skip _ _ _ HNs) as HNr. rewrite Hk in HNr.
  replace (length taken + default 0%nat lwd - length taken)%nat with (default 0%nat lwd) in HNr by lia. apply (neat_head _ ch') in HNr; [|done].
  assert (Hdst : forall dst1 dst2 x data, evbuffer_wf dst1 -> neat dst1 -> evbuffer_add mm dst1 data = Some (x, dst2) -> neat dst2) by (intros; by eapply add_neat).
  destruct taken as [|c0 taken].
  - rewrite (Hnil eq_refl) in *. change (zlen (content [])) with 0 in *. change (c_true 0) with false in R. cbn [mbind option_bind chains length Nat.add] in R.
    rewrite Hcs in R. cbn [app lookup list_lookup mbind option_bind] in R. destruct (evbuffer_add mm dst _) as [[x dst2]|] eqn:Ea; [|done]. cbn [mbind option_bind] in R.
    pose proof (Hdst _ _ _ _ Wd HNd Ea) as HN2. assert (HN1 : neat_at (ch' :: rest) (last_with_datap src)) by done.
    case_if_in R; injection R as _ <- <-; (split; [|try apply neat_invoke; exact HN2]); try apply neat_invoke; unfold neat; cbn [chains last_with_datap set_chain]; try rewrite Hcs; exact HN1.
  - set (l := c0 :: taken) in *. assert (Hpos : c_true (zlen (content l)) = true).
    { apply Forall_cons in Hall as [Hc _]. unfold c_true, l. rewrite content_cons, zlen_app. apply negb_true_iff, Z.eqb_neq. intros Hz.
      apply Hc, zlen_nil. pose proof (zlen_nonneg (chain_data c0)). pose proof (zlen_nonneg (content taken)). lia. }
    rewrite Hpos in R. pose proof (ew_chains _ Ws) as HF. rewrite Hcs in HF. apply Forall_app in HF as [HF _].
    destruct (take_over_ok dst l Wd HF ltac:(done) Hall) as (mid & i & Ef & Wm & _); [lia|]. rewrite Ef in R. cbn [mbind option_bind] in R.
    cbn [chains lookup list_lookup mbind option_bind] in R. destruct (evbuffer_add mm _ _) as [[x dst2]|] eqn:Ea; [|done]. cbn [mbind option_bind] in R.
    assert (HN2 : neat dst2).
    { refine (Hdst _ _ _ _ Wm _ Ea). eapply neat_frame; [..|apply (take_over_neat dst l mid i)]; done. }
    case_if_in R; injection R as _ <- <-; (split; [|try apply neat_invoke; exact HN2]); try apply neat_invoke; unfold neat; cbn [chains last_with_datap set_chain]; exact HNr.
Qed.

Lemma readln_neat buf style line buf' : evbuffer_wf buf -> neat buf -> total_len buf <= INT_MAX -> evbuffer_readln mm buf style = Some (line, buf') -> neat buf'.
Proof.
  intros W HN Hmax R. pose proof (ew_total _ W) as Ht. unfold evbuffer_readln in R. case_if_in R; [by injection R as _ <-|].
  destruct (search_eol_ok buf None style Ht) as (it & m & Rs & HE); [unfold INT_MAX, EV_SSIZE_MAX in *; lia | done|]. rewrite Rs in R.
  cbn [mbind option_bind start_pos] in *. case_if_in R; [by injection R as _ <-|]. case_if_in R; [|by injection R as _ <-].
  destruct (evbuffer_remove buf (ptr_pos it)) as [[[x l] buf1]|] eqn:R1; [|done]. cbn [mbind option_bind] in R.
  destruct (evbuffer_drain buf1 m) as [[y buf2]|] eqn:R2; [|done]. cbn [mbind option_bind] in R. injection R as _ <-.
  destruct (remove_ok buf (ptr_pos it) W) as (b1 & W1 & HR); [lia | lia|]. rewrite E in HR. cbn [andb] in HR. destruct HR as [HR _]. rewrite R1 in HR. injection HR as _ _ <-.
  rewrite zdrop_0 in HE. destruct (eol_of style (bytes_of buf)) as [[n k]|] eqn:EO; [|destruct HE as [-> _]; done].
  destruct HE as (_ & _ & ->). destruct (eol_of_range _ _ _ _ EO) as (_ & Hk & _).
  apply (drain_neat buf1 k y buf2 W1); [by apply (remove_neat _ _ _ _ _ W HN R1) | lia | done].
Qed.
End Neat.

(** The check of a concrete buffer. *)
Definition neatb (buf : evbuffer) : bool :=
  forallb (fun ch => c_true (off ch)) (take (last_with_datap buf) (chains buf)) &&
  forallb (fun ch => c_true (off ch) || (0 <? CHAIN_SPACE_LEN ch)) (chains buf).
Lemma neatb_ok buf : neatb buf = true -> neat buf.
Proof.
  unfold neatb, neat, neat_at. rewrite andb_true_iff, !forallb_forall, !Forall_forall. intros [H1 H2]. split; intros ch Hc%list_elem_of_In.
  - by apply off_true, H1.
  - specialize (H2 _ Hc). intros Hd. apply off_false in Hd. rewrite Hd in H2. cbn [orb] in H2. lia.
Qed.
