(* ===== verification/BufferQueue.v ===== *)
(** * A buffer implements a queue of bytes

    The abstract queue, its operations as a transition relation, and the
    refinement: each operation of an evbuffer, and each sequence of them, is one
    of the queue.  A buffer may refuse to grow for want of memory, and then
    (but for [evbuffer_prepend]) nothing changes. *)
From S2P Require Import Prelude Event Buffer BufferInv BufferOps BufferPullup BufferSearch BufferLines BufferFind.

(** ** The abstract queue. *)
Record queue := Queue { q_bytes : list byte; q_frozen_start : bool; q_frozen_end : bool }.

Inductive evbuffer_op :=
  | OpAdd (data : list byte)
  | OpPrepend (data : list byte)
  | OpPrintf (text : list byte)
  | OpDrain (len : Z)
  | OpRemove (len : Z)
  | OpCopyout (len : Z)
  | OpReadln (style : evbuffer_eol_style)
  | OpPullup (size : Z)
  | OpExpand (len : Z)
  | OpReference (data : list byte)
  | OpFreeze (start : bool)
  | OpUnfreeze (start : bool).

Section Queue.
Context (mm : Z -> bool).
Implicit Types (q : queue) (buf : evbuffer).

(** Some allocation fails. *)
Definition no_memory : Prop := exists n, mm n = false.

(** What an operation may return, the bytes it may hand out and the queue it
    may leave. *)
Inductive queue_step q : evbuffer_op -> Z -> list byte -> queue -> Prop :=
  | QAdd data : q_frozen_end q = false ->
      queue_step q (OpAdd data) 0 [] {| q with q_bytes := q_bytes q ++ data |}
  | QAddFails data : q_frozen_end q = true \/ no_memory -> queue_step q (OpAdd data) (-1) [] q
  | QPrintf text : q_frozen_end q = false ->
      queue_step q (OpPrintf text) (zlen text) [] {| q with q_bytes := q_bytes q ++ text |}
  | QPrintfFails text : q_frozen_end q = true \/ no_memory -> queue_step q (OpPrintf text) (-1) [] q
  | QPrepend data : q_frozen_start q = false ->
      queue_step q (OpPrepend data) 0 [] {| q with q_bytes := data ++ q_bytes q |}
  | QPrependFails data n : q_frozen_start q = true /\ n = zlen data \/ no_memory /\ 0 <= n <= zlen data ->
      queue_step q (OpPrepend data) (-1) [] {| q with q_bytes := zdrop n data ++ q_bytes q |}
  | QDrain n : q_frozen_start q = false \/ q_bytes q = [] ->
      queue_step q (OpDrain n) 0 [] {| q with q_bytes := zdrop n (q_bytes q) |}
  | QDrainFails n : q_frozen_start q = true -> q_bytes q <> [] -> queue_step q (OpDrain n) (-1) [] q
  | QRemove n : q_frozen_start q = false \/ q_bytes q = [] \/ n = 0 ->
      queue_step q (OpRemove n) (Z.min n (zlen (q_bytes q))) (ztake n (q_bytes q)) {| q with q_bytes := zdrop n (q_bytes q) |}
  | QRemoveFails n : q_frozen_start q = true -> q_bytes q <> [] -> n <> 0 -> queue_step q (OpRemove n) (-1) [] q
  | QCopyout n : q_frozen_start q = false \/ q_bytes q = [] \/ n = 0 ->
      queue_step q (OpCopyout n) (Z.min n (zlen (q_bytes q))) (ztake n (q_bytes q)) q
  | QCopyoutFails n : q_frozen_start q = true -> q_bytes q <> [] -> n <> 0 -> queue_step q (OpCopyout n) (-1) [] q
  | QReadln style n k : q_frozen_start q = false -> eol_of style (q_bytes q) = Some (n, k) ->
      queue_step q (OpReadln style) 0 (ztake n (q_bytes q)) {| q with q_bytes := zdrop (n + k) (q_bytes q) |}
  | QReadlnNone style : q_frozen_start q = true \/ eol_of style (q_bytes q) = None \/ no_memory -> queue_step q (OpReadln style) (-1) [] q
  | QPullup n : let m := if n <? 0 then zlen (q_bytes q) else n in
      0 < m <= zlen (q_bytes q) -> queue_step q (OpPullup n) 0 (ztake m (q_bytes q)) q
  | QPullupFails n : let m := if n <? 0 then zlen (q_bytes q) else n in
      m = 0 \/ zlen (q_bytes q) < m \/ no_memory -> queue_step q (OpPullup n) (-1) [] q
  | QExpand n : queue_step q (OpExpand n) 0 [] q
  | QExpandFails n : no_memory -> queue_step q (OpExpand n) (-1) [] q
  | QReference data : q_frozen_end q = false ->
      queue_step q (OpReference data) 0 [] {| q with q_bytes := q_bytes q ++ data |}
  | QReferenceFails data : q_frozen_end q = true \/ no_memory -> queue_step q (OpReference data) (-1) [] q
  | QFreeze b : queue_step q (OpFreeze b) 0 []
      (if b then {| q with q_frozen_start := true |} else {| q with q_frozen_end := true |})
  | QUnfreeze b : queue_step q (OpUnfreeze b) 0 []
      (if b then {| q with q_frozen_start := false |} else {| q with q_frozen_end := false |}).

Inductive queue_steps q : list evbuffer_op -> list (Z * list byte) -> queue -> Prop :=
  | QDone : queue_steps q [] [] q
  | QThen op ops r out outs q1 q2 : queue_step q op r out q1 -> queue_steps q1 ops outs q2 ->
      queue_steps q (op :: ops) ((r, out) :: outs) q2.

(** ** The operations of a buffer. *)
Definition run_op buf (op : evbuffer_op) : option (Z * list byte * evbuffer) :=
  match op with
  | OpAdd data => '(r, buf) ← evbuffer_add mm buf data; Some (r, [], buf)
  | OpPrintf text => '(r, buf) ← evbuffer_add_printf mm buf text; Some (r, [], buf)
  | OpPrepend data => '(r, buf) ← evbuffer_prepend mm buf data; Some (r, [], buf)
  | OpDrain n => '(r, buf) ← evbuffer_drain buf n; Some (r, [], buf)
  | OpRemove n => '(r, out, buf) ← evbuffer_remove buf n; Some (r, out, buf)
  | OpCopyout n => '(r, out) ← evbuffer_copyout buf n; Some (r, out, buf)
  | OpReadln style =>
      '(line, buf) ← evbuffer_readln mm buf style;
      Some (match line with Some line => (0, line) | None => (-1, []) end, buf)
  | OpPullup n =>
      '(p, buf) ← evbuffer_pullup mm buf n;
      Some (match p with
            | Some bytes => (0, ztake (if n <? 0 then total_len buf else n) bytes)
            | None => (-1, [])
            end, buf)
  | OpExpand n => '(r, buf) ← evbuffer_expand mm buf n; Some (r, [], buf)
  | OpReference data => '(r, buf) ← evbuffer_add_reference mm buf data; Some (r, [], buf)
  | OpFreeze b => let '(r, buf) := evbuffer_freeze buf b in Some (r, [], buf)
  | OpUnfreeze b => let '(r, buf) := evbuffer_unfreeze buf b in Some (r, [], buf)
  end.
Fixpoint run_ops buf (ops : list evbuffer_op) : option (list (Z * list byte) * evbuffer) :=
  match ops with
  | [] => Some ([], buf)
  | op :: ops =>
      '(r, out, buf) ← run_op buf op;
      '(outs, buf) ← run_ops buf ops;
      Some ((r, out) :: outs, buf)
  end.

(** The queue a buffer stands for. *)
Definition queue_of buf : queue := Queue (bytes_of buf) (freeze_start buf) (freeze_end buf).

(** Lengths are not negative; [op_bytes] is what an operation may add. *)
Definition op_ok (op : evbuffer_op) : Prop :=
  match op with OpDrain n | OpRemove n | OpCopyout n => 0 <= n | OpExpand n => 0 <= n <= INT_MAX | _ => True end.
Definition op_bytes (op : evbuffer_op) : Z :=
  match op with OpAdd data | OpPrintf data | OpPrepend data | OpReference data => zlen data | _ => 0 end.
Definition ops_bytes (ops : list evbuffer_op) : Z := foldr (fun op n => op_bytes op + n) 0 ops.

(** ** The refinement. *)
Lemma fails n : n <= EVBUFFER_CHAIN_MAX - EVBUFFER_CHAIN_SIZE -> evbuffer_chain_new mm n = None -> no_memory.
Proof. intros Hn R. by apply (chain_new_none mm n). Qed.

Lemma queue_step_bytes q op r out q' : queue_step q op r out q' -> op_ok op -> zlen (q_bytes q') <= zlen (q_bytes q) + op_bytes op.
Proof.
  assert (Hdrop : forall n (l : list byte), zlen (zdrop n l) <= zlen l) by (intros; unfold zlen, zdrop; rewrite length_drop; lia).
  destruct 1; intros _; cbn [op_bytes q_bytes]; rewrite ?zlen_app; try (pose proof (zlen_nonneg data)); try (pose proof (zlen_nonneg text));
    repeat match goal with |- context [zlen (zdrop ?n ?l)] => pose proof (Hdrop n l); generalize dependent (zlen (zdrop n l)); intros end;
    try (destruct b; cbn [q_bytes]); lia.
Qed.

(** What an operation must establish. *)
Definition refined buf op : Prop :=
  exists r out buf', run_op buf op = Some (r, out, buf') /\ evbuffer_wf buf' /\ queue_step (queue_of buf) op r out (queue_of buf').

Lemma queue_of_notified buf buf' came went : notified buf buf' came went ->
  queue_of buf' = {| (queue_of buf) with q_bytes := bytes_of buf' |}.
Proof. intros [N1 N2 _ _ _]. unfold queue_of. cbn. by rewrite N1, N2. Qed.
Lemma queue_of_layout buf buf' : same_but_layout buf buf' -> queue_of buf' = queue_of buf.
Proof. intros (Hb & _ & H1 & H2 & _). unfold queue_of. by rewrite Hb, H1, H2. Qed.

Lemma refine_add buf data : evbuffer_wf buf -> total_len buf + zlen data <= INT_MAX -> refined buf (OpAdd data).
Proof.
  intros W Hb. destruct (buffer_add_ok mm buf 0 buf data (since_refl _ W) W) as (r & buf' & R & W' & HA).
  exists r, [], buf'. cbn [run_op]. rewrite R. split_and!; try done. destruct HA as [(-> & Hbs & Hn)|(-> & -> & Hwhy)].
  - rewrite (queue_of_notified _ _ _ _ Hn), Hbs. pose proof (nt_end _ _ _ _ Hn). apply QAdd. cbn.
    unfold evbuffer_add in R. by destruct (freeze_end buf).
  - apply QAddFails. unfold add_refused, INT_MAX, EV_SIZE_MAX in *. pose proof (total_range _ W).
    destruct Hwhy as [?|[?|(n & Hn & Hnb & Hnew)]]; [by left | lia | right]. apply (fails n); [|done].
    unfold EVBUFFER_CHAIN_MAX, EVBUFFER_CHAIN_SIZE, EV_SSIZE_MAX in *. lia.
Qed.

Lemma refine_printf buf text : evbuffer_wf buf -> total_len buf + zlen text <= INT_MAX -> refined buf (OpPrintf text).
Proof.
  intros W Hb. pose proof (total_range _ W). unfold INT_MAX, EV_SIZE_MAX in *.
  destruct (printf_ok mm buf text W ltac:(unfold EV_SIZE_MAX; lia)) as (r & buf' & R & W' & HA).
  exists r, [], buf'. cbn [run_op]. rewrite R. split_and!; try done. destruct HA as [(-> & Hbs & Hn)|(-> & HS & Hwhy)].
  - rewrite (queue_of_notified _ _ _ _ Hn), Hbs. apply QPrintf. cbn.
    unfold evbuffer_add_printf, evbuffer_add_vprintf in R. destruct (freeze_end buf); [|done]. pose proof (zlen_nonneg text). injection R as R _. lia.
  - rewrite (queue_of_layout _ _ HS). apply QPrintfFails.
    destruct Hwhy as [?|[Hbig|(n & Hnew & Hn)]]; [by left | unfold INT_MAX in *; lia | right]. apply (fails n); [|done].
    unfold MAX_TO_COPY_IN_EXPAND, EVBUFFER_CHAIN_MAX, EVBUFFER_CHAIN_SIZE, EV_SSIZE_MAX in *. lia.
Qed.

Lemma refine_prepend buf data : evbuffer_wf buf -> total_len buf + zlen data <= INT_MAX -> refined buf (OpPrepend data).
Proof.
  intros W Hb. destruct (prepend_ok mm buf data W) as (r & buf' & R & W' & HA).
  exists r, [], buf'. cbn [run_op]. rewrite R. split_and!; try done. pose proof (total_range _ W).
  unfold INT_MAX, EV_SIZE_MAX in *. destruct HA as [(-> & Hbs & Hn)|(-> & n & Hn & Hbs & Hcg & Hnew & Hwhy)].
  - rewrite (queue_of_notified _ _ _ _ Hn), Hbs. apply QPrepend. cbn. unfold evbuffer_prepend in R. by destruct (freeze_start buf).
  - assert (Hq : queue_of buf' = {| (queue_of buf) with q_bytes := zdrop n data ++ q_bytes (queue_of buf) |}).
    { destruct Hcg as [C1 C2 _ _ _ _]. unfold queue_of. cbn. by rewrite Hbs, C1, C2. }
    rewrite Hq. apply QPrependFails. destruct Hwhy as [Hf|[?|Hnone]]; [left | lia | right].
    + split; [done|]. unfold evbuffer_prepend in R. cbn in Hf. rewrite Hf in R. injection R as <-.
      destruct (decide (n = zlen data)) as [|Hne]; [done|]. exfalso. apply (f_equal zlen) in Hbs. rewrite zlen_app, zlen_zdrop in Hbs by done. lia.
    + split; [|done]. apply (fails n); [|done]. unfold EVBUFFER_CHAIN_MAX, EVBUFFER_CHAIN_SIZE, EV_SSIZE_MAX in *. lia.
Qed.

Lemma refine_drain buf n : evbuffer_wf buf -> 0 <= n -> refined buf (OpDrain n).
Proof.
  intros W Hn. destruct (buffer_drain_ok buf n W Hn) as (r & buf' & R & W' & HA).
  exists r, [], buf'. cbn [run_op]. rewrite R. split_and!; try done. destruct HA as [(-> & Hbs & Hnt)|(-> & -> & Hf & Hne)].
  - rewrite (queue_of_notified _ _ _ _ Hnt), Hbs. apply QDrain. cbn. unfold evbuffer_drain in R.
    destruct (freeze_start buf); [right | by left]. pose proof (ew_total _ W) as Ht. apply zlen_nil. rewrite <- Ht.
    destruct (Z.eqb_spec (total_len buf) 0); [done|]. by cbv iota in R.
  - by apply QDrainFails.
Qed.

(** A frozen start stops reading when there is something to read. *)
Lemma frozen_read buf n : evbuffer_wf buf -> 0 <= n ->
  if freeze_start buf && negb (Z.min n (total_len buf) =? 0)
  then freeze_start buf = true /\ bytes_of buf <> [] /\ n <> 0
  else freeze_start buf = false \/ bytes_of buf = [] \/ n = 0.
Proof.
  intros W Hn. rewrite (ew_total _ W). pose proof (zlen_nonneg (bytes_of buf)). pose proof (zlen_nil (bytes_of buf)) as Hnil.
  destruct (freeze_start buf); cbn [andb]; [|by left].
  destruct (Z.eqb_spec (Z.min n (zlen (bytes_of buf))) 0); cbn [negb]; [right | split; [done|]].
  - destruct (Z.eq_dec n 0); [by right | left]. apply Hnil. lia.
  - split; [|lia]. intros Hb%Hnil. lia.
Qed.

Lemma refine_remove buf n : evbuffer_wf buf -> 0 <= n -> total_len buf <= INT_MAX -> refined buf (OpRemove n).
Proof.
  intros W Hn Hm. destruct (remove_ok buf n W Hn ltac:(lia)) as (buf' & W' & HA). pose proof (frozen_read buf n W Hn) as HF.
  destruct (freeze_start buf && _).
  - destruct HA as [R ->], HF as (? & ? & ?). exists (-1), [], buf. cbn [run_op]. rewrite R. split_and!; try done. by apply QRemoveFails.
  - destruct HA as (R & Hb & Hnt). exists (Z.min n (total_len buf)), (ztake n (bytes_of buf)), buf'. cbn [run_op]. rewrite R.
    split_and!; try done. rewrite (queue_of_notified _ _ _ _ Hnt), Hb, (ew_total _ W). by apply QRemove.
Qed.

Lemma refine_copyout buf n : evbuffer_wf buf -> 0 <= n -> refined buf (OpCopyout n).
Proof.
  intros W Hn. pose proof (copyout_ok buf n W Hn) as R. pose proof (frozen_read buf n W Hn) as HF. unfold refined. cbn [run_op]. rewrite R.
  destruct (freeze_start buf && _); cbn [mbind option_bind]; eexists _, _, _; (split; [reflexivity|split; [done|]]).
  - destruct HF as (? & ? & ?). by apply QCopyoutFails.
  - rewrite (ew_total _ W). by apply QCopyout.
Qed.

Lemma refine_readln buf style : evbuffer_wf buf -> total_len buf <= INT_MAX -> refined buf (OpReadln style).
Proof.
  intros W Hm. destruct (readln_ok mm buf style W Hm) as (r & buf' & R & W' & HR). unfold refined. cbn [run_op]. rewrite R. cbn [mbind option_bind].
  destruct r as [line|]; eexists _, _, _; (split; [reflexivity|split; [done|]]).
  - destruct HR as (Hf & n & k & HE & -> & Hb & buf1 & N1 & N2).
    assert (queue_of buf' = {| (queue_of buf) with q_bytes := zdrop (n + k) (bytes_of buf) |}) as ->.
    { unfold queue_of. cbn. by rewrite Hb, (nt_start _ _ _ _ N2), (nt_end _ _ _ _ N2), (nt_start _ _ _ _ N1), (nt_end _ _ _ _ N1). }
    by apply QReadln.
  - destruct HR as [-> Hwhy]. by apply QReadlnNone.
Qed.

Lemma refine_pullup buf n : evbuffer_wf buf -> total_len buf <= INT_MAX -> refined buf (OpPullup n).
Proof.
  intros W Hm. destruct (pullup_ok mm buf n W) as (p & buf' & R & W' & HS & Hp). pose proof HS as (_ & Ht & _).
  unfold refined. cbn [run_op]. rewrite R. cbn [mbind option_bind]. rewrite Ht. rewrite (ew_total _ W) in *.
  set (m := if n <? 0 then zlen (bytes_of buf) else n) in *.
  destruct p as [bytes|]; eexists _, _, _; (split; [reflexivity|split; [done|]]); rewrite (queue_of_layout _ _ HS).
  - destruct Hp as (Hr & Hlen & ->). by apply QPullup.
  - destruct Hp as [-> Hwhy]. apply QPullupFails. change (m = 0 \/ zlen (bytes_of buf) < m \/ no_memory).
    destruct Hwhy as [|[|Hnone]]; [by left | by right; left |].
    destruct (Z.le_gt_cases m (zlen (bytes_of buf))) as [Hle|]; [right; right | by right; left].
    apply (fails m); [|done]. unfold INT_MAX, EVBUFFER_CHAIN_MAX, EVBUFFER_CHAIN_SIZE, EV_SSIZE_MAX in *. lia.
Qed.

Lemma refine_expand buf n : evbuffer_wf buf -> 0 <= n <= INT_MAX -> refined buf (OpExpand n).
Proof.
  intros W Hn. destruct (expand_ok mm buf n W ltac:(lia)) as (r & buf' & R & W' & HS & Hr). unfold refined. cbn [run_op].
  unfold evbuffer_expand. rewrite R. cbn [mbind option_bind]. destruct r as [i|]; eexists _, _, _; (split; [reflexivity|split; [done|]]);
    rewrite (queue_of_layout _ _ HS); [apply QExpand|]. destruct Hr as (k & Hk & Hnew).
  apply QExpandFails, (fails k); [|done].
  unfold INT_MAX, MAX_TO_COPY_IN_EXPAND, EVBUFFER_CHAIN_MAX, EVBUFFER_CHAIN_SIZE, EV_SSIZE_MAX in *. lia.
Qed.

Lemma refine_reference buf data : evbuffer_wf buf -> total_len buf + zlen data <= INT_MAX -> refined buf (OpReference data).
Proof.
  intros W Hb. unfold refined. cbn [run_op]. unfold evbuffer_add_reference. pose proof (zlen_nonneg data). pose proof (total_range _ W).
  destruct (evbuffer_chain_new mm sizeof_evbuffer_chain_reference) as [c|] eqn:Hnew; cbn [mbind option_bind].
  2: { eexists _, _, _. split; [reflexivity|]. split; [done|]. apply QReferenceFails. right. by apply (fails sizeof_evbuffer_chain_reference). }
  destruct (freeze_end buf) eqn:Hf; cbn [mbind option_bind].
  { eexists _, _, _. split; [reflexivity|]. split; [done|]. apply QReferenceFails. by left. }
  set (ch := Chain _ _ _ _). unfold INT_MAX, EV_SIZE_MAX in *.
  assert (Hc : chain_ok ch).
  { split; cbn; unfold off; cbn; try done; unfold EVBUFFER_CHAIN_MAX, EVBUFFER_CHAIN_SIZE, EV_SSIZE_MAX; lia. }
  destruct (chain_insert_ok buf ch W Hc) as (buf1 & E1 & W1 & Hb1 & _); [unfold off, EV_SIZE_MAX; cbn; lia|].
  destruct (chain_insert_frame _ _ _ E1) as (Hf1 & Hf2 & Hf3 & Hf4 & Hf5 & Hf6 & Hf7). rewrite E1. cbn [mbind option_bind].
  eexists _, _, _. split; [reflexivity|]. split; [apply invoke_wf; destruct W1; by split|].
  set (mid := {| buf1 with n_add_for_cb := _ |}). assert (Hq : queue_of (evbuffer_invoke_callbacks_ mid) = {| (queue_of buf) with q_bytes := bytes_of buf ++ data |}).
  { destruct (invoke_frame mid) as (H1 & H2 & _). unfold queue_of. rewrite invoke_bytes, H1, H2. cbn [freeze_start freeze_end mid q_bytes q_frozen_start q_frozen_end].
    rewrite Hf1, Hf2. f_equal. exact Hb1. }
  rewrite Hq. by apply QReference.
Qed.

Lemma refine_op buf op : evbuffer_wf buf -> op_ok op -> total_len buf + op_bytes op <= INT_MAX -> refined buf op.
Proof.
  intros W Hok Hb. pose proof (total_range _ W). destruct op; cbn [op_ok op_bytes] in *.
  - by apply refine_add.
  - by apply refine_prepend.
  - by apply refine_printf.
  - by apply refine_drain.
  - apply refine_remove; (done || lia).
  - by apply refine_copyout.
  - apply refine_readln; (done || lia).
  - apply refine_pullup; (done || lia).
  - by apply refine_expand.
  - by apply refine_reference.
  - eexists _, _, _. split; [reflexivity|]. split; [destruct W; by destruct start|]. destruct start; apply (QFreeze (queue_of buf)).
  - eexists _, _, _. split; [reflexivity|]. split; [destruct W; by destruct start|]. destruct start; apply (QUnfreeze (queue_of buf)).
Qed.

Lemma ops_bytes_nonneg ops : 0 <= ops_bytes ops.
Proof.
  induction ops as [|op ops IH]; [done|]. cbn [ops_bytes foldr]. fold (ops_bytes ops).
  assert (0 <= op_bytes op) by (destruct op; try apply zlen_nonneg; done). lia.
Qed.

(** C4: Every sequence of the operations evbuffer_add, evbuffer_prepend,
    evbuffer_add_printf, evbuffer_drain, evbuffer_remove, evbuffer_copyout, evbuffer_readln,
    evbuffer_pullup, evbuffer_expand, evbuffer_add_reference, evbuffer_freeze and
    evbuffer_unfreeze on a well-formed buffer runs to its end (no assertion of
    the code fails and no access is outside a chain), keeps the buffer
    well-formed, and returns what a queue of bytes may return. *)
Theorem evbuffer_refines_queue ops buf :
  evbuffer_wf buf -> Forall op_ok ops -> total_len buf + ops_bytes ops <= INT_MAX ->
  exists outs buf', run_ops buf ops = Some (outs, buf') /\ evbuffer_wf buf' /\
    queue_steps (queue_of buf) ops outs (queue_of buf').
Proof.
  intros W Hok. revert buf W. induction Hok as [|op ops Hop Hops IH]; intros buf W Hb.
  { exists [], buf. split_and!; try done. constructor. }
  cbn [ops_bytes foldr] in Hb. fold (ops_bytes ops) in Hb.
  pose proof (ops_bytes_nonneg ops).
  destruct (refine_op buf op W Hop ltac:(lia)) as (r & out & buf1 & R & W1 & HS).
  pose proof (queue_step_bytes _ _ _ _ _ HS Hop) as Hq. cbn [queue_of q_bytes] in Hq. rewrite <- (ew_total _ W), <- (ew_total _ W1) in Hq.
  destruct (IH buf1 W1 ltac:(lia)) as (outs & buf2 & Rs & W2 & HSs).
  exists ((r, out) :: outs), buf2. cbn [run_ops]. rewrite R. cbn [mbind option_bind]. rewrite Rs. split_and!; try done. by eapply QThen.
Qed.
End Queue.
