(* ===== verification/BufferProps.v ===== *)
(** * Properties of the buffers

    The callbacks of every operation, moving data between buffers, and the
    behaviours that the documentation of the buffers does not promise. *)
From S2P Require Import Prelude Event Buffer BufferInv BufferOps BufferMove BufferPullup BufferSearch BufferLines BufferFind BufferQueue.

(** ** Well-formedness of a given buffer can be computed. *)
Definition chain_okb (ch : evbuffer_chain) : bool :=
  (0 <=? misalign ch) && (misalign ch + off ch <=? buffer_len ch) && (buffer_len ch <=? EVBUFFER_CHAIN_MAX - EVBUFFER_CHAIN_SIZE) &&
  negb (has (chain_flags ch) EVBUFFER_MEM_PINNED_ANY) &&
  (negb (has (chain_flags ch) EVBUFFER_IMMUTABLE) || (misalign ch + off ch =? buffer_len ch)).
Definition evbuffer_wfb (buf : evbuffer) : bool :=
  forallb chain_okb (chains buf) && (total_len buf =? zlen (bytes_of buf)) && (total_len buf <=? EV_SIZE_MAX) &&
  evbuffer_chains_all_empty (drop (S (last_with_datap buf)) (chains buf)) &&
  ((last_with_datap buf <? length (chains buf))%nat || ((length (chains buf) =? 0)%nat && (last_with_datap buf =? 0)%nat)).

Lemma chain_okb_ok ch : chain_okb ch = true -> chain_ok ch.
Proof.
  unfold chain_okb. rewrite !andb_true_iff, orb_true_iff, !negb_true_iff. intros ((((H1 & H2) & H3) & H4) & H5).
  split; try done; try lia. intros Hi. destruct H5 as [H5|H5]; [congruence | lia].
Qed.
Lemma evbuffer_wfb_ok buf : evbuffer_wfb buf = true -> evbuffer_wf buf.
Proof.
  unfold evbuffer_wfb. rewrite !andb_true_iff, orb_true_iff, andb_true_iff. intros ((((H1 & H2) & H3) & H4) & H5). split.
  - apply Forall_forall. intros ch Hch. apply chain_okb_ok. rewrite forallb_forall in H1. apply H1. by apply list_elem_of_In.
  - lia.
  - lia.
  - split; [by apply all_empty_ok|]. rewrite Nat.ltb_lt, !Nat.eqb_eq, length_zero_iff_nil in H5. exact H5.
Qed.

Definition tidyb (buf : evbuffer) : bool := forallb (fun ch => c_true (off ch)) (take (last_with_datap buf) (chains buf)).
Lemma tidyb_ok buf : tidyb buf = true -> tidy buf.
Proof.
  unfold tidyb, tidy. intros H. apply Forall_forall. intros ch Hch. apply off_true. rewrite forallb_forall in H. apply H. by apply list_elem_of_In.
Qed.

(** ** Callbacks. *)

Definition told (buf buf' : evbuffer) : Prop :=
  quiet buf' /\ exists came went, total_len buf' = total_len buf + came - went /\
    calls buf' = calls buf ++ (if (came =? 0) && (went =? 0) then []
                               else run_cb_list (callbacks buf) (CbInfo (total_len buf) came went)).
Lemma told_notified buf buf' came went : quiet buf -> notified buf buf' came went ->
  total_len buf' = total_len buf + came - went -> told buf buf'.
Proof. intros Hq [_ _ _ N4 N5] Ht. split; [by apply N4|]. exists came, went. auto. Qed.
Lemma told_same buf buf' : quiet buf -> total_len buf' = total_len buf -> calls buf' = calls buf ->
  n_add_for_cb buf' = n_add_for_cb buf -> n_del_for_cb buf' = n_del_for_cb buf -> told buf buf'.
Proof.
  unfold told, quiet. intros Hq Ht Hc -> ->. split; [done|]. exists 0, 0. split; [lia|]. by rewrite Hc, app_nil_r.
Qed.
Lemma told_layout buf buf' : quiet buf -> same_but_layout buf buf' -> told buf buf'.
Proof. intros Hq (_ & Ht & _ & _ & _ & Hc & Ha & Hd). by apply told_same. Qed.

Lemma told_reference mm buf data r buf' : evbuffer_wf buf -> total_len buf + zlen data <= INT_MAX -> quiet buf ->
  evbuffer_add_reference mm buf data = Some (r, buf') -> r <> -1 -> told buf buf'.
Proof.
  intros W Hb Hq R Hr. pose proof (zlen_nonneg data). pose proof (total_range _ W). unfold INT_MAX in *.
  unfold evbuffer_add_reference in R. destruct (evbuffer_chain_new _ _); [|congruence]. destruct (freeze_end buf); [congruence|].
  destruct (evbuffer_chain_insert buf _) as [buf1|] eqn:E1; [|done]. cbn [mbind option_bind] in R. injection R as _ <-.
  destruct (chain_insert_frame _ _ _ E1) as (Hf1 & Hf2 & Hf3 & Hf4 & Hf5 & Hf6 & Hf7).
  assert (Ht : total_len buf1 = total_len buf + zlen data) by (rewrite Hf7; unfold off; cbn; apply u64_small; lia).
  apply (told_notified _ _ (zlen data) 0); [done | |].
  - apply invoke_notified; [|done]. split; try done; cbn; [|lia]. intros [Ha Hd]. rewrite Hf5, Hf6, Ha, Hd. split; [apply u64_small; lia | done].
  - destruct (invoke_data {| buf1 with n_add_for_cb := u64 (n_add_for_cb buf1 + zlen data) |}) as (_ & _ & ->). cbn. lia.
Qed.

(** C30: When an operation on a buffer succeeds, each callback that is enabled
    was called once, in order, with the length before the operation and the
    numbers of bytes added and removed, which account for the new length; when
    the operation changed nothing no callback was called.  (Reading a line is
    two operations, taking the line and draining its end.) *)
Theorem evbuffer_callbacks_told mm buf op r out buf' :
  evbuffer_wf buf -> op_ok op -> total_len buf + op_bytes op <= INT_MAX -> quiet buf -> (forall style, op <> OpReadln style) ->
  run_op mm buf op = Some (r, out, buf') -> r <> -1 ->
  quiet buf' /\ exists came went, total_len buf' = total_len buf + came - went /\
    calls buf' = calls buf ++ (if (came =? 0) && (went =? 0) then []
                               else run_cb_list (callbacks buf) (CbInfo (total_len buf) came went)).
Proof.
  intros W Hok Hb Hq Hline R Hr. change (told buf buf'). pose proof (ew_total _ W) as Ht. pose proof (total_range _ W) as Hrg.
  destruct op; cbn [op_ok op_bytes run_op] in *.
  - destruct (buffer_add_ok mm buf 0 buf data (since_refl _ W) W) as (r1 & buf1 & R1 & W1 & HA). rewrite R1 in R. injection R as <- <- <-.
    destruct HA as [(_ & Hbs & Hn)|(-> & _)]; [|done]. apply (told_notified _ _ _ _ Hq Hn). rewrite (ew_total _ W1), Hbs, zlen_app. lia.
  - destruct (prepend_ok mm buf data W) as (r1 & buf1 & R1 & W1 & HA). rewrite R1 in R. injection R as <- <- <-.
    destruct HA as [(_ & Hbs & Hn)|(-> & _)]; [|done]. apply (told_notified _ _ _ _ Hq Hn). rewrite (ew_total _ W1), Hbs, zlen_app. lia.
  - destruct (printf_ok mm buf text W ltac:(unfold INT_MAX, EV_SIZE_MAX in *; lia)) as (r1 & buf1 & R1 & W1 & HA). rewrite R1 in R. injection R as <- <- <-.
    destruct HA as [(_ & Hbs & Hn)|(-> & _)]; [|done]. apply (told_notified _ _ _ _ Hq Hn). rewrite (ew_total _ W1), Hbs, zlen_app. lia.
  - destruct (buffer_drain_ok buf len W Hok) as (r1 & buf1 & R1 & W1 & HA). rewrite R1 in R. injection R as <- <- <-.
    destruct HA as [(_ & Hbs & Hn)|(-> & _)]; [|done]. apply (told_notified _ _ _ _ Hq Hn). rewrite (ew_total _ W1), Hbs.
    unfold zlen, zdrop in *. rewrite length_drop. lia.
  - destruct (remove_ok buf len W Hok ltac:(lia)) as (buf1 & W1 & HA). destruct (freeze_start buf && _).
    + destruct HA as [R1 ->]. rewrite R1 in R. injection R as <- <- <-. done.
    + destruct HA as (R1 & Hbs & Hn). rewrite R1 in R. injection R as <- <- <-. apply (told_notified _ _ _ _ Hq Hn).
      rewrite (ew_total _ W1), Hbs. unfold zlen, zdrop in *. rewrite length_drop. lia.
  - destruct (evbuffer_copyout buf len) as [[r1 out1]|]; [|done]. injection R as _ _ <-. by apply told_same.
  - by destruct (Hline style).
  - destruct (pullup_ok mm buf size W) as (p & buf1 & R1 & _ & HS & _). rewrite R1 in R. cbn [mbind option_bind] in R. injection R as _ <-. by apply told_layout.
  - destruct (expand_ok mm buf len W ltac:(lia)) as (p & buf1 & R1 & _ & HS & _). unfold evbuffer_expand in R. rewrite R1 in R.
    cbn [mbind option_bind] in R. injection R as _ _ <-. by apply told_layout.
  - destruct (evbuffer_add_reference mm buf data) as [[r1 buf1]|] eqn:R1; [|done]. injection R as <- _ <-. by apply (told_reference mm buf data r1).
  - injection R as _ _ <-. apply told_same; by destruct start.
  - injection R as _ _ <-. apply told_same; by destruct start.
Qed.

(** ** Witnesses: the buffers of a small run. *)
Definition no_fail (n : Z) : bool := true.
Definition demo_ops : list evbuffer_op :=
  [OpAdd [1; 2; 3]; OpPrintf [49; 50]; OpPrepend [9]; OpReference [4; 5]; OpAdd [6; 13; 10; 7]; OpRemove 2; OpReadln EVBUFFER_EOL_CRLF; OpPullup (-1); OpExpand 5000; OpFreeze true; OpDrain 1].
Definition with_callback : evbuffer := {| evbuffer_new with callbacks := [CbEntry 0 1; CbEntry EVBUFFER_CB_ENABLED 2] |}.

Lemma evbuffer_refines_queue_witness :
  exists outs buf', run_ops no_fail evbuffer_new demo_ops = Some (outs, buf') /\ evbuffer_wf buf' /\
    queue_steps no_fail (queue_of evbuffer_new) demo_ops outs (queue_of buf').
Proof.
  apply (evbuffer_refines_queue no_fail demo_ops evbuffer_new).
  - apply evbuffer_wfb_ok. reflexivity.
  - repeat constructor; discriminate.
  - discriminate.
Defined.
Example demo_run : option_map (fun '(outs, buf) => (outs, bytes_of buf)) (run_ops no_fail evbuffer_new demo_ops) =
  Some ([(0, []); (2, []); (0, []); (0, []); (0, []); (2, [9; 1]); (0, [2; 3; 49; 50; 4; 5; 6]); (0, [7]); (0, []); (0, []); (-1, [])], [7]).
Proof. vm_compute. reflexivity. Qed.

Lemma evbuffer_callbacks_told_witness : exists buf', run_op no_fail with_callback (OpAdd [7; 8]) = Some (0, [], buf') /\
  quiet buf' /\ exists came went, total_len buf' = total_len with_callback + came - went /\
    calls buf' = calls with_callback ++ (if (came =? 0) && (went =? 0) then []
                               else run_cb_list (callbacks with_callback) (CbInfo (total_len with_callback) came went)).
Proof.
  eexists. split; [vm_compute; reflexivity|].
  eapply (evbuffer_callbacks_told no_fail with_callback (OpAdd [7; 8]) 0 []).
  - apply evbuffer_wfb_ok. reflexivity.
  - exact I.
  - discriminate.
  - split; reflexivity.
  - discriminate.
  - vm_compute. reflexivity.
  - discriminate.
Defined.

(** ** Searching. *)

(** C38: searching a well-formed buffer, from a position of it and up to another,
    finds the first place where the bytes are and that does not reach over the
    end, as a position that leads there, or else there is no such place; and
    evbuffer_find makes the bytes up to the end of that place contiguous,
    unless there is no memory for it, and changes nothing else. *)
Theorem evbuffer_search_finds mm buf what start end_ :
  evbuffer_wf buf -> total_len buf <= INT_MAX -> what <> [] -> zlen what <= INT_MAX -> start_ok buf start -> start_ok buf end_ ->
  (exists r, evbuffer_search_range buf what start end_ = Some r /\ first_fit buf what end_ (start_pos start) r) /\
  exists found buf', evbuffer_find mm buf what = Some (found, buf') /\ evbuffer_wf buf' /\ same_but_layout buf buf' /\
    match found, find_list what (bytes_of buf) with
    | Some bytes, Some n => zlen what <= zlen bytes /\ ztake (zlen what) bytes = what /\ occurs what (bytes_of buf) n /\ (forall m, 0 <= m < n -> ~ occurs what (bytes_of buf) m)
    | None, None => forall m, ~ occurs what (bytes_of buf) m
    | None, Some n => exists k, mm k = false
    | Some _, None => False
    end.
Proof.
  intros W Hm Hne Hw Hs He. pose proof (ew_total _ W) as Ht. unfold INT_MAX in *. split.
  { apply search_range_ok; try done; unfold EV_SSIZE_MAX; lia. }
  destruct (search_range_ok buf what None None Ht) as (r & R & HF); try done; [unfold EV_SSIZE_MAX; lia..|].
  unfold evbuffer_find, evbuffer_search. rewrite R. cbn [mbind option_bind start_pos] in *. apply first_fit_list in HF; [|lia | done]. rewrite zdrop_0 in HF.
  pose proof (find_list_ok what (bytes_of buf) Hne) as HL. destruct (find_list what (bytes_of buf)) as [n|].
  2:{ subst r. exists None, buf. split_and!; try done. }
  destruct HF as [Ha Hpos]. rewrite (not_found_chain _ _ Ha), Hpos, Z.add_0_l. destruct HL as [Ho HL]. pose proof (occurs_range _ _ _ Hne Ho) as Hr.
  destruct (pullup_ok mm buf (n + zlen what) W) as (p & buf' & RP & W' & HS & HP). rewrite RP. cbn [mbind option_bind]. pose proof (zlen_nonneg what) as Hnn.
  assert (0 <= n) as Hn by apply Ho. replace (if n + zlen what <? 0 then _ else _) with (n + zlen what) in HP by (case_if; lia).
  eexists _, buf'. split; [done|]. split; [done|]. split; [done|]. destruct p as [bytes|]; cbn [option_map].
  - destruct HP as (_ & Hlen & Htake). rewrite zlen_zdrop by lia. split_and!; [lia | | done | done].
    destruct Ho as [_ Ho]. rewrite <- Ho at 2. unfold ztake, zdrop in *. rewrite !take_drop_commute.
    replace (Z.to_nat n + Z.to_nat (zlen what))%nat with (Z.to_nat (n + zlen what)) by lia. by rewrite Htake.
  - destruct HP as [_ [?|[?|Hnew]]]; [| lia |].
    + assert (what = []) by (apply zlen_nil; lia). done.
    + destruct (chain_new_none mm _ Hnew) as [k Hk]; [|by exists k]. unfold EVBUFFER_CHAIN_MAX, EVBUFFER_CHAIN_SIZE, EV_SSIZE_MAX. lia.
Qed.

(** Three chains; the bytes looked for lie in two of them. *)
Definition demo_chains : evbuffer :=
  Evbuffer [Chain 976 0 [97; 98] 0; Chain 976 3 [99; 97] 0; Chain 976 0 [98; 100] 0] 2 6 0 0 false false [] [].
Lemma evbuffer_search_finds_witness :
  (exists r, evbuffer_search_range demo_chains [97; 98] (Some (Ptr 1 (Some 0%nat) 1)) None = Some r /\ first_fit demo_chains [97; 98] None 1 r) /\
  exists found buf', evbuffer_find no_fail demo_chains [97; 98] = Some (found, buf') /\ evbuffer_wf buf' /\ same_but_layout demo_chains buf' /\
    match found, find_list [97; 98] (bytes_of demo_chains) with
    | Some bytes, Some n => 2 <= zlen bytes /\ ztake 2 bytes = [97; 98] /\ occurs [97; 98] (bytes_of demo_chains) n /\ (forall m, 0 <= m < n -> ~ occurs [97; 98] (bytes_of demo_chains) m)
    | None, None => forall m, ~ occurs [97; 98] (bytes_of demo_chains) m
    | None, Some n => exists k, no_fail k = false
    | Some _, None => False
    end.
Proof.
  apply (evbuffer_search_finds no_fail demo_chains [97; 98] (Some (Ptr 1 (Some 0%nat) 1)) None).
  - apply evbuffer_wfb_ok. reflexivity.
  - discriminate.
  - discriminate.
  - discriminate.
  - exists (Chain 976 0 [97; 98] 0). split; [reflexivity | split; [split; discriminate | reflexivity]].
  - exact I.
Defined.
Example demo_search : evbuffer_search_range demo_chains [97; 98] (Some (Ptr 1 (Some 0%nat) 1)) None = Some (Ptr 3 (Some 1%nat) 1).
Proof. reflexivity. Qed.

(** ** Two buffers. *)

(** Evbuffer_add_buffer moves all the data of one buffer behind, and
    evbuffer_prepend_buffer in front of, the data of another, and leaves the
    first empty; both are reported to their callbacks.  When the ends concerned
    are frozen, and there is something to move, nothing changes. *)
Theorem evbuffer_add_buffer_moves outbuf inbuf :
  evbuffer_wf outbuf -> evbuffer_wf inbuf -> total_len outbuf + total_len inbuf <= EV_SIZE_MAX ->
  exists outbuf' inbuf' outbuf2 inbuf2,
    (if (total_len inbuf =? 0) || negb (freeze_end outbuf || freeze_start inbuf)
     then evbuffer_add_buffer outbuf inbuf = Some (0, outbuf', inbuf') /\
          moved_all outbuf inbuf (bytes_of outbuf ++ bytes_of inbuf) outbuf' inbuf'
     else evbuffer_add_buffer outbuf inbuf = Some (-1, outbuf, inbuf)) /\
    (if (total_len inbuf =? 0) || negb (freeze_start outbuf || freeze_start inbuf)
     then evbuffer_prepend_buffer outbuf inbuf = Some (0, outbuf2, inbuf2) /\
          moved_all outbuf inbuf (bytes_of inbuf ++ bytes_of outbuf) outbuf2 inbuf2
     else evbuffer_prepend_buffer outbuf inbuf = Some (-1, outbuf, inbuf)).
Proof.
  intros Wo Wi Hm. destruct (add_buffer_ok outbuf inbuf Wo Wi Hm) as (o1 & i1 & H1).
  destruct (prepend_buffer_ok outbuf inbuf Wo Wi Hm) as (o2 & i2 & H2). by exists o1, i1, o2, i2.
Qed.

(** C24: evbuffer_remove_buffer moves the first bytes of the source, as many as
    asked for or all there are, behind those of the destination and returns their
    number, if the source has no empty chain before its data.  The exception is
    an allocation that fails: then the source loses the bytes and the
    destination gets only some of them. *)
Theorem evbuffer_remove_buffer_moves mm src dst n :
  evbuffer_wf src -> evbuffer_wf dst -> tidy src -> 0 <= n ->
  total_len src + total_len dst <= EV_SIZE_MAX -> Z.min n (total_len src) <= INT_MAX ->
  let m := Z.min n (total_len src) in
  exists src' dst',
    if negb (n =? 0) && (freeze_end dst || freeze_start src)
    then evbuffer_remove_buffer mm src dst n = Some (-1, src, dst)
    else evbuffer_remove_buffer mm src dst n = Some (m, src', dst') /\
         (moved src dst m src' dst' \/ (exists k, mm k = false) /\ lost mm src dst m src' dst').
Proof.
  intros Ws Wd Ht Hn Hm Hi m. destruct (remove_buffer_ok mm src dst n Ws Wd Ht Hn Hm Hi) as (s1 & d1 & H).
  exists s1, d1. destruct (negb (n =? 0) && _); [done|]. destruct H as [R [Hmv|Hl]]; (split; [done|]); [by left | right].
  split; [|done]. destruct Hl as (_ & _ & _ & k & size & _ & _ & Hs & Hnew). by apply (chain_new_none mm size).
Qed.

(** Two chains of 1024 - 48 bytes, of which the first holds three bytes. *)
Definition demo_src : evbuffer :=
  Evbuffer [Chain 976 0 [1; 2; 3] 0; Chain 976 2 [4; 5; 6; 7] 0; Chain 976 0 [] 0] 1 7 0 0 false false [] [].
Definition demo_dst : evbuffer := Evbuffer [Chain 976 0 [8] 0; Chain 976 0 [] 0] 0 1 0 0 false false [] [].

Lemma evbuffer_add_buffer_moves_witness :
  exists o i o2 i2, evbuffer_add_buffer demo_dst demo_src = Some (0, o, i) /\
    moved_all demo_dst demo_src (bytes_of demo_dst ++ bytes_of demo_src) o i /\
    evbuffer_prepend_buffer demo_dst demo_src = Some (0, o2, i2).
Proof.
  destruct (evbuffer_add_buffer_moves demo_dst demo_src) as (o & i & o2 & i2 & H1 & H2).
  - apply evbuffer_wfb_ok. reflexivity.
  - apply evbuffer_wfb_ok. reflexivity.
  - discriminate.
  - destruct H1 as [H1 H3], H2 as [H2 _]. exists o, i, o2, i2. split; [exact H1|]. split; [exact H3 | exact H2].
Defined.
Lemma evbuffer_remove_buffer_moves_witness :
  exists src' dst', evbuffer_remove_buffer no_fail demo_src demo_dst 5 = Some (5, src', dst') /\
    (moved demo_src demo_dst 5 src' dst' \/ (exists k, no_fail k = false) /\ lost no_fail demo_src demo_dst 5 src' dst').
Proof.
  apply (evbuffer_remove_buffer_moves no_fail demo_src demo_dst 5).
  - apply evbuffer_wfb_ok. reflexivity.
  - apply evbuffer_wfb_ok. reflexivity.
  - apply tidyb_ok. reflexivity.
  - discriminate.
  - discriminate.
  - discriminate.
Defined.

(** ** What goes wrong. *)

(** Without memory for the rest, [evbuffer_prepend] returns -1 and leaves the
    end of the data in the buffer: 98 and 99, of 100 bytes, in the two bytes
    before the data. *)
Definition gap2 : evbuffer := Evbuffer [Chain 976 2 [5] 0] 0 1 0 0 false false [] [].
Lemma prepend_fails_half_done :
  option_map (fun '(r, buf) => (r, bytes_of buf)) (evbuffer_prepend (fun _ => false) gap2 (seqZ 0 100)) = Some (-1, [98; 99; 5]).
Proof. vm_compute. reflexivity. Qed.

(** Without memory, [evbuffer_remove_buffer] drops bytes and reports them moved. *)
Lemma remove_buffer_loses_data :
  option_map (fun '(r, src, dst) => (r, bytes_of src, bytes_of dst))
    (evbuffer_remove_buffer (fun _ => false) demo_src evbuffer_new 2) = Some (2, [3; 4; 5; 6; 7], []).
Proof. vm_compute. reflexivity. Qed.

(** [evbuffer_expand] succeeds, and an [evbuffer_add] of less than its length
    still allocates: the room is in a chain that [evbuffer_add] does not use. *)
Definition full_chain : evbuffer := Evbuffer [Chain 976 0 (replicate 976 7) 0] 0 976 0 0 false false [] [].
Lemma expand_then_add_allocates :
  ('(r, buf) ← evbuffer_expand no_fail full_chain 100;
   '(r', _) ← evbuffer_add (fun _ => false) buf [1];
   Some (r, r')) = Some (0, -1).
Proof. vm_compute. reflexivity. Qed.

(** A zero-length [evbuffer_prepend] before a chain of foreign memory leaves an
    empty chain in front; an [evbuffer_remove_buffer] of part of the next chain
    then makes [last_with_datap] lead to the empty one, and the next
    [evbuffer_add] writes in front of the data. *)
Lemma remove_buffer_misplaces_data :
  ('(_, buf) ← evbuffer_add_reference no_fail evbuffer_new [1; 2; 3];
   '(_, buf) ← evbuffer_prepend no_fail buf [];
   '(_, buf, _) ← evbuffer_remove_buffer no_fail buf evbuffer_new 1;
   '(_, buf) ← evbuffer_add no_fail buf [9];
   Some (bytes_of buf)) = Some [9; 2; 3].
Proof. vm_compute. reflexivity. Qed.
