(* ===== verification/ByteQueue.v ===== *)
(** * The interface of a byte queue

    What the code that puts messages in buffers relies on: the operations, and
    their laws for a queue that is not frozen and while memory lasts.  The
    buffers implement it. *)
From S2P Require Import Prelude Event Buffer BufferInv BufferOps BufferMove BufferPullup BufferSearch BufferLines BufferFind BufferTidy BufferQueue.

Class ByteQueue (Q : Type) := {
  bq_length : Q -> Z;
  bq_add : Q -> list byte -> option (Z * Q);
  bq_add_printf : Q -> list byte -> option (Z * Q);
  bq_drain : Q -> Z -> option (Z * Q);
  bq_remove : Q -> Z -> option (Z * list byte * Q);
  (* the bytes the pointer leads to, [None] inside for a null pointer *)
  bq_pullup : Q -> Z -> option (option (list byte) * Q);
  bq_add_buffer : Q -> Q -> option (Z * Q * Q);
  (* the line, if there is one *)
  bq_readln : Q -> evbuffer_eol_style -> option (option (list byte) * Q);
  (* from the first queue to the second *)
  bq_remove_buffer : Q -> Q -> Z -> option (Z * Q * Q)
}.

Class ByteQueueLaws (Q : Type) `{ByteQueue Q} := {
  bq_ok : Q -> Prop;
  bq_bytes : Q -> list byte;
  bq_length_law q : bq_ok q -> bq_length q = zlen (bq_bytes q) /\ zlen (bq_bytes q) <= INT_MAX;
  bq_add_law q data : bq_ok q -> zlen (bq_bytes q) + zlen data <= INT_MAX ->
    exists q', bq_add q data = Some (0, q') /\ bq_ok q' /\ bq_bytes q' = bq_bytes q ++ data;
  bq_add_printf_law q text : bq_ok q -> zlen (bq_bytes q) + zlen text <= INT_MAX ->
    exists q', bq_add_printf q text = Some (zlen text, q') /\ bq_ok q' /\ bq_bytes q' = bq_bytes q ++ text;
  bq_drain_law q n : bq_ok q -> 0 <= n ->
    exists q', bq_drain q n = Some (0, q') /\ bq_ok q' /\ bq_bytes q' = zdrop n (bq_bytes q);
  bq_remove_law q n : bq_ok q -> 0 <= n ->
    exists q', bq_remove q n = Some (Z.min n (zlen (bq_bytes q)), ztake n (bq_bytes q), q') /\
      bq_ok q' /\ bq_bytes q' = zdrop n (bq_bytes q);
  bq_pullup_none q n : bq_ok q -> n = 0 \/ zlen (bq_bytes q) < n -> bq_pullup q n = Some (None, q);
  bq_pullup_law q n : bq_ok q -> 0 < n <= zlen (bq_bytes q) ->
    exists p q', bq_pullup q n = Some (Some p, q') /\ bq_ok q' /\ bq_bytes q' = bq_bytes q /\
      n <= zlen p /\ ztake n p = ztake n (bq_bytes q);
  bq_add_buffer_law q src : bq_ok q -> bq_ok src -> zlen (bq_bytes q) + zlen (bq_bytes src) <= INT_MAX ->
    exists q' src', bq_add_buffer q src = Some (0, q', src') /\ bq_ok q' /\ bq_ok src' /\
      bq_bytes q' = bq_bytes q ++ bq_bytes src /\ bq_bytes src' = [];
  bq_readln_law q style : bq_ok q ->
    match eol_of style (bq_bytes q) with
    | Some (n, k) => exists q', bq_readln q style = Some (Some (ztake n (bq_bytes q)), q') /\ bq_ok q' /\ bq_bytes q' = zdrop (n + k) (bq_bytes q)
    | None => bq_readln q style = Some (None, q)
    end;
  bq_remove_buffer_law q dst n : bq_ok q -> bq_ok dst -> 0 <= n <= zlen (bq_bytes q) -> n + zlen (bq_bytes dst) <= INT_MAX ->
    exists q' dst', bq_remove_buffer q dst n = Some (n, q', dst') /\ bq_ok q' /\ bq_ok dst' /\
      bq_bytes q' = zdrop n (bq_bytes q) /\ bq_bytes dst' = bq_bytes dst ++ ztake n (bq_bytes q)
}.

(** A call whose result is ignored. *)
Definition ignore {A} (x : option (Z * A)) : option A := '(_, a) ← x; Some a.

Section Ignore.
Context `{ByteQueueLaws Q}.
Implicit Types buf : Q.

(** A call that adds [data] and whose result is ignored. *)
Lemma ignore_add buf data : bq_ok buf -> zlen (bq_bytes buf) + zlen data <= INT_MAX ->
  exists buf', ignore (bq_add buf data) = Some buf' /\ bq_ok buf' /\ bq_bytes buf' = bq_bytes buf ++ data.
Proof. intros Hok Hlen. destruct (bq_add_law _ _ Hok Hlen) as (buf' & R & ? & ?). exists buf'. rewrite R. done. Qed.
Lemma ignore_add_printf buf text : bq_ok buf -> zlen (bq_bytes buf) + zlen text <= INT_MAX ->
  exists buf', ignore (bq_add_printf buf text) = Some buf' /\ bq_ok buf' /\ bq_bytes buf' = bq_bytes buf ++ text.
Proof. intros Hok Hlen. destruct (bq_add_printf_law _ _ Hok Hlen) as (buf' & R & ? & ?). exists buf'. rewrite R. done. Qed.

End Ignore.

(** ** The buffers. *)
Section Evbuffer.
Context (mm : Z -> bool).

#[export] Instance evbuffer_queue : ByteQueue evbuffer := {
  bq_length := evbuffer_get_length;
  bq_add := evbuffer_add mm;
  bq_add_printf := evbuffer_add_printf mm;
  bq_drain := evbuffer_drain;
  bq_remove := evbuffer_remove;
  bq_pullup := evbuffer_pullup mm;
  bq_add_buffer := evbuffer_add_buffer;
  bq_readln := evbuffer_readln mm;
  bq_remove_buffer := evbuffer_remove_buffer mm
}.

Context (mm_ok : forall n, mm n = true).

(** A buffer that may be used freely. *)
Record open_buffer (buf : evbuffer) : Prop := {
  ob_wf : evbuffer_wf buf;
  ob_start : freeze_start buf = false;
  ob_end : freeze_end buf = false;
  ob_small : total_len buf <= INT_MAX;
  ob_neat : neat buf
}.

Lemma chain_new_some n : n <= EVBUFFER_CHAIN_MAX - EVBUFFER_CHAIN_SIZE -> evbuffer_chain_new mm n <> None.
Proof. intros Hn R. destruct (chain_new_none mm n R Hn) as [k Hk]. by rewrite mm_ok in Hk. Qed.

Lemma open_notified buf buf' came went : open_buffer buf -> evbuffer_wf buf' -> notified buf buf' came went ->
  zlen (bytes_of buf') <= INT_MAX -> neat buf' -> open_buffer buf'.
Proof.
  intros [W Hs He Hm _] W' [N1 N2 _ _ _] Hm' HN. split; [done | congruence | congruence | | done]. by rewrite (ew_total _ W').
Qed.

Lemma buffer_add_law buf data : open_buffer buf -> zlen (bytes_of buf) + zlen data <= INT_MAX ->
  exists buf', evbuffer_add mm buf data = Some (0, buf') /\ open_buffer buf' /\ bytes_of buf' = bytes_of buf ++ data.
Proof.
  intros HO Hb. pose proof HO as [W Hs He Hm HN]. destruct (buffer_add_ok mm buf 0 buf data (since_refl _ W) W) as (r & buf' & R & W' & HA).
  destruct HA as [(-> & Hbs & Hn)|(-> & -> & Hwhy)].
  - exists buf'. split_and!; try done. apply (open_notified buf buf' _ _ HO W' Hn); [by rewrite Hbs, zlen_app | exact (add_neat mm _ _ _ _ W HN R)].
  - exfalso. rewrite <- (ew_total _ W) in Hb. pose proof (total_range _ W). unfold INT_MAX, EV_SIZE_MAX in *.
    destruct Hwhy as [|[Hov|(n & Hn & Hnb & Hnew)]]; [congruence | unfold EV_SIZE_MAX in Hov; lia|].
    apply (chain_new_some n); [|done]. unfold EVBUFFER_CHAIN_MAX, EVBUFFER_CHAIN_SIZE, EV_SSIZE_MAX in *. lia.
Qed.

Lemma buffer_printf_law buf text : open_buffer buf -> zlen (bytes_of buf) + zlen text <= INT_MAX ->
  exists buf', evbuffer_add_printf mm buf text = Some (zlen text, buf') /\ open_buffer buf' /\ bytes_of buf' = bytes_of buf ++ text.
Proof.
  intros HO Hb. pose proof HO as [W Hs He Hm HN]. pose proof (zlen_nonneg (bytes_of buf)). rewrite <- (ew_total _ W) in *.
  unfold INT_MAX, EV_SIZE_MAX in *.
  destruct (printf_ok mm buf text W ltac:(unfold EV_SIZE_MAX; lia)) as (r & buf' & R & W' & HA).
  destruct HA as [(-> & Hbs & Hn)|(-> & _ & [Hf|[Hbig|(n & Hnew & Hn)]])].
  - exists buf'. split_and!; [done | | done]. apply (open_notified buf buf' _ _ HO W' Hn); [rewrite Hbs, zlen_app, <- (ew_total _ W); unfold INT_MAX; lia | exact (printf_neat mm _ _ _ _ W HN R)].
  - congruence.
  - unfold INT_MAX in *. lia.
  - exfalso. apply (chain_new_some n); [|done]. unfold MAX_TO_COPY_IN_EXPAND, EVBUFFER_CHAIN_MAX, EVBUFFER_CHAIN_SIZE, EV_SSIZE_MAX in *. lia.
Qed.

Lemma zlen_zdrop_le {A} n (l : list A) : zlen (zdrop n l) <= zlen l.
Proof. unfold zlen, zdrop. rewrite length_drop. lia. Qed.

Lemma buffer_drain_law buf n : open_buffer buf -> 0 <= n ->
  exists buf', evbuffer_drain buf n = Some (0, buf') /\ open_buffer buf' /\ bytes_of buf' = zdrop n (bytes_of buf).
Proof.
  intros HO Hn. pose proof HO as [W Hs He Hm HN]. destruct (buffer_drain_ok buf n W Hn) as (r & buf' & R & W' & HA).
  destruct HA as [(-> & Hbs & Hnt)|(_ & _ & Hf & _)]; [|congruence]. exists buf'. split_and!; try done.
  apply (open_notified buf buf' _ _ HO W' Hnt); [|exact (drain_neat mm _ _ _ _ W HN Hn R)]. rewrite Hbs, (ew_total _ W) in *. pose proof (zlen_zdrop_le n (bytes_of buf)). lia.
Qed.

Lemma buffer_remove_law buf n : open_buffer buf -> 0 <= n ->
  exists buf', evbuffer_remove buf n = Some (Z.min n (zlen (bytes_of buf)), ztake n (bytes_of buf), buf') /\
    open_buffer buf' /\ bytes_of buf' = zdrop n (bytes_of buf).
Proof.
  intros HO Hn. pose proof HO as [W Hs He Hm HN]. destruct (remove_ok buf n W Hn ltac:(lia)) as (buf' & W' & HA). rewrite Hs in HA.
  destruct HA as (R & Hbs & Hnt). rewrite <- (ew_total _ W). exists buf'. split_and!; try done.
  apply (open_notified buf buf' _ _ HO W' Hnt); [|exact (remove_neat mm _ _ _ _ _ W HN R)]. rewrite Hbs, (ew_total _ W) in *. pose proof (zlen_zdrop_le n (bytes_of buf)). lia.
Qed.

Lemma buffer_pullup_none buf n : open_buffer buf -> n = 0 \/ zlen (bytes_of buf) < n -> evbuffer_pullup mm buf n = Some (None, buf).
Proof.
  intros [W _ _ _ _] Hn. unfold evbuffer_pullup. rewrite <- (ew_total _ W) in Hn. pose proof (total_range _ W).
  replace (if n <? 0 then total_len buf else n) with n by (case_if; lia). by replace ((n =? 0) || (total_len buf <? n)) with true by lia.
Qed.

Lemma buffer_pullup_law buf n : open_buffer buf -> 0 < n <= zlen (bytes_of buf) ->
  exists p buf', evbuffer_pullup mm buf n = Some (Some p, buf') /\ open_buffer buf' /\ bytes_of buf' = bytes_of buf /\
    n <= zlen p /\ ztake n p = ztake n (bytes_of buf).
Proof.
  intros [W Hs He Hm HN] Hn. destruct (pullup_ok mm buf n W) as (p & buf' & R & W' & HS & Hp).
  replace (if n <? 0 then total_len buf else n) with n in Hp by (case_if; lia). rewrite (ew_total _ W) in *.
  destruct p as [p|]; [|exfalso].
  - destruct Hp as (_ & Hlen & Ht). exists p, buf'. destruct HS as (Hb & Htl & H1 & H2 & _). split_and!; try done.
    split; [done | congruence | congruence | by rewrite Htl, (ew_total _ W) | exact (pullup_neat mm buf n _ _ W HN ltac:(lia) R)].
  - destruct Hp as [_ [|[|Hnew]]]; [lia | lia |]. apply (chain_new_some n); [|done].
    unfold INT_MAX, EVBUFFER_CHAIN_MAX, EVBUFFER_CHAIN_SIZE, EV_SSIZE_MAX in *. lia.
Qed.

Lemma buffer_add_buffer_law buf src : open_buffer buf -> open_buffer src -> zlen (bytes_of buf) + zlen (bytes_of src) <= INT_MAX ->
  exists buf' src', evbuffer_add_buffer buf src = Some (0, buf', src') /\ open_buffer buf' /\ open_buffer src' /\
    bytes_of buf' = bytes_of buf ++ bytes_of src /\ bytes_of src' = [].
Proof.
  intros HO HO2 Hb. pose proof HO as [W Hs He Hm HN]. pose proof HO2 as [W2 Hs2 He2 Hm2 HN2].
  destruct (add_buffer_ok buf src W W2) as (buf' & src' & HA).
  { rewrite (ew_total _ W), (ew_total _ W2). unfold INT_MAX, EV_SIZE_MAX in *. lia. }
  rewrite He, Hs2, orb_true_r in HA. destruct HA as (R & Wo & Wi & Hbo & Hbi & No & Ni).
  destruct (add_buffer_neat mm _ _ _ _ _ W W2 HN HN2 R) as [HNo HNi].
  exists buf', src'. split_and!; try done; [apply (open_notified buf buf' _ _ HO Wo No); [|done] | apply (open_notified src src' _ _ HO2 Wi Ni); [|done]].
  - by rewrite Hbo, zlen_app.
  - rewrite Hbi. done.
Qed.

Lemma buffer_readln_law buf style : open_buffer buf ->
  match eol_of style (bytes_of buf) with
  | Some (n, k) => exists buf', evbuffer_readln mm buf style = Some (Some (ztake n (bytes_of buf)), buf') /\ open_buffer buf' /\ bytes_of buf' = zdrop (n + k) (bytes_of buf)
  | None => evbuffer_readln mm buf style = Some (None, buf)
  end.
Proof.
  intros HO. pose proof HO as [W Hs He Hm HN]. destruct (readln_ok mm buf style W Hm) as (r & buf' & R & W' & HR). rewrite R. destruct r as [line|].
  - destruct HR as (_ & n & k & HE & -> & Hb & buf1 & N1 & N2). rewrite HE. exists buf'. split_and!; [done | | done].
    split; [done | rewrite (nt_start _ _ _ _ N2), (nt_start _ _ _ _ N1); done | rewrite (nt_end _ _ _ _ N2), (nt_end _ _ _ _ N1); done | | exact (readln_neat mm _ _ _ _ W HN Hm R)].
    rewrite (ew_total _ W'), Hb. pose proof (zlen_zdrop_le (n + k) (bytes_of buf)). rewrite <- (ew_total _ W) in *. lia.
  - destruct HR as [-> [Hf|[->|[n Hn]]]]; [congruence | done | by rewrite mm_ok in Hn].
Qed.

Lemma buffer_remove_buffer_law buf dst n : open_buffer buf -> open_buffer dst -> 0 <= n <= zlen (bytes_of buf) -> n + zlen (bytes_of dst) <= INT_MAX ->
  exists buf' dst', evbuffer_remove_buffer mm buf dst n = Some (n, buf', dst') /\ open_buffer buf' /\ open_buffer dst' /\
    bytes_of buf' = zdrop n (bytes_of buf) /\ bytes_of dst' = bytes_of dst ++ ztake n (bytes_of buf).
Proof.
  intros HO HO2 Hn Hm3. pose proof HO as [W Hs He Hm HN]. pose proof HO2 as [W2 Hs2 He2 Hm2 HN2]. pose proof (ew_total _ W) as Ht. pose proof (ew_total _ W2) as Ht2.
  pose proof (zlen_nonneg (bytes_of dst)).
  assert (Hmax : total_len buf + total_len dst <= EV_SIZE_MAX) by (unfold INT_MAX, EV_SIZE_MAX in *; lia).
  destruct (remove_buffer_ok mm buf dst n W W2 (neat_tidy _ HN) ltac:(lia) Hmax ltac:(lia)) as (buf' & dst' & HA).
  rewrite He2, Hs, andb_false_r, Z.min_l in HA by lia. destruct HA as [R HA]. destruct (remove_buffer_neat mm buf dst n _ _ _ W W2 HN HN2 ltac:(lia) Hmax R) as [HNb HNd].
  exists buf', dst'. split; [done|]. destruct HA as [(Wb & Wd & Hb & Hd & Nd & Nb)|(_ & _ & _ & k & size & _ & _ & Hsz & Hnone)].
  - split_and!; try done; [apply (open_notified buf buf' _ _ HO Wb Nb); [|done] | apply (open_notified dst dst' _ _ HO2 Wd Nd); [|done]].
    + rewrite Hb. pose proof (zlen_zdrop_le n (bytes_of buf)). lia.
    + rewrite Hd, zlen_app, zlen_ztake by lia. lia.
  - exfalso. by apply (chain_new_some size).
Qed.

Lemma buffer_length_law buf : open_buffer buf -> evbuffer_get_length buf = zlen (bytes_of buf) /\ zlen (bytes_of buf) <= INT_MAX.
Proof. intros [W _ _ Hm _]. by rewrite <- (ew_total _ W). Qed.

#[export] Instance evbuffer_queue_laws : ByteQueueLaws evbuffer := {
  bq_ok := open_buffer;
  bq_bytes := bytes_of;
  bq_length_law := buffer_length_law;
  bq_add_law := buffer_add_law;
  bq_add_printf_law := buffer_printf_law;
  bq_drain_law := buffer_drain_law;
  bq_remove_law := buffer_remove_law;
  bq_pullup_none := buffer_pullup_none;
  bq_pullup_law := buffer_pullup_law;
  bq_add_buffer_law := buffer_add_buffer_law;
  bq_readln_law := buffer_readln_law;
  bq_remove_buffer_law := buffer_remove_buffer_law
}.
End Evbuffer.
