(* ===== verification/CString.v ===== *)
(** * Characters and strings of C (evutil.c)

    A character is its value as an [unsigned char]; a string is the list of its
    characters without the terminating NUL, which reading past the end gives.
    The second part is numbers in text. *)
From Stdlib Require Import Ascii String.
From S2P Require Import Prelude Buffer Event.
Open Scope Z_scope.

(** String literals. *)
Definition str (s : string) : list Z := map (fun c => Z.of_N (N_of_ascii c)) (list_ascii_of_string s).
Definition chr (c : ascii) : Z := Z.of_N (N_of_ascii c).
(** A string holds no NUL. *)
Definition is_char (c : Z) : Prop := 0 < c < 256.
Definition is_cstring (s : list Z) : Prop := Forall is_char s.
(** The character at [s[i]]. *)
Definition at_ (s : list Z) (i : nat) : Z := nth i s 0.

(** ** Classes of characters. *)
Definition EVUTIL_ISALPHA_TABLE : list Z := [0; 0; 0x7fffffe; 0x7fffffe; 0; 0; 0; 0].
Definition EVUTIL_ISALNUM_TABLE : list Z := [0; 0x3ff0000; 0x7fffffe; 0x7fffffe; 0; 0; 0; 0].
Definition EVUTIL_ISSPACE_TABLE : list Z := [0x3e00; 0x1; 0; 0; 0; 0; 0; 0].
Definition EVUTIL_ISXDIGIT_TABLE : list Z := [0; 0x3ff0000; 0x7e; 0x7e; 0; 0; 0; 0].
Definition EVUTIL_ISDIGIT_TABLE : list Z := [0; 0x3ff0000; 0; 0; 0; 0; 0; 0].
Definition EVUTIL_ISPRINT_TABLE : list Z := [0; 0xffffffff; 0xffffffff; 0x7fffffff; 0; 0; 0; 0x0].
Definition EVUTIL_ISUPPER_TABLE : list Z := [0; 0; 0x7fffffe; 0; 0; 0; 0; 0].
Definition EVUTIL_ISLOWER_TABLE : list Z := [0; 0; 0; 0x7fffffe; 0; 0; 0; 0].
Definition IMPL_CTYPE_FN (table : list Z) (c : Z) : bool :=
  let u := u8 c in
  c_true (Z.land (nth (Z.to_nat (Z.land (Z.shiftr u 5) 7)) table 0) (Z.shiftl 1 (Z.land u 31))).
Definition EVUTIL_ISALPHA_ := IMPL_CTYPE_FN EVUTIL_ISALPHA_TABLE.
Definition EVUTIL_ISALNUM_ := IMPL_CTYPE_FN EVUTIL_ISALNUM_TABLE.
Definition EVUTIL_ISSPACE_ := IMPL_CTYPE_FN EVUTIL_ISSPACE_TABLE.
Definition EVUTIL_ISDIGIT_ := IMPL_CTYPE_FN EVUTIL_ISDIGIT_TABLE.
Definition EVUTIL_ISXDIGIT_ := IMPL_CTYPE_FN EVUTIL_ISXDIGIT_TABLE.
Definition EVUTIL_ISPRINT_ := IMPL_CTYPE_FN EVUTIL_ISPRINT_TABLE.
Definition EVUTIL_ISLOWER_ := IMPL_CTYPE_FN EVUTIL_ISLOWER_TABLE.
Definition EVUTIL_ISUPPER_ := IMPL_CTYPE_FN EVUTIL_ISUPPER_TABLE.

(** The value of a hexadecimal digit. *)
Definition evutil_hex_char_to_int_ (c : Z) : Z :=
  if (48 <=? c) && (c <=? 57) then c - 48
  else if (65 <=? c) && (c <=? 70) then c - 55
  else if (97 <=? c) && (c <=? 102) then c - 87
  else -1.

(** ** Comparison and trimming. *)
Definition EVUTIL_TOUPPER_TABLE : list Z := [
  0; 1; 2; 3; 4; 5; 6; 7; 8; 9; 10; 11; 12; 13; 14; 15;
  16; 17; 18; 19; 20; 21; 22; 23; 24; 25; 26; 27; 28; 29; 30; 31;
  32; 33; 34; 35; 36; 37; 38; 39; 40; 41; 42; 43; 44; 45; 46; 47;
  48; 49; 50; 51; 52; 53; 54; 55; 56; 57; 58; 59; 60; 61; 62; 63;
  64; 65; 66; 67; 68; 69; 70; 71; 72; 73; 74; 75; 76; 77; 78; 79;
  80; 81; 82; 83; 84; 85; 86; 87; 88; 89; 90; 91; 92; 93; 94; 95;
  96; 65; 66; 67; 68; 69; 70; 71; 72; 73; 74; 75; 76; 77; 78; 79;
  80; 81; 82; 83; 84; 85; 86; 87; 88; 89; 90; 123; 124; 125; 126; 127;
  128; 129; 130; 131; 132; 133; 134; 135; 136; 137; 138; 139; 140; 141; 142; 143;
  144; 145; 146; 147; 148; 149; 150; 151; 152; 153; 154; 155; 156; 157; 158; 159;
  160; 161; 162; 163; 164; 165; 166; 167; 168; 169; 170; 171; 172; 173; 174; 175;
  176; 177; 178; 179; 180; 181; 182; 183; 184; 185; 186; 187; 188; 189; 190; 191;
  192; 193; 194; 195; 196; 197; 198; 199; 200; 201; 202; 203; 204; 205; 206; 207;
  208; 209; 210; 211; 212; 213; 214; 215; 216; 217; 218; 219; 220; 221; 222; 223;
  224; 225; 226; 227; 228; 229; 230; 231; 232; 233; 234; 235; 236; 237; 238; 239;
  240; 241; 242; 243; 244; 245; 246; 247; 248; 249; 250; 251; 252; 253; 254; 255].
Definition EVUTIL_TOLOWER_TABLE : list Z := [
  0; 1; 2; 3; 4; 5; 6; 7; 8; 9; 10; 11; 12; 13; 14; 15;
  16; 17; 18; 19; 20; 21; 22; 23; 24; 25; 26; 27; 28; 29; 30; 31;
  32; 33; 34; 35; 36; 37; 38; 39; 40; 41; 42; 43; 44; 45; 46; 47;
  48; 49; 50; 51; 52; 53; 54; 55; 56; 57; 58; 59; 60; 61; 62; 63;
  64; 97; 98; 99; 100; 101; 102; 103; 104; 105; 106; 107; 108; 109; 110; 111;
  112; 113; 114; 115; 116; 117; 118; 119; 120; 121; 122; 91; 92; 93; 94; 95;
  96; 97; 98; 99; 100; 101; 102; 103; 104; 105; 106; 107; 108; 109; 110; 111;
  112; 113; 114; 115; 116; 117; 118; 119; 120; 121; 122; 123; 124; 125; 126; 127;
  128; 129; 130; 131; 132; 133; 134; 135; 136; 137; 138; 139; 140; 141; 142; 143;
  144; 145; 146; 147; 148; 149; 150; 151; 152; 153; 154; 155; 156; 157; 158; 159;
  160; 161; 162; 163; 164; 165; 166; 167; 168; 169; 170; 171; 172; 173; 174; 175;
  176; 177; 178; 179; 180; 181; 182; 183; 184; 185; 186; 187; 188; 189; 190; 191;
  192; 193; 194; 195; 196; 197; 198; 199; 200; 201; 202; 203; 204; 205; 206; 207;
  208; 209; 210; 211; 212; 213; 214; 215; 216; 217; 218; 219; 220; 221; 222; 223;
  224; 225; 226; 227; 228; 229; 230; 231; 232; 233; 234; 235; 236; 237; 238; 239;
  240; 241; 242; 243; 244; 245; 246; 247; 248; 249; 250; 251; 252; 253; 254; 255].
Definition EVUTIL_TOLOWER_ (c : Z) : Z := nth (Z.to_nat (u8 c)) EVUTIL_TOLOWER_TABLE 0.
Definition EVUTIL_TOUPPER_ (c : Z) : Z := nth (Z.to_nat (u8 c)) EVUTIL_TOUPPER_TABLE 0.
(** A [char] is signed. *)
Definition s8 (c : Z) : Z := if c <? 128 then c else c - 256.
Fixpoint evutil_ascii_strcasecmp (s1 s2 : list Z) : Z :=
  let c1 := s8 (EVUTIL_TOLOWER_ (at_ s1 0)) in
  let c2 := s8 (EVUTIL_TOLOWER_ (at_ s2 0)) in
  if c1 <? c2 then -1
  else if c2 <? c1 then 1
  else if c1 =? 0 then 0
  else match s1 with [] => 0 | _ :: s1 => evutil_ascii_strcasecmp s1 (tail s2) end.
Fixpoint evutil_ascii_strncasecmp (s1 s2 : list Z) (n : nat) : Z :=
  match n with
  | O => 0
  | S n =>
      let c1 := s8 (EVUTIL_TOLOWER_ (at_ s1 0)) in
      let c2 := s8 (EVUTIL_TOLOWER_ (at_ s2 0)) in
      if c1 <? c2 then -1
      else if c2 <? c1 then 1
      else if c1 =? 0 then 0
      else evutil_ascii_strncasecmp (tail s1) (tail s2) n
  end.
(** From the last character backwards, blanks are overwritten with NUL. *)
Fixpoint drop_blanks (s : list Z) : list Z :=
  match s with c :: s' => if (c =? 32) || (c =? 9) then drop_blanks s' else s | [] => [] end.
Definition evutil_rtrim_lws_ (s : list Z) : list Z := reverse (drop_blanks (reverse s)).

(** ** The standard functions used. *)

(** [strchr] for a character other than NUL: what is before its first
    occurrence, and what is after it. *)
Fixpoint split_at (c : Z) (s : list Z) : option (list Z * list Z) :=
  match s with
  | [] => None
  | x :: s => if x =? c then Some ([], s) else '(a, b) ← split_at c s; Some (x :: a, b)
  end.
(** Bytes as a C string end at a NUL. *)
Definition cstr (s : list Z) : list Z := match split_at 0 s with Some (a, _) => a | None => s end.
(** [strchr(set, c)] as a test: the NUL of [set] is found, too. *)
Definition strchr (set : list Z) (c : Z) : bool := (c =? 0) || existsb (fun x => x =? c) set.
(** The characters of [%d] for a number that is not negative, and of [%02X]. *)
Fixpoint digits (fuel : nat) (base n : Z) : list Z :=
  match fuel with
  | O => []
  | S fuel => (if n <? base then [] else digits fuel base (n / base)) ++ [n mod base]
  end.
Definition hex_digit (upper : bool) (d : Z) : Z := if d <? 10 then 48 + d else if upper then 55 + d else 87 + d.
Definition printf_d (n : Z) : list Z := map (fun d => 48 + d) (digits 20 10 n).
Definition printf_02X (n : Z) : list Z := [hex_digit true (n / 16); hex_digit true (n mod 16)].

(** ** Facts about characters, checked on all of them. *)
Definition all_chars : list Z := map Z.of_nat (seq 0 256).
Lemma all_chars_ok (P : Z -> bool) : forallb P all_chars = true -> forall c, 0 <= c < 256 -> P c = true.
Proof.
  intros HP c Hc. rewrite forallb_forall in HP. apply HP. unfold all_chars. apply in_map_iff. exists (Z.to_nat c).
  split; [lia|]. apply in_seq. lia.
Qed.

(** * Numbers in text

    What [strtol], [sscanf] and [printf] of the C library do with numbers, and
    that what is printed is read back. *)
(** ** The functions. *)
Definition is_space (c : Z) : bool := (c =? 32) || ((9 <=? c) && (c <=? 13)).
Fixpoint skip_spaces (s : list Z) : list Z := match s with c :: s' => if is_space c then skip_spaces s' else s | [] => [] end.
Definition scan_sign (s : list Z) : bool * list Z :=
  match s with c :: s' => if c =? 45 then (true, s') else if c =? 43 then (false, s') else (false, s) | [] => (false, []) end.
Definition digit_of (base c : Z) : option Z :=
  let d := evutil_hex_char_to_int_ c in if (0 <=? d) && (d <? base) then Some d else None.
Fixpoint scan_digits (base : Z) (s : list Z) (acc : Z) : Z * list Z :=
  match s with c :: s' => match digit_of base c with Some d => scan_digits base s' (acc * base + d) | None => (acc, s) end | [] => (acc, []) end.
(** A number of at least one digit. *)
Definition scan_number (base : Z) (s : list Z) : option (Z * list Z) :=
  match s with c :: _ => match digit_of base c with Some _ => Some (scan_digits base s 0) | None => None end | [] => None end.
(** The prefix [0x] counts when a digit follows. *)
Definition skip_0x (base : Z) (s : list Z) : list Z :=
  match s with
  | 48 :: (x :: t) => if (base =? 16) && ((x =? 120) || (x =? 88)) && match scan_number 16 t with Some _ => true | None => false end then t else s
  | _ => s
  end.
Definition clamp64 (n : Z) : Z := Z.max (- 2 ^ 63) (Z.min n (2 ^ 63 - 1)).
(** The number, and what follows it: all of the string when it has none. *)
Definition evutil_strtoll (s : list Z) (base : Z) : Z * list Z :=
  let '(neg, t) := scan_sign (skip_spaces s) in
  match scan_number base (skip_0x base t) with
  | Some (n, rest) => (clamp64 (if neg then - n else n), rest)
  | None => (0, s)
  end.
Definition atoi (s : list Z) : Z := s32 (fst (evutil_strtoll s 10)).
(** [%d] of [sscanf]. *)
Definition scan_d (s : list Z) : option (Z * list Z) :=
  let '(neg, t) := scan_sign (skip_spaces s) in
  '(n, rest) ← scan_number 10 t; Some (s32 (clamp64 (if neg then - n else n)), rest).
(** [%u] of [sscanf]: [strtoul], of which an [unsigned] is kept. *)
Definition scan_u (s : list Z) : option (Z * list Z) :=
  let '(neg, t) := scan_sign (skip_spaces s) in
  '(n, rest) ← scan_number 10 t; let n := Z.min n (2 ^ 64 - 1) in Some (u32 (if neg then - n else n), rest).
(** [%x]. *)
Definition printf_x (n : Z) : list Z := map (hex_digit false) (digits 20 16 n).

(** ** Digits. *)
Lemma digits_range base n fuel : 0 < base -> 0 <= n -> Forall (fun d => 0 <= d < base) (digits fuel base n).
Proof.
  intros Hb. revert n. induction fuel as [|fuel IH]; intros n Hn; cbn [digits]; [constructor|].
  apply Forall_app. split; [|constructor; [apply Z.mod_pos_bound; lia | constructor]].
  case_if; [constructor|]. apply IH. by apply Z.div_pos.
Qed.
Lemma digit_of_hex base d : 0 <= d < base -> base <= 16 -> digit_of base (hex_digit false d) = Some d.
Proof.
  intros Hd Hb. assert (HH : evutil_hex_char_to_int_ (hex_digit false d) = d).
  { assert (Hc : 0 <= d < 256) by lia.
    pose proof (all_chars_ok (fun d => negb (d <? 16) || (evutil_hex_char_to_int_ (hex_digit false d) =? d)) ltac:(vm_compute; reflexivity) d Hc) as HA. cbn beta in HA. lia. }
  unfold digit_of. rewrite HH. replace ((0 <=? d) && (d <? base)) with true by lia. done.
Qed.
Lemma scan_digits_app base a rest acc : Forall (fun d => 0 <= d < base) a -> base <= 16 ->
  scan_digits base (map (hex_digit false) a ++ rest) acc = scan_digits base rest (foldl (fun acc d => acc * base + d) acc a).
Proof.
  intros Ha Hb. revert acc. induction Ha as [|d a Hd Ha IH]; intros acc; [done|]. cbn. rewrite digit_of_hex by done. apply IH.
Qed.
Lemma digits_value base fuel n acc : 1 < base -> 0 <= n < base ^ Z.of_nat fuel -> (0 < fuel)%nat ->
  foldl (fun acc d => acc * base + d) acc (digits fuel base n) = acc * base ^ Z.of_nat (length (digits fuel base n)) + n.
Proof.
  intros Hb. revert n acc. induction fuel as [|fuel IH]; intros n acc Hn Hf; [lia|]. cbn [digits]. rewrite foldl_app, length_app. cbn [foldl length].
  case_if.
  - cbn [foldl length]. rewrite Z.mod_small by lia. change (Z.of_nat (0 + 1)) with 1. lia.
  - rewrite Nat2Z.inj_succ, Z.pow_succ_r in Hn by lia. destruct fuel as [|fuel]; [change (base ^ Z.of_nat 0) with 1 in Hn; lia|].
    rewrite IH; [|split; [apply Z.div_pos; lia | apply Z.div_lt_upper_bound; lia] | lia].
    rewrite Nat2Z.inj_add, Z.pow_add_r by lia. change (Z.of_nat 1) with 1. rewrite Z.pow_1_r. pose proof (Z_div_mod_eq_full n base). nia.
Qed.
Lemma scan_printed base n rest : 1 < base <= 16 -> 0 <= n < base ^ 20 -> scan_digits base (map (hex_digit false) (digits 20 base n) ++ rest) 0 = scan_digits base rest n.
Proof.
  intros Hb Hn. rewrite scan_digits_app by (try apply digits_range; lia). by rewrite digits_value by (change (Z.of_nat 20) with 20; lia).
Qed.
Lemma digits_ne fuel base n : (0 < fuel)%nat -> digits fuel base n <> [].
Proof. destruct fuel; [lia|]. intros _. cbn. by intros [_ ?]%app_eq_nil. Qed.

(** A hexadecimal digit is none of the characters that a number is skipped for. *)
Lemma hex_skipped d : 0 <= d < 16 -> let c := hex_digit false d in is_space c = false /\ c <> 45 /\ c <> 43 /\ c <> 120 /\ c <> 88.
Proof.
  intros Hd c. assert (Hc : 0 <= d < 256) by lia.
  pose proof (all_chars_ok (fun d => negb (d <? 16) || (negb (is_space (hex_digit false d)) && negb (hex_digit false d =? 45) && negb (hex_digit false d =? 43) &&
    negb (hex_digit false d =? 120) && negb (hex_digit false d =? 88))) ltac:(vm_compute; reflexivity) d Hc) as HA.
  cbn beta in HA. fold c in HA. replace (d <? 16) with true in HA by lia. cbn [negb orb] in HA. rewrite !andb_true_iff, !negb_true_iff, !Z.eqb_neq in HA. tauto.
Qed.
(** What neither continues a number nor makes a prefix of it. *)
Definition no_hex (rest : list Z) : Prop := match rest with [] => True | c :: _ => digit_of 16 c = None /\ c <> 120 /\ c <> 88 end.
Lemma strtoll_printed n rest : 0 <= n < 2 ^ 63 -> no_hex rest -> evutil_strtoll (printf_x n ++ rest) 16 = (n, rest).
Proof.
  intros Hn Hrest. unfold printf_x. pose proof (digits_range 16 n 20 ltac:(lia) ltac:(lia)) as HR. pose proof (digits_ne 20 16 n ltac:(lia)) as Hne.
  pose proof (scan_printed 16 n rest ltac:(lia) ltac:(lia)) as HS.
  assert (HE : scan_digits 16 rest n = (n, rest)) by (destruct rest as [|c rest]; [done | cbn in *; by destruct Hrest as [-> _]]). rewrite HE in HS. clear HE.
  set (l := digits 20 16 n) in *. clearbody l. destruct l as [|d l]; [done|]. apply Forall_cons in HR as [Hd HR]. cbn [map app] in *.
  destruct (hex_skipped d Hd) as (H1 & H2 & H3 & _). unfold evutil_strtoll. cbn [skip_spaces]. rewrite H1. cbn [scan_sign].
  rewrite (proj2 (Z.eqb_neq _ _) H2), (proj2 (Z.eqb_neq _ _) H3).
  assert (Hskip : skip_0x 16 (hex_digit false d :: map (hex_digit false) l ++ rest) = hex_digit false d :: map (hex_digit false) l ++ rest).
  { assert (Hx : forall c t, map (hex_digit false) l ++ rest = c :: t -> c <> 120 /\ c <> 88).
    { intros c t. destruct l as [|e l]; [cbn; intros ->; by destruct Hrest as [_ ?]|]. apply Forall_cons in HR as [He _]. destruct (hex_skipped e He) as (_ & _ & _ & H4). cbn. by intros [= <- _]. }
    unfold skip_0x. destruct (map (hex_digit false) l ++ rest) as [|c t]; [by repeat case_match|]. destruct (Hx c t eq_refl) as [H4 H5].
    rewrite (proj2 (Z.eqb_neq _ _) H4), (proj2 (Z.eqb_neq _ _) H5). repeat case_match; done. }
  rewrite Hskip. cbn [scan_number]. rewrite digit_of_hex by lia. rewrite HS. cbn. unfold clamp64. do 2 f_equal. lia.
Qed.
Lemma strtoll_x n : 0 <= n < 2 ^ 63 -> evutil_strtoll (printf_x n) 16 = (n, []).
Proof. intros Hn. pose proof (strtoll_printed n [] Hn I) as HS. by rewrite app_nil_r in HS. Qed.

(** ** Decimal numbers. *)
Lemma printf_d_hex n : 0 <= n -> printf_d n = map (hex_digit false) (digits 20 10 n).
Proof.
  intros Hn. unfold printf_d. apply map_ext_in. intros d Hd. apply list_elem_of_In in Hd.
  pose proof (digits_range 10 n 20 ltac:(lia) Hn) as HR. rewrite Forall_forall in HR. apply HR in Hd. unfold hex_digit. by replace (d <? 10) with true by lia.
Qed.
Lemma printf_d_chars n : 0 <= n -> Forall (fun c => 48 <= c <= 57) (printf_d n).
Proof.
  intros Hn. unfold printf_d. pose proof (digits_range 10 n 20 ltac:(lia) Hn) as HR. apply Forall_map. eapply Forall_impl; [exact HR|]. cbn. lia.
Qed.
Lemma printf_d_ne n : printf_d n <> [].
Proof. unfold printf_d. intros Hn%map_eq_nil. by apply (digits_ne 20 10 n ltac:(lia)). Qed.
(** What does not begin with a digit ends a number. *)
Definition no_digit (rest : list Z) : Prop := match rest with [] => True | c :: _ => digit_of 10 c = None end.
Lemma scan_printed_d n rest : 0 <= n < 10 ^ 20 -> no_digit rest -> let s := printf_d n ++ rest in
  scan_sign (skip_spaces s) = (false, s) /\ scan_number 10 s = Some (n, rest).
Proof.
  intros Hn Hrest. pose proof (printf_d_chars n ltac:(lia)) as HC. pose proof (printf_d_ne n) as Hne.
  pose proof (scan_printed 10 n rest ltac:(lia) ltac:(lia)) as HS. rewrite <- printf_d_hex in HS by lia.
  assert (HE : scan_digits 10 rest n = (n, rest)) by (destruct rest as [|c rest]; [done | cbn in *; by rewrite Hrest]). rewrite HE in HS. clear HE.
  destruct (printf_d n) as [|c l]; [done|]. apply Forall_cons in HC as [Hc _]. cbn [app] in *.
  assert (Hd : is_space c = false /\ (c =? 45) = false /\ (c =? 43) = false) by (unfold is_space; lia). destruct Hd as (H1 & H2 & H3). split.
  - cbn [skip_spaces]. rewrite H1. cbn [scan_sign]. by rewrite H2, H3.
  - cbn [scan_number]. assert (Hdig : digit_of 10 c = Some (c - 48)).
    { unfold digit_of, evutil_hex_char_to_int_. replace ((48 <=? c) && (c <=? 57)) with true by lia. cbv zeta iota. by replace ((0 <=? c - 48) && (c - 48 <? 10)) with true by lia. }
    by rewrite Hdig, HS.
Qed.
Lemma scan_d_printed n rest : 0 <= n < 2 ^ 31 -> no_digit rest -> scan_d (printf_d n ++ rest) = Some (n, rest).
Proof.
  intros Hn Hrest. destruct (scan_printed_d n rest ltac:(lia) Hrest) as [H1 H2]. unfold scan_d. rewrite H1, H2. cbn. do 2 f_equal. unfold clamp64. replace (Z.max _ _) with n by lia. apply s32_small. lia.
Qed.
Lemma scan_u_printed n rest : 0 <= n < 2 ^ 32 -> no_digit rest -> scan_u (printf_d n ++ rest) = Some (n, rest).
Proof.
  intros Hn Hrest. destruct (scan_printed_d n rest ltac:(lia) Hrest) as [H1 H2]. unfold scan_u. rewrite H1, H2. cbn. do 2 f_equal. replace (Z.min _ _) with n by lia. apply u32_small. lia.
Qed.
Lemma atoi_printed n : 0 <= n < 2 ^ 31 -> atoi (printf_d n) = n.
Proof.
  intros Hn. destruct (scan_printed_d n [] ltac:(lia) I) as [H1 H2]. cbv zeta in *. rewrite app_nil_r in *. unfold atoi, evutil_strtoll. rewrite H1.
  replace (skip_0x 10 (printf_d n)) with (printf_d n) by (unfold skip_0x; repeat case_match; done). rewrite H2. cbn. unfold clamp64. replace (Z.max _ _) with n by lia. apply s32_small. lia.
Qed.
Lemma digits_length base k : forall fuel n, 1 < base -> 0 <= n < base ^ Z.of_nat (S k) -> (length (digits fuel base n) <= S k)%nat.
Proof.
  assert (H1 : base ^ Z.of_nat 1 = base) by apply Z.pow_1_r. induction k as [|k IH]; intros fuel n Hb Hn; (destruct fuel as [|fuel]; [cbn; lia|]); cbn [digits]; rewrite length_app; cbn [length]; case_if; cbn [length]; try lia.
  rewrite Nat2Z.inj_succ, Z.pow_succ_r in Hn by lia. specialize (IH fuel (n / base) Hb ltac:(split; [apply Z.div_pos; lia | apply Z.div_lt_upper_bound; lia])). lia.
Qed.
