(* ===== verification/Address.v ===== *)
(** * Addresses and their text (evutil.c)

    IPv4 and IPv6 addresses are printed and parsed, with and without a port.
    An address in memory is its bytes; a string is what the C library sees of
    it; characters and words that were not written are [None], and so is the
    result of a function that would read one. *)
From Stdlib Require Import Ascii String.
From S2P Require Import Prelude Event Buffer CString.
Open Scope Z_scope.

Definition AF_INET_ : Z := 2.
Definition AF_INET6_ : Z := 10.
(** The numbers of addresses and ports are in host order. *)
Inductive sockaddr := AF_INET (addr port : Z) | AF_INET6 (addr : list Z) (port : Z) | AF_OTHER (family : Z).
Definition sizeof_sockaddr_in : Z := 16.
Definition sizeof_sockaddr_in6 : Z := 28.
Definition sizeof_sockaddr_storage : Z := 128.
Definition ntohl (x : Z) : Z :=
  Z.lor (Z.shiftl (Z.land x 0xff) 24) (Z.lor (Z.shiftl (Z.land (Z.shiftr x 8) 0xff) 16) (Z.lor (Z.shiftl (Z.land (Z.shiftr x 16) 0xff) 8) (Z.land (Z.shiftr x 24) 0xff))).

(** ** The library functions used. *)
(** What of a text [snprintf] and [strlcpy] put into a buffer. *)
Definition clipped (text : list Z) (len : Z) : list Z := ztake (len - 1) text.
Definition dotted (a b c d : Z) : list Z := printf_d a ++ [46] ++ printf_d b ++ [46] ++ printf_d c ++ [46] ++ printf_d d.
Definition skip_char (c : Z) (s : list Z) : option (list Z) := match s with x :: s => if x =? c then Some s else None | [] => None end.
(** [sscanf(s, "%u.%u.%u.%u%c", ...) == 4]. *)
Definition scan_dotted (s : list Z) : option (Z * Z * Z * Z) :=
  '(a, s) ← scan_u s; s ← skip_char 46 s; '(b, s) ← scan_u s; s ← skip_char 46 s; '(c, s) ← scan_u s; s ← skip_char 46 s; '(d, s) ← scan_u s;
  match s with [] => Some (a, b, c, d) | _ => None end.

(** ** Printing. *)
Definition byte_at (l : list Z) (i : nat) : Z := nth i l 0.
Definition words_of (addr : list Z) : list Z := map (fun i => u16 (Z.shiftl (byte_at addr (2 * i)) 8 + byte_at addr (2 * i + 1))) (seq 0 8).
(** The number of words that are zero from the beginning of a list. *)
Fixpoint gap_len (words : list Z) : nat := match words with w :: words => if w =? 0 then S (gap_len words) else O | [] => O end.
(** The loop that looks for the longest gap, from word [i]: its place and length. *)
Fixpoint longest_gap (turns : nat) (words : list Z) (i : nat) (pos len : Z) : Z * Z :=
  match turns with
  | O => (pos, len)
  | S turns =>
      match drop i words with
      | [] => (pos, len)
      | w :: _ =>
          if w =? 0 then
            let n := gap_len (drop i words) in
            if len <? Z.of_nat n then longest_gap turns words (i + n) (Z.of_nat i) (Z.of_nat n) else longest_gap turns words (i + n) pos len
          else longest_gap turns words (S i) pos len
      end
  end.
Fixpoint put_words (turns : nat) (words : list Z) (i : nat) (gap : Z) : list Z :=
  match turns with
  | O => []
  | S turns =>
      match drop i words with
      | [] => []
      | w :: _ =>
          if (w =? 0) && (gap =? Z.of_nat i) then
            (if Nat.eqb i 0 then [58] else []) ++ [58] ++ put_words turns words (i + gap_len (drop i words)) gap
          else printf_x w ++ (if Nat.eqb i 7 then [] else [58]) ++ put_words turns words (S i) gap
      end
  end.
Definition ip6_text (addr : list Z) : list Z :=
  let words := words_of addr in
  let w i := byte_at words i in
  let last := dotted (byte_at addr 12) (byte_at addr 13) (byte_at addr 14) (byte_at addr 15) in
  if forallb (Z.eqb 0) (take 5 words) && ((w 5%nat =? 0) && c_true (w 6%nat) && c_true (w 7%nat) || (w 5%nat =? 0xffff)) then
    if w 5%nat =? 0 then str "::" ++ last else str "::" ++ printf_x (w 5%nat) ++ [58] ++ last
  else
    let '(pos, len) := longest_gap 8 words 0 (-1) 0 in
    put_words 8 words 0 (if len <=? 1 then -1 else pos).
(** [None] is the null pointer, otherwise the text in [dst]. *)
Definition evutil_inet_ntop (af : Z) (src : list Z) (len : Z) : option (list Z) :=
  if af =? AF_INET_ then
    let text := dotted (byte_at src 0) (byte_at src 1) (byte_at src 2) (byte_at src 3) in
    if len <=? zlen text then None else Some (clipped text len)
  else if af =? AF_INET6_ then
    let text := ip6_text src in
    if len <? zlen text then None else Some (clipped text len)
  else None.

(** ** Parsing. *)
Definition be_bytes (x : Z) : list Z := [Z.land (Z.shiftr x 24) 0xff; Z.land (Z.shiftr x 16) 0xff; Z.land (Z.shiftr x 8) 0xff; Z.land x 0xff].
Definition small_bytes (q : Z * Z * Z * Z) : bool := let '(a, b, c, d) := q in (a <=? 255) && (b <=? 255) && (c <=? 255) && (d <=? 255).
(** [src] is what is left, of which [behind] characters are behind [eow]. *)
Record scan := Scan { src : list Z; i_ : nat; gapPos : Z; setWords : Z; words : list (option Z) }.
(** Storing words in the array, one ([words[i] = r]) or several ([memmove] and
    [memset]); [None] is a store outside it. *)
Definition put_at {A} (to : Z) (l words : list A) : option (list A) :=
  if (0 <=? to) && (to + zlen l <=? zlen words) then Some (list_inserts (Z.to_nat to) l words) else None.
(** The result [None] is that the text is refused; without result the turns are too few. *)
Fixpoint pton_loop (turns : nat) (behind : Z) (s : scan) : option (option scan) :=
  if behind <? zlen (src s) then
    match turns with
    | O => None
    | S turns =>
        let c := at_ (src s) 0 in
        if Nat.ltb 7 (i_ s) then Some None
        else if EVUTIL_ISXDIGIT_ c then
          let '(r, next) := evutil_strtoll (src s) 16 in
          if (4 <? zlen (src s) - zlen next) || (zlen next =? zlen (src s)) then Some None
          else if (r <? 0) || (65536 <? r) then Some None
          else if negb (at_ next 0 =? 58) && negb (zlen next =? behind) then Some None
          else
            ws ← put_at (Z.of_nat (i_ s)) [Some (u16 r)] (words s);
            pton_loop turns behind (Scan (tail next) (S (i_ s)) (gapPos s) (setWords s + 1) ws)
        else if (c =? 58) && Nat.ltb 0 (i_ s) && (gapPos s =? -1) then
          pton_loop turns behind {| src := tail (src s); i_ := i_ s; gapPos := Z.of_nat (i_ s); setWords := setWords s; words := words s |}
        else if (c =? 58) && Nat.eqb (i_ s) 0 && (at_ (src s) 1 =? 58) && (gapPos s =? -1) then
          pton_loop turns behind {| src := tail (tail (src s)); i_ := i_ s; gapPos := Z.of_nat (i_ s); setWords := setWords s; words := words s |}
        else Some None
    end
  else Some (Some s).
(** The result of the function, with the address when it is 1. *)
Definition close_gap (dot : bool) (s : scan) : option (Z * list Z) :=
  if (8 <? setWords s) || ((setWords s =? 8) && negb (gapPos s =? -1)) || ((setWords s <? 8) && (gapPos s =? -1)) then Some (0, [])
  else
    let nToMove := setWords s - (if dot then 2 else 0) - gapPos s in
    let gapLen := 8 - setWords s in
    if (0 <=? gapPos s) && (nToMove <? 0) then Some (-1, [])
    else
      ws ← (if 0 <=? gapPos s then
              ws ← put_at (gapPos s + gapLen) (ztake nToMove (zdrop (gapPos s) (words s))) (words s);
              put_at (gapPos s) (replicate (Z.to_nat gapLen) (Some 0)) ws
            else Some (words s));
      ws ← mapM id ws; Some (1, flat_map (fun w => [Z.shiftr w 8; Z.land w 0xff]) ws).
(** Digits at the beginning of a list. *)
Fixpoint leading_digits (s : list Z) : nat := match s with c :: s => if EVUTIL_ISDIGIT_ c then S (leading_digits s) else O | [] => O end.
Definition no_words : list (option Z) := replicate 8 None.
Definition evutil_inet_pton (af : Z) (text : list Z) : option (Z * list Z) :=
  if af =? AF_INET_ then
    match scan_dotted text with
    | Some (a, b, c, d) =>
        if small_bytes (a, b, c, d) then Some (1, be_bytes (u32 (Z.lor (Z.shiftl a 24) (Z.lor (Z.shiftl b 16) (Z.lor (Z.shiftl c 8) d))))) else Some (0, [])
    | None => Some (0, [])
    end
  else if af =? AF_INET6_ then
    match split_at 46 text with
    | Some ([], _) => Some (0, [])
    | None => o ← pton_loop (length text) 0 (Scan text 0 (-1) 0 no_words);
              match o with None => Some (0, []) | Some s => close_gap false s end
    | Some (before, _) =>
        let eow := zlen before - Z.of_nat (leading_digits (reverse before)) in
        match scan_dotted (zdrop eow text) with
        | Some (byte1, byte2, byte3, byte4) =>
            if small_bytes (byte1, byte2, byte3, byte4) then
              let ws := <[7%nat := Some (Z.lor (Z.shiftl byte3 8) byte4)]> (<[6%nat := Some (Z.lor (Z.shiftl byte1 8) byte2)]> no_words) in
              o ← pton_loop (length text) (zlen text - eow) (Scan text 0 (-1) 2 ws);
              match o with None => Some (0, []) | Some s => close_gap true s end
            else Some (0, [])
        | None => Some (0, [])
        end
    end
  else Some (-1, []).

(** ** With ports. *)
Definition be_number (l : list Z) : Z := 2 ^ 24 * byte_at l 0 + 2 ^ 16 * byte_at l 1 + 2 ^ 8 * byte_at l 2 + byte_at l 3.
(** The three cases of brackets, several colons and at most one colon: whether
    it is IPv6, the part that is the address, and what follows a colon. *)
Definition split_port (text : list Z) : option (bool * list Z * option (list Z)) :=
  match text with
  | 91 :: inner =>
      '(addr, after) ← split_at 93 inner;
      if 127 <? zlen addr then None else Some (true, addr, skip_char 58 after)
  | _ =>
      match split_at 58 text with
      | Some (addr, after) =>
          match split_at 58 after with
          | Some _ => Some (true, text, None)
          | None => if 127 <? zlen addr then None else Some (false, addr, Some after)
          end
      | None => Some (false, text, None)
      end
  end.
(** The result, and what is in [out] and [*outlen] when that is 0. *)
Definition evutil_parse_sockaddr_port (text : list Z) (outlen : Z) : option (Z * option (sockaddr * Z)) :=
  match split_port text with
  | None => Some (-1, None)
  | Some (is_ipv6, addr_part, port_part) =>
      let port := match port_part with None => 0 | Some p => atoi p end in
      if match port_part with None => false | Some _ => (port <=? 0) || (65535 <? port) end then Some (-1, None)
      else
        '(r, bytes) ← evutil_inet_pton (if is_ipv6 then AF_INET6_ else AF_INET_) addr_part;
        let len := if is_ipv6 then sizeof_sockaddr_in6 else sizeof_sockaddr_in in
        if negb (r =? 1) then Some (-1, None)
        else if outlen <? len then Some (-1, None)
        else Some (0, Some (if is_ipv6 then AF_INET6 bytes port else AF_INET (be_number bytes) port, len))
  end.
Definition evutil_format_sockaddr_port_ (sa : sockaddr) (outlen : Z) : list Z :=
  let socktype f := clipped (str "<addr with socktype " ++ printf_d f ++ str ">") outlen in
  match sa with
  | AF_INET addr port =>
      match evutil_inet_ntop AF_INET_ (be_bytes addr) 128 with
      | Some b => clipped (b ++ [58] ++ printf_d port) outlen
      | None => socktype AF_INET_
      end
  | AF_INET6 addr port =>
      match evutil_inet_ntop AF_INET6_ addr 128 with
      | Some b => clipped ([91] ++ b ++ [93; 58] ++ printf_d port) outlen
      | None => socktype AF_INET6_
      end
  | AF_OTHER f => socktype f
  end.
(** [evutil_sockaddr_cmp] gives 0. *)
Definition evutil_sockaddr_same (a b : sockaddr) (include_port : bool) : bool :=
  match a, b with
  | AF_INET x p, AF_INET y q => (x =? y) && (negb include_port || (p =? q))
  | AF_INET6 x p, AF_INET6 y q => bool_decide (x = y) && (negb include_port || (p =? q))
  | _, _ => false
  end.
Definition evutil_sockaddr_is_loopback_ (sa : sockaddr) : bool :=
  match sa with
  | AF_INET addr _ => Z.land addr 0xff000000 =? 0x7f000000
  | AF_INET6 addr _ => bool_decide (addr = replicate 15 0 ++ [1])
  | AF_OTHER _ => false
  end.
Definition sockaddr_getport (sa : sockaddr) : Z := match sa with AF_INET _ p | AF_INET6 _ p => p | AF_OTHER _ => 0 end.
Definition sockaddr_setport (sa : sockaddr) (port : Z) : sockaddr := match sa with AF_INET a _ => AF_INET a port | AF_INET6 a _ => AF_INET6 a port | AF_OTHER f => sa end.
