(* ===== verification/Uri.v ===== *)
(** * URIs (http.c)

    Encoding and decoding of strings for URIs, queries, and the parser of URI
    references with its inverse. *)
From Stdlib Require Import Ascii String.
From S2P Require Import Prelude Event Buffer ByteQueue CString Address.
Open Scope Z_scope.

(** ** Encoding. *)
Definition uri_chars : list Z := [
  0; 0; 0; 0; 0; 0; 0; 0; 0; 0; 0; 0; 0; 0; 0; 0;
  0; 0; 0; 0; 0; 0; 0; 0; 0; 0; 0; 0; 0; 0; 0; 0;
  0; 0; 0; 0; 0; 0; 0; 0; 0; 0; 0; 0; 0; 1; 1; 0;
  1; 1; 1; 1; 1; 1; 1; 1; 1; 1; 0; 0; 0; 0; 0; 0;
  0; 1; 1; 1; 1; 1; 1; 1; 1; 1; 1; 1; 1; 1; 1; 1;
  1; 1; 1; 1; 1; 1; 1; 1; 1; 1; 1; 0; 0; 0; 0; 1;
  0; 1; 1; 1; 1; 1; 1; 1; 1; 1; 1; 1; 1; 1; 1; 1;
  1; 1; 1; 1; 1; 1; 1; 1; 1; 1; 1; 0; 0; 0; 1; 0;
  0; 0; 0; 0; 0; 0; 0; 0; 0; 0; 0; 0; 0; 0; 0; 0;
  0; 0; 0; 0; 0; 0; 0; 0; 0; 0; 0; 0; 0; 0; 0; 0;
  0; 0; 0; 0; 0; 0; 0; 0; 0; 0; 0; 0; 0; 0; 0; 0;
  0; 0; 0; 0; 0; 0; 0; 0; 0; 0; 0; 0; 0; 0; 0; 0;
  0; 0; 0; 0; 0; 0; 0; 0; 0; 0; 0; 0; 0; 0; 0; 0;
  0; 0; 0; 0; 0; 0; 0; 0; 0; 0; 0; 0; 0; 0; 0; 0;
  0; 0; 0; 0; 0; 0; 0; 0; 0; 0; 0; 0; 0; 0; 0; 0;
  0; 0; 0; 0; 0; 0; 0; 0; 0; 0; 0; 0; 0; 0; 0; 0].
Definition CHAR_IS_UNRESERVED (c : Z) : bool := c_true (nth (Z.to_nat (u8 c)) uri_chars 0).

Section Encode.
Context `{ByteQueue Q}.

(** What the loop does for each character. *)
Fixpoint uriencode_loop (buf : Q) (uri : list Z) (space_as_plus : bool) : option Q :=
  match uri with
  | [] => Some buf
  | c :: uri =>
      buf ← (if CHAR_IS_UNRESERVED c then ignore (bq_add buf [c])
             else if (c =? 32) && space_as_plus then ignore (bq_add buf [43])
             else ignore (bq_add_printf buf (37 :: printf_02X c)));
      uriencode_loop buf uri space_as_plus
  end.
(** [buf] is the new buffer, [mem] the bytes from [uri] on, [malloc] whether
    there is memory for the result. *)
Definition evhttp_uriencode (buf : Q) (malloc : bool) (mem : list Z) (len : Z) (space_as_plus : bool) : option (option (list Z)) :=
  let uri := if 0 <=? len then ztake len mem else match split_at 0 mem with Some (s, _) => s | None => mem end in
  if (len <? 0) && (EV_SSIZE_MAX <=? zlen uri) then Some None
  else
    buf ← uriencode_loop buf uri space_as_plus;
    buf ← ignore (bq_add buf [0]);
    if malloc then '(_, result, _) ← bq_remove buf (bq_length buf); Some (Some result) else Some None.
Definition evhttp_encode_uri (buf : Q) (malloc : bool) (mem : list Z) := evhttp_uriencode buf malloc mem (-1) false.
End Encode.

(** ** Decoding.  [length] is that of [uri]. *)
Fixpoint decode_loop (uri : list Z) (decode_plus_ctl : Z) (decode_plus : bool) : list Z :=
  match uri with
  | [] => []
  | c :: rest =>
      if c =? 63 then c :: decode_loop rest decode_plus_ctl (if decode_plus_ctl <? 0 then true else decode_plus)
      else if (c =? 43) && decode_plus then 32 :: decode_loop rest decode_plus_ctl decode_plus
      else if c =? 37 then
        match rest with
        | a :: (b :: rest2) =>
            if EVUTIL_ISXDIGIT_ a && EVUTIL_ISXDIGIT_ b
            then u8 (evutil_hex_char_to_int_ a * 16 + evutil_hex_char_to_int_ b) :: decode_loop rest2 decode_plus_ctl decode_plus
            else c :: decode_loop rest decode_plus_ctl decode_plus
        | _ => c :: decode_loop rest decode_plus_ctl decode_plus
        end
      else c :: decode_loop rest decode_plus_ctl decode_plus
  end.
(** The characters written, and their number. *)
Definition evhttp_decode_uri_internal (uri : list Z) (decode_plus_ctl : Z) : list Z * Z :=
  let ret := decode_loop uri decode_plus_ctl (decode_plus_ctl =? 1) in (ret, zlen ret).
Definition evhttp_decode_uri (malloc : bool) (uri : list Z) : option (list Z) :=
  if malloc then Some (fst (evhttp_decode_uri_internal uri (-1))) else None.
Definition evhttp_uridecode (malloc : bool) (uri : list Z) (decode_plus : bool) : option (list Z * Z) :=
  if malloc then Some (evhttp_decode_uri_internal uri (c_int decode_plus)) else None.

(** ** HTML. *)
Definition html_replace (ch : Z) : list Z :=
  if ch =? 60 then str "&lt;"
  else if ch =? 62 then str "&gt;"
  else if ch =? 34 then str "&quot;"
  else if ch =? 39 then str "&#039;"
  else if ch =? 38 then str "&amp;"
  else [ch].
Definition evhttp_htmlescape (malloc : bool) (html : list Z) : option (list Z) :=
  let new_size := foldl (fun n c => n + zlen (html_replace c)) 0 html in
  if EV_SIZE_MAX <=? new_size then None
  else if malloc then Some (flat_map html_replace html) else None.

(** ** URI references. *)
Definition EVHTTP_URI_NONCONFORMANT : Z := 0x01.
Record evhttp_uri := Uri {
  uri_flags : Z;
  scheme : option (list Z); userinfo : option (list Z); host : option (list Z);
  port : Z;
  path : option (list Z); query : option (list Z); fragment : option (list Z)
}.
Definition evhttp_uri_new : evhttp_uri := Uri 0 None None None (-1) None None None.
Definition evhttp_uri_set_flags (uri : evhttp_uri) (flags : Z) : evhttp_uri := {| uri with uri_flags := flags |}.

Definition scheme_ok (s : list Z) : bool :=
  match s with
  | [] => false
  | c :: s => EVUTIL_ISALPHA_ c && forallb (fun c => EVUTIL_ISALNUM_ c || (c =? 43) || (c =? 45) || (c =? 46)) s
  end.
Definition SUBDELIMS : list Z := str "!$&'()*+,;=".
Fixpoint userinfo_ok (s : list Z) : bool :=
  match s with
  | [] => true
  | c :: s =>
      if CHAR_IS_UNRESERVED c || strchr SUBDELIMS c || (c =? 58) then userinfo_ok s
      else if c =? 37 then
        match s with a :: (b :: s) => EVUTIL_ISXDIGIT_ a && EVUTIL_ISXDIGIT_ b && userinfo_ok s | _ => false end
      else false
  end.
(** The name is [s]; [after] is what follows it in memory, which the check of
    an escape may read. *)
Fixpoint regname_ok (s after : list Z) : bool :=
  match s with
  | [] => true
  | c :: s =>
      if CHAR_IS_UNRESERVED c || strchr SUBDELIMS c then regname_ok s after
      else if c =? 37 then
        match s with
        | a :: (b :: s) => EVUTIL_ISXDIGIT_ a && EVUTIL_ISXDIGIT_ b && regname_ok s after
        | [a] => EVUTIL_ISXDIGIT_ a && EVUTIL_ISXDIGIT_ (at_ after 0)
        | [] => EVUTIL_ISXDIGIT_ (at_ after 0) && EVUTIL_ISXDIGIT_ (at_ after 1)
        end
      else false
  end.
Fixpoint port_loop (s : list Z) (portnum : Z) : Z :=
  match s with
  | [] => portnum
  | c :: s =>
      if negb (EVUTIL_ISDIGIT_ c) then -1
      else
        let portnum := portnum * 10 + (c - 48) in
        if (portnum <? 0) || (65535 <? portnum) then -1 else port_loop s portnum
  end.
Definition parse_port (s : list Z) : Z := port_loop s 0.

(** After the [v]: hexadecimal digits, a dot, and characters. *)
Fixpoint ipvfuture_ok (s : list Z) : bool :=
  match s with
  | [] => false
  | c :: s =>
      if c =? 46 then forallb (fun c => CHAR_IS_UNRESERVED c || strchr SUBDELIMS c || (c =? 58)) s
      else EVUTIL_ISXDIGIT_ c && ipvfuture_ok s
  end.

(** [evutil_inet_pton(AF_INET6, s, &in6) == 1]. *)
Definition inet_pton6 (s : list Z) : bool := match evutil_inet_pton AF_INET6_ s with Some (1, _) => true | _ => false end.
Section Parse.
Implicit Types uri : evhttp_uri.

(** 0 for bad, 1 for IPv6, 2 for a future version. *)
Definition bracket_addr_ok (s : list Z) : Z :=
  let inner := removelast (tail s) in
  if (zlen s <? 3) || negb (at_ s 0 =? 91) || negb (at_ s (pred (length s)) =? 93) then 0
  else if at_ s 1 =? 118 then
    let s := tail inner in
    if EVUTIL_ISXDIGIT_ (at_ (s ++ [93]) 0) && ipvfuture_ok s then 2 else 0
  else if 64 <=? zlen inner then 0
  else if inet_pton6 inner then 1 else 0.

(** The digits at the end, both parts reversed. *)
Fixpoint span_digits (rev : list Z) : list Z * list Z :=
  match rev with
  | c :: rev' => if EVUTIL_ISDIGIT_ c then let '(d, r) := span_digits rev' in (c :: d, r) else ([], rev)
  | [] => ([], [])
  end.
(** The host, with what follows it in memory. *)
Definition host_ok (s after : list Z) : bool :=
  if (at_ (s ++ after) 0 =? 91) && (2 <=? zlen s) && (at_ s (pred (length s)) =? 93) then c_true (bracket_addr_ok s) else regname_ok s after.
(** What is left after the user: the host and the port. *)
Definition parse_hostport uri (cp after : list Z) : option evhttp_uri :=
  let '(d, r) := span_digits (reverse cp) in
  match r with
  | 58 :: name =>
      let name := reverse name in
      let digits := reverse d in
      let port := if zlen digits =? 0 then -1 else parse_port digits in
      if negb (zlen digits =? 0) && (port <? 0) then None
      else if host_ok name (58 :: digits ++ after) then Some {| uri with port := port; host := Some name |} else None
  | _ => if host_ok cp after then Some {| uri with host := Some cp |} else None
  end.
Definition parse_authority uri (s after : list Z) : option evhttp_uri :=
  match s with
  | [] => Some {| uri with host := Some [] |}
  | _ =>
      match split_at 64 s with
      | Some (user, cp) => if userinfo_ok user then parse_hostport {| uri with userinfo := Some user |} cp after else None
      | None => parse_hostport uri s after
      end
  end.
(** How many characters the authority has. *)
Fixpoint end_of_authority (cp : list Z) : nat :=
  match cp with
  | [] => 0%nat
  | c :: cp => if (c =? 63) || (c =? 35) || (c =? 47) then 0%nat else S (end_of_authority cp)
  end.

Inductive uri_part := PART_PATH | PART_QUERY | PART_FRAGMENT.
Definition stops (part : uri_part) (c : Z) : bool :=
  match part with PART_PATH => (c =? 35) || (c =? 63) | PART_QUERY => c =? 35 | PART_FRAGMENT => false end.
Fixpoint end_nonconformant (part : uri_part) (cp : list Z) : nat :=
  match cp with [] => 0%nat | c :: cp => if stops part c then 0%nat else S (end_nonconformant part cp) end.
Definition is_path (part : uri_part) : bool := match part with PART_PATH => true | _ => false end.
Fixpoint end_conformant (part : uri_part) (cp : list Z) : nat :=
  match cp with
  | [] => 0%nat
  | c :: cp =>
      if CHAR_IS_UNRESERVED c || strchr SUBDELIMS c || (c =? 58) || (c =? 64) || (c =? 47) then S (end_conformant part cp)
      else if c =? 37 then
        match cp with
        | a :: (b :: cp) => if EVUTIL_ISXDIGIT_ a && EVUTIL_ISXDIGIT_ b then S (S (S (end_conformant part cp))) else 0%nat
        | _ => 0%nat
        end
      else if (c =? 63) && negb (is_path part) then S (end_conformant part cp)
      else 0%nat
  end.
(** How many characters belong to the part. *)
Definition end_of_path (cp : list Z) (part : uri_part) (flags : Z) : nat :=
  if has flags EVHTTP_URI_NONCONFORMANT then end_nonconformant part cp else end_conformant part cp.
Fixpoint path_matches_noscheme (cp : list Z) : bool :=
  match cp with
  | [] => true
  | c :: cp => if c =? 58 then false else if c =? 47 then true else path_matches_noscheme cp
  end.

(** An optional part, from its mark on: the part and what is left. *)
Definition read_part (mark : Z) (part : uri_part) (flags : Z) (readp : list Z) : option (list Z) * list Z :=
  match readp with
  | c :: rest => if c =? mark then let n := end_of_path rest part flags in (Some (take n rest), drop n rest) else (None, readp)
  | [] => (None, readp)
  end.
(** [mem]: no allocation fails.  [None] is a null pointer. *)
Definition evhttp_uri_parse_with_flags (mem : bool) (source_uri : list Z) (flags : Z) : option evhttp_uri :=
  if negb mem then None
  else
    let uri := {| evhttp_uri_new with uri_flags := flags |} in
    let '(uri, readp) :=
      match split_at 58 source_uri with
      | Some (token, rest) => if scheme_ok token then ({| uri with scheme := Some token |}, rest) else (uri, source_uri)
      | None => (uri, source_uri)
      end in
    '(uri, readp, got_authority) ←
      (if (at_ readp 0 =? 47) && (at_ readp 1 =? 47) then
         let authority := drop 2 readp in
         let n := end_of_authority authority in
         uri ← parse_authority uri (take n authority) (drop n authority);
         Some (uri, drop n authority, true)
       else Some (uri, readp, false));
    let n := end_of_path readp PART_PATH flags in
    let path := take n readp in
    let '(query, readp) := read_part 63 PART_QUERY flags (drop n readp) in
    let '(fragment, readp) := read_part 35 PART_FRAGMENT flags readp in
    match readp with
    | _ :: _ => None
    | [] =>
        if negb got_authority && (at_ path 0 =? 47) && (at_ path 1 =? 47) then None
        else if got_authority && negb (at_ path 0 =? 47) && negb (at_ path 0 =? 0) then None
        else if match scheme uri with None => negb (path_matches_noscheme path) | Some _ => false end then None
        else Some {| uri with path := Some path; query := query; fragment := fragment |}
    end.
Definition evhttp_uri_parse (mem : bool) (source_uri : list Z) := evhttp_uri_parse_with_flags mem source_uri 0.

(** ** Setting the parts: the result and the URI. *)
Definition set_str (mem : bool) (f : option (list Z)) : option (option (list Z)) :=
  match f with Some f => if mem then Some (Some f) else None | None => Some None end.
Definition all_of_path (s : list Z) (part : uri_part) (flags : Z) : bool := Nat.eqb (end_of_path s part flags) (length s).
Definition opt_ok (check : list Z -> bool) (f : option (list Z)) : bool := match f with Some f => check f | None => true end.
(** What the setters share: [put] stores the copy, or null when there is no
    memory for it. *)
Definition uri_set (mem : bool) uri (check : bool) (f : option (list Z)) (put : option (list Z) -> evhttp_uri) : Z * evhttp_uri :=
  if negb check then (-1, uri)
  else match set_str mem f with Some f => (0, put f) | None => (-1, put None) end.
Definition evhttp_uri_set_scheme (mem : bool) uri f : Z * evhttp_uri :=
  uri_set mem uri (opt_ok scheme_ok f) f (fun f => {| uri with scheme := f |}).
Definition evhttp_uri_set_userinfo (mem : bool) uri f : Z * evhttp_uri :=
  uri_set mem uri (opt_ok userinfo_ok f) f (fun f => {| uri with userinfo := f |}).
Definition evhttp_uri_set_host (mem : bool) uri f : Z * evhttp_uri :=
  uri_set mem uri (opt_ok (fun s => if at_ s 0 =? 91 then c_true (bracket_addr_ok s) else regname_ok s []) f) f (fun f => {| uri with host := f |}).
Definition evhttp_uri_set_port uri (p : Z) : Z * evhttp_uri := if p <? -1 then (-1, uri) else (0, {| uri with port := p |}).
Definition evhttp_uri_set_path (mem : bool) uri f : Z * evhttp_uri :=
  uri_set mem uri (opt_ok (fun s => all_of_path s PART_PATH (uri_flags uri)) f) f (fun f => {| uri with path := f |}).
Definition evhttp_uri_set_query (mem : bool) uri f : Z * evhttp_uri :=
  uri_set mem uri (opt_ok (fun s => all_of_path s PART_QUERY (uri_flags uri)) f) f (fun f => {| uri with query := f |}).
Definition evhttp_uri_set_fragment (mem : bool) uri f : Z * evhttp_uri :=
  uri_set mem uri (opt_ok (fun s => all_of_path s PART_FRAGMENT (uri_flags uri)) f) f (fun f => {| uri with fragment := f |}).
End Parse.

(** ** Putting the parts together again. *)
Section Join.
Context `{ByteQueue Q}.

Definition add_str (tmp : Q) (s : list Z) : option Q := ignore (bq_add tmp s).
Definition add_opt (tmp : Q) (before : list Z) (f : option (list Z)) : option Q :=
  match f with Some f => tmp ← (match before with [] => Some tmp | _ => add_str tmp before end); add_str tmp f | None => Some tmp end.
(** [tmp] is the new buffer; the result is what was written to the caller's
    array of [limit] bytes, with the NUL, or [None] inside for a null pointer. *)
Definition evhttp_uri_join (tmp : Q) (uri : evhttp_uri) (limit : Z) : option (option (list Z)) :=
  if limit =? 0 then Some None
  else
    tmp ← (match scheme uri with Some f => tmp ← add_str tmp f; add_str tmp [58] | None => Some tmp end);
    '(tmp, bad) ←
      (match host uri with
       | Some f =>
           tmp ← add_str tmp [47; 47];
           tmp ← (match userinfo uri with Some u => ignore (bq_add_printf tmp (u ++ [64])) | None => Some tmp end);
           tmp ← add_str tmp f;
           tmp ← (if 0 <=? port uri then ignore (bq_add_printf tmp (58 :: printf_d (port uri))) else Some tmp);
           Some (tmp, match path uri with Some p => negb (at_ p 0 =? 47) && negb (at_ p 0 =? 0) | None => false end)
       | None => Some (tmp, false)
       end);
    if (bad : bool) then Some None
    else
      tmp ← add_opt tmp [] (path uri);
      tmp ← add_opt tmp [63] (query uri);
      tmp ← add_opt tmp [35] (fragment uri);
      tmp ← add_str tmp [0];
      let joined_size := bq_length tmp in
      if limit <? joined_size then Some None
      else '(_, buf, _) ← bq_remove tmp joined_size; Some (Some buf).
End Join.

(** ** Queries. *)

(** [strsep(p, c)]: the token, and what is left after it. *)
Definition strsep (p : list Z) (c : Z) : list Z * option (list Z) :=
  match split_at c p with Some (tok, rest) => (tok, Some rest) | None => (p, None) end.
(** The loop over the arguments; each takes at least a character, so [fuel] is
    the length.  [mem]: no allocation fails. *)
Fixpoint parse_query_loop (fuel : nat) (mem : bool) (p : list Z) (headers : list (list Z * list Z)) : option (list (list Z * list Z)) :=
  match fuel, p with
  | _, [] => Some headers
  | O, _ => None
  | S fuel, _ =>
      let '(argument, rest) := strsep p 38 in
      let '(key, value) := strsep argument 61 in
      match value with
      | None => None
      | Some value =>
          if (zlen key =? 0) || negb mem then None
          else
            let decoded := fst (evhttp_decode_uri_internal value 1) in
            let decoded := match split_at 0 decoded with Some (v, _) => v | None => decoded end in
            parse_query_loop fuel mem (default [] rest) (headers ++ [(key, decoded)])
      end
  end.
(** The result and the headers. *)
Definition parse_query_part (mem : bool) (query_part : option (list Z)) : Z * list (list Z * list Z) :=
  match query_part with
  | None | Some [] => (0, [])
  | Some q => if negb mem then (-1, []) else match parse_query_loop (length q) mem q [] with Some h => (0, h) | None => (-1, []) end
  end.
Definition evhttp_parse_query_str (mem : bool) (uri : list Z) : Z * list (list Z * list Z) := parse_query_part mem (Some uri).
Definition evhttp_parse_query (mem : bool) (uri : list Z) : Z * list (list Z * list Z) :=
  match evhttp_uri_parse mem uri with None => (-1, []) | Some u => parse_query_part mem (query u) end.
