(* ===== verification/UriCodec.v ===== *)
(** * Encoding and decoding for URIs: round trips

    [encode_text] is what [evhttp_uriencode] writes, [arguments] and
    [query_argument] say what a query means. *)
From S2P Require Import Prelude Event Buffer BufferInv BufferSearch BufferLines ByteQueue CString Uri.
Open Scope Z_scope.

(** ** Encoding. *)
Definition encode_char (space_as_plus : bool) (c : Z) : list Z :=
  if CHAR_IS_UNRESERVED c then [c] else if (c =? 32) && space_as_plus then [43] else 37 :: printf_02X c.
Definition encode_text (space_as_plus : bool) (s : list Z) : list Z := flat_map (encode_char space_as_plus) s.

Lemma zlen_encode_char sp c : 0 <= zlen (encode_char sp c) <= 3.
Proof. unfold encode_char, printf_02X. repeat case_if; cbv [zlen length]; lia. Qed.

Lemma zlen_encode_text sp s : 0 <= zlen (encode_text sp s) <= 3 * zlen s.
Proof.
  induction s as [|c s IH]; [done|]. change (encode_text sp (c :: s)) with (encode_char sp c ++ encode_text sp s).
  rewrite zlen_app, zlen_cons. pose proof (zlen_encode_char sp c). lia.
Qed.

Section Encode.
Context `{ByteQueueLaws Q}.
Implicit Types buf : Q.

Lemma uriencode_loop_ok s sp : forall buf, bq_ok buf -> zlen (bq_bytes buf) + 3 * zlen s <= INT_MAX ->
  exists buf', uriencode_loop buf s sp = Some buf' /\ bq_ok buf' /\ bq_bytes buf' = bq_bytes buf ++ encode_text sp s.
Proof.
  induction s as [|c s IH]; intros buf Hok Hlen; cbn [uriencode_loop].
  - exists buf. cbn. by rewrite app_nil_r.
  - rewrite zlen_cons in Hlen. pose proof (zlen_nonneg s). pose proof (zlen_encode_char sp c) as Hc.
    assert (exists buf1, (if CHAR_IS_UNRESERVED c then ignore (bq_add buf [c])
      else if (c =? 32) && sp then ignore (bq_add buf [43]) else ignore (bq_add_printf buf (37 :: printf_02X c))) = Some buf1 /\
      bq_ok buf1 /\ bq_bytes buf1 = bq_bytes buf ++ encode_char sp c) as (buf1 & R & Hok1 & Hb1).
    { unfold encode_char in *. repeat case_if; first [apply ignore_add | apply ignore_add_printf]; try done; lia. }
    rewrite R. cbn [mbind option_bind]. destruct (IH buf1 Hok1) as (buf2 & R2 & Hok2 & Hb2).
    { rewrite Hb1, zlen_app. lia. }
    exists buf2. rewrite Hb2, Hb1, <- app_assoc. done.
Qed.

(** The string has no NUL in it, or its length is given. *)
Lemma uriencode_ok buf mem len s sp : bq_ok buf -> bq_bytes buf = [] -> 3 * zlen s < INT_MAX ->
  (if 0 <=? len then ztake len mem = s else exists rest, mem = s ++ 0 :: rest /\ 0 ∉ s) ->
  evhttp_uriencode buf true mem len sp = Some (Some (encode_text sp s ++ [0])).
Proof.
  intros Hok Hnil Hlen Hs. pose proof (zlen_encode_text sp s) as Ht. unfold evhttp_uriencode.
  replace (if 0 <=? len then ztake len mem else match split_at 0 mem with Some (s, _) => s | None => mem end) with s.
  2:{ case_if; [done|]. destruct Hs as (rest & -> & Hs). clear -Hs. induction s as [|c s IH]; [done|]. cbn.
      replace (c =? 0) with false by (symmetry; apply Z.eqb_neq; set_solver). destruct (split_at 0 (s ++ 0 :: rest)) as [[]|]; cbn; f_equal; apply IH; set_solver. }
  replace (_ && _) with false by (symmetry; unfold INT_MAX, EV_SSIZE_MAX in *; lia).
  destruct (uriencode_loop_ok s sp buf) as (buf1 & -> & Hok1 & Hb1); [done | rewrite Hnil; change (zlen []) with 0; unfold INT_MAX in *; lia |].
  cbn [mbind option_bind]. rewrite Hnil in Hb1. cbn [app] in Hb1.
  destruct (ignore_add buf1 [0]) as (buf2 & -> & Hok2 & Hb2); [done | rewrite Hb1; change (zlen [0]) with 1; lia |].
  cbn [mbind option_bind]. destruct (bq_length_law buf2 Hok2) as [-> _].
  destruct (bq_remove_law buf2 (zlen (bq_bytes buf2)) Hok2 (zlen_nonneg _)) as (buf3 & -> & _). cbn [mbind option_bind].
  do 2 f_equal. rewrite Hb2, Hb1. unfold ztake. rewrite firstn_all2; [done|]. unfold zlen. lia.
Qed.
End Encode.

(** ** Decoding. *)
Definition is_bytes (s : list Z) : Prop := Forall is_u8 s.

Lemma unreserved_plain c : is_u8 c -> CHAR_IS_UNRESERVED c = true -> (c =? 63) = false /\ (c =? 43) = false /\ (c =? 37) = false.
Proof.
  intros Hc HU. pose proof (all_chars_ok (fun c => negb (CHAR_IS_UNRESERVED c) || (negb (c =? 63) && negb (c =? 43) && negb (c =? 37)))
    ltac:(vm_compute; reflexivity) c Hc) as HA. cbn beta in HA. rewrite HU in HA. lia.
Qed.
Lemma hex_of_byte c : is_u8 c ->
  EVUTIL_ISXDIGIT_ (hex_digit true (c / 16)) = true /\ EVUTIL_ISXDIGIT_ (hex_digit true (c mod 16)) = true /\
  u8 (evutil_hex_char_to_int_ (hex_digit true (c / 16)) * 16 + evutil_hex_char_to_int_ (hex_digit true (c mod 16))) = c.
Proof.
  intros Hc. pose proof (all_chars_ok (fun c => EVUTIL_ISXDIGIT_ (hex_digit true (c / 16)) && EVUTIL_ISXDIGIT_ (hex_digit true (c mod 16)) &&
    (u8 (evutil_hex_char_to_int_ (hex_digit true (c / 16)) * 16 + evutil_hex_char_to_int_ (hex_digit true (c mod 16))) =? c))
    ltac:(vm_compute; reflexivity) c Hc) as HA. cbn beta in HA. rewrite !andb_true_iff, Z.eqb_eq in HA. tauto.
Qed.

Lemma decode_encode_char sp c rest ctl plus : is_u8 c -> (sp = true -> plus = true) ->
  decode_loop (encode_char sp c ++ rest) ctl plus = c :: decode_loop rest ctl plus.
Proof.
  intros Hc Hp. unfold encode_char. destruct (CHAR_IS_UNRESERVED c) eqn:EU; [|destruct (c =? 32) eqn:Esp, sp; cbn [andb]].
  - destruct (unreserved_plain c Hc EU) as (E1 & E2 & E3). cbn. by rewrite E1, E2, E3.
  - rewrite Hp by done. apply Z.eqb_eq in Esp as ->. done.
  - destruct (hex_of_byte c Hc) as (E1 & E2 & E3). cbn. rewrite E1, E2. cbn [andb]. by rewrite E3.
  - destruct (hex_of_byte c Hc) as (E1 & E2 & E3). cbn. rewrite E1, E2. cbn [andb]. by rewrite E3.
  - destruct (hex_of_byte c Hc) as (E1 & E2 & E3). cbn. rewrite E1, E2. cbn [andb]. by rewrite E3.
Qed.

Lemma decode_encode sp s ctl plus : is_bytes s -> (sp = true -> plus = true) -> decode_loop (encode_text sp s) ctl plus = s.
Proof.
  intros Hs Hp. induction Hs as [|c s Hc Hs IH]; [done|].
  change (encode_text sp (c :: s)) with (encode_char sp c ++ encode_text sp s). rewrite decode_encode_char by done. by rewrite IH.
Qed.

(** A text in which nothing has to be encoded again. *)
Definition encoded_char (c : Z) : bool := CHAR_IS_UNRESERVED c || (c =? 43) || (c =? 37).
Lemma encode_text_chars sp s : is_bytes s -> Forall (fun c => encoded_char c = true) (encode_text sp s).
Proof.
  intros Hs. induction Hs as [|c s Hc Hs IH]; [constructor|].
  change (encode_text sp (c :: s)) with (encode_char sp c ++ encode_text sp s). apply Forall_app. split; [|done].
  pose proof (all_chars_ok (fun c => forallb encoded_char (encode_char true c) && forallb encoded_char (encode_char false c))
    ltac:(vm_compute; reflexivity) c Hc) as HA. cbn beta in HA. rewrite andb_true_iff, !forallb_forall in HA.
  apply Forall_forall. intros x Hx. apply list_elem_of_In in Hx. destruct HA, sp; auto.
Qed.

(** ** Queries. *)

(** The arguments: what is between ampersands, but for nothing after the last. *)
Fixpoint arguments (s : list Z) : list (list Z) :=
  match s with
  | [] => []
  | c :: s =>
      if c =? 38 then [] :: arguments s
      else match arguments s with [] => [[c]] | a :: l => (c :: a) :: l end
  end.
(** A key that is not empty, [=], and a value that is decoded up to a NUL. *)
Definition query_argument (argument : list Z) : option (list Z * list Z) :=
  '(key, value) ← split_at 61 argument;
  match key with
  | [] => None
  | _ => let decoded := decode_loop value 1 true in Some (key, match split_at 0 decoded with Some (v, _) => v | None => decoded end)
  end.

Lemma arguments_strsep q : q <> [] ->
  arguments q = fst (strsep q 38) :: arguments (default [] (snd (strsep q 38))) /\
  (length (default [] (snd (strsep q 38))) < length q)%nat.
Proof.
  unfold strsep. induction q as [|x q IH]; [done|]. intros _. cbn. destruct (x =? 38) eqn:E; cbn; [split; [done | lia]|].
  destruct q as [|y q]; [cbn; split; [done | lia]|]. destruct (IH ltac:(done)) as [IH1 IH2].
  destruct (split_at 38 (y :: q)) as [[a b]|] eqn:ES; cbn [fst snd default] in *; cbn [mbind option_bind fst snd default]; rewrite IH1; cbn in *; (split; [done | lia]).
Qed.

Lemma parse_query_loop_ok fuel : forall p headers, (length p <= fuel)%nat ->
  parse_query_loop fuel true p headers = (hs ← mapM query_argument (arguments p); Some (headers ++ hs)).
Proof.
  induction fuel as [|fuel IH]; intros p headers Hlen; [destruct p; [cbn; by rewrite app_nil_r | cbn in Hlen; lia]|].
  destruct p as [|c p]; [cbn; by rewrite app_nil_r|].
  destruct (arguments_strsep (c :: p) ltac:(done)) as [Ha Hl]. rewrite Ha.
  cbn [parse_query_loop]. destruct (strsep (c :: p) 38) as [argument rest]. cbn [fst snd] in *. cbn [mapM mbind option_bind].
  destruct (query_argument argument) as [kv|] eqn:EQ; unfold query_argument in EQ; unfold strsep;
    (destruct (split_at 61 argument) as [[key value]|]; [|done]); cbn [mbind option_bind] in EQ; destruct key as [|k key]; try done.
  injection EQ as <-.
  replace (zlen (k :: key) =? 0) with false by (rewrite zlen_cons; pose proof (zlen_nonneg key); lia). cbn [orb negb evhttp_decode_uri_internal fst Z.eqb Pos.eqb].
  rewrite IH by lia. cbn [mbind option_bind]. destruct (mapM query_argument _) as [hs|]; [|done]. cbn. by rewrite <- app_assoc.
Qed.

(** The fuel is enough: a query is its arguments, all of them or none. *)
Lemma parse_query_spec q : evhttp_parse_query_str true q =
  match mapM query_argument (arguments q) with Some h => (0, h) | None => (-1, []) end.
Proof.
  unfold evhttp_parse_query_str, parse_query_part. destruct q as [|c q]; [done|]. cbn [negb].
  rewrite parse_query_loop_ok by done. by destruct (mapM query_argument (arguments (c :: q))).
Qed.

(** A query with the given keys and values. *)
Definition query_arg_text (sp : bool) (kv : list Z * list Z) : list Z := fst kv ++ 61 :: encode_text sp (snd kv).
Fixpoint query_text (sp : bool) (l : list (list Z * list Z)) : list Z :=
  match l with
  | [] => []
  | [kv] => query_arg_text sp kv
  | kv :: l => query_arg_text sp kv ++ 38 :: query_text sp l
  end.
Definition key_ok (k : list Z) : Prop := k <> [] /\ is_cstring k /\ 38 ∉ k /\ 61 ∉ k.

Lemma split_at_app c a b : c ∉ a -> split_at c (a ++ c :: b) = Some (a, b).
Proof.
  intros Ha. induction a as [|x a IH]; cbn; [by rewrite Z.eqb_refl|].
  replace (x =? c) with false by (symmetry; apply Z.eqb_neq; set_solver). rewrite IH by set_solver. done.
Qed.
Lemma split_at_none c a : c ∉ a -> split_at c a = None.
Proof.
  intros Ha. induction a as [|x a IH]; cbn; [done|].
  replace (x =? c) with false by (symmetry; apply Z.eqb_neq; set_solver). rewrite IH by set_solver. done.
Qed.
Lemma split_at_some c s a b : split_at c s = Some (a, b) -> s = a ++ c :: b /\ c ∉ a.
Proof.
  revert a b. induction s as [|x s IH]; intros a b R; [done|]. cbn in R. destruct (x =? c) eqn:E.
  - injection R as <- <-. apply Z.eqb_eq in E as ->. split; [done | set_solver].
  - destruct (split_at c s) as [[a' b']|]; [|done]. cbn in R. injection R as <- <-. destruct (IH a' b' ltac:(done)) as [-> ?].
    apply Z.eqb_neq in E. split; [done | set_solver].
Qed.

Lemma encode_text_not sp s c : is_bytes s -> encoded_char c = false -> c ∉ encode_text sp s.
Proof. intros Hs Hc Hin. pose proof (encode_text_chars sp s Hs) as HA. rewrite Forall_forall in HA. apply HA in Hin. congruence. Qed.

Lemma arg_text_ok sp k v : key_ok k -> is_cstring v ->
  query_argument (query_arg_text sp (k, v)) = Some (k, v) /\ 38 ∉ query_arg_text sp (k, v).
Proof.
  intros (Hne & _ & H38 & H61) Hv. assert (is_bytes v) as Hb by (eapply Forall_impl; [exact Hv | unfold is_char, is_u8; intros; lia]).
  unfold query_argument, query_arg_text. cbn [fst snd]. rewrite split_at_app by done. cbn [mbind option_bind].
  rewrite decode_encode by done. rewrite split_at_none.
  - destruct k; [done|]. split; [done|]. pose proof (encode_text_not sp v 38 Hb ltac:(done)). set_solver.
  - intros H0. unfold is_cstring in Hv; rewrite Forall_forall in Hv. apply Hv in H0. unfold is_char in H0. lia.
Qed.

Lemma arguments_app a s : 38 ∉ a -> arguments (a ++ 38 :: s) = a :: arguments s.
Proof.
  intros Ha. induction a as [|x a IH]; cbn; [done|].
  replace (x =? 38) with false by (symmetry; apply Z.eqb_neq; set_solver). rewrite IH by set_solver. done.
Qed.
Lemma arguments_last a : 38 ∉ a -> a <> [] -> arguments a = [a].
Proof.
  intros Ha. induction a as [|x a IH]; cbn; [done|]. intros _.
  replace (x =? 38) with false by (symmetry; apply Z.eqb_neq; set_solver). destruct a; [done|]. rewrite IH by set_solver. done.
Qed.

Lemma query_text_arguments sp l : Forall (fun kv => key_ok (fst kv) /\ is_cstring (snd kv)) l ->
  mapM query_argument (arguments (query_text sp l)) = Some l.
Proof.
  intros Hl. induction Hl as [|[k v] l [Hk Hv] Hl IH]; [done|]. destruct (arg_text_ok sp k v Hk Hv) as [Hq H38].
  destruct l as [|kv l].
  - cbn [query_text]. rewrite arguments_last; [|done | unfold query_arg_text; cbn; by destruct k]. cbn [mapM]. by rewrite Hq.
  - change (query_text sp ((k, v) :: kv :: l)) with (query_arg_text sp (k, v) ++ 38 :: query_text sp (kv :: l)).
    rewrite arguments_app by done. cbn [mapM]. rewrite Hq. cbn [mbind option_bind]. rewrite IH. done.
Qed.

(** ** The properties. *)
Section Claims.
Context `{ByteQueueLaws Q}.

(** What is encoded for a URI is unreserved characters, [+] and escapes,
    and is decoded to the same bytes, also by the deprecated function; plus
    signs have to be decoded when spaces were encoded as such. *)
Theorem evhttp_uriencode_roundtrip (buf : Q) s space_as_plus decode_plus :
  bq_ok buf -> bq_bytes buf = [] -> is_bytes s -> 3 * zlen s < INT_MAX -> (space_as_plus = true -> decode_plus = true) ->
  exists enc, evhttp_uriencode buf true s (zlen s) space_as_plus = Some (Some (enc ++ [0])) /\
    Forall (fun c => encoded_char c = true) enc /\ evhttp_uridecode true enc decode_plus = Some (s, zlen s) /\
    forall rest, 0 ∉ s -> exists enc', evhttp_encode_uri buf true (s ++ 0 :: rest) = Some (Some (enc' ++ [0])) /\
      evhttp_decode_uri true enc' = Some s.
Proof.
  intros Hok Hnil Hs Hlen Hp. exists (encode_text space_as_plus s). split_and!.
  - apply uriencode_ok; try done. pose proof (zlen_nonneg s). replace (0 <=? zlen s) with true by lia.
    unfold ztake, zlen. by rewrite Nat2Z.id, firstn_all.
  - by apply encode_text_chars.
  - unfold evhttp_uridecode, evhttp_decode_uri_internal. rewrite decode_encode; [done | done |]. by destruct decode_plus.
  - intros rest Hz. exists (encode_text false s). split; [apply uriencode_ok; try done; by exists rest|].
    unfold evhttp_decode_uri, evhttp_decode_uri_internal. cbn [fst]. by rewrite decode_encode.
Qed.
End Claims.

(** C29: when memory lasts, the text of a list of keys and values is parsed to
    that list, whichever way spaces were encoded: the keys are written as they
    are, not empty and without [&] or [=], the values, any C strings, through
    [evhttp_uriencode]'s code.  Any query is parsed to all of its arguments or,
    with -1, to none when one of them has no key or no [=]. *)
Theorem evhttp_parse_query_roundtrip space_as_plus l q :
  Forall (fun kv => key_ok (fst kv) /\ is_cstring (snd kv)) l ->
  evhttp_parse_query_str true (query_text space_as_plus l) = (0, l) /\
  evhttp_parse_query_str true q = match mapM query_argument (arguments q) with Some h => (0, h) | None => (-1, []) end.
Proof. intros Hl. rewrite !parse_query_spec, query_text_arguments by done. done. Qed.
