(* ===== verification/AddressProps.v ===== *)
(** * Addresses are read back

    What is printed for an address parses to it again, and parsing any text
    ends without a fault. *)
From Stdlib Require Import Ascii String.
From S2P Require Import Prelude Event Buffer BufferInv BufferLines BufferOps CString Address UriCodec.
Open Scope Z_scope.

(** ** Bytes and words. *)
Definition is_word (w : Z) : Prop := 0 <= w < 65536.
Lemma land_255 x : Z.land x 0xff = x mod 256.
Proof. change 0xff with (Z.ones 8). by rewrite Z.land_ones. Qed.
Lemma shiftr_8 x : Z.shiftr x 8 = x / 256.
Proof. by rewrite Z.shiftr_div_pow2. Qed.
Lemma word_of_bytes a b : is_u8 a -> is_u8 b -> Z.lor (Z.shiftl a 8) b = 256 * a + b.
Proof. unfold is_u8. intros Ha Hb. rewrite lor_shiftl_add by lia. lia. Qed.
Lemma be_bytes_eq x : be_bytes x = [x / 2 ^ 24 mod 256; x / 2 ^ 16 mod 256; x / 2 ^ 8 mod 256; x mod 256].
Proof. unfold be_bytes. rewrite !land_255, !Z.shiftr_div_pow2 by lia. done. Qed.
Lemma be_bytes_number x : 0 <= x < 2 ^ 32 -> be_number (be_bytes x) = x.
Proof. intros Hx. rewrite be_bytes_eq. unfold be_number, byte_at. cbn [nth]. lia. Qed.
Lemma be_bytes_u8 x : is_bytes (be_bytes x).
Proof. rewrite be_bytes_eq. repeat constructor; unfold is_u8; lia. Qed.
Definition quad_number (a b c d : Z) : Z := u32 (Z.lor (Z.shiftl a 24) (Z.lor (Z.shiftl b 16) (Z.lor (Z.shiftl c 8) d))).
Lemma be_bytes_quad a b c d : is_u8 a -> is_u8 b -> is_u8 c -> is_u8 d -> be_bytes (quad_number a b c d) = [a; b; c; d].
Proof.
  unfold is_u8, quad_number. intros Ha Hb Hc Hd. rewrite (lor_shiftl_add c), (lor_shiftl_add b), (lor_shiftl_add a) by lia. rewrite u32_small by lia. rewrite be_bytes_eq. repeat f_equal; lia.
Qed.

(** ** Dotted numbers. *)
(** No dot, colon or bracket. *)
Definition plain (c : Z) : Prop := c <> 46 /\ c <> 58 /\ c <> 91 /\ c <> 93 /\ is_char c.
Lemma plain_not_in l c : Forall plain l -> c = 46 \/ c = 58 \/ c = 91 \/ c = 93 -> c ∉ l.
Proof. rewrite Forall_forall. intros HF Hc HE%HF. unfold plain in HE. naive_solver. Qed.
Lemma plain_cstring l : Forall plain l -> is_cstring l.
Proof. intros HF. eapply Forall_impl; [exact HF|]. by intros c (_ & _ & _ & _ & ?). Qed.
Lemma no_digit_dot rest : no_digit (46 :: rest).
Proof. reflexivity. Qed.
Lemma scan_dotted_printed a b c d : is_u8 a -> is_u8 b -> is_u8 c -> is_u8 d -> scan_dotted (dotted a b c d) = Some (a, b, c, d).
Proof.
  unfold is_u8. intros Ha Hb Hc Hd. unfold scan_dotted, dotted. cbn [app].
  do 3 (rewrite scan_u_printed by (try apply no_digit_dot; lia); cbn [mbind option_bind skip_char]; change (46 =? 46) with true; cbn [mbind option_bind]).
  rewrite <- (app_nil_r (printf_d d)), scan_u_printed by (try exact I; lia). done.
Qed.
Lemma small_quad a b c d : is_u8 a -> is_u8 b -> is_u8 c -> is_u8 d -> small_bytes (a, b, c, d) = true.
Proof. unfold is_u8, small_bytes. lia. Qed.
(** Facts about what is printed for a byte, checked on all of them. *)
Lemma printed_byte n : is_u8 n -> zlen (printf_d n) <= 3 /\ forallb EVUTIL_ISDIGIT_ (printf_d n) = true /\ Forall plain (printf_d n).
Proof.
  intros Hn. pose proof (all_chars_ok (fun n => (zlen (printf_d n) <=? 3) && forallb EVUTIL_ISDIGIT_ (printf_d n)) ltac:(vm_compute; reflexivity) n Hn) as HA.
  cbn beta in HA. apply andb_true_iff in HA as [H1%Z.leb_le H2]. split_and!; [done | done|]. eapply Forall_impl; [apply printf_d_chars; unfold is_u8 in Hn; lia|]. intros c Hc. cbn beta in Hc. unfold plain, is_char. lia.
Qed.
Lemma zlen_dotted a b c d : is_u8 a -> is_u8 b -> is_u8 c -> is_u8 d -> zlen (dotted a b c d) <= 15.
Proof.
  intros Ha%printed_byte Hb%printed_byte Hc%printed_byte Hd%printed_byte. unfold dotted. rewrite !zlen_app. change (zlen [46]) with 1. lia.
Qed.
Lemma dotted_chars a b c d : is_u8 a -> is_u8 b -> is_u8 c -> is_u8 d -> Forall (fun c => plain c \/ c = 46) (dotted a b c d).
Proof.
  intros (_ & _ & Ha)%printed_byte (_ & _ & Hb)%printed_byte (_ & _ & Hc)%printed_byte (_ & _ & Hd)%printed_byte. assert (HP : forall l, Forall plain l -> Forall (fun c => plain c \/ c = 46) l) by (intros l HF; eapply Forall_impl; [exact HF|]; by left).
  assert (H46 : Forall (fun c => plain c \/ c = 46) [46]) by (constructor; [by right | constructor]). unfold dotted. repeat (apply Forall_app; split); auto.
Qed.
Lemma byte_at_ok l i : is_bytes l -> is_u8 (byte_at l i).
Proof. intros HB. unfold byte_at. destruct (Nat.lt_ge_cases i (length l)) as [Hi|Hi]; [|rewrite nth_overflow by done; unfold is_u8; lia]. unfold is_bytes in HB. rewrite Forall_forall in HB. apply HB. apply list_elem_of_In. by apply nth_In. Qed.
Lemma clipped_all text len : zlen text < len -> clipped text len = text.
Proof. intros Hl. unfold clipped. apply ztake_ge. lia. Qed.
Lemma ip4_roundtrip l len : length l = 4%nat -> is_bytes l -> 46 <= len -> exists text, evutil_inet_ntop AF_INET_ l len = Some text /\ zlen text <= 45 /\ Forall (fun c => plain c \/ c = 46) text /\ evutil_inet_pton AF_INET_ text = Some (1, l).
Proof.
  intros Hl HB Hlen. destruct l as [|a [|b [|c [|d [|]]]]]; try done. unfold is_bytes in HB. rewrite !Forall_cons in HB. destruct HB as (Ha & Hb & Hc & Hd & _). pose proof (zlen_dotted a b c d Ha Hb Hc Hd) as HL.
  exists (dotted a b c d). unfold evutil_inet_ntop, evutil_inet_pton. cbn [byte_at nth]. change (AF_INET_ =? AF_INET_) with true. cbv zeta iota. replace (len <=? zlen (dotted a b c d)) with false by lia. rewrite clipped_all by lia. split; [done|]. split; [lia|].
  split; [by apply dotted_chars|].
  rewrite scan_dotted_printed by done. rewrite small_quad by done. do 2 f_equal. by apply be_bytes_quad.
Qed.

(** ** Words of an IPv6 address. *)
Lemma hex_char d : 0 <= d < 16 -> let c := hex_digit false d in EVUTIL_ISXDIGIT_ c = true /\ plain c.
Proof.
  intros Hd c. pose proof (all_chars_ok (fun d => negb (d <? 16) || (EVUTIL_ISXDIGIT_ (hex_digit false d) && negb (hex_digit false d =? 46) && negb (hex_digit false d =? 58) &&
    negb (hex_digit false d =? 91) && negb (hex_digit false d =? 93) && (0 <? hex_digit false d) && (hex_digit false d <? 256))) ltac:(vm_compute; reflexivity) d ltac:(lia)) as HA. cbn beta in HA. fold c in HA.
  replace (d <? 16) with true in HA by lia. cbn [negb orb] in HA. rewrite !andb_true_iff in HA. destruct HA as ((((((H1 & H2) & H3) & H4) & H5) & H6) & H7). split; [done|]. unfold plain, is_char. lia.
Qed.
Lemma printed_word w : is_word w -> exists c l, printf_x w = c :: l /\ EVUTIL_ISXDIGIT_ c = true /\ zlen (printf_x w) <= 4 /\ Forall plain (printf_x w).
Proof.
  intros Hw. unfold is_word in Hw. unfold printf_x. pose proof (digits_range 16 w 20 ltac:(lia) ltac:(lia)) as HR. pose proof (digits_ne 20 16 w ltac:(lia)) as Hne.
  pose proof (digits_length 16 3 20 w ltac:(lia) ltac:(change (Z.of_nat 4) with 4; lia)) as HL. set (l := digits 20 16 w) in *. clearbody l.
  assert (HF : Forall plain (map (hex_digit false) l)).
  { apply Forall_map. eapply Forall_impl; [exact HR|]. intros d Hd. by apply (hex_char d Hd). }
  destruct l as [|d l]; [done|]. apply Forall_cons in HR as [Hd _]. exists (hex_digit false d), (map (hex_digit false) l). split_and!; [done | by apply hex_char | | done].
  unfold zlen. rewrite length_map. cbn [length] in *. lia.
Qed.
(** What may follow a word: a colon, or the end of the words. *)
Definition word_end (behind : Z) (rest : list Z) : Prop := no_hex rest /\ (at_ rest 0 = 58 \/ zlen rest = behind) /\ behind <= zlen rest.
Lemma put_one {A} i (x : A) l : (i < length l)%nat -> put_at (Z.of_nat i) [x] l = Some (<[i := x]> l).
Proof. intros Hi. unfold put_at, zlen. change (Z.of_nat (length [x])) with 1. rewrite Nat2Z.id.
  by replace ((0 <=? Z.of_nat i) && (Z.of_nat i + 1 <=? Z.of_nat (length l))) with true by lia. Qed.
Lemma word_parsed turns behind w rest i gap sw ws : is_word w -> (i <= 7)%nat -> length ws = 8%nat -> word_end behind rest ->
  pton_loop (S turns) behind (Scan (printf_x w ++ rest) i gap sw ws) = pton_loop turns behind (Scan (tail rest) (S i) gap (sw + 1) (<[i := Some w]> ws)).
Proof.
  intros Hw Hi Hws (HN & HE & HB). destruct (printed_word w Hw) as (c & l & Hc & Hx & HL & _). pose proof (strtoll_printed w rest ltac:(unfold is_word in Hw; lia) HN) as HS.
  cbn [pton_loop src i_ gapPos setWords words]. rewrite HS. rewrite zlen_app. assert (0 < zlen (printf_x w)) by (rewrite Hc, zlen_cons; pose proof (zlen_nonneg l); lia).
  assert (Hat : at_ (printf_x w ++ rest) 0 = c) by by rewrite Hc. rewrite Hat, Hx. replace (behind <? zlen (printf_x w) + zlen rest) with true by lia. replace (Nat.ltb 7 i) with false by (symmetry; apply Nat.ltb_ge; lia).
  replace ((4 <? zlen (printf_x w) + zlen rest - zlen rest) || (zlen rest =? zlen (printf_x w) + zlen rest)) with false by lia. unfold is_word in Hw. replace ((w <? 0) || (65536 <? w)) with false by lia.
  replace (negb (at_ rest 0 =? 58) && negb (zlen rest =? behind)) with false by lia. rewrite put_one by lia. cbn [mbind option_bind].
  by replace (u16 w) with w by (unfold u16; rewrite Z.mod_small; lia).
Qed.
(** Words that all have a colon behind them. *)
Definition with_colons (l : list Z) : list Z := flat_map (fun w => printf_x w ++ [58]) l.
Fixpoint joined (l : list Z) : list Z := match l with [] => [] | [w] => printf_x w | w :: l => printf_x w ++ 58 :: joined l end.
Lemma colon_end behind rest : behind <= zlen rest -> word_end behind (58 :: rest).
Proof. intros HB. split; [done|]. split; [by left|]. rewrite zlen_cons. lia. Qed.
Lemma colons_parsed l : forall turns behind rest i gap sw ws, Forall is_word l -> length ws = 8%nat -> (i + length l <= 8)%nat -> behind <= zlen rest ->
  pton_loop (length l + turns) behind (Scan (with_colons l ++ rest) i gap sw ws) = pton_loop turns behind (Scan rest (i + length l) gap (sw + zlen l) (list_inserts i (Some <$> l) ws)).
Proof.
  induction l as [|w l IH]; intros turns behind rest i gap sw ws HF Hws Hi HB.
  - cbn. by rewrite Nat.add_0_r, Z.add_0_r.
  - apply Forall_cons in HF as [Hw HF]. cbn [length] in *. cbn [with_colons flat_map]. fold (with_colons l). rewrite <- !app_assoc. change (S (length l) + turns)%nat with (S (length l + turns))%nat.
    rewrite word_parsed; [|done | lia | done | apply colon_end; rewrite zlen_app; pose proof (zlen_nonneg (with_colons l)); lia]. cbn [app tail].
    rewrite IH by (rewrite ?length_insert; try done; lia). f_equal. rewrite zlen_cons. cbn [fmap list_fmap list_inserts]. f_equal; [lia | lia|]. symmetry. apply list_insert_inserts_lt. lia.
Qed.
Lemma joined_parsed l : forall turns i gap sw ws, Forall is_word l -> length ws = 8%nat -> (i + length l <= 8)%nat ->
  pton_loop (length l + turns) 0 (Scan (joined l) i gap sw ws) = Some (Some (Scan [] (i + length l) gap (sw + zlen l) (list_inserts i (Some <$> l) ws))).
Proof.
  induction l as [|w l IH]; intros turns i gap sw ws HF Hws Hi.
  - cbn [joined length Nat.add list_inserts fmap list_fmap]. rewrite Nat.add_0_r. change (zlen []) with 0. rewrite Z.add_0_r. by destruct turns.
  - apply Forall_cons in HF as [Hw HF]. cbn [length] in *. change (S (length l) + turns)%nat with (S (length l + turns))%nat. rewrite zlen_cons.
    assert (HE : joined (w :: l) = printf_x w ++ match l with [] => [] | _ => 58 :: joined l end) by (destruct l; [cbn; by rewrite app_nil_r | done]). rewrite HE.
    rewrite word_parsed; [|done | lia | done | destruct l; [split; [exact I|]; split; [by right | change (zlen []) with 0; lia] | apply colon_end, zlen_nonneg]].
    replace (tail match l with [] => [] | _ => 58 :: joined l end) with (joined l) by by destruct l.
    rewrite IH by (rewrite ?length_insert; try done; lia). cbn [fmap list_fmap list_inserts]. rewrite list_insert_inserts_lt by lia. do 3 f_equal; lia.
Qed.
Lemma put_words_joined turns : forall ws i gap, length ws = 8%nat -> (8 <= i + turns)%nat -> gap < Z.of_nat i -> put_words turns ws i gap = joined (drop i ws).
Proof.
  induction turns as [|turns IH]; intros ws i gap Hl Hi Hg; cbn [put_words].
  - by rewrite drop_ge by lia.
  - destruct (drop i ws) as [|w l] eqn:Ed; [done|]. replace ((w =? 0) && (gap =? Z.of_nat i)) with false by lia. rewrite IH by (try done; lia).
    replace (drop (S i) ws) with l by (replace (S i) with (i + 1)%nat by lia; rewrite <- drop_drop, Ed; done). assert (Hn : length (drop i ws) = S (length l)) by by rewrite Ed. rewrite length_drop in Hn.
    destruct (Nat.eqb_spec i 7) as [->|H7].
    + destruct l; [|cbn in Hn; lia]. by rewrite app_nil_r.
    + destruct l; [cbn in Hn; lia | done].
Qed.
(** The words before a gap. *)
Lemma put_words_gap turns : forall ws i g, length ws = 8%nat -> (i <= g < 8)%nat -> (8 <= i + turns)%nat -> byte_at ws g = 0 ->
  put_words turns ws i (Z.of_nat g) = with_colons (take (g - i) (drop i ws)) ++ (if Nat.eqb g 0 then [58] else []) ++ [58] ++ joined (drop (g + gap_len (drop g ws)) ws).
Proof.
  induction turns as [|turns IH]; intros ws i g Hl Hi Ht H0; [lia|]. cbn [put_words].
  destruct (drop i ws) as [|w l] eqn:Ed; [apply (f_equal length) in Ed; rewrite length_drop in Ed; cbn in Ed; lia|].
  assert (Hw : byte_at ws i = w). { unfold byte_at. rewrite <- (take_drop i ws), app_nth2, Ed by (rewrite length_take; lia). rewrite length_take. by replace (i - i `min` length ws)%nat with 0%nat by lia. }
  assert (Hd : drop (S i) ws = l) by (replace (S i) with (i + 1)%nat by lia; rewrite <- drop_drop, Ed; done).
  destruct (decide (i = g)) as [->|Hne].
  - assert (w = 0) as -> by congruence. rewrite Z.eqb_refl, Z.eqb_refl. cbn [andb]. rewrite Nat.sub_diag. cbn [take with_colons flat_map app].
    assert (Hgl : (0 < gap_len ((0 : Z) :: l))%nat) by (cbn; lia). rewrite put_words_joined by (try done; lia). by rewrite Ed.
  - replace ((w =? 0) && (Z.of_nat g =? Z.of_nat i)) with false by lia. rewrite IH by (try done; lia). rewrite Hd. replace (Nat.eqb i 7) with false by (symmetry; apply Nat.eqb_neq; lia).
    replace (g - i)%nat with (S (g - S i)) by lia. cbn [take with_colons flat_map]. fold (with_colons (take (g - S i) l)). by rewrite <- !app_assoc.
Qed.

(** ** The gap. *)
Definition bytes_of (ws : list Z) : list Z := flat_map (fun w => [Z.shiftr w 8; Z.land w 0xff]) ws.
Lemma bytes_of_words addr : length addr = 16%nat -> is_bytes addr -> bytes_of (words_of addr) = addr.
Proof.
  intros Hl HB. assert (HW : forall a b, is_u8 a -> is_u8 b -> let w := u16 (Z.shiftl a 8 + b) in Z.shiftr w 8 = a /\ Z.land w 0xff = b).
  { intros a b Ha Hb w. unfold is_u8 in Ha, Hb. assert (Hw : w = 256 * a + b) by (unfold w, u16; rewrite Z.shiftl_mul_pow2, Z.mod_small by lia; lia). rewrite shiftr_8, land_255. lia. }
  do 16 (destruct addr as [|? addr]; [done|]). destruct addr; [|done]. unfold is_bytes in HB. rewrite !Forall_cons in HB. destruct_and!.
  unfold bytes_of, words_of. cbn [map seq flat_map byte_at nth Nat.mul Nat.add app].
  repeat match goal with Ha : is_u8 ?a, Hb : is_u8 ?b |- context[u16 (Z.shiftl ?a 8 + ?b)] => destruct (HW a b Ha Hb) as [-> ->] end. done.
Qed.
Lemma words_of_ok addr : length (words_of addr) = 8%nat /\ Forall is_word (words_of addr).
Proof.
  unfold words_of. rewrite length_map, length_seq. split; [done|]. apply Forall_map, Forall_forall. intros i _. unfold is_word, u16. apply Z.mod_pos_bound. lia.
Qed.
Lemma gap_len_zeros ws : take (gap_len ws) ws = replicate (gap_len ws) 0 /\ (gap_len ws <= length ws)%nat.
Proof. induction ws as [|w ws [IH1 IH2]]; [done|]. cbn. destruct (Z.eqb_spec w 0) as [->|]; cbn; [rewrite IH1; split; [done | lia] | split; [done | lia]]. Qed.
Definition gap_at (ws : list Z) (pos len : Z) : Prop := len = 0 \/ exists g, pos = Z.of_nat g /\ len = Z.of_nat (gap_len (drop g ws)) /\ 0 < len.
Lemma longest_gap_ok turns : forall ws i pos len pos' len', gap_at ws pos len -> longest_gap turns ws i pos len = (pos', len') -> gap_at ws pos' len'.
Proof.
  induction turns as [|turns IH]; intros ws i pos len pos' len' HG HE; cbn [longest_gap] in HE; [by simplify_eq|].
  destruct (drop i ws) as [|w l] eqn:Ed; [by simplify_eq|]. case_match; [|by eapply IH]. rewrite <- Ed in HE. case_match; [|by eapply IH]. eapply IH; [|done].
  right. exists i. split; [done|]. split; [done|]. destruct HG as [->|(g & _ & _ & ?)]; lia.
Qed.
Lemma close_gap_ok ws g n : length ws = 8%nat -> (0 < n)%nat -> (g + n <= 8)%nat -> take n (drop g ws) = replicate n 0 ->
  close_gap false (Scan [] (8 - n) (Z.of_nat g) (8 - Z.of_nat n) (list_inserts 0 (Some <$> (take g ws ++ drop (g + n) ws)) no_words)) = Some (1, bytes_of ws).
Proof.
  intros Hl Hn Hg Hz. do 8 (destruct ws as [|? ws]; [done|]). destruct ws; [|done]. clear Hl.
  do 8 (try (destruct g as [|g])); try lia; do 9 (try (destruct n as [|n])); try lia; cbn in Hz; simplify_eq; reflexivity.
Qed.
Lemma close_no_gap ws : length ws = 8%nat -> close_gap false (Scan [] 8 (-1) 8 (list_inserts 0 (Some <$> ws) no_words)) = Some (1, bytes_of ws).
Proof. intros Hl. do 8 (destruct ws as [|? ws]; [done|]). by destruct ws. Qed.

(** ** IPv6. *)
Definition word_char (c : Z) : Prop := plain c \/ c = 58.
Lemma with_colons_chars l : Forall is_word l -> Forall word_char (with_colons l) /\ zlen l <= zlen (with_colons l) <= 5 * zlen l.
Proof.
  induction 1 as [|w l Hw HF [IH1 IH2]]; [done|]. destruct (printed_word w Hw) as (c & r & Hc & _ & HL & HP). cbn [with_colons flat_map]. fold (with_colons l). rewrite !zlen_app, zlen_cons. change (zlen [58]) with 1.
  assert (0 < zlen (printf_x w)) by (rewrite Hc, zlen_cons; pose proof (zlen_nonneg r); lia). split; [|lia]. rewrite !Forall_app. split_and!; [| |done].
  - eapply Forall_impl; [exact HP|]. by left.
  - constructor; [by right | constructor].
Qed.
Lemma joined_chars l : Forall is_word l -> Forall word_char (joined l) /\ zlen l <= zlen (joined l) <= 5 * zlen l.
Proof.
  induction 1 as [|w l Hw HF [IH1 IH2]]; [done|]. destruct (printed_word w Hw) as (c & r & Hc & _ & HL & HP). rewrite zlen_cons.
  assert (0 < zlen (printf_x w)) by (rewrite Hc, zlen_cons; pose proof (zlen_nonneg r); lia). assert (HP' : Forall word_char (printf_x w)) by (eapply Forall_impl; [exact HP|]; by left).
  destruct l as [|w' l]; cbn [joined]; [split; [done | change (zlen []) with 0; lia]|]. change (match l with [] => printf_x w' | _ :: _ => printf_x w' ++ 58 :: joined l end) with (joined (w' :: l)).
  rewrite zlen_app, (zlen_cons 58). split; [|lia]. apply Forall_app. split; [done|]. constructor; [by right | done].
Qed.
Lemma no_dot l : Forall word_char l -> split_at 46 l = None.
Proof. intros HF. apply split_at_none. rewrite Forall_forall in HF. intros [(? & _)|?]%HF; lia. Qed.
Lemma words_inserted (a b : list Z) ws : list_inserts (length a) (Some <$> b) (list_inserts 0 (Some <$> a) ws) = list_inserts 0 (Some <$> (a ++ b)) ws.
Proof. by rewrite fmap_app, list_inserts_app_l, length_fmap, Nat.add_0_r. Qed.
Lemma ip6_gap_parsed ws g n : length ws = 8%nat -> Forall is_word ws -> (0 < n)%nat -> (g + n <= 8)%nat -> take n (drop g ws) = replicate n 0 ->
  evutil_inet_pton AF_INET6_ (with_colons (take g ws) ++ (if Nat.eqb g 0 then [58] else []) ++ [58] ++ joined (drop (g + n) ws)) = Some (1, bytes_of ws).
Proof.
  intros Hl HF Hn Hg Hz. pose proof (Forall_take _ g ws HF) as HA. pose proof (Forall_drop _ (g + n) ws HF) as HB.
  destruct (with_colons_chars _ HA) as [CA LA]. destruct (joined_chars _ HB) as [CB LB]. set (text := with_colons (take g ws) ++ _).
  assert (HC : Forall word_char text) by (unfold text; rewrite !Forall_app; split_and!; [done | destruct (Nat.eqb g 0); repeat constructor; by right | repeat constructor; by right | done]).
  assert (Hlen : (g + S (8 - g - n) <= length text)%nat).
  { unfold text. rewrite !length_app. cbn [length]. unfold zlen in LA, LB. rewrite length_take in LA. rewrite length_drop in LB. lia. }
  unfold evutil_inet_pton. change (AF_INET6_ =? AF_INET_) with false. change (AF_INET6_ =? AF_INET6_) with true. cbv iota. rewrite no_dot by done.
  replace (length text) with (length (take g ws) + S (length (drop (g + n) ws) + (length text - (g + S (8 - g - n)))))%nat by (rewrite length_take, length_drop; lia).
  unfold text at 2. rewrite colons_parsed; [|done | done | rewrite length_take; lia | apply zlen_nonneg]. rewrite Nat.add_0_l, length_take. replace (g `min` length ws)%nat with g by lia.
  assert (Hstep : forall turns sw w, pton_loop (S turns) 0 (Scan ((if Nat.eqb g 0 then [58] else []) ++ [58] ++ joined (drop (g + n) ws)) g (-1) sw w) =
    pton_loop turns 0 (Scan (joined (drop (g + n) ws)) g (Z.of_nat g) sw w)).
  { intros turns sw w. cbn [pton_loop src i_ gapPos setWords words]. replace (Nat.ltb 7 g) with false by (symmetry; apply Nat.ltb_ge; lia).
    assert (Hj := zlen_nonneg (joined (drop (g + n) ws))). destruct g as [|g]; cbn [Nat.eqb app]; rewrite !zlen_cons; (replace (0 <? _) with true by lia); done. }
  rewrite Hstep, joined_parsed by (try done; rewrite ?length_inserts, ?length_drop; done || lia). cbn [mbind option_bind].
  assert (Hw : list_inserts g (Some <$> drop (g + n) ws) (list_inserts 0 (Some <$> take g ws) no_words) = list_inserts 0 (Some <$> (take g ws ++ drop (g + n) ws)) no_words).
  { rewrite <- words_inserted. f_equal. rewrite length_take. lia. }
  rewrite Hw, length_drop. rewrite <- (close_gap_ok ws g n) by done. f_equal. f_equal; [lia|]. unfold zlen. rewrite length_take, length_drop. lia.
Qed.
Lemma ip6_no_gap_parsed ws : length ws = 8%nat -> Forall is_word ws -> evutil_inet_pton AF_INET6_ (joined ws) = Some (1, bytes_of ws).
Proof.
  intros Hl HF. destruct (joined_chars _ HF) as [HC HL]. unfold zlen in HL. unfold evutil_inet_pton. change (AF_INET6_ =? AF_INET_) with false. change (AF_INET6_ =? AF_INET6_) with true. cbv iota. rewrite no_dot by done.
  replace (length (joined ws)) with (length ws + (length (joined ws) - length ws))%nat by lia. rewrite joined_parsed by (try done; lia). cbn [mbind option_bind]. unfold zlen. rewrite Hl. by apply close_no_gap.
Qed.
(** The forms that end like an IPv4 address. *)
Lemma leading_digits_app d : forall c l, forallb EVUTIL_ISDIGIT_ d = true -> EVUTIL_ISDIGIT_ c = false -> leading_digits (d ++ c :: l) = length d.
Proof. induction d as [|x d IH]; intros c l Hd Hc; cbn in *; [by rewrite Hc|]. apply andb_true_iff in Hd as [-> Hd]. by rewrite IH. Qed.
Definition quad_words (a b c d : Z) : list (option Z) := <[7%nat := Some (Z.lor (Z.shiftl c 8) d)]> (<[6%nat := Some (Z.lor (Z.shiftl a 8) b)]> no_words).
Lemma dotted_end_parsed x a b c d : is_u8 a -> is_u8 b -> is_u8 c -> is_u8 d -> 46 ∉ x ->
  let text := (x ++ [58]) ++ dotted a b c d in
  evutil_inet_pton AF_INET6_ text =
    (o ← pton_loop (length text) (zlen (dotted a b c d)) (Scan text 0 (-1) 2 (quad_words a b c d)); match o with None => Some (0, []) | Some s => close_gap true s end).
Proof.
  intros Ha Hb Hc Hd Hx text. destruct (printed_byte a Ha) as (_ & Hdig & HP). assert (Hrev : forallb EVUTIL_ISDIGIT_ (reverse (printf_d a)) = true).
  { rewrite forallb_forall in *. intros y Hy. apply Hdig. by rewrite <- list_elem_of_In, elem_of_reverse, list_elem_of_In in Hy. }
  assert (Ht : text = ((x ++ [58]) ++ printf_d a) ++ 46 :: (printf_d b ++ [46] ++ printf_d c ++ [46] ++ printf_d d)) by (unfold text, dotted; by rewrite <- !app_assoc).
  assert (Hs : split_at 46 text = Some ((x ++ [58]) ++ printf_d a, printf_d b ++ [46] ++ printf_d c ++ [46] ++ printf_d d)).
  { rewrite Ht. apply split_at_app. rewrite !not_elem_of_app. split; [split; [done|] | by apply plain_not_in; [|left]]. rewrite list_elem_of_singleton. lia. }
  assert (Heow : zlen ((x ++ [58]) ++ printf_d a) - Z.of_nat (leading_digits (reverse ((x ++ [58]) ++ printf_d a))) = zlen (x ++ [58])).
  { rewrite reverse_app, (reverse_app x). cbn [reverse rev_append app]. change (reverse [58]) with [58]. cbn [app]. rewrite leading_digits_app by done. rewrite length_reverse, zlen_app. unfold zlen. lia. }
  unfold evutil_inet_pton. change (AF_INET6_ =? AF_INET_) with false. change (AF_INET6_ =? AF_INET6_) with true. cbv iota zeta. rewrite Hs, Heow.
  assert (Hdrop : zdrop (zlen (x ++ [58])) text = dotted a b c d) by (unfold text; rewrite zdrop_app_ge by done; rewrite Z.sub_diag; apply zdrop_0).
  rewrite Hdrop, scan_dotted_printed, small_quad by done. replace (zlen text - zlen (x ++ [58])) with (zlen (dotted a b c d)) by (unfold text; rewrite (zlen_app (x ++ [58])); lia).
  destruct ((x ++ [58]) ++ printf_d a) eqn:E; [|done]. apply (f_equal length) in E. rewrite !length_app in E. cbn in E. lia.
Qed.
Lemma loop_stops turns behind l i g sw ws : zlen l <= behind -> pton_loop turns behind (Scan l i g sw ws) = Some (Some (Scan l i g sw ws)).
Proof. intros Hl. destruct turns; cbn [pton_loop src]; by replace (behind <? zlen l) with false by lia. Qed.
Lemma leading_gap turns behind l sw ws : behind <= zlen l -> pton_loop (S turns) behind (Scan (58 :: 58 :: l) 0 (-1) sw ws) = pton_loop turns behind (Scan l 0 0 sw ws).
Proof. intros Hl. cbn [pton_loop src i_ gapPos setWords words]. rewrite !zlen_cons. by replace (behind <? 1 + (1 + zlen l)) with true by lia. Qed.
Lemma ip6_dotted_parsed a b c d : is_u8 a -> is_u8 b -> is_u8 c -> is_u8 d ->
  evutil_inet_pton AF_INET6_ (str "::" ++ dotted a b c d) = Some (1, bytes_of [0; 0; 0; 0; 0; 0; Z.lor (Z.shiftl a 8) b; Z.lor (Z.shiftl c 8) d]) /\
  evutil_inet_pton AF_INET6_ (str "::" ++ printf_x 0xffff ++ [58] ++ dotted a b c d) = Some (1, bytes_of [0; 0; 0; 0; 0; 0xffff; Z.lor (Z.shiftl a 8) b; Z.lor (Z.shiftl c 8) d]).
Proof.
  intros Ha Hb Hc Hd. split.
  - change (str "::" ++ dotted a b c d) with (([58] ++ [58]) ++ dotted a b c d). rewrite (dotted_end_parsed [58] a b c d) by (try done; rewrite list_elem_of_singleton; lia). change (length (([58] ++ [58]) ++ dotted a b c d)) with (S (S (length (dotted a b c d)))). change (([58] ++ [58]) ++ dotted a b c d) with (58 :: 58 :: dotted a b c d).
    rewrite leading_gap by done. by rewrite loop_stops by done.
  - assert (HE : str "::" ++ printf_x 0xffff ++ [58] ++ dotted a b c d = ((str "::" ++ printf_x 0xffff) ++ [58]) ++ dotted a b c d) by by rewrite <- !app_assoc. rewrite HE.
    rewrite (dotted_end_parsed (str "::" ++ printf_x 0xffff) a b c d) by (try done; apply (bool_decide_unpack _); vm_compute; exact I). rewrite <- HE. clear HE. set (D := dotted a b c d).
    change (length (str "::" ++ printf_x 0xffff ++ [58] ++ D)) with (S (S (5 + length D))). change (str "::" ++ printf_x 0xffff ++ [58] ++ D) with (58 :: 58 :: printf_x 0xffff ++ 58 :: D).
    rewrite leading_gap by (rewrite zlen_app, zlen_cons; pose proof (zlen_nonneg (printf_x 0xffff)); lia). change (5 + length D)%nat with (S (4 + length D)).
    rewrite word_parsed by (first [unfold is_word; lia | lia | done | by apply colon_end]). by rewrite loop_stops.
Qed.
Lemma last_words addr : is_bytes addr -> exists w0 w1 w2 w3 w4 w5, words_of addr = [w0; w1; w2; w3; w4; w5; Z.lor (Z.shiftl (byte_at addr 12) 8) (byte_at addr 13); Z.lor (Z.shiftl (byte_at addr 14) 8) (byte_at addr 15)].
Proof.
  intros HB. assert (HW : forall i j, u16 (Z.shiftl (byte_at addr i) 8 + byte_at addr j) = Z.lor (Z.shiftl (byte_at addr i) 8) (byte_at addr j)).
  { intros i j. pose proof (byte_at_ok addr i HB) as Hi. pose proof (byte_at_ok addr j HB) as Hj. rewrite word_of_bytes by done. unfold is_u8 in *. unfold u16. rewrite Z.shiftl_mul_pow2, Z.mod_small by lia. lia. }
  unfold words_of. cbn [map seq Nat.mul Nat.add]. rewrite <- !(HW). do 6 eexists. reflexivity.
Qed.
Definition ip_char (c : Z) : Prop := plain c \/ c = 58 \/ c = 46.
Lemma ip_chars (P : Z -> Prop) l : (forall c, P c -> ip_char c) -> Forall P l -> Forall ip_char l.
Proof. intros HP HF. eapply Forall_impl; [exact HF | exact HP]. Qed.
Lemma ip6_text_ok addr : length addr = 16%nat -> is_bytes addr -> zlen (ip6_text addr) <= 45 /\ Forall ip_char (ip6_text addr) /\ evutil_inet_pton AF_INET6_ (ip6_text addr) = Some (1, addr).
Proof.
  intros Hl HB. destruct (words_of_ok addr) as [HWl HWF]. pose proof (bytes_of_words addr Hl HB) as Hbytes. unfold ip6_text. cbv zeta. case_match eqn:Hmap.
  - destruct (last_words addr HB) as (w0 & w1 & w2 & w3 & w4 & w5 & HW). rewrite HW in *. cbn [byte_at nth take forallb] in *. set (w6 := Z.lor _ _) in *. set (w7 := Z.lor (Z.shiftl (byte_at addr 14) 8) _) in *.
    assert (w0 = 0 /\ w1 = 0 /\ w2 = 0 /\ w3 = 0 /\ w4 = 0 /\ (w5 = 0 \/ w5 = 0xffff)) as (-> & -> & -> & -> & -> & H5) by lia.
    pose proof (byte_at_ok addr 12 HB) as Ha. pose proof (byte_at_ok addr 13 HB) as Hb. pose proof (byte_at_ok addr 14 HB) as Hc. pose proof (byte_at_ok addr 15 HB) as Hd.
    destruct (ip6_dotted_parsed _ _ _ _ Ha Hb Hc Hd) as [P1 P2]. fold w6 w7 in P1, P2. pose proof (zlen_dotted _ _ _ _ Ha Hb Hc Hd) as HL. pose proof (dotted_chars _ _ _ _ Ha Hb Hc Hd) as HC.
    assert (HC' : Forall ip_char (dotted (byte_at addr 12) (byte_at addr 13) (byte_at addr 14) (byte_at addr 15))) by (eapply ip_chars; [|exact HC]; unfold ip_char; tauto).
    assert (HC58 : Forall ip_char [58]) by (apply Forall_singleton; unfold ip_char; tauto). assert (HC2 : Forall ip_char (str "::")) by (change (str "::") with ([58] ++ [58]); by apply Forall_app).
    destruct H5 as [->| ->].
    + change (0 =? 0) with true. cbv iota. rewrite P1, Hbytes, zlen_app. change (zlen (str "::")) with 2. split; [lia|]. split; [by apply Forall_app | done].
    + change (0xffff =? 0) with false. cbv iota. rewrite P2, Hbytes. destruct (printed_word 0xffff ltac:(unfold is_word; lia)) as (c & l & _ & _ & HL4 & HC4).
      rewrite !zlen_app. change (zlen (str "::")) with 2. change (zlen [58]) with 1. split; [lia|]. split; [|done]. rewrite !Forall_app. split_and!; [done | | done | done]. eapply ip_chars; [|exact HC4]. unfold ip_char. tauto.
  - destruct (longest_gap 8 (words_of addr) 0 (-1) 0) as [pos len] eqn:Eg. apply longest_gap_ok in Eg; [|by left]. case_match eqn:Elen.
    + rewrite put_words_joined by (try done; lia). rewrite drop_0. destruct (joined_chars _ HWF) as [HC HL]. assert (HW8 : zlen (words_of addr) = 8) by (unfold zlen; lia). rewrite ip6_no_gap_parsed, Hbytes by done.
      split; [lia|]. split; [|done]. eapply ip_chars; [|exact HC]. unfold word_char, ip_char. tauto.
    + destruct Eg as [->|(g & -> & -> & Hpos)]; [done|]. set (ws := words_of addr) in *. destruct (gap_len_zeros (drop g ws)) as [Hz Hn]. rewrite length_drop in Hn. set (n := gap_len (drop g ws)) in *.
      assert (H0 : byte_at ws g = 0).
      { unfold byte_at. destruct n as [|n]; [lia|]. destruct (drop g ws) as [|w l] eqn:Ed; [done|]. cbn in Hz. injection Hz as -> _. rewrite <- (take_drop g ws), app_nth2, Ed by (rewrite length_take; lia). rewrite length_take. by replace (g - g `min` length ws)%nat with 0%nat by lia. }
      rewrite put_words_gap by (try done; lia). fold n. rewrite Nat.sub_0_r, drop_0. rewrite (ip6_gap_parsed ws g n), Hbytes by (try done; lia).
      destruct (with_colons_chars _ (Forall_take _ g ws HWF)) as [CA LA]. destruct (joined_chars _ (Forall_drop _ (g + n) ws HWF)) as [CB LB]. assert (HA : zlen (take g ws) = Z.of_nat g) by (unfold zlen; rewrite length_take; lia). assert (HB' : zlen (drop (g + n) ws) = 8 - Z.of_nat g - Z.of_nat n) by (unfold zlen; rewrite length_drop; lia).
      assert (Hw : forall c, word_char c -> ip_char c) by (unfold word_char, ip_char; tauto). rewrite !zlen_app. change (zlen [58]) with 1. split; [destruct (Nat.eqb g 0); [change (zlen [58]) with 1 | change (zlen (@nil Z)) with 0]; lia|]. split; [|done].
      rewrite !Forall_app. split_and!; [by eapply ip_chars | destruct (Nat.eqb g 0); repeat constructor; apply Hw; by right | repeat constructor; apply Hw; by right | by eapply ip_chars].
Qed.

(** ** Any text. *)
Lemma scan_digits_rest base s : forall acc n rest, scan_digits base s acc = (n, rest) -> (length rest <= length s)%nat.
Proof. induction s as [|c s IH]; intros acc n rest HE; cbn in HE; [by simplify_eq|]. case_match; [apply IH in HE; cbn; lia | by simplify_eq]. Qed.
Lemma strtoll_rest s base n rest : evutil_strtoll s base = (n, rest) -> (length rest <= length s)%nat.
Proof.
  assert (Hsp : (length (skip_spaces s) <= length s)%nat) by (induction s as [|c s IH]; cbn; [done | case_match; cbn; lia]).
  assert (Hsg : forall t, (length (snd (scan_sign t)) <= length t)%nat) by (intros t; unfold scan_sign; repeat case_match; cbn; lia).
  assert (H0x : forall t, (length (skip_0x base t) <= length t)%nat) by (intros t; unfold skip_0x; repeat case_match; cbn; lia).
  unfold evutil_strtoll. specialize (Hsg (skip_spaces s)). destruct (scan_sign (skip_spaces s)) as [neg t]. cbn in Hsg. specialize (H0x t). unfold scan_number.
  destruct (skip_0x base t) as [|c u] eqn:E; [by intros [= _ <-]|]. destruct (digit_of base c); [|by intros [= _ <-]]. destruct (scan_digits base (c :: u) 0) as [m r] eqn:Ed. apply scan_digits_rest in Ed. intros [= _ <-]. lia.
Qed.
Definition written (ws : list (option Z)) (j : nat) : Prop := exists w, ws !! j = Some (Some w) /\ is_word w.
Record scanned (d : Z) (s : scan) : Prop := {
  sc_set : setWords s = Z.of_nat (i_ s) + d;
  sc_room : (i_ s <= 8)%nat /\ length (words s) = 8%nat;
  sc_gap : gapPos s = -1 \/ 0 <= gapPos s <= Z.of_nat (i_ s);
  sc_words : forall j, (j < i_ s)%nat \/ 8 - d <= Z.of_nat j < 8 -> written (words s) j
}.
Lemma written_insert ws i w j : (i < length ws)%nat -> is_word w -> j = i \/ written ws j -> written (<[i := Some w]> ws) j.
Proof.
  intros Hi Hw Hj. destruct (decide (j = i)) as [->|Hne]; [exists w; split; [by apply list_lookup_insert_eq | done]|]. destruct Hj as [?|(v & Hv & Hok)]; [done|].
  exists v. split; [by rewrite list_lookup_insert_ne | done].
Qed.
Lemma pton_loop_total behind d turns : forall s, 0 <= behind -> (length (src s) <= turns)%nat -> scanned d s ->
  exists o, pton_loop turns behind s = Some o /\ match o with None => True | Some s' => scanned d s' end.
Proof.
  induction turns as [|turns IH]; intros s Hb Hl HS; cbn [pton_loop]; (case_match eqn:Hbeh; [|by exists (Some s)]); [unfold zlen in Hbeh; lia|].
  assert (Htl : forall l : list Z, (length (tail l) <= length l)%nat) by (intros []; cbn; lia). assert (Hlt : (0 < length (src s))%nat) by (unfold zlen in Hbeh; lia).
  assert (Hne : (length (tail (src s)) < length (src s))%nat) by (clear -Hlt; destruct (src s); cbn in *; lia).
  destruct HS as [Hset [Hi Hw] Hg HW]. case_match eqn:H7; [by eexists|]. apply Nat.ltb_ge in H7. case_match eqn:Hx.
  - destruct (evutil_strtoll (src s) 16) as [r next] eqn:Es. pose proof (strtoll_rest _ _ _ _ Es) as Hr. case_match eqn:Hn; [by eexists|]. case_match eqn:Hrange; [by eexists|]. case_match; [by eexists|].
    rewrite put_one by lia. cbn [mbind option_bind]. unfold zlen in Hn. apply IH; cbn [src i_ gapPos setWords words]; [done | pose proof (Htl next); lia|]. split; cbn [src i_ gapPos setWords words]; [lia | rewrite length_insert; lia | lia|].
    intros j Hj. apply written_insert; [lia | unfold is_word, u16; apply Z.mod_pos_bound; lia|]. destruct (decide (j = i_ s)) as [->|]; [by left | right]. apply HW. lia.
  - case_match eqn:Hc1; [|case_match eqn:Hc2; [|by eexists]].
    + apply IH; cbn [src]; [done | lia|]. split; cbn [src i_ gapPos setWords words]; [done | done | lia | done].
    + apply IH; cbn [src]; [done | pose proof (Htl (tail (src s))); lia|]. split; cbn [src i_ gapPos setWords words]; [done | done | lia | done].
Qed.
Lemma written_all ws : length ws = 8%nat -> (forall j, (j < 8)%nat -> written ws j) -> exists l, mapM id ws = Some l /\ length l = 8%nat /\ Forall is_word l.
Proof.
  intros Hl HW. assert (HF : Forall (fun o => exists w, o = Some w /\ is_word w) ws).
  { apply Forall_lookup. intros j o Ho. destruct (HW j) as (w & Hw & Hok); [apply lookup_lt_Some in Ho; lia|]. exists w. split; [congruence | done]. }
  rewrite <- Hl. clear Hl HW. induction HF as [|o ws (w & -> & Hw) HF (l & IH1 & IH2 & IH3)]; [exists []; by split_and!|]. exists (w :: l). cbn. rewrite IH1. cbn. split_and!; [done | by rewrite IH2 | by constructor].
Qed.
Lemma bytes_of_ok l : Forall is_word l -> is_bytes (bytes_of l) /\ length (bytes_of l) = (2 * length l)%nat.
Proof.
  induction 1 as [|w l Hw HF [IH1 IH2]]; [by split; [constructor|]|]. unfold is_word in Hw. cbn [bytes_of flat_map]. fold (bytes_of l). cbn [app length]. split; [|lia].
  rewrite shiftr_8, land_255. repeat constructor; [unfold is_u8; lia.. | done].
Qed.
(** The words after the gap go to the end, with zeros before them. *)
Lemma moved_words (ws : list (option Z)) (g n d : nat) : length ws = 8%nat -> (g <= n)%nat -> (n + d < 8)%nat -> (forall j, (j < n)%nat \/ (8 - d <= j < 8)%nat -> written ws j) ->
  exists ws1 ws2, put_at (Z.of_nat (8 - d - (n - g))) (take (n - g) (drop g ws)) ws = Some ws1 /\ put_at (Z.of_nat g) (replicate (8 - (n + d)) (Some 0)) ws1 = Some ws2 /\
    length ws2 = 8%nat /\ forall j, (j < 8)%nat -> written ws2 j.
Proof.
  intros Hl Hg Hn HW. set (moved := take (n - g) (drop g ws)). assert (Hm : length moved = (n - g)%nat) by (unfold moved; rewrite length_take, length_drop; lia).
  exists (list_inserts (8 - d - (n - g)) moved ws), (list_inserts g (replicate (8 - (n + d)) (Some 0)) (list_inserts (8 - d - (n - g)) moved ws)).
  unfold put_at, zlen. rewrite !Nat2Z.id, length_replicate, !length_inserts, Hm, Hl. split_and!; [destruct (andb _ _) eqn:E; [done | apply andb_false_iff in E as [E%Z.leb_gt|E%Z.leb_gt]; lia] | destruct (andb _ _) eqn:E; [done | apply andb_false_iff in E as [E%Z.leb_gt|E%Z.leb_gt]; lia] | done |].
  intros j Hj. destruct (decide (g <= j < g + (8 - (n + d)))%nat) as [Hz|Hz].
  - exists 0. split; [|unfold is_word; lia]. rewrite list_lookup_inserts by (rewrite ?length_replicate, ?length_inserts; lia). apply lookup_replicate. split; [done | lia].
  - assert (Hj' : list_inserts g (replicate (8 - (n + d)) (Some 0)) (list_inserts (8 - d - (n - g)) moved ws) !! j = list_inserts (8 - d - (n - g)) moved ws !! j).
    { destruct (Nat.lt_ge_cases j g); [by rewrite list_lookup_inserts_lt | rewrite list_lookup_inserts_ge by (rewrite length_replicate; lia); done]. }
    unfold written. rewrite Hj'. destruct (decide (8 - d - (n - g) <= j < 8 - d)%nat) as [Hk|Hk].
    + rewrite list_lookup_inserts by lia. unfold moved. rewrite lookup_take_lt, lookup_drop by lia. apply HW. left. lia.
    + destruct (Nat.lt_ge_cases j (8 - d - (n - g))); [rewrite list_lookup_inserts_lt by lia; apply HW; left; lia | rewrite list_lookup_inserts_ge by lia; apply HW; right; lia].
Qed.
Definition parsed (n : nat) (o : option (Z * list Z)) : Prop := exists r b, o = Some (r, b) /\ (r = 0 \/ r = 1 /\ is_bytes b /\ length b = n).
Lemma refused n : parsed n (Some (0, [])).
Proof. exists 0, []. split; [done | by left]. Qed.
Lemma close_gap_total (dot : bool) s : scanned (if dot then 2 else 0) s -> parsed 16 (close_gap dot s).
Proof.
  set (d := if dot then 2%nat else 0%nat). assert (Hd : (if dot then 2 else 0) = Z.of_nat d) by by destruct dot. rewrite Hd. intros [Hset [Hi Hl] Hg HW]. unfold close_gap. rewrite Hd. clearbody d. clear Hd.
  match goal with |- context[if ?c then Some (0, []) else _] => destruct c eqn:Hr end; [apply refused|]. cbv zeta. replace ((0 <=? gapPos s) && (setWords s - Z.of_nat d - gapPos s <? 0)) with false by lia.
  assert (Hgoal : exists ws, (if 0 <=? gapPos s then
      ws ← put_at (gapPos s + (8 - setWords s)) (ztake (setWords s - Z.of_nat d - gapPos s) (zdrop (gapPos s) (words s))) (words s); put_at (gapPos s) (replicate (Z.to_nat (8 - setWords s)) (Some 0)) ws
    else Some (words s)) = Some ws /\ length ws = 8%nat /\ forall j, (j < 8)%nat -> written ws j).
  { destruct (Z.leb_spec 0 (gapPos s)) as [Hpos|Hpos].
    - destruct (moved_words (words s) (Z.to_nat (gapPos s)) (i_ s) d Hl ltac:(lia) ltac:(lia)) as (ws1 & ws2 & E1 & E2 & Hl2 & HW2); [intros j Hj; apply HW; lia|].
      exists ws2. unfold ztake, zdrop. replace (gapPos s + (8 - setWords s)) with (Z.of_nat (8 - d - (i_ s - Z.to_nat (gapPos s)))) by lia. replace (Z.to_nat (setWords s - Z.of_nat d - gapPos s)) with (i_ s - Z.to_nat (gapPos s))%nat by lia.
      rewrite E1. cbn [mbind option_bind]. replace (Z.to_nat (8 - setWords s)) with (8 - (i_ s + d))%nat by lia. replace (gapPos s) with (Z.of_nat (Z.to_nat (gapPos s))) at 1 by lia. done.
    - exists (words s). split; [done|]. split; [done|]. intros j Hj. apply HW. lia. }
  destruct Hgoal as (ws & -> & Hlw & HWw). cbn [mbind option_bind]. destruct (written_all ws Hlw HWw) as (l & -> & Hll & HF). cbn [mbind option_bind].
  destruct (bytes_of_ok l HF) as [HB HL]. exists 1, (bytes_of l). split; [done|]. right. by rewrite HL, Hll.
Qed.
Lemma small_byte a b c d : small_bytes (a, b, c, d) = true -> 0 <= a -> 0 <= b -> 0 <= c -> 0 <= d -> is_u8 a /\ is_u8 b /\ is_u8 c /\ is_u8 d.
Proof. unfold small_bytes, is_u8. lia. Qed.
Lemma scan_u_nonneg s n rest : scan_u s = Some (n, rest) -> 0 <= n.
Proof.
  unfold scan_u. destruct (scan_sign (skip_spaces s)) as [neg t]. destruct (scan_number 10 t) as [[m r]|]; cbn; [|done]. intros [= <- _]. by apply u32_range.
Qed.
Lemma scan_dotted_nonneg s a b c d : scan_dotted s = Some (a, b, c, d) -> 0 <= a /\ 0 <= b /\ 0 <= c /\ 0 <= d.
Proof.
  unfold scan_dotted. intros HE. repeat (apply bind_Some in HE as ([? ?] & ?%scan_u_nonneg & HE); try (apply bind_Some in HE as (? & _ & HE))). case_match; [|done]. by simplify_eq.
Qed.
(** C17: parsing any text as an address ends with 0, or with 1 and the bytes of
    one: it reads no word that was not written, writes none outside the array,
    and the branch of the code that it calls impossible is never taken. *)
Theorem evutil_inet_pton_total af text : af = AF_INET_ \/ af = AF_INET6_ -> parsed (if af =? AF_INET_ then 4 else 16) (evutil_inet_pton af text).
Proof.
  intros [->| ->]; unfold evutil_inet_pton; cbv iota beta.
  - change (AF_INET_ =? AF_INET_) with true. cbv iota. destruct (scan_dotted text) as [[[[a b] c] d]|]; [|apply refused]. case_match; [|apply refused].
    eexists 1, _. split; [done|]. right. split; [done|]. split; [apply be_bytes_u8 | done].
  - change (AF_INET6_ =? AF_INET_) with false. change (AF_INET6_ =? AF_INET6_) with true. cbv iota.
    assert (Hloop : forall (dot : bool) behind d ws, (if dot then 2 else 0) = d -> 0 <= behind -> length ws = 8%nat -> (forall j, 8 - d <= Z.of_nat j < 8 -> written ws j) ->
      parsed 16 (o ← pton_loop (length text) behind (Scan text 0 (-1) d ws); match o with None => Some (0, []) | Some s => close_gap dot s end)).
    { intros dot behind d ws Hd Hb Hl HW. destruct (pton_loop_total behind d (length text) (Scan text 0 (-1) d ws) Hb) as (o & -> & Ho); [done | split; cbn; [lia | lia | by left |]; intros j [?|?]; [lia | by apply HW]|].
      cbn [mbind option_bind]. destruct o as [s|]; [|apply refused]. apply close_gap_total. by rewrite Hd. }
    destruct (split_at 46 text) as [[before after]|] eqn:Esplit; [|apply (Hloop false); [done | done | done | lia]]. destruct before as [|x before]; [apply refused|]. cbv zeta. set (eow := zlen (x :: before) - _).
    destruct (scan_dotted (zdrop eow text)) as [[[[a b] c] d]|] eqn:Es; [|apply refused]. case_match eqn:Hsm; [|apply refused]. apply scan_dotted_nonneg in Es as (A0 & B0 & C0 & D0). destruct (small_byte a b c d Hsm A0 B0 C0 D0) as (A1 & B1 & C1 & D1).
    apply (Hloop true); [done | | by rewrite !length_insert |].
    + apply split_at_some in Esplit as [Ht _]. unfold eow. rewrite Ht, zlen_app, !zlen_cons. pose proof (zlen_nonneg before). pose proof (zlen_nonneg after). lia.
    + intros j Hj. assert (j = 6%nat \/ j = 7%nat) as [-> | ->] by lia; eexists; (split; [reflexivity|]); rewrite word_of_bytes by done; unfold is_word, is_u8 in *; lia.
Qed.

(** ** The characters of texts that are accepted. *)
Definition ip_input (c : Z) : bool := EVUTIL_ISXDIGIT_ c || (c =? 58) || (c =? 46) || (c =? 120) || (c =? 88) || (c =? 43) || (c =? 45) || is_space c.
Definition eats (s rest : list Z) : Prop := exists p, s = p ++ rest /\ Forall (fun c => ip_input c = true) p.
Lemma eats_refl s : eats s s.
Proof. by exists []. Qed.
Lemma eats_trans a b c : eats a b -> eats b c -> eats a c.
Proof. intros (p & -> & Hp) (q & -> & Hq). exists (p ++ q). split; [by rewrite app_assoc | by apply Forall_app]. Qed.
Lemma eats_cons c s rest : ip_input c = true -> eats s rest -> eats (c :: s) rest.
Proof. intros Hc (p & -> & Hp). exists (c :: p). by split; [|constructor]. Qed.
Lemma digit_input base c d : digit_of base c = Some d -> ip_input c = true.
Proof.
  intros HE. assert (Hd : 0 <= evutil_hex_char_to_int_ c) by (unfold digit_of in HE; destruct (0 <=? evutil_hex_char_to_int_ c) eqn:E0; [lia | done]).
  assert (Hc : 0 <= c < 256). { unfold evutil_hex_char_to_int_ in Hd. destruct ((48 <=? c) && (c <=? 57)) eqn:E1; [lia|]. destruct ((65 <=? c) && (c <=? 70)) eqn:E2; [lia|]. destruct ((97 <=? c) && (c <=? 102)) eqn:E3; lia. }
  pose proof (all_chars_ok (fun c => (evutil_hex_char_to_int_ c <? 0) || EVUTIL_ISXDIGIT_ c) ltac:(vm_compute; reflexivity) c Hc) as HA. cbn beta in HA.
  apply orb_true_iff in HA as [HA|HA]; [lia|]. unfold ip_input. by rewrite HA.
Qed.
Lemma scan_digits_eats base s : forall acc, eats s (snd (scan_digits base s acc)).
Proof. induction s as [|c s IH]; intros acc; cbn; [apply eats_refl|]. destruct (digit_of base c) eqn:Ed; [|apply eats_refl]. apply eats_cons; [by eapply digit_input | apply IH]. Qed.
Lemma scan_number_eats base s n rest : scan_number base s = Some (n, rest) -> eats s rest.
Proof. unfold scan_number. destruct s as [|c s]; [done|]. destruct (digit_of base c); [|done]. intros [= HE]. pose proof (scan_digits_eats base (c :: s) 0) as HS. cbn in HS. by rewrite HE in HS. Qed.
Lemma skip_spaces_eats s : eats s (skip_spaces s).
Proof. induction s as [|c s IH]; cbn; [apply eats_refl|]. destruct (is_space c) eqn:Es; [|apply eats_refl]. apply eats_cons; [|done]. unfold ip_input. by rewrite Es, orb_true_r. Qed.
Lemma scan_sign_eats s : eats s (snd (scan_sign s)).
Proof. unfold scan_sign. destruct s as [|c s]; [apply eats_refl|]. destruct (Z.eqb_spec c 45) as [->|]; [apply eats_cons; [done | apply eats_refl]|]. destruct (Z.eqb_spec c 43) as [->|]; [apply eats_cons; [done | apply eats_refl] | apply eats_refl]. Qed.
Lemma skip_0x_eats base s : eats s (skip_0x base s).
Proof.
  unfold skip_0x. destruct s as [|c [|x t]]; try (repeat case_match; apply eats_refl). destruct (Z.eq_dec c 48) as [->|Hne]; [|repeat case_match; try lia; apply eats_refl].
  destruct ((base =? 16) && ((x =? 120) || (x =? 88)) && _) eqn:E; [|apply eats_refl]. assert (Hx : x = 120 \/ x = 88) by lia. apply eats_cons; [done|]. apply eats_cons; [by destruct Hx as [->| ->] | apply eats_refl].
Qed.
Lemma strtoll_eats s base n rest : evutil_strtoll s base = (n, rest) -> eats s rest.
Proof.
  unfold evutil_strtoll. pose proof (scan_sign_eats (skip_spaces s)) as HS. destruct (scan_sign (skip_spaces s)) as [neg t]. cbn in HS. destruct (scan_number base (skip_0x base t)) as [[m r]|] eqn:En; intros [= _ <-]; [|apply eats_refl].
  eapply eats_trans; [apply skip_spaces_eats|]. eapply eats_trans; [exact HS|]. eapply eats_trans; [apply skip_0x_eats | by eapply scan_number_eats].
Qed.
Lemma scan_u_eats s n rest : scan_u s = Some (n, rest) -> eats s rest.
Proof.
  unfold scan_u. pose proof (scan_sign_eats (skip_spaces s)) as HS. destruct (scan_sign (skip_spaces s)) as [neg t]. cbn in HS. destruct (scan_number 10 t) as [[m r]|] eqn:En; cbn; [|done]. intros [= _ <-].
  eapply eats_trans; [apply skip_spaces_eats|]. eapply eats_trans; [exact HS | by eapply scan_number_eats].
Qed.
Lemma skip_dot_eats s rest : skip_char 46 s = Some rest -> eats s rest.
Proof. unfold skip_char. destruct s as [|c s]; [done|]. destruct (Z.eqb_spec c 46) as [->|]; [|done]. intros [= <-]. apply eats_cons; [done | apply eats_refl]. Qed.
Lemma scan_dotted_eats s q : scan_dotted s = Some q -> eats s [].
Proof.
  unfold scan_dotted. intros HE. do 3 (apply bind_Some in HE as ([? ?] & ?%scan_u_eats & HE); apply bind_Some in HE as (? & ?%skip_dot_eats & HE)). apply bind_Some in HE as ([? last_] & ?%scan_u_eats & HE).
  destruct last_; [|done]. repeat (eapply eats_trans; [eassumption|]). apply eats_refl.
Qed.
Lemma pton_loop_eats turns behind : forall s s', 0 <= behind -> pton_loop turns behind s = Some (Some s') -> exists q, eats (src s) q /\ zlen q <= behind.
Proof.
  induction turns as [|turns IH]; intros s s' Hb HE; cbn [pton_loop] in HE; (case_match eqn:Hbeh; [|exists (src s); split; [apply eats_refl | lia]]); [done|].
  case_match; [done|]. case_match eqn:Hx.
  - destruct (evutil_strtoll (src s) 16) as [r next] eqn:Es. apply strtoll_eats in Es. case_match; [done|]. case_match; [done|]. case_match eqn:Hend; [done|].
    apply bind_Some in HE as (ws & _ & HE).
    destruct (Z.eq_dec (at_ next 0) 58) as [H58|H58]; [|exists next; split; [done | lia]]. destruct (IH _ _ Hb HE) as (q & Hq & Hlq). exists q. split; [|done]. eapply eats_trans; [exact Es|].
    cbn in Hq. destruct next as [|c next]; [done|]. cbn in H58. subst c. by apply eats_cons.
  - case_match eqn:Hc1; [|case_match eqn:Hc2; [|done]]; destruct (IH _ _ Hb HE) as (q & Hq & Hlq); exists q; (split; [|done]); cbn [src] in Hq; destruct (src s) as [|c t]; try done; cbn in Hc1; try (cbn in Hc2).
    + assert (c = 58) as -> by lia. by apply eats_cons.
    + assert (c = 58) as -> by lia. apply eats_cons; [done|]. destruct t as [|x t]; [done|]. cbn in Hc2. assert (x = 58) as -> by lia. by apply eats_cons.
Qed.
Lemma pton_chars text b : evutil_inet_pton AF_INET6_ text = Some (1, b) -> Forall (fun c => ip_input c = true) text.
Proof.
  unfold evutil_inet_pton. change (AF_INET6_ =? AF_INET_) with false. change (AF_INET6_ =? AF_INET6_) with true. cbv iota. destruct (split_at 46 text) as [[before after]|] eqn:Esplit.
  - destruct before as [|x before]; [done|]. cbv zeta. set (eow := zlen (x :: before) - _). destruct (scan_dotted (zdrop eow text)) as [[[[a' b'] c'] d']|] eqn:Es; [|done]. case_match; [|done].
    intros HE. apply bind_Some in HE as ([s|] & HL & HE); [|done]. apply split_at_some in Esplit as [Ht _]. assert (Heow : eow <= zlen text) by (unfold eow; rewrite Ht, zlen_app, !zlen_cons; pose proof (zlen_nonneg after); lia).
    apply pton_loop_eats in HL as (q & (p & Hp & HF) & Hq); [|lia]. cbn [src] in Hp. apply scan_dotted_eats in Es as (p2 & Hp2 & HF2). rewrite app_nil_r in Hp2. rewrite Hp. apply Forall_app. split; [done|].
    assert (Hsuf : exists k, q = zdrop k (zdrop eow text)).
    { destruct (Z.le_gt_cases 0 eow) as [H0|H0].
      - exists (zlen p - eow). rewrite Hp in *. rewrite zlen_app in *. rewrite zdrop_zdrop by lia. replace (eow + (zlen p - eow)) with (zlen p) by lia. rewrite zdrop_app_ge by done. by rewrite Z.sub_diag, zdrop_0.
      - exists (zlen p). replace (zdrop eow text) with text by (unfold zdrop; by replace (Z.to_nat eow) with 0%nat by lia). rewrite Hp, zdrop_app_ge by done. by rewrite Z.sub_diag, zdrop_0. }
    destruct Hsuf as [k ->]. rewrite Hp2. by apply Forall_drop.
  - intros HE. apply bind_Some in HE as ([s|] & HL & HE); [|done]. apply pton_loop_eats in HL as (q & (p & Hp & HF) & Hq); [|done]. cbn [src] in Hp. pose proof (zlen_nonneg q). assert (q = []) as -> by (apply zlen_nil; lia). by rewrite app_nil_r in Hp; subst.
Qed.

(** ** The theorems. *)
Definition af_len (af : Z) (n : nat) : Prop := af = AF_INET_ /\ n = 4%nat \/ af = AF_INET6_ /\ n = 16%nat.
Lemma ip_text_ok af l len : af_len af (length l) -> is_bytes l -> 46 <= len ->
  exists text, evutil_inet_ntop af l len = Some text /\ zlen text <= 45 /\ Forall (fun c => if af =? AF_INET_ then plain c \/ c = 46 else ip_char c) text /\ evutil_inet_pton af text = Some (1, l).
Proof.
  intros [[-> Hl]|[-> Hl]] HB Hlen; [by apply ip4_roundtrip|]. destruct (ip6_text_ok l Hl HB) as (HL & HC & HP). exists (ip6_text l). unfold evutil_inet_ntop. change (AF_INET6_ =? AF_INET_) with false. change (AF_INET6_ =? AF_INET6_) with true.
  cbv iota zeta. replace (len <? zlen (ip6_text l)) with false by lia. by rewrite clipped_all by lia.
Qed.
(** The text that is printed for an address, which fits where an address
    must fit, is parsed to the bytes of the address. *)
Theorem evutil_inet_roundtrip af l len : af_len af (length l) -> is_bytes l -> 46 <= len -> exists text, evutil_inet_ntop af l len = Some text /\ zlen text <= 45 /\ evutil_inet_pton af text = Some (1, l).
Proof. intros Haf HB Hlen. destruct (ip_text_ok af l len Haf HB Hlen) as (text & ? & ? & _ & ?). by exists text. Qed.

Definition sockaddr_ok (sa : sockaddr) : Prop :=
  match sa with
  | AF_INET a p => 0 <= a < 2 ^ 32 /\ 0 < p <= 65535
  | AF_INET6 l p => length l = 16%nat /\ is_bytes l /\ 0 < p <= 65535
  | AF_OTHER _ => False
  end.
Definition sockaddr_len (sa : sockaddr) : Z := match sa with AF_INET _ _ => sizeof_sockaddr_in | AF_INET6 _ _ => sizeof_sockaddr_in6 | AF_OTHER _ => 0 end.
Lemma printed_port p : 0 < p <= 65535 -> zlen (printf_d p) <= 5 /\ 58 ∉ printf_d p.
Proof.
  intros Hp. split.
  - unfold printf_d, zlen. rewrite length_map. assert (HP : 10 ^ Z.of_nat 5 = 100000) by reflexivity. pose proof (digits_length 10 4 20 p ltac:(lia) ltac:(rewrite HP; lia)). lia.
  - pose proof (printf_d_chars p ltac:(lia)) as HC. rewrite Forall_forall in HC. intros HE%HC. lia.
Qed.
(** C13: the text of an address with a port other than 0 is parsed to the same
    address and port. *)
Theorem evutil_sockaddr_roundtrip sa outlen : sockaddr_ok sa -> 54 <= outlen ->
  evutil_parse_sockaddr_port (evutil_format_sockaddr_port_ sa outlen) sizeof_sockaddr_storage = Some (0, Some (sa, sockaddr_len sa)).
Proof.
  intros HS Hlen. destruct sa as [a p|l p|]; [| |done].
  - destruct HS as [Ha Hp]. destruct (ip_text_ok AF_INET_ (be_bytes a) 128) as (b & Hb & HL & HC & HP); [by left | apply be_bytes_u8 | lia|]. change (AF_INET_ =? AF_INET_) with true in HC. cbv iota in HC.
    destruct (printed_port p Hp) as [HpL Hp58]. unfold evutil_format_sockaddr_port_. rewrite Hb. rewrite clipped_all by (rewrite !zlen_app; change (zlen [58]) with 1; lia).
    assert (Hb58 : 58 ∉ b) by (rewrite Forall_forall in HC; intros HE%HC; unfold plain in HE; lia).
    assert (Hsp : split_port (b ++ [58] ++ printf_d p) = Some (false, b, Some (printf_d p))).
    { unfold split_port. assert (Hsa : split_at 58 (b ++ [58] ++ printf_d p) = Some (b, printf_d p)) by by apply split_at_app. rewrite Hsa, (split_at_none 58 (printf_d p)) by done. replace (127 <? zlen b) with false by lia.
      destruct b as [|c b]; [done|]. apply Forall_cons in HC as [Hc _]. cbn [app]. destruct (Z.eq_dec c 91) as [->|Hne]; [unfold plain in Hc; lia|]. repeat case_match; done. }
    unfold evutil_parse_sockaddr_port. rewrite Hsp, atoi_printed by lia. replace ((p <=? 0) || (65535 <? p)) with false by lia. rewrite HP. cbn. by rewrite be_bytes_number.
  - destruct HS as (Hl & HB & Hp). destruct (ip_text_ok AF_INET6_ l 128) as (b & Hb & HL & HC & HP); [by right | done | lia|]. change (AF_INET6_ =? AF_INET_) with false in HC. cbv iota in HC.
    destruct (printed_port p Hp) as [HpL Hp58]. unfold evutil_format_sockaddr_port_. rewrite Hb. rewrite clipped_all by (rewrite !zlen_app; change (zlen [91]) with 1; change (zlen [93; 58]) with 2; lia).
    assert (Hb93 : 93 ∉ b) by (rewrite Forall_forall in HC; intros HE%HC; unfold ip_char, plain in HE; lia).
    assert (Hsp : split_port ([91] ++ b ++ [93; 58] ++ printf_d p) = Some (true, b, Some (printf_d p))).
    { unfold split_port. cbn [app]. rewrite split_at_app by done. cbn [mbind option_bind]. by replace (127 <? zlen b) with false by lia. }
    unfold evutil_parse_sockaddr_port. rewrite Hsp, atoi_printed by lia. replace ((p <=? 0) || (65535 <? p)) with false by lia. by rewrite HP.
Qed.

(** ** Witnesses, and texts that are accepted. *)
Definition demo_ip6 : list Z := [0x20; 1; 0xd; 0xb8; 0; 0; 0; 0; 0; 0; 0; 0; 0; 0; 0; 1].
Lemma demo_ip6_bytes : is_bytes demo_ip6.
Proof. unfold demo_ip6. repeat constructor; unfold is_u8; lia. Qed.
Lemma evutil_inet_roundtrip_witness : exists text, evutil_inet_ntop AF_INET6_ demo_ip6 46 = Some text /\ zlen text <= 45 /\ evutil_inet_pton AF_INET6_ text = Some (1, demo_ip6).
Proof. apply (evutil_inet_roundtrip AF_INET6_ demo_ip6 46); [by right | apply demo_ip6_bytes | lia]. Defined.
Lemma evutil_inet_pton_total_witness : parsed 16 (evutil_inet_pton AF_INET6_ (str "1::2::3")).
Proof. apply (evutil_inet_pton_total AF_INET6_). by right. Defined.
Lemma evutil_sockaddr_roundtrip_witness : evutil_parse_sockaddr_port (evutil_format_sockaddr_port_ (AF_INET6 demo_ip6 53) 128) sizeof_sockaddr_storage = Some (0, Some (AF_INET6 demo_ip6 53, 28)).
Proof. apply (evutil_sockaddr_roundtrip (AF_INET6 demo_ip6 53) 128); [split; [done | split; [apply demo_ip6_bytes | lia]] | lia]. Defined.
Lemma ip6_printed : evutil_inet_ntop AF_INET6_ demo_ip6 46 = Some (str "2001:db8::1").
Proof. by vm_compute. Qed.
(** A colon after the last word. *)
Lemma trailing_colon_accepted : evutil_inet_pton AF_INET6_ (str "1:2:3:4:5:6:7:8:") = evutil_inet_pton AF_INET6_ (str "1:2:3:4:5:6:7:8") /\ evutil_inet_pton AF_INET6_ (str "1::2:") = evutil_inet_pton AF_INET6_ (str "1::2").
Proof. by vm_compute. Qed.
(** The prefixes, blanks and signs that [strtol] and [sscanf] skip. *)
Lemma odd_numbers_accepted : evutil_inet_pton AF_INET6_ (str "0x1f::1") = evutil_inet_pton AF_INET6_ (str "1f::1") /\ evutil_inet_pton AF_INET_ (str " 1. +2.3.-4294967292") = Some (1, [1; 2; 3; 4]).
Proof. by vm_compute. Qed.
(** A buffer that lacks the place for the NUL. *)
Lemma ntop_truncates : evutil_inet_ntop AF_INET6_ (replicate 15 0 ++ [1]) 3 = Some (str "::").
Proof. by vm_compute. Qed.
(** What follows a bracket, and port 0. *)
Definition loopback6 : sockaddr := AF_INET6 (replicate 15 0 ++ [1]) 0.
Lemma junk_after_bracket : evutil_parse_sockaddr_port (str "[::1]junk") 128 = Some (0, Some (loopback6, 28)).
Proof. by vm_compute. Qed.
Lemma port_0_not_read : evutil_format_sockaddr_port_ loopback6 128 = str "[::1]:0" /\ evutil_parse_sockaddr_port (str "[::1]:0") 128 = Some (-1, None).
Proof. by vm_compute. Qed.
