(* ===== verification/UriParts.v ===== *)
(** * The parts of a URI: what the checks accept

    The scanners of http.c stop at the right place when the parts are put one
    after the other, and what they read is accepted by the checks. *)
From S2P Require Import Prelude Event Buffer BufferInv CString Address Uri UriCodec AddressProps BufferSearch BufferLines ByteQueue.
Open Scope Z_scope.

#[global] Arguments strchr : simpl never.
#[global] Arguments SUBDELIMS : simpl never.
#[global] Arguments CHAR_IS_UNRESERVED : simpl never.
#[global] Arguments IMPL_CTYPE_FN : simpl never.
#[global] Arguments EVUTIL_ISXDIGIT_ : simpl never.

(** Induction for scanners that take a character or an escape of three. *)
Lemma list_ind3 {A} (P : list A -> Prop) : P [] ->
  (forall c s, P s -> (forall a b s', s = a :: b :: s' -> P s') -> P (c :: s)) -> forall s, P s.
Proof.
  intros Hnil Hcons s. remember (length s) as n eqn:En. revert s En. induction (lt_wf n) as [n _ IH]. intros [|c s] ->; [done|].
  apply Hcons; [apply (IH (length s)); cbn; lia|]. intros a b s' ->. apply (IH (length s')); cbn; lia.
Qed.

(** ** The scanner of paths, queries and fragments. *)
Lemma end_nonconformant_le part s : (end_nonconformant part s <= length s)%nat.
Proof. induction s as [|c s IH]; cbn; [done|]. case_if; lia. Qed.
Lemma end_conformant_le part s : (end_conformant part s <= length s)%nat.
Proof.
  induction s as [|c s IH IH3] using list_ind3; [done|]. cbn. case_if; [lia|]. case_if; [|case_if; lia].
  destruct s as [|a [|b s]]; [cbn; lia | cbn; lia |]. specialize (IH3 a b s eq_refl). case_if; cbn; lia.
Qed.
Lemma end_of_path_le s part flags : (end_of_path s part flags <= length s)%nat.
Proof. unfold end_of_path. case_if; [apply end_nonconformant_le | apply end_conformant_le]. Qed.

(** What was scanned is accepted whole. *)
Lemma end_of_path_take s part flags : all_of_path (take (end_of_path s part flags) s) part flags = true.
Proof.
  unfold all_of_path. apply Nat.eqb_eq. pose proof (end_of_path_le s part flags) as Hle. revert Hle. rewrite length_take.
  unfold end_of_path. case_if; intros Hle; rewrite Nat.min_l by done; clear Hle.
  - induction s as [|c s IH]; [done|]. cbn. destruct (stops part c) eqn:Es; cbn; [done|]. by rewrite Es, IH.
  - induction s as [|c s IH IH3] using list_ind3; [done|]. cbn. destruct (_ || _) eqn:E1; [cbn; by rewrite E1, IH|].
    destruct (c =? 37) eqn:E2.
    + destruct s as [|a [|b s]]; [done | done |]. destruct (_ && _) eqn:E3; [|done]. cbn [take end_conformant]. rewrite E1, E2, E3. by rewrite (IH3 a b s).
    + destruct (_ && _) eqn:E3; [|done]. cbn [take end_conformant]. by rewrite E1, E2, E3, IH.
Qed.

(** What can follow a part. *)
Definition ends (part : uri_part) (rest : list Z) : Prop :=
  match rest with
  | [] => True
  | c :: _ => match part with PART_PATH => c = 35 \/ c = 63 | PART_QUERY => c = 35 | PART_FRAGMENT => False end
  end.

Lemma end_of_path_app s part flags rest : all_of_path s part flags = true -> ends part rest ->
  end_of_path (s ++ rest) part flags = length s.
Proof.
  intros Hall Hend. unfold all_of_path in Hall. apply Nat.eqb_eq in Hall. revert Hall. unfold end_of_path. case_if.
  - induction s as [|c s IH]; cbn; intros Hall.
    + destruct rest as [|c rest]; [done|]. cbn in *. destruct part; cbn; [destruct Hend as [-> | ->] | subst |]; done.
    + destruct (stops part c); [done|]. by rewrite IH by lia.
  - induction s as [|c s IH IH3] using list_ind3; intros Hall.
    + destruct rest as [|c rest]; [done|]. cbn in Hend. destruct part; [destruct Hend as [-> | ->] | subst |]; done.
    + cbn in Hall. cbn [app end_conformant length]. destruct (_ || _) eqn:E1; [by rewrite IH by lia|].
      destruct (c =? 37) eqn:E2.
      * destruct s as [|a [|b s]]; [done | done |]. cbn [app length] in *. destruct (_ && _) eqn:E3; [|done]. rewrite (IH3 a b s) by (done || lia). done.
      * destruct (_ && _) eqn:E3; [|done]. by rewrite IH by lia.
Qed.

Lemma end_of_authority_spec s : exists rest, drop (end_of_authority s) s = rest /\
  (rest = [] \/ exists c rest', rest = c :: rest' /\ (c = 63 \/ c = 35 \/ c = 47)).
Proof.
  eexists. split; [done|]. induction s as [|c s IH]; [by left|]. cbn. destruct (_ || _) eqn:E; [|done].
  right. exists c, s. split; [done | lia].
Qed.
Lemma end_of_authority_app s rest : Forall (fun c => c <> 63 /\ c <> 35 /\ c <> 47) s ->
  (rest = [] \/ exists c rest', rest = c :: rest' /\ (c = 63 \/ c = 35 \/ c = 47)) -> end_of_authority (s ++ rest) = length s.
Proof.
  intros Hs Hr. induction Hs as [|c s Hc Hs IH]; cbn.
  - destruct Hr as [->|(c & rest' & -> & Hc)]; [done|]. cbn. by replace (_ || _) with true by lia.
  - replace (_ || _) with false by lia. by rewrite IH.
Qed.

(** ** Which characters a part has. *)
Lemma strchr_nonzero c : is_char c -> strchr SUBDELIMS c = existsb (fun x => x =? c) SUBDELIMS.
Proof. intros Hc. unfold strchr. by replace (c =? 0) with false by (unfold is_char in Hc; lia). Qed.

(** A test of the characters is checked on all of them. *)
Lemma char_test (P Q : Z -> bool) : forallb (fun c => negb (P c) || (c =? 0) || Q c) all_chars = true ->
  forall c, is_char c -> P c = true -> Q c = true.
Proof.
  intros HA c Hc HP. pose proof (all_chars_ok _ HA c ltac:(unfold is_char in Hc; lia)) as HB. cbn beta in HB.
  rewrite HP in HB. unfold is_char in Hc. replace (c =? 0) with false in HB by lia. done.
Qed.

Definition scheme_char (c : Z) : bool := EVUTIL_ISALNUM_ c || (c =? 43) || (c =? 45) || (c =? 46).
Lemma scheme_ok_chars s : is_cstring s -> scheme_ok s = true -> Forall (fun c => c <> 58 /\ c <> 63 /\ c <> 35 /\ c <> 47) s.
Proof.
  intros Hs Hok. assert (forall c, is_char c -> scheme_char c = true -> c <> 58 /\ c <> 63 /\ c <> 35 /\ c <> 47) as HA.
  { intros c Hc Hsc. pose proof (char_test scheme_char (fun c => negb (c =? 58) && negb (c =? 63) && negb (c =? 35) && negb (c =? 47)) ltac:(vm_compute; reflexivity) c Hc Hsc) as HB.
    cbn beta in HB. lia. }
  destruct s as [|c s]; [done|]. unfold is_cstring in Hs. apply Forall_cons in Hs as [Hc Hs]. cbn in Hok. apply andb_true_iff in Hok as [Ha Hr]. constructor.
  - apply HA; [done|]. exact (char_test EVUTIL_ISALPHA_ scheme_char ltac:(vm_compute; reflexivity) c Hc Ha).
  - rewrite forallb_forall in Hr. apply Forall_forall. intros x Hx. rewrite Forall_forall in Hs. apply HA; [by apply Hs|].
    apply Hr. by apply list_elem_of_In.
Qed.

(** The characters of users and names of hosts. *)
Definition auth_char (c : Z) : bool := CHAR_IS_UNRESERVED c || strchr SUBDELIMS c || (c =? 37).
Definition plain_auth (c : Z) : Prop := c <> 63 /\ c <> 35 /\ c <> 47 /\ c <> 64.
Lemma auth_char_plain c : is_char c -> auth_char c || EVUTIL_ISXDIGIT_ c = true -> plain_auth c /\ c <> 58 /\ c <> 91 /\ c <> 93.
Proof.
  intros Hc Ha. pose proof (char_test (fun c => auth_char c || EVUTIL_ISXDIGIT_ c)
    (fun c => negb (c =? 58) && negb (c =? 63) && negb (c =? 35) && negb (c =? 47) && negb (c =? 64) && negb (c =? 91) && negb (c =? 93)) ltac:(vm_compute; reflexivity) c Hc Ha) as HB.
  cbn beta in HB. unfold plain_auth. lia.
Qed.

Lemma userinfo_chars s : is_cstring s -> userinfo_ok s = true -> Forall plain_auth s.
Proof.
  induction s as [|c s IH IH3] using list_ind3; [constructor|]. intros Hs Hok. unfold is_cstring in *. apply Forall_cons in Hs as [Hc Hs].
  cbn in Hok. destruct (_ || _) eqn:E1.
  - constructor; [|by apply IH]. apply orb_true_iff in E1 as [E1|E1]; [|unfold plain_auth; lia].
    apply auth_char_plain; [done|]. unfold auth_char. by rewrite E1.
  - destruct (c =? 37) eqn:E2; [|done]. apply Z.eqb_eq in E2 as ->. destruct s as [|a [|b s]]; [done | done |].
    apply Forall_cons in Hs as [Ha Hs]. apply Forall_cons in Hs as [Hb Hs]. rewrite !andb_true_iff in Hok. destruct Hok as [[Ha' Hb'] Hok].
    rewrite !Forall_cons. split_and!; [apply auth_char_plain; [done|]; first [done | by rewrite ?Ha', ?Hb', orb_true_r].. | by apply (IH3 a b s)].
Qed.

Lemma regname_chars s : is_cstring s -> regname_ok s [] = true -> Forall (fun c => plain_auth c /\ c <> 58 /\ c <> 91 /\ c <> 93) s.
Proof.
  induction s as [|c s IH IH3] using list_ind3; [constructor|]. intros Hs Hok. unfold is_cstring in *. apply Forall_cons in Hs as [Hc Hs].
  cbn in Hok. destruct (_ || _) eqn:E1.
  - constructor; [|by apply IH]. apply auth_char_plain; [done|]. unfold auth_char. by rewrite E1.
  - destruct (c =? 37) eqn:E2; [|done]. apply Z.eqb_eq in E2 as ->. destruct s as [|a [|b s]]; [done | by rewrite andb_false_r in Hok |].
    apply Forall_cons in Hs as [Ha Hs]. apply Forall_cons in Hs as [Hb Hs]. rewrite !andb_true_iff in Hok. destruct Hok as [[Ha' Hb'] Hok].
    rewrite !Forall_cons. split_and!; [apply auth_char_plain; [done|]; first [done | by rewrite ?Ha', ?Hb', orb_true_r].. | by apply (IH3 a b s)].
Qed.

(** An escape that is not finished cannot be finished by what follows. *)
Lemma regname_after s after : EVUTIL_ISXDIGIT_ (at_ after 0) = false -> regname_ok s after = regname_ok s [].
Proof.
  intros Ha. induction s as [|c s IH IH3] using list_ind3; [done|]. cbn. case_if; [done|]. case_if; [|done].
  destruct s as [|a [|b s]]; [by rewrite Ha | by rewrite Ha |]. by rewrite (IH3 a b s eq_refl).
Qed.

(** * URIs: well-formedness, and parsing what was put together *)
(** ** Decimal numbers. *)
Lemma digits_snoc fuel base n : (0 < fuel)%nat -> base <= n -> digits fuel base n = digits (pred fuel) base (n / base) ++ [n mod base].
Proof. intros Hf Hn. destruct fuel as [|fuel]; [lia|]. cbn. by replace (n <? base) with false by lia. Qed.

Lemma digit_char d : 0 <= d < 10 -> EVUTIL_ISDIGIT_ (48 + d) = true /\ is_char (48 + d).
Proof.
  intros Hd. split; [|unfold is_char; lia].
  pose proof (all_chars_ok (fun c => negb ((48 <=? c) && (c <=? 57)) || EVUTIL_ISDIGIT_ c) ltac:(vm_compute; reflexivity) (48 + d) ltac:(lia)) as HA.
  cbn beta in HA. replace ((48 <=? 48 + d) && (48 + d <=? 57)) with true in HA by lia. done.
Qed.

Lemma port_loop_digits fuel : forall p rest, 0 <= p <= 65535 -> p < 10 ^ Z.of_nat fuel -> (0 < fuel)%nat ->
  port_loop (map (fun d => 48 + d) (digits fuel 10 p) ++ rest) 0 = port_loop rest p /\
  Forall (fun c => EVUTIL_ISDIGIT_ c = true /\ is_char c) (map (fun d => 48 + d) (digits fuel 10 p)).
Proof.
  assert (forall acc d rest, 0 <= d < 10 -> 0 <= acc -> acc * 10 + d <= 65535 ->
    port_loop ((48 + d) :: rest) acc = port_loop rest (acc * 10 + d)) as Hstep.
  { intros acc d rest Hd Hacc Hle. cbn [port_loop]. destruct (digit_char d Hd) as [-> _]. cbn [negb].
    replace (48 + d - 48) with d by lia. by replace ((acc * 10 + d <? 0) || (65535 <? acc * 10 + d)) with false by lia. }
  induction fuel as [|fuel IH]; intros p rest Hp Hlt Hf; [lia|]. cbn [digits]. destruct (p <? 10) eqn:E.
  - rewrite Z.mod_small by lia. cbn [app map]. rewrite Hstep by lia. split; [f_equal; lia|]. repeat constructor; apply digit_char; lia.
  - rewrite Nat2Z.inj_succ, Z.pow_succ_r in Hlt by lia. destruct fuel as [|fuel]; [cbn in Hlt; lia|].
    destruct (IH (p / 10) ((48 + p mod 10) :: rest)) as [IH1 IH2]; [lia | lia | lia |].
    rewrite map_app, <- app_assoc. cbn [map app]. rewrite IH1, Hstep by lia. split; [f_equal; lia|].
    apply Forall_app. split; [done|]. repeat constructor; apply digit_char; lia.
Qed.

Lemma printf_d_port p : 0 <= p <= 65535 ->
  parse_port (printf_d p) = p /\ Forall (fun c => EVUTIL_ISDIGIT_ c = true /\ is_char c) (printf_d p) /\ 0 < zlen (printf_d p).
Proof.
  intros Hp. destruct (port_loop_digits 20 p [] Hp) as [H1 H2]; [lia | lia |]. rewrite app_nil_r in H1. split_and!; [done | done |].
  unfold printf_d, zlen. rewrite length_map. cbn [digits]. rewrite length_app. cbn. lia.
Qed.

Lemma port_loop_range s : forall p, -1 <= port_loop s p <= Z.max p 65535 \/ p < -1.
Proof.
  induction s as [|c s IH]; intros p; cbn; [lia|]. case_if; [lia|]. case_if; [lia|]. destruct (IH (p * 10 + (c - 48))); lia.
Qed.
Lemma parse_port_range s : -1 <= parse_port s <= 65535.
Proof. unfold parse_port. destruct (port_loop_range s 0); lia. Qed.

(** ** Hosts. *)
Section Props.
Implicit Types u : evhttp_uri.

Lemma host_ok_after s after : EVUTIL_ISXDIGIT_ (at_ after 0) = false -> host_ok s after = host_ok s [].
Proof.
  intros Ha. unfold Uri.host_ok. rewrite (regname_after _ _ Ha). destruct s as [|c s]; [|done].
  change (2 <=? zlen []) with false. by rewrite !andb_false_r.
Qed.

Lemma ipvfuture_chars s : is_cstring s -> ipvfuture_ok s = true -> Forall plain_auth s.
Proof.
  induction s as [|c s IH]; [done|]. unfold is_cstring. intros Hs Hok. apply Forall_cons in Hs as [Hc Hs]. cbn in Hok. destruct (c =? 46) eqn:E.
  - apply Z.eqb_eq in E as ->. constructor; [unfold plain_auth; lia|]. rewrite forallb_forall in Hok. apply Forall_forall. intros x Hx.
    rewrite Forall_forall in Hs. pose proof (Hs x Hx) as Hxc. apply list_elem_of_In in Hx. apply Hok in Hx. apply orb_true_iff in Hx as [Hx|Hx].
    + apply auth_char_plain; [done|]. unfold auth_char. by rewrite Hx.
    + unfold plain_auth. lia.
  - apply andb_true_iff in Hok as [Hx Hok]. constructor; [|by apply IH]. apply auth_char_plain; [done|]. by rewrite Hx, orb_true_r.
Qed.

Lemma inet_pton6_chars s : inet_pton6 s = true -> Forall (fun c => ip_input c = true) s.
Proof. unfold inet_pton6. destruct (evutil_inet_pton AF_INET6_ s) as [[r b]|] eqn:E; [|done]. destruct (Z.eq_dec r 1) as [->|Hr]; [intros _; by eapply pton_chars|]. by repeat case_match. Qed.
(** An address in brackets. *)
Lemma bracket_shape s : c_true (bracket_addr_ok s) = true -> exists inner, s = 91 :: inner ++ [93] /\ inner <> [] /\
  (at_ s 1 = 118 /\ (exists t, inner = 118 :: t /\ ipvfuture_ok t = true) \/ inet_pton6 inner = true).
Proof.
  unfold Uri.bracket_addr_ok. destruct (_ || _) eqn:E1; [done|]. rewrite !orb_false_iff, !negb_false_iff in E1. destruct E1 as [[Hlen H91] H93].
  destruct s as [|c s]; [done|]. cbn [tail at_ nth length pred] in *. apply Z.eqb_eq in H91 as ->.
  destruct (exists_last (l := s)) as (inner & z & ->); [intros ->; done|]. intros Hb. exists inner.
  rewrite removelast_last in Hb. unfold at_ in H93. rewrite length_app, Nat.add_1_r in H93.
  change (nth (S (length inner)) (91 :: inner ++ [z]) 0) with (nth (length inner) (inner ++ [z]) 0) in H93.
  rewrite app_nth2, Nat.sub_diag in H93 by lia. cbn in H93. apply Z.eqb_eq in H93 as ->.
  rewrite zlen_cons, zlen_app in Hlen. change (zlen [93]) with 1 in Hlen.
  assert (inner <> []) as Hne by (intros ->; change (zlen []) with 0 in Hlen; lia). split_and!; [done | done |].
  unfold at_ in *. change (nth 1 (91 :: inner ++ [93]) 0) with (nth 0 (inner ++ [93]) 0) in *.
  destruct (_ =? 118) eqn:Ev in Hb.
  - left. destruct inner as [|v inner]; [done|]. cbn in Ev. apply Z.eqb_eq in Ev as ->. split; [done|]. exists inner. split; [done|].
    cbn [tail] in Hb. destruct (ipvfuture_ok inner); [done|]. by rewrite andb_false_r in Hb.
  - right. destruct (64 <=? zlen inner); [done|]. by destruct (inet_pton6 inner).
Qed.

Lemma host_ok_cases s : host_ok s [] = true ->
  regname_ok s [] = true \/ c_true (bracket_addr_ok s) = true.
Proof. unfold Uri.host_ok. case_if; auto. Qed.

Lemma host_chars s : is_cstring s -> host_ok s [] = true -> Forall plain_auth s.
Proof.
  intros Hs [Hr|Hb]%host_ok_cases.
  - eapply Forall_impl; [by apply regname_chars|]. intros c Hc. apply Hc.
  - destruct (bracket_shape s Hb) as (inner & -> & _ & Hi). unfold is_cstring in Hs. apply Forall_cons in Hs as [_ Hs]. apply Forall_app in Hs as [Hs _].
    rewrite Forall_cons, Forall_app, Forall_singleton. split_and!; [unfold plain_auth; lia | | unfold plain_auth; lia].
    destruct Hi as [(_ & t & -> & Ht)|Hi].
    + apply Forall_cons in Hs as [_ Hs]. constructor; [unfold plain_auth; lia | by apply ipvfuture_chars].
    + pose proof (inet_pton6_chars inner Hi) as HA. rewrite Forall_forall in *. intros c Hc. pose proof (HA c Hc) as HB. unfold ip_input in HB.
      destruct (EVUTIL_ISXDIGIT_ c) eqn:Hx; [apply auth_char_plain; [by apply Hs|]; by rewrite Hx, orb_true_r|]. unfold is_space in HB. unfold plain_auth. lia.
Qed.

(** ** The authority. *)
Definition port_text (p : Z) : list Z := if 0 <=? p then 58 :: printf_d p else [].
Definition user_text (f : option (list Z)) : list Z := match f with Some f => f ++ [64] | None => [] end.

Lemma span_digits_app d r : Forall (fun c => EVUTIL_ISDIGIT_ c = true /\ is_char c) d ->
  match r with c :: _ => EVUTIL_ISDIGIT_ c = false | [] => True end -> span_digits (d ++ r) = (d, r).
Proof.
  intros Hd Hr. induction Hd as [|c d [Hc _] Hd IH]; cbn; [|by rewrite Hc, IH]. destruct r as [|c r]; [done|]. cbn. by rewrite Hr.
Qed.
Lemma span_digits_spec s : fst (span_digits s) ++ snd (span_digits s) = s.
Proof. induction s as [|c s IH]; [done|]. cbn. case_if; [|done]. destruct (span_digits s). cbn in *. by rewrite IH. Qed.

(** A host does not look as if a port followed. *)
Lemma host_no_port s : is_cstring s -> host_ok s [] = true -> forall r, snd (span_digits (reverse s)) <> 58 :: r.
Proof.
  intros Hs [Hr|Hb]%host_ok_cases r Hsp.
  - pose proof (span_digits_spec (reverse s)) as Hd. rewrite Hsp in Hd.
    pose proof (regname_chars s Hs Hr) as HA. rewrite Forall_forall in HA. destruct (HA 58) as (_ & ? & _); [|done].
    rewrite <- (reverse_involutive s), <- Hd, elem_of_reverse. set_solver.
  - destruct (bracket_shape s Hb) as (inner & -> & _). rewrite reverse_cons, reverse_app in Hsp. done.
Qed.

Lemma parse_hostport_text u h p after : is_cstring h -> host_ok h [] = true -> -1 <= p <= 65535 ->
  EVUTIL_ISXDIGIT_ (at_ after 0) = false -> port u = -1 ->
  parse_hostport u (h ++ port_text p) after = Some {| {| u with port := p |} with host := Some h |}.
Proof.
  intros Hs Hok Hp Ha Hu. unfold parse_hostport, port_text. case_if.
  - destruct (printf_d_port p ltac:(lia)) as (Hpp & Hd & Hlen). rewrite reverse_app, reverse_cons, <- app_assoc. cbn [app].
    rewrite span_digits_app; [|by apply Forall_reverse | done]. rewrite !reverse_involutive.
    replace (zlen (printf_d p) =? 0) with false by lia. rewrite Hpp. cbn [negb andb]. replace (p <? 0) with false by lia.
    by rewrite host_ok_after, Hok.
  - replace p with (-1) by lia. rewrite app_nil_r. pose proof (host_no_port h Hs Hok) as Hn. destruct (span_digits (reverse h)) as [d r]. cbn [snd] in Hn.
    assert (match r with 58 :: name => False | _ => True end) as Hr.
    { destruct r as [|[|x|x] r]; try done. do 6 (destruct x as [x|x|]; try done). by destruct (Hn r). }
    rewrite host_ok_after by done. rewrite Hok. destruct u; cbn in Hu. subst.
    destruct r as [|[|x|x] r]; try done. do 6 (destruct x as [x|x|]; try done).
Qed.

Lemma parse_authority_text u us h p after : port u = -1 -> userinfo u = None ->
  match us with Some f => is_cstring f /\ userinfo_ok f = true | None => True end ->
  is_cstring h -> host_ok h [] = true -> -1 <= p <= 65535 -> EVUTIL_ISXDIGIT_ (at_ after 0) = false ->
  parse_authority u (user_text us ++ h ++ port_text p) after =
    Some {| {| {| u with userinfo := us |} with port := p |} with host := Some h |}.
Proof.
  intros Hp Hn Hus Hs Hok Hr Ha. destruct us as [f|]; cbn [user_text].
  - destruct Hus as [Hf Hfok]. rewrite <- app_assoc. cbn [app]. unfold parse_authority.
    rewrite split_at_app.
    + rewrite Hfok, parse_hostport_text by done. by destruct f.
    + intros Hin. pose proof (userinfo_chars f Hf Hfok) as HA. rewrite Forall_forall in HA. apply HA in Hin. unfold plain_auth in Hin. lia.
  - cbn [app]. unfold parse_authority. rewrite split_at_none.
    + rewrite parse_hostport_text by done. assert ({| u with userinfo := None |} = u) as -> by (destruct u; cbn in *; by subst).
      destruct (h ++ port_text p) eqn:E; [|done]. apply app_eq_nil in E as [-> Ep]. unfold port_text in Ep. case_if_in Ep; [done|].
      replace p with (-1) by lia. destruct u; cbn in *; by subst.
    + rewrite elem_of_app. intros [Hin|Hin].
      * pose proof (host_chars h Hs Hok) as HA. rewrite Forall_forall in HA. apply HA in Hin. unfold plain_auth in Hin. lia.
      * unfold port_text in Hin. case_if_in Hin; [|set_solver]. destruct (printf_d_port p ltac:(lia)) as (_ & Hd & _).
        apply elem_of_cons in Hin as [|Hin]; [done|]. rewrite Forall_forall in Hd. by apply Hd in Hin as [].
Qed.

(** Conversely, what is parsed is an authority. *)
Definition part_ok (check : list Z -> bool) (f : option (list Z)) : Prop :=
  match f with Some f => is_cstring f /\ check f = true | None => True end.

Lemma is_cstring_app s t : is_cstring (s ++ t) <-> is_cstring s /\ is_cstring t.
Proof. apply Forall_app. Qed.

Lemma parse_hostport_ok u s after u' : is_cstring s -> EVUTIL_ISXDIGIT_ (at_ after 0) = false -> port u = -1 ->
  parse_hostport u s after = Some u' ->
  exists h p, u' = {| {| u with port := p |} with host := Some h |} /\ is_cstring h /\ host_ok h [] = true /\ -1 <= p <= 65535.
Proof.
  intros Hs Ha Hp. unfold parse_hostport. pose proof (span_digits_spec (reverse s)) as Hsp. destruct (span_digits (reverse s)) as [d r]. cbn [fst snd] in Hsp.
  assert ((if host_ok s after then Some {| u with host := Some s |} else None) = Some u' ->
    exists h p, u' = {| {| u with port := p |} with host := Some h |} /\ is_cstring h /\ host_ok h [] = true /\ -1 <= p <= 65535) as Hno.
  { rewrite host_ok_after by done. case_if; [|done]. intros [= <-]. exists s, (-1). split_and!; [destruct u; cbn in *; by subst | done.. | lia | lia]. }
  destruct r as [|[|x|x] r]; try done. do 6 (destruct x as [x|x|]; try done).
  assert (is_cstring (reverse r)) as Hr.
  { apply Forall_reverse in Hs. rewrite <- Hsp in Hs. apply Forall_app in Hs as [_ Hs]. apply Forall_cons in Hs as [_ Hs]. by apply Forall_reverse. }
  destruct (negb _ && _) eqn:E; [done|]. rewrite host_ok_after by done. case_if; [|done]. intros [= <-].
  eexists _, _. split_and!; [done | done | done | |]; pose proof (parse_port_range (reverse d)); case_if; lia.
Qed.

Lemma parse_authority_ok u s after u' : is_cstring s -> EVUTIL_ISXDIGIT_ (at_ after 0) = false -> port u = -1 -> userinfo u = None ->
  parse_authority u s after = Some u' ->
  exists us h p, u' = {| {| {| u with userinfo := us |} with port := p |} with host := Some h |} /\
    part_ok userinfo_ok us /\ is_cstring h /\ host_ok h [] = true /\ -1 <= p <= 65535.
Proof.
  intros Hs Ha Hp Hn R. unfold parse_authority in R. assert ({| u with userinfo := None |} = u) as Hu by (destruct u; cbn in *; by subst).
  destruct s as [|c s].
  { injection R as <-. exists None, [], (-1). split_and!; try done. rewrite Hu. destruct u; cbn in *; by subst. }
  destruct (split_at 64 (c :: s)) as [[user cp]|] eqn:ES.
  - destruct (userinfo_ok user) eqn:EU; [|done]. apply split_at_some in ES as [ES _]. rewrite ES in Hs. apply is_cstring_app in Hs as [Hf Hcp].
    apply Forall_cons in Hcp as [_ Hcp]. destruct (parse_hostport_ok {| u with userinfo := Some user |} cp after u' Hcp Ha Hp R) as (h & p & -> & ? & ? & ?).
    by exists (Some user), h, p.
  - destruct (parse_hostport_ok u (c :: s) after u' Hs Ha Hp R) as (h & p & -> & ? & ? & ?). exists None, h, p. by rewrite Hu.
Qed.

(** ** Well-formed URIs.

    The parts pass the checks ([lax] when some flags of the URI were not
    conformant), and together they have the shape of a URI reference. *)
Definition lax_flags (lax : bool) : Z := if lax then EVHTTP_URI_NONCONFORMANT else 0.
Record uri_parts (lax : bool) u : Prop := {
  up_flags : has (uri_flags u) EVHTTP_URI_NONCONFORMANT = true -> lax = true;
  up_scheme : part_ok scheme_ok (scheme u);
  up_user : part_ok userinfo_ok (userinfo u);
  up_host : part_ok (fun h => host_ok h []) (host u);
  up_port : -1 <= port u;
  up_path : part_ok (fun s => all_of_path s PART_PATH (lax_flags lax)) (path u);
  up_query : part_ok (fun s => all_of_path s PART_QUERY (lax_flags lax)) (query u);
  up_fragment : part_ok (fun s => all_of_path s PART_FRAGMENT (lax_flags lax)) (fragment u)
}.
Record uri_shape u : Prop := {
  us_path : exists p, path u = Some p /\ (host u <> None -> p = [] \/ at_ p 0 = 47) /\
    (host u = None -> at_ p 0 = 47 -> at_ p 1 <> 47) /\ (scheme u = None -> path_matches_noscheme p = true);
  us_host : host u = None -> userinfo u = None /\ port u = -1;
  us_port : port u <= 65535
}.

Lemma conformant_lax part s : end_conformant part s = length s -> end_nonconformant part s = length s.
Proof.
  assert (forall c, stops part c = true -> (CHAR_IS_UNRESERVED c || strchr SUBDELIMS c || (c =? 58) || (c =? 64) || (c =? 47)) = false /\ (c =? 37) = false /\ ((c =? 63) && negb (is_path part)) = false) as Hst.
  { intros c Hc. assert (c = 35 \/ c = 63 /\ part = PART_PATH) as [->|[-> ->]] by (destruct part; cbn in Hc; [|left; lia | done]; apply orb_true_iff in Hc as [Hc|Hc]; [left; lia | right; split; [lia | done]]); done. }
  assert (EVUTIL_ISXDIGIT_ 35 = false /\ EVUTIL_ISXDIGIT_ 63 = false) as [Hx1 Hx2] by done.
  assert (forall c, EVUTIL_ISXDIGIT_ c = true -> stops part c = false) as Hx.
  { intros c Hc. destruct (stops part c) eqn:E; [|done]. destruct part; cbn in E; [apply orb_true_iff in E as [E|E] | | done]; apply Z.eqb_eq in E as ->; congruence. }
  induction s as [|c s IH IH3] using list_ind3; [done|]. intros Hl. cbn [end_nonconformant length]. destruct (stops part c) eqn:Es.
  - destruct (Hst c Es) as (E1 & E2 & E3). cbn in Hl. rewrite E1, E2, E3 in Hl. done.
  - f_equal. cbn in Hl. destruct (_ || _) eqn:E1; [apply IH; lia|]. destruct (c =? 37) eqn:E2.
    + destruct s as [|a [|b s]]; [done | done |]. destruct (_ && _) eqn:E3; [|done]. apply andb_true_iff in E3 as [Ea Eb].
      cbn. rewrite (Hx a Ea), (Hx b Eb). f_equal. f_equal. apply (IH3 a b s eq_refl). cbn in Hl. lia.
    + destruct (_ && _) eqn:E3; [|done]. apply IH. lia.
Qed.

Lemma all_of_path_lax s part flags lax : all_of_path s part flags = true -> (has flags EVHTTP_URI_NONCONFORMANT = true -> lax = true) ->
  all_of_path s part (lax_flags lax) = true.
Proof.
  unfold all_of_path, end_of_path. rewrite !Nat.eqb_eq. intros Hs Hl. destruct lax; cbn.
  - change (has EVHTTP_URI_NONCONFORMANT EVHTTP_URI_NONCONFORMANT) with true. case_if_in Hs; [done|]. by apply conformant_lax.
  - change (has 0 EVHTTP_URI_NONCONFORMANT) with false. destruct (has flags _); [by discriminate (Hl eq_refl) | done].
Qed.

Lemma part_ok_path_lax f part flags lax : part_ok (fun s => all_of_path s part flags) f -> (has flags EVHTTP_URI_NONCONFORMANT = true -> lax = true) ->
  part_ok (fun s => all_of_path s part (lax_flags lax)) f.
Proof. intros Hf Hl. destruct f as [f|]; [|done]. split; [apply Hf|]. eapply all_of_path_lax; [apply Hf | done]. Qed.

(** ** The text of a URI. *)
Definition opt_text (before : list Z) (f : option (list Z)) (behind : list Z) : list Z :=
  match f with Some f => before ++ f ++ behind | None => [] end.
Definition authority_text u : list Z :=
  match host u with Some h => user_text (userinfo u) ++ h ++ port_text (port u) | None => [] end.
Definition uri_text u : list Z :=
  opt_text [] (scheme u) [58] ++ (match host u with Some _ => [47; 47] ++ authority_text u | None => [] end) ++
  opt_text [] (path u) [] ++ opt_text [63] (query u) [] ++ opt_text [35] (fragment u) [].
(** After an authority, a path that does not start with a slash. *)
Definition bad_path u : bool :=
  match host u, path u with Some _, Some p => negb (at_ p 0 =? 47) && negb (at_ p 0 =? 0) | _, _ => false end.
End Props.

(** ** What is put together. *)
Section Join.
Context `{ByteQueueLaws Q}.
Implicit Types tmp : Q.

Lemma add_opt_ok tmp before f : bq_ok tmp -> zlen (bq_bytes tmp) + zlen (opt_text before f []) <= INT_MAX ->
  exists tmp', add_opt tmp before f = Some tmp' /\ bq_ok tmp' /\ bq_bytes tmp' = bq_bytes tmp ++ opt_text before f [].
Proof.
  intros Hok Hlen. destruct f as [f|]; cbn [opt_text] in *; [|exists tmp; by rewrite app_nil_r]. rewrite app_nil_r, zlen_app in *.
  pose proof (zlen_nonneg f). unfold add_opt, add_str. destruct before as [|b before].
  - cbn [mbind option_bind app]. apply ignore_add; [done|]. change (zlen []) with 0 in Hlen. lia.
  - destruct (ignore_add tmp (b :: before)) as (tmp1 & -> & Hok1 & Hb1); [done | lia|]. cbn [mbind option_bind].
    destruct (ignore_add tmp1 f) as (tmp2 & -> & Hok2 & Hb2); [done | rewrite Hb1, zlen_app; lia|]. exists tmp2. by rewrite Hb2, Hb1, <- app_assoc.
Qed.

Lemma join_scheme_ok tmp f : bq_ok tmp -> zlen (bq_bytes tmp) + zlen (opt_text [] f [58]) <= INT_MAX ->
  exists tmp', (match f with Some f => tmp ← add_str tmp f; add_str tmp [58] | None => Some tmp end) = Some tmp' /\
    bq_ok tmp' /\ bq_bytes tmp' = bq_bytes tmp ++ opt_text [] f [58].
Proof.
  intros Hok Hlen. destruct f as [f|]; cbn [opt_text app] in *; [|exists tmp; by rewrite app_nil_r]. rewrite zlen_app in Hlen. change (zlen [58]) with 1 in Hlen.
  unfold add_str. destruct (ignore_add tmp f) as (tmp1 & -> & Hok1 & Hb1); [done | lia|]. cbn [mbind option_bind].
  destruct (ignore_add tmp1 [58]) as (tmp2 & -> & Hok2 & Hb2); [done | rewrite Hb1, zlen_app; change (zlen [58]) with 1; lia|].
  exists tmp2. by rewrite Hb2, Hb1, <- app_assoc.
Qed.

Lemma join_authority_ok tmp us h p : bq_ok tmp -> zlen (bq_bytes tmp) + zlen ([47; 47] ++ user_text us ++ h ++ port_text p) <= INT_MAX ->
  exists tmp', (tmp ← add_str tmp [47; 47];
    tmp ← (match us with Some u => ignore (bq_add_printf tmp (u ++ [64])) | None => Some tmp end);
    tmp ← add_str tmp h;
    if 0 <=? p then ignore (bq_add_printf tmp (58 :: printf_d p)) else Some tmp) = Some tmp' /\
    bq_ok tmp' /\ bq_bytes tmp' = bq_bytes tmp ++ [47; 47] ++ user_text us ++ h ++ port_text p.
Proof.
  intros Hok Hlen. rewrite !zlen_app in Hlen. change (zlen [47; 47]) with 2 in Hlen.
  pose proof (zlen_nonneg h). pose proof (zlen_nonneg (user_text us)). pose proof (zlen_nonneg (port_text p)). unfold add_str.
  destruct (ignore_add tmp [47; 47]) as (tmp1 & -> & Hok1 & Hb1); [done | change (zlen [47; 47]) with 2; lia|]. cbn [mbind option_bind].
  assert (exists tmp2, (match us with Some u => ignore (bq_add_printf tmp1 (u ++ [64])) | None => Some tmp1 end) = Some tmp2 /\ bq_ok tmp2 /\ bq_bytes tmp2 = bq_bytes tmp1 ++ user_text us)
    as (tmp2 & -> & Hok2 & Hb2).
  { destruct us as [us|]; [|exists tmp1; by rewrite app_nil_r]. apply ignore_add_printf; [done|]. rewrite Hb1, zlen_app. change (zlen [47; 47]) with 2. unfold user_text in *. lia. }
  cbn [mbind option_bind]. destruct (ignore_add tmp2 h) as (tmp3 & -> & Hok3 & Hb3); [done | rewrite Hb2, Hb1, !zlen_app; change (zlen [47; 47]) with 2; lia|].
  cbn [mbind option_bind].
  assert (exists tmp4, (if 0 <=? p then ignore (bq_add_printf tmp3 (58 :: printf_d p)) else Some tmp3) = Some tmp4 /\ bq_ok tmp4 /\ bq_bytes tmp4 = bq_bytes tmp3 ++ port_text p)
    as (tmp4 & -> & Hok4 & Hb4).
  { unfold port_text in *. case_if; [|exists tmp3; by rewrite app_nil_r]. apply ignore_add_printf; [done|]. rewrite Hb3, Hb2, Hb1, !zlen_app. change (zlen [47; 47]) with 2. lia. }
  exists tmp4. rewrite Hb4, Hb3, Hb2, Hb1, <- !app_assoc. done.
Qed.

Lemma join_ok tmp u limit : bq_ok tmp -> bq_bytes tmp = [] -> zlen (uri_text u) < INT_MAX ->
  evhttp_uri_join tmp u limit =
    Some (if (limit =? 0) || bad_path u || (limit <=? zlen (uri_text u)) then None else Some (uri_text u ++ [0])).
Proof.
  intros Hok Hnil Hlen. unfold evhttp_uri_join. destruct (limit =? 0) eqn:El; [done|]. cbn [orb].
  unfold uri_text in Hlen. rewrite !zlen_app in Hlen.
  pose proof (zlen_nonneg (opt_text [] (path u) [])). pose proof (zlen_nonneg (opt_text [63] (query u) [])). pose proof (zlen_nonneg (opt_text [35] (fragment u) [])).
  pose proof (zlen_nonneg (match host u with Some _ => [47; 47] ++ authority_text u | None => [] end)).
  destruct (join_scheme_ok tmp (scheme u)) as (tmp1 & -> & Hok1 & Hb1); [done | rewrite Hnil; change (zlen []) with 0; lia|]. rewrite Hnil in Hb1. cbn [app] in Hb1.
  cbn [mbind option_bind].
  assert (exists tmp2, (match host u with
       | Some f =>
           tmp ← add_str tmp1 [47; 47];
           tmp ← (match userinfo u with Some u => ignore (bq_add_printf tmp (u ++ [64])) | None => Some tmp end);
           tmp ← add_str tmp f;
           tmp ← (if 0 <=? port u then ignore (bq_add_printf tmp (58 :: printf_d (port u))) else Some tmp);
           Some (tmp, match path u with Some p => negb (at_ p 0 =? 47) && negb (at_ p 0 =? 0) | None => false end)
       | None => Some (tmp1, false)
       end) = Some (tmp2, bad_path u) /\ bq_ok tmp2 /\
       bq_bytes tmp2 = bq_bytes tmp1 ++ (match host u with Some _ => [47; 47] ++ authority_text u | None => [] end)) as (tmp2 & -> & Hok2 & Hb2).
  { unfold authority_text, bad_path in *. destruct (host u) as [h|]; [|exists tmp1; by rewrite app_nil_r].
    destruct (join_authority_ok tmp1 (userinfo u) h (port u)) as (tmp2 & R & Hok2 & Hb2); [done | rewrite Hb1; lia|].
    exists tmp2. split; [|done]. cbn [mbind option_bind] in *.
    destruct (add_str tmp1 [47; 47]) as [t1|]; [|done]. cbn [mbind option_bind] in *.
    destruct (match userinfo u with Some _ => _ | None => _ end) as [t2|]; [|done]. cbn [mbind option_bind] in *.
    destruct (add_str t2 h) as [t3|]; [|done]. cbn [mbind option_bind] in *. by rewrite R. }
  cbn [mbind option_bind]. destruct (bad_path u) eqn:Ebad; [done|]. cbn [orb].
  destruct (add_opt_ok tmp2 [] (path u)) as (tmp3 & -> & Hok3 & Hb3); [done | rewrite Hb2, Hb1, !zlen_app; lia|]. cbn [mbind option_bind].
  destruct (add_opt_ok tmp3 [63] (query u)) as (tmp4 & -> & Hok4 & Hb4); [done | rewrite Hb3, Hb2, Hb1, !zlen_app; lia|]. cbn [mbind option_bind].
  destruct (add_opt_ok tmp4 [35] (fragment u)) as (tmp5 & -> & Hok5 & Hb5); [done | rewrite Hb4, Hb3, Hb2, Hb1, !zlen_app; lia|]. cbn [mbind option_bind].
  assert (bq_bytes tmp5 = uri_text u) as Ht by (unfold uri_text; rewrite Hb5, Hb4, Hb3, Hb2, Hb1, <- !app_assoc; done).
  unfold add_str. destruct (ignore_add tmp5 [0]) as (tmp6 & -> & Hok6 & Hb6); [done | rewrite Ht; unfold uri_text; rewrite !zlen_app; change (zlen [0]) with 1; lia|]. cbn [mbind option_bind].
  destruct (bq_length_law tmp6 Hok6) as [-> _]. rewrite Hb6, Ht, zlen_app. change (zlen [0]) with 1.
  replace (limit <? zlen (uri_text u) + 1) with (limit <=? zlen (uri_text u)) by lia. case_if; [done|].
  destruct (bq_remove_law tmp6 (zlen (uri_text u) + 1) Hok6) as (tmp7 & -> & _); [pose proof (zlen_nonneg (uri_text u)); lia|]. cbn [mbind option_bind].
  rewrite Hb6, Ht. unfold ztake. rewrite firstn_all2; [done|]. rewrite length_app. unfold zlen. cbn [length]. lia.
Qed.
End Join.
