(* ===== verification/UriParse.v ===== *)
(** * Parsing URIs: the claims *)
From Stdlib Require Import Ascii String.
From S2P Require Import Prelude Event Buffer BufferInv BufferSearch BufferLines ByteQueue CString Uri UriCodec UriParts BufferOps BufferTidy BufferQueue BufferProps.
Open Scope Z_scope.

Section Parse.
Notation uri_parse := evhttp_uri_parse_with_flags.
Implicit Types u : evhttp_uri.

(** ** The pieces of the text. *)

(** What may follow the path, or the authority when there is no path. *)
Definition tail_ok (t : list Z) : Prop := match t with [] => True | c :: _ => c = 35 \/ c = 63 end.

Lemma all_of_path_flags s part flags : all_of_path s part flags = all_of_path s part (lax_flags (has flags EVHTTP_URI_NONCONFORMANT)).
Proof. unfold all_of_path, end_of_path. by destruct (has flags _). Qed.

Lemma read_part_text mark part flags f rest : (forall s, f = Some s -> all_of_path s part flags = true) -> ends part rest ->
  (f = None -> at_ rest 0 <> mark) -> mark <> 0 -> read_part mark part flags (opt_text [mark] f [] ++ rest) = (f, rest).
Proof.
  intros Hf He Hn Hm. destruct f as [f|]; cbn [opt_text].
  - rewrite app_nil_r. cbn [app read_part]. rewrite Z.eqb_refl, end_of_path_app by auto. by rewrite take_app_length, drop_app_length.
  - cbn [app]. destruct rest as [|c rest]; [done|]. cbn. specialize (Hn eq_refl). cbn in Hn. by replace (c =? mark) with false by lia.
Qed.

Lemma no_scheme p t token rest : path_matches_noscheme p = true -> tail_ok t ->
  Forall (fun c => c <> 58 /\ c <> 63 /\ c <> 35 /\ c <> 47) token -> token ++ 58 :: rest <> p ++ t.
Proof.
  intros Hp Ht Hk. revert p Hp. induction Hk as [|c token Hc Hk IH]; intros [|x p] Hp; cbn.
  - destruct t; [done|]. cbn in Ht. intros [= <- _]. lia.
  - intros [= <- _]. done.
  - destruct t; [done|]. cbn in Ht. intros [= <- _]. lia.
  - cbn in Hp. intros [= <- Heq]. destruct (c =? 58) eqn:E1; [done|]. destruct (c =? 47) eqn:E2; [lia|]. by apply (IH p).
Qed.

Definition tail_text u : list Z := opt_text [63] (query u) [] ++ opt_text [35] (fragment u) [].
Lemma tail_text_ok u : tail_ok (tail_text u).
Proof. unfold tail_text. destruct (query u), (fragment u); cbn; auto. Qed.
Lemma uri_text_eq u : uri_text u = opt_text [] (scheme u) [58] ++ (match host u with Some _ => [47; 47] ++ authority_text u | None => [] end) ++ opt_text [] (path u) [] ++ tail_text u.
Proof. done. Qed.

Lemma part_cstring check f before behind : part_ok check f -> is_cstring before -> is_cstring behind -> is_cstring (opt_text before f behind).
Proof. intros Hf Hb Hh. destruct f as [f|]; [|constructor]. cbn. rewrite !is_cstring_app. by destruct Hf. Qed.

Lemma printf_d_cstring p : 0 <= p <= 65535 -> is_cstring (printf_d p).
Proof. intros Hp. destruct (printf_d_port p Hp) as (_ & Hd & _). eapply Forall_impl; [exact Hd|]. intros c Hc. apply Hc. Qed.

Lemma uri_text_cstring lax u : uri_parts lax u -> port u <= 65535 -> is_cstring (uri_text u).
Proof.
  intros [_ H1 H2 H3 H4 H5 H6 H7] Hp. unfold uri_text, authority_text. assert (forall c, is_char c -> is_cstring [c]) as Hc by (intros c Hc; by constructor).
  rewrite !is_cstring_app. 
  assert (is_cstring [] /\ is_cstring [58] /\ is_cstring [63] /\ is_cstring [35]) as (C0 & C1 & C2 & C3) by (split_and!; [constructor | apply Hc; unfold is_char; lia..]).
  split_and!; [by eapply part_cstring | | by eapply part_cstring..].
  destruct (host u) as [h|]; [|constructor]. cbn [app]. constructor; [unfold is_char; lia|]. constructor; [unfold is_char; lia|].
  rewrite !is_cstring_app. split_and!; [|apply H3|].
  - destruct (userinfo u) as [f|]; [|constructor]. cbn. rewrite is_cstring_app. split; [apply H2 | apply Hc; unfold is_char; lia].
  - unfold port_text. case_if; [|constructor]. constructor; [unfold is_char; lia | apply printf_d_cstring; lia].
Qed.

(** ** Parsing the text. *)
Lemma parse_scheme lax u (u0 : evhttp_uri) : uri_parts lax u -> uri_shape u ->
  match split_at 58 (uri_text u) with
  | Some (token, rest) => if scheme_ok token then ({| u0 with scheme := Some token |}, rest) else (u0, uri_text u)
  | None => (u0, uri_text u)
  end = (match scheme u with Some s => {| u0 with scheme := Some s |} | None => u0 end,
         (match host u with Some _ => [47; 47] ++ authority_text u | None => [] end) ++ opt_text [] (path u) [] ++ tail_text u).
Proof.
  intros HP HS. pose proof (uri_text_cstring _ _ HP (us_port _ HS)) as Hcs. rewrite uri_text_eq in *. destruct (scheme u) as [s|] eqn:Es; cbn [opt_text].
  - pose proof (up_scheme _ _ HP) as Hs. rewrite Es in Hs. destruct Hs as [Hs Hok]. cbn [app]. rewrite <- app_assoc. cbn [app]. rewrite split_at_app, Hok; [done|].
    intros Hin. pose proof (scheme_ok_chars s Hs Hok) as HA. rewrite Forall_forall in HA. apply HA in Hin. lia.
  - cbn [app] in *. destruct (split_at 58 _) as [[token rest]|] eqn:ESp; [|done]. destruct (scheme_ok token) eqn:Eok; [|done]. exfalso.
    apply split_at_some in ESp as [Heq _]. cbn [opt_text app] in Hcs. rewrite Heq in Hcs. apply is_cstring_app in Hcs as [Htok _].
    pose proof (scheme_ok_chars token Htok Eok) as HA. destruct HS as [(p & Hp & _ & _ & Hns) _ _]. rewrite Hp in Heq. cbn [opt_text app] in Heq. rewrite app_nil_r in Heq.
    destruct (host u) as [h|].
    + destruct token as [|c token]; [done|]. cbn in Heq. injection Heq; intros. apply Forall_cons in HA as [HA _]. cbv beta in HA. lia.
    + cbn [app] in Heq. symmetry in Heq. revert Heq. apply no_scheme; [by apply Hns | apply tail_text_ok | done].
Qed.

Lemma tail_not_hex t : tail_ok t -> EVUTIL_ISXDIGIT_ (at_ t 0) = false /\ at_ t 0 <> 47.
Proof. destruct t as [|c t]; [done|]. cbn. intros [-> | ->]; done. Qed.

Lemma authority_chars lax u : uri_parts lax u -> port u <= 65535 -> Forall (fun c => c <> 63 /\ c <> 35 /\ c <> 47) (authority_text u).
Proof.
  intros HP Hp. pose proof (up_user _ _ HP) as HU. pose proof (up_host _ _ HP) as HH. pose proof (up_port _ _ HP). unfold authority_text.
  assert (forall s, Forall plain_auth s -> Forall (fun c => c <> 63 /\ c <> 35 /\ c <> 47) s) as Himp by (intros s Hs; eapply Forall_impl; [exact Hs | unfold plain_auth; intros; lia]).
  destruct (host u) as [h|]; [|constructor]. cbn in HH. destruct HH as [Hh Hhok]. rewrite !Forall_app. split_and!.
  - destruct (userinfo u) as [f|]; [|constructor]. destruct HU as [Hf Hfok]. cbn. rewrite Forall_app. split; [apply Himp; by apply userinfo_chars | repeat constructor; lia].
  - apply Himp. by apply (host_chars).
  - unfold port_text. case_if; [|constructor]. constructor; [lia|]. destruct (printf_d_port (port u) ltac:(lia)) as (_ & Hd & _).
    eapply Forall_impl; [exact Hd|]. intros c [Hc Hc2]. split_and!; intros ->; done.
Qed.

Lemma parse_authority_part lax u (u0 : evhttp_uri) tail : uri_parts lax u -> uri_shape u -> port u0 = -1 -> userinfo u0 = None -> host u0 = None ->
  (host u <> None -> tail = [] \/ exists c t, tail = c :: t /\ (c = 63 \/ c = 35 \/ c = 47)) ->
  (host u = None -> at_ tail 0 = 47 -> at_ tail 1 <> 47) ->
  let readp := (match host u with Some _ => [47; 47] ++ authority_text u | None => [] end) ++ tail in
  (if (at_ readp 0 =? 47) && (at_ readp 1 =? 47) then
     let authority := drop 2 readp in
     let n := end_of_authority authority in
     uri ← parse_authority u0 (take n authority) (drop n authority);
     Some (uri, drop n authority, true)
   else Some (u0, readp, false)) =
  Some ({| {| {| u0 with userinfo := userinfo u |} with port := port u |} with host := host u |}, tail, match host u with Some _ => true | None => false end).
Proof.
  intros HP HS Hp0 Hu0 Hh0 Ht Hn. cbn zeta. pose proof (authority_chars _ _ HP (us_port _ HS)) as HA. pose proof (up_user _ _ HP) as HU.
  pose proof (up_port _ _ HP). pose proof (us_port _ HS). unfold authority_text in *. destruct (host u) as [h|] eqn:Eh.
  - pose proof (up_host _ _ HP) as HH. rewrite Eh in HH. destruct HH as [Hh Hhok]. change ([47; 47] ++ _) with (47 :: 47 :: (user_text (userinfo u) ++ h ++ port_text (port u))).
    cbn [app at_ nth Z.eqb Pos.eqb andb drop]. specialize (Ht ltac:(done)). rewrite drop_0, end_of_authority_app by done. rewrite take_app_length, drop_app_length.
    rewrite parse_authority_text; try done. destruct Ht as [->|(c & t & -> & [->|[->| ->]])]; done.
  - cbn [app]. destruct (us_host _ HS Eh) as [-> ->]. replace (_ && _) with false.
    + destruct u0; cbn in *; by subst.
    + symmetry. destruct (at_ tail 0 =? 47) eqn:E; [|done]. cbn. apply Z.eqb_neq, Hn; [done | lia].
Qed.

(** What is parsed from the text of a well-formed URI is the URI. *)
Lemma parse_text u : uri_parts (has (uri_flags u) EVHTTP_URI_NONCONFORMANT) u -> uri_shape u -> uri_parse true (uri_text u) (uri_flags u) = Some u.
Proof.
  intros HP HS. unfold evhttp_uri_parse_with_flags. cbn [negb]. rewrite (parse_scheme _ _ _ HP HS). set (u0 := match scheme u with Some s => _ | None => _ end).
  assert (port u0 = -1 /\ userinfo u0 = None /\ host u0 = None /\ scheme u0 = scheme u /\ uri_flags u0 = uri_flags u) as (H1 & H2 & H3 & H4 & H5) by (unfold u0; by destruct (scheme u)).
  destruct (us_path _ HS) as (p & Hp & Hph & Hpn & Hps). rewrite Hp. change (opt_text [] (Some p) []) with (p ++ []). rewrite app_nil_r. pose proof (tail_text_ok u) as Ht.
  assert (host u <> None -> p ++ tail_text u = [] \/ exists c t, p ++ tail_text u = c :: t /\ (c = 63 \/ c = 35 \/ c = 47)) as Hta.
  { intros Hh. destruct (Hph Hh) as [->|H47]; cbn [app].
    - destruct (tail_text u) as [|c t]; [by left | right]. exists c, t. cbn in Ht. split; [done | lia].
    - destruct p as [|c p]; [done|]. right. exists c, (p ++ tail_text u). split; [done | cbn in H47; lia]. }
  assert (host u = None -> at_ (p ++ tail_text u) 0 = 47 -> at_ (p ++ tail_text u) 1 <> 47) as Htn.
  { intros Hh. destruct (tail_not_hex _ Ht) as [_ Ht0]. destruct p as [|c [|d p]]; [done | cbn; done |]. by apply (Hpn Hh). }
  pose proof (parse_authority_part _ u u0 (p ++ tail_text u) HP HS H1 H2 H3 Hta Htn) as HAu. cbn zeta in HAu. cbn beta iota zeta. rewrite HAu.
  cbn [mbind option_bind]. assert (forall part f, part_ok (fun s => all_of_path s part (lax_flags (has (uri_flags u) EVHTTP_URI_NONCONFORMANT))) f -> forall s, f = Some s -> all_of_path s part (uri_flags u) = true) as Hall.
  { intros part f Hf s ->. rewrite all_of_path_flags. apply Hf. }
  rewrite end_of_path_app; [|by eapply Hall; [apply (up_path _ _ HP)|] | destruct (tail_text u); [done|]; cbn in *; lia].
  rewrite take_app_length, drop_app_length. unfold tail_text.
  rewrite read_part_text; [|apply Hall, (up_query _ _ HP) | by destruct (fragment u) | by destruct (fragment u) | done].
  rewrite <- (app_nil_r (opt_text [35] (fragment u) [])). rewrite read_part_text; [|apply Hall, (up_fragment _ _ HP) | done | done | done].
  replace (negb (match host u with Some _ => true | None => false end) && (at_ p 0 =? 47) && (at_ p 1 =? 47)) with false.
  2:{ destruct (host u); [done|]. symmetry. destruct (at_ p 0 =? 47) eqn:E; [|done]. apply Z.eqb_neq. apply Hpn; [done | lia]. }
  replace ((match host u with Some _ => true | None => false end) && negb (at_ p 0 =? 47) && negb (at_ p 0 =? 0)) with false.
  2:{ destruct (host u); [|done]. destruct Hph as [->|H47]; [done | done |]. by rewrite H47. }
  cbn [scheme]. rewrite H4. replace (match scheme u with Some _ => false | None => negb (path_matches_noscheme p) end) with false by (destruct (scheme u); [done | by rewrite Hps]).
  f_equal. destruct u; unfold u0 in *; cbn in *. destruct scheme; cbn; by subst.
Qed.

(** ** What is parsed is well-formed. *)
Lemma take_cstring n s : is_cstring s -> is_cstring (take n s) /\ is_cstring (drop n s).
Proof. intros Hs. apply is_cstring_app. by rewrite take_drop. Qed.

Lemma read_part_ok mark part flags s f rest : is_cstring s -> read_part mark part flags s = (f, rest) ->
  part_ok (fun s => all_of_path s part flags) f /\ is_cstring rest.
Proof.
  intros Hs. unfold read_part. destruct s as [|c s]; [by intros [= <- <-]|]. case_if; intros [= <- <-]; [|done].
  apply Forall_cons in Hs as [_ Hs]. destruct (take_cstring (end_of_path s part flags) s Hs). split; [|done]. split; [done|]. apply end_of_path_take.
Qed.

Lemma authority_ok (u0 : evhttp_uri) readp u1 rest got : is_cstring readp -> port u0 = -1 -> userinfo u0 = None -> host u0 = None ->
  (if (at_ readp 0 =? 47) && (at_ readp 1 =? 47) then
     let authority := drop 2 readp in
     let n := end_of_authority authority in
     uri ← parse_authority u0 (take n authority) (drop n authority);
     Some (uri, drop n authority, true)
   else Some (u0, readp, false)) = Some (u1, rest, got) ->
  exists us h p, u1 = {| {| {| u0 with userinfo := us |} with port := p |} with host := h |} /\ is_cstring rest /\
    part_ok userinfo_ok us /\ part_ok (fun h => host_ok h []) h /\ -1 <= p <= 65535 /\
    got = bool_decide (h <> None) /\ (h = None -> us = None /\ p = -1).
Proof.
  intros Hs Hp Hu Hh. case_if.
  - cbn zeta. set (authority := drop 2 readp). set (n := end_of_authority authority). intros R.
    assert (is_cstring authority) as Ha by (by apply take_cstring). destruct (take_cstring n authority Ha) as [Ht Hd].
    destruct (parse_authority u0 _ _) as [u2|] eqn:R2; [|done]. cbn [mbind option_bind] in R. injection R as <- <- <-.
    apply parse_authority_ok in R2 as (us & h & p & -> & ? & ? & ? & ?); [|done| |done..].
    + exists us, (Some h), p. split_and!; try done; lia.
    + unfold n. destruct (end_of_authority_spec authority) as (r & -> & [->|(c & r' & -> & [-> |[-> | ->]])]); done.
  - intros [= <- <- <-]. exists None, None, (-1). split_and!; try done. destruct u0; cbn in *; by subst.
Qed.

Lemma parse_ok mem s flags u : is_cstring s -> uri_parse mem s flags = Some u ->
  uri_parts (has flags EVHTTP_URI_NONCONFORMANT) u /\ uri_shape u /\ uri_flags u = flags.
Proof.
  intros Hs. unfold evhttp_uri_parse_with_flags. destruct mem; [|done]. cbn [negb]. cbv zeta.
  set (u0 := {| evhttp_uri_new with uri_flags := flags |}).
  assert (exists sc rest, match split_at 58 s with
      | Some (token, rest) => if scheme_ok token then ({| u0 with scheme := Some token |}, rest) else (u0, s)
      | None => (u0, s)
      end = ({| u0 with scheme := sc |}, rest) /\ part_ok scheme_ok sc /\ is_cstring rest) as (sc & readp & -> & Hsc & Hr).
  { assert ({| u0 with scheme := None |} = u0) as Hu0 by done.
    destruct (split_at 58 s) as [[token rest]|] eqn:ES; [|exists None, s; by rewrite Hu0].
    apply split_at_some in ES as [-> _]. pose proof Hs as Hs'. apply is_cstring_app in Hs' as [Ht Hrest]. apply Forall_cons in Hrest as [_ Hrest].
    case_if; [by exists (Some token), rest | exists None, (token ++ 58 :: rest); by rewrite Hu0]. }
  match goal with |- (?x ≫= _) = _ -> _ => destruct x as [[[u1 rest] got]|] eqn:RA; [|done] end.
  apply authority_ok in RA as (us & h & p & -> & Hrest & Hus & Hh & Hp & -> & Hno); [|done..]. cbn [mbind option_bind].
  set (n := end_of_path rest PART_PATH flags). destruct (take_cstring n rest Hrest) as [Hpath Hdrop].
  destruct (read_part 63 PART_QUERY flags (drop n rest)) as [q rest2] eqn:RQ. destruct (read_part_ok _ _ _ _ _ _ Hdrop RQ) as [Hq Hr2].
  destruct (read_part 35 PART_FRAGMENT flags rest2) as [f rest3] eqn:RF. destruct (read_part_ok _ _ _ _ _ _ Hr2 RF) as [Hf _].
  destruct rest3; [|done]. destruct (negb _ && _ && _) eqn:E1; [done|]. destruct (_ && negb _ && negb _) eqn:E2; [done|]. cbn [scheme].
  destruct (match sc with Some _ => false | None => _ end) eqn:E3; [done|]. intros [= <-].
  assert (forall part f, part_ok (fun s => all_of_path s part flags) f -> part_ok (fun s => all_of_path s part (lax_flags (has flags EVHTTP_URI_NONCONFORMANT))) f) as Hlax
    by (intros part g Hg; by eapply part_ok_path_lax).
  split_and!; [split; try done | split | done]; cbn [scheme userinfo host port path query fragment] in *.
  - lia.
  - apply Hlax. split; [done | apply end_of_path_take].
  - by apply Hlax.
  - by apply Hlax.
  - exists (take n rest). split; [done|]. split_and!.
    + intros Hne. rewrite bool_decide_true in E2 by done. cbn in E2. destruct (take n rest) as [|c l] eqn:Et; [by left | right].
      unfold is_cstring in Hpath. apply Forall_cons in Hpath as [Hc _]. cbn in E2 |- *. unfold is_char in Hc. lia.
    + intros ->. cbn in E1. intros H47 H47'. by rewrite H47, H47' in E1.
    + intros ->. by apply negb_false_iff in E3.
  - done.
  - lia.
Qed.

(** ** Reachable URIs: from a new or a parsed one by the setters, which may
    fail.  The flag says whether some flags were not conformant. *)
Definition arg_ok (f : option (list Z)) : Prop := match f with Some f => is_cstring f | None => True end.
Inductive uri_reachable : bool -> evhttp_uri -> Prop :=
| reach_new : uri_reachable false evhttp_uri_new
| reach_parse mem s flags u : is_cstring s -> uri_parse mem s flags = Some u -> uri_reachable (has flags EVHTTP_URI_NONCONFORMANT) u
| reach_flags lax u flags : uri_reachable lax u -> uri_reachable (lax || has flags EVHTTP_URI_NONCONFORMANT) (evhttp_uri_set_flags u flags)
| reach_scheme lax u mem f : uri_reachable lax u -> arg_ok f -> uri_reachable lax (snd (evhttp_uri_set_scheme mem u f))
| reach_userinfo lax u mem f : uri_reachable lax u -> arg_ok f -> uri_reachable lax (snd (evhttp_uri_set_userinfo mem u f))
| reach_host lax u mem f : uri_reachable lax u -> arg_ok f -> uri_reachable lax (snd (evhttp_uri_set_host mem u f))
| reach_port lax u p : uri_reachable lax u -> uri_reachable lax (snd (evhttp_uri_set_port u p))
| reach_path lax u mem f : uri_reachable lax u -> arg_ok f -> uri_reachable lax (snd (evhttp_uri_set_path mem u f))
| reach_query lax u mem f : uri_reachable lax u -> arg_ok f -> uri_reachable lax (snd (evhttp_uri_set_query mem u f))
| reach_fragment lax u mem f : uri_reachable lax u -> arg_ok f -> uri_reachable lax (snd (evhttp_uri_set_fragment mem u f)).

(** What a setter stores was checked. *)
Lemma uri_set_parts lax mem u check (f : option (list Z)) put : uri_parts lax u -> arg_ok f ->
  (forall f, part_ok check f -> uri_parts lax (put f)) -> uri_parts lax (snd (uri_set mem u (opt_ok check f) f put)).
Proof.
  intros HP Hf Hput. unfold uri_set. destruct (opt_ok check f) eqn:Ec; [|done]. cbn [negb]. unfold set_str.
  destruct f as [f|]; [destruct mem|]; cbn [snd]; by apply Hput.
Qed.

Lemma set_host_check s : (if at_ s 0 =? 91 then c_true (bracket_addr_ok s) else regname_ok s []) = true -> host_ok s [] = true.
Proof.
  unfold Uri.host_ok. rewrite app_nil_r. destruct (at_ s 0 =? 91) eqn:E; [|done]. intros Hb.
  destruct (bracket_shape s Hb) as (inner & Hs & _ & _). rewrite Hb. case_if; [done|]. exfalso. subst s.
  rewrite zlen_cons, zlen_app in E0. change (zlen [93]) with 1 in E0. pose proof (zlen_nonneg inner).
  replace (at_ (91 :: inner ++ [93]) (pred (length (91 :: inner ++ [93])))) with 93 in E0; [lia|]. unfold at_. cbn [length pred].
  rewrite length_app, Nat.add_1_r. cbn [nth]. by rewrite app_nth2, Nat.sub_diag by lia.
Qed.

Lemma parts_lax_mono lax lax' u : uri_parts lax u -> (lax = true -> lax' = true) -> uri_parts lax' u.
Proof.
  intros [] Hl. assert (has (lax_flags lax) EVHTTP_URI_NONCONFORMANT = true -> lax' = true) by (destruct lax; auto; done).
  split; auto; by eapply part_ok_path_lax.
Qed.

Lemma reachable_parts lax u : uri_reachable lax u -> uri_parts lax u.
Proof.
  intros HR. induction HR as [|mem s flags u Hs R|lax u flags _ IH|lax u mem f _ IH Hf|lax u mem f _ IH Hf|lax u mem f _ IH Hf|lax u p _ IH|lax u mem f _ IH Hf|lax u mem f _ IH Hf|lax u mem f _ IH Hf].
  - by split.
  - by apply (parse_ok mem s flags).
  - apply (parts_lax_mono _ (lax || has flags EVHTTP_URI_NONCONFORMANT)) in IH; [|by intros ->]. destruct IH. split; try done. cbn. intros ->. by rewrite orb_true_r.
  - apply uri_set_parts; [done..|]. intros g Hg. destruct IH. by split.
  - apply uri_set_parts; [done..|]. intros g Hg. destruct IH. by split.
  - apply uri_set_parts; [done..|]. intros g Hg. destruct IH. split; try done. cbn [host]. destruct g as [g|]; [|done]. split; [apply Hg | apply set_host_check, Hg].
  - unfold evhttp_uri_set_port. destruct (p <? -1) eqn:E; [done|]. cbn [snd]. destruct IH. split; try done. cbn. lia.
  - apply uri_set_parts; [done..|]. intros g Hg. destruct IH. split; try done. by eapply part_ok_path_lax.
  - apply uri_set_parts; [done..|]. intros g Hg. destruct IH. split; try done. by eapply part_ok_path_lax.
  - apply uri_set_parts; [done..|]. intros g Hg. destruct IH. split; try done. by eapply part_ok_path_lax.
Qed.

(** ** The claims. *)

(** C40: whatever the setters did, each part of a URI that was created or
    parsed passes the check for it. *)
Theorem uri_reachable_parts lax u : uri_reachable lax u -> uri_parts lax u.
Proof. apply reachable_parts. Qed.

(** The URIs that are the result of parsing some string are just those whose
    parts are valid and fit together: with no host there is no user and no
    port, the port is at most 65535, a path after a host starts with a slash, a
    path without one does not start with two, and without a scheme its first
    segment has no colon. *)
Theorem evhttp_uri_parse_image flags u :
  (exists s, is_cstring s /\ uri_parse true s flags = Some u) <->
  uri_parts (has flags EVHTTP_URI_NONCONFORMANT) u /\ uri_shape u /\ uri_flags u = flags.
Proof.
  split; [intros (s & Hs & R); by apply (parse_ok true s)|]. intros (HP & HS & <-). exists (uri_text u).
  split; [by eapply uri_text_cstring, (us_port _ HS) | by apply parse_text].
Qed.

(** C16: joining a URI writes its text, if it fits and a path after a host
    starts with a slash, and for a URI that was parsed, or is as if it had
    been, parsing the text gives the URI again. *)
Theorem evhttp_uri_join_parse `{ByteQueueLaws Q} (tmp : Q) u limit s flags :
  bq_ok tmp -> bq_bytes tmp = [] -> zlen (uri_text u) < INT_MAX ->
  evhttp_uri_join tmp u limit = Some (if (limit =? 0) || bad_path u || (limit <=? zlen (uri_text u)) then None else Some (uri_text u ++ [0])) /\
  (is_cstring s -> uri_parse true s flags = Some u \/ uri_reachable (has flags EVHTTP_URI_NONCONFORMANT) u /\ uri_shape u /\ uri_flags u = flags ->
   bad_path u = false /\ is_cstring (uri_text u) /\ uri_parse true (uri_text u) flags = Some u).
Proof.
  intros Hok Hnil Hlen. split; [by apply join_ok|]. intros Hs Hu.
  assert (uri_parts (has flags EVHTTP_URI_NONCONFORMANT) u /\ uri_shape u /\ uri_flags u = flags) as (HP & HS & <-).
  { destruct Hu as [R|(HR & HS & Hf)]; [by apply (parse_ok true s) | split; [by apply reachable_parts | done]]. }
  split_and!; [|by eapply uri_text_cstring, (us_port _ HS) | by apply parse_text].
  destruct (us_path _ HS) as (p & Hp & Hph & _). unfold bad_path. rewrite Hp. destruct (host u); [|done].
  by destruct (Hph ltac:(done)) as [-> | ->].
Qed.
End Parse.

(** * URIs: the properties at concrete inputs, and where the code and its
    documentation differ *)
#[local] Existing Instance evbuffer_queue.
#[local] Instance demo_queue : ByteQueue evbuffer := evbuffer_queue no_fail.
Lemma no_fail_all n : no_fail n = true.
Proof. done. Qed.
#[local] Instance demo_laws : ByteQueueLaws evbuffer := evbuffer_queue_laws no_fail no_fail_all.
Lemma new_open : open_buffer evbuffer_new.
Proof. split; try done; first [by apply evbuffer_wfb_ok | by apply neatb_ok]. Qed.

(** A system that knows the loopback address. *)
Notation parse s := (evhttp_uri_parse_with_flags true (str s) 0).

Lemma str_cstring s : forallb (fun c => (0 <? c) && (c <? 256)) (str s) = true -> is_cstring (str s).
Proof.
  intros Hs. unfold is_cstring. rewrite Forall_forall. rewrite forallb_forall in Hs. intros c Hc. apply list_elem_of_In, Hs in Hc. unfold is_char. lia.
Qed.

(** ** Witnesses. *)
Lemma evhttp_uriencode_roundtrip_witness :
  exists enc, evhttp_uriencode evbuffer_new true (str "a b+%") (zlen (str "a b+%")) true = Some (Some (enc ++ [0])) /\
    Forall (fun c => encoded_char c = true) enc /\ evhttp_uridecode true enc true = Some (str "a b+%", zlen (str "a b+%")) /\
    forall rest, 0 ∉ str "a b+%" -> exists enc', evhttp_encode_uri evbuffer_new true (str "a b+%" ++ 0 :: rest) = Some (Some (enc' ++ [0])) /\
      evhttp_decode_uri true enc' = Some (str "a b+%").
Proof.
  apply (evhttp_uriencode_roundtrip evbuffer_new (str "a b+%") true true).
  - exact new_open.
  - reflexivity.
  - repeat constructor; discriminate.
  - reflexivity.
  - reflexivity.
Defined.

Lemma evhttp_parse_query_roundtrip_witness :
  evhttp_parse_query_str true (query_text true [(str "q", str "a&b = c"); (str "empty", [])]) = (0, [(str "q", str "a&b = c"); (str "empty", [])]) /\
  evhttp_parse_query_str true (str "a=1&&b=2") =
    match mapM query_argument (arguments (str "a=1&&b=2")) with Some h => (0, h) | None => (-1, []) end.
Proof.
  apply (evhttp_parse_query_roundtrip true [(str "q", str "a&b = c"); (str "empty", [])]).
  assert (key_ok (str "q") /\ key_ok (str "empty")) as [H1 H2].
  { split; (split; [discriminate | split; [by apply str_cstring | split; by apply (bool_decide_unpack _)]]). }
  constructor; [split; [exact H1 | by apply str_cstring]|]. constructor; [split; [exact H2 | constructor] | constructor].
Defined.

Definition demo_uri : evhttp_uri := Uri 0 (Some (str "http")) (Some (str "user")) (Some (str "[::1]")) 8080 (Some (str "/a%20b")) (Some (str "q=1?")) (Some []).
Lemma demo_uri_parsed : parse "http://user@[::1]:08080/a%20b?q=1?#" = Some demo_uri.
Proof. reflexivity. Qed.

Lemma demo_uri_reachable : uri_reachable false (snd (evhttp_uri_set_port (snd (evhttp_uri_set_host true evhttp_uri_new (Some (str "h")))) 70000)).
Proof. apply reach_port, reach_host; [apply reach_new | by apply str_cstring]. Qed.
Lemma uri_reachable_parts_witness :
  uri_parts false (snd (evhttp_uri_set_port (snd (evhttp_uri_set_host true evhttp_uri_new (Some (str "h")))) 70000)).
Proof. apply uri_reachable_parts. exact demo_uri_reachable. Defined.

Lemma evhttp_uri_parse_image_witness :
  (exists s, is_cstring s /\ evhttp_uri_parse_with_flags true s 0 = Some demo_uri) <->
  uri_parts (has 0 EVHTTP_URI_NONCONFORMANT) demo_uri /\ uri_shape demo_uri /\ uri_flags demo_uri = 0.
Proof. apply evhttp_uri_parse_image. Defined.

Lemma evhttp_uri_join_parse_witness :
  evhttp_uri_join evbuffer_new demo_uri 100 =
    Some (if (100 =? 0) || bad_path demo_uri || (100 <=? zlen (uri_text demo_uri)) then None else Some (uri_text demo_uri ++ [0])) /\
  (is_cstring (str "http://user@[::1]:08080/a%20b?q=1?#") ->
   parse "http://user@[::1]:08080/a%20b?q=1?#" = Some demo_uri \/ uri_reachable (has 0 EVHTTP_URI_NONCONFORMANT) demo_uri /\ uri_shape demo_uri /\ uri_flags demo_uri = 0 ->
   bad_path demo_uri = false /\ is_cstring (uri_text demo_uri) /\ evhttp_uri_parse_with_flags true (uri_text demo_uri) 0 = Some demo_uri).
Proof.
  apply (evhttp_uri_join_parse (Q := evbuffer) evbuffer_new demo_uri 100 (str "http://user@[::1]:08080/a%20b?q=1?#") 0).
  - exact new_open.
  - reflexivity.
  - reflexivity.
Defined.
Lemma demo_uri_text : uri_text demo_uri = str "http://user@[::1]:8080/a%20b?q=1?#".
Proof. reflexivity. Qed.

(** ** The code and its documentation. *)

(** The documentation says that this URI is accepted. *)
Lemma big_port_rejected : parse "http://www.example.com:99999/" = None.
Proof. reflexivity. Qed.
(** The documentation says that what is not there is null; the path is empty. *)
Lemma missing_path_is_empty : option_map path (parse "http://www.example.com") = Some (Some []).
Proof. reflexivity. Qed.
(** A port that no URI may have can be set, and joined. *)
Lemma big_port_set : exists u text,
  evhttp_uri_set_port (Uri 0 (Some (str "http")) None (Some (str "a")) (-1) (Some []) None None) 70000 = (0, u) /\
  evhttp_uri_join evbuffer_new u 100 = Some (Some (text ++ [0])) /\ text = str "http://a:70000" /\
  evhttp_uri_parse_with_flags true text 0 = None.
Proof. eexists _, _. split; [reflexivity|]. split; [vm_compute; by apply (f_equal (fun l => Some (Some l))), (eq_refl (str "http://a:70000" ++ [0]))|]. done. Qed.
(** A path with two slashes and no host is joined to a text with a host. *)
Lemma path_becomes_host : exists u,
  evhttp_uri_set_path true evhttp_uri_new (Some (str "//evil/x")) = (0, u) /\ host u = None /\
  evhttp_uri_join evbuffer_new u 100 = Some (Some (str "//evil/x" ++ [0])) /\
  option_map host (parse "//evil/x") = Some (Some (str "evil")).
Proof. eexists. split_and!; reflexivity. Qed.
(** A host with a blank is accepted, as the parser of addresses skips it. *)
Lemma blank_in_host : exists u, evhttp_uri_parse_with_flags true (str "http://[::1. 2.3.4]/") 0 = Some u /\ host u = Some (str "[::1. 2.3.4]").
Proof. eexists. split; [vm_compute; reflexivity | reflexivity]. Qed.
