(* ===== verification/HttpMsg.v ===== *)
(** * HTTP messages: fields, lines and hosts (http.c)

    Header fields, request and status lines, and virtual hosts.  [mm] says
    whether an allocation of so many bytes succeeds. *)
From Stdlib Require Import Ascii String.
From S2P Require Import Prelude Event Buffer BufferSearch ByteQueue CString Uri.
Open Scope Z_scope.

(** What follows a prefix. *)
Fixpoint strip_prefix (p s : list Z) : option (list Z) :=
  match p, s with
  | [], _ => Some s
  | a :: p, b :: s => if a =? b then strip_prefix p s else None
  | _, _ => None
  end.

(** ** Data. *)
Definition headers := list (list Z * list Z).
Inductive evhttp_request_kind := EVHTTP_REQUEST | EVHTTP_RESPONSE.
Inductive message_read_status := ALL_DATA_READ | MORE_DATA_EXPECTED | DATA_CORRUPTED | REQUEST_CANCELED | DATA_TOO_LONG.
Definition EVHTTP_REQ_GET : Z := 1.
Definition EVHTTP_REQ_POST : Z := 2.
Definition EVHTTP_REQ_HEAD : Z := 4.
Definition EVHTTP_REQ_PUT : Z := 8.
Definition EVHTTP_REQ_DELETE : Z := 16.
Definition EVHTTP_REQ_OPTIONS : Z := 32.
Definition EVHTTP_REQ_TRACE : Z := 64.
Definition EVHTTP_REQ_CONNECT : Z := 128.
Definition EVHTTP_REQ_PATCH : Z := 256.
Definition EVHTTP_REQ_UNKNOWN_ : Z := 32768.
Definition EVHTTP_PROXY_REQUEST : Z := 0x0002.
Definition EVHTTP_REQ_DEFER_FREE : Z := 0x0008.
Definition EVHTTP_REQ_NEEDS_FREE : Z := 0x0010.
Definition HTTP_NOCONTENT : Z := 204.
Definition HTTP_NOTMODIFIED : Z := 304.

(** A server with its virtual hosts; callbacks are named by numbers. *)
Inductive evhttp := Evhttp {
  http_callbacks : list (list Z * nat);
  virtualhosts : list evhttp;
  aliases : list (list Z);
  vhost_pattern : option (list Z);
  default_content_type : option (list Z);
  allowed_methods : Z;
  gencb : option nat
}.
(** What a request needs of its connection. *)
Record evhttp_connection := Connection { max_headers_size : Z; max_body_size : Z; http_server : option evhttp }.

Record evhttp_request {Q : Type} := Request {
  evcon : option evhttp_connection;
  req_flags : Z;
  input_headers : headers;
  output_headers : headers;
  host_cache : option (list Z);
  req_kind : evhttp_request_kind;
  req_type : Z;
  headers_size : Z;
  body_size : Z;
  req_uri : option (list Z);
  uri_elems : option evhttp_uri;
  major : Z;
  minor : Z;
  response_code : Z;
  response_code_line : option (list Z);
  input_buffer : Q;
  ntoread : Z;
  chunked : bool;
  userdone : bool;
  output_buffer : Q
}.
#[global] Arguments evhttp_request : clear implicits.
#[global] Arguments Request {Q}.

(** ** Hosts. *)
Fixpoint prefix_suffix_match (pattern name : list Z) (ignorecase : bool) : bool :=
  match pattern with
  | [] => match name with [] => true | _ => false end
  | c :: pattern =>
      if c =? 42 then
        (fix star (name : list Z) : bool :=
           match name with
           | [] => false
           | _ :: name' => prefix_suffix_match pattern name ignorecase || star name'
           end) name
      else if negb (c =? at_ name 0) && (negb ignorecase || negb (EVUTIL_TOLOWER_ c =? EVUTIL_TOLOWER_ (at_ name 0))) then false
      else prefix_suffix_match pattern (tail name) ignorecase
  end.
(** The host that is found. *)
Fixpoint evhttp_find_alias (http : evhttp) (hostname : list Z) : option evhttp :=
  if existsb (fun alias => evutil_ascii_strcasecmp alias hostname =? 0) (aliases http) then Some http
  else
    (fix vhosts (l : list evhttp) : option evhttp :=
       match l with
       | [] => None
       | vhost :: l => match evhttp_find_alias vhost hostname with Some found => Some found | None => vhosts l end
       end) (virtualhosts http).
(** The loop of [evhttp_find_vhost]: down the first host that matches. *)
Fixpoint find_vhost_loop (http : evhttp) (hostname : list Z) : bool * evhttp :=
  (fix vhosts (l : list evhttp) : bool * evhttp :=
     match l with
     | [] => (false, http)
     | vhost :: l =>
         if prefix_suffix_match (default [] (vhost_pattern vhost)) hostname true
         then (true, snd (find_vhost_loop vhost hostname))
         else vhosts l
     end) (virtualhosts http).
Definition evhttp_find_vhost (http : evhttp) (hostname : list Z) : bool * evhttp :=
  match evhttp_find_alias http hostname with
  | Some found => (true, found)
  | None => find_vhost_loop http hostname
  end.

(** ** Header fields. *)
Fixpoint evhttp_find_header (hs : headers) (key : list Z) : option (list Z) :=
  match hs with
  | [] => None
  | (k, v) :: hs => if evutil_ascii_strcasecmp k key =? 0 then Some v else evhttp_find_header hs key
  end.
Definition evhttp_clear_headers (hs : headers) : headers := [].
Fixpoint evhttp_remove_header (hs : headers) (key : list Z) : Z * headers :=
  match hs with
  | [] => (-1, [])
  | (k, v) :: hs =>
      if evutil_ascii_strcasecmp k key =? 0 then (0, hs)
      else let '(r, hs) := evhttp_remove_header hs key in (r, (k, v) :: hs)
  end.
Definition is_newline (c : Z) : bool := (c =? 13) || (c =? 10).
(** The walk over [value]: [nl] says that the last character ended a line, or
    was one of several that did. *)
Fixpoint valid_value_loop (value : list Z) (nl : bool) : bool :=
  match value with
  | [] => negb nl
  | c :: value =>
      if is_newline c then valid_value_loop value true
      else if nl && negb ((c =? 32) || (c =? 9)) then false
      else valid_value_loop value false
  end.
Definition evhttp_header_is_valid_value (value : list Z) : bool := valid_value_loop value false.

Section Fields.
Context (mm : Z -> bool).
Implicit Types hs : headers.

Definition sizeof_evkeyval : Z := 32.
Definition evhttp_add_header_internal hs (key value : list Z) : Z * headers :=
  if mm sizeof_evkeyval && mm (zlen key + 1) && mm (zlen value + 1) then (0, hs ++ [(key, value)]) else (-1, hs).
Definition evhttp_add_header hs (key value : list Z) : Z * headers :=
  if existsb is_newline key then (-1, hs)
  else if negb (evhttp_header_is_valid_value value) then (-1, hs)
  else evhttp_add_header_internal hs key value.
Definition evhttp_append_to_last_header hs (line : list Z) : Z * headers :=
  match last hs with
  | None => (-1, hs)
  | Some (key, value) =>
      let line := evutil_rtrim_lws_ (drop_blanks line) in
      if mm (zlen value + zlen line + 2) then (0, removelast hs ++ [(key, value ++ [32] ++ line)]) else (-1, hs)
  end.
End Fields.
