(* ===== verification/HttpParse.v ===== *)
(** * Reading HTTP messages (http.c)

    The first line, the header fields and bodies in chunks, from a queue of
    bytes.  [mm] says whether an allocation of so many bytes succeeds,
    [uri_mem] whether those of the URI parser do. *)
From Stdlib Require Import Ascii String.
From S2P Require Import Prelude Event Buffer BufferSearch ByteQueue CString Uri HttpMsg.
Open Scope Z_scope.

(** Conversion to [char]. *)
Definition to_char (n : Z) : Z := s8 (u8 n).
Definition REQ_VERSION_BEFORE {Q} (req : evhttp_request Q) (major_v minor_v : Z) : bool :=
  (major req <? major_v) || ((major req =? major_v) && (minor req <? minor_v)).
Definition REQ_VERSION_ATLEAST {Q} (req : evhttp_request Q) (major_v minor_v : Z) : bool :=
  (major_v <? major req) || ((major req =? major_v) && (minor_v <=? minor req)).

(** ** Methods. *)
Definition method_names : list (list Z * Z) := [
  (str "GET", EVHTTP_REQ_GET); (str "POST", EVHTTP_REQ_POST); (str "HEAD", EVHTTP_REQ_HEAD); (str "PUT", EVHTTP_REQ_PUT);
  (str "DELETE", EVHTTP_REQ_DELETE); (str "OPTIONS", EVHTTP_REQ_OPTIONS); (str "TRACE", EVHTTP_REQ_TRACE);
  (str "CONNECT", EVHTTP_REQ_CONNECT); (str "PATCH", EVHTTP_REQ_PATCH)].
(** [None] is a null pointer. *)
Definition evhttp_method (type : Z) : option (list Z) :=
  if type =? EVHTTP_REQ_GET then Some (str "GET")
  else if type =? EVHTTP_REQ_POST then Some (str "POST")
  else if type =? EVHTTP_REQ_HEAD then Some (str "HEAD")
  else if type =? EVHTTP_REQ_PUT then Some (str "PUT")
  else if type =? EVHTTP_REQ_DELETE then Some (str "DELETE")
  else if type =? EVHTTP_REQ_OPTIONS then Some (str "OPTIONS")
  else if type =? EVHTTP_REQ_TRACE then Some (str "TRACE")
  else if type =? EVHTTP_REQ_CONNECT then Some (str "CONNECT")
  else if type =? EVHTTP_REQ_PATCH then Some (str "PATCH")
  else None.
Definition evhttp_method_may_have_body (type : Z) : bool :=
  (type =? EVHTTP_REQ_POST) || (type =? EVHTTP_REQ_PUT) || (type =? EVHTTP_REQ_PATCH).
(** The switch over the length and the characters of the method. *)
Definition parse_method (method : list Z) : Z :=
  let m i c := at_ method i =? chr c in
  let unknown := EVHTTP_REQ_UNKNOWN_ in
  match length method with
  | 3%nat =>
      if negb (m 2%nat "T"%char) then unknown
      else if m 0%nat "G"%char then (if m 1%nat "E"%char then EVHTTP_REQ_GET else unknown)
      else if m 0%nat "P"%char then (if m 1%nat "U"%char then EVHTTP_REQ_PUT else unknown)
      else unknown
  | 4%nat =>
      if m 0%nat "P"%char then (if m 3%nat "T"%char && m 2%nat "S"%char && m 1%nat "O"%char then EVHTTP_REQ_POST else unknown)
      else if m 0%nat "H"%char then (if m 3%nat "D"%char && m 2%nat "A"%char && m 1%nat "E"%char then EVHTTP_REQ_HEAD else unknown)
      else unknown
  | 5%nat =>
      if m 0%nat "P"%char then (if m 4%nat "H"%char && m 3%nat "C"%char && m 2%nat "T"%char && m 1%nat "A"%char then EVHTTP_REQ_PATCH else unknown)
      else if m 0%nat "T"%char then (if m 4%nat "E"%char && m 3%nat "C"%char && m 2%nat "A"%char && m 1%nat "R"%char then EVHTTP_REQ_TRACE else unknown)
      else unknown
  | 6%nat =>
      if negb (m 0%nat "D"%char) then unknown
      else if m 5%nat "E"%char && m 4%nat "T"%char && m 3%nat "E"%char && m 2%nat "L"%char && m 1%nat "E"%char then EVHTTP_REQ_DELETE else unknown
  | 7%nat =>
      if m 0%nat "O"%char then
        (if m 6%nat "S"%char && m 5%nat "N"%char && m 4%nat "O"%char && m 3%nat "I"%char && m 2%nat "T"%char && m 1%nat "P"%char then EVHTTP_REQ_OPTIONS else unknown)
      else if m 0%nat "C"%char then
        (if m 6%nat "T"%char && m 5%nat "C"%char && m 4%nat "E"%char && m 3%nat "N"%char && m 2%nat "N"%char && m 1%nat "O"%char then EVHTTP_REQ_CONNECT else unknown)
      else unknown
  | _ => unknown
  end.

Section Parse.
Context (mm : Z -> bool) (uri_mem : bool) `{ByteQueue Q}.
Implicit Types (req : evhttp_request Q) (buffer : Q).

(** ** First lines.  They are C strings. *)
Definition evhttp_valid_response_code (code : Z) : bool := negb (code =? 0).
Definition evhttp_parse_http_version (version : list Z) req : Z * evhttp_request Q :=
  match (s ← strip_prefix (str "HTTP/") version;
         '(mj, s) ← scan_d s;
         s ← strip_prefix [46] s;
         scan_d s ≫= fun '(mi, s) => Some (mj, mi, s)) with
  | Some (mj, mi, []) => if 1 <? mj then (-1, req) else (0, {| req with major := to_char mj; minor := to_char mi |})
  | _ => (-1, req)
  end.
Definition evhttp_parse_response_line req (line : list Z) : Z * evhttp_request Q :=
  let '(protocol, line) := strsep line 32 in
  match line with
  | None => (-1, req)
  | Some line =>
      let '(number, line) := strsep line 32 in
      let readable := default [] line in
      let '(r, req) := evhttp_parse_http_version protocol req in
      if r <? 0 then (-1, req)
      else
        let req := {| req with response_code := atoi number |} in
        if negb (evhttp_valid_response_code (response_code req)) then (-1, req)
        else if mm (zlen readable + 1) then (0, {| req with response_code_line := Some readable |})
        else (-1, {| req with response_code_line := None |})
  end.
(** [None] is a request without a connection, which is not checked. *)
Definition evhttp_parse_request_line req (line : list Z) : option (Z * evhttp_request Q) :=
  let '(method, line) := strsep line 32 in
  match line with
  | None => Some (-1, req)
  | Some line =>
      let '(uri, line) := strsep line 32 in
      match line with
      | None => Some (-1, req)
      | Some line =>
          let '(version, line) := strsep line 32 in
          match line with
          | Some _ => Some (-1, req)
          | None =>
              let req := {| req with req_type := parse_method method |} in
              let '(r, req) := evhttp_parse_http_version version req in
              if r <? 0 then Some (-1, req)
              else if negb (mm (zlen uri + 1)) then Some (-1, {| req with req_uri := None |})
              else
                let req := {| req with req_uri := Some uri; uri_elems := evhttp_uri_parse_with_flags uri_mem uri EVHTTP_URI_NONCONFORMANT |} in
                match uri_elems req with
                | None => Some (-1, req)
                | Some u =>
                    match scheme u, host u with
                    | Some scheme, Some hostname =>
                        if (evutil_ascii_strcasecmp scheme (str "http") =? 0) || (evutil_ascii_strcasecmp scheme (str "https") =? 0) then
                          con ← evcon req;
                          http ← http_server con;
                          Some (0, if fst (evhttp_find_vhost http hostname) then req
                                   else {| req with req_flags := Z.lor (req_flags req) EVHTTP_PROXY_REQUEST |})
                        else Some (0, req)
                    | _, _ => Some (0, req)
                    end
                end
          end
      end
  end.
(** The size of the line, or of the buffer, against the limit of the connection. *)
Definition over_limit req (size : Z) : bool := match evcon req with Some con => max_headers_size con <? size | None => false end.
Definition evhttp_parse_firstline_ req buffer : option (message_read_status * evhttp_request Q * Q) :=
  '(line, buffer) ← bq_readln buffer EVBUFFER_EOL_CRLF;
  match line with
  | None => Some (if over_limit req (bq_length buffer) then DATA_TOO_LONG else MORE_DATA_EXPECTED, req, buffer)
  | Some line =>
      let line_length := zlen line in
      if over_limit req line_length then Some (DATA_TOO_LONG, req, buffer)
      else
        let req := {| req with headers_size := line_length |} in
        '(r, req) ← (match req_kind req with
                     | EVHTTP_REQUEST => evhttp_parse_request_line req (cstr line)
                     | EVHTTP_RESPONSE => Some (evhttp_parse_response_line req (cstr line))
                     end);
        Some (if r =? -1 then DATA_CORRUPTED else ALL_DATA_READ, req, buffer)
  end.

(** ** Header fields. *)

(** What is done with a line that is not the last: the result of the call that
    keeps it, or -1. *)
Definition parse_header_line (hs : headers) (line : list Z) : Z * headers :=
  if (at_ line 0 =? 32) || (at_ line 0 =? 9) then evhttp_append_to_last_header mm hs line
  else
    match strsep line 58 with
    | (skey, Some svalue) => evhttp_add_header mm hs skey (evutil_rtrim_lws_ (zdrop (span [32] svalue) svalue))
    | (_, None) => (-1, hs)
    end.
(** Every turn takes a line with its end: [fuel] is one more than the bytes. *)
Fixpoint parse_headers_loop (fuel : nat) req buffer : option (message_read_status * evhttp_request Q * Q) :=
  match fuel with
  | O => None
  | S fuel =>
      '(line, buffer) ← bq_readln buffer EVBUFFER_EOL_CRLF;
      match line with
      | None => Some (MORE_DATA_EXPECTED, req, buffer)
      | Some bytes =>
          let req := {| req with headers_size := u64 (headers_size req + zlen bytes) |} in
          if over_limit req (headers_size req) then Some (DATA_TOO_LONG, req, buffer)
          else
            let line := cstr bytes in
            match line with
            | [] => Some (ALL_DATA_READ, req, buffer)
            | _ =>
                let '(r, hs) := parse_header_line (input_headers req) line in
                let req := {| req with input_headers := hs |} in
                if r =? -1 then Some (DATA_CORRUPTED, req, buffer) else parse_headers_loop fuel req buffer
            end
      end
  end.
Definition evhttp_parse_headers_ req buffer : option (message_read_status * evhttp_request Q * Q) :=
  '(status, req, buffer) ← parse_headers_loop (S (Z.to_nat (bq_length buffer))) req buffer;
  match status with
  | MORE_DATA_EXPECTED => Some (if over_limit req (u64 (headers_size req + bq_length buffer)) then DATA_TOO_LONG else status, req, buffer)
  | _ => Some (status, req, buffer)
  end.

(** ** Bodies. *)
Definition evhttp_get_body_length req : Z * evhttp_request Q :=
  let content_length := evhttp_find_header (input_headers req) (str "Content-Length") in
  let connection := evhttp_find_header (input_headers req) (str "Connection") in
  match content_length, connection with
  | None, None => (0, {| req with ntoread := -1 |})
  | None, Some c =>
      if negb (evutil_ascii_strcasecmp c (str "Close") =? 0) then (-1, req) else (0, {| req with ntoread := -1 |})
  | Some s, _ =>
      let '(n, endp) := evutil_strtoll s 10 in
      if (at_ s 0 =? 0) || negb (at_ endp 0 =? 0) || (n <? 0) then (-1, req) else (0, {| req with ntoread := n |})
  end.

(** [chunk_cb] is the callback for a chunk, which may read and change the
    request, or a null pointer. *)
Context (chunk_cb : option (evhttp_request Q -> evhttp_request Q)).
(** What a completed chunk of [ntoread] bytes is done with; whether the request
    was freed. *)
Definition chunk_done req buf : option (bool * evhttp_request Q * Q) :=
  '(_, buf, input) ← bq_remove_buffer buf (input_buffer req) (ntoread req);
  let req := {| req with input_buffer := input; ntoread := -1 |} in
  match chunk_cb with
  | None => Some (false, req, buf)
  | Some cb =>
      let req := cb {| req with req_flags := Z.lor (req_flags req) EVHTTP_REQ_DEFER_FREE |} in
      '(_, input) ← bq_drain (input_buffer req) (bq_length (input_buffer req));
      let req := {| req with input_buffer := input; req_flags := Z.land (req_flags req) (Z.lnot EVHTTP_REQ_DEFER_FREE) |} in
      Some (c_true (Z.land (req_flags req) EVHTTP_REQ_NEEDS_FREE), req, buf)
  end.
(** The chunk size that a line gives, or [None] for an error. *)
Definition chunk_size (p : list Z) : option Z :=
  let '(n, endp) := evutil_strtoll p 16 in
  if (at_ p 0 =? 0) || (negb (at_ endp 0 =? 0) && negb (at_ endp 0 =? 32)) || (n <? 0) then None else Some n.
(** Every turn takes a line or a chunk, and only the first chunk may be empty:
    [fuel] is two more than the bytes. *)
Fixpoint handle_chunked_loop (fuel : nat) req buf : option (message_read_status * evhttp_request Q * Q) :=
  match fuel with
  | O => None
  | S fuel =>
      let buflen := bq_length buf in
      if buflen =? 0 then Some (MORE_DATA_EXPECTED, req, buf)
      else if EV_SSIZE_MAX <? buflen then Some (DATA_CORRUPTED, req, buf)
      else if ntoread req <? 0 then
        '(p, buf) ← bq_readln buf EVBUFFER_EOL_CRLF;
        match p with
        | None => Some (MORE_DATA_EXPECTED, req, buf)
        | Some bytes =>
            let p := cstr bytes in
            if zlen p =? 0 then handle_chunked_loop fuel req buf
            else
              match chunk_size p with
              | None => Some (DATA_CORRUPTED, req, buf)
              | Some n =>
                  if EV_SIZE_MAX - body_size req <? n then Some (DATA_CORRUPTED, req, buf)
                  else
                    con ← evcon req;
                    if max_body_size con <? u64 (body_size req + n) then Some (DATA_TOO_LONG, req, buf)
                    else
                      let req := {| req with body_size := u64 (body_size req + n); ntoread := n |} in
                      if n =? 0 then Some (ALL_DATA_READ, req, buf) else handle_chunked_loop fuel req buf
              end
        end
      else if EV_SSIZE_MAX <? ntoread req then Some (DATA_CORRUPTED, req, buf)
      else if (0 <? ntoread req) && (buflen <? ntoread req) then Some (MORE_DATA_EXPECTED, req, buf)
      else
        '(freed, req, buf) ← chunk_done req buf;
        if (freed : bool) then Some (REQUEST_CANCELED, req, buf) else handle_chunked_loop fuel req buf
  end.
Definition evhttp_handle_chunked_read req buf := handle_chunked_loop (S (S (Z.to_nat (bq_length buf)))) req buf.
End Parse.
