(* ===== verification/HttpSend.v ===== *)
(** * Writing HTTP messages (http.c)

    What is put into the output of a connection, and which page answers a
    request.  [mm] says whether an allocation of so many bytes succeeds; the
    time of day [now] is what gmtime_r gives. *)
From Stdlib Require Import Ascii String.
From S2P Require Import Prelude Event Buffer BufferSearch ByteQueue CString Uri HttpMsg HttpParse.
Open Scope Z_scope.

(** ** Text. *)
Definition printf_i (n : Z) : list Z := if n <? 0 then 45 :: printf_d (- n) else printf_d n.
Definition printf_02d (n : Z) : list Z := if (0 <=? n) && (n <? 10) then 48 :: printf_d n else printf_i n.
Definition printf_4d (n : Z) : list Z := let s := printf_i n in replicate (4 - length s) 32 ++ s.
Record tm := Tm { tm_sec : Z; tm_min : Z; tm_hour : Z; tm_mday : Z; tm_mon : Z; tm_year : Z; tm_wday : Z }.
Definition DAYS : list (list Z) := [str "Sun"; str "Mon"; str "Tue"; str "Wed"; str "Thu"; str "Fri"; str "Sat"].
Definition MONTHS : list (list Z) :=
  [str "Jan"; str "Feb"; str "Mar"; str "Apr"; str "May"; str "Jun"; str "Jul"; str "Aug"; str "Sep"; str "Oct"; str "Nov"; str "Dec"].
Definition table (l : list (list Z)) (i : Z) : option (list Z) := if 0 <=? i then l !! Z.to_nat i else None.
(** What fits into the array, and the length of all of it. *)
Definition evutil_date_rfc1123 (datelen : Z) (t : tm) : option (list Z * Z) :=
  day ← table DAYS (tm_wday t);
  month ← table MONTHS (tm_mon t);
  let s := day ++ str ", " ++ printf_02d (tm_mday t) ++ [32] ++ month ++ [32] ++ printf_4d (1900 + tm_year t) ++ [32] ++
           printf_02d (tm_hour t) ++ [58] ++ printf_02d (tm_min t) ++ [58] ++ printf_02d (tm_sec t) ++ str " GMT" in
  Some (ztake (datelen - 1) s, zlen s).

(** ** Status phrases. *)
Definition informational_phrases := map str ["Continue"; "Switching Protocols"]%string.
Definition success_phrases := map str ["OK"; "Created"; "Accepted"; "Non-Authoritative Information"; "No Content"; "Reset Content"; "Partial Content"]%string.
Definition redirection_phrases := map str ["Multiple Choices"; "Moved Permanently"; "Found"; "See Other"; "Not Modified"; "Use Proxy"; "Temporary Redirect"]%string.
Definition client_error_phrases := map str ["Bad Request"; "Unauthorized"; "Payment Required"; "Forbidden"; "Not Found"; "Method Not Allowed";
  "Not Acceptable"; "Proxy Authentication Required"; "Request Time-out"; "Conflict"; "Gone"; "Length Required"; "Precondition Failed";
  "Request Entity Too Large"; "Request-URI Too Large"; "Unsupported Media Type"; "Requested range not satisfiable"; "Expectation Failed"]%string.
Definition server_error_phrases := map str ["Internal Server Error"; "Not Implemented"; "Bad Gateway"; "Service Unavailable"; "Gateway Time-out";
  "HTTP Version not supported"]%string.
Definition response_classes : list (list Z * list (list Z)) := [
  (str "Informational", informational_phrases); (str "Success", success_phrases); (str "Redirection", redirection_phrases);
  (str "Client Error", client_error_phrases); (str "Server Error", server_error_phrases)].
(** [None]: the array is read in front of its start, for a negative [code]
    whose class is 0; the quotient and remainder of C are those of [Z.quot]. *)
Definition evhttp_response_phrase_internal (code : Z) : option (list Z) :=
  let klass := Z.quot code 100 - 1 in
  let subcode := Z.rem code 100 in
  if (klass <? 0) || (zlen response_classes <=? klass) then Some (str "Unknown Status Class")
  else
    '(name, responses) ← response_classes !! Z.to_nat klass;
    if zlen responses <=? subcode then Some name else table responses subcode.

(** What is asked of the connection after its output was filled: to write, with
    [evhttp_send_done] as callback or with none; to call [evhttp_send_done], now or
    when all was written; to free the request; or nothing. *)
Inductive send_effect := WriteBuffer (done : bool) | SendDone | SendDoneLater | FreeRequest | NoEffect.

Section Send.
Context (mm : Z -> bool) (now : tm) `{ByteQueue Q}.
Implicit Types (req : evhttp_request Q) (con : evhttp_connection) (output databuf : Q).

Definition evhttp_response_needs_body req : bool :=
  negb (response_code req =? HTTP_NOCONTENT) && negb (response_code req =? HTTP_NOTMODIFIED) &&
  ((response_code req <? 100) || (200 <=? response_code req)) && negb (req_type req =? EVHTTP_REQ_HEAD).
Definition evhttp_is_connection_close (flags : Z) (hs : headers) : bool :=
  if c_true (Z.land flags EVHTTP_PROXY_REQUEST) then
    match evhttp_find_header hs (str "Proxy-Connection") with
    | None => true
    | Some connection => negb (evutil_ascii_strcasecmp connection (str "keep-alive") =? 0)
    end
  else
    match evhttp_find_header hs (str "Connection") with
    | None => false
    | Some connection => evutil_ascii_strcasecmp connection (str "close") =? 0
    end.
Definition evhttp_is_request_connection_close req : bool :=
  evhttp_is_connection_close (req_flags req) (input_headers req) || evhttp_is_connection_close (req_flags req) (output_headers req).
Definition evhttp_is_connection_keepalive (hs : headers) : bool :=
  match evhttp_find_header hs (str "Connection") with
  | None => false
  | Some connection => evutil_ascii_strncasecmp connection (str "keep-alive") 10 =? 0
  end.

(** A call of [evhttp_add_header] whose result is ignored. *)
Definition add_header (hs : headers) (key value : list Z) : headers := snd (evhttp_add_header mm hs key value).
Definition evhttp_maybe_add_date_header (hs : headers) : option headers :=
  match evhttp_find_header hs (str "Date") with
  | Some _ => Some hs
  | None =>
      '(date, n) ← evutil_date_rfc1123 50 now;
      Some (if 0 <? u64 (50 - n) then add_header hs (str "Date") date else hs)
  end.
Definition evhttp_maybe_add_content_length_header (hs : headers) (content_length : Z) : headers :=
  match evhttp_find_header hs (str "Transfer-Encoding"), evhttp_find_header hs (str "Content-Length") with
  | None, None => add_header hs (str "Content-Length") (printf_d content_length)
  | _, _ => hs
  end.

(** The headers that are left, and the output. *)
Definition evhttp_make_header_request req output : option (evhttp_request Q * Q) :=
  let hs := snd (evhttp_remove_header (output_headers req) (str "Proxy-Connection")) in
  let method := default (str "NULL") (evhttp_method (req_type req)) in
  uri ← req_uri req;
  output ← ignore (bq_add_printf output
    (method ++ [32] ++ uri ++ str " HTTP/" ++ printf_i (major req) ++ [46] ++ printf_i (minor req) ++ [13; 10]));
  let hs :=
    match evhttp_find_header hs (str "Content-Length") with
    | None => if (req_type req =? EVHTTP_REQ_POST) || (req_type req =? EVHTTP_REQ_PUT)
              then add_header hs (str "Content-Length") (printf_d (bq_length (output_buffer req))) else hs
    | Some _ => hs
    end in
  Some ({| req with output_headers := hs |}, output).
Definition evhttp_make_header_response con req output : option (evhttp_request Q * Q) :=
  let is_keepalive := evhttp_is_connection_keepalive (input_headers req) in
  line ← response_code_line req;
  output ← ignore (bq_add_printf output
    (str "HTTP/" ++ printf_i (major req) ++ [46] ++ printf_i (minor req) ++ [32] ++ printf_i (response_code req) ++ [32] ++ line ++ [13; 10]));
  hs ← (if major req =? 1 then
          hs ← (if 1 <=? minor req then evhttp_maybe_add_date_header (output_headers req) else Some (output_headers req));
          let hs := if (minor req =? 0) && is_keepalive then add_header hs (str "Connection") (str "keep-alive") else hs in
          Some (if ((1 <=? minor req) || is_keepalive) && evhttp_response_needs_body req
                then evhttp_maybe_add_content_length_header hs (bq_length (output_buffer req)) else hs)
        else Some (output_headers req));
  hs ← (if evhttp_response_needs_body req then
          match evhttp_find_header hs (str "Content-Type") with
          | Some _ => Some hs
          | None => http ← http_server con;
                    Some (match default_content_type http with Some t => add_header hs (str "Content-Type") t | None => hs end)
          end
        else Some hs);
  let hs :=
    if evhttp_is_connection_close (req_flags req) (input_headers req) then
      let hs := snd (evhttp_remove_header hs (str "Connection")) in
      let hs := if negb (c_true (Z.land (req_flags req) EVHTTP_PROXY_REQUEST)) then add_header hs (str "Connection") (str "close") else hs in
      snd (evhttp_remove_header hs (str "Proxy-Connection"))
    else hs in
  Some ({| req with output_headers := hs |}, output).

Inductive expect := NO | CONTINUE | OTHER.
Definition evhttp_have_expect req (input : bool) : expect :=
  let h := if input then input_headers req else output_headers req in
  match req_kind req with
  | EVHTTP_RESPONSE => NO
  | EVHTTP_REQUEST =>
      if negb (REQ_VERSION_ATLEAST req 1 1) then NO
      else match evhttp_find_header h (str "Expect") with
           | None => NO
           | Some e => if evutil_ascii_strcasecmp e (str "100-continue") =? 0 then CONTINUE else OTHER
           end
  end.

Fixpoint put_headers output (hs : headers) : option Q :=
  match hs with
  | [] => Some output
  | (key, value) :: hs => output ← ignore (bq_add_printf output (key ++ str ": " ++ value ++ [13; 10])); put_headers output hs
  end.
Definition evhttp_make_header con req output : option (evhttp_request Q * Q) :=
  '(req, output) ← (match req_kind req with
                    | EVHTTP_REQUEST => evhttp_make_header_request req output
                    | EVHTTP_RESPONSE => evhttp_make_header_response con req output
                    end);
  output ← put_headers output (output_headers req);
  output ← ignore (bq_add output [13; 10]);
  match evhttp_have_expect req false with
  | CONTINUE => Some (req, output)
  | _ =>
      if c_true (bq_length (output_buffer req)) then
        '(_, output, body) ← bq_add_buffer output (output_buffer req);
        Some ({| req with output_buffer := body |}, output)
      else Some (req, output)
  end.

(** ** Replies. *)
Definition evhttp_response_code_ req (code : Z) (reason : option (list Z)) : option (evhttp_request Q) :=
  let req := {| req with req_kind := EVHTTP_RESPONSE; response_code := code |} in
  reason ← (match reason with Some reason => Some reason | None => evhttp_response_phrase_internal code end);
  Some {| req with response_code_line := if mm (zlen reason + 1) then Some reason else None |}.
(** [databuf] may be a null pointer; the results are the request, the output
    and [databuf]. *)
Definition evhttp_send req output (databuf : option Q) : option (evhttp_request Q * Q * option Q * send_effect) :=
  match evcon req with
  | None => Some (req, output, databuf, FreeRequest)
  | Some con =>
      let req := {| req with userdone := true |} in
      '(req, databuf) ← (match databuf with
                         | Some d => '(_, body, d) ← bq_add_buffer (output_buffer req) d; Some ({| req with output_buffer := body |}, Some d)
                         | None => Some (req, None)
                         end);
      '(req, output) ← evhttp_make_header con req output;
      Some (req, output, databuf, WriteBuffer true)
  end.
Definition evhttp_send_reply req output (code : Z) (reason : option (list Z)) (databuf : option Q) :=
  req ← evhttp_response_code_ req code reason; evhttp_send req output databuf.
Definition evhttp_send_page_ req output databuf : option (evhttp_request Q * Q * option Q * send_effect) :=
  let req := if (major req =? 0) || (minor req =? 0) then {| req with major := 1; minor := 1 |} else req in
  req ← (match req_kind req with EVHTTP_RESPONSE => Some req | EVHTTP_REQUEST => evhttp_response_code_ req 200 (Some (str "OK")) end);
  let hs := evhttp_clear_headers (output_headers req) in
  let hs := add_header hs (str "Content-Type") (str "text/html") in
  let hs := add_header hs (str "Connection") (str "close") in
  evhttp_send {| req with output_headers := hs |} output (Some databuf).
Definition error_page (error : Z) (reason : list Z) : list Z :=
  str "<HTML><HEAD>" ++ [10] ++ str "<TITLE>" ++ printf_i error ++ [32] ++ reason ++ str "</TITLE>" ++ [10] ++
  str "</HEAD><BODY>" ++ [10] ++ str "<H1>" ++ reason ++ str "</H1>" ++ [10] ++ str "</BODY></HTML>" ++ [10].
(** [buf] is the new buffer. *)
Definition evhttp_send_error req output (buf : Q) (error : Z) (reason : option (list Z)) : option (evhttp_request Q * Q * option Q * send_effect) :=
  reason ← (match reason with Some reason => Some reason | None => evhttp_response_phrase_internal error end);
  req ← evhttp_response_code_ req error (Some reason);
  buf ← ignore (bq_add_printf buf (error_page error reason));
  evhttp_send_page_ req output buf.
Definition evhttp_send_reply_start req output (code : Z) (reason : option (list Z)) : option (evhttp_request Q * Q * send_effect) :=
  req ← evhttp_response_code_ req code reason;
  let req :=
    match evhttp_find_header (output_headers req) (str "Content-Length") with
    | None => if REQ_VERSION_ATLEAST req 1 1 && evhttp_response_needs_body req
              then {| req with output_headers := add_header (output_headers req) (str "Transfer-Encoding") (str "chunked"); chunked := true |}
              else {| req with chunked := false |}
    | Some _ => {| req with chunked := false |}
    end in
  con ← evcon req;
  '(req, output) ← evhttp_make_header con req output;
  Some (req, output, WriteBuffer false).
(** The output and [databuf]. *)
Definition evhttp_send_reply_chunk req output databuf : option (Q * Q * send_effect) :=
  match evcon req with
  | None => Some (output, databuf, NoEffect)
  | Some _ =>
      if bq_length databuf =? 0 then Some (output, databuf, NoEffect)
      else if negb (evhttp_response_needs_body req) then Some (output, databuf, NoEffect)
      else
        output ← (if chunked req then ignore (bq_add_printf output (printf_x (u32 (bq_length databuf)) ++ [13; 10])) else Some output);
        '(_, output, databuf) ← bq_add_buffer output databuf;
        output ← (if chunked req then ignore (bq_add output [13; 10]) else Some output);
        Some (output, databuf, WriteBuffer false)
  end.
Definition evhttp_send_reply_end req output : option (evhttp_request Q * Q * send_effect) :=
  match evcon req with
  | None => Some (req, output, FreeRequest)
  | Some _ =>
      let req := {| req with userdone := true |} in
      if chunked req then
        output ← ignore (bq_add output [48; 13; 10; 13; 10]);
        Some ({| req with chunked := false |}, output, WriteBuffer true)
      else if bq_length output =? 0 then Some (req, output, SendDone)
      else Some (req, output, SendDoneLater)
  end.

(** ** Which callback answers a request. *)
Definition evhttp_request_get_host req : option (list Z) * evhttp_request Q :=
  match host_cache req with
  | Some h => (Some h, req)
  | None =>
      match uri_elems req ≫= host with
      | Some h => (Some h, req)
      | None =>
          match evhttp_find_header (input_headers req) (str "Host") with
          | None => (None, req)
          | Some h =>
              match snd (span_digits (reverse h)) with
              | 58 :: (c :: name) =>
                  let name := reverse (c :: name) in
                  if mm (zlen name + 1) then (Some name, {| req with host_cache := Some name |}) else (None, {| req with host_cache := None |})
              | _ => (Some h, req)
              end
          end
      end
  end.
(** The number of the callback; [None] outside is a URI without a path. *)
Definition evhttp_dispatch_callback (callbacks : list (list Z * nat)) req : option (option nat) :=
  p ← uri_elems req ≫= path;
  if negb (mm (zlen p + 1)) then Some None
  else
    let translated := cstr (fst (evhttp_decode_uri_internal p 0)) in
    Some (snd <$> list_find (fun cb => fst cb = translated) callbacks ≫= fun cb => Some (snd cb)).

(** The callback that is called, the reply that is sent, or the end of the
    connection for want of memory. *)
Inductive handled := Callback (cb : nat) (req : evhttp_request Q) | Sent (req : evhttp_request Q) (output : Q) (effect : send_effect) | FreeConnection (req : evhttp_request Q).
Definition sent (r : option (evhttp_request Q * Q * option Q * send_effect)) : option handled :=
  '(req, output, _, effect) ← r; Some (Sent req output effect).
Definition HTTP_NOTIMPLEMENTED : Z := 501.
Definition HTTP_NOTFOUND : Z := 404.
Definition not_found_page (escaped_html : list Z) : list Z :=
  str "<html><head><title>404 Not Found</title></head><body><h1>Not Found</h1><p>The requested URL " ++ escaped_html ++
  str " was not found on this server.</p></body></html>" ++ [10].
(** [buf] is the new buffer for a page, [html_mem] whether there is memory for
    the escaped text. *)
Definition evhttp_handle_request (http : evhttp) (html_mem : bool) req output (buf : Q) : option handled :=
  let req := {| req with userdone := false |} in
  match req_uri req with
  | None => sent (evhttp_send_error req output buf (response_code req) None)
  | Some uri =>
      if req_type req =? 0 then sent (evhttp_send_error req output buf (response_code req) None)
      else if Z.land (allowed_methods http) (req_type req) =? 0 then sent (evhttp_send_error req output buf HTTP_NOTIMPLEMENTED None)
      else
        let '(hostname, req) := evhttp_request_get_host req in
        let http := match hostname with Some h => snd (evhttp_find_vhost http h) | None => http end in
        cb ← evhttp_dispatch_callback (http_callbacks http) req;
        match cb with
        | Some cb => Some (Callback cb req)
        | None =>
            match gencb http with
            | Some cb => Some (Callback cb req)
            | None =>
                match evhttp_htmlescape html_mem uri with
                | None => Some (FreeConnection req)
                | Some escaped_html =>
                    req ← evhttp_response_code_ req HTTP_NOTFOUND (Some (str "Not Found"));
                    buf ← ignore (bq_add_printf buf (not_found_page escaped_html));
                    sent (evhttp_send_page_ req output buf)
                end
            end
        end
  end.
End Send.
