(* ===== verification/HttpStream.v ===== *)
(** * Messages that arrive in pieces

    Lines of a stream of which a queue holds the first part, and what a reader
    that is called after each piece makes of the stream. *)
From Stdlib Require Import Ascii String.
From S2P Require Import Prelude Event Buffer BufferInv BufferOps BufferSearch BufferLines BufferFind ByteQueue CString HttpMsg Uri UriCodec UriParts HttpParse.
Open Scope Z_scope.

(** ** The end of a line. *)
Lemma zlen_snoc {A} (l : list A) x : zlen (l ++ [x]) = zlen l + 1.
Proof. by rewrite zlen_app. Qed.
Lemma index_of_absent c s : c ∉ s -> index_of (fun x => x =? c) s = None.
Proof.
  induction s as [|x s IH]; [done|]. intros [Hx Hs]%not_elem_of_cons. cbn. destruct (Z.eqb_spec x c); [done|]. by rewrite IH.
Qed.
Lemma crlf_line line rest : 10 ∉ line -> eol_of EVBUFFER_EOL_CRLF (line ++ 13 :: 10 :: rest) = Some (zlen line, 2).
Proof.
  intros Hl. cbn [eol_of]. rewrite index_of_app, (index_of_absent _ _ Hl). cbn. rewrite decide_True; [do 2 f_equal; lia|].
  pose proof (zlen_nonneg line). split; [lia|]. replace (Z.to_nat (zlen line + (1 + 0) - 1)) with (length line) by (unfold zlen; lia). by apply list_lookup_middle.
Qed.

(** The first part [p] of a stream that begins with a line: either it has not
    the end of the line, or all of the line. *)
Lemma prefix_line p future line rest : 10 ∉ line -> p ++ future = line ++ 13 :: 10 :: rest ->
  (eol_of EVBUFFER_EOL_CRLF p = None /\ zlen p <= zlen line + 1 /\ future <> []) \/
  exists p', p = line ++ 13 :: 10 :: p' /\ p' ++ future = rest.
Proof.
  intros Hl E. destruct (le_lt_dec (length p) (S (length line))) as [Hle|Hgt].
  - left. assert (Hp : p = take (length p) (line ++ [13])).
    { rewrite <- (take_app_length p future) at 1. rewrite E. replace (line ++ 13 :: 10 :: rest) with ((line ++ [13]) ++ 10 :: rest) by by rewrite <- app_assoc.
      by rewrite take_app_le by (rewrite length_app; cbn; lia). }
    assert (Hn : 10 ∉ p).
    { intros Hin. rewrite Hp in Hin. assert (10 ∈ line ++ [13]) by (rewrite <- (take_drop (length p) (line ++ [13])); apply elem_of_app; by left). set_solver. }
    split; [cbn [eol_of]; by rewrite (index_of_absent _ _ Hn)|]. split; [unfold zlen; lia|]. intros ->. rewrite app_nil_r in E. rewrite E in Hle.
    rewrite length_app in Hle. cbn in Hle. lia.
  - right. exists (drop (S (S (length line))) p). assert (Hp : take (S (S (length line))) p = line ++ [13; 10]).
    { rewrite <- (take_app_le p future) by lia. rewrite E. replace (line ++ 13 :: 10 :: rest) with ((line ++ [13; 10]) ++ rest) by by rewrite <- app_assoc.
      rewrite take_app_le by (rewrite length_app; cbn; lia). apply take_ge. rewrite length_app. cbn. lia. }
    split; [rewrite <- (take_drop (S (S (length line))) p) at 1; by rewrite Hp, <- app_assoc|].
    apply (app_inv_head (line ++ [13; 10])). rewrite app_assoc, <- Hp, take_drop, E, Hp. by rewrite <- app_assoc.
Qed.

Section Stream.
Context `{ByteQueueLaws Q}.
Implicit Types buf : Q.

Lemma readln_stream buf future line rest : bq_ok buf -> 10 ∉ line -> bq_bytes buf ++ future = line ++ 13 :: 10 :: rest ->
  (bq_readln buf EVBUFFER_EOL_CRLF = Some (None, buf) /\ zlen (bq_bytes buf) <= zlen line + 1 /\ future <> []) \/
  exists buf', bq_readln buf EVBUFFER_EOL_CRLF = Some (Some line, buf') /\ bq_ok buf' /\ bq_bytes buf' ++ future = rest /\
    zlen (bq_bytes buf) = zlen line + 2 + zlen (bq_bytes buf').
Proof.
  intros Hok Hl E. pose proof (bq_readln_law buf EVBUFFER_EOL_CRLF Hok) as HR. destruct (prefix_line _ _ _ _ Hl E) as [(En & Hle & Hf)|(p & Ep & Hp)].
  - rewrite En in HR. by left.
  - rewrite Ep, crlf_line in HR by done. destruct HR as (buf' & R & Hok' & Hb). right. exists buf'.
    assert (Hb' : bq_bytes buf' = p).
    { rewrite Hb. replace (line ++ 13 :: 10 :: p) with ((line ++ [13; 10]) ++ p) by by rewrite <- app_assoc.
      assert (Hz : zlen (line ++ [13; 10]) = zlen line + 2) by by rewrite zlen_app. rewrite <- Hz, zdrop_app_ge, Z.sub_diag by lia. done. }
    rewrite R, ztake_app_le, ztake_ge, Hb', Ep, zlen_app, !zlen_cons by lia. split_and!; (done || lia).
Qed.

(** ** A reader that is called after each piece. *)
Section Deliver.
Context {S : Type} (run : S -> Q -> option (message_read_status * S * Q)).

(** The outcome, and the pieces that were not read. *)
Fixpoint deliver (s : S) buf (pieces : list (list Z)) : option (message_read_status * S * Q * list (list Z)) :=
  match pieces with
  | [] => Some (MORE_DATA_EXPECTED, s, buf, [])
  | piece :: pieces =>
      buf ← ignore (bq_add buf piece);
      '(status, s, buf) ← run s buf;
      match status with MORE_DATA_EXPECTED => deliver s buf pieces | _ => Some (status, s, buf, pieces) end
  end.

(** When more is expected, everything was read. *)
Lemma deliver_more_left pieces : forall s buf s' buf' left, deliver s buf pieces = Some (MORE_DATA_EXPECTED, s', buf', left) -> left = [].
Proof.
  induction pieces as [|piece pieces IH]; intros s buf s' buf' left R; cbn [deliver] in R; [by injection R as _ _ <-|].
  destruct (ignore (bq_add buf piece)) as [buf1|]; [|done]. cbn [mbind option_bind] in R. destruct (run s buf1) as [[[st s1] buf2]|]; [|done]. cbn [mbind option_bind] in R.
  destruct st; try done. by eapply IH.
Qed.

(** [Inv s w]: in state [s], [w] is what the reader has to read yet, and it ends in [Done]. *)
Context (Inv Done : S -> list Z -> Prop).
Definition reads : Prop := forall s buf future, bq_ok buf -> Inv s (bq_bytes buf ++ future) -> zlen (bq_bytes buf ++ future) <= INT_MAX ->
  exists status s' buf', run s buf = Some (status, s', buf') /\ bq_ok buf' /\ zlen (bq_bytes buf') <= zlen (bq_bytes buf) /\
    match status with
    | MORE_DATA_EXPECTED => Inv s' (bq_bytes buf' ++ future) /\ future <> []
    | ALL_DATA_READ => Done s' (bq_bytes buf' ++ future)
    | _ => False
    end.

Lemma deliver_ok pieces : reads -> forall s buf, bq_ok buf -> pieces <> [] -> Inv s (bq_bytes buf ++ concat pieces) ->
  zlen (bq_bytes buf ++ concat pieces) <= INT_MAX ->
  exists s' buf' left, deliver s buf pieces = Some (ALL_DATA_READ, s', buf', left) /\ bq_ok buf' /\ Done s' (bq_bytes buf' ++ concat left).
Proof.
  intros Hreads. induction pieces as [|piece pieces IH]; intros s buf Hok Hne HI Hlen; [done|]. cbn [deliver concat] in *.
  rewrite !zlen_app in Hlen. pose proof (zlen_nonneg (concat pieces)). destruct (ignore_add buf piece Hok) as (buf1 & -> & Hok1 & Hb1); [lia|]. cbn [mbind option_bind].
  rewrite app_assoc, <- Hb1 in HI. destruct (Hreads s buf1 (concat pieces) Hok1 HI) as (status & s2 & buf2 & -> & Hok2 & Hz & HS).
  { rewrite Hb1, !zlen_app. lia. }
  cbn [mbind option_bind]. destruct status; try done.
  - eexists _, _, _. done.
  - destruct HS as [HI2 Hf]. apply IH; [done | by intros -> | done |]. rewrite zlen_app. rewrite Hb1, zlen_app in Hz. lia.
Qed.
End Deliver.

(** ** One reader after another.  The second one is called as soon as the first
    one has all of its data. *)
Section Then.
Context {S : Type} (run1 run2 : S -> Q -> option (message_read_status * S * Q)).
Definition second (r : option (message_read_status * S * Q)) : option (message_read_status * (S + S) * Q) :=
  '(status, s, buf) ← r; Some (status, inr s, buf).
Definition run_then (s : S + S) buf : option (message_read_status * (S + S) * Q) :=
  match s with
  | inl s =>
      '(status, s, buf) ← run1 s buf;
      match status with ALL_DATA_READ => second (run2 s buf) | _ => Some (status, inl s, buf) end
  | inr s => second (run2 s buf)
  end.

Context (Inv1 Done1 Inv2 Done2 : S -> list Z -> Prop).
Definition then_inv (s : S + S) (w : list Z) : Prop := match s with inl s => Inv1 s w | inr s => Inv2 s w end.
Definition then_done (s : S + S) (w : list Z) : Prop := match s with inl s => False | inr s => Done2 s w end.
Lemma reads_then : reads run1 Inv1 Done1 -> reads run2 Inv2 Done2 -> (forall s w, Done1 s w -> Inv2 s w) -> reads run_then then_inv then_done.
Proof.
  intros R1 R2 Hnext. assert (Hsecond : forall s buf future, bq_ok buf -> Inv2 s (bq_bytes buf ++ future) -> zlen (bq_bytes buf ++ future) <= INT_MAX ->
    exists status s' buf', second (run2 s buf) = Some (status, s', buf') /\ bq_ok buf' /\ zlen (bq_bytes buf') <= zlen (bq_bytes buf) /\
      match status with
      | MORE_DATA_EXPECTED => then_inv s' (bq_bytes buf' ++ future) /\ future <> []
      | ALL_DATA_READ => then_done s' (bq_bytes buf' ++ future)
      | _ => False
      end).
  { intros s buf future Hok HI Hlen. destruct (R2 s buf future Hok HI Hlen) as (st & s' & buf' & E & Hok' & Hz & HS). unfold second. rewrite E.
    exists st, (inr s'), buf'. by split_and!. }
  intros [s|s] buf future Hok HI Hlen; [|by apply Hsecond]. cbn [run_then].
  destruct (R1 s buf future Hok HI Hlen) as (st & s' & buf' & -> & Hok' & Hz & HS). cbn [mbind option_bind]. destruct st; try done.
  - destruct (Hsecond s' buf' future Hok') as (st & s2 & buf2 & E & Hok2 & Hz2 & HS2); [by apply Hnext | rewrite zlen_app in *; lia|].
    exists st, s2, buf2. split_and!; (done || lia).
  - by exists MORE_DATA_EXPECTED, (inl s'), buf'.
Qed.
End Then.
End Stream.

(** * Header fields are read back

    A block of header fields that arrives in pieces gives the fields it was
    written from, and what is kept of any input stays below the limit. *)
(** ** Fields. *)
Definition text_char (c : Z) : bool := negb (c =? 0) && negb (c =? 10) && negb (c =? 13).
Definition blank (c : Z) : bool := (c =? 32) || (c =? 9).
(** A field that is the same after it was written and read: the key has no
    colon and does not begin with a blank, the value is trimmed. *)
Definition field_ok (kv : list Z * list Z) : bool :=
  forallb (fun c => text_char c && negb (c =? 58)) (fst kv) && negb (blank (at_ (fst kv) 0)) &&
  forallb text_char (snd kv) && negb (at_ (snd kv) 0 =? 32) && bool_decide (evutil_rtrim_lws_ (snd kv) = snd kv).
Definition field_line (kv : list Z * list Z) : list Z := fst kv ++ [58; 32] ++ snd kv.
Definition header_lines (hs : headers) : list Z := flat_map (fun kv => field_line kv ++ [13; 10]) hs.

Lemma text_char_in s c : forallb text_char s = true -> c ∈ s -> text_char c = true.
Proof. intros Hs Hc. rewrite forallb_forall in Hs. by apply Hs, list_elem_of_In. Qed.
Lemma text_no_newline s : forallb text_char s = true -> 10 ∉ s /\ 0 ∉ s.
Proof. intros Hs. split; intros Hc; by apply (text_char_in _ _ Hs) in Hc. Qed.
Lemma cstr_text s : 0 ∉ s -> cstr s = s.
Proof. intros Hs. unfold cstr. by rewrite split_at_none. Qed.
Lemma strsep_first c s t : c ∉ s -> strsep (s ++ c :: t) c = (s, Some t).
Proof. intros Hs. unfold strsep. by rewrite split_at_app. Qed.
Lemma strsep_absent c s : c ∉ s -> strsep s c = (s, None).
Proof. intros Hs. unfold strsep. by rewrite split_at_none. Qed.
Lemma valid_value_text s : forallb text_char s = true -> valid_value_loop s false = true.
Proof.
  induction s as [|c s IH]; [done|]. cbn. rewrite andb_true_iff. intros [Hc Hs]. unfold is_newline. unfold text_char in Hc.
  replace ((c =? 13) || (c =? 10)) with false by lia. by apply IH.
Qed.
Lemma forallb_impl {A} (P R : A -> bool) l : (forall x, P x = true -> R x = true) -> forallb P l = true -> forallb R l = true.
Proof. intros HPR. rewrite !forallb_forall. auto. Qed.

Lemma field_parts kv : field_ok kv = true -> forallb text_char (fst kv) = true /\ 58 ∉ fst kv /\ blank (at_ (fst kv) 0) = false /\
  forallb text_char (snd kv) = true /\ at_ (snd kv) 0 <> 32 /\ evutil_rtrim_lws_ (snd kv) = snd kv.
Proof.
  unfold field_ok. rewrite !andb_true_iff, bool_decide_eq_true. intros [[[[H1 H2] H3] H4] H5]. split_and!; try done; [| |by apply negb_true_iff | by intros He; rewrite He in H4].
  - revert H1. apply forallb_impl. by intros x [? _]%andb_true_iff.
  - intros Hc%list_elem_of_In. rewrite forallb_forall in H1. apply H1 in Hc. by rewrite andb_comm in Hc.
Qed.
Lemma field_line_text kv : field_ok kv = true -> forallb text_char (field_line kv) = true.
Proof. intros (H1 & _ & _ & H4 & _)%field_parts. unfold field_line. rewrite !forallb_app, H1, H4. done. Qed.

Section Fields.
Context (mm : Z -> bool) (mm_ok : forall n, mm n = true).

Lemma span_one v : at_ v 0 <> 32 -> zdrop (span [32] (32 :: v)) (32 :: v) = v.
Proof.
  intros Hv. replace (span [32] (32 :: v)) with 1; [done|]. cbn. destruct v as [|c v]; [done|]. cbn in *.
  destruct (Z.eqb_spec c 32); [done|]. done.
Qed.
Lemma add_header_ok hs key value : existsb is_newline key = false -> evhttp_header_is_valid_value value = true ->
  evhttp_add_header mm hs key value = (0, hs ++ [(key, value)]).
Proof. intros Hk Hv. unfold evhttp_add_header, evhttp_add_header_internal. by rewrite Hk, Hv, !mm_ok. Qed.
Lemma text_no_line_end s : forallb text_char s = true -> existsb is_newline s = false.
Proof.
  induction s as [|c s IH]; [done|]. cbn. rewrite andb_true_iff. intros [Hc Hs]. rewrite IH by done. unfold text_char, is_newline in *. lia.
Qed.
Lemma parse_field hs kv : field_ok kv = true -> parse_header_line mm hs (field_line kv) = (0, hs ++ [kv]) /\ field_line kv <> [].
Proof.
  intros (H1 & H2 & H3 & H4 & H5 & H6)%field_parts. split; [|unfold field_line; by destruct (fst kv)].
  unfold parse_header_line. assert (Hat : at_ (field_line kv) 0 = if decide (fst kv = []) then 58 else at_ (fst kv) 0) by (unfold field_line; by destruct (fst kv)).
  unfold blank in H3. rewrite Hat. replace (_ || _) with false by (symmetry; case_decide; [done | exact H3]).
  unfold field_line. cbn [app]. rewrite strsep_first, span_one, H6 by done. rewrite add_header_ok; [by destruct kv | by apply text_no_line_end | by apply valid_value_text].
Qed.

(** ** A block of them in a stream. *)
Context (tail_ : list Z) `{ByteQueueLaws Q}.
Implicit Types (req : evhttp_request Q).

(** [hs] are still to be read. *)
Definition block (hs : headers) : list Z := header_lines hs ++ 13 :: 10 :: tail_.
Definition line_lengths (hs : headers) : Z := foldr (fun kv n => zlen (field_line kv) + n) 0 hs.
Definition under_limit req (more : Z) : Prop :=
  0 <= headers_size req /\ headers_size req + more <= match evcon req with Some con => Z.min (max_headers_size con) EV_SIZE_MAX | None => EV_SIZE_MAX end.
(** The request as it was, with more fields. *)
Definition with_fields req (hs : headers) : evhttp_request Q :=
  {| req with input_headers := input_headers req ++ hs; headers_size := headers_size req + line_lengths hs |}.
(** [req0] with some of the fields, the others to come. *)
Definition fields_inv (req0 : evhttp_request Q) (hs : headers) req (w : list Z) : Prop :=
  exists done rest, hs = done ++ rest /\ req = with_fields req0 done /\ w = block rest /\ under_limit req (zlen (block rest) - zlen tail_).
Definition fields_done (req0 : evhttp_request Q) (hs : headers) req (w : list Z) : Prop := req = with_fields req0 hs /\ w = tail_.

Lemma line_lengths_app hs hs' : line_lengths (hs ++ hs') = line_lengths hs + line_lengths hs'.
Proof. induction hs as [|kv hs IH]; [done|]. cbn. unfold line_lengths in *. lia. Qed.
Lemma with_fields_snoc req hs kv : with_fields (with_fields req hs) [kv] = with_fields req (hs ++ [kv]).
Proof. unfold with_fields. cbn. rewrite <- app_assoc, line_lengths_app. f_equal. cbn. lia. Qed.
Lemma block_cons kv hs : block (kv :: hs) = field_line kv ++ 13 :: 10 :: block hs.
Proof. unfold block, header_lines. cbn [flat_map]. by rewrite <- !app_assoc. Qed.
Lemma zlen_block_cons kv hs : zlen (block (kv :: hs)) = zlen (field_line kv) + 2 + zlen (block hs).
Proof. rewrite block_cons, zlen_app, !zlen_cons. lia. Qed.

Lemma not_over req more : under_limit req more -> 0 <= more -> over_limit req (headers_size req) = false.
Proof. unfold under_limit, over_limit. destruct (evcon req); [|done]. intros. lia. Qed.

Lemma under_limit_line req kv hs : under_limit req (zlen (block (kv :: hs)) - zlen tail_) ->
  u64 (headers_size req + zlen (field_line kv)) = headers_size req + zlen (field_line kv) /\
  under_limit (with_fields req [kv]) (zlen (block hs) - zlen tail_).
Proof.
  rewrite zlen_block_cons. unfold under_limit. cbn [with_fields evcon headers_size line_lengths foldr]. rewrite Z.add_0_r.
  pose proof (zlen_nonneg (field_line kv)). assert (zlen tail_ <= zlen (block hs)).
  { unfold block. rewrite zlen_app, !zlen_cons. pose proof (zlen_nonneg (header_lines hs)). lia. }
  unfold EV_SIZE_MAX. intros [Hs1 Hs2]. assert (headers_size req + zlen (field_line kv) < 2 ^ 64 /\ (zlen (block hs) - zlen tail_ >= 0)) as [Hs3 _] by (destruct (evcon req); lia).
  split; [apply u64_small; lia|]. destruct (evcon req); lia.
Qed.

Lemma headers_loop_ok req0 hs : Forall (fun kv => field_ok kv = true) hs -> forall fuel req buf future,
  bq_ok buf -> fields_inv req0 hs req (bq_bytes buf ++ future) -> zlen (bq_bytes buf) < Z.of_nat fuel ->
  exists status req' buf', parse_headers_loop mm fuel req buf = Some (status, req', buf') /\ bq_ok buf' /\ zlen (bq_bytes buf') <= zlen (bq_bytes buf) /\
    match status with
    | MORE_DATA_EXPECTED => fields_inv req0 hs req' (bq_bytes buf' ++ future) /\ future <> [] /\ under_limit req' (zlen (bq_bytes buf'))
    | ALL_DATA_READ => fields_done req0 hs req' (bq_bytes buf' ++ future)
    | _ => False
    end.
Proof.
  intros Hhs. induction fuel as [|fuel IH]; intros req buf future Hok HI Hf; [pose proof (zlen_nonneg (bq_bytes buf)); lia|].
  destruct HI as (done_ & rest & -> & -> & Hw & Hlim). cbn [parse_headers_loop]. apply Forall_app in Hhs as [Hd Hrest].
  set (line := match rest with [] => [] | kv :: _ => field_line kv end). set (after := match rest with [] => tail_ | _ :: rest => block rest end).
  assert (Hblock : block rest = line ++ 13 :: 10 :: after) by (destruct rest; [done | apply block_cons]).
  assert (Htext : forallb text_char line = true) by (unfold line; destruct rest; [done | by apply Forall_cons in Hrest as [? _]; apply field_line_text]).
  destruct (text_no_newline _ Htext) as [Hnl Hnul]. pose proof (zlen_nonneg line) as Hline.
  destruct (readln_stream buf future line after Hok Hnl) as [(R & Hle & Hfut)|(buf1 & R & Hok1 & Hw1 & Hz)]; [congruence | |]; rewrite R; cbn [mbind option_bind].
  - eexists _, _, _. split; [done|]. split_and!; try done; [by exists done_, rest|].
    assert (zlen tail_ <= zlen after) by (unfold after; destruct rest; [lia | rewrite <- (Z.add_0_l (zlen tail_)); unfold block; rewrite zlen_app, !zlen_cons; pose proof (zlen_nonneg (header_lines rest)); lia]).
    rewrite Hblock, zlen_app, !zlen_cons in Hlim. unfold under_limit in *. destruct (evcon (with_fields req0 done_)); lia.
  - destruct rest as [|kv rest]; subst line after; cbn beta iota in *.
    + change (zlen []) with 0. rewrite Z.add_0_r.
      assert (Hu : u64 (headers_size (with_fields req0 done_)) = headers_size (with_fields req0 done_)).
      { apply u64_small. destruct Hlim as [? Hl]. change (block []) with (13 :: 10 :: tail_) in Hl. rewrite !zlen_cons in Hl. unfold EV_SIZE_MAX in Hl. destruct (evcon _); lia. }
      rewrite Hu. assert (Hov : over_limit (with_fields req0 done_) (headers_size (with_fields req0 done_)) = false).
      { apply (not_over _ _ Hlim). change (block []) with (13 :: 10 :: tail_). rewrite !zlen_cons. lia. }
      unfold over_limit in *. cbn [with_fields evcon headers_size] in Hov |- *. rewrite Hov.
      change (cstr []) with (@nil Z). cbn iota. eexists _, _, _. split; [done|]. split_and!; try done; [lia|]. by rewrite app_nil_r.
    + apply Forall_cons in Hrest as [Hkv Hrest]. destruct (under_limit_line _ _ _ Hlim) as [Hu Hlim1]. rewrite Hu.
      assert (Hov : over_limit (with_fields (with_fields req0 done_) [kv]) (headers_size (with_fields (with_fields req0 done_) [kv])) = false).
      { apply (not_over _ _ Hlim1). unfold block. rewrite zlen_app, !zlen_cons. pose proof (zlen_nonneg (header_lines rest)). lia. }
      unfold over_limit in *. cbn [with_fields evcon headers_size] in Hov |- *. cbn [line_lengths foldr] in Hov. rewrite Z.add_0_r in Hov. rewrite Hov.
      rewrite (cstr_text _ Hnul). destruct (parse_field (input_headers (with_fields req0 done_)) kv Hkv) as [Hp Hne]. cbn [with_fields input_headers] in Hp |- *.
      destruct (field_line kv) as [|c l] eqn:Efl; [done|]. rewrite Hp. change (0 =? -1) with false. cbn iota. rewrite <- Efl in *.
      destruct (IH (with_fields req0 (done_ ++ [kv])) buf1 future) as (status & req' & buf' & R' & Hok' & Hz' & HS); [done | | pose proof (zlen_nonneg (field_line kv)); lia |].
      { exists (done_ ++ [kv]), rest. rewrite <- with_fields_snoc. by rewrite <- app_assoc. }
      exists status, req', buf'. split; [|split_and!; [done | pose proof (zlen_nonneg (field_line kv)); lia | done]].
      rewrite <- R'. f_equal. rewrite <- with_fields_snoc. unfold with_fields. cbn. rewrite Z.add_0_r. done.
Qed.

Lemma parse_headers_reads req0 hs : Forall (fun kv => field_ok kv = true) hs -> reads (evhttp_parse_headers_ mm) (fields_inv req0 hs) (fields_done req0 hs).
Proof.
  intros Hhs req buf future Hok HI _. unfold evhttp_parse_headers_. destruct (bq_length_law buf Hok) as [-> _].
  destruct (headers_loop_ok req0 hs Hhs (S (Z.to_nat (zlen (bq_bytes buf)))) req buf future Hok HI ltac:(lia)) as (status & req' & buf' & -> & Hok' & Hz & HS).
  cbn [mbind option_bind]. destruct status; try done.
  - by eexists _, _, _.
  - destruct HS as (HI' & Hf & Hl). destruct (bq_length_law buf' Hok') as [-> _]. pose proof (zlen_nonneg (bq_bytes buf')).
    replace (over_limit _ _) with false; [by eexists _, _, _|]. symmetry. unfold over_limit, under_limit in *. unfold EV_SIZE_MAX in Hl. destruct (evcon req'); [|done]. rewrite u64_small by lia. lia.
Qed.
End Fields.

(** * What is kept of header fields

    Whatever arrives, and in whatever pieces: reading header fields ends, keeps
    no more bytes than the limit of the connection, and no line ends or NULs. *)
Definition stored (hs : headers) : Z := foldr (fun kv n => zlen (fst kv) + zlen (snd kv) + n) 0 hs.
(** No LF and no NUL. *)
Definition clean (s : list Z) : Prop := 10 ∉ s /\ 0 ∉ s.
Definition clean_fields (hs : headers) : Prop := Forall (fun kv => clean (fst kv) /\ clean (snd kv)) hs.

Lemma stored_app hs hs' : stored (hs ++ hs') = stored hs + stored hs'.
Proof. induction hs as [|kv hs IH]; [done|]. unfold stored in *. cbn. lia. Qed.
Lemma stored_nonneg hs : 0 <= stored hs.
Proof. induction hs as [|kv hs IH]; [done|]. unfold stored in *. cbn. pose proof (zlen_nonneg (fst kv)). pose proof (zlen_nonneg (snd kv)). lia. Qed.
Lemma clean_sub s t : (forall c, c ∈ t -> c ∈ s) -> clean s -> clean t.
Proof. intros Hst [H1 H2]. split; auto. Qed.
Lemma clean_app s t : clean (s ++ t) <-> clean s /\ clean t.
Proof. unfold clean. rewrite !not_elem_of_app. tauto. Qed.

Lemma drop_blanks_suffix s : exists pre, s = pre ++ drop_blanks s.
Proof. induction s as [|c s [pre IH]]; [by exists []|]. cbn. case_if; [exists (c :: pre); cbn; by f_equal | by exists []]. Qed.
Lemma rtrim_prefix s : exists post, s = evutil_rtrim_lws_ s ++ post.
Proof.
  unfold evutil_rtrim_lws_. destruct (drop_blanks_suffix (reverse s)) as [pre Hp]. exists (reverse pre). apply (f_equal reverse) in Hp.
  by rewrite reverse_involutive, reverse_app in Hp.
Qed.
Lemma cstr_clean s : 10 ∉ s -> clean (cstr s) /\ zlen (cstr s) <= zlen s.
Proof.
  intros Hs. unfold cstr. destruct (split_at 0 s) as [[a b]|] eqn:E.
  - apply split_at_some in E as [-> Ha]. split; [split; [set_solver | done] | rewrite zlen_app, zlen_cons; pose proof (zlen_nonneg b); lia].
  - split; [split; [done|] | lia]. intros Hin. apply list_elem_of_split in Hin as (a & b & ->).
    revert E. clear Hs. induction a as [|x a IH]; cbn; [done|]. case_if; [done|]. by destruct (split_at 0 (a ++ 0 :: b)) as [[]|].
Qed.

Section Limits.
Context (mm : Z -> bool).

Lemma add_header_kept hs key value r hs' : evhttp_add_header mm hs key value = (r, hs') ->
  (r = 0 /\ hs' = hs ++ [(key, value)]) \/ (r = -1 /\ hs' = hs).
Proof.
  unfold evhttp_add_header, evhttp_add_header_internal. repeat case_if; intros [= <- <-]; auto.
Qed.
(** A line is kept as at most as many bytes, or refused. *)
Lemma parse_line_kept hs line r hs' : clean line -> clean_fields hs -> parse_header_line mm hs line = (r, hs') ->
  (r = 0 /\ clean_fields hs' /\ stored hs' <= stored hs + zlen line) \/ (r = -1 /\ hs' = hs).
Proof.
  intros Hl Hc R. unfold parse_header_line in R. case_if_in R.
  - unfold evhttp_append_to_last_header in R. destruct (last hs) as [[key value]|] eqn:El; [|injection R as <- <-; by right].
    set (t := evutil_rtrim_lws_ (drop_blanks line)) in *. case_if_in R; injection R as <- <-; [left | by right]. split; [done|].
    apply last_Some in El as [init ->]. rewrite removelast_last. apply Forall_app in Hc as [Hi Hk]. apply Forall_singleton in Hk as [Hk Hv]. cbn [fst snd] in *.
    destruct (rtrim_prefix (drop_blanks line)) as [post Hpost]. fold t in Hpost. destruct (drop_blanks_suffix line) as [pre Hpre].
    assert (Hpre1 : 1 <= zlen pre).
    { destruct pre; [|rewrite zlen_cons; pose proof (zlen_nonneg pre); lia]. exfalso. cbn in Hpre. destruct line as [|c line]; [done|]. cbn in E, Hpre. rewrite E in Hpre.
      destruct (drop_blanks_suffix line) as [p Hp]. apply (f_equal length) in Hpre. rewrite Hp in Hpre at 1. cbn in Hpre. rewrite length_app in Hpre. lia. }
    rewrite Hpost in Hpre. split.
    + apply Forall_app. split; [done|]. constructor; [|done]. cbn. split; [done|]. rewrite Hpre in Hl. rewrite !clean_app in Hl. apply clean_app. split; [done|].
      change (32 :: t) with ([32] ++ t). apply clean_app. split; [by split; set_solver | tauto].
    + rewrite !stored_app. cbn. rewrite Hpre, !zlen_app, zlen_cons. pose proof (zlen_nonneg post). lia.
  - unfold strsep in R. destruct (split_at 58 line) as [[key svalue]|] eqn:Es; [|injection R as <- <-; by right]. apply split_at_some in Es as [-> _].
    set (v := evutil_rtrim_lws_ _) in *. assert (Hv : exists a b, svalue = a ++ v ++ b).
    { destruct (rtrim_prefix (zdrop (span [32] svalue) svalue)) as [post Hp]. fold v in Hp. exists (ztake (span [32] svalue) svalue), post. by rewrite <- Hp, zdrop_take. }
    clearbody v. destruct Hv as (a & b & ->). change (58 :: a ++ v ++ b) with ([58] ++ a ++ v ++ b) in Hl. rewrite !clean_app in Hl.
    destruct (add_header_kept _ _ _ _ _ R) as [[-> ->]|[-> ->]]; [left | by right]. split; [done|]. split.
    + apply Forall_app. split; [done|]. constructor; [cbn; tauto | done].
    + rewrite stored_app. cbn. rewrite zlen_app, zlen_cons, !zlen_app. pose proof (zlen_nonneg a). pose proof (zlen_nonneg b). lia.
Qed.

Context `{ByteQueueLaws Q} (con : evhttp_connection).
Implicit Types (req : evhttp_request Q) (buf : Q).

(** While fields are read ... *)
Record reading req : Prop := {
  rd_con : evcon req = Some con;
  rd_size : 0 <= headers_size req <= max_headers_size con;
  rd_stored : stored (input_headers req) <= headers_size req;
  rd_clean : clean_fields (input_headers req)
}.
(** ... and at any time. *)
Definition limited req : Prop := stored (input_headers req) <= max_headers_size con /\ clean_fields (input_headers req).
Lemma reading_limited req : reading req -> limited req.
Proof. intros [_ Hs Hst Hc]. split; [lia | done]. Qed.
(** The outcome of a call. *)
Definition bounded_read buf (status : message_read_status) req' buf' : Prop :=
  bq_ok buf' /\ zlen (bq_bytes buf') <= zlen (bq_bytes buf) /\ limited req' /\
  match status with
  | ALL_DATA_READ => reading req'
  | MORE_DATA_EXPECTED => reading req' /\ headers_size req' + zlen (bq_bytes buf') <= max_headers_size con
  | REQUEST_CANCELED => False
  | _ => True
  end.

Context (Hmax : max_headers_size con + INT_MAX <= EV_SIZE_MAX).

Lemma over_limit_con req n : evcon req = Some con -> over_limit req n = (max_headers_size con <? n).
Proof. unfold over_limit. by intros ->. Qed.

Lemma line_no_newline s n k : eol_of EVBUFFER_EOL_CRLF s = Some (n, k) -> 10 ∉ ztake n s.
Proof.
  cbn [eol_of]. destruct (index_of _ s) as [j|] eqn:E; [|done]. cbn [mbind option_bind]. destruct (index_of_some _ _ _ E) as (_ & _ & _ & _ & Hb).
  assert (Hj : 10 ∉ ztake j s) by (intros Hin; apply Hb in Hin; done).
  case_decide; intros [= <- <-]; [|done]. intros Hin. apply Hj. replace (ztake (j - 1) s) with (ztake (j - 1) (ztake j s)) in Hin; [|unfold ztake; rewrite take_take; f_equal; lia].
  unfold ztake in Hin at 1. rewrite <- (take_drop (Z.to_nat (j - 1)) (ztake j s)). apply elem_of_app. by left.
Qed.

Lemma headers_loop_bounded fuel : forall req buf, bq_ok buf -> reading req -> zlen (bq_bytes buf) < Z.of_nat fuel ->
  exists status req' buf', parse_headers_loop mm fuel req buf = Some (status, req', buf') /\ bq_ok buf' /\ zlen (bq_bytes buf') <= zlen (bq_bytes buf) /\ limited req' /\
    match status with ALL_DATA_READ | MORE_DATA_EXPECTED => reading req' | REQUEST_CANCELED => False | _ => True end.
Proof.
  induction fuel as [|fuel IH]; intros req buf Hok HR Hf; [pose proof (zlen_nonneg (bq_bytes buf)); lia|]. cbn [parse_headers_loop].
  pose proof (bq_readln_law buf EVBUFFER_EOL_CRLF Hok) as Hln. destruct (eol_of EVBUFFER_EOL_CRLF (bq_bytes buf)) as [[n k]|] eqn:Ee.
  2: { rewrite Hln. cbn [mbind option_bind]. exists MORE_DATA_EXPECTED, req, buf. split_and!; try done. by apply reading_limited. }
  destruct Hln as (buf1 & -> & Hok1 & Hb1). cbn [mbind option_bind]. destruct (eol_of_range _ _ _ _ Ee) as (Hn & Hk & Hnk).
  destruct (bq_length_law buf Hok) as [_ Hsmall]. pose proof HR as [Hcon Hsize Hst Hcl].
  assert (Hz1 : zlen (bq_bytes buf1) < zlen (bq_bytes buf)) by (rewrite Hb1, zlen_zdrop by lia; lia).
  rewrite (zlen_ztake n) by lia. rewrite u64_small by (unfold INT_MAX, EV_SIZE_MAX in *; lia). rewrite over_limit_con by done. cbn [headers_size].
  destruct (Z.ltb_spec (max_headers_size con) (headers_size req + n)) as [Hover|Hunder].
  { eexists _, _, _. split; [done|]. split_and!; [done | lia | | done]. by apply (reading_limited req). }
  destruct (cstr_clean _ (line_no_newline _ _ _ Ee)) as [Hline Hlen]. rewrite (zlen_ztake n) in Hlen by lia.
  set (line := cstr _) in *. clearbody line. assert (HR1 : reading {| req with headers_size := headers_size req + n |}) by (split; cbn [evcon headers_size input_headers]; (done || lia)).
  destruct line as [|c l].
  { eexists _, _, _. split; [done|]. split_and!; [done | lia | by apply reading_limited | done]. }
  destruct (parse_header_line mm _ (c :: l)) as [r hs] eqn:Ep. cbn [input_headers] in Ep.
  destruct (parse_line_kept _ _ _ _ Hline Hcl Ep) as [(-> & Hc' & Hs')|[-> ->]].
  - change (0 =? -1) with false. cbn iota. destruct (IH {| req with input_headers := hs; headers_size := headers_size req + n |} buf1) as (st & req' & buf' & R & Hok' & Hz' & HS); [done | | lia |].
    { split; cbn [evcon headers_size input_headers]; (done || lia). }
    exists st, req', buf'. split; [exact R|]. split_and!; try apply HS; (done || lia).
  - change (-1 =? -1) with true. cbn iota. eexists _, _, _. split; [done|]. split_and!; [done | lia | | done]. by apply (reading_limited req).
Qed.

Lemma parse_headers_bounded req buf : bq_ok buf -> reading req ->
  exists status req' buf', evhttp_parse_headers_ mm req buf = Some (status, req', buf') /\ bounded_read buf status req' buf'.
Proof.
  intros Hok HR. unfold evhttp_parse_headers_. destruct (bq_length_law buf Hok) as [-> _].
  destruct (headers_loop_bounded (S (Z.to_nat (zlen (bq_bytes buf)))) req buf Hok HR ltac:(lia)) as (st & req' & buf' & -> & Hok' & Hz & Hl & HS).
  cbn [mbind option_bind]. destruct st; try (eexists _, _, _; split; [done|]; by split_and!).
  destruct (bq_length_law buf' Hok') as [-> Hsmall]. pose proof HS as [Hcon Hsize _ _]. pose proof (zlen_nonneg (bq_bytes buf')).
  rewrite over_limit_con, u64_small by (done || (unfold EV_SIZE_MAX in Hmax; lia)).
  case_if; (eexists _, _, _; split; [done|]; split_and!; try done; lia).
Qed.

(** A reader that is called after each piece. *)
Lemma deliver_bounded pieces : forall req buf, bq_ok buf -> reading req -> zlen (bq_bytes buf ++ concat pieces) <= INT_MAX ->
  exists status req' buf' left, deliver (evhttp_parse_headers_ mm) req buf pieces = Some (status, req', buf', left) /\ limited req' /\ bq_ok buf' /\
    match status with
    | ALL_DATA_READ => reading req'
    | MORE_DATA_EXPECTED => reading req' /\ (pieces <> [] -> headers_size req' + zlen (bq_bytes buf') <= max_headers_size con)
    | REQUEST_CANCELED => False
    | _ => True
    end.
Proof.
  induction pieces as [|piece pieces IH]; intros req buf Hok HR Hlen; cbn [deliver concat] in *.
  { eexists _, _, _, _. split; [done|]. split_and!; try done. by apply reading_limited. }
  rewrite !zlen_app in Hlen. pose proof (zlen_nonneg (concat pieces)). destruct (ignore_add buf piece Hok) as (buf1 & -> & Hok1 & Hb1); [lia|]. cbn [mbind option_bind].
  destruct (parse_headers_bounded req buf1 Hok1 HR) as (st & req2 & buf2 & -> & Hok2 & Hz & Hl & HS). cbn [mbind option_bind].
  destruct st; try (eexists _, _, _, _; split; [done|]; by split_and!). destruct HS as [HR2 Hb2].
  destruct (IH req2 buf2 Hok2 HR2) as (st & req3 & buf3 & left & R & Hl3 & Hok3 & HS); [rewrite zlen_app; rewrite Hb1, zlen_app in Hz; lia|].
  exists st, req3, buf3, left. rewrite R. split_and!; try done. destruct st; try done. destruct HS as [HR3 Hb3]. split; [done|]. intros _.
  destruct pieces; [|by apply Hb3]. cbn in R. by injection R as <- <- <-.
Qed.
End Limits.
