(* ===== verification/HttpChunks.v ===== *)
(** * Bodies in chunks are read back

    What is sent in chunks gives the data again, however the bytes are split. *)
From Stdlib Require Import Ascii String.
From S2P Require Import Prelude Event Buffer BufferInv BufferOps BufferSearch BufferLines BufferFind ByteQueue CString Uri UriCodec HttpMsg HttpParse HttpSend HttpStream.
Open Scope Z_scope.

(** ** Numbers. *)
Lemma hex_plain d : 0 <= d < 16 -> let c := hex_digit false d in text_char c = true /\ c <> 32.
Proof.
  intros Hd c. assert (Hc : 0 <= d < 256) by lia.
  pose proof (all_chars_ok (fun d => negb (d <? 16) || (text_char (hex_digit false d) && negb (hex_digit false d =? 32))) ltac:(vm_compute; reflexivity) d Hc) as HA.
  cbn beta in HA. fold c in HA. replace (d <? 16) with true in HA by lia. cbn [negb orb] in HA. rewrite andb_true_iff, negb_true_iff, Z.eqb_neq in HA. done.
Qed.
Lemma printf_x_line n : 0 <= n -> forallb text_char (printf_x n) = true /\ printf_x n <> [] /\ at_ (printf_x n) 0 <> 0.
Proof.
  intros Hn. unfold printf_x. pose proof (digits_range 16 n 20 ltac:(lia) ltac:(lia)) as HR. pose proof (digits_ne 20 16 n ltac:(lia)) as Hne.
  set (l := digits 20 16 n) in *. clearbody l. split_and!.
  - apply forallb_forall. intros c Hc. apply in_map_iff in Hc as (d & <- & Hd). rewrite Forall_forall in HR. apply list_elem_of_In, HR in Hd. by apply hex_plain.
  - by destruct l.
  - destruct l as [|d l]; [done|]. apply Forall_cons in HR as [Hd _]. cbn. destruct (hex_plain d Hd) as (Ht & _). unfold text_char in Ht. lia.
Qed.
Lemma chunk_size_x n : 0 <= n < 2 ^ 63 -> chunk_size (printf_x n) = Some n.
Proof.
  intros Hn. unfold chunk_size. rewrite strtoll_x by done. destruct (printf_x_line n ltac:(lia)) as (_ & _ & Hz). rewrite (proj2 (Z.eqb_neq _ _) Hz). cbn.
  by replace (n <? 0) with false by lia.
Qed.

(** ** The stream. *)
Definition chunk (d : list Z) : list Z := printf_x (zlen d) ++ [13; 10] ++ d ++ [13; 10].
Definition chunks (ds : list (list Z)) : list Z := flat_map chunk ds.
Definition last_chunk : list Z := [48; 13; 10].

Section Chunks.
Context (tail_ : list Z) `{ByteQueueLaws Q} (con : evhttp_connection) (req0 : evhttp_request Q) (ds : list (list Z)).
Implicit Types (req : evhttp_request Q) (buf : Q).

Definition after_chunks (rest : list (list Z)) : list Z := chunks rest ++ last_chunk ++ tail_.
(** [req0] with the data of some chunks, [more] bytes of another one announced. *)
Definition with_chunks (input : Q) (size to_read : Z) : evhttp_request Q :=
  {| req0 with input_buffer := input; body_size := body_size req0 + size; ntoread := to_read |}.
Record has_chunks (read : list (list Z)) (input : Q) : Prop := {
  hc_ok : bq_ok input;
  hc_bytes : bq_bytes input = bq_bytes (input_buffer req0) ++ concat read
}.
(** Before a size, with or without the end of the chunk before it, or in a
    chunk. *)
Inductive chunks_inv : evhttp_request Q -> list Z -> Prop :=
  | before_size read rest pre input n : ds = read ++ rest -> has_chunks read input -> n < 0 -> pre = [] \/ pre = [13; 10] ->
      chunks_inv (with_chunks input (zlen (concat read)) n) (pre ++ after_chunks rest)
  | in_chunk read d rest input : ds = read ++ d :: rest -> has_chunks read input ->
      chunks_inv (with_chunks input (zlen (concat (read ++ [d]))) (zlen d)) (d ++ 13 :: 10 :: after_chunks rest).
Definition chunks_done req (w : list Z) : Prop :=
  exists input, req = with_chunks input (zlen (concat ds)) 0 /\ has_chunks ds input /\ w = tail_.

Context (Hcon : evcon req0 = Some con) (Hne : Forall (fun d => d <> []) ds) (Hbody : 0 <= body_size req0)
  (Hlimit : body_size req0 + zlen (concat ds) <= max_body_size con) (Hmax : max_body_size con <= EV_SIZE_MAX)
  (Hroom : zlen (bq_bytes (input_buffer req0)) + zlen (concat ds) <= INT_MAX).

Lemma after_chunks_cons d rest : after_chunks (d :: rest) = printf_x (zlen d) ++ 13 :: 10 :: d ++ 13 :: 10 :: after_chunks rest.
Proof. unfold after_chunks, chunks. cbn [flat_map]. unfold chunk. by rewrite <- !app_assoc. Qed.
Lemma concat_snoc (read : list (list Z)) d : concat (read ++ [d]) = concat read ++ d.
Proof. rewrite concat_app. cbn. by rewrite app_nil_r. Qed.
Lemma inv_nonempty req w : chunks_inv req w -> w <> [].
Proof.
  intros [read rest pre input n _ _ _ Hp|read d rest input _ _]; [|by destruct d].
  destruct Hp as [-> | ->]; [|done]. unfold after_chunks, last_chunk. cbn. by destruct (chunks rest).
Qed.
(** What the sizes of the chunks read so far and of one more come to. *)
Lemma sizes read rest : ds = read ++ rest -> zlen (concat ds) = zlen (concat read) + zlen (concat rest).
Proof. intros Hd. by rewrite Hd, concat_app, zlen_app. Qed.

(** The next outcome of the loop, or the rest of it. *)
Definition outcome_ok buf future (r : option (message_read_status * evhttp_request Q * Q)) : Prop :=
  exists status req' buf', r = Some (status, req', buf') /\ bq_ok buf' /\ zlen (bq_bytes buf') <= zlen (bq_bytes buf) /\
    match status with
    | MORE_DATA_EXPECTED => chunks_inv req' (bq_bytes buf' ++ future) /\ future <> []
    | ALL_DATA_READ => chunks_done req' (bq_bytes buf' ++ future)
    | _ => False
    end.
Lemma outcome_later buf buf1 future r : zlen (bq_bytes buf1) <= zlen (bq_bytes buf) -> outcome_ok buf1 future r -> outcome_ok buf future r.
Proof. intros Hz (st & req' & buf' & -> & ? & ? & ?). exists st, req', buf'. split_and!; (done || lia). Qed.

(** The size that a line gives is accepted. *)
Lemma size_accepted read rest n : ds = read ++ rest -> 0 <= n <= zlen (concat rest) ->
  (EV_SIZE_MAX - (body_size req0 + zlen (concat read)) <? n) = false /\
  u64 (body_size req0 + zlen (concat read) + n) = body_size req0 + (zlen (concat read) + n) /\
  (max_body_size con <? body_size req0 + (zlen (concat read) + n)) = false.
Proof.
  intros Hds Hn. pose proof (sizes _ _ Hds) as Hs. pose proof (zlen_nonneg (concat read)). split_and!; [lia | | lia].
  rewrite <- Z.add_assoc. apply u64_small. unfold EV_SIZE_MAX in Hmax. lia.
Qed.

(** The line that comes next before a size. *)
Lemma first_line read rest pre : ds = read ++ rest -> pre = [] \/ pre = [13; 10] ->
  exists line after, pre ++ after_chunks rest = line ++ 13 :: 10 :: after /\ forallb text_char line = true /\
    ((line = [] /\ after = after_chunks rest) \/
     (pre = [] /\ exists k, line = printf_x k /\ 0 <= k < 2 ^ 63 /\ k <= zlen (concat rest) /\
       ((k = 0 /\ rest = [] /\ after = tail_) \/ (exists d rest', k = zlen d /\ k <> 0 /\ rest = d :: rest' /\ after = d ++ 13 :: 10 :: after_chunks rest')))).
Proof.
  intros Hds [-> | ->]; [|exists [], (after_chunks rest); split_and!; auto]. destruct rest as [|d rest].
  - exists [48], tail_. split_and!; [done..|]. right. split; [done|]. exists 0. split_and!; try done. by left.
  - exists (printf_x (zlen d)), (d ++ 13 :: 10 :: after_chunks rest). pose proof (zlen_nonneg d). pose proof Hne as Hd. rewrite Hds in Hd. apply Forall_app in Hd as [_ Hd]. apply Forall_cons in Hd as [Hd _].
    pose proof (sizes _ _ Hds) as Hs. cbn [concat] in *. rewrite zlen_app in *. pose proof (zlen_nonneg (concat read)). pose proof (zlen_nonneg (concat rest)).
    pose proof (zlen_nonneg (bq_bytes (input_buffer req0))).
    split; [apply after_chunks_cons|]. split; [by apply printf_x_line|]. right. split; [done|]. exists (zlen d). split_and!; try (unfold INT_MAX in *; lia); [done|].
    right. exists d, rest. by rewrite zlen_nil.
Qed.

Lemma chunk_taken read d rest input buf future : ds = read ++ d :: rest -> has_chunks read input -> bq_ok buf ->
  bq_bytes buf ++ future = d ++ 13 :: 10 :: after_chunks rest -> zlen d <= zlen (bq_bytes buf) ->
  exists input' buf', chunk_done None (with_chunks input (zlen (concat (read ++ [d]))) (zlen d)) buf =
      Some (false, with_chunks input' (zlen (concat (read ++ [d]))) (-1), buf') /\ bq_ok buf' /\ zlen (bq_bytes buf') = zlen (bq_bytes buf) - zlen d /\
    bq_bytes buf' ++ future = [13; 10] ++ after_chunks rest /\ has_chunks (read ++ [d]) input'.
Proof.
  intros Hds [Hi Hb] Hok Hw Hlen. pose proof (sizes _ _ Hds) as Hs. cbn [concat] in Hs. rewrite zlen_app in Hs. pose proof (zlen_nonneg d). pose proof (zlen_nonneg (concat rest)).
  destruct (bq_remove_buffer_law buf input (zlen d) Hok Hi) as (buf' & input' & R & Hok' & Hi' & Hbuf & Hin); [lia | rewrite Hb, zlen_app; lia|].
  assert (Htake : ztake (zlen d) (bq_bytes buf) = d /\ bq_bytes buf = d ++ zdrop (zlen d) (bq_bytes buf)).
  { assert (Ht : ztake (zlen d) (bq_bytes buf) = d).
    { rewrite <- (ztake_app_le (zlen d) (bq_bytes buf) future) by lia. rewrite Hw, ztake_app_le, ztake_ge by lia. done. }
    split; [done|]. rewrite <- Ht at 1. by rewrite zdrop_take. }
  destruct Htake as [Ht Hd]. unfold chunk_done, with_chunks. cbn [input_buffer ntoread]. rewrite R. cbn [mbind option_bind].
  exists input', buf'. split; [done|]. rewrite Hbuf. split_and!; [done | by rewrite zlen_zdrop by lia | | ].
  - rewrite Hd, <- app_assoc in Hw. by apply app_inv_head in Hw.
  - split; [done|]. by rewrite Hin, Hb, Ht, concat_snoc, app_assoc.
Qed.

Lemma chunks_loop_ok fuel : forall req buf future, bq_ok buf -> chunks_inv req (bq_bytes buf ++ future) -> zlen (bq_bytes buf) < Z.of_nat fuel ->
  outcome_ok buf future (handle_chunked_loop None fuel req buf).
Proof.
  induction fuel as [|fuel IH]; intros req buf future Hok HI Hf; [pose proof (zlen_nonneg (bq_bytes buf)); lia|]. cbn [handle_chunked_loop].
  destruct (bq_length_law buf Hok) as [-> Hsmall]. assert (Hfut : zlen (bq_bytes buf) = 0 -> future <> []).
  { intros Hz%zlen_nil. rewrite Hz in HI. intros ->. by apply inv_nonempty in HI. }
  destruct (Z.eqb_spec (zlen (bq_bytes buf)) 0) as [Hz|Hnz]; [eexists _, _, _; split; [done|]; split_and!; (done || auto || lia)|].
  replace (EV_SSIZE_MAX <? _) with false by (unfold INT_MAX, EV_SSIZE_MAX in *; lia).
  assert (Hlater : forall req1 buf1, bq_ok buf1 -> chunks_inv req1 (bq_bytes buf1 ++ future) -> zlen (bq_bytes buf1) < zlen (bq_bytes buf) ->
    outcome_ok buf future (handle_chunked_loop None fuel req1 buf1)).
  { intros req1 buf1 Hok1 HI1 Hlt. apply (outcome_later buf buf1); [lia|]. apply IH; (done || lia). }
  inversion HI as [read rest pre input n Hds Hc Hn Hp Hr Hw|read d rest input Hds Hc Hr Hw]; subst req; symmetry in Hw; cbn [with_chunks ntoread].
  - replace (n <? 0) with true by lia. cbn iota.
    destruct (first_line read rest pre Hds Hp) as (line & after & Hl & Ht & Hcase). rewrite Hl in Hw. destruct (text_no_newline _ Ht) as [Hnl Hnul].
    destruct (readln_stream buf future line after Hok Hnl Hw) as [(R & _ & Hfu)|(buf1 & R & Hok1 & Hw1 & Hz1)]; rewrite R; cbn [mbind option_bind].
    + eexists _, _, _. split; [done|]. by split_and!.
    + rewrite (cstr_text _ Hnul). pose proof (zlen_nonneg line). destruct Hcase as [[-> ->]|(_ & k & -> & Hk & Hkr & Hcase)].
      * change (zlen [] =? 0) with true. cbn iota. apply Hlater; [done | | lia]. rewrite Hw1.
        by apply (before_size read rest [] input n Hds Hc); [|left].
      * destruct (printf_x_line k ltac:(lia)) as (_ & Hxne & _). replace (zlen (printf_x k) =? 0) with false by (symmetry; apply Z.eqb_neq; by rewrite zlen_nil).
        rewrite chunk_size_x by done. cbn [with_chunks body_size evcon]. destruct (size_accepted read rest k Hds) as (E1 & E2 & E3); [lia|].
        rewrite E1, Hcon. cbn [mbind option_bind]. rewrite E2, E3. destruct Hcase as [(-> & -> & ->)|(d & rest' & -> & Hk0 & -> & ->)].
        -- cbn [Z.eqb]. eexists _, _, _. split; [done|]. split_and!; [done | lia|]. exists input. rewrite app_nil_r in Hds. subst read. split_and!; [|done|done].
           unfold with_chunks. cbn. by rewrite Hcon, Z.add_0_r.
        -- rewrite (proj2 (Z.eqb_neq _ _) Hk0). apply Hlater; [done | | lia]. rewrite Hw1.
           pose proof (in_chunk read d rest' input Hds Hc) as HI'. rewrite concat_snoc, zlen_app in HI'. unfold with_chunks in *. cbn in *. by rewrite Hcon in HI'.
  - pose proof (zlen_nonneg d). assert (Hd : d <> []) by (pose proof Hne as Hd; rewrite Hds in Hd; apply Forall_app in Hd as [_ Hd]; by apply Forall_cons in Hd as [? _]).
    assert (Hd0 : zlen d <> 0) by by rewrite zlen_nil. replace (zlen d <? 0) with false by lia. cbn iota.
    pose proof (sizes _ _ Hds) as Hs. cbn [concat] in Hs. rewrite zlen_app in Hs. pose proof (zlen_nonneg (concat read)). pose proof (zlen_nonneg (concat rest)). pose proof (zlen_nonneg (bq_bytes (input_buffer req0))).
    replace (EV_SSIZE_MAX <? zlen d) with false by (unfold INT_MAX, EV_SSIZE_MAX in *; lia). cbn iota.
    destruct ((0 <? zlen d) && (zlen (bq_bytes buf) <? zlen d)) eqn:Eshort.
    + eexists _, _, _. split; [done|]. split_and!; try done. intros ->. rewrite app_nil_r in Hw. rewrite Hw, zlen_app in Eshort. pose proof (zlen_nonneg (13 :: 10 :: after_chunks rest)). lia.
    + destruct (chunk_taken read d rest input buf future Hds Hc Hok Hw ltac:(lia)) as (input' & buf' & R & Hok' & Hz' & Hw' & Hc').
      rewrite R. cbn [mbind option_bind]. apply Hlater; [done | | lia]. rewrite Hw'. apply (before_size (read ++ [d]) rest [13; 10] input' (-1)); [by rewrite <- app_assoc | done | lia | by right].
Qed.

Lemma chunked_reads : reads (evhttp_handle_chunked_read None) chunks_inv chunks_done.
Proof.
  intros req buf future Hok HI _. unfold evhttp_handle_chunked_read. destruct (bq_length_law buf Hok) as [-> _]. apply chunks_loop_ok; [done | done | lia].
Qed.
End Chunks.

(** * Request lines are read back, and what is written

    The first line that is written for a request is parsed to the same method,
    URI and version; the bytes that the writing functions put out. *)
(** ** Methods and versions. *)
Lemma method_parsed type m : evhttp_method type = Some m -> parse_method m = type /\ 32 ∉ m /\ forallb text_char m = true.
Proof.
  unfold evhttp_method. repeat case_if; intros [= <-]; repeat match goal with E : (_ =? _) = true |- _ => apply Z.eqb_eq in E end; subst;
    (split; [reflexivity|]; split; [apply (bool_decide_unpack _); vm_compute; exact I | reflexivity]).
Qed.
Definition version_text (mj mi : Z) : list Z := str "HTTP/" ++ printf_i mj ++ [46] ++ printf_i mi.
Lemma version_parsed {Q} (req : evhttp_request Q) mj mi : 0 <= mj <= 1 -> 0 <= mi < 128 ->
  evhttp_parse_http_version (version_text mj mi) req = (0, {| req with major := mj; minor := mi |}).
Proof.
  intros Hmj Hmi. unfold evhttp_parse_http_version, version_text, printf_i. replace (mj <? 0) with false by lia. replace (mi <? 0) with false by lia.
  change (strip_prefix (str "HTTP/") (str "HTTP/" ++ ?s)) with (Some s). cbn [mbind option_bind].
  rewrite scan_d_printed by (done || lia). cbn [mbind option_bind app strip_prefix Z.eqb Pos.eqb]. rewrite <- (app_nil_r (printf_d mi)), scan_d_printed by (done || lia).
  cbn [mbind option_bind]. replace (1 <? mj) with false by lia. unfold to_char, s8, u8. rewrite !Z.mod_small by lia.
  replace (mj <? 128) with true by lia. by replace (mi <? 128) with true by lia.
Qed.
Lemma version_chars mj mi : 0 <= mj -> 0 <= mi -> 32 ∉ version_text mj mi /\ forallb text_char (version_text mj mi) = true.
Proof.
  intros Hmj Hmi. assert (HF : Forall (fun c => c <> 32 /\ text_char c = true) (version_text mj mi)).
  { unfold version_text, printf_i. replace (mj <? 0) with false by lia. replace (mi <? 0) with false by lia. repeat (apply Forall_app; split).
    - repeat constructor; done.
    - eapply Forall_impl; [by apply printf_d_chars|]. cbn. unfold text_char. lia.
    - repeat constructor; done.
    - eapply Forall_impl; [by apply printf_d_chars|]. cbn. unfold text_char. lia. }
  rewrite Forall_forall in HF. split; [intros Hin; by apply HF in Hin as [? _]|]. apply forallb_forall. intros c Hc. apply list_elem_of_In in Hc. by apply HF.
Qed.

Definition request_line (m u : list Z) (mj mi : Z) : list Z := m ++ [32] ++ u ++ [32] ++ version_text mj mi.

Section Request.
Context (mm : Z -> bool) (mm_ok : forall n, mm n = true) `{ByteQueueLaws Q}.
Implicit Types (req : evhttp_request Q).

(** A URI that a request line may carry. *)
Record uri_sent (u : list Z) (elems : evhttp_uri) : Prop := {
  us_text : forallb text_char u = true;
  us_space : 32 ∉ u;
  us_parsed : evhttp_uri_parse_with_flags true u EVHTTP_URI_NONCONFORMANT = Some elems
}.
Definition request_read req (type : Z) (u : list Z) (elems : evhttp_uri) (mj mi flags : Z) : evhttp_request Q :=
  {| req with req_type := type; major := mj; minor := mi; req_uri := Some u; uri_elems := Some elems; req_flags := flags |}.
Lemma request_line_parsed req con http type m u elems mj mi : evcon req = Some con -> http_server con = Some http ->
  evhttp_method type = Some m -> uri_sent u elems -> 0 <= mj <= 1 -> 0 <= mi < 128 ->
  exists flags, evhttp_parse_request_line mm true req (request_line m u mj mi) = Some (0, request_read req type u elems mj mi flags) /\
    (flags = req_flags req \/ flags = Z.lor (req_flags req) EVHTTP_PROXY_REQUEST).
Proof.
  intros Hcon Hhttp (Hm & Hms & _)%method_parsed [Hut Hus Hup] Hmj Hmi. destruct (version_chars mj mi ltac:(lia) ltac:(lia)) as [Hv _].
  unfold evhttp_parse_request_line, request_line. cbn [app]. rewrite (strsep_first 32 m) by done. rewrite (strsep_first 32 u) by done. rewrite (strsep_absent 32) by done.
  rewrite version_parsed by done. change (0 <? 0) with false. cbn iota. rewrite mm_ok. cbn [negb]. cbn iota. cbn [uri_elems]. rewrite Hup, Hm. unfold request_read.
  destruct (scheme elems) as [sch|]; [|eexists; split; [done | by left]]. destruct (host elems) as [h|]; [|eexists; split; [done | by left]].
  case_if; [|eexists; split; [done | by left]]. cbn [evcon]. rewrite Hcon. cbn [mbind option_bind]. rewrite Hhttp. cbn [mbind option_bind].
  case_if; eexists; (split; [done|]); auto.
Qed.

(** The first line in a stream. *)
Definition line_inv req (line rest : list Z) (s : evhttp_request Q) (w : list Z) : Prop := s = req /\ w = line ++ 13 :: 10 :: rest.
Definition line_done req1 (line rest : list Z) (s : evhttp_request Q) (w : list Z) : Prop := s = {| req1 with headers_size := zlen line |} /\ w = rest.
Lemma firstline_reads req con http type m u elems mj mi rest : evcon req = Some con -> http_server con = Some http -> req_kind req = EVHTTP_REQUEST ->
  evhttp_method type = Some m -> uri_sent u elems -> 0 <= mj <= 1 -> 0 <= mi < 128 -> zlen (request_line m u mj mi) + 1 <= max_headers_size con ->
  exists flags, (flags = req_flags req \/ flags = Z.lor (req_flags req) EVHTTP_PROXY_REQUEST) /\
    reads (evhttp_parse_firstline_ mm true) (line_inv req (request_line m u mj mi) rest)
      (line_done (request_read req type u elems mj mi flags) (request_line m u mj mi) rest).
Proof.
  intros Hcon Hhttp Hkind Hm Hu Hmj Hmi Hlen. set (line := request_line m u mj mi) in *.
  assert (Ht : forallb text_char line = true).
  { destruct (method_parsed _ _ Hm) as (_ & _ & H1). destruct (version_chars mj mi ltac:(lia) ltac:(lia)) as [_ H2]. destruct Hu as [H3 _ _].
    unfold line, request_line. rewrite !forallb_app, H1, H2, H3. done. }
  destruct (text_no_newline _ Ht) as [Hnl Hnul].
  destruct (request_line_parsed {| req with headers_size := zlen line |} con http type m u elems mj mi Hcon Hhttp Hm Hu Hmj Hmi) as (flags & HP & Hf).
  exists flags. split; [exact Hf|]. intros s buf future Hok [-> Hw] _. unfold evhttp_parse_firstline_.
  destruct (readln_stream buf future line rest Hok Hnl Hw) as [(R & Hle & Hfu)|(buf1 & R & Hok1 & Hw1 & Hz)]; rewrite R; cbn [mbind option_bind].
  - destruct (bq_length_law buf Hok) as [-> _]. unfold over_limit. rewrite Hcon. replace (_ <? _) with false by lia. eexists _, _, _. split; [done|]. by split_and!.
  - assert (Hov : over_limit req (zlen line) = false) by (unfold over_limit; rewrite Hcon; lia). rewrite Hov, (cstr_text _ Hnul).
    assert (HK : forall (A : Type) (a b : A), match req_kind req with EVHTTP_REQUEST => a | EVHTTP_RESPONSE => b end = a) by (intros; by rewrite Hkind).
    cbn [req_kind]. fold line in HP. rewrite HK, HP. cbn [mbind option_bind]. eexists _, _, _. split; [done|]. split_and!; [done | pose proof (zlen_nonneg line); lia | by split].
Qed.
End Request.

(** * What is written

    The bytes that the header and the chunks of a message put into the output. *)
Section Write.
Context (mm : Z -> bool) (mm_ok : forall n, mm n = true) (now : tm) `{ByteQueueLaws Q}.
Implicit Types (req : evhttp_request Q) (output : Q).

Lemma header_lines_cons kv hs : header_lines (kv :: hs) = fst kv ++ str ": " ++ snd kv ++ [13; 10] ++ header_lines hs.
Proof. unfold header_lines. cbn [flat_map]. unfold field_line. by rewrite <- !app_assoc. Qed.
Lemma put_headers_ok hs : forall output, bq_ok output -> zlen (bq_bytes output) + zlen (header_lines hs) <= INT_MAX ->
  exists output', put_headers output hs = Some output' /\ bq_ok output' /\ bq_bytes output' = bq_bytes output ++ header_lines hs.
Proof.
  induction hs as [|[key value] hs IH]; intros output Hok Hlen; cbn [put_headers].
  { exists output. cbn. by rewrite app_nil_r. }
  rewrite header_lines_cons in *. cbn [fst snd] in *. rewrite !zlen_app in Hlen. pose proof (zlen_nonneg (header_lines hs)).
  destruct (ignore_add_printf output (key ++ str ": " ++ value ++ [13; 10]) Hok) as (out1 & -> & Hok1 & Hb1); [rewrite !zlen_app; change (zlen [13; 10]) with 2 in *; lia|]. cbn [mbind option_bind].
  destruct (IH out1 Hok1) as (out2 & -> & Hok2 & Hb2); [rewrite Hb1, !zlen_app; change (zlen [13; 10]) with 2 in *; lia|]. exists out2. rewrite Hb2, Hb1, <- !app_assoc. done.
Qed.

(** ** The header of a request. *)
Definition sent_headers req : headers :=
  let hs := snd (evhttp_remove_header (output_headers req) (str "Proxy-Connection")) in
  match evhttp_find_header hs (str "Content-Length") with
  | None => if (req_type req =? EVHTTP_REQ_POST) || (req_type req =? EVHTTP_REQ_PUT)
            then hs ++ [(str "Content-Length", printf_d (zlen (bq_bytes (output_buffer req))))] else hs
  | Some _ => hs
  end.
Lemma digits_field n : 0 <= n -> field_ok (str "Content-Length", printf_d n) = true.
Proof.
  intros Hn. pose proof (printf_d_chars n Hn) as HC. unfold field_ok. cbn [fst snd]. rewrite !andb_true_iff, bool_decide_eq_true. split_and!; try done.
  - apply forallb_forall. intros c Hc. apply list_elem_of_In in Hc. rewrite Forall_forall in HC. apply HC in Hc. unfold text_char. lia.
  - destruct (printf_d n) as [|c l]; [done|]. apply Forall_cons in HC as [Hc _]. cbn. lia.
  - unfold evutil_rtrim_lws_. rewrite <- (reverse_involutive (printf_d n)) at 2. f_equal. assert (HR : Forall (fun c => 48 <= c <= 57) (reverse (printf_d n))) by by apply Forall_reverse.
    destruct (reverse (printf_d n)) as [|c l]; [done|]. apply Forall_cons in HR as [Hc _]. cbn. by replace ((c =? 32) || (c =? 9)) with false by lia.
Qed.
Lemma remove_header_fields (P : list Z * list Z -> Prop) hs key : Forall P hs -> Forall P (snd (evhttp_remove_header hs key)).
Proof.
  induction 1 as [|[k v] hs Hkv HF IH]; [constructor|]. cbn. case_if; [done|]. destruct (evhttp_remove_header hs key) as [r l]. cbn in *. by constructor.
Qed.
Lemma sent_headers_ok req : Forall (fun kv => field_ok kv = true) (output_headers req) -> Forall (fun kv => field_ok kv = true) (sent_headers req).
Proof.
  intros HF. unfold sent_headers. apply (remove_header_fields _ _ (str "Proxy-Connection")) in HF. set (hs := snd _) in *. cbv zeta.
  destruct (evhttp_find_header _ _); [done|]. case_if; [|done]. apply Forall_app. split; [done|]. constructor; [|constructor]. apply digits_field, zlen_nonneg.
Qed.

Definition body_sent req : list Z := match evhttp_have_expect req false with CONTINUE => [] | _ => bq_bytes (output_buffer req) end.
Lemma make_request_ok con req output m u mj mi : req_kind req = EVHTTP_REQUEST -> evhttp_method (req_type req) = Some m -> req_uri req = Some u ->
  major req = mj -> minor req = mi -> bq_ok output -> bq_ok (output_buffer req) ->
  let req' := {| req with output_headers := sent_headers req |} in
  let bytes := request_line m u mj mi ++ [13; 10] ++ header_lines (sent_headers req) ++ [13; 10] ++ body_sent req' in
  zlen (bq_bytes output ++ bytes) <= INT_MAX ->
  exists req2 output', evhttp_make_header mm now con req output = Some (req2, output') /\ bq_ok output' /\ bq_bytes output' = bq_bytes output ++ bytes.
Proof.
  intros Hkind Hm Hu Hmj Hmi Hok Hbody req' bytes Hlen. unfold evhttp_make_header. rewrite Hkind. unfold evhttp_make_header_request. rewrite Hm, Hu. cbn [mbind option_bind]. cbv zeta. change (default (str "NULL") (Some m)) with m.
  unfold bytes in Hlen. rewrite !zlen_app in Hlen. pose proof (zlen_nonneg (header_lines (sent_headers req))). pose proof (zlen_nonneg (body_sent req')). change (zlen [13; 10]) with 2 in *.
  assert (Hline : m ++ [32] ++ u ++ str " HTTP/" ++ printf_i (major req) ++ [46] ++ printf_i (minor req) ++ [13; 10] = request_line m u mj mi ++ [13; 10]).
  { unfold request_line, version_text. rewrite Hmj, Hmi, <- !app_assoc. done. }
  rewrite Hline. destruct (ignore_add_printf output (request_line m u mj mi ++ [13; 10]) Hok) as (out1 & -> & Hok1 & Hb1); [rewrite zlen_app; change (zlen [13; 10]) with 2 in *; lia|]. cbn [mbind option_bind].
  destruct (bq_length_law (output_buffer req) Hbody) as [Hbl Hbsmall].
  match goal with |- context [put_headers _ (output_headers ?r)] => assert (Hr : r = req') end.
  { unfold req', sent_headers. cbv zeta. rewrite Hbl, ?Hu. destruct (evhttp_find_header _ _); [done|]. case_if; [|done]. unfold add_header. rewrite add_header_ok; [done | done | done | ]. 
    apply valid_value_text. by destruct (field_parts _ (digits_field (zlen (bq_bytes (output_buffer req))) (zlen_nonneg _))) as (_ & _ & _ & ? & _). }
  rewrite Hr. clear Hr. cbn [output_headers req'].
  destruct (put_headers_ok (sent_headers req) out1 Hok1) as (out2 & -> & Hok2 & Hb2); [rewrite Hb1, !zlen_app; change (zlen [13; 10]) with 2 in *; lia|]. cbn [mbind option_bind].
  destruct (ignore_add out2 [13; 10] Hok2) as (out3 & -> & Hok3 & Hb3); [rewrite Hb2, Hb1, !zlen_app; change (zlen [13; 10]) with 2 in *; lia|]. cbn [mbind option_bind].
  assert (Hb : bq_bytes out3 = bq_bytes output ++ request_line m u mj mi ++ [13; 10] ++ header_lines (sent_headers req) ++ [13; 10]) by (rewrite Hb3, Hb2, Hb1, <- !app_assoc; done).
  unfold bytes. unfold body_sent in *. destruct (evhttp_have_expect req' false).
  2: { eexists _, _. split; [done|]. split; [done|]. by rewrite app_nil_r. }
  all: change (output_buffer req') with (output_buffer req) in *; rewrite Hbl; destruct (c_true (zlen (bq_bytes (output_buffer req)))) eqn:Ez.
  1,3: destruct (bq_add_buffer_law out3 (output_buffer req) Hok3 Hbody) as (out4 & body & -> & Hok4 & _ & Hb4 & _); [rewrite Hb, !zlen_app; change (zlen [13; 10]) with 2 in *; lia|]; cbn [mbind option_bind];
    eexists _, _; split; [done|]; split; [done|]; rewrite Hb4, Hb, <- !app_assoc; done.
  all: eexists _, _; split; [done|]; split; [done|]; unfold c_true in Ez; assert (Hn : bq_bytes (output_buffer req) = []) by (apply zlen_nil; lia); rewrite Hn, app_nil_r; done.
Qed.

(** ** Chunks. *)
Fixpoint send_chunks req output (bufs : list Q) : option Q :=
  match bufs with [] => Some output | buf :: bufs => '(output, _, _) ← evhttp_send_reply_chunk req output buf; send_chunks req output bufs end.
Lemma send_chunk_ok req con output buf : evcon req = Some con -> chunked req = true -> evhttp_response_needs_body req = true -> bq_ok output -> bq_ok buf ->
  bq_bytes buf <> [] -> zlen (bq_bytes output ++ chunk (bq_bytes buf)) <= INT_MAX ->
  exists output' buf' effect, evhttp_send_reply_chunk req output buf = Some (output', buf', effect) /\ bq_ok output' /\ bq_bytes output' = bq_bytes output ++ chunk (bq_bytes buf).
Proof.
  intros Hcon Hch Hneeds Hok Hokb Hne Hlen. unfold evhttp_send_reply_chunk. rewrite Hcon, Hneeds, Hch. destruct (bq_length_law buf Hokb) as [-> Hsmall].
  replace (zlen (bq_bytes buf) =? 0) with false by (symmetry; apply Z.eqb_neq; by rewrite zlen_nil). cbn [negb]. cbn iota. pose proof (zlen_nonneg (bq_bytes buf)).
  rewrite u32_small by (unfold INT_MAX in *; lia). unfold chunk in Hlen. rewrite !zlen_app in Hlen. change (zlen [13; 10]) with 2 in *.
  destruct (ignore_add_printf output (printf_x (zlen (bq_bytes buf)) ++ [13; 10]) Hok) as (out1 & -> & Hok1 & Hb1); [rewrite zlen_app; change (zlen [13; 10]) with 2 in *; lia|]. cbn [mbind option_bind].
  destruct (bq_add_buffer_law out1 buf Hok1 Hokb) as (out2 & buf2 & -> & Hok2 & _ & Hb2 & _); [rewrite Hb1, !zlen_app; change (zlen [13; 10]) with 2 in *; lia|]. cbn [mbind option_bind].
  destruct (ignore_add out2 [13; 10] Hok2) as (out3 & -> & Hok3 & Hb3); [rewrite Hb2, Hb1, !zlen_app; change (zlen [13; 10]) with 2 in *; lia|]. cbn [mbind option_bind].
  eexists _, _, _. split; [done|]. split; [done|]. rewrite Hb3, Hb2, Hb1. unfold chunk. by rewrite <- !app_assoc.
Qed.
Lemma send_chunks_ok req con bufs : evcon req = Some con -> chunked req = true -> evhttp_response_needs_body req = true ->
  Forall (fun buf => bq_ok buf /\ bq_bytes buf <> []) bufs -> forall output, bq_ok output -> zlen (bq_bytes output ++ chunks (map bq_bytes bufs)) <= INT_MAX ->
  exists output', send_chunks req output bufs = Some output' /\ bq_ok output' /\ bq_bytes output' = bq_bytes output ++ chunks (map bq_bytes bufs).
Proof.
  intros Hcon Hch Hneeds HF. induction HF as [|buf bufs [Hokb Hne] HF IH]; intros output Hok Hlen; cbn [send_chunks map].
  { exists output. cbn. by rewrite app_nil_r. }
  unfold chunks in *. cbn [map flat_map] in Hlen |- *. rewrite !zlen_app in Hlen. pose proof (zlen_nonneg (flat_map chunk (map bq_bytes bufs))).
  destruct (send_chunk_ok req con output buf) as (out1 & b1 & eff & -> & Hok1 & Hb1); try done; [rewrite zlen_app; change (zlen [13; 10]) with 2 in *; lia|]. cbn [mbind option_bind].
  destruct (IH out1 Hok1) as (out2 & -> & Hok2 & Hb2); [rewrite Hb1, !zlen_app; change (zlen [13; 10]) with 2 in *; lia|]. exists out2. rewrite Hb2, Hb1, <- app_assoc. done.
Qed.
End Write.
