(* ===== verification/HttpProps.v ===== *)
(** * Properties of HTTP messages *)
From Stdlib Require Import Ascii String.
From S2P Require Import Prelude Event Buffer BufferInv BufferOps BufferSearch BufferLines BufferFind ByteQueue CString Uri UriCodec HttpMsg HttpParse HttpSend HttpStream HttpChunks.
Open Scope Z_scope.

(** ** Patterns of hosts. *)

(** A star stands for any characters, but not at the end of a name. *)
Definition same_char (ignorecase : bool) (c n : Z) : Prop := c = n \/ (ignorecase = true /\ EVUTIL_TOLOWER_ c = EVUTIL_TOLOWER_ n).
Inductive host_matches (ignorecase : bool) : list Z -> list Z -> Prop :=
  | matches_nil : host_matches ignorecase [] []
  | matches_char c n pattern name : c <> 42 -> same_char ignorecase c n -> host_matches ignorecase pattern name ->
      host_matches ignorecase (c :: pattern) (n :: name)
  | matches_star pattern skipped name : name <> [] -> host_matches ignorecase pattern name ->
      host_matches ignorecase (42 :: pattern) (skipped ++ name).

Lemma tolower_nonzero c : is_char c -> EVUTIL_TOLOWER_ c <> 0.
Proof.
  intros Hc. pose proof (all_chars_ok (fun c => (c =? 0) || negb (EVUTIL_TOLOWER_ c =? 0)) ltac:(vm_compute; reflexivity) c ltac:(unfold is_char in Hc; lia)) as HA.
  cbn beta in HA. unfold is_char in Hc. lia.
Qed.
Lemma star_loop pattern ic : forall name, (forall name, is_cstring name -> prefix_suffix_match pattern name ic = true <-> host_matches ic pattern name) -> is_cstring name ->
  prefix_suffix_match (42 :: pattern) name ic = true <-> exists skipped rest, name = skipped ++ rest /\ rest <> [] /\ host_matches ic pattern rest.
Proof.
  intros name IH Hname. cbn [prefix_suffix_match Z.eqb Pos.eqb]. induction Hname as [|n name Hn Hname IHn].
  { split; [done|]. intros (sk & r & E & Hr & _). symmetry in E. by apply app_eq_nil in E as [_ ->]. }
  rewrite orb_true_iff, IHn, IH by (by constructor). split.
  - intros [Hm|(sk & r & -> & Hr & Hm)]; [by exists [], (n :: name) | by exists (n :: sk), r].
  - intros (sk & r & E & Hr & Hm). destruct sk as [|x sk]; [left; cbn in E; by subst r|]. injection E as -> ->. right. by exists sk, r.
Qed.
Lemma match_iff pattern ic : is_cstring pattern -> forall name, is_cstring name -> prefix_suffix_match pattern name ic = true <-> host_matches ic pattern name.
Proof.
  induction 1 as [|c pattern Hc Hp IH]; intros name Hname.
  { destruct name; cbn; (split; [try done; intros _; constructor | intros HM; by inversion HM]). }
  destruct (Z.eq_dec c 42) as [->|Hne].
  { rewrite (star_loop pattern ic name IH Hname). split; [intros (sk & r & -> & Hr & Hm); by constructor|].
    intros HM. inversion HM; subst; [done|]. by eexists _, _. }
  cbn [prefix_suffix_match]. rewrite (proj2 (Z.eqb_neq _ _) Hne). destruct name as [|n name]; cbn [at_ nth tail].
  { replace (negb (c =? 0) && _) with true; [split; [done | intros HM; inversion HM; subst; (done || by destruct skipped)]|]. symmetry.
    pose proof (tolower_nonzero c Hc). change (EVUTIL_TOLOWER_ 0) with 0. unfold is_char in Hc. rewrite (proj2 (Z.eqb_neq c 0)), (proj2 (Z.eqb_neq (EVUTIL_TOLOWER_ c) 0)) by lia. by rewrite orb_true_r. }
  apply Forall_cons in Hname as [Hn Hname]. destruct (negb (c =? n) && _) eqn:E.
  - split; [done|]. intros HM. inversion HM; subst; [|done]. match goal with HS : same_char _ _ _ |- _ => destruct HS as [->|[-> HT]] end;
      [by rewrite Z.eqb_refl in E | by rewrite HT, Z.eqb_refl, andb_false_r in E].
  - rewrite (IH name Hname). split; [|intros HM; by inversion HM; subst]. intros Hm. constructor; [done | | done].
    destruct (Z.eqb_spec c n) as [->|]; [by left|]. destruct ic; [|done]. right. split; [done|]. cbn in E. apply negb_false_iff, Z.eqb_eq in E. done.
Qed.
Lemma no_trailing_star ic pattern name : host_matches ic (pattern ++ [42]) name -> False.
Proof.
  intros HM. remember (pattern ++ [42]) as p eqn:Ep. revert pattern Ep. induction HM as [|c n p name Hc _ HM IH|p skipped name Hne HM IH]; intros pattern Ep.
  - by destruct pattern.
  - destruct pattern as [|x pattern]; cbn in Ep; injection Ep as -> ->; [done | by apply (IH pattern)].
  - destruct pattern as [|x pattern]; cbn in Ep; [injection Ep as ->; by inversion HM | injection Ep as <- ->; by apply (IH pattern)].
Qed.

(** prefix_suffix_match matches the names that the pattern describes, with
    or without regard to case; a star stands for any characters, but a pattern
    that ends in one matches no name. *)
Theorem prefix_suffix_match_glob pattern name ignorecase : is_cstring pattern -> is_cstring name ->
  (prefix_suffix_match pattern name ignorecase = true <-> host_matches ignorecase pattern name) /\
  (forall p, pattern = p ++ [42] -> prefix_suffix_match pattern name ignorecase = false).
Proof.
  intros Hp Hn. split; [by apply match_iff|]. intros p E. destruct (prefix_suffix_match pattern name ignorecase) eqn:Em; [|done].
  apply (match_iff pattern ignorecase Hp name Hn) in Em. rewrite E in Em. by apply no_trailing_star in Em.
Qed.

Section Messages.
Context `{ByteQueueLaws Q}.

(** C33: whatever arrives and however it is split, reading header fields ends
    and never keeps more bytes of them than the limit of the connection, nor an
    LF or a NUL; while more is expected, what waits in the input is
    below the limit, too. *)
Theorem evhttp_headers_bounded mm (con : evhttp_connection) (req : evhttp_request Q) (buf : Q) pieces :
  max_headers_size con + INT_MAX <= EV_SIZE_MAX -> bq_ok buf -> reading con req -> zlen (bq_bytes buf ++ concat pieces) <= INT_MAX ->
  exists status req' buf' left, deliver (evhttp_parse_headers_ mm) req buf pieces = Some (status, req', buf', left) /\
    bq_ok buf' /\ stored (input_headers req') <= max_headers_size con /\ clean_fields (input_headers req') /\
    match status with
    | ALL_DATA_READ => headers_size req' <= max_headers_size con
    | MORE_DATA_EXPECTED => left = [] /\ (pieces <> [] -> headers_size req' + zlen (bq_bytes buf') <= max_headers_size con)
    | REQUEST_CANCELED => False
    | DATA_CORRUPTED | DATA_TOO_LONG => True
    end.
Proof.
  intros Hmax Hok HR Hlen. destruct (deliver_bounded mm con Hmax pieces req buf Hok HR Hlen) as (st & req' & buf' & left & E & [Hl Hc] & Hok' & HS).
  exists st, req', buf', left. split_and!; try done. destruct st; try done; [apply HS|]. destruct HS as [_ HS]. split; [|done]. by apply (deliver_more_left _ _ _ _ _ _ _ E).
Qed.

(** A whole header, as it is read: the first line, then the fields. *)
Definition read_header mm : evhttp_request Q + evhttp_request Q -> Q -> option (message_read_status * (evhttp_request Q + evhttp_request Q) * Q) :=
  run_then (evhttp_parse_firstline_ mm true) (evhttp_parse_headers_ mm).

(** C31: the request that evhttp_make_header writes is read, however it is
    split, as a request of the same type, URI and version with the same header
    fields, and what follows its header is left in the input.  Memory lasts; the
    URI has no blank or line end and can be parsed, the version is 0 or 1 and
    below 128 behind the point; the keys of the fields have no colon or line
    end and do not begin with a blank, the values have no line end and are
    trimmed ([field_ok]); and the header fits the limit of the connection that
    reads it. *)
Theorem evhttp_request_roundtrip mm now con (creq : evhttp_request Q) output scon http (sreq : evhttp_request Q) buf m u elems more :
  (forall n, mm n = true) ->
  req_kind creq = EVHTTP_REQUEST -> evhttp_method (req_type creq) = Some m -> req_uri creq = Some u -> uri_sent u elems ->
  0 <= major creq <= 1 -> 0 <= minor creq < 128 -> Forall (fun kv => field_ok kv = true) (output_headers creq) ->
  bq_ok output -> bq_bytes output = [] -> bq_ok (output_buffer creq) ->
  evcon sreq = Some scon -> http_server scon = Some http -> req_kind sreq = EVHTTP_REQUEST -> input_headers sreq = [] -> bq_ok buf -> bq_bytes buf = [] ->
  let hs := sent_headers creq in
  let line := request_line m u (major creq) (minor creq) in
  let body := body_sent {| creq with output_headers := hs |} in
  zlen line + zlen (header_lines hs) + 2 <= max_headers_size scon -> max_headers_size scon <= EV_SIZE_MAX ->
  zlen line + zlen (header_lines hs) + zlen body + zlen more + 4 <= INT_MAX ->
  exists creq' output', evhttp_make_header mm now con creq output = Some (creq', output') /\
    forall pieces, concat pieces = bq_bytes output' ++ more ->
      exists sreq' buf' left, deliver (read_header mm) (inl sreq) buf pieces = Some (ALL_DATA_READ, inr sreq', buf', left) /\
        req_type sreq' = req_type creq /\ req_uri sreq' = Some u /\ uri_elems sreq' = Some elems /\
        major sreq' = major creq /\ minor sreq' = minor creq /\ input_headers sreq' = hs /\ bq_bytes buf' ++ concat left = body ++ more.
Proof.
  intros mm_ok Hkind Hm Hu Hus Hmj Hmi Hfields Hok Hnil Hbody Hcon Hhttp Hskind Hsh Hbok Hbnil hs line body Hlim Hmax Hlen.
  pose proof (zlen_nonneg line). pose proof (zlen_nonneg (header_lines hs)). pose proof (zlen_nonneg body). pose proof (zlen_nonneg more).
  destruct (make_request_ok mm mm_ok now con creq output m u (major creq) (minor creq) Hkind Hm Hu eq_refl eq_refl Hok Hbody) as (creq' & output' & E & Hok' & Hb').
  { rewrite Hnil, app_nil_l, !zlen_app. change (zlen [13; 10]) with 2. fold line hs body. lia. }
  exists creq', output'. split; [exact E|]. intros pieces Hp. fold hs line body in Hb'. rewrite Hb', Hnil in Hp. cbn [app] in Hp.
  assert (Hfs : Forall (fun kv => field_ok kv = true) hs) by by apply sent_headers_ok.
  assert (Hp' : concat pieces = line ++ 13 :: 10 :: block (body ++ more) hs) by (rewrite Hp; unfold block; rewrite <- app_assoc; cbn [app]; rewrite <- app_assoc; reflexivity).
  destruct (firstline_reads mm mm_ok sreq scon http (req_type creq) m u elems (major creq) (minor creq) (block (body ++ more) hs)) as (flags & _ & R1); try done.
  { fold line. lia. }
  fold line in R1. set (sreq1 := {| (request_read sreq (req_type creq) u elems (major creq) (minor creq) flags) with headers_size := zlen line |}).
  pose proof (parse_headers_reads mm mm_ok (body ++ more) sreq1 hs Hfs) as R2.
  assert (R3 : forall s w, line_done (request_read sreq (req_type creq) u elems (major creq) (minor creq) flags) line (block (body ++ more) hs) s w -> fields_inv (body ++ more) sreq1 hs s w).
  { intros s w [-> ->]. exists [], hs. split_and!; try done.
    - unfold with_fields. cbn [line_lengths foldr]. unfold sreq1. cbn. by rewrite app_nil_r, Z.add_0_r.
    - unfold under_limit, sreq1, request_read, block. cbn [headers_size evcon]. rewrite Hcon, zlen_app, !zlen_cons. lia. }
  pose proof (reads_then _ _ _ _ _ _ R1 R2 R3) as RT.
  destruct (deliver_ok _ _ _ pieces RT (inl sreq) buf Hbok) as (s' & buf' & left & ED & Hok2 & HD).
  - intros ->. cbn in Hp'. by destruct line.
  - rewrite Hbnil. cbn [app then_inv]. by split.
  - rewrite Hbnil. cbn [app]. rewrite Hp', zlen_app, !zlen_cons. unfold block. rewrite zlen_app, !zlen_cons, zlen_app. lia.
  - destruct s' as [s'|s']; [done|]. cbn [then_done] in HD. destruct HD as [-> Hw]. exists (with_fields sreq1 hs), buf', left. split; [exact ED|].
    unfold with_fields, sreq1, request_read. cbn. rewrite Hsh. split_and!; done.
Qed.

(** C32: a body that is sent in chunks is read, however it is split, as the data
    that were sent, and the end of the message is left for the trailer. *)
Theorem evhttp_chunked_roundtrip (sreq : evhttp_request Q) (output : Q) (bufs : list Q) con (creq : evhttp_request Q) buf :
  evcon sreq <> None -> chunked sreq = true -> evhttp_response_needs_body sreq = true -> bq_ok output -> bq_bytes output = [] ->
  Forall (fun d => bq_ok d /\ bq_bytes d <> []) bufs ->
  evcon creq = Some con -> ntoread creq < 0 -> 0 <= body_size creq -> bq_ok (input_buffer creq) -> bq_ok buf -> bq_bytes buf = [] ->
  let data := concat (map bq_bytes bufs) in
  body_size creq + zlen data <= max_body_size con -> max_body_size con <= EV_SIZE_MAX ->
  zlen (bq_bytes (input_buffer creq)) + zlen data <= INT_MAX -> zlen (chunks (map bq_bytes bufs)) + 5 <= INT_MAX ->
  exists output1 sreq' output', send_chunks sreq output bufs = Some output1 /\ evhttp_send_reply_end sreq output1 = Some (sreq', output', WriteBuffer true) /\
    forall pieces, concat pieces = bq_bytes output' ->
      exists creq' buf' left, deliver (evhttp_handle_chunked_read None) creq buf pieces = Some (ALL_DATA_READ, creq', buf', left) /\
        bq_bytes (input_buffer creq') = bq_bytes (input_buffer creq) ++ data /\ body_size creq' = body_size creq + zlen data /\
        bq_bytes buf' ++ concat left = [13; 10].
Proof.
  intros Hscon Hch Hneeds Hok Hnil HF Hcon Hn Hbs Hin Hbok Hbnil data Hlim Hmax Hroom Hlen. destruct (evcon sreq) as [scon|] eqn:Es; [|done].
  set (ds := map bq_bytes bufs) in *. destruct (send_chunks_ok sreq scon bufs Es Hch Hneeds HF output Hok) as (out1 & E1 & Hok1 & Hb1).
  { rewrite Hnil. cbn [app]. fold ds. lia. }
  rewrite Hnil in Hb1. cbn [app] in Hb1. fold ds in Hb1. exists out1. unfold evhttp_send_reply_end. rewrite Es, Hch.
  cbn [chunked]. destruct (ignore_add out1 [48; 13; 10; 13; 10] Hok1) as (out2 & E2 & Hok2 & Hb2); [rewrite Hb1; change (zlen [48; 13; 10; 13; 10]) with 5; lia|].
  rewrite E2. cbn [mbind option_bind]. eexists _, out2. split; [exact E1|]. split; [reflexivity|]. intros pieces Hp. rewrite Hb2, Hb1 in Hp.
  assert (Hne : Forall (fun d => d <> []) ds) by (unfold ds; apply Forall_map; eapply Forall_impl; [exact HF | by intros ? [_ ?]]).
  assert (Hinv : chunks_inv [13; 10] creq ds creq (after_chunks [13; 10] ds)).
  { pose proof (before_size [13; 10] creq ds [] ds [] (input_buffer creq) (ntoread creq) eq_refl) as HI. cbn [concat app] in HI. change (zlen []) with 0 in HI.
    replace creq with (with_chunks creq (input_buffer creq) 0 (ntoread creq)) at 2; [apply HI; auto|].
    - split; [done|]. by rewrite app_nil_r.
    - unfold with_chunks. rewrite Z.add_0_r. by destruct creq. }
  pose proof (chunked_reads [13; 10] con creq ds Hcon Hne Hbs Hlim Hmax Hroom) as HR.
  destruct (deliver_ok _ _ _ pieces HR creq buf Hbok) as (creq' & buf' & left & ED & _ & HD).
  - intros ->. cbn in Hp. symmetry in Hp. by apply app_eq_nil in Hp as [_ ?].
  - by rewrite Hbnil, Hp.
  - rewrite Hbnil. cbn [app]. rewrite Hp, zlen_app. change (zlen [48; 13; 10; 13; 10]) with 5. lia.
  - destruct HD as (input & -> & [_ Hib] & Hw). eexists _, buf', left. split; [exact ED|]. by split_and!.
Qed.
End Messages.
