(* ===== verification/HttpDemo.v ===== *)
(** * HTTP messages: the properties at concrete inputs, and where the code and
    its documentation differ *)
From Stdlib Require Import Ascii String.
From S2P Require Import Prelude Event Buffer BufferInv BufferOps BufferSearch BufferLines BufferFind BufferTidy BufferQueue BufferProps ByteQueue CString Uri UriCodec HttpMsg HttpParse HttpSend HttpStream HttpChunks HttpProps.
Open Scope Z_scope.

#[local] Existing Instance evbuffer_queue.
#[local] Instance demo_http_queue : ByteQueue evbuffer := evbuffer_queue no_fail.
Lemma demo_http_mem n : no_fail n = true.
Proof. done. Qed.
#[local] Instance demo_http_laws : ByteQueueLaws evbuffer := evbuffer_queue_laws no_fail demo_http_mem.
Lemma demo_http_open : open_buffer evbuffer_new.
Proof. split; try done; first [by apply evbuffer_wfb_ok | by apply neatb_ok]. Qed.
Lemma str_text s : forallb (fun c => (0 <? c) && (c <? 256)) (str s) = true -> is_cstring (str s).
Proof.
  intros Hs. unfold is_cstring. rewrite Forall_forall. rewrite forallb_forall in Hs. intros c Hc. apply list_elem_of_In, Hs in Hc. unfold is_char. lia.
Qed.

(** ** A client and a server. *)
Definition demo_http : evhttp := Evhttp [] [] [] None None 7 None.
Definition demo_con (server : bool) : evhttp_connection := Connection 100 1000 (if server then Some demo_http else None).
Definition demo_request (server : bool) (uri : option (list Z)) (hs : headers) (body : evbuffer) : evhttp_request evbuffer :=
  Request (Some (demo_con server)) 0 [] hs None EVHTTP_REQUEST (if server then 0 else EVHTTP_REQ_POST) 0 0 uri None 1 1 0 None evbuffer_new 0 false false body.
Definition demo_tm : tm := Tm 0 0 0 1 0 70 4.
Definition demo_body : evbuffer := default evbuffer_new (ignore (bq_add evbuffer_new (str "x=1"))).
Lemma demo_body_open : open_buffer demo_body.
Proof. split; try done; first [by apply evbuffer_wfb_ok; vm_compute | by apply neatb_ok; vm_compute]. Qed.
Definition demo_elems : evhttp_uri := Uri 1 None None None (-1) (Some (str "/a")) (Some (str "b")) None.

(** ** Witnesses. *)
Lemma prefix_suffix_match_glob_witness :
  (prefix_suffix_match (str "*.Example.com") (str "www.example.COM") true = true <-> host_matches true (str "*.Example.com") (str "www.example.COM")) /\
  (forall p, str "*.Example.com" = p ++ [42] -> prefix_suffix_match (str "*.Example.com") (str "www.example.COM") true = false).
Proof. apply (prefix_suffix_match_glob (str "*.Example.com") (str "www.example.COM") true); by apply str_text. Defined.

Lemma demo_reading : reading (demo_con true) (demo_request true None [] evbuffer_new).
Proof. split; [done | by compute | by compute | constructor]. Qed.
Lemma evhttp_headers_bounded_witness :
  exists status req' buf' left, deliver (evhttp_parse_headers_ no_fail) (demo_request true None [] evbuffer_new) evbuffer_new [str "a: b"; [13; 10; 32]] = Some (status, req', buf', left) /\
    bq_ok buf' /\ stored (input_headers req') <= 100 /\ clean_fields (input_headers req') /\
    match status with
    | ALL_DATA_READ => headers_size req' <= 100
    | MORE_DATA_EXPECTED => left = [] /\ ([str "a: b"; [13; 10; 32]] <> [] -> headers_size req' + zlen (bq_bytes buf') <= 100)
    | REQUEST_CANCELED => False
    | DATA_CORRUPTED | DATA_TOO_LONG => True
    end.
Proof.
  apply (evhttp_headers_bounded no_fail (demo_con true) (demo_request true None [] evbuffer_new) evbuffer_new [str "a: b"; [13; 10; 32]]).
  - by compute.
  - exact demo_http_open.
  - exact demo_reading.
  - by compute.
Defined.

Lemma evhttp_request_roundtrip_witness :
  let creq := demo_request false (Some (str "/a?b")) [(str "Host", str "h")] demo_body in
  let hs := sent_headers creq in
  let body := body_sent {| creq with output_headers := hs |} in
  exists creq' output', evhttp_make_header no_fail demo_tm (demo_con false) creq evbuffer_new = Some (creq', output') /\
    forall pieces, concat pieces = bq_bytes output' ++ str "more" ->
      exists sreq' buf' left, deliver (read_header no_fail) (inl (demo_request true None [] evbuffer_new)) evbuffer_new pieces = Some (ALL_DATA_READ, inr sreq', buf', left) /\
        req_type sreq' = EVHTTP_REQ_POST /\ req_uri sreq' = Some (str "/a?b") /\ uri_elems sreq' = Some demo_elems /\
        major sreq' = 1 /\ minor sreq' = 1 /\ input_headers sreq' = hs /\ bq_bytes buf' ++ concat left = body ++ str "more".
Proof.
  apply (evhttp_request_roundtrip no_fail demo_tm (demo_con false) (demo_request false (Some (str "/a?b")) [(str "Host", str "h")] demo_body) evbuffer_new
    (demo_con true) demo_http (demo_request true None [] evbuffer_new) evbuffer_new (str "POST") (str "/a?b") demo_elems (str "more")); try reflexivity; try by compute.
  - split; [reflexivity | by apply (bool_decide_unpack _) | reflexivity].
  - repeat constructor.
  - exact demo_http_open.
  - exact demo_body_open.
  - exact demo_http_open.
Defined.

Definition demo_chunked (server : bool) : evhttp_request evbuffer :=
  Request (Some (demo_con server)) 0 [] [] None EVHTTP_RESPONSE EVHTTP_REQ_GET 0 0 None None 1 1 200 None evbuffer_new (-1) true false evbuffer_new.
Lemma evhttp_chunked_roundtrip_witness :
  exists output1 sreq' output', send_chunks (demo_chunked true) evbuffer_new [demo_body; demo_body] = Some output1 /\
    evhttp_send_reply_end (demo_chunked true) output1 = Some (sreq', output', WriteBuffer true) /\
    forall pieces, concat pieces = bq_bytes output' ->
      exists creq' buf' left, deliver (evhttp_handle_chunked_read None) (demo_chunked false) evbuffer_new pieces = Some (ALL_DATA_READ, creq', buf', left) /\
        bq_bytes (input_buffer creq') = bq_bytes evbuffer_new ++ concat (map bq_bytes [demo_body; demo_body]) /\
        body_size creq' = 0 + zlen (concat (map bq_bytes [demo_body; demo_body])) /\ bq_bytes buf' ++ concat left = [13; 10].
Proof.
  apply (evhttp_chunked_roundtrip (demo_chunked true) evbuffer_new [demo_body; demo_body] (demo_con false) (demo_chunked false) evbuffer_new); try reflexivity; try by compute.
  - exact demo_http_open.
  - constructor; [|constructor; [|constructor]]; (split; [exact demo_body_open | discriminate]).
  - exact demo_http_open.
  - exact demo_http_open.
Defined.

(** ** Where the code and its documentation differ. *)

(** A value may hold several ends of lines, of which only the last needs to be
    followed by a blank: an empty line, which ends the header, among them. *)
Lemma valid_value_ends_header :
  evhttp_header_is_valid_value (str "a" ++ [13; 10; 13; 10] ++ str " b") = true /\
  snd (evhttp_add_header no_fail [] (str "k") (str "a" ++ [13; 10; 13; 10] ++ str " b")) = [(str "k", str "a" ++ [13; 10; 13; 10] ++ str " b")].
Proof. by split. Qed.
(** The phrases of redirections miss 306. *)
Lemma redirection_phrases_shifted :
  evhttp_response_phrase_internal 306 = Some (str "Temporary Redirect") /\ evhttp_response_phrase_internal 307 = Some (str "Redirection").
Proof. by split. Qed.
(** A star at the end, as in shells, matches nothing. *)
Lemma trailing_star_no_match : prefix_suffix_match (str "www.*") (str "www.example.com") true = false /\ prefix_suffix_match (str "*") (str "localhost") true = false.
Proof. by split. Qed.
(** The size of a chunk may be followed by a blank, not by the semicolon of an
    extension; a line without a number that begins with a blank ends the body. *)
Lemma chunk_size_lines : chunk_size (str "5;name=value") = None /\ chunk_size (str "5 junk") = Some 5 /\ chunk_size (str " zz") = Some 0 /\ chunk_size (str "0x") = None /\ chunk_size (str "0x5") = Some 5.
Proof. by split_and!. Qed.
(** Versions with signs are read, and cut down to a char. *)
Lemma version_with_sign : evhttp_parse_http_version (str "HTTP/-255.1") (demo_chunked true) = (0, {| (demo_chunked true) with major := 1; minor := 1 |}) /\
  fst (evhttp_parse_http_version (str "HTTP/1. 1") (demo_chunked true)) = 0.
Proof. by split. Qed.
(** A continuation of a field may hold a CR that evhttp_add_header refuses. *)
Lemma continuation_unchecked :
  parse_header_line no_fail [(str "k", str "v")] (32 :: str "a" ++ [13] ++ str "b") = (0, [(str "k", str "v a" ++ [13] ++ str "b")]) /\
  evhttp_add_header no_fail [] (str "k") (str "a" ++ [13] ++ str "b") = (-1, []).
Proof. by split. Qed.
