(* ===== verification/Dns.v ===== *)
(** * Names and messages of DNS (evdns.c)

    The wire format: names with compression, requests of clients and the
    replies they get, requests to servers and the replies they make.  A packet
    is a list of bytes.  A result [None] is an access outside a packet or a
    buffer; [mm] says whether an allocation of so many bytes succeeds. *)
From Stdlib Require Import Ascii String.
From S2P Require Import Prelude Event Buffer CString.
Open Scope Z_scope.

Definition MAX_V4_ADDRS : Z := 32.
Definition MAX_V6_ADDRS : Z := 32.
Definition MAX_LABELS : Z := 128.
Definition TYPE_A : Z := 1.
Definition TYPE_CNAME : Z := 5.
Definition TYPE_SOA : Z := 6.
Definition TYPE_PTR : Z := 12.
Definition TYPE_AAAA : Z := 28.
Definition CLASS_INET : Z := 1.
Definition EVDNS_FLAGS_AA : Z := 0x400.
Definition EVDNS_FLAGS_RD : Z := 0x080.
Definition EVDNS_ANSWER_SECTION : Z := 0.
Definition EVDNS_AUTHORITY_SECTION : Z := 1.
Definition EVDNS_ADDITIONAL_SECTION : Z := 2.
Definition DNS_ERR_NOTEXIST : Z := 3.
Definition DNS_ERR_NOTIMPL : Z := 4.

(** ** Memory. *)
Definition slice (p : list Z) (j n : Z) : option (list Z) :=
  if (0 <=? j) && (0 <=? n) && (j + n <=? zlen p) then Some (ztake n (zdrop j p)) else None.
Definition put (buf : list Z) (j : Z) (data : list Z) : option (list Z) :=
  if (0 <=? j) && (j + zlen data <=? zlen buf) then Some (ztake j buf ++ data ++ zdrop (j + zlen data) buf) else None.
(** Numbers in network order. *)
Definition be16 (x : Z) : list Z := [u16 x / 256; u16 x mod 256].
Definition be32 (x : Z) : list Z := be16 (u32 x / 65536) ++ be16 (u32 x mod 65536).
Definition of_be (l : list Z) : Z := fold_left (fun n b => n * 256 + b) l 0.

(** [goto err] of the macros that read, and its continuation. *)
Definition or_else {A B} (m : option (option A)) (err : option B) (k : A -> option B) : option B :=
  match m with None => None | Some None => err | Some (Some a) => k a end.
Notation "'get' x ':=' m 'or' e ; k" := (or_else m e (fun x => k)) (at level 100, x strict pattern, m at level 99, e at level 99, k at level 200, right associativity).

Section Read.
Context (packet : list Z) (length_ : Z).

Definition get_be (n j : Z) : option (option (Z * Z)) :=
  if length_ <? j + n then Some None else bytes ← slice packet j n; Some (Some (of_be bytes, j + n)).
Definition GET32 := get_be 4.
Definition GET16 := get_be 2.
Definition GET8 (j : Z) : option (option (Z * Z)) :=
  if length_ <=? j then Some None else bytes ← slice packet j 1; Some (Some (of_be bytes, j + 1)).

(** Names.  Every turn adds a label to [out] or follows a pointer: [fuel] is two
    more than the lengths of both.  The result is the index behind the name and
    what is in front of its NUL. *)
Fixpoint name_parse_loop (fuel : nat) (name_out_len j name_end ptr_count : Z) (out : list Z) : option (option (Z * list Z)) :=
  match fuel with
  | O => None
  | S fuel =>
      get (label_len, j) := GET8 j or Some None;
      if label_len =? 0 then
        if name_out_len <=? zlen out then Some None
        else Some (Some (if name_end <? 0 then j else name_end, out))
      else if c_true (Z.land label_len 0xc0) then
        get (ptr_low, j) := GET8 j or Some None;
        let name_end := if name_end <? 0 then j else name_end in
        let j := Z.shiftl (Z.land label_len 0x3f) 8 + ptr_low in
        if (j <? 0) || (length_ <=? j) then Some None
        else if length_ <? ptr_count + 1 then Some None
        else name_parse_loop fuel name_out_len j name_end (ptr_count + 1) out
      else if 63 <? label_len then Some None
      else
        let dot := negb (zlen out =? 0) in
        if dot && (name_out_len <=? zlen out + 1) then Some None
        else
          let out := if dot then out ++ [46] else out in
          if name_out_len <=? zlen out + label_len then Some None
          else if length_ <? j + label_len then Some None
          else
            label ← slice packet j label_len;
            name_parse_loop fuel name_out_len (j + label_len) name_end ptr_count (out ++ label)
  end.
Definition name_parse (idx name_out_len : Z) : option (option (Z * list Z)) :=
  name_parse_loop (S (S (Z.to_nat length_ + Z.to_nat name_out_len))) name_out_len idx (-1) 0 [].
End Read.

(** ** Writing. *)
Section Write.
Context (mm : Z -> bool).

(** Labels with their positions. *)
Definition dnslabel_table := list (list Z * Z).
Definition dnslabel_table_get_pos (table : dnslabel_table) (label : list Z) : Z :=
  match list_find (fun entry => fst entry = label) table with Some (_, (_, pos)) => pos | None => -1 end.
Definition dnslabel_table_add (table : dnslabel_table) (label : list Z) (pos : Z) : Z * dnslabel_table :=
  if zlen table =? MAX_LABELS then (-1, table)
  else if negb (mm (zlen label + 1)) then (-1, table)
  else (0, table ++ [(label, pos)]).

(** Numbers at [j] of [buf], unless they overflow. *)
Definition append (n : Z) (encode : Z -> list Z) (buf : list Z) (buf_len j x : Z) : option (option (list Z * Z)) :=
  if buf_len <? j + n then Some None else buf ← put buf j (encode x); Some (Some (buf, j + n)).
Definition APPEND16 := append 2 be16.
Definition APPEND32 := append 4 be32.

(** One label at [j]: its length and its characters. *)
Definition put_label (buf : list Z) (j : Z) (label : list Z) : option (list Z * Z) :=
  buf ← put buf j [u8 (zlen label)]; buf ← put buf (j + 1) label; Some (buf, j + 1 + zlen label).
(** The table may be a null pointer.  Every turn takes a label of [name]: [fuel]
    is one more than its characters. *)
Fixpoint labels_loop (fuel : nat) (buf : list Z) (buf_len j : Z) (name : list Z) (table : option dnslabel_table) : option (Z * list Z * option dnslabel_table) :=
  match fuel with
  | O => None
  | S fuel =>
      let ref := match table with Some t => dnslabel_table_get_pos t name | None => -1 end in
      if 0 <=? ref then get (buf, j) := APPEND16 buf buf_len j (Z.lor ref 0xc000) or Some (-2, buf, table); Some (j, buf, table)
      else
        let '(label, rest) := match split_at 46 name with Some (label, rest) => (label, Some rest) | None => (name, None) end in
        if 63 <? zlen label then Some (-1, buf, table)
        else if buf_len <? u64 (j + zlen label + 1) then Some (-2, buf, table)
        else
          let table := (fun t => snd (dnslabel_table_add t name j)) <$> table in
          '(buf, j) ← put_label buf j label;
          match rest with
          | Some name => labels_loop fuel buf buf_len j name table
          | None =>
              last ← (if j =? 0 then Some [] else slice buf (j - 1) 1);
              if (j =? 0) || c_true (of_be last) then buf ← put buf j [0]; Some (j + 1, buf, table)
              else Some (j, buf, table)
          end
  end.
(** [name_len] is the length of [name]. *)
Definition dnsname_to_labels (buf : list Z) (buf_len j : Z) (name : list Z) (name_len : Z) (table : option dnslabel_table) : option (Z * list Z * option dnslabel_table) :=
  if 255 <? name_len then Some (-2, buf, table) else labels_loop (S (length name)) buf buf_len j name table.

(** Requests. *)
Definition evdns_request_len (name_len : Z) : Z := 96 + name_len + 2 + 4.
Definition evdns_request_data_build (name : list Z) (name_len trans_id type class : Z) (buf : list Z) (buf_len : Z) : option (Z * list Z) :=
  get (buf, j) := APPEND16 buf buf_len 0 trans_id or Some (-1, buf);
  get (buf, j) := APPEND16 buf buf_len j 0x0100 or Some (-1, buf);
  get (buf, j) := APPEND16 buf buf_len j 1 or Some (-1, buf);
  get (buf, j) := APPEND16 buf buf_len j 0 or Some (-1, buf);
  get (buf, j) := APPEND16 buf buf_len j 0 or Some (-1, buf);
  get (buf, j) := APPEND16 buf buf_len j 0 or Some (-1, buf);
  '(j, buf, _) ← dnsname_to_labels buf buf_len j name name_len None;
  if j <? 0 then Some (j, buf)
  else
    get (buf, j) := APPEND16 buf buf_len j type or Some (-1, buf);
    get (buf, j) := APPEND16 buf buf_len j class or Some (-1, buf);
    Some (j, buf).
End Write.

(** ** Requests and replies of a client. *)

(** The parts of a request that matter for its reply.  [put_cname_in_ptr] may be
    a null pointer, and may point to one. *)
Record request := Request {
  packet : list Z;
  request_type : Z;
  trans_id : Z;
  put_cname_in_ptr : option (option (list Z))
}.
(** The union: addresses of either kind, or a name. *)
Record reply := Reply { reply_type : Z; have_answer : bool; addresses : list (list Z); ptr_name : list Z }.
Record evdns_base := Base { req_heads : list (list request); global_randomize_case : bool }.

(** The list of requests in the place of [id] is walked from its head. *)
Definition request_find_from_trans_id (base : evdns_base) (id : Z) : option (option request) :=
  head ← req_heads base !! Z.to_nat (id mod zlen (req_heads base));
  Some (snd <$> list_find (fun req => trans_id req = id) head).
Definition strcmp_eq (s1 s2 : list Z) : bool := bool_decide (cstr s1 = cstr s2).
Fixpoint cut (n : nat) (k : nat) (l : list Z) : list (list Z) := match n with O => [] | S n => take k l :: cut n k (drop k l) end.

Section Reply.
Context (mm : Z -> bool) (HOST_NAME_MAX : Z) (randomize_case : bool) (packet_ : list Z) (length_ : Z).
Implicit Types req : request.

Definition same_name (s1 s2 : list Z) : bool :=
  if randomize_case then evutil_ascii_strcasecmp (cstr s1) (cstr s2) =? 0 else strcmp_eq s1 s2.
Fixpoint questions_loop (n : nat) req (j : Z) (name_matches : bool) : option (option (Z * bool)) :=
  match n with
  | O => Some (Some (j, name_matches))
  | S n =>
      get (j', tmp_name) := name_parse packet_ length_ j 256 or Some None;
      get (_, cmp_name) := name_parse (packet req) (zlen (packet req)) j 256 or Some None;
      let j := j' + 4 in
      if length_ <? j then Some None else questions_loop n req j (name_matches || same_name tmp_name cmp_name)
  end.

(** What is in front of the data of a record: type, class, ttl and length. *)
Definition rr_header (j : Z) : option (option (Z * Z * Z * Z * Z)) :=
  get (j, _) := name_parse packet_ length_ j 256 or Some None;
  get (type, j) := GET16 packet_ length_ j or Some None;
  get (class, j) := GET16 packet_ length_ j or Some None;
  get (ttl, j) := GET32 packet_ length_ j or Some None;
  get (datalength, j) := GET16 packet_ length_ j or Some None;
  Some (Some (type, class, ttl, datalength, j)).

(** The addresses of a record, as many as there is room for, and whether it is full. *)
Definition copy_addresses (size max : Z) (rep : reply) (j datalength : Z) : option (option (bool * reply * Z)) :=
  let addrtocopy := Z.min (max - zlen (addresses rep)) (datalength / size) in
  if length_ <? j + size * addrtocopy then Some None
  else
    bytes ← slice packet_ j (size * addrtocopy);
    let addrs := addresses rep ++ cut (Z.to_nat addrtocopy) (Z.to_nat size) bytes in
    Some (Some (zlen addrs =? max, {| rep with addresses := addrs; have_answer := true |}, j + size * addrtocopy)).
Fixpoint answers_loop (n : nat) req (rep : reply) (ttl_r j : Z) : option (request * option (reply * Z * Z)) :=
  match n with
  | O => Some (req, Some (rep, ttl_r, j))
  | S n =>
      let err := Some (req, None) in
      get (type, class, ttl, datalength, j) := rr_header j or err;
      if (type =? TYPE_A) && (class =? CLASS_INET) then
        if negb (request_type req =? TYPE_A) then answers_loop n req rep ttl_r (j + datalength)
        else if c_true (Z.land datalength 3) then err
        else
          get (full, rep, j) := copy_addresses 4 MAX_V4_ADDRS rep j datalength or err;
          let ttl_r := Z.min ttl_r ttl in
          if (full : bool) then Some (req, Some (rep, ttl_r, j)) else answers_loop n req rep ttl_r j
      else if (type =? TYPE_PTR) && (class =? CLASS_INET) then
        if negb (request_type req =? TYPE_PTR) then answers_loop n req rep ttl_r (j + datalength)
        else
          get (j, name) := name_parse packet_ length_ j HOST_NAME_MAX or err;
          Some (req, Some ({| rep with ptr_name := name; have_answer := true |}, Z.min ttl_r ttl, j))
      else if type =? TYPE_CNAME then
        match put_cname_in_ptr req with
        | Some None =>
            get (j, cname) := name_parse packet_ length_ j HOST_NAME_MAX or err;
            let cname := cstr cname in
            let req := {| req with put_cname_in_ptr := Some (if mm (zlen cname + 1) then Some cname else None) |} in
            answers_loop n req rep ttl_r j
        | _ => answers_loop n req rep ttl_r (j + datalength)
        end
      else if (type =? TYPE_AAAA) && (class =? CLASS_INET) then
        if negb (request_type req =? TYPE_AAAA) then answers_loop n req rep ttl_r (j + datalength)
        else if c_true (Z.land datalength 15) then err
        else
          get (full, rep, j) := copy_addresses 16 MAX_V6_ADDRS rep j datalength or err;
          let ttl_r := Z.min ttl_r ttl in
          if (full : bool) then Some (req, Some (rep, ttl_r, j)) else answers_loop n req rep ttl_r j
      else answers_loop n req rep ttl_r (j + datalength)
  end.
Fixpoint authority_loop (n : nat) (ttl_r j : Z) : option (option (Z * Z)) :=
  match n with
  | O => Some (Some (ttl_r, j))
  | S n =>
      get (type, class, ttl, datalength, j) := rr_header j or Some None;
      if (type =? TYPE_SOA) && (class =? CLASS_INET) then
        get (j, _) := name_parse packet_ length_ j 256 or Some None;
        get (j, _) := name_parse packet_ length_ j 256 or Some None;
        get (_, j) := GET32 packet_ length_ j or Some None;
        get (_, j) := GET32 packet_ length_ j or Some None;
        get (_, j) := GET32 packet_ length_ j or Some None;
        get (_, j) := GET32 packet_ length_ j or Some None;
        get (minimum, j) := GET32 packet_ length_ j or Some None;
        authority_loop n (Z.min (Z.min ttl_r ttl) minimum) j
      else authority_loop n ttl_r (j + datalength)
  end.

(** The call of [reply_handle], and what is returned. *)
Inductive reply_parsed := NoRequest | ReplyHandle (req : request) (flags ttl : Z) (rep : option reply).
Definition reply_body req (flags questions answers authority j : Z) : option (Z * reply_parsed) :=
  let err req := Some (-1, ReplyHandle req flags 0 None) in
  if c_true (Z.land flags 0x020f) && negb (Z.land flags 0x020f =? DNS_ERR_NOTEXIST) then err req
  else
    get (j, name_matches) := questions_loop (Z.to_nat questions) req j false or err req;
    if negb name_matches then err req
    else
      '(req, answered) ← answers_loop (Z.to_nat answers) req (Reply (request_type req) false [] []) 0xffffffff j;
      match answered with
      | None => err req
      | Some (rep, ttl_r, j) =>
          get (ttl_r, j) := (if have_answer rep then Some (Some (ttl_r, j)) else authority_loop (Z.to_nat authority) ttl_r j) or err req;
          Some (0, ReplyHandle req flags (if ttl_r =? 0xffffffff then 0 else ttl_r) (Some rep))
      end.
End Reply.
Definition reply_parse (mm : Z -> bool) (HOST_NAME_MAX : Z) (base : evdns_base) (packet_ : list Z) (length_ : Z) : option (Z * reply_parsed) :=
  let err := Some (-1, NoRequest) in
  get (id, j) := GET16 packet_ length_ 0 or err;
  get (flags, j) := GET16 packet_ length_ j or err;
  get (questions, j) := GET16 packet_ length_ j or err;
  get (answers, j) := GET16 packet_ length_ j or err;
  get (authority, j) := GET16 packet_ length_ j or err;
  get (additional, j) := GET16 packet_ length_ j or err;
  get req := request_find_from_trans_id base id or err;
  if negb (c_true (Z.land flags 0x8000)) then err
  else reply_body mm HOST_NAME_MAX (global_randomize_case base) packet_ length_ req flags questions answers authority j.

(** ** Requests to a server, and its replies. *)
Record evdns_server_question := Question { q_type : Z; q_class : Z; q_name : list Z }.
Record server_reply_item := Item {
  item_name : list Z;
  item_type : Z;
  item_class : Z;
  item_ttl : Z;
  is_name : bool;
  datalen : Z;
  item_data : option (list Z)
}.
Record server_request := ServerRequest {
  server_trans_id : Z;
  n_answer : Z;
  n_authority : Z;
  n_additional : Z;
  answer : list server_reply_item;
  authority : list server_reply_item;
  additional : list server_reply_item;
  response : option (list Z);
  server_flags : Z;
  questions : list evdns_server_question
}.
Definition sizeof_server_request : Z := 232.
Definition sizeof_evdns_server_question : Z := 12.
Definition sizeof_server_reply_item : Z := 40.

Section Server.
Context (mm : Z -> bool).
Implicit Types req : server_request.

Section Parse.
Context (packet_ : list Z) (length_ : Z).
Fixpoint request_questions (n : nat) (j : Z) (qs : list evdns_server_question) : option (option (list evdns_server_question)) :=
  match n with
  | O => Some (Some qs)
  | S n =>
      get (j, tmp_name) := name_parse packet_ length_ j 256 or Some None;
      get (type, j) := GET16 packet_ length_ j or Some None;
      get (class, j) := GET16 packet_ length_ j or Some None;
      let name := cstr tmp_name in
      if negb (mm (sizeof_evdns_server_question + zlen name)) then Some None
      else request_questions n j (qs ++ [Question type class name])
  end.
(** The call that answers: of the user, or an error of the library. *)
Inductive request_parsed := NoCall | UserCallback (req : server_request) | Respond (req : server_request) (err : Z).
Definition request_parse : option (Z * request_parsed) :=
  let err := Some (-1, NoCall) in
  get (id, j) := GET16 packet_ length_ 0 or err;
  get (flags, j) := GET16 packet_ length_ j or err;
  get (nquestions, j) := GET16 packet_ length_ j or err;
  get (answers, j) := GET16 packet_ length_ j or err;
  get (authority, j) := GET16 packet_ length_ j or err;
  get (additional, j) := GET16 packet_ length_ j or err;
  if c_true (Z.land flags 0x8000) then err
  else
    let flags := Z.land flags 0x0110 in
    if negb (mm sizeof_server_request) then err
    else if (nquestions =? 0) || negb (mm (8 * nquestions)) then err
    else
      get qs := request_questions (Z.to_nat nquestions) j [] or err;
      let req := ServerRequest id 0 0 0 [] [] [] None flags qs in
      if c_true (Z.land flags 0x7800) then Some (-1, Respond req DNS_ERR_NOTIMPL) else Some (0, UserCallback req).
End Parse.

(** What is given to a reply: [data] may be a null pointer, and holds
    [datalen] bytes unless it is a name. *)
Definition evdns_server_request_add_reply req (section : Z) (name : list Z) (type class ttl datalen : Z) (is_name : bool) (data : option (list Z)) : Z * server_request :=
  match response req with
  | Some _ => (-1, req)
  | None =>
      if negb (existsb (Z.eqb section) [EVDNS_ANSWER_SECTION; EVDNS_AUTHORITY_SECTION; EVDNS_ADDITIONAL_SECTION]) then (-1, req)
      else if negb (mm sizeof_server_reply_item) then (-1, req)
      else if negb (mm (zlen name + 1)) then (-1, req)
      else if match data with Some d => negb (mm (if is_name then zlen d + 1 else datalen)) | None => false end then (-1, req)
      else
        let item := Item name (u16 type) (u16 class) (u32 ttl) is_name
                      (match data with Some _ => u16 (if is_name then -1 else datalen) | None => 0 end) data in
        (0, if section =? EVDNS_ANSWER_SECTION then {| req with answer := answer req ++ [item]; n_answer := n_answer req + 1 |}
            else if section =? EVDNS_AUTHORITY_SECTION then {| req with authority := authority req ++ [item]; n_authority := n_authority req + 1 |}
            else {| req with additional := additional req ++ [item]; n_additional := n_additional req + 1 |})
  end.
(** [n] addresses at [addrs]. *)
Definition evdns_server_request_add_a_reply req (name : list Z) (n : Z) (addrs : option (list Z)) (ttl : Z) :=
  evdns_server_request_add_reply req EVDNS_ANSWER_SECTION name TYPE_A CLASS_INET ttl (n * 4) false addrs.
Definition evdns_server_request_add_aaaa_reply req (name : list Z) (n : Z) (addrs : option (list Z)) (ttl : Z) :=
  evdns_server_request_add_reply req EVDNS_ANSWER_SECTION name TYPE_AAAA CLASS_INET ttl (n * 16) false addrs.
(** The name of an address, given as a number in host order. *)
Definition in_addr_arpa (a : Z) : list Z :=
  printf_d (Z.land a 0xff) ++ [46] ++ printf_d (Z.land (Z.shiftr a 8) 0xff) ++ [46] ++ printf_d (Z.land (Z.shiftr a 16) 0xff) ++ [46] ++
  printf_d (Z.land (Z.shiftr a 24) 0xff) ++ str ".in-addr.arpa".
Definition evdns_server_request_add_ptr_reply req (in_ : option Z) (inaddr_name : option (list Z)) (hostname : option (list Z)) (ttl : Z) : Z * server_request :=
  match in_, inaddr_name with
  | Some _, Some _ | None, None => (-1, req)
  | Some a, None => evdns_server_request_add_reply req EVDNS_ANSWER_SECTION (in_addr_arpa a) TYPE_PTR CLASS_INET ttl (-1) true hostname
  | None, Some name => evdns_server_request_add_reply req EVDNS_ANSWER_SECTION name TYPE_PTR CLASS_INET ttl (-1) true hostname
  end.
Definition evdns_server_request_add_cname_reply req (name : list Z) (cname : option (list Z)) (ttl : Z) :=
  evdns_server_request_add_reply req EVDNS_ANSWER_SECTION name TYPE_CNAME CLASS_INET ttl (-1) true cname.
Definition evdns_server_request_set_flags req (flags : Z) : server_request :=
  {| req with server_flags := Z.lor (Z.land (server_flags req) (Z.lnot (Z.lor EVDNS_FLAGS_AA EVDNS_FLAGS_RD))) flags |}.

(** ** The response.  The buffer is not initialised. *)
Inductive formatted := Next (buf : list Z) (j : Z) (table : dnslabel_table) | Overflow (buf : list Z) | Negative (r : Z).
Definition buf_len : Z := 1500.
Definition put_name (buf : list Z) (j : Z) (name : list Z) (table : dnslabel_table) : option (Z * list Z * dnslabel_table) :=
  '(r, buf, t) ← dnsname_to_labels mm buf buf_len j name (zlen name) (Some table); Some (r, buf, default [] t).
Fixpoint put_questions (qs : list evdns_server_question) (buf : list Z) (j : Z) (table : dnslabel_table) : option formatted :=
  match qs with
  | [] => Some (Next buf j table)
  | q :: qs =>
      '(j, buf, table) ← put_name buf j (q_name q) table;
      if j <? 0 then Some (Negative j)
      else
        get (buf, j) := APPEND16 buf buf_len j (q_type q) or Some (Overflow buf);
        get (buf, j) := APPEND16 buf buf_len j (q_class q) or Some (Overflow buf);
        put_questions qs buf j table
  end.
Definition put_item (item : server_reply_item) (buf : list Z) (j : Z) (table : dnslabel_table) : option formatted :=
  '(r, buf, table) ← put_name buf j (item_name item) table;
  if r <? 0 then Some (Overflow buf)
  else
    get (buf, j) := APPEND16 buf buf_len r (item_type item) or Some (Overflow buf);
    get (buf, j) := APPEND16 buf buf_len j (item_class item) or Some (Overflow buf);
    get (buf, j) := APPEND32 buf buf_len j (item_ttl item) or Some (Overflow buf);
    if is_name item then
      name ← item_data item;
      '(r, buf, table) ← put_name buf (j + 2) name table;
      if r <? 0 then Some (Overflow buf)
      else buf ← put buf j (be16 (r - (j + 2))); Some (Next buf r table)
    else
      get (buf, j) := APPEND16 buf buf_len j (datalen item) or Some (Overflow buf);
      if buf_len <? j + datalen item then Some (Overflow buf)
      else buf ← put buf j (ztake (datalen item) (default [] (item_data item))); Some (Next buf (j + datalen item) table).
Fixpoint put_items (items : list server_reply_item) (buf : list Z) (j : Z) (table : dnslabel_table) : option formatted :=
  match items with
  | [] => Some (Next buf j table)
  | item :: items =>
      step ← put_item item buf j table;
      match step with Next buf j table => put_items items buf j table | _ => Some step end
  end.
(** The answers are freed, their numbers stay. *)
Definition server_request_free_answers req : server_request := {| req with answer := []; authority := []; additional := [] |}.
Definition truncated_response (buf : list Z) : option (list Z * Z) :=
  flags ← slice buf 2 1; buf ← put buf 2 [Z.lor (of_be flags) 0x02]; Some (buf, 512).
Definition evdns_server_request_format_response req (err : Z) (buf : list Z) : option (Z * server_request) :=
  if (err <? 0) || (15 <? err) then Some (-1, req)
  else
    let flags := u16 (Z.lor (server_flags req) (Z.lor 0x8000 err)) in
    step ← (get (buf, j) := APPEND16 buf buf_len 0 (server_trans_id req) or Some (Overflow buf);
            get (buf, j) := APPEND16 buf buf_len j flags or Some (Overflow buf);
            get (buf, j) := APPEND16 buf buf_len j (zlen (questions req)) or Some (Overflow buf);
            get (buf, j) := APPEND16 buf buf_len j (n_answer req) or Some (Overflow buf);
            get (buf, j) := APPEND16 buf buf_len j (n_authority req) or Some (Overflow buf);
            get (buf, j) := APPEND16 buf buf_len j (n_additional req) or Some (Overflow buf);
            step ← put_questions (questions req) buf j [];
            match step with
            | Next buf j table => put_items (answer req ++ authority req ++ additional req) buf j table
            | _ => Some step
            end);
    match step with
    | Negative r => Some (r, req)
    | _ =>
        '(buf, j) ← (match step with
                     | Next buf j _ => if 512 <? j then truncated_response buf else Some (buf, j)
                     | Overflow buf => truncated_response buf
                     | Negative _ => None
                     end);
        if mm j then bytes ← slice buf 0 j; Some (0, {| (server_request_free_answers req) with response := Some bytes |})
        else Some (-1, server_request_free_answers req)
    end.
End Server.
