(* ===== verification/DnsNames.v ===== *)
(** * Names in DNS packets

    Where a name is in a packet, that [name_parse] reads it there, and that it
    never reads outside the packet. *)
From Stdlib Require Import Ascii String.
From S2P Require Import Prelude Event Buffer BufferInv BufferOps BufferSearch BufferLines CString Uri UriCodec Dns.
Open Scope Z_scope.

(** ** Parts of packets. *)
Lemma slice_app a b c : slice (a ++ b ++ c) (zlen a) (zlen b) = Some b.
Proof.
  unfold slice. pose proof (zlen_nonneg a). pose proof (zlen_nonneg b). pose proof (zlen_nonneg c).
  rewrite !zlen_app. replace (_ && _) with true by lia. rewrite zdrop_app_ge, Z.sub_diag, zdrop_0, ztake_app_le, ztake_ge by lia. done.
Qed.
Lemma slice_some p j n bytes : slice p j n = Some bytes -> exists a c, p = a ++ bytes ++ c /\ zlen a = j /\ zlen bytes = n.
Proof.
  unfold slice. destruct (_ && _) eqn:E; [|done]. intros [= <-]. exists (ztake j p), (zdrop n (zdrop j p)).
  rewrite !zdrop_take. split_and!; [done | apply zlen_ztake; lia | apply zlen_ztake; rewrite zlen_zdrop; lia].
Qed.
Lemma slice_range p j n : 0 <= j -> 0 <= n -> j + n <= zlen p -> exists bytes, slice p j n = Some bytes.
Proof. intros. unfold slice. replace (_ && _) with true by lia. by eexists. Qed.
(** A longer packet has the same parts. *)
Lemma slice_frame p x j n bytes : slice p j n = Some bytes -> slice (p ++ x) j n = Some bytes.
Proof. intros (a & c & -> & <- & <-)%slice_some. rewrite <- !app_assoc. apply slice_app. Qed.
Lemma slice_bound p j n bytes : slice p j n = Some bytes -> 0 <= j /\ 0 <= n /\ j + n <= zlen p /\ zlen bytes = n.
Proof.
  intros (a & c & -> & <- & <-)%slice_some. rewrite !zlen_app. pose proof (zlen_nonneg a). pose proof (zlen_nonneg bytes). pose proof (zlen_nonneg c). lia.
Qed.

Section At.
Context (p : list Z).
Definition has (j : Z) (bytes : list Z) : Prop := slice p j (zlen bytes) = Some bytes.

Lemma get_be_has j bytes n : zlen bytes = n -> has j bytes -> get_be p (zlen p) n j = Some (Some (of_be bytes, j + n)).
Proof. intros <- Hs. pose proof (slice_bound _ _ _ _ Hs). unfold get_be. replace (_ <? _) with false by lia. by rewrite Hs. Qed.
Lemma GET8_has j b : has j [b] -> GET8 p (zlen p) j = Some (Some (b, j + 1)).
Proof. intros Hs. pose proof (slice_bound _ _ _ _ Hs) as HB. unfold GET8. change (zlen [b]) with 1 in HB. replace (_ <=? _) with false by lia. by rewrite Hs. Qed.
End At.
Lemma has_app a b c j : zlen a = j -> has (a ++ b ++ c) j b.
Proof. intros <-. apply slice_app. Qed.
Lemma has_end a b j : zlen a = j -> has (a ++ b) j b.
Proof. intros Hj. rewrite <- (app_nil_r b) at 1. by apply has_app. Qed.
Lemma has_split p j a b : has p j (a ++ b) -> has p j a /\ has p (j + zlen a) b.
Proof.
  intros (x & y & -> & <- & _)%slice_some. rewrite <- app_assoc. split; [by apply has_app|].
  rewrite (app_assoc x a). apply has_app, zlen_app.
Qed.

(** ** Where a name is. *)

(** At [pos] the name with labels [ls] starts and [fin] is behind it; pointers
    lead back, and what is in front of the first pointer lies below [lim]. *)
Inductive name_at (p : list Z) : Z -> Z -> list (list Z) -> Z -> Prop :=
  | name_end lim pos : has p pos [0] -> pos < lim -> name_at p lim pos [] (pos + 1)
  | name_label lim pos l ls fin : 1 <= zlen l <= 63 -> has p pos (zlen l :: l) -> name_at p lim (pos + 1 + zlen l) ls fin -> name_at p lim pos (l :: ls) fin
  | name_ptr lim lim' pos target ls fin' : 0 <= target < 16384 -> has p pos [192 + target / 256; target mod 256] ->
      lim' <= pos -> pos + 2 <= lim -> name_at p lim' target ls fin' -> name_at p lim pos ls (pos + 2).

Lemma name_at_frame p lim pos ls fin x lim2 : name_at p lim pos ls fin -> lim <= lim2 -> name_at (p ++ x) lim2 pos ls fin.
Proof.
  intros HN. revert lim2. induction HN; intros lim2 Hle.
  - constructor; [by apply slice_frame | lia].
  - constructor; [done | by apply slice_frame | by apply IHHN].
  - econstructor; [done | by apply slice_frame | done | lia | by apply IHHN].
Qed.
Lemma name_at_range p lim pos ls fin : name_at p lim pos ls fin -> 0 <= pos /\ pos < fin <= lim /\ fin <= zlen p.
Proof.
  induction 1 as [lim pos Hs|lim pos l ls fin Hl Hs|lim lim' pos target ls fin' Ht Hs].
  - apply slice_bound in Hs. change (zlen [0]) with 1 in Hs. lia.
  - apply slice_bound in Hs. lia.
  - apply slice_bound in Hs. change (zlen [_; _]) with 2 in Hs. lia.
Qed.

(** Labels behind one another. *)
Definition add_label (out l : list Z) : list Z := (if zlen out =? 0 then out else out ++ [46]) ++ l.
Definition dotted (ls : list (list Z)) : list Z := fold_left add_label ls [].
Lemma zlen_add_label out l : zlen out + zlen l <= zlen (add_label out l) <= zlen out + zlen l + 1.
Proof. unfold add_label. case_if; rewrite !zlen_app; change (zlen [46]) with 1; lia. Qed.
Lemma zlen_fold_labels ls : forall out, zlen out <= zlen (fold_left add_label ls out).
Proof. induction ls as [|l ls IH]; intros out; [done|]. cbn. pose proof (zlen_add_label out l). pose proof (zlen_nonneg l). specialize (IH (add_label out l)). lia. Qed.

Lemma name_parse_loop_reads p lim pos ls fin : name_at p lim pos ls fin -> forall fuel nol name_end ptr_count out,
  lim + ptr_count <= zlen p -> zlen (fold_left add_label ls out) < nol ->
  lim + zlen (fold_left add_label ls out) - zlen out < Z.of_nat fuel ->
  name_parse_loop p (zlen p) fuel nol pos name_end ptr_count out = Some (Some (if name_end <? 0 then fin else name_end, fold_left add_label ls out)).
Proof.
  induction 1 as [lim pos Hs Hp|lim pos l ls fin Hl Hs HN IH|lim lim' pos target ls fin' Ht Hs Hlim Hp HN IH]; intros fuel nol name_end ptr_count out Hptr Hnol Hf.
  - destruct fuel as [|fuel]; [apply slice_bound in Hs; cbn in Hf; lia|]. cbn [name_parse_loop fold_left] in *. rewrite (GET8_has _ _ _ Hs). cbn [or_else].
    cbn [Z.eqb]. by replace (nol <=? zlen out) with false by lia.
  - pose proof (name_at_range _ _ _ _ _ HN) as HR. cbn [fold_left] in *. pose proof (zlen_fold_labels ls (add_label out l)). pose proof (zlen_add_label out l).
    destruct fuel as [|fuel]; [lia|]. cbn [name_parse_loop]. change (zlen l :: l) with ([zlen l] ++ l) in Hs. apply has_split in Hs as [H1 H2]. change (zlen [zlen l]) with 1 in H2.
    rewrite (GET8_has _ _ _ H1). cbn [or_else]. replace (zlen l =? 0) with false by lia.
    assert (Hland : Z.land (zlen l) 192 = 0).
    { assert (HA : forallb (fun c => (63 <? c) || (Z.land c 192 =? 0)) all_chars = true) by (vm_compute; reflexivity). pose proof (all_chars_ok _ HA (zlen l) ltac:(lia)). cbn beta in *. lia. }
    rewrite Hland. cbn [c_true Z.eqb negb]. replace (63 <? zlen l) with false by lia.
    assert (Hout : (if negb (zlen out =? 0) then out ++ [46] else out) ++ l = add_label out l) by (unfold add_label; by destruct (zlen out =? 0)).
    assert (Hz : zlen (if negb (zlen out =? 0) then out ++ [46] else out) + zlen l = zlen (add_label out l)) by (rewrite <- zlen_app, Hout; done).
    replace (negb (zlen out =? 0) && (nol <=? zlen out + 1)) with false.
    2: { destruct (zlen out =? 0); [done|]. cbn [negb] in Hz. rewrite zlen_app in Hz. change (zlen [46]) with 1 in Hz. lia. }
    apply slice_bound in H2 as HB. replace (nol <=? _) with false by lia. replace (zlen p <? pos + 1 + zlen l) with false by lia. rewrite H2. cbn [mbind option_bind].
    rewrite Hout. apply IH; lia.
  - pose proof (name_at_range _ _ _ _ _ HN) as HR. pose proof (zlen_fold_labels ls out).
    destruct fuel as [|fuel]; [lia|]. cbn [name_parse_loop]. change [192 + target / 256; target mod 256] with ([192 + target / 256] ++ [target mod 256]) in Hs.
    apply has_split in Hs as [H1 H2]. change (zlen [192 + target / 256]) with 1 in H2. rewrite (GET8_has _ _ _ H1). cbn [or_else]. replace (192 + target / 256 =? 0) with false by lia.
    assert (HA : forallb (fun c => negb ((192 <=? c) && (c <? 256)) || (c_true (Z.land c 192) && (Z.land c 63 =? c - 192))) all_chars = true) by (vm_compute; reflexivity).
    pose proof (all_chars_ok _ HA (192 + target / 256) ltac:(lia)) as HB. cbn beta in HB. clear HA.
    apply orb_true_iff in HB as [HB|[Hc HB]%andb_true_iff]; [lia|]. rewrite Hc.
    rewrite (GET8_has _ _ _ H2). cbn [or_else]. assert (Hj : Z.shiftl (Z.land (192 + target / 256) 63) 8 + target mod 256 = target).
    { rewrite Z.shiftl_mul_pow2 by lia. lia. }
    rewrite Hj. apply slice_bound in H2 as HB2. change (zlen [target mod 256]) with 1 in HB2. replace ((target <? 0) || (zlen p <=? target)) with false by lia.
    replace (zlen p <? ptr_count + 1) with false by lia. rewrite IH by lia. f_equal. f_equal. f_equal.
    replace (pos + 1 + 1) with (pos + 2) by lia. destruct (name_end <? 0) eqn:E; [|by rewrite E]. by replace (pos + 2 <? 0) with false by lia.
Qed.
(** [name_parse] reads a name where it is. *)
Lemma name_parse_reads p lim pos ls fin nol : name_at p lim pos ls fin -> lim <= zlen p -> zlen (dotted ls) < nol ->
  name_parse p (zlen p) pos nol = Some (Some (fin, dotted ls)).
Proof.
  intros HN Hlim Hnol. unfold name_parse. rewrite (name_parse_loop_reads _ _ _ _ _ HN) with (nol := nol); [done | lia | done|].
  fold (dotted ls). change (zlen []) with 0. pose proof (zlen_nonneg (dotted ls)). pose proof (zlen_nonneg p). lia.
Qed.

(** ** No packet makes it read elsewhere. *)
Definition is_byte (b : Z) : Prop := 0 <= b < 256.
Lemma slice_bytes p j n bytes : Forall is_byte p -> slice p j n = Some bytes -> Forall is_byte bytes.
Proof. intros Hp (a & c & -> & _)%slice_some. by apply Forall_app in Hp as [_ [? _]%Forall_app]. Qed.
Lemma GET8_total p j : Forall is_byte p -> 0 <= j ->
  (GET8 p (zlen p) j = Some None /\ zlen p <= j) \/ exists b, is_byte b /\ GET8 p (zlen p) j = Some (Some (b, j + 1)) /\ j < zlen p.
Proof.
  intros Hp Hj. unfold GET8. destruct (zlen p <=? j) eqn:E; [left; split; [done | lia]|]. right.
  destruct (slice_range p j 1) as [bytes Hs]; [lia..|]. rewrite Hs. pose proof (slice_bytes _ _ _ _ Hp Hs) as Hb. apply slice_bound in Hs as (_ & _ & _ & Hl).
  destruct bytes as [|b [|? bytes]]; [done | | rewrite !zlen_cons in Hl; pose proof (zlen_nonneg bytes); lia]. exists b. apply Forall_cons in Hb as [Hb _].
  split; [exact Hb|]. split; [done | lia].
Qed.
Lemma get_be_total p n j : Forall is_byte p -> 0 <= j -> 0 <= n ->
  (get_be p (zlen p) n j = Some None /\ zlen p < j + n) \/ exists x, 0 <= x < 256 ^ n /\ get_be p (zlen p) n j = Some (Some (x, j + n)) /\ j + n <= zlen p.
Proof.
  intros Hp Hj Hn. unfold get_be. destruct (zlen p <? j + n) eqn:E; [left; split; [done | lia]|]. right.
  destruct (slice_range p j n) as [bytes Hs]; [lia..|]. rewrite Hs. pose proof (slice_bytes _ _ _ _ Hp Hs) as Hb. apply slice_bound in Hs as (_ & _ & _ & <-).
  exists (of_be bytes). split; [|split; [done | lia]]. unfold of_be. clear -Hb.
  assert (HG : forall acc, 0 <= acc -> acc * 256 ^ zlen bytes <= fold_left (fun n b => n * 256 + b) bytes acc < (acc + 1) * 256 ^ zlen bytes).
  { induction Hb as [|b bytes Hb _ IH]; intros acc Hacc; cbn [fold_left]; [change (zlen []) with 0; lia|]. rewrite zlen_cons, Z.pow_add_r by (pose proof (zlen_nonneg bytes); lia).
    unfold is_byte in Hb. specialize (IH (acc * 256 + b) ltac:(lia)). assert (0 < 256 ^ zlen bytes) by (apply Z.pow_pos_nonneg; [lia | apply zlen_nonneg]). nia. }
  specialize (HG 0). lia.
Qed.

Lemma name_parse_loop_total p nol : Forall is_byte p -> forall fuel j name_end ptr_count out,
  0 <= j -> 0 <= ptr_count <= zlen p -> zlen out = 0 \/ zlen out < nol -> (zlen p - ptr_count) + (Z.max 0 nol - zlen out) + 2 <= Z.of_nat fuel -> name_end <= zlen p ->
  name_parse_loop p (zlen p) fuel nol j name_end ptr_count out = Some None \/
  exists idx name, name_parse_loop p (zlen p) fuel nol j name_end ptr_count out = Some (Some (idx, name)) /\
    (if name_end <? 0 then j < idx else idx = name_end) /\ idx <= zlen p /\ zlen name < nol /\ (Forall is_byte out -> Forall is_byte name).
Proof.
  intros Hp. induction fuel as [|fuel IH]; intros j name_end ptr_count out Hj Hptr Hout Hf Hne; [lia|]. cbn [name_parse_loop].
  destruct (GET8_total p j Hp Hj) as [[-> _]|(b & Hb & -> & Hjp)]; [by left|]. cbn [or_else]. unfold is_byte in Hb. destruct (b =? 0) eqn:E0.
  { destruct (nol <=? zlen out) eqn:En; [by left|]. right. eexists _, out. split; [done|]. split_and!; [case_if; lia | case_if; lia | lia | done]. }
  destruct (c_true (Z.land b 192)) eqn:Ec.
  - destruct (GET8_total p (j + 1) Hp ltac:(lia)) as [[-> _]|(b2 & Hb2 & -> & Hjp2)]; [by left|]. cbn [or_else]. unfold is_byte in Hb2.
    destruct (_ || _) eqn:Er; [by left|]. destruct (zlen p <? ptr_count + 1) eqn:Ep; [by left|].
    destruct (IH (Z.shiftl (Z.land b 63) 8 + b2) (if name_end <? 0 then j + 1 + 1 else name_end) (ptr_count + 1) out) as [->|(idx & name & -> & Hi & Hr)]; try lia; [case_if; lia | by left|].
    right. exists idx, name. split; [done|]. split; [|done]. destruct (name_end <? 0) eqn:E; [|by rewrite E in Hi]. replace (j + 1 + 1 <? 0) with false in Hi by lia. lia.
  - destruct (63 <? b) eqn:E63; [by left|]. destruct (negb (zlen out =? 0) && _) eqn:Ed; [by left|].
    set (out1 := if negb (zlen out =? 0) then out ++ [46] else out). destruct (nol <=? zlen out1 + b) eqn:En; [by left|]. destruct (zlen p <? j + 1 + b) eqn:El; [by left|].
    destruct (slice_range p (j + 1) b) as [label Hs]; [lia..|]. rewrite Hs. cbn [mbind option_bind]. apply slice_bound in Hs as HB.
    assert (Hz : zlen out <= zlen out1) by (unfold out1; case_if; rewrite ?zlen_app; change (zlen [46]) with 1; lia). pose proof (zlen_nonneg out).
    destruct (IH (j + 1 + b) name_end ptr_count (out1 ++ label)) as [->|(idx & name & -> & Hi & Hr & Hn & Hbs)]; rewrite ?zlen_app; try lia; [by left|].
    right. exists idx, name. split; [done|]. split_and!; [case_if; lia | done | done|]. intros Ho. apply Hbs, Forall_app. split; [|exact (slice_bytes _ _ _ _ Hp Hs)].
    unfold out1. case_if; [|done]. apply Forall_app. split; [done|]. by repeat constructor.
Qed.
Lemma name_parse_total p nol j : Forall is_byte p -> 0 <= j ->
  name_parse p (zlen p) j nol = Some None \/
  exists idx name, name_parse p (zlen p) j nol = Some (Some (idx, name)) /\ j < idx <= zlen p /\ zlen name < nol /\ Forall is_byte name.
Proof.
  intros Hp Hj. unfold name_parse. pose proof (zlen_nonneg p).
  destruct (name_parse_loop_total p nol Hp (S (S (Z.to_nat (zlen p) + Z.to_nat nol))) j (-1) 0 []) as [->|(idx & name & -> & Hi & Hr & Hn & Hb)]; change (zlen []) with 0; try lia; [by left|].
  right. exists idx, name. split; [done|]. cbn in Hi. split_and!; [lia | lia | done | by apply Hb].
Qed.

(** * Names that are written

    What [dnsname_to_labels] writes is the name, with or without a table of the
    labels that were written before. *)
(** ** A buffer of [n] bytes that is written up to [w]. *)
Definition written (buf w : list Z) (n : Z) : Prop := (exists rest, buf = w ++ rest) /\ zlen buf = n.
Lemma written_len buf w n : written buf w n -> zlen w <= n.
Proof. intros [[rest ->] <-]. rewrite zlen_app. pose proof (zlen_nonneg rest). lia. Qed.
Lemma written_nil buf : written buf [] (zlen buf).
Proof. by split; [exists buf|]. Qed.
Lemma written_prefix buf w x n : written buf (w ++ x) n -> written buf w n.
Proof. intros [[rest ->] Hz]. split; [|done]. exists (x ++ rest). by rewrite <- app_assoc. Qed.
Lemma put_written buf w data n : written buf w n -> zlen w + zlen data <= n -> exists buf', put buf (zlen w) data = Some buf' /\ written buf' (w ++ data) n.
Proof.
  intros [[rest ->] Hz] Hle. rewrite zlen_app in Hz. pose proof (zlen_nonneg w). pose proof (zlen_nonneg data). unfold put. rewrite zlen_app. replace (_ && _) with true by lia.
  rewrite ztake_app_le, ztake_ge, zdrop_app_ge by lia. eexists. split; [done|]. split; [exists (zdrop (zlen w + zlen data - zlen w) rest); by rewrite <- app_assoc|].
  rewrite !zlen_app, zlen_zdrop by lia. lia.
Qed.
(** A gap of [k] bytes, with whatever they hold, that is filled later. *)
Lemma written_gap buf w n k : written buf w n -> 0 <= k -> zlen w + k <= n -> exists x, zlen x = k /\ written buf (w ++ x) n.
Proof.
  intros [[rest ->] Hz] Hk Hle. rewrite zlen_app in Hz. exists (ztake k rest). split; [apply zlen_ztake; lia|]. split; [|by rewrite zlen_app].
  exists (zdrop k rest). by rewrite <- app_assoc, zdrop_take.
Qed.
Lemma put_gap buf w x e n data : written buf (w ++ x ++ e) n -> zlen data = zlen x -> exists buf', put buf (zlen w) data = Some buf' /\ written buf' (w ++ data ++ e) n.
Proof.
  intros [[rest ->] Hz] Hd. unfold put. rewrite <- !app_assoc in *. rewrite !zlen_app in *. pose proof (zlen_nonneg w). pose proof (zlen_nonneg e). pose proof (zlen_nonneg rest). pose proof (zlen_nonneg x).
  replace (_ && _) with true by lia. rewrite ztake_app_le, ztake_ge by lia. rewrite (app_assoc w x), zdrop_app_ge by (rewrite zlen_app; lia).
  rewrite zlen_app, Hd, Z.sub_diag, zdrop_0. eexists. split; [done|]. split; [exists rest; by rewrite <- !app_assoc|]. rewrite !zlen_app. lia.
Qed.
Lemma append_written n encode buf w m len x : written buf w m -> len <= m -> (forall x, zlen (encode x) = n) ->
  (append n encode buf len (zlen w) x = Some None /\ len < zlen w + n) \/
  exists buf', append n encode buf len (zlen w) x = Some (Some (buf', zlen (w ++ encode x))) /\ written buf' (w ++ encode x) m /\ zlen w + n <= len.
Proof.
  intros HW Hle Hn. unfold append. destruct (len <? zlen w + n) eqn:E; [left; split; [done | lia]|]. right.
  destruct (put_written buf w (encode x) m HW) as (buf' & -> & HW'); [rewrite Hn; lia|]. exists buf'. cbn [mbind option_bind]. rewrite zlen_app, Hn. split_and!; (done || lia).
Qed.
Lemma append_reached n encode buf w x len m : written buf w m -> len <= m -> (forall x, zlen (encode x) = n) -> zlen w + n <= len ->
  exists buf', append n encode buf len (zlen w) x = Some (Some (buf', zlen (w ++ encode x))) /\ written buf' (w ++ encode x) m.
Proof. intros HW Hle Hn Hfit. destruct (append_written n encode buf w m len x HW Hle Hn) as [[_ ?]|(buf' & ? & ? & _)]; [lia | by exists buf']. Qed.
Lemma zlen_be16 x : zlen (be16 x) = 2.
Proof. done. Qed.
Lemma zlen_be32 x : zlen (be32 x) = 4.
Proof. done. Qed.
Lemma of_be16 x : 0 <= x < 65536 -> of_be (be16 x) = x.
Proof. intros Hx. unfold of_be, be16, u16. cbn. lia. Qed.
Lemma of_be32 x : 0 <= x < 2 ^ 32 -> of_be (be32 x) = x.
Proof. intros Hx. unfold of_be, be32, be16, u16, u32. cbn. lia. Qed.

(** ** Names as text. *)

(** The parts between the dots; there is always one. *)
Fixpoint segments (s : list Z) : list (list Z) :=
  match s with
  | [] => [[]]
  | c :: s => if c =? 46 then [] :: segments s else match segments s with seg :: segs => (c :: seg) :: segs | [] => [[c]] end
  end.
(** Only the last part may be empty; parts have at most 63 characters. *)
Fixpoint name_ok (segs : list (list Z)) : bool :=
  match segs with
  | [] => true
  | [seg] => zlen seg <=? 63
  | seg :: segs => (1 <=? zlen seg) && (zlen seg <=? 63) && name_ok segs
  end.
Definition valid_name (s : list Z) : bool := name_ok (segments s).
(** The labels of a valid name: an empty part at the end is left out. *)
Definition labels_of (s : list Z) : list (list Z) := filter (fun seg => seg <> []) (segments s).

Lemma segments_some s : exists seg segs, segments s = seg :: segs.
Proof. induction s as [|c s (seg & segs & IH)]; [by eexists _, _|]. cbn. rewrite IH. case_if; by eexists _, _. Qed.
Lemma split_at_segments s : segments s = match split_at 46 s with Some (a, b) => a :: segments b | None => [s] end.
Proof.
  induction s as [|c s IH]; [done|]. cbn. destruct (c =? 46) eqn:E; [done|]. rewrite IH. by destruct (split_at 46 s) as [[a b]|].
Qed.
(** A name has its labels joined by dots, and may end in a dot. *)
Definition without_dot (s : list Z) : list Z := match reverse s with c :: r => if c =? 46 then reverse r else s | [] => s end.
Lemma fold_labels_app ls : forall out, out <> [] -> Forall (fun l => l <> []) ls -> fold_left add_label ls out = out ++ flat_map (fun l => 46 :: l) ls.
Proof.
  induction ls as [|l ls IH]; intros out Ho HF; cbn; [by rewrite app_nil_r|]. apply Forall_cons in HF as [Hl HF]. rewrite IH; [|by destruct l, out | done].
  unfold add_label. replace (zlen out =? 0) with false by (destruct out; [done | rewrite zlen_cons; pose proof (zlen_nonneg out); lia]). by rewrite <- !app_assoc.
Qed.
Lemma dotted_cons l ls : l <> [] -> Forall (fun l => l <> []) ls -> dotted (l :: ls) = l ++ flat_map (fun l => 46 :: l) ls.
Proof. intros Hl HF. unfold dotted. cbn [fold_left]. by apply fold_labels_app. Qed.
Lemma labels_full s : Forall (fun l => l <> []) (labels_of s).
Proof. apply Forall_forall. intros l Hl. by apply list_elem_of_filter in Hl as [? _]. Qed.
Lemma labels_of_nil s : valid_name s = true -> labels_of s = [] -> s = [].
Proof.
  unfold valid_name, labels_of. rewrite split_at_segments. destruct (split_at 46 s) as [[a b]|].
  - destruct (segments_some b) as (seg & segs & E). cbn [name_ok]. rewrite E. intros [[Ha _]%andb_true_iff _]%andb_true_iff. rewrite filter_cons_True; [done|]. by intros ->.
  - destruct s; [done|]. by rewrite filter_cons_True.
Qed.
Lemma dotted_labels s : valid_name s = true -> dotted (labels_of s) = without_dot s.
Proof.
  remember (length s) as n eqn:En. revert s En. induction n as [n IH] using lt_wf_ind. intros s -> Hv. unfold valid_name in Hv. rewrite split_at_segments in Hv. unfold labels_of. rewrite split_at_segments.
  destruct (split_at 46 s) as [[a b]|] eqn:E.
  - apply split_at_some in E as [-> Ha]. destruct (segments_some b) as (seg & segs & Eb). cbn [name_ok] in Hv. rewrite Eb in Hv. apply andb_true_iff in Hv as [[Hl _]%andb_true_iff Hvb].
    rewrite <- Eb in Hvb. assert (Hane : a <> []) by (by intros ->). rewrite filter_cons_True by done. rewrite dotted_cons by (done || apply labels_full). fold (labels_of b).
    specialize (IH (length b) ltac:(rewrite length_app; cbn; lia) b eq_refl Hvb). unfold without_dot in *. rewrite reverse_app, reverse_cons, <- app_assoc.
    destruct (labels_of b) as [|l ls] eqn:El.
    + apply labels_of_nil in El; [|done]. subst b. change (a ++ [] = reverse (reverse a)). by rewrite app_nil_r, reverse_involutive.
    + pose proof (labels_full b) as HF. rewrite El in HF. apply Forall_cons in HF as [Hl2 HF]. rewrite dotted_cons in IH by done. cbn [flat_map]. rewrite <- app_comm_cons, IH.
      destruct (reverse b) as [|c r] eqn:Er; [apply (f_equal reverse) in Er; rewrite reverse_involutive in Er; by subst b|].
      rewrite <- app_comm_cons. destruct (c =? 46); [|done]. by rewrite !reverse_app, reverse_involutive, <- app_assoc.
  - assert (Hn : 46 ∉ s) by (intros Hin; apply list_elem_of_split in Hin as (x & y & ->); revert E; clear; induction x as [|c x IH]; cbn; [done|]; case_if; [done|]; by destruct (split_at 46 _) as [[]|]).
    unfold without_dot. destruct (reverse s) as [|c r] eqn:Er; [apply (f_equal reverse) in Er; rewrite reverse_involutive in Er; by subst s|].
    assert (c <> 46) by (intros ->; apply Hn, elem_of_reverse; rewrite Er; by left). rewrite filter_cons_True by (by intros ->). by replace (c =? 46) with false by lia.
Qed.
Lemma zlen_without_dot s : zlen (without_dot s) <= zlen s.
Proof.
  unfold without_dot. destruct (reverse s) as [|c r] eqn:E; [done|]. destruct (c =? 46); [|done]. apply (f_equal length) in E. unfold zlen. rewrite !length_reverse in *. cbn in E. lia.
Qed.

(** ** The table. *)
Section Table.
Context (mm : Z -> bool).

(** A name of the table is in the packet where the table says. *)
Definition entry_ok (w : list Z) (entry : list Z * Z) : Prop :=
  0 <= snd entry < 16384 /\ (valid_name (fst entry) = true -> exists fin, name_at w (zlen w) (snd entry) (labels_of (fst entry)) fin).
Definition table_ok (w : list Z) (t : dnslabel_table) : Prop := Forall (entry_ok w) t.
Lemma entry_ok_frame w x e : entry_ok w e -> entry_ok (w ++ x) e.
Proof. intros [Hr He]. split; [done|]. intros Hv. destruct (He Hv) as [fin HN]. exists fin. apply (name_at_frame w (zlen w)); [done | rewrite zlen_app; pose proof (zlen_nonneg x); lia]. Qed.
Lemma table_ok_frame w x t : table_ok w t -> table_ok (w ++ x) t.
Proof. intros HT. eapply Forall_impl; [exact HT|]. intros e. apply entry_ok_frame. Qed.

Lemma get_pos_some t name : 0 <= dnslabel_table_get_pos t name -> (name, dnslabel_table_get_pos t name) ∈ t.
Proof.
  unfold dnslabel_table_get_pos. destruct (list_find _ t) as [[i [v pos]]|] eqn:E; [|lia]. intros _. apply list_find_Some in E as (Hi & Hv & _). cbn in Hv. subst v. by apply list_elem_of_lookup_2 in Hi.
Qed.
Lemma table_add_kept t name pos : exists added, snd (dnslabel_table_add mm t name pos) = t ++ added /\ (added = [] \/ added = [(name, pos)]).
Proof. unfold dnslabel_table_add. repeat case_if; cbn; eauto using app_nil_r. Qed.

(** The pointer to a place in the first 16384 bytes. *)
Lemma pointer_bytes target : 0 <= target < 16384 -> be16 (Z.lor target 0xc000) = [192 + target / 256; target mod 256].
Proof.
  intros Ht. rewrite Z.lor_comm. change 0xc000 with (Z.shiftl 3 14). rewrite lor_shiftl_add by lia. unfold be16, u16. f_equal; [|f_equal]; lia.
Qed.

(** ** Writing a name. *)

(** What is written for [name] behind [n] bytes, whatever these are if the table
    [tab] fits them: bytes that are the name there, and entries of the table for it
    and its ends. *)
Definition tab_ok (w : list Z) (tab : option dnslabel_table) : Prop := forall t, tab = Some t -> table_ok w t.
Record encoded (tab : option dnslabel_table) (n : Z) (name : list Z) (enc : list Z) (added : dnslabel_table) : Prop := {
  en_name w : zlen w = n -> tab_ok w tab -> valid_name name = true -> name_at (w ++ enc) (zlen (w ++ enc)) n (labels_of name) (zlen (w ++ enc));
  en_added w : zlen w = n -> tab_ok w tab -> table_ok (w ++ enc) added;
  en_len : 1 <= zlen enc <= zlen name + 2
}.
Lemma tab_ok_frame w x tab : tab_ok w tab -> tab_ok (w ++ x) tab.
Proof. intros HT t Ht. by apply table_ok_frame, HT. Qed.
(** The outcome of writing [name] into a buffer of [m] bytes of which [len] may be used. *)
Definition name_written (w : list Z) (name : list Z) (len m : Z) (tab table : option dnslabel_table) (result : option (Z * list Z * option dnslabel_table)) : Prop :=
  exists r buf' table', result = Some (r, buf', table') /\ written buf' w m /\
    ((r < 0 /\ (valid_name name = true -> len < zlen w + zlen name + 2)) \/
     exists enc added, r = zlen (w ++ enc) /\ written buf' (w ++ enc) m /\ table' = (fun t => t ++ added) <$> table /\ encoded tab (zlen w) name enc added).

Lemma put_label_written buf w label m : written buf w m -> zlen w + 1 + zlen label <= m -> zlen label <= 63 ->
  exists buf', put_label buf (zlen w) label = Some (buf', zlen (w ++ zlen label :: label)) /\ written buf' (w ++ zlen label :: label) m.
Proof.
  intros HW Hle Hl. pose proof (zlen_nonneg label). unfold put_label. rewrite (u8_small (zlen label)) by lia.
  destruct (put_written buf w [zlen label] m HW) as (b1 & -> & HW1); [change (zlen [_]) with 1; lia|]. cbn [mbind option_bind].
  assert (Hz : zlen (w ++ [zlen label]) = zlen w + 1) by by rewrite zlen_app. destruct (put_written b1 _ label m HW1) as (b2 & E2 & HW2); [lia|].
  rewrite <- Hz, E2. cbn [mbind option_bind]. exists b2. rewrite <- app_assoc in HW2. split; [|exact HW2].
  replace (zlen (w ++ zlen label :: label)) with (zlen (w ++ [zlen label]) + zlen label); [done|]. rewrite !zlen_app, (zlen_cons _ label). change (zlen [zlen label]) with 1. lia.
Qed.
Lemma valid_split name label rest : split_at 46 name = Some (label, rest) -> valid_name name = true ->
  1 <= zlen label <= 63 /\ valid_name rest = true /\ labels_of name = label :: labels_of rest.
Proof.
  intros E Hv. unfold valid_name, labels_of in *. rewrite (split_at_segments name), E in *. destruct (segments_some rest) as (seg & segs & Er).
  cbn [name_ok] in Hv. rewrite Er in *. apply andb_true_iff in Hv as [[H1 H2]%andb_true_iff H3]. split; [lia|]. split; [done|]. rewrite filter_cons_True; [done|]. by intros ->.
Qed.
Lemma label_at w l enc : 1 <= zlen l <= 63 -> forall ls fin lim, name_at (w ++ (zlen l :: l) ++ enc) lim (zlen (w ++ zlen l :: l)) ls fin -> name_at (w ++ (zlen l :: l) ++ enc) lim (zlen w) (l :: ls) fin.
Proof.
  intros Hl ls fin lim HN. constructor; [done | by apply has_app|]. rewrite zlen_app, zlen_cons in HN. by replace (zlen w + 1 + zlen l) with (zlen w + (1 + zlen l)) by lia.
Qed.

(** The end of a name, with its terminator. *)
Lemma last_label_written buf w name m : written buf w m -> split_at 46 name = None -> is_cstring name -> zlen name <= 63 -> zlen w + zlen name + 2 <= m ->
  exists buf' j enc, put_label buf (zlen w) name = Some (buf', j) /\
    match last ← (if j =? 0 then Some [] else slice buf' (j - 1) 1);
          if (j =? 0) || c_true (of_be last) then buf ← put buf' j [0]; Some (j + 1, buf) else Some (j, buf')
    with
    | Some (j', buf'') => j' = zlen (w ++ enc) /\ written buf'' (w ++ enc) m /\ 1 <= zlen enc <= zlen name + 2 /\
        forall w', zlen w' = zlen w -> name_at (w' ++ enc) (zlen (w' ++ enc)) (zlen w) (labels_of name) (zlen (w' ++ enc))
    | None => False
    end.
Proof.
  intros HW Hs Hc Hl Hm. pose proof (zlen_nonneg w). pose proof (zlen_nonneg name). destruct (put_label_written buf w name m HW) as (b1 & E1 & HW1); [lia..|].
  assert (Hlab : labels_of name = match name with [] => [] | _ => [name] end).
  { unfold labels_of. rewrite split_at_segments, Hs. destruct name; [done | by rewrite filter_cons_True]. }
  rewrite zlen_app, zlen_cons in E1. rewrite E1. destruct (decide (name = [])) as [->|Hne0].
  - exists b1, (zlen w + (1 + 0)), [0]. split; [done|]. replace (zlen w + (1 + 0) =? 0) with false by lia. destruct HW1 as [[rest ->] Hz]. rewrite <- app_assoc.
    replace (zlen w + (1 + 0) - 1) with (zlen w) by lia. change (slice (w ++ [0] ++ rest) (zlen w) 1) with (slice (w ++ [0] ++ rest) (zlen w) (zlen [0])). rewrite slice_app. cbn [mbind option_bind of_be fold_left orb c_true Z.eqb negb].
    rewrite zlen_app. change (zlen [0]) with 1. split; [lia|]. split; [split; [exists rest; by rewrite <- app_assoc | rewrite <- Hz, <- app_assoc; done]|]. split; [change (zlen []) with 0; lia|].
    intros w' Hw'. rewrite Hlab, zlen_app, Hw'. change (zlen [0]) with 1. constructor; [|lia]. by apply has_end.
  - destruct (exists_last Hne0) as (init & c & Hn). exists b1, (zlen w + (1 + zlen name)), (zlen name :: name ++ [0]). split; [done|].
    assert (Hne : 1 <= zlen name) by (rewrite Hn, zlen_app; change (zlen [c]) with 1; pose proof (zlen_nonneg init); lia).
    replace (zlen w + (1 + zlen name) =? 0) with false by lia. pose proof HW1 as [[rest Hb1] Hz].
    assert (Hb : b1 = (w ++ zlen name :: init) ++ [c] ++ rest) by (rewrite Hb1, Hn at 1; rewrite Hn; rewrite <- !app_assoc; cbn [app]; by rewrite <- app_assoc).
    replace (zlen w + (1 + zlen name) - 1) with (zlen (w ++ zlen name :: init)) by (rewrite zlen_app, zlen_cons; apply (f_equal zlen) in Hn; rewrite zlen_app in Hn; change (zlen [c]) with 1 in Hn; lia).
    assert (Hsl : slice b1 (zlen (w ++ zlen name :: init)) 1 = Some [c]) by (rewrite Hb; apply (slice_app _ [c])).
    rewrite Hsl. cbn [mbind option_bind of_be fold_left orb]. rewrite Hn in Hc. apply Forall_app in Hc as [_ [Hcc _]%Forall_cons]. unfold is_char in Hcc.
    replace (c_true (0 * 256 + c)) with true by (unfold c_true; lia). assert (Hz1 : zlen (w ++ zlen name :: name) = zlen w + (1 + zlen name)) by by rewrite zlen_app, zlen_cons. rewrite <- Hz1.
    destruct (put_written b1 _ [0] m HW1) as (b2 & -> & HW2); [change (zlen [0]) with 1; lia|]. cbn [mbind option_bind]. rewrite <- app_assoc in HW2. cbn [app] in HW2.
    rewrite Hz1, zlen_app, zlen_cons, zlen_app. change (zlen [0]) with 1. split; [lia|]. split; [exact HW2|]. split; [lia|].
    intros w' <-. replace (labels_of name) with [name] by (rewrite Hlab; by destruct name). apply (label_at w' name [0]); [lia|].
    replace (zlen (w' ++ zlen name :: name ++ [0])) with (zlen (w' ++ zlen name :: name) + 1) by (rewrite !zlen_app, !zlen_cons, zlen_app; change (zlen [0]) with 1; lia).
    constructor; [|lia]. change (zlen name :: name ++ [0]) with ((zlen name :: name) ++ [0]). rewrite app_assoc. by apply has_end.
Qed.

(** The pointer to an entry of the table. *)
Lemma pointer_encoded t n name : (name, dnslabel_table_get_pos t name) ∈ t -> encoded (Some t) n name (be16 (Z.lor (dnslabel_table_get_pos t name) 0xc000)) [].
Proof.
  intros Hin. set (ref := dnslabel_table_get_pos t name) in *. split; [|constructor | rewrite zlen_be16; pose proof (zlen_nonneg name); lia].
  intros w <- HT Hv. specialize (HT _ eq_refl). unfold table_ok in HT. rewrite Forall_forall in HT. destruct (HT _ Hin) as [Hr He]. cbn [fst snd] in *. rewrite (pointer_bytes _ Hr).
  destruct (He Hv) as [fin HN]. rewrite zlen_app. change (zlen [_; _]) with 2.
  apply (name_ptr _ _ (zlen w) _ ref _ fin); [done | | lia | lia | exact (name_at_frame w (zlen w) ref _ fin _ (zlen w) HN (Z.le_refl _))]. by apply has_end.
Qed.
(** The entries that are added for [name] when it is written. *)
Lemma added_ok w enc name added : added = [] \/ added = [(name, zlen w)] -> zlen w < 16384 ->
  (valid_name name = true -> name_at (w ++ enc) (zlen (w ++ enc)) (zlen w) (labels_of name) (zlen (w ++ enc))) -> table_ok (w ++ enc) added.
Proof.
  intros [->| ->] Hw HN; [constructor|]. constructor; [|constructor]. pose proof (zlen_nonneg w). split; [cbn; lia|]. cbn [fst snd]. intros Hv. eexists. by apply HN.
Qed.

Lemma add_entry (tab : option dnslabel_table) news name pos : exists added,
  (fun t => snd (dnslabel_table_add mm t name pos)) <$> ((fun t => t ++ news) <$> tab) = (fun t => t ++ (news ++ added)) <$> tab /\ (added = [] \/ added = [(name, pos)]).
Proof.
  destruct tab as [t|]; [|by exists []; auto]. cbn. destruct (table_add_kept (t ++ news) name pos) as (a & -> & Ha). exists a. by rewrite <- app_assoc.
Qed.
Lemma get_pos_app t news name : (name, dnslabel_table_get_pos (t ++ news) name) ∈ t -> dnslabel_table_get_pos (t ++ news) name = dnslabel_table_get_pos t name.
Proof.
  unfold dnslabel_table_get_pos. destruct (list_find _ t) as [[i [v pos]]|] eqn:Ef; [by erewrite (list_find_app_l _ t news) by exact Ef|].
  intros Hin. apply list_find_None in Ef. rewrite Forall_forall in Ef. by apply Ef in Hin.
Qed.

(** A label in front of what is written for the rest of a name. *)
Lemma label_encoded tab n label rest name enc added0 added : split_at 46 name = Some (label, rest) -> n < 16384 -> added0 = [] \/ added0 = [(name, n)] ->
  encoded tab (n + 1 + zlen label) rest enc added -> encoded tab n name ((zlen label :: label) ++ enc) (added0 ++ added).
Proof.
  intros Es Hn Ha0 [HN HA HL]. pose proof (split_at_some _ _ _ _ Es) as [En _]. pose proof (zlen_nonneg label).
  assert (Hz : forall w, zlen w = n -> zlen (w ++ zlen label :: label) = n + 1 + zlen label) by (intros w <-; rewrite zlen_app, zlen_cons; lia).
  assert (HE : forall w, zlen w = n -> tab_ok w tab -> valid_name name = true ->
    name_at (w ++ (zlen label :: label) ++ enc) (zlen (w ++ (zlen label :: label) ++ enc)) (zlen w) (labels_of name) (zlen (w ++ (zlen label :: label) ++ enc))).
  { intros w Hw HT Hv. destruct (valid_split _ _ _ Es Hv) as (Hl & Hvr & ->). apply label_at; [done|]. specialize (HN (w ++ zlen label :: label) (Hz w Hw) (tab_ok_frame _ _ _ HT) Hvr).
    rewrite <- !app_assoc in HN. by rewrite (Hz w Hw). }
  split.
  - intros w Hw HT Hv. rewrite <- Hw. by apply HE.
  - intros w Hw HT. apply Forall_app. split; [apply (added_ok _ _ name); [by rewrite Hw | lia | by apply HE]|].
    specialize (HA (w ++ zlen label :: label) (Hz w Hw) (tab_ok_frame _ _ _ HT)). by rewrite <- app_assoc in HA.
  - rewrite En, !zlen_app, !zlen_cons. lia.
Qed.

Context (len m : Z) (Hlen : len <= m) (Hsmall : len <= 16384) (Hm : m < 2 ^ 63).
(** A name that is found in the table. *)
Lemma pointer_written name buf w t news : written buf w m -> Forall (fun e => length name < length (fst e))%nat news ->
  let ref := dnslabel_table_get_pos (t ++ news) name in
  0 <= ref ->
  name_written w name len m (Some t) (Some (t ++ news))
    (get (buf, j) := APPEND16 buf len (zlen w) (Z.lor ref 0xc000) or Some (-2, buf, Some (t ++ news)); Some (j, buf, Some (t ++ news))).
Proof.
  intros HW Hnews ref Href. pose proof (zlen_nonneg name). assert (Hin : (name, ref) ∈ t).
  { pose proof (get_pos_some _ _ Href) as [?|Hin]%elem_of_app; [done|]. rewrite Forall_forall in Hnews. apply Hnews in Hin. cbn in Hin. lia. }
  pose proof (get_pos_app _ _ _ Hin) as Hget. fold ref in Hget.
  assert (Henc : encoded (Some t) (zlen w) name (be16 (Z.lor ref 0xc000)) []) by (rewrite Hget in *; by apply pointer_encoded).
  destruct (append_written 2 be16 buf w m len (Z.lor ref 0xc000) HW Hlen zlen_be16) as [[E Hov]|(buf' & E & HW' & Hov)]; unfold APPEND16; rewrite E; cbn [or_else].
  - exists (-2), buf, (Some (t ++ news)). split; [done|]. split; [done|]. left. lia.
  - eexists _, buf', _. split; [done|]. split; [by eapply written_prefix|]. right. eexists _, []. split; [done|]. split; [done|]. cbn. by rewrite app_nil_r.
Qed.
Lemma labels_loop_written fuel : forall name buf w tab news, is_cstring name -> (length name < fuel)%nat -> written buf w m ->
  len < m \/ zlen w + zlen name + 2 <= m -> Forall (fun e => length name < length (fst e))%nat news ->
  name_written w name len m tab ((fun t => t ++ news) <$> tab) (labels_loop mm fuel buf len (zlen w) name ((fun t => t ++ news) <$> tab)).
Proof.
  induction fuel as [|fuel IH]; intros name buf w tab news Hc Hf HW Hroom Hnews; [lia|]. cbn [labels_loop]. pose proof (zlen_nonneg w). pose proof (zlen_nonneg name). pose proof (written_len _ _ _ HW).
  set (table := (fun t => t ++ news) <$> tab). destruct (0 <=? _) eqn:Eref.
  { destruct tab as [t|]; [|done]. cbn in table. subst table. apply pointer_written; [done | done | by apply Z.leb_le]. }
  destruct (split_at 46 name) as [[label rest]|] eqn:Es.
  - pose proof (split_at_some _ _ _ _ Es) as [Hn _]. assert (Hzn : zlen name = zlen label + 1 + zlen rest) by (rewrite Hn, zlen_app, zlen_cons; lia). pose proof (zlen_nonneg rest). pose proof (zlen_nonneg label).
    destruct (63 <? zlen label) eqn:E63; [exists (-1), buf, table; split; [done|]; split; [done|]; left; split; [lia|]; intros Hv; destruct (valid_split _ _ _ Es Hv); lia|].
    rewrite u64_small by lia. destruct (len <? zlen w + zlen label + 1) eqn:El; [exists (-2), buf, table; split; [done|]; split; [done|]; left; lia|].
    destruct (put_label_written buf w label m HW) as (b1 & -> & HW1); [lia..|]. cbn [mbind option_bind].
    destruct (add_entry tab news name (zlen w)) as (added0 & Eadd & Ha0). fold table in Eadd. rewrite Eadd. destruct (IH rest b1 (w ++ zlen label :: label) tab (news ++ added0)) as (r & b2 & t2 & -> & HW2 & Hout).
    + rewrite Hn in Hc. by apply Forall_app in Hc as [_ [_ ?]%Forall_cons].
    + rewrite Hn, length_app in Hf. cbn in Hf. lia.
    + done.
    + rewrite zlen_app, zlen_cons. lia.
    + apply Forall_app. split; [eapply Forall_impl; [exact Hnews | intros e He; cbn in *; rewrite Hn, length_app in He; cbn in He; lia]|].
      destruct Ha0 as [->| ->]; [constructor|]. constructor; [|constructor]. cbn. rewrite Hn, length_app. cbn. lia.
    + exists r, b2, t2. split; [done|]. split; [by eapply written_prefix|]. destruct Hout as [[Hr Hv]|(enc & added & -> & HW3 & -> & HE)].
      * left. split; [done|]. intros Hvn. destruct (valid_split _ _ _ Es Hvn) as (_ & Hvr & _). specialize (Hv Hvr). rewrite zlen_app, zlen_cons in Hv. lia.
      * right. exists ((zlen label :: label) ++ enc), (added0 ++ added). rewrite <- app_assoc in HW3.
        split; [by rewrite app_assoc|]. split; [done|]. split; [unfold table; destruct tab; cbn; [by rewrite <- !app_assoc | done]|]. apply (label_encoded _ _ label rest); [done | lia | done|].
        by replace (zlen w + 1 + zlen label) with (zlen (w ++ zlen label :: label)) by (rewrite zlen_app, zlen_cons; lia).
  - destruct (63 <? zlen name) eqn:E63.
    { exists (-1), buf, table. split; [done|]. split; [done|]. left. split; [lia|]. unfold valid_name. rewrite split_at_segments, Es. cbn [name_ok]. lia. }
    rewrite u64_small by lia. destruct (len <? zlen w + zlen name + 1) eqn:El; [exists (-2), buf, table; split; [done|]; split; [done|]; left; lia|].
    destruct (last_label_written buf w name m HW Es Hc) as (b1 & j & enc & -> & Hlast); [lia..|]. cbn [mbind option_bind].
    destruct (add_entry tab news name (zlen w)) as (added0 & Eadd & Ha0). fold table in Eadd. rewrite Eadd. match type of Hlast with match ?X with _ => _ end => destruct X as [[j2 b2]|] eqn:EX; [|done] end. destruct Hlast as (-> & HW2 & Hz & HN).
    exists (zlen (w ++ enc)), b2, ((fun t => t ++ (news ++ added0)) <$> tab). split.
    + revert EX. destruct (if j =? 0 then Some [] else slice b1 (j - 1) 1) as [last|]; [|done]. cbn [mbind option_bind]. destruct (_ || _).
      * destruct (put b1 j [0]) as [b3|]; [|done]. cbn [mbind option_bind]. by intros [= -> ->].
      * by intros [= -> ->].
    + split; [by eapply written_prefix|]. right. exists enc, added0. split; [done|]. split; [done|]. split; [unfold table; destruct tab; cbn; [by rewrite <- app_assoc | done]|]. split; [by intros w' Hw' _ _; apply HN | | done].
      intros w' Hw' _. apply (added_ok _ _ name); [by rewrite Hw' | lia | intros _; rewrite Hw'; by apply HN].
Qed.
End Table.

Section Name.
Context (mm : Z -> bool) (len m : Z) (Hlen : len <= m) (Hsmall : len <= 16384) (Hm : m < 2 ^ 63).
Lemma dnsname_written name buf w tab : is_cstring name -> written buf w m -> len < m \/ zlen w + zlen name + 2 <= m ->
  zlen name <= 255 -> name_written w name len m tab tab (dnsname_to_labels mm buf len (zlen w) name (zlen name) tab).
Proof.
  intros Hc HW Hroom Hl. unfold dnsname_to_labels. replace (255 <? zlen name) with false by lia.
  pose proof (labels_loop_written mm len m Hlen Hsmall Hm (S (length name)) name buf w tab [] Hc ltac:(lia) HW Hroom ltac:(constructor)) as HL.
  assert (Ht : (fun t => t ++ []) <$> tab = tab) by (destruct tab; cbn; [by rewrite app_nil_r | done]). by rewrite Ht in HL.
Qed.
Lemma dnsname_too_long name buf (w : list Z) tab : 255 < zlen name -> dnsname_to_labels mm buf len (zlen w) name (zlen name) tab = Some (-2, buf, tab).
Proof. intros Hl. unfold dnsname_to_labels. by replace (255 <? zlen name) with true by lia. Qed.
End Name.
