(* ===== verification/DnsSafe.v ===== *)
(** * No packet misleads the parsers

    Whatever the bytes of a packet are, the parsers of requests and replies read
    nothing outside it, end, and keep to the sizes of what they fill. *)
From Stdlib Require Import Ascii String.
From S2P Require Import Prelude Event Buffer BufferInv BufferOps BufferSearch BufferLines CString Uri UriCodec Dns DnsNames.
Open Scope Z_scope.

Section Safe.
Context (p : list Z) (Hp : Forall is_byte p).

(** A step of a parser: an error, or a value with [P] and a place not before [j]. *)
Definition step_ok {A} (m : option (option (A * Z))) (j : Z) (P : A -> Z -> Prop) : Prop :=
  m = Some None \/ exists a j', m = Some (Some (a, j')) /\ j <= j' /\ P a j'.
Lemma or_else_ok {A B} (m : option (option (A * Z))) j P (err : option B) k (R : option B -> Prop) :
  step_ok m j P -> R err -> (forall a j', j <= j' -> P a j' -> R (k (a, j'))) -> R (or_else m err k).
Proof. intros [->|(a & j' & -> & Hle & HP)] He Hk; [done | by apply Hk]. Qed.

Lemma GET16_ok j : 0 <= j -> step_ok (GET16 p (zlen p) j) j (fun x _ => 0 <= x < 65536).
Proof. intros Hj. destruct (get_be_total p 2 j Hp Hj) as [[E _]|(x & Hx & E & Hle)]; [lia | by left | right; exists x, (j + 2); split_and!; try done; lia]. Qed.
Lemma GET32_ok j : 0 <= j -> step_ok (GET32 p (zlen p) j) j (fun x _ => 0 <= x < 2 ^ 32).
Proof. intros Hj. destruct (get_be_total p 4 j Hp Hj) as [[E _]|(x & Hx & E & Hle)]; [lia | by left | right; exists x, (j + 4); split_and!; try done; lia]. Qed.
(** The order of the results of [name_parse] is that of C. *)
Lemma name_ok_step nol j {B} (err : option B) k (R : option B -> Prop) : 0 <= j -> R err ->
  (forall name j', j < j' <= zlen p -> zlen name < nol -> Forall is_byte name -> R (k (j', name))) -> R (or_else (name_parse p (zlen p) j nol) err k).
Proof. intros Hj He Hk. destruct (name_parse_total p nol j Hp Hj) as [->|(idx & name & -> & Hi & Hn & Hb)]; [done | by apply Hk]. Qed.

Definition header_fields (r : Z * Z * Z * Z * Z) (j : Z) : Prop :=
  let '(type, class, ttl, datalength, j') := r in
  0 <= type < 65536 /\ 0 <= class < 65536 /\ 0 <= ttl < 2 ^ 32 /\ 0 <= datalength < 65536 /\ j <= j'.
Lemma rr_header_ok j : 0 <= j -> rr_header p (zlen p) j = Some None \/ exists r, rr_header p (zlen p) j = Some (Some r) /\ header_fields r j.
Proof.
  intros Hj. unfold rr_header. apply name_ok_step; [done | by left|]. intros _ j1 Hj1 _ _.
  eapply or_else_ok; [apply GET16_ok; lia | by left|]. intros type j2 H2 HT. eapply or_else_ok; [apply GET16_ok; lia | by left|]. intros class j3 H3 HC.
  eapply or_else_ok; [apply GET32_ok; lia | by left|]. intros ttl j4 H4 HL. eapply or_else_ok; [apply GET16_ok; lia | by left|]. intros dl j5 H5 HD.
  right. eexists. split; [done|]. cbn in HT, HC, HL, HD |- *. lia.
Qed.

Definition addresses_ok (size : Z) (rep : reply) : Prop := zlen (addresses rep) <= 32 /\ Forall (fun a => zlen a = size) (addresses rep).
Lemma zlen_cut n k l : zlen (cut n k l) = Z.of_nat n.
Proof. revert l. induction n as [|n IH]; intros l; cbn; [done|]. rewrite zlen_cons, IH. lia. Qed.
Lemma cut_sizes n k l : (n * k <= length l)%nat -> Forall (fun a => zlen a = Z.of_nat k) (cut n k l).
Proof.
  revert l. induction n as [|n IH]; intros l Hl; cbn; [constructor|]. constructor; [unfold zlen; rewrite length_take; lia|]. apply IH. rewrite length_drop. lia.
Qed.
Lemma copy_addresses_ok size rep j dl : 1 <= size -> 0 <= j -> 0 <= dl -> addresses_ok size rep ->
  copy_addresses p (zlen p) size 32 rep j dl = Some None \/
  exists full rep' j', copy_addresses p (zlen p) size 32 rep j dl = Some (Some (full, rep', j')) /\ j <= j' /\ addresses_ok size rep'.
Proof.
  intros Hs Hj Hd [Hz HA]. unfold copy_addresses. pose proof (zlen_nonneg (addresses rep)). set (n := Z.min (32 - zlen (addresses rep)) (dl / size)).
  assert (Hn : 0 <= n <= 32 - zlen (addresses rep)) by (unfold n; assert (0 <= dl / size) by (apply Z.div_pos; lia); lia). destruct (zlen p <? j + size * n) eqn:E; [by left|]. right.
  destruct (slice_range p j (size * n)) as [bytes Hb]; [lia | nia | lia|]. rewrite Hb. apply slice_bound in Hb. cbn [mbind option_bind]. eexists _, _, _. split; [done|]. split; [nia|].
  split; cbn [addresses]; [rewrite zlen_app, zlen_cut; lia|]. apply Forall_app. split; [done|].
  pose proof (cut_sizes (Z.to_nat n) (Z.to_nat size) bytes) as HC. rewrite Z2Nat.id in HC by lia. apply HC. destruct Hb as (_ & _ & _ & Hzb). unfold zlen in Hzb. nia.
Qed.

Section Loops.
Context (mm : Z -> bool) (hnm : Z) (randomize_case : bool) (req : request) (Hreq : Forall is_byte (packet req)).

Lemma questions_loop_ok n : forall j b, 0 <= j -> questions_loop randomize_case p (zlen p) n req j b = Some None \/
  exists j' b', questions_loop randomize_case p (zlen p) n req j b = Some (Some (j', b')) /\ 0 <= j'.
Proof.
  induction n as [|n IH]; intros j b Hj; cbn [questions_loop]; [right; by eexists _, _|]. apply name_ok_step; [done | by left|]. intros tmp j1 Hj1 _ _.
  destruct (name_parse_total (packet req) 256 j Hreq Hj) as [->|(idx & cmp & -> & _)]; [by left|]. cbn [or_else]. case_if; [by left | apply IH; lia].
Qed.

(** What an answer fills. *)
Definition reply_ok (rep : reply) : Prop :=
  zlen (ptr_name rep) < Z.max 1 hnm /\
  (if request_type req =? TYPE_A then addresses_ok 4 rep else if request_type req =? TYPE_AAAA then addresses_ok 16 rep else addresses rep = []).
(** The request, of which only the place for the canonical name changes. *)
Definition same_request (req' : request) : Prop := packet req' = packet req /\ request_type req' = request_type req /\ trans_id req' = trans_id req.
Definition answered (result : option (request * option (reply * Z * Z))) : Prop :=
  exists req2 r, result = Some (req2, r) /\ same_request req2 /\
    match r with Some (rep', ttl', j') => reply_ok rep' /\ 0 <= ttl' < 2 ^ 32 /\ 0 <= j' | None => True end.
(** A record with addresses. *)
Lemma addresses_answered req' rep (ttl_r ttl j dl size : Z) k : same_request req' -> addresses_ok size rep -> 1 <= size -> 0 <= j -> 0 <= dl -> 0 <= ttl_r < 2 ^ 32 -> 0 <= ttl < 2 ^ 32 ->
  (forall rep', addresses_ok size rep' -> ptr_name rep' = ptr_name rep -> reply_ok rep') ->
  (forall rep' j', reply_ok rep' -> 0 <= j' -> answered (k rep' (Z.min ttl_r ttl) j')) ->
  answered (get (full, rep, j) := copy_addresses p (zlen p) size 32 rep j dl or Some (req', None);
            let ttl_r := Z.min ttl_r ttl in if (full : bool) then Some (req', Some (rep, ttl_r, j)) else k rep ttl_r j).
Proof.
  intros HS HA Hsz Hj Hd Ht Htl Hrep Hk. destruct (copy_addresses_ok size rep j dl Hsz Hj Hd HA) as [->|(full & rep' & j' & E & Hj' & HA')]; [by eexists _, _|].
  rewrite E. cbn [or_else]. assert (HR' : reply_ok rep').
  { apply Hrep; [done|]. unfold copy_addresses in E. case_if_in E; [done|]. destruct (slice _ _ _) as [bytes|]; [|done]. cbn [mbind option_bind] in E. by injection E as _ <- _. }
  destruct full; [eexists _, _; split; [done|]; split; [done|]; split_and!; (done || lia)|]. apply Hk; (done || lia).
Qed.
Lemma answers_loop_ok n : forall req' rep ttl_r j, same_request req' -> reply_ok rep -> 0 <= ttl_r < 2 ^ 32 -> 0 <= j ->
  answered (answers_loop mm hnm p (zlen p) n req' rep ttl_r j).
Proof.
  induction n as [|n IH]; intros req' rep ttl_r j HS HR Ht Hj; cbn [answers_loop]; [by eexists _, _|].
  assert (Herr : answered (Some (req', None))) by by eexists _, _.
  destruct (rr_header_ok j Hj) as [->|([[[[type class] ttl] dl] j1] & -> & HT & HC & HL & HD & Hj1)]; cbn [or_else]; [done|].
  assert (Hskip : answered (answers_loop mm hnm p (zlen p) n req' rep ttl_r (j1 + dl))) by (apply IH; (done || lia)).
  destruct HR as [HR1 HR2]. pose proof HS as (_ & HS2 & _). rewrite HS2. destruct (_ && _).
  { destruct (request_type req =? TYPE_A) eqn:E; cbn [negb]; [|done]. case_if; [done|]. rewrite ?E in HR2. apply Z.eqb_eq in E.
    apply (addresses_answered req' rep ttl_r ttl j1 dl 4 (answers_loop mm hnm p (zlen p) n req')); try (done || lia).
    - intros rep' HA Hn. split; [by rewrite Hn | by rewrite E].
    - intros rep' j' HR' Hj'. apply IH; (done || lia). }
  destruct (_ && _).
  { case_if; [done|]. apply name_ok_step; [lia | done|]. intros name j2 Hj2 Hn _. eexists _, _. split; [done|]. split; [done|]. split; [split; [cbn; lia | exact HR2] | lia]. }
  destruct (type =? TYPE_CNAME).
  { destruct (put_cname_in_ptr req') as [[|]|]; try done. apply name_ok_step; [lia | done|]. intros name j2 Hj2 Hn _. apply IH; [by destruct HS as (? & ? & ?) | by split | lia | lia]. }
  destruct (_ && _); [|done]. destruct (request_type req =? TYPE_AAAA) eqn:E; cbn [negb]; [|done]. case_if; [done|]. rewrite ?E in HR2. apply Z.eqb_eq in E. rewrite ?E in HR2.
  apply (addresses_answered req' rep ttl_r ttl j1 dl 16 (answers_loop mm hnm p (zlen p) n req')); try (done || lia).
  - intros rep' HA Hn. split; [by rewrite Hn | by rewrite E].
  - intros rep' j' HR' Hj'. apply IH; (done || lia).
Qed.
Lemma authority_loop_ok n : forall ttl_r j, 0 <= j -> 0 <= ttl_r < 2 ^ 32 ->
  authority_loop p (zlen p) n ttl_r j = Some None \/ exists ttl' j', authority_loop p (zlen p) n ttl_r j = Some (Some (ttl', j')) /\ 0 <= ttl' < 2 ^ 32.
Proof.
  induction n as [|n IH]; intros ttl_r j Hj Ht; cbn [authority_loop]; [right; by eexists _, _|].
  destruct (rr_header_ok j Hj) as [->|([[[[type class] ttl] dl] j1] & -> & HT & HC & HL & HD & Hj1)]; cbn [or_else]; [by left|].
  case_if; [|apply IH; lia]. apply name_ok_step; [lia | by left|]. intros _ j2 Hj2 _ _. apply name_ok_step; [lia | by left|]. intros _ j3 Hj3 _ _.
  do 4 (eapply or_else_ok; [apply GET32_ok; lia | by left|]; intros ? ? ? _; cbn beta iota). eapply or_else_ok; [apply GET32_ok; lia | by left|]. intros minimum j4 Hj4 Hmin. cbn in Hmin. apply IH; lia.
Qed.

(** The outcome for the request that is found. *)
Definition handled_ok (out : reply_parsed) : Prop :=
  match out with
  | NoRequest => False
  | ReplyHandle req' flags ttl rep => same_request req' /\ 0 <= ttl < 2 ^ 32 /\ match rep with Some rep => reply_ok rep | None => True end
  end.
Lemma reply_body_ok flags questions answers authority j : 0 <= j ->
  exists r out, reply_body mm hnm randomize_case p (zlen p) req flags questions answers authority j = Some (r, out) /\ handled_ok out.
Proof.
  intros Hj. unfold reply_body. assert (Herr : forall req', same_request req' -> exists r out, Some (-1, ReplyHandle req' flags 0 None) = Some (r, out) /\ handled_ok out).
  { intros req' HS. eexists _, _. split; [done|]. split; [done|]. split; [lia | done]. }
  case_if; [by apply Herr|]. destruct (questions_loop_ok (Z.to_nat questions) j false Hj) as [->|(j1 & b & -> & Hj1)]; cbn [or_else]; [by apply Herr|].
  destruct b; cbn [negb]; [|by apply Herr]. destruct (answers_loop_ok (Z.to_nat answers) req (Reply (request_type req) false [] []) 0xffffffff j1) as (req2 & r & -> & HS & HR); [done | | lia | lia|].
  { split; [cbn [ptr_name]; change (zlen []) with 0; lia|]. cbn [addresses]. unfold addresses_ok. cbn [addresses].
    assert (Hnil : forall size : Z, zlen (@nil (list Z)) <= 32 /\ Forall (fun a : list Z => zlen a = size) []) by (intros; split; [change (zlen []) with 0; lia | constructor]).
    repeat case_if; (done || apply Hnil). }
  cbn [mbind option_bind]. destruct r as [[[rep ttl'] j2]|]; [|by apply Herr]. destruct HR as (HR & Ht & Hj2).
  assert (Hdone : forall t, 0 <= t < 2 ^ 32 -> exists r out, Some (0, ReplyHandle req2 flags (if t =? 0xffffffff then 0 else t) (Some rep)) = Some (r, out) /\ handled_ok out).
  { intros t Hb. eexists _, _. split; [done|]. split; [done|]. split; [case_if; lia | done]. }
  destruct (have_answer rep); cbn [or_else]; [by apply Hdone|].
  destruct (authority_loop_ok (Z.to_nat authority) ttl' j2 Hj2 Ht) as [->|(t2 & j3 & -> & Ht2)]; cbn [or_else]; [by apply Herr | by apply Hdone].
Qed.
End Loops.
End Safe.

(** ** Whole replies.  What is kept of a packet is bounded. *)
Definition reply_kept (hnm : Z) (base : evdns_base) (out : reply_parsed) : Prop :=
  match out with
  | NoRequest => True
  | ReplyHandle req flags ttl rep => exists req0 reqs, req0 ∈ reqs /\ reqs ∈ req_heads base /\ same_request req0 req /\ 0 <= ttl < 2 ^ 32 /\
      match rep with Some rep => reply_ok hnm req0 rep | None => True end
  end.
Lemma request_found base id : req_heads base <> [] -> exists req, request_find_from_trans_id base id = Some req /\
  match req with Some req => exists reqs, req ∈ reqs /\ reqs ∈ req_heads base | None => True end.
Proof.
  intros Hne. unfold request_find_from_trans_id. assert (Hz : 0 < zlen (req_heads base)) by (destruct (req_heads base); [done | rewrite zlen_cons; pose proof (zlen_nonneg l0); lia]).
  pose proof (Z.mod_pos_bound id _ Hz). destruct (lookup_lt_is_Some_2 (req_heads base) (Z.to_nat (id mod zlen (req_heads base)))) as [reqs Hr]; [unfold zlen in *; lia|]. rewrite Hr. cbn [mbind option_bind].
  eexists. split; [done|]. destruct (list_find _ reqs) as [[i req]|] eqn:E; [|done]. apply list_find_Some in E as (Hi & _). exists reqs. split; by eapply list_elem_of_lookup_2.
Qed.
Lemma reply_parse_ok mm hnm base p : Forall is_byte p -> req_heads base <> [] -> Forall (Forall (fun req => Forall is_byte (packet req))) (req_heads base) ->
  exists r out, reply_parse mm hnm base p (zlen p) = Some (r, out) /\ reply_kept hnm base out.
Proof.
  intros Hp Hne HB.
  unfold reply_parse. eapply or_else_ok; [apply GET16_ok; [done | lia] | by eexists _, _|]. intros id j1 Hj1 Hid. cbn beta iota in *.
  do 4 (eapply or_else_ok; [apply GET16_ok; [done | lia] | by eexists _, _|]; intros ? ? ? _; cbn beta iota).
  eapply or_else_ok; [apply GET16_ok; [done | lia] | by eexists _, _|]; intros _ j6 Hj6 _; cbn beta iota.
  destruct (request_found base id Hne) as (req & -> & Hreq). destruct req as [req|]; cbn [or_else]; [|by eexists _, _]. case_if; [by eexists _, _|]. destruct Hreq as (reqs & Hin1 & Hin2).
  assert (Hpk : Forall is_byte (packet req)) by (rewrite Forall_forall in HB; specialize (HB _ Hin2); rewrite Forall_forall in HB; by apply HB).
  match goal with |- exists r out, reply_body ?a1 ?a2 ?a3 ?a4 ?a5 ?a6 ?a7 ?a8 ?a9 ?a10 ?a11 = _ /\ _ => destruct (reply_body_ok p Hp a1 a2 a3 req Hpk a7 a8 a9 a10 a11) as (r & out & -> & Hout); [lia|] end.
  exists r, out. split; [done|]. destruct out as [|req' fl ttl rep]; [done|]. destruct Hout as (HS & HT & HR). exists req, reqs. split; [exact Hin1|]. split; [exact Hin2|]. split; [exact HS|]. by split.
Qed.
