(* ===== verification/DnsFormat.v ===== *)
(** * Messages that are written

    Where the questions and records of a message are in a packet, and that the
    functions that format requests and responses put them there. *)
From Stdlib Require Import Ascii String.
From S2P Require Import Prelude Event Buffer BufferInv BufferOps BufferSearch BufferLines CString Uri UriCodec Dns DnsNames DnsSafe.
Open Scope Z_scope.

(** ** Sequences in a packet. *)
Section Sequence.
Context {A : Type} (at_ : list Z -> A -> Z -> Z -> Prop).
Inductive seq_at (p : list Z) : list A -> Z -> Z -> Prop :=
  | seq_nil j : seq_at p [] j j
  | seq_cons a l j j1 j2 : at_ p a j j1 -> seq_at p l j1 j2 -> seq_at p (a :: l) j j2.
Lemma seq_at_app p l1 l2 j j1 j2 : seq_at p l1 j j1 -> seq_at p l2 j1 j2 -> seq_at p (l1 ++ l2) j j2.
Proof. induction 1; [done|]. cbn. econstructor; eauto. Qed.
Lemma seq_at_frame p x l j j' : (forall a j j', at_ p a j j' -> at_ (p ++ x) a j j') -> seq_at p l j j' -> seq_at (p ++ x) l j j'.
Proof. intros HF. induction 1; econstructor; eauto. Qed.
End Sequence.

(** A valid name at [j]. *)
Definition is_name_at (p : list Z) (name : list Z) (j j' : Z) : Prop := name_at p (zlen p) j (labels_of name) j'.
Lemma is_name_at_frame p x name j j' : is_name_at p name j j' -> is_name_at (p ++ x) name j j'.
Proof. intros HN. apply (name_at_frame p (zlen p)); [done|]. rewrite zlen_app. pose proof (zlen_nonneg x). lia. Qed.
Definition question_at (p : list Z) (q : evdns_server_question) (j j' : Z) : Prop :=
  exists j1, is_name_at p (q_name q) j j1 /\ has p j1 (be16 (q_type q) ++ be16 (q_class q)) /\ j' = j1 + 4.
Definition item_at (p : list Z) (item : server_reply_item) (j j' : Z) : Prop :=
  exists j1, is_name_at p (item_name item) j j1 /\
    has p j1 (be16 (item_type item) ++ be16 (item_class item) ++ be32 (item_ttl item) ++ be16 (j' - (j1 + 10))) /\
    (if is_name item then exists name, item_data item = Some name /\ is_name_at p name (j1 + 10) j'
     else has p (j1 + 10) (ztake (datalen item) (default [] (item_data item))) /\ j' = j1 + 10 + datalen item).
Lemma has_frame p x j bytes : has p j bytes -> has (p ++ x) j bytes.
Proof. apply slice_frame. Qed.
Lemma question_at_frame p x q j j' : question_at p q j j' -> question_at (p ++ x) q j j'.
Proof. intros (j1 & HN & HH & ->). exists j1. split_and!; [by apply is_name_at_frame | by apply has_frame | done]. Qed.
Lemma item_at_frame p x item j j' : item_at p item j j' -> item_at (p ++ x) item j j'.
Proof.
  intros (j1 & HN & HH & HD). exists j1. split_and!; [by apply is_name_at_frame | by apply has_frame|]. destruct (is_name item).
  - destruct HD as (name & E & HD). exists name. split; [done | by apply is_name_at_frame].
  - destruct HD as [HD ->]. split; [by apply has_frame | done].
Qed.

(** ** What may be written. *)
Definition name_sendable (name : list Z) : Prop := is_cstring name /\ valid_name name = true /\ zlen name <= 255.
Record item_sendable (item : server_reply_item) : Prop := {
  is_named : name_sendable (item_name item);
  is_typed : 0 <= item_type item < 65536 /\ 0 <= item_class item < 65536 /\ 0 <= item_ttl item < 2 ^ 32;
  is_filled : if is_name item then exists name, item_data item = Some name /\ name_sendable name
              else 0 <= datalen item < 65536 /\ zlen (default [] (item_data item)) = datalen item
}.
(** The bytes that they take at most: names may be compressed. *)
Definition question_size (q : evdns_server_question) : Z := zlen (q_name q) + 6.
Definition item_size (item : server_reply_item) : Z :=
  zlen (item_name item) + 12 + (if is_name item then zlen (default [] (item_data item)) + 2 else datalen item).
Definition sizes {A} (size : A -> Z) (l : list A) : Z := foldr (fun a n => size a + n) 0 l.
Lemma question_size_nonneg q : 0 <= question_size q.
Proof. unfold question_size. pose proof (zlen_nonneg (q_name q)). lia. Qed.
Lemma item_size_nonneg item : item_sendable item -> 0 <= item_size item.
Proof.
  intros [_ _ HF]. unfold item_size. pose proof (zlen_nonneg (item_name item)). destruct (is_name item); [pose proof (zlen_nonneg (default [] (item_data item))); lia | lia].
Qed.
Lemma sizes_nonneg {A} (size : A -> Z) (P : A -> Prop) l : (forall a, P a -> 0 <= size a) -> Forall P l -> 0 <= sizes size l.
Proof. intros HP. induction 1 as [|a l Ha Hl IH]; [done|]. cbn. specialize (HP _ Ha). unfold sizes in IH. lia. Qed.

Section Format.
Context (mm : Z -> bool).

(** The place that is reached: everything is written behind [w]. *)
Definition reached (w : list Z) (size : Z) (step : option formatted) (At : list Z -> Z -> Prop) : Prop :=
  exists buf j table enc, step = Some (Next buf j table) /\ j = zlen (w ++ enc) /\ written buf (w ++ enc) buf_len /\ table_ok (w ++ enc) table /\
    zlen enc <= size /\ At (w ++ enc) j.

Lemma put_name_written buf w name table : written buf w buf_len -> name_sendable name -> zlen w + zlen name + 2 <= buf_len ->
  exists buf' table' added enc, put_name mm buf (zlen w) name table = Some (zlen (w ++ enc), buf', table') /\ written buf' (w ++ enc) buf_len /\ table' = table ++ added /\
    encoded (Some table) (zlen w) name enc added.
Proof.
  intros HW (Hc & Hv & Hl) Hfit. unfold put_name.
  destruct (dnsname_written mm buf_len buf_len ltac:(lia) ltac:(by compute) ltac:(by compute) name buf w (Some table) Hc HW ltac:(by right)) as (r & buf' & t' & -> & HW' & Hout); [done|].
  destruct Hout as [[_ Hno]|(enc & added & -> & HW2 & -> & HE)]; [specialize (Hno Hv); lia|]. cbn [mbind option_bind fmap option_fmap option_map default].
  by exists buf', (table ++ added), added, enc.
Qed.
(** The same with the table for what is written. *)
Lemma put_name_reached buf w name table : written buf w buf_len -> table_ok w table -> name_sendable name -> zlen w + zlen name + 2 <= buf_len ->
  exists buf' table' enc, put_name mm buf (zlen w) name table = Some (zlen (w ++ enc), buf', table') /\ written buf' (w ++ enc) buf_len /\ table_ok (w ++ enc) table' /\
    1 <= zlen enc <= zlen name + 2 /\ is_name_at (w ++ enc) name (zlen w) (zlen (w ++ enc)).
Proof.
  intros HW HT HN Hfit. destruct (put_name_written buf w name table HW HN Hfit) as (buf' & t' & added & enc & -> & HW' & -> & [HE1 HE2 HE3]).
  assert (HT' : tab_ok w (Some table)) by by intros t [= <-]. exists buf', (table ++ added), enc. split; [done|]. split; [done|].
  split; [apply Forall_app; split; [by apply table_ok_frame | by apply HE2]|]. split; [done|]. apply HE1; [done | done | by destruct HN as (_ & ? & _)].
Qed.

Lemma questions_reached qs : forall buf w table, written buf w buf_len -> table_ok w table -> Forall (fun q => name_sendable (q_name q)) qs -> zlen w + sizes question_size qs <= buf_len ->
  reached w (sizes question_size qs) (put_questions mm qs buf (zlen w) table) (fun p j => seq_at question_at p qs (zlen w) j).
Proof.
  induction qs as [|q qs IH]; intros buf w table HW HT HF Hfit; cbn [put_questions].
  { exists buf, (zlen w), table, []. rewrite app_nil_r. split; [done|]. split; [done|]. split; [done|]. split; [done|]. split; [done | constructor]. }
  apply Forall_cons in HF as [Hq HF]. cbn [sizes foldr] in *. fold (sizes question_size qs) in *. unfold question_size in Hfit at 1.
  pose proof (sizes_nonneg question_size (fun _ => True) qs (fun q _ => question_size_nonneg q) (Forall_true _ _ (fun _ => I))).
  destruct (put_name_reached buf w (q_name q) table HW HT Hq) as (b1 & t1 & e1 & -> & HW1 & HT1 & He1 & HN); [lia|]. cbn [mbind option_bind].
  pose proof (zlen_nonneg (w ++ e1)). replace (_ <? 0) with false by lia. pose proof (zlen_app w e1).
  destruct (append_reached 2 be16 b1 _ (q_type q) buf_len buf_len HW1 ltac:(lia) zlen_be16) as (b2 & E2 & HW2); [lia|]. unfold APPEND16. rewrite E2. cbn [or_else].
  pose proof (zlen_app (w ++ e1) (be16 (q_type q))). rewrite zlen_be16 in *.
  destruct (append_reached 2 be16 b2 _ (q_class q) buf_len buf_len HW2 ltac:(lia) zlen_be16) as (b3 & E3 & HW3); [lia|]. rewrite E3. cbn [or_else].
  rewrite <- !app_assoc in HW3. rewrite <- !app_assoc. set (e := e1 ++ be16 (q_type q) ++ be16 (q_class q)) in *.
  assert (Hze : zlen e = zlen e1 + 4) by (unfold e; rewrite !zlen_app, !zlen_be16; lia). pose proof (zlen_app w e).
  destruct (IH b3 (w ++ e) t1 HW3) as (b4 & j & t4 & e4 & -> & -> & HW4 & HT4 & He4 & HAt); [unfold e; rewrite app_assoc; by apply table_ok_frame | done | lia|].
  exists b4, (zlen ((w ++ e) ++ e4)), t4, (e ++ e4). rewrite app_assoc. split; [done|]. split; [done|]. split; [done|]. split; [done|]. split; [rewrite zlen_app; unfold question_size at 1; lia|].
  apply (seq_cons _ _ _ _ _ (zlen (w ++ e))); [|done]. apply question_at_frame. exists (zlen (w ++ e1)). split; [unfold e; rewrite app_assoc; by apply is_name_at_frame|].
  split; [|lia]. unfold e. rewrite app_assoc. by apply has_end.
Qed.

(** What is in front of the length and data of a record. *)
Lemma rr_reached item buf w table k : written buf w buf_len -> table_ok w table -> item_sendable item -> zlen w + zlen (item_name item) + 12 <= buf_len ->
  exists buf' table' enc, written buf' (w ++ enc) buf_len /\ table_ok (w ++ enc) table' /\ 9 <= zlen enc <= zlen (item_name item) + 10 /\
    (exists j1, is_name_at (w ++ enc) (item_name item) (zlen w) j1 /\ has (w ++ enc) j1 (be16 (item_type item) ++ be16 (item_class item) ++ be32 (item_ttl item)) /\ zlen (w ++ enc) = j1 + 8) /\
    ('(r, buf, table) ← put_name mm buf (zlen w) (item_name item) table;
     if r <? 0 then Some (Overflow buf)
     else
       get (buf, j) := APPEND16 buf buf_len r (item_type item) or Some (Overflow buf);
       get (buf, j) := APPEND16 buf buf_len j (item_class item) or Some (Overflow buf);
       get (buf, j) := APPEND32 buf buf_len j (item_ttl item) or Some (Overflow buf);
       k buf j table) = k buf' (zlen (w ++ enc)) table'.
Proof.
  intros HW HT [HN _ _] Hfit.
  destruct (put_name_reached buf w (item_name item) table HW HT HN) as (b1 & t1 & e1 & -> & HW1 & HT1 & He1 & HNa); [lia|]. cbn [mbind option_bind].
  pose proof (zlen_nonneg (w ++ e1)). replace (_ <? 0) with false by lia. pose proof (zlen_app w e1).
  destruct (append_reached 2 be16 b1 _ (item_type item) buf_len buf_len HW1 ltac:(lia) zlen_be16) as (b2 & E2 & HW2); [lia|]. unfold APPEND16. rewrite E2. cbn [or_else].
  pose proof (zlen_app (w ++ e1) (be16 (item_type item))). rewrite zlen_be16 in *.
  destruct (append_reached 2 be16 b2 _ (item_class item) buf_len buf_len HW2 ltac:(lia) zlen_be16) as (b3 & E3 & HW3); [lia|]. rewrite E3. cbn [or_else].
  pose proof (zlen_app ((w ++ e1) ++ be16 (item_type item)) (be16 (item_class item))). rewrite zlen_be16 in *.
  destruct (append_reached 4 be32 b3 _ (item_ttl item) buf_len buf_len HW3 ltac:(lia) zlen_be32) as (b4 & E4 & HW4); [lia|]. unfold APPEND32. rewrite E4. cbn [or_else].
  rewrite <- !app_assoc in HW4. rewrite <- !app_assoc. set (mid := be16 (item_type item) ++ be16 (item_class item) ++ be32 (item_ttl item)) in *. assert (Hmid : zlen mid = 8) by done.
  exists b4, t1, (e1 ++ mid). split; [done|]. split; [rewrite app_assoc; by apply table_ok_frame|]. split; [rewrite zlen_app, Hmid; lia|]. split; [|done].
  exists (zlen (w ++ e1)). split; [rewrite app_assoc; by apply is_name_at_frame|]. split; [rewrite app_assoc; by apply has_end|]. rewrite app_assoc, zlen_app. lia.
Qed.
(** The length of the data follows what is in front of it. *)
Lemma rr_has w j1 t c l dl rest : has w j1 (be16 t ++ be16 c ++ be32 l) -> zlen w = j1 + 8 -> has (w ++ be16 dl ++ rest) j1 (be16 t ++ be16 c ++ be32 l ++ be16 dl).
Proof.
  intros (a & r & -> & <- & _)%slice_some Hz. assert (Hr : r = []).
  { apply zlen_nil. rewrite !zlen_app in Hz. change (zlen (be16 t)) with 2 in Hz. change (zlen (be16 c)) with 2 in Hz. change (zlen (be32 l)) with 4 in Hz. lia. }
  subst r. rewrite app_nil_r. replace ((a ++ be16 t ++ be16 c ++ be32 l) ++ be16 dl ++ rest) with (a ++ (be16 t ++ be16 c ++ be32 l ++ be16 dl) ++ rest) by by rewrite <- !app_assoc. by apply has_app.
Qed.
Lemma item_reached item buf w table : written buf w buf_len -> table_ok w table -> item_sendable item -> zlen w + item_size item <= buf_len ->
  reached w (item_size item) (put_item mm item buf (zlen w) table) (fun p j => item_at p item (zlen w) j).
Proof.
  intros HW HT HI Hfit. pose proof (item_size_nonneg _ HI) as Hsz. assert (Hz : zlen w + zlen (item_name item) + 12 <= buf_len).
  { destruct HI as [_ _ HF]. unfold item_size in *. destruct (is_name item); [pose proof (zlen_nonneg (default [] (item_data item))); lia | lia]. }
  unfold put_item. pose proof HI as [_ _ HF].
  match goal with |- reached _ _ (?m ≫= _) _ => destruct (rr_reached item buf w table (fun buf j table =>
    if is_name item then
      name ← item_data item;
      '(r, buf, table) ← put_name mm buf (j + 2) name table;
      if r <? 0 then Some (Overflow buf) else buf ← put buf j (be16 (r - (j + 2))); Some (Next buf r table)
    else
      get (buf, j) := APPEND16 buf buf_len j (datalen item) or Some (Overflow buf);
      if buf_len <? j + datalen item then Some (Overflow buf)
      else buf ← put buf j (ztake (datalen item) (default [] (item_data item))); Some (Next buf (j + datalen item) table)) HW HT HI Hz)
    as (b1 & t1 & e1 & HW1 & HT1 & He1 & (j1 & HN & HH & Hj1) & E) end. cbv zeta in E |- *. rewrite E. clear E.
  pose proof (zlen_app w e1) as Hwe. unfold item_size in *. destruct (is_name item) eqn:Eis.
  - destruct HF as (name & Ed & Hname). rewrite Ed in *. cbn [default id mbind option_bind] in *. pose proof (zlen_nonneg name).
    destruct (written_gap b1 (w ++ e1) buf_len 2 HW1) as (x & Hx & HWx); [lia..|]. pose proof (zlen_app (w ++ e1) x) as Hwx. rewrite Hx in Hwx. rewrite <- Hwx.
    destruct (put_name_written b1 ((w ++ e1) ++ x) name t1 HWx Hname) as (b2 & t2 & added & e2 & E2 & HW2 & -> & [HE1 HE2 HE3]); [lia|].
    rewrite E2. cbn [mbind option_bind]. pose proof (zlen_nonneg (((w ++ e1) ++ x) ++ e2)). replace (_ <? 0) with false by lia.
    set (dl := zlen (((w ++ e1) ++ x) ++ e2) - zlen ((w ++ e1) ++ x)). rewrite <- app_assoc in HW2.
    destruct (put_gap b2 (w ++ e1) x e2 buf_len (be16 dl) HW2) as (b3 & -> & HW3); [by rewrite zlen_be16|]. cbn [mbind option_bind].
    assert (Hw1 : zlen ((w ++ e1) ++ be16 dl) = zlen ((w ++ e1) ++ x)) by (rewrite !zlen_app, zlen_be16; lia).
    assert (HT' : tab_ok ((w ++ e1) ++ be16 dl) (Some t1)) by (intros t [= <-]; by apply table_ok_frame).
    assert (Hend : zlen (((w ++ e1) ++ x) ++ e2) = zlen (w ++ e1 ++ be16 dl ++ e2)) by (rewrite !zlen_app, zlen_be16; lia).
    exists b3, (zlen (w ++ e1 ++ be16 dl ++ e2)), (t1 ++ added), (e1 ++ be16 dl ++ e2). rewrite Hend. rewrite <- !app_assoc in *. split; [done|]. split; [done|]. split; [done|].
    split; [apply Forall_app; split; [rewrite app_assoc; by apply table_ok_frame|]; specialize (HE2 _ Hw1 HT'); by rewrite <- !app_assoc in HE2|].
    split; [rewrite !zlen_app, zlen_be16; lia|]. specialize (HE1 _ Hw1 HT' (proj1 (proj2 Hname))). rewrite <- !app_assoc in HE1.
    exists j1. rewrite app_assoc. split; [by apply is_name_at_frame|]. replace (zlen ((w ++ e1) ++ be16 dl ++ e2) - (j1 + 10)) with dl by (unfold dl; rewrite !zlen_app, zlen_be16; lia).
    split; [by apply rr_has|]. rewrite Eis. exists name. split; [done|]. rewrite <- app_assoc. replace (j1 + 10) with (zlen (w ++ e1 ++ x)) by (rewrite !zlen_app; lia). exact HE1.
  - pose proof (zlen_app (w ++ e1) (be16 (datalen item))) as Hd. rewrite zlen_be16 in Hd. destruct HF as [Hdl Hzd].
    destruct (append_reached 2 be16 b1 (w ++ e1) (datalen item) buf_len buf_len HW1 ltac:(lia) zlen_be16) as (b2 & E2 & HW2); [lia|]. unfold APPEND16. rewrite E2. cbn [or_else].
    replace (buf_len <? _) with false by lia. set (data := ztake (datalen item) (default [] (item_data item))).
    assert (Hdata : zlen data = datalen item) by (unfold data; rewrite zlen_ztake; lia).
    destruct (put_written b2 _ data buf_len HW2) as (b3 & -> & HW3); [lia|]. cbn [mbind option_bind]. rewrite <- !app_assoc in HW3.
    assert (Hend : zlen ((w ++ e1) ++ be16 (datalen item)) + datalen item = zlen (w ++ e1 ++ be16 (datalen item) ++ data)) by (rewrite !zlen_app, zlen_be16; lia).
    exists b3, (zlen (w ++ e1 ++ be16 (datalen item) ++ data)), t1, (e1 ++ be16 (datalen item) ++ data). rewrite Hend. split; [done|]. split; [done|]. split; [done|].
    split; [rewrite app_assoc; by apply table_ok_frame|]. split; [rewrite !zlen_app, zlen_be16; lia|].
    exists j1. rewrite app_assoc. split; [by apply is_name_at_frame|]. replace (zlen ((w ++ e1) ++ be16 (datalen item) ++ data) - (j1 + 10)) with (datalen item) by (rewrite !zlen_app, zlen_be16 in *; lia).
    split; [by apply rr_has|]. rewrite Eis. split; [|rewrite !zlen_app, zlen_be16 in *; lia]. fold data. rewrite app_assoc. apply has_end. rewrite !zlen_app, zlen_be16 in *. lia.
Qed.
Lemma items_reached items : forall buf w table, written buf w buf_len -> table_ok w table -> Forall item_sendable items -> zlen w + sizes item_size items <= buf_len ->
  reached w (sizes item_size items) (put_items mm items buf (zlen w) table) (fun p j => seq_at item_at p items (zlen w) j).
Proof.
  induction items as [|item items IH]; intros buf w table HW HT HF Hfit; cbn [put_items].
  { exists buf, (zlen w), table, []. rewrite app_nil_r. split; [done|]. split; [done|]. split; [done|]. split; [done|]. split; [done | constructor]. }
  apply Forall_cons in HF as [Hi HF]. cbn [sizes foldr] in *. fold (sizes item_size items) in *. pose proof (sizes_nonneg _ _ _ item_size_nonneg HF).
  destruct (item_reached item buf w table HW HT Hi) as (b1 & j & t1 & e1 & -> & -> & HW1 & HT1 & He1 & HA1); [lia|]. cbn [mbind option_bind]. pose proof (zlen_app w e1).
  destruct (IH b1 (w ++ e1) t1 HW1 HT1 HF) as (b2 & j & t2 & e2 & -> & -> & HW2 & HT2 & He2 & HA2); [lia|].
  exists b2, (zlen ((w ++ e1) ++ e2)), t2, (e1 ++ e2). rewrite app_assoc. split; [done|]. split; [done|]. split; [done|]. split; [done|]. split; [rewrite zlen_app; lia|].
  apply (seq_cons _ _ _ _ _ (zlen (w ++ e1))); [by apply item_at_frame | done].
Qed.
End Format.

(** * Whole messages

    The header of a message and what the functions that make whole messages
    put into their buffers. *)
Definition header (id flags nquestions nanswers nauthority nadditional : Z) : list Z :=
  be16 id ++ be16 flags ++ be16 nquestions ++ be16 nanswers ++ be16 nauthority ++ be16 nadditional.
Lemma zlen_header id fl q a n d : zlen (header id fl q a n d) = 12.
Proof. done. Qed.

(** Room behind bytes of a length that is known. *)
Ltac width k := match goal with |- zlen ?w + _ <= _ => change (zlen w) with k; lia end.
(** The six numbers of the header are written. *)
Lemma header_written buf m len a b c d e f {B} (err : list Z -> option B) (k : list Z -> Z -> option B) : zlen buf = m -> 12 <= len <= m ->
  exists buf', written buf' (header a b c d e f) m /\
    (get (buf, j) := APPEND16 buf len 0 a or err buf;
     get (buf, j) := APPEND16 buf len j b or err buf;
     get (buf, j) := APPEND16 buf len j c or err buf;
     get (buf, j) := APPEND16 buf len j d or err buf;
     get (buf, j) := APPEND16 buf len j e or err buf;
     get (buf, j) := APPEND16 buf len j f or err buf;
     k buf j) = k buf' 12.
Proof.
  intros Hm Hlen. pose proof (written_nil buf) as HW. rewrite Hm in HW. unfold APPEND16.
  destruct (append_reached 2 be16 buf [] a len m HW ltac:(lia) zlen_be16 ltac:(width 0)) as (b1 & E1 & W1). change (zlen []) with 0 in E1. rewrite E1. cbn [or_else]. clear E1.
  destruct (append_reached 2 be16 b1 _ b len m W1 ltac:(lia) zlen_be16 ltac:(width 2)) as (b2 & E2 & W2). rewrite E2. cbn [or_else]. clear E2.
  destruct (append_reached 2 be16 b2 _ c len m W2 ltac:(lia) zlen_be16 ltac:(width 4)) as (b3 & E3 & W3). rewrite E3. cbn [or_else]. clear E3.
  destruct (append_reached 2 be16 b3 _ d len m W3 ltac:(lia) zlen_be16 ltac:(width 6)) as (b4 & E4 & W4). rewrite E4. cbn [or_else]. clear E4.
  destruct (append_reached 2 be16 b4 _ e len m W4 ltac:(lia) zlen_be16 ltac:(width 8)) as (b5 & E5 & W5). rewrite E5. cbn [or_else]. clear E5.
  destruct (append_reached 2 be16 b5 _ f len m W5 ltac:(lia) zlen_be16 ltac:(width 10)) as (b6 & E6 & W6). rewrite E6. cbn [or_else]. clear E6.
  exists b6. split; [|done]. unfold header. rewrite <- !app_assoc in W6. exact W6.
Qed.

(** ** Requests. *)
Definition query (id type class : Z) (enc : list Z) : list Z := header id 0x0100 1 0 0 0 ++ enc ++ be16 type ++ be16 class.
Lemma evdns_request_data_build_ok mm name id type class buf : name_sendable name -> evdns_request_len (zlen name) <= zlen buf -> zlen buf < 2 ^ 63 ->
  exists buf' enc, evdns_request_data_build mm name (zlen name) id type class buf (evdns_request_len (zlen name)) = Some (zlen (query id type class enc), buf') /\
    written buf' (query id type class enc) (zlen buf) /\ question_at (query id type class enc) (Question type class name) 12 (zlen (query id type class enc)) /\
    1 <= zlen enc <= zlen name + 2.
Proof.
  intros (Hc & Hv & Hl) Hlen Hsmall. pose proof (zlen_nonneg name). set (len := evdns_request_len (zlen name)) in *. assert (Hlenv : len = zlen name + 102) by (unfold len, evdns_request_len; lia).
  unfold evdns_request_data_build. fold len.
  destruct (header_written buf (zlen buf) len id 0x0100 1 0 0 0 (fun buf => Some (-1, buf)) (fun buf j =>
    '(j, buf, _) ← dnsname_to_labels mm buf len j name (zlen name) None;
    if j <? 0 then Some (j, buf)
    else
      get (buf, j) := APPEND16 buf len j type or Some (-1, buf);
      get (buf, j) := APPEND16 buf len j class or Some (-1, buf);
      Some (j, buf)) eq_refl ltac:(lia)) as (b1 & W1 & E1). cbv beta in E1. rewrite E1. clear E1. set (w := header id 0x0100 1 0 0 0) in *. change 12 with (zlen w).
  destruct (dnsname_written mm len (zlen buf) Hlen ltac:(lia) Hsmall name b1 w None Hc W1) as (r & b2 & t2 & -> & _ & Hout); [change (zlen w) with 12; lia | done|].
  destruct Hout as [[_ Hno]|(enc & added & -> & W2 & _ & [HE _ Hel])]; [specialize (Hno Hv); change (zlen w) with 12 in Hno; lia|]. cbn [mbind option_bind].
  pose proof (zlen_app w enc) as Hz. change (zlen w) with 12 in Hz. replace (_ <? 0) with false by lia. unfold APPEND16.
  destruct (append_reached 2 be16 b2 _ type len (zlen buf) W2 Hlen zlen_be16) as (b3 & E3 & W3); [lia|]. rewrite E3. cbn [or_else]. clear E3.
  pose proof (zlen_app (w ++ enc) (be16 type)). rewrite zlen_be16 in *.
  destruct (append_reached 2 be16 b3 _ class len (zlen buf) W3 Hlen zlen_be16) as (b4 & E4 & W4); [lia|]. rewrite E4. cbn [or_else]. clear E4. rewrite <- !app_assoc in *. fold (query id type class enc) in *.
  exists b4, enc. split; [done|]. split; [done|]. split; [|done]. exists (zlen (w ++ enc)). split.
  - unfold query. rewrite app_assoc. apply is_name_at_frame. apply HE; [done | by intros t | done].
  - split; [unfold query; rewrite app_assoc; by apply has_end|]. unfold query. fold w. rewrite app_assoc, zlen_app. done.
Qed.

(** ** Responses. *)
Section Response.
Context (mm : Z -> bool) (mm_ok : forall n, mm n = true).
Implicit Types req : server_request.

(** The numbers of records are those of the lists, and all of it may be sent. *)
Definition records req : list server_reply_item := answer req ++ authority req ++ additional req.
Record response_sendable req : Prop := {
  rs_counts : n_answer req = zlen (answer req) /\ n_authority req = zlen (authority req) /\ n_additional req = zlen (additional req);
  rs_questions : Forall (fun q => name_sendable (q_name q)) (questions req);
  rs_records : Forall item_sendable (records req);
  rs_size : 12 + sizes question_size (questions req) + sizes item_size (records req) <= buf_len
}.
Definition response_flags req (err : Z) : Z := u16 (Z.lor (server_flags req) (Z.lor 0x8000 err)).
Definition response_header req (err : Z) : list Z :=
  header (server_trans_id req) (response_flags req err) (zlen (questions req)) (n_answer req) (n_authority req) (n_additional req).
(** A packet with the message of [req]. *)
Definition message req (err : Z) (p : list Z) : Prop :=
  has p 0 (response_header req err) /\
  exists j, seq_at question_at p (questions req) 12 j /\ seq_at item_at p (records req) j (zlen p).

Lemma be16_lor_hi f : be16 (Z.lor (u16 f) 0x200) = [Z.lor (u16 f / 256) 2; u16 f mod 256].
Proof.
  assert (Hf : 0 <= u16 f < 65536) by (unfold u16; lia). revert Hf. generalize (u16 f) as x. clear f. intros x Hx. unfold be16.
  assert (H0 : Z.lor x 0x200 = 256 * Z.lor (x / 256) 2 + x mod 256).
  { transitivity (Z.lor (Z.shiftl (Z.lor (x / 256) 2) 8) (x mod 256)).
    - apply Z.bits_inj'. intros i Hi. rewrite !Z.lor_spec, Z.shiftl_spec, Z.lor_spec by done. change 0x200 with (Z.shiftl 2 8). rewrite Z.shiftl_spec by done. change 256 with (2 ^ 8).
      destruct (Z.lt_ge_cases i 8).
      + rewrite Z.mod_pow2_bits_low, !(Z.testbit_neg_r _ (i - 8)) by lia. cbn. by rewrite orb_false_r.
      + rewrite Z.mod_pow2_bits_high, <- Z.shiftr_div_pow2, Z.shiftr_spec by lia. replace (i - 8 + 8) with i by lia. by rewrite orb_false_r.
    - rewrite lor_shiftl_add by lia. lia. }
  assert (Hl : 0 <= Z.lor (x / 256) 2 < 256).
  { pose proof (all_chars_ok (fun c => Z.lor c 2 <? 256) ltac:(vm_compute; reflexivity) (x / 256) ltac:(lia)) as HA. cbn beta in HA. assert (0 <= Z.lor (x / 256) 2) by (apply Z.lor_nonneg; lia). lia. }
  rewrite H0. unfold u16. f_equal; [|f_equal]; lia.
Qed.
(** The response that is cut off after 512 bytes. *)
Lemma truncated_ok w buf id fl rest : written buf w buf_len -> w = be16 id ++ be16 (u16 fl) ++ rest -> exists buf', truncated_response buf = Some (buf', 512) /\ zlen buf' = buf_len /\
  has buf' 0 (be16 id ++ be16 (Z.lor (u16 fl) 0x200)).
Proof.
  intros [[tl ->] Hz] ->. unfold truncated_response. rewrite be16_lor_hi. rewrite <- !app_assoc in *. assert (Hb : be16 (u16 fl) = [u16 fl / 256] ++ [u16 fl mod 256]).
  { unfold be16, u16. cbn [app]. by rewrite Z.mod_mod by lia. }
  assert (Hsl : slice (be16 id ++ be16 (u16 fl) ++ rest ++ tl) 2 1 = Some [u16 fl / 256]).
  { rewrite Hb, <- app_assoc. apply (slice_app (be16 id) [u16 fl / 256]). }
  rewrite Hsl. cbn [mbind option_bind]. change (of_be [u16 fl / 256]) with (0 * 256 + u16 fl / 256). rewrite Z.mul_0_l, Z.add_0_l. rewrite Hb, <- !app_assoc in *.
  destruct (put_gap (be16 id ++ [u16 fl / 256] ++ [u16 fl mod 256] ++ rest ++ tl) (be16 id) [u16 fl / 256] ([u16 fl mod 256] ++ rest ++ tl) buf_len [Z.lor (u16 fl / 256) 2]) as (b' & E & [[r ->] Hz']); [|done|].
  { split; [exists []; by rewrite app_nil_r | done]. }
  change (zlen (be16 id)) with 2 in E. rewrite E. cbn [mbind option_bind]. eexists. split; [done|]. split; [done|]. rewrite <- !app_assoc.
  replace (be16 id ++ [Z.lor (u16 fl / 256) 2] ++ [u16 fl mod 256] ++ rest ++ tl ++ r) with ([] ++ (be16 id ++ [Z.lor (u16 fl / 256) 2; u16 fl mod 256]) ++ rest ++ tl ++ r) by by rewrite <- !app_assoc.
  by apply has_app.
Qed.
Lemma has_take p j bytes n : has p j bytes -> j + zlen bytes <= n <= zlen p -> has (ztake n p) j bytes.
Proof.
  intros (a & c & -> & <- & _)%slice_some Hn. rewrite app_assoc, ztake_app_ge by (rewrite zlen_app; lia). rewrite <- app_assoc. by apply has_app.
Qed.
Lemma slice_0 p n : 0 <= n <= zlen p -> slice p 0 n = Some (ztake n p).
Proof. intros Hn. unfold slice. replace (_ && _) with true by lia. by rewrite zdrop_0. Qed.

Lemma format_response_ok req err buf : response_sendable req -> 0 <= err <= 15 -> zlen buf = buf_len ->
  exists p, evdns_server_request_format_response mm req err buf = Some (0, {| (server_request_free_answers req) with response := Some p |}) /\ zlen p <= 512 /\
    (message req err p \/ (zlen p = 512 /\ has p 0 (be16 (server_trans_id req) ++ be16 (Z.lor (response_flags req err) 0x200)))).
Proof.
  intros [(Hn1 & Hn2 & Hn3) HQ HI Hsz] Herr Hbuf. unfold evdns_server_request_format_response. replace (_ || _) with false by lia. fold (response_flags req err).
  pose proof (sizes_nonneg _ _ _ item_size_nonneg HI). pose proof (sizes_nonneg question_size (fun _ => True) (questions req) (fun q _ => question_size_nonneg q) (Forall_true _ _ (fun _ => I))).
  destruct (header_written buf buf_len buf_len (server_trans_id req) (response_flags req err) (zlen (questions req)) (n_answer req) (n_authority req) (n_additional req) (fun buf => Some (Overflow buf))
    (fun buf j => step ← put_questions mm (questions req) buf j []; match step with Next buf j table => put_items mm (records req) buf j table | _ => Some step end) Hbuf ltac:(by compute)) as (b1 & W1 & E1).
  cbv beta in E1. unfold records in *. rewrite E1. clear E1. fold (records req) in *. fold (response_header req err) in W1. set (w := response_header req err) in *. change 12 with (zlen w).
  destruct (questions_reached mm (questions req) b1 w [] W1 ltac:(constructor) HQ) as (b2 & j & t2 & e2 & -> & -> & W2 & T2 & L2 & S2); [change (zlen w) with 12; lia|]. cbn [mbind option_bind].
  pose proof (zlen_app w e2) as Hz2. change (zlen w) with 12 in Hz2.
  destruct (items_reached mm (records req) b2 (w ++ e2) t2 W2 T2 HI) as (b3 & j & t3 & e3 & -> & -> & W3 & T3 & L3 & S3); [lia|]. cbn [mbind option_bind].
  pose proof (written_len _ _ _ W3) as Hle. destruct (512 <? zlen ((w ++ e2) ++ e3)) eqn:E.
  - destruct (truncated_ok _ b3 (server_trans_id req) (Z.lor (server_flags req) (Z.lor 0x8000 err)) (be16 (zlen (questions req)) ++ be16 (n_answer req) ++ be16 (n_authority req) ++ be16 (n_additional req) ++ e2 ++ e3) W3) as (b4 & -> & Hb4 & Hh).
    { unfold w, response_header, header. fold (response_flags req err). by rewrite <- !app_assoc. }
    cbn [mbind option_bind]. rewrite mm_ok, slice_0 by (rewrite Hb4; by compute). cbn [mbind option_bind]. exists (ztake 512 b4). split; [done|].
    assert (Hz : zlen (ztake 512 b4) = 512) by (apply zlen_ztake; rewrite Hb4; by compute). rewrite Hz. split; [lia|]. right. split; [done|]. apply has_take; [done|]. rewrite Hb4. by compute.
  - cbn [mbind option_bind]. destruct W3 as [[rest ->] Hz3]. rewrite mm_ok. pose proof (zlen_nonneg ((w ++ e2) ++ e3)). rewrite (zlen_app _ rest) in Hz3. pose proof (zlen_nonneg rest).
    rewrite slice_0 by (rewrite (zlen_app _ rest); lia). cbn [mbind option_bind]. rewrite ztake_app_le, ztake_ge by lia. exists ((w ++ e2) ++ e3). split; [done|]. split; [lia|]. left. split.
    + replace ((w ++ e2) ++ e3) with ([] ++ w ++ e2 ++ e3) by by rewrite <- app_assoc. by apply has_app.
    + exists (zlen (w ++ e2)). split; [|done]. change 12 with (zlen w). apply seq_at_frame; [|done]. intros q j j'. apply question_at_frame.
Qed.
End Response.

(** * Messages that are read

    What the parser of replies makes of a message with given records. *)
Lemma of_be16_u16 x : of_be (be16 x) = u16 x.
Proof. unfold of_be, be16, u16. cbn. lia. Qed.
Lemma GET16_has p j x : has p j (be16 x) -> GET16 p (zlen p) j = Some (Some (u16 x, j + 2)).
Proof. intros Hh. unfold GET16. rewrite (get_be_has p j (be16 x)) by done. by rewrite of_be16_u16. Qed.
Lemma GET32_has p j x : 0 <= x < 2 ^ 32 -> has p j (be32 x) -> GET32 p (zlen p) j = Some (Some (x, j + 4)).
Proof. intros Hx Hh. unfold GET32. rewrite (get_be_has p j (be32 x)) by done. by rewrite of_be32. Qed.
Lemma u16_small x : 0 <= x < 65536 -> u16 x = x.
Proof. unfold u16. lia. Qed.
Lemma name_reads p name j j' nol : is_name_at p name j j' -> name_sendable name -> zlen (without_dot name) < nol -> name_parse p (zlen p) j nol = Some (Some (j', without_dot name)).
Proof.
  intros HN (Hc & Hv & Hl) Hn. rewrite (name_parse_reads p (zlen p) j (labels_of name) j' nol HN) by (rewrite ?dotted_labels; done || lia). by rewrite dotted_labels.
Qed.
Lemma name_reads_256 p name j j' : is_name_at p name j j' -> name_sendable name -> name_parse p (zlen p) j 256 = Some (Some (j', without_dot name)).
Proof. intros HN HS. apply name_reads; [done | done|]. destruct HS as (_ & _ & ?). pose proof (zlen_without_dot name). lia. Qed.

(** ** Records. *)
Lemma item_reads p item j j' : item_at p item j j' -> item_sendable item -> zlen p < 65536 ->
  exists jd, rr_header p (zlen p) j = Some (Some (item_type item, item_class item, item_ttl item, j' - jd, jd)) /\ 0 <= jd <= j' /\ j' <= zlen p /\
    (if is_name item then exists name, item_data item = Some name /\ is_name_at p name jd j'
     else has p jd (default [] (item_data item)) /\ j' = jd + datalen item).
Proof.
  intros (j1 & HN & HH & HD) [Hn (Ht & Hc & Hl) HF] Hp. exists (j1 + 10). unfold rr_header. rewrite (name_reads_256 _ _ _ _ HN Hn). cbn [or_else].
  pose proof (name_at_range _ _ _ _ _ HN) as HR. apply has_split in HH as [H1 HH]. apply has_split in HH as [H2 HH]. apply has_split in HH as [H3 H4].
  change (zlen (be16 (item_type item))) with 2 in *. change (zlen (be16 (item_class item))) with 2 in *. change (zlen (be32 (item_ttl item))) with 4 in *.
  rewrite (GET16_has _ _ _ H1). cbn [or_else]. rewrite (GET16_has _ _ _ H2). cbn [or_else]. rewrite (GET32_has _ _ _ Hl H3). cbn [or_else]. rewrite (GET16_has _ _ _ H4). cbn [or_else].
  rewrite (u16_small (item_type item)), (u16_small (item_class item)) by done. replace (j1 + 2 + 2 + 4 + 2) with (j1 + 10) by lia.
  assert (Hj : j1 + 10 <= j' /\ j' <= zlen p /\ (if is_name item then exists name, item_data item = Some name /\ is_name_at p name (j1 + 10) j' else has p (j1 + 10) (default [] (item_data item)) /\ j' = j1 + 10 + datalen item)).
  { destruct (is_name item).
    - destruct HD as (name & Ed & HD). pose proof (name_at_range _ _ _ _ _ HD). split; [lia|]. split; [lia|]. by exists name.
    - destruct HD as [HD ->]. destruct HF as [Hdl Hz]. rewrite ztake_ge in HD by lia. pose proof (slice_bound _ _ _ _ HD). split; [lia|]. split; [lia | done]. }
  destruct Hj as (Hj1 & Hj2 & Hj3). rewrite u16_small by lia. split_and!; (done || lia).
Qed.

Lemma cut_take k size l : cut k size (take (k * size) l) = cut k size l.
Proof.
  revert l. induction k as [|k IH]; intros l; [done|]. cbn [cut Nat.mul]. rewrite take_take, skipn_firstn_comm. replace (size `min` (size + k * size))%nat with size by lia.
  replace (size + k * size - size)%nat with (k * size)%nat by lia. by rewrite IH.
Qed.
Lemma has_part p j bytes n : has p j bytes -> 0 <= n <= zlen bytes -> slice p j n = Some (ztake n bytes).
Proof.
  intros Hh Hn. pose proof (zlen_ztake n bytes Hn) as Hz. rewrite <- (zdrop_take n bytes) in Hh. apply has_split in Hh as [Hh _]. unfold has in Hh. by rewrite Hz in Hh.
Qed.

Lemma without_dot_cstring name : is_cstring name -> is_cstring (without_dot name).
Proof.
  intros Hc. unfold without_dot. destruct (reverse name) as [|c r] eqn:E; [done|]. destruct (c =? 46); [|done]. unfold is_cstring in *.
  rewrite <- (reverse_involutive name), E, reverse_cons in Hc. by apply Forall_app in Hc as [? _].
Qed.
Lemma without_dot_cstr name : is_cstring name -> cstr (without_dot name) = without_dot name.
Proof.
  intros Hw%without_dot_cstring. unfold cstr. rewrite split_at_none; [done|]. intros Hin. unfold is_cstring in Hw. rewrite Forall_forall in Hw. apply Hw in Hin. unfold is_char in Hin. lia.
Qed.

Section Collect.
Context (mm : Z -> bool) (hnm : Z).

(** What the parser accepts: addresses of their size, and names where they are
    expected that are not too long. *)
Definition item_readable (item : server_reply_item) : Prop :=
  (item_type item = TYPE_A -> item_class item = CLASS_INET -> is_name item = false /\ datalen item mod 4 = 0) /\
  (item_type item = TYPE_AAAA -> item_class item = CLASS_INET -> is_name item = false /\ datalen item mod 16 = 0) /\
  (item_type item = TYPE_PTR \/ item_type item = TYPE_CNAME -> is_name item = true /\ zlen (without_dot (default [] (item_data item))) < hnm).

(** What the records give for a request: addresses up to 32, the first name, or
    the canonical name; and the smallest ttl of what is used. *)
Definition add_addresses (size : Z) (item : server_reply_item) (rep : reply) : reply :=
  let n := Z.min (32 - zlen (addresses rep)) (datalen item / size) in
  {| rep with addresses := addresses rep ++ cut (Z.to_nat n) (Z.to_nat size) (default [] (item_data item)); have_answer := true |}.
Fixpoint collect (items : list server_reply_item) (req : request) (rep : reply) (ttl_r : Z) : request * reply * Z :=
  match items with
  | [] => (req, rep, ttl_r)
  | item :: items =>
      let inet := item_class item =? CLASS_INET in
      let wanted := inet && (item_type item =? request_type req) in
      let used size :=
        let rep := add_addresses size item rep in
        if zlen (addresses rep) =? 32 then (req, rep, Z.min ttl_r (item_ttl item)) else collect items req rep (Z.min ttl_r (item_ttl item)) in
      if wanted && (item_type item =? TYPE_A) then used 4
      else if wanted && (item_type item =? TYPE_AAAA) then used 16
      else if wanted && (item_type item =? TYPE_PTR) then
        (req, {| rep with ptr_name := without_dot (default [] (item_data item)); have_answer := true |}, Z.min ttl_r (item_ttl item))
      else
        match item_type item =? TYPE_CNAME, put_cname_in_ptr req with
        | true, Some None =>
            let cname := without_dot (default [] (item_data item)) in
            collect items {| req with put_cname_in_ptr := Some (if mm (zlen cname + 1) then Some cname else None) |} rep ttl_r
        | _, _ => collect items req rep ttl_r
        end
  end.

Lemma copy_reads p size rep jd item j' : 1 <= size -> is_name item = false -> datalen item mod size = 0 -> 0 <= datalen item -> zlen (addresses rep) <= 32 ->
  zlen (default [] (item_data item)) = datalen item -> has p jd (default [] (item_data item)) -> j' = jd + datalen item ->
  exists j2, copy_addresses p (zlen p) size 32 rep jd (j' - jd) = Some (Some (zlen (addresses (add_addresses size item rep)) =? 32, add_addresses size item rep, j2)) /\
    (zlen (addresses (add_addresses size item rep)) <> 32 -> j2 = j') /\ zlen (addresses (add_addresses size item rep)) <= 32.
Proof.
  intros Hs _ Hmod Hdl Hz Hzd Hh ->. replace (jd + datalen item - jd) with (datalen item) by lia. unfold copy_addresses. pose proof (zlen_nonneg (addresses rep)).
  set (n := Z.min (32 - zlen (addresses rep)) (datalen item / size)). assert (Hd : 0 <= datalen item / size) by (apply Z.div_pos; lia).
  assert (Hsd : size * (datalen item / size) = datalen item) by (pose proof (Z.div_mod (datalen item) size ltac:(lia)); lia).
  assert (Hn : 0 <= n /\ size * n <= datalen item) by (unfold n; nia). pose proof (slice_bound _ _ _ _ Hh).
  replace (zlen p <? jd + size * n) with false by lia. rewrite (has_part _ _ _ _ Hh) by lia. cbn [mbind option_bind].
  assert (Hcut : cut (Z.to_nat n) (Z.to_nat size) (ztake (size * n) (default [] (item_data item))) = cut (Z.to_nat n) (Z.to_nat size) (default [] (item_data item))).
  { unfold ztake. rewrite Z.mul_comm, Z2Nat.inj_mul by lia. apply cut_take. }
  rewrite Hcut. unfold add_addresses. fold n. cbn [addresses]. eexists. split; [done|]. rewrite zlen_app, zlen_cut. split; [|lia].
  intros Hnot. enough (n = datalen item / size) as -> by lia. unfold n in *. lia.
Qed.

Lemma collect_keeps items : forall req rep ttl_r, have_answer rep = true -> have_answer (snd (fst (collect items req rep ttl_r))) = true.
Proof.
  induction items as [|item items IH]; intros req rep ttl_r Hh; [done|]. cbn [collect]. cbv zeta.
  repeat case_if; try done; try (by apply IH); destruct (put_cname_in_ptr req) as [[|]|]; by apply IH.
Qed.
Lemma answers_read p items j j' : zlen p < 65536 -> seq_at item_at p items j j' -> Forall item_sendable items -> Forall item_readable items ->
  forall req rep ttl_r, zlen (addresses rep) <= 32 ->
  let '(req', rep', ttl') := collect items req rep ttl_r in
  exists j2, answers_loop mm hnm p (zlen p) (length items) req rep ttl_r j = Some (req', Some (rep', ttl', j2)) /\ (have_answer rep = false -> have_answer rep' = false -> j2 = j').
Proof.
  intros Hp HS. induction HS as [j|item items j j1 j2 HA HS IH]; intros HF HR req rep ttl_r Hrep; [by exists j|].
  apply Forall_cons in HF as [Hi HF]. apply Forall_cons in HR as [(RA & RAAAA & RN) HR]. specialize (IH HF HR). destruct (item_reads p item j j1 HA Hi Hp) as (jd & E & Hjd & Hj1 & HD).
  cbn [length answers_loop collect]. rewrite E. cbn [or_else]. replace (jd + (j1 - jd)) with j1 by lia. destruct Hi as [_ _ Hfill].
  assert (Hskip : forall P : bool, let '(req', rep', ttl') := collect items req rep ttl_r in
    exists j3, answers_loop mm hnm p (zlen p) (length items) req rep ttl_r j1 = Some (req', Some (rep', ttl', j3)) /\ (have_answer rep = false -> have_answer rep' = false -> j3 = j2)) by (intros _; by apply IH).
  assert (Hcopy : forall size, 1 <= size -> is_name item = false -> datalen item mod size = 0 ->
    let '(req', rep', ttl') := let rep := add_addresses size item rep in
      if zlen (addresses rep) =? 32 then (req, rep, Z.min ttl_r (item_ttl item)) else collect items req rep (Z.min ttl_r (item_ttl item)) in
    exists j3, (get (full, rep, j) := copy_addresses p (zlen p) size 32 rep jd (j1 - jd) or Some (req, None);
      let ttl_r := Z.min ttl_r (item_ttl item) in if (full : bool) then Some (req, Some (rep, ttl_r, j)) else answers_loop mm hnm p (zlen p) (length items) req rep ttl_r j) =
        Some (req', Some (rep', ttl', j3)) /\ (have_answer rep = false -> have_answer rep' = false -> j3 = j2)).
  { intros size Hs Hname Hmod. rewrite Hname in *. destruct HD as [Hh Hj]. destruct Hfill as [Hdl Hz].
    destruct (copy_reads p size rep jd item j1 Hs Hname Hmod ltac:(lia) Hrep Hz Hh Hj) as (j4 & -> & Hj4 & Hrep'). cbn [or_else]. cbv zeta.
    destruct (zlen (addresses (add_addresses size item rep)) =? 32) eqn:E32; [exists j4; split; [done|]; by intros _|].
    rewrite Hj4 by lia. specialize (IH req (add_addresses size item rep) (Z.min ttl_r (item_ttl item)) Hrep'). destruct (collect _ _ _ _) as [[req' rep'] ttl'] eqn:Ec.
    destruct IH as (j5 & -> & _). exists j5. split; [done|]. intros _ Hno. exfalso. revert Hno. pose proof (collect_keeps items req (add_addresses size item rep) (Z.min ttl_r (item_ttl item)) eq_refl) as HK. rewrite Ec in HK. cbn in HK. by rewrite HK. }
  specialize (Hskip true). assert (Hname : item_type item = TYPE_PTR \/ item_type item = TYPE_CNAME ->
    name_parse p (zlen p) jd hnm = Some (Some (j1, without_dot (default [] (item_data item)))) /\ cstr (without_dot (default [] (item_data item))) = without_dot (default [] (item_data item))).
  { intros HT. destruct (RN HT) as [Hn Hl]. rewrite Hn in *. destruct HD as (name & Ed & HN). rewrite Ed in *. cbn [default id] in *. destruct Hfill as (name' & [= <-] & HS'). split; [by apply name_reads | by apply without_dot_cstr; destruct HS']. }
  assert (Hcname : item_type item =? TYPE_CNAME = true ->
    let '(req', rep', ttl') := match put_cname_in_ptr req with
      | Some None => collect items {| req with put_cname_in_ptr := Some (if mm (zlen (without_dot (default [] (item_data item))) + 1) then Some (without_dot (default [] (item_data item))) else None) |} rep ttl_r
      | _ => collect items req rep ttl_r
      end in
    exists j3, match put_cname_in_ptr req with
      | Some None => get (j, cname) := name_parse p (zlen p) jd hnm or Some (req, None);
          let cname := cstr cname in answers_loop mm hnm p (zlen p) (length items) {| req with put_cname_in_ptr := Some (if mm (zlen cname + 1) then Some cname else None) |} rep ttl_r j
      | _ => answers_loop mm hnm p (zlen p) (length items) req rep ttl_r j1
      end = Some (req', Some (rep', ttl', j3)) /\ (have_answer rep = false -> have_answer rep' = false -> j3 = j2)).
  { intros EC. apply Z.eqb_eq in EC. destruct (put_cname_in_ptr req) as [[|]|]; [done | | done]. destruct (Hname (or_intror EC)) as [-> Hcs]. cbn [or_else]. cbv zeta. rewrite Hcs. by apply IH. }
  rewrite (Z.eqb_sym (item_type item) (request_type req)). unfold MAX_V4_ADDRS, MAX_V6_ADDRS.
  destruct (item_class item =? CLASS_INET) eqn:EI; cbn [andb]; rewrite ?andb_true_r, ?andb_false_r; [apply Z.eqb_eq in EI|].
  - destruct (item_type item =? TYPE_A) eqn:EA; [|destruct (item_type item =? TYPE_PTR) eqn:EP; [|destruct (item_type item =? TYPE_CNAME) eqn:EC]].
    + apply Z.eqb_eq in EA. rewrite EA. change (TYPE_A =? TYPE_AAAA) with false. change (TYPE_A =? TYPE_PTR) with false. change (TYPE_A =? TYPE_CNAME) with false. rewrite ?andb_true_r, ?andb_false_r.
      destruct (request_type req =? TYPE_A); cbn [negb]; [|done]. destruct (RA EA EI) as [Hn Hmod]. pose proof HD as HD'. rewrite Hn in HD'. destruct HD' as [_ Hj].
      replace (c_true (Z.land (j1 - jd) 3)) with false; [by apply Hcopy|]. symmetry. change 3 with (Z.ones 2). rewrite Z.land_ones by lia. unfold c_true. rewrite Hj. replace (jd + datalen item - jd) with (datalen item) by lia.
      change (2 ^ 2) with 4. by rewrite Hmod.
    + apply Z.eqb_eq in EP. rewrite EP. change (TYPE_PTR =? TYPE_AAAA) with false. change (TYPE_PTR =? TYPE_A) with false. change (TYPE_PTR =? TYPE_CNAME) with false. rewrite ?andb_true_r, ?andb_false_r.
      destruct (request_type req =? TYPE_PTR); cbn [negb]; [|done].
      destruct Hname as [-> _]; [by left|]. cbn [or_else]. by exists j1.
    + apply Z.eqb_eq in EC. rewrite EC. change (TYPE_CNAME =? TYPE_AAAA) with false. rewrite ?andb_false_r. exact (Hcname eq_refl).
    + rewrite ?andb_true_r, ?andb_false_r. destruct (item_type item =? TYPE_AAAA) eqn:E6; rewrite ?andb_true_r, ?andb_false_r; [|done]. apply Z.eqb_eq in E6. destruct (request_type req =? TYPE_AAAA) eqn:ER; rewrite E6, ER; cbn [negb]; [|done].
      destruct (RAAAA E6 EI) as [Hn Hmod]. pose proof HD as HD'. rewrite Hn in HD'. destruct HD' as [_ Hj].
      replace (c_true (Z.land (j1 - jd) 15)) with false; [by apply Hcopy|]. symmetry. change 15 with (Z.ones 4). rewrite Z.land_ones by lia. unfold c_true. rewrite Hj. replace (jd + datalen item - jd) with (datalen item) by lia.
      change (2 ^ 4) with 16. by rewrite Hmod.
  - destruct (item_type item =? TYPE_CNAME) eqn:EC; [exact (Hcname eq_refl) | done].
Qed.
End Collect.
