(* ===== verification/DnsProps.v ===== *)
(** * Properties of DNS messages *)
From Stdlib Require Import Ascii String.
From S2P Require Import Prelude Event Buffer BufferInv BufferOps BufferSearch BufferLines CString Uri UriCodec Dns DnsNames DnsSafe DnsFormat.
Open Scope Z_scope.

(** ** Names with a dot at the end. *)
Lemma segments_snoc s : segments (s ++ [46]) = segments s ++ [[]].
Proof.
  induction s as [|c s IH]; [done|]. cbn [app segments]. rewrite IH. destruct (c =? 46); [done|]. destruct (segments_some s) as (seg & segs & ->). done.
Qed.
Lemma name_ok_snoc segs : segs <> [] -> name_ok (segs ++ [[]]) = true -> name_ok segs = true /\ filter (fun seg => seg <> []) (segs ++ [[]]) = filter (fun seg => seg <> []) segs.
Proof.
  intros Hne Hok. split.
  - induction segs as [|seg segs IH]; [done|]. destruct segs as [|seg2 segs]; [cbn in Hok |- *; lia|]. cbn [app name_ok] in *. apply andb_true_iff in Hok as [-> Hok]. by apply IH.
  - rewrite filter_app, filter_cons_False by (intros H; by apply H). by rewrite app_nil_r.
Qed.
Lemma without_dot_sendable name : name_sendable name -> name_sendable (without_dot name) /\ labels_of (without_dot name) = labels_of name /\ without_dot (without_dot name) = without_dot name.
Proof.
  intros (Hc & Hv & Hl). pose proof (zlen_without_dot name) as Hz.
  assert (HS : name_sendable (without_dot name) /\ labels_of (without_dot name) = labels_of name).
  { unfold without_dot in *. destruct (reverse name) as [|c r] eqn:E; [done|]. destruct (c =? 46) eqn:Ec; [|done]. apply Z.eqb_eq in Ec. subst c.
    assert (En : name = reverse r ++ [46]) by by rewrite <- (reverse_involutive name), E, reverse_cons. unfold name_sendable, labels_of, valid_name in *. rewrite En, segments_snoc in *.
    destruct (name_ok_snoc (segments (reverse r))) as [Hok ->]; [destruct (segments_some (reverse r)) as (? & ? & ->); done | done|]. split; [|done].
    split; [by apply Forall_app in Hc as [? _]|]. split; [done | lia]. }
  destruct HS as [HS HL]. split; [done|]. split; [done|]. rewrite <- (dotted_labels (without_dot name)) by by destruct HS as (_ & ? & _). by rewrite HL, dotted_labels.
Qed.

Lemma strcasecmp_refl s : is_cstring s -> evutil_ascii_strcasecmp s s = 0.
Proof.
  induction 1 as [|c s Hc _ IH]; [done|]. cbn [evutil_ascii_strcasecmp at_ nth tail]. rewrite Z.ltb_irrefl. case_if; [done | exact IH].
Qed.
Lemma same_name_refl randomize_case name : is_cstring name -> same_name randomize_case (without_dot name) (without_dot name) = true.
Proof.
  intros Hc. unfold same_name, strcmp_eq. rewrite (without_dot_cstr name Hc). destruct randomize_case; [|by apply bool_decide_eq_true].
  by apply Z.eqb_eq, strcasecmp_refl, without_dot_cstring.
Qed.

(** ** Headers. *)
Lemma header_has p id fl q a n d : has p 0 (header id fl q a n d) ->
  GET16 p (zlen p) 0 = Some (Some (u16 id, 2)) /\ GET16 p (zlen p) 2 = Some (Some (u16 fl, 4)) /\ GET16 p (zlen p) 4 = Some (Some (u16 q, 6)) /\
  GET16 p (zlen p) 6 = Some (Some (u16 a, 8)) /\ GET16 p (zlen p) 8 = Some (Some (u16 n, 10)) /\ GET16 p (zlen p) 10 = Some (Some (u16 d, 12)).
Proof.
  unfold header. intros H. do 5 (apply has_split in H as [? H]). split_and!; by apply GET16_has.
Qed.
Lemma GET16_in_range p j : 0 <= j -> j + 2 <= zlen p -> exists x, GET16 p (zlen p) j = Some (Some (x, j + 2)).
Proof.
  intros Hj Hz. unfold GET16, get_be. replace (_ <? _) with false by lia. destruct (slice_range p j 2) as [bytes ->]; [lia..|]. by eexists.
Qed.
Lemma u16_idem x : u16 (u16 x) = u16 x.
Proof. unfold u16. by rewrite Z.mod_mod by lia. Qed.
Lemma land_u16 x m : 0 <= m < 65536 -> Z.land (u16 x) m = Z.land x m.
Proof.
  intros Hm. unfold u16. rewrite <- (Z.mod_small m (2 ^ 16)) by lia. rewrite <- !(Z.land_ones _ 16) by lia. rewrite <- !Z.land_assoc. f_equal. by rewrite Z.land_comm, <- !Z.land_assoc, Z.land_diag.
Qed.

(** ** The request is understood. *)
Lemma query_parsed mm (mm_ok : forall n, mm n = true) id type name enc : name_sendable name -> 0 <= id < 65536 -> 0 <= type < 65536 ->
  let p := query id type CLASS_INET enc in
  question_at p (Question type CLASS_INET name) 12 (zlen p) ->
  request_parse mm p (zlen p) = Some (0, UserCallback (ServerRequest id 0 0 0 [] [] [] None 0x100 [Question type CLASS_INET (without_dot name)])).
Proof.
  intros HN Hid Ht p (j1 & Hname & Hq & Hz). cbn [q_name q_type q_class] in *. unfold request_parse.
  assert (Hh : has p 0 (header id 0x0100 1 0 0 0)) by exact (has_app [] _ _ 0 eq_refl). apply header_has in Hh as (-> & G2 & G3 & G4 & G5 & G6).
  cbn [or_else]. rewrite G2. cbn [or_else]. rewrite G3. cbn [or_else]. rewrite G4. cbn [or_else]. rewrite G5. cbn [or_else]. rewrite G6. cbn [or_else].
  rewrite (u16_small id) by done. change (c_true (Z.land (u16 256) 32768)) with false. cbn iota. rewrite mm_ok. cbn [negb]. rewrite mm_ok. change (u16 1 =? 0) with false. cbn [negb orb].
  change (Z.to_nat (u16 1)) with 1%nat. cbn [request_questions]. rewrite (name_reads_256 _ _ _ _ Hname HN). cbn [or_else]. apply has_split in Hq as [Q1 Q2]. change (zlen (be16 type)) with 2 in Q2.
  rewrite (GET16_has _ _ _ Q1). cbn [or_else]. rewrite (GET16_has _ _ _ Q2). cbn [or_else]. rewrite mm_ok. cbn [negb or_else].
  rewrite without_dot_cstr by (by destruct HN). rewrite (u16_small type) by done. done.
Qed.

(** ** The response is understood. *)
Definition no_soa (item : server_reply_item) : Prop := ~ (item_type item = TYPE_SOA /\ item_class item = CLASS_INET).
Lemma authority_skipped p items j j' ttl : zlen p < 65536 -> seq_at item_at p items j j' -> Forall item_sendable items -> Forall no_soa items ->
  authority_loop p (zlen p) (length items) ttl j = Some (Some (ttl, j')).
Proof.
  intros Hp HS. induction HS as [j|item items j j1 j2 HA HS IH]; intros HF HN; [done|]. apply Forall_cons in HF as [Hi HF]. apply Forall_cons in HN as [Hn HN].
  cbn [length authority_loop]. destruct (item_reads p item j j1 HA Hi Hp) as (jd & -> & Hjd & _). cbn [or_else]. replace (jd + (j1 - jd)) with j1 by lia.
  replace (_ && _) with false; [by apply IH|]. symmetry. apply andb_false_iff. unfold no_soa in Hn. destruct (Z.eqb_spec (item_type item) TYPE_SOA); [|by left]. destruct (Z.eqb_spec (item_class item) CLASS_INET); [exfalso; tauto | by right].
Qed.
Lemma seq_at_split {A} (At : list Z -> A -> Z -> Z -> Prop) p l1 l2 j j' : seq_at At p (l1 ++ l2) j j' -> exists j1, seq_at At p l1 j j1 /\ seq_at At p l2 j1 j'.
Proof.
  revert j. induction l1 as [|a l1 IH]; intros j HS; [exists j; by split; [constructor|]|]. inversion HS as [|? ? ? j1 ? HA HR]; subst. destruct (IH _ HR) as (j2 & H1 & H2). exists j2. split; [by econstructor | done].
Qed.

(** What the response says of errors. *)
Lemma response_flags_answer sreq err : 0 <= err <= 15 -> Z.land (server_flags sreq) 0x020f = 0 -> 
  c_true (Z.land (response_flags sreq err) 0x8000) = true /\ Z.land (response_flags sreq err) 0x020f = err.
Proof.
  intros He Hs. unfold response_flags. rewrite !land_u16 by lia. rewrite !Z.land_lor_distr_l, Hs. split.
  - unfold c_true. apply negb_true_iff, Z.eqb_neq. intros E. apply (f_equal (fun x => Z.testbit x 15)) in E. rewrite !Z.lor_spec, !Z.land_spec in E. cbn in E. by rewrite orb_true_r in E.
  - change (Z.land 0x8000 0x020f) with 0. rewrite !Z.lor_0_l.
    assert (HA : forallb (fun e => negb (e <? 16) || (Z.land e 0x020f =? e)) all_chars = true) by (vm_compute; reflexivity). pose proof (all_chars_ok _ HA err ltac:(lia)). cbn beta in *. lia.
Qed.
Lemma truncated_flags fl : c_true (Z.land (u16 (Z.lor (u16 fl) 0x200)) 0x8000) = c_true (Z.land (u16 fl) 0x8000) /\
  c_true (Z.land (u16 (Z.lor (u16 fl) 0x200)) 0x020f) = true /\ (Z.land (u16 (Z.lor (u16 fl) 0x200)) 0x020f =? DNS_ERR_NOTEXIST) = false.
Proof.
  rewrite !land_u16 by lia. rewrite !Z.land_lor_distr_l. change (Z.land 0x200 0x8000) with 0. rewrite Z.lor_0_r, land_u16 by lia. split; [done|].
  assert (HB : Z.testbit (Z.lor (Z.land (u16 fl) 0x020f) (Z.land 0x200 0x020f)) 9 = true) by (rewrite Z.lor_spec; apply orb_true_r).
  split; [unfold c_true; apply negb_true_iff, Z.eqb_neq | apply Z.eqb_neq]; intros E; by rewrite E in HB.
Qed.

Lemma sizes_count items : Forall item_sendable items -> 12 * zlen items <= sizes item_size items.
Proof.
  induction 1 as [|item items [_ _ HF] _ IH]; [done|]. rewrite zlen_cons. cbn. unfold sizes in IH. unfold item_size at 1. pose proof (zlen_nonneg (item_name item)).
  destruct (is_name item); [pose proof (zlen_nonneg (default [] (item_data item))); lia | lia].
Qed.
Lemma records_counted sreq : Forall item_sendable (records sreq) -> sizes item_size (records sreq) <= 1500 -> zlen (answer sreq) < 1500 /\ zlen (authority sreq) < 1500.
Proof.
  intros HF Hs. pose proof (sizes_count _ HF). unfold records in *. rewrite !zlen_app in *. pose proof (zlen_nonneg (answer sreq)). pose proof (zlen_nonneg (authority sreq)). pose proof (zlen_nonneg (additional sreq)). lia.
Qed.

Section Exchange.
Context (mm : Z -> bool) (hnm : Z) (base : evdns_base).
(** A response that was cut off. *)
Lemma truncated_handled p id fl creq : zlen p = 512 -> has p 0 (be16 id ++ be16 (Z.lor (u16 fl) 0x200)) -> 0 <= id < 65536 -> c_true (Z.land (u16 fl) 0x8000) = true ->
  request_find_from_trans_id base id = Some (Some creq) -> reply_parse mm hnm base p (zlen p) = Some (-1, ReplyHandle creq (u16 (Z.lor (u16 fl) 0x200)) 0 None).
Proof.
  intros Hz Hh Hid Hq Hfind. apply has_split in Hh as [H1 H2]. change (zlen (be16 id)) with 2 in H2. unfold reply_parse. rewrite (GET16_has _ _ _ H1). cbn [or_else]. rewrite (GET16_has _ _ _ H2). cbn [or_else].
  do 4 (match goal with |- context [GET16 p (zlen p) ?j] => destruct (GET16_in_range p j) as (? & ->); [lia..|]; cbn [or_else] end).
  rewrite (u16_small id), Hfind by done. cbn [or_else]. destruct (truncated_flags fl) as (-> & HE1 & HE2). rewrite Hq. cbn [negb]. unfold reply_body. by rewrite HE1, HE2.
Qed.
(** A whole response to a question that was asked. *)
Lemma message_handled p sreq err creq q : zlen p < 65536 -> message sreq err p -> response_sendable sreq -> 0 <= server_trans_id sreq < 65536 ->
  questions sreq = [q] -> Z.land (server_flags sreq) 0x020f = 0 -> err = 0 \/ err = DNS_ERR_NOTEXIST ->
  Forall (item_readable hnm) (answer sreq) -> Forall no_soa (authority sreq) ->
  request_find_from_trans_id base (server_trans_id sreq) = Some (Some creq) ->
  (exists name j, is_name_at (packet creq) name 12 j /\ name_sendable name /\ without_dot name = without_dot (q_name q)) ->
  let '(creq', rep, ttl) := collect mm (answer sreq) creq (Reply (request_type creq) false [] []) 0xffffffff in
  reply_parse mm hnm base p (zlen p) = Some (0, ReplyHandle creq' (response_flags sreq err) (if ttl =? 0xffffffff then 0 else ttl) (Some rep)).
Proof.
  intros Hp [Hh (jq & HQ & HI)] [(Hn1 & Hn2 & Hn3) HQS HIS Hsz] Hid Eq Hfl Herr HR HN Hfind (name & jn & Hname & Hns & Hsame).
  apply header_has in Hh as (G1 & G2 & G3 & G4 & G5 & G6). unfold reply_parse. rewrite G1. cbn [or_else]. rewrite G2. cbn [or_else]. rewrite G3. cbn [or_else]. rewrite G4. cbn [or_else]. rewrite G5. cbn [or_else]. rewrite G6. cbn [or_else].
  rewrite (u16_small (server_trans_id sreq)), Hfind by done. cbn [or_else].
  assert (Hcounts : zlen (answer sreq) < 1500 /\ zlen (authority sreq) < 1500) by (apply records_counted; [done | pose proof (sizes_nonneg question_size (fun _ => True) (questions sreq) (fun q _ => question_size_nonneg q) (Forall_true _ _ (fun _ => I))); unfold buf_len in Hsz; lia]).
  pose proof (zlen_nonneg (answer sreq)). pose proof (zlen_nonneg (authority sreq)). rewrite Hn1, Hn2, (u16_small (zlen (answer sreq))), (u16_small (zlen (authority sreq))) by lia.
  destruct (response_flags_answer sreq err ltac:(unfold DNS_ERR_NOTEXIST in *; lia) Hfl) as [Hf1 Hf2]. assert (Hfu : u16 (response_flags sreq err) = response_flags sreq err) by apply u16_idem. rewrite Hfu.
  rewrite Hf1. cbn [negb]. unfold reply_body. rewrite Hf2. replace (c_true err && negb (err =? DNS_ERR_NOTEXIST)) with false by (by destruct Herr as [->| ->]).
  rewrite Eq in HQ, HQS. apply Forall_cons in HQS as [HQS _]. inversion HQ as [|? ? ? j1 ? (j0 & HA1 & HA2 & HA3) HR1]; subst. inversion HR1; subst. rewrite Eq. change (Z.to_nat (u16 (zlen [q]))) with 1%nat. cbn [questions_loop].
  rewrite (name_reads_256 _ _ _ _ HA1 HQS). cbn [or_else]. rewrite (name_reads_256 _ _ _ _ Hname Hns). cbn [or_else]. pose proof (slice_bound _ _ _ _ HA2) as HB. rewrite zlen_app, !zlen_be16 in HB.
  replace (zlen p <? j0 + 4) with false by lia. rewrite Hsame, same_name_refl by by destruct HQS. cbn [orb or_else negb].
  unfold records in HI. apply seq_at_split in HI as (ja & HIa & HI). apply seq_at_split in HI as (jb & HIb & HIc). unfold records in HIS. apply Forall_app in HIS as [HISa HIS]. apply Forall_app in HIS as [HISb _].
  pose proof (answers_read mm hnm p (answer sreq) _ _ Hp HIa HISa HR creq (Reply (request_type creq) false [] []) 0xffffffff ltac:(by compute)) as HC.
  destruct (collect _ _ _ _ _) as [[creq' rep] ttl]. destruct HC as (j2 & Ea & Hj2). unfold zlen in Ea |- *. rewrite !Nat2Z.id in *. rewrite Ea. cbn [mbind option_bind].
  destruct (have_answer rep); cbn [or_else]; [done|]. rewrite (Hj2 eq_refl eq_refl). pose proof (authority_skipped p (authority sreq) ja jb ttl Hp HIb HISb HN) as Eb. unfold zlen in Eb. by rewrite Eb.
Qed.
End Exchange.

(** ** The claims. *)

(** C11: let memory last ([mm]) and the name asked for be one that can be sent
    ([name_sendable]: labels of 1 to 63 bytes, at most 255 in all).  The packet
    that evdns_request_data_build makes is understood by a server as the question
    that was asked.  A response is then made of a request with that id and
    question, error 0 or [DNS_ERR_NOTEXIST] and flags that have no error code,
    whose records have sendable names and fit, uncompressed, the 1500 bytes of
    the buffer ([response_sendable]), whose A, AAAA, PTR and CNAME answers have
    data of their form, names of fewer than HOST_NAME_MAX bytes
    ([item_readable]), and which has no SOA record as authority.  The client
    understands it as the addresses, or the name, and the ttl that the answers
    give ([collect]), or as cut off.  Outside these limits it need not hold:
    [response_overflow_by_one], [response_leaks], [long_ptr_name_refused] and
    [empty_label_ends_name] below. *)
Theorem evdns_exchange mm hnm id type name buf : (forall n, mm n = true) -> name_sendable name -> 0 <= id < 65536 -> 0 <= type < 65536 ->
  evdns_request_len (zlen name) <= zlen buf < 2 ^ 63 ->
  exists r buf', evdns_request_data_build mm name (zlen name) id type CLASS_INET buf (evdns_request_len (zlen name)) = Some (r, buf') /\ 0 <= r /\
    let asked := ztake r buf' in
    let question := Question type CLASS_INET (without_dot name) in
    request_parse mm asked (zlen asked) = Some (0, UserCallback (ServerRequest id 0 0 0 [] [] [] None 0x100 [question])) /\
    forall base creq sreq err sbuf, request_find_from_trans_id base id = Some (Some creq) -> packet creq = asked ->
      server_trans_id sreq = id -> questions sreq = [question] -> response_sendable sreq -> Z.land (server_flags sreq) 0x020f = 0 ->
      Forall (item_readable hnm) (answer sreq) -> Forall no_soa (authority sreq) -> err = 0 \/ err = DNS_ERR_NOTEXIST -> zlen sbuf = buf_len ->
      exists p, evdns_server_request_format_response mm sreq err sbuf = Some (0, {| (server_request_free_answers sreq) with response := Some p |}) /\
        let '(creq', rep, ttl) := collect mm (answer sreq) creq (Reply (request_type creq) false [] []) 0xffffffff in
        reply_parse mm hnm base p (zlen p) = Some (0, ReplyHandle creq' (response_flags sreq err) (if ttl =? 0xffffffff then 0 else ttl) (Some rep)) \/
        reply_parse mm hnm base p (zlen p) = Some (-1, ReplyHandle creq (u16 (Z.lor (response_flags sreq err) 0x200)) 0 None).
Proof.
  intros mm_ok HN Hid Ht Hbuf. destruct (evdns_request_data_build_ok mm name id type CLASS_INET buf HN ltac:(lia) ltac:(lia)) as (buf' & enc & E & [[rest ->] Hz] & HQ & Henc).
  set (p0 := query id type CLASS_INET enc) in *. exists (zlen p0), (p0 ++ rest). split; [done|]. split; [apply zlen_nonneg|]. cbv zeta. rewrite ztake_app_le, ztake_ge by lia.
  split; [by apply query_parsed|]. intros base creq sreq err sbuf Hfind Hpk Hsid Hq HS Hfl HR HSOA Herr Hsb.
  destruct (format_response_ok mm mm_ok sreq err sbuf HS) as (p & EF & Hp & Hmsg); [unfold DNS_ERR_NOTEXIST in Herr; lia | done|]. exists p. split; [done|].
  destruct Hmsg as [Hmsg|[Hzp Hh]].
  - destruct HQ as (j1 & HQ & _). cbn [q_name] in HQ. destruct (without_dot_sendable _ HN) as (_ & _ & Hww).
    pose proof (message_handled mm hnm base p sreq err creq (Question type CLASS_INET (without_dot name)) ltac:(lia) Hmsg HS ltac:(by rewrite Hsid) Hq Hfl Herr HR HSOA ltac:(by rewrite Hsid)) as HM.
    destruct (collect _ _ _ _ _) as [[creq' rep] ttl]. left. apply HM. exists name, j1. rewrite Hpk. by split.
  - destruct (collect _ _ _ _ _) as [[creq' rep] ttl]. right. destruct (response_flags_answer sreq err ltac:(unfold DNS_ERR_NOTEXIST in Herr; lia) Hfl) as [Hf1 _].
    assert (Hfu : u16 (response_flags sreq err) = response_flags sreq err) by apply u16_idem. rewrite <- Hfu in Hh, Hf1. rewrite <- Hfu at 1. rewrite Hsid in Hh. by apply (truncated_handled mm hnm base p id).
Qed.

Lemma zlen_cstr s : zlen (cstr s) <= zlen s.
Proof.
  unfold cstr. destruct (split_at 0 s) as [[a b]|] eqn:E; [|lia]. apply split_at_some in E as [-> _]. rewrite zlen_app, zlen_cons. pose proof (zlen_nonneg b). lia.
Qed.
Lemma questions_ok mm p : Forall is_byte p -> forall n j qs, 0 <= j -> Forall (fun q => zlen (q_name q) < 256) qs ->
  request_questions mm p (zlen p) n j qs = Some None \/
  exists qs', request_questions mm p (zlen p) n j qs = Some (Some qs') /\ Forall (fun q => zlen (q_name q) < 256) qs' /\ zlen qs' = zlen qs + Z.of_nat n.
Proof.
  intros Hp. induction n as [|n IH]; intros j qs Hj HF; cbn [request_questions]; [right; exists qs; split_and!; (done || lia)|].
  apply name_ok_step; [done | done | by left|]. intros name j1 Hj1 Hn _. eapply or_else_ok; [apply GET16_ok; [done | lia] | by left|]. intros type j2 Hj2 _.
  eapply or_else_ok; [apply GET16_ok; [done | lia] | by left|]. intros class j3 Hj3 _. cbv zeta. case_if; [by left|]. pose proof (zlen_cstr name).
  destruct (IH j3 (qs ++ [Question type class (cstr name)])) as [->|(qs' & -> & HF' & Hz)]; [lia | apply Forall_app; split; [done|]; constructor; [cbn; lia | constructor] | by left|].
  right. exists qs'. split; [done|]. split; [done|]. rewrite zlen_app, zlen_cons in Hz. change (zlen []) with 0 in Hz. lia.
Qed.

(** C12: whatever bytes a packet has, parsing it as a reply or as a request reads
    nothing outside it, ends, and leaves at most 32 addresses of their size, a
    name that fits its array, and questions that fit theirs. *)
Theorem evdns_packets_safe mm hnm base p : Forall is_byte p -> req_heads base <> [] -> Forall (Forall (fun req => Forall is_byte (packet req))) (req_heads base) ->
  (exists r out, reply_parse mm hnm base p (zlen p) = Some (r, out) /\ reply_kept hnm base out) /\
  exists r out, request_parse mm p (zlen p) = Some (r, out) /\
    match out with UserCallback req | Respond req _ => Forall (fun q => zlen (q_name q) < 256) (questions req) /\ questions req <> [] | NoCall => True end.
Proof.
  intros Hp Hne HB. split.
  - by apply reply_parse_ok.
  - unfold request_parse. do 2 (eapply or_else_ok; [apply GET16_ok; [done | lia] | by eexists _, _|]; intros ? ? ? _; cbn beta iota).
    eapply or_else_ok; [apply GET16_ok; [done | lia] | by eexists _, _|]; intros n j3 Hj3 Hn; cbn beta iota.
    do 3 (eapply or_else_ok; [apply GET16_ok; [done | lia] | by eexists _, _|]; intros ? ? ? _; cbn beta iota).
    case_if; [by eexists _, _|]. case_if; [by eexists _, _|]. case_if; [by eexists _, _|].
    match goal with |- context [request_questions mm p (zlen p) ?k ?j []] => destruct (questions_ok mm p Hp k j [] ltac:(lia) ltac:(constructor)) as [->|(qs & -> & Hqs & Hlen)] end; cbn [or_else]; [by eexists _, _|].
    assert (Hne2 : qs <> []) by (cbn beta in Hn; intros ->; unfold zlen in Hlen; cbn [length] in Hlen; lia).
    case_if; by eexists _, _.
Qed.

(** C35: let the buffer hold [w] and a table of names that are read back from it,
    have at most 16384 bytes to write to, and one byte more than that or room for
    the whole name (without it the last byte is written outside,
    [labels_overflow_by_one]).  Then dnsname_to_labels returns.  It refuses only a
    name of more than 255 bytes, one that is not valid (an empty label in the
    middle or one of more than 63 bytes), or one for which uncompressed there
    is no room; what was in the buffer stays.  Otherwise a name that is valid is
    read back where it was put, but for a dot at its end, and so is every sendable
    name of the table, old and new.  A name with an empty label may be accepted
    and is not read back ([empty_label_ends_name]). *)
Theorem dnsname_to_labels_correct mm len buf w name tab : is_cstring name -> written buf w (zlen buf) -> len <= zlen buf -> len < zlen buf \/ zlen w + zlen name + 2 <= zlen buf ->
  len <= 16384 -> zlen buf < 2 ^ 63 -> tab_ok w tab ->
  exists r buf' tab', dnsname_to_labels mm buf len (zlen w) name (zlen name) tab = Some (r, buf', tab') /\ written buf' w (zlen buf) /\
    (r < 0 -> 255 < zlen name \/ valid_name name = false \/ len < zlen w + zlen name + 2) /\
    (0 <= r -> exists enc, r = zlen (w ++ enc) /\ written buf' (w ++ enc) (zlen buf) /\ tab_ok (w ++ enc) tab' /\
      (valid_name name = true -> name_parse (w ++ enc) r (zlen w) 256 = Some (Some (r, without_dot name))) /\
      forall t v pos, tab' = Some t -> (v, pos) ∈ t -> name_sendable v -> exists fin, name_parse (w ++ enc) r pos 256 = Some (Some (fin, without_dot v))).
Proof.
  intros Hc HW Hlen Hroom Hsmall Hm HT. destruct (Z_lt_le_dec 255 (zlen name)) as [Hl|Hl].
  { rewrite dnsname_too_long by done. exists (-2), buf, tab. split; [done|]. split; [done|]. split; [by left | lia]. }
  destruct (dnsname_written mm len (zlen buf) Hlen Hsmall Hm name buf w tab Hc HW Hroom Hl) as (r & buf' & tab' & -> & HW' & Hout). exists r, buf', tab'. split; [done|]. split; [done|].
  destruct Hout as [[Hr Hno]|(enc & added & -> & HW2 & -> & [HE1 HE2 HE3])].
  - split; [|lia]. intros _. right. destruct (valid_name name); [right; by apply Hno | by left].
  - pose proof (zlen_nonneg (w ++ enc)). split; [lia|]. intros _. exists enc. split; [done|]. split; [done|].
    assert (HT' : tab_ok (w ++ enc) ((fun t => t ++ added) <$> tab)).
    { intros t Ht. destruct tab as [t0|]; [|done]. injection Ht as <-. apply Forall_app. split; [by apply table_ok_frame, HT | by apply HE2]. }
    split; [done|]. split; [intros Hv; apply name_reads_256; [by apply HE1 | done]|].
    intros t v pos Ht Hin Hv. specialize (HT' t Ht). unfold table_ok in HT'. rewrite Forall_forall in HT'. destruct (HT' _ Hin) as [_ He]. cbn [fst snd] in He.
    destruct (He (proj1 (proj2 Hv))) as [fin HN]. exists fin. by apply name_reads_256.
Qed.

(** * DNS messages: the properties at concrete inputs, and where the code and
    its documentation differ *)
Definition all_mem (n : Z) : bool := true.
Definition demo_name : list Z := str "www.example.com.".
Lemma str_chars s : forallb (fun c => (0 <? c) && (c <? 256)) (str s) = true -> is_cstring (str s).
Proof.
  intros Hs. unfold is_cstring. rewrite Forall_forall. rewrite forallb_forall in Hs. intros c Hc. apply list_elem_of_In, Hs in Hc. unfold is_char. lia.
Qed.
Lemma demo_sendable : name_sendable demo_name.
Proof. split; [by apply str_chars | by split]. Qed.
(** Memory that was not written. *)
Definition junk (c n : Z) : list Z := replicate (Z.to_nat n) c.
Definition demo_asked (name : string) : list Z :=
  match evdns_request_data_build all_mem (str name) (zlen (str name)) 7 TYPE_A CLASS_INET (junk 0 200) (evdns_request_len (zlen (str name))) with
  | Some (r, buf) => ztake r buf
  | None => []
  end.
Definition demo_question : evdns_server_question := Question TYPE_A CLASS_INET (str "www.example.com").
Definition demo_server : server_request := ServerRequest 7 0 0 0 [] [] [] None 0x100 [demo_question].
(** A canonical name and two addresses. *)
Definition demo_answered : server_request :=
  let req := snd (evdns_server_request_add_cname_reply all_mem demo_server (str "www.example.com") (Some (str "example.com")) 60) in
  snd (evdns_server_request_add_a_reply all_mem req (str "example.com") 2 (Some [1; 2; 3; 4; 5; 6; 7; 8]) 30).
Definition demo_client : request := Request (demo_asked "www.example.com.") TYPE_A 7 (Some None).
Definition demo_base : evdns_base := Base [[demo_client]] true.
Definition formatted_response (req : server_request) : option (list Z) :=
  match evdns_server_request_format_response all_mem req 0 (junk 170 1500) with Some (_, req) => response req | None => None end.
Lemma demo_response : reply_parse all_mem 64 demo_base (default [] (formatted_response demo_answered)) (zlen (default [] (formatted_response demo_answered))) =
  Some (0, ReplyHandle {| demo_client with put_cname_in_ptr := Some (Some (str "example.com")) |} 0x8100 30 (Some (Reply TYPE_A true [[1; 2; 3; 4]; [5; 6; 7; 8]] []))).
Proof. vm_compute. reflexivity. Qed.

(** ** Witnesses. *)
Lemma item_ok_demo item : item = nth 0 (answer demo_answered) (Item [] 0 0 0 false 0 None) \/ item = nth 1 (answer demo_answered) (Item [] 0 0 0 false 0 None) -> item_sendable item /\ item_readable 64 item.
Proof.
  assert (Hn1 : name_sendable (str "www.example.com")) by (split; [by apply str_chars | by split]). assert (Hn2 : name_sendable (str "example.com")) by (split; [by apply str_chars | by split]).
  intros [->| ->]; cbn.
  - split; [split; [exact Hn1 | by compute | cbn; eexists; by split]|]. split; [done|]. split; [done|]. intros _. by split.
  - split; [split; [exact Hn2 | by compute | by compute]|]. split; [by intros; split|]. split; [done|]. intros [H|H]; done.
Qed.
Lemma demo_answered_sendable : response_sendable demo_answered.
Proof.
  split.
  - by split_and!.
  - constructor; [|constructor]. split; [by apply str_chars | by split].
  - constructor; [by apply item_ok_demo; left|]. constructor; [by apply item_ok_demo; right | constructor].
  - by compute.
Qed.
Lemma evdns_exchange_witness :
  request_parse all_mem (demo_asked "www.example.com.") (zlen (demo_asked "www.example.com.")) = Some (0, UserCallback demo_server) /\
  exists p, evdns_server_request_format_response all_mem demo_answered 0 (junk 170 1500) = Some (0, {| (server_request_free_answers demo_answered) with response := Some p |}) /\
    let '(creq', rep, ttl) := collect all_mem (answer demo_answered) demo_client (Reply TYPE_A false [] []) 0xffffffff in
    reply_parse all_mem 64 demo_base p (zlen p) = Some (0, ReplyHandle creq' (response_flags demo_answered 0) (if ttl =? 0xffffffff then 0 else ttl) (Some rep)) \/
    reply_parse all_mem 64 demo_base p (zlen p) = Some (-1, ReplyHandle demo_client (u16 (Z.lor (response_flags demo_answered 0) 0x200)) 0 None).
Proof.
  destruct (evdns_exchange all_mem 64 7 TYPE_A demo_name (junk 0 200)) as (r & buf' & E & _ & HP & HC); [done | exact demo_sendable | by compute | by compute | by compute|].
  assert (Ha : ztake r buf' = demo_asked "www.example.com.") by (unfold demo_asked; change (str "www.example.com.") with demo_name; by rewrite E).
  cbv zeta in HP, HC. rewrite Ha in HP, HC. split; [exact HP|]. apply (HC demo_base demo_client demo_answered 0 (junk 170 1500)).
  - reflexivity.
  - reflexivity.
  - reflexivity.
  - reflexivity.
  - exact demo_answered_sendable.
  - reflexivity.
  - constructor; [by apply item_ok_demo; left|]. constructor; [by apply item_ok_demo; right | constructor].
  - constructor.
  - by left.
  - reflexivity.
Defined.

Lemma evdns_packets_safe_witness :
  (exists r out, reply_parse all_mem 64 demo_base [0; 7; 129; 0; 0; 1; 0; 0; 0; 0; 0; 0; 192; 12] 14 = Some (r, out) /\ reply_kept 64 demo_base out) /\
  exists r out, request_parse all_mem [0; 7; 129; 0; 0; 1; 0; 0; 0; 0; 0; 0; 192; 12] 14 = Some (r, out) /\
    match out with UserCallback req | Respond req _ => Forall (fun q => zlen (q_name q) < 256) (questions req) /\ questions req <> [] | NoCall => True end.
Proof.
  apply (evdns_packets_safe all_mem 64 demo_base [0; 7; 129; 0; 0; 1; 0; 0; 0; 0; 0; 0; 192; 12]).
  - apply (bool_decide_unpack _). vm_compute. exact I.
  - discriminate.
  - apply (bool_decide_unpack _). vm_compute. exact I.
Defined.

Definition demo_table : dnslabel_table := [(str "com", 0)].
Lemma dnsname_to_labels_correct_witness :
  exists r buf' tab', dnsname_to_labels all_mem ([3; 99; 111; 109; 0] ++ junk 0 15) 20 5 (str "a.com") 5 (Some demo_table) = Some (r, buf', tab') /\ written buf' [3; 99; 111; 109; 0] 20 /\
    (r < 0 -> 255 < 5 \/ valid_name (str "a.com") = false \/ 20 < 5 + 5 + 2) /\
    (0 <= r -> exists enc, r = zlen ([3; 99; 111; 109; 0] ++ enc) /\ written buf' ([3; 99; 111; 109; 0] ++ enc) 20 /\ tab_ok ([3; 99; 111; 109; 0] ++ enc) tab' /\
      (valid_name (str "a.com") = true -> name_parse ([3; 99; 111; 109; 0] ++ enc) r 5 256 = Some (Some (r, without_dot (str "a.com")))) /\
      forall t v pos, tab' = Some t -> (v, pos) ∈ t -> name_sendable v -> exists fin, name_parse ([3; 99; 111; 109; 0] ++ enc) r pos 256 = Some (Some (fin, without_dot v))).
Proof.
  apply (dnsname_to_labels_correct all_mem 20 ([3; 99; 111; 109; 0] ++ junk 0 15) [3; 99; 111; 109; 0] (str "a.com") (Some demo_table)).
  - by apply str_chars.
  - split; [by exists (junk 0 15) | reflexivity].
  - by compute.
  - right. by compute.
  - by compute.
  - by compute.
  - intros t [= <-]. constructor; [|constructor]. split; [by compute|]. intros _. exists 5. apply (name_label _ _ 0 (str "com")); [by compute | reflexivity|]. by apply name_end.
Defined.

(** ** Where the code and its documentation differ. *)

(** The terminating zero is written without a check: one byte behind a buffer
    that the name just fills. *)
Lemma labels_overflow_by_one : dnsname_to_labels all_mem (junk 0 4) 4 0 (str "abc") 3 None = None /\ dnsname_to_labels all_mem (junk 0 5) 4 0 (str "abc") 3 None = Some (5, [3; 97; 98; 99; 0], None).
Proof. by split. Qed.
(** So is a response on the stack, whose 1500 bytes a name may just fill. *)
Definition filling_item (n : Z) : server_reply_item := Item [] 99 CLASS_INET 0 false n (Some (junk 0 n)).
Definition overflowing : server_request :=
  {| demo_server with questions := []; n_answer := 2; answer := [filling_item 1473; Item (str "abc") TYPE_A CLASS_INET 0 false 0 None] |}.
Lemma response_overflow_by_one : evdns_server_request_format_response all_mem overflowing 0 (junk 0 1500) = None.
Proof. vm_compute. reflexivity. Qed.
(** A record that cannot be written makes a response of 512 bytes, of which the
    rest is what the stack held. *)
Definition unwritable : server_request := {| demo_server with n_answer := 1; answer := [Item (junk 97 64) TYPE_A CLASS_INET 0 false 0 None] |}.
Definition leaked (c : Z) : option (Z * option (list Z)) :=
  '(r, req) ← evdns_server_request_format_response all_mem unwritable 0 (junk c 1500); Some (r, zdrop 100 <$> response req).
Lemma response_leaks : leaked 170 = Some (0, Some (junk 170 412)) /\ leaked 85 = Some (0, Some (junk 85 412)).
Proof. split; vm_compute; reflexivity. Qed.
(** An empty label ends the name for whoever reads the request, and what follows
    is taken for the type. *)
Lemma empty_label_ends_name : request_parse all_mem (demo_asked "a..b") (zlen (demo_asked "a..b")) =
  Some (0, UserCallback {| demo_server with questions := [Question 354 0 (str "a")] |}).
Proof. vm_compute. reflexivity. Qed.
(** Requests of other kinds than queries are answered as queries. *)
Lemma opcode_ignored : request_parse all_mem ([0; 7; 0x79; 0] ++ zdrop 4 (demo_asked "a.b")) (zlen (demo_asked "a.b")) =
  Some (0, UserCallback {| demo_server with questions := [Question TYPE_A CLASS_INET (str "a.b")] |}).
Proof. vm_compute. reflexivity. Qed.
(** When the memory for a response is missing the records are gone, but not their
    numbers: the response that is then made promises what it does not hold. *)
Definition out_of_memory (n : Z) : bool := n <? 16.
Definition second_response : option (Z * option (list Z)) :=
  '(r, req) ← evdns_server_request_format_response out_of_memory demo_answered 0 (junk 0 1500);
  '(r2, req) ← evdns_server_request_format_response all_mem req 0 (junk 0 1500);
  Some (r, ztake 12 <$> response req).
Lemma counts_outlive_records : second_response = Some (-1, Some [0; 7; 0x81; 0; 0; 1; 0; 2; 0; 0; 0; 0]).
Proof. vm_compute. reflexivity. Qed.
(** Where [HOST_NAME_MAX] is 64, a name that is valid in DNS is refused. *)
Definition long_name : list Z := junk 97 40 ++ [46] ++ junk 98 40.
Definition ptr_question : evdns_server_question := Question TYPE_PTR CLASS_INET (in_addr_arpa 0x7f000001).
Definition ptr_answered : server_request := snd (evdns_server_request_add_ptr_reply all_mem {| demo_server with questions := [ptr_question] |} (Some 0x7f000001) None (Some long_name) 60).
Definition ptr_client : request :=
  Request (match evdns_request_data_build all_mem (in_addr_arpa 0x7f000001) (zlen (in_addr_arpa 0x7f000001)) 7 TYPE_PTR CLASS_INET (junk 0 200) 200 with Some (r, buf) => ztake r buf | None => [] end) TYPE_PTR 7 None.
Definition ptr_handled (hnm : Z) : option (Z * bool) :=
  p ← formatted_response ptr_answered;
  '(r, out) ← reply_parse all_mem hnm (Base [[ptr_client]] false) p (zlen p);
  Some (r, match out with ReplyHandle _ _ _ (Some rep) => bool_decide (ptr_name rep = long_name) | _ => false end).
Lemma long_ptr_name_refused : ptr_handled 64 = Some (-1, false) /\ ptr_handled 255 = Some (0, true).
Proof. split; vm_compute; reflexivity. Qed.
