(* ===== verification/Resolver.v ===== *)
(** * The resolver: nameservers, requests and searches (evdns.c)

    The state of a [struct evdns_base] and of the objects it points to.  A
    pointer is a number that indexes the store of its type, from which freeing
    deletes; a circular list is the list that begins at its head.  A function
    is a computation [M] that changes the state; it has no result where the
    code would use a null or freed pointer, or fail an assertion. *)
From Stdlib Require Import Ascii String.
From S2P Require Import Prelude Timeval Event Buffer CString Address Dns.
Open Scope Z_scope.

Definition DNS_ERR_NONE : Z := 0.
Definition DNS_ERR_FORMAT : Z := 1.
Definition DNS_ERR_SERVERFAILED : Z := 2.
Definition DNS_ERR_REFUSED : Z := 5.
Definition DNS_ERR_TRUNCATED : Z := 65.
Definition DNS_ERR_UNKNOWN : Z := 66.
Definition DNS_ERR_TIMEOUT : Z := 67.
Definition DNS_ERR_SHUTDOWN : Z := 68.
Definition DNS_ERR_CANCEL : Z := 69.
Definition DNS_ERR_NODATA : Z := 70.
Definition DNS_QUERY_NO_SEARCH : Z := 1.
Definition MAX_PROBE_TIMEOUT : Z := 3600.
Definition TIMEOUT_BACKOFF_FACTOR : Z := 3.

(** ** Data. *)

(** [timeout_event] and [event] are what is pending of the events: the time to
    wait, and whether the event is added. *)
Record nameserver := Nameserver {
  address : sockaddr;
  failed_times : Z;
  timedout : Z;
  event : bool;
  probe_event : option timeval;
  probe_request : option nat;
  state : bool;
  choked : bool;
  write_waiting : bool;
  requests_inflight : Z
}.
(** The callback with its argument: one of the user, or [nameserver_probe_callback]. *)
Inductive callback := User (arg : nat) | Probe (ns : nat).
Record request := Request {
  packet : list Z;
  request_type : Z;
  reissue_count : Z;
  tx_count : Z;
  user_callback : callback;
  ns : option nat;
  timeout_event : option timeval;
  trans_id : Z;
  transmit_me : bool;
  handle : option nat
}.
Record evdns_request := Handle {
  current_req : option nat;
  pending_cb : bool;
  search_index : Z;
  search_state : option nat;
  search_origname : option (list Z);
  search_flags : Z
}.
Record search_list := Searches { refcount : Z; ndots : Z; num_domains : Z; domains : list (list Z) }.
Record deferred_reply_callback := Deferred {
  d_handle : option nat;
  d_request_type : Z;
  d_ttl : Z;
  d_err : Z;
  d_callback : callback;
  d_reply : option reply
}.
Record evdns_base := Base {
  req_heads : list (list nat);
  req_waiting_head : list nat;
  server_head : list nat;
  global_good_nameservers : Z;
  global_requests_inflight : Z;
  global_requests_waiting : Z;
  global_max_requests_inflight : Z;
  global_timeout : timeval;
  global_max_reissues : Z;
  global_max_retransmits : Z;
  global_max_nameserver_timeout : Z;
  global_randomize_case : bool;
  global_nameserver_probe_initial_timeout : timeval;
  global_search_state : option nat;
  disable_when_inactive : bool
}.
(** A call of a callback of the user: result, ttl and answer. *)
Record call := Call { c_arg : nat; c_result : Z; c_ttl : Z; c_reply : option reply }.
(** [deferred] is the queue of the callbacks that were scheduled, [calls] and
    [sent] what was called and sent.  Every question to the environment
    is asked at its time [ticks]; [fresh] is above every pointer. *)
Record world := World {
  base : evdns_base;
  servers : gmap nat nameserver;
  requests : gmap nat request;
  handles : gmap nat evdns_request;
  searches : gmap nat search_list;
  deferred : list deferred_reply_callback;
  calls : list call;
  sent : list (nat * list Z);
  ticks : nat;
  fresh : nat
}.

(** ** Computations. *)
Definition M (A : Type) : Type := world -> option (A * world).
#[export] Instance M_ret : MRet M := fun A a w => Some (a, w).
#[export] Instance M_bind : MBind M := fun A B k m w => match m w with Some (a, w') => k a w' | None => None end.
Definition fail {A} : M A := fun _ => None.
Definition lift {A} (o : option A) : M A := fun w => a ← o; Some (a, w).
Definition assert (b : bool) : M unit := if b then mret tt else fail.
Definition gets {A} (f : world -> A) : M A := fun w => Some (f w, w).
Definition modify (f : world -> world) : M unit := fun w => Some (tt, f w).
Fixpoint for_each {A} (l : list A) (f : A -> M unit) : M unit :=
  match l with [] => mret tt | a :: l => f a;; for_each l f end.

Definition get_base : M evdns_base := gets base.
Definition set_base (f : evdns_base -> evdns_base) : M unit := modify (fun w => {| w with base := f (base w) |}).
Definition get_ns (s : nat) : M nameserver := w ← gets servers; lift (w !! s).
Definition get_req (r : nat) : M request := w ← gets requests; lift (w !! r).
Definition get_handle (h : nat) : M evdns_request := w ← gets handles; lift (w !! h).
Definition get_search (s : nat) : M search_list := w ← gets searches; lift (w !! s).
Definition set_ns (s : nat) (f : nameserver -> nameserver) : M unit :=
  v ← get_ns s; modify (fun w => {| w with servers := <[s := f v]> (servers w) |}).
Definition set_req (r : nat) (f : request -> request) : M unit :=
  v ← get_req r; modify (fun w => {| w with requests := <[r := f v]> (requests w) |}).
Definition set_handle (h : nat) (f : evdns_request -> evdns_request) : M unit :=
  v ← get_handle h; modify (fun w => {| w with handles := <[h := f v]> (handles w) |}).
Definition set_search (s : nat) (f : search_list -> search_list) : M unit :=
  v ← get_search s; modify (fun w => {| w with searches := <[s := f v]> (searches w) |}).
Definition free_ns (s : nat) : M unit := get_ns s;; modify (fun w => {| w with servers := delete s (servers w) |}).
Definition free_req (r : nat) : M unit := get_req r;; modify (fun w => {| w with requests := delete r (requests w) |}).
Definition free_handle (h : nat) : M unit := get_handle h;; modify (fun w => {| w with handles := delete h (handles w) |}).
Definition free_search (s : nat) : M unit := get_search s;; modify (fun w => {| w with searches := delete s (searches w) |}).
Definition new_pointer : M nat := fun w => Some (fresh w, {| w with fresh := S (fresh w) |}).

(** The list of [next] pointers from the second element. *)
Definition next {A} (l : list A) : list A := match l with [] => [] | a :: l => l ++ [a] end.
Definition prev {A} (l : list A) : list A := match reverse l with [] => [] | a :: r => a :: reverse r end.

(** ** The environment. *)
Inductive send_result := Transferred (n : Z) | Retriable | Broken.
(** What allocation, adding events, random bytes, opening sockets and sending
    give at a time; [patience] bounds the tries for a transaction id. *)
Class Network := {
  mm_ok : nat -> bool;
  event_ok : nat -> bool;
  socket_ok : nat -> bool;
  rng : nat -> nat -> list Z;
  sendto : nat -> sockaddr -> list Z -> send_result;
  patience : nat;
  HOST_NAME_MAX : Z
}.

Section Resolver.
Context `{Network}.

Definition tick : M nat := fun w => Some (ticks w, {| w with ticks := S (ticks w) |}).
Definition mm_alloc : M bool := t ← tick; mret (mm_ok t).
Definition event_add : M bool := t ← tick; mret (event_ok t).
Definition secure_rng_get_bytes (n : nat) : M (list Z) := t ← tick; mret (rng t n).
(** [evtimer_add] and [evtimer_del]; whether adding fails is only logged. *)
Definition ns_timer_add (s : nat) (tv : timeval) : M unit :=
  ok ← event_add; if (ok : bool) then set_ns s (fun v => {| v with probe_event := Some tv |}) else mret tt.
Definition ns_timer_del (s : nat) : M unit := set_ns s (fun v => {| v with probe_event := None |}).
Definition req_timer_add (r : nat) (tv : timeval) : M unit :=
  ok ← event_add; if (ok : bool) then set_req r (fun v => {| v with timeout_event := Some tv |}) else mret tt.
Definition req_timer_del (r : nat) : M unit := set_req r (fun v => {| v with timeout_event := None |}).

(** ** Queues of requests. *)
Inductive queue := Inflight (i : Z) | Waiting.
Definition REQ_HEAD (b : evdns_base) (id : Z) : queue := Inflight (id mod zlen (req_heads b)).
Definition get_queue (q : queue) : M (list nat) :=
  b ← get_base; match q with Inflight i => lift (req_heads b !! Z.to_nat i) | Waiting => mret (req_waiting_head b) end.
Definition set_queue (q : queue) (l : list nat) : M unit :=
  set_base (fun b => match q with
    | Inflight i => {| b with req_heads := <[Z.to_nat i := l]> (req_heads b) |}
    | Waiting => {| b with req_waiting_head := l |}
    end).
Definition ASSERT_VALID_REQUEST (r : nat) : M unit :=
  v ← get_req r; h ← lift (handle v); hv ← get_handle h; assert (bool_decide (current_req hv = Some r)).
Definition evdns_request_remove (r : nat) (head : queue) : M unit :=
  ASSERT_VALID_REQUEST r;;
  l ← get_queue head; assert (bool_decide (r ∈ l));;
  set_queue head (filter (fun x => x <> r) l).
Definition evdns_request_insert (r : nat) (head : queue) : M unit :=
  ASSERT_VALID_REQUEST r;;
  l ← get_queue head; set_queue head (l ++ [r]).
Definition find_id (ids : gmap nat request) (id : Z) (l : list nat) : option nat :=
  snd <$> list_find (fun r => trans_id <$> ids !! r = Some id) l.
Definition request_find_from_trans_id (id : Z) : M (option nat) :=
  b ← get_base; l ← get_queue (REQ_HEAD b id);
  for_each l (fun r => get_req r;; mret tt);;
  m ← gets requests; mret (find_id m id l).

Definition of_le (l : list Z) : Z := u16 (nth 0 l 0 + 256 * nth 1 l 0).
Fixpoint pick_id (tries : nat) : M Z :=
  match tries with
  | O => fail
  | S tries =>
      bytes ← secure_rng_get_bytes 2;
      if of_le bytes =? 0xffff then pick_id tries
      else found ← request_find_from_trans_id (of_le bytes);
           match found with None => mret (of_le bytes) | Some _ => pick_id tries end
  end.
Definition transaction_id_pick : M Z := pick_id patience.
Definition request_trans_id_set (r : nat) (id : Z) : M unit :=
  v ← get_req r; p ← lift (put (packet v) 0 (be16 id));
  set_req r (fun v => {| v with trans_id := id; packet := p |}).

(** ** Nameservers. *)
Definition set_server_head (l : list nat) : M unit := set_base (fun b => {| b with server_head := l |}).
Fixpoint pick_loop (turns : nat) (started_at : nat) : M (option nat) :=
  match turns with
  | O => fail
  | S turns =>
      b ← get_base; s ← lift (head (server_head b)); v ← get_ns s;
      set_server_head (next (server_head b));;
      if (state v : bool) then mret (Some s)
      else
        b ← get_base; s ← lift (head (server_head b));
        if bool_decide (s = started_at) then
          assert (global_good_nameservers b =? 0);;
          set_server_head (next (server_head b));; mret (Some s)
        else pick_loop turns started_at
  end.
Definition nameserver_pick : M (option nat) :=
  b ← get_base;
  match server_head b with
  | [] => mret None
  | started_at :: _ =>
      if global_good_nameservers b =? 0 then
        get_ns started_at;; set_server_head (next (server_head b));; mret (head (next (server_head b)))
      else pick_loop (length (server_head b)) started_at
  end.
Definition request_swap_ns (r : nat) (to : option nat) : M unit :=
  match to with
  | None => mret tt
  | Some s =>
      v ← get_req r;
      if bool_decide (ns v = Some s) then mret tt
      else
        old ← lift (ns v); o ← get_ns old;
        assert (0 <? requests_inflight o);;
        set_ns old (fun o => {| o with requests_inflight := requests_inflight o - 1 |});;
        set_ns s (fun o => {| o with requests_inflight := requests_inflight o + 1 |});;
        set_req r (fun v => {| v with ns := Some s |})
  end.

(** Requests of a server that has failed and that wait to go out are moved. *)
Definition reassign (s r : nat) : M unit :=
  v ← get_req r;
  if (tx_count v =? 0) && bool_decide (ns v = Some s) then to ← nameserver_pick; request_swap_ns r to else mret tt.
Definition reassign_head (s : nat) (i : nat) : M unit := l ← get_queue (Inflight (Z.of_nat i)); for_each l (reassign s).
Definition nameserver_failed (s : nat) : M unit :=
  v ← get_ns s;
  if negb (state v) then mret tt
  else
    set_base (fun b => {| b with global_good_nameservers := global_good_nameservers b - 1 |});;
    b ← get_base; assert (0 <=? global_good_nameservers b);;
    set_ns s (fun v => {| v with state := false; failed_times := 1 |});;
    ns_timer_add s (global_nameserver_probe_initial_timeout b);;
    if global_good_nameservers b =? 0 then mret tt
    else for_each (seq 0 (length (req_heads b))) (reassign_head s).

(** The time to the next probe. *)
Definition back_off (tv : timeval) : timeval :=
  let sec := tv_sec tv * TIMEOUT_BACKOFF_FACTOR in
  let usec := tv_usec tv * TIMEOUT_BACKOFF_FACTOR in
  if 1000000 <? usec then Timeval (sec + usec / 1000000) (usec mod 1000000) else Timeval sec usec.
Fixpoint back_offs (i : nat) (tv : timeval) : timeval :=
  match i with O => tv | S i => if tv_sec tv <? MAX_PROBE_TIMEOUT then back_offs i (back_off tv) else tv end.
Definition probe_timeout (initial : timeval) (failed : Z) : timeval :=
  let tv := back_offs (Z.to_nat failed) initial in
  if MAX_PROBE_TIMEOUT <? tv_sec tv then Timeval MAX_PROBE_TIMEOUT 0 else tv.
Definition nameserver_probe_failed (s : nat) : M unit :=
  ns_timer_del s;;
  v ← get_ns s;
  if (state v : bool) then mret tt
  else
    b ← get_base;
    set_ns s (fun v => {| v with failed_times := failed_times v + 1 |});;
    ns_timer_add s (probe_timeout (global_nameserver_probe_initial_timeout b) (failed_times v)).

(** ** Sending. *)
Definition nameserver_write_waiting (s : nat) (waiting : bool) : M unit :=
  v ← get_ns s;
  if Bool.eqb (write_waiting v) waiting then mret tt
  else ok ← event_add; set_ns s (fun v => {| v with write_waiting := waiting; event := ok |}).
Definition evdns_request_transmit_to (r s : nat) : M Z :=
  ASSERT_VALID_REQUEST r;;
  v ← get_ns s; b ← get_base;
  added ← (if (requests_inflight v =? 1) && disable_when_inactive b then
             ok ← event_add; (if (ok : bool) then set_ns s (fun v => {| v with event := true |}) else mret tt);; mret ok
           else mret true);
  if negb added then mret 1
  else
    q ← get_req r; t ← tick;
    modify (fun w => {| w with sent := sent w ++ [(s, packet q)] |});;
    match sendto t (address v) (packet q) with
    | Retriable => mret 1
    | Broken => to ← lift (ns q); nameserver_failed to;; mret 2
    | Transferred n => mret (if n =? zlen (packet q) then 0 else 1)
    end.
Definition evdns_request_transmit (r : nat) : M Z :=
  ASSERT_VALID_REQUEST r;;
  set_req r (fun v => {| v with transmit_me := true |});;
  v ← get_req r; assert (negb (trans_id v =? 0xffff));;
  match ns v with
  | None => mret 1
  | Some s =>
      n ← get_ns s;
      if (choked n : bool) then mret 1
      else
        code ← evdns_request_transmit_to r s;
        v ← get_req r;
        if code =? 1 then
          s ← lift (ns v);
          set_ns s (fun n => {| n with choked := true |});;
          nameserver_write_waiting s true;; mret 1
        else
          b ← get_base; req_timer_add r (global_timeout b);;
          set_req r (fun v => {| v with tx_count := tx_count v + 1; transmit_me := false |});;
          mret (if code =? 2 then 1 else 0)
  end.
(** The results: whether something was to be sent. *)
Fixpoint transmit_list (l : list nat) (did : bool) : M bool :=
  match l with
  | [] => mret did
  | r :: l =>
      v ← get_req r;
      if (transmit_me v : bool) then evdns_request_transmit r;; transmit_list l true else transmit_list l did
  end.
Fixpoint transmit_heads (heads : list nat) (did : bool) : M bool :=
  match heads with
  | [] => mret did
  | i :: heads => l ← get_queue (Inflight (Z.of_nat i)); did ← transmit_list l did; transmit_heads heads did
  end.
Definition evdns_transmit : M bool := b ← get_base; transmit_heads (seq 0 (length (req_heads b))) false.

(** Every turn takes a request from the waiting queue. *)
Fixpoint pump_loop (turns : nat) : M unit :=
  b ← get_base;
  if (global_requests_inflight b <? global_max_requests_inflight b) && c_true (global_requests_waiting b) then
    match turns with
    | O => fail
    | S turns =>
        r ← lift (head (req_waiting_head b));
        s ← nameserver_pick;
        set_req r (fun v => {| v with ns := s |});;
        match s with
        | None => mret tt
        | Some s =>
            set_ns s (fun v => {| v with requests_inflight := requests_inflight v + 1 |});;
            evdns_request_remove r Waiting;;
            set_base (fun b => {| b with global_requests_waiting := global_requests_waiting b - 1; global_requests_inflight := global_requests_inflight b + 1 |});;
            id ← transaction_id_pick; request_trans_id_set r id;;
            b ← get_base; evdns_request_insert r (REQ_HEAD b id);;
            evdns_request_transmit r;; evdns_transmit;; pump_loop turns
        end
    end
  else mret tt.
Definition evdns_requests_pump_waiting_queue : M unit := b ← get_base; pump_loop (length (req_waiting_head b)).

(** ** The end of a request. *)
Definition search_state_decref (o : option nat) : M unit :=
  match o with
  | None => mret tt
  | Some s =>
      set_search s (fun v => {| v with refcount := refcount v - 1 |});;
      v ← get_search s; if refcount v =? 0 then free_search s else mret tt
  end.
Definition search_request_finished (h : nat) : M unit :=
  v ← get_handle h;
  search_state_decref (search_state v);;
  set_handle h (fun v => {| v with search_state := None; search_origname := None |}).
Definition request_finished (r : nat) (head : queue) (free_handle_too : bool) : M unit :=
  ASSERT_VALID_REQUEST r;;
  evdns_request_remove r head;;
  v ← get_req r;
  (match head with
   | Inflight _ =>
       req_timer_del r;;
       set_base (fun b => {| b with global_requests_inflight := global_requests_inflight b - 1 |});;
       s ← lift (ns v); set_ns s (fun n => {| n with requests_inflight := requests_inflight n - 1 |})
   | Waiting => set_base (fun b => {| b with global_requests_waiting := global_requests_waiting b - 1 |})
   end);;
  b ← get_base;
  (match ns v with
   | Some s =>
       n ← get_ns s;
       if (requests_inflight n =? 0) && disable_when_inactive b then set_ns s (fun n => {| n with event := false; probe_event := None |}) else mret tt
   | None => mret tt
   end);;
  (match handle v with
   | Some h =>
       hv ← get_handle h; assert (bool_decide (current_req hv = Some r));;
       if free_handle_too then
         search_request_finished h;;
         set_handle h (fun hv => {| hv with current_req := None |});;
         hv ← get_handle h; if (pending_cb hv : bool) then mret tt else free_handle h
       else set_handle h (fun hv => {| hv with current_req := None |})
   | None => mret tt
   end);;
  free_req r;;
  evdns_requests_pump_waiting_queue.

Definition reply_schedule_callback (r : nat) (ttl err : Z) (rep : option reply) : M unit :=
  ok ← mm_alloc;
  if negb ok then mret tt
  else
    v ← get_req r;
    (match handle v with Some h => set_handle h (fun hv => {| hv with pending_cb := true |}) | None => mret tt end);;
    modify (fun w => {| w with deferred := deferred w ++ [Deferred (handle v) (request_type v) ttl err (user_callback v) rep] |}).
Definition evdns_cancel_request (h : nat) : M unit :=
  hv ← get_handle h;
  match current_req hv with
  | None => mret tt
  | Some r =>
      if (pending_cb hv : bool) then mret tt
      else
        ASSERT_VALID_REQUEST r;;
        reply_schedule_callback r 0 DNS_ERR_CANCEL None;;
        v ← get_req r; b ← get_base;
        request_finished r (match ns v with Some _ => REQ_HEAD b (trans_id v) | None => Waiting end) true
  end.
Definition nameserver_up (s : nat) : M unit :=
  v ← get_ns s;
  if (state v : bool) then mret tt
  else
    ns_timer_del s;;
    (match probe_request v with
     | Some h => evdns_cancel_request h;; set_ns s (fun v => {| v with probe_request := None |})
     | None => mret tt
     end);;
    set_ns s (fun v => {| v with state := true; failed_times := 0; timedout := 0 |});;
    set_base (fun b => {| b with global_good_nameservers := global_good_nameservers b + 1 |}).
Definition request_reissue (r : nat) : M bool :=
  v ← get_req r; ASSERT_VALID_REQUEST r;;
  to ← nameserver_pick; request_swap_ns r to;;
  v' ← get_req r;
  if bool_decide (ns v' = ns v) then mret true
  else set_req r (fun v => {| v with reissue_count := reissue_count v + 1; tx_count := 0; transmit_me := true |});; mret false.
Definition evdns_request_timeout_callback (r : nat) : M unit :=
  v ← get_req r; b ← get_base;
  if global_max_retransmits b <=? tx_count v then
    reply_schedule_callback r 0 DNS_ERR_TIMEOUT None;;
    request_finished r (REQ_HEAD b (trans_id v)) true;;
    s ← lift (ns v); nameserver_failed s
  else
    req_timer_del r;;
    to ← nameserver_pick; request_swap_ns r to;;
    evdns_request_transmit r;;
    v ← get_req r; s ← lift (ns v);
    set_ns s (fun n => {| n with timedout := timedout n + 1 |});;
    n ← get_ns s;
    if global_max_nameserver_timeout b <? timedout n then
      set_ns s (fun n => {| n with timedout := 0 |});; nameserver_failed s
    else mret tt.

(** ** New requests. *)
Definition randomize_case (bits : list Z) (name : list Z) : list Z :=
  imap (fun i c => if EVUTIL_ISALPHA_ c then
                     if Z.testbit (nth (i / 8) bits 0) (Z.of_nat (i mod 8)) then Z.lor c 0x20 else Z.land c 0xdf
                   else c) name.
Definition request_new (handle_ : option nat) (type : Z) (name : list Z) (flags : Z) (cb : callback) : M (option nat) :=
  b ← get_base;
  let issuing_now := global_requests_inflight b <? global_max_requests_inflight b in
  id ← (if issuing_now then transaction_id_pick else mret 0xffff);
  ok ← mm_alloc;
  if negb ok then mret None
  else if 256 <=? zlen name then mret None
  else
    name ← (if global_randomize_case b then bits ← secure_rng_get_bytes (Z.to_nat ((zlen name + 7) / 8)); mret (randomize_case bits name) else mret name);
    let request_max_len := evdns_request_len (zlen name) in
    '(rlen, buf) ← lift (evdns_request_data_build (fun _ => true) name (zlen name) id type CLASS_INET (replicate (Z.to_nat request_max_len) 0) request_max_len);
    if rlen <? 0 then mret None
    else
      s ← (if issuing_now then nameserver_pick else mret None);
      r ← new_pointer;
      modify (fun w => {| w with requests := <[r := Request (ztake rlen buf) type 0 0 cb s None id false handle_]> (requests w) |});;
      (match handle_ with Some h => set_handle h (fun hv => {| hv with current_req := Some r |}) | None => mret tt end);;
      mret (Some r).
Definition request_submit (r : nat) : M unit :=
  ASSERT_VALID_REQUEST r;;
  v ← get_req r; b ← get_base;
  match ns v with
  | Some s =>
      evdns_request_insert r (REQ_HEAD b (trans_id v));;
      set_base (fun b => {| b with global_requests_inflight := global_requests_inflight b + 1 |});;
      set_ns s (fun n => {| n with requests_inflight := requests_inflight n + 1 |});;
      evdns_request_transmit r;; mret tt
  | None =>
      evdns_request_insert r Waiting;;
      set_base (fun b => {| b with global_requests_waiting := global_requests_waiting b + 1 |})
  end.

(** Probes. *)
Definition new_handle : M (option nat) :=
  ok ← mm_alloc;
  if negb ok then mret None
  else h ← new_pointer; modify (fun w => {| w with handles := <[h := Handle None false 0 None None 0]> (handles w) |});; mret (Some h).
Definition nameserver_send_probe (s : nat) : M unit :=
  o ← new_handle;
  match o with
  | None => mret tt
  | Some h =>
      o ← request_new (Some h) TYPE_A (str "google.com") DNS_QUERY_NO_SEARCH (Probe s);
      match o with
      | None => free_handle h
      | Some r =>
          set_ns s (fun v => {| v with probe_request := Some h |});;
          id ← transaction_id_pick; request_trans_id_set r id;;
          set_req r (fun v => {| v with ns := Some s |});;
          request_submit r
      end
  end.
Definition nameserver_prod_callback : nat -> M unit := nameserver_send_probe.
Definition nameserver_probe_callback (result : Z) (s : nat) : M unit :=
  if result =? DNS_ERR_CANCEL then mret tt
  else
    set_ns s (fun v => {| v with probe_request := None |});;
    if (result =? DNS_ERR_NONE) || (result =? DNS_ERR_NOTEXIST) then nameserver_up s else nameserver_probe_failed s.

(** ** Searches. *)
Definition string_num_dots (s : list Z) : Z := zlen (filter (fun c => c = 46) s).
Definition search_state_new : M (option nat) :=
  ok ← mm_alloc;
  if negb ok then mret None
  else s ← new_pointer; modify (fun w => {| w with searches := <[s := Searches 1 1 0 []]> (searches w) |});; mret (Some s).
Definition search_postfix_clear : M unit :=
  b ← get_base; search_state_decref (global_search_state b);;
  s ← search_state_new; set_base (fun b => {| b with global_search_state := s |}).
Definition evdns_base_search_clear : M unit := search_postfix_clear.
(** [if (!base->global_search_state) base->global_search_state = search_state_new()]. *)
Definition the_search_state : M (option nat) :=
  b ← get_base;
  match global_search_state b with
  | Some s => mret (Some s)
  | None => s ← search_state_new; set_base (fun b => {| b with global_search_state := s |});; mret s
  end.
Fixpoint skip_dots (s : list Z) : list Z := match s with c :: s' => if c =? 46 then skip_dots s' else s | [] => [] end.
Definition search_postfix_add (domain : list Z) : M unit :=
  o ← the_search_state;
  match o with
  | None => mret tt
  | Some s =>
      set_search s (fun v => {| v with num_domains := num_domains v + 1 |});;
      ok ← mm_alloc;
      if (ok : bool) then set_search s (fun v => {| v with domains := skip_dots domain :: domains v |}) else mret tt
  end.
Definition search_reverse : M unit :=
  b ← get_base; s ← lift (global_search_state b); set_search s (fun v => {| v with domains := reverse (domains v) |}).
Definition evdns_base_search_add (domain : list Z) : M unit := search_postfix_add domain.
Definition evdns_base_search_ndots_set (n : Z) : M unit :=
  o ← the_search_state; match o with None => mret tt | Some s => set_search s (fun v => {| v with ndots := n |}) end.
(** [None] is a missing list element, [Some None] a null pointer. *)
Definition search_make_new (st : search_list) (n : Z) (base_name : list Z) : M (option (list Z)) :=
  match last base_name with
  | None => mret None
  | Some c =>
      dom ← lift (domains st !! Z.to_nat n);
      ok ← mm_alloc;
      mret (if (ok : bool) then Some (base_name ++ (if c =? 46 then [] else [46]) ++ dom) else None)
  end.
Definition search_request_new (h : nat) (type : Z) (name : list Z) (flags : Z) (cb : callback) : M (option nat) :=
  assert ((type =? TYPE_A) || (type =? TYPE_AAAA));;
  hv ← get_handle h; assert (bool_decide (current_req hv = None));;
  b ← get_base;
  st ← (match global_search_state b with Some s => v ← get_search s; mret (Some (s, v)) | None => mret None end);
  let plain := o ← request_new (Some h) type name flags cb;
               (match o with Some r => request_submit r | None => mret tt end);; mret o in
  match st with
  | Some (s, v) =>
      if (Z.land flags DNS_QUERY_NO_SEARCH =? 0) && c_true (num_domains v) then
        o ← (if ndots v <=? string_num_dots name then
               o ← request_new (Some h) type name flags cb;
               match o with
               | None => mret None
               | Some r => set_handle h (fun hv => {| hv with search_index := -1 |});; mret (Some r)
               end
             else
               new_name ← search_make_new v 0 name;
               match new_name with
               | None => mret None
               | Some new_name =>
                   o ← request_new (Some h) type new_name flags cb;
                   match o with
                   | None => mret None
                   | Some r => set_handle h (fun hv => {| hv with search_index := 0 |});; mret (Some r)
                   end
               end);
        match o with
        | None => mret None
        | Some r =>
            hv ← get_handle h; assert (bool_decide (search_origname hv = None));;
            ok ← mm_alloc;
            if negb ok then free_req r;; mret None
            else
              set_handle h (fun hv => {| hv with search_origname := Some name; search_state := Some s; search_flags := flags |});;
              set_search s (fun v => {| v with refcount := refcount v + 1 |});;
              request_submit r;; mret (Some r)
        end
      else plain
  | None => plain
  end.
(** The result is that of the code: whether no more requests are needed. *)
Definition search_try_next (h : nat) : M bool :=
  hv ← get_handle h; r ← lift (current_req hv); v ← get_req r;
  let submit_next newreq :=
    b ← get_base; request_finished r (REQ_HEAD b (trans_id v)) false;;
    set_handle h (fun hv => {| hv with current_req := Some newreq |});;
    set_req newreq (fun q => {| q with handle := Some h |});;
    request_submit newreq;; mret false in
  match search_state hv with
  | None => mret true
  | Some s =>
      let index := search_index hv + 1 in
      set_handle h (fun hv => {| hv with search_index := index |});;
      st ← get_search s; name ← lift (search_origname hv);
      if num_domains st <=? index then
        if string_num_dots name <? ndots st then
          o ← request_new None (request_type v) name (search_flags hv) (user_callback v);
          match o with Some newreq => search_request_finished h;; submit_next newreq | None => mret true end
        else mret true
      else
        new_name ← search_make_new st index name;
        match new_name with
        | None => mret true
        | Some new_name =>
            o ← request_new None (request_type v) new_name (search_flags hv) (user_callback v);
            match o with Some newreq => submit_next newreq | None => mret true end
        end
  end.

(** ** Replies. *)
Definition error_codes : list Z := [DNS_ERR_FORMAT; DNS_ERR_SERVERFAILED; DNS_ERR_NOTEXIST; DNS_ERR_NOTIMPL; DNS_ERR_REFUSED].
(** The error of a reply, if it is one. *)
Definition reply_error (flags : Z) (rep : option reply) : option Z :=
  let answered := match rep with Some rep => have_answer rep | None => false end in
  if c_true (Z.land flags 0x020f) || negb answered then
    Some (if c_true (Z.land flags 0x0200) then DNS_ERR_TRUNCATED
          else if c_true (Z.land flags 0x000f) then
            let error_code := u16 (Z.land flags 0x000f - 1) in
            if 4 <? error_code then DNS_ERR_UNKNOWN else nth (Z.to_nat error_code) error_codes 0
          else match rep with Some _ => DNS_ERR_NODATA | None => DNS_ERR_UNKNOWN end)
  else None.
(** A probe that is answered is no longer to be canceled. *)
Definition forget_probe (r : nat) : M unit :=
  v ← get_req r; s ← lift (ns v); n ← get_ns s;
  if bool_decide (handle v = probe_request n) then set_ns s (fun n => {| n with probe_request := None |}) else mret tt.
Definition reply_handle (r : nat) (flags ttl : Z) (rep : option reply) : M unit :=
  ASSERT_VALID_REQUEST r;;
  v ← get_req r; s ← lift (ns v); b ← get_base;
  let finish err rep :=
    reply_schedule_callback r ttl err rep;;
    (if err =? 0 then forget_probe r;; nameserver_up s else mret tt);;
    v ← get_req r; b ← get_base; request_finished r (REQ_HEAD b (trans_id v)) true in
  match reply_error flags rep with
  | None => finish 0 rep
  | Some error =>
      let rest :=
        h ← lift (handle v); hv ← get_handle h;
        match search_state hv with
        | Some _ =>
            if negb (request_type v =? TYPE_PTR) then
              no_more ← search_try_next h; if (no_more : bool) then finish error None else mret tt
            else finish error None
        | None => finish error None
        end in
      if (error =? DNS_ERR_NOTIMPL) || (error =? DNS_ERR_REFUSED) then
        if reissue_count v <? global_max_reissues b then
          nameserver_failed s;; pointless ← request_reissue r; if (pointless : bool) then rest else mret tt
        else rest
      else if error =? DNS_ERR_SERVERFAILED then evdns_request_timeout_callback r
      else forget_probe r;; nameserver_up s;; rest
  end.
(** What [Dns.reply_parse] looks at. *)
Definition wire_request (v : request) : Dns.request := Dns.Request (packet v) (request_type v) (trans_id v) None.
Definition wire_base (w : world) : Dns.evdns_base :=
  Dns.Base (map (omap (fun r => wire_request <$> requests w !! r)) (req_heads (base w))) (global_randomize_case (base w)).
Definition reply_parse (p : list Z) : M unit :=
  wb ← gets wire_base;
  '(_, parsed) ← lift (Dns.reply_parse (fun _ => true) HOST_NAME_MAX wb p (zlen p));
  match parsed with
  | NoRequest => mret tt
  | ReplyHandle wr flags ttl rep =>
      o ← request_find_from_trans_id (Dns.trans_id wr);
      r ← lift o; reply_handle r flags ttl rep
  end.
(** What [recvfrom] gives before it would block. *)
Inductive received := Packet (from : sockaddr) (p : list Z) | ReadError.
Fixpoint nameserver_read (s : nat) (input : list received) : M unit :=
  match input with
  | [] => mret tt
  | ReadError :: _ => nameserver_failed s
  | Packet from p :: input =>
      v ← get_ns s;
      if negb (evutil_sockaddr_same from (address v) false) then mret tt
      else set_ns s (fun v => {| v with timedout := 0 |});; reply_parse p;; nameserver_read s input
  end.
Definition nameserver_ready_callback (s : nat) (writable : bool) (input : option (list received)) : M unit :=
  (if writable then
     set_ns s (fun v => {| v with choked := false |});;
     did ← evdns_transmit; if negb did then nameserver_write_waiting s false else mret tt
   else mret tt);;
  match input with Some input => nameserver_read s input | None => mret tt end.
(** A call of the user is recorded in [calls].  What the user does from inside it
    is in the model an operation that follows: the code has only the handle and
    the callback itself left to free, which nothing else refers to but the user,
    for whom canceling the handle does nothing then. *)
Definition reply_run_callback : M unit :=
  q ← gets deferred;
  match q with
  | [] => mret tt
  | d :: q =>
      modify (fun w => {| w with deferred := q |});;
      assert (existsb (Z.eqb (d_request_type d)) [TYPE_A; TYPE_PTR; TYPE_AAAA]);;
      let result := match d_reply d with Some _ => DNS_ERR_NONE | None => d_err d end in
      (match d_callback d with
       | User arg => modify (fun w => {| w with calls := calls w ++ [Call arg result (d_ttl d) (d_reply d)] |})
       | Probe s => nameserver_probe_callback result s
       end);;
      match d_handle d with
      | Some h => hv ← get_handle h; if (pending_cb hv : bool) then free_handle h else mret tt
      | None => mret tt
      end
  end.

(** ** The functions for users. *)
Definition or_null (h : nat) : M (option nat) :=
  hv ← get_handle h; match current_req hv with None => free_handle h;; mret None | Some _ => mret (Some h) end.
Definition resolve_plain (h : nat) (type : Z) (name : list Z) (flags : Z) (cb : callback) : M unit :=
  o ← request_new (Some h) type name flags cb; match o with Some r => request_submit r | None => mret tt end.
Definition evdns_base_resolve (type : Z) (name : list Z) (flags : Z) (arg : nat) : M (option nat) :=
  o ← new_handle;
  match o with
  | None => mret None
  | Some h =>
      (if c_true (Z.land flags DNS_QUERY_NO_SEARCH) then resolve_plain h type name flags (User arg)
       else search_request_new h type name flags (User arg);; mret tt);;
      or_null h
  end.
Definition evdns_base_resolve_ipv4 := evdns_base_resolve TYPE_A.
Definition evdns_base_resolve_ipv6 := evdns_base_resolve TYPE_AAAA.
Definition resolve_ptr (name : list Z) (flags : Z) (arg : nat) : M (option nat) :=
  o ← new_handle;
  match o with
  | None => mret None
  | Some h => resolve_plain h TYPE_PTR name flags (User arg);; or_null h
  end.
(** An IPv4 address as a number, one of IPv6 as its 16 bytes. *)
Definition evdns_base_resolve_reverse (a : Z) := resolve_ptr (in_addr_arpa a).
Definition nybbles (byte : Z) : list Z := [hex_digit false (Z.land byte 0x0f); 46; hex_digit false (Z.shiftr byte 4); 46].
Definition evdns_base_resolve_reverse_ipv6 (a : list Z) := resolve_ptr (flat_map nybbles (reverse a) ++ str "ip6.arpa").

Definition evdns_nameserver_add_impl_ (a : sockaddr) (addrlen : Z) : M Z :=
  b ← get_base;
  for_each (server_head b) (fun s => get_ns s;; mret tt);;
  m ← gets servers;
  if existsb (fun s => match m !! s with Some v => evutil_sockaddr_same (address v) a true | None => false end) (server_head b) then mret 3
  else if sizeof_sockaddr_storage <? addrlen then mret 2
  else
    ok ← mm_alloc;
    if negb ok then mret (-1)
    else
      t ← tick;
      if negb (socket_ok t) then mret 1
      else
        added ← (if disable_when_inactive b then mret true else event_add);
        if negb added then mret 2
        else
          s ← new_pointer;
          modify (fun w => {| w with servers := <[s := Nameserver a 0 0 (negb (disable_when_inactive b)) None None true false false 0]> (servers w) |});;
          set_server_head (match server_head b with [] => [s] | h :: l => h :: s :: l end);;
          set_base (fun b => {| b with global_good_nameservers := global_good_nameservers b + 1 |});;
          mret 0.
(** The number of the address is in network order. *)
Definition evdns_base_nameserver_add (address : Z) : M Z := evdns_nameserver_add_impl_ (AF_INET (ntohl (u32 address)) 53) 16.
Definition evdns_base_nameserver_sockaddr_add := evdns_nameserver_add_impl_.
Definition evdns_base_count_nameservers : M Z := b ← get_base; for_each (server_head b) (fun s => get_ns s;; mret tt);; mret (zlen (server_head b)).

Definition suspend_server (s : nat) : M unit :=
  set_ns s (fun v => {| v with event := false; probe_event := None |});;
  v ← get_ns s;
  (match probe_request v with
   | Some h => evdns_cancel_request h;; set_ns s (fun v => {| v with probe_request := None |})
   | None => mret tt
   end);;
  free_ns s.
Definition suspend_request (r : nat) : M unit :=
  set_req r (fun v => {| v with tx_count := 0; reissue_count := 0; ns := None; timeout_event := None; trans_id := 0; transmit_me := false |});;
  set_base (fun b => {| b with global_requests_waiting := global_requests_waiting b + 1 |});;
  evdns_request_insert r Waiting;;
  set_base (fun b => {| b with req_waiting_head := prev (req_waiting_head b) |}).
Definition suspend_head (i : nat) : M unit :=
  l ← get_queue (Inflight (Z.of_nat i)); for_each l suspend_request;; set_queue (Inflight (Z.of_nat i)) [].
Definition evdns_base_clear_nameservers_and_suspend : M unit :=
  b ← get_base;
  match server_head b with
  | [] => mret tt
  | l =>
      for_each l suspend_server;;
      set_base (fun b => {| b with server_head := []; global_good_nameservers := 0 |});;
      b ← get_base; for_each (seq 0 (length (req_heads b))) suspend_head;;
      set_base (fun b => {| b with global_requests_inflight := 0 |})
  end.
Definition evdns_base_resume : M unit := evdns_requests_pump_waiting_queue.

(** Every request of the old lists goes to its new one.  The sum must not
    overflow an [int]. *)
Definition rehash (m : gmap nat request) (heads : list (list nat)) (r : nat) : list (list nat) :=
  match m !! r with Some v => alter (fun l => l ++ [r]) (Z.to_nat (trans_id v mod zlen heads)) heads | None => heads end.
Definition evdns_base_set_max_requests_inflight (maxinflight : Z) : M Z :=
  let maxinflight := if maxinflight <? 1 then 1 else maxinflight in
  assert (maxinflight + 4 <=? INT_MAX);;
  let n_heads := (maxinflight + 4) / 5 in
  ok ← mm_alloc;
  if negb ok then mret (-1)
  else
    b ← get_base; for_each (concat (req_heads b)) ASSERT_VALID_REQUEST;;
    m ← gets requests;
    let new_heads := foldl (rehash m) (replicate (Z.to_nat n_heads) []) (concat (req_heads b)) in
    set_base (fun b => {| b with req_heads := new_heads; global_max_requests_inflight := maxinflight |});;
    mret 0.

(** [evdns_base_new] without reading a configuration, and [evdns_base_free]. *)
Definition zero_base (inactive : bool) : evdns_base :=
  Base [] [] [] 0 0 0 0 (Timeval 5 0) 1 3 3 true (Timeval 10 0) None inactive.
Definition evdns_base_new (disable_when_inactive_ : bool) : option (unit * world) :=
  (evdns_base_set_max_requests_inflight 64;; mret tt) (World (zero_base disable_when_inactive_) ∅ ∅ ∅ ∅ [] [] [] 0 0).
Definition evdns_nameserver_free (s : nat) : M unit :=
  v ← get_ns s;
  set_ns s (fun v => {| v with event := false; probe_event := if state v then probe_event v else None |});;
  (match probe_request v with Some h => evdns_cancel_request h | None => mret tt end);;
  free_ns s.
(** Every turn ends a request. *)
Fixpoint free_queue (turns : nat) (q : queue) (fail_requests : bool) : M unit :=
  l ← get_queue q;
  match l with
  | [] => mret tt
  | r :: _ =>
      match turns with
      | O => fail
      | S turns =>
          (if fail_requests then reply_schedule_callback r 0 DNS_ERR_SHUTDOWN None else mret tt);;
          v ← get_req r; b ← get_base;
          request_finished r (match q with Inflight _ => REQ_HEAD b (trans_id v) | Waiting => Waiting end) true;;
          free_queue turns q fail_requests
      end
  end.
Definition evdns_base_free (fail_requests : bool) : M unit :=
  b ← get_base; m ← gets requests;
  for_each (seq 0 (length (req_heads b))) (fun i => free_queue (size m) (Inflight (Z.of_nat i)) fail_requests);;
  free_queue (size m) Waiting fail_requests;;
  set_base (fun b => {| b with global_requests_inflight := 0; global_requests_waiting := 0 |});;
  b ← get_base;
  for_each (server_head b) (fun s => set_ns s (fun v => {| v with probe_request := None |});; evdns_nameserver_free s);;
  set_base (fun b => {| b with server_head := []; global_good_nameservers := 0 |});;
  (match global_search_state b with Some s => free_search s | None => mret tt end);;
  set_base (fun b => {| b with global_search_state := None; req_heads := [] |}).
End Resolver.
