(* ===== verification/ResolverInv.v ===== *)
(** * The invariant of the resolver

    Total correctness of computations, what of the state matters to the
    queues and the ownership of memory, and the invariant. *)
From S2P Require Import Prelude Timeval Event Buffer BufferInv CString Address Dns DnsNames Resolver.
Open Scope Z_scope.

(** ** Computations that return. *)
Definition runs {A} (m : M A) (w : world) (Q : A -> world -> Prop) : Prop := exists a w', m w = Some (a, w') /\ Q a w'.

Section Runs.
Context {A B : Type}.
Implicit Types (w : world) (m : M A).
Lemma runs_ret (a : A) w (Q : A -> world -> Prop) : Q a w -> runs (mret a) w Q.
Proof. intros HQ. by exists a, w. Qed.
Lemma runs_bind m (k : A -> M B) w (Q : B -> world -> Prop) : runs m w (fun a w' => runs (k a) w' Q) -> runs (m ≫= k) w Q.
Proof. intros (a & w' & E & b & w'' & E' & HQ). exists b, w''. split; [|done]. unfold mbind, M_bind. by rewrite E. Qed.
Lemma runs_mono m w (Q Q' : A -> world -> Prop) : runs m w Q -> (forall a w', Q a w' -> Q' a w') -> runs m w Q'.
Proof. intros (a & w' & E & HQ) HI. exists a, w'. auto. Qed.
Lemma runs_lift (o : option A) a w (Q : A -> world -> Prop) : o = Some a -> Q a w -> runs (lift o) w Q.
Proof. intros -> HQ. by exists a, w. Qed.
Lemma runs_gets (f : world -> A) w (Q : A -> world -> Prop) : Q (f w) w -> runs (gets f) w Q.
Proof. intros HQ. by exists (f w), w. Qed.
End Runs.
Section Loops.
Context {A : Type}.
Lemma runs_for_each (I : world -> Prop) (f : A -> M unit) l : (forall a w, a ∈ l -> I w -> runs (f a) w (fun _ w' => I w')) ->
  forall w, I w -> runs (for_each l f) w (fun _ w' => I w').
Proof.
  induction l as [|a l IH]; intros HI w Hw; cbn; [by apply runs_ret|].
  apply runs_bind. eapply runs_mono; [apply HI; [by left | done]|]. intros [] w' Hw'. apply IH; [|done]. intros b w'' Hb. apply HI. by right.
Qed.
(** A loop that only looks. *)
Lemma runs_looks (f : A -> M unit) l w (Q : unit -> world -> Prop) : (forall a, a ∈ l -> runs (f a) w (fun _ w' => w' = w)) -> Q tt w -> runs (for_each l f) w Q.
Proof.
  intros Hf HQ. eapply runs_mono; [apply (runs_for_each (fun w' => w' = w)); [|done]|].
  - intros a w' Ha ->. by apply Hf.
  - by intros [] w' ->.
Qed.
End Loops.
Section Memory.
Implicit Types (w : world) (Q : unit -> world -> Prop).
Lemma runs_assert (b : bool) w Q : b = true -> Q tt w -> runs (assert b) w Q.
Proof. intros -> HQ. by apply runs_ret. Qed.
Lemma runs_modify f w Q : Q tt (f w) -> runs (modify f) w Q.
Proof. intros HQ. by exists tt, (f w). Qed.
Lemma runs_get_ns w s v (Q : nameserver -> world -> Prop) : servers w !! s = Some v -> Q v w -> runs (get_ns s) w Q.
Proof. intros E HQ. apply runs_bind, runs_gets. by eapply runs_lift. Qed.
Lemma runs_get_req w r v (Q : request -> world -> Prop) : requests w !! r = Some v -> Q v w -> runs (get_req r) w Q.
Proof. intros E HQ. apply runs_bind, runs_gets. by eapply runs_lift. Qed.
Lemma runs_get_handle w h v (Q : evdns_request -> world -> Prop) : handles w !! h = Some v -> Q v w -> runs (get_handle h) w Q.
Proof. intros E HQ. apply runs_bind, runs_gets. by eapply runs_lift. Qed.
Lemma runs_get_search w s v (Q : search_list -> world -> Prop) : searches w !! s = Some v -> Q v w -> runs (get_search s) w Q.
Proof. intros E HQ. apply runs_bind, runs_gets. by eapply runs_lift. Qed.
Lemma runs_set_ns w s f v Q : servers w !! s = Some v -> Q tt {| w with servers := <[s := f v]> (servers w) |} -> runs (set_ns s f) w Q.
Proof. intros E HQ. apply runs_bind. eapply runs_get_ns; [done|]. by apply runs_modify. Qed.
Lemma runs_set_req w r f v Q : requests w !! r = Some v -> Q tt {| w with requests := <[r := f v]> (requests w) |} -> runs (set_req r f) w Q.
Proof. intros E HQ. apply runs_bind. eapply runs_get_req; [done|]. by apply runs_modify. Qed.
Lemma runs_set_handle w h f v Q : handles w !! h = Some v -> Q tt {| w with handles := <[h := f v]> (handles w) |} -> runs (set_handle h f) w Q.
Proof. intros E HQ. apply runs_bind. eapply runs_get_handle; [done|]. by apply runs_modify. Qed.
Lemma runs_set_search w s f v Q : searches w !! s = Some v -> Q tt {| w with searches := <[s := f v]> (searches w) |} -> runs (set_search s f) w Q.
Proof. intros E HQ. apply runs_bind. eapply runs_get_search; [done|]. by apply runs_modify. Qed.
Lemma runs_free_ns w s v Q : servers w !! s = Some v -> Q tt {| w with servers := delete s (servers w) |} -> runs (free_ns s) w Q.
Proof. intros E HQ. apply runs_bind. eapply runs_get_ns; [done|]. by apply runs_modify. Qed.
Lemma runs_free_req w r v Q : requests w !! r = Some v -> Q tt {| w with requests := delete r (requests w) |} -> runs (free_req r) w Q.
Proof. intros E HQ. apply runs_bind. eapply runs_get_req; [done|]. by apply runs_modify. Qed.
Lemma runs_free_handle w h v Q : handles w !! h = Some v -> Q tt {| w with handles := delete h (handles w) |} -> runs (free_handle h) w Q.
Proof. intros E HQ. apply runs_bind. eapply runs_get_handle; [done|]. by apply runs_modify. Qed.
Lemma runs_free_search w s v Q : searches w !! s = Some v -> Q tt {| w with searches := delete s (searches w) |} -> runs (free_search s) w Q.
Proof. intros E HQ. apply runs_bind. eapply runs_get_search; [done|]. by apply runs_modify. Qed.
Lemma runs_new_pointer w (Q : nat -> world -> Prop) : Q (fresh w) {| w with fresh := S (fresh w) |} -> runs new_pointer w Q.
Proof. intros HQ. by eexists _, _. Qed.
End Memory.

(** One step of a computation.  The stores that are read must be in the context. *)
Ltac step :=
  cbn iota;
  lazymatch goal with
  | |- runs (mret _) _ _ => apply runs_ret
  | |- runs (mbind _ _) _ _ => apply runs_bind
  | |- runs get_base _ _ => apply runs_gets
  | |- runs (gets _) _ _ => apply runs_gets
  | |- runs (set_base _) _ _ => apply runs_modify
  | |- runs (set_server_head _) _ _ => apply runs_modify
  | |- runs (set_queue _ _) _ _ => apply runs_modify
  | |- runs (ns_timer_del _) _ _ => eapply runs_set_ns; [eassumption|]
  | |- runs (req_timer_del _) _ _ => eapply runs_set_req; [eassumption|]
  | |- runs (modify _) _ _ => apply runs_modify
  | |- runs (get_ns _) _ _ => eapply runs_get_ns; [eassumption|]
  | |- runs (get_req _) _ _ => eapply runs_get_req; [eassumption|]
  | |- runs (get_handle _) _ _ => eapply runs_get_handle; [eassumption|]
  | |- runs (get_search _) _ _ => eapply runs_get_search; [eassumption|]
  | |- runs (set_ns _ _) _ _ => eapply runs_set_ns; [eassumption|]
  | |- runs (set_req _ _) _ _ => eapply runs_set_req; [eassumption|]
  | |- runs (set_handle _ _) _ _ => eapply runs_set_handle; [eassumption|]
  | |- runs (set_search _ _) _ _ => eapply runs_set_search; [eassumption|]
  | |- runs (lift _) _ _ => eapply runs_lift; [eassumption || reflexivity|]
  | |- runs new_pointer _ _ => apply runs_new_pointer
  | |- runs tick _ _ => eexists _, _; split; [reflexivity|]
  end; cbn [base servers requests handles searches deferred calls sent ticks fresh].
Ltac steps := repeat step.

(** ** What matters of a state. *)
Record areq := AReq { a_ns : option nat; a_id : Z; a_sound : bool; a_type : Z; a_cb : callback; a_handle : option nat }.
Record asrv := ASrv { s_load : Z; s_up : bool; s_probe : option nat }.
Record astate := AState {
  a_heads : list (list nat);
  a_waiting : list nat;
  a_order : list nat;
  a_good : Z;
  a_in : Z;
  a_wait : Z;
  a_max : Z;
  a_search : option nat;
  a_reqs : gmap nat areq;
  a_srvs : gmap nat asrv;
  a_handles : gmap nat evdns_request;
  a_searches : gmap nat search_list;
  a_deferred : list deferred_reply_callback;
  a_calls : list call;
  a_fresh : nat
}.
(** A packet is of bytes, two of them for the id. *)
Definition packet_ok (p : list Z) : bool := (2 <=? zlen p) && forallb (fun c => (0 <=? c) && (c <? 256)) p.
#[global] Arguments packet_ok : simpl never.
Lemma packet_ok_true p : packet_ok p = true <-> 2 <= zlen p /\ Forall is_byte p.
Proof.
  unfold packet_ok. rewrite andb_true_iff, Z.leb_le, forallb_forall, Forall_forall. apply and_iff_compat_l. unfold is_byte.
  split; intros HF x Hx; specialize (HF x); rewrite list_elem_of_In in *; specialize (HF Hx); lia.
Qed.
(** Only a request with a server has its timer armed. *)
Definition timer_ok (v : request) : bool := match ns v with Some _ => true | None => match timeout_event v with Some _ => false | None => true end end.
Definition abs_req (v : request) : areq := AReq (ns v) (trans_id v) (packet_ok (packet v) && timer_ok v) (request_type v) (user_callback v) (handle v).
Definition abs_srv (v : nameserver) : asrv := ASrv (requests_inflight v) (state v) (probe_request v).
Definition abs (w : world) : astate :=
  let b := base w in
  AState (req_heads b) (req_waiting_head b) (server_head b) (global_good_nameservers b) (global_requests_inflight b) (global_requests_waiting b)
    (global_max_requests_inflight b) (global_search_state b) (abs_req <$> requests w) (abs_srv <$> servers w)
    (handles w) (searches w) (deferred w) (calls w) (fresh w).
Lemma abs_reqs_Some w r q : a_reqs (abs w) !! r = Some q -> exists v, requests w !! r = Some v /\ abs_req v = q.
Proof. cbn. rewrite lookup_fmap, fmap_Some. intros (v & E & ->). eauto. Qed.
Lemma abs_srvs_Some w s n : a_srvs (abs w) !! s = Some n -> exists v, servers w !! s = Some v /\ abs_srv v = n.
Proof. cbn. rewrite lookup_fmap, fmap_Some. intros (v & E & ->). eauto. Qed.
Lemma requests_abs w r v : requests w !! r = Some v -> a_reqs (abs w) !! r = Some (abs_req v).
Proof. intros E. cbn. by rewrite lookup_fmap, E. Qed.
Lemma servers_abs w s v : servers w !! s = Some v -> a_srvs (abs w) !! s = Some (abs_srv v).
Proof. intros E. cbn. by rewrite lookup_fmap, E. Qed.
(** A change that does not matter. *)
Lemma same_ns v v' s : ns v = Some s -> ns v' = Some s -> (trans_id v', packet v', request_type v', user_callback v', handle v') = (trans_id v, packet v, request_type v, user_callback v, handle v) ->
  abs_req v' = abs_req v.
Proof. intros E E' [= E1 E2 E3 E4 E5]. unfold abs_req, timer_ok. by rewrite E, E', E1, E2, E3, E4, E5. Qed.
Lemma abs_req_same (m : gmap nat request) r v v' : m !! r = Some v -> abs_req v' = abs_req v -> abs_req <$> <[r := v']> m = abs_req <$> m.
Proof. intros E HE. rewrite fmap_insert, HE. apply insert_id. by rewrite lookup_fmap, E. Qed.
Lemma abs_srv_same (m : gmap nat nameserver) s v v' : m !! s = Some v -> abs_srv v' = abs_srv v -> abs_srv <$> <[s := v']> m = abs_srv <$> m.
Proof. intros E HE. rewrite fmap_insert, HE. apply insert_id. by rewrite lookup_fmap, E. Qed.

(** ** The invariant of the queues and the servers. *)
Section Net.
Implicit Types a : astate.
Definition inflight a : list nat := concat (a_heads a).
Definition listed a : list nat := inflight a ++ a_waiting a.
Definition ns_of a (r : nat) : option nat := a_reqs a !! r ≫= a_ns.
Definition load a (s r : nat) : Z := if decide (r ∈ inflight a /\ ns_of a r = Some s) then 1 else 0.
Definition up a (s : nat) : Z := match a_srvs a !! s with Some n => if s_up n then 1 else 0 | None => 0 end.
(** The request and its handle point to each other. *)
Definition valid a (r : nat) : Prop := exists q h hv, a_reqs a !! r = Some q /\ a_handle q = Some h /\ a_handles a !! h = Some hv /\ current_req hv = Some r.
Record net_wf a : Prop := {
  nw_heads : a_heads a <> [];
  nw_nodup : NoDup (listed a);
  nw_inflight : forall i l r, a_heads a !! i = Some l -> r ∈ l -> exists q s, a_reqs a !! r = Some q /\ a_ns q = Some s /\ is_Some (a_srvs a !! s) /\
    0 <= a_id q < 0xffff /\ i = Z.to_nat (a_id q mod zlen (a_heads a));
  nw_waiting : forall r, r ∈ a_waiting a -> exists q, a_reqs a !! r = Some q /\ a_ns q = None;
  nw_sound : forall r q, a_reqs a !! r = Some q -> a_sound q = true;
  nw_valid : forall r, r ∈ listed a -> valid a r;
  nw_in : a_in a = zlen (inflight a);
  nw_wait : a_wait a = zlen (a_waiting a);
  nw_order : mem_ok (a_order a) (fun s => is_Some (a_srvs a !! s));
  nw_load : forall s n, a_srvs a !! s = Some n -> total (load a s) (s_load n);
  nw_good : total (up a) (a_good a)
}.
End Net.

(** * Sending requests keeps the invariant

    What choosing servers, moving requests between them, their failure and
    sending change of the state that matters: the order of the servers, which
    server a request is at, and whether a server is up. *)
(** ** Steps that keep the queues and what is owned. *)
Definition ns_to (q : areq) (o : option nat) : areq := {| q with a_ns := o |}.
Definition load_by (n : asrv) (k : Z) : asrv := {| n with s_load := s_load n + k |}.
Inductive quiet (a : astate) : astate -> Prop :=
| q_order l : l ≡ₚ a_order a -> quiet a {| a with a_order := l |}
| q_move r q s s' n n' : a_reqs a !! r = Some q -> a_ns q = Some s -> r ∈ inflight a -> s <> s' -> a_srvs a !! s = Some n -> a_srvs a !! s' = Some n' ->
    quiet a {| a with a_reqs := <[r := ns_to q (Some s')]> (a_reqs a); a_srvs := <[s' := load_by n' 1]> (<[s := load_by n (-1)]> (a_srvs a)) |}
| q_down s n : a_srvs a !! s = Some n -> s_up n = true ->
    quiet a {| a with a_good := a_good a - 1; a_srvs := <[s := {| n with s_up := false |}]> (a_srvs a) |}.

(** What they keep. *)
Definition r_mem (q : areq) := (a_type q, a_cb q, a_handle q).
Record mem := Mem {
  m_reqs : gmap nat (Z * callback * option nat);
  m_probes : gmap nat (option nat);
  m_search : option nat;
  m_handles : gmap nat evdns_request;
  m_searches : gmap nat search_list;
  m_deferred : list deferred_reply_callback;
  m_calls : list call;
  m_fresh : nat
}.
Definition memory (a : astate) : mem :=
  Mem (r_mem <$> a_reqs a) (s_probe <$> a_srvs a) (a_search a) (a_handles a) (a_searches a) (a_deferred a) (a_calls a) (a_fresh a).
Definition queues (a : astate) := (a_heads a, a_waiting a, a_in a, a_wait a, a_max a).
Lemma r_mem_same (m : gmap nat areq) r q q' : m !! r = Some q -> r_mem q' = r_mem q -> r_mem <$> <[r := q']> m = r_mem <$> m.
Proof. intros E HE. rewrite fmap_insert, HE. apply insert_id. by rewrite lookup_fmap, E. Qed.
Lemma s_probe_same (m : gmap nat asrv) s n n' : m !! s = Some n -> s_probe n' = s_probe n -> s_probe <$> <[s := n']> m = s_probe <$> m.
Proof. intros E HE. rewrite fmap_insert, HE. apply insert_id. by rewrite lookup_fmap, E. Qed.
Lemma quiet_memory a a' : quiet a a' -> memory a' = memory a.
Proof.
  intros [l _|r q s s' n n' Eq _ _ Hs En En'|s n En _]; unfold memory; cbn; f_equal.
  - by apply (r_mem_same _ _ q).
  - rewrite (s_probe_same _ _ n'); [by apply (s_probe_same _ _ n) | by rewrite lookup_insert_ne | done].
  - by apply (s_probe_same _ _ n).
Qed.
Lemma quiet_queues a a' : quiet a a' -> queues a' = queues a.
Proof. by intros []. Qed.

Lemma total_here {A} `{EqDecision A} (w w' : A -> Z) n n' e k : total w n -> (forall x, x <> e -> w' x = w x) -> w' e = w e + k -> n' = n + k -> total w' n'.
Proof. intros HT Hne He ->. apply (total_update w w' n _ e Hne HT). lia. Qed.

Lemma quiet_wf a a' : quiet a a' -> net_wf a -> net_wf a'.
Proof.
  intros HQ W. destruct HQ as [l Hl|r q s s' n n' Eq Es Hr Hs En En'|s n En Hup].
  - destruct W. split; try done. cbn. by apply (mem_ok_perm (a_order a)).
  - assert (Hdom : forall x, is_Some ((<[s' := load_by n' 1]> (<[s := load_by n (-1)]> (a_srvs a))) !! x) <-> is_Some (a_srvs a !! x)).
    { intros x. rewrite !lookup_insert_is_Some. destruct (decide (x = s')) as [->|]; [rewrite En'; naive_solver|]. destruct (decide (x = s)) as [->|]; [rewrite En; naive_solver | naive_solver]. }
    pose proof W as W0. destruct W. split; try done; cbn.
    + intros i l x Hi Hx. destruct ((nw_inflight _ W0) i l x Hi Hx) as (q0 & s0 & Hq0 & Hs0 & Hd & Hid). destruct (decide (x = r)) as [->|Hne].
      * rewrite lookup_insert_eq. eexists _, s'. split; [done|]. split; [done|]. rewrite Hdom, En'. split; [done|]. cbn. by simplify_eq.
      * rewrite lookup_insert_ne by done. exists q0, s0. split; [done|]. split; [done|]. by rewrite Hdom.
    + intros x Hx. destruct ((nw_waiting _ W0) x Hx) as (q0 & Hq0 & Hn0). exists q0. rewrite lookup_insert_ne; [done|]. intros <-. by simplify_eq.
    + intros x q0. rewrite lookup_insert_Some. intros [[<- <-]|[_ Hq0]]; [exact ((nw_sound _ W0) r q Eq) | by apply ((nw_sound _ W0) x)].
    + intros x Hx. destruct ((nw_valid _ W0) x Hx) as (q0 & h & hv & Hq0 & Hh & Hv). unfold valid. cbn. destruct (decide (x = r)) as [->|].
      * rewrite lookup_insert_eq. simplify_eq. by eexists _, h, hv.
      * rewrite lookup_insert_ne by done. by exists q0, h, hv.
    + by setoid_rewrite Hdom.
    + assert (Hload : forall t x, load {| a with a_reqs := <[r := ns_to q (Some s')]> (a_reqs a); a_srvs := <[s' := load_by n' 1]> (<[s := load_by n (-1)]> (a_srvs a)) |} t x =
        if decide (x = r) then (if decide (t = s') then 1 else 0) else load a t x).
      { intros t x. unfold load, ns_of, inflight. cbn. fold (inflight a). destruct (decide (x = r)) as [->|]; [rewrite lookup_insert_eq | by rewrite lookup_insert_ne].
        cbn. destruct (decide (t = s')) as [->|]; [by rewrite decide_True | rewrite decide_False; [done|]; intros [_ [= ]]; congruence]. }
      assert (Hlr : forall t, load a t r = if decide (t = s) then 1 else 0).
      { intros t. unfold load, ns_of. rewrite Eq. cbn. rewrite Es. destruct (decide (t = s)) as [->|]; [by rewrite decide_True | rewrite decide_False; [done|]; intros [_ [= ]]; congruence]. }
      assert (Hgo : forall t n0 k, total (load a t) n0 -> k = (if decide (t = s') then 1 else 0) - (if decide (t = s) then 1 else 0) ->
        total (load {| a with a_reqs := <[r := ns_to q (Some s')]> (a_reqs a); a_srvs := <[s' := load_by n' 1]> (<[s := load_by n (-1)]> (a_srvs a)) |} t) (n0 + k)).
      { intros t n0 k HT Hk. apply (total_here (load a t) _ n0 (n0 + k) r k HT); [| |lia].
        - intros x Hx. rewrite Hload. by rewrite decide_False.
        - rewrite Hload, Hlr. rewrite decide_True by done. lia. }
      intros t n0. rewrite lookup_insert_Some. intros [[<- <-]|[Ht Hn0]]; [apply Hgo; [by apply (nw_load _ W0) | by rewrite decide_True, decide_False]|].
      apply lookup_insert_Some in Hn0 as [[<- <-]|[Hts Hn0]]; [apply Hgo; [by apply (nw_load _ W0) | by rewrite decide_False, decide_True]|].
      replace (s_load n0) with (s_load n0 + 0) by lia. apply Hgo; [by apply (nw_load _ W0) | by rewrite !decide_False by done].
    + apply (total_ext (up a)); [|done]. intros x. unfold up. cbn. destruct (decide (x = s')) as [->|]; [by rewrite lookup_insert_eq, En'|]. rewrite lookup_insert_ne by done.
      destruct (decide (x = s)) as [->|]; [by rewrite lookup_insert_eq, En | by rewrite lookup_insert_ne].
  - assert (Hdom : forall x, is_Some ((<[s := {| n with s_up := false |}]> (a_srvs a)) !! x) <-> is_Some (a_srvs a !! x)).
    { intros x. rewrite lookup_insert_is_Some. destruct (decide (x = s)) as [->|]; [rewrite En; naive_solver | naive_solver]. }
    pose proof W as W0. destruct W. split; try done; cbn.
    + intros i l x Hi Hx. setoid_rewrite Hdom. by apply ((nw_inflight _ W0) i l x).
    + by setoid_rewrite Hdom.
    + intros t n0. rewrite lookup_insert_Some. intros [[<- <-]|[_ Hn0]]; cbn; by apply (nw_load _ W0).
    + apply (total_here (up a) _ (a_good a) _ s (-1)); [done | | |lia].
      * intros x Hx. unfold up. cbn. by rewrite lookup_insert_ne.
      * unfold up. cbn. rewrite lookup_insert_eq, En, Hup. done.
Qed.
(** A server that is down stays down. *)
Definition down (a : astate) (s : nat) : Prop := exists n, a_srvs a !! s = Some n /\ s_up n = false.
Lemma down_insert a s n n' x : a_srvs a !! s = Some n -> (s_up n = false -> s_up n' = false) -> down a x ->
  exists k, <[s := n']> (a_srvs a) !! x = Some k /\ s_up k = false.
Proof.
  intros En Hn (k & Ek & Hk). destruct (decide (x = s)) as [->|]; [rewrite lookup_insert_eq; simplify_eq; eauto | rewrite lookup_insert_ne by done; eauto].
Qed.
Lemma quiet_down a a' x : quiet a a' -> down a x -> down a' x.
Proof.
  intros [l _|r q s s' n n' Eq _ _ Hs En En'|s n En _] Hd; [done | |].
  - destruct (down_insert a s n (load_by n (-1)) x En) as (k & Ek & Hk); [done | done|]. unfold down. cbn.
    destruct (decide (x = s')) as [->|]; [|rewrite lookup_insert_ne by done; eauto]. rewrite lookup_insert_eq. rewrite lookup_insert_ne in Ek by done. simplify_eq. eauto.
  - by apply (down_insert a s n).
Qed.
(** Requests that are not in flight do not change. *)
Lemma quiet_off a a' x : quiet a a' -> x ∉ inflight a -> a_reqs a' !! x = a_reqs a !! x.
Proof. intros [l _|r q s s' n n' Eq _ Hr _ _ _|s n _ _] Hx; cbn; [done | | done]. rewrite lookup_insert_ne; [done|]. by intros ->. Qed.
Definition quiets := rtc quiet.
Lemma quiets_off a a' x : quiets a a' -> x ∉ inflight a -> a_reqs a' !! x = a_reqs a !! x.
Proof.
  induction 1 as [|a b c Hab _ IH]; [done|]. intros Hx. rewrite <- (quiet_off a b x Hab Hx). apply IH.
  pose proof (quiet_queues a b Hab) as [= Hh _ _ _ _]. unfold inflight. by rewrite Hh.
Qed.
Lemma quiets_down a a' x : quiets a a' -> down a x -> down a' x.
Proof. induction 1; eauto using quiet_down. Qed.
Lemma quiets_wf a a' : quiets a a' -> net_wf a -> net_wf a'.
Proof. induction 1; eauto using quiet_wf. Qed.
Lemma quiets_memory a a' : quiets a a' -> memory a' = memory a.
Proof. induction 1 as [|a b c Hab _ IH]; [done|]. rewrite IH. by apply quiet_memory. Qed.
Lemma quiets_queues a a' : quiets a a' -> queues a' = queues a.
Proof. induction 1 as [|a b c Hab _ IH]; [done|]. rewrite IH. by apply quiet_queues. Qed.

(** ** The environment.  What the theorems assume of it, by name: that no
    allocation fails, and that among any [patience] random ids that follow each
    other one is new, as long as not all of them are taken.  Without the first,
    callbacks are dropped and assertions fail, as the end of ResolverDemo.v shows;
    without the second, the loop that picks an id need not end. *)
Definition memory_lasts `{Network} : Prop := forall t, mm_ok t = true.
Definition ids_found `{Network} : Prop :=
  forall t ids, zlen ids < 0xffff -> exists k, (k < patience)%nat /\ of_le (rng (t + k) 2) ∉ ids /\ of_le (rng (t + k) 2) <> 0xffff.
Class NetworkLaws `(Network) : Prop := { rng_fair : ids_found; mm_ok_law : memory_lasts }.

(** ** Round robin. *)
Definition with_order (w : world) (l : list nat) : world := {| w with base := {| (base w) with server_head := l |} |}.
Definition is_up (w : world) (s : nat) : Prop := exists v, servers w !! s = Some v /\ state v = true.
Definition is_down (w : world) (s : nat) : Prop := exists v, servers w !! s = Some v /\ state v = false.
Section Pick.
Context `{Network}.
Lemma pick_loop_first l1 : forall w s l2 pre turns started, server_head (base w) = l1 ++ s :: l2 ++ pre -> NoDup (l1 ++ s :: l2 ++ pre) ->
  Some started = head (pre ++ l1 ++ [s]) -> Forall (is_down w) l1 -> is_up w s -> (length l1 < turns)%nat ->
  runs (pick_loop turns started) w (fun o w' => o = Some s /\ w' = with_order w (l2 ++ pre ++ l1 ++ [s])).
Proof.
  induction l1 as [|x l1 IH]; intros w s l2 pre turns started Hl HND Hst HD (v & Ev & Hup) Ht; (destruct turns as [|turns]; [cbn in Ht; lia|]); cbn [pick_loop].
  - steps. eapply runs_lift; [by rewrite Hl|]. steps. rewrite Hl, Hup. cbn [app next]. step. split; [done|]. unfold with_order. by rewrite <- app_assoc.
  - apply Forall_cons in HD as [(u & Eu & Hdown) HD]. steps. eapply runs_lift; [by rewrite Hl|]. steps. rewrite Hl, Hdown. cbn [app next].
    destruct (l1 ++ s :: l2 ++ pre) as [|y m] eqn:E; [by destruct l1|]. steps.
    assert (Hne : y <> started).
    { cbn [app] in HND. rewrite E in HND. apply NoDup_cons in HND as [Hx HND]. apply NoDup_cons in HND as [Hy _]. intros ->. destruct pre as [|p pre].
      - cbn in Hst. injection Hst as ->. apply Hx. left.
      - cbn in Hst. injection Hst as ->. destruct l1 as [|z l1]; cbn in E; injection E as -> <-; apply Hy; set_solver. }
    rewrite bool_decide_eq_false_2 by done. assert (HP : l1 ++ s :: l2 ++ pre ++ [x] ≡ₚ x :: l1 ++ s :: l2 ++ pre).
    { rewrite (app_assoc l2), (app_comm_cons _ [x]), app_assoc. by rewrite <- Permutation_cons_append. }
    eapply runs_mono; [apply (IH _ s l2 (pre ++ [x]))|]; cbn [base server_head servers].
    + rewrite <- E, <- app_assoc. cbn. by rewrite <- app_assoc.
    + rewrite HP. exact HND.
    + rewrite <- app_assoc. exact Hst.
    + exact HD.
    + by exists v.
    + cbn in Ht. lia.
    + intros o w' [-> ->]. split; [done|]. unfold with_order. cbn. by rewrite <- !app_assoc.
Qed.
(** The first server that is up is picked and all up to it go to the end. *)
Lemma pick_first_up w l1 s l2 : server_head (base w) = l1 ++ s :: l2 -> NoDup (l1 ++ s :: l2) -> global_good_nameservers (base w) <> 0 ->
  Forall (is_down w) l1 -> is_up w s -> runs nameserver_pick w (fun o w' => o = Some s /\ w' = with_order w (l2 ++ l1 ++ [s])).
Proof.
  intros Hl HND Hg HD Hup. unfold nameserver_pick. steps. rewrite Hl. apply Z.eqb_neq in Hg.
  destruct (l1 ++ s :: l2) as [|x m] eqn:E; [by destruct l1|]. rewrite Hg.
  apply (pick_loop_first l1 w s l2 []); rewrite ?app_nil_r; try done; [by rewrite Hl | by rewrite E | destruct l1; injection E as -> <-; done|].
  rewrite <- E, length_app. cbn. lia.
Qed.
(** With none up the second server is picked, and the order turns by one. *)
Lemma pick_none_up w s l : server_head (base w) = s :: l -> is_Some (servers w !! s) -> global_good_nameservers (base w) = 0 ->
  runs nameserver_pick w (fun o w' => o = head (l ++ [s]) /\ w' = with_order w (l ++ [s])).
Proof. intros Hl [v Ev] Hg. unfold nameserver_pick. steps. rewrite Hl, Hg. change (0 =? 0) with true. cbn iota. steps. by split. Qed.
Lemma first_up w l : (forall s, s ∈ l -> is_Some (servers w !! s)) -> (exists s, s ∈ l /\ is_up w s) ->
  exists l1 s l2, l = l1 ++ s :: l2 /\ Forall (is_down w) l1 /\ is_up w s.
Proof.
  induction l as [|x l IH]; intros Hex (s & Hs & Hup); [by apply not_elem_of_nil in Hs|].
  destruct (Hex x ltac:(left)) as [v Ev]. destruct (state v) eqn:Est; [exists [], x, l; split; [done|]; split; [constructor | by exists v]|].
  apply elem_of_cons in Hs as [->|Hs]; [destruct Hup as (u & Eu & Hu); congruence|].
  destruct IH as (l1 & s' & l2 & -> & HD & Hup'); [intros y Hy; apply Hex; by right | by exists s|].
  exists (x :: l1), s', l2. split; [done|]. split; [|done]. constructor; [by exists v | done].
Qed.
Lemma pick_runs w : net_wf (abs w) ->
  runs nameserver_pick w (fun o w' => match o with
    | None => server_head (base w) = [] /\ w' = w
    | Some s => exists l, w' = with_order w l /\ l ≡ₚ server_head (base w) /\ s ∈ l /\ (global_good_nameservers (base w) <> 0 -> is_up w s)
    end).
Proof.
  intros W. destruct (nw_order _ W) as [HND Hdom]. cbn in HND, Hdom.
  assert (Hex : forall s, s ∈ server_head (base w) -> is_Some (servers w !! s)) by (intros s Hs; apply Hdom in Hs; by rewrite lookup_fmap, fmap_is_Some in Hs).
  destruct (server_head (base w)) as [|x m] eqn:E; [unfold nameserver_pick; steps; rewrite E; by step|].
  destruct (Z.eq_dec (global_good_nameservers (base w)) 0) as [Hg|Hg].
  - eapply runs_mono; [apply (pick_none_up w x m); [done | apply Hex; left | done]|]. intros o w' [-> ->].
    assert (HP : m ++ [x] ≡ₚ x :: m) by (symmetry; apply Permutation_cons_append).
    destruct m as [|y m]; (eexists; split; [reflexivity|]); (split; [done|]); (split; [left | done]).
  - destruct (first_up w (x :: m)) as (l1 & s & l2 & El & HD & Hup); [done| |].
    + pose proof (nw_good _ W) as HT. cbn in HT. assert (Hnn : forall s, 0 <= up (abs w) s) by (intros s; unfold up; repeat case_match; lia).
      pose proof (total_nonneg _ _ Hnn HT). destruct (proj1 (total_pos _ _ Hnn HT)) as [s Hs]; [lia|]. exists s. unfold up in Hs. cbn in Hs. rewrite lookup_fmap in Hs.
      destruct (servers w !! s) as [v|] eqn:Ev; cbn in Hs; [|lia]. split; [apply Hdom; by rewrite lookup_fmap, Ev|]. exists v. split; [done|]. destruct (state v); [done | lia].
    + rewrite El in *. eapply runs_mono; [by apply (pick_first_up w l1 s l2)|]. intros o w' [-> ->]. eexists. split; [reflexivity|]. split; [|split; [set_solver | done]].
      rewrite (app_assoc l2), (Permutation_app_comm (l2 ++ l1)). cbn. rewrite (Permutation_app_comm l2). by rewrite Permutation_middle.
Qed.
End Pick.

(** ** Requests in flight. *)
Lemma runs_valid `{Network} w r (Q : unit -> world -> Prop) : valid (abs w) r -> Q tt w -> runs (ASSERT_VALID_REQUEST r) w Q.
Proof.
  intros (q & h & hv & (v & Ev & <-)%abs_reqs_Some & Hh & Ehv & Hc) HQ. cbn in Hh, Ehv. unfold ASSERT_VALID_REQUEST. steps.
  apply runs_assert; [|done]. by apply bool_decide_eq_true.
Qed.
Lemma inflight_head a r : r ∈ inflight a <-> exists i l, a_heads a !! i = Some l /\ r ∈ l.
Proof.
  unfold inflight. rewrite list_elem_of_In, in_concat. split.
  - intros (l & Hl & Hr). apply list_elem_of_In in Hl, Hr. apply list_elem_of_lookup in Hl as [i Hi]. eauto.
  - intros (i & l & Hi & Hr). exists l. split; apply list_elem_of_In; [by apply list_elem_of_lookup_2 in Hi | done].
Qed.
Lemma listed_inflight a r : r ∈ inflight a -> r ∈ listed a.
Proof. intros Hr. apply elem_of_app. by left. Qed.
Lemma load_nonneg a s r : 0 <= load a s r.
Proof. unfold load. case_decide; lia. Qed.
Record in_flight (w : world) (r : nat) (v : request) (s : nat) (n : nameserver) : Prop := {
  if_req : requests w !! r = Some v;
  if_ns : ns v = Some s;
  if_srv : servers w !! s = Some n;
  if_id : 0 <= trans_id v < 0xffff;
  if_load : 0 < requests_inflight n;
  if_head : exists l, req_heads (base w) !! Z.to_nat (trans_id v mod zlen (req_heads (base w))) = Some l /\ r ∈ l
}.
Lemma inflight_inv w r : net_wf (abs w) -> r ∈ inflight (abs w) -> exists v s n, in_flight w r v s n.
Proof.
  intros W Hr. destruct (proj1 (inflight_head _ r) Hr) as (i & l & Hi & Hrl).
  destruct (nw_inflight _ W i l r Hi Hrl) as (q & s & Hq & Hs & [n Hn] & Hid & ->). pose proof (nw_load _ W s n Hn) as HT.
  assert (0 < s_load n). { apply (total_pos _ _ (load_nonneg (abs w) s) HT). exists r. unfold load, ns_of. rewrite Hq. cbn. rewrite decide_True by done. lia. }
  destruct (abs_reqs_Some _ _ _ Hq) as (v & Ev & <-). destruct (abs_srvs_Some _ _ _ Hn) as (n' & En & <-). exists v, s, n'. split; try done. by exists l.
Qed.

Section Sends.
Context `{Network}.
Implicit Types (w : world).

Lemma quiets_same a a' : a' = a -> quiets a a'.
Proof. intros ->. apply rtc_refl. Qed.
Lemma with_order_quiet w l : l ≡ₚ server_head (base w) -> quiets (abs w) (abs (with_order w l)).
Proof. intros Hl. apply rtc_once. by apply (q_order (abs w) l). Qed.
Lemma pick_quiet w : net_wf (abs w) ->
  runs nameserver_pick w (fun o w' => quiets (abs w) (abs w') /\ requests w' = requests w /\ servers w' = servers w /\
    match o with Some s => is_Some (servers w !! s) | None => server_head (base w) = [] end).
Proof.
  intros W. eapply runs_mono; [by apply pick_runs|]. intros [s|] w'; cbn.
  - intros (l & -> & Hl & Hs & _). split_and!; [by apply with_order_quiet | done | done|]. rewrite Hl in Hs.
    apply (nw_order _ W) in Hs. cbn in Hs. by rewrite lookup_fmap, fmap_is_Some in Hs.
  - intros [Hh ->]. split_and!; [by apply quiets_same | done | done | done].
Qed.
Lemma swap_quiet w r o : net_wf (abs w) -> r ∈ inflight (abs w) -> (forall s, o = Some s -> is_Some (servers w !! s)) ->
  runs (request_swap_ns r o) w (fun _ w' => quiets (abs w) (abs w')).
Proof.
  intros W Hr Ho. destruct o as [s'|]; cbn [request_swap_ns]; [|step; by apply quiets_same].
  destruct (inflight_inv w r W Hr) as (v & s & n & [Ev Es En Hid Hld _]). destruct (Ho s' eq_refl) as [n' En']. steps.
  case_if; [step; by apply quiets_same|]. apply bool_decide_eq_false in E. steps. apply runs_assert; [lia|]. steps.
  assert (Hne : s <> s') by congruence.
  eapply runs_set_ns; [cbn; by rewrite lookup_insert_ne|]. cbn [servers requests base]. eapply runs_set_req; [done|]. apply rtc_once.
  assert (Hq : abs_req {| v with ns := Some s' |} = ns_to (abs_req v) (Some s')) by (unfold abs_req, ns_to, timer_ok; cbn; by rewrite Es).
  unfold abs at 2. cbn. rewrite !fmap_insert, Hq.
  exact (q_move (abs w) r (abs_req v) s s' (abs_srv n) (abs_srv n') (requests_abs _ _ _ Ev) Es Hr Hne (servers_abs _ _ _ En) (servers_abs _ _ _ En')).
Qed.
Lemma inflight_quiets a a' r : quiets a a' -> r ∈ inflight a -> r ∈ inflight a'.
Proof. intros [= Hh _ _ _ _]%quiets_queues Hr. unfold inflight. by rewrite Hh. Qed.

(** [quietly m w]: from [w], [m] returns with quiet steps. *)
Definition quietly {A} (m : M A) (w : world) : Prop := runs m w (fun _ w' => quiets (abs w) (abs w')).
Lemma quietly_bind {A B} (m : M A) (k : A -> M B) w :
  runs m w (fun a w' => quiets (abs w) (abs w') /\ quietly (k a) w') -> quietly (m ≫= k) w.
Proof.
  intros HM. apply runs_bind. eapply runs_mono; [exact HM|]. intros a w' [Hq Hk]. eapply runs_mono; [exact Hk|]. intros b w'' Hq'. by etrans.
Qed.
Lemma quietly_for_each {A} (f : A -> M unit) l w : net_wf (abs w) ->
  (forall a w', a ∈ l -> quiets (abs w) (abs w') -> net_wf (abs w') -> quietly (f a) w') -> quietly (for_each l f) w.
Proof.
  intros W Hf. apply (runs_for_each (fun w' => quiets (abs w) (abs w'))); [|by apply quiets_same].
  intros a w' Ha Hq. eapply runs_mono; [apply (Hf a w' Ha Hq (quiets_wf _ _ Hq W))|]. intros [] w'' Hq'. by etrans.
Qed.
Lemma quietly_same {A} (m : M A) w : runs m w (fun _ w' => abs w' = abs w) -> quietly m w.
Proof. intros HM. eapply runs_mono; [exact HM|]. intros ? w' E. by apply quiets_same. Qed.

Lemma ns_timer_add_quiet w s tv v : servers w !! s = Some v -> runs (ns_timer_add s tv) w (fun _ w' => abs w' = abs w).
Proof. intros Ev. unfold ns_timer_add, event_add. steps. case_if; steps; [|done]. unfold abs. cbn. by rewrite (abs_srv_same _ _ _ _ Ev). Qed.
Lemma req_timer_add_quiet w r tv v s : requests w !! r = Some v -> ns v = Some s -> runs (req_timer_add r tv) w (fun _ w' => abs w' = abs w).
Proof.
  intros Ev Es. unfold req_timer_add, event_add. steps. case_if; steps; [|done]. unfold abs. cbn. rewrite (abs_req_same _ _ _ _ Ev); [done|]. by apply (same_ns v _ s).
Qed.

Lemma reassign_quiet w s r : net_wf (abs w) -> r ∈ inflight (abs w) -> quietly (reassign s r) w.
Proof.
  intros W Hr. destruct (inflight_inv w r W Hr) as (v & t & n & [Ev Es En Hid Hld _]). unfold reassign. apply quietly_bind. step. split; [by apply quiets_same|].
  case_if; [|apply quietly_same; by step]. apply quietly_bind. eapply runs_mono; [by apply pick_quiet|]. intros o w' (Hq & Hreq & Hsrv & Ho). split; [done|].
  apply swap_quiet; [by eapply quiets_wf | by eapply inflight_quiets|]. intros s' ->. by rewrite Hsrv.
Qed.
Lemma nameserver_failed_quiet w s : net_wf (abs w) -> is_Some (servers w !! s) -> quietly (nameserver_failed s) w.
Proof.
  intros W [v Ev]. unfold nameserver_failed. apply quietly_bind. step. split; [by apply quiets_same|]. destruct (state v) eqn:Est; cbn [negb]; [|apply quietly_same; by step].
  unfold quietly. steps. apply runs_assert.
  { pose proof (nw_good _ W) as HT. assert (Hnn : forall s, 0 <= up (abs w) s) by (intros t; unfold up; repeat case_match; lia).
    apply Z.leb_le. assert (0 < a_good (abs w)); [|cbn in *; lia]. apply (total_pos _ _ Hnn HT). exists s. unfold up. rewrite (servers_abs _ _ _ Ev). cbn. rewrite Est. lia. }
  steps. eapply runs_mono; [eapply ns_timer_add_quiet; cbn; apply lookup_insert_eq|]. intros [] w1 E1.
  assert (Hq : quiets (abs w) (abs w1)).
  { rewrite E1. apply rtc_once. unfold abs at 2. cbn. rewrite fmap_insert. exact (q_down (abs w) s (abs_srv v) (servers_abs _ _ _ Ev) Est). }
  case_if; [by step|]. eapply runs_mono; [apply quietly_for_each; [by eapply quiets_wf|]|].
  - intros i w2 Hi Hq2 W2. unfold reassign_head. apply quietly_bind. unfold get_queue. steps.
    destruct (lookup_lt_is_Some_2 (req_heads (base w2)) i) as [l El].
    { apply quiets_queues in Hq, Hq2. unfold queues in *. cbn in Hq, Hq2. assert (req_heads (base w2) = req_heads (base w)) as -> by congruence. apply elem_of_seq in Hi. cbn in Hi. lia. }
    eapply runs_lift; [rewrite Nat2Z.id; exact El|]. split; [by apply quiets_same|].
    apply quietly_for_each; [done|]. intros r w3 Hr Hq3 W3. apply reassign_quiet; [done|]. eapply inflight_quiets; [exact Hq3|]. apply inflight_head. by exists i, l.
  - intros [] w3 Hq3. by etrans.
Qed.
Lemma write_waiting_quiet w s b : is_Some (servers w !! s) -> runs (nameserver_write_waiting s b) w (fun _ w' => abs w' = abs w).
Proof. intros [v Ev]. unfold nameserver_write_waiting, event_add. steps. case_if; steps; [done|]. unfold abs. cbn. by rewrite (abs_srv_same _ _ _ _ Ev). Qed.
Lemma transmit_to_quiet w r v s n : net_wf (abs w) -> in_flight w r v s n -> r ∈ inflight (abs w) -> quietly (evdns_request_transmit_to r s) w.
Proof.
  intros W [Ev Es En Hid Hld _] Hr. unfold evdns_request_transmit_to. apply quietly_bind. apply runs_valid; [apply W; by apply listed_inflight|]. split; [by apply quiets_same|].
  unfold quietly. steps.
  assert (Hadd : runs (if (requests_inflight n =? 1) && disable_when_inactive (base w) then
             ok ← event_add; (if (ok : bool) then set_ns s (fun v => {| v with event := true |}) else mret tt);; mret ok else mret true) w (fun _ w' => abs w' = abs w)).
  { case_if; [|by step]. unfold event_add. steps. case_if; steps; [|done]. unfold abs. cbn. by rewrite (abs_srv_same _ _ _ _ En). }
  eapply runs_mono; [exact Hadd|]. intros added w1 E1. destruct added; cbn [negb]; [|step; by apply quiets_same].
  assert (W1 : net_wf (abs w1)) by by rewrite E1. assert (Hr1 : r ∈ inflight (abs w1)) by by rewrite E1.
  destruct (inflight_inv w1 r W1 Hr1) as (v1 & s1 & n1 & [Ev1 Es1 En1 _ _ _]). steps.
  destruct (sendto _ _ _).
  - step. by apply quiets_same.
  - step. by apply quiets_same.
  - steps. eapply runs_mono; [apply nameserver_failed_quiet; [exact W1 | by exists n1]|]. intros [] w2 Hq. step. by rewrite <- E1.
Qed.
Lemma transmit_quiet w r : net_wf (abs w) -> r ∈ inflight (abs w) -> quietly (evdns_request_transmit r) w.
Proof.
  intros W Hr. destruct (inflight_inv w r W Hr) as (v & s & n & F). destruct F as [Ev Es En Hid Hld HF]. unfold evdns_request_transmit, quietly. step.
  apply runs_valid; [apply W; by apply listed_inflight|]. do 2 step. set (w1 := {| w with requests := _ |}). assert (E1 : abs w1 = abs w) by (unfold abs; cbn; by rewrite (abs_req_same _ _ _ _ Ev)).
  step. eapply runs_get_req; [apply lookup_insert_eq|]. cbn [trans_id ns]. step. apply runs_assert; [lia|]. rewrite Es. steps.
  case_if; [step; by apply quiets_same|]. step.
  eapply runs_mono; [apply (transmit_to_quiet w1 r {| v with transmit_me := true |} s n); [by rewrite E1 | | by rewrite E1]|].
  { split; try done. apply lookup_insert_eq. }
  intros code w2 Hq2. rewrite E1 in Hq2. assert (W2 := quiets_wf _ _ Hq2 W). assert (Hr2 := inflight_quiets _ _ r Hq2 Hr).
  destruct (inflight_inv w2 r W2 Hr2) as (v2 & s2 & n2 & [Ev2 Es2 En2 _ _ _]). step. eapply runs_get_req; [exact Ev2|]. case_if; steps.
  - eapply runs_mono; [apply write_waiting_quiet; cbn; rewrite lookup_insert_eq; by eexists|]. intros [] w3 E3. step. rewrite E3. unfold abs at 2. cbn. by rewrite (abs_srv_same _ _ _ _ En2).
  - eapply runs_mono; [by eapply req_timer_add_quiet|]. intros [] w3 E3. assert (W3 : net_wf (abs w3)) by by rewrite E3. assert (Hr3 : r ∈ inflight (abs w3)) by by rewrite E3.
    destruct (inflight_inv w3 r W3 Hr3) as (v3 & s3 & n3 & [Ev3 Es3 En3 _ _ _]). steps. unfold abs at 2. cbn. rewrite (abs_req_same _ _ _ _ Ev3) by done. by rewrite <- E3 in Hq2.
Qed.
Lemma transmit_list_quiet l : forall w did, net_wf (abs w) -> (forall r, r ∈ l -> r ∈ inflight (abs w)) -> quietly (transmit_list l did) w.
Proof.
  induction l as [|r l IH]; intros w did W Hl; cbn [transmit_list]; [apply quietly_same; by step|].
  destruct (inflight_inv w r W (Hl r ltac:(left))) as (v & s & n & [Ev _ _ _ _ _]). apply quietly_bind. step. split; [by apply quiets_same|].
  case_if; [|apply IH; [done|]; intros x Hx; apply Hl; by right]. apply quietly_bind. eapply runs_mono; [apply transmit_quiet; [done|]; apply Hl; left|]. intros ? w' Hq. split; [done|].
  apply IH; [exact (quiets_wf _ _ Hq W)|]. intros x Hx. apply (inflight_quiets _ _ x Hq), Hl. by right.
Qed.
Lemma evdns_transmit_quiet w : net_wf (abs w) -> quietly evdns_transmit w.
Proof.
  intros W. unfold evdns_transmit. apply quietly_bind. step. split; [by apply quiets_same|].
  assert (HG : forall heads w' did, (forall i, i ∈ heads -> (i < length (req_heads (base w)))%nat) -> quiets (abs w) (abs w') -> quietly (transmit_heads heads did) w').
  { induction heads as [|i heads IH]; intros w' did Hh Hq; cbn [transmit_heads]; [apply quietly_same; by step|]. apply quietly_bind. unfold get_queue. steps.
    pose proof (quiets_queues _ _ Hq) as Hqu. unfold queues in Hqu. cbn in Hqu. injection Hqu as Hheads _ _ _ _.
    destruct (lookup_lt_is_Some_2 (req_heads (base w')) i) as [l El]; [rewrite Hheads; apply Hh; left|].
    eapply runs_lift; [rewrite Nat2Z.id; exact El|]. split; [by apply quiets_same|]. apply quietly_bind.
    eapply runs_mono; [apply transmit_list_quiet; [exact (quiets_wf _ _ Hq W)|]|].
    - intros r Hr. apply inflight_head. by exists i, l.
    - intros did' w'' Hq'. split; [done|]. apply IH; [intros j Hj; apply Hh; by right | by etrans]. }
  apply HG; [|by apply quiets_same]. intros i Hi. apply elem_of_seq in Hi. lia.
Qed.
End Sends.
