(* ===== verification/ResolverPump.v ===== *)
(** * The queues: entering and leaving them keeps the invariant

    Requests on a list and off it, the choice of an id, and the promotion of
    requests that wait. *)
From S2P Require Import Prelude Timeval Event Buffer BufferInv CString Address Dns DnsNames Resolver ResolverInv.
Open Scope Z_scope.

(** ** Lists of lists. *)
Lemma concat_split (heads : list (list nat)) i l : heads !! i = Some l ->
  exists rest, forall l', concat (<[i := l']> heads) ≡ₚ l' ++ rest.
Proof.
  intros Hi. exists (concat (take i heads) ++ concat (drop (S i) heads)). intros l'. pose proof (lookup_lt_Some _ _ _ Hi).
  rewrite insert_take_drop by done. rewrite concat_app. cbn. rewrite Permutation_app_comm, <- app_assoc. apply Permutation_app_head, Permutation_app_comm.
Qed.
Lemma alter_is_insert {A} (l : list A) i x f : l !! i = Some x -> alter f i l = <[i := f x]> l.
Proof. intros Hi. rewrite list_insert_alter. apply list_alter_ext; [|done]. intros y Hy. by simplify_eq. Qed.
Lemma filter_ne_absent (l : list nat) r : r ∉ l -> filter (fun x => x <> r) l = l.
Proof. induction l as [|y l IH]; [done|]. intros [Hy Hl]%not_elem_of_cons. rewrite filter_cons, decide_True by done. f_equal. auto. Qed.
Lemma filter_ne_perm (l : list nat) r : NoDup l -> r ∈ l -> l ≡ₚ r :: filter (fun x => x <> r) l.
Proof.
  intros HND Hr. induction HND as [|x l Hx HND IH]; [by apply not_elem_of_nil in Hr|]. rewrite filter_cons. destruct (decide (x = r)) as [->|Hne].
  - rewrite decide_False by naive_solver. by rewrite filter_ne_absent.
  - rewrite decide_True by done. apply elem_of_cons in Hr as [->|Hr]; [done|]. rewrite IH at 1 by done. constructor.
Qed.

(** ** Requests off the lists. *)
Section Lists.
Implicit Types a : astate.
(** Requests that are not listed may change. *)
Definition edit a (r : nat) (q : areq) : astate := {| a with a_reqs := <[r := q]> (a_reqs a) |}.
Lemma edit_wf a r q : net_wf a -> r ∉ listed a -> a_sound q = true -> net_wf (edit a r q).
Proof.
  intros W Hr Hq. assert (Hne : forall x, x ∈ listed a -> x <> r) by (intros x Hx ->; done).
  assert (Hin : forall x, x ∈ inflight a -> x <> r) by (intros x Hx; by apply Hne, listed_inflight). destruct W. split; try done; unfold edit; cbn.
  - intros i l x Hi Hx. rewrite lookup_insert_ne by (symmetry; apply Hin, inflight_head; eauto). by apply (nw_inflight i l).
  - intros x Hx. rewrite lookup_insert_ne; [auto|]. intros <-. apply Hr, elem_of_app. by right.
  - intros x q0. rewrite lookup_insert_Some. intros [[<- <-]|[_ Hq0]]; [done | by apply (nw_sound x)].
  - intros x Hx. destruct (nw_valid x Hx) as (q0 & h & hv & Hq0 & Hv). exists q0, h, hv. cbn. rewrite lookup_insert_ne; [done|]. symmetry. by apply Hne.
  - intros s n Hn. apply (total_ext (load a s)); [|by apply nw_load]. intros x. unfold load, ns_of, inflight. cbn. fold (inflight a).
    destruct (decide (x = r)) as [->|Hx]; [|by rewrite lookup_insert_ne]. rewrite !decide_False; [done | |]; intros [Hx _]; by apply (Hin r).
Qed.
(** What the queues do not depend on. *)
Lemma net_wf_other a hs ss d c f g m : net_wf a -> (forall r, r ∈ listed a -> valid {| a with a_handles := hs |} r) ->
  net_wf {| a with a_handles := hs; a_searches := ss; a_deferred := d; a_calls := c; a_fresh := f; a_search := g; a_max := m |}.
Proof. intros [] Hv. by split. Qed.

Definition unlist_wait a (r : nat) : astate := {| a with a_waiting := filter (fun x => x <> r) (a_waiting a); a_wait := a_wait a - 1 |}.
Lemma unlist_wait_wf a r : net_wf a -> r ∈ a_waiting a -> net_wf (unlist_wait a r) /\ listed a ≡ₚ r :: listed (unlist_wait a r) /\ r ∉ listed (unlist_wait a r).
Proof.
  intros W Hr. assert (HP : listed a ≡ₚ r :: listed (unlist_wait a r)).
  { unfold listed at 1. rewrite (filter_ne_perm (a_waiting a) r) by (done || (pose proof (nw_nodup a W) as (_ & _ & ?)%NoDup_app; done)). by rewrite <- Permutation_middle. }
  pose proof (nw_nodup a W) as HND. rewrite HP in HND. apply NoDup_cons in HND as [Hnot HND]. split; [|done].
  destruct W. split; try done; unfold unlist_wait; cbn.
  - intros x Hx. apply list_elem_of_filter in Hx as [_ Hx]. auto.
  - intros x Hx. apply nw_valid. rewrite HP. by right.
  - rewrite nw_wait. apply Permutation_length in HP. unfold listed, unlist_wait, zlen, inflight in *. cbn in HP. rewrite !length_app in HP. lia.
Qed.
Definition enlist_wait a (r : nat) : astate := {| a with a_waiting := a_waiting a ++ [r]; a_wait := a_wait a + 1 |}.
Lemma enlist_wait_perm a r : listed (enlist_wait a r) ≡ₚ r :: listed a.
Proof. unfold listed, enlist_wait, inflight. cbn. rewrite app_assoc. by rewrite <- Permutation_cons_append. Qed.
Lemma enlist_wait_wf a r q : net_wf a -> r ∉ listed a -> a_reqs a !! r = Some q -> a_ns q = None -> valid a r -> net_wf (enlist_wait a r).
Proof.
  intros W Hr Hq Hns Hv. pose proof (enlist_wait_perm a r) as HP. destruct W. split; try done; unfold enlist_wait in *; cbn.
  - rewrite HP. by constructor.
  - intros x Hx. apply elem_of_app in Hx as [Hx|Hx]; [auto|]. apply list_elem_of_singleton in Hx as ->. eauto.
  - intros x Hx. rewrite HP in Hx. apply elem_of_cons in Hx as [->|Hx]; [done | by apply nw_valid].
  - rewrite nw_wait, zlen_app. done.
Qed.

(** In flight. *)
Definition unlist_in a (r i s : nat) (n : asrv) : astate :=
  {| a with a_heads := alter (filter (fun x => x <> r)) i (a_heads a); a_in := a_in a - 1; a_srvs := <[s := load_by n (-1)]> (a_srvs a) |}.
Lemma load_ext a a' s x : (x ∈ inflight a' <-> x ∈ inflight a) -> ns_of a' x = ns_of a x -> load a' s x = load a s x.
Proof. intros Hin Hns. unfold load. rewrite Hns. apply decide_ext. by rewrite Hin. Qed.
Lemma load_one a s r q : a_reqs a !! r = Some q -> a_ns q = Some s -> forall t, load a t r = if decide (r ∈ inflight a /\ t = s) then 1 else 0.
Proof. intros Hq Hs t. unfold load, ns_of. rewrite Hq. cbn. rewrite Hs. apply decide_ext. split; intros [? ?]; (split; [done | congruence]). Qed.
Lemma dom_insert_same {A} (m : gmap nat A) s n n' x : m !! s = Some n -> is_Some (<[s := n']> m !! x) <-> is_Some (m !! x).
Proof. intros E. rewrite lookup_insert_is_Some. destruct (decide (x = s)) as [->|]; [rewrite E; naive_solver | naive_solver]. Qed.
(** The loads when the server [s] gets [k] more because of the request [r]. *)
Lemma loads_change a a' r s n k : (forall t m, a_srvs a !! t = Some m -> total (load a t) (s_load m)) -> a_srvs a !! s = Some n -> a_srvs a' = <[s := load_by n k]> (a_srvs a) ->
  (forall t x, x <> r -> load a' t x = load a t x) -> (forall t, load a' t r = load a t r + if decide (t = s) then k else 0) ->
  forall t m, a_srvs a' !! t = Some m -> total (load a' t) (s_load m).
Proof.
  intros HT En Ea Hne Hr t m. rewrite Ea. rewrite lookup_insert_Some. intros [[<- <-]|[Ht Hm]].
  - apply (total_here (load a s) _ (s_load n) _ r k); [by apply HT | by apply Hne | by rewrite Hr, decide_True | done].
  - apply (total_here (load a t) _ (s_load m) _ r 0); [by apply HT | by apply Hne | rewrite Hr, decide_False by congruence; lia | lia].
Qed.
Lemma ups_same a a' s n k : a_srvs a !! s = Some n -> a_srvs a' = <[s := load_by n k]> (a_srvs a) -> forall x, up a' x = up a x.
Proof. intros En Ea x. unfold up. rewrite Ea. destruct (decide (x = s)) as [->|]; [by rewrite lookup_insert_eq, En | by rewrite lookup_insert_ne]. Qed.

Lemma unlist_in_perm a r i l s n : NoDup (listed a) -> a_heads a !! i = Some l -> r ∈ l -> inflight a ≡ₚ r :: inflight (unlist_in a r i s n) /\ r ∉ inflight (unlist_in a r i s n).
Proof.
  intros HND Hi Hr. destruct (concat_split _ _ _ Hi) as [rest Hrest]. unfold inflight, unlist_in. cbn. rewrite (alter_is_insert _ _ _ _ Hi).
  assert (HE : concat (a_heads a) ≡ₚ l ++ rest) by (rewrite <- Hrest; by rewrite list_insert_id).
  apply NoDup_app in HND as (HND & _). unfold inflight in HND. rewrite HE in HND. pose proof HND as (HNl & Hd & _)%NoDup_app.
  rewrite HE, Hrest. split; [by rewrite (filter_ne_perm l r) at 1|]. intros Hin. apply elem_of_app in Hin as [Hin|Hin]; [by apply list_elem_of_filter in Hin as [? _] | by apply (Hd r)].
Qed.
Lemma unlist_in_wf a r i l q s n : net_wf a -> a_heads a !! i = Some l -> r ∈ l -> a_reqs a !! r = Some q -> a_ns q = Some s -> a_srvs a !! s = Some n ->
  net_wf (unlist_in a r i s n) /\ listed a ≡ₚ r :: listed (unlist_in a r i s n) /\ r ∉ listed (unlist_in a r i s n).
Proof.
  intros W Hi Hr Hq Hs Hn. destruct (unlist_in_perm a r i l s n (nw_nodup a W) Hi Hr) as [HPi Hnot].
  assert (HP : listed a ≡ₚ r :: listed (unlist_in a r i s n)) by (unfold listed at 1; rewrite HPi; done).
  pose proof (nw_nodup a W) as HND. rewrite HP in HND. apply NoDup_cons in HND as [Hnotl HND]. split; [|done].
  assert (Hsub : forall x, x <> r -> x ∈ inflight (unlist_in a r i s n) <-> x ∈ inflight a) by (intros x Hx; rewrite HPi, elem_of_cons; naive_solver).
  destruct W. split; try done; cbn.
  - intros HE. apply nw_heads. apply length_zero_iff_nil. by rewrite <- (length_alter (filter (fun x => x <> r)) _ i), HE.
  - intros j l' x Hj Hx. setoid_rewrite (dom_insert_same _ s n); [|done]. unfold zlen. rewrite length_alter.
    destruct (decide (j = i)) as [->|Hne].
    + rewrite list_lookup_alter_eq, Hi in Hj. injection Hj as <-. apply list_elem_of_filter in Hx as [_ Hx]. by apply (nw_inflight i l).
    + rewrite list_lookup_alter_ne in Hj by done. by apply (nw_inflight j l').
  - intros x Hx. apply nw_valid. rewrite HP. by right.
  - rewrite nw_in. apply Permutation_length in HPi. unfold zlen. rewrite HPi. cbn [length]. unfold inflight, unlist_in. cbn. lia.
  - setoid_rewrite (dom_insert_same _ s n); [done|done].
  - apply (loads_change a (unlist_in a r i s n) r s n (-1)); [done | done | done | |].
    + intros t x Hx. apply load_ext; [by apply Hsub | done].
    + intros t. rewrite (load_one a s r q), (load_one (unlist_in a r i s n) s r q) by done. rewrite (decide_False (P := _ /\ _)) by (intros [? _]; done).
      assert (Hin : r ∈ inflight a) by (rewrite HPi; left). destruct (decide (t = s)) as [->|Ht]; [by rewrite decide_True | by rewrite decide_False by naive_solver].
  - apply (total_ext (up a)); [|done]. by apply (ups_same a (unlist_in a r i s n) s n (-1)).
Qed.
Definition enlist_in a (r : nat) (id : Z) (s : nat) (n : asrv) : astate :=
  {| a with a_heads := alter (fun l => l ++ [r]) (Z.to_nat (id mod zlen (a_heads a))) (a_heads a); a_in := a_in a + 1; a_srvs := <[s := load_by n 1]> (a_srvs a) |}.
Lemma head_index (heads : list (list nat)) id : heads <> [] -> exists l, heads !! Z.to_nat (id mod zlen heads) = Some l.
Proof.
  intros Hne. apply lookup_lt_is_Some_2. assert (0 < zlen heads) by (unfold zlen; destruct heads; [done | cbn; lia]).
  pose proof (Z.mod_pos_bound id (zlen heads)). unfold zlen in *. lia.
Qed.
Lemma enlist_in_perm a r id s n : a_heads a <> [] -> inflight (enlist_in a r id s n) ≡ₚ r :: inflight a.
Proof.
  intros Hne. destruct (head_index (a_heads a) id Hne) as [l Hl]. destruct (concat_split _ _ _ Hl) as [rest Hrest]. unfold inflight, enlist_in. cbn. rewrite (alter_is_insert _ _ _ _ Hl).
  rewrite Hrest. assert (HE : concat (a_heads a) ≡ₚ l ++ rest) by (rewrite <- Hrest; by rewrite list_insert_id). rewrite HE. rewrite <- app_assoc. symmetry. apply Permutation_middle.
Qed.
Lemma enlist_in_wf a r q s n : net_wf a -> r ∉ listed a -> a_reqs a !! r = Some q -> a_ns q = Some s -> a_srvs a !! s = Some n -> 0 <= a_id q < 0xffff -> valid a r ->
  net_wf (enlist_in a r (a_id q) s n) /\ listed (enlist_in a r (a_id q) s n) ≡ₚ r :: listed a.
Proof.
  intros W Hnot Hq Hs Hn Hid Hv. pose proof (enlist_in_perm a r (a_id q) s n (nw_heads a W)) as HPi.
  assert (HP : listed (enlist_in a r (a_id q) s n) ≡ₚ r :: listed a) by (unfold listed at 1; rewrite HPi; done). split; [|done].
  assert (Hsub : forall x, x <> r -> x ∈ inflight (enlist_in a r (a_id q) s n) <-> x ∈ inflight a) by (intros x Hx; rewrite HPi, elem_of_cons; naive_solver).
  destruct W. split; try done; cbn.
  - intros HE. apply nw_heads. apply length_zero_iff_nil. by rewrite <- (length_alter (fun l => l ++ [r]) _ (Z.to_nat (a_id q mod zlen (a_heads a)))), HE.
  - rewrite HP. by constructor.
  - intros j l' x Hj Hx. setoid_rewrite (dom_insert_same _ s n); [|done]. unfold zlen at 1. rewrite length_alter. fold (zlen (a_heads a)).
    destruct (decide (j = Z.to_nat (a_id q mod zlen (a_heads a)))) as [->|Hne].
    + destruct (head_index (a_heads a) (a_id q) nw_heads) as [l Hl]. rewrite list_lookup_alter_eq, Hl in Hj. injection Hj as <-. apply elem_of_app in Hx as [Hx|Hx].
      * by apply (nw_inflight _ l).
      * apply list_elem_of_singleton in Hx as ->. exists q, s. by rewrite Hn.
    + rewrite list_lookup_alter_ne in Hj by done. by apply (nw_inflight j l').
  - intros x Hx. rewrite HP in Hx. apply elem_of_cons in Hx as [->|Hx]; [done | by apply nw_valid].
  - change (a_in a + 1 = zlen (inflight (enlist_in a r (a_id q) s n))). rewrite nw_in. apply Permutation_length in HPi. unfold zlen. rewrite HPi. cbn [length]. lia.
  - setoid_rewrite (dom_insert_same _ s n); [done|done].
  - apply (loads_change a (enlist_in a r (a_id q) s n) r s n 1); [done | done | done | |].
    + intros t x Hx. apply load_ext; [by apply Hsub | done].
    + intros t. rewrite (load_one a s r q), (load_one (enlist_in a r (a_id q) s n) s r q) by done. rewrite (decide_False (P := r ∈ inflight a /\ _)) by (intros [? _]; by apply Hnot, listed_inflight).
      assert (Hin : r ∈ inflight (enlist_in a r (a_id q) s n)) by (rewrite HPi; left). destruct (decide (t = s)) as [->|Ht]; [by rewrite decide_True | by rewrite decide_False by naive_solver].
  - apply (total_ext (up a)); [|done]. by apply (ups_same a (enlist_in a r (a_id q) s n) s n 1).
Qed.
End Lists.

(** ** Transaction ids. *)
Section Ids.
Context `{N : Network} {L : NetworkLaws N}.
Implicit Types (w : world).
(** The lists in flight can be searched. *)
Definition searchable w : Prop := req_heads (base w) <> [] /\ forall i l r, req_heads (base w) !! i = Some l -> r ∈ l ->
  exists v, requests w !! r = Some v /\ i = Z.to_nat (trans_id v mod zlen (req_heads (base w))).
Lemma wf_searchable w : net_wf (abs w) -> searchable w.
Proof.
  intros W. split; [apply W|]. intros i l r Hi Hr. destruct (nw_inflight _ W i l r Hi Hr) as (q & s & Hq & _ & _ & _ & ->).
  destruct (abs_reqs_Some _ _ _ Hq) as (v & Ev & <-). by exists v.
Qed.
Definition has_id w (id : Z) (r : nat) : Prop := r ∈ inflight (abs w) /\ exists v, requests w !! r = Some v /\ trans_id v = id.
Lemma find_runs w id : searchable w -> runs (request_find_from_trans_id id) w (fun o w' => w' = w /\
  match o with Some r => has_id w id r | None => forall r, ~ has_id w id r end).
Proof.
  intros [Hne HS]. destruct (head_index (req_heads (base w)) id Hne) as [l Hl].
  assert (Hreq : forall r, r ∈ l -> is_Some (requests w !! r)) by (intros r Hr; destruct (HS _ _ _ Hl Hr) as (v & -> & _); by eexists).
  unfold request_find_from_trans_id, REQ_HEAD, get_queue. steps. apply runs_looks.
  - intros r Hr. destruct (Hreq r Hr) as [v Ev]. by steps.
  - steps. split; [done|]. unfold find_id. destruct (list_find _ l) as [[i r]|] eqn:E; cbn.
    + apply list_find_Some in E as (Hi & HP & _). apply list_elem_of_lookup_2 in Hi. destruct (Hreq r Hi) as [v Ev]. rewrite Ev in HP. cbn in HP. injection HP as HP.
      split; [|by exists v]. apply inflight_head. by eexists _, l.
    + intros r [Hr (v & Ev & Hid)]. apply list_find_None in E. rewrite Forall_forall in E. apply inflight_head in Hr as (i & l' & Hi & Hrl). destruct (HS i l' r Hi Hrl) as (v' & Ev' & ->).
      cbn in Hi. simplify_eq. apply (E r Hrl). by rewrite Ev.
Qed.
Definition at_tick w (t : nat) : world := {| w with ticks := t |}.
Definition ids_in_flight w : list Z := map (fun r => match requests w !! r with Some v => trans_id v | None => 0 end) (inflight (abs w)).
Definition new_id w (id : Z) : Prop := 0 <= id < 0xffff /\ forall r, ~ has_id w id r.
Lemma pick_id_runs k : forall w tries, searchable w -> (k < tries)%nat -> of_le (rng (ticks w + k) 2) ∉ ids_in_flight w -> of_le (rng (ticks w + k) 2) <> 0xffff ->
  runs (pick_id tries) w (fun id w' => (exists t, w' = at_tick w t) /\ new_id w id).
Proof.
  induction k as [|k IH]; intros w tries HS Hk Hnew Hne; (destruct tries as [|tries]; [lia|]); cbn [pick_id]; unfold secure_rng_get_bytes; steps.
  all: assert (Hrange : 0 <= of_le (rng (ticks w) 2) < 2 ^ 16) by (unfold of_le, u16; apply Z.mod_pos_bound; lia).
  all: assert (HS' : searchable (at_tick w (S (ticks w)))) by exact HS.
  - rewrite Nat.add_0_r in *. rewrite (proj2 (Z.eqb_neq _ _) Hne). step. eapply runs_mono; [exact (find_runs _ _ HS')|]. intros [r|] w' [-> Hr].
    + destruct Hr as [Hr (v & Ev & Hid)]. exfalso. apply Hnew. unfold ids_in_flight. apply list_elem_of_fmap. exists r. split; [|exact Hr]. cbn in Ev. by rewrite Ev.
    + step. split; [by eexists|]. split; [lia|]. exact Hr.
  - rewrite <- plus_n_Sm in *.
    assert (HIH : runs (pick_id tries) (at_tick w (S (ticks w))) (fun id w' => (exists t, w' = at_tick w t) /\ new_id w id)).
    { eapply runs_mono; [apply (IH _ tries HS'); [lia | exact Hnew | exact Hne]|]. intros id w' [[t ->] Hid]. split; [by exists t | exact Hid]. }
    case_if; [exact HIH|]. step. eapply runs_mono; [exact (find_runs _ _ HS')|]. intros [r|] w' [-> Hr]; [exact HIH|]. step. split; [by eexists|]. split; [|exact Hr].
    apply Z.eqb_neq in E. lia.
Qed.
Lemma pick_id_ok w : searchable w -> zlen (inflight (abs w)) < 0xffff -> runs transaction_id_pick w (fun id w' => (exists t, w' = at_tick w t) /\ new_id w id).
Proof.
  intros HS Hlen. destruct (rng_fair (ticks w) (ids_in_flight w)) as (k & Hk & Hnew & Hne); [unfold ids_in_flight, zlen in *; by rewrite length_map|]. by apply (pick_id_runs k).
Qed.
End Ids.

(** ** Promotion. *)
Record moves (a a' : astate) : Prop := {
  mv_memory : memory a' = memory a;
  mv_listed : listed a' ≡ₚ listed a;
  mv_in : forall r, r ∈ inflight a -> r ∈ inflight a';
  mv_down : forall s, down a s -> down a' s;
  mv_off : forall r, r ∉ listed a -> a_reqs a' !! r = a_reqs a !! r;
  mv_wf : net_wf a'
}.
Lemma moves_trans a b c : moves a b -> moves b c -> moves a c.
Proof.
  intros [HM HL Hin Hd Ho _] [HM' HL' Hin' Hd' Ho' W]. split; [congruence | by etrans | auto | auto | | done].
  intros r Hr. rewrite <- (Ho r Hr). apply Ho'. by rewrite HL.
Qed.
Lemma moves_refl a : net_wf a -> moves a a.
Proof. by split. Qed.
Lemma moves_quiets a a' : net_wf a -> quiets a a' -> moves a a'.
Proof.
  intros W Hq. split; [by apply quiets_memory | | by intros r; apply inflight_quiets | by intros s; apply quiets_down | | exact (quiets_wf _ _ Hq W)].
  - apply quiets_queues in Hq as [= Hh Hw _ _ _]. unfold listed, inflight. by rewrite Hh, Hw.
  - intros r Hr. apply quiets_off; [done|]. intros Hin. by apply Hr, listed_inflight.
Qed.
Section Launch.
Context `{N : Network} {L : NetworkLaws N}.
Implicit Types (w : world).
Definition launched (q : areq) (s : nat) (id : Z) : areq := {| q with a_ns := Some s; a_id := id |}.
Definition launch (a : astate) (r s : nat) (id : Z) (q : areq) (n : asrv) : astate :=
  enlist_in (edit (unlist_wait a r) r (launched q s id)) r id s n.
Lemma launch_moves a r s id q n : net_wf a -> r ∈ a_waiting a -> a_reqs a !! r = Some q -> a_srvs a !! s = Some n -> 0 <= id < 0xffff -> moves a (launch a r s id q n).
Proof.
  intros W Hr Hq Hn Hid. destruct (unlist_wait_wf a r W Hr) as (W1 & HP1 & Hnot).
  assert (W2 : net_wf (edit (unlist_wait a r) r (launched q s id))) by (apply edit_wf; [done | done | exact (nw_sound _ W r q Hq)]).
  destruct (enlist_in_wf (edit (unlist_wait a r) r (launched q s id)) r (launched q s id) s n) as [W3 HP3]; try done.
  - cbn. apply lookup_insert_eq.
  - destruct (nw_valid a W r) as (q' & h & hv & Hq' & Hh & Hv); [apply elem_of_app; by right|]. simplify_eq. exists (launched q s id), h, hv. cbn. by rewrite lookup_insert_eq.
  - split; [| by rewrite HP1 | | | | exact W3].
    + unfold memory, launch. cbn. f_equal; [by apply (r_mem_same _ _ q) | by apply (s_probe_same _ _ n)].
    + intros x Hx. unfold launch. rewrite enlist_in_perm by apply W. right. exact Hx.
    + intros x Hx. by apply (down_insert a s n).
    + intros x Hx. cbn. rewrite lookup_insert_ne; [done|]. intros <-. apply Hx, elem_of_app. by right.
Qed.
Lemma be16_bytes x : Forall is_byte (be16 x).
Proof. unfold be16, u16. assert (0 <= x mod 2 ^ 16 < 2 ^ 16) by (apply Z.mod_pos_bound; lia). constructor; [|constructor; [|done]]; unfold is_byte; lia. Qed.
Lemma patch_bytes p j n data : Forall is_byte p -> Forall is_byte data -> Forall is_byte (ztake j p ++ data ++ zdrop n p).
Proof. intros HP HD. apply Forall_app. split; [by apply Forall_take|]. apply Forall_app. split; [done | by apply Forall_drop]. Qed.
Lemma trans_id_set_runs w r v id (Q : unit -> world -> Prop) : requests w !! r = Some v -> packet_ok (packet v) = true ->
  (forall p, packet_ok p = true -> Q tt {| w with requests := <[r := {| v with trans_id := id; packet := p |}]> (requests w) |}) -> runs (request_trans_id_set r id) w Q.
Proof.
  intros Ev [Hlen HB]%packet_ok_true HQ. unfold request_trans_id_set. steps. unfold put. change (zlen (be16 id)) with 2. replace ((0 <=? 0) && (0 + 2 <=? zlen (packet v))) with true by lia.
  eapply runs_lift; [reflexivity|]. steps. apply HQ, packet_ok_true. split; [|by apply patch_bytes; [|apply be16_bytes]]. rewrite !zlen_app, zlen_ztake, zlen_zdrop by lia. change (zlen (be16 id)) with 2. lia.
Qed.
Lemma zlen_perm {A} (l l' : list A) : l ≡ₚ l' -> zlen l = zlen l'.
Proof. intros HP. unfold zlen. by rewrite HP. Qed.
Lemma zlen_inflight_listed a : zlen (inflight a) <= zlen (listed a).
Proof. unfold listed. rewrite zlen_app. pose proof (zlen_nonneg (a_waiting a)). lia. Qed.
Lemma pump_loop_moves turns : forall w, net_wf (abs w) -> zlen (listed (abs w)) < 0xffff -> (length (req_waiting_head (base w)) <= turns)%nat ->
  runs (pump_loop turns) w (fun _ w' => moves (abs w) (abs w')).
Proof.
  induction turns as [|turns IH]; intros w W Hroom Hturns; cbn [pump_loop]; steps; case_if; try (step; by apply moves_refl);
    apply andb_true_iff in E as [_ Hwait]; unfold c_true in Hwait; pose proof (nw_wait _ W) as Hw; cbn in Hw; rewrite Hw in Hwait;
    (destruct (req_waiting_head (base w)) as [|r rest] eqn:Eh; [done|]); [cbn in Hturns; lia|].
  cbn in Hturns. step. eapply runs_lift; [by rewrite ?Eh|]. step.
  eapply runs_mono; [by apply pick_quiet|]. intros o w1 (Hq1 & Hreq1 & Hsrv1 & Ho). pose proof (moves_quiets _ _ W Hq1) as M1.
  assert (Hr : r ∈ a_waiting (abs w)) by (cbn; rewrite Eh; left). destruct (nw_waiting _ W r Hr) as (q & Hq & Hns). destruct (abs_reqs_Some _ _ _ Hq) as (v & Ev & <-).
  step. eapply runs_set_req; [by rewrite Hreq1|]. destruct o as [s|].
  2: { step. unfold abs at 2. cbn. rewrite (abs_req_same _ _ _ _ (eq_trans (f_equal (fun m => m !! r) Hreq1) Ev)); [exact M1|]. unfold abs_req, timer_ok in *. cbn in *. by rewrite Hns. }
  destruct Ho as [n En]. step. eapply runs_set_ns; [cbn; by rewrite Hsrv1|]. cbn [base requests servers]. match goal with |- runs _ ?x _ => set (w2 := x) end.
  assert (W1 := mv_wf _ _ M1). pose proof (quiets_queues _ _ Hq1) as [= Hh1 Hw1 Hi1 Hwt1 _]. pose proof (mv_memory _ _ M1) as Hm1.
  assert (Hr1 : r ∈ a_waiting (abs w1)) by (cbn; rewrite Hw1; exact Hr).
  assert (Hv2 : valid (abs w2) r).
  { destruct (nw_valid _ W1 r) as (q & h & hv & Hq' & Hh & Hv); [apply elem_of_app; by right|]. exists (abs_req {| v with ns := Some s |}), h, hv. cbn. rewrite fmap_insert, lookup_insert_eq.
    split; [done|]. split; [|done]. cbn in Hq'. rewrite lookup_fmap, Hreq1, Ev in Hq'. cbn in Hq'. by injection Hq' as <-. }
  step. unfold evdns_request_remove. step. apply runs_valid; [exact Hv2|]. unfold get_queue. steps. apply runs_assert; [apply bool_decide_eq_true; exact Hr1|]. steps.
  match goal with |- runs _ ?x _ => set (w3 := x) end.
  assert (Hsub : forall x, x ∈ inflight (abs w1) -> x <> r).
  { intros x Hx ->. pose proof (nw_nodup _ W1) as HND. apply NoDup_app in HND as (_ & Hd & _). by apply (Hd r). }
  assert (HS3 : searchable w3).
  { destruct (wf_searchable w1 W1) as [Hne HS]. split; [exact Hne|]. intros i l x Hi Hx. destruct (HS i l x Hi Hx) as (u & Eu & Hu). exists u. split; [|exact Hu]. cbn.
    rewrite lookup_insert_ne; [done|]. symmetry. apply Hsub, inflight_head. by exists i, l. }
  eapply runs_mono; [apply pick_id_ok; [exact HS3|]|].
  { change (zlen (inflight (abs w1)) < 0xffff). pose proof (zlen_inflight_listed (abs w1)). rewrite (zlen_perm _ _ (mv_listed _ _ M1)) in *. lia. }
  intros id w4 [[t ->] [Hid _]]. assert (Hsound := nw_sound _ W r _ Hq). pose proof Hsound as [Hlong _]%andb_true_iff.
  step. eapply (trans_id_set_runs _ r {| v with ns := Some s |}); [cbn; apply lookup_insert_eq | exact Hlong|]. intros p Hp.
  match goal with |- runs _ ?x _ => set (w5 := x) end. step. step. step. unfold evdns_request_insert. step. apply runs_valid.
  { destruct Hv2 as (q & h & hv & Hq' & Hh & Hv & Hc). cbn in Hq'. rewrite fmap_insert, lookup_insert_eq in Hq'. injection Hq' as <-.
    exists (abs_req {| v with ns := Some s; trans_id := id; packet := p |}), h, hv. cbn. by rewrite insert_insert_eq, fmap_insert, lookup_insert_eq. }
  unfold REQ_HEAD, get_queue. steps. destruct (head_index (req_heads (base w1)) id (nw_heads _ W1)) as [l Hl]. cbn [w5 w3 w2 at_tick base req_heads]. eapply runs_lift; [exact Hl|]. steps.
  match goal with |- runs _ ?x _ => set (w6 := x) end.
  assert (E6 : abs w6 = launch (abs w1) r s id (abs_req v) (abs_srv n)).
  { unfold abs, launch, enlist_in, edit, unlist_wait. cbn. rewrite (alter_is_insert _ _ _ _ Hl), !fmap_insert, insert_insert_eq. f_equal.
    f_equal. unfold abs_req, launched. cbn. f_equal. transitivity true; [unfold timer_ok; cbn; by rewrite Hp | by symmetry]. }
  assert (Hq1r : a_reqs (abs w1) !! r = Some (abs_req v)) by (cbn; by rewrite Hreq1, lookup_fmap, Ev).
  assert (Hn1 : a_srvs (abs w1) !! s = Some (abs_srv n)) by (cbn; by rewrite Hsrv1, lookup_fmap, En).
  pose proof (launch_moves (abs w1) r s id _ _ W1 Hr1 Hq1r Hn1 Hid) as M6. rewrite <- E6 in M6. pose proof (moves_trans _ _ _ M1 M6) as M. assert (W6 := mv_wf _ _ M).
  assert (Hr6 : r ∈ inflight (abs w6)) by (rewrite E6; unfold launch; rewrite enlist_in_perm by apply W1; left).
  eapply runs_mono; [by apply transmit_quiet|]. intros code w7 Hq7. step. eapply runs_mono; [apply evdns_transmit_quiet; exact (quiets_wf _ _ Hq7 W6)|]. intros did w8 Hq8.
  assert (Hq68 : quiets (abs w6) (abs w8)) by (etrans; [exact Hq7|exact Hq8]). pose proof (moves_trans _ _ _ M (moves_quiets _ _ W6 Hq68)) as M8.
  eapply runs_mono; [apply IH; [apply M8 | by rewrite (zlen_perm _ _ (mv_listed _ _ M8)) |]|].
  - apply quiets_queues in Hq68. unfold queues in Hq68. injection Hq68 as _ Hw8 _ _ _. cbn in Hw8. rewrite Hw8, Hw1. cbn. rewrite Eh, filter_cons, decide_False by naive_solver. pose proof (length_filter (fun x => x <> r) rest). lia.
  - intros [] w9 M9. by eapply moves_trans.
Qed.
Lemma pump_moves w : net_wf (abs w) -> zlen (listed (abs w)) < 0xffff -> runs evdns_requests_pump_waiting_queue w (fun _ w' => moves (abs w) (abs w')).
Proof. intros W Hroom. unfold evdns_requests_pump_waiting_queue. step. step. by apply pump_loop_moves. Qed.
End Launch.
