(* ===== verification/ResolverFinish.v ===== *)
(** * The end of a request

    Who owns requests, handles and searches, and what ending a request does. *)
From S2P Require Import Prelude Timeval Event Buffer BufferInv CString Address Dns Resolver ResolverInv ResolverPump.
Open Scope Z_scope.

(** ** Ownership. *)
Definition d_result (d : deferred_reply_callback) : Z := match d_reply d with Some _ => DNS_ERR_NONE | None => d_err d end.
Definition known_type (t : Z) : Prop := t = TYPE_A \/ t = TYPE_PTR \/ t = TYPE_AAAA.
Section Mem.
Implicit Types m : mem.
(** The handle [h] is for a probe of [s] that is not canceled. *)
Definition probing m (h s : nat) : Prop :=
  (exists hv r t, m_handles m !! h = Some hv /\ current_req hv = Some r /\ m_reqs m !! r = Some (t, Probe s, Some h)) \/
  (exists d, d ∈ m_deferred m /\ d_handle d = Some h /\ d_callback d = Probe s /\ d_result d <> DNS_ERR_CANCEL).
Definition refs m (s h : nat) : Z := match m_handles m !! h with Some hv => if decide (search_state hv = Some s) then 1 else 0 | None => 0 end.
Definition global_ref m (s : nat) : Z := if decide (m_search m = Some s) then 1 else 0.
Record mem_wf m : Prop := {
  mw_req : forall r t cb o, m_reqs m !! r = Some (t, cb, o) -> known_type t /\ exists h hv, o = Some h /\ m_handles m !! h = Some hv /\ current_req hv = Some r;
  mw_handle : forall h hv r, m_handles m !! h = Some hv -> current_req hv = Some r -> exists t cb, m_reqs m !! r = Some (t, cb, Some h);
  mw_idle : forall h hv, m_handles m !! h = Some hv -> current_req hv = None -> pending_cb hv = true /\ search_state hv = None;
  mw_deferred : forall d, d ∈ m_deferred m -> known_type (d_request_type d) /\ is_Some (d_handle d);
  mw_scheduled : mem_ok (omap d_handle (m_deferred m)) (fun h => exists hv, m_handles m !! h = Some hv /\ pending_cb hv = true);
  mw_probe : forall s h, m_probes m !! s = Some (Some h) -> is_Some (m_handles m !! h) /\ probing m h s;
  mw_target : forall r t s o, m_reqs m !! r = Some (t, Probe s, o) -> is_Some (m_probes m !! s);
  mw_target_d : forall d s, d ∈ m_deferred m -> d_callback d = Probe s -> d_result d <> DNS_ERR_CANCEL -> is_Some (m_probes m !! s);
  mw_refs : forall s v, m_searches m !! s = Some v -> total (refs m s) (refcount v - global_ref m s) /\ 0 < refcount v /\ num_domains v = zlen (domains v) /\ Forall is_cstring (domains v);
  mw_search : forall h hv s, m_handles m !! h = Some hv -> search_state hv = Some s -> is_Some (m_searches m !! s) /\ (exists name, search_origname hv = Some name /\ is_cstring name) /\ -1 <= search_index hv;
  mw_global : forall s, m_search m = Some s -> is_Some (m_searches m !! s);
  mw_fresh : forall x, (m_fresh m <= x)%nat -> m_reqs m !! x = None /\ m_probes m !! x = None /\ m_handles m !! x = None /\ m_searches m !! x = None
}.

(** ** Scheduling a callback and ending a request. *)
Definition m_schedule m (h : nat) (hv : evdns_request) (d : deferred_reply_callback) : mem :=
  {| m with m_handles := <[h := {| hv with pending_cb := true |}]> (m_handles m); m_deferred := m_deferred m ++ [d] |}.
Definition decref (ss : gmap nat search_list) (o : option nat) : gmap nat search_list :=
  match o with
  | None => ss
  | Some s => match ss !! s with
              | Some v => if refcount v - 1 =? 0 then delete s ss else <[s := {| v with refcount := refcount v - 1 |}]> ss
              | None => ss
              end
  end.
(** [free_too] is the argument [free_handle] of [request_finished]. *)
Definition m_end (free_too : bool) m (r h : nat) (hv : evdns_request) : mem :=
  {| m with
     m_reqs := delete r (m_reqs m);
     m_handles := <[h := if free_too then {| hv with current_req := None; search_state := None; search_origname := None |} else {| hv with current_req := None |}]> (m_handles m);
     m_searches := if free_too then decref (m_searches m) (search_state hv) else m_searches m |}.

Lemma schedule_wf m r t cb h hv d : mem_wf m -> m_reqs m !! r = Some (t, cb, Some h) -> m_handles m !! h = Some hv -> current_req hv = Some r -> pending_cb hv = false ->
  d_handle d = Some h -> d_request_type d = t -> d_callback d = cb -> mem_wf (m_schedule m h hv d).
Proof.
  intros W Hr Hh Hc Hp Hdh Hdt Hdc.
  assert (Hlook : forall x xv, <[h := {| hv with pending_cb := true |}]> (m_handles m) !! x = Some xv -> exists xv0, m_handles m !! x = Some xv0 /\ current_req xv = current_req xv0 /\ search_state xv = search_state xv0 /\
    search_origname xv = search_origname xv0 /\ search_index xv = search_index xv0 /\ (x <> h -> xv = xv0)).
  { intros x xv. rewrite lookup_insert_Some. intros [[<- <-]|[Hne Hx]]; [by exists hv | by exists xv]. }
  assert (Hback : forall x xv0, m_handles m !! x = Some xv0 -> exists xv, <[h := {| hv with pending_cb := true |}]> (m_handles m) !! x = Some xv /\ current_req xv = current_req xv0).
  { intros x xv0 Hx. destruct (decide (x = h)) as [->|]; [rewrite lookup_insert_eq; simplify_eq; by eexists | rewrite lookup_insert_ne by done; by exists xv0]. }
  destruct W. split; unfold m_schedule; cbn.
  - intros x t0 cb0 o Hx. destruct (mw_req0 x t0 cb0 o Hx) as (Ht & h0 & hv0 & -> & Hh0 & Hc0). split; [done|]. destruct (Hback _ _ Hh0) as (xv & Hxv & Hcx). exists h0, xv. by rewrite Hcx.
  - intros x xv y Hx Hy. destruct (Hlook x xv Hx) as (xv0 & Hx0 & Hcx & _). rewrite Hcx in Hy. by apply (mw_handle0 x xv0).
  - intros x xv Hx Hy. destruct (Hlook x xv Hx) as (xv0 & Hx0 & Hcx & Hsx & _ & _ & Heq). rewrite Hcx in Hy. rewrite Hsx. destruct (mw_idle0 x xv0 Hx0 Hy) as [Hpx Hss]. split; [|done].
    destruct (decide (x = h)) as [->|Hne]; [congruence | by rewrite (Heq Hne)].
  - intros x Hx. apply elem_of_app in Hx as [Hx|Hx]; [auto|]. apply list_elem_of_singleton in Hx as ->. rewrite Hdh, Hdt. split; [by apply (mw_req0 r t cb (Some h)) | done].
  - rewrite omap_app. cbn. rewrite Hdh. apply (mem_ok_iff _ (fun x => (exists xv, m_handles m !! x = Some xv /\ pending_cb xv = true) \/ x = h)).
    + intros x. destruct (decide (x = h)) as [->|Hne]; [rewrite lookup_insert_eq; split; [intros _; by eexists | by right]|]. rewrite lookup_insert_ne by done. naive_solver.
    + apply mem_ok_snoc; [|done]. intros (xv & Hx & Hpx). congruence.
  - intros s x Hx. destruct (mw_probe0 s x Hx) as [[xv Hxv] Hpr]. destruct (Hback x xv Hxv) as (xv' & Hxv' & _). split; [by eexists|]. destruct Hpr as [(yv & y & ty & Hy & Hcy & Hry)|(d0 & Hd0 & Hrest)].
    + left. destruct (Hback x yv Hy) as (yv' & Hyv' & Hcy'). exists yv', y, ty. cbn. by rewrite Hcy'.
    + right. exists d0. cbn. split; [apply elem_of_app; by left | done].
  - done.
  - intros x s Hx. apply elem_of_app in Hx as [Hx|Hx]; [eauto|]. apply list_elem_of_singleton in Hx as ->. intros Hcb _. rewrite Hdc in Hcb. rewrite Hcb in Hr. eauto.
  - intros s v Hv. destruct (mw_refs0 s v Hv) as (HT & Hpos & Hn). split; [|done]. apply (total_ext (refs m s)); [|done]. intros x. unfold refs. cbn.
    destruct (decide (x = h)) as [->|]; [by rewrite lookup_insert_eq, Hh | by rewrite lookup_insert_ne].
  - intros x xv s Hx Hs. destruct (Hlook x xv Hx) as (xv0 & Hx0 & _ & Hsx & Hox & Hix & _). rewrite Hox, Hix. rewrite Hsx in Hs. eauto.
  - done.
  - intros x Hx. destruct (mw_fresh0 x Hx) as (F1 & F2 & F3 & F4). split_and!; try done. rewrite lookup_insert_ne; [done|]. intros ->. congruence.
Qed.

(** The searches when the handle [h] lets go of its. *)
Lemma refs_change m m' h hv hv' s : m_handles m !! h = Some hv -> m_handles m' = <[h := hv']> (m_handles m) -> search_state hv' = None ->
  forall x, refs m' s x = if decide (x = h) then 0 else refs m s x.
Proof. intros Hh Em Hs x. unfold refs. rewrite Em. destruct (decide (x = h)) as [->|]; [by rewrite lookup_insert_eq, Hs | by rewrite lookup_insert_ne]. Qed.
Lemma refs_nonneg m s x : 0 <= refs m s x.
Proof. unfold refs. repeat case_match; lia. Qed.
Lemma decref_wf m m' h hv hv' : mem_wf m -> m_handles m !! h = Some hv -> m_handles m' = <[h := hv']> (m_handles m) -> search_state hv' = None ->
  m_search m' = m_search m -> m_searches m' = decref (m_searches m) (search_state hv) ->
  (forall s v, m_searches m' !! s = Some v -> total (refs m' s) (refcount v - global_ref m' s) /\ 0 < refcount v /\ num_domains v = zlen (domains v) /\ Forall is_cstring (domains v)) /\
  (forall s, is_Some (m_searches m !! s) -> 0 < global_ref m' s \/ (exists x, 0 < refs m' s x) -> is_Some (m_searches m' !! s)).
Proof.
  intros W Hh Em Hs' Eg Es. assert (HG : forall s, global_ref m' s = global_ref m s) by (intros s; unfold global_ref; by rewrite Eg).
  assert (HR := fun s => refs_change m m' h hv hv' s Hh Em Hs'). assert (Hrh : forall s, refs m s h = if decide (search_state hv = Some s) then 1 else 0) by (intros s; unfold refs; by rewrite Hh).
  assert (HT' : forall s v, m_searches m !! s = Some v -> total (refs m' s) (refcount v - global_ref m s - refs m s h)).
  { intros s v Hv. destruct (mw_refs m W s v Hv) as [HT _]. apply (total_here (refs m s) _ _ _ h (- refs m s h) HT); [intros x Hx; by rewrite HR, decide_False | rewrite HR, decide_True by done; lia | lia]. }
  assert (Hkeep : forall s v, m_searches m !! s = Some v -> search_state hv <> Some s -> m_searches m' !! s = Some v).
  { intros s v Hv Hne. rewrite Es. unfold decref. destruct (search_state hv) as [s0|]; [|done]. destruct (m_searches m !! s0); [|done]. case_if; [by rewrite lookup_delete_ne by congruence | by rewrite lookup_insert_ne by congruence]. }
  assert (Hhere : forall s v, m_searches m !! s = Some v -> search_state hv = Some s -> m_searches m' !! s = if refcount v - 1 =? 0 then None else Some {| v with refcount := refcount v - 1 |}).
  { intros s v Hv Hss. rewrite Es, Hss. unfold decref. rewrite Hv. case_if; [apply lookup_delete_eq | apply lookup_insert_eq]. }
  assert (Hold : forall s, m_searches m !! s = None -> m_searches m' !! s = None).
  { intros s Hv. rewrite Es. unfold decref. destruct (search_state hv) as [s0|]; [|done]. destruct (m_searches m !! s0) eqn:E0; [|done]. case_if; [rewrite lookup_delete_None; by right | rewrite lookup_insert_ne; [done | congruence]]. }
  split.
  - intros s v' Hv'. destruct (m_searches m !! s) as [v|] eqn:Hv; [|rewrite (Hold s Hv) in Hv'; done]. destruct (mw_refs m W s v Hv) as (_ & Hpos & Hn). pose proof (HT' s v Hv) as HT. rewrite Hrh in HT. rewrite HG.
    destruct (decide (search_state hv = Some s)) as [Hss|Hss].
    + rewrite (Hhere s v Hv Hss) in Hv'. revert Hv'. case_if; [done|]. intros [= <-]. cbn. split; [|split; [lia | done]]. by replace (refcount v - 1 - global_ref m s) with (refcount v - global_ref m s - 1) by lia.
    + rewrite (Hkeep s v Hv Hss) in Hv'. injection Hv' as <-. by rewrite Z.sub_0_r in HT.
  - intros s [v Hv] Hor. destruct (decide (search_state hv = Some s)) as [Hss|Hss]; [|rewrite (Hkeep s v Hv Hss); by eexists].
    rewrite (Hhere s v Hv Hss). case_if; [|by eexists]. exfalso. apply Z.eqb_eq in E. pose proof (HT' s v Hv) as HT. rewrite Hrh, decide_True in HT by done. rewrite HG in Hor.
    pose proof (total_nonneg _ _ (refs_nonneg m' s) HT). assert (0 <= global_ref m s) by (unfold global_ref; case_decide; lia).
    destruct Hor as [Hg|Hx]; [lia|]. apply (total_pos _ _ (refs_nonneg m' s) HT) in Hx. lia.
Qed.
Lemma end_wf m r t cb h hv : mem_wf m -> m_reqs m !! r = Some (t, cb, Some h) -> m_handles m !! h = Some hv -> current_req hv = Some r -> pending_cb hv = true ->
  (forall s, m_probes m !! s = Some (Some h) -> exists d, d ∈ m_deferred m /\ d_handle d = Some h /\ d_callback d = Probe s /\ d_result d <> DNS_ERR_CANCEL) ->
  mem_wf (m_end true m r h hv).
Proof.
  intros W Hr Hh Hc Hp Hpr.
  assert (Hne : forall x t0 cb0 x0 xv, m_reqs m !! x = Some (t0, cb0, Some x0) -> m_handles m !! x0 = Some xv -> current_req xv = Some x -> x <> r -> x0 <> h) by (intros; congruence).
  destruct (decref_wf m (m_end true m r h hv) h hv _ W Hh eq_refl eq_refl eq_refl eq_refl) as [Hrefs Hkeep].
  destruct W. split; try exact Hrefs; unfold m_end in *; cbn in *.
  - intros x t0 cb0 o. rewrite lookup_delete_Some. intros [Hx Hr0]. destruct (mw_req0 x t0 cb0 o Hr0) as (Ht & h0 & hv0 & -> & Hh0 & Hc0). split; [done|]. exists h0, hv0.
    rewrite lookup_insert_ne; [done|]. intros ->. congruence.
  - intros x xv y. rewrite lookup_insert_Some. intros [[<- <-]|[Hx Hxv]] Hy; [done|]. destruct (mw_handle0 x xv y Hxv Hy) as (t0 & cb0 & Hy0). exists t0, cb0. rewrite lookup_delete_ne; [done|]. intros <-. congruence.
  - intros x xv. rewrite lookup_insert_Some. intros [[<- <-]|[Hx Hxv]] Hy; [done | eauto].
  - done.
  - apply (mem_ok_iff _ (fun x => exists xv, m_handles m !! x = Some xv /\ pending_cb xv = true)); [|done]. intros x.
    destruct (decide (x = h)) as [->|]; [rewrite lookup_insert_eq; split; intros _; by eexists | by rewrite lookup_insert_ne].
  - intros s x Hx. destruct (mw_probe0 s x Hx) as [[xv Hxv] Hprx]. split; [rewrite lookup_insert_is_Some; destruct (decide (h = x)); naive_solver|].
    destruct (decide (x = h)) as [->|Hxh]; [right; auto|]. destruct Hprx as [(yv & y & ty & Hy & Hcy & Hry)|Hd]; [|by right].
    left. exists yv, y, ty. cbn. rewrite lookup_insert_ne, lookup_delete_ne; [done | |done]. intros <-. congruence.
  - intros x t0 s o. rewrite lookup_delete_Some. intros [_ Hx]. eauto.
  - done.
  - intros x xv s. rewrite lookup_insert_Some. intros [[<- <-]|[Hx Hxv]] Hs; [done|]. destruct (mw_search0 x xv s Hxv Hs) as (Hv & Hrest). split; [|done].
    apply Hkeep; [done|]. right. exists x. unfold refs. cbn. rewrite lookup_insert_ne, Hxv, decide_True by done. lia.
  - intros s Hs. apply Hkeep; [auto|]. left. unfold global_ref. cbn. rewrite decide_True by done. lia.
  - intros x Hx. destruct (mw_fresh0 x Hx) as (F1 & F2 & F3 & F4). split_and!; [by rewrite lookup_delete_None; right | done | rewrite lookup_insert_ne; [done|]; intros ->; congruence|].
    unfold decref. destruct (search_state hv) as [s0|]; [|done]. destruct (m_searches m !! s0) eqn:E; [|done]. case_if; [by rewrite lookup_delete_None; right|]. rewrite lookup_insert_ne; [done|]. intros ->. congruence.
Qed.

(** ** Callbacks owed to the user: of the requests, scheduled or made. *)
Definition user_arg (cb : callback) (arg : nat) : Z := match cb with User x => if decide (x = arg) then 1 else 0 | Probe _ => 0 end.
(** The callback of a request whose handle is pending is scheduled. *)
Definition owes m (arg r : nat) : Z :=
  match m_reqs m !! r with
  | Some (_, cb, Some h) => match m_handles m !! h with Some hv => if pending_cb hv then 0 else user_arg cb arg | None => 0 end
  | _ => 0
  end.
Definition scheduled_for (ds : list deferred_reply_callback) (arg : nat) : Z := sum_over (fun d => user_arg (d_callback d) arg) ds.
Definition called_for (cs : list call) (arg : nat) : Z := sum_over (fun c => if decide (c_arg c = arg) then 1 else 0) cs.
Definition account m (arg : nat) (n : Z) : Prop := exists k, total (owes m arg) k /\ n = k + scheduled_for (m_deferred m) arg + called_for (m_calls m) arg.
Definition accounts m m' : Prop := forall arg n, account m arg n -> account m' arg n.
Lemma accounts_refl m : accounts m m.
Proof. by intros arg n. Qed.
Lemma accounts_trans m m1 m2 : accounts m m1 -> accounts m1 m2 -> accounts m m2.
Proof. intros H1 H2 arg n HA. by apply H2, H1. Qed.
Lemma sum_over_snoc {A} (f : A -> Z) l x : sum_over f (l ++ [x]) = sum_over f l + f x.
Proof. induction l as [|y l IH]; cbn; lia. Qed.
Lemma accounts_same m m' : m_reqs m' = m_reqs m -> (forall h, pending_cb <$> m_handles m' !! h = pending_cb <$> m_handles m !! h) -> m_deferred m' = m_deferred m -> m_calls m' = m_calls m -> accounts m m'.
Proof.
  intros Hr Hh Hd Hc arg n (k & HT & ->). exists k. rewrite Hd, Hc. split; [|done]. apply (total_ext (owes m arg)); [|done]. intros r. unfold owes. rewrite Hr.
  destruct (m_reqs m !! r) as [[[t cb] [h|]]|]; [|done..]. specialize (Hh h). destruct (m_handles m' !! h), (m_handles m !! h); cbn in Hh; try done. by injection Hh as ->.
Qed.
(** Nothing else is owed for a handle than for its request. *)
Lemma owes_other m arg h hv r x : mem_wf m -> m_handles m !! h = Some hv -> current_req hv = Some r -> x <> r -> forall hs : gmap nat evdns_request, (forall y, y <> h -> hs !! y = m_handles m !! y) ->
  match m_reqs m !! x with
  | Some (_, cb, Some h) => match hs !! h with Some hv => if pending_cb hv then 0 else user_arg cb arg | None => 0 end
  | _ => 0
  end = owes m arg x.
Proof.
  intros W Hh Hc Hx hs Hhs. unfold owes. destruct (m_reqs m !! x) as [[[t cb] o]|] eqn:Ex; [|done]. destruct (mw_req m W x t cb o Ex) as (_ & h0 & hv0 & -> & Hh0 & Hc0). rewrite Hhs; [done|]. congruence.
Qed.
Lemma schedule_accounts m r t cb h hv d : mem_wf m -> m_reqs m !! r = Some (t, cb, Some h) -> m_handles m !! h = Some hv -> current_req hv = Some r -> pending_cb hv = false -> d_callback d = cb ->
  accounts m (m_schedule m h hv d).
Proof.
  intros W Hr Hh Hc Hp Hd arg n (k & HT & ->). exists (k - user_arg cb arg). split.
  - apply (total_update (owes m arg) _ k _ r); [|done|].
    + intros x Hx. apply (owes_other m arg h hv r x W Hh Hc Hx (<[h := {| hv with pending_cb := true |}]> (m_handles m))). intros y Hy. by rewrite lookup_insert_ne.
    + unfold owes. cbn. rewrite Hr, lookup_insert_eq, Hh, Hp. cbn. lia.
  - change (m_deferred (m_schedule m h hv d)) with (m_deferred m ++ [d]). unfold scheduled_for. rewrite sum_over_snoc, Hd. change (m_calls (m_schedule m h hv d)) with (m_calls m). lia.
Qed.
Lemma end_accounts m r t cb h hv : mem_wf m -> m_reqs m !! r = Some (t, cb, Some h) -> m_handles m !! h = Some hv -> current_req hv = Some r -> pending_cb hv = true -> accounts m (m_end true m r h hv).
Proof.
  intros W Hr Hh Hc Hp arg n (k & HT & ->). exists k. split; [|done]. apply (total_ext (owes m arg)); [|done]. intros x. destruct (decide (x = r)) as [->|Hx].
  - unfold owes. cbn. by rewrite lookup_delete_eq, Hr, Hh, Hp.
  - rewrite <- (owes_other m arg h hv r x W Hh Hc Hx (<[h := {| hv with current_req := None; search_state := None; search_origname := None |}]> (m_handles m))); [|intros y Hy; by rewrite lookup_insert_ne].
    unfold owes. cbn. by rewrite lookup_delete_ne.
Qed.
Lemma answered_accounts m r t cb h hv d : mem_wf m -> m_reqs m !! r = Some (t, cb, Some h) -> m_handles m !! h = Some hv -> current_req hv = Some r -> pending_cb hv = false ->
  d_handle d = Some h -> d_request_type d = t -> d_callback d = cb -> accounts m (m_end true (m_schedule m h hv d) r h {| hv with pending_cb := true |}).
Proof.
  intros W Hr Hh Hc Hp Hdh Hdt Hdc. apply (accounts_trans m (m_schedule m h hv d)); [by apply (schedule_accounts m r t cb)|]. apply (end_accounts _ r t cb); try done; [by apply (schedule_wf m r t cb) | cbn; apply lookup_insert_eq].
Qed.
End Mem.

(** ** Running [request_finished]. *)
Record ended (a a' : astate) (r : nat) (m : mem) : Prop := {
  en_memory : memory a' = m;
  en_listed : r :: listed a' ≡ₚ listed a;
  en_in : forall x, x <> r -> x ∈ inflight a -> x ∈ inflight a';
  en_down : forall s, down a s -> down a' s;
  en_off : forall x, x ∉ listed a -> a_reqs a' !! x = a_reqs a !! x;
  en_wf : net_wf a'
}.
Definition place (w : world) (v : request) : queue := match ns v with Some _ => REQ_HEAD (base w) (trans_id v) | None => Waiting end.
(** The request [r] is on the list of its [place] and its handle is [h]. *)
Record placed (w : world) (r : nat) (v : request) (h : nat) (hv : evdns_request) : Prop := {
  pl_req : requests w !! r = Some v;
  pl_listed : r ∈ listed (abs w);
  pl_handle : handle v = Some h;
  pl_hv : handles w !! h = Some hv;
  pl_cur : current_req hv = Some r
}.
Lemma listed_placed w r : net_wf (abs w) -> r ∈ listed (abs w) -> exists v h hv, placed w r v h hv.
Proof. intros W Hr. destruct (nw_valid _ W r Hr) as (q & h & hv & (v & Ev & <-)%abs_reqs_Some & Hh & Hhv & Hc). by exists v, h, hv. Qed.
Lemma listed_ns w r v : net_wf (abs w) -> r ∈ listed (abs w) -> requests w !! r = Some v ->
  match ns v with Some _ => r ∈ inflight (abs w) | None => r ∈ a_waiting (abs w) end.
Proof.
  intros W Hr Ev. apply elem_of_app in Hr as [Hr|Hr].
  - destruct (inflight_inv w r W Hr) as (v' & s & n & [Ev' Es _ _ _ _]). simplify_eq. by rewrite Es.
  - destruct (nw_waiting _ W r Hr) as (q & (v' & Ev' & <-)%abs_reqs_Some & Hn). simplify_eq. cbn in Hn. by rewrite Hn.
Qed.
(** A request off the lists is freed and its handle changes. *)
Definition dropped (a : astate) (r h : nat) (hv : evdns_request) (ss : gmap nat search_list) : astate :=
  {| a with a_reqs := delete r (a_reqs a); a_handles := <[h := hv]> (a_handles a); a_searches := ss |}.
Lemma dropped_wf a r h hv hv' ss : net_wf a -> r ∉ listed a -> a_handles a !! h = Some hv -> current_req hv = Some r -> net_wf (dropped a r h hv' ss).
Proof.
  intros W Hr Hh Hc. assert (Hne : forall x, x ∈ listed a -> x <> r) by (intros x Hx ->; done). assert (Hin : forall x, x ∈ inflight a -> x <> r) by (intros x Hx; by apply Hne, listed_inflight).
  destruct W. split; try done; unfold dropped; cbn.
  - intros i l x Hi Hx. rewrite lookup_delete_ne by (symmetry; apply Hin, inflight_head; eauto). by apply (nw_inflight i l).
  - intros x Hx. rewrite lookup_delete_ne; [auto|]. intros <-. apply Hr, elem_of_app. by right.
  - intros x q. rewrite lookup_delete_Some. intros [_ Hq]. eauto.
  - intros x Hx. destruct (nw_valid x Hx) as (q & h0 & hv0 & Hq & Hh0 & Hhv0 & Hc0). pose proof (Hne x Hx). exists q, h0, hv0. cbn. rewrite lookup_delete_ne, lookup_insert_ne by congruence. done.
  - intros s n Hn. apply (total_ext (load a s)); [|by apply nw_load]. intros x. unfold load, ns_of, inflight. cbn. fold (inflight a).
    destruct (decide (x = r)) as [->|Hx]; [|by rewrite lookup_delete_ne]. rewrite !decide_False; [done | |]; intros [Hx _]; by apply (Hin r).
Qed.

Section Finish.
Context `{N : Network} {L : NetworkLaws N}.
Implicit Types (w : world).

Lemma decref_runs w (o : option nat) Q : (forall s, o = Some s -> is_Some (searches w !! s)) ->
  Q tt {| w with searches := decref (searches w) o |} -> runs (search_state_decref o) w Q.
Proof.
  intros Ho HQ. destruct o as [s|]; cbn [search_state_decref]; [|step; by destruct w]. destruct (Ho s eq_refl) as [v Ev]. steps.
  eapply runs_get_search; [apply lookup_insert_eq|]. cbn [refcount]. cbn in HQ. rewrite Ev in HQ. case_if; [|by step].
  eapply runs_free_search; [apply lookup_insert_eq|]. cbn. by rewrite delete_insert_eq.
Qed.
(** The part of [request_finished] behind the lists. *)
Lemma finish_tail w r v h hv (b : bool) : net_wf (abs w) -> zlen (listed (abs w)) < 0xffff -> r ∉ listed (abs w) -> requests w !! r = Some v -> handles w !! h = Some hv -> current_req hv = Some r ->
  (b = true -> pending_cb hv = true /\ forall s, search_state hv = Some s -> is_Some (searches w !! s)) ->
  runs (hv ← get_handle h; assert (bool_decide (current_req hv = Some r));;
        (if b then search_request_finished h;; set_handle h (fun hv => {| hv with current_req := None |});;
                   hv ← get_handle h; if (pending_cb hv : bool) then mret tt else free_handle h
         else set_handle h (fun hv => {| hv with current_req := None |}))) w
    (fun _ w1 => runs (free_req r;; evdns_requests_pump_waiting_queue) w1 (fun _ w' => moves (dropped (abs w) r h
       (if b then {| hv with current_req := None; search_state := None; search_origname := None |} else {| hv with current_req := None |})
       (if b then decref (searches w) (search_state hv) else searches w)) (abs w'))).
Proof.
  intros W Hroom Hr Ev Ehv Hc Hb. steps. apply runs_assert; [by apply bool_decide_eq_true|].
  assert (Hgo : forall hv' ss (w1 : world), requests w1 = requests w -> abs w1 = {| (abs w) with a_handles := <[h := hv']> (handles w); a_searches := ss |} ->
    runs (free_req r;; evdns_requests_pump_waiting_queue) w1 (fun _ w' => moves (dropped (abs w) r h hv' ss) (abs w'))).
  { intros hv' ss w1 Er Ea. step. eapply runs_free_req; [by rewrite Er|]. set (w2 := {| w1 with requests := _ |}).
    assert (E2 : abs w2 = dropped (abs w) r h hv' ss).
    { unfold dropped. change (abs w2) with {| (abs w1) with a_reqs := abs_req <$> delete r (requests w1) |}. rewrite Ea, Er, fmap_delete. done. }
    assert (W2 : net_wf (abs w2)) by (rewrite E2; by apply (dropped_wf (abs w) r h hv)).
    eapply runs_mono; [apply pump_moves; [exact W2|]; rewrite E2; exact Hroom|]. intros [] w3 M. by rewrite <- E2. }
  destruct b.
  - destruct (Hb eq_refl) as [Hp Hss]. unfold search_request_finished. steps. apply decref_runs; [exact Hss|]. steps. eapply runs_set_handle; [apply lookup_insert_eq|].
    steps. eapply runs_get_handle; [apply lookup_insert_eq|]. cbn [pending_cb]. rewrite Hp. step. apply Hgo; [done|]. unfold abs. cbn. by rewrite insert_insert_eq.
  - step. apply Hgo; done.
Qed.
Lemma finish_runs w r v h hv (b : bool) : net_wf (abs w) -> zlen (listed (abs w)) < 0xffff -> placed w r v h hv ->
  (b = true -> pending_cb hv = true /\ forall s, search_state hv = Some s -> is_Some (searches w !! s)) ->
  runs (request_finished r (place w v) b) w (fun _ w' => ended (abs w) (abs w') r (m_end b (memory (abs w)) r h hv)).
Proof.
  intros W Hroom [Ev Hr Hh Ehv Hc] Hb. assert (Hvalid : valid (abs w) r) by by apply W. unfold request_finished. step. apply runs_valid; [done|]. step. unfold evdns_request_remove.
  step. apply runs_valid; [done|].
  assert (Hend : forall a1, net_wf a1 /\ listed (abs w) ≡ₚ r :: listed a1 /\ r ∉ listed a1 -> memory a1 = memory (abs w) -> (forall x, x <> r -> x ∈ inflight (abs w) -> x ∈ inflight a1) -> (forall s, down (abs w) s -> down a1 s) -> a_reqs a1 = a_reqs (abs w) -> forall a',
    moves (dropped a1 r h (if b then {| hv with current_req := None; search_state := None; search_origname := None |} else {| hv with current_req := None |})
       (if b then decref (searches w) (search_state hv) else searches w)) a' -> ended (abs w) a' r (m_end b (memory (abs w)) r h hv)).
  { intros a1 (W1 & HP & Hnot) Hm Hin Hd Hreq a' [Mm Ml Mi Md Mo Mw]. split; [|by rewrite Ml, HP | | | | done].
    - rewrite Mm. rewrite <- Hm. unfold memory in Hm. injection Hm as Hm1 Hm2 Hm3 Hm4 Hm5 Hm6 Hm7 Hm8. unfold m_end, memory, dropped. cbn. f_equal; [by rewrite fmap_delete|]. by rewrite Hm5.
    - intros x Hx Hxi. apply Mi, Hin; done.
    - intros x Hx. apply Md. exact (Hd x Hx).
    - intros x Hx. rewrite HP in Hx. apply not_elem_of_cons in Hx as [Hxr Hx]. rewrite Mo by exact Hx. cbn. by rewrite lookup_delete_ne, Hreq. }
  assert (Htail : forall a1 w2 u, net_wf a1 /\ listed (abs w) ≡ₚ r :: listed a1 /\ r ∉ listed a1 -> memory a1 = memory (abs w) -> (forall x, x <> r -> x ∈ inflight (abs w) -> x ∈ inflight a1) -> (forall s, down (abs w) s -> down a1 s) -> a_reqs a1 = a_reqs (abs w) ->
    abs w2 = a1 -> requests w2 !! r = Some u -> handles w2 = handles w -> searches w2 = searches w ->
    runs (match handle v with
          | Some h => hv ← get_handle h; assert (bool_decide (current_req hv = Some r));;
              (if b then search_request_finished h;; set_handle h (fun hv => {| hv with current_req := None |});;
                   hv ← get_handle h; if (pending_cb hv : bool) then mret tt else free_handle h
               else set_handle h (fun hv => {| hv with current_req := None |}))
          | None => mret tt end) w2
      (fun _ w3 => runs (free_req r;; evdns_requests_pump_waiting_queue) w3 (fun _ w' => ended (abs w) (abs w') r (m_end b (memory (abs w)) r h hv)))).
  { intros a1 w2 u HU Hm Hin Hdn Hreq E2 Eu Ehs Ess. rewrite Hh. destruct HU as (W1 & HP & Hnot). eapply runs_mono.
    - apply (finish_tail w2 r u h hv b); rewrite ?E2, ?Ehs, ?Ess; try done. rewrite (zlen_perm _ _ HP) in Hroom. unfold zlen in *. cbn in Hroom. lia.
    - intros [] w3 HR. eapply runs_mono; [exact HR|]. intros [] w4 M. rewrite E2, Ess in M. by apply (Hend a1). }
  pose proof (listed_ns w r v W Hr Ev) as Hplace. unfold place. destruct (ns v) as [s|] eqn:Ens.
  - destruct (inflight_inv w r W Hplace) as (v' & s' & n & [Ev' Es' En Hid Hld (l & Hl & Hrl)]). simplify_eq. unfold REQ_HEAD, get_queue. steps.
    apply runs_assert; [by apply bool_decide_eq_true|]. steps. rewrite Ens. steps. eapply runs_get_ns; [apply lookup_insert_eq|].
    match goal with |- runs _ ?x _ => set (w1 := x) end.
    set (a1 := unlist_in (abs w) r (Z.to_nat (trans_id v mod zlen (req_heads (base w)))) s (abs_srv n)).
    pose proof (unlist_in_wf (abs w) r _ l (abs_req v) s (abs_srv n) W Hl Hrl (requests_abs _ _ _ Ev) Ens (servers_abs _ _ _ En)) as HU. fold a1 in HU.
    assert (E1 : abs w1 = a1).
    { unfold a1, unlist_in, abs. cbn. rewrite (alter_is_insert _ _ _ _ Hl), (abs_req_same _ _ _ _ Ev), fmap_insert; [done|unfold abs_req, timer_ok; cbn; by rewrite Ens]. }
    assert (Hm1 : memory a1 = memory (abs w)) by (unfold memory, a1, unlist_in; cbn; f_equal; apply (s_probe_same _ _ (abs_srv n)); [by apply servers_abs | done]).
    assert (Hin : forall x, x <> r -> x ∈ inflight (abs w) -> x ∈ inflight a1).
    { intros x Hx Hxi. destruct (unlist_in_perm (abs w) r _ l s (abs_srv n) (nw_nodup _ W) Hl Hrl) as [HP _]. rewrite HP in Hxi. by apply elem_of_cons in Hxi as [|]. }
    assert (Hdn : forall x, down (abs w) x -> down a1 x) by (intros x Hx; apply (down_insert (abs w) s (abs_srv n)); [by apply servers_abs | done | done]).
    case_if.
    + eapply runs_set_ns; [apply lookup_insert_eq|]. step. eapply (Htail a1); [done.. | | apply lookup_insert_eq | done | done]. rewrite <- E1. unfold abs, w1. cbn. by rewrite insert_insert_eq, !fmap_insert.
    + step. step. eapply (Htail a1); [done.. | exact E1 | apply lookup_insert_eq | done | done].
  - unfold get_queue. steps. apply runs_assert; [by apply bool_decide_eq_true|]. steps. rewrite Ens. step. step.
    destruct (unlist_wait_wf (abs w) r W Hplace) as (W1 & HP & Hnot).
    eapply (Htail (unlist_wait (abs w) r)); [done | done | by intros x Hx Hxi | done | done | done | exact Ev | done | done].
Qed.
End Finish.
