(* ===== verification/ResolverOps.v ===== *)
(** * The invariant of the resolver and what ends requests

    Callbacks that are scheduled, requests that are canceled or time out,
    servers that come up. *)
From S2P Require Import Prelude Timeval Event Buffer BufferInv CString Address Dns Resolver ResolverInv ResolverPump ResolverFinish.
Open Scope Z_scope.

(** ** The invariant.  For a request in [E] a callback may be scheduled already. *)
Record wf_but (E : nat -> Prop) (a : astate) : Prop := {
  wf_net : net_wf a;
  wf_mem : mem_wf (memory a);
  wf_owned : forall r q, a_reqs a !! r = Some q -> r ∈ listed a;
  wf_settled : forall h hv r, a_handles a !! h = Some hv -> current_req hv = Some r -> pending_cb hv = true -> E r
}.
Definition nobody (r : nat) : Prop := False.
Definition room (a : astate) : Prop := zlen (listed a) < 0xffff.

Lemma memory_reqs a a' r : memory a' = memory a -> r_mem <$> a_reqs a' !! r = r_mem <$> a_reqs a !! r.
Proof. intros HM. apply (f_equal m_reqs) in HM. cbn in HM. by rewrite <- !lookup_fmap, HM. Qed.
Lemma memory_handles a a' : memory a' = memory a -> a_handles a' = a_handles a.
Proof. intros HM. by apply (f_equal m_handles) in HM. Qed.
Lemma memory_probes a a' s : memory a' = memory a -> s_probe <$> a_srvs a' !! s = s_probe <$> a_srvs a !! s.
Proof. intros HM. apply (f_equal m_probes) in HM. cbn in HM. by rewrite <- !lookup_fmap, HM. Qed.
Lemma moves_wf E a a' : moves a a' -> wf_but E a -> wf_but E a'.
Proof.
  intros [HM HL Hin _ _ W'] [W Wm Wo Ws]. split; [done | by rewrite HM | |].
  - intros r q Hq. rewrite HL. pose proof (memory_reqs a a' r HM) as HR. rewrite Hq in HR. destruct (a_reqs a !! r) as [q0|] eqn:E0; [by apply (Wo r q0) | done].
  - rewrite (memory_handles a a' HM). exact Ws.
Qed.
Lemma moves_room a a' : moves a a' -> room a -> room a'.
Proof. intros [_ HL _ _ _ _]. unfold room. by rewrite (zlen_perm _ _ HL). Qed.
Lemma wf_mono (E E' : nat -> Prop) a : (forall r, E r -> E' r) -> wf_but E a -> wf_but E' a.
Proof. intros HE [W Wm Wo Ws]. split; eauto. Qed.

(** A request is not disturbed, nor its handle. *)
Record still (a a' : astate) (x h : nat) : Prop := {
  st_in : x ∈ inflight a -> x ∈ inflight a';
  st_req : r_mem <$> a_reqs a' !! x = r_mem <$> a_reqs a !! x;
  st_handle : a_handles a' !! h = a_handles a !! h;
  st_deferred : forall d, d ∈ a_deferred a -> d ∈ a_deferred a'
}.
Lemma still_trans a b c x h : still a b x h -> still b c x h -> still a c x h.
Proof. intros [] []. split; [auto | congruence | congruence | auto]. Qed.
Lemma still_moves a a' x h : moves a a' -> still a a' x h.
Proof. intros [HM _ Hin _ _ _]. split; [apply Hin | by apply memory_reqs | by rewrite (memory_handles _ _ HM) |]. apply (f_equal m_deferred) in HM. cbn in HM. by rewrite HM. Qed.
(** ** Ending a request keeps the invariant. *)
Lemma ended_wf E a a' r t cb h hv : wf_but (fun x => E x \/ x = r) a -> ended a a' r (m_end true (memory a) r h hv) -> m_reqs (memory a) !! r = Some (t, cb, Some h) ->
  a_handles a !! h = Some hv -> current_req hv = Some r -> pending_cb hv = true ->
  (forall s, m_probes (memory a) !! s = Some (Some h) -> exists d, d ∈ a_deferred a /\ d_handle d = Some h /\ d_callback d = Probe s /\ d_result d <> DNS_ERR_CANCEL) ->
  wf_but E a'.
Proof.
  intros [W Wm Wo Ws] [HM HL Hin _ _ W'] Hr Hh Hc Hp Hpr. split; [done | rewrite HM; by apply (end_wf _ r t cb) | |].
  - intros x q Hq. apply (f_equal m_reqs) in HM. cbn in HM. assert (Hx : (r_mem <$> a_reqs a') !! x = Some (r_mem q)) by by rewrite lookup_fmap, Hq.
    rewrite HM in Hx. apply lookup_delete_Some in Hx as [Hne Hx]. rewrite lookup_fmap in Hx. destruct (a_reqs a !! x) as [q0|] eqn:E0; [|done].
    specialize (Wo x q0 E0). rewrite <- HL in Wo. apply elem_of_cons in Wo as [->|]; done.
  - intros x xv y Hx Hy Hpx. apply (f_equal m_handles) in HM. cbn in HM. rewrite HM in Hx. apply lookup_insert_Some in Hx as [[<- <-]|[Hne Hx]]; [done|].
    destruct (Ws x xv y Hx Hy Hpx) as [?| ->]; [done|]. destruct (mw_handle _ Wm x xv r Hx Hy) as (t' & cb' & Hr'). congruence.
Qed.
Lemma ended_room a a' r m : ended a a' r m -> room a -> room a'.
Proof. intros [_ HL _ _ _ _]. apply zlen_perm in HL. unfold room, zlen in *. cbn in HL. lia. Qed.

(** ** Changes of servers that do not matter for the queues. *)
Definition set_probe (a : astate) (s : nat) (n : asrv) (o : option nat) : astate := {| a with a_srvs := <[s := {| n with s_probe := o |}]> (a_srvs a) |}.
Lemma srv_same_net a s n n' : net_wf a -> a_srvs a !! s = Some n -> s_load n' = s_load n -> s_up n' = s_up n -> net_wf {| a with a_srvs := <[s := n']> (a_srvs a) |}.
Proof.
  intros W Hn Hl Hu. destruct W. split; try done; cbn.
  - intros i l r Hi Hr. setoid_rewrite (dom_insert_same _ s n); [by apply (nw_inflight i l) | done].
  - by setoid_rewrite (dom_insert_same _ s n).
  - intros t m. rewrite lookup_insert_Some. intros [[<- <-]|[_ Hm]]; [rewrite Hl; by apply nw_load | by apply nw_load].
  - apply (total_ext (up a)); [|done]. intros x. unfold up. cbn. destruct (decide (x = s)) as [->|]; [by rewrite lookup_insert_eq, Hn, Hu | by rewrite lookup_insert_ne].
Qed.
Lemma probe_none_mem m s p : mem_wf m -> m_probes m !! s = Some p -> mem_wf {| m with m_probes := <[s := None]> (m_probes m) |}.
Proof.
  intros W Hs. assert (Hd : forall x, is_Some (<[s := None]> (m_probes m) !! x) <-> is_Some (m_probes m !! x)) by (intros x; by apply (dom_insert_same _ s p)).
  destruct W. split; try done; cbn.
  - intros t h. rewrite lookup_insert_Some. intros [[_ ?]|[_ Ht]]; [done|]. exact (mw_probe t h Ht).
  - intros r t x o Hr. rewrite Hd. eauto.
  - intros d x Hdd Hcb Hres. rewrite Hd. eauto.
  - intros x Hx. destruct (mw_fresh x Hx) as (F1 & F2 & F3 & F4). split_and!; try done. rewrite lookup_insert_ne; [done|]. intros ->. congruence.
Qed.
Lemma probe_none_wf E a s n : wf_but E a -> a_srvs a !! s = Some n -> wf_but E (set_probe a s n None).
Proof.
  intros [W Wm Wo Ws] Hn. split; [by apply (srv_same_net a s n) | | done | done].
  unfold memory, set_probe. cbn. rewrite fmap_insert. apply (probe_none_mem (memory a) s (s_probe n)); [done|]. cbn. by rewrite lookup_fmap, Hn.
Qed.

Section Ops.
Context `{N : Network} {L : NetworkLaws N}.
Implicit Types (w : world).

(** ** Scheduling. *)
Definition callback_of (v : request) (ttl err : Z) (rep : option reply) : deferred_reply_callback := Deferred (handle v) (request_type v) ttl err (user_callback v) rep.
Definition scheduled (w : world) (h : nat) (hv : evdns_request) (d : deferred_reply_callback) (t : nat) : world :=
  {| w with handles := <[h := {| hv with pending_cb := true |}]> (handles w); deferred := deferred w ++ [d]; ticks := t |}.
Lemma schedule_runs w r v h hv ttl err rep : placed w r v h hv ->
  runs (reply_schedule_callback r ttl err rep) w (fun _ w' => exists t, w' = scheduled w h hv (callback_of v ttl err rep) t).
Proof.
  intros [Ev Hr Hh Ehv Hc]. unfold reply_schedule_callback, mm_alloc. steps. rewrite mm_ok_law. cbn [negb]. steps. rewrite Hh. steps. eexists. unfold scheduled, callback_of. cbn. by rewrite Hh.
Qed.
Lemma scheduled_mem w h hv d t : memory (abs (scheduled w h hv d t)) = m_schedule (memory (abs w)) h hv d.
Proof. done. Qed.
Lemma scheduled_wf E w r v h hv ttl err rep t : wf_but E (abs w) -> placed w r v h hv -> pending_cb hv = false ->
  wf_but (fun x => E x \/ x = r) (abs (scheduled w h hv (callback_of v ttl err rep) t)) /\
  placed (scheduled w h hv (callback_of v ttl err rep) t) r v h {| hv with pending_cb := true |}.
Proof.
  intros [W Wm Wo Ws] [Ev Hr Hh Ehv Hc] Hp. split.
  - split.
    + apply (net_wf_other (abs w) (<[h := {| hv with pending_cb := true |}]> (handles w)) (searches w) (deferred w ++ [callback_of v ttl err rep]) (calls w) (fresh w) (global_search_state (base w)) (global_max_requests_inflight (base w)) W).
      intros x Hx. destruct (nw_valid _ W x Hx) as (q & h0 & hv0 & Hq & Hh0 & Hhv0 & Hc0). destruct (decide (h0 = h)) as [->|].
      * exists q, h, {| hv with pending_cb := true |}. cbn. rewrite lookup_insert_eq. split_and!; try done. cbn in Hhv0. by simplify_eq.
      * exists q, h0, hv0. cbn. by rewrite lookup_insert_ne.
    + rewrite scheduled_mem. apply (schedule_wf _ r (request_type v) (user_callback v)); try done. cbn. rewrite !lookup_fmap, Ev. cbn. unfold r_mem. cbn. by rewrite Hh.
    + exact Wo.
    + intros x xv y. cbn. rewrite lookup_insert_Some. intros [[<- <-]|[Hne Hx]] Hy Hpx; [right; cbn in Hy; congruence | left; eauto].
  - split; try done. cbn. apply lookup_insert_eq.
Qed.

(** ** A callback is scheduled and the request ends. *)
Lemma m_reqs_of w r v h : requests w !! r = Some v -> handle v = Some h -> m_reqs (memory (abs w)) !! r = Some (request_type v, user_callback v, Some h).
Proof. intros Ev Hh. cbn. rewrite !lookup_fmap, Ev. cbn. unfold r_mem. cbn. by rewrite Hh. Qed.
Lemma finish_wf E w r v h hv : wf_but (fun x => E x \/ x = r) (abs w) -> room (abs w) -> placed w r v h hv -> pending_cb hv = true ->
  (forall s, m_probes (memory (abs w)) !! s = Some (Some h) -> exists d, d ∈ deferred w /\ d_handle d = Some h /\ d_callback d = Probe s /\ d_result d <> DNS_ERR_CANCEL) ->
  runs (request_finished r (place w v) true) w (fun _ w' => wf_but E (abs w') /\ ended (abs w) (abs w') r (m_end true (memory (abs w)) r h hv)).
Proof.
  intros WF Hroom HP Hp Hpr. pose proof HP as [Ev Hr Hh Ehv Hc]. eapply runs_mono; [apply (finish_runs w r v h hv true); [apply WF | done | done |]|].
  - intros _. split; [done|]. intros s Hs. by apply (mw_search _ (wf_mem _ _ WF) h hv s).
  - intros [] w' HE. split; [|done]. apply (ended_wf E (abs w) _ r (request_type v) (user_callback v) h hv); try done. by apply m_reqs_of.
Qed.
(** The end of a request whose callback, not of a cancelation, is scheduled. *)
Lemma finish_scheduled E w r v h hv d : wf_but (fun x => E x \/ x = r) (abs w) -> room (abs w) -> placed w r v h hv -> pending_cb hv = true ->
  d ∈ deferred w -> d_handle d = Some h -> d_callback d = user_callback v -> d_result d <> DNS_ERR_CANCEL ->
  runs (request_finished r (place w v) true) w (fun _ w' => wf_but E (abs w') /\ ended (abs w) (abs w') r (m_end true (memory (abs w)) r h hv)).
Proof.
  intros WF Hroom HP Hp Hd Hdh Hdc Hres. apply finish_wf; try done. intros s Hs. pose proof HP as [Ev Hr Hh Ehv Hc].
  destruct (mw_probe _ (wf_mem _ _ WF) s h Hs) as [_ [(yv & y & ty & Hy & Hcy & Hry)|Hdd]]; [|exact Hdd]. cbn in Hy. assert (y = r) as -> by congruence.
  pose proof (m_reqs_of w r v h Ev Hh) as Hm. rewrite Hry in Hm. injection Hm as _ Hcb. exists d. by rewrite Hdc.
Qed.
Lemma answered_wf E w r v h hv ttl err rep : wf_but E (abs w) -> room (abs w) -> placed w r v h hv -> pending_cb hv = false -> d_result (callback_of v ttl err rep) <> DNS_ERR_CANCEL ->
  runs (reply_schedule_callback r ttl err rep;; request_finished r (place w v) true) w (fun _ w' => wf_but E (abs w') /\ room (abs w') /\
    (exists t, ended (abs (scheduled w h hv (callback_of v ttl err rep) t)) (abs w') r (m_end true (m_schedule (memory (abs w)) h hv (callback_of v ttl err rep)) r h {| hv with pending_cb := true |}))).
Proof.
  intros WF Hroom HP Hp Hres. step. eapply runs_mono; [by apply schedule_runs|]. intros [] w' [t ->].
  destruct (scheduled_wf E w r v h hv ttl err rep t WF HP Hp) as [WF' HP']. change (place w v) with (place (scheduled w h hv (callback_of v ttl err rep) t) v).
  eapply runs_mono; [apply (finish_scheduled E _ r v h _ (callback_of v ttl err rep) WF' Hroom HP' eq_refl); [apply elem_of_app; right; left | apply HP | done | done]|]. intros [] w' [WF'' HE]. split; [done|]. split; [by eapply ended_room|]. by exists t.
Qed.

(** ** Cancelation. *)
Lemma still_placed E w w' x v h hv : wf_but E (abs w') -> placed w x v h hv -> x ∈ inflight (abs w) -> still (abs w) (abs w') x h ->
  exists v', placed w' x v' h hv /\ request_type v' = request_type v /\ user_callback v' = user_callback v /\ x ∈ inflight (abs w').
Proof.
  intros WF [Ev Hr Hh Ehv Hc] Hx [Hin Hreq Hhd _]. specialize (Hin Hx). cbn in Hreq. rewrite !lookup_fmap, Ev in Hreq. cbn in Hreq.
  destruct (requests w' !! x) as [v'|] eqn:Ev'; [|done]. cbn in Hreq. unfold r_mem in Hreq. cbn in Hreq. injection Hreq as Ht Hcb Hh'. cbn in Hhd.
  exists v'. split_and!; [|done..]. split; [done | by apply listed_inflight | by rewrite Hh' | by rewrite Hhd | done].
Qed.
Lemma cancel_mem m r t cb h hv d : mem_wf m -> m_reqs m !! r = Some (t, cb, Some h) -> m_handles m !! h = Some hv -> current_req hv = Some r -> pending_cb hv = false ->
  d_handle d = Some h -> d_request_type d = t -> d_callback d = cb -> (forall s, m_probes m !! s <> Some (Some h)) ->
  mem_wf (m_end true (m_schedule m h hv d) r h {| hv with pending_cb := true |}).
Proof.
  intros W Hr Hh Hc Hp Hdh Hdt Hdc Hno. apply (end_wf _ r t cb); try done.
  - by apply (schedule_wf m r t cb).
  - cbn. apply lookup_insert_eq.
  - intros s Hs. by apply Hno in Hs.
Qed.
(** What canceling does: nothing, or the request of the handle ends. *)
Definition canceled (w w' : world) (r : nat) (v : request) (h : nat) (hv : evdns_request) : Prop :=
  exists t, let d := callback_of v 0 DNS_ERR_CANCEL None in
  ended (abs (scheduled w h hv d t)) (abs w') r (m_end true (m_schedule (memory (abs w)) h hv d) r h {| hv with pending_cb := true |}).
Lemma cancel_runs E w h hv : wf_but E (abs w) -> room (abs w) -> handles w !! h = Some hv ->
  runs (evdns_cancel_request h) w (fun _ w' =>
    (w' = w /\ (current_req hv = None \/ pending_cb hv = true)) \/ (exists r v, placed w r v h hv /\ pending_cb hv = false /\ canceled w w' r v h hv)).
Proof.
  intros WF Hroom Ehv. unfold evdns_cancel_request. steps. destruct (current_req hv) as [r|] eqn:Ec; [|steps; left; auto]. case_if; [steps; left; auto|].
  destruct (mw_handle _ (wf_mem _ _ WF) h hv r Ehv Ec) as (t & cb & Hr). cbn in Hr. rewrite !lookup_fmap in Hr. destruct (requests w !! r) as [v|] eqn:Ev; [|done].
  cbn in Hr. unfold r_mem in Hr. cbn in Hr. injection Hr as Ht Hcb Hh.
  assert (HP : placed w r v h hv) by (split; try done; apply (wf_owned _ _ WF r (abs_req v)); by apply requests_abs).
  step. apply runs_valid; [by apply (nw_valid _ (wf_net _ _ WF)), HP|]. step. eapply runs_mono; [by apply schedule_runs|]. intros [] w1 [t1 ->].
  destruct (scheduled_wf E w r v h hv 0 DNS_ERR_CANCEL None t1 WF HP E0) as [WF1 HP1]. set (w1 := scheduled _ _ _ _ _) in *. steps.
  eapply runs_mono; [apply (finish_runs w1 r v h {| hv with pending_cb := true |} true); [apply WF1 | done | exact HP1 |]|].
  - intros _. split; [done|]. intros s Hs. exact (proj1 (mw_search _ (wf_mem _ _ WF1) h _ s (pl_hv _ _ _ _ _ HP1) Hs)).
  - intros [] w2 HE. right. exists r, v. split_and!; [done | done |]. exists t1. exact HE.
Qed.
Lemma canceled_owned E w w' r v h hv : wf_but E (abs w) -> placed w r v h hv -> canceled w w' r v h hv ->
  net_wf (abs w') /\ (forall x q, a_reqs (abs w') !! x = Some q -> x ∈ listed (abs w')) /\
  (forall x xv y, handles w' !! x = Some xv -> current_req xv = Some y -> pending_cb xv = true -> E y) /\ (room (abs w) -> room (abs w')) /\
  (forall x hx, x <> r -> hx <> h -> still (abs w) (abs w') x hx).
Proof.
  intros [W Wm Wo Ws] [Ev Hr Hh Ehv Hc] [t HE]. pose proof HE as [HM HL Hin _ _ W']. split; [done|]. split_and!.
  - intros x q Hq. apply (f_equal m_reqs) in HM. cbn in HM. assert (Hx : (r_mem <$> a_reqs (abs w')) !! x = Some (r_mem q)) by by rewrite lookup_fmap, Hq.
    cbn in Hx. rewrite HM in Hx. apply lookup_delete_Some in Hx as [Hne Hx]. rewrite lookup_fmap in Hx. destruct (a_reqs (abs w) !! x) as [q0|] eqn:E0; [|cbn in E0, Hx; by rewrite E0 in Hx].
    specialize (Wo x q0 E0). change (listed (abs (scheduled w h hv (callback_of v 0 DNS_ERR_CANCEL None) t))) with (listed (abs w)) in HL. rewrite <- HL in Wo. apply elem_of_cons in Wo as [->|]; done.
  - intros x xv y Hx Hy Hpx. apply (f_equal m_handles) in HM. cbn in HM. rewrite HM in Hx. apply lookup_insert_Some in Hx as [[<- <-]|[Hne Hx]]; [done|].
    rewrite lookup_insert_ne in Hx by done. eauto.
  - intros HR. exact (ended_room _ _ _ _ HE HR).
  - intros x hx Hx Hhx. split; [by apply Hin | | |].
    + apply (f_equal m_reqs) in HM. cbn in HM |- *. rewrite <- !lookup_fmap, HM. by rewrite lookup_delete_ne.
    + apply (f_equal m_handles) in HM. cbn in HM |- *. rewrite HM. by rewrite !lookup_insert_ne.
    + intros d Hd. apply (f_equal m_deferred) in HM. cbn in HM |- *. rewrite HM. apply elem_of_app. by left.
Qed.
Lemma canceled_accounts E w w' r v h hv : wf_but E (abs w) -> placed w r v h hv -> pending_cb hv = false -> canceled w w' r v h hv -> accounts (memory (abs w)) (memory (abs w')).
Proof.
  intros WF [Ev Hr Hh Ehv Hc] Hp [t [HM _ _ _ _ _]]. rewrite HM. apply (answered_accounts _ r (request_type v) (user_callback v)); try done; [apply WF | by apply m_reqs_of].
Qed.
(** A user cancels. *)
Lemma cancel_request_wf E w h hv : wf_but E (abs w) -> room (abs w) -> handles w !! h = Some hv -> (forall s n, servers w !! s = Some n -> probe_request n <> Some h) ->
  runs (evdns_cancel_request h) w (fun _ w' => wf_but E (abs w') /\ room (abs w') /\ accounts (memory (abs w)) (memory (abs w'))).
Proof.
  intros WF Hroom Ehv Hno. eapply runs_mono; [by apply (cancel_runs E w h hv)|]. intros [] w' [[-> _]|(r & v & HP & Hp & HC)]; [split; [done|]; split; [done | apply accounts_refl]|].
  destruct (canceled_owned E w w' r v h hv WF HP HC) as (W' & Wo & Ws & Hroom' & _). pose proof (canceled_accounts E w w' r v h hv WF HP Hp HC). split; [|by split; [apply Hroom'|]]. split; [done | | done | done]. destruct HC as [t [HM _ _ _ _ _]]. rewrite HM.
  destruct HP as [Ev Hr Hh _ Hc]. apply (cancel_mem _ r (request_type v) (user_callback v)); try done; [apply WF | by apply m_reqs_of|].
  intros s. cbn. rewrite !lookup_fmap. destruct (servers w !! s) as [n|] eqn:En; [|done]. cbn. intros [= Hs]. by apply (Hno s n).
Qed.

(** A probe whose callback is not scheduled is for the server that has it. *)
Lemma own_probe E w r v h hv s : wf_but E (abs w) -> placed w r v h hv -> pending_cb hv = false -> m_probes (memory (abs w)) !! s = Some (Some h) -> user_callback v = Probe s.
Proof.
  intros WF [Ev Hr Hh Ehv Hc] Hp Hs. destruct (mw_probe _ (wf_mem _ _ WF) s h Hs) as [_ [(yv & y & ty & Hy & Hcy & Hry)|(d & Hd & Hdh & _)]].
  - cbn in Hy. assert (y = r) as -> by congruence. pose proof (m_reqs_of w r v h Ev Hh) as Hm. congruence.
  - destruct (mw_scheduled _ (wf_mem _ _ WF)) as [_ HS]. assert (Hin : h ∈ omap d_handle (m_deferred (memory (abs w)))) by (apply list_elem_of_omap; by exists d).
    apply HS in Hin as (hv' & Hhv' & Hp'). cbn in Hhv'. congruence.
Qed.

(** ** Servers that come up. *)
Lemma up_net a s n : net_wf a -> a_srvs a !! s = Some n -> s_up n = false -> net_wf {| a with a_good := a_good a + 1; a_srvs := <[s := {| n with s_up := true |}]> (a_srvs a) |}.
Proof.
  intros W Hn Hu. destruct W. split; try done; cbn.
  - intros i l r Hi Hr. setoid_rewrite (dom_insert_same _ s n); [by apply (nw_inflight i l) | done].
  - by setoid_rewrite (dom_insert_same _ s n).
  - intros t m. rewrite lookup_insert_Some. intros [[<- <-]|[_ Hm]]; [exact (nw_load s n Hn) | exact (nw_load t m Hm)].
  - apply (total_here (up a) _ (a_good a) _ s 1); [done | | |lia].
    + intros x Hx. unfold up. cbn. by rewrite lookup_insert_ne.
    + unfold up. cbn. by rewrite lookup_insert_eq, Hn, Hu.
Qed.
Lemma up_wf E a s n : wf_but E a -> a_srvs a !! s = Some n -> s_up n = false -> wf_but E {| a with a_good := a_good a + 1; a_srvs := <[s := {| n with s_up := true |}]> (a_srvs a) |}.
Proof.
  intros [W Wm Wo Ws] Hn Hu. split; [by apply up_net | | done | done]. unfold memory. cbn. rewrite (s_probe_same _ _ n) by done. exact Wm.
Qed.
Lemma nameserver_up_wf E w s : wf_but E (abs w) -> room (abs w) -> is_Some (servers w !! s) ->
  runs (nameserver_up s) w (fun _ w' => wf_but E (abs w') /\ room (abs w') /\ accounts (memory (abs w)) (memory (abs w')) /\ (forall x, is_Some (servers w !! x) -> is_Some (servers w' !! x)) /\
    forall x v h hv, placed w x v h hv -> pending_cb hv = true \/ (forall n, servers w !! s = Some n -> probe_request n <> Some h) -> still (abs w) (abs w') x h).
Proof.
  intros WF Hroom [n En]. unfold nameserver_up. steps. destruct (state n) eqn:Est.
  { steps. split_and!; done || apply accounts_refl. }
  step. step. match goal with |- runs _ ?x _ => set (w1 := x) end. assert (E1 : abs w1 = abs w) by (unfold abs; cbn; by rewrite (abs_srv_same _ _ _ _ En)).
  assert (Hdone : forall w2 n2, wf_but E (abs w2) -> room (abs w2) -> servers w2 !! s = Some n2 -> state n2 = false -> accounts (memory (abs w)) (memory (abs w2)) ->
    (forall x, is_Some (servers w !! x) -> is_Some (servers w2 !! x)) ->
    (forall x v h hv, placed w x v h hv -> pending_cb hv = true \/ (forall n, servers w !! s = Some n -> probe_request n <> Some h) -> still (abs w) (abs w2) x h) ->
    runs (set_ns s (fun v => {| v with state := true; failed_times := 0; timedout := 0 |});; set_base (fun b => {| b with global_good_nameservers := global_good_nameservers b + 1 |})) w2
      (fun _ w' => wf_but E (abs w') /\ room (abs w') /\ accounts (memory (abs w)) (memory (abs w')) /\ (forall x, is_Some (servers w !! x) -> is_Some (servers w' !! x)) /\
         forall x v h hv, placed w x v h hv -> pending_cb hv = true \/ (forall n, servers w !! s = Some n -> probe_request n <> Some h) -> still (abs w) (abs w') x h)).
  { intros w2 n2 WF2 Hroom2 En2 Hs2 Hacc2 Hd2 Hst2. steps. match goal with |- wf_but E (abs ?x) /\ _ => set (w3 := x) end.
    assert (E3 : abs w3 = {| (abs w2) with a_good := a_good (abs w2) + 1; a_srvs := <[s := {| (abs_srv n2) with s_up := true |}]> (a_srvs (abs w2)) |}) by (unfold abs; cbn; by rewrite fmap_insert).
    split_and!; [rewrite E3; apply up_wf; [done | by apply servers_abs | done] | by rewrite E3 | by rewrite E3; apply (accounts_trans _ _ _ Hacc2), accounts_same | |].
    - intros x Hx. cbn. rewrite lookup_insert_is_Some. destruct (decide (s = x)); naive_solver.
    - intros x v h hv HP Hor. destruct (Hst2 x v h hv HP Hor) as [S1 S2 S3 S4]. rewrite E3. by split. }
  step. destruct (probe_request n) as [h|] eqn:Ep.
  2: { step. eapply (Hdone w1); [by rewrite E1 | by rewrite E1 | apply lookup_insert_eq | done | rewrite E1; apply accounts_refl | |].
       - intros x Hx. cbn. rewrite lookup_insert_is_Some. destruct (decide (s = x)); naive_solver.
       - intros x v h hv HP _. rewrite E1. by apply still_moves, moves_refl, WF. }
  assert (WF1 : wf_but E (abs w1)) by by rewrite E1. assert (Hs : m_probes (memory (abs w)) !! s = Some (Some h)) by (cbn; by rewrite !lookup_fmap, En; cbn; rewrite Ep).
  destruct (mw_probe _ (wf_mem _ _ WF) s h Hs) as [[hv Ehv] Hprob]. step. eapply runs_mono; [apply (cancel_runs E w1 h hv WF1); [by rewrite E1 | exact Ehv]|].
  assert (Hsrv1 : exists n1, servers w1 !! s = Some n1 /\ state n1 = false) by (eexists; split; [apply lookup_insert_eq | done]).
  destruct Hsrv1 as (n1 & En1 & Est1).
  assert (Hset : forall w2 n2, servers w2 !! s = Some n2 -> forall w3, w3 = {| w2 with servers := <[s := {| n2 with probe_request := None |}]> (servers w2) |} ->
    abs w3 = set_probe (abs w2) s (abs_srv n2) None) by (intros w2 n2 En2 w3 ->; unfold abs, set_probe; cbn; by rewrite fmap_insert).
  intros [] w2 [[-> Hor]|(r & v & HP & Hp & HC)].
  - eapply runs_set_ns; [exact En1|]. match goal with |- runs _ ?x _ => set (w2 := x) end.
    assert (E2 : abs w2 = set_probe (abs w1) s (abs_srv n1) None) by by apply (Hset w1 n1).
    eapply (Hdone w2); [rewrite E2; apply probe_none_wf; [done | by apply servers_abs] | rewrite E2; exact Hroom | apply lookup_insert_eq | exact Est1 | by rewrite E2, E1; apply accounts_same | |].
    + intros x Hx. cbn. rewrite insert_insert_eq, lookup_insert_is_Some. destruct (decide (s = x)); naive_solver.
    + intros x v h0 hv0 HPx Hx. rewrite E2, E1. by split.
  - assert (Hs1 : m_probes (memory (abs w1)) !! s = Some (Some h)) by by rewrite E1. assert (Hcb := own_probe E w1 r v h hv s WF1 HP Hp Hs1).
    destruct (canceled_owned E w1 w2 r v h hv WF1 HP HC) as (W2 & Wo2 & Ws2 & Hroom2 & Hst2). pose proof (canceled_accounts E w1 w2 r v h hv WF1 HP Hp HC) as Hacc. destruct HC as [t [HM HL Hin Hdn _ W']].
    destruct (Hdn s) as (k & Ek & Hk); [exists (abs_srv n1); split; [by apply servers_abs | done]|]. destruct (abs_srvs_Some _ _ _ Ek) as (n2 & En2 & <-).
    eapply runs_set_ns; [exact En2|]. match goal with |- runs _ ?x _ => set (w3 := x) end.
    assert (E3 : abs w3 = set_probe (abs w2) s (abs_srv n2) None) by by apply (Hset w2 n2).
    assert (Hdom : forall x, is_Some (servers w !! x) -> is_Some (servers w3 !! x)).
    { intros x Hx. cbn. rewrite lookup_insert_is_Some. destruct (decide (s = x)) as [->|Hne]; [by left | right; split; [done|]].
      apply (f_equal m_probes) in HM. cbn in HM. apply (f_equal (fun m => m !! x)) in HM. rewrite !lookup_fmap in HM. rewrite lookup_insert_ne in HM by done.
      destruct Hx as [nx Enx]. rewrite Enx in HM. destruct (servers w2 !! x); [by eexists | done]. }
    eapply (Hdone w3); [ | rewrite E3; by apply Hroom2; rewrite E1 | apply lookup_insert_eq | exact Hk | | exact Hdom |].
    2: { rewrite E3. apply (accounts_trans _ (memory (abs w2))); [|by apply accounts_same]. by rewrite <- E1. }
    + rewrite E3. split; [by apply (srv_same_net (abs w2) s (abs_srv n2)) | | exact Wo2 | exact Ws2].
      pose proof (probe_none_mem (memory (abs w1)) s (Some h) (wf_mem _ _ WF1) Hs1) as Wm1. pose proof HP as [Ev Hr Hh Ehv1 Hc].
      pose proof (cancel_mem _ r (request_type v) (user_callback v) h hv (callback_of v 0 DNS_ERR_CANCEL None) Wm1 (m_reqs_of w1 r v h Ev Hh) Ehv1 Hc Hp Hh eq_refl eq_refl) as Wm3.
      unfold memory at 1, set_probe. cbn. rewrite fmap_insert. change (s_probe <$> (abs_srv <$> servers w2)) with (m_probes (memory (abs w2))).
      change (r_mem <$> (abs_req <$> requests w2)) with (m_reqs (memory (abs w2))). change (mem_wf {| (memory (abs w2)) with m_probes := <[s := None]> (m_probes (memory (abs w2))) |}).
      rewrite HM. apply Wm3. intros s'. cbn. rewrite lookup_insert_Some. intros [[_ ?]|[Hne Hs']]; [done|]. apply Hne. assert (Hcb' := own_probe E w1 r v h hv s' WF1 HP Hp Hs'). congruence.
    + intros x vx hx hvx [Evx Hrx Hhx Ehvx Hcx] Hor. pose proof HP as [Ev Hr Hh Ehv1 Hc]. change (requests w !! r = Some v) in Ev. change (handles w !! h = Some hv) in Ehv1.
      assert (Hno : hx <> h). { intros ->. destruct Hor as [Hpx|Hpx]; [congruence|]. by apply (Hpx n). }
      rewrite E3, <- E1. destruct (Hst2 x hx) as [S1 S2 S3 S4]; [congruence | done | by split].
Qed.
End Ops.
