(* ===== verification/ResolverNew.v ===== *)
(** * New requests

    The packet of a request is built, the request enters a queue, and its
    handle owns it. *)
From S2P Require Import Prelude Timeval Event Buffer BufferInv CString Address UriCodec Dns DnsNames DnsFormat Resolver ResolverInv ResolverPump ResolverFinish ResolverOps.
Open Scope Z_scope.

(** ** Packets. *)
Lemma build_returns mm name id type class buf : is_cstring name -> zlen name <= 255 -> zlen buf = evdns_request_len (zlen name) ->
  exists r buf', evdns_request_data_build mm name (zlen name) id type class buf (zlen buf) = Some (r, buf') /\ (0 <= r -> 2 <= zlen (ztake r buf')).
Proof.
  intros Hc Hl Hbuf. pose proof (zlen_nonneg name). set (len := zlen buf) in *. assert (Hlen : len = zlen name + 102) by (unfold evdns_request_len in Hbuf; lia).
  unfold evdns_request_data_build.
  destruct (header_written buf (zlen buf) len id 0x0100 1 0 0 0 (fun buf => Some (-1, buf)) (fun buf j =>
    '(j, buf, _) ← dnsname_to_labels mm buf len j name (zlen name) None;
    if j <? 0 then Some (j, buf)
    else
      get (buf, j) := APPEND16 buf len j type or Some (-1, buf);
      get (buf, j) := APPEND16 buf len j class or Some (-1, buf);
      Some (j, buf)) eq_refl ltac:(lia)) as (b1 & W1 & E1). cbv beta in E1. rewrite E1. clear E1. set (w := header id 0x0100 1 0 0 0) in *. change 12 with (zlen w).
  destruct (dnsname_written mm len (zlen buf) ltac:(lia) ltac:(lia) ltac:(lia) name b1 w None Hc W1) as (r & b2 & t2 & -> & _ & Hout); [change (zlen w) with 12; lia | done|].
  destruct Hout as [[Hr _]|(enc & added & -> & W2 & _ & [_ _ Hel])]; cbn [mbind option_bind]; [replace (r <? 0) with true by lia; exists r, b2; split; [done | lia]|].
  pose proof (zlen_app w enc) as Hz. change (zlen w) with 12 in Hz. replace (_ <? 0) with false by lia. unfold APPEND16.
  destruct (append_reached 2 be16 b2 _ type len (zlen buf) W2 ltac:(lia) zlen_be16) as (b3 & E3 & W3); [lia|]. rewrite E3. cbn [or_else]. clear E3.
  pose proof (zlen_app (w ++ enc) (be16 type)). rewrite zlen_be16 in *.
  destruct (append_reached 2 be16 b3 _ class len (zlen buf) W3 ltac:(lia) zlen_be16) as (b4 & E4 & W4); [lia|]. rewrite E4. cbn [or_else]. clear E4.
  eexists _, _. split; [reflexivity|]. intros _. pose proof (written_len _ _ _ W4). destruct W4 as [_ Hz4]. rewrite zlen_ztake by (rewrite Hz4; split; [apply zlen_nonneg | done]).
  rewrite !zlen_app, !zlen_be16. pose proof (zlen_nonneg enc). change (zlen w) with 12. lia.
Qed.
(** Only bytes are written. *)
Lemma put_bytes buf j data buf' : Forall is_byte buf -> Forall is_byte data -> put buf j data = Some buf' -> Forall is_byte buf'.
Proof. intros HB HD. unfold put. case_if; [|done]. intros [= <-]. by apply patch_bytes. Qed.
Lemma append_bytes buf len j x {A} (err : option A) k out (P : A -> Prop) : Forall is_byte buf -> (forall e, err = Some e -> P e) ->
  (forall buf' j', Forall is_byte buf' -> k (buf', j') = Some out -> P out) -> or_else (append 2 be16 buf len j x) err k = Some out -> P out.
Proof.
  intros HB He Hk. unfold append. case_if; [cbn; apply He|]. destruct (put buf j (be16 x)) as [b|] eqn:Ep; cbn; [|done]. apply Hk. apply (put_bytes buf j (be16 x)); [done | apply be16_bytes | done].
Qed.
Lemma put_label_bytes buf j label b j' : Forall is_byte buf -> is_cstring label -> put_label buf j label = Some (b, j') -> Forall is_byte b.
Proof.
  intros HB Hc. unfold put_label. destruct (put buf j [u8 (zlen label)]) as [b1|] eqn:E1; cbn; [|done]. destruct (put b1 (j + 1) label) as [b2|] eqn:E2; cbn; [|done]. intros [= <- _].
  apply (put_bytes b1 (j + 1) label); [|eapply Forall_impl; [exact Hc|]; unfold is_char, is_byte; lia | done]. apply (put_bytes buf j [u8 (zlen label)]); [done | | done].
  constructor; [|done]. unfold is_byte, u8. apply Z.mod_pos_bound. lia.
Qed.
Lemma split_cstring name l r : split_at 46 name = Some (l, r) -> is_cstring name -> is_cstring l /\ is_cstring r.
Proof. intros [-> _]%split_at_some Hc. apply Forall_app in Hc as [? Hc]. split; [done|]. by apply Forall_cons in Hc as [_ ?]. Qed.
Lemma labels_bytes mm len fuel : forall buf j name r b t, is_cstring name -> Forall is_byte buf -> labels_loop mm fuel buf len j name None = Some (r, b, t) -> Forall is_byte b /\ t = None.
Proof.
  induction fuel as [|fuel IH]; intros buf j name r b t Hc HB; cbn [labels_loop]; [done|]. change (0 <=? -1) with false. cbn iota.
  assert (HG : forall label rest, is_cstring label -> (forall n, rest = Some n -> is_cstring n) ->
    (if 63 <? zlen label then Some (-1, buf, None) else if len <? u64 (j + zlen label + 1) then Some (-2, buf, None) else
      '(buf, j) ← put_label buf j label;
      match rest with
      | Some name => labels_loop mm fuel buf len j name None
      | None => last ← (if j =? 0 then Some [] else slice buf (j - 1) 1); if (j =? 0) || c_true (of_be last) then buf ← put buf j [0]; Some (j + 1, buf, None) else Some (j, buf, None)
      end) = Some (r, b, t) -> Forall is_byte b /\ t = None).
  { intros label rest Hl Hr. case_if; [by intros [= _ <- <-]|]. case_if; [by intros [= _ <- <-]|]. destruct (put_label buf j label) as [[b1 j1]|] eqn:E1; cbn [mbind option_bind]; [|done].
    apply put_label_bytes in E1; [|done|done]. destruct rest as [n|]; [apply IH; [by apply Hr | done]|]. destruct (if j1 =? 0 then _ else _) as [last|]; cbn [mbind option_bind]; [|done].
    case_if; [|by intros [= _ <- <-]]. destruct (put b1 j1 [0]) as [b2|] eqn:Eput; cbn; [|done]. intros [= _ <- <-]. split; [|done]. apply (put_bytes b1 j1 [0]); [done | | done]. constructor; [unfold is_byte; lia | done]. }
  destruct (split_at 46 name) as [[label rest]|] eqn:Es.
  - destruct (split_cstring name label rest Es Hc). apply (HG label (Some rest)); [done|]. by intros n [= <-].
  - by apply (HG name None).
Qed.
Lemma build_bytes mm name n id type class buf len r buf' : is_cstring name -> Forall is_byte buf -> evdns_request_data_build mm name n id type class buf len = Some (r, buf') -> Forall is_byte buf'.
Proof.
  intros Hc HB. unfold evdns_request_data_build, APPEND16. set (P := fun o : Z * list Z => Forall is_byte (snd o)). change (Forall is_byte buf') with (P (r, buf')).
  do 6 (eapply append_bytes; [eassumption | by intros e [= <-] | clear buf HB; intros buf ? HB]).
  destruct (dnsname_to_labels mm buf len _ name n None) as [[[j1 b1] t1]|] eqn:E1; cbn [mbind option_bind]; [|done].
  assert (HB1 : Forall is_byte b1).
  { revert E1. unfold dnsname_to_labels. case_if; [by intros [= _ <- _]|]. by intros [? _]%labels_bytes. }
  case_if; [by intros [= _ <-]|]. do 2 (eapply append_bytes; [eassumption | by intros e [= <-] | clear dependent b1; intros b1 ? HB1]). by intros [= _ <-].
Qed.
Lemma build_total mm name id type class buf : is_cstring name -> zlen name <= 255 -> zlen buf = evdns_request_len (zlen name) -> Forall is_byte buf ->
  exists r buf', evdns_request_data_build mm name (zlen name) id type class buf (zlen buf) = Some (r, buf') /\ (0 <= r -> packet_ok (ztake r buf') = true).
Proof.
  intros Hc Hl Hb HB. destruct (build_returns mm name id type class buf Hc Hl Hb) as (r & buf' & E & Hr). exists r, buf'. split; [done|]. intros H0. apply packet_ok_true. split; [auto|]. apply Forall_take. by eapply build_bytes.
Qed.
Lemma recased_char bit c : is_char c -> EVUTIL_ISALPHA_ c = true -> is_char (if (bit : bool) then Z.lor c 0x20 else Z.land c 0xdf).
Proof.
  intros Hc Ha. unfold is_char in *.
  assert (HA := all_chars_ok (fun c => implb (EVUTIL_ISALPHA_ c) ((0 <? Z.lor c 0x20) && (Z.lor c 0x20 <? 256) && (0 <? Z.land c 0xdf) && (Z.land c 0xdf <? 256))) ltac:(vm_compute; reflexivity) c ltac:(lia)).
  cbv beta in HA. rewrite Ha in HA. cbn [implb] in HA. destruct bit; lia.
Qed.
Lemma randomize_case_ok bits name : is_cstring name -> is_cstring (randomize_case bits name) /\ zlen (randomize_case bits name) = zlen name.
Proof.
  intros Hc. unfold randomize_case, zlen. rewrite length_imap. split; [|done]. unfold is_cstring in *. rewrite Forall_lookup in *. intros i c. rewrite list_lookup_imap.
  destruct (name !! i) as [x|] eqn:E; [|done]. cbn. intros [= <-]. destruct (EVUTIL_ISALPHA_ x) eqn:Ha; [|by apply (Hc i)]. by apply recased_char; [apply (Hc i)|].
Qed.

Section New.
Context `{N : Network} {L : NetworkLaws N}.
Implicit Types (w : world).

(** ** [request_new]. *)
Definition created (a : astate) (r : nat) (q : areq) (ho : option nat) : astate :=
  {| a with a_reqs := <[r := q]> (a_reqs a);
            a_handles := match ho with Some h => alter (fun hv => {| hv with current_req := Some r |}) h (a_handles a) | None => a_handles a end;
            a_fresh := S r |}.
(** A request that may be submitted. *)
Definition submittable (a : astate) (q : areq) : Prop := a_ns q = None \/ exists s, a_ns q = Some s /\ is_Some (a_srvs a !! s) /\ 0 <= a_id q < 0xffff.
Record new_request (w w' : world) (r : nat) (ho : option nat) (type : Z) (cb : callback) : Prop := {
  nr_state : exists a1 q, moves (abs w) a1 /\ a_fresh a1 = r /\ abs w' = created a1 r q ho /\ a_type q = type /\ a_cb q = cb /\ a_handle q = ho /\ a_sound q = true /\ submittable a1 q;
  nr_reqs : forall x, x <> r -> requests w' !! x = requests w !! x
}.
Lemma at_tick_abs w t : abs (at_tick w t) = abs w.
Proof. done. Qed.
Lemma request_new_runs w ho type name flags cb : net_wf (abs w) -> room (abs w) -> is_cstring name -> (forall h, ho = Some h -> is_Some (handles w !! h)) ->
  runs (request_new ho type name flags cb) w (fun o w' => match o with None => moves (abs w) (abs w') | Some r => new_request w w' r ho type cb end).
Proof.
  intros W Hroom Hc Hho. unfold request_new. step. step. set (issuing := global_requests_inflight (base w) <? global_max_requests_inflight (base w)).
  assert (Hid : runs (if issuing then transaction_id_pick else mret 0xffff) w (fun id w' => (exists t, w' = at_tick w t) /\ (issuing = true -> 0 <= id < 0xffff))).
  { destruct issuing; [|step; split; [by exists (ticks w); destruct w | done]].
    eapply runs_mono; [apply pick_id_ok; [by apply wf_searchable|]|]; [pose proof (zlen_inflight_listed (abs w)); unfold room in Hroom; lia|]. intros id w' [Ht [Hid _]]. by split. }
  step. eapply runs_mono; [exact Hid|]. intros id w1 [[t1 ->] Hidr]. unfold mm_alloc. steps. rewrite mm_ok_law. cbn [negb]. case_if; [step; by apply moves_refl|].
  set (w2 := {| (at_tick w t1) with ticks := _ |}).
  assert (Hname : runs (if global_randomize_case (base w) then bits ← secure_rng_get_bytes (Z.to_nat ((zlen name + 7) / 8)); mret (randomize_case bits name) else mret name) w2
    (fun name' w' => (exists t, w' = at_tick w t) /\ is_cstring name' /\ zlen name' = zlen name)).
  { case_if; unfold secure_rng_get_bytes; steps; (split; [by eexists|]); [by apply randomize_case_ok | done]. }
  step. eapply runs_mono; [exact Hname|]. intros name' w3 [[t3 ->] [Hc' Hl']]. step.
  destruct (build_total (fun _ => true) name' id type CLASS_INET (replicate (Z.to_nat (evdns_request_len (zlen name'))) 0) Hc') as (rlen & buf & E1 & Hlong).
  { lia. }
  { unfold zlen. rewrite length_replicate. pose proof (zlen_nonneg name'). unfold evdns_request_len, zlen in *. lia. }
  { by apply Forall_replicate. }
  assert (Hbl : zlen (replicate (Z.to_nat (evdns_request_len (zlen name'))) 0) = evdns_request_len (zlen name')).
  { unfold zlen. rewrite length_replicate. pose proof (zlen_nonneg name'). unfold evdns_request_len, zlen in *. lia. }
  rewrite Hbl in E1. eapply runs_lift; [exact E1|]. cbn beta iota. case_if; [step; by apply moves_refl|].
  assert (Hpick : runs (if issuing then nameserver_pick else mret None) (at_tick w t3) (fun o w' => quiets (abs w) (abs w') /\ requests w' = requests w /\
    match o with Some s => is_Some (servers w' !! s) /\ issuing = true | None => True end)).
  { destruct issuing; [|step; split_and!; [by apply quiets_same | done | done]]. eapply runs_mono; [by apply pick_quiet|]. intros o w' (Hq & Hr & Hs & Ho).
    split_and!; [done | done |]. destruct o as [s|]; [rewrite Hs; split; done | done]. }
  step. eapply runs_mono; [exact Hpick|]. intros o w4 (Hq4 & Hr4 & Ho4). steps. pose proof (moves_quiets _ _ W Hq4) as M4.
  assert (Hgo : forall w5, abs w5 = created (abs w4) (fresh w4) (AReq o id true type cb ho) ho -> (forall x, x <> fresh w4 -> requests w5 !! x = requests w4 !! x) -> new_request w w5 (fresh w4) ho type cb).
  { intros w5 E5 HR5. split; [|intros x Hx; by rewrite HR5, Hr4]. exists (abs w4), (AReq o id true type cb ho). split_and!; try done. destruct o as [s|]; [|by left]. right. exists s. destruct Ho4 as [[n En] Hi]. split_and!; [done | | by apply Hidr ..].
    exists (abs_srv n). by apply servers_abs. }
  assert (HR : forall v x, x <> fresh w4 -> <[fresh w4 := v]> (requests w4) !! x = requests w4 !! x) by (intros; by rewrite lookup_insert_ne).
  assert (Hab : forall hd, abs_req (Request (ztake rlen buf) type 0 0 cb o None id false hd) = AReq o id true type cb hd) by (intros hd; unfold abs_req, timer_ok; cbn; rewrite (Hlong ltac:(lia)); by destruct o).
  destruct ho as [h|]; [|step; steps; apply Hgo; [|by apply HR]; unfold abs, created; cbn; by rewrite fmap_insert, Hab].
  destruct (Hho h eq_refl) as [hv Ehv]. assert (Ehv4 : handles w4 !! h = Some hv) by (pose proof (memory_handles _ _ (mv_memory _ _ M4)) as HH; cbn in HH; by rewrite HH).
  eapply runs_set_handle; [exact Ehv4|]. step. apply Hgo; [|by apply HR]. unfold abs, created. cbn. rewrite fmap_insert, Hab. f_equal.
  apply map_eq. intros x. destruct (decide (x = h)) as [->|]; [by rewrite lookup_insert_eq, lookup_alter_eq, Ehv4 | by rewrite lookup_insert_ne, lookup_alter_ne].
Qed.

(** ** [request_submit]. *)
Record entered (a a' : astate) (r : nat) : Prop := {
  et_memory : memory a' = memory a;
  et_listed : listed a' ≡ₚ r :: listed a;
  et_in : forall x, x ∈ inflight a -> x ∈ inflight a';
  et_down : forall s, down a s -> down a' s;
  et_wf : net_wf a'
}.
Lemma submit_runs w r v : net_wf (abs w) -> r ∉ listed (abs w) -> requests w !! r = Some v -> valid (abs w) r -> submittable (abs w) (abs_req v) ->
  runs (request_submit r) w (fun _ w' => entered (abs w) (abs w') r).
Proof.
  intros W Hr Ev Hv Hs. unfold request_submit. step. apply runs_valid; [done|]. steps. destruct (ns v) as [s|] eqn:Ens.
  - destruct Hs as [Hs|(s' & Hs & [n Hn] & Hid)]; [cbn in Hs; congruence|]. cbn in Hs. assert (s' = s) as -> by congruence. destruct (abs_srvs_Some _ _ _ Hn) as (nv & En & <-).
    unfold evdns_request_insert. step. step. apply runs_valid; [done|]. unfold REQ_HEAD, get_queue. steps. destruct (head_index (req_heads (base w)) (trans_id v) (nw_heads _ W)) as [l Hl].
    eapply runs_lift; [exact Hl|]. steps. match goal with |- runs _ ?x _ => set (w1 := x) end.
    destruct (enlist_in_wf (abs w) r (abs_req v) s (abs_srv nv) W Hr (requests_abs _ _ _ Ev) Ens Hn Hid Hv) as [W1 HP1].
    assert (E1 : abs w1 = enlist_in (abs w) r (a_id (abs_req v)) s (abs_srv nv)) by (unfold abs, enlist_in; cbn; by rewrite (alter_is_insert _ _ _ _ Hl), fmap_insert).
    rewrite <- E1 in W1, HP1. assert (Hr1 : r ∈ inflight (abs w1)) by (rewrite E1, enlist_in_perm by apply W; left).
    eapply runs_mono; [by apply transmit_quiet|]. intros code w2 Hq. step. pose proof (moves_quiets _ _ W1 Hq) as [HM HL Hin Hd _ W2]. split.
    + rewrite HM, E1. unfold memory, enlist_in. cbn. f_equal. by apply (s_probe_same _ _ (abs_srv nv)).
    + by rewrite HL, HP1.
    + intros x Hx. apply Hin. rewrite E1, enlist_in_perm by apply W. by right.
    + intros x Hx. apply Hd. rewrite E1. by apply (down_insert (abs w) s (abs_srv nv)).
    + done.
  - unfold evdns_request_insert. step. step. apply runs_valid; [done|]. unfold get_queue. steps. pose proof (enlist_wait_wf (abs w) r (abs_req v) W Hr (requests_abs _ _ _ Ev) Ens Hv) as W1.
    split; try done. exact (enlist_wait_perm (abs w) r).
Qed.

(** ** New requests and handles in memory. *)
Definition m_create (m : mem) (r : nat) (t : Z) (cb : callback) (h : nat) (hv : evdns_request) (f : nat) : mem :=
  {| m with m_reqs := <[r := (t, cb, Some h)]> (m_reqs m); m_handles := <[h := hv]> (m_handles m); m_fresh := f |}.
Lemma create_wf m r t cb h hv f : mem_wf m -> (m_fresh m <= r)%nat -> (m_fresh m <= h)%nat -> (r < f)%nat -> (h < f)%nat -> known_type t ->
  (forall s, cb = Probe s -> is_Some (m_probes m !! s)) -> current_req hv = Some r -> pending_cb hv = false -> search_state hv = None -> mem_wf (m_create m r t cb h hv f).
Proof.
  intros W Hr Hh Hrf Hhf Ht Hcb Hc Hp Hs. destruct (mw_fresh m W r Hr) as (Fr & _). destruct (mw_fresh m W h Hh) as (_ & _ & Fh & _). destruct W. split; unfold m_create; cbn.
  - intros x t0 cb0 o. rewrite lookup_insert_Some. intros [[<- [= <- <- <-]]|[Hx Hx0]]; [split; [done|]; exists h, hv; by rewrite lookup_insert_eq|].
    destruct (mw_req x t0 cb0 o Hx0) as (Ht0 & h0 & hv0 & -> & Hh0 & Hc0). split; [done|]. exists h0, hv0. rewrite lookup_insert_ne; [done | congruence].
  - intros x xv y. rewrite lookup_insert_Some. intros [[<- <-]|[Hx Hx0]] Hy; [assert (y = r) as -> by congruence; rewrite lookup_insert_eq; eauto|].
    destruct (mw_handle x xv y Hx0 Hy) as (t0 & cb0 & Hy0). exists t0, cb0. rewrite lookup_insert_ne; [done | congruence].
  - intros x xv. rewrite lookup_insert_Some. intros [[<- <-]|[Hx Hx0]] Hy; [congruence | eauto].
  - done.
  - apply (mem_ok_iff _ (fun x => exists xv, m_handles m !! x = Some xv /\ pending_cb xv = true)); [|done]. intros x.
    destruct (decide (x = h)) as [->|]; [rewrite lookup_insert_eq; split; intros (xv & Ex & Hpx); congruence | by rewrite lookup_insert_ne].
  - intros s x Hx. destruct (mw_probe s x Hx) as [[xv Hxv] Hpr]. assert (Hne : x <> h) by congruence. rewrite lookup_insert_ne by done. split; [by eexists|].
    destruct Hpr as [(yv & y & ty & Hy & Hcy & Hry)|Hd]; [|by right]. left. exists yv, y, ty. cbn. rewrite !lookup_insert_ne; [done | congruence | done].
  - intros x t0 s o. rewrite lookup_insert_Some. intros [[_ [= _ Hcb0 _]]|[_ Hx]]; [auto | eauto].
  - done.
  - intros s v Hv. destruct (mw_refs s v Hv) as (HT & Hrest). split; [|done]. apply (total_ext (refs m s)); [|done]. intros x. unfold refs. cbn.
    destruct (decide (x = h)) as [->|]; [by rewrite lookup_insert_eq, Fh, Hs | by rewrite lookup_insert_ne].
  - intros x xv s. rewrite lookup_insert_Some. intros [[<- <-]|[Hx Hx0]] Hss; [congruence | eauto].
  - done.
  - intros x Hx. destruct (mw_fresh x ltac:(lia)) as (F1 & F2 & F3 & F4). split_and!; try done; rewrite lookup_insert_ne; done || lia.
Qed.
(** One callback more is owed. *)
Definition starts (cb : callback) (m m' : mem) : Prop := forall arg n, account m arg n -> account m' arg (n + user_arg cb arg).
Lemma starts_accounts cb m m1 m' : starts cb m m1 -> accounts m1 m' -> starts cb m m'.
Proof. intros H1 H2 arg n HA. by apply H2, H1. Qed.
Lemma accounts_starts cb m m1 m' : accounts m m1 -> starts cb m1 m' -> starts cb m m'.
Proof. intros H1 H2 arg n HA. by apply H2, H1. Qed.
Lemma create_starts m r t cb h hv f : mem_wf m -> (m_fresh m <= r)%nat -> (m_fresh m <= h)%nat -> pending_cb hv = false -> starts cb m (m_create m r t cb h hv f).
Proof.
  intros W Hr Hh Hp arg n (k & HT & ->). destruct (mw_fresh m W r Hr) as (Fr & _). destruct (mw_fresh m W h Hh) as (_ & _ & Fh & _). exists (k + user_arg cb arg). split; [|unfold m_create; cbn [m_deferred m_calls]; lia].
  apply (total_update (owes m arg) _ k _ r); [|done|].
  - intros x Hx. unfold owes. cbn. rewrite lookup_insert_ne by done. destruct (m_reqs m !! x) as [[[t0 cb0] o]|] eqn:Ex; [|done]. destruct (mw_req m W x t0 cb0 o Ex) as (_ & h0 & hv0 & -> & Hh0 & _).
    rewrite lookup_insert_ne; [done | congruence].
  - unfold owes. cbn. rewrite !lookup_insert_eq, Fr, Hp. lia.
Qed.
Definition m_attach (m : mem) (h : nat) (hv : evdns_request) (s : nat) (v : search_list) : mem :=
  {| m with m_handles := <[h := hv]> (m_handles m); m_searches := <[s := {| v with refcount := refcount v + 1 |}]> (m_searches m) |}.
Lemma attach_wf m h hv hv' s v : mem_wf m -> m_handles m !! h = Some hv -> search_state hv = None -> current_req hv' = current_req hv -> pending_cb hv' = pending_cb hv ->
  search_state hv' = Some s -> (exists name, search_origname hv' = Some name /\ is_cstring name) -> -1 <= search_index hv' -> current_req hv <> None -> m_searches m !! s = Some v -> mem_wf (m_attach m h hv' s v).
Proof.
  intros W Hh Hs0 Hc Hp Hs Ho Hi Hlive Hv.
  assert (Hback : forall x xv, m_handles m !! x = Some xv -> exists xv', <[h := hv']> (m_handles m) !! x = Some xv' /\ current_req xv' = current_req xv /\ pending_cb xv' = pending_cb xv).
  { intros x xv Hx. destruct (decide (x = h)) as [->|]; [rewrite lookup_insert_eq; exists hv'; simplify_eq; by split | rewrite lookup_insert_ne by done; by exists xv]. }
  assert (Hdom : forall x, is_Some (<[s := {| v with refcount := refcount v + 1 |}]> (m_searches m) !! x) <-> is_Some (m_searches m !! x)) by (intros x; by apply (dom_insert_same _ s v)).
  assert (Hrefs : forall t x, refs (m_attach m h hv' s v) t x = refs m t x + if decide (x = h) then (if decide (t = s) then 1 else 0) else 0).
  { intros t x. unfold refs. cbn. destruct (decide (x = h)) as [->|]; [|rewrite lookup_insert_ne by done; lia]. rewrite lookup_insert_eq, Hh, Hs0, Hs. rewrite (decide_False (P := None = Some t)) by done.
    destruct (decide (t = s)) as [->|]; [by rewrite decide_True | by rewrite decide_False by congruence]. }
  destruct W. split; unfold m_attach in *; cbn in *.
  - intros x t0 cb0 o Hx. destruct (mw_req x t0 cb0 o Hx) as (Ht0 & h0 & hv0 & -> & Hh0 & Hc0). split; [done|]. destruct (Hback _ _ Hh0) as (xv' & Hx' & Hcx & _). exists h0, xv'. by rewrite Hcx.
  - intros x xv y. rewrite lookup_insert_Some. intros [[<- <-]|[Hx Hx0]] Hy; [rewrite Hc in Hy; eauto | eauto].
  - intros x xv. rewrite lookup_insert_Some. intros [[<- <-]|[Hx Hx0]] Hy; [congruence | eauto].
  - done.
  - apply (mem_ok_iff _ (fun x => exists xv, m_handles m !! x = Some xv /\ pending_cb xv = true)); [|done]. intros x.
    destruct (decide (x = h)) as [->|]; [rewrite lookup_insert_eq, Hh; split; intros (xv & [= <-] & Hpx); (eexists; split; [done | congruence]) | by rewrite lookup_insert_ne].
  - intros t x Hx. destruct (mw_probe t x Hx) as [[xv Hxv] Hpr]. destruct (Hback _ _ Hxv) as (xv' & Hx' & _). split; [by eexists|].
    destruct Hpr as [(yv & y & ty & Hy & Hcy & Hry)|Hd]; [|by right]. destruct (Hback _ _ Hy) as (yv' & Hy' & Hcy' & _). left. exists yv', y, ty. cbn. by rewrite Hcy'.
  - done.
  - done.
  - intros t u. rewrite lookup_insert_Some. intros [[<- <-]|[Ht Hu]].
    + destruct (mw_refs s v Hv) as (HT & Hpos & Hn). cbn. split; [|split; [lia | done]]. apply (total_here (refs m s) _ _ _ h 1 HT); [intros x Hx; rewrite Hrefs, decide_False by done; lia | rewrite Hrefs, !decide_True by done; lia | unfold global_ref; cbn; lia].
    + destruct (mw_refs t u Hu) as (HT & Hrest). split; [|done]. apply (total_ext (refs m t)); [|done]. intros x. rewrite Hrefs. destruct (decide (x = h)); [rewrite decide_False by congruence; lia | lia].
  - intros x xv t. rewrite Hdom. rewrite lookup_insert_Some. intros [[<- <-]|[Hx Hx0]] Hss; [|eauto]. assert (t = s) as -> by congruence. split; [by eexists | by split].
  - intros t Ht. rewrite Hdom. auto.
  - intros x Hx. destruct (mw_fresh x Hx) as (F1 & F2 & F3 & F4). split_and!; try done; rewrite lookup_insert_ne; try done; congruence.
Qed.
Lemma fresh_handle_wf m f : mem_wf m -> (m_fresh m <= f)%nat -> mem_wf {| m with m_fresh := f |}.
Proof. intros [] Hf. split; try done. cbn. intros x Hx. apply mw_fresh. lia. Qed.
End New.

(** * Lookups that start

    A handle and its request are made, attached to a search and submitted. *)
(** ** A request that is not on a list yet. *)
Record wf_open (E : nat -> Prop) (a : astate) (r : nat) : Prop := {
  wo_net : net_wf a;
  wo_mem : mem_wf (memory a);
  wo_owned : forall x q, a_reqs a !! x = Some q -> x = r \/ x ∈ listed a;
  wo_not : r ∉ listed a;
  wo_settled : forall h hv x, a_handles a !! h = Some hv -> current_req hv = Some x -> pending_cb hv = true -> E x
}.
(** At most one request more. *)
Definition grown (a a' : astate) : Prop := zlen (listed a') <= zlen (listed a) + 1.
Lemma entered_wf E a a' r : entered a a' r -> wf_open E a r -> wf_but E a'.
Proof.
  intros [HM HL Hin Hd W'] [W Wm Wo Wn Ws]. split; [done | by rewrite HM | |].
  - intros x q Hq. rewrite HL. pose proof (memory_reqs a a' x HM) as HR. rewrite Hq in HR. destruct (a_reqs a !! x) as [q0|] eqn:E0; [|done].
    destruct (Wo x q0 E0) as [->|Hx]; [left | by right].
  - rewrite (memory_handles a a' HM). exact Ws.
Qed.
Lemma entered_grown a a' r : entered a a' r -> grown a a'.
Proof. intros [_ HL _ _ _]. apply zlen_perm in HL. unfold grown, zlen in *. cbn in HL. lia. Qed.
Lemma open_valid E a r q : wf_open E a r -> a_reqs a !! r = Some q -> valid a r.
Proof.
  intros [_ Wm _ _ _] Hq. destruct (mw_req _ Wm r (a_type q) (a_cb q) (a_handle q)) as (_ & h & hv & Hh & Hhv & Hc); [cbn; by rewrite lookup_fmap, Hq|]. by exists q, h, hv.
Qed.

(** ** A new handle. *)
Definition empty_handle : evdns_request := Handle None false 0 None None 0.
Definition opened (a : astate) (h : nat) : astate := {| a with a_handles := <[h := empty_handle]> (a_handles a); a_fresh := S h |}.
Lemma net_wf_handles a hs : net_wf a -> (forall r, r ∈ listed a -> valid {| a with a_handles := hs |} r) -> net_wf {| a with a_handles := hs |}.
Proof. intros W Hv. by apply (net_wf_other a hs (a_searches a) (a_deferred a) (a_calls a) (a_fresh a) (a_search a) (a_max a)). Qed.
(** Handles whose request is not listed do not matter. *)
Lemma valid_insert a h hv x : valid a x -> (forall hv0, a_handles a !! h = Some hv0 -> current_req hv0 <> Some x) -> valid {| a with a_handles := <[h := hv]> (a_handles a) |} x.
Proof. intros (q & h0 & hv0 & Hq & Hh0 & Hhv0 & Hc) Hne. exists q, h0, hv0. cbn. rewrite lookup_insert_ne; [done|]. intros <-. by apply (Hne hv0). Qed.
Lemma opened_net a : net_wf a -> mem_wf (memory a) -> net_wf (opened a (a_fresh a)).
Proof.
  intros W Wm. destruct (mw_fresh _ Wm (a_fresh a) (le_n _)) as (_ & _ & Fh & _). cbn in Fh.
  apply (net_wf_other a (<[a_fresh a := empty_handle]> (a_handles a)) (a_searches a) (a_deferred a) (a_calls a) (S (a_fresh a)) (a_search a) (a_max a) W).
  intros x Hx. apply valid_insert; [by apply W|]. intros hv0 Hh. congruence.
Qed.
Lemma created_net a r q ho : net_wf a -> r ∉ listed a -> a_sound q = true -> (forall h, ho = Some h -> exists hv, a_handles a !! h = Some hv /\ current_req hv = None) -> net_wf (created a r q ho).
Proof.
  intros W Hr Hq Hho. pose proof (edit_wf a r q W Hr Hq) as We.
  apply (net_wf_other (edit a r q) (match ho with Some h => alter (fun hv => {| hv with current_req := Some r |}) h (a_handles a) | None => a_handles a end)
    (a_searches a) (a_deferred a) (a_calls a) (S r) (a_search a) (a_max a) We).
  intros x Hx. assert (Hv : valid (edit a r q) x) by by apply We. destruct ho as [h|]; [|done]. destruct (Hho h eq_refl) as (hv & Hh & Hc).
  destruct Hv as (q0 & h0 & hv0 & Hq0 & Hh0 & Hhv0 & Hc0). exists q0, h0, hv0. cbn in *. rewrite lookup_alter_ne; [done|]. congruence.
Qed.
Lemma fresh_unlisted a r : net_wf a -> a_reqs a !! r = None -> r ∉ listed a.
Proof. intros W Hr Hin. destruct (nw_valid a W r Hin) as (q & _ & _ & Hq & _). congruence. Qed.

Section Start.
Context `{N : Network} {L : NetworkLaws N}.
Implicit Types (w : world).

Lemma submit_wf E w r v : wf_open E (abs w) r -> requests w !! r = Some v -> submittable (abs w) (abs_req v) ->
  runs (request_submit r) w (fun _ w' => wf_but E (abs w') /\ entered (abs w) (abs w') r).
Proof.
  intros WO Ev Hs. eapply runs_mono; [apply (submit_runs w r v); [apply WO | apply WO | done | | done]|].
  - by apply (open_valid E _ r (abs_req v)), requests_abs.
  - intros [] w' HE. split; [by apply (entered_wf E (abs w) _ r) | done].
Qed.

(** The state with a request of the new handle [h]. *)
Record started (E : nat -> Prop) (w0 w2 : world) (r h : nat) (type : Z) (cb : callback) : Prop := {
  sd_open : wf_open E (abs w2) r;
  sd_req : exists v, requests w2 !! r = Some v /\ submittable (abs w2) (abs_req v) /\ packet_ok (packet v) = true /\ r_mem (abs_req v) = (type, cb, Some h);
  sd_handle : handles w2 !! h = Some {| empty_handle with current_req := Some r |};
  sd_listed : listed (abs w2) ≡ₚ listed (abs w0);
  sd_servers : forall s, is_Some (servers w0 !! s) -> is_Some (servers w2 !! s);
  sd_searches : searches w2 = searches w0 /\ global_search_state (base w2) = global_search_state (base w0);
  sd_starts : starts cb (memory (abs w0)) (memory (abs w2))
}.
Lemma moves_servers w w' s : moves (abs w) (abs w') -> is_Some (servers w !! s) -> is_Some (servers w' !! s).
Proof.
  intros M [n En]. pose proof (memory_probes _ _ s (mv_memory _ _ M)) as HM. cbn in HM. rewrite !lookup_fmap, En in HM.
  destruct (servers w' !! s); [by eexists | done].
Qed.
Lemma start_runs E w0 w1 h type name flags cb : wf_but E (abs w0) -> room (abs w0) -> h = fresh w0 -> abs w1 = opened (abs w0) h -> is_cstring name -> known_type type ->
  (forall s, cb = Probe s -> is_Some (servers w0 !! s)) ->
  runs (request_new (Some h) type name flags cb) w1 (fun o w2 => match o with None => moves (abs w1) (abs w2) | Some r => started E w0 w2 r h type cb end).
Proof.
  intros WF Hroom -> E1 Hc Ht Hcb. assert (W1 : net_wf (abs w1)) by (rewrite E1; apply opened_net; apply WF).
  assert (Ehv1 : handles w1 !! fresh w0 = Some empty_handle) by (change (handles w1) with (a_handles (abs w1)); rewrite E1; apply lookup_insert_eq).
  eapply runs_mono; [apply request_new_runs; [done | by rewrite E1 | done | intros h [= <-]; by eexists]|].
  intros [r|] w2; [|done]. intros [(a1 & q & M & Hfr & E2 & Hqt & Hqc & Hqh & Hql & Hsub) _]. pose proof (mv_memory _ _ M) as HM.
  assert (Hf1 : a_fresh a1 = S (fresh w0)) by (apply (f_equal m_fresh) in HM; cbn in HM; rewrite HM; change (fresh w1) with (a_fresh (abs w1)); by rewrite E1).
  assert (Hr0 : forall x, (fresh w0 <= x)%nat -> a_reqs a1 !! x = None).
  { intros x Hx. pose proof (memory_reqs _ _ x HM) as HR. rewrite E1 in HR. cbn in HR. destruct (mw_fresh _ (wf_mem _ _ WF) x Hx) as (F & _). cbn in F. rewrite lookup_fmap in F. rewrite <- (fmap_None r_mem). rewrite HR. exact F. }
  assert (Hh1 : a_handles a1 !! fresh w0 = Some empty_handle) by (rewrite (memory_handles _ _ HM); exact Ehv1).
  assert (Hnot : r ∉ listed a1) by (apply fresh_unlisted; [apply M | apply Hr0; lia]).
  assert (Em : memory (abs w2) = m_create (memory (abs w0)) r type cb (fresh w0) {| empty_handle with current_req := Some r |} (S r)).
  { rewrite E2. assert (HM0 : memory a1 = memory (opened (abs w0) (fresh w0))) by by rewrite <- E1. unfold memory in HM0 at 1. injection HM0 as H1 H2 H3 H4 H5 H6 H7 H8.
    unfold memory, created, m_create. cbn. rewrite fmap_insert, H1, H2, H3, H5, H6, H7. f_equal; [unfold r_mem; by rewrite Hqt, Hqc, Hqh|].
    rewrite H4. unfold opened. cbn. apply map_eq. intros x. destruct (decide (x = fresh w0)) as [->|]; [by rewrite lookup_alter_eq, !lookup_insert_eq | by rewrite lookup_alter_ne, !lookup_insert_ne]. }
  assert (Hlist : listed (abs w2) ≡ₚ listed (abs w0)) by (rewrite E2; change (listed (created a1 r q (Some (fresh w0)))) with (listed a1); by rewrite (mv_listed _ _ M), E1).
  split.
  - split.
    + rewrite E2. apply created_net; [apply M | done | done |]. intros h [= <-]. by exists empty_handle.
    + rewrite Em. apply create_wf; try done; cbn; try lia; [apply WF|]. intros s Hs. rewrite !lookup_fmap, !fmap_is_Some. by apply Hcb.
    + intros x qx Hx. rewrite Hlist. destruct (decide (x = r)) as [->|Hne]; [by left | right].
      pose proof (f_equal m_reqs Em) as HR. cbn in HR. apply (f_equal (fun m => m !! x)) in HR. rewrite lookup_insert_ne in HR by done. change (abs_req <$> requests w2) with (a_reqs (abs w2)) in HR.
      rewrite lookup_fmap, Hx in HR. cbn in HR. rewrite lookup_fmap in HR. destruct ((abs_req <$> requests w0) !! x) as [q0|] eqn:E0; [|done]. by apply (wf_owned _ _ WF x q0).
    + rewrite E2. exact Hnot.
    + intros h hv x Hh Hx Hp. pose proof (f_equal m_handles Em) as HH. cbn in HH. cbn in Hh. rewrite HH in Hh. apply lookup_insert_Some in Hh as [[<- <-]|[Hne Hh]]; [done|]. by apply (wf_settled _ _ WF h hv).
  - assert (Hq : a_reqs (abs w2) !! r = Some q) by (rewrite E2; apply lookup_insert_eq). destruct (abs_reqs_Some _ _ _ Hq) as (v & Ev & <-). exists v. split; [done|]. split; [|split; [by apply andb_true_iff in Hql as [? _] | unfold r_mem; by rewrite Hqt, Hqc, Hqh]].
    destruct Hsub as [Hs|(s & Hs & Hn & Hid)]; [by left | right; exists s]. split; [done|]. split; [|done]. by rewrite E2.
  - pose proof (f_equal m_handles Em) as HH. cbn in HH. rewrite HH. apply lookup_insert_eq.
  - done.
  - intros s [n En]. pose proof (f_equal m_probes Em) as HP. cbn in HP. apply (f_equal (fun m => m !! s)) in HP. rewrite !lookup_fmap, En in HP. destruct (servers w2 !! s); [by eexists | done].
  - split; [by apply (f_equal m_searches) in Em | by apply (f_equal m_search) in Em].
  - rewrite Em. apply create_starts; [apply WF | cbn; lia | done | done].
Qed.

(** ** The functions that start lookups. *)
Lemma new_handle_runs w : runs new_handle w (fun o w' => o = Some (fresh w) /\ abs w' = opened (abs w) (fresh w)).
Proof. unfold new_handle, mm_alloc. steps. rewrite mm_ok_law. cbn [negb]. by steps. Qed.
(** What a call leaves: the handle is unused, or its request is in a queue. *)
Inductive handled (E : nat -> Prop) (cb : callback) (w0 w1 w' : world) (h : nat) : Prop :=
| unused : moves (abs w1) (abs w') -> handled E cb w0 w1 w' h
| in_use hv r : wf_but E (abs w') -> handles w' !! h = Some hv -> current_req hv = Some r -> pending_cb hv = false -> grown (abs w0) (abs w') -> starts cb (memory (abs w0)) (memory (abs w')) -> handled E cb w0 w1 w' h.
Lemma submitted_handled E w0 w1 w2 r h type cb : started E w0 w2 r h type cb -> runs (request_submit r) w2 (fun _ w' => handled E cb w0 w1 w' h).
Proof.
  intros [WO (v & Ev & Hs & _) Ehv HL _ _ Hst]. eapply runs_mono; [by apply (submit_wf E w2 r v)|]. intros [] w' [WF HE].
  eapply (in_use E cb w0 w1 w' h {| empty_handle with current_req := Some r |} r); [done | | done | done | |by rewrite (et_memory _ _ _ HE)].
  - pose proof (memory_handles _ _ (et_memory _ _ _ HE)) as HH. cbn in HH. by rewrite HH.
  - apply entered_grown in HE. unfold grown in *. by rewrite <- (zlen_perm _ _ HL).
Qed.
Lemma plain_handled E w0 w1 h type name flags cb : wf_but E (abs w0) -> room (abs w0) -> h = fresh w0 -> abs w1 = opened (abs w0) h -> is_cstring name -> known_type type ->
  (forall s, cb = Probe s -> is_Some (servers w0 !! s)) -> runs (resolve_plain h type name flags cb) w1 (fun _ w' => handled E cb w0 w1 w' h).
Proof.
  intros WF Hroom Hh E1 Hc Ht Hcb. unfold resolve_plain. step. eapply runs_mono; [by apply (start_runs E w0)|]. intros [r|] w2 HS; [by eapply submitted_handled | step; by apply unused].
Qed.
Lemma free_unused E w0 w1 w2 h : wf_but E (abs w0) -> h = fresh w0 -> abs w1 = opened (abs w0) h -> moves (abs w1) (abs w2) ->
  runs (free_handle h) w2 (fun _ w' => wf_but E (abs w') /\ grown (abs w0) (abs w') /\ accounts (memory (abs w0)) (memory (abs w'))).
Proof.
  intros WF -> E1 M. pose proof (mv_memory _ _ M) as HM. rewrite E1 in HM. pose proof (f_equal m_handles HM) as HH. cbn in HH. eapply runs_free_handle; [rewrite HH; apply lookup_insert_eq|].
  destruct (mw_fresh _ (wf_mem _ _ WF) (fresh w0) (le_n _)) as (_ & _ & Fh & _). cbn in Fh.
  assert (Hdel : delete (fresh w0) (handles w2) = handles w0) by (rewrite HH; by rewrite delete_insert_id).
  match goal with |- wf_but E (abs ?x) /\ _ => set (w3 := x) end. assert (E3 : abs w3 = {| (abs w2) with a_handles := handles w0 |}) by (unfold abs, w3; cbn; by rewrite Hdel).
  assert (Em3 : memory (abs w3) = {| (memory (abs w0)) with m_fresh := S (fresh w0) |}).
  { rewrite E3. change (memory {| (abs w2) with a_handles := handles w0 |}) with {| (memory (abs w2)) with m_handles := handles w0 |}. by rewrite HM. }
  assert (HL : listed (abs w3) ≡ₚ listed (abs w0)) by (rewrite E3; change (listed {| (abs w2) with a_handles := handles w0 |}) with (listed (abs w2)); by rewrite (mv_listed _ _ M), E1).
  split_and!; [| | rewrite Em3; by apply accounts_same].
  - split.
    + rewrite E3. apply net_wf_handles; [apply M|]. intros x Hx. destruct (nw_valid _ (mv_wf _ _ M) x Hx) as (q & h & hv & Hq & Hh & Hhv & Hc). exists q, h, hv. cbn in *. split_and!; try done.
      rewrite HH in Hhv. apply lookup_insert_Some in Hhv as [[<- <-]|[_ Hhv]]; done.
    + rewrite Em3. apply fresh_handle_wf; [apply WF | cbn; lia].
    + intros x q Hq. rewrite HL. pose proof (f_equal m_reqs Em3) as HR. cbn in HR. apply (f_equal (fun m => m !! x)) in HR. rewrite !lookup_fmap in HR. cbn in Hq. rewrite lookup_fmap in Hq. rewrite Hq in HR.
      destruct (requests w0 !! x) as [v0|] eqn:E0; [|done]. by apply (wf_owned _ _ WF x (abs_req v0)), requests_abs.
    + intros h hv x Hh. rewrite E3 in Hh. by apply (wf_settled _ _ WF h hv).
  - unfold grown. rewrite (zlen_perm _ _ HL). lia.
Qed.
(** What a lookup of the user leaves. *)
Definition live_handle (w : world) (h : nat) : Prop := exists hv r, handles w !! h = Some hv /\ current_req hv = Some r /\ pending_cb hv = false.
Definition begun (E : nat -> Prop) (cb : callback) (w : world) (o : option nat) (w' : world) : Prop :=
  wf_but E (abs w') /\ grown (abs w) (abs w') /\
  match o with Some h => live_handle w' h /\ starts cb (memory (abs w)) (memory (abs w')) | None => accounts (memory (abs w)) (memory (abs w')) end.
Lemma or_null_wf E cb w0 w1 w2 h : wf_but E (abs w0) -> h = fresh w0 -> abs w1 = opened (abs w0) h -> handled E cb w0 w1 w2 h ->
  runs (or_null h) w2 (begun E cb w0).
Proof.
  intros WF -> E1 [M|hv r WF2 Ehv Hc Hp Hg Hst]; unfold or_null; step.
  2: { eapply runs_get_handle; [exact Ehv|]. rewrite Hc. steps. split; [done|]. split; [done|]. split; [by exists hv, r | done]. }
  pose proof (mv_memory _ _ M) as HM. rewrite E1 in HM. pose proof (f_equal m_handles HM) as HH. cbn in HH.
  eapply runs_get_handle; [rewrite HH; apply lookup_insert_eq|]. cbn [current_req empty_handle]. step.
  eapply runs_mono; [by apply (free_unused E w0 w1 w2)|]. intros [] w3 (WF3 & HG & HA). by step.
Qed.
(** ** Searches. *)
Lemma make_new_runs w st n name : is_cstring name -> Forall is_cstring (domains st) -> 0 <= n < zlen (domains st) ->
  runs (search_make_new st n name) w (fun o w' => (exists t, w' = at_tick w t) /\ forall new, o = Some new -> is_cstring new).
Proof.
  intros Hc Hd Hn. unfold search_make_new. destruct (last name) as [c|]; [|step; split; [by exists (ticks w); destruct w | done]]. destruct (lookup_lt_is_Some_2 (domains st) (Z.to_nat n)) as [dom Hdom]; [unfold zlen in Hn; lia|].
  step. eapply runs_lift; [exact Hdom|]. unfold mm_alloc. steps. rewrite mm_ok_law. split; [by eexists|]. intros new [= <-]. unfold is_cstring in *. apply Forall_app. split; [done|]. apply Forall_app. split.
  - case_if; [constructor|]. constructor; [done | constructor].
  - rewrite Forall_lookup in Hd. by apply (Hd (Z.to_nat n)).
Qed.

(** The handle of an open request is attached to a search. *)
Definition attach_handle (r : nat) (i : Z) (s : nat) (name : list Z) (flags : Z) : evdns_request := Handle (Some r) false i (Some s) (Some name) flags.
Lemma attach_open E w w3 r h hv s v i name flags : wf_open E (abs w) r -> handles w !! h = Some hv -> current_req hv = Some r -> pending_cb hv = false -> search_state hv = None ->
  searches w !! s = Some v -> is_cstring name -> -1 <= i ->
  abs w3 = {| (abs w) with a_handles := <[h := attach_handle r i s name flags]> (handles w); a_searches := <[s := {| v with refcount := refcount v + 1 |}]> (searches w) |} -> wf_open E (abs w3) r.
Proof.
  intros [W Wm Wo Wn Ws] Ehv Hc Hp Hs0 Ev Hcs Hi E3. rewrite E3. split; [ | | exact Wo | exact Wn |].
  - apply (net_wf_other (abs w) (<[h := attach_handle r i s name flags]> (handles w)) (<[s := {| v with refcount := refcount v + 1 |}]> (searches w)) (deferred w) (calls w) (fresh w) (global_search_state (base w)) (global_max_requests_inflight (base w)) W).
    intros x Hx. apply valid_insert; [by apply W|]. intros hv0 Hh0. cbn in Hh0. assert (hv0 = hv) as -> by congruence. rewrite Hc. intros [= ->]. done.
  - apply (attach_wf (memory (abs w)) h hv (attach_handle r i s name flags) s v); try done; [by exists name | by rewrite Hc].
  - intros x xv y. cbn. rewrite lookup_insert_Some. intros [[<- <-]|[_ Hx]]; [done | apply (Ws x xv y Hx)].
Qed.
Lemma attach_runs E w0 w1 w2 r h type cb i s name flags : started E w0 w2 r h type cb -> is_Some (searches w2 !! s) -> is_cstring name -> -1 <= i ->
  runs (o ← (set_handle h (fun hv => {| hv with search_index := i |});; mret (Some r));
        match o with
        | None => mret None
        | Some r =>
            hv ← get_handle h; assert (bool_decide (search_origname hv = None));;
            ok ← mm_alloc;
            if negb ok then free_req r;; mret None
            else
              set_handle h (fun hv => {| hv with search_origname := Some name; search_state := Some s; search_flags := flags |});;
              set_search s (fun v => {| v with refcount := refcount v + 1 |});;
              request_submit r;; mret (Some r)
        end) w2 (fun _ w' => handled E cb w0 w1 w' h).
Proof.
  intros [WO (u & Eu & Hsub & _) Ehv HL _ _ Hst] [v Ev] Hcs Hi. steps. eapply runs_get_handle; [apply lookup_insert_eq|]. step. apply runs_assert; [done|]. unfold mm_alloc. steps. rewrite mm_ok_law. cbn [negb]. step.
  eapply runs_set_handle; [apply lookup_insert_eq|]. steps. match goal with |- runs _ ?x _ => set (w3 := x) end.
  assert (E3 : abs w3 = {| (abs w2) with a_handles := <[h := attach_handle r i s name flags]> (handles w2); a_searches := <[s := {| v with refcount := refcount v + 1 |}]> (searches w2) |}).
  { unfold abs, w3. cbn. by rewrite insert_insert_eq. }
  pose proof (attach_open E w2 w3 r h _ s v i name flags WO Ehv eq_refl eq_refl eq_refl Ev Hcs Hi E3) as WO3.
  eapply runs_mono; [apply (submit_wf E w3 r u WO3 Eu)|]; [rewrite E3; exact Hsub|]. intros [] w4 [WF HE]. step.
  apply (in_use E cb w0 w1 w4 h (attach_handle r i s name flags) r); [done | | done | done | |].
  3: { rewrite (et_memory _ _ _ HE). apply (starts_accounts _ _ _ _ Hst). rewrite E3. apply accounts_same; try done. intros x. cbn. destruct (decide (x = h)) as [->|]; [by rewrite lookup_insert_eq, Ehv | by rewrite lookup_insert_ne]. }
  - pose proof (memory_handles _ _ (et_memory _ _ _ HE)) as HH. cbn in HH. rewrite HH, insert_insert_eq. apply lookup_insert_eq.
  - apply entered_grown in HE. unfold grown in *. rewrite <- (zlen_perm _ _ HL). rewrite E3 in HE. exact HE.
Qed.
Lemma runs_bind_assoc {A B C} (m : M A) (f : A -> M B) (g : B -> M C) w Q : runs (m ≫= (fun a => f a ≫= g)) w Q -> runs ((m ≫= f) ≫= g) w Q.
Proof. intros (c & w' & E & HQ). exists c, w'. split; [|done]. rewrite <- E. unfold mbind, M_bind. by destruct (m w) as [[a w1]|]. Qed.
Lemma search_handled E w0 w1 h type name flags cb : wf_but E (abs w0) -> room (abs w0) -> h = fresh w0 -> abs w1 = opened (abs w0) h -> is_cstring name -> type = TYPE_A \/ type = TYPE_AAAA ->
  (forall s, cb = Probe s -> is_Some (servers w0 !! s)) -> runs (search_request_new h type name flags cb) w1 (fun _ w' => handled E cb w0 w1 w' h).
Proof.
  intros WF Hroom Hh E1 Hc Ht Hcb. assert (Hk : known_type type) by (destruct Ht as [->| ->]; unfold known_type; auto).
  assert (Ehv : handles w1 !! h = Some empty_handle) by (change (handles w1) with (a_handles (abs w1)); rewrite E1, Hh; apply lookup_insert_eq).
  assert (Ess : searches w1 = searches w0 /\ global_search_state (base w1) = global_search_state (base w0)) by (split; [change (searches w1) with (a_searches (abs w1)) | change (global_search_state (base w1)) with (a_search (abs w1))]; by rewrite E1).
  destruct Ess as [Ess Egs]. unfold search_request_new. step. apply runs_assert; [destruct Ht as [->| ->]; done|]. steps. apply runs_assert; [done|]. steps.
  assert (Hplain : runs (o ← request_new (Some h) type name flags cb; (match o with Some r => request_submit r | None => mret tt end);; mret o) w1 (fun _ w' => handled E cb w0 w1 w' h)).
  { step. eapply runs_mono; [by apply (start_runs E w0)|]. intros [r|] w2 HS; [|steps; by apply unused]. step. eapply runs_mono; [by eapply submitted_handled|]. intros [] w3 HH. by step. }
  rewrite Egs. destruct (global_search_state (base w0)) as [s|] eqn:Egs0; [|step; exact Hplain].
  destruct (mw_global _ (wf_mem _ _ WF) s Egs0) as [v Ev]. cbn in Ev. step. eapply runs_get_search; [by rewrite Ess|]. step. case_if; [|exact Hplain].
  destruct (mw_refs _ (wf_mem _ _ WF) s v Ev) as (_ & _ & Hnum & Hdoms). apply andb_true_iff in E0 as [_ Hne]. unfold c_true in Hne.
  case_if.
  - apply runs_bind_assoc. step. eapply runs_mono; [by apply (start_runs E w0)|]. intros [r|] w2 HS; [|steps; by apply unused].
    apply (attach_runs E w0 w1 w2 r h type cb (-1) s name flags HS); [destruct (sd_searches _ _ _ _ _ _ _ HS) as [-> _]; by eexists | done | lia].
  - apply runs_bind_assoc. step. assert (Hnz : 0 <= 0 < zlen (domains v)) by (pose proof (zlen_nonneg (domains v)); lia).
    eapply runs_mono; [by apply make_new_runs|]. intros [new|] w2 [[t2 ->] Hnew]; [|steps; apply unused; rewrite at_tick_abs; apply moves_refl; rewrite E1, Hh; apply opened_net; apply WF].
    apply runs_bind_assoc. step. eapply runs_mono; [apply (start_runs E w0 (at_tick w1 t2)); [done | done | done | by rewrite at_tick_abs | by apply Hnew | done | done]|].
    intros [r|] w3 HS; [|by steps; apply unused].
    apply (attach_runs E w0 w1 w3 r h type cb 0 s name flags HS); [destruct (sd_searches _ _ _ _ _ _ _ HS) as [-> _]; by eexists | done | lia].
Qed.

Lemma resolve_wf E w type name flags arg : wf_but E (abs w) -> room (abs w) -> is_cstring name -> type = TYPE_A \/ type = TYPE_AAAA ->
  runs (evdns_base_resolve type name flags arg) w (begun E (User arg) w).
Proof.
  intros WF Hroom Hc Ht. unfold evdns_base_resolve. step. eapply runs_mono; [apply new_handle_runs|]. intros o w1 [-> E1]. step.
  assert (Hk : known_type type) by (destruct Ht as [->| ->]; unfold known_type; auto).
  assert (HH : runs (if c_true (Z.land flags DNS_QUERY_NO_SEARCH) then resolve_plain (fresh w) type name flags (User arg) else search_request_new (fresh w) type name flags (User arg);; mret tt) w1 (fun _ w' => handled E (User arg) w w1 w' (fresh w))).
  { case_if; [by apply (plain_handled E w)|]. step. eapply runs_mono; [by apply (search_handled E w)|]. intros o w2 HH. by step. }
  eapply runs_mono; [exact HH|]. intros [] w2 HH2. by eapply or_null_wf.
Qed.
Lemma resolve_ptr_wf E w name flags arg : wf_but E (abs w) -> room (abs w) -> is_cstring name ->
  runs (resolve_ptr name flags arg) w (begun E (User arg) w).
Proof.
  intros WF Hroom Hc. unfold resolve_ptr. step. eapply runs_mono; [apply new_handle_runs|]. intros o w1 [-> E1]. step.
  eapply runs_mono; [apply (plain_handled E w w1 (fresh w)); try done; unfold known_type; auto|]. intros [] w2 HH2. by eapply or_null_wf.
Qed.
End Start.
