(* ===== verification/ResolverReply.v ===== *)
(** * Timeouts, reissues and searches keep the invariant *)
From S2P Require Import Prelude Timeval Event Buffer BufferInv CString Address Dns Resolver ResolverInv ResolverPump ResolverFinish ResolverOps ResolverNew DnsNames DnsSafe.
Open Scope Z_scope.

Section Reply.
Context `{N : Network} {L : NetworkLaws N}.
Implicit Types (w : world).

Lemma quietly_moves {A} (m : M A) w : net_wf (abs w) -> quietly m w -> runs m w (fun _ w' => moves (abs w) (abs w')).
Proof. intros W HQ. eapply runs_mono; [exact HQ|]. intros a w' Hq. by apply moves_quiets. Qed.
Lemma same_moves w w' : net_wf (abs w) -> abs w' = abs w -> moves (abs w) (abs w').
Proof. intros W ->. by apply moves_refl. Qed.
(** What operations leave that make no requests. *)
Record kept (E : nat -> Prop) (w w' : world) : Prop := {
  kp_wf : wf_but E (abs w');
  kp_room : room (abs w');
  kp_servers : forall s, is_Some (servers w !! s) -> is_Some (servers w' !! s);
  kp_acc : accounts (memory (abs w)) (memory (abs w'))
}.
Lemma kept_trans E E' w w1 w2 : kept E w w1 -> kept E' w1 w2 -> kept E' w w2.
Proof. intros [_ _ S1 A1] [W R S2 A2]. split; [done | done | auto | exact (accounts_trans _ _ _ A1 A2)]. Qed.
Lemma kept_refl E w : wf_but E (abs w) -> room (abs w) -> kept E w w.
Proof. split; done || apply accounts_refl. Qed.
Lemma moves_kept E w w' : wf_but E (abs w) -> room (abs w) -> moves (abs w) (abs w') -> kept E w w'.
Proof. intros WF HR M. split; [by eapply moves_wf | by eapply moves_room | intros s; by apply moves_servers | rewrite (mv_memory _ _ M); apply accounts_refl]. Qed.
Lemma same_kept E w w' : wf_but E (abs w) -> room (abs w) -> abs w' = abs w -> kept E w w'.
Proof. intros WF HR E1. apply moves_kept; [done..|]. apply same_moves; [apply WF | done]. Qed.
Lemma ended_servers w w' a r m s : ended a (abs w') r m -> m_probes m = m_probes (memory (abs w)) -> is_Some (servers w !! s) -> is_Some (servers w' !! s).
Proof.
  intros [HM _ _ _ _ _] Hp [n En]. apply (f_equal m_probes) in HM. rewrite Hp in HM. cbn in HM. apply (f_equal (fun m => m !! s)) in HM. rewrite !lookup_fmap, En in HM.
  destruct (servers w' !! s); [by eexists | done].
Qed.
Lemma failed_moves w s : net_wf (abs w) -> is_Some (servers w !! s) -> runs (nameserver_failed s) w (fun _ w' => moves (abs w) (abs w')).
Proof. intros W Hs. apply quietly_moves; [done|]. by apply nameserver_failed_quiet. Qed.
(** A request in flight, its server and its handle, with no callback scheduled. *)
Lemma live_request E w r : wf_but E (abs w) -> ~ E r -> r ∈ inflight (abs w) ->
  exists v s n h hv, placed w r v h hv /\ ns v = Some s /\ servers w !! s = Some n /\ pending_cb hv = false.
Proof.
  intros WF HE Hr. destruct (inflight_inv w r (wf_net _ _ WF) Hr) as (v & s & n & [Ev Es En _ _ _]).
  destruct (listed_placed w r (wf_net _ _ WF) (listed_inflight _ _ Hr)) as (v' & h & hv & HP). pose proof HP as [Ev' _ Hh Ehv Hc]. assert (v' = v) as -> by congruence.
  exists v, s, n, h, hv. split_and!; try done. destruct (pending_cb hv) eqn:Ep; [|done]. exfalso. by apply HE, (wf_settled _ _ WF h hv r).
Qed.

(** ** Timeouts. *)
Lemma pick_swap_moves w r : net_wf (abs w) -> r ∈ inflight (abs w) -> runs (to ← nameserver_pick; request_swap_ns r to) w (fun _ w' => moves (abs w) (abs w')).
Proof.
  intros W Hr. apply quietly_moves; [done|]. apply quietly_bind. eapply runs_mono; [by apply pick_quiet|]. intros o w' (Hq & _ & Hsrv & Ho). split; [done|].
  apply swap_quiet; [exact (quiets_wf _ _ Hq W) | exact (inflight_quiets _ _ r Hq Hr)|]. intros s ->. by rewrite Hsrv.
Qed.
Lemma runs_assoc {A B C} (m : M A) (f : A -> M B) (g : B -> M C) w Q : runs ((m ≫= f) ≫= g) w Q -> runs (m ≫= (fun a => f a ≫= g)) w Q.
Proof. intros (c & w' & E & HQ). exists c, w'. split; [|done]. rewrite <- E. unfold mbind, M_bind. by destruct (m w) as [[a w1]|]. Qed.
Lemma timeout_kept E w r : wf_but E (abs w) -> room (abs w) -> ~ E r -> r ∈ inflight (abs w) -> runs (evdns_request_timeout_callback r) w (fun _ w' => kept E w w').
Proof.
  intros WF Hroom HE Hr. destruct (live_request E w r WF HE Hr) as (v & s & n & h & hv & HP & Es & En & Hp). pose proof HP as [Ev Hl Hh Ehv Hc].
  unfold evdns_request_timeout_callback. steps. case_if.
  - assert (HA := answered_wf E w r v h hv 0 DNS_ERR_TIMEOUT None WF Hroom HP Hp ltac:(done)). unfold place in HA. rewrite Es in HA. apply runs_assoc. step.
    eapply runs_mono; [exact HA|]. intros [] w1 (WF1 & Hroom1 & t & HEn). steps.
    assert (K1 : kept E w w1) by (split; [done | done | intros x; by apply (ended_servers w w1 _ _ _ x HEn) |]; rewrite (en_memory _ _ _ _ HEn); apply (answered_accounts _ r (request_type v) (user_callback v)); try done; [apply WF | by apply m_reqs_of]).
    eapply runs_mono; [by apply failed_moves; [apply WF1 | apply K1; exists n]|]. intros [] w2 M. apply (kept_trans E E w w1 w2 K1). by apply moves_kept.
  - step. step. match goal with |- runs _ ?x _ => set (w1 := x) end. assert (E1 : abs w1 = abs w) by (unfold abs, w1; cbn; rewrite (abs_req_same _ _ _ _ Ev); [done | by apply (same_ns v _ s)]).
    assert (W1 : net_wf (abs w1)) by (rewrite E1; apply WF). assert (Hr1 : r ∈ inflight (abs w1)) by by rewrite E1. apply runs_assoc. step.
    eapply runs_mono; [by apply pick_swap_moves|]. intros [] w2 M2. step. eapply runs_mono; [apply quietly_moves; [apply M2|]; apply transmit_quiet; [apply M2 | by apply M2]|]. intros code w3 M3.
    pose proof (moves_trans _ _ _ M2 M3) as M13. rewrite E1 in M13. pose proof (moves_kept E w w3 WF Hroom M13) as K3. pose proof (kp_wf _ _ _ K3) as WF3. pose proof (kp_room _ _ _ K3) as Hroom3.
    destruct (live_request E w3 r WF3 HE (mv_in _ _ M13 r Hr)) as (v3 & s3 & n3 & h3 & hv3 & [Ev3 _ _ _ _] & Es3 & En3 & _). steps.
    eapply runs_get_ns; [apply lookup_insert_eq|]. cbn [timedout]. case_if.
    + steps. eapply runs_set_ns; [apply lookup_insert_eq|]. match goal with |- runs _ ?x _ => set (w4 := x) end.
      assert (E4 : abs w4 = abs w3) by (unfold abs, w4; cbn; rewrite insert_insert_eq; by rewrite (abs_srv_same _ _ _ _ En3)).
      eapply runs_mono; [apply failed_moves; [rewrite E4; apply WF3 | cbn; rewrite insert_insert_eq, lookup_insert_eq; by eexists]|]. intros [] w5 M5. rewrite E4 in M5. apply (kept_trans E E w w3 w5 K3). by apply moves_kept.
    + step. apply (kept_trans E E w w3 _ K3). apply same_kept; [done..|]. unfold abs. cbn. by rewrite (abs_srv_same _ _ _ _ En3).
Qed.

(** ** Reissues. *)
Lemma reissue_moves w r : net_wf (abs w) -> r ∈ inflight (abs w) -> runs (request_reissue r) w (fun _ w' => moves (abs w) (abs w')).
Proof.
  intros W Hr. destruct (inflight_inv w r W Hr) as (v & s & n & [Ev Es En _ _ _]). unfold request_reissue. steps. apply runs_valid; [by apply W, listed_inflight|]. apply runs_assoc. step.
  eapply runs_mono; [by apply pick_swap_moves|]. intros [] w1 M1. destruct (inflight_inv w1 r (mv_wf _ _ M1) (mv_in _ _ M1 r Hr)) as (v1 & s1 & n1 & [Ev1 _ _ _ _ _]). steps.
  case_if; steps; [done|]. apply (moves_trans _ (abs w1)); [done|]. apply same_moves; [apply M1|]. unfold abs. cbn. by rewrite (abs_req_same _ _ _ _ Ev1).
Qed.

(** ** Probes that are answered. *)
Lemma forget_runs E w r v s n : wf_but E (abs w) -> requests w !! r = Some v -> ns v = Some s -> servers w !! s = Some n ->
  runs (forget_probe r) w (fun _ w' => wf_but E (abs w') /\ (exists n', abs w' = set_probe (abs w) s (abs_srv n) n') /\ requests w' = requests w /\ handles w' = handles w /\ deferred w' = deferred w /\ base w' = base w /\
    (exists n', servers w' !! s = Some n' /\ forall h, handle v = Some h -> probe_request n' <> Some h)).
Proof.
  intros WF Ev Es En. unfold forget_probe. steps. case_if.
  - steps. match goal with |- wf_but E (abs ?x) /\ _ => set (w1 := x) end. assert (E1 : abs w1 = set_probe (abs w) s (abs_srv n) None) by (unfold abs, set_probe, w1; cbn; by rewrite fmap_insert).
    split_and!; try done; [rewrite E1; apply probe_none_wf; [done | by apply servers_abs] | by exists None |]. eexists. split; [apply lookup_insert_eq | done].
  - step. split_and!; try done.
    + exists (probe_request n). unfold set_probe, abs. cbn. f_equal. symmetry. apply insert_id. by rewrite lookup_fmap, En.
    + exists n. split; [done|]. intros h Hh HE. apply bool_decide_eq_false in E0. congruence.
Qed.
End Reply.

(** * Searches that go on

    The request of a search ends and one for the next name takes its place. *)
(** ** Memory. *)
Section Mem.
Implicit Types m : mem.
(** A handle in use changes what it says of its search. *)
Definition m_search_of m (h : nat) (hv : evdns_request) (ss : gmap nat search_list) : mem := {| m with m_handles := <[h := hv]> (m_handles m); m_searches := ss |}.
Lemma search_of_wf m h hv hv' ss r : mem_wf m -> m_handles m !! h = Some hv -> current_req hv = Some r -> current_req hv' = Some r -> pending_cb hv' = pending_cb hv ->
  (forall s v, ss !! s = Some v -> total (refs (m_search_of m h hv' ss) s) (refcount v - global_ref m s) /\ 0 < refcount v /\ num_domains v = zlen (domains v) /\ Forall is_cstring (domains v)) ->
  (forall x xv s, <[h := hv']> (m_handles m) !! x = Some xv -> search_state xv = Some s -> is_Some (ss !! s) /\ (exists name, search_origname xv = Some name /\ is_cstring name) /\ -1 <= search_index xv) ->
  (forall s, m_search m = Some s -> is_Some (ss !! s)) -> (forall x, m_searches m !! x = None -> ss !! x = None) -> mem_wf (m_search_of m h hv' ss).
Proof.
  intros W Hh Hc Hc' Hp HR HS HG HF.
  assert (Hback : forall x xv, m_handles m !! x = Some xv -> exists xv', <[h := hv']> (m_handles m) !! x = Some xv' /\ current_req xv' = current_req xv /\ pending_cb xv' = pending_cb xv).
  { intros x xv Hx. destruct (decide (x = h)) as [->|]; [rewrite lookup_insert_eq; exists hv'; simplify_eq; split; [done | by rewrite Hc', Hc] | rewrite lookup_insert_ne by done; by exists xv]. }
  destruct W. split; unfold m_search_of in *; cbn in *; try done.
  - intros x t cb o Hx. destruct (mw_req x t cb o Hx) as (Ht & h0 & hv0 & -> & Hh0 & Hc0). split; [done|]. destruct (Hback _ _ Hh0) as (xv' & Hx' & Hcx & _). exists h0, xv'. by rewrite Hcx.
  - intros x xv y. rewrite lookup_insert_Some. intros [[<- <-]|[Hx Hx0]] Hy; [|eauto]. apply (mw_handle h hv y Hh). congruence.
  - intros x xv. rewrite lookup_insert_Some. intros [[<- <-]|[Hx Hx0]] Hy; [congruence | eauto].
  - apply (mem_ok_iff _ (fun x => exists xv, m_handles m !! x = Some xv /\ pending_cb xv = true)); [|done]. intros x.
    destruct (decide (x = h)) as [->|]; [rewrite lookup_insert_eq, Hh; split; intros (xv & [= <-] & Hpx); (eexists; split; [done | congruence]) | by rewrite lookup_insert_ne].
  - intros t x Hx. destruct (mw_probe t x Hx) as [[xv Hxv] Hpr]. destruct (Hback _ _ Hxv) as (xv' & Hx' & _). split; [by eexists|].
    destruct Hpr as [(yv & y & ty & Hy & Hcy & Hry)|Hd]; [|by right]. destruct (Hback _ _ Hy) as (yv' & Hy' & Hcy' & _). left. exists yv', y, ty. cbn. by rewrite Hcy'.
  - intros x Hx. destruct (mw_fresh x Hx) as (F1 & F2 & F3 & F4). split_and!; try done; [|by apply HF]. rewrite lookup_insert_ne; [done|]. congruence.
Qed.
Lemma tweak_wf m h hv r i : mem_wf m -> m_handles m !! h = Some hv -> current_req hv = Some r -> -1 <= i -> mem_wf (m_search_of m h {| hv with search_index := i |} (m_searches m)).
Proof.
  intros W Hh Hc Hi. apply (search_of_wf m h hv _ _ r); try done.
  - intros s v Hv. destruct (mw_refs m W s v Hv) as (HT & Hrest). split; [|done]. apply (total_ext (refs m s)); [|done]. intros x. unfold refs. cbn.
    destruct (decide (x = h)) as [->|]; [by rewrite lookup_insert_eq, Hh | by rewrite lookup_insert_ne].
  - intros x xv s. rewrite lookup_insert_Some. intros [[<- <-]|[_ Hx]] Hs; [|by apply (mw_search m W x)]. destruct (mw_search m W h hv s Hh Hs) as (Hv & Ho & _). done.
  - apply W.
Qed.
Lemma release_wf m h hv r : mem_wf m -> m_handles m !! h = Some hv -> current_req hv = Some r ->
  mem_wf (m_search_of m h {| hv with search_state := None; search_origname := None |} (decref (m_searches m) (search_state hv))).
Proof.
  intros W Hh Hc. set (m' := m_search_of _ _ _ _). destruct (decref_wf m m' h hv _ W Hh eq_refl eq_refl eq_refl eq_refl) as [Hrefs Hkeep]. apply (search_of_wf m h hv _ _ r); try done.
  - intros x xv s. rewrite lookup_insert_Some. intros [[<- <-]|[Hne Hx]] Hs; [done|]. destruct (mw_search m W x xv s Hx Hs) as (Hv & Hrest). split; [|done].
    apply (Hkeep s Hv). right. exists x. unfold refs. cbn. rewrite lookup_insert_ne, Hx, decide_True by done. lia.
  - intros s Hs. apply (Hkeep s); [by apply (mw_global m W)|]. left. unfold global_ref. cbn. rewrite decide_True by done. lia.
  - intros x Hx. unfold decref. destruct (search_state hv) as [s0|]; [|done]. destruct (m_searches m !! s0) eqn:E; [|done]. case_if; [by rewrite lookup_delete_None; right|]. rewrite lookup_insert_ne; [done|]. congruence.
Qed.
(** Another request takes the place of [r]. *)
Definition m_replace m (r r' h : nat) (hv : evdns_request) (t : Z) (cb : callback) : mem :=
  {| m with m_reqs := <[r' := (t, cb, Some h)]> (delete r (m_reqs m)); m_handles := <[h := {| hv with current_req := Some r' |}]> (m_handles m); m_fresh := S r' |}.
Lemma replace_wf m r r' h hv t cb : mem_wf m -> m_reqs m !! r = Some (t, cb, Some h) -> m_handles m !! h = Some hv -> current_req hv = Some r -> (m_fresh m <= r')%nat -> mem_wf (m_replace m r r' h hv t cb).
Proof.
  intros W Hr Hh Hc Hf. destruct (mw_fresh m W r' Hf) as (Fr & _). assert (Hrr : r <> r') by congruence.
  assert (Hother : forall x xv y, m_handles m !! x = Some xv -> current_req xv = Some y -> x <> h -> y <> r /\ y <> r').
  { intros x xv y Hx Hy Hne. destruct (mw_handle m W x xv y Hx Hy) as (t1 & cb1 & Hy1). split; intros ->; congruence. }
  destruct W. split; unfold m_replace in *; cbn in *; try done.
  - intros x t0 cb0 o. rewrite lookup_insert_Some, lookup_delete_Some. intros [[<- [= <- <- <-]]|[Hx [Hxr Hx0]]].
    + split; [by apply (mw_req r t cb (Some h))|]. eexists h, _. by rewrite lookup_insert_eq.
    + destruct (mw_req x t0 cb0 o Hx0) as (Ht0 & h0 & hv0 & -> & Hh0 & Hc0). split; [done|]. exists h0, hv0. rewrite lookup_insert_ne; [done | congruence].
  - intros x xv y. rewrite lookup_insert_Some. intros [[<- <-]|[Hx Hx0]] Hy; [cbn in Hy; injection Hy as <-; rewrite lookup_insert_eq; eauto|].
    destruct (Hother x xv y Hx0 Hy) as [H1 H2]; [done|]. rewrite lookup_insert_ne, lookup_delete_ne by done. eauto.
  - intros x xv. rewrite lookup_insert_Some. intros [[<- <-]|[Hx Hx0]] Hy; [done | eauto].
  - apply (mem_ok_iff _ (fun x => exists xv, m_handles m !! x = Some xv /\ pending_cb xv = true)); [|done]. intros x.
    destruct (decide (x = h)) as [->|]; [rewrite lookup_insert_eq, Hh; split; intros (xv & [= <-] & Hpx); (eexists; split; [done | exact Hpx]) | by rewrite lookup_insert_ne].
  - intros s x Hx. destruct (mw_probe s x Hx) as [[xv Hxv] Hpr]. split; [rewrite lookup_insert_is_Some; destruct (decide (h = x)); [by left | right; split; [done | by eexists]]|].
    destruct Hpr as [(yv & y & ty & Hy & Hcy & Hry)|Hd]; [|by right]. left. destruct (decide (x = h)) as [->|Hne].
    + simplify_eq. eexists _, r', _. cbn. by rewrite !lookup_insert_eq.
    + destruct (Hother x yv y Hy Hcy Hne) as [H1 H2]. exists yv, y, ty. cbn. by rewrite !lookup_insert_ne, lookup_delete_ne.
  - intros x t0 s o. rewrite lookup_insert_Some, lookup_delete_Some. intros [[_ [= _ -> _]]|[_ [_ Hx]]]; eauto.
  - intros s v Hv. destruct (mw_refs s v Hv) as (HT & Hrest). split; [|done]. apply (total_ext (refs m s)); [|done]. intros x. unfold refs. cbn.
    destruct (decide (x = h)) as [->|]; [by rewrite lookup_insert_eq, Hh | by rewrite lookup_insert_ne].
  - intros x xv s. rewrite lookup_insert_Some. intros [[<- <-]|[Hx Hx0]] Hs; [exact (mw_search h hv s Hh Hs) | eauto].
  - intros x Hx. destruct (mw_fresh x ltac:(lia)) as (F1 & F2 & F3 & F4). split_and!; try done.
    + rewrite lookup_insert_ne by lia. by rewrite lookup_delete_None; right.
    + rewrite lookup_insert_ne; [done|]. congruence.
Qed.
(** The new request owes nothing as long as it has no handle. *)
Definition m_newcomer m (r' : nat) (t : Z) (cb : callback) : mem := {| m with m_reqs := <[r' := (t, cb, None)]> (m_reqs m); m_fresh := S r' |}.
Lemma newcomer_accounts m r' t cb : m_reqs m !! r' = None -> accounts m (m_newcomer m r' t cb).
Proof.
  intros Hr arg n (k & HT & ->). exists k. split; [|done]. apply (total_ext (owes m arg)); [|done]. intros x. unfold owes. cbn.
  destruct (decide (x = r')) as [->|]; [by rewrite lookup_insert_eq, Hr | by rewrite lookup_insert_ne].
Qed.
Lemma replace_accounts m r r' h hv t cb : mem_wf m -> m_reqs m !! r = Some (t, cb, Some h) -> m_handles m !! h = Some hv -> current_req hv = Some r -> (m_fresh m <= r')%nat ->
  accounts (m_newcomer m r' t cb) (m_replace m r r' h hv t cb).
Proof.
  intros W Hr Hh Hc Hf. destruct (mw_fresh m W r' Hf) as (Fr & _). assert (Hrr : r <> r') by congruence. intros arg n (k & HT & ->). exists k. split; [|done]. set (x0 := if pending_cb hv then 0 else user_arg cb arg).
  assert (HM : total (fun x => if decide (x = r) then 0 else owes (m_newcomer m r' t cb) arg x) (k - x0)).
  { apply (total_update (owes (m_newcomer m r' t cb) arg) _ k _ r); [intros x Hx; by rewrite decide_False | done|]. rewrite decide_True by done. unfold owes. cbn. rewrite lookup_insert_ne, Hr, Hh by done. unfold x0. lia. }
  eapply (total_update _ _ (k - x0) _ r'); [| exact HM |].
  - intros x Hx. unfold owes. cbn. destruct (decide (x = r)) as [->|Hxr]; [by rewrite lookup_insert_ne, lookup_delete_eq by done|]. rewrite !lookup_insert_ne, lookup_delete_ne by done.
    exact (owes_other m arg h hv r x W Hh Hc Hxr (<[h := {| hv with current_req := Some r' |}]> (m_handles m)) ltac:(intros y Hy; by rewrite lookup_insert_ne)).
  - cbv beta. rewrite decide_False by done. unfold owes. cbn. rewrite !lookup_insert_eq. unfold x0. cbn. lia.
Qed.
End Mem.

Section Search.
Context `{N : Network} {L : NetworkLaws N}.
Implicit Types (w : world).

(** As many requests, the servers, and what is owed. *)
Definition kept_lists (w w' : world) : Prop := zlen (listed (abs w')) = zlen (listed (abs w)) /\ (forall s, is_Some (servers w !! s) -> is_Some (servers w' !! s)) /\ accounts (memory (abs w)) (memory (abs w')).
Lemma kept_lists_memory w w' : zlen (listed (abs w')) = zlen (listed (abs w)) -> m_probes (memory (abs w')) = m_probes (memory (abs w)) -> accounts (memory (abs w)) (memory (abs w')) -> kept_lists w w'.
Proof.
  intros HL HM HA. split; [done|]. split; [|done]. intros s [n En]. cbn in HM. apply (f_equal (fun m => m !! s)) in HM. rewrite !lookup_fmap, En in HM. destruct (servers w' !! s); [by eexists | done].
Qed.
Lemma kept_lists_trans w w1 w2 : kept_lists w w1 -> kept_lists w1 w2 -> kept_lists w w2.
Proof. intros (L1 & S1 & A1) (L2 & S2 & A2). split; [congruence|]. split; [auto | exact (accounts_trans _ _ _ A1 A2)]. Qed.
Lemma kept_lists_kept E w w' : kept_lists w w' -> room (abs w) -> wf_but E (abs w') -> kept E w w'.
Proof. intros (HL & HS & HA) HR WF. split; [done | unfold room; by rewrite HL | done | done]. Qed.

(** The request [r] of [h] is to give its place to [r'], which is not listed
    yet; without [r'] the memory is [m]. *)
Record replacing (E : nat -> Prop) (w : world) (r : nat) (v : request) (s h : nat) (hv : evdns_request) (r' : nat) (m : mem) : Prop := {
  rp_net : net_wf (abs w);
  rp_room : room (abs w);
  rp_placed : placed w r v h hv;
  rp_ns : ns v = Some s;
  rp_pending : pending_cb hv = false;
  rp_new : exists v', requests w !! r' = Some v' /\ handle v' = None /\ submittable (abs w) (abs_req v') /\ r_mem (abs_req v') = (request_type v, user_callback v, None);
  rp_off : r' ∉ listed (abs w);
  rp_memory : memory (abs w) = {| m with m_reqs := <[r' := (request_type v, user_callback v, None)]> (m_reqs m); m_fresh := S r' |};
  rp_mem : mem_wf m;
  rp_fresh : (m_fresh m <= r')%nat;
  rp_old : m_reqs m !! r = Some (request_type v, user_callback v, Some h);
  rp_owned : forall x q, m_reqs m !! x = Some q -> x ∈ listed (abs w);
  rp_settled : forall x xv y, handles w !! x = Some xv -> current_req xv = Some y -> pending_cb xv = true -> E y
}.
Definition submit_next (r : nat) (v : request) (h newreq : nat) : M bool :=
  b ← get_base; request_finished r (REQ_HEAD b (trans_id v)) false;;
  set_handle h (fun hv => {| hv with current_req := Some newreq |});;
  set_req newreq (fun q => {| q with handle := Some h |});;
  request_submit newreq;; mret false.
Lemma submit_next_runs E w r v s h hv r' m : replacing E w r v s h hv r' m -> runs (submit_next r v h r') w (fun b w' => b = false /\ wf_but E (abs w') /\ kept_lists w w').
Proof.
  intros [W Hroom HP Es Hp (v' & Ev' & Hh' & Hsub & Hrm) Hoff Em Wm Hf Hold Ho Hs]. pose proof HP as [Ev Hr Hh Ehv Hc]. unfold submit_next. step. step. step.
  assert (Hpl : REQ_HEAD (base w) (trans_id v) = place w v) by (unfold place; by rewrite Es). rewrite Hpl.
  eapply runs_mono; [by apply (finish_runs w r v h hv false)|]. intros [] w1 [Mm Ml _ _ Mo W1].
  assert (Hrr : r' <> r) by (intros ->; done).
  assert (Ehv1 : handles w1 !! h = Some {| hv with current_req := None |}) by (change (handles w1) with (m_handles (memory (abs w1))); rewrite Mm; cbn; apply lookup_insert_eq).
  destruct (abs_reqs_Some w1 r' (abs_req v')) as (v1 & Ev1 & Eq1); [rewrite Mo by done; by apply requests_abs|].
  step. eapply runs_set_handle; [exact Ehv1|]. step. eapply runs_set_req; [exact Ev1|]. match goal with |- runs _ ?x _ => set (w3 := x) end. step.
  set (hv3 := {| hv with current_req := Some r' |}). set (q3 := {| (abs_req v1) with a_handle := Some h |}).
  assert (E3 : abs w3 = edit {| (abs w1) with a_handles := <[h := hv3]> (handles w1) |} r' q3) by (unfold abs, edit, w3; cbn; by rewrite fmap_insert).
  assert (Hoff1 : r' ∉ listed (abs w1)) by (intros Hin; apply Hoff; rewrite <- Ml; by right).
  assert (W3 : net_wf (abs w3)).
  { rewrite E3. apply edit_wf; [|done|].
    - apply net_wf_handles; [done|]. intros x Hx. apply (valid_insert (abs w1)); [by apply W1|]. intros hv0 Hh0. cbn in Hh0. rewrite Ehv1 in Hh0. by injection Hh0 as <-.
    - cbn. exact (nw_sound _ W1 r' _ (requests_abs _ _ _ Ev1)). }
  assert (Em3 : memory (abs w3) = m_replace m r r' h hv (request_type v) (user_callback v)).
  { assert (HM3 : memory (abs w3) = {| (memory (abs w1)) with m_reqs := <[r' := r_mem q3]> (m_reqs (memory (abs w1))); m_handles := <[h := hv3]> (m_handles (memory (abs w1))) |}) by (rewrite E3; unfold memory, edit; cbn; by rewrite fmap_insert).
    rewrite HM3, Mm, Em. unfold m_end, m_replace. cbn. rewrite insert_insert_eq, delete_insert_ne, insert_insert_eq by done.
    f_equal. f_equal. unfold q3, r_mem in *. rewrite Eq1. cbn in *. congruence. }
  assert (WO : wf_open E (abs w3) r').
  { split; [done | rewrite Em3; apply replace_wf; try done| | rewrite E3; exact Hoff1 |].
    - change (m_handles m) with (m_handles {| m with m_reqs := <[r' := (request_type v, user_callback v, None)]> (m_reqs m); m_fresh := S r' |}). rewrite <- Em. exact Ehv.
    - intros x q Hq. destruct (decide (x = r')) as [->|Hne]; [by left | right]. assert (Hx : m_reqs (memory (abs w3)) !! x = Some (r_mem q)) by (cbn in Hq |- *; by rewrite lookup_fmap, Hq).
      rewrite Em3 in Hx. cbn in Hx. rewrite lookup_insert_ne in Hx by done. apply lookup_delete_Some in Hx as [Hxr Hx]. specialize (Ho x _ Hx). rewrite <- Ml in Ho.
      apply elem_of_cons in Ho as [->|Ho]; [done|]. rewrite E3. exact Ho.
    - intros x xv y Hx Hy Hpx. pose proof (f_equal m_handles Em3) as HH. change (m_handles (memory (abs w3))) with (a_handles (abs w3)) in HH. rewrite HH in Hx. cbn in Hx. apply lookup_insert_Some in Hx as [[<- <-]|[Hne Hx]]; [cbn in Hpx; congruence|].
      apply (Hs x xv y); [|done|done]. apply (f_equal m_handles) in Em. cbn in Em, Hx. by rewrite Em. }
  eapply runs_mono; [eapply (submit_wf E w3 r'); [exact WO | apply lookup_insert_eq |]|].
  - change (submittable (abs w3) q3). unfold submittable. cbn [a_ns a_id q3]. rewrite Eq1. destruct Hsub as [Hn|(s' & Hn & [n Hsrv] & Hid)]; [by left|]. cbn in Hsrv.
    right. exists s'. split_and!; [done | | apply Hid | apply Hid]. cbn. pose proof (f_equal m_probes Mm) as HMp. cbn in HMp. apply (f_equal (fun m => m !! s')) in HMp. rewrite !lookup_fmap in HMp. rewrite lookup_fmap in Hsrv. rewrite lookup_fmap.
    destruct (servers w !! s'); [|done]. destruct (servers w1 !! s'); [by eexists | done].
  - intros [] w4 [WF HE]. step. split_and!; [done | done |]. apply kept_lists_memory; [|rewrite (et_memory _ _ _ HE), Em3, Em; done|].
    2: { rewrite (et_memory _ _ _ HE), Em3, Em. apply replace_accounts; try done. apply (f_equal m_handles) in Em. cbn in Em. by rewrite <- Em. }
    apply zlen_perm in Ml. pose proof (zlen_perm _ _ (et_listed _ _ _ HE)) as HL. rewrite E3 in HL.
    change (listed (edit {| (abs w1) with a_handles := <[h := hv3]> (handles w1) |} r' q3)) with (listed (abs w1)) in HL. rewrite HL, <- Ml. done.
Qed.

(** The new request of a search is made. *)
Lemma made_replacing E w w2 r v s h hv r' : wf_but E (abs w) -> room (abs w) -> placed w r v h hv -> ns v = Some s -> pending_cb hv = false ->
  new_request w w2 r' None (request_type v) (user_callback v) -> replacing E w2 r v s h hv r' (memory (abs w)).
Proof.
  intros WF Hroom [Ev Hr Hh Ehv Hc] Es Hp [(a1 & q & M & Hfr & E2 & Hqt & Hqc & Hqh & Hql & Hsub) HR]. pose proof (mv_memory _ _ M) as HM.
  assert (Hfr' : fresh w = r') by (apply (f_equal m_fresh) in HM; cbn in HM; congruence). pose proof (mw_fresh _ (wf_mem _ _ WF) r' ltac:(cbn; lia)) as (F & _).
  assert (Hnone : a_reqs a1 !! r' = None) by (cbn in F; rewrite lookup_fmap in F; rewrite <- (fmap_None r_mem), (memory_reqs _ _ r' HM); exact F).
  assert (Hrr : r <> r') by (intros ->; pose proof (m_reqs_of w r' v h Ev Hh); congruence).
  assert (Hoff : r' ∉ listed a1) by (apply fresh_unlisted; [apply M | done]).
  assert (HL : listed (abs w2) ≡ₚ listed (abs w)) by (rewrite E2; exact (mv_listed _ _ M)).
  assert (Hq : a_reqs (abs w2) !! r' = Some q) by (rewrite E2; apply lookup_insert_eq). destruct (abs_reqs_Some _ _ _ Hq) as (v' & Ev' & Eq').
  assert (HH : handles w2 = handles w) by (change (handles w2) with (a_handles (abs w2)); rewrite E2; exact (memory_handles _ _ HM)).
  split; try done.
  - rewrite E2. by apply created_net; [apply M|..].
  - unfold room. by rewrite (zlen_perm _ _ HL).
  - split; [by rewrite HR | by rewrite HL | done | by rewrite HH | done].
  - exists v'. split; [done|]. split; [by apply (f_equal a_handle) in Eq'; rewrite Hqh in Eq'|]. rewrite Eq'. split; [rewrite E2; exact Hsub|]. unfold r_mem. by rewrite Hqt, Hqc, Hqh.
  - rewrite E2. exact Hoff.
  - rewrite E2. unfold memory in HM. injection HM as H1 H2 H3 H4 H5 H6 H7 H8. unfold memory, created. cbn. rewrite fmap_insert, H1, H2, H3, H4, H5, H6, H7. f_equal. unfold r_mem. by rewrite Hqt, Hqc, Hqh.
  - apply WF.
  - cbn. lia.
  - by apply m_reqs_of.
  - intros x y Hx. rewrite HL. cbn in Hx. rewrite lookup_fmap, fmap_Some in Hx. destruct Hx as (z & Hz & _). by apply (wf_owned _ _ WF x z).
  - intros x xv y Hx. rewrite HH in Hx. by apply (wf_settled _ _ WF x xv y).
Qed.
(** The handle lets go of its search. *)
Lemma released_replacing E w r v s h hv r' m : replacing E w r v s h hv r' m ->
  runs (search_request_finished h) w (fun _ w' => kept_lists w w' /\
    replacing E w' r v s h {| hv with search_state := None; search_origname := None |} r' (m_search_of m h {| hv with search_state := None; search_origname := None |} (decref (m_searches m) (search_state hv)))).
Proof.
  intros [W Hroom HP Es Hp Hnew Hoff Em Wm Hf Hold Ho Hs]. pose proof HP as [Ev Hr Hh Ehv Hc]. unfold search_request_finished. set (hv' := {| hv with search_state := None; search_origname := None |}).
  assert (Ehm : m_handles m !! h = Some hv) by (apply (f_equal m_handles) in Em; cbn in Em; by rewrite <- Em).
  assert (Esm : m_searches m = searches w) by (by apply (f_equal m_searches) in Em).
  steps. apply decref_runs; [intros s0 Hs0; rewrite <- Esm; by apply (mw_search m Wm h hv s0)|]. steps. match goal with |- kept_lists w ?x /\ _ => set (w1 := x) end. split.
  { split; [done|]. split; [done|]. apply accounts_same; try done. intros x. cbn. destruct (decide (x = h)) as [->|]; [by rewrite lookup_insert_eq, Ehv | by rewrite lookup_insert_ne]. }
  assert (E1 : abs w1 = {| (abs w) with a_handles := <[h := hv']> (a_handles (abs w)); a_searches := decref (searches w) (search_state hv) |}) by done.
  split; try done.
  - rewrite E1. apply (net_wf_other (abs w) (<[h := hv']> (a_handles (abs w))) (decref (searches w) (search_state hv)) (deferred w) (calls w) (fresh w) (global_search_state (base w)) (global_max_requests_inflight (base w)) W).
    intros x Hx. destruct (nw_valid _ W x Hx) as (q & h0 & hv0 & Hq & Hh0 & Hhv0 & Hc0). destruct (decide (h0 = h)) as [->|].
    + exists q, h, hv'. cbn. rewrite lookup_insert_eq. split_and!; try done. cbn in Hhv0. by simplify_eq.
    + exists q, h0, hv0. cbn. by rewrite lookup_insert_ne.
  - split; try done. apply lookup_insert_eq.
  - change (memory (abs w1)) with {| (memory (abs w)) with m_handles := <[h := hv']> (handles w); m_searches := decref (searches w) (search_state hv) |}. change (handles w) with (m_handles (memory (abs w))). rewrite <- Esm, Em. done.
  - by apply (release_wf m h hv r).
  - intros x xv y. cbn. rewrite lookup_insert_Some. intros [[<- <-]|[Hne Hx]] Hy Hpx; [cbn in Hpx; congruence | by apply (Hs x xv y)].
Qed.

(** The request [r] of the handle [h] is in flight and no callback is scheduled. *)
Record alive (w : world) (r h : nat) : Prop := {
  al_in : r ∈ inflight (abs w);
  al_placed : exists v hv, placed w r v h hv /\ pending_cb hv = false
}.
Lemma alive_still E w w' r h : wf_but E (abs w') -> alive w r h -> still (abs w) (abs w') r h -> alive w' r h.
Proof. intros WF [Hr (v & hv & HP & Hp)] HS. destruct (still_placed E w w' r v h hv WF HP Hr HS) as (v' & HP' & _ & _ & Hr'). split; [done | eauto]. Qed.
Lemma alive_moves E w w' r h : wf_but E (abs w) -> alive w r h -> moves (abs w) (abs w') -> alive w' r h.
Proof. intros WF HA M. apply (alive_still E w); [by apply (moves_wf E _ _ M) | done | by apply still_moves]. Qed.
Lemma index_wf E w r v h hv i : wf_but E (abs w) -> placed w r v h hv -> -1 <= i -> wf_but E (abs {| w with handles := <[h := {| hv with search_index := i |}]> (handles w) |}).
Proof.
  intros [W Wm Wo Ws] [Ev Hr Hh Ehv Hc] Hi. split; [ | by apply (tweak_wf (memory (abs w)) h hv r) | done |].
  - apply (net_wf_handles (abs w) (<[h := {| hv with search_index := i |}]> (handles w)) W). intros x Hx.
    destruct (nw_valid _ W x Hx) as (q & h0 & hv0 & Hq & Hh0 & Hhv0 & Hc0). destruct (decide (h0 = h)) as [->|].
    + eexists q, h, _. cbn. rewrite lookup_insert_eq. split_and!; try done. cbn in Hhv0. by simplify_eq.
    + exists q, h0, hv0. cbn. by rewrite lookup_insert_ne.
  - intros x xv y. cbn. rewrite lookup_insert_Some. intros [[<- <-]|[_ Hx]] Hy Hpx; [by apply (Ws h hv) | by apply (Ws x xv)].
Qed.
Definition tried (E : nat -> Prop) (w : world) (r h : nat) (no_more : bool) (w' : world) : Prop := kept E w w' /\ (no_more = true -> alive w' r h).
Lemma moves_tried E w w' r h : wf_but E (abs w) -> room (abs w) -> alive w r h -> moves (abs w) (abs w') -> tried E w r h true w'.
Proof. intros WF Hroom HA M. split; [by apply moves_kept|]. intros _. by apply (alive_moves E w). Qed.
(** A request for another name, with what is done when it is made. *)
Lemma next_runs E w r v s h hv name flags (release : bool) : wf_but E (abs w) -> room (abs w) -> placed w r v h hv -> r ∈ inflight (abs w) -> ns v = Some s -> pending_cb hv = false -> is_cstring name ->
  runs (o ← request_new None (request_type v) name flags (user_callback v);
        match o with
        | Some newreq => if release then search_request_finished h;; submit_next r v h newreq else submit_next r v h newreq
        | None => mret true
        end) w (tried E w r h).
Proof.
  intros WF Hroom HP Hr Es Hp Hc. step. eapply runs_mono; [apply request_new_runs; [apply WF | done | done | done]|]. intros [r'|] w2 HN.
  - pose proof (made_replacing E w w2 r v s h hv r' WF Hroom HP Es Hp HN) as HRp.
    assert (K2 : kept_lists w w2).
    { destruct HN as [(a1 & q & M & _ & E2 & _) _]. apply kept_lists_memory; [rewrite E2; exact (zlen_perm _ _ (mv_listed _ _ M)) | |].
      - rewrite (rp_memory _ _ _ _ _ _ _ _ _ HRp). done.
      - rewrite (rp_memory _ _ _ _ _ _ _ _ _ HRp). apply newcomer_accounts. apply (mw_fresh _ (wf_mem _ _ WF) r' (rp_fresh _ _ _ _ _ _ _ _ _ HRp)). }
    assert (Hgo : forall w3 hv3 m3, kept_lists w2 w3 -> replacing E w3 r v s h hv3 r' m3 -> runs (submit_next r v h r') w3 (tried E w r h)).
    { intros w3 hv3 m3 K3 HR3. eapply runs_mono; [by eapply submit_next_runs|]. intros b w4 (-> & WF4 & K4). split; [|done].
      apply kept_lists_kept; [|done|done]. apply (kept_lists_trans w w3); [by apply (kept_lists_trans w w2) | done]. }
    destruct release; [|eapply Hgo; [split; [done|]; split; [done | apply accounts_refl] | exact HRp]].
    step. eapply runs_mono; [by eapply released_replacing|]. intros [] w3 [K3 HR3]. by eapply Hgo.
  - step. apply moves_tried; [done | done | | done]. split; [done | eauto].
Qed.
Lemma search_try_next_runs E w r h : wf_but E (abs w) -> room (abs w) -> alive w r h -> runs (search_try_next h) w (tried E w r h).
Proof.
  intros WF Hroom [Hr (v & hv & HP & Hp)]. pose proof HP as [Ev Hl Hh Ehv Hc]. destruct (inflight_inv w r (wf_net _ _ WF) Hr) as (v' & s & n & [Ev' Es En _ _ _]). simplify_eq.
  unfold search_try_next. steps. destruct (search_state hv) as [s0|] eqn:Ess; [|step; apply moves_tried; [done | done | split; eauto | apply moves_refl, WF]].
  destruct (mw_search _ (wf_mem _ _ WF) h hv s0 Ehv Ess) as ([st Est] & (name & En0 & Hcs) & Hi). cbn in Est. destruct (mw_refs _ (wf_mem _ _ WF) s0 st Est) as (_ & _ & Hnum & Hdoms).
  step. step. match goal with |- runs _ ?x _ => set (w1 := x) end. pose proof (index_wf E w r v h hv (search_index hv + 1) WF HP ltac:(lia)) as WF1. change {| w with handles := _ |} with w1 in WF1.
  assert (HP1 : placed w1 r v h {| hv with search_index := search_index hv + 1 |}) by (split; try done; apply lookup_insert_eq).
  assert (Hgo : forall wx no_more w', servers wx = servers w /\ memory (abs wx) = memory (abs w1) -> tried E wx r h no_more w' -> tried E w r h no_more w').
  { intros wx b w' [Hsx Hmx] [[W1' R1' S1' A1'] HA]. rewrite Hsx in S1'. split; [|done]. split; [done | done | done |]. apply (accounts_trans _ (memory (abs wx))); [|done]. rewrite Hmx. apply accounts_same; try done.
    intros x. cbn. destruct (decide (x = h)) as [->|]; [by rewrite lookup_insert_eq, Ehv | by rewrite lookup_insert_ne]. }
  step. step. step. step. case_if.
  - case_if; [|step; apply (Hgo w1); [done|]; apply moves_tried; [done | done | split; eauto | apply moves_refl, WF1]].
    eapply runs_mono; [apply (next_runs E w1 r v s h _ name (search_flags hv) true WF1 Hroom HP1 Hr Es Hp Hcs)|]. intros b w'. by apply Hgo.
  - step. eapply runs_mono; [apply make_new_runs; [done | done | pose proof (zlen_nonneg (domains st)); lia]|]. intros [new|] w2 [[t2 ->] Hnew].
    + eapply runs_mono; [apply (next_runs E (at_tick w1 t2) r v s h {| hv with search_index := search_index hv + 1 |} new (search_flags hv) false); [done | done | destruct HP1; by split | done | done | done | by apply Hnew]|].
      intros b w'. by apply Hgo.
    + step. apply (Hgo w1); [done|]; apply moves_tried; [done | done | split; eauto | apply moves_refl, WF1].
Qed.
End Search.

(** * Replies keep the invariant

    Replies are handled, read and parsed, and scheduled callbacks are run. *)
Section Answer.
Context `{N : Network} {L : NetworkLaws N}.
Implicit Types (w : world).

(** ** The end of a reply. *)
Definition reply_finish (r s : nat) (ttl err : Z) (rep : option reply) : M unit :=
  reply_schedule_callback r ttl err rep;;
  (if err =? 0 then forget_probe r;; nameserver_up s else mret tt);;
  v ← get_req r; b ← get_base; request_finished r (REQ_HEAD b (trans_id v)) true.
(** The server of an answered request comes up. *)
Lemma forget_up_runs E w r v h hv s : wf_but E (abs w) -> room (abs w) -> placed w r v h hv -> r ∈ inflight (abs w) -> ns v = Some s ->
  runs (forget_probe r;; nameserver_up s) w (fun _ w' => kept E w w' /\ still (abs w) (abs w') r h).
Proof.
  intros WF Hroom HP Hr Es. pose proof HP as [Ev Hl Hh Ehv Hc]. destruct (inflight_inv w r (wf_net _ _ WF) Hr) as (v' & s' & n & [Ev' Es' En _ _ _]). simplify_eq.
  step. eapply runs_mono; [by apply (forget_runs E w r v s n)|]. intros [] w1 (WF1 & [n' E1] & Er1 & Eh1 & Ed1 & _ & (n1 & En1 & Hno)).
  assert (Hin1 : inflight (abs w1) = inflight (abs w)) by by rewrite E1. assert (Hl1 : listed (abs w1) = listed (abs w)) by by rewrite E1.
  assert (HP1 : placed w1 r v h hv) by (split; rewrite ?Er1, ?Eh1, ?Hl1; done).
  assert (S1 : still (abs w) (abs w1) r h) by (split; [by rewrite Hin1 | cbn; by rewrite Er1 | cbn; by rewrite Eh1 | cbn; by rewrite Ed1]).
  assert (K1 : kept E w w1).
  { split; [done | unfold room; by rewrite Hl1| |rewrite E1; by apply accounts_same]. intros x [nx Ex]. apply (f_equal (fun a => a_srvs a !! x)) in E1. cbn in E1. destruct (decide (x = s)) as [->|Hx]; [by exists n1|].
    rewrite lookup_insert_ne in E1 by done. rewrite !lookup_fmap, Ex in E1. destruct (servers w1 !! x); [by eexists | done]. }
  eapply runs_mono; [apply (nameserver_up_wf E w1 s WF1 (kp_room _ _ _ K1)); by exists n1|]. intros [] w2 (WF2 & Hroom2 & Hacc2 & Hs2 & Hst). split.
  - apply (kept_trans E E w w1 w2 K1). by split.
  - apply (still_trans _ (abs w1)); [done|]. apply (Hst r v h hv HP1). right. intros n2 En2. simplify_eq. by apply Hno.
Qed.
Lemma reply_finish_delivers E w r v h hv s ttl err rep : wf_but E (abs w) -> room (abs w) -> placed w r v h hv -> pending_cb hv = false -> r ∈ inflight (abs w) -> (err = 0 -> ns v = Some s) ->
  d_result (callback_of v ttl err rep) <> DNS_ERR_CANCEL -> runs (reply_finish r s ttl err rep) w (fun _ w' => kept E w w' /\ requests w' !! r = None /\ callback_of v ttl err rep ∈ deferred w').
Proof.
  intros WF Hroom HP Hp Hr Hs Hres. unfold reply_finish. step. eapply runs_mono; [by apply schedule_runs|]. intros [] w1 [t ->]. set (d := callback_of v ttl err rep) in *.
  destruct (scheduled_wf E w r v h hv ttl err rep t WF HP Hp) as [WF1 HP1]. fold d in WF1, HP1. set (w1 := scheduled w h hv d t) in *. set (hv1 := {| hv with pending_cb := true |}) in *.
  assert (Hd1 : d ∈ deferred w1) by (apply elem_of_app; right; left).
  assert (HM : runs (if err =? 0 then forget_probe r;; nameserver_up s else mret tt) w1 (fun _ w2 => kept (fun x => E x \/ x = r) w1 w2 /\ still (abs w1) (abs w2) r h)).
  { case_if; [apply (forget_up_runs _ w1 r v h hv1); try done; apply Hs; lia|]. step. split; [by apply kept_refl | apply still_moves, moves_refl, WF1]. }
  step. eapply runs_mono; [exact HM|]. intros [] w2 [[WF2 Hroom2 Hs2 Hacc2] HS]. destruct (still_placed _ w1 w2 r v h hv1 WF2 HP1 Hr HS) as (v2 & HP2 & Ht2 & Hcb2 & Hr2).
  pose proof HP2 as [Ev2 _ _ _ _]. destruct (inflight_inv w2 r (wf_net _ _ WF2) Hr2) as (v' & s2 & n2 & [Ev' Es2 En2 _ _ _]). assert (v' = v2) as -> by congruence.
  steps. assert (Hpl : REQ_HEAD (base w2) (trans_id v2) = place w2 v2) by (unfold place; by rewrite Es2). rewrite Hpl.
  eapply runs_mono; [apply (finish_scheduled E w2 r v2 h hv1 d WF2 Hroom2 HP2 eq_refl); [by apply HS | apply HP | by rewrite Hcb2 | done]|]. intros [] w3 [WF3 HE]. split_and!.
  2: { pose proof (f_equal m_reqs (en_memory _ _ _ _ HE)) as Hmr. cbn in Hmr. apply (f_equal (fun m => m !! r)) in Hmr. rewrite lookup_delete_eq, !lookup_fmap in Hmr. by destruct (requests w3 !! r). }
  2: { pose proof (f_equal m_deferred (en_memory _ _ _ _ HE)) as Hmd. cbn in Hmd. rewrite Hmd. by apply HS. }
  split; [done | by eapply ended_room| |].
  - intros x Hx. apply (ended_servers w2 w3 _ _ _ x HE eq_refl). by apply Hs2.
  - apply (accounts_trans _ (memory (abs w1))); [|apply (accounts_trans _ _ _ Hacc2)].
    + change (memory (abs w1)) with (m_schedule (memory (abs w)) h hv d). destruct HP. apply (schedule_accounts _ r (request_type v) (user_callback v)); try done; [apply WF | by apply m_reqs_of].
    + rewrite (en_memory _ _ _ _ HE). destruct HP2. apply (end_accounts _ r (request_type v2) (user_callback v2)); try done; [apply WF2 | by apply m_reqs_of].
Qed.
Lemma reply_finish_runs E w r v h hv s ttl err rep : wf_but E (abs w) -> room (abs w) -> placed w r v h hv -> pending_cb hv = false -> r ∈ inflight (abs w) -> (err = 0 -> ns v = Some s) ->
  d_result (callback_of v ttl err rep) <> DNS_ERR_CANCEL -> runs (reply_finish r s ttl err rep) w (fun _ w' => kept E w w').
Proof. intros. eapply runs_mono; [by eapply (reply_finish_delivers E w r v h hv)|]. by intros [] w' [K _]. Qed.

(** ** [reply_handle]. *)
Lemma reply_error_known flags rep e : reply_error flags rep = Some e -> e <> 0 /\ e <> DNS_ERR_CANCEL.
Proof.
  unfold reply_error. case_if; [|done]. intros [= <-]. case_if; [done|]. case_if; [|by destruct rep]. cbv zeta. case_if; [done|].
  set (x := u16 _) in *. assert (0 <= x) by (unfold x, u16; apply Z.mod_pos_bound; lia). assert (Hx : x = 0 \/ x = 1 \/ x = 2 \/ x = 3 \/ x = 4) by lia.
  by destruct Hx as [->|[->|[->|[->| ->]]]].
Qed.
Definition reply_rest (r s : nat) (v : request) (ttl error : Z) : M unit :=
  h ← lift (handle v); hv ← get_handle h;
  match search_state hv with
  | Some _ =>
      if negb (request_type v =? TYPE_PTR) then
        no_more ← search_try_next h; if (no_more : bool) then reply_finish r s ttl error None else mret tt
      else reply_finish r s ttl error None
  | None => reply_finish r s ttl error None
  end.
Lemma alive_finish E w r h s ttl error : wf_but E (abs w) -> room (abs w) -> alive w r h -> error <> 0 -> error <> DNS_ERR_CANCEL -> runs (reply_finish r s ttl error None) w (fun _ w' => kept E w w').
Proof. intros WF Hroom [Hr (v & hv & HP & Hp)] He0 Hec. by apply (reply_finish_runs E w r v h hv). Qed.
Lemma reply_rest_runs E w r h s v ttl error : wf_but E (abs w) -> room (abs w) -> alive w r h -> handle v = Some h -> error <> 0 -> error <> DNS_ERR_CANCEL ->
  runs (reply_rest r s v ttl error) w (fun _ w' => kept E w w').
Proof.
  intros WF Hroom HA Hh He0 Hec. pose proof HA as [_ (v' & hv & [_ _ _ Ehv _] & _)]. unfold reply_rest. steps.
  assert (Hfin := alive_finish E w r h s ttl error WF Hroom HA He0 Hec). case_match; [|exact Hfin]. case_if; [|exact Hfin].
  step. eapply runs_mono; [by apply (search_try_next_runs E w r h)|]. intros b w' [K' HAl]. destruct b; [|by step].
  eapply runs_mono; [apply (alive_finish E w' r h); [apply K' | apply K' | auto | done | done]|]. intros [] w2 K. by apply (kept_trans E E w w' w2).
Qed.
Lemma reply_handle_runs E w r flags ttl rep : wf_but E (abs w) -> room (abs w) -> ~ E r -> r ∈ inflight (abs w) -> runs (reply_handle r flags ttl rep) w (fun _ w' => kept E w w').
Proof.
  intros WF Hroom HE Hr. destruct (live_request E w r WF HE Hr) as (v & s & n & h & hv & HP & Es & En & Hp). pose proof HP as [Ev Hl Hh Ehv Hc].
  assert (HA : alive w r h) by (split; eauto).
  unfold reply_handle. step. apply runs_valid; [by apply WF|]. step. step. step. step. step. step.
  destruct (reply_error flags rep) as [error|] eqn:Eerr.
  2: { apply (reply_finish_runs E w r v h hv); try done. unfold reply_error in Eerr. by destruct rep; [|rewrite orb_true_r in Eerr]. }
  apply reply_error_known in Eerr as [He0 Hec]. change (runs (if (error =? DNS_ERR_NOTIMPL) || (error =? DNS_ERR_REFUSED) then
        if reissue_count v <? global_max_reissues (base w) then
          nameserver_failed s;; pointless ← request_reissue r; if (pointless : bool) then reply_rest r s v ttl error else mret tt
        else reply_rest r s v ttl error
      else if error =? DNS_ERR_SERVERFAILED then evdns_request_timeout_callback r
      else forget_probe r;; nameserver_up s;; reply_rest r s v ttl error) w (fun _ w' => kept E w w')).
  case_if; [case_if|case_if].
  - step. eapply runs_mono; [apply failed_moves; [apply WF | by exists n]|]. intros [] w1 M1. step.
    eapply runs_mono; [apply reissue_moves; [apply M1 | by apply M1]|]. intros b w2 M2. pose proof (moves_trans _ _ _ M1 M2) as M. pose proof (moves_kept E w w2 WF Hroom M) as K2. destruct b; [|by step].
    eapply runs_mono; [apply (reply_rest_runs E w2 r h); try done; [apply K2 | apply K2 | by apply (alive_moves E w)]|]. intros [] w3 K3. by apply (kept_trans E E w w2 w3).
  - by apply (reply_rest_runs E w r h).
  - by apply timeout_kept.
  - apply runs_assoc. step. eapply runs_mono; [by apply (forget_up_runs E w r v h hv s)|]. intros [] w1 [K1 HS]. 
    eapply runs_mono; [apply (reply_rest_runs E w1 r h); try done; [apply K1 | apply K1 | by apply (alive_still E w); [apply K1|..]]|]. intros [] w3 K3. by apply (kept_trans E E w w1 w3).
Qed.

(** ** Packets. *)
Lemma wire_found w wr : net_wf (abs w) -> (exists req0 reqs, req0 ∈ reqs /\ reqs ∈ Dns.req_heads (wire_base w) /\ Dns.trans_id wr = Dns.trans_id req0) -> exists r, has_id w (Dns.trans_id wr) r.
Proof.
  intros W (req0 & reqs & H1 & H2 & ->). unfold wire_base in H2. cbn in H2. apply list_elem_of_fmap in H2 as (l & -> & Hl). apply list_elem_of_omap in H1 as (r & Hr & E).
  destruct (requests w !! r) as [v|] eqn:Ev; [|done]. cbn in E. injection E as <-. exists r. split; [|by exists v]. apply list_elem_of_lookup in Hl as [i Hi]. apply inflight_head. by exists i, l.
Qed.
Lemma wire_bytes w : net_wf (abs w) -> Forall (Forall (fun req => Forall is_byte (Dns.packet req))) (Dns.req_heads (wire_base w)).
Proof.
  intros W. rewrite Forall_forall. intros reqs H1. rewrite Forall_forall. intros req H2. cbn in H1. apply list_elem_of_fmap in H1 as (l & -> & Hl). apply list_elem_of_omap in H2 as (r & Hr & E).
  destruct (requests w !! r) as [v|] eqn:Ev; [|done]. cbn in E. injection E as <-. cbn. by apply packet_ok_true, (andb_prop _ _ (nw_sound _ W r (abs_req v) (requests_abs _ _ _ Ev))).
Qed.
Lemma reply_parse_runs w p : wf_but nobody (abs w) -> room (abs w) -> Forall is_byte p -> runs (reply_parse p) w (fun _ w' => kept nobody w w').
Proof.
  intros WF Hroom Hp. unfold reply_parse. step. step. step.
  assert (Hne : Dns.req_heads (wire_base w) <> []) by (cbn; intros E%fmap_nil_inv; by apply (nw_heads _ (wf_net _ _ WF))).
  destruct (reply_parse_ok (fun _ => true) HOST_NAME_MAX (wire_base w) p Hp Hne (wire_bytes w (wf_net _ _ WF))) as (n & parsed & E & HK).
  eapply runs_lift; [exact E|]. cbn beta iota. destruct parsed as [|wr flags ttl rep]; [step; by apply kept_refl|]. destruct HK as (req0 & reqs & H1 & H2 & (_ & _ & Hid) & _).
  destruct (wire_found w wr (wf_net _ _ WF)) as [r0 Hr0]; [by exists req0, reqs|].
  step. eapply runs_mono; [apply find_runs, wf_searchable, WF|]. intros [r|] w' [-> Hr]; [|by destruct (Hr r0)]. step. step. apply reply_handle_runs; [done | done | by intros [] | apply Hr].
Qed.
Definition good_input (x : received) : Prop := match x with Packet _ p => Forall is_byte p | ReadError => True end.
Lemma nameserver_read_runs input : forall w s, wf_but nobody (abs w) -> room (abs w) -> is_Some (servers w !! s) -> Forall good_input input -> runs (nameserver_read s input) w (fun _ w' => kept nobody w w').
Proof.
  induction input as [|[from p|] input IH]; intros w s WF Hroom [n En] HF; cbn [nameserver_read]; [step; by apply kept_refl | |].
  - apply Forall_cons in HF as [Hp HF]. step. step. case_if; [step; by apply kept_refl|]. step. step. match goal with |- runs _ ?x _ => set (w1 := x) end.
    assert (E1 : abs w1 = abs w) by (unfold abs, w1; cbn; by rewrite (abs_srv_same _ _ _ _ En)). pose proof (same_kept nobody w w1 WF Hroom E1) as K1.
    step. eapply runs_mono; [by apply reply_parse_runs; [apply K1 | apply K1|]|]. intros [] w2 K2. pose proof (kept_trans _ _ _ _ _ K1 K2) as K12.
    eapply runs_mono; [apply IH; [apply K2 | apply K2 | apply K12; by exists n | done]|]. intros [] w3 K3. by apply (kept_trans nobody nobody w w2).
  - eapply runs_mono; [by apply failed_moves; [apply WF | exists n]|]. intros [] w1 M. by apply moves_kept.
Qed.
Lemma ready_runs w s writable input : wf_but nobody (abs w) -> room (abs w) -> is_Some (servers w !! s) -> Forall good_input (default [] input) ->
  runs (nameserver_ready_callback s writable input) w (fun _ w' => kept nobody w w').
Proof.
  intros WF Hroom [n En] HF. unfold nameserver_ready_callback. step.
  assert (HM : runs (if writable then set_ns s (fun v => {| v with choked := false |});; did ← evdns_transmit; if negb did then nameserver_write_waiting s false else mret tt else mret tt) w (fun _ w' => kept nobody w w')).
  { case_if; [|step; by apply kept_refl]. step. step. match goal with |- runs _ ?x _ => set (w1 := x) end.
    assert (E1 : abs w1 = abs w) by (unfold abs, w1; cbn; by rewrite (abs_srv_same _ _ _ _ En)). pose proof (same_kept nobody w w1 WF Hroom E1) as K1.
    step. eapply runs_mono; [apply quietly_moves; [apply K1|]; apply evdns_transmit_quiet; apply K1|]. intros did w2 M2. pose proof (moves_kept nobody w1 w2 (kp_wf _ _ _ K1) (kp_room _ _ _ K1) M2) as K2.
    pose proof (kept_trans _ _ _ _ _ K1 K2) as K12. case_if; [|by step]. eapply runs_mono; [apply write_waiting_quiet; apply K12; by exists n|]. intros [] w3 E3. apply (kept_trans nobody nobody w w2); [done|]. apply same_kept; [apply K2 | apply K2 | done]. }
  eapply runs_mono; [exact HM|]. intros [] w1 K1. destruct input as [input|]; [|by step].
  eapply runs_mono; [apply nameserver_read_runs; [apply K1 | apply K1 | apply K1; by exists n | done]|]. intros [] w2 K2. by apply (kept_trans nobody nobody w w1).
Qed.
End Answer.
