(* ===== verification/ResolverProbe.v ===== *)
(** * Probes and callbacks keep the invariant

    Probes are sent, answered and given up; scheduled callbacks are run. *)
From Stdlib Require Import Ascii String.
From S2P Require Import Prelude Timeval Event Buffer BufferInv CString Address Dns DnsNames Resolver ResolverInv ResolverPump ResolverFinish ResolverOps ResolverNew ResolverReply.
Open Scope Z_scope.

(** ** A server gets a probe. *)
Lemma probe_set_mem m s p h hv r t : mem_wf m -> m_probes m !! s = Some p -> m_handles m !! h = Some hv -> current_req hv = Some r -> m_reqs m !! r = Some (t, Probe s, Some h) ->
  mem_wf {| m with m_probes := <[s := Some h]> (m_probes m) |}.
Proof.
  intros W Hs Hh Hc Hr. assert (Hd : forall x, is_Some (<[s := Some h]> (m_probes m) !! x) <-> is_Some (m_probes m !! x)) by (intros x; by apply (dom_insert_same _ s p)).
  destruct W. split; try done; cbn.
  - intros x y. rewrite lookup_insert_Some. intros [[<- [= <-]]|[_ Hx]]; [|exact (mw_probe x y Hx)]. split; [by eexists|]. left. by exists hv, r, t.
  - intros x t0 x0 o Hx. rewrite Hd. eauto.
  - intros d x Hdd Hcb Hres. rewrite Hd. eauto.
  - intros x Hx. destruct (mw_fresh x Hx) as (F1 & F2 & F3 & F4). split_and!; try done. rewrite lookup_insert_ne; [done|]. congruence.
Qed.

Section Probes.
Context `{N : Network} {L : NetworkLaws N}.
Implicit Types (w : world).
Lemma google_cstring : is_cstring (str "google.com").
Proof. apply (bool_decide_unpack _). vm_compute. exact I. Qed.
Lemma send_probe_wf E w s : wf_but E (abs w) -> room (abs w) -> is_Some (servers w !! s) ->
  runs (nameserver_send_probe s) w (fun _ w' => wf_but E (abs w') /\ grown (abs w) (abs w') /\ accounts (memory (abs w)) (memory (abs w'))).
Proof.
  intros WF Hroom Hs. unfold nameserver_send_probe. step. eapply runs_mono; [apply new_handle_runs|]. intros o w1 [-> E1]. step.
  eapply runs_mono; [apply (start_runs E w w1 (fresh w) TYPE_A (str "google.com") DNS_QUERY_NO_SEARCH (Probe s) WF Hroom eq_refl E1 google_cstring); [by left | by intros x [= <-]]|].
  intros [r|] w2 HS; [|by apply (free_unused E w w1 w2)]. destruct HS as [[W Wm Wo Wn Ws] (v & Ev & Hsub & Hpk & Hrm) Ehv HL Hsrv _ Hst]. destruct (Hsrv s Hs) as [n En].
  step. step. match goal with |- runs _ ?x _ => set (w3 := x) end. step.
  assert (E3 : abs w3 = set_probe (abs w2) s (abs_srv n) (Some (fresh w))) by (unfold abs, set_probe, w3; cbn; by rewrite fmap_insert).
  assert (W3 : net_wf (abs w3)) by (rewrite E3; apply (srv_same_net (abs w2) s (abs_srv n)); [done | by apply servers_abs | done | done]).
  eapply runs_mono; [apply pick_id_ok; [by apply wf_searchable|]|].
  { pose proof (zlen_inflight_listed (abs w3)) as Hz. rewrite E3 in *. change (listed (set_probe (abs w2) s (abs_srv n) (Some (fresh w)))) with (listed (abs w2)) in Hz. rewrite (zlen_perm _ _ HL) in Hz. unfold room in Hroom. lia. }
  intros id w4 [[t ->] [Hid _]]. step. eapply (trans_id_set_runs _ r v); [exact Ev | exact Hpk|]. intros p Hp. step. eapply runs_set_req; [apply lookup_insert_eq|]. match goal with |- runs _ ?x _ => set (w5 := x) end.
  set (v5 := {| {| v with trans_id := id; packet := p |} with ns := Some s |}).
  assert (E5 : abs w5 = edit (set_probe (abs w2) s (abs_srv n) (Some (fresh w))) r (abs_req v5)).
  { rewrite <- E3. unfold abs, edit, w5. cbn. by rewrite insert_insert_eq, fmap_insert. }
  assert (Hmem : memory (abs w5) = {| (memory (abs w2)) with m_probes := <[s := Some (fresh w)]> (m_probes (memory (abs w2))) |}).
  { assert (HR := r_mem_same (abs_req <$> requests w2) r (abs_req v) (abs_req v5) ltac:(by rewrite lookup_fmap, Ev) eq_refl).
    rewrite E5. unfold memory, edit, set_probe. cbn [a_reqs a_srvs a_search a_handles a_searches a_deferred a_calls a_fresh abs]. by rewrite HR, fmap_insert. }
  assert (Hr5 : r_mem (abs_req v5) = (TYPE_A, Probe s, Some (fresh w))) by exact Hrm.
  assert (WO : wf_open E (abs w5) r).
  { split.
    - rewrite E5. apply edit_wf; [by rewrite <- E3 | exact Wn | cbn; by rewrite Hp].
    - rewrite Hmem. apply (probe_set_mem _ s (probe_request n) (fresh w) {| empty_handle with current_req := Some r |} r TYPE_A); try done; [cbn; by rewrite !lookup_fmap, En|].
      cbn. rewrite !lookup_fmap, Ev. cbn. by rewrite Hrm.
    - intros x q Hx. rewrite E5 in Hx. cbn in Hx. apply lookup_insert_Some in Hx as [[<- _]|[_ Hx]]; [by left|]. rewrite E5. exact (Wo x q Hx).
    - rewrite E5. exact Wn.
    - intros h hv x Hh. exact (Ws h hv x Hh). }
  eapply runs_mono; [apply (submit_wf E w5 r v5 WO); [apply lookup_insert_eq|]|].
  - right. exists s. split; [done|]. split; [|exact Hid]. rewrite E5. cbn. rewrite lookup_insert_eq. by eexists.
  - intros [] w6 [WF6 HE]. split; [done|]. split.
    2: { rewrite (et_memory _ _ _ HE). intros arg k HA. apply Hst in HA. cbn [user_arg] in HA. rewrite Z.add_0_r in HA. revert arg k HA. change (accounts (memory (abs w2)) (memory (abs w5))). rewrite Hmem. by apply accounts_same. }
    apply entered_grown in HE. rewrite E5 in HE. unfold grown in *. change (listed (edit (set_probe (abs w2) s (abs_srv n) (Some (fresh w))) r (abs_req v5))) with (listed (abs w2)) in HE. by rewrite (zlen_perm _ _ HL) in HE.
Qed.

(** ** A probe that failed. *)
Lemma probe_failed_same w s : is_Some (servers w !! s) -> runs (nameserver_probe_failed s) w (fun _ w' => abs w' = abs w).
Proof.
  intros [n En]. unfold nameserver_probe_failed. step. step.
  match goal with |- runs _ ?x _ => set (w1 := x) end. assert (E1 : abs w1 = abs w) by (unfold abs, w1; cbn; by rewrite (abs_srv_same _ _ _ _ En)).
  step. eapply runs_get_ns; [apply lookup_insert_eq|]. cbn [state]. case_if; [by step|]. step. step. step. eapply runs_set_ns; [apply lookup_insert_eq|].
  eapply runs_mono; [eapply ns_timer_add_quiet; apply lookup_insert_eq|]. intros [] w2 E2. rewrite E2, <- E1. unfold abs, w1. cbn. by rewrite (abs_srv_same _ _ _ _ (lookup_insert_eq (servers w) s _)).
Qed.

(** ** A callback that was scheduled is run. *)
Definition m_pop (m : mem) (h : nat) (q : list deferred_reply_callback) (ps : gmap nat (option nat)) (cs : list call) : mem :=
  {| m with m_probes := ps; m_handles := delete h (m_handles m); m_deferred := q; m_calls := cs |}.
(** The server of a probe that was not canceled has no probe any more. *)
Definition probe_cleared (m : mem) (d : deferred_reply_callback) (ps : gmap nat (option nat)) : Prop :=
  (ps = m_probes m /\ forall s, d_callback d = Probe s -> d_result d = DNS_ERR_CANCEL) \/
  exists s, d_callback d = Probe s /\ is_Some (m_probes m !! s) /\ ps = <[s := None]> (m_probes m).
Lemma pop_mem m d q h ps cs : mem_wf m -> m_deferred m = d :: q -> d_handle d = Some h -> (forall hv, m_handles m !! h = Some hv -> current_req hv = None) ->
  probe_cleared m d ps -> mem_wf (m_pop m h q ps cs).
Proof.
  intros W Hd Hdh Hidle Hps.
  assert (Hdom : forall x, is_Some (ps !! x) <-> is_Some (m_probes m !! x)).
  { intros x. destruct Hps as [[-> _]|(s & _ & [p Hs] & ->)]; [done|]. by apply (dom_insert_same _ s p). }
  assert (Hold : forall x y, ps !! x = Some (Some y) -> m_probes m !! x = Some (Some y) /\ (d_callback d = Probe x -> d_result d = DNS_ERR_CANCEL)).
  { intros x y. destruct Hps as [[-> Hc]|(s & Hs & _ & ->)]; [intros Hx; split; [done | apply Hc]|]. rewrite lookup_insert_Some. intros [[_ ?]|[Hne Hx]]; [done|]. split; [done | congruence]. }
  pose proof (mw_scheduled m W) as HS. rewrite Hd in HS. cbn in HS. rewrite Hdh in HS. destruct HS as [HND HS]. cbn in HND, HS. apply NoDup_cons in HND as [Hnot HND].
  assert (Hq : forall d', d' ∈ q -> d_handle d' <> Some h) by (intros d' Hd' HE; apply Hnot, list_elem_of_omap; by exists d').
  destruct W. split; unfold m_pop; cbn; try done.
  - intros r t cb o Hr. destruct (mw_req r t cb o Hr) as (Ht & h0 & hv0 & -> & Hh0 & Hc0). split; [done|]. exists h0, hv0. rewrite lookup_delete_ne; [done|]. intros <-. specialize (Hidle hv0 Hh0). congruence.
  - intros x xv r [_ Hx]%lookup_delete_Some. eauto.
  - intros x xv [_ Hx]%lookup_delete_Some. eauto.
  - intros d' Hd'. apply mw_deferred. rewrite Hd. by right.
  - split; [done|]. intros x. split.
    + intros Hx. destruct (proj1 (HS x)) as (xv & Hxv & Hp); [by right|]. exists xv. rewrite lookup_delete_ne; [done|]. by intros <-.
    + intros (xv & [Hne Hx]%lookup_delete_Some & Hp). assert (Hx' : x ∈ h :: omap d_handle q) by (apply HS; by exists xv). by apply elem_of_cons in Hx' as [->|].
  - intros x y Hx. destruct (Hold x y Hx) as [Hx0 Hcb]. destruct (mw_probe x y Hx0) as [[yv Hyv] Hpr].
    assert (Hpr' : probing (m_pop m h q ps cs) y x /\ y <> h).
    { destruct Hpr as [(zv & r & t & Hz & Hcz & Hrz)|(d' & Hd' & Hdh' & Hdc' & Hres)].
      - assert (Hne : y <> h) by (intros ->; specialize (Hidle zv Hz); congruence). split; [|done]. left. exists zv, r, t. cbn. by rewrite lookup_delete_ne.
      - rewrite Hd in Hd'. apply elem_of_cons in Hd' as [->|Hd']; [by exfalso; apply Hres, Hcb|]. split; [right; by exists d'|]. intros ->. by apply (Hq d'). }
    destruct Hpr' as [Hpr' Hne]. split; [rewrite lookup_delete_ne by done; by eexists | exact Hpr'].
  - intros r t x o Hr. rewrite Hdom. eauto.
  - intros d' x Hd' Hcb Hres. rewrite Hdom. apply (mw_target_d d' x); [rewrite Hd; by right | done | done].
  - intros x v Hv. destruct (mw_refs x v Hv) as (HT & Hrest). split; [|done]. apply (total_ext (refs m x)); [|done]. intros y. unfold refs. cbn.
    destruct (decide (y = h)) as [->|]; [|by rewrite lookup_delete_ne]. rewrite lookup_delete_eq. destruct (m_handles m !! h) as [hv|] eqn:Eh; [|done]. destruct (mw_idle h hv Eh (Hidle hv eq_refl)) as [_ ->]. by rewrite decide_False.
  - intros x xv y [_ Hx]%lookup_delete_Some. eauto.
  - intros x Hx. destruct (mw_fresh x Hx) as (F1 & F2 & F3 & F4). split_and!; try done; [|by rewrite lookup_delete_None; right]. specialize (Hdom x). rewrite F2 in Hdom. destruct (ps !! x); [|done]. exfalso. by destruct (proj1 Hdom (ex_intro _ _ eq_refl)).
Qed.
Lemma idle_popped a h d q : wf_but nobody a -> a_deferred a = d :: q -> d_handle d = Some h -> forall hv, a_handles a !! h = Some hv -> current_req hv = None.
Proof.
  intros WF Hd Hdh hv Hh. destruct (current_req hv) as [r|] eqn:Ec; [|done]. exfalso. apply (wf_settled _ _ WF h hv r Hh Ec).
  destruct (mw_scheduled _ (wf_mem _ _ WF)) as [_ HS]. destruct (proj1 (HS h)) as (hv' & Hh' & Hp); [cbn; rewrite Hd; cbn; rewrite Hdh; by left|]. cbn in Hh'. congruence.
Qed.
Lemma pop_wf a h d q ss g cs : wf_but nobody a -> a_deferred a = d :: q -> d_handle d = Some h -> net_wf {| a with a_srvs := ss; a_good := g |} -> probe_cleared (memory a) d (s_probe <$> ss) ->
  wf_but nobody {| a with a_srvs := ss; a_good := g; a_handles := delete h (a_handles a); a_deferred := q; a_calls := cs |}.
Proof.
  intros WF Hd Hdh W' Hps. pose proof (idle_popped a h d q WF Hd Hdh) as Hidle.
  split.
  - apply (net_wf_other {| a with a_srvs := ss; a_good := g |} (delete h (a_handles a)) (a_searches a) q cs (a_fresh a) (a_search a) (a_max a) W').
    intros x Hx. destruct (nw_valid _ W' x Hx) as (v & h0 & hv0 & Hv & Hh0 & Hhv0 & Hc0). exists v, h0, hv0. cbn in *. rewrite lookup_delete_ne; [done|]. intros <-. specialize (Hidle hv0 Hhv0). congruence.
  - exact (pop_mem (memory a) d q h (s_probe <$> ss) cs (wf_mem _ _ WF) Hd Hdh Hidle Hps).
  - exact (wf_owned _ _ WF).
  - intros x xv r Hx. cbn in Hx. apply lookup_delete_Some in Hx as [_ Hx]. by apply (wf_settled _ _ WF x xv).
Qed.
(** A callback that is called is not scheduled any more. *)
Definition callback_called (d : deferred_reply_callback) (cs cs' : list call) : Prop := forall arg, called_for cs' arg = called_for cs arg + user_arg (d_callback d) arg.
Lemma pop_accounts m d q h ps cs : mem_wf m -> m_deferred m = d :: q -> (forall hv, m_handles m !! h = Some hv -> current_req hv = None) -> callback_called d (m_calls m) cs -> accounts m (m_pop m h q ps cs).
Proof.
  intros W Hd Hidle Hcs arg n (k & HT & ->). exists k. split.
  - apply (total_ext (owes m arg)); [|done]. intros x. unfold owes. cbn. destruct (m_reqs m !! x) as [[[t cb] o]|] eqn:Ex; [|done]. destruct (mw_req m W x t cb o Ex) as (_ & h0 & hv0 & -> & Hh0 & Hc0).
    rewrite lookup_delete_ne; [done|]. intros <-. specialize (Hidle hv0 Hh0). congruence.
  - unfold m_pop. cbn [m_deferred m_calls]. rewrite (Hcs arg), Hd. unfold scheduled_for. cbn [sum_over]. lia.
Qed.
(** What the callback itself changes. *)
Definition popped (w w' : world) (d : deferred_reply_callback) (q : list deferred_reply_callback) : Prop :=
  exists ss g cs, abs w' = {| (abs w) with a_srvs := ss; a_good := g; a_deferred := q; a_calls := cs |} /\
    net_wf {| (abs w) with a_srvs := ss; a_good := g |} /\ probe_cleared (memory (abs w)) d (s_probe <$> ss) /\ callback_called d (calls w) cs.
Lemma popped_idle w w' d q cs : net_wf (abs w) -> (forall s, d_callback d = Probe s -> d_result d = DNS_ERR_CANCEL) -> abs w' = {| (abs w) with a_deferred := q; a_calls := cs |} -> callback_called d (calls w) cs -> popped w w' d q.
Proof. intros W Hc E HC. exists (a_srvs (abs w)), (a_good (abs w)), cs. split; [exact E|]. split; [exact W|]. split; [by left | done]. Qed.
Lemma probe_callback_runs w w1 d q s : wf_but nobody (abs w) -> d_callback d = Probe s -> (d_result d <> DNS_ERR_CANCEL -> is_Some (servers w !! s)) -> w1 = {| w with deferred := q |} ->
  runs (nameserver_probe_callback (d_result d) s) w1 (fun _ w' => popped w w' d q).
Proof.
  intros WF Hcb Hs ->. assert (Hcc : callback_called d (calls w) (calls w)) by (intros arg; rewrite Hcb; cbn; lia). unfold nameserver_probe_callback. case_if.
  { step. apply (popped_idle _ _ _ _ (calls w)); [apply WF | | done | done]. intros x _. lia. }
  destruct Hs as [n En]; [lia|]. step. step. match goal with |- runs _ ?x _ => set (w2 := x) end.
  assert (E2 : abs w2 = {| (abs w) with a_srvs := <[s := {| (abs_srv n) with s_probe := None |}]> (a_srvs (abs w)); a_deferred := q |}) by (unfold abs, w2; cbn; by rewrite fmap_insert).
  assert (Ha : a_srvs (abs w) !! s = Some (abs_srv n)) by by apply servers_abs.
  assert (W2 : net_wf {| (abs w) with a_srvs := <[s := {| (abs_srv n) with s_probe := None |}]> (a_srvs (abs w)) |}) by by apply (srv_same_net _ _ (abs_srv n)); [apply WF|..].
  assert (Hm : forall up_, probe_cleared (memory (abs w)) d (s_probe <$> <[s := {| s_load := requests_inflight n; s_up := up_; s_probe := None |}]> (a_srvs (abs w)))).
  { intros up_. right. exists s. split; [done|]. split; [cbn; rewrite !lookup_fmap, En; by eexists|]. by rewrite fmap_insert. }
  assert (Hsame : forall w3, abs w3 = abs w2 -> popped w w3 d q).
  { intros w3 E3. exists (<[s := {| s_load := requests_inflight n; s_up := state n; s_probe := None |}]> (a_srvs (abs w))), (a_good (abs w)), (calls w). split; [by rewrite E3, E2|]. split; [exact W2|]. split; [apply Hm | done]. }
  case_if.
  - unfold nameserver_up. step. eapply runs_get_ns; [apply lookup_insert_eq|]. cbn [state]. case_if; [step; by apply Hsame|]. step. eapply runs_set_ns; [apply lookup_insert_eq|]. cbn [probe_request]. step. step. step.
    eapply runs_set_ns; [apply lookup_insert_eq|]. step. match goal with |- popped w ?x d q => set (w3 := x) end.
    exists (<[s := {| s_load := requests_inflight n; s_up := true; s_probe := None |}]> (a_srvs (abs w))), (a_good (abs w) + 1), (calls w). split; [|split; [|split; [apply Hm | done]]].
    + unfold abs, w3. cbn. by rewrite !insert_insert_eq, fmap_insert.
    + pose proof (up_net _ s {| (abs_srv n) with s_probe := None |} W2 (lookup_insert_eq _ _ _)) as HU. cbn in HU. rewrite insert_insert_eq in HU. by apply HU.
  - eapply runs_mono; [apply probe_failed_same; eexists; apply lookup_insert_eq|]. intros [] w3 E3. by apply Hsame.
Qed.
Lemma run_callback_wf w : wf_but nobody (abs w) -> room (abs w) -> runs reply_run_callback w (fun _ w' => wf_but nobody (abs w') /\ room (abs w') /\ accounts (memory (abs w)) (memory (abs w'))).
Proof.
  intros WF Hroom. unfold reply_run_callback. step. step. destruct (deferred w) as [|d q] eqn:Ed; [step; split; [done|]; split; [done | apply accounts_refl]|]. pose proof (wf_mem _ _ WF) as Wm. assert (Hin : d ∈ m_deferred (memory (abs w))) by (cbn; rewrite Ed; left).
  destruct (mw_deferred _ Wm d Hin) as [Ht [h Hh]]. step. step. step. apply runs_assert; [by destruct Ht as [->|[->| ->]]|].
  step. match goal with |- runs _ ?x _ => set (w1 := x) end. change (match d_reply d with Some _ => DNS_ERR_NONE | None => d_err d end) with (d_result d).
  assert (HP : runs (match d_callback d with
       | User arg => modify (fun w => {| w with calls := calls w ++ [Call arg (d_result d) (d_ttl d) (d_reply d)] |})
       | Probe s => nameserver_probe_callback (d_result d) s
       end) w1 (fun _ w' => popped w w' d q)).
  { destruct (d_callback d) as [arg|s] eqn:Ec.
    - step. apply (popped_idle _ _ _ _ (calls w ++ [Call arg (d_result d) (d_ttl d) (d_reply d)])); [apply WF | by rewrite Ec | reflexivity|]. intros x. rewrite Ec. unfold called_for. by rewrite sum_over_snoc.
    - apply probe_callback_runs; [done | done | | done]. intros Hres. destruct (mw_target_d _ Wm d s Hin Ec Hres) as [p Hp]. cbn in Hp. rewrite !lookup_fmap in Hp. destruct (servers w !! s); [by eexists | done]. }
  eapply runs_mono; [exact HP|]. intros [] w2 (ss & g & cs & E2 & W2 & Hps & Hcs). rewrite Hh.
  destruct (mw_scheduled _ Wm) as [_ HS]. destruct (proj1 (HS h)) as (hv & Ehv & Hp); [cbn; rewrite Ed; cbn; rewrite Hh; by left|]. cbn in Ehv.
  assert (Ehv2 : handles w2 !! h = Some hv) by (change (handles w2) with (a_handles (abs w2)); by rewrite E2).
  step. eapply runs_get_handle; [exact Ehv2|]. rewrite Hp. eapply runs_free_handle; [exact Ehv2|]. match goal with |- wf_but nobody (abs ?x) /\ _ => set (w3 := x) end.
  assert (E3 : abs w3 = {| (abs w) with a_srvs := ss; a_good := g; a_handles := delete h (a_handles (abs w)); a_deferred := q; a_calls := cs |}).
  { change (abs w3) with {| (abs w2) with a_handles := delete h (a_handles (abs w2)) |}. by rewrite E2. }
  rewrite E3. split; [by apply (pop_wf (abs w) h d)|]. split; [done|]. apply (pop_accounts (memory (abs w)) d q h (s_probe <$> ss) cs); [done | done | by apply (idle_popped _ h d q) | done].
Qed.
End Probes.

(** * Configuring a resolver keeps the invariant

    Servers are added, the number of requests in flight is set, the search
    list is changed; a new resolver satisfies the invariant. *)
(** ** A server is added. *)
Section Add.
Implicit Types (a : astate) (m : mem).
Definition added a (s : nat) (l : list nat) : astate :=
  {| a with a_order := l; a_good := a_good a + 1; a_srvs := <[s := ASrv 0 true None]> (a_srvs a); a_fresh := S s |}.
Lemma added_net a s l : net_wf a -> a_srvs a !! s = None -> l ≡ₚ s :: a_order a -> net_wf (added a s l).
Proof.
  intros W Hs Hl. assert (Hd : forall x, is_Some (a_srvs a !! x) -> is_Some (<[s := ASrv 0 true None]> (a_srvs a) !! x)) by (intros x Hx; rewrite lookup_insert_is_Some; destruct (decide (s = x)); naive_solver).
  destruct W. split; try done; unfold added; cbn.
  - intros i h r Hi Hr. destruct (nw_inflight i h r Hi Hr) as (q & t & Hq & Ht & Hx & Hid). exists q, t. split_and!; try done; [by apply Hd | apply Hid | apply Hid | apply Hid].
  - apply (mem_ok_perm (s :: a_order a)); [done|]. apply (mem_ok_iff _ (fun x => is_Some (a_srvs a !! x) \/ x = s)); [|apply mem_ok_cons; [rewrite Hs; by intros [] | done]].
    intros x. rewrite lookup_insert_is_Some. destruct (decide (s = x)); naive_solver.
  - intros t n. rewrite lookup_insert_Some. intros [[<- <-]|[Hne Hn]]; [|exact (nw_load t n Hn)]. apply total_zero. intros r. unfold load, ns_of, inflight. cbn. fold (inflight a).
    rewrite decide_False; [done|]. intros [Hr Hns]. apply inflight_head in Hr as (i & h & Hi & Hr). destruct (nw_inflight i h r Hi Hr) as (q & t & Hq & Ht & [n Hx] & _). rewrite Hq in Hns. cbn in Hns. congruence.
  - apply (total_here (up a) _ (a_good a) _ s 1); [done | | |done].
    + intros x Hx. unfold up. cbn. by rewrite lookup_insert_ne.
    + unfold up. cbn. by rewrite lookup_insert_eq, Hs.
Qed.
Lemma added_mem m s : mem_wf m -> (m_fresh m <= s)%nat -> mem_wf {| m with m_probes := <[s := None]> (m_probes m); m_fresh := S s |}.
Proof.
  intros W Hs. assert (Hd : forall x, is_Some (m_probes m !! x) -> is_Some (<[s := None]> (m_probes m) !! x)) by (intros x Hx; rewrite lookup_insert_is_Some; destruct (decide (s = x)); naive_solver).
  destruct W. split; try done; cbn.
  - intros t h. rewrite lookup_insert_Some. intros [[_ ?]|[_ Ht]]; [done | exact (mw_probe t h Ht)].
  - intros r t x o Hr. apply Hd. eauto.
  - intros d x H1 H2 H3. apply Hd. eauto.
  - intros x Hx. destruct (mw_fresh x ltac:(lia)) as (F1 & F2 & F3 & F4). split_and!; try done. rewrite lookup_insert_ne; [done | lia].
Qed.
Lemma added_wf E a s l : wf_but E a -> s = a_fresh a -> l ≡ₚ s :: a_order a -> wf_but E (added a s l).
Proof.
  intros [W Wm Wo Ws] -> Hl. split; [ | | exact Wo | exact Ws].
  - apply added_net; [done | | done]. destruct (mw_fresh _ Wm (a_fresh a) (le_n _)) as (_ & F & _). cbn in F. by rewrite lookup_fmap, fmap_None in F.
  - pose proof (added_mem (memory a) (a_fresh a) Wm (le_n _)) as HA. unfold memory at 1, added. cbn. rewrite fmap_insert. exact HA.
Qed.
End Add.

(** ** Search lists. *)
Section Lists.
Implicit Types (m : mem).
Lemma decref_lookup ss o s : decref ss o !! s = if decide (o = Some s) then v ← ss !! s; (if refcount v - 1 =? 0 then None else Some {| v with refcount := refcount v - 1 |}) else ss !! s.
Proof.
  destruct o as [g|]; cbn [decref]; [|done]. destruct (decide (Some g = Some s)) as [[= ->]|Hne].
  - destruct (ss !! s) as [v|] eqn:Ev; cbn; [|done]. case_if; [apply lookup_delete_eq | apply lookup_insert_eq].
  - destruct (ss !! g) as [v|]; [|done]. case_if; [by rewrite lookup_delete_ne by congruence | by rewrite lookup_insert_ne by congruence].
Qed.
Lemma search_edit_mem m s v v' : mem_wf m -> m_searches m !! s = Some v -> refcount v' = refcount v -> num_domains v' = zlen (domains v') -> Forall is_cstring (domains v') ->
  mem_wf {| m with m_searches := <[s := v']> (m_searches m) |}.
Proof.
  intros W Hv Hr Hn HF. assert (Hd : forall x, is_Some (<[s := v']> (m_searches m) !! x) <-> is_Some (m_searches m !! x)) by (intros x; by apply (dom_insert_same _ s v)).
  destruct W. split; try done; cbn.
  - intros x u. rewrite lookup_insert_Some. intros [[<- <-]|[_ Hu]]; [|exact (mw_refs x u Hu)]. rewrite Hr. by destruct (mw_refs s v Hv) as (HT & Hpos & _).
  - intros h hv x Hh Hs. rewrite Hd. by apply (mw_search h hv).
  - intros x Hx. rewrite Hd. auto.
  - intros x Hx. destruct (mw_fresh x Hx) as (F1 & F2 & F3 & F4). split_and!; try done. rewrite lookup_insert_ne; [done | congruence].
Qed.
Definition m_new_search m (s : nat) : mem :=
  {| m with m_search := Some s; m_searches := <[s := Searches 1 1 0 []]> (decref (m_searches m) (m_search m)); m_fresh := S s |}.
Lemma new_search_mem m s : mem_wf m -> (m_fresh m <= s)%nat -> mem_wf (m_new_search m s).
Proof.
  intros W Hf. pose proof (mw_fresh m W s Hf) as (_ & _ & _ & Fs).
  assert (Hnone : forall h hv, m_handles m !! h = Some hv -> search_state hv <> Some s) by (intros h hv Hh Hs; destruct (mw_search m W h hv s Hh Hs) as ([v Hv] & _); congruence).
  assert (Hglob : m_search m <> Some s) by (intros Hs; destruct (mw_global m W s Hs) as [v Hv]; congruence).
  assert (Hrefs : forall x, refs (m_new_search m s) x = refs m x) by done.
  assert (Hg : forall x, x <> s -> global_ref (m_new_search m s) x = 0) by (intros x Hx; unfold global_ref; cbn; by rewrite decide_False by congruence).
  destruct W. split; unfold m_new_search in *; cbn in *; try done.
  - intros x v. destruct (decide (x = s)) as [->|Hx].
    + rewrite lookup_insert_eq. intros [= <-]. cbn. split_and!; [|lia | done | constructor]. unfold global_ref. cbn. rewrite decide_True by done. apply total_zero. intros h. unfold refs. cbn.
      destruct (m_handles m !! h) as [hv|] eqn:Eh; [|done]. rewrite decide_False; [done | by apply (Hnone h)].
    + rewrite lookup_insert_ne, decref_lookup, Hg by done. destruct (decide (m_search m = Some x)) as [Hm|Hm].
      * destruct (m_searches m !! x) as [u|] eqn:Eu; cbn; [|done]. case_if; [done|]. intros [= <-]. cbn. destruct (mw_refs x u Eu) as (HT & Hpos & Hrest). unfold global_ref in HT. rewrite decide_True in HT by done.
        pose proof (total_nonneg _ _ (refs_nonneg m x) HT). rewrite Z.sub_0_r. split; [exact HT|]. split; [lia | done].
      * intros Hv. destruct (mw_refs x v Hv) as (HT & Hrest). unfold global_ref in HT. rewrite decide_False in HT by done. by split.
  - intros h hv x Hh Hs. destruct (mw_search h hv x Hh Hs) as ([v Hv] & Hrest). split; [|done]. rewrite lookup_insert_ne by (intros <-; by apply (Hnone h hv)). rewrite decref_lookup.
    destruct (decide (m_search m = Some x)) as [Hm|Hm]; [|by eexists]. rewrite Hv. cbn. case_if; [|by eexists]. exfalso. destruct (mw_refs x v Hv) as (HT & _). unfold global_ref in HT. rewrite decide_True in HT by done.
    assert (0 < refcount v - 1); [|lia]. apply (total_pos _ _ (refs_nonneg m x) HT). exists h. unfold refs. rewrite Hh, decide_True by done. lia.
  - intros x [= <-]. rewrite lookup_insert_eq. by eexists.
  - intros x Hx. destruct (mw_fresh x ltac:(lia)) as (F1 & F2 & F3 & F4). split_and!; try done. rewrite lookup_insert_ne, decref_lookup, F4 by lia. by destruct (decide _).
Qed.
End Lists.

Section Config.
Context `{N : Network} {L : NetworkLaws N}.
Implicit Types (w : world).
Lemma looks_servers w (Q : unit -> world -> Prop) : net_wf (abs w) -> Q tt w -> runs (for_each (server_head (base w)) (fun s => get_ns s;; mret tt)) w Q.
Proof.
  intros W HQ. apply runs_looks; [|done]. intros s Hs. apply (nw_order _ W) in Hs. cbn in Hs. rewrite lookup_fmap, fmap_is_Some in Hs. destruct Hs as [n En]. by steps.
Qed.
Lemma add_nameserver_wf E w sa len : wf_but E (abs w) -> room (abs w) -> runs (evdns_nameserver_add_impl_ sa len) w (fun _ w' => kept E w w').
Proof.
  intros WF Hroom. unfold evdns_nameserver_add_impl_. step. step. step. apply looks_servers; [apply WF|]. step. step. cbv beta.
  assert (Hsame : forall w', abs w' = abs w -> kept E w w') by (intros; by apply same_kept).
  case_if; [step; by apply Hsame|]. case_if; [step; by apply Hsame|]. unfold mm_alloc, event_add. steps. rewrite mm_ok_law. cbn [negb]. steps. case_if; [step; by apply Hsame|].
  assert (HA : runs (if disable_when_inactive (base w) then mret true else t ← tick; mret (event_ok t)) {| w with ticks := S (S (ticks w)) |} (fun ok w' => exists t, w' = at_tick w t)) by (case_if; steps; by eexists).
  step. eapply runs_mono; [exact HA|]. intros ok w1 [t ->]. destruct ok; cbn [negb]; [|step; by apply Hsame]. steps.
  match goal with |- kept E w ?x => set (w2 := x) end.
  set (l := match server_head (base w) with [] => [fresh w] | h :: l => h :: fresh w :: l end).
  assert (Ew : abs w2 = added (abs w) (fresh w) l) by (unfold abs, added, w2; cbn; by rewrite fmap_insert).
  split.
  - rewrite Ew. apply added_wf; [done | done|]. unfold l. cbn. destruct (server_head (base w)) as [|x m]; [done|]. apply perm_swap.
  - rewrite Ew. exact Hroom.
  - intros s Hs. cbn. rewrite lookup_insert_is_Some. destruct (decide (fresh w = s)); [by left | by right].
  - rewrite Ew. by apply accounts_same.
Qed.
Lemma resume_kept E w : wf_but E (abs w) -> room (abs w) -> runs evdns_base_resume w (fun _ w' => kept E w w').
Proof. intros WF Hroom. eapply runs_mono; [apply pump_moves; [apply WF | done]|]. intros [] w' M. by apply moves_kept. Qed.

(** ** The number of requests in flight is set. *)
Lemma rehash_fold (m : gmap nat request) rs : forall heads, heads <> [] -> (forall r, r ∈ rs -> is_Some (m !! r)) ->
  let heads' := foldl (rehash m) heads rs in length heads' = length heads /\ concat heads' ≡ₚ concat heads ++ rs /\
  forall i l r, heads' !! i = Some l -> r ∈ l -> (exists l0, heads !! i = Some l0 /\ r ∈ l0) \/ (exists v, m !! r = Some v /\ i = Z.to_nat (trans_id v mod zlen heads)).
Proof.
  induction rs as [|r rs IH]; intros heads Hne Hex; cbn [foldl]; [split; [done|]; split; [by rewrite app_nil_r | intros i l r Hi Hr; left; by exists l]|].
  destruct (Hex r ltac:(left)) as [v Ev]. destruct (head_index heads (trans_id v) Hne) as [l Hl]. destruct (concat_split _ _ _ Hl) as [rest Hrest].
  assert (E : rehash m heads r = <[Z.to_nat (trans_id v mod zlen heads) := l ++ [r]]> heads) by (unfold rehash; rewrite Ev; by apply (alter_is_insert heads _ l (fun l => l ++ [r]))).
  rewrite E. set (h1 := <[_ := _]> heads) in *. assert (Hlen : length h1 = length heads) by apply length_insert. assert (Hne1 : h1 <> []) by (intros Hn; rewrite Hn in Hlen; by destruct heads).
  destruct (IH h1 Hne1) as (HL & HP & HI); [intros x Hx; apply Hex; by right|]. split; [by rewrite HL|]. split.
  - rewrite HP. unfold h1. rewrite Hrest. assert (HE : concat heads ≡ₚ l ++ rest) by (rewrite <- Hrest; by rewrite list_insert_id). rewrite HE, <- !app_assoc. apply Permutation_app_head. cbn [app]. apply Permutation_middle.
  - intros i l' x Hi Hx. destruct (HI i l' x Hi Hx) as [(l0 & H0 & Hx0)|(u & Eu & ->)]; [|right; exists u; split; [done|]; unfold zlen; by rewrite Hlen].
    unfold h1 in H0. apply list_lookup_insert_Some in H0 as [(<- & <- & Hlt)|[Hne' H0]]; [|left; by exists l0]. apply elem_of_app in Hx0 as [Hx0|Hx0]; [left; by exists l|].
    apply list_elem_of_singleton in Hx0 as ->. right. by exists v.
Qed.
Definition with_heads (a : astate) (heads : list (list nat)) (n : Z) : astate := {| a with a_heads := heads; a_max := n |}.
Lemma with_heads_net a heads n : net_wf a -> heads <> [] -> concat heads ≡ₚ inflight a -> (forall i l r, heads !! i = Some l -> r ∈ l -> exists q, a_reqs a !! r = Some q /\ i = Z.to_nat (a_id q mod zlen heads)) -> net_wf (with_heads a heads n).
Proof.
  intros W Hne HP Hi. assert (HPl : listed (with_heads a heads n) ≡ₚ listed a) by (unfold listed at 1, inflight, with_heads; cbn; by rewrite HP).
  assert (Hin : forall r, r ∈ inflight (with_heads a heads n) <-> r ∈ inflight a) by (intros r; unfold inflight at 1, with_heads; cbn; by rewrite HP).
  destruct W. split; try done.
  - by rewrite HPl.
  - intros i l r Hl Hr. destruct (Hi i l r Hl Hr) as (q & Hq & ->). assert (Hr' : r ∈ inflight a) by (apply Hin, inflight_head; by exists (Z.to_nat (a_id q mod zlen heads)), l).
    apply inflight_head in Hr' as (i0 & l0 & Hi0 & Hr0). destruct (nw_inflight i0 l0 r Hi0 Hr0) as (q' & s & Hq' & Hs & Hx & Hid & _). simplify_eq. exists q, s. split_and!; try done; apply Hid.
  - intros r Hr. rewrite HPl in Hr. exact (nw_valid r Hr).
  - unfold inflight. cbn. rewrite nw_in. symmetry. by apply zlen_perm.
  - intros s m Hm. apply (total_ext (load a s)); [|exact (nw_load s m Hm)]. intros r. apply load_ext; [apply Hin | done].
Qed.
Lemma set_max_wf E w n : wf_but E (abs w) -> room (abs w) -> n + 4 <= INT_MAX -> runs (evdns_base_set_max_requests_inflight n) w (fun _ w' => kept E w w').
Proof.
  intros WF Hroom Hn. unfold evdns_base_set_max_requests_inflight. set (mx := if n <? 1 then 1 else n). assert (Hmx : 1 <= mx /\ mx + 4 <= INT_MAX) by (unfold mx, INT_MAX in *; case_if; lia). clearbody mx. unfold mm_alloc.
  step. apply runs_assert; [lia|]. steps. rewrite mm_ok_law. cbn [negb]. steps.
  assert (Hvalid : forall r, r ∈ concat (req_heads (base w)) -> valid (abs w) r) by (intros r Hr; apply (nw_valid _ (wf_net _ _ WF)); by apply listed_inflight).
  apply runs_looks. { intros r Hr. apply runs_valid; [by apply Hvalid | done]. }
  steps. set (empty := replicate (Z.to_nat ((mx + 4) / 5)) (@nil nat)). assert (Hk : (0 < Z.to_nat ((mx + 4) / 5))%nat) by lia.
  assert (Hlen : length empty = Z.to_nat ((mx + 4) / 5)) by apply length_replicate. assert (Hne : empty <> []) by (intros E0; rewrite E0 in Hlen; cbn in Hlen; lia).
  destruct (rehash_fold (requests w) (concat (req_heads (base w))) empty Hne) as (HL & HP & HI).
  { intros r Hr. destruct (Hvalid r Hr) as (q & _ & _ & Hq & _). destruct (abs_reqs_Some _ _ _ Hq) as (v & Ev & _). by exists v. }
  set (heads' := foldl _ _ _) in *. match goal with |- kept E w ?x => set (w1 := x) end. assert (E1 : abs w1 = with_heads (abs w) heads' mx) by done.
  assert (Hc : concat empty = []) by (unfold empty; generalize (Z.to_nat ((mx + 4) / 5)); by induction 0). rewrite Hc in HP. cbn [app] in HP.
  assert (HPl : listed (abs w1) ≡ₚ listed (abs w)) by (rewrite E1; unfold listed at 1, inflight, with_heads; cbn; by rewrite HP).
  split; [split| by unfold room; rewrite (zlen_perm _ _ HPl) | done | rewrite E1; by apply accounts_same].
  - rewrite E1. apply with_heads_net; [apply WF | intros E0; rewrite E0 in HL; cbn in HL; lia | exact HP|]. intros i l r Hi Hr. destruct (HI i l r Hi Hr) as [(l0 & H0 & Hr0)|(v & Ev & ->)].
    + unfold empty in H0. apply lookup_replicate in H0 as [-> _]. by apply not_elem_of_nil in Hr0.
    + exists (abs_req v). split; [by apply requests_abs|]. cbn. unfold zlen. by rewrite HL.
  - exact (wf_mem _ _ WF).
  - intros r q Hq. rewrite HPl. exact (wf_owned _ _ WF r q Hq).
  - exact (wf_settled _ _ WF).
Qed.

(** ** The search list is changed. *)
Lemma searches_kept E w w' g ss f : wf_but E (abs w) -> room (abs w) -> abs w' = {| (abs w) with a_search := g; a_searches := ss; a_fresh := f |} -> mem_wf {| (memory (abs w)) with m_search := g; m_searches := ss; m_fresh := f |} -> kept E w w'.
Proof.
  intros [W Wm Wo Ws] Hroom E1 Hm. split; [|by rewrite E1 | | rewrite E1; by apply accounts_same].
  - rewrite E1. split; [ | exact Hm | exact Wo | exact Ws].
    apply (net_wf_other (abs w) (a_handles (abs w)) ss (a_deferred (abs w)) (a_calls (abs w)) f g (a_max (abs w)) W). intros r Hr. by apply W.
  - intros s [n En]. apply (f_equal (fun a => a_srvs a !! s)) in E1. cbn in E1. rewrite !lookup_fmap, En in E1. destruct (servers w' !! s); [by eexists | done].
Qed.
Lemma search_clear_wf E w : wf_but E (abs w) -> room (abs w) -> runs evdns_base_search_clear w (fun _ w' => kept E w w').
Proof.
  intros WF Hroom. unfold evdns_base_search_clear, search_postfix_clear. step. step. step. apply decref_runs; [intros s Hs; exact (mw_global _ (wf_mem _ _ WF) s Hs)|].
  unfold search_state_new, mm_alloc. steps. rewrite mm_ok_law. cbn [negb]. steps. eapply searches_kept; [done | done | reflexivity|]. exact (new_search_mem (memory (abs w)) (fresh w) (wf_mem _ _ WF) (le_n _)).
Qed.
Lemma the_search_runs E w : wf_but E (abs w) -> room (abs w) -> runs the_search_state w (fun o w' => kept E w w' /\ exists s v, o = Some s /\ searches w' !! s = Some v).
Proof.
  intros WF Hroom. unfold the_search_state. step. step. destruct (global_search_state (base w)) as [s|] eqn:Eg.
  - step. split; [by apply kept_refl|]. destruct (mw_global _ (wf_mem _ _ WF) s Eg) as [v Ev]. by exists s, v.
  - unfold search_state_new, mm_alloc. steps. rewrite mm_ok_law. cbn [negb]. steps. split.
    + eapply searches_kept; [done | done | reflexivity|]. pose proof (new_search_mem (memory (abs w)) (fresh w) (wf_mem _ _ WF) (le_n _)) as HN. unfold m_new_search in HN. cbn in HN. rewrite Eg in HN. exact HN.
    + eexists _, _. split; [done|]. apply lookup_insert_eq.
Qed.
Lemma skip_dots_cstring s : is_cstring s -> is_cstring (skip_dots s).
Proof. induction s as [|c s IH]; [done|]. intros Hc. cbn. case_if; [|done]. apply IH. by apply Forall_cons in Hc as [_ ?]. Qed.
Lemma search_edit_kept E w s v v' t : wf_but E (abs w) -> room (abs w) -> searches w !! s = Some v -> refcount v' = refcount v -> num_domains v' = zlen (domains v') -> Forall is_cstring (domains v') ->
  kept E w {| w with searches := <[s := v']> (searches w); ticks := t |}.
Proof.
  intros WF Hroom Ev Hr Hn HF. apply (searches_kept E w _ (global_search_state (base w)) (<[s := v']> (searches w)) (fresh w)); try done. exact (search_edit_mem (memory (abs w)) s v v' (wf_mem _ _ WF) Ev Hr Hn HF).
Qed.
Lemma search_add_wf E w domain : wf_but E (abs w) -> room (abs w) -> is_cstring domain -> runs (evdns_base_search_add domain) w (fun _ w' => kept E w w').
Proof.
  intros WF Hroom Hc. unfold evdns_base_search_add, search_postfix_add. step. eapply runs_mono; [by apply (the_search_runs E)|]. intros o w1 [K1 (s & v & -> & Ev)].
  destruct (mw_refs _ (wf_mem _ _ (kp_wf _ _ _ K1)) s v Ev) as (_ & _ & Hn & HF). unfold mm_alloc. steps. rewrite mm_ok_law. eapply runs_set_search; [apply lookup_insert_eq|]. cbn. rewrite insert_insert_eq.
  apply (kept_trans E E w w1 _ K1). apply (search_edit_kept E w1 s v); [apply K1 | apply K1 | done | done | cbn; unfold zlen in *; cbn [length]; lia|]. constructor; [by apply skip_dots_cstring | done].
Qed.
Lemma search_ndots_wf E w n : wf_but E (abs w) -> room (abs w) -> runs (evdns_base_search_ndots_set n) w (fun _ w' => kept E w w').
Proof.
  intros WF Hroom. unfold evdns_base_search_ndots_set. step. eapply runs_mono; [by apply (the_search_runs E)|]. intros o w1 [K1 (s & v & -> & Ev)].
  destruct (mw_refs _ (wf_mem _ _ (kp_wf _ _ _ K1)) s v Ev) as (_ & _ & Hn & HF). step. apply (kept_trans E E w w1 _ K1). by apply (search_edit_kept E w1 s v _ (ticks w1)); [apply K1 | apply K1|..].
Qed.

(** ** A new resolver. *)
Lemma new_resolver_wf inactive : exists w, evdns_base_new inactive = Some (tt, w) /\ wf_but nobody (abs w) /\ room (abs w) /\ abs w = abs (World {| (zero_base inactive) with req_heads := replicate 13 []; global_max_requests_inflight := 64 |} ∅ ∅ ∅ ∅ [] [] [] 1 0).
Proof.
  set (final := World {| (zero_base inactive) with req_heads := replicate 13 []; global_max_requests_inflight := 64 |} ∅ ∅ ∅ ∅ [] [] [] 1 0).
  assert (HR : runs (evdns_base_set_max_requests_inflight 64;; mret tt) (World (zero_base inactive) ∅ ∅ ∅ ∅ [] [] [] 0 0) (fun _ w => w = final)).
  { unfold evdns_base_set_max_requests_inflight, mm_alloc. cbv zeta. step. step. apply runs_assert; [done|]. steps. rewrite mm_ok_law. cbn [negb]. steps. cbn [zero_base req_heads concat for_each foldl]. by steps. }
  destruct HR as ([] & w & E & ->). exists final. split; [exact E|]. split; [|by split]. clear E.
  split; cbn.
  - split; cbn; try done; try (intros ? ?; by rewrite lookup_empty).
    + constructor.
    + intros i l r Hi Hr. change (replicate 13 (@nil nat) !! i = Some l) in Hi. apply lookup_replicate in Hi as [-> _]. by apply not_elem_of_nil in Hr.
    + intros r Hr. by apply not_elem_of_nil in Hr.
    + intros r Hr. by apply not_elem_of_nil in Hr.
    + apply mem_ok_nil. intros x. rewrite fmap_empty, lookup_empty. by intros [].
    + apply total_zero. done.
  - split; cbn; try done; try (intros ? ?; by rewrite lookup_empty).
    + by intros d Hd%not_elem_of_nil.
    + apply mem_ok_nil. intros x (hv & Hx & _). by rewrite lookup_empty in Hx.
    + by intros d s Hd%not_elem_of_nil.
  - intros r q. by rewrite fmap_empty, lookup_empty.
  - intros h hv r. by rewrite lookup_empty.
Qed.
End Config.
