(* ===== verification/ResolverProps.v ===== *)
(** * What the resolver guarantees

    Every sequence of calls and events from a new resolver runs without a
    fault, keeps its counters true, and calls each callback once. *)
From Stdlib Require Import Ascii String.
From S2P Require Import Prelude Timeval Event Buffer BufferInv CString Address UriCodec Dns DnsNames Resolver ResolverInv ResolverPump ResolverFinish ResolverOps ResolverNew ResolverReply ResolverProbe.
Open Scope Z_scope.

Section Props.
Context `{N : Network}.
Implicit Types (w : world).

(** ** Calls of the user and events.  Suspending a resolver and freeing it are
    not among them: after them callbacks and requests may use what was freed. *)
Inductive operation :=
| Resolve (ipv6 : bool) (name : list Z) (flags : Z) (arg : nat)
| Reverse (a flags : Z) (arg : nat)
| ReverseIpv6 (a : list Z) (flags : Z) (arg : nat)
| Cancel (h : nat)
| AddNameserver (a : sockaddr) (len : Z)
| SearchClear
| SearchAdd (domain : list Z)
| SearchNdots (n : Z)
| SetMaxInflight (n : Z)
| Resume
| RequestTimer (r : nat)
| ProbeTimer (s : nat)
| Ready (s : nat) (writable : bool) (input : option (list received))
| RunCallback.
(** The result: the arguments of the lookups that begin. *)
Definition lookup_of (arg : nat) (m : M (option nat)) : M (list nat) := o ← m; mret (match o with Some _ => [arg] | None => [] end).
Definition silent {A} (m : M A) : M (list nat) := m;; mret [].
(** A timer that goes off is not pending any more. *)
Definition perform (o : operation) : M (list nat) :=
  match o with
  | Resolve ipv6 name flags arg => lookup_of arg ((if ipv6 then evdns_base_resolve_ipv6 else evdns_base_resolve_ipv4) name flags arg)
  | Reverse a flags arg => lookup_of arg (evdns_base_resolve_reverse a flags arg)
  | ReverseIpv6 a flags arg => lookup_of arg (evdns_base_resolve_reverse_ipv6 a flags arg)
  | Cancel h => silent (evdns_cancel_request h)
  | AddNameserver a len => silent (evdns_base_nameserver_sockaddr_add a len)
  | SearchClear => silent evdns_base_search_clear
  | SearchAdd domain => silent (evdns_base_search_add domain)
  | SearchNdots n => silent (evdns_base_search_ndots_set n)
  | SetMaxInflight n => silent (evdns_base_set_max_requests_inflight n)
  | Resume => silent evdns_base_resume
  | RequestTimer r => silent (req_timer_del r;; evdns_request_timeout_callback r)
  | ProbeTimer s => silent (ns_timer_del s;; nameserver_prod_callback s)
  | Ready s writable input => silent (nameserver_ready_callback s writable input)
  | RunCallback => silent reply_run_callback
  end.
(** Strings are strings, packets are of bytes, a canceled handle is live and the
    user's, and only what is pending occurs. *)
Definition allowed w (o : operation) : Prop :=
  match o with
  | Resolve _ name _ _ => is_cstring name
  | Reverse a _ _ => 0 <= a < 2 ^ 32
  | ReverseIpv6 a _ _ => Forall is_byte a
  | Cancel h => is_Some (handles w !! h) /\ forall s n, servers w !! s = Some n -> probe_request n <> Some h
  | SearchAdd domain => is_cstring domain
  | RequestTimer r => exists v, requests w !! r = Some v /\ timeout_event v <> None
  | ProbeTimer s => exists n, servers w !! s = Some n /\ probe_event n <> None
  | SetMaxInflight n => n + 4 <= INT_MAX
  | Ready s _ input => is_Some (servers w !! s) /\ Forall good_input (default [] input)
  | _ => True
  end.
(** Fewer requests than transaction ids. *)
Definition admissible w (o : operation) : Prop := allowed w o /\ zlen (concat (req_heads (base w)) ++ req_waiting_head (base w)) < 0xffff.
(** The states that a new resolver can come to, with the lookups that began. *)
Inductive reachable : world -> list nat -> Prop :=
| reachable_new inactive w : evdns_base_new inactive = Some (tt, w) -> reachable w []
| reachable_step w begun o l w' : reachable w begun -> admissible w o -> perform o w = Some (l, w') -> reachable w' (begun ++ l).

(** ** One operation. *)
Section Steps.
Context {L : NetworkLaws N}.
Definition owed_for (l : list nat) (arg : nat) : Z := sum_over (fun a => user_arg (User a) arg) l.
Definition stepped w (l : list nat) w' : Prop := wf_but nobody (abs w') /\ forall arg n, account (memory (abs w)) arg n -> account (memory (abs w')) arg (n + owed_for l arg).
Lemma silent_stepped {A} (m : M A) w : runs m w (fun _ w' => wf_but nobody (abs w') /\ accounts (memory (abs w)) (memory (abs w'))) -> runs (silent m) w (stepped w).
Proof.
  intros HR. unfold silent. step. eapply runs_mono; [exact HR|]. intros a w' [WF HA]. step. split; [done|]. intros arg n. cbn. rewrite Z.add_0_r. apply HA.
Qed.
Lemma kept_stepped {A} (m : M A) w : runs m w (fun _ w' => kept nobody w w') -> runs (silent m) w (stepped w).
Proof. intros HR. apply silent_stepped. eapply runs_mono; [exact HR|]. intros a w' []. by split. Qed.
Lemma lookup_stepped arg m w : runs m w (begun nobody (User arg) w) -> runs (lookup_of arg m) w (stepped w).
Proof.
  intros HR. unfold lookup_of. step. eapply runs_mono; [exact HR|]. intros o w' (WF & _ & HO). step. split; [done|]. intros x n. unfold owed_for. destruct o; cbn [sum_over]; rewrite ?Z.add_0_r; apply HO.
Qed.
Definition all_char (l : list Z) : bool := forallb (fun c => (0 <? c) && (c <? 256)) l.
Lemma all_char_ok l : all_char l = true -> is_cstring l.
Proof. unfold all_char, is_cstring. rewrite forallb_forall, Forall_forall. intros HA c Hc. rewrite list_elem_of_In in Hc. specialize (HA c Hc). unfold is_char. lia. Qed.
Lemma nybbles_cstring l : Forall is_byte l -> is_cstring (flat_map nybbles l).
Proof.
  intros HF. unfold is_cstring. induction HF as [|b l Hb HF IH]; [constructor|]. cbn [flat_map]. apply Forall_app. split; [|done]. unfold is_byte in Hb.
  apply all_char_ok, (all_chars_ok (fun c => all_char (nybbles c)) ltac:(vm_compute; reflexivity) b). lia.
Qed.
Lemma printf_cstring x : is_cstring (printf_d (Z.land x 0xff)).
Proof.
  apply all_char_ok, (all_chars_ok (fun c => all_char (printf_d c)) ltac:(vm_compute; reflexivity)). change 0xff with (Z.ones 8). rewrite Z.land_ones by lia. apply Z.mod_pos_bound. lia.
Qed.
Lemma arpa_cstring a : is_cstring (in_addr_arpa a).
Proof.
  unfold in_addr_arpa. assert (Hdot : is_cstring [46]) by by apply all_char_ok. assert (Hend : is_cstring (str ".in-addr.arpa")) by by apply all_char_ok.
  unfold is_cstring in *. repeat (apply Forall_app; split); try done; apply printf_cstring.
Qed.
Lemma arpa6_cstring a : Forall is_byte a -> is_cstring (flat_map nybbles (reverse a) ++ str "ip6.arpa").
Proof. intros Ha. apply Forall_app. split; [by apply nybbles_cstring, Forall_reverse | by apply all_char_ok]. Qed.

(** Every operation. *)
Lemma timer_stepped w r v : wf_but nobody (abs w) -> room (abs w) -> requests w !! r = Some v -> timeout_event v <> None -> runs (perform (RequestTimer r)) w (stepped w).
Proof.
  intros WF Hroom Ev Ht. assert (Hns : exists s, ns v = Some s).
  { pose proof (nw_sound _ (wf_net _ _ WF) r _ (requests_abs _ _ _ Ev)) as HS. apply andb_true_iff in HS as [_ HS]. unfold timer_ok in HS. destruct (ns v) as [s|]; [by exists s|]. by destruct (timeout_event v). }
  destruct Hns as [s Es]. pose proof (listed_ns w r v (wf_net _ _ WF) (wf_owned _ _ WF r _ (requests_abs _ _ _ Ev)) Ev) as Hr. rewrite Es in Hr. cbn [perform].
  apply kept_stepped. step. step. match goal with |- runs _ ?x _ => set (w1 := x) end.
  assert (E1 : abs w1 = abs w) by (unfold abs, w1; cbn; rewrite (abs_req_same _ _ _ _ Ev); [done | by apply (same_ns v _ s)]).
  pose proof (same_kept nobody w w1 WF Hroom E1) as K1. eapply runs_mono; [apply timeout_kept; [apply K1 | apply K1 | by intros [] | by rewrite E1]|]. intros [] w2 K2. by apply (kept_trans nobody nobody w w1).
Qed.
Lemma perform_stepped w o : wf_but nobody (abs w) -> admissible w o -> runs (perform o) w (stepped w).
Proof.
  intros WF [HA Hroom]. change (room (abs w)) in Hroom. destruct o; cbn [perform allowed] in *.
  - destruct ipv6; (apply lookup_stepped, resolve_wf; auto).
  - apply lookup_stepped, resolve_ptr_wf; [done | done | apply arpa_cstring].
  - apply lookup_stepped, resolve_ptr_wf; [done | done | by apply arpa6_cstring].
  - destruct HA as [[hv Ehv] Hno]. apply silent_stepped. eapply runs_mono; [by apply (cancel_request_wf nobody w h hv)|]. intros [] w' (WF' & _ & Hacc). by split.
  - by apply kept_stepped, add_nameserver_wf.
  - by apply kept_stepped, search_clear_wf.
  - by apply kept_stepped, search_add_wf.
  - by apply kept_stepped, search_ndots_wf.
  - by apply kept_stepped, set_max_wf.
  - by apply kept_stepped, resume_kept.
  - destruct HA as (v & Ev & Ht). by apply (timer_stepped w r v).
  - destruct HA as (n & En & _). apply silent_stepped. step. step. match goal with |- runs _ ?x _ => set (w1 := x) end.
    assert (E1 : abs w1 = abs w) by (unfold abs, w1; cbn; by rewrite (abs_srv_same _ _ _ _ En)). rewrite <- E1.
    eapply runs_mono; [apply (send_probe_wf nobody w1 s); [by rewrite E1 | by rewrite E1 | eexists; apply lookup_insert_eq]|]. intros [] w2 (WF2 & _ & HA2). by split.
  - destruct HA as [Hs HF]. by apply kept_stepped, ready_runs.
  - apply silent_stepped. eapply runs_mono; [by apply run_callback_wf|]. intros [] w' (WF' & _ & HA'). by split.
Qed.
Lemma new_account inactive w arg : evdns_base_new inactive = Some (tt, w) -> wf_but nobody (abs w) /\ account (memory (abs w)) arg 0.
Proof.
  intros E. destruct (new_resolver_wf inactive) as (w0 & E0 & WF & _ & Ea). rewrite E in E0. injection E0 as <-. split; [done|]. rewrite Ea. exists 0. split; [|done]. apply total_zero. intros r. unfold owes. cbn. by rewrite !fmap_empty, lookup_empty.
Qed.
Lemma owed_app l l' arg : owed_for (l ++ l') arg = owed_for l arg + owed_for l' arg.
Proof. unfold owed_for. induction l as [|a l IH]; cbn [app sum_over]; lia. Qed.
Lemma reachable_resolver_wf w begun : reachable w begun -> wf_but nobody (abs w) /\ forall arg, account (memory (abs w)) arg (owed_for begun arg).
Proof.
  induction 1 as [inactive w E|w begun o l w' _ [WF HA] Ho E]; [split; [by apply (new_account inactive w 0) | intros arg; by apply (new_account inactive)]|].
  destruct (perform_stepped w o WF Ho) as (l' & w1 & E1 & WF1 & HA1). rewrite E in E1. injection E1 as <- <-. split; [done|]. intros arg. rewrite owed_app. by apply HA1.
Qed.

End Steps.

(** ** Claims. *)
Context (Hmem : memory_lasts) (Hids : ids_found).
#[local] Instance the_laws : NetworkLaws N := {| rng_fair := Hids; mm_ok_law := Hmem |}.
(** C8: as long as memory lasts ([memory_lasts]) and random ids are not all taken
    ([ids_found]), and while fewer than 65535 requests exist, every operation of
    [operation], in any order from a new resolver on, returns: it uses no pointer
    that is null or freed and fails no assertion.  These are the calls of users,
    timers, packets and scheduled callbacks, without
    [evdns_base_clear_nameservers_and_suspend] and [evdns_base_free], after which
    it does not hold. *)
Theorem resolver_never_fails w begun o : reachable w begun -> admissible w o -> exists l w', perform o w = Some (l, w').
Proof. intros HR HA. destruct (reachable_resolver_wf w begun HR) as [WF _]. destruct (perform_stepped w o WF HA) as (l & w' & E & _). by exists l, w'. Qed.

Lemma total_filter {A} `{EqDecision A} (f : A -> Z) n (l : list A) (P : A -> Prop) `{forall x, Decision (P x)} : total f n -> NoDup l -> (forall x, f x = if decide (x ∈ l /\ P x) then 1 else 0) -> n = zlen (filter P l).
Proof.
  intros HT HN Hf. apply (total_count f n (filter P l) HT); [by apply NoDup_filter | |]; intros x; rewrite list_elem_of_filter; intros Hx; rewrite Hf; [rewrite decide_True | rewrite decide_False]; naive_solver.
Qed.
Definition server_up w (s : nat) : Prop := state <$> servers w !! s = Some true.
Definition sent_to w (s r : nat) : Prop := requests w !! r ≫= ns = Some s.
#[export] Instance server_up_dec w s : Decision (server_up w s).
Proof. unfold server_up. apply _. Defined.
#[export] Instance sent_to_dec w s r : Decision (sent_to w s r).
Proof. unfold sent_to. apply _. Defined.
(** C10: as long as memory lasts and ids are found, after any sequence of operations
    that is neither suspended nor freed, the counters of a resolver are those of its
    queues: how many requests are in flight, wait and are at every server, and how
    many servers are up; every request is on one list, in flight on that of its
    transaction id. *)
Theorem resolver_counts w begun : reachable w begun -> let b := base w in
  global_requests_inflight b = zlen (concat (req_heads b)) /\ global_requests_waiting b = zlen (req_waiting_head b) /\
  NoDup (concat (req_heads b) ++ req_waiting_head b) /\ (forall r, is_Some (requests w !! r) <-> r ∈ concat (req_heads b) ++ req_waiting_head b) /\
  (forall i l r, req_heads b !! i = Some l -> r ∈ l -> exists v s, requests w !! r = Some v /\ ns v = Some s /\ s ∈ server_head b /\ i = Z.to_nat (trans_id v mod zlen (req_heads b))) /\
  (forall r, r ∈ req_waiting_head b -> exists v, requests w !! r = Some v /\ ns v = None /\ timeout_event v = None) /\
  NoDup (server_head b) /\ (forall s, is_Some (servers w !! s) <-> s ∈ server_head b) /\ global_good_nameservers b = zlen (filter (server_up w) (server_head b)) /\
  forall s n, servers w !! s = Some n -> requests_inflight n = zlen (filter (sent_to w s) (concat (req_heads b))).
Proof.
  intros HR. cbv zeta. destruct (reachable_resolver_wf w begun HR) as [[W Wm Wo _] _]. pose proof (nw_order _ W) as [HNs Hdom]. cbn in HNs, Hdom.
  assert (Hsrv : forall s, is_Some (servers w !! s) <-> s ∈ server_head (base w)) by (intros s; by rewrite Hdom, lookup_fmap, fmap_is_Some).
  pose proof (nw_nodup _ W) as HN. assert (HNi : NoDup (inflight (abs w))) by by apply NoDup_app in HN as [? _].
  split_and!; [exact (nw_in _ W) | exact (nw_wait _ W) | exact HN | | | | exact HNs | exact Hsrv | |].
  - intros r. split; [intros [v Ev]; exact (Wo r _ (requests_abs _ _ _ Ev))|]. intros Hr. destruct (nw_valid _ W r Hr) as (q & _ & _ & (v & Ev & _)%abs_reqs_Some & _). by exists v.
  - intros i l r Hi Hr. destruct (nw_inflight _ W i l r Hi Hr) as (q & s & (v & Ev & <-)%abs_reqs_Some & Hs & Hx & _ & ->). exists v, s. split_and!; [done | done | | done]. apply Hdom. by cbn in Hx.
  - intros r Hr. destruct (nw_waiting _ W r Hr) as (q & (v & Ev & <-)%abs_reqs_Some & Hn). exists v. split; [done|]. cbn in Hn. split; [done|].
    pose proof (nw_sound _ W r _ (requests_abs _ _ _ Ev)) as HS. apply andb_true_iff in HS as [_ HS]. unfold timer_ok in HS. rewrite Hn in HS. by destruct (timeout_event v).
  - apply (total_filter (up (abs w))); [exact (nw_good _ W) | done|]. intros s. unfold up. cbn. rewrite lookup_fmap. case_decide as Hd.
    + destruct Hd as [_ Hup]. unfold server_up in Hup. destruct (servers w !! s); [|done]. cbn in *. by injection Hup as ->.
    + destruct (servers w !! s) as [n|] eqn:En; cbn; [|done]. destruct (state n) eqn:Est; [|done]. exfalso. apply Hd. split; [apply Hsrv; by eexists | unfold server_up; by rewrite En; cbn; rewrite Est].
  - intros s n En. apply (total_filter (load (abs w) s)); [exact (nw_load _ W s _ (servers_abs _ _ _ En)) | done|]. intros r. unfold load. apply decide_ext. unfold ns_of, sent_to. cbn. rewrite lookup_fmap. by destruct (requests w !! r).
Qed.

(** Requests whose callback is that of the user for [arg]. *)
Definition asked_for w (arg r : nat) : Prop := user_callback <$> requests w !! r = Some (User arg).
#[export] Instance callback_eq_dec : EqDecision callback.
Proof. solve_decision. Defined.
#[export] Instance asked_for_dec w arg r : Decision (asked_for w arg r).
Proof. unfold asked_for. apply _. Defined.
(** C9: as long as memory lasts and ids are found, after any sequence of operations
    (suspending and freeing are none), of the lookups that began for an argument
    each is a request on a list, a callback that is scheduled, or one that was
    called: no callback is lost and none is called twice.  Without memory
    [reply_schedule_callback] drops it ([callback_dropped]). *)
Theorem callbacks_once w begun arg : reachable w begun ->
  owed_for begun arg = zlen (filter (asked_for w arg) (concat (req_heads (base w)) ++ req_waiting_head (base w))) + scheduled_for (deferred w) arg + called_for (calls w) arg.
Proof.
  intros HR. destruct (reachable_resolver_wf w begun HR) as [WF HA]. destruct (HA arg) as (k & HT & ->). cbn. f_equal. f_equal.
  apply (total_filter (owes (memory (abs w)) arg) k (listed (abs w)) (asked_for w arg) HT); [apply (nw_nodup _ (wf_net _ _ WF))|]. intros r. unfold owes. cbn. rewrite !lookup_fmap.
  destruct (requests w !! r) as [v|] eqn:Ev; cbn; [|rewrite decide_False; [done|]; intros [_ Hu]; unfold asked_for in Hu; by rewrite Ev in Hu].
  assert (Hr : r ∈ listed (abs w)) by exact (wf_owned _ _ WF r _ (requests_abs _ _ _ Ev)). destruct (listed_placed w r (wf_net _ _ WF) Hr) as (v' & h & hv & [Ev' _ Hh Ehv Hc]). assert (v' = v) as -> by congruence.
  unfold r_mem. cbn. rewrite Hh, Ehv. assert (Hp : pending_cb hv = false) by (destruct (pending_cb hv) eqn:Ep; [by destruct (wf_settled _ _ WF h hv r Ehv Hc Ep) | done]). rewrite Hp. unfold user_arg.
  case_decide as Hd.
  - destruct Hd as [_ Hu]. unfold asked_for in Hu. rewrite Ev in Hu. cbn in Hu. injection Hu as ->. by rewrite decide_True.
  - destruct (user_callback v) as [x|s] eqn:Ec; [|done]. rewrite decide_False; [done|]. intros ->. apply Hd. split; [done|]. unfold asked_for. rewrite Ev. cbn. by rewrite Ec.
Qed.

(** How a request ends: it is freed and its callback is scheduled. *)
Definition finished w' (r : nat) (d : deferred_reply_callback) : Prop := requests w' !! r = None /\ d ∈ deferred w'.
Lemma memory_finished w w' r d m : memory (abs w') = m -> m_reqs m !! r = None -> d ∈ m_deferred m -> finished w' r d.
Proof. intros <- Hr Hd. split; [|exact Hd]. cbn in Hr. rewrite !lookup_fmap in Hr. by destruct (requests w' !! r). Qed.
Lemma timeout_finished w r v h hv : wf_but nobody (abs w) -> room (abs w) -> placed w r v h hv -> pending_cb hv = false -> r ∈ inflight (abs w) -> global_max_retransmits (base w) <= tx_count v ->
  runs (evdns_request_timeout_callback r) w (fun _ w' => finished w' r (callback_of v 0 DNS_ERR_TIMEOUT None)).
Proof.
  intros WF Hroom HP Hp Hr Hmax. pose proof HP as [Ev Hl Hh Ehv Hc]. destruct (inflight_inv w r (wf_net _ _ WF) Hr) as (v' & s & n & [Ev' Es En _ _ _]). simplify_eq.
  unfold evdns_request_timeout_callback. steps. replace (global_max_retransmits (base w) <=? tx_count v) with true by lia.
  assert (HA := answered_wf nobody w r v h hv 0 DNS_ERR_TIMEOUT None WF Hroom HP Hp ltac:(done)). unfold place in HA. rewrite Es in HA. apply runs_assoc. step.
  eapply runs_mono; [exact HA|]. intros [] w1 (WF1 & Hroom1 & t & HEn). steps.
  eapply runs_mono; [apply failed_moves; [apply WF1 | apply (ended_servers w w1 _ _ _ s HEn eq_refl); by exists n]|]. intros [] w2 M.
  eapply (memory_finished w); [rewrite (mv_memory _ _ M); exact (en_memory _ _ _ _ HEn) | cbn; apply lookup_delete_eq | cbn; apply elem_of_app; right; left].
Qed.
(** C34: as long as memory lasts and ids are found, in a resolver that was neither
    suspended nor freed, a request ends with its callback scheduled: with a timeout
    when its timer goes off and it was sent as often as is allowed, with the answer
    when a reply has one, and canceled when the user says so.  Without memory it
    ends without a callback ([callback_dropped]). *)
Theorem requests_end w begun r v : reachable w begun -> requests w !! r = Some v -> zlen (concat (req_heads (base w)) ++ req_waiting_head (base w)) < 0xffff ->
  (timeout_event v <> None -> global_max_retransmits (base w) <= tx_count v ->
     runs (perform (RequestTimer r)) w (fun _ w' => finished w' r (callback_of v 0 DNS_ERR_TIMEOUT None))) /\
  (forall flags ttl rep, ns v <> None -> reply_error flags (Some rep) = None -> runs (reply_handle r flags ttl (Some rep)) w (fun _ w' => finished w' r (callback_of v ttl DNS_ERR_NONE (Some rep)))) /\
  (forall h, handle v = Some h -> allowed w (Cancel h) -> runs (perform (Cancel h)) w (fun _ w' => finished w' r (callback_of v 0 DNS_ERR_CANCEL None))).
Proof.
  intros HR Ev Hroom. change (room (abs w)) in Hroom. destruct (reachable_resolver_wf w begun HR) as [WF _]. pose proof (wf_owned _ _ WF r _ (requests_abs _ _ _ Ev)) as Hl.
  destruct (listed_placed w r (wf_net _ _ WF) Hl) as (v' & h & hv & HP). pose proof HP as [Ev' _ Hh Ehv Hc]. assert (v' = v) as -> by congruence. pose proof (listed_ns w r v (wf_net _ _ WF) Hl Ev) as Hin.
  assert (Hp : pending_cb hv = false) by (destruct (pending_cb hv) eqn:Ep; [by destruct (wf_settled _ _ WF h hv r Ehv Hc Ep) | done]). split_and!.
  - intros Ht Hmax. pose proof (nw_sound _ (wf_net _ _ WF) r _ (requests_abs _ _ _ Ev)) as HS. apply andb_true_iff in HS as [_ HS]. unfold timer_ok in HS.
    destruct (ns v) as [s|] eqn:Es; [|by destruct (timeout_event v)]. cbn [perform]. unfold silent. step. step. step. match goal with |- runs _ ?x _ => set (w1 := x) end.
    assert (E1 : abs w1 = abs w) by (unfold abs, w1; cbn; rewrite (abs_req_same _ _ _ _ Ev); [done | by apply (same_ns v _ s)]).
    eapply runs_mono; [apply (timeout_finished w1 r {| v with timeout_event := None |} h hv); [by rewrite E1 | by rewrite E1 | split; [apply lookup_insert_eq | by rewrite E1 | done | done | done] | done | by rewrite E1 | done]|]. intros [] w2 HF. by step.
  - intros flags ttl rep Hns He. destruct (ns v) as [s|] eqn:Es; [|done]. unfold reply_handle. step. apply runs_valid; [by apply (wf_net _ _ WF)|]. step. step. step. eapply runs_lift; [exact Es|]. step. step. rewrite He.
    eapply runs_mono; [apply (reply_finish_delivers nobody w r v h hv s ttl 0 (Some rep)); try done|]. by intros [] w' (_ & H1 & H2).
  - intros h' Hh' _. assert (h' = h) as -> by congruence. cbn [perform]. unfold silent. step. eapply runs_mono; [by apply (cancel_runs nobody w h hv)|].
    intros [] w' [[_ [Hn|Hn]]|(r' & u & HPu & _ & (t & HE))]; [congruence | congruence|]. destruct HPu as [Eu _ _ _ Hcu]. assert (r' = r) as -> by congruence. assert (u = v) as -> by congruence. step.
    eapply (memory_finished w); [exact (en_memory _ _ _ _ HE) | cbn; apply lookup_delete_eq | cbn; apply elem_of_app; right; left].
Qed.

(** C36: servers are picked in turn: the first that is up, behind which it and
    those passed over go; with none up, the second. *)
Theorem nameserver_pick_round_robin w l1 s l2 : NoDup (l1 ++ s :: l2) -> server_head (base w) = l1 ++ s :: l2 ->
  (global_good_nameservers (base w) <> 0 -> Forall (is_down w) l1 -> is_up w s -> runs nameserver_pick w (fun o w' => o = Some s /\ w' = with_order w (l2 ++ l1 ++ [s]))) /\
  (global_good_nameservers (base w) = 0 -> l1 = [] -> is_Some (servers w !! s) -> runs nameserver_pick w (fun o w' => o = head (l2 ++ [s]) /\ w' = with_order w (l2 ++ [s]))).
Proof.
  intros HN Hl. split; [intros Hg HD Hup; by apply (pick_first_up w l1 s l2)|]. intros Hg -> Hs. by apply (pick_none_up w s l2).
Qed.
End Props.

(** ** The time between probes. *)
Definition normal (tv : timeval) : Prop := 0 <= tv_sec tv /\ 0 <= tv_usec tv < 1000000.
Definition microseconds (tv : timeval) : Z := tv_sec tv * 1000000 + tv_usec tv.
Lemma back_off_normal tv : normal tv -> normal (back_off tv) /\ microseconds (back_off tv) = 3 * microseconds tv.
Proof.
  unfold normal, microseconds, back_off, TIMEOUT_BACKOFF_FACTOR. intros [Hs Hu]. case_if; cbn [tv_sec tv_usec]; [|split; lia].
  pose proof (Z.div_mod (tv_usec tv * 3) 1000000 ltac:(lia)). pose proof (Z.mod_pos_bound (tv_usec tv * 3) 1000000 ltac:(lia)). pose proof (Z.div_pos (tv_usec tv * 3) 1000000 ltac:(lia) ltac:(lia)). split; lia.
Qed.
Lemma back_offs_exact n : forall tv, normal tv -> normal (back_offs n tv) /\
  (MAX_PROBE_TIMEOUT <= tv_sec (back_offs n tv) /\ MAX_PROBE_TIMEOUT * 1000000 <= 3 ^ Z.of_nat n * microseconds tv \/ microseconds (back_offs n tv) = 3 ^ Z.of_nat n * microseconds tv).
Proof.
  induction n as [|n IH]; intros tv HN; cbn [back_offs]; [split; [done | right; lia]|]. destruct (back_off_normal tv HN) as [HN' HE]. unfold MAX_PROBE_TIMEOUT in *.
  assert (Hpow : 3 ^ Z.of_nat (S n) = 3 * 3 ^ Z.of_nat n) by (rewrite Nat2Z.inj_succ, Z.pow_succ_r; lia). assert (0 < 3 ^ Z.of_nat n) by (apply Z.pow_pos_nonneg; lia). case_if.
  - destruct (IH (back_off tv) HN') as [HI HO]. split; [done|]. rewrite HE in HO. rewrite Hpow. destruct HO as [HO|HO]; [left; lia | right; lia].
  - split; [done|]. left. destruct HN. unfold microseconds. split; [lia | nia].
Qed.
(** C37: the time to the next probe of a server grows threefold with each probe that
    fails until its seconds reach an hour, and no further (a fraction of a second
    may be left on top). *)
Theorem probe_back_off initial failed : normal initial -> 0 <= failed -> let tv := probe_timeout initial failed in
  normal tv /\ (tv_sec tv = MAX_PROBE_TIMEOUT /\ MAX_PROBE_TIMEOUT * 1000000 <= 3 ^ failed * microseconds initial \/
    tv_sec tv < MAX_PROBE_TIMEOUT /\ microseconds tv = 3 ^ failed * microseconds initial).
Proof.
  intros HN Hf. cbv zeta. unfold probe_timeout. destruct (back_offs_exact (Z.to_nat failed) initial HN) as [HN' HO]. rewrite Z2Nat.id in HO by done. unfold MAX_PROBE_TIMEOUT in *. case_if.
  - split; [by unfold normal|]. left. split; [done|]. destruct HO as [[_ HO]|HO]; [done|]. destruct HN'. unfold microseconds in *. lia.
  - split; [done|]. destruct HN' as [H1 H2]. destruct HO as [[HO1 HO2]|HO]; [left; split; [lia | done]|]. destruct (Z.eq_dec (tv_sec (back_offs (Z.to_nat failed) initial)) 3600) as [He|He]; [left | right; split; [lia | done]].
    split; [done|]. unfold microseconds in *. lia.
Qed.
