(* ===== verification/ResolverDemo.v ===== *)
(** * The resolver at work

    Witnesses of the properties, and runs that show what the code does where
    its authors may not expect it. *)
From Stdlib Require Import Ascii String.
From S2P Require Import Prelude Timeval Event Buffer BufferInv CString Address UriCodec Dns DnsNames Resolver ResolverInv ResolverPump ResolverFinish ResolverOps ResolverNew ResolverReply ResolverProbe ResolverProps.
Open Scope Z_scope.

(** ** A network: the random numbers count up, and [snd] says what sending gives. *)
Definition demo_rng (t n : nat) : list Z := take n ([Z.of_nat t mod 256; Z.of_nat t / 256 mod 256] ++ replicate n 0).
Definition net_with (mm ev : nat -> bool) (snd : nat -> sockaddr -> list Z -> send_result) : Network := {|
  mm_ok := mm; event_ok := ev; socket_ok _ := true; rng := demo_rng; sendto := snd; patience := Z.to_nat 65536; HOST_NAME_MAX := 255 |}.
Definition good_net : Network := net_with (fun _ => true) (fun _ => true) (fun _ _ p => Transferred (zlen p)).
Lemma of_le_rng t : of_le (demo_rng t 2) = Z.of_nat t mod 65536.
Proof.
  unfold of_le, demo_rng, u16. cbn [take app nth]. change (2 ^ 16) with 65536. pose proof (Z.mod_pos_bound (Z.of_nat t) 256 ltac:(lia)). pose proof (Z.mod_pos_bound (Z.of_nat t / 256) 256 ltac:(lia)).
  rewrite Z.mod_small by lia. lia.
Qed.
Lemma count_fair n t ids : Z.of_nat n = 65536 -> zlen ids < 0xffff -> exists k, (k < n)%nat /\ Z.of_nat (t + k) mod 65536 ∉ ids /\ Z.of_nat (t + k) mod 65536 <> 0xffff.
Proof.
  intros Hn Hlen. set (f := fun k => Z.of_nat (t + k) mod 65536). set (taken := 0xffff :: ids).
  destruct (decide (Exists (fun k => f k ∉ taken) (seq 0 n))) as [HE|HE].
  - apply Exists_exists in HE as (k & Hk & Hnk). apply elem_of_seq in Hk. apply not_elem_of_cons in Hnk as [H1 H2]. exists k. split; [lia | done].
  - exfalso. assert (Hincl : forall x, x ∈ map f (seq 0 n) -> x ∈ taken).
    { intros x (k & -> & Hk)%list_elem_of_fmap. destruct (decide (f k ∈ taken)) as [|Hnk]; [done|]. exfalso. apply HE, Exists_exists. by exists k. }
    assert (HN : NoDup (map f (seq 0 n))).
    { apply NoDup_fmap_2_strong; [|apply NoDup_seq]. intros x y Hx Hy Hxy. apply elem_of_seq in Hx, Hy. unfold f in Hxy. lia. }
    pose proof (submseteq_length _ _ (NoDup_submseteq _ _ HN Hincl)) as HL. rewrite length_map, length_seq in HL. unfold taken, zlen in *. cbn [length] in HL. lia.
Qed.
#[local] Instance demo_net : Network := good_net.
Lemma demo_memory : @memory_lasts demo_net.
Proof. done. Qed.
Lemma demo_ids : @ids_found demo_net.
Proof.
  intros t ids Hlen. destruct (count_fair (Z.to_nat 65536) t ids (Z2Nat.id 65536 ltac:(lia)) Hlen) as (k & Hk & Hn & Hne). exists k. change (rng (t + k) 2) with (demo_rng (t + k) 2). rewrite of_le_rng. by split.
Qed.

(** ** Runs. *)
Definition world_of {A} (o : option (A * world)) : option world := snd <$> o.
Definition begin_with (inactive : bool) : option world := world_of (evdns_base_new inactive).
Definition then_do {A} (o : option world) (m : M A) : option world := w ← o; world_of (m w).
Definition no_world : world := World (zero_base false) ∅ ∅ ∅ ∅ [] [] [] 0 0.
Definition the_world (o : option world) : world := default no_world o.
Definition step_to (w : world) (o : operation) : world := the_world (world_of (perform o w)).
Definition server_1 : sockaddr := AF_INET 1 53.
Definition server_2 : sockaddr := AF_INET 2 53.

Definition demo0 : world := the_world (begin_with false).
Definition demo1 : world := step_to demo0 (AddNameserver server_1 16).
Definition demo2 : world := step_to demo1 (AddNameserver server_2 16).
Definition demo3 : world := step_to demo2 (Resolve false (str "www.example.com") 0 7).
Definition demo_request : nat := 3.
Definition demo_handle : nat := 2.
Definition demo4 : world := step_to (step_to demo3 (RequestTimer demo_request)) (RequestTimer demo_request).
Lemma room_demo w : bool_decide (zlen (concat (req_heads (base w)) ++ req_waiting_head (base w)) < 0xffff) = true -> zlen (concat (req_heads (base w)) ++ req_waiting_head (base w)) < 0xffff.
Proof. by intros H%bool_decide_eq_true. Qed.
Lemma reach_next w begun o l begun' : reachable w begun -> allowed w o -> bool_decide (zlen (concat (req_heads (base w)) ++ req_waiting_head (base w)) < 0xffff) = true -> perform o w = Some (l, step_to w o) -> begun' = begun ++ l -> reachable (step_to w o) begun'.
Proof. intros HR HA Hroom E ->. apply (reachable_step w begun o l); [done | split; [done | by apply room_demo] | done]. Qed.
Lemma reachable_demo2 : reachable demo2 [].
Proof.
  apply (reach_next demo1 [] (AddNameserver server_2 16) []); [|done | vm_compute; reflexivity | vm_compute; reflexivity | done].
  apply (reach_next demo0 [] (AddNameserver server_1 16) []); [|done | vm_compute; reflexivity | vm_compute; reflexivity | done].
  apply (reachable_new false). vm_compute. reflexivity.
Qed.
Lemma reachable_demo3 : reachable demo3 [7%nat].
Proof.
  apply (reach_next demo2 [] (Resolve false (str "www.example.com") 0 7) [7%nat]); [apply reachable_demo2 | | vm_compute; reflexivity | vm_compute; reflexivity | done].
  by apply all_char_ok.
Qed.
Lemma timer_allowed w r : match requests w !! r with Some v => timeout_event v | None => None end <> None -> allowed w (RequestTimer r).
Proof. cbn. destruct (requests w !! r) as [v|]; [|done]. intros Ht. by exists v. Qed.
Lemma reachable_demo4 : reachable demo4 [7%nat].
Proof.
  apply (reach_next (step_to demo3 (RequestTimer demo_request)) [7%nat] (RequestTimer demo_request) []); [|apply timer_allowed; vm_compute; discriminate | vm_compute; reflexivity | vm_compute; reflexivity | done].
  apply (reach_next demo3 [7%nat] (RequestTimer demo_request) []); [apply reachable_demo3|apply timer_allowed; vm_compute; discriminate | vm_compute; reflexivity | vm_compute; reflexivity | done].
Qed.

Lemma resolver_never_fails_witness : exists l w', perform (RequestTimer demo_request) demo4 = Some (l, w').
Proof.
  apply (resolver_never_fails demo_memory demo_ids demo4 [7%nat]); [apply reachable_demo4|]. split; [apply timer_allowed; vm_compute; discriminate | apply room_demo; vm_compute; reflexivity].
Defined.
Lemma resolver_counts_witness : global_requests_inflight (base demo3) = zlen (concat (req_heads (base demo3))) /\ requests demo3 <> ∅.
Proof. split; [exact (proj1 (resolver_counts demo_memory demo_ids demo3 [7%nat] reachable_demo3))|]. intros HE. assert (Hx : requests demo3 !! demo_request = None) by by rewrite HE, lookup_empty. revert Hx. vm_compute. discriminate. Defined.
Lemma callbacks_once_witness :
  owed_for [7%nat] 7 = zlen (filter (asked_for demo4 7) (concat (req_heads (base demo4)) ++ req_waiting_head (base demo4))) + scheduled_for (deferred demo4) 7 + called_for (calls demo4) 7 /\ owed_for [7%nat] 7 = 1.
Proof. split; [exact (callbacks_once demo_memory demo_ids demo4 [7%nat] 7 reachable_demo4) | reflexivity]. Defined.
Definition demo_asked : request := default (Request [] 0 0 0 (User 0) None None 0 false None) (requests demo4 !! demo_request).
Lemma requests_end_witness : runs (perform (RequestTimer demo_request)) demo4 (fun _ w' => finished w' demo_request (callback_of demo_asked 0 DNS_ERR_TIMEOUT None)).
Proof.
  assert (Ev : requests demo4 !! demo_request = Some demo_asked) by (vm_compute; reflexivity).
  assert (Hroom : zlen (concat (req_heads (base demo4)) ++ req_waiting_head (base demo4)) < 0xffff) by (apply room_demo; vm_compute; reflexivity).
  assert (Ht : timeout_event demo_asked <> None) by (vm_compute; discriminate). assert (Hmax : global_max_retransmits (base demo4) <= tx_count demo_asked) by (vm_compute; discriminate).
  exact (proj1 (requests_end demo_memory demo_ids demo4 [7%nat] demo_request demo_asked reachable_demo4 Ev Hroom) Ht Hmax).
Defined.
Lemma nameserver_pick_round_robin_witness : runs nameserver_pick demo2 (fun o w' => o = Some 0%nat /\ w' = with_order demo2 [1%nat; 0%nat]).
Proof.
  assert (HN : NoDup ([] ++ 0%nat :: [1%nat])) by by apply (bool_decide_unpack _). assert (Hl : server_head (base demo2) = [] ++ 0%nat :: [1%nat]) by (vm_compute; reflexivity).
  assert (Hg : global_good_nameservers (base demo2) <> 0) by (vm_compute; discriminate).
  assert (Hup : is_up demo2 0) by (exists (default (Nameserver server_1 0 0 true None None true false false 0) (servers demo2 !! 0%nat)); split; vm_compute; reflexivity).
  exact (proj1 (nameserver_pick_round_robin demo2 [] 0 [1%nat] HN Hl) Hg (Forall_nil_2 _) Hup).
Defined.
Lemma probe_back_off_witness : let tv := probe_timeout (Timeval 10 0) 4 in
  normal tv /\ (tv_sec tv = MAX_PROBE_TIMEOUT /\ MAX_PROBE_TIMEOUT * 1000000 <= 3 ^ 4 * microseconds (Timeval 10 0) \/ tv_sec tv < MAX_PROBE_TIMEOUT /\ microseconds tv = 3 ^ 4 * microseconds (Timeval 10 0)).
Proof. apply (probe_back_off (Timeval 10 0) 4); [unfold normal; cbn; lia | lia]. Defined.


(** ** What the code does where it may not be meant to. *)
Definition timer (r : nat) : M unit := req_timer_del r;; evdns_request_timeout_callback r.
Definition send_probe (s : nat) : M unit := ns_timer_del s;; nameserver_prod_callback s.
Definition add_server (i : Z) : M unit := evdns_nameserver_add_impl_ (AF_INET i 53) 16;; mret tt.
Definition lookup_x (flags : Z) : M unit := evdns_base_resolve_ipv4 (str "x") flags 7;; mret tt.
Fixpoint many (n : nat) (m : M unit) : M unit := match n with O => mret tt | S n => m;; many n m end.
(** The reply 'no such name' for the first request in flight. *)
Definition no_such_name : M unit := w ← gets (fun w => concat (req_heads (base w))); r ← lift (head w); reply_handle r 0x8183 0 None.
(** Suspending while a probe is on its way leaves a callback that uses the freed server. *)
Lemma suspend_leaves_probe : let w := then_do (begin_with false) (add_server 1;; nameserver_failed 0;; send_probe 0;; many 3 (timer 2);; evdns_base_clear_nameservers_and_suspend) in
  (fun w => (size (servers w), map d_callback (deferred w))) <$> w = Some (0%nat, [Probe 0]) /\ then_do w reply_run_callback = None.
Proof. by vm_compute. Qed.
(** It frees the server that the probe of another was moved to before it cancels that probe. *)
Lemma suspend_uses_freed_server : let w := then_do (begin_with false) (many 1 (add_server 1);; add_server 2;; add_server 3;; nameserver_failed 0;; send_probe 0;; timer 4;; lookup_x 1) in
  (fun w => (server_head (base w), user_callback <$> requests w !! 4%nat, ns <$> requests w !! 4%nat)) <$> w = Some ([1%nat; 0%nat; 2%nat], Some (Probe 0), Some (Some 1%nat)) /\
  then_do w evdns_base_clear_nameservers_and_suspend = None.
Proof. by vm_compute. Qed.
(** A probe that is repeated goes to another server, whose answer brings up the one that is dead. *)
Lemma probe_answered_by_another : let w := then_do (begin_with false) (add_server 1;; add_server 2;; nameserver_failed 0;; send_probe 0;; timer 3) in
  (fun w => (state <$> servers w !! 0%nat, ns <$> requests w !! 3%nat)) <$> w = Some (Some false, Some (Some 1%nat)) /\
  (fun w => state <$> servers w !! 0%nat) <$> then_do w (reply_handle 3 0x8183 0 None;; reply_run_callback) = Some (Some true).
Proof. by vm_compute. Qed.
(** With as many requests in flight as are allowed, the next name of a search waits although nothing is in flight any more. *)
Lemma search_left_waiting : (fun w => (req_waiting_head (base w), global_requests_inflight (base w), length (sent w), timeout_event <$> requests w !! 4%nat)) <$>
  then_do (begin_with false) (add_server 1;; evdns_base_set_max_requests_inflight 1;; evdns_base_search_add (str "a");; evdns_base_search_ndots_set 2;; lookup_x 0;; no_such_name) = Some ([4%nat], 0, 1%nat, Some None).
Proof. by vm_compute. Qed.
(** Freeing a base ends the requests of a list, which starts waiting ones on lists that were emptied before: they stay, with a timer. *)
Lemma free_leaves_requests : (fun w => (size (requests w), size (servers w), timeout_event ∘ snd <$> map_to_list (requests w))) <$>
  then_do (begin_with false) (add_server 1;; evdns_base_set_max_requests_inflight 6;; many 18 (lookup_x 1);; evdns_base_free false) = Some (1%nat, 0%nat, [Some (Timeval 5 0)]).
Proof. by vm_compute. Qed.
(** A request that is given to another server after a refusal is marked, but nothing sends it. *)
Lemma reissue_not_sent : (fun w => ((fun v => (ns v, tx_count v, transmit_me v)) <$> requests w !! 3%nat, map fst (sent w))) <$>
  then_do (begin_with false) (add_server 1;; add_server 2;; lookup_x 1;; reply_handle 3 0x8185 0 None) = Some (Some (Some 1%nat, 0, true), [0%nat]).
Proof. by vm_compute. Qed.
(** Adding a domain while a search is under way makes it ask again for the name that was not found. *)
Lemma search_list_shared : let w := then_do (begin_with false) (add_server 1;; evdns_base_search_add (str "a");; lookup_x 0) in
  map (fun p => length (snd p)) <$> (sent <$> then_do w no_such_name) = Some [21%nat; 19%nat] /\
  map (fun p => length (snd p)) <$> (sent <$> then_do w (evdns_base_search_add (str "b");; no_such_name)) = Some [21%nat; 21%nat].
Proof. by vm_compute. Qed.
(** A server whose socket was full and whose last request ended no longer waits for it to be writable: later requests are never sent. *)
Definition full_net : Network := net_with (fun _ => true) (fun _ => true) (fun _ _ _ => Retriable).
Definition canceled_then_new `{Network} : option world := then_do (@world_of unit (evdns_base_new true))
  (evdns_nameserver_add_impl_ server_1 16;; evdns_base_resolve_ipv4 (str "x") 1 7;; evdns_cancel_request 1;; evdns_base_resolve_ipv4 (str "y") 1 8).
Lemma choked_for_ever : (fun w => ((fun n => (choked n, event n, requests_inflight n)) <$> servers w !! 0%nat, timeout_event <$> requests w !! 4%nat, length (sent w))) <$> @canceled_then_new full_net = Some (Some (true, false, 1), Some None, 1%nat).
Proof. by vm_compute. Qed.
(** With no memory for a domain it is counted all the same, and a search fails an assertion. *)
Definition forgetful_net : Network := net_with (fun t => negb (Nat.eqb t 5)) (fun _ => true) (fun _ _ p => Transferred (zlen p)).
Definition domain_without_memory `{Network} : option world := then_do (@world_of unit (evdns_base_new false)) (evdns_nameserver_add_impl_ server_1 16;; evdns_base_search_add (str "a")).
Lemma domain_counted_not_added : let w := @domain_without_memory forgetful_net in
  (fun w => (num_domains ∘ snd <$> map_to_list (searches w), domains ∘ snd <$> map_to_list (searches w))) <$> w = Some ([1], [[]]) /\ then_do w (@evdns_base_resolve_ipv4 forgetful_net (str "x") 0 7) = None.
Proof. by vm_compute. Qed.
(** The allocations of a resolver are numbered with all its questions to the
    environment; this network refuses those of a set. *)
Definition refusing (l : list nat) : Network := net_with (fun t => negb (existsb (Nat.eqb t) l)) (fun _ => true) (fun _ _ p => Transferred (zlen p)).
Definition one_lookup (N : Network) : option world := then_do (@world_of unit (evdns_base_new false)) (evdns_nameserver_add_impl_ server_1 16;; evdns_base_resolve_ipv4 (str "x") 1 7).
Definition one_search (N : Network) : option world :=
  then_do (@world_of unit (evdns_base_new false)) (evdns_nameserver_add_impl_ server_1 16;; evdns_base_search_add (str "a");; evdns_base_resolve_ipv4 (str "x") 0 7).
(** With no memory for a callback that is to be scheduled the request and its handle go, and the user is never called. *)
Definition canceled_lookup (N : Network) : option world := then_do (one_lookup N) (evdns_cancel_request 1).
Definition left_of (w : world) : nat * nat * nat * nat := (size (requests w), size (handles w), length (deferred w), length (calls w)).
Lemma callback_dropped : left_of <$> canceled_lookup (refusing []) = Some (0, 1, 1, 0)%nat /\ left_of <$> canceled_lookup (refusing [10%nat]) = Some (0, 0, 0, 0)%nat.
Proof. by vm_compute. Qed.
(** With no memory for the name of a search its request is freed, but not forgotten by the handle that the user gets. *)
Lemma search_keeps_freed_request : let w := one_search (refusing [11%nat]) in
  (fun w => (size (requests w), current_req ∘ snd <$> map_to_list (handles w))) <$> w = Some (0%nat, [Some 3%nat]) /\ then_do w (@evdns_cancel_request (refusing [11%nat]) 2) = None.
Proof. by vm_compute. Qed.
