(* ===== verification/Tagging.v ===== *)
(** * Tagged data (event_tagging.c)

    The wire format of tags, integers and tagged records, over any byte
    queue.  Bytes are read where the code reads them: a read that is not
    covered by the bytes made contiguous gives [None]. *)
From S2P Require Import Prelude Timeval Buffer ByteQueue.

(** ** Writing integers and tags into an array. *)

(** The loop of [ENCODE_INT_INTERNAL]: the array and [off]. *)
Fixpoint encode_int_loop (fuel : nat) (data : list byte) (number off : Z) : list byte * Z :=
  match fuel with
  | O => (data, off)
  | S fuel =>
      if number =? 0 then (data, off)
      else
        let b := arr_get 0 data (off / 2) in
        let b' := if c_true (Z.land off 1) then Z.lor (Z.land b 0xf0) (Z.land number 0x0f)
                  else Z.lor (Z.land b 0x0f) (Z.shiftl (Z.land number 0x0f) 4) in
        encode_int_loop fuel (arr_set data (off / 2) b') (Z.shiftr number 4) (off + 1)
  end.
(** [size] is the size of the number; there are at most two nibbles a byte.
    The result: the bytes that are used. *)
Definition ENCODE_INT_INTERNAL (size : nat) (number : Z) : list byte :=
  let '(data, off) := encode_int_loop (2 * size) (replicate (size + 1) 0) number 1 in
  let nibbles := if 2 <? off then off - 2 else 0 in
  let data := arr_set data 0 (Z.lor (Z.land (arr_get 0 data 0) 0x0f) (Z.shiftl (Z.land nibbles 0x0f) 4)) in
  ztake ((off + 1) / 2) data.
Definition encode_int_internal (number : Z) : list byte := ENCODE_INT_INTERNAL 4 number.
Definition encode_int64_internal (number : Z) : list byte := ENCODE_INT_INTERNAL 8 number.

(** The loop of [evtag_encode_tag]; five bytes hold 32 bits. *)
Fixpoint encode_tag_loop (fuel : nat) (tag : Z) : list byte :=
  match fuel with
  | O => []
  | S fuel =>
      let lower := Z.land tag 0x7f in
      let tag := Z.shiftr tag 7 in
      if c_true tag then Z.lor lower 0x80 :: encode_tag_loop fuel tag else [lower]
  end.
Definition encode_tag (tag : Z) : list byte := encode_tag_loop 5 tag.

(** ** Reading them.  [data] are the bytes that may be read. *)

(** The loop of [decode_tag_internal]: [left] is [len] less the bytes read.
    The result is the number and how many bytes it takes, or [None] inside for
    an error. *)
Fixpoint decode_tag_loop (fuel : nat) (data : list byte) (left count number shift : Z) : option (option (Z * Z)) :=
  match fuel with
  | O => None
  | S fuel =>
      if left <=? 0 then Some None
      else
        match data with
        | [] => None
        | lower :: data =>
            if (28 <=? shift) && ((28 <? shift) || (15 <? Z.land lower 0x7f)) then Some None
            else
              let number := Z.lor number (Z.shiftl (Z.land lower 0x7f) shift) in
              if negb (c_true (Z.land lower 0x80)) then Some (Some (number, count + 1))
              else decode_tag_loop fuel data (left - 1) (count + 1) number (shift + 7)
        end
  end.
(** The loop of [DECODE_INT_INTERNAL]. *)
Fixpoint decode_int_loop (nibbles : nat) (data : list byte) (number : Z) : option Z :=
  match nibbles with
  | O => Some number
  | S n =>
      b ← data !! Nat.div2 nibbles;
      let number := Z.shiftl number 4 in
      decode_int_loop n data (Z.lor number (if Nat.odd nibbles then Z.land b 0x0f else Z.shiftr (Z.land b 0xf0) 4))
  end.

Section Tagging.
Context {Q : Type} `{ByteQueue Q}.
Implicit Types (evbuf : Q).


Definition evtag_encode_int evbuf (number : Z) : option Q := ignore (bq_add evbuf (encode_int_internal number)).
Definition evtag_encode_int64 evbuf (number : Z) : option Q := ignore (bq_add evbuf (encode_int64_internal number)).
(** The number of bytes and the buffer. *)
Definition evtag_encode_tag evbuf (tag : Z) : option (Z * Q) :=
  let data := encode_tag tag in
  evbuf ← ignore (bq_add evbuf data); Some (zlen data, evbuf).

(** The result, and the tag when there is no error. *)
Definition decode_tag_internal evbuf (dodrain : bool) : option (Z * Z * Q) :=
  let len := bq_length evbuf in
  '(data, evbuf) ← bq_pullup evbuf (if len <? 5 then len else 5);
  match data with
  | None => Some (-1, 0, evbuf)
  | Some data =>
      r ← decode_tag_loop 7 data len 0 0 0;
      match r with
      | None => Some (-1, 0, evbuf)
      | Some (number, count) =>
          evbuf ← (if dodrain then ignore (bq_drain evbuf count) else Some evbuf);
          Some (if INT_MAX <? count then INT_MAX else count, u32 number, evbuf)
      end
  end.
Definition evtag_decode_tag evbuf : option (Z * Z * Q) := decode_tag_internal evbuf true.

Definition evtag_marshal evbuf (tag : Z) (data : list byte) : option Q :=
  '(_, evbuf) ← evtag_encode_tag evbuf tag;
  evbuf ← evtag_encode_int evbuf (u32 (zlen data));
  ignore (bq_add evbuf data).
(** The result is [evbuf] and [data]. *)
Definition evtag_marshal_buffer evbuf (tag : Z) (data : Q) : option (Q * Q) :=
  '(_, evbuf) ← evtag_encode_tag evbuf tag;
  evbuf ← evtag_encode_int evbuf (u32 (bq_length data));
  '(_, evbuf, data) ← bq_add_buffer evbuf data;
  Some (evbuf, data).
Definition evtag_marshal_int evbuf (tag integer : Z) : option Q :=
  let data := encode_int_internal integer in
  '(_, evbuf) ← evtag_encode_tag evbuf tag;
  evbuf ← evtag_encode_int evbuf (zlen data);
  ignore (bq_add evbuf data).
Definition evtag_marshal_int64 evbuf (tag integer : Z) : option Q :=
  let data := encode_int64_internal integer in
  '(_, evbuf) ← evtag_encode_tag evbuf tag;
  evbuf ← evtag_encode_int evbuf (zlen data);
  ignore (bq_add evbuf data).
Definition evtag_marshal_string evbuf (tag : Z) (string : list byte) : option Q := evtag_marshal evbuf tag string.
Definition evtag_marshal_timeval evbuf (tag : Z) (tv : timeval) : option Q :=
  evtag_marshal evbuf tag (encode_int_internal (u32 (tv_sec tv)) ++ encode_int_internal (u32 (tv_usec tv))).

(** The result, and the number when it is not -1.  A null pointer moved by
    [offset] is not seen as one. *)
Definition DECODE_INT_INTERNAL (maxnibbles : Z) evbuf (offset : Z) : option (Z * Z * Q) :=
  let len := s64 (bq_length evbuf - offset) in
  if len <=? 0 then Some (-1, 0, evbuf)
  else
    '(data, evbuf) ← bq_pullup evbuf (offset + 1);
    match data with
    | None => if offset =? 0 then Some (-1, 0, evbuf) else None
    | Some data =>
        b0 ← zdrop offset data !! 0%nat;
        let nibbles := Z.shiftr (Z.land b0 0xf0) 4 + 1 in
        if (maxnibbles <? nibbles) || (len <? Z.shiftr nibbles 1 + 1) then Some (-1, 0, evbuf)
        else
          let len := Z.shiftr nibbles 1 + 1 in
          '(data, evbuf) ← bq_pullup evbuf (offset + len);
          match data with
          | None => if offset =? 0 then Some (-1, 0, evbuf) else None
          | Some data =>
              number ← decode_int_loop (Z.to_nat nibbles) (zdrop offset data) 0;
              Some (len, number, evbuf)
          end
    end.
Definition decode_int_internal evbuf (offset : Z) : option (Z * Z * Q) := DECODE_INT_INTERNAL 8 evbuf offset.
Definition decode_int64_internal evbuf (offset : Z) : option (Z * Z * Q) := DECODE_INT_INTERNAL 16 evbuf offset.

Definition evtag_decode_int evbuf : option (Z * Z * Q) :=
  '(res, number, evbuf) ← decode_int_internal evbuf 0;
  if negb (res =? -1) then evbuf ← ignore (bq_drain evbuf res); Some (0, number, evbuf)
  else Some (-1, number, evbuf).
Definition evtag_decode_int64 evbuf : option (Z * Z * Q) :=
  '(res, number, evbuf) ← decode_int64_internal evbuf 0;
  if negb (res =? -1) then evbuf ← ignore (bq_drain evbuf res); Some (0, number, evbuf)
  else Some (-1, number, evbuf).

Definition evtag_peek evbuf : option (Z * Z * Q) := decode_tag_internal evbuf false.
Definition evtag_peek_length evbuf : option (Z * Z * Q) :=
  '(len, _, evbuf) ← decode_tag_internal evbuf false;
  if len =? -1 then Some (-1, 0, evbuf)
  else
    '(res, plength, evbuf) ← decode_int_internal evbuf len;
    if res =? -1 then Some (-1, 0, evbuf) else Some (0, u32 (plength + (res + len)), evbuf).
Definition evtag_payload_length evbuf : option (Z * Z * Q) :=
  '(len, _, evbuf) ← decode_tag_internal evbuf false;
  if len =? -1 then Some (-1, 0, evbuf)
  else
    '(res, plength, evbuf) ← decode_int_internal evbuf len;
    if res =? -1 then Some (-1, 0, evbuf) else Some (0, plength, evbuf).

(** The result (the length as an [int]), the tag and the buffer. *)
Definition evtag_unmarshal_header evbuf : option (Z * Z * Q) :=
  '(res, tag, evbuf) ← decode_tag_internal evbuf true;
  if res =? -1 then Some (-1, 0, evbuf)
  else
    '(res, len, evbuf) ← evtag_decode_int evbuf;
    if res =? -1 then Some (-1, tag, evbuf)
    else if bq_length evbuf <? len then Some (-1, tag, evbuf)
    else Some (s32 len, tag, evbuf).
Definition evtag_consume evbuf : option (Z * Q) :=
  '(len, _, evbuf) ← evtag_unmarshal_header evbuf;
  if len =? -1 then Some (-1, evbuf)
  else evbuf ← ignore (bq_drain evbuf (u64 len)); Some (0, evbuf).

(** The result, the tag, [src] and [dst].  Only a copy of no bytes may be from
    a null pointer. *)
Definition evtag_unmarshal (src dst : Q) : option (Z * Z * Q * Q) :=
  '(len, tag, src) ← evtag_unmarshal_header src;
  if len =? -1 then Some (-1, tag, src, dst)
  else
    '(data, src) ← bq_pullup src len;
    data ← match data with
           | Some data => if zlen data <? len then None else Some (ztake len data)
           | None => if len =? 0 then Some [] else None
           end;
    '(r, dst) ← bq_add dst data;
    if r =? -1 then Some (-1, tag, src, dst)
    else src ← ignore (bq_drain src len); Some (len, tag, src, dst).

(** The result and the integer. *)
Definition unmarshal_number (decode : Q -> Z -> option (Z * Z * Q)) evbuf (need_tag : Z) : option (Z * Z * Q) :=
  '(res, tag, evbuf) ← decode_tag_internal evbuf true;
  if res =? -1 then Some (-1, 0, evbuf)
  else if negb (need_tag =? tag) then Some (-1, 0, evbuf)
  else
    '(res, len, evbuf) ← evtag_decode_int evbuf;
    if res =? -1 then Some (-1, 0, evbuf)
    else if bq_length evbuf <? len then Some (-1, 0, evbuf)
    else
      '(result, integer, evbuf) ← decode evbuf 0;
      evbuf ← ignore (bq_drain evbuf len);
      if (result <? 0) || (len <? result) then Some (-1, integer, evbuf) else Some (result, integer, evbuf).
Definition evtag_unmarshal_int evbuf (need_tag : Z) : option (Z * Z * Q) := unmarshal_number decode_int_internal evbuf need_tag.
Definition evtag_unmarshal_int64 evbuf (need_tag : Z) : option (Z * Z * Q) := unmarshal_number decode_int64_internal evbuf need_tag.

(** The result and the bytes. *)
Definition evtag_unmarshal_fixed (src : Q) (need_tag len : Z) : option (Z * list byte * Q) :=
  '(tag_len, tag, src) ← evtag_unmarshal_header src;
  if (tag_len <? 0) || negb (tag =? need_tag) then Some (-1, [], src)
  else if negb (tag_len =? len) then Some (-1, [], src)
  else '(_, data, src) ← bq_remove src len; Some (0, data, src).
(** [malloc]: whether the memory for the string can be had.  The final NUL
    is not part of the result. *)
Definition evtag_unmarshal_string (malloc : Z -> bool) evbuf (need_tag : Z) : option (Z * list byte * Q) :=
  '(tag_len, tag, evbuf) ← evtag_unmarshal_header evbuf;
  if (tag_len =? -1) || negb (tag =? need_tag) then Some (-1, [], evbuf)
  else if negb (malloc (tag_len + 1)) then Some (-1, [], evbuf)
  else '(_, data, evbuf) ← bq_remove evbuf tag_len; Some (0, data, evbuf).
(** The result and the time. *)
Definition evtag_unmarshal_timeval evbuf (need_tag : Z) : option (Z * timeval * Q) :=
  let ptv := Timeval 0 0 in
  '(len, tag, evbuf) ← evtag_unmarshal_header evbuf;
  if len =? -1 then Some (-1, ptv, evbuf)
  else
    '(result, ptv, evbuf) ←
      (if negb (tag =? need_tag) then Some (-1, ptv, evbuf)
       else
         '(offset, integer, evbuf) ← decode_int_internal evbuf 0;
         if offset =? -1 then Some (-1, ptv, evbuf)
         else
           let ptv := {| ptv with tv_sec := integer |} in
           '(offset2, integer, evbuf) ← decode_int_internal evbuf offset;
           if offset2 =? -1 then Some (-1, ptv, evbuf)
           else
             let ptv := {| ptv with tv_usec := integer |} in
             Some (if len <? offset + offset2 then -1 else 0, ptv, evbuf));
    evbuf ← ignore (bq_drain evbuf len);
    Some (result, ptv, evbuf).
End Tagging.
