(* ===== verification/TaggingCodec.v ===== *)
(** * The encodings of integers and tags are read back

    What the loops that write an array of nibbles and the loop that reads it
    compute, by way of the number that a sequence of nibbles stands for. *)
From S2P Require Import Prelude Buffer Tagging Timeval Event BufferInv BufferOps ByteQueue.

(** ** Nibbles of an array. *)
Definition nib (data : list byte) (k : nat) : Z :=
  let b := nth (Nat.div2 k) data 0 in
  if Nat.odd k then Z.land b 0x0f else Z.shiftr (Z.land b 0xf0) 4.
(** The number nibbles 1 to [n] stand for, the first the least significant. *)
Fixpoint value (data : list byte) (n : nat) : Z :=
  match n with O => 0 | S n' => nib data n * 16 ^ Z.of_nat n' + value data n' end.

Definition bytes_ok (data : list byte) : Prop := Forall (fun b => 0 <= b < 256) data.
#[export] Hint Unfold bytes_ok : levent.

(** Facts on one byte and one nibble, by trying them all. *)
Definition all_bytes (P : Z -> bool) : bool := forallb P (seqZ 0 256).
Lemma all_bytes_ok P b : all_bytes P = true -> 0 <= b < 256 -> P b = true.
Proof.
  unfold all_bytes. rewrite forallb_forall. intros HP Hb. apply HP. apply list_elem_of_In, elem_of_seqZ. lia.
Qed.
Lemma nibble_facts b x : 0 <= b < 256 -> 0 <= x < 16 ->
  (Z.land (Z.lor (Z.land b 0xf0) x) 0x0f = x /\ Z.shiftr (Z.land (Z.lor (Z.land b 0xf0) x) 0xf0) 4 = Z.shiftr (Z.land b 0xf0) 4 /\
   0 <= Z.lor (Z.land b 0xf0) x < 256) /\
  (Z.land (Z.lor (Z.land b 0x0f) (Z.shiftl x 4)) 0x0f = Z.land b 0x0f /\
   Z.shiftr (Z.land (Z.lor (Z.land b 0x0f) (Z.shiftl x 4)) 0xf0) 4 = x /\ 0 <= Z.lor (Z.land b 0x0f) (Z.shiftl x 4) < 256).
Proof.
  intros Hb Hx. pose (P := fun b => forallb (fun x =>
    (Z.land (Z.lor (Z.land b 0xf0) x) 0x0f =? x) && (Z.shiftr (Z.land (Z.lor (Z.land b 0xf0) x) 0xf0) 4 =? Z.shiftr (Z.land b 0xf0) 4) &&
    (0 <=? Z.lor (Z.land b 0xf0) x) && (Z.lor (Z.land b 0xf0) x <? 256) &&
    (Z.land (Z.lor (Z.land b 0x0f) (Z.shiftl x 4)) 0x0f =? Z.land b 0x0f) &&
    (Z.shiftr (Z.land (Z.lor (Z.land b 0x0f) (Z.shiftl x 4)) 0xf0) 4 =? x) &&
    (0 <=? Z.lor (Z.land b 0x0f) (Z.shiftl x 4)) && (Z.lor (Z.land b 0x0f) (Z.shiftl x 4) <? 256)) (seqZ 0 16)).
  assert (HP : P b = true) by (apply all_bytes_ok; [vm_compute; reflexivity | done]).
  unfold P in HP. rewrite forallb_forall in HP. specialize (HP x ltac:(apply list_elem_of_In, elem_of_seqZ; lia)).
  rewrite !andb_true_iff, !Z.eqb_eq, !Z.leb_le, !Z.ltb_lt in HP. tauto.
Qed.
Lemma nib_range data k : bytes_ok data -> 0 <= nib data k < 16.
Proof.
  intros HF. assert (Hb : 0 <= nth (Nat.div2 k) data 0 < 256).
  { destruct (nth_in_or_default (Nat.div2 k) data 0) as [Hin | ->]; [|lia]. unfold bytes_ok in HF. rewrite Forall_forall in HF. apply HF. by apply list_elem_of_In. }
  unfold nib. set (b := nth _ _ _) in *. clearbody b.
  pose (P := fun b => (0 <=? Z.land b 15) && (Z.land b 15 <? 16) && (0 <=? Z.shiftr (Z.land b 240) 4) && (Z.shiftr (Z.land b 240) 4 <? 16)).
  assert (HP : P b = true) by (apply all_bytes_ok; [vm_compute; reflexivity | done]). unfold P in HP. case_if; lia.
Qed.

(** Writing one nibble. *)
Definition put_nib (data : list byte) (k : nat) (x : Z) : list byte :=
  let b := nth (Nat.div2 k) data 0 in
  <[Nat.div2 k := if Nat.odd k then Z.lor (Z.land b 0xf0) x else Z.lor (Z.land b 0x0f) (Z.shiftl x 4)]> data.
Lemma put_nib_ok data k x : bytes_ok data -> (Nat.div2 k < length data)%nat -> 0 <= x < 16 ->
  bytes_ok (put_nib data k x) /\ length (put_nib data k x) = length data /\ nib (put_nib data k x) k = x /\
  forall j, j <> k -> nib (put_nib data k x) j = nib data j.
Proof.
  intros HF Hk Hx. set (b := nth (Nat.div2 k) data 0).
  assert (Hb : 0 <= b < 256). { unfold bytes_ok in HF. rewrite Forall_forall in HF. apply HF. unfold b. apply list_elem_of_In, nth_In. done. }
  destruct (nibble_facts b x Hb Hx) as [(L1 & L2 & L3) (R1 & R2 & R3)]. unfold put_nib. fold b.
  set (b' := if Nat.odd k then _ else _). assert (Hb' : 0 <= b' < 256) by (unfold b'; case_if; done).
  assert (Hnth : forall i, nth i (<[Nat.div2 k := b']> data) 0 = if decide (i = Nat.div2 k) then b' else nth i data 0).
  { intros i. rewrite !nth_lookup. case_decide as Hi; [subst i; by rewrite list_lookup_insert_eq | by rewrite list_lookup_insert_ne]. }
  split_and!; [apply Forall_insert; done | apply length_insert | |].
  - unfold nib. rewrite Hnth, decide_True by done. unfold b'. by destruct (Nat.odd k).
  - intros j Hj. unfold nib. rewrite Hnth. case_decide as Hi; [|done]. rewrite Hi. fold b. unfold b'.
    assert (Hpar : Nat.odd j = negb (Nat.odd k)).
    { pose proof (Nat.div2_odd j). pose proof (Nat.div2_odd k). destruct (Nat.odd j), (Nat.odd k); cbn in *; (done || lia). }
    rewrite Hpar. by destruct (Nat.odd k).
Qed.
Lemma value_put data k x n : bytes_ok data -> (Nat.div2 k < length data)%nat -> 0 <= x < 16 -> (n < k \/ k = 0)%nat ->
  value (put_nib data k x) n = value data n.
Proof.
  intros HF Hk Hx Hn. destruct (put_nib_ok data k x HF Hk Hx) as (_ & _ & _ & Hj).
  induction n as [|n IH]; [done|]. cbn [value]. rewrite Hj, IH by lia. done.
Qed.

(** ** Writing an integer. *)
Lemma odd_land k : c_true (Z.land (Z.of_nat k) 1) = Nat.odd k.
Proof.
  rewrite (Z.land_ones _ 1) by lia. change (2 ^ 1) with 2. unfold c_true. pose proof (Nat.div2_odd k) as Hk.
  destruct (Nat.odd k); cbn [Nat.b2n] in Hk; rewrite Hk; [apply negb_true_iff, Z.eqb_neq | apply negb_false_iff, Z.eqb_eq]; lia.
Qed.
Lemma half_nat k : Z.to_nat (Z.of_nat k / 2) = Nat.div2 k.
Proof. rewrite Nat.div2_div. change 2 with (Z.of_nat 2). rewrite <- Nat2Z.inj_div. apply Nat2Z.id. Qed.

Lemma encode_step data k x :
  arr_set data (Z.of_nat k / 2)
    (if c_true (Z.land (Z.of_nat k) 1) then Z.lor (Z.land (arr_get 0 data (Z.of_nat k / 2)) 0xf0) x
     else Z.lor (Z.land (arr_get 0 data (Z.of_nat k / 2)) 0x0f) (Z.shiftl x 4)) = put_nib data k x.
Proof. rewrite arr_set_insert, arr_get_nth, half_nat, odd_land. done. Qed.

Lemma land15 number : 0 <= Z.land number 0x0f < 16 /\ Z.land number 0x0f = number mod 16 /\ Z.shiftr number 4 = number / 16.
Proof.
  change 15 with (Z.ones 4). rewrite Z.land_ones, Z.shiftr_div_pow2 by lia. change (2 ^ 4) with 16. split_and!; try done; apply Z.mod_pos_bound; lia.
Qed.

(** The loop writes the number above the nibbles that are there. *)
Lemma encode_int_loop_ok fuel data number k : bytes_ok data -> 0 <= number < 16 ^ Z.of_nat fuel ->
  (k + fuel < 2 * length data)%nat ->
  exists data' m, encode_int_loop fuel data number (Z.of_nat (S k)) = (data', Z.of_nat (S m)) /\
    bytes_ok data' /\ length data' = length data /\ (k <= m <= k + fuel)%nat /\
    value data' m = value data k + 16 ^ Z.of_nat k * number /\ (number <> 0 -> (k < m)%nat).
Proof.
  revert data number k. induction fuel as [|fuel IH]; intros data number k HF Hn Hk; cbn [encode_int_loop].
  { change (16 ^ Z.of_nat 0) with 1 in Hn. exists data, k. split_and!; (done || lia). }
  destruct (Z.eqb_spec number 0) as [->|Hnz]; [exists data, k; split_and!; (done || lia)|].
  rewrite (encode_step data (S k) (Z.land number 15)). destruct (land15 number) as (Hx & Hmod & Hdiv).
  assert (Hd2 : (Nat.div2 (S k) < length data)%nat) by (pose proof (Nat.div2_odd (S k)); destruct (Nat.odd (S k)); cbn [Nat.b2n] in *; lia).
  destruct (put_nib_ok data (S k) _ HF Hd2 Hx) as (HF' & Hlen & Hnib & _). rewrite Hdiv.
  replace (Z.of_nat (S k) + 1) with (Z.of_nat (S (S k))) by lia. rewrite Nat2Z.inj_succ, Z.pow_succ_r in Hn by lia.
  destruct (IH (put_nib data (S k) (Z.land number 15)) (number / 16) (S k) HF' ltac:(lia) ltac:(lia)) as (data' & m & R & HF2 & Hl & Hm & Hv & _).
  exists data', m. split_and!; try done; try lia. rewrite Hv. cbn [value]. rewrite Hnib, value_put by (done || lia).
  rewrite Nat2Z.inj_succ, Z.pow_succ_r, Hmod by lia. pose proof (Z.div_mod number 16). nia.
Qed.

Lemma value_ext d1 d2 n : (forall i, (i <= Nat.div2 n)%nat -> nth i d1 0 = nth i d2 0) -> value d1 n = value d2 n.
Proof.
  intros He. assert (Hn : forall k, (k <= n)%nat -> nib d1 k = nib d2 k).
  { intros k Hk. unfold nib. rewrite He; [done|]. rewrite !Nat.div2_div. by apply Nat.Div0.div_le_mono. }
  clear He. induction n as [|n IH]; [done|]. cbn [value]. rewrite Hn, IH by auto. done.
Qed.

(** How many nibbles an encoded integer has, and how many bytes. *)
Lemma ENCODE_INT_ok size number : 0 <= number < 16 ^ Z.of_nat (2 * size) -> (0 < size <= 8)%nat ->
  exists m, (1 <= m <= 2 * size)%nat /\ let enc := ENCODE_INT_INTERNAL size number in
    zlen enc = Z.of_nat (S (Nat.div2 m)) /\ bytes_ok enc /\
    Z.shiftr (Z.land (nth 0 enc 0) 0xf0) 4 + 1 = Z.of_nat m /\ value enc m = number.
Proof.
  intros Hn Hs. destruct (Z.eq_dec number 0) as [->|Hnz].
  { assert (He : ENCODE_INT_INTERNAL size 0 = [0]) by (clear Hn; do 9 (destruct size as [|size]; [try lia; reflexivity|]); lia).
    exists 1%nat. cbv zeta. rewrite He. split_and!; try done; try lia. by repeat constructor. }
  unfold ENCODE_INT_INTERNAL. assert (HF0 : bytes_ok (replicate (size + 1) 0)) by (apply Forall_replicate; lia).
  destruct (encode_int_loop_ok (2 * size) (replicate (size + 1) 0) number 0 HF0 Hn) as (data & m & R & HF & Hl & Hm & Hv & Hpos);
    [rewrite length_replicate; lia|]. specialize (Hpos Hnz). rewrite length_replicate in Hl. change (Z.of_nat 1) with 1 in R.
  rewrite R. cbv zeta. cbn [value] in Hv. change (16 ^ Z.of_nat 0) with 1 in Hv. rewrite Z.add_0_l, Z.mul_1_l in Hv.
  set (c := if 2 <? Z.of_nat (S m) then _ else _).
  assert (Hc : Z.land c 15 = Z.of_nat m - 1).
  { destruct (land15 c) as (_ & -> & _). unfold c. destruct (Z.ltb_spec 2 (Z.of_nat (S m))); rewrite Z.mod_small; lia. }
  rewrite Hc. assert (Hcr : 0 <= Z.of_nat m - 1 < 16) by lia.
  assert (Hstep : arr_set data 0 (Z.lor (Z.land (arr_get 0 data 0) 15) (Z.shiftl (Z.of_nat m - 1) 4)) = put_nib data 0 (Z.of_nat m - 1)).
  { rewrite <- (encode_step data 0). done. }
  rewrite Hstep. destruct (put_nib_ok data 0 (Z.of_nat m - 1) HF) as (HF2 & Hl2 & Hn0 & _); [cbn; lia | done|].
  replace ((Z.of_nat (S m) + 1) / 2) with (Z.of_nat (S (Nat.div2 m))).
  2: { rewrite Nat.div2_div, !Nat2Z.inj_succ, Nat2Z.inj_div. change (Z.of_nat 2) with 2. lia. }
  set (enc := ztake _ _). assert (Hm2 : (S (Nat.div2 m) <= size + 1)%nat).
  { rewrite Nat.div2_div. assert (m / 2 <= 2 * size / 2)%nat by (apply Nat.Div0.div_le_mono; lia). rewrite Nat.mul_comm, Nat.div_mul in H by lia. lia. }
  assert (Hnth : forall i, (i <= Nat.div2 m)%nat -> nth i enc 0 = nth i (put_nib data 0 (Z.of_nat m - 1)) 0).
  { intros i Hi. unfold enc, ztake. rewrite Nat2Z.id, !nth_lookup, lookup_take_lt by lia. done. }
  exists m. split; [lia|]. split_and!.
  - unfold enc, ztake, zlen. rewrite Nat2Z.id, length_take. lia.
  - unfold enc. by apply Forall_take.
  - rewrite Hnth by lia. change (nib (put_nib data 0 (Z.of_nat m - 1)) 0 + 1 = Z.of_nat m). lia.
  - rewrite (value_ext _ _ m Hnth), value_put; [done | done | cbn; lia | done | by right].
Qed.

(** ** Reading an integer. *)
Lemma decode_int_loop_ok data n acc : bytes_ok data -> 0 <= acc -> (Nat.div2 n < length data)%nat ->
  decode_int_loop n data acc = Some (acc * 16 ^ Z.of_nat n + value data n).
Proof.
  intros HF. revert acc. induction n as [|n IH]; intros acc Ha Hl; cbn [decode_int_loop value].
  { change (16 ^ Z.of_nat 0) with 1. f_equal. lia. }
  destruct (lookup_lt_is_Some_2 data _ Hl) as [b Hb]. rewrite Hb. cbn [mbind option_bind].
  pose proof (nib_range data (S n) HF) as Hr.
  assert (Hlor : Z.lor (Z.shiftl acc 4) (if Nat.odd (S n) then Z.land b 15 else Z.shiftr (Z.land b 240) 4) = 16 * acc + nib data (S n)).
  { assert (Hnb : nib data (S n) = if Nat.odd (S n) then Z.land b 15 else Z.shiftr (Z.land b 240) 4)
      by (unfold nib; by rewrite (nth_lookup_Some _ _ 0 _ Hb)).
    rewrite <- Hnb. rewrite lor_shiftl_add by lia. change (2 ^ 4) with 16. lia. }
  rewrite Hlor, IH; [|lia | rewrite Nat.div2_div in *; pose proof (Nat.Div0.div_le_mono n (S n) 2); lia].
  rewrite Nat2Z.inj_succ, Z.pow_succ_r by lia. f_equal. ring.
Qed.

(** The loop looks at the bytes of its nibbles only. *)
Lemma decode_int_loop_ext d1 d2 n acc : (forall i, (i <= Nat.div2 n)%nat -> d1 !! i = d2 !! i) ->
  decode_int_loop n d1 acc = decode_int_loop n d2 acc.
Proof.
  revert acc. induction n as [|n IH]; intros acc He; [done|]. cbn [decode_int_loop]. rewrite He by lia.
  destruct (d2 !! _); [|done]. cbn [mbind option_bind]. apply IH. intros i Hi. apply He.
  rewrite Nat.div2_div in *. pose proof (Nat.Div0.div_le_mono n (S n) 2). lia.
Qed.

(** ** Tags. *)
Lemma land127 tag : 0 <= Z.land tag 0x7f < 128 /\ Z.land tag 0x7f = tag mod 128 /\ Z.shiftr tag 7 = tag / 128.
Proof.
  change 0x7f with (Z.ones 7). rewrite Z.land_ones, Z.shiftr_div_pow2 by lia. change (2 ^ 7) with 128.
  split_and!; try done; apply Z.mod_pos_bound; lia.
Qed.
Lemma low_facts x : 0 <= x < 128 -> Z.land (Z.lor x 0x80) 0x7f = x /\ c_true (Z.land (Z.lor x 0x80) 0x80) = true /\
  Z.land x 0x7f = x /\ c_true (Z.land x 0x80) = false /\ 0 <= Z.lor x 0x80 < 256.
Proof.
  intros Hx. pose (P := fun x => (128 <=? x) || ((Z.land (Z.lor x 128) 127 =? x) && c_true (Z.land (Z.lor x 128) 128) &&
    (Z.land x 127 =? x) && negb (c_true (Z.land x 128)) && (0 <=? Z.lor x 128) && (Z.lor x 128 <? 256))).
  assert (HP : P x = true) by (apply all_bytes_ok; [vm_compute; reflexivity | lia]). unfold P in HP.
  rewrite (proj2 (Z.leb_gt _ _)) in HP by lia. cbn [orb] in HP. rewrite !andb_true_iff, negb_true_iff, !Z.eqb_eq in HP.
  destruct HP as (((((H1 & H2) & H3) & H4) & H5) & H6). split_and!; (done || lia).
Qed.

Lemma zlen_nonneg' (l : list byte) : 0 <= zlen l.
Proof. unfold zlen. lia. Qed.
Lemma encode_tag_length fuel tag : (0 < fuel)%nat -> 1 <= zlen (encode_tag_loop fuel tag) <= Z.of_nat fuel.
Proof.
  revert tag. induction fuel as [|fuel IH]; intros tag Hf; [lia|]. cbn [encode_tag_loop]. case_if; [|unfold zlen; cbn; lia].
  destruct fuel as [|fuel]; [unfold zlen; cbn; lia|]. specialize (IH (Z.shiftr tag 7) ltac:(lia)). unfold zlen in *. cbn [length] in *. lia.
Qed.

Lemma decode_encode_tag j fuel fuel' tag rest left count number :
  (j + fuel = 5)%nat -> (fuel <= fuel')%nat -> 0 <= number < 2 ^ (7 * Z.of_nat j) -> 0 <= tag < 2 ^ (32 - 7 * Z.of_nat j) ->
  (0 < fuel)%nat -> zlen (encode_tag_loop fuel tag) <= left ->
  decode_tag_loop fuel' (encode_tag_loop fuel tag ++ rest) left count number (7 * Z.of_nat j) =
    Some (Some (number + tag * 2 ^ (7 * Z.of_nat j), count + zlen (encode_tag_loop fuel tag))).
Proof.
  revert j fuel' tag left count number. induction fuel as [|fuel IH]; intros j fuel' tag left count number Hj Hf Hnum Htag Hpos Hleft; [lia|].
  pose proof (encode_tag_length (S fuel) tag Hpos) as Hlen. destruct fuel' as [|fuel']; [lia|].
  cbn [encode_tag_loop] in *. destruct (land127 tag) as (Hx & Hmod & Hdiv). set (x := Z.land tag 127) in *.
  destruct (low_facts x Hx) as (F1 & F2 & F3 & F4 & _). set (s := 7 * Z.of_nat j) in *. rewrite Hdiv in *.
  pose proof (Z.div_mod tag 128 ltac:(lia)) as Hdm. rewrite <- Hmod in Hdm.
  assert (Hs28 : s <= 28) by (unfold s; lia).
  assert (Hok : forall lower, Z.land lower 127 = x -> (28 <=? s) && ((28 <? s) || (15 <? Z.land lower 127)) = false).
  { intros lower ->. destruct (Z.leb_spec 28 s) as [Hge|]; [|done]. assert (s = 28) as Hs by lia. rewrite Hs in Htag. change (2 ^ (32 - 28)) with 16 in Htag.
    rewrite Hs. cbn [andb]. rewrite orb_false_iff, !Z.ltb_ge. lia. }
  assert (Hor : Z.lor number (Z.shiftl x s) = number + x * 2 ^ s) by (rewrite Z.lor_comm, lor_shiftl_add by lia; lia).
  destruct (c_true (tag / 128)) eqn:Hc; unfold c_true in Hc; [apply negb_true_iff, Z.eqb_neq in Hc | apply negb_false_iff, Z.eqb_eq in Hc]; cbn [app].
  2: { cbn [decode_tag_loop]. rewrite (proj2 (Z.leb_gt _ _)), (Hok x F3), F3, F4 by lia. cbn [negb]. rewrite Hor. unfold zlen. cbn [length].
    assert (Htx : tag = x) by lia. rewrite Htx. do 3 f_equal; lia. }
  assert (Hj4 : (j < 4)%nat).
  { destruct (decide (j = 4%nat)) as [Hj4|]; [|lia]. exfalso. apply Hc. unfold s in Htag. rewrite Hj4 in Htag.
    change (2 ^ (32 - 7 * Z.of_nat 4)) with 16 in Htag. apply Z.div_small. lia. }
  assert (Hz1 : zlen (Z.lor x 128 :: encode_tag_loop fuel (tag / 128)) = 1 + zlen (encode_tag_loop fuel (tag / 128))) by (unfold zlen; cbn [length]; lia).
  rewrite Hz1 in *. pose proof (zlen_nonneg' (encode_tag_loop fuel (tag / 128))).
  cbn [decode_tag_loop]. rewrite (proj2 (Z.leb_gt _ _)), (Hok _ F1), F1, F2 by lia. cbn [negb]. rewrite Hor.
  replace (s + 7) with (7 * Z.of_nat (S j)) by (unfold s; lia).
  assert (Hp7 : 2 ^ (7 * Z.of_nat (S j)) = 2 ^ s * 128) by (replace (7 * Z.of_nat (S j)) with (s + 7) by (unfold s; lia); rewrite Z.pow_add_r by lia; done).
  assert (Hp32 : 2 ^ (32 - s) = 128 * 2 ^ (32 - 7 * Z.of_nat (S j))).
  { replace (32 - s) with (7 + (32 - 7 * Z.of_nat (S j))) by (unfold s; lia). rewrite Z.pow_add_r by lia. done. }
  rewrite IH; [| lia | lia | rewrite Hp7; nia | split; [lia | apply Z.div_lt_upper_bound; lia] | lia | lia].
  assert (Hv : number + x * 2 ^ s + tag / 128 * (2 ^ s * 128) = number + tag * 2 ^ s).
  { generalize dependent (tag / 128). intros q. intros. rewrite Hdm. ring. }
  rewrite Hp7, Hv. do 3 f_equal. lia.
Qed.

(** * Tagged data over a byte queue

    What marshalling appends, and what unmarshalling reads from the front of
    the queue, for any implementation of the interface. *)
(** The bytes of a record. *)
Definition record (tag : Z) (data : list byte) : list byte := encode_tag tag ++ encode_int_internal (zlen data) ++ data.

Section Ops.
Context {Q : Type} `{ByteQueueLaws Q}.
Implicit Types (q : Q).

(** [q'] is a queue that may be used, with these bytes. *)
Definition holds q' (bytes : list byte) : Prop := bq_ok q' /\ bq_bytes q' = bytes.

Lemma ignore_drain q n : bq_ok q -> 0 <= n -> exists q', ignore (bq_drain q n) = Some q' /\ holds q' (zdrop n (bq_bytes q)).
Proof. intros Hq Hn. destruct (bq_drain_law q n Hq Hn) as (q' & R & Hok & Hbs). exists q'. by rewrite R. Qed.

(** ** Reading. *)
Lemma decode_tag_ok q tag rest drain : bq_ok q -> bq_bytes q = encode_tag tag ++ rest -> is_u32 tag ->
  exists q', decode_tag_internal q drain = Some (zlen (encode_tag tag), tag, q') /\
    holds q' (if drain then rest else bq_bytes q).
Proof.
  intros Hq Hb Htag. destruct (bq_length_law q Hq) as [Hl Hmax]. unfold decode_tag_internal. cbv zeta. rewrite Hl.
  pose proof (encode_tag_length 5 tag ltac:(lia)) as Hlen. fold (encode_tag tag) in Hlen. pose proof (zlen_nonneg rest).
  assert (Hz : zlen (bq_bytes q) = zlen (encode_tag tag) + zlen rest) by (by rewrite Hb, zlen_app).
  set (n := if _ <? 5 then _ else _). assert (Hn : 0 < n <= zlen (bq_bytes q) /\ zlen (encode_tag tag) <= n) by (unfold n; case_if; lia).
  destruct (bq_pullup_law q n Hq ltac:(lia)) as (p & q1 & R & Hq1 & Hb1 & Hp & Ht). rewrite R. cbn [mbind option_bind].
  assert (Hpe : exists rest', p = encode_tag tag ++ rest').
  { exists (ztake (n - zlen (encode_tag tag)) rest ++ zdrop n p). rewrite app_assoc, <- ztake_app_ge, <- Hb, <- Ht by lia. symmetry. apply zdrop_take. }
  destruct Hpe as [rest' ->]. unfold encode_tag at 1. unfold is_u32 in Htag.
  rewrite (decode_encode_tag 0 5 7 tag rest' (zlen (bq_bytes q)) 0 0); try (done || lia); [|fold (encode_tag tag); lia].
  change (2 ^ (7 * Z.of_nat 0)) with 1. rewrite Z.add_0_l, Z.add_0_l, Z.mul_1_r. fold (encode_tag tag). cbn [mbind option_bind].
  unfold INT_MAX in *. rewrite (proj2 (Z.ltb_ge (2 ^ 31 - 1) _)), u32_small by lia. destruct drain.
  - destruct (ignore_drain q1 (zlen (encode_tag tag)) Hq1 ltac:(lia)) as (q2 & -> & Hq2 & Hb2). exists q2. split; [done|]. split; [done|].
    rewrite Hb2, Hb1, Hb, zdrop_app_ge by lia. by rewrite Z.sub_diag.
  - by exists q1.
Qed.

Lemma zdrop_lookup {A} n (l : list A) i : 0 <= n -> zdrop n l !! i = l !! (Z.to_nat n + i)%nat.
Proof. intros _. apply lookup_drop. Qed.
Lemma ztake_lookup {A} n (l l' : list A) i : ztake n l = ztake n l' -> Z.of_nat i < n -> l !! i = l' !! i.
Proof. unfold ztake. intros Ht Hi. rewrite <- (lookup_take_lt l (Z.to_nat n)), Ht, lookup_take_lt by lia. done. Qed.

(** Reading an integer that is [zlen pre] bytes from the front. *)
Lemma DECODE_INT_ok size q pre number rest : bq_ok q ->
  bq_bytes q = pre ++ ENCODE_INT_INTERNAL size number ++ rest -> 0 <= number < 16 ^ Z.of_nat (2 * size) -> (0 < size <= 8)%nat ->
  exists q', DECODE_INT_INTERNAL (2 * Z.of_nat size) q (zlen pre) = Some (zlen (ENCODE_INT_INTERNAL size number), number, q') /\
    holds q' (bq_bytes q).
Proof.
  intros Hq Hb Hn Hs. destruct (bq_length_law q Hq) as [Hl Hmax]. unfold DECODE_INT_INTERNAL. cbv zeta. rewrite Hl.
  destruct (ENCODE_INT_ok size number Hn Hs) as (m & Hm & Hze & HF & Hm0 & Hv). set (enc := ENCODE_INT_INTERNAL size number) in *.
  pose proof (zlen_nonneg rest). pose proof (zlen_nonneg pre).
  assert (Hz : zlen (bq_bytes q) = zlen pre + zlen enc + zlen rest) by (rewrite Hb, !zlen_app; lia).
  unfold INT_MAX in Hmax. rewrite s64_small, (proj2 (Z.leb_gt _ _)) by lia.
  (* a byte of the integer, in contiguous bytes *)
  assert (Hbyte : forall p n i, ztake n p = ztake n (bq_bytes q) -> Z.of_nat i < n - zlen pre -> (i < length enc)%nat ->
            zdrop (zlen pre) p !! i = enc !! i).
  { intros p n i Ht Hi Hi2. rewrite zdrop_lookup by lia. rewrite (ztake_lookup n p (bq_bytes q)) by (done || lia). rewrite Hb.
    unfold zlen. rewrite Nat2Z.id, lookup_app_r by lia. rewrite lookup_app_l by lia. f_equal. lia. }
  assert (Hlen : length enc = S (Nat.div2 m)) by (unfold zlen in Hze; lia).
  destruct (bq_pullup_law q (zlen pre + 1) Hq ltac:(lia)) as (p1 & q1 & R1 & Hq1 & Hb1 & Hp1 & Ht1). rewrite R1. cbn [mbind option_bind].
  destruct enc as [|b0 enc'] eqn:He; [done|].
  rewrite (Hbyte p1 (zlen pre + 1) 0%nat Ht1) by (cbn; lia). cbn [lookup list_lookup mbind option_bind]. cbn [nth] in Hm0. rewrite Hm0.
  rewrite <- He in *. clear He. assert (Hd2 : Z.shiftr (Z.of_nat m) 1 = Z.of_nat (Nat.div2 m)).
  { rewrite Z.shiftr_div_pow2, Nat.div2_div, Nat2Z.inj_div by lia. done. }
  rewrite Hd2. replace ((_ <? _) || (_ <? _)) with false by (symmetry; apply orb_false_iff; rewrite !Z.ltb_ge; lia).
  destruct (bq_pullup_law q1 (zlen pre + (Z.of_nat (Nat.div2 m) + 1)) Hq1 ltac:(rewrite Hb1; lia)) as (p2 & q2 & R2 & Hq2 & Hb2 & Hp2 & Ht2).
  rewrite R2. cbn [mbind option_bind]. rewrite Hb1 in Ht2. rewrite Nat2Z.id.
  rewrite (decode_int_loop_ext _ enc) by (intros i Hi; apply (Hbyte p2 _ i Ht2); lia).
  rewrite decode_int_loop_ok by (done || lia). cbn [mbind option_bind]. rewrite Z.mul_0_l, Z.add_0_l, Hv.
  exists q2. rewrite Hze. split; [do 3 f_equal; lia|]. split; [done|]. by rewrite Hb2, Hb1.
Qed.

Lemma decode_int_ok q pre number rest : bq_ok q -> bq_bytes q = pre ++ encode_int_internal number ++ rest -> is_u32 number ->
  exists q', decode_int_internal q (zlen pre) = Some (zlen (encode_int_internal number), number, q') /\ holds q' (bq_bytes q).
Proof. intros Hq Hb Hn. by apply (DECODE_INT_ok 4 q pre number rest); try done; lia. Qed.
Lemma decode_int64_ok q pre number rest : bq_ok q -> bq_bytes q = pre ++ encode_int64_internal number ++ rest -> is_u64 number ->
  exists q', decode_int64_internal q (zlen pre) = Some (zlen (encode_int64_internal number), number, q') /\ holds q' (bq_bytes q).
Proof. intros Hq Hb Hn. by apply (DECODE_INT_ok 8 q pre number rest); try done; lia. Qed.

Lemma encode_int_length number : is_u32 number -> 1 <= zlen (encode_int_internal number) <= 5.
Proof.
  intros Hn. destruct (ENCODE_INT_ok 4 number Hn ltac:(lia)) as (m & Hm & Hz & _). fold (encode_int_internal number) in Hz. rewrite Hz.
  rewrite Nat.div2_div. pose proof (Nat.Div0.div_le_mono m 8 2 ltac:(lia)) as Hd. change (8 / 2)%nat with 4%nat in Hd. lia.
Qed.
Lemma encode_int64_length number : is_u64 number -> 1 <= zlen (encode_int64_internal number) <= 9.
Proof.
  intros Hn. destruct (ENCODE_INT_ok 8 number Hn ltac:(lia)) as (m & Hm & Hz & _). fold (encode_int64_internal number) in Hz. rewrite Hz.
  rewrite Nat.div2_div. pose proof (Nat.Div0.div_le_mono m 16 2 ltac:(lia)) as Hd. change (16 / 2)%nat with 8%nat in Hd. lia.
Qed.
Lemma encode_tag_len tag : 1 <= zlen (encode_tag tag) <= 5.
Proof. apply (encode_tag_length 5). lia. Qed.

Lemma zdrop_app_len {A} (l l' : list A) : zdrop (zlen l) (l ++ l') = l'.
Proof. rewrite zdrop_app_ge by lia. by rewrite Z.sub_diag. Qed.
Lemma ztake_app_len {A} (l l' : list A) : ztake (zlen l) (l ++ l') = l.
Proof. rewrite ztake_app_le, ztake_ge by lia. done. Qed.

Lemma evtag_decode_int_ok q number rest : bq_ok q -> bq_bytes q = encode_int_internal number ++ rest -> is_u32 number ->
  exists q', evtag_decode_int q = Some (0, number, q') /\ holds q' rest.
Proof.
  intros Hq Hb Hn. unfold evtag_decode_int. destruct (decode_int_ok q [] number rest Hq Hb Hn) as (q1 & R & Hq1 & Hb1).
  change (zlen (@nil byte)) with 0 in R. rewrite R. cbn [mbind option_bind]. pose proof (encode_int_length number Hn) as Hl.
  rewrite (proj2 (Z.eqb_neq _ (-1))) by lia. cbn [negb].
  destruct (ignore_drain q1 (zlen (encode_int_internal number)) Hq1 ltac:(lia)) as (q2 & -> & Hq2 & Hb2). exists q2. split; [done|].
  split; [done|]. by rewrite Hb2, Hb1, Hb, zdrop_app_len.
Qed.

(** A record at the front. *)
Lemma unmarshal_header_ok q tag data rest : bq_ok q -> bq_bytes q = record tag data ++ rest -> is_u32 tag ->
  exists q', evtag_unmarshal_header q = Some (zlen data, tag, q') /\ holds q' (data ++ rest).
Proof.
  intros Hq Hb Htag. destruct (bq_length_law q Hq) as [_ Hmax]. unfold INT_MAX in Hmax.
  pose proof (encode_tag_len tag). pose proof (zlen_nonneg data). pose proof (zlen_nonneg rest). pose proof (zlen_nonneg (encode_int_internal (zlen data))).
  unfold record in Hb. rewrite <- !app_assoc in Hb. rewrite Hb, !zlen_app in Hmax. unfold evtag_unmarshal_header.
  destruct (decode_tag_ok q tag _ true Hq Hb Htag) as (q1 & -> & Hq1 & Hb1). cbn [mbind option_bind].
  rewrite (proj2 (Z.eqb_neq _ (-1))) by lia.
  destruct (evtag_decode_int_ok q1 (zlen data) (data ++ rest) Hq1 Hb1) as (q2 & -> & Hq2 & Hb2); [unfold is_u32; lia|]. cbn [mbind option_bind].
  destruct (bq_length_law q2 Hq2) as [Hl2 _]. rewrite Hl2, Hb2, zlen_app. change (0 =? -1) with false. cbv iota.
  rewrite (proj2 (Z.ltb_ge _ _)), s32_small by lia. by exists q2.
Qed.

(** ** Writing. *)
Lemma encode_tag_q q tag : bq_ok q -> zlen (bq_bytes q) + zlen (encode_tag tag) <= INT_MAX ->
  exists q', evtag_encode_tag q tag = Some (zlen (encode_tag tag), q') /\ holds q' (bq_bytes q ++ encode_tag tag).
Proof. intros Hq Hb. unfold evtag_encode_tag. cbv zeta. destruct (ignore_add q _ Hq Hb) as (q' & -> & Hh). by exists q'. Qed.

(** A tag, a length and the data; [n] is the length that is written. *)
Lemma write_record_ok q tag data : bq_ok q -> zlen (bq_bytes q) + zlen (record tag data) <= INT_MAX -> is_u32 tag ->
  exists q', ('(_, q) ← evtag_encode_tag q tag; q ← evtag_encode_int q (zlen data); ignore (bq_add q data)) = Some q' /\
    holds q' (bq_bytes q ++ record tag data).
Proof.
  intros Hq Hb Htag. unfold record in Hb. rewrite !zlen_app in Hb. pose proof (zlen_nonneg data).
  pose proof (zlen_nonneg (encode_int_internal (zlen data))). pose proof (zlen_nonneg (encode_tag tag)).
  destruct (encode_tag_q q tag Hq ltac:(lia)) as (q1 & -> & Hq1 & Hb1). cbn [mbind option_bind]. unfold evtag_encode_int.
  destruct (ignore_add q1 (encode_int_internal (zlen data)) Hq1) as (q2 & -> & Hq2 & Hb2); [rewrite Hb1, zlen_app; lia|]. cbn [mbind option_bind].
  destruct (ignore_add q2 data Hq2) as (q3 & -> & Hq3 & Hb3); [rewrite Hb2, Hb1, !zlen_app; lia|]. exists q3. split; [done|].
  split; [done|]. unfold record. by rewrite Hb3, Hb2, Hb1, <- !app_assoc.
Qed.
Lemma record_small q tag data : zlen (bq_bytes q) + zlen (record tag data) <= INT_MAX -> u32 (zlen data) = zlen data.
Proof.
  unfold record, INT_MAX. rewrite !zlen_app. intros. pose proof (zlen_nonneg data). pose proof (zlen_nonneg (bq_bytes q)).
  pose proof (zlen_nonneg (encode_int_internal (zlen data))). pose proof (zlen_nonneg (encode_tag tag)). apply u32_small. lia.
Qed.
Lemma marshal_ok q tag data : bq_ok q -> zlen (bq_bytes q) + zlen (record tag data) <= INT_MAX -> is_u32 tag ->
  exists q', evtag_marshal q tag data = Some q' /\ holds q' (bq_bytes q ++ record tag data).
Proof. intros Hq Hb Ht. unfold evtag_marshal. rewrite (record_small q tag data Hb). by apply write_record_ok. Qed.

Lemma unmarshal_ok q dst tag data rest : bq_ok q -> bq_ok dst -> bq_bytes q = record tag data ++ rest -> is_u32 tag ->
  zlen (bq_bytes dst) + zlen data <= INT_MAX ->
  exists q' dst', evtag_unmarshal q dst = Some (zlen data, tag, q', dst') /\ holds q' rest /\ holds dst' (bq_bytes dst ++ data).
Proof.
  intros Hq Hd Hb Htag Hm. unfold evtag_unmarshal. destruct (unmarshal_header_ok q tag data rest Hq Hb Htag) as (q1 & -> & Hq1 & Hb1).
  cbn [mbind option_bind]. pose proof (zlen_nonneg data). pose proof (zlen_nonneg rest). rewrite (proj2 (Z.eqb_neq _ (-1))) by lia.
  assert (Hpull : exists d q2, bq_pullup q1 (zlen data) = Some (d, q2) /\ holds q2 (data ++ rest) /\
    match d with Some d => if zlen d <? zlen data then None else Some (ztake (zlen data) d) | None => if zlen data =? 0 then Some [] else None end = Some data).
  { destruct (Z.eq_dec (zlen data) 0) as [Hz|Hnz].
    - exists None, q1. rewrite bq_pullup_none by auto. split; [done|]. split; [done|]. rewrite (proj2 (Z.eqb_eq _ _) Hz).
      apply zlen_nil in Hz. by rewrite Hz.
    - destruct (bq_pullup_law q1 (zlen data) Hq1) as (p & q2 & R & Hq2 & Hb2 & Hp & Ht); [rewrite Hb1, zlen_app; lia|].
      exists (Some p), q2. split; [done|]. split; [split; [done | by rewrite Hb2]|]. rewrite (proj2 (Z.ltb_ge _ _) Hp), Ht, Hb1, ztake_app_len. done. }
  destruct Hpull as (d & q2 & -> & (Hq2 & Hb2) & Hdata). cbn [mbind option_bind]. rewrite Hdata. cbn [mbind option_bind].
  destruct (bq_add_law dst data Hd Hm) as (dst' & -> & Hd' & Hbd). cbn [mbind option_bind]. change (0 =? -1) with false. cbv iota.
  destruct (ignore_drain q2 (zlen data) Hq2 ltac:(lia)) as (q3 & -> & Hq3 & Hb3). exists q3, dst'. split; [done|]. split; [split; [done|]|done].
  by rewrite Hb3, Hb2, zdrop_app_len.
Qed.
End Ops.
