(* ===== verification/TaggingProps.v ===== *)
(** * Properties of tagged data

    Round trips of streams of records and of typed values, and the safety of
    reading bytes that nobody marshalled. *)
From S2P Require Import Prelude Timeval Event Buffer BufferInv BufferOps BufferQueue BufferProps ByteQueue Tagging TaggingCodec BufferTidy.

Section Props.
Context {Q : Type} `{ByteQueueLaws Q}.
Implicit Types (q : Q).

(** ** Streams. *)
Fixpoint marshal_all q (rs : list (Z * list byte)) : option Q :=
  match rs with
  | [] => Some q
  | (tag, data) :: rs => q ← evtag_marshal q tag data; marshal_all q rs
  end.
(** Each record is unmarshalled into a queue like [fresh]. *)
Fixpoint unmarshal_all q (fresh : Q) (n : nat) : option (list (Z * list byte) * Q) :=
  match n with
  | O => Some ([], q)
  | S n =>
      '(r, tag, q, dst) ← evtag_unmarshal q fresh;
      if r =? -1 then Some ([], q)
      else '(rs, q) ← unmarshal_all q fresh n; Some ((tag, bq_bytes dst) :: rs, q)
  end.
Definition stream (rs : list (Z * list byte)) : list byte := rs ≫= (fun r => record (fst r) (snd r)).

Lemma marshal_all_ok q rs : bq_ok q -> Forall (fun r => is_u32 (fst r)) rs ->
  zlen (bq_bytes q) + zlen (stream rs) <= INT_MAX -> exists q', marshal_all q rs = Some q' /\ holds q' (bq_bytes q ++ stream rs).
Proof.
  intros Hq HF. revert q Hq. induction HF as [|[tag data] rs Ht HF IH]; intros q Hq Hb; cbn [marshal_all].
  { exists q. split; [done|]. split; [done|]. by rewrite app_nil_r. }
  change (stream ((tag, data) :: rs)) with (record tag data ++ stream rs) in *. rewrite zlen_app in Hb.
  pose proof (zlen_nonneg (stream rs)). destruct (marshal_ok q tag data Hq ltac:(lia) Ht) as (q1 & -> & Hq1 & Hb1). cbn [mbind option_bind].
  destruct (IH q1 Hq1) as (q2 & -> & Hq2 & Hb2); [rewrite Hb1, zlen_app; lia|]. exists q2. split; [done|]. split; [done|].
  by rewrite Hb2, Hb1, app_assoc.
Qed.
Lemma unmarshal_all_ok q fresh rs : bq_ok q -> holds fresh [] -> Forall (fun r => is_u32 (fst r)) rs -> bq_bytes q = stream rs ->
  exists q', unmarshal_all q fresh (length rs) = Some (rs, q') /\ holds q' [].
Proof.
  intros Hq [Hf Hfb] HF. revert q Hq. induction HF as [|[tag data] rs Ht HF IH]; intros q Hq Hb; cbn [unmarshal_all length]; [by exists q|].
  change (stream ((tag, data) :: rs)) with (record tag data ++ stream rs) in Hb.
  assert (Hm : zlen (bq_bytes fresh) + zlen data <= INT_MAX).
  { destruct (bq_length_law q Hq) as [_ Hmax]. rewrite Hb in Hmax. unfold record in Hmax. rewrite !zlen_app in Hmax. rewrite Hfb. change (zlen []) with 0.
    pose proof (zlen_nonneg (stream rs)). pose proof (zlen_nonneg (encode_tag tag)). pose proof (zlen_nonneg (encode_int_internal (zlen data))). lia. }
  destruct (unmarshal_ok q fresh tag data (stream rs) Hq Hf Hb Ht Hm) as (q1 & d & -> & (Hq1 & Hb1) & Hd & Hdb). cbn [mbind option_bind].
  pose proof (zlen_nonneg data). rewrite (proj2 (Z.eqb_neq _ (-1))) by lia.
  destruct (IH q1 Hq1 Hb1) as (q2 & -> & Hq2). cbn [mbind option_bind]. exists q2. by rewrite Hdb, Hfb.
Qed.

(** C15: Records that are marshalled one after the other into an empty queue
    are unmarshalled with the same tags and data in the same order, and the
    queue is empty again. *)
Theorem evtag_stream_roundtrip q fresh rs : holds q [] -> holds fresh [] -> Forall (fun r => is_u32 (fst r)) rs ->
  zlen (stream rs) <= INT_MAX ->
  exists q1 q2, marshal_all q rs = Some q1 /\ unmarshal_all q1 fresh (length rs) = Some (rs, q2) /\ holds q2 [].
Proof.
  intros [Hq Hb] Hf HF Hm. destruct (marshal_all_ok q rs Hq HF) as (q1 & R1 & Hq1 & Hb1); [rewrite Hb; change (zlen []) with 0; lia|].
  rewrite Hb in Hb1. destruct (unmarshal_all_ok q1 fresh rs Hq1 Hf HF Hb1) as (q2 & R2 & Hq2). by exists q1, q2.
Qed.

(** ** Typed values. *)
Lemma unmarshal_number_ok decode q tag enc number : bq_ok q -> bq_bytes q = record tag enc -> is_u32 tag -> 1 <= zlen enc <= 9 ->
  (forall q, bq_ok q -> bq_bytes q = enc -> exists q', decode q 0 = Some (zlen enc, number, q') /\ holds q' enc) ->
  exists q', unmarshal_number decode q tag = Some (zlen enc, number, q') /\ holds q' [].
Proof.
  intros Hq Hb Htag Hl Hdec. unfold unmarshal_number. unfold record in Hb.
  destruct (decode_tag_ok q tag _ true Hq Hb Htag) as (q1 & -> & Hq1 & Hb1). cbn [mbind option_bind]. pose proof (encode_tag_len tag).
  rewrite (proj2 (Z.eqb_neq _ (-1))), Z.eqb_refl by lia. cbn [negb].
  destruct (evtag_decode_int_ok q1 (zlen enc) enc Hq1 Hb1) as (q2 & -> & Hq2 & Hb2); [unfold is_u32; lia|]. cbn [mbind option_bind].
  destruct (bq_length_law q2 Hq2) as [Hl2 _]. rewrite Hl2, Hb2. change (0 =? -1) with false. cbv iota. rewrite (proj2 (Z.ltb_ge _ _)) by lia.
  destruct (Hdec q2 Hq2 Hb2) as (q3 & -> & Hq3 & Hb3). cbn [mbind option_bind].
  destruct (ignore_drain q3 (zlen enc) Hq3 ltac:(lia)) as (q4 & -> & Hq4 & Hb4). cbn [mbind option_bind].
  rewrite !(proj2 (Z.ltb_ge _ _)) by lia. exists q4. split; [done|]. split; [done|]. rewrite Hb4, Hb3, zdrop_ge by lia. done.
Qed.
Lemma marshal_number_ok q tag enc : holds q [] -> is_u32 tag -> 1 <= zlen enc <= 9 ->
  exists q', ('(_, q) ← evtag_encode_tag q tag; q ← evtag_encode_int q (zlen enc); ignore (bq_add q enc)) = Some q' /\ holds q' (record tag enc).
Proof.
  intros [Hq Hb] Htag Hl. destruct (write_record_ok q tag enc Hq) as (q' & R & Hq' & Hb'); [|done|].
  - rewrite Hb. unfold record. rewrite !zlen_app. pose proof (encode_tag_len tag). pose proof (encode_int_length (zlen enc) ltac:(unfold is_u32; lia)).
    change (zlen []) with 0. unfold INT_MAX. lia.
  - exists q'. split; [exact R|]. split; [done|]. by rewrite Hb', Hb.
Qed.

Definition is_timeval (tv : timeval) : Prop := is_u32 (tv_sec tv) /\ is_u32 (tv_usec tv).
Definition typed_roundtrip q (tag integer integer64 : Z) (data : list byte) (tv : timeval) : Prop :=
  (exists q1 q2 r, evtag_marshal_int q tag integer = Some q1 /\ evtag_unmarshal_int q1 tag = Some (r, integer, q2) /\ 0 <= r /\ holds q2 []) /\
  (exists q1 q2 r, evtag_marshal_int64 q tag integer64 = Some q1 /\ evtag_unmarshal_int64 q1 tag = Some (r, integer64, q2) /\ 0 <= r /\ holds q2 []) /\
  (exists q1 q2, evtag_marshal_string q tag data = Some q1 /\ evtag_unmarshal_string (fun _ => true) q1 tag = Some (0, data, q2) /\ holds q2 []) /\
  (exists q1 q2, evtag_marshal q tag data = Some q1 /\ evtag_unmarshal_fixed q1 tag (zlen data) = Some (0, data, q2) /\ holds q2 []) /\
  (exists q1 q2, evtag_marshal_timeval q tag tv = Some q1 /\ evtag_unmarshal_timeval q1 tag = Some (0, tv, q2) /\ holds q2 []).

Lemma int_roundtrip q tag integer : holds q [] -> is_u32 tag -> is_u32 integer ->
  exists q1 q2 r, evtag_marshal_int q tag integer = Some q1 /\ evtag_unmarshal_int q1 tag = Some (r, integer, q2) /\ 0 <= r /\ holds q2 [].
Proof.
  intros Hq Ht Hi. pose proof (encode_int_length integer Hi).
  destruct (marshal_number_ok q tag (encode_int_internal integer) Hq Ht ltac:(lia)) as (q1 & R1 & Hq1 & Hb1).
  destruct (unmarshal_number_ok decode_int_internal q1 tag _ integer Hq1 Hb1 Ht ltac:(lia)) as (q2 & R2 & Hh).
  - intros q' Hq' Hb'. destruct (decode_int_ok q' [] integer [] Hq') as (q3 & R3 & Hh3); [by rewrite Hb', app_nil_r | done|].
    exists q3. split; [exact R3 | by rewrite <- Hb'].
  - exists q1, q2, (zlen (encode_int_internal integer)). split_and!; (done || lia).
Qed.
Lemma int64_roundtrip q tag integer : holds q [] -> is_u32 tag -> is_u64 integer ->
  exists q1 q2 r, evtag_marshal_int64 q tag integer = Some q1 /\ evtag_unmarshal_int64 q1 tag = Some (r, integer, q2) /\ 0 <= r /\ holds q2 [].
Proof.
  intros Hq Ht Hi. pose proof (encode_int64_length integer Hi).
  destruct (marshal_number_ok q tag (encode_int64_internal integer) Hq Ht ltac:(lia)) as (q1 & R1 & Hq1 & Hb1).
  destruct (unmarshal_number_ok decode_int64_internal q1 tag _ integer Hq1 Hb1 Ht ltac:(lia)) as (q2 & R2 & Hh).
  - intros q' Hq' Hb'. destruct (decode_int64_ok q' [] integer [] Hq') as (q3 & R3 & Hh3); [by rewrite Hb', app_nil_r | done|].
    exists q3. split; [exact R3 | by rewrite <- Hb'].
  - exists q1, q2, (zlen (encode_int64_internal integer)). split_and!; (done || lia).
Qed.

(** Marshalled data in front of nothing: the header, and the data after it. *)
Lemma marshal_header q tag data : holds q [] -> is_u32 tag -> zlen (record tag data) <= INT_MAX ->
  exists q1 q2, evtag_marshal q tag data = Some q1 /\ evtag_unmarshal_header q1 = Some (zlen data, tag, q2) /\ holds q2 data.
Proof.
  intros [Hq Hb] Ht Hm. destruct (marshal_ok q tag data Hq) as (q1 & R1 & Hq1 & Hb1); [rewrite Hb; change (zlen []) with 0; lia | done|].
  destruct (unmarshal_header_ok q1 tag data [] Hq1) as (q2 & R2 & Hh2); [by rewrite Hb1, Hb, app_nil_r | done|].
  exists q1, q2. rewrite app_nil_r in Hh2. done.
Qed.
Lemma remove_all q data : holds q data -> exists q', bq_remove q (zlen data) = Some (zlen data, data, q') /\ holds q' [].
Proof.
  intros [Hq Hb]. pose proof (zlen_nonneg data). destruct (bq_remove_law q (zlen data) Hq ltac:(lia)) as (q' & R & Hq' & Hb').
  exists q'. rewrite R, Hb, Z.min_id, ztake_ge by lia. split; [done|]. split; [done|]. rewrite Hb', Hb, zdrop_ge by lia. done.
Qed.
Lemma string_roundtrip q tag data : holds q [] -> is_u32 tag -> zlen (record tag data) <= INT_MAX ->
  (exists q1 q2, evtag_marshal_string q tag data = Some q1 /\ evtag_unmarshal_string (fun _ => true) q1 tag = Some (0, data, q2) /\ holds q2 []) /\
  (exists q1 q2, evtag_marshal q tag data = Some q1 /\ evtag_unmarshal_fixed q1 tag (zlen data) = Some (0, data, q2) /\ holds q2 []).
Proof.
  intros Hq Ht Hm. destruct (marshal_header q tag data Hq Ht Hm) as (q1 & q2 & R1 & R2 & Hh). destruct (remove_all q2 data Hh) as (q3 & R3 & Hh3).
  pose proof (zlen_nonneg data). split; exists q1, q3; split_and!; try done.
  - unfold evtag_unmarshal_string. rewrite R2. cbn [mbind option_bind]. rewrite (proj2 (Z.eqb_neq _ (-1))), Z.eqb_refl by lia. cbn [negb orb]. by rewrite R3.
  - unfold evtag_unmarshal_fixed. rewrite R2. cbn [mbind option_bind]. rewrite (proj2 (Z.ltb_ge _ 0)), !Z.eqb_refl by lia. cbn [negb orb]. by rewrite R3.
Qed.
Lemma timeval_roundtrip q tag tv : holds q [] -> is_u32 tag -> is_timeval tv ->
  exists q1 q2, evtag_marshal_timeval q tag tv = Some q1 /\ evtag_unmarshal_timeval q1 tag = Some (0, tv, q2) /\ holds q2 [].
Proof.
  intros Hq Ht [Hsec Husec]. unfold evtag_marshal_timeval, evtag_unmarshal_timeval. rewrite !u32_small by done.
  set (e1 := encode_int_internal (tv_sec tv)). set (e2 := encode_int_internal (tv_usec tv)).
  assert (L1 : 1 <= zlen e1 <= 5) by (by apply encode_int_length). assert (L2 : 1 <= zlen e2 <= 5) by (by apply encode_int_length).
  pose proof (encode_tag_len tag). pose proof (encode_int_length (zlen (e1 ++ e2))) as L3. rewrite zlen_app in L3.
  destruct (marshal_header q tag (e1 ++ e2) Hq Ht) as (q1 & q2 & R1 & R2 & Hq2 & Hb2).
  { unfold record. rewrite !zlen_app. specialize (L3 ltac:(unfold is_u32; lia)). unfold INT_MAX. lia. }
  exists q1. rewrite R1, R2. cbn [mbind option_bind]. rewrite zlen_app. cbv zeta. rewrite (proj2 (Z.eqb_neq _ (-1))), Z.eqb_refl by lia. cbn [negb].
  destruct (decode_int_ok q2 [] (tv_sec tv) e2 Hq2 Hb2 Hsec) as (q3 & R3 & Hq3 & Hb3). change (zlen (@nil byte)) with 0 in R3. rewrite R3.
  cbn [mbind option_bind]. fold e1. rewrite (proj2 (Z.eqb_neq _ (-1))) by lia. rewrite Hb2 in Hb3.
  destruct (decode_int_ok q3 e1 (tv_usec tv) [] Hq3) as (q4 & R4 & Hq4 & Hb4); [by rewrite Hb3, app_nil_r | done|]. rewrite R4.
  cbn [mbind option_bind]. fold e2. rewrite (proj2 (Z.eqb_neq _ (-1))), (proj2 (Z.ltb_ge _ _)) by lia. cbn [mbind option_bind].
  destruct (ignore_drain q4 (zlen e1 + zlen e2) Hq4 ltac:(lia)) as (q5 & -> & Hq5 & Hb5). cbn [mbind option_bind]. exists q5.
  split; [done|]. split; [by destruct tv|]. split; [done|]. rewrite Hb5, Hb4, Hb3, <- zlen_app. by rewrite zdrop_ge by lia.
Qed.

(** An int, a 64-bit int, a string, data of a fixed length and a timeval
    that are marshalled into an empty queue are unmarshalled as the same value
    with the same tag, and the queue is empty again. *)
Theorem evtag_typed_roundtrip q tag integer integer64 data tv :
  holds q [] -> is_u32 tag -> is_u32 integer -> is_u64 integer64 -> zlen (record tag data) <= INT_MAX -> is_timeval tv ->
  typed_roundtrip q tag integer integer64 data tv.
Proof.
  intros Hq Ht Hi H64 Hd Htv. destruct (string_roundtrip q tag data Hq Ht Hd) as [Hs Hf].
  split_and!; [by apply int_roundtrip | by apply int64_roundtrip | exact Hs | exact Hf | by apply timeval_roundtrip].
Qed.
End Props.

(** * Reading bytes that nobody marshalled

    Unmarshalling does not read outside the queue whatever it holds, but for a
    tag of six bytes or more. *)
(** ** Arbitrary numbers. *)
Lemma value_range data n : bytes_ok data -> 0 <= value data n < 16 ^ Z.of_nat n.
Proof.
  intros HF. induction n as [|n IH]; [done|]. cbn [value]. rewrite Nat2Z.inj_succ, Z.pow_succ_r by lia. pose proof (nib_range data (S n) HF). nia.
Qed.

(** Another byte of the tag follows. *)
Definition continues (b : byte) : Prop := c_true (Z.land b 0x80) = true.
(** A tag that does not end after five bytes that are allowed. *)
Definition overlong (l : list byte) : Prop :=
  6 <= zlen l /\ Forall continues (ztake 5 l) /\ Z.land (nth 4 l 0) 0x7f <= 15.

Lemma decode_tag_loop_safe p len fuel k number : (fuel + k = 7)%nat -> (k <= 5)%nat -> Z.min len 5 <= zlen p ->
  Forall continues (take k p) -> (k = 5%nat -> Z.land (nth 4 p 0) 0x7f <= 15) ->
  ~ (6 <= len /\ Forall continues (take 5 p) /\ Z.land (nth 4 p 0) 0x7f <= 15) ->
  exists r, decode_tag_loop fuel (drop k p) (len - Z.of_nat k) (Z.of_nat k) number (7 * Z.of_nat k) = Some r /\
    match r with Some (_, count) => 0 < count <= Z.min len 5 | None => True end.
Proof.
  revert k number. induction fuel as [|fuel IH]; intros k number Hf Hk Hlen Hc H5 Hno; [lia|]. cbn [decode_tag_loop].
  destruct (Z.leb_spec (len - Z.of_nat k) 0) as [Hl|Hl]; [by exists None|].
  assert (Hk4 : (k <= 4)%nat).
  { destruct (decide (k = 5%nat)) as [->|]; [|lia]. exfalso. apply Hno. split_and!; [lia | done | by apply H5]. }
  assert (Hkl : (k < length p)%nat) by (unfold zlen in Hlen; lia).
  destruct (lookup_lt_is_Some_2 p k Hkl) as [b Hb]. rewrite (drop_S _ _ _ Hb).
  destruct ((28 <=? 7 * Z.of_nat k) && _) eqn:Hbig; [by exists None|].
  destruct (c_true (Z.land b 128)) eqn:Hcont; cbn [negb].
  - replace (len - Z.of_nat k - 1) with (len - Z.of_nat (S k)) by lia. replace (Z.of_nat k + 1) with (Z.of_nat (S k)) by lia.
    replace (7 * Z.of_nat k + 7) with (7 * Z.of_nat (S k)) by lia. apply IH; try done; try lia.
    + rewrite (take_S_r _ _ _ Hb). apply Forall_app. split; [done | by apply Forall_singleton].
    + intros Hk5. assert (k = 4%nat) as -> by lia. rewrite (nth_lookup_Some _ _ 0 _ Hb).
      change (28 <=? 7 * Z.of_nat 4) with true in Hbig. cbn [andb] in Hbig. apply orb_false_iff in Hbig as [_ Hbig]. lia.
  - eexists. split; [done|]. cbv beta iota. lia.
Qed.

Section Safe.
Context {Q : Type} `{ByteQueueLaws Q}.
Implicit Types (q : Q).

(** What was read is gone from the front. *)
Definition suffix_of q q' : Prop := bq_ok q' /\ exists hdr, bq_bytes q = hdr ++ bq_bytes q'.

Lemma suffix_drain q n : bq_ok q -> 0 <= n -> exists q', ignore (bq_drain q n) = Some q' /\ suffix_of q q'.
Proof.
  intros Hq Hn. destruct (ignore_drain q n Hq Hn) as (q' & R & Hq' & Hb). exists q'. split; [done|]. split; [done|].
  exists (ztake n (bq_bytes q)). by rewrite Hb, zdrop_take.
Qed.
Lemma suffix_trans q1 q2 q3 : suffix_of q1 q2 -> suffix_of q2 q3 -> suffix_of q1 q3.
Proof. intros (_ & h1 & H1) (Hq & h2 & H2). split; [done|]. exists (h1 ++ h2). by rewrite H1, H2, app_assoc. Qed.
Lemma suffix_same q q' : holds q' (bq_bytes q) -> suffix_of q q'.
Proof. intros [Hq Hb]. split; [done|]. exists []. by rewrite Hb. Qed.
Lemma suffix_bytes_ok q q' : suffix_of q q' -> bytes_ok (bq_bytes q) -> bytes_ok (bq_bytes q').
Proof. intros (_ & h & Hb) HF. unfold bytes_ok in *. rewrite Hb in HF. by apply Forall_app in HF as [_ ?]. Qed.

Lemma decode_tag_safe q drain : bq_ok q -> ~ overlong (bq_bytes q) ->
  exists r tag q', decode_tag_internal q drain = Some (r, tag, q') /\ suffix_of q q'.
Proof.
  intros Hq Hno. destruct (bq_length_law q Hq) as [Hl Hmax]. unfold decode_tag_internal. cbv zeta. rewrite Hl.
  set (n := if _ <? 5 then _ else _). assert (Hn : n = Z.min (zlen (bq_bytes q)) 5) by (unfold n; case_if; lia).
  pose proof (zlen_nonneg (bq_bytes q)) as Hge. destruct (Z.eq_dec n 0) as [Hz|Hnz].
  { rewrite bq_pullup_none by auto. cbn [mbind option_bind]. eexists _, _, _. split; [reflexivity|]. by apply suffix_same. }
  destruct (bq_pullup_law q n Hq ltac:(lia)) as (p & q1 & R & Hq1 & Hb1 & Hp & Ht). rewrite R. cbn [mbind option_bind].
  assert (H1 : suffix_of q q1) by (by apply suffix_same).
  assert (Hno' : ~ (6 <= zlen (bq_bytes q) /\ Forall continues (take 5 p) /\ Z.land (nth 4 p 0) 127 <= 15)).
  { intros (H6 & HF & H4). apply Hno. assert (n = 5) as Hn5 by lia. rewrite Hn5 in Ht. split_and!; [done | by rewrite <- Ht|].
    rewrite nth_lookup in *. by rewrite <- (ztake_lookup 5 p) by (done || lia). }
  destruct (decode_tag_loop_safe p (zlen (bq_bytes q)) 7 0 0 eq_refl ltac:(lia) ltac:(lia) (Forall_nil_2 _) ltac:(discriminate) Hno') as (r & Rl & Hr).
  change (drop 0 p) with p in Rl. change (Z.of_nat 0) with 0 in Rl. rewrite Z.sub_0_r in Rl. change (7 * 0) with 0 in Rl. rewrite Rl.
  cbn [mbind option_bind]. destruct r as [[number count]|].
  - destruct drain; cbn [mbind option_bind].
    + destruct (suffix_drain q1 count Hq1 ltac:(lia)) as (q2 & -> & H2). cbn [mbind option_bind].
      eexists _, _, _. split; [reflexivity|]. by apply (suffix_trans q q1).
    + eexists _, _, _. split; [reflexivity | done].
  - eexists _, _, _. split; [reflexivity | done].
Qed.

Lemma decode_int_safe q : bq_ok q -> bytes_ok (bq_bytes q) ->
  exists r number q', decode_int_internal q 0 = Some (r, number, q') /\ holds q' (bq_bytes q) /\
    (r = -1 \/ 1 <= r <= zlen (bq_bytes q) /\ 0 <= number).
Proof.
  intros Hq HF. destruct (bq_length_law q Hq) as [Hl Hmax]. unfold decode_int_internal, DECODE_INT_INTERNAL. cbv zeta. rewrite Hl, Z.sub_0_r.
  pose proof (zlen_nonneg (bq_bytes q)) as Hge. unfold INT_MAX in Hmax. rewrite s64_small by lia.
  destruct (Z.leb_spec (zlen (bq_bytes q)) 0) as [Hz|Hpos].
  { eexists _, _, _. split; [reflexivity|]. split; [done|]. by left. }
  destruct (bq_pullup_law q (0 + 1) Hq ltac:(lia)) as (p1 & q1 & -> & Hq1 & Hb1 & Hp1 & Ht1). cbn [mbind option_bind].
  change (zdrop 0 p1) with p1. rewrite (ztake_lookup _ p1 (bq_bytes q) 0 Ht1) by lia.
  destruct (lookup_lt_is_Some_2 (bq_bytes q) 0) as [b0 Hb0]; [unfold zlen in Hpos; lia|]. rewrite Hb0. cbn [mbind option_bind].
  set (nibbles := Z.shiftr (Z.land b0 240) 4 + 1).
  assert (Hnib : 1 <= nibbles <= 16).
  { pose proof (nib_range (bq_bytes q) 0 HF) as Hn. unfold nib in Hn. cbn [Nat.odd Nat.even negb Nat.div2] in Hn.
    rewrite (nth_lookup_Some _ _ 0 _ Hb0) in Hn. unfold nibbles. cbn in Hn. lia. }
  destruct (_ || _) eqn:Hbad.
  { eexists _, _, _. split; [reflexivity|]. split; [split; [done | by rewrite Hb1] | by left]. }
  apply orb_false_iff in Hbad as [_ Hfit]. apply Z.ltb_ge in Hfit. rewrite Z.shiftr_div_pow2 in * by lia. change (2 ^ 1) with 2 in *.
  destruct (bq_pullup_law q1 (0 + (nibbles / 2 + 1)) Hq1 ltac:(rewrite Hb1; lia)) as (p2 & q2 & -> & Hq2 & Hb2 & Hp2 & Ht2).
  cbn [mbind option_bind]. rewrite Hb1 in Ht2. change (zdrop 0 p2) with p2.
  assert (Hd2 : Nat.div2 (Z.to_nat nibbles) = Z.to_nat (nibbles / 2)) by (rewrite Nat.div2_div, Z2Nat.inj_div by lia; done).
  rewrite (decode_int_loop_ext p2 (bq_bytes q)).
  2: { intros i Hi. apply (ztake_lookup _ _ _ i Ht2). lia. }
  rewrite decode_int_loop_ok; [|done | lia | rewrite Hd2; unfold zlen in *; lia]. cbn [mbind option_bind].
  eexists _, _, _. split; [reflexivity|]. split; [split; [done | by rewrite Hb2, Hb1]|]. right. split; [lia|].
  pose proof (value_range (bq_bytes q) (Z.to_nat nibbles) HF). lia.
Qed.

Lemma unmarshal_header_safe q : bq_ok q -> bytes_ok (bq_bytes q) -> ~ overlong (bq_bytes q) ->
  exists r tag q', evtag_unmarshal_header q = Some (r, tag, q') /\ suffix_of q q' /\ (r = -1 \/ 0 <= r <= zlen (bq_bytes q')).
Proof.
  intros Hq HF Hno. unfold evtag_unmarshal_header. destruct (decode_tag_safe q true Hq Hno) as (r1 & tag & q1 & -> & H1).
  cbn [mbind option_bind]. destruct (Z.eqb_spec r1 (-1)); [eexists _, _, _; split; [reflexivity|]; split; [done | by left]|].
  pose proof H1 as [Hq1 _]. destruct (decode_int_safe q1 Hq1 (suffix_bytes_ok _ _ H1 HF)) as (r2 & len & q2 & R2 & H2 & Hr2).
  unfold evtag_decode_int. rewrite R2. cbn [mbind option_bind]. assert (H12 : suffix_of q q2) by (eapply suffix_trans; [done | by apply suffix_same]).
  pose proof H2 as [Hq2 Hb2]. destruct (Z.eqb_spec r2 (-1)) as [Hm|Hm]; cbn [negb mbind option_bind].
  { eexists _, _, _. split; [reflexivity|]. split; [done | by left]. }
  destruct Hr2 as [|[Hr2 Hlen]]; [done|]. destruct (suffix_drain q2 r2 Hq2 ltac:(lia)) as (q3 & -> & H3). cbn [mbind option_bind].
  pose proof H3 as [Hq3 _]. destruct (bq_length_law q3 Hq3) as [Hl3 Hm3]. rewrite Hl3. unfold INT_MAX in Hm3. change (0 =? -1) with false. cbv iota.
  destruct (Z.ltb_spec (zlen (bq_bytes q3)) len); eexists _, _, _; (split; [reflexivity|]); (split; [by apply (suffix_trans q q2)|]); [by left | right].
  rewrite s32_small by lia. lia.
Qed.

(** C23: Whatever bytes the source holds, if they do not start with a tag of
    more than five bytes, evtag_unmarshal reads none outside the source; it
    either fails and adds nothing to the destination, or moves there as many
    bytes as it returns, the ones that follow what it read. *)
Theorem evtag_unmarshal_safe q dst : bq_ok q -> bq_ok dst -> bytes_ok (bq_bytes q) -> ~ overlong (bq_bytes q) ->
  zlen (bq_bytes dst) + zlen (bq_bytes q) <= INT_MAX ->
  exists r tag q' dst', evtag_unmarshal q dst = Some (r, tag, q', dst') /\ bq_ok q' /\ bq_ok dst' /\
    exists hdr data, bq_bytes q = hdr ++ data ++ bq_bytes q' /\ bq_bytes dst' = bq_bytes dst ++ data /\
      (r = -1 /\ data = [] \/ 0 <= r /\ zlen data = r).
Proof.
  intros Hq Hd HF Hno Hmax. unfold evtag_unmarshal. destruct (unmarshal_header_safe q Hq HF Hno) as (r & tag & q1 & -> & (Hq1 & hdr & Hb1) & Hr).
  cbn [mbind option_bind]. destruct (Z.eqb_spec r (-1)) as [->|Hnr].
  { eexists _, _, _, _. split; [reflexivity|]. split; [done|]. split; [done|]. exists hdr, []. rewrite app_nil_r. split_and!; try done. by left. }
  destruct Hr as [|Hr]; [done|]. set (data := ztake r (bq_bytes q1)). assert (Hzd : zlen data = r) by (by apply zlen_ztake).
  assert (Hpull : exists d q2, bq_pullup q1 r = Some (d, q2) /\ holds q2 (bq_bytes q1) /\
    match d with Some d => if zlen d <? r then None else Some (ztake r d) | None => if r =? 0 then Some [] else None end = Some data).
  { destruct (Z.eq_dec r 0) as [Hz|Hnz].
    - exists None, q1. rewrite bq_pullup_none by auto. split; [done|]. split; [done|]. unfold data. by rewrite Hz.
    - destruct (bq_pullup_law q1 r Hq1 ltac:(lia)) as (p & q2 & R & Hq2 & Hb2 & Hp & Ht).
      exists (Some p), q2. split; [done|]. split; [done|]. by rewrite (proj2 (Z.ltb_ge _ _) Hp), Ht. }
  destruct Hpull as (d & q2 & -> & (Hq2 & Hb2) & Hdata). cbn [mbind option_bind]. rewrite Hdata. cbn [mbind option_bind].
  destruct (bq_add_law dst data Hd) as (dst' & -> & Hd' & Hbd); [rewrite Hb1, zlen_app in Hmax; pose proof (zlen_nonneg hdr); lia|].
  cbn [mbind option_bind]. change (0 =? -1) with false. cbv iota.
  destruct (ignore_drain q2 r Hq2 ltac:(lia)) as (q3 & -> & Hq3 & Hb3). cbn [mbind option_bind]. eexists _, _, _, _. split; [reflexivity|].
  split; [done|]. split; [done|]. exists hdr, data. rewrite Hb3, Hb2, Hb1. unfold data. rewrite zdrop_take. split_and!; try done. right. split; [lia | done].
Qed.
End Safe.

(** * Tagged data in buffers

    The properties of tagged data at concrete buffers, and where the code and
    the description of its format differ. *)
Lemma no_fail_ok n : no_fail n = true.
Proof. done. Qed.
#[local] Existing Instance evbuffer_queue.
#[local] Instance demo_queue : ByteQueue evbuffer := evbuffer_queue no_fail.
#[local] Instance demo_laws : ByteQueueLaws evbuffer := evbuffer_queue_laws no_fail no_fail_ok.

Lemma new_holds : holds evbuffer_new [].
Proof. split; [|done]. split; try done; first [by apply evbuffer_wfb_ok | by apply neatb_ok]. Qed.

Definition demo_records : list (Z * list byte) := [(1, [10; 20]); (0x166, []); (2 ^ 32 - 1, [7])].
Lemma evtag_stream_roundtrip_witness :
  exists q1 q2, marshal_all evbuffer_new demo_records = Some q1 /\
    unmarshal_all q1 evbuffer_new 3 = Some (demo_records, q2) /\ holds q2 [].
Proof.
  apply (evtag_stream_roundtrip evbuffer_new evbuffer_new demo_records).
  - exact new_holds.
  - exact new_holds.
  - repeat constructor; discriminate.
  - discriminate.
Defined.
Lemma evtag_typed_roundtrip_witness :
  typed_roundtrip evbuffer_new 77 (2 ^ 32 - 1) (2 ^ 64 - 1) [1; 2; 3] (Timeval 1700000000 999999).
Proof.
  apply evtag_typed_roundtrip.
  - exact new_holds.
  - split; [discriminate | reflexivity].
  - split; [discriminate | reflexivity].
  - split; [discriminate | reflexivity].
  - discriminate.
  - split; split; discriminate || reflexivity.
Defined.

(** A source that is not a record: a tag, then a length that is not covered. *)
Definition junk : evbuffer := Evbuffer [Chain 976 0 [0x81; 0x01; 0x15; 0x20; 0xff] 0] 0 5 0 0 false false [] [].
Lemma junk_open : open_buffer junk.
Proof. split; try done; first [by apply evbuffer_wfb_ok | by apply neatb_ok]. Qed.
Lemma evtag_unmarshal_safe_witness :
  exists r tag q' dst', evtag_unmarshal junk evbuffer_new = Some (r, tag, q', dst') /\ bq_ok q' /\ bq_ok dst' /\
    exists hdr data, bq_bytes junk = hdr ++ data ++ bq_bytes q' /\ bq_bytes dst' = bq_bytes evbuffer_new ++ data /\
      (r = -1 /\ data = [] \/ 0 <= r /\ zlen data = r).
Proof.
  apply (evtag_unmarshal_safe junk evbuffer_new).
  - exact junk_open.
  - apply new_holds.
  - repeat constructor; discriminate.
  - intros [Hlen _]. apply Hlen. reflexivity.
  - discriminate.
Defined.

(** ** The format as it is written.  The description says that tag 0x166 is
    [82 66], and that the nibbles of an integer are in big-endian order. *)
Lemma tag_0x166 : encode_tag 0x166 = [0xe6; 0x02].
Proof. reflexivity. Qed.
Lemma int_0x123 : encode_int_internal 0x123 = [0x23; 0x21].
Proof. reflexivity. Qed.

(** Five bytes with the high bit set fill a chain and more data follow: the
    decoder reads the byte behind the ones it made contiguous. *)
Definition long_tag : evbuffer :=
  Evbuffer [Chain 5 0 (replicate 5 0x80) EVBUFFER_IMMUTABLE; Chain 976 0 [1] 0] 1 6 0 0 false false [] [].
Lemma decode_tag_reads_past : open_buffer long_tag /\ evtag_decode_tag long_tag = None.
Proof. split; [split; try done; first [by apply evbuffer_wfb_ok | by apply neatb_ok] | vm_compute; reflexivity]. Qed.
