(* ===== verification/RateLimit.v ===== *)
(** * Token buckets and rate limits (bufferevent_ratelim.c)

    Token buckets, the limits of a bufferevent and of a group of them, and the
    suspension of reading and writing that enforces them.  Where the code has a
    function for reading and its copy for writing, one definition has the
    direction as an argument ([true] for writing). *)
From S2P Require Import Prelude Timeval Event.

(** ** Token buckets. *)
Record ev_token_bucket := Bucket { read_limit : Z; write_limit : Z; last_updated : Z }.
Record ev_token_bucket_cfg := Cfg {
  read_rate : Z; read_maximum : Z; write_rate : Z; write_maximum : Z;
  tick_timeout : timeval; msec_per_tick : Z
}.
Definition EV_RATE_LIMIT_MAX : Z := EV_SSIZE_MAX.

Definition LIM (wr : bool) (b : ev_token_bucket) : Z := if wr then write_limit b else read_limit b.
Definition set_lim (wr : bool) (n : Z) (b : ev_token_bucket) : ev_token_bucket :=
  if wr then {| b with write_limit := n |} else {| b with read_limit := n |}.
Definition rate (wr : bool) (cfg : ev_token_bucket_cfg) : Z := if wr then write_rate cfg else read_rate cfg.
Definition maximum (wr : bool) (cfg : ev_token_bucket_cfg) : Z := if wr then write_maximum cfg else read_maximum cfg.

Definition ev_token_bucket_init_ (bucket : ev_token_bucket) (cfg : ev_token_bucket_cfg) (current_tick : Z) (reinitialize : bool)
  : ev_token_bucket :=
  if reinitialize then
    let bucket := if s64 (read_maximum cfg) <? read_limit bucket then set_lim false (s64 (read_maximum cfg)) bucket else bucket in
    if s64 (write_maximum cfg) <? write_limit bucket then set_lim true (s64 (write_maximum cfg)) bucket else bucket
  else Bucket (s64 (read_rate cfg)) (s64 (write_rate cfg)) current_tick.

(** The new limit after [n_ticks], in the unsigned arithmetic of the code. *)
Definition refill (maximum limit rate n_ticks : Z) : Z :=
  if u64 (maximum - limit) / n_ticks <? rate then s64 maximum else s64 (u64 (limit + u64 (n_ticks * rate))).
(** The result and the bucket. *)
Definition ev_token_bucket_update_ (bucket : ev_token_bucket) (cfg : ev_token_bucket_cfg) (current_tick : Z) : Z * ev_token_bucket :=
  let n_ticks := u32 (current_tick - last_updated bucket) in
  if (n_ticks =? 0) || (INT_MAX <? n_ticks) then (0, bucket)
  else
    let bucket := set_lim false (refill (read_maximum cfg) (read_limit bucket) (read_rate cfg) n_ticks) bucket in
    let bucket := set_lim true (refill (write_maximum cfg) (write_limit bucket) (write_rate cfg) n_ticks) bucket in
    (1, {| bucket with last_updated := current_tick |}).

(** [None]: a division by zero. *)
Definition ev_token_bucket_get_tick_ (tv : timeval) (cfg : ev_token_bucket_cfg) : option Z :=
  let msec := u64 (u64 (tv_sec tv) * 1000 + Z.quot (tv_usec tv) 1000) in
  if msec_per_tick cfg =? 0 then None else Some (u32 (msec / msec_per_tick cfg)).

(** [alloc]: whether there is memory. *)
Definition ev_token_bucket_cfg_new (alloc : bool) (rrate rburst wrate wburst : Z) (tick_len : option timeval)
  : option ev_token_bucket_cfg :=
  let tick_len := default (Timeval 1 0) tick_len in
  if (rburst <? rrate) || (wburst <? wrate) || (rrate <? 1) || (wrate <? 1) then None
  else if (EV_RATE_LIMIT_MAX <? rrate) || (EV_RATE_LIMIT_MAX <? wrate) || (EV_RATE_LIMIT_MAX <? rburst) || (EV_RATE_LIMIT_MAX <? wburst)
  then None
  else if negb alloc then None
  else Some (Cfg rrate rburst wrate wburst tick_len
                 (u32 (s64 (tv_sec tick_len * 1000) + Z.quot (Z.land (tv_usec tick_len) COMMON_TIMEOUT_MICROSECONDS_MASK) 1000))).

(** ** Bufferevents and groups. *)
Definition BEV_SUSPEND_BW : Z := 0x02.
Definition BEV_SUSPEND_BW_GROUP : Z := 0x04.
Definition MAX_SINGLE_READ_DEFAULT : Z := 16384.
Definition MAX_SINGLE_WRITE_DEFAULT : Z := 16384.

(** struct bufferevent_rate_limit: [cfg] names a configuration; the refill
    event is initialized, and pending. *)
Record bufferevent_rate_limit := Rlim {
  group : option Z;
  limit : ev_token_bucket;
  cfg : option Z;
  refill_init : bool;
  refill_pending : bool
}.
(** The parts of struct bufferevent_private that rate limiting uses.
    [reading] and [writing] say what the transport was last told by
    [be_ops->enable] and [be_ops->disable]. *)
Record bufferevent_private := Bev {
  enabled : Z;
  read_suspended : Z; write_suspended : Z;
  reading : bool; writing : bool;
  rate_limiting : option bufferevent_rate_limit;
  max_single_read : Z; max_single_write : Z
}.
Record bufferevent_rate_limit_group := Group {
  members : list Z;
  n_members : Z;
  rate_limit : ev_token_bucket;
  rate_limit_cfg : ev_token_bucket_cfg;
  g_read_suspended : bool; g_write_suspended : bool;
  pending_unsuspend_read : bool; pending_unsuspend_write : bool;
  total_read : Z; total_written : Z;
  min_share : Z; configured_min_share : Z;
  master_pending : bool
}.
Record world := World {
  bevs : gmap Z bufferevent_private;
  groups : gmap Z bufferevent_rate_limit_group;
  now : timeval
}.

Definition suspended (wr : bool) (b : bufferevent_private) : Z := if wr then write_suspended b else read_suspended b.
Definition set_suspended (wr : bool) (n : Z) (b : bufferevent_private) : bufferevent_private :=
  if wr then {| b with write_suspended := n |} else {| b with read_suspended := n |}.
Definition set_transport (wr on : bool) (b : bufferevent_private) : bufferevent_private :=
  if wr then {| b with writing := on |} else {| b with reading := on |}.
Definition EV_DIR (wr : bool) : Z := if wr then EV_WRITE else EV_READ.
Definition GROUP_SUSPENDED (wr : bool) (g : bufferevent_rate_limit_group) : bool := if wr then g_write_suspended g else g_read_suspended g.
Definition set_group_suspended (wr v pending : bool) (g : bufferevent_rate_limit_group) : bufferevent_rate_limit_group :=
  if wr then {| g with g_write_suspended := v; pending_unsuspend_write := pending |}
  else {| g with g_read_suspended := v; pending_unsuspend_read := pending |}.
Definition pending_unsuspend (wr : bool) (g : bufferevent_rate_limit_group) : bool :=
  if wr then pending_unsuspend_write g else pending_unsuspend_read g.

(** bufferevent.c: [bufferevent_suspend_read_] and [_write_], [bufferevent_unsuspend_read_] and [_write_]. *)
Definition bufferevent_suspend_ (wr : bool) (what : Z) (b : bufferevent_private) : bufferevent_private :=
  let b := if c_true (suspended wr b) then b else set_transport wr false b in
  set_suspended wr (set_flag (suspended wr b) what) b.
Definition bufferevent_unsuspend_ (wr : bool) (what : Z) (b : bufferevent_private) : bufferevent_private :=
  let b := set_suspended wr (clr_flag (suspended wr b) what) b in
  if negb (c_true (suspended wr b)) && has (enabled b) (EV_DIR wr) then set_transport wr true b else b.
Definition bufferevent_suspend_read_ := bufferevent_suspend_ false.
Definition bufferevent_suspend_write_ := bufferevent_suspend_ true.
Definition bufferevent_unsuspend_read_ := bufferevent_unsuspend_ false.
Definition bufferevent_unsuspend_write_ := bufferevent_unsuspend_ true.

(** [bufferevent_enable] and [bufferevent_disable]; [ok]: what the transport's
    function answers. *)
Definition bufferevent_enable (ok : bool) (event : Z) (b : bufferevent_private) : Z * bufferevent_private :=
  let impl_events := if c_true (read_suspended b) then clr_flag event EV_READ else event in
  let impl_events := if c_true (write_suspended b) then clr_flag impl_events EV_WRITE else impl_events in
  let b := {| b with enabled := set_flag (enabled b) event |} in
  if c_true impl_events then
    let b := if has impl_events EV_READ then set_transport false true b else b in
    let b := if has impl_events EV_WRITE then set_transport true true b else b in
    (if ok then 0 else -1, b)
  else (0, b).
Definition bufferevent_disable (ok : bool) (event : Z) (b : bufferevent_private) : Z * bufferevent_private :=
  let b := {| b with enabled := clr_flag (enabled b) event |} in
  let b := if has event EV_READ then set_transport false false b else b in
  let b := if has event EV_WRITE then set_transport true false b else b in
  (if ok then 0 else -1, b).

Definition upd_bev (w : world) (b : Z) (f : bufferevent_private -> bufferevent_private) : world := {| w with bevs := alter f b (bevs w) |}.
Definition upd_group (w : world) (g : Z) (f : bufferevent_rate_limit_group -> bufferevent_rate_limit_group) : world :=
  {| w with groups := alter f g (groups w) |}.
Definition upd_rlim (w : world) (b : Z) (f : bufferevent_rate_limit -> bufferevent_rate_limit) : world :=
  upd_bev w b (fun bev => {| bev with rate_limiting := f <$> rate_limiting bev |}).
Definition set_refill (p : bool) (r : bufferevent_rate_limit) : bufferevent_rate_limit := {| r with refill_pending := p |}.
Definition set_limit (l : ev_token_bucket) (r : bufferevent_rate_limit) : bufferevent_rate_limit := {| r with limit := l |}.

Section RateLimit.
(** The configurations; whether the lock of a bufferevent can be taken while
    that of its group is held; the member [bev_group_random_element_] picks;
    whether a refill event can be added. *)
Context (cfg_of : Z -> ev_token_bucket_cfg) (try_lock : Z -> bool) (pick : Z -> Z) (event_add_ok : bool).
Implicit Types (w : world) (b g : Z).

(** ** Groups: all members are suspended, or resumed. *)
Definition bev_group_suspend_ (wr : bool) w g : world :=
  match groups w !! g with
  | None => w
  | Some gr =>
      foldl (fun w b => if try_lock b then upd_bev w b (bufferevent_suspend_ wr BEV_SUSPEND_BW_GROUP) else w)
            (upd_group w g (set_group_suspended wr true false)) (members gr)
  end.
(** [FOREACH_RANDOM_ORDER]. *)
Definition random_order (gr : bufferevent_rate_limit_group) : list Z :=
  if n_members gr =? 0 then members gr
  else let which := Z.to_nat (pick (n_members gr)) in drop which (members gr) ++ take which (members gr).
Definition bev_group_unsuspend_ (wr : bool) w g : world :=
  match groups w !! g with
  | None => w
  | Some gr =>
      let again := existsb (fun b => negb (try_lock b)) (members gr) in
      let w := foldl (fun w b => if try_lock b then upd_bev w b (bufferevent_unsuspend_ wr BEV_SUSPEND_BW_GROUP) else w)
                     w (random_order gr) in
      upd_group w g (set_group_suspended wr false again)
  end.
Definition bev_group_suspend_reading_ := bev_group_suspend_ false.
Definition bev_group_suspend_writing_ := bev_group_suspend_ true.
Definition bev_group_unsuspend_reading_ := bev_group_unsuspend_ false.
Definition bev_group_unsuspend_writing_ := bev_group_unsuspend_ true.

(** ** The limits of one bufferevent. *)
Definition bufferevent_update_buckets w b : option world :=
  bev ← bevs w !! b;
  rl ← rate_limiting bev;
  c ← cfg rl;
  tick ← ev_token_bucket_get_tick_ (now w) (cfg_of c);
  if negb (tick =? last_updated (limit rl))
  then Some (upd_rlim w b (set_limit (snd (ev_token_bucket_update_ (limit rl) (cfg_of c) tick))))
  else Some w.

(** The most bytes to read or write now. *)
Definition bufferevent_get_rlim_max_ (wr : bool) w b : option (Z * world) :=
  bev ← bevs w !! b;
  let max_so_far := if wr then max_single_write bev else max_single_read bev in
  match rate_limiting bev with
  | None => Some (max_so_far, w)
  | Some rl =>
      '(max_so_far, w) ←
        match cfg rl with
        | None => Some (max_so_far, w)
        | Some _ =>
            w ← bufferevent_update_buckets w b;
            bev ← bevs w !! b;
            rl ← rate_limiting bev;
            Some (LIM wr (limit rl), w)
        end;
      '(max_so_far, w) ←
        match group rl with
        | None => Some (max_so_far, w)
        | Some g =>
            gr ← groups w !! g;
            let '(share, w) :=
              if GROUP_SUSPENDED wr gr then (0, upd_bev w b (bufferevent_suspend_ wr BEV_SUSPEND_BW_GROUP))
              else (Z.max (min_share gr) (Z.quot (LIM wr (rate_limit gr)) (n_members gr)), w) in
            Some (Z.min max_so_far share, w)
        end;
      Some (Z.max max_so_far 0, w)
  end.
Definition bufferevent_get_read_max_ := bufferevent_get_rlim_max_ false.
Definition bufferevent_get_write_max_ := bufferevent_get_rlim_max_ true.

(** [event_add] and [event_del] of the refill event of [b]. *)
Definition add_refill w b : Z * world := if event_add_ok then (0, upd_rlim w b (set_refill true)) else (-1, w).
Definition del_refill w b : world := upd_rlim w b (set_refill false).
(** Suspended for want of bandwidth. *)
Definition bw_suspended (wr : bool) (bev : bufferevent_private) : bool := has (suspended wr bev) BEV_SUSPEND_BW.

(** What both ways to charge a group do: adjust the group's limit. *)
Definition add_total (wr : bool) (bytes : Z) (gr : bufferevent_rate_limit_group) : bufferevent_rate_limit_group :=
  if wr then {| gr with total_written := u64 (total_written gr + bytes) |} else {| gr with total_read := u64 (total_read gr + bytes) |}.
Definition charge_group (wr : bool) (bytes : Z) (gr : bufferevent_rate_limit_group) : bufferevent_rate_limit_group :=
  {| gr with rate_limit := set_lim wr (s64 (LIM wr (rate_limit gr) - bytes)) (rate_limit gr) |}.

(** [bufferevent_decrement_read_buckets_] and [_write_buckets_]. *)
Definition bufferevent_decrement_buckets_ (wr : bool) w b (bytes : Z) : option (Z * world) :=
  bev ← bevs w !! b;
  match rate_limiting bev with
  | None => Some (0, w)
  | Some rl =>
      let '(r, w) :=
        match cfg rl with
        | None => (0, w)
        | Some _ =>
            let lim := s64 (LIM wr (limit rl) - bytes) in
            let w := upd_rlim w b (set_limit (set_lim wr lim (limit rl))) in
            if lim <=? 0 then add_refill (upd_bev w b (bufferevent_suspend_ wr BEV_SUSPEND_BW)) b
            else if bw_suspended wr bev then
              let w := if negb (bw_suspended (negb wr) bev) then del_refill w b else w in
              (0, upd_bev w b (bufferevent_unsuspend_ wr BEV_SUSPEND_BW))
            else (0, w)
        end in
      match group rl with
      | None => Some (r, w)
      | Some g =>
          let w := upd_group w g (fun gr => add_total wr bytes (charge_group wr bytes gr)) in
          gr ← groups w !! g;
          Some (r, if LIM wr (rate_limit gr) <=? 0 then bev_group_suspend_ wr w g
                   else if GROUP_SUSPENDED wr gr then bev_group_unsuspend_ wr w g else w)
      end
  end.
Definition bufferevent_decrement_read_buckets_ := bufferevent_decrement_buckets_ false.
Definition bufferevent_decrement_write_buckets_ := bufferevent_decrement_buckets_ true.

(** [bufferevent_decrement_read_limit] and [_write_limit]. *)
Definition bufferevent_decrement_limit (wr : bool) w b (decr : Z) : option (Z * world) :=
  bev ← bevs w !! b;
  rl ← rate_limiting bev;
  _ ← cfg rl;
  let old_limit := LIM wr (limit rl) in
  let new_limit := s64 (old_limit - decr) in
  let w := upd_rlim w b (set_limit (set_lim wr new_limit (limit rl))) in
  if (0 <? old_limit) && (new_limit <=? 0) then Some (add_refill (upd_bev w b (bufferevent_suspend_ wr BEV_SUSPEND_BW)) b)
  else if (old_limit <=? 0) && (0 <? new_limit) then
    let w := if negb (bw_suspended (negb wr) bev) then del_refill w b else w in
    Some (0, upd_bev w b (bufferevent_unsuspend_ wr BEV_SUSPEND_BW))
  else Some (0, w).
Definition bufferevent_decrement_read_limit := bufferevent_decrement_limit false.
Definition bufferevent_decrement_write_limit := bufferevent_decrement_limit true.

(** [bufferevent_rate_limit_group_decrement_read] and [_write]. *)
Definition bufferevent_rate_limit_group_decrement (wr : bool) w g (decr : Z) : option (Z * world) :=
  gr ← groups w !! g;
  let old_limit := LIM wr (rate_limit gr) in
  let w := upd_group w g (charge_group wr decr) in
  let new_limit := s64 (old_limit - decr) in
  Some (0, if (0 <? old_limit) && (new_limit <=? 0) then bev_group_suspend_ wr w g
           else if (old_limit <=? 0) && (0 <? new_limit) then bev_group_unsuspend_ wr w g else w).
Definition bufferevent_rate_limit_group_decrement_read := bufferevent_rate_limit_group_decrement false.
Definition bufferevent_rate_limit_group_decrement_write := bufferevent_rate_limit_group_decrement true.

(** ** The timers. *)

(** One direction in [bev_refill_callback_]: the world and [again]. *)
Definition refill_dir (wr : bool) w b (again : bool) : option (world * bool) :=
  bev ← bevs w !! b;
  rl ← rate_limiting bev;
  Some (if bw_suspended wr bev then
          if 0 <? LIM wr (limit rl) then (upd_bev w b (bufferevent_unsuspend_ wr BEV_SUSPEND_BW), again) else (w, true)
        else (w, again)).
Definition bev_refill_callback_ w b : option world :=
  bev ← bevs w !! b;
  match rate_limiting bev with
  | None => Some w
  | Some rl =>
      match cfg rl with
      | None => Some w
      | Some c =>
          tick ← ev_token_bucket_get_tick_ (now w) (cfg_of c);
          let w := upd_rlim w b (set_limit (snd (ev_token_bucket_update_ (limit rl) (cfg_of c) tick))) in
          '(w, again) ← refill_dir false w b false;
          '(w, again) ← refill_dir true w b again;
          Some (if (again : bool) then snd (add_refill w b) else w)
      end
  end.

(** The refill event is not persistent: it is no longer pending when it runs. *)
Definition refill_fires w b : option world :=
  bev ← bevs w !! b;
  rl ← rate_limiting bev;
  if refill_pending rl then bev_refill_callback_ (del_refill w b) b else Some w.

Definition bev_group_refill_callback_ w g : option world :=
  gr ← groups w !! g;
  tick ← ev_token_bucket_get_tick_ (now w) (rate_limit_cfg gr);
  let w := upd_group w g (fun gr => {| gr with rate_limit := snd (ev_token_bucket_update_ (rate_limit gr) (rate_limit_cfg gr) tick) |}) in
  let dir wr w :=
    gr ← groups w !! g;
    Some (if pending_unsuspend wr gr || (GROUP_SUSPENDED wr gr && (min_share gr <=? LIM wr (rate_limit gr)))
          then bev_group_unsuspend_ wr w g else w) in
  w ← dir false w;
  dir true w.

(** ** Configuration. *)
Definition new_rlim : bufferevent_rate_limit := Rlim None (Bucket 0 0 0) None false false.

(** One direction of the end of [bufferevent_set_rate_limit]. *)
Definition set_dir (wr : bool) w b (susp : bool) : option (world * bool) :=
  bev ← bevs w !! b;
  rl ← rate_limiting bev;
  Some (if 0 <? LIM wr (limit rl) then (upd_bev w b (bufferevent_unsuspend_ wr BEV_SUSPEND_BW), susp)
        else (upd_bev w b (bufferevent_suspend_ wr BEV_SUSPEND_BW), true)).
Definition bufferevent_set_rate_limit (alloc : bool) w b (cfg' : option Z) : option (Z * world) :=
  bev ← bevs w !! b;
  match cfg' with
  | None =>
      Some (0, match rate_limiting bev with
               | None => w
               | Some rl =>
                   let w := upd_rlim w b (fun rl => {| rl with cfg := None |}) in
                   let w := upd_bev w b (fun bev => bufferevent_unsuspend_ true BEV_SUSPEND_BW (bufferevent_unsuspend_ false BEV_SUSPEND_BW bev)) in
                   if refill_init rl then del_refill w b else w
               end)
  | Some c =>
      tick ← ev_token_bucket_get_tick_ (now w) (cfg_of c);
      if match rate_limiting bev with Some rl => bool_decide (cfg rl = Some c) | None => false end then Some (0, w)
      else
        match rate_limiting bev, alloc with
        | None, false => Some (-1, w)
        | orl, _ =>
            let rl := default new_rlim orl in
            let reinit := match cfg rl with Some _ => true | None => false end in
            let w := upd_bev w b (fun bev => {| bev with rate_limiting :=
              Some {| rl with cfg := Some c; limit := ev_token_bucket_init_ (limit rl) (cfg_of c) tick reinit |} |}) in
            w ← (if reinit then if refill_init rl then Some (del_refill w b) else None else Some w);
            let w := upd_rlim w b (fun rl => {| rl with refill_init := true |}) in
            '(w, susp) ← set_dir false w b false;
            '(w, susp) ← set_dir true w b susp;
            Some (0, if (susp : bool) then snd (add_refill w b) else w)
        end
  end.

Definition bufferevent_rate_limit_group_set_min_share (share : Z) (gr : bufferevent_rate_limit_group) : Z * bufferevent_rate_limit_group :=
  if EV_SSIZE_MAX <? share then (-1, gr)
  else
    let min := Z.min (Z.min share (read_rate (rate_limit_cfg gr))) (write_rate (rate_limit_cfg gr)) in
    (0, {| gr with configured_min_share := share; min_share := min |}).
(** The group is [g]; [alloc]: whether there is memory. *)
Definition bufferevent_rate_limit_group_new (alloc : bool) w g (cfg : ev_token_bucket_cfg) : option (bool * world) :=
  tick ← ev_token_bucket_get_tick_ (now w) cfg;
  if negb alloc then Some (false, w)
  else
    let gr := Group [] 0 (ev_token_bucket_init_ (Bucket 0 0 0) cfg tick false) cfg false false false false 0 0 0 0 event_add_ok in
    Some (true, {| w with groups := <[g := snd (bufferevent_rate_limit_group_set_min_share 64 gr)]> (groups w) |}).
Definition bufferevent_rate_limit_group_set_cfg w g (cfg : ev_token_bucket_cfg) : option (Z * world) :=
  gr ← groups w !! g;
  let same_tick := evutil_timercmp (tick_timeout (rate_limit_cfg gr)) (tick_timeout cfg) CmpEq in
  let clip wr l := if s64 (maximum wr cfg) <? LIM wr l then set_lim wr (s64 (maximum wr cfg)) l else l in
  Some (0, upd_group w g (fun gr =>
    let gr := {| gr with rate_limit_cfg := cfg; rate_limit := clip true (clip false (rate_limit gr));
                         master_pending := if same_tick then master_pending gr else master_pending gr || event_add_ok |} in
    snd (bufferevent_rate_limit_group_set_min_share (configured_min_share gr) gr))).
Definition bufferevent_rate_limit_group_free w g : option world :=
  gr ← groups w !! g;
  if n_members gr =? 0 then Some {| w with groups := delete g (groups w) |} else None.

Definition bufferevent_remove_from_rate_limit_group_internal_ w b (unsuspend : bool) : option (Z * world) :=
  bev ← bevs w !! b;
  let w :=
    match rate_limiting bev with
    | None => w
    | Some rl =>
        match group rl with
        | None => w
        | Some g =>
            let w := upd_rlim w b (fun rl => {| rl with group := None |}) in
            upd_group w g (fun gr => {| gr with n_members := n_members gr - 1; members := filter (fun x => x <> b) (members gr) |})
        end
    end in
  Some (0, if unsuspend
           then upd_bev w b (fun bev => bufferevent_unsuspend_ true BEV_SUSPEND_BW_GROUP (bufferevent_unsuspend_ false BEV_SUSPEND_BW_GROUP bev))
           else w).
Definition bufferevent_remove_from_rate_limit_group w b : option (Z * world) :=
  bufferevent_remove_from_rate_limit_group_internal_ w b true.
(** bufferevent.c: the end of a bufferevent, in [bufferevent_finalize_cb_]. *)
Definition bufferevent_finalize w b : option world :=
  bev ← bevs w !! b;
  w ← match rate_limiting bev with
      | Some rl => if group rl then '(_, w) ← bufferevent_remove_from_rate_limit_group_internal_ w b false; Some w else Some w
      | None => Some w
      end;
  Some {| w with bevs := delete b (bevs w) |}.
Definition bufferevent_add_to_rate_limit_group (alloc : bool) w b g : option (Z * world) :=
  bev ← bevs w !! b;
  _ ← groups w !! g;
  match rate_limiting bev, alloc with
  | None, false => Some (-1, w)
  | orl, _ =>
      let rl := default {| new_rlim with refill_init := true |} orl in
      let w := upd_bev w b (fun bev => {| bev with rate_limiting := Some rl |}) in
      if bool_decide (group rl = Some g) then Some (0, w)
      else
        w ← (if group rl then '(_, w) ← bufferevent_remove_from_rate_limit_group w b; Some w else Some w);
        let w := upd_rlim w b (fun rl => {| rl with group := Some g |}) in
        let w := upd_group w g (fun gr => {| gr with n_members := n_members gr + 1; members := b :: members gr |}) in
        gr ← groups w !! g;
        let w := if g_read_suspended gr then upd_bev w b (bufferevent_suspend_ false BEV_SUSPEND_BW_GROUP) else w in
        Some (0, if g_write_suspended gr then upd_bev w b (bufferevent_suspend_ true BEV_SUSPEND_BW_GROUP) else w)
  end.

(** ** The limits as the program sees them. *)
Definition bufferevent_get_limit (wr : bool) w b : option (Z * world) :=
  bev ← bevs w !! b;
  match rate_limiting bev with
  | Some rl =>
      match cfg rl with
      | Some _ =>
          w ← bufferevent_update_buckets w b;
          bev ← bevs w !! b;
          rl ← rate_limiting bev;
          Some (LIM wr (limit rl), w)
      | None => Some (EV_SSIZE_MAX, w)
      end
  | None => Some (EV_SSIZE_MAX, w)
  end.
Definition bufferevent_get_read_limit := bufferevent_get_limit false.
Definition bufferevent_get_write_limit := bufferevent_get_limit true.
Definition bufferevent_set_max_single_read w b (size : Z) : world :=
  upd_bev w b (fun bev => {| bev with max_single_read := if (size =? 0) || (EV_SSIZE_MAX <? size) then MAX_SINGLE_READ_DEFAULT else size |}).
Definition bufferevent_set_max_single_write w b (size : Z) : world :=
  upd_bev w b (fun bev => {| bev with max_single_write := if (size =? 0) || (EV_SSIZE_MAX <? size) then MAX_SINGLE_WRITE_DEFAULT else size |}).
Definition bufferevent_get_max_single_read w b : option Z := max_single_read <$> bevs w !! b.
Definition bufferevent_get_max_single_write w b : option Z := max_single_write <$> bevs w !! b.
Definition bufferevent_get_max_to_read := bufferevent_get_read_max_.
Definition bufferevent_get_max_to_write := bufferevent_get_write_max_.
Definition bufferevent_get_token_bucket_cfg w b : option Z := bev ← bevs w !! b; rl ← rate_limiting bev; cfg rl.
Definition bufferevent_rate_limit_group_get_limit (wr : bool) w g : option Z := LIM wr ∘ rate_limit <$> groups w !! g.
Definition bufferevent_rate_limit_group_get_read_limit := bufferevent_rate_limit_group_get_limit false.
Definition bufferevent_rate_limit_group_get_write_limit := bufferevent_rate_limit_group_get_limit true.
Definition bufferevent_rate_limit_group_get_totals w g : option (Z * Z) := gr ← groups w !! g; Some (total_read gr, total_written gr).
Definition bufferevent_rate_limit_group_reset_totals w g : world := upd_group w g (fun gr => {| gr with total_read := 0; total_written := 0 |}).
Definition bufferevent_ratelim_init_ (bev : bufferevent_private) : bufferevent_private :=
  {| bev with rate_limiting := None; max_single_read := MAX_SINGLE_READ_DEFAULT; max_single_write := MAX_SINGLE_WRITE_DEFAULT |}.
End RateLimit.
