(* ===== verification/TokenBucket.v ===== *)
(** * What a token bucket holds

    The overflow-free arithmetic of [ev_token_bucket_update_] is the clipped
    sum, and ticks may be accounted for together or one at a time. *)
From S2P Require Import Prelude Timeval Event RateLimit.

(** A configuration that [ev_token_bucket_cfg_new] returns. *)
Record cfg_ok (c : ev_token_bucket_cfg) : Prop := {
  co_read : 1 <= read_rate c <= read_maximum c;
  co_write : 1 <= write_rate c <= write_maximum c;
  co_read_max : read_maximum c <= EV_RATE_LIMIT_MAX;
  co_write_max : write_maximum c <= EV_RATE_LIMIT_MAX
}.
Lemma cfg_ok_dir c wr : cfg_ok c -> 1 <= rate wr c <= maximum wr c /\ maximum wr c <= EV_RATE_LIMIT_MAX.
Proof. intros [? ? ? ?]. by destruct wr. Qed.

(** The limits are signed and not over the maximum. *)
Definition bucket_ok (c : ev_token_bucket_cfg) (b : ev_token_bucket) : Prop :=
  is_u32 (last_updated b) /\ forall wr, - 2 ^ 63 <= LIM wr b <= maximum wr c.

Lemma cfg_new_ok alloc rr rb wr wb t c : ev_token_bucket_cfg_new alloc rr rb wr wb t = Some c ->
  cfg_ok c /\ read_rate c = rr /\ read_maximum c = rb /\ write_rate c = wr /\ write_maximum c = wb.
Proof.
  unfold ev_token_bucket_cfg_new. intros R. destruct (_ || _ || _ || _) eqn:E1 in R; [done|].
  destruct (_ || _ || _ || _) eqn:E2 in R; [done|]. destruct (negb alloc); [done|]. injection R as <-.
  split; [split; cbn; lia | done].
Qed.

Lemma refill_ok mx lim rt n : 1 <= rt <= mx -> mx <= EV_RATE_LIMIT_MAX -> - 2 ^ 63 <= lim <= mx -> 1 <= n <= INT_MAX ->
  refill mx lim rt n = Z.min mx (lim + n * rt).
Proof.
  intros Hr Hm Hl Hn. unfold refill, EV_RATE_LIMIT_MAX, EV_SSIZE_MAX, INT_MAX in *. rewrite (u64_small (mx - lim)) by lia.
  destruct (Z.ltb_spec ((mx - lim) / n) rt) as [Hlt|Hge].
  - rewrite s64_small by lia. rewrite Z.min_l; [done|]. assert (mx - lim < n * rt) by (apply Z.nle_gt; intros Hc; assert (rt <= (mx - lim) / n) by (apply Z.div_le_lower_bound; lia); lia). lia.
  - assert (Hnr : n * rt <= mx - lim).
    { pose proof (Z.mul_div_le (mx - lim) n). assert (n * rt <= n * ((mx - lim) / n)) by (apply Z.mul_le_mono_nonneg_l; lia). lia. }
    assert (0 <= n * rt) by nia. rewrite (u64_small (n * rt)) by lia. rewrite Z.min_r by lia. unfold s64, u64. lia.
Qed.

(** The tick [n] ticks after the last update of a bucket. *)
Definition later (b : ev_token_bucket) (n : Z) : Z := u32 (last_updated b + n).

Lemma update_ok c b n : cfg_ok c -> bucket_ok c b -> 1 <= n <= INT_MAX ->
  ev_token_bucket_update_ b c (later b n) =
    (1, Bucket (Z.min (read_maximum c) (read_limit b + n * read_rate c)) (Z.min (write_maximum c) (write_limit b + n * write_rate c)) (later b n)).
Proof.
  intros Hc [Hu Hb] Hn. unfold ev_token_bucket_update_, later. cbv zeta.
  assert (Hnt : u32 (u32 (last_updated b + n) - last_updated b) = n) by (unfold is_u32, u32, INT_MAX in *; lia).
  rewrite Hnt. replace ((n =? 0) || (INT_MAX <? n)) with false by lia.
  pose proof (Hb false). pose proof (Hb true). pose proof (cfg_ok_dir c false Hc). pose proof (cfg_ok_dir c true Hc). cbn [LIM rate maximum] in *.
  cbn [set_lim LIM read_limit write_limit]. rewrite !refill_ok by lia. done.
Qed.
(** Otherwise the clock went back, or did not move. *)
Lemma update_no c b tick : u32 (tick - last_updated b) = 0 \/ INT_MAX < u32 (tick - last_updated b) ->
  ev_token_bucket_update_ b c tick = (0, b).
Proof. intros Hn. unfold ev_token_bucket_update_. cbv zeta. by replace (_ || _) with true by lia. Qed.
Lemma tick_cases b tick : is_u32 tick -> is_u32 (last_updated b) ->
  (u32 (tick - last_updated b) = 0 \/ INT_MAX < u32 (tick - last_updated b)) \/
  exists n, 1 <= n <= INT_MAX /\ tick = later b n.
Proof.
  intros Ht Hl. set (n := u32 (tick - last_updated b)).
  destruct (Z.eq_dec n 0) as [|Hz]; [by left; left|]. destruct (Z.le_gt_cases n INT_MAX); [right | by left; right].
  exists n. unfold is_u32, later, n, u32 in *. lia.
Qed.

Lemma update_bucket_ok c b tick : cfg_ok c -> bucket_ok c b -> is_u32 tick ->
  bucket_ok c (snd (ev_token_bucket_update_ b c tick)) /\
  forall wr, LIM wr b <= LIM wr (snd (ev_token_bucket_update_ b c tick)).
Proof.
  intros Hc Hb Ht. destruct (tick_cases b tick Ht (proj1 Hb)) as [Hno|(n & Hn & ->)].
  - rewrite update_no by done. done.
  - rewrite update_ok by done. destruct Hb as [Hu Hb]. pose proof (Hb false). pose proof (Hb true).
    pose proof (cfg_ok_dir c false Hc). pose proof (cfg_ok_dir c true Hc). cbn [snd LIM rate maximum] in *.
    split; [split; [apply u32_range|]|]; intros []; cbn [LIM maximum read_limit write_limit]; lia.
Qed.

(** The new limit, which the code computes in the same type: it must fit, and
    giving back must not go over the maximum. *)
Definition charge_ok (c : ev_token_bucket_cfg) wr (l : ev_token_bucket) (n : Z) : Prop := - 2 ^ 63 <= LIM wr l - n <= maximum wr c.
Definition charged wr (l : ev_token_bucket) (n : Z) : ev_token_bucket := set_lim wr (s64 (LIM wr l - n)) l.
Lemma charged_ok c wr l n : cfg_ok c -> bucket_ok c l -> charge_ok c wr l n -> bucket_ok c (charged wr l n) /\
  forall wr', LIM wr' (charged wr l n) = if eqb wr wr' then LIM wr l - n else LIM wr' l.
Proof.
  intros Hc [Hu Hl] Hn. unfold charge_ok in Hn. pose proof (cfg_ok_dir c wr Hc). unfold EV_RATE_LIMIT_MAX, EV_SSIZE_MAX in *.
  assert (E : forall wr', LIM wr' (charged wr l n) = if eqb wr wr' then LIM wr l - n else LIM wr' l).
  { intros wr'. unfold charged. rewrite s64_small by lia. by destruct wr, wr'. }
  split; [|done]. split; [by destruct wr|]. intros wr'. rewrite E. destruct (eqb_spec wr wr') as [->|]; [lia | apply Hl].
Qed.

Lemma init_bucket_ok c b tick reinit : cfg_ok c -> is_u32 tick -> is_u32 (last_updated b) -> (forall wr, - 2 ^ 63 <= LIM wr b) ->
  bucket_ok c (ev_token_bucket_init_ b c tick reinit).
Proof.
  intros Hc Ht Hu Hl. pose proof (Hl false). pose proof (Hl true). pose proof (cfg_ok_dir c false Hc). pose proof (cfg_ok_dir c true Hc).
  unfold ev_token_bucket_init_, EV_RATE_LIMIT_MAX, EV_SSIZE_MAX in *. cbn [LIM rate maximum] in *. rewrite !s64_small by lia.
  destruct reinit; [|split; [done|]; intros []; cbn [LIM maximum read_limit write_limit]; lia].
  destruct (Z.ltb_spec (read_maximum c) (read_limit b)); cbn [set_lim write_limit]; destruct (Z.ltb_spec (write_maximum c) (write_limit b));
    (split; [done|]); intros []; cbn [set_lim LIM maximum read_limit write_limit]; lia.
Qed.

(** C39: For the configurations that ev_token_bucket_cfg_new returns and limits
    that are not above the maximum, updating a bucket once for n ticks is the
    same as updating it n times for one tick, and the limits are the sums
    clipped at the maximum: no step overflows, and the tick counter may wrap. *)
Theorem ev_token_bucket_update_ticks c b n : cfg_ok c -> bucket_ok c b -> (1 <= n <= Z.to_nat INT_MAX)%nat ->
  snd (ev_token_bucket_update_ b c (later b (Z.of_nat n))) =
    Nat.iter n (fun b => snd (ev_token_bucket_update_ b c (later b 1))) b /\
  forall wr, LIM wr (snd (ev_token_bucket_update_ b c (later b (Z.of_nat n)))) = Z.min (maximum wr c) (LIM wr b + Z.of_nat n * rate wr c).
Proof.
  intros Hc Hb Hn. assert (Hi : Z.of_nat n <= INT_MAX) by lia. split.
  2: { intros wr. rewrite update_ok by (done || lia). by destruct wr. }
  clear Hn. assert (Hit : forall k, Z.of_nat k <= INT_MAX -> (1 <= k)%nat ->
    Nat.iter k (fun b => snd (ev_token_bucket_update_ b c (later b 1))) b = snd (ev_token_bucket_update_ b c (later b (Z.of_nat k)))).
  { intros k Hk H1. induction H1 as [|k H1 IH]; [done|].
    rewrite Nat.iter_succ, IH by lia.
    set (b1 := snd (ev_token_bucket_update_ b c (later b (Z.of_nat k)))).
    assert (Hb1 : bucket_ok c b1) by (apply update_bucket_ok; [done | done | apply u32_range]).
    rewrite (update_ok c b1 1), (update_ok c b (Z.of_nat (S k))) by (done || (unfold INT_MAX in *; lia)).
    unfold b1. rewrite update_ok by (done || lia). unfold later. cbn [snd read_limit write_limit last_updated].
    pose proof (cfg_ok_dir c false Hc). pose proof (cfg_ok_dir c true Hc). cbn [rate maximum] in *. f_equal; [lia | lia |]. unfold u32. lia. }
  destruct n as [|n]; [|symmetry; apply Hit; lia]. cbn [Nat.iter]. rewrite update_no; [done|]. left. unfold later, u32, bucket_ok, is_u32 in *. lia.
Qed.

Definition demo_cfg : ev_token_bucket_cfg := Cfg 1000 5000 300 600 (Timeval 1 0) 1000.
Definition demo_bucket : ev_token_bucket := Bucket (-2500) 600 (2 ^ 32 - 2).
Lemma demo_cfg_ok : cfg_ok demo_cfg.
Proof. split; cbn; unfold EV_RATE_LIMIT_MAX, EV_SSIZE_MAX; lia. Qed.
Lemma demo_bucket_ok : bucket_ok demo_cfg demo_bucket.
Proof. split; [split; cbn; lia|]. intros []; cbn; lia. Qed.
Lemma ev_token_bucket_update_ticks_witness :
  snd (ev_token_bucket_update_ demo_bucket demo_cfg (later demo_bucket (Z.of_nat 5))) =
    Nat.iter 5 (fun b => snd (ev_token_bucket_update_ b demo_cfg (later b 1))) demo_bucket /\
  forall wr, LIM wr (snd (ev_token_bucket_update_ demo_bucket demo_cfg (later demo_bucket (Z.of_nat 5)))) =
    Z.min (maximum wr demo_cfg) (LIM wr demo_bucket + Z.of_nat 5 * rate wr demo_cfg).
Proof.
  apply (ev_token_bucket_update_ticks demo_cfg demo_bucket 5).
  - exact demo_cfg_ok.
  - exact demo_bucket_ok.
  - split; [lia|]. change INT_MAX with 2147483647. lia.
Defined.

(** A configuration with ticks of less than a millisecond is accepted, and the
    first tick that is computed divides by zero. *)
Lemma short_tick_divides_by_zero : exists c,
  ev_token_bucket_cfg_new true 1 1 1 1 (Some (Timeval 0 999)) = Some c /\ forall tv, ev_token_bucket_get_tick_ tv c = None.
Proof. eexists. split; [reflexivity|]. intros tv. reflexivity. Qed.
