(* ===== verification/RateLimitInv.v ===== *)
(** * Bufferevents and groups that obey their limits

    What holds of a bufferevent, of a group and between them in every reachable
    world, and that the operations of [RateLimit] keep it. *)
From S2P Require Import Prelude Timeval Event RateLimit TokenBucket.

(** ** Suspension of one bufferevent. *)
Definition transport (wr : bool) (bev : bufferevent_private) : bool := if wr then writing bev else reading bev.
Definition group_bit (wr : bool) (bev : bufferevent_private) : bool := has (suspended wr bev) BEV_SUSPEND_BW_GROUP.
(** The transport works just in the directions that are enabled and not suspended. *)
Definition transport_ok (bev : bufferevent_private) : Prop :=
  forall wr, transport wr bev = has (enabled bev) (EV_DIR wr) && (suspended wr bev =? 0).

(** The parts that suspension does not change. *)
Definition same_config (bev bev' : bufferevent_private) : Prop :=
  rate_limiting bev' = rate_limiting bev /\ max_single_read bev' = max_single_read bev /\
  max_single_write bev' = max_single_write bev.

Lemma set_flag_nonzero fl a : a <> 0 -> (set_flag fl a =? 0) = false.
Proof. intros Ha. unfold set_flag. apply Z.eqb_neq. rewrite Z.lor_eq_0_iff. tauto. Qed.

Lemma clr_nonzero fl a : clr_flag fl a <> 0 -> fl <> 0.
Proof. intros Hc ->. apply Hc. apply Z.ldiff_0_l. Qed.
Lemma eqb_nonzero n : n <> 0 -> (n =? 0) = false.
Proof. apply Z.eqb_neq. Qed.

Lemma suspend_suspended wr what bev wr' :
  suspended wr' (bufferevent_suspend_ wr what bev) = if eqb wr wr' then set_flag (suspended wr bev) what else suspended wr' bev.
Proof. unfold bufferevent_suspend_. by destruct (c_true _), wr, wr'. Qed.
Lemma unsuspend_suspended wr what bev wr' :
  suspended wr' (bufferevent_unsuspend_ wr what bev) = if eqb wr wr' then clr_flag (suspended wr bev) what else suspended wr' bev.
Proof. unfold bufferevent_unsuspend_. by destruct (_ && _), wr, wr'. Qed.

Lemma suspend_enabled wr what bev : enabled (bufferevent_suspend_ wr what bev) = enabled bev.
Proof. unfold bufferevent_suspend_. by destruct (c_true _), wr. Qed.
Lemma unsuspend_enabled wr what bev : enabled (bufferevent_unsuspend_ wr what bev) = enabled bev.
Proof. unfold bufferevent_unsuspend_. by destruct (_ && _), wr. Qed.
Lemma suspend_transport wr what bev wr' :
  transport wr' (bufferevent_suspend_ wr what bev) = transport wr' bev && negb (eqb wr wr' && (suspended wr bev =? 0)).
Proof. unfold bufferevent_suspend_, c_true. destruct (_ =? 0), wr, wr'; cbn; by rewrite ?andb_true_r, ?andb_false_r. Qed.
Lemma unsuspend_transport wr what bev wr' : transport wr' (bufferevent_unsuspend_ wr what bev) =
  transport wr' bev || eqb wr wr' && (clr_flag (suspended wr bev) what =? 0) && has (enabled bev) (EV_DIR wr).
Proof.
  unfold bufferevent_unsuspend_, c_true. replace (suspended wr (set_suspended _ _ _)) with (clr_flag (suspended wr bev) what) by by destruct wr.
  replace (enabled (set_suspended _ _ _)) with (enabled bev) by by destruct wr.
  rewrite negb_involutive. destruct (clr_flag _ _ =? 0), (has (enabled bev) _), wr, wr'; cbn; by rewrite ?orb_true_r, ?orb_false_r.
Qed.

Lemma suspend_ok wr what bev : what <> 0 -> transport_ok bev -> transport_ok (bufferevent_suspend_ wr what bev).
Proof.
  intros Hw Ht wr'. rewrite suspend_transport, suspend_enabled, suspend_suspended, (Ht wr').
  destruct (eqb_spec wr wr') as [->|]; cbn; [|by rewrite andb_true_r].
  rewrite set_flag_nonzero by done. rewrite andb_false_r. by destruct (has _ _), (_ =? 0).
Qed.
Lemma unsuspend_ok wr what bev : transport_ok bev -> transport_ok (bufferevent_unsuspend_ wr what bev).
Proof.
  intros Ht wr'. rewrite unsuspend_transport, unsuspend_enabled, unsuspend_suspended, (Ht wr').
  destruct (eqb_spec wr wr') as [->|]; cbn; [|by rewrite orb_false_r].
  destruct (Z.eqb_spec (clr_flag (suspended wr' bev) what) 0) as [|Hz]; cbn; [by destruct (has _ _), (_ =? 0)|].
  apply clr_nonzero, eqb_nonzero in Hz. by rewrite Hz, orb_false_r.
Qed.

Lemma suspend_config wr what bev : same_config bev (bufferevent_suspend_ wr what bev).
Proof. unfold bufferevent_suspend_. by destruct (c_true _), wr. Qed.
Lemma unsuspend_config wr what bev : same_config bev (bufferevent_unsuspend_ wr what bev).
Proof. unfold bufferevent_unsuspend_. by destruct (_ && _), wr. Qed.

(** The two suspensions do not disturb each other. *)
Ltac bits := unfold bw_suspended, group_bit; rewrite ?suspend_suspended, ?unsuspend_suspended;
  repeat match goal with |- context [eqb ?a ?b] => destruct (eqb_spec a b); subst end; flags; try done.
Lemma bw_suspend wr bev wr' : bw_suspended wr' (bufferevent_suspend_ wr BEV_SUSPEND_BW bev) = eqb wr wr' || bw_suspended wr' bev.
Proof. bits. Qed.
Lemma bw_unsuspend wr bev wr' : bw_suspended wr' (bufferevent_unsuspend_ wr BEV_SUSPEND_BW bev) = negb (eqb wr wr') && bw_suspended wr' bev.
Proof. bits. Qed.
Lemma bw_group_suspend wr bev wr' : bw_suspended wr' (bufferevent_suspend_ wr BEV_SUSPEND_BW_GROUP bev) = bw_suspended wr' bev.
Proof. bits. Qed.
Lemma bw_group_unsuspend wr bev wr' : bw_suspended wr' (bufferevent_unsuspend_ wr BEV_SUSPEND_BW_GROUP bev) = bw_suspended wr' bev.
Proof. bits. Qed.
Lemma group_suspend wr bev wr' : group_bit wr' (bufferevent_suspend_ wr BEV_SUSPEND_BW_GROUP bev) = eqb wr wr' || group_bit wr' bev.
Proof. bits. Qed.
Lemma group_unsuspend wr bev wr' : group_bit wr' (bufferevent_unsuspend_ wr BEV_SUSPEND_BW_GROUP bev) = negb (eqb wr wr') && group_bit wr' bev.
Proof. bits. Qed.
Lemma group_bw_suspend wr bev wr' : group_bit wr' (bufferevent_suspend_ wr BEV_SUSPEND_BW bev) = group_bit wr' bev.
Proof. bits. Qed.
Lemma group_bw_unsuspend wr bev wr' : group_bit wr' (bufferevent_unsuspend_ wr BEV_SUSPEND_BW bev) = group_bit wr' bev.
Proof. bits. Qed.
Lemma bw_nonzero wr bev : bw_suspended wr bev = true -> suspended wr bev <> 0.
Proof. unfold bw_suspended. intros Hb Hz. by rewrite Hz in Hb. Qed.
Lemma group_nonzero wr bev : group_bit wr bev = true -> suspended wr bev <> 0.
Proof. unfold group_bit. intros Hb Hz. by rewrite Hz in Hb. Qed.

(** ** Invariants. *)
Section Inv.
(** [event_add_ok]: every refill event can be added; [all]: every lock could be taken. *)
Context (cfg_of : Z -> ev_token_bucket_cfg) (event_add_ok all : bool).
Implicit Types (w : world) (b g : Z).

Record rlim_ok (bev : bufferevent_private) (rl : bufferevent_rate_limit) : Prop := {
  ro_updated : is_u32 (last_updated (limit rl));
  ro_low : forall wr, - 2 ^ 63 <= LIM wr (limit rl);
  ro_init : forall c, cfg rl = Some c -> refill_init rl = true;
  ro_high : forall c wr, cfg rl = Some c -> LIM wr (limit rl) <= maximum wr (cfg_of c);
  ro_none : cfg rl = None -> forall wr, bw_suspended wr bev = false;
  ro_empty : forall c wr, cfg rl = Some c -> LIM wr (limit rl) <= 0 -> bw_suspended wr bev = true;
  ro_refill : event_add_ok = true -> forall wr, bw_suspended wr bev = true -> refill_pending rl = true;
  ro_group : group rl = None -> forall wr, group_bit wr bev = false
}.
Definition size_ok (n : Z) : Prop := 1 <= n <= EV_SSIZE_MAX.
Record bev_ok (bev : bufferevent_private) : Prop := {
  bo_transport : transport_ok bev;
  bo_read : size_ok (max_single_read bev);
  bo_write : size_ok (max_single_write bev);
  bo_rlim : forall rl, rate_limiting bev = Some rl -> rlim_ok bev rl;
  bo_none : rate_limiting bev = None -> forall wr, bw_suspended wr bev = false /\ group_bit wr bev = false
}.
Record group_ok (gr : bufferevent_rate_limit_group) : Prop := {
  go_cfg : cfg_ok (rate_limit_cfg gr);
  go_msec : 0 < msec_per_tick (rate_limit_cfg gr);
  go_bucket : bucket_ok (rate_limit_cfg gr) (rate_limit gr);
  go_nodup : NoDup (members gr);
  go_len : n_members gr = Z.of_nat (length (members gr));
  go_share : forall wr, 1 <= min_share gr <= rate wr (rate_limit_cfg gr);
  go_conf : size_ok (configured_min_share gr);
  go_pending : forall wr, pending_unsuspend wr gr = true -> GROUP_SUSPENDED wr gr = false;
  go_empty : forall wr, LIM wr (rate_limit gr) <= 0 -> GROUP_SUSPENDED wr gr = true
}.
Definition group_of w b : option Z := bev ← bevs w !! b; rl ← rate_limiting bev; group rl.
Record world_ok w : Prop := {
  wo_bev : forall b bev, bevs w !! b = Some bev -> bev_ok bev;
  wo_group : forall g gr, groups w !! g = Some gr -> group_ok gr;
  wo_member : forall b g, group_of w b = Some g <-> exists gr, groups w !! g = Some gr /\ b ∈ members gr;
  wo_resumed : forall g gr wr b bev, groups w !! g = Some gr -> b ∈ members gr -> bevs w !! b = Some bev ->
    GROUP_SUSPENDED wr gr = false -> pending_unsuspend wr gr = false -> group_bit wr bev = false;
  wo_suspended : all = true -> forall g gr wr b bev, groups w !! g = Some gr -> b ∈ members gr -> bevs w !! b = Some bev ->
    GROUP_SUSPENDED wr gr = true -> group_bit wr bev = true
}.

(** ** Changing one bufferevent, or one group. *)
Definition set_bev w b bev : world := {| w with bevs := <[b := bev]> (bevs w) |}.
Definition set_group w g gr : world := {| w with groups := <[g := gr]> (groups w) |}.
Lemma upd_bev_set w b bev f : bevs w !! b = Some bev -> upd_bev w b f = set_bev w b (f bev).
Proof.
  intros Hb. unfold upd_bev, set_bev. f_equal. apply map_eq. intros i. destruct (decide (i = b)) as [->|].
  - by rewrite lookup_alter, lookup_insert, Hb, !decide_True.
  - by rewrite lookup_alter_ne, lookup_insert_ne.
Qed.
Lemma upd_group_set w g gr f : groups w !! g = Some gr -> upd_group w g f = set_group w g (f gr).
Proof.
  intros Hb. unfold upd_group, set_group. f_equal. apply map_eq. intros i. destruct (decide (i = g)) as [->|].
  - by rewrite lookup_alter, lookup_insert, Hb, !decide_True.
  - by rewrite lookup_alter_ne, lookup_insert_ne.
Qed.
Definition set_rlim rl (bev : bufferevent_private) : bufferevent_private := {| bev with rate_limiting := Some rl |}.
Lemma upd_rlim_set w b bev rl f : bevs w !! b = Some bev -> rate_limiting bev = Some rl ->
  upd_rlim w b f = set_bev w b (set_rlim (f rl) bev).
Proof. intros Hb Hr. unfold upd_rlim. rewrite (upd_bev_set w b bev) by done. by rewrite Hr. Qed.
Lemma set_bev_eq w b bev : bevs (set_bev w b bev) !! b = Some bev.
Proof. apply lookup_insert_eq. Qed.
Lemma set_bev_twice w b x y : set_bev (set_bev w b x) b y = set_bev w b y.
Proof. unfold set_bev. cbn. by rewrite insert_insert_eq. Qed.
Lemma set_group_eq w g gr : groups (set_group w g gr) !! g = Some gr.
Proof. apply lookup_insert_eq. Qed.
Lemma set_group_twice w g x y : set_group (set_group w g x) g y = set_group w g y.
Proof. unfold set_group. cbn. by rewrite insert_insert_eq. Qed.

(** What binds a bufferevent to its group. *)
Definition same_bond (bev bev' : bufferevent_private) : Prop :=
  (rl ← rate_limiting bev'; group rl) = (rl ← rate_limiting bev; group rl) /\ forall wr, group_bit wr bev' = group_bit wr bev.
(** The suspension of a member is the group's. *)
Definition bits_fit (gr : bufferevent_rate_limit_group) (bev : bufferevent_private) : Prop :=
  forall wr, (GROUP_SUSPENDED wr gr = false -> pending_unsuspend wr gr = false -> group_bit wr bev = false) /\
    (all = true -> GROUP_SUSPENDED wr gr = true -> group_bit wr bev = true).
Lemma wo_fit w g gr b bev : world_ok w -> groups w !! g = Some gr -> b ∈ members gr -> bevs w !! b = Some bev -> bits_fit gr bev.
Proof. intros [_ _ _ Hr Hs] Hg Hi Hb wr. split; [by eapply Hr | intros Ha; by eapply Hs]. Qed.

Lemma bev_change w b bev bev' : world_ok w -> bevs w !! b = Some bev -> bev_ok bev' ->
  (rl ← rate_limiting bev'; group rl) = (rl ← rate_limiting bev; group rl) ->
  (forall g gr, group_of w b = Some g -> groups w !! g = Some gr -> bits_fit gr bev') -> world_ok (set_bev w b bev').
Proof.
  intros W Hl Hb' Hgr Hbit. pose proof (fun g gr b bev => wo_fit w g gr b bev W) as Hfit. destruct W as [Hb Hg Hm _ _].
  assert (Hof : forall x, group_of (set_bev w b bev') x = group_of w x).
  { intros x. unfold group_of, set_bev. cbn [bevs]. destruct (decide (x = b)) as [->|].
    - by rewrite lookup_insert_eq, Hl.
    - by rewrite lookup_insert_ne. }
  assert (Hlook : forall x bx g gr, bevs (set_bev w b bev') !! x = Some bx -> groups w !! g = Some gr -> x ∈ members gr -> bits_fit gr bx).
  { intros x bx g gr. unfold set_bev. cbn [bevs]. rewrite lookup_insert_Some. intros [[<- <-]|[_ Hx]] H1 H2; [|by eapply Hfit].
    apply (Hbit g); [|done]. apply Hm. eauto. }
  split.
  - intros x bx. unfold set_bev. cbn [bevs]. rewrite lookup_insert_Some. intros [[_ <-]|[_ Hx]]; eauto.
  - exact Hg.
  - intros x g. rewrite Hof. apply Hm.
  - intros g gr wr x bx H1 H2 H3. by eapply Hlook.
  - intros Ha g gr wr x bx H1 H2 H3. by eapply Hlook.
Qed.
Lemma bev_step w b bev bev' : world_ok w -> bevs w !! b = Some bev -> bev_ok bev' -> same_bond bev bev' -> world_ok (set_bev w b bev').
Proof.
  intros W Hl Hb' [Hgr Hbit]. eapply bev_change; [done | done | done | done |]. intros g gr Hof Hg wr. rewrite Hbit.
  destruct (proj1 (wo_member w W b g) Hof) as (gr' & Hg' & Hi). rewrite Hg in Hg'. injection Hg' as <-. by eapply wo_fit.
Qed.

Definition same_state (gr gr' : bufferevent_rate_limit_group) : Prop :=
  members gr' = members gr /\ forall wr, GROUP_SUSPENDED wr gr' = GROUP_SUSPENDED wr gr /\ pending_unsuspend wr gr' = pending_unsuspend wr gr.
Lemma group_step w g gr gr' : world_ok w -> groups w !! g = Some gr -> group_ok gr' -> same_state gr gr' -> world_ok (set_group w g gr').
Proof.
  intros [Hb Hg Hm Hr Hs] Hl Hg' [Hmem Hst].
  assert (Hlook : forall x gx, groups (set_group w g gr') !! x = Some gx -> exists gx0, groups w !! x = Some gx0 /\ same_state gx0 gx).
  { intros x gx. unfold set_group. cbn [groups]. rewrite lookup_insert_Some. intros [[<- <-]|[_ Hx]]; [by exists gr|]. by exists gx. }
  split.
  - exact Hb.
  - intros x gx. unfold set_group. cbn [groups]. rewrite lookup_insert_Some. intros [[_ <-]|[_ Hx]]; eauto.
  - intros b x. change (group_of (set_group w g gr') b) with (group_of w b). rewrite Hm. unfold set_group. cbn [groups].
    destruct (decide (x = g)) as [->|]; [|by rewrite lookup_insert_ne].
    rewrite Hl, lookup_insert_eq. split; intros (y & [= <-] & Hy); eexists; (split; [done|]); by rewrite ?Hmem in *.
  - intros x gx wr b bx (gx0 & H1 & H2 & H3)%Hlook. destruct (H3 wr) as [-> ->]. rewrite H2. eauto.
  - intros Ha x gx wr b bx (gx0 & H1 & H2 & H3)%Hlook. destruct (H3 wr) as [-> _]. rewrite H2. eauto.
Qed.

(** ** Suspending and resuming. *)
Lemma bev_ok_intro bev bev' rl : bev_ok bev -> transport_ok bev' -> max_single_read bev' = max_single_read bev ->
  max_single_write bev' = max_single_write bev -> rate_limiting bev' = Some rl -> rlim_ok bev' rl -> bev_ok bev'.
Proof. intros [] ? E1 E2 E3 ?. split; rewrite ?E1, ?E2, ?E3; [done..| |done]. by intros ? [= <-]. Qed.

Lemma group_suspend_ok wr bev g : bev_ok bev -> (rl ← rate_limiting bev; group rl) = Some g ->
  bev_ok (bufferevent_suspend_ wr BEV_SUSPEND_BW_GROUP bev).
Proof.
  intros Hb Hg. destruct (rate_limiting bev) as [rl|] eqn:Hr; [|done]. cbn in Hg.
  destruct (suspend_config wr BEV_SUSPEND_BW_GROUP bev) as (E1 & E2 & E3).
  eapply (bev_ok_intro bev _ rl); [done | apply suspend_ok, Hb; done | done | done | by rewrite E1|].
  destruct (bo_rlim bev Hb rl Hr) as []. split; try done; try setoid_rewrite bw_group_suspend; try done. by rewrite Hg.
Qed.
Lemma group_unsuspend_ok wr bev : bev_ok bev -> bev_ok (bufferevent_unsuspend_ wr BEV_SUSPEND_BW_GROUP bev).
Proof.
  intros Hb. destruct (unsuspend_config wr BEV_SUSPEND_BW_GROUP bev) as (E1 & E2 & E3).
  pose proof (unsuspend_ok wr BEV_SUSPEND_BW_GROUP bev (bo_transport _ Hb)) as Ht.
  destruct (rate_limiting bev) as [rl|] eqn:Hr.
  - eapply (bev_ok_intro bev _ rl); try done. destruct (bo_rlim bev Hb rl Hr) as [].
    split; try done; try setoid_rewrite bw_group_unsuspend; try done. intros Hg wr'. rewrite group_unsuspend, ro_group0 by done. apply andb_false_r.
  - split; rewrite ?E1, ?E2, ?E3; [done | apply Hb | apply Hb | done |]. intros _ wr'. destruct (bo_none _ Hb Hr wr') as [H1 H2].
    rewrite bw_group_unsuspend, group_unsuspend, H1, H2. by rewrite andb_false_r.
Qed.

(** A function on all members but those whose lock is taken. *)
Lemma fold_members (try_lock : Z -> bool) f l : NoDup l -> forall w,
  let w' := foldl (fun w b => if try_lock b then upd_bev w b f else w) w l in
  groups w' = groups w /\ now w' = now w /\
  forall b, bevs w' !! b = (if bool_decide (b ∈ l) && try_lock b then f <$> bevs w !! b else bevs w !! b).
Proof using Type.
  clear cfg_of event_add_ok all.
  induction 1 as [|b l Hb Hl IH]; intros w; cbn [foldl]; [done|].
  destruct (IH (if try_lock b then upd_bev w b f else w)) as (E1 & E2 & E3). split; [by rewrite E1; destruct (try_lock b)|].
  split; [by rewrite E2; destruct (try_lock b)|]. intros x. rewrite E3. clear E1 E2 E3 IH.
  destruct (decide (x = b)) as [->|Hx].
  - rewrite (bool_decide_eq_false_2 (b ∈ l)), (bool_decide_eq_true_2 (b ∈ b :: l)) by (done || left). cbn [andb].
    destruct (try_lock b); [|done]. apply lookup_alter_eq.
  - replace (bool_decide (x ∈ b :: l)) with (bool_decide (x ∈ l)) by (apply bool_decide_ext; set_solver).
    destruct (try_lock b); [|done]. cbn [bevs upd_bev]. by rewrite lookup_alter_ne.
Qed.
Lemma random_order_perm pick gr : random_order pick gr ≡ₚ members gr.
Proof.
  unfold random_order. destruct (_ =? 0); [done|]. cbv zeta. rewrite Permutation_app_comm. by rewrite take_drop.
Qed.

(** The world after a group is suspended ([v]) or resumed. *)
Record switched (try_lock : Z -> bool) wr (v : bool) w g gr w' : Prop := {
  sw_groups : groups w' = <[g := set_group_suspended wr v (negb v && existsb (fun b => negb (try_lock b)) (members gr)) gr]> (groups w);
  sw_now : now w' = now w;
  sw_bevs : forall b, bevs w' !! b = (if bool_decide (b ∈ members gr) && try_lock b
    then (if v then bufferevent_suspend_ else bufferevent_unsuspend_) wr BEV_SUSPEND_BW_GROUP <$> bevs w !! b else bevs w !! b)
}.
Lemma group_suspend_switched try_lock wr w g gr : groups w !! g = Some gr -> NoDup (members gr) ->
  switched try_lock wr true w g gr (bev_group_suspend_ try_lock wr w g).
Proof.
  intros Hg Hn. unfold bev_group_suspend_. rewrite Hg. rewrite (upd_group_set w g gr) by done.
  destruct (fold_members try_lock (bufferevent_suspend_ wr BEV_SUSPEND_BW_GROUP) (members gr) Hn (set_group w g (set_group_suspended wr true false gr)))
    as (E1 & E2 & E3). by split.
Qed.
Lemma group_unsuspend_switched try_lock pick wr w g gr : groups w !! g = Some gr -> NoDup (members gr) ->
  switched try_lock wr false w g gr (bev_group_unsuspend_ try_lock pick wr w g).
Proof.
  intros Hg Hn. unfold bev_group_unsuspend_. rewrite Hg. pose proof (random_order_perm pick gr) as Hp.
  destruct (fold_members try_lock (bufferevent_unsuspend_ wr BEV_SUSPEND_BW_GROUP) (random_order pick gr) ltac:(by rewrite Hp) w) as (E1 & E2 & E3).
  rewrite (upd_group_set _ g gr) by (by rewrite E1). split; [by cbn; rewrite E1 | done |]. intros b. cbn. rewrite E3.
  by rewrite (bool_decide_ext (b ∈ random_order pick gr) (b ∈ members gr)) by by rewrite Hp.
Qed.

Lemma set_group_suspended_spec wr v p gr wr' :
  GROUP_SUSPENDED wr' (set_group_suspended wr v p gr) = (if eqb wr wr' then v else GROUP_SUSPENDED wr' gr) /\
  pending_unsuspend wr' (set_group_suspended wr v p gr) = (if eqb wr wr' then p else pending_unsuspend wr' gr).
Proof. by destruct wr, wr'. Qed.
Lemma set_group_suspended_members wr v p gr : members (set_group_suspended wr v p gr) = members gr.
Proof. by destruct wr. Qed.
Lemma switch_bit wr (v : bool) bev wr' :
  group_bit wr' ((if v then bufferevent_suspend_ else bufferevent_unsuspend_) wr BEV_SUSPEND_BW_GROUP bev) =
  if eqb wr wr' then v else group_bit wr' bev.
Proof. destruct v; [rewrite group_suspend | rewrite group_unsuspend]; by destruct (eqb wr wr'). Qed.
Lemma switch_config wr (v : bool) what bev :
  same_config bev ((if v then bufferevent_suspend_ else bufferevent_unsuspend_) wr what bev).
Proof. destruct v; [apply suspend_config | apply unsuspend_config]. Qed.

(** The other direction of a group. *)
Definition same_other wr (gr gr' : bufferevent_rate_limit_group) : Prop :=
  members gr' = members gr /\ GROUP_SUSPENDED (negb wr) gr' = GROUP_SUSPENDED (negb wr) gr /\
  pending_unsuspend (negb wr) gr' = pending_unsuspend (negb wr) gr.

Lemma switched_group_of try_lock wr v w g gr w' b : switched try_lock wr v w g gr w' -> group_of w' b = group_of w b.
Proof.
  intros [_ _ E]. unfold group_of. rewrite E. destruct (_ && _); [|done]. destruct (bevs w !! b) as [bev|]; [|done]. cbn.
  destruct (switch_config wr v BEV_SUSPEND_BW_GROUP bev) as (-> & _). done.
Qed.
Lemma switched_ok try_lock wr (v : bool) w g gr0 gr w' : world_ok w -> groups w !! g = Some gr0 -> same_other wr gr0 gr ->
  (all = true -> forall b, try_lock b = true) ->
  group_ok (set_group_suspended wr v (negb v && existsb (fun b => negb (try_lock b)) (members gr)) gr) ->
  switched try_lock wr v (set_group w g gr) g gr w' -> world_ok w'.
Proof.
  intros [Hb Hg Hm Hr Hs] Hl (Hmem & Hsus & Hpend) Hall Hok HS.
  pose proof (fun b => switched_group_of _ _ _ _ _ _ _ b HS) as Hof. destruct HS as [E1 _ E3]. cbn [set_group groups bevs] in *.
  rewrite insert_insert_eq in E1.
  assert (Hin : forall b, b ∈ members gr <-> group_of w b = Some g).
  { intros b. rewrite Hm, Hl, Hmem. split; [eauto | by intros (y & [= <-] & ?)]. }
  assert (Hlook : forall b bx, bevs w' !! b = Some bx -> exists bev, bevs w !! b = Some bev /\
    forall wr', group_bit wr' bx = if bool_decide (b ∈ members gr) && try_lock b && eqb wr wr' then v else group_bit wr' bev).
  { intros b bx Hx. rewrite E3 in Hx. destruct (bool_decide (b ∈ members gr) && try_lock b); cbn [andb]; [|eauto].
    apply fmap_Some in Hx as (bev & Hbev & ->). exists bev. split; [done|]. intros wr'. apply switch_bit. }
  assert (Hgr : forall x gx, groups w' !! x = Some gx -> x = g /\ gx = set_group_suspended wr v (negb v && existsb (fun b => negb (try_lock b)) (members gr)) gr \/
    x <> g /\ groups w !! x = Some gx).
  { intros x gx. rewrite E1, lookup_insert_Some. intros [[<- <-]|[? ?]]; auto. }
  assert (Hother : forall x gx b, groups w !! x = Some gx -> x <> g -> b ∈ members gx -> bool_decide (b ∈ members gr) = false).
  { intros x gx b H1 H2 H3. apply bool_decide_eq_false_2. rewrite Hin. assert (group_of w b = Some x) as ->; [|congruence]. apply Hm. eauto. }
  split.
  - intros b bx Hx. rewrite E3 in Hx. destruct (bool_decide_reflect (b ∈ members gr)) as [Hi|]; cbn [andb] in Hx; [|by eapply Hb].
    destruct (try_lock b); [|by eapply Hb]. apply fmap_Some in Hx as (bev & Hbev & ->).
    destruct v; [|by eapply group_unsuspend_ok, Hb]. eapply group_suspend_ok; [by eapply Hb|].
    apply Hin in Hi. unfold group_of in Hi. rewrite Hbev in Hi. exact Hi.
  - intros x gx [[-> ->]|[_ Hx]]%Hgr; [done | by eapply Hg].
  - intros b x. rewrite Hof. change (group_of (set_group w g gr) b) with (group_of w b). rewrite Hm, E1. destruct (decide (x = g)) as [->|].
    + rewrite Hl, lookup_insert_eq. split; intros (y & [= <-] & Hy); (eexists; split; [reflexivity|]); by rewrite ?set_group_suspended_members, ?Hmem in *.
    + by rewrite lookup_insert_ne.
  - intros x gx wr' b bx [[-> ->]|[Hne Hx]]%Hgr Hi (bev & Hbev & ->)%Hlook.
    + rewrite set_group_suspended_members in Hi. destruct (set_group_suspended_spec wr v (negb v && existsb (fun b => negb (try_lock b)) (members gr)) gr wr') as [-> ->].
      rewrite bool_decide_eq_true_2 by done. destruct (eqb_spec wr wr') as [->|Hne]; rewrite ?andb_false_r.
      * intros -> Hp. cbn [negb andb] in Hp. destruct (try_lock b) eqn:Ht; [done|]. exfalso. eapply eq_true_false_abs; [|exact Hp].
        apply existsb_exists. exists b. rewrite Ht. split; [by apply list_elem_of_In | done].
      * replace wr' with (negb wr) by by destruct wr, wr'. rewrite Hsus, Hpend. eapply Hr; [done | by rewrite <- Hmem | done].
    + rewrite (Hother x gx b) by done. cbn [andb]. eauto.
  - intros Ha x gx wr' b bx [[-> ->]|[Hne Hx]]%Hgr Hi (bev & Hbev & ->)%Hlook.
    + rewrite set_group_suspended_members in Hi. destruct (set_group_suspended_spec wr v (negb v && existsb (fun b => negb (try_lock b)) (members gr)) gr wr') as [-> _].
      rewrite bool_decide_eq_true_2, Hall by done. destruct (eqb_spec wr wr') as [->|Hne]; cbn [andb]; [done|].
      replace wr' with (negb wr) by by destruct wr, wr'. rewrite Hsus. eapply Hs; [done | done | by rewrite <- Hmem | done].
    + rewrite (Hother x gx b) by done. cbn [andb]. eauto.
Qed.
End Inv.
