(* ===== verification/RateLimitOps.v ===== *)
(** * Every operation keeps the invariant, and is defined

    For each operation of [RateLimit]: on a world that obeys the invariant, and
    with arguments that exist, it returns, and the invariant holds afterwards. *)
From S2P Require Import Prelude Timeval Event RateLimit TokenBucket RateLimitInv.

Section Ops.
Context (cfg_of : Z -> ev_token_bucket_cfg) (event_add_ok all : bool).
Hypothesis cfgs_ok : forall c, cfg_ok (cfg_of c) /\ 0 < msec_per_tick (cfg_of c).
Implicit Types (w : world) (b g : Z).
Local Notation world_ok := (world_ok cfg_of event_add_ok all).
Local Notation bev_ok := (bev_ok cfg_of event_add_ok).
Local Notation rlim_ok := (rlim_ok cfg_of event_add_ok).

Lemma get_tick_ok tv c : 0 < msec_per_tick c -> exists tick, ev_token_bucket_get_tick_ tv c = Some tick /\ is_u32 tick.
Proof. intros Hm. unfold ev_token_bucket_get_tick_. rewrite eqb_nonzero by lia. eexists. split; [done | apply u32_range]. Qed.

(** ** One bufferevent. *)
Lemma rlim_bucket bev rl c : rlim_ok bev rl -> cfg rl = Some c -> bucket_ok (cfg_of c) (limit rl).
Proof. intros [] Hc. split; [done|]. eauto. Qed.
(** A bucket that is not emptier. *)
Lemma set_limit_ok bev rl c l : rlim_ok bev rl -> cfg rl = Some c -> bucket_ok (cfg_of c) l ->
  (forall wr, LIM wr l <= 0 -> bw_suspended wr bev = true) -> rlim_ok bev (set_limit l rl).
Proof.
  intros [] Hc [Hu Hl] He. split; cbn; eauto.
  - intros wr. apply Hl.
  - intros c' wr Hc'. assert (c' = c) as -> by congruence. apply Hl.
Qed.
Lemma update_limit_ok bev rl c tick : rlim_ok bev rl -> cfg rl = Some c -> is_u32 tick ->
  rlim_ok bev (set_limit (snd (ev_token_bucket_update_ (limit rl) (cfg_of c) tick)) rl).
Proof.
  intros Hr Hc Ht. pose proof (rlim_bucket _ _ _ Hr Hc) as Hb.
  destruct (update_bucket_ok (cfg_of c) (limit rl) tick (proj1 (cfgs_ok c)) Hb Ht) as [Hb' Hle].
  eapply set_limit_ok; [done | done | done |]. intros wr Hn. eapply (ro_empty _ _ _ _ Hr); [done|]. specialize (Hle wr). lia.
Qed.
Lemma set_rlim_bond bev rl rl' : rate_limiting bev = Some rl -> group rl' = group rl -> same_bond bev (set_rlim rl' bev).
Proof. intros Hr Hg. split; [cbn; by rewrite Hr | done]. Qed.
Lemma set_rlim_ok bev rl : bev_ok bev -> rlim_ok bev rl -> bev_ok (set_rlim rl bev).
Proof. intros Hb Hr. eapply (bev_ok_intro _ _ bev _ rl); try done; [apply Hb | by destruct Hr]. Qed.

Lemma update_buckets_ok w b bev rl c : world_ok w -> bevs w !! b = Some bev -> rate_limiting bev = Some rl -> cfg rl = Some c ->
  exists l, bufferevent_update_buckets cfg_of w b = Some (set_bev w b (set_rlim (set_limit l rl) bev)) /\
    rlim_ok bev (set_limit l rl) /\ world_ok (set_bev w b (set_rlim (set_limit l rl) bev)).
Proof.
  intros W Hb Hr Hc. pose proof (wo_bev _ _ _ _ W b bev Hb) as Hok. pose proof (bo_rlim _ _ _ Hok rl Hr) as Hrl.
  destruct (get_tick_ok (now w) (cfg_of c) (proj2 (cfgs_ok c))) as (tick & Ht & Hu).
  set (l := snd (ev_token_bucket_update_ (limit rl) (cfg_of c) tick)).
  assert (Hl : rlim_ok bev (set_limit l rl)) by by apply update_limit_ok.
  assert (W' : world_ok (set_bev w b (set_rlim (set_limit l rl) bev))).
  { eapply bev_step; [done | done | by apply set_rlim_ok | by eapply set_rlim_bond]. }
  exists l. split; [|done]. unfold bufferevent_update_buckets. rewrite Hb. cbn [mbind option_bind]. rewrite Hr. cbn [mbind option_bind].
  rewrite Hc. cbn [mbind option_bind]. rewrite Ht. cbn [mbind option_bind]. destruct (Z.eqb_spec tick (last_updated (limit rl))) as [He|_].
  - cbn [negb]. f_equal. assert (l = limit rl) as ->.
    { unfold l. rewrite update_no; [done|]. left. rewrite He, Z.sub_diag. done. }
    destruct w as [bs gs n]. unfold set_bev. cbn in *. f_equal. symmetry. apply insert_id. rewrite Hb. f_equal.
    destruct bev, rl. cbn in *. by subst.
  - cbn [negb]. f_equal. by apply upd_rlim_set.
Qed.

(** ** How much to read or write. *)

(** What the bufferevent's own bucket allows. *)
Definition own_max wr (bev : bufferevent_private) : Z :=
  match rate_limiting bev with
  | Some rl => if cfg rl then LIM wr (limit rl) else if wr then max_single_write bev else max_single_read bev
  | None => if wr then max_single_write bev else max_single_read bev
  end.
(** What its group allows it. *)
Definition share wr (gr : bufferevent_rate_limit_group) : Z :=
  if GROUP_SUSPENDED wr gr then 0 else Z.max (min_share gr) (Z.quot (LIM wr (rate_limit gr)) (n_members gr)).
Lemma own_max_zero wr bev : bev_ok bev -> own_max wr bev <= 0 -> suspended wr bev <> 0.
Proof.
  intros [_ Hrd Hwr Hrl _]. unfold own_max, size_ok in *. destruct (rate_limiting bev) as [rl|]; [|destruct wr; lia].
  destruct (cfg rl) as [c|] eqn:Hc; [|destruct wr; lia]. intros Hl. apply bw_nonzero. eapply (ro_empty _ _ _ _ (Hrl rl eq_refl)); eauto.
Qed.

Lemma get_max_own wr w b bev rl : world_ok w -> bevs w !! b = Some bev -> rate_limiting bev = Some rl -> exists rl1,
  (if cfg rl then
     w ← bufferevent_update_buckets cfg_of w b; bev ← bevs w !! b; rl ← rate_limiting bev; Some (LIM wr (limit rl), w)
   else Some (if wr then max_single_write bev else max_single_read bev, w)) =
  Some (own_max wr (set_rlim rl1 bev), set_bev w b (set_rlim rl1 bev)) /\ world_ok (set_bev w b (set_rlim rl1 bev)) /\ group rl1 = group rl.
Proof.
  intros W Hb Hr. destruct (cfg rl) as [c|] eqn:Hc.
  - destruct (update_buckets_ok w b bev rl c W Hb Hr Hc) as (l & R & Hl & W1). exists (set_limit l rl). rewrite R.
    cbn [mbind option_bind]. rewrite set_bev_eq. cbn [mbind option_bind set_rlim rate_limiting]. unfold own_max. cbn. by rewrite Hc.
  - exists rl. replace (set_rlim rl bev) with bev by (destruct bev; cbn in *; by subst). unfold own_max. rewrite Hr, Hc.
    replace (set_bev w b bev) with w; [done|]. destruct w as [bs gs n]. unfold set_bev. cbn in *. f_equal. symmetry. by apply insert_id.
Qed.

Lemma get_max_ok wr w b bev : world_ok w -> bevs w !! b = Some bev -> exists n w' bev',
  bufferevent_get_rlim_max_ cfg_of wr w b = Some (n, w') /\ world_ok w' /\ bevs w' !! b = Some bev' /\ groups w' = groups w /\ n = Z.max 0 (match group_of w b ≫= (fun g => groups w !! g) with
               | Some gr => Z.min (own_max wr bev') (share wr gr)
               | None => own_max wr bev'
               end) /\ (n = 0 -> suspended wr bev' <> 0).
Proof.
  intros W Hb. pose proof (wo_bev _ _ _ _ W b bev Hb) as Hok. unfold bufferevent_get_rlim_max_, group_of. rewrite Hb. cbn [mbind option_bind].
  destruct (rate_limiting bev) as [rl|] eqn:Hr; cbn [mbind option_bind].
  2: { exists (own_max wr bev), w, bev. unfold own_max. rewrite Hr. assert (Hs : size_ok (if wr then max_single_write bev else max_single_read bev)) by (destruct wr; apply Hok).
       unfold size_ok in Hs. do 4 (split; [done|]). split; lia. }
  destruct (get_max_own wr w b bev rl W Hb Hr) as (rl1 & E & W1 & Hg). 
  cbv zeta. rewrite E. cbn [mbind option_bind].
  rewrite <- Hg. set (bev1 := set_rlim rl1 bev) in *. pose proof (set_bev_eq w b bev1) as Hb1.
  pose proof (wo_bev _ _ _ _ W1 b bev1 Hb1) as Hok1. destruct (group rl1) as [g|] eqn:Hg1; cbn [mbind option_bind].
  2: { exists (Z.max (own_max wr bev1) 0), (set_bev w b bev1), bev1. do 4 (split; [done|]). split; [lia|]. intros Hz. apply (own_max_zero wr bev1 Hok1). lia. }
  assert (Hof : group_of (set_bev w b bev1) b = Some g) by (unfold group_of; rewrite Hb1; exact Hg1).
  destruct (proj1 (wo_member _ _ _ _ W1 b g) Hof) as (gr & Hgr & Hin). change (groups (set_bev w b bev1)) with (groups w) in *.
  rewrite Hgr. cbn [mbind option_bind]. pose proof (go_share gr (wo_group _ _ _ _ W1 g gr Hgr) wr) as Hsh. unfold share.
  destruct (GROUP_SUSPENDED wr gr) eqn:Hsus.
  - rewrite (upd_bev_set _ b bev1), set_bev_twice by done. set (bev2 := bufferevent_suspend_ wr BEV_SUSPEND_BW_GROUP bev1).
    pose proof (switch_config wr true BEV_SUSPEND_BW_GROUP bev1) as (C1 & C2 & C3). fold bev2 in C1, C2, C3.
    assert (Hown : own_max wr bev2 = own_max wr bev1) by (unfold own_max; by rewrite C1, C2, C3).
    exists 0, (set_bev w b bev2), bev2. rewrite Hown. split; [cbv zeta; cbn [mbind option_bind]; do 2 f_equal; lia|].
    assert (Hbit : suspended wr bev2 <> 0) by (apply group_nonzero; unfold bev2; by rewrite group_suspend, eqb_reflx).
    split; [|split; [by apply set_bev_eq|]; split; [done|]; split; [lia | done]].
    rewrite <- (set_bev_twice w b bev1). eapply bev_change; [done | done | by eapply (group_suspend_ok _ _ wr bev1 g) | by rewrite C1 |].
    intros g' gr' Hof' Hg' wr'. rewrite Hof in Hof'. injection Hof' as <-. cbn [groups set_bev] in Hg'. rewrite Hgr in Hg'. injection Hg' as <-.
    unfold bev2. rewrite group_suspend. destruct (wo_fit _ _ _ _ g gr b bev1 W1 Hgr Hin Hb1 wr') as [F1 F2].
    destruct (eqb_spec wr wr') as [->|]; [|done]. rewrite Hsus. done.
  - exists (Z.max (Z.min (own_max wr bev1) (Z.max (min_share gr) (Z.quot (LIM wr (rate_limit gr)) (n_members gr)))) 0), (set_bev w b bev1), bev1.
    do 4 (split; [done|]). split; [lia|]. intros Hz. apply (own_max_zero wr bev1 Hok1). lia.
Qed.

(** ** Charging a bufferevent. *)
Definition switch (v wr : bool) : bufferevent_private -> bufferevent_private :=
  (if v then bufferevent_suspend_ else bufferevent_unsuspend_) wr BEV_SUSPEND_BW.
Lemma switch_ok v wr bev : transport_ok bev -> transport_ok (switch v wr bev).
Proof. destruct v; [by apply suspend_ok | by apply unsuspend_ok]. Qed.
Lemma bw_switch v wr bev wr' : bw_suspended wr' (switch v wr bev) = if eqb wr wr' then v else bw_suspended wr' bev.
Proof. destruct v; unfold switch; [rewrite bw_suspend | rewrite bw_unsuspend]; by destruct (eqb wr wr'). Qed.
Lemma bit_switch v wr bev wr' : group_bit wr' (switch v wr bev) = group_bit wr' bev.
Proof. destruct v; [apply group_bw_suspend | apply group_bw_unsuspend]. Qed.
Lemma switch_rlim v wr rl bev : switch v wr (set_rlim rl bev) = set_rlim rl (switch v wr bev).
Proof.
  destruct v; unfold switch, bufferevent_suspend_, bufferevent_unsuspend_; destruct bev; destruct wr; cbn; [by destruct (c_true _).. | |];
    by destruct (_ && _).
Qed.
Lemma switch_limiting v wr bev : rate_limiting (switch v wr bev) = rate_limiting bev.
Proof. apply (switch_config wr v). Qed.
Lemma set_rlim_id bev rl : rate_limiting bev = Some rl -> set_rlim rl bev = bev.
Proof. intros Hr. destruct bev; cbn in *. by subst. Qed.
Lemma set_bev_id w b bev : bevs w !! b = Some bev -> set_bev w b bev = w.
Proof. intros Hb. destruct w. unfold set_bev. cbn in *. f_equal. by apply insert_id. Qed.

Lemma add_refill_set w b bev rl : bevs w !! b = Some bev -> rate_limiting bev = Some rl ->
  add_refill event_add_ok w b = (if event_add_ok then 0 else -1, set_bev w b (set_rlim (set_refill (event_add_ok || refill_pending rl) rl) bev)).
Proof.
  intros Hb Hr. unfold add_refill. destruct event_add_ok; cbn [orb]; [by rewrite (upd_rlim_set w b bev rl)|].
  replace (set_refill (refill_pending rl) rl) with rl by by destruct rl. by rewrite set_rlim_id, set_bev_id.
Qed.

(** What the limits of a bufferevent may become when it is suspended or resumed. *)
Record rlim_fit (bev1 : bufferevent_private) rl rl' c : Prop := {
  rf_cfg : cfg rl' = Some c;
  rf_init : refill_init rl' = true;
  rf_group : group rl' = group rl;
  rf_bucket : bucket_ok (cfg_of c) (limit rl');
  rf_empty : forall wr, LIM wr (limit rl') <= 0 -> bw_suspended wr bev1 = true;
  rf_refill : event_add_ok = true -> forall wr, bw_suspended wr bev1 = true -> refill_pending rl' = true
}.
Lemma fit_rlim_ok bev bev1 rl rl' c : bev_ok bev -> rate_limiting bev = Some rl -> transport_ok bev1 -> same_config bev bev1 ->
  (forall wr, group_bit wr bev1 = group_bit wr bev) -> rlim_fit bev1 rl rl' c ->
  bev_ok (set_rlim rl' bev1) /\ same_bond bev (set_rlim rl' bev1).
Proof.
  intros Hb Hr Ht (C1 & C2 & C3) Hbit [Fc Fi Fg [Fu Fb] Fe Fr]. split.
  - eapply (bev_ok_intro _ _ bev _ rl'); try done. destruct (bo_rlim _ _ _ Hb rl Hr) as [].
    split; try done; cbn.
    + intros wr. apply Fb.
    + intros c' wr Hc'. assert (c' = c) as -> by congruence. apply Fb.
    + congruence.
    + intros c' wr _ Hl. by apply (Fe wr).
    + rewrite Fg. intros Hg wr. change (group_bit wr (set_rlim rl' bev1)) with (group_bit wr bev1). rewrite Hbit. auto.
  - split; [cbn; by rewrite Hr, Fg|]. intros wr. apply Hbit.
Qed.
Lemma switch_world v wr w b bev rl rl' c : world_ok w -> bevs w !! b = Some bev -> rate_limiting bev = Some rl ->
  rlim_fit (switch v wr bev) rl rl' c -> world_ok (set_bev w b (set_rlim rl' (switch v wr bev))).
Proof.
  intros W Hb Hr HF. pose proof (wo_bev _ _ _ _ W b bev Hb) as Hok.
  destruct (fit_rlim_ok bev (switch v wr bev) rl rl' c) as [H1 H2]; try done; [apply switch_ok, Hok | apply switch_config | apply bit_switch|].
  by eapply bev_step.
Qed.
Lemma keep_world w b bev rl rl' c : world_ok w -> bevs w !! b = Some bev -> rate_limiting bev = Some rl ->
  rlim_fit bev rl rl' c -> world_ok (set_bev w b (set_rlim rl' bev)).
Proof.
  intros W Hb Hr HF. pose proof (wo_bev _ _ _ _ W b bev Hb) as Hok.
  destruct (fit_rlim_ok bev bev rl rl' c) as [H1 H2]; try done; [apply Hok|]. by eapply bev_step.
Qed.

(** The three outcomes of charging [b]: suspended, resumed, or neither. *)
Section Charge.
Context (wr : bool) (w : world) (b n : Z) (bev : bufferevent_private) (rl : bufferevent_rate_limit) (c : Z).
Hypothesis (W : world_ok w) (Hb : bevs w !! b = Some bev) (Hr : rate_limiting bev = Some rl) (Hc : cfg rl = Some c).
Hypothesis (Hn : charge_ok (cfg_of c) wr (limit rl) n).
Definition charged_rlim : bufferevent_rate_limit := set_limit (charged wr (limit rl) n) rl.
Definition charged_world : world := upd_rlim w b (set_limit (charged wr (limit rl) n)).

Lemma charge_facts : rlim_ok bev rl /\ charged_world = set_bev w b (set_rlim charged_rlim bev) /\ bucket_ok (cfg_of c) (limit charged_rlim) /\
  forall wr', LIM wr' (limit charged_rlim) = if eqb wr wr' then LIM wr (limit rl) - n else LIM wr' (limit rl).
Proof.
  pose proof (bo_rlim _ _ _ (wo_bev _ _ _ _ W b bev Hb) rl Hr) as Hok. split; [done|].
  split; [by apply upd_rlim_set|]. apply charged_ok; [apply cfgs_ok | by eapply rlim_bucket | done].
Qed.
Lemma charge_suspend : LIM wr (limit charged_rlim) <= 0 -> exists r w',
  add_refill event_add_ok (upd_bev charged_world b (bufferevent_suspend_ wr BEV_SUSPEND_BW)) b = (r, w') /\ world_ok w' /\ groups w' = groups w.
Proof.
  intros Hl. destruct charge_facts as (Hok & -> & Hbk & HL). rewrite (upd_bev_set _ b (set_rlim charged_rlim bev)), set_bev_twice by apply set_bev_eq.
  change (bufferevent_suspend_ wr BEV_SUSPEND_BW) with (switch true wr). rewrite switch_rlim.
  rewrite (add_refill_set _ b (set_rlim charged_rlim (switch true wr bev)) charged_rlim), set_bev_twice by (apply set_bev_eq || done).
  eexists _, _. split; [done|]. split; [|done].
  change (set_rlim ?r (set_rlim charged_rlim ?x)) with (set_rlim r x). eapply (switch_world _ _ _ _ _ _ _ c); [done | done | done |].
  split; cbn [set_refill cfg refill_init group limit refill_pending charged_rlim set_limit]; try done.
  - exact (ro_init _ _ _ _ Hok c Hc).
  - intros wr'. rewrite bw_switch. change (charged wr (limit rl) n) with (limit charged_rlim). rewrite HL. destruct (eqb wr wr'); [done|]. by apply (ro_empty _ _ _ _ Hok c).
  - by intros ->.
Qed.
Lemma charge_resume : 0 < LIM wr (limit charged_rlim) -> exists w',
  upd_bev (if negb (bw_suspended (negb wr) bev) then del_refill charged_world b else charged_world) b (bufferevent_unsuspend_ wr BEV_SUSPEND_BW) = w' /\
  world_ok w' /\ groups w' = groups w.
Proof.
  intros Hl. destruct charge_facts as (Hok & -> & Hbk & HL). eexists. split; [done|].
  set (rl2 := set_refill (bw_suspended (negb wr) bev && refill_pending charged_rlim) charged_rlim).
  assert (E : (if negb (bw_suspended (negb wr) bev) then del_refill (set_bev w b (set_rlim charged_rlim bev)) b else set_bev w b (set_rlim charged_rlim bev)) =
    set_bev w b (set_rlim rl2 bev)).
  { unfold rl2, del_refill. destruct (bw_suspended _ _); cbn [negb andb]; [by destruct rl|].
    rewrite (upd_rlim_set _ b (set_rlim charged_rlim bev) charged_rlim), set_bev_twice; [done | apply set_bev_eq | done]. }
  rewrite E, (upd_bev_set _ b (set_rlim rl2 bev)), set_bev_twice by apply set_bev_eq.
  change (bufferevent_unsuspend_ wr BEV_SUSPEND_BW) with (switch false wr). rewrite switch_rlim. split; [|done].
  eapply (switch_world _ _ _ _ _ _ _ c); [done | done | done |]. split; try done; cbn [rl2 set_refill limit refill_init refill_pending].
  - exact (ro_init _ _ _ _ Hok c Hc).
  - intros wr'. rewrite bw_switch, HL. destruct (eqb_spec wr wr') as [->|]; [rewrite HL, eqb_reflx in Hl; lia|]. by apply (ro_empty _ _ _ _ Hok c).
  - intros Ha wr'. rewrite bw_switch. destruct (eqb_spec wr wr') as [|Hne]; [done|]. intros Hbw.
    replace (negb wr) with wr' by by destruct wr, wr'. rewrite Hbw. by eapply (ro_refill _ _ _ _ Hok).
Qed.
Lemma charge_keep : (LIM wr (limit charged_rlim) <= 0 -> bw_suspended wr bev = true) -> world_ok charged_world /\ groups charged_world = groups w.
Proof.
  intros Hl. destruct charge_facts as (Hok & -> & Hbk & HL). split; [|done]. eapply (keep_world _ _ _ _ _ c); [done | done | done |].
  split; try done; cbn [charged_rlim set_limit refill_init refill_pending].
  - exact (ro_init _ _ _ _ Hok c Hc).
  - intros wr'. destruct (eqb_spec wr wr') as [->|Hne]; [done|]. rewrite HL. replace (eqb wr wr') with false by by destruct wr, wr'. by apply (ro_empty _ _ _ _ Hok c).
  - exact (ro_refill _ _ _ _ Hok).
Qed.
End Charge.

Lemma decrement_limit_ok wr w b n bev rl c : world_ok w -> bevs w !! b = Some bev -> rate_limiting bev = Some rl -> cfg rl = Some c ->
  charge_ok (cfg_of c) wr (limit rl) n ->
  exists r w', bufferevent_decrement_limit event_add_ok wr w b n = Some (r, w') /\ world_ok w' /\ groups w' = groups w.
Proof.
  intros W Hb Hr Hc Hn. unfold bufferevent_decrement_limit. rewrite Hb. cbn [mbind option_bind]. rewrite Hr. cbn [mbind option_bind]. rewrite Hc.
  cbn [mbind option_bind]. cbv zeta.
  change (set_lim wr (s64 (LIM wr (limit rl) - n)) (limit rl)) with (charged wr (limit rl) n).
  change (upd_rlim w b _) with (charged_world wr w b n rl).
  destruct (charge_facts wr w b n bev rl c W Hb Hr Hc Hn) as (Hok & _ & _ & HL). specialize (HL wr). rewrite eqb_reflx in HL.
  assert (Hnew : s64 (LIM wr (limit rl) - n) = LIM wr (limit rl) - n).
  { pose proof (cfg_ok_dir (cfg_of c) wr (proj1 (cfgs_ok c))). unfold charge_ok, EV_RATE_LIMIT_MAX, EV_SSIZE_MAX in *. apply s64_small. lia. }
  rewrite Hnew. destruct (_ && _) eqn:E1; [|destruct (_ && _) eqn:E2 in |- *].
  - destruct (charge_suspend wr w b n bev rl c) as (r & w' & R & W'); [done.. | lia|]. rewrite R. eauto.
  - destruct (charge_resume wr w b n bev rl c) as (w' & R & W'); [done.. | lia|]. rewrite R. eauto.
  - destruct (charge_keep wr w b n bev rl c) as [W1 G1]; [done.. | | eauto]. intros Hl. apply (ro_empty _ _ _ _ Hok c); [done|]. lia.
Qed.

(** ** Groups. *)

(** Only what is left in the bucket differs, and the totals. *)
Record regroup (gr gr1 : bufferevent_rate_limit_group) : Prop := {
  rg_members : members gr1 = members gr;
  rg_n : n_members gr1 = n_members gr;
  rg_cfg : rate_limit_cfg gr1 = rate_limit_cfg gr;
  rg_state : forall wr, GROUP_SUSPENDED wr gr1 = GROUP_SUSPENDED wr gr /\ pending_unsuspend wr gr1 = pending_unsuspend wr gr;
  rg_share : min_share gr1 = min_share gr;
  rg_conf : configured_min_share gr1 = configured_min_share gr;
  rg_bucket : bucket_ok (rate_limit_cfg gr) (rate_limit gr1)
}.
Lemma regroup_ok gr gr1 : group_ok gr -> regroup gr gr1 ->
  (forall wr, LIM wr (rate_limit gr1) <= 0 -> GROUP_SUSPENDED wr gr = true) -> group_ok gr1.
Proof.
  intros [] [] He. split; rewrite ?rg_cfg0, ?rg_members0, ?rg_n0, ?rg_share0, ?rg_conf0; try done;
    intros wr; destruct (rg_state0 wr) as [-> E]; [rewrite E|]; auto.
Qed.
Lemma set_group_suspended_rest wr v p gr : let gr' := set_group_suspended wr v p gr in
  rate_limit_cfg gr' = rate_limit_cfg gr /\ members gr' = members gr /\ n_members gr' = n_members gr /\
  min_share gr' = min_share gr /\ configured_min_share gr' = configured_min_share gr /\ rate_limit gr' = rate_limit gr.
Proof. by destruct wr. Qed.
Lemma regroup_switched v wr p gr gr1 : group_ok gr -> regroup gr gr1 -> (v = true -> p = false) ->
  (forall wr', LIM wr' (rate_limit gr1) <= 0 -> (if eqb wr wr' then v else GROUP_SUSPENDED wr' gr) = true) ->
  group_ok (set_group_suspended wr v p gr1).
Proof.
  intros [] [] Hp He. destruct (set_group_suspended_rest wr v p gr1) as (E1 & E2 & E3 & E4 & E5 & E6).
  split; rewrite ?E1, ?E2, ?E3, ?E4, ?E5, ?E6, ?rg_cfg0, ?rg_members0, ?rg_n0, ?rg_share0, ?rg_conf0; try done;
    intros wr'; destruct (set_group_suspended_spec wr v p gr1 wr') as [-> E']; destruct (rg_state0 wr') as [-> E7].
  - rewrite E', E7. destruct (eqb wr wr'); [|auto]. destruct v; [|done]. by rewrite Hp.
  - auto.
Qed.
Lemma regroup_other wr gr gr1 : regroup gr gr1 -> same_other wr gr gr1.
Proof. intros []. split; [done|]. apply rg_state0. Qed.

Section Group.
Context (try_lock : Z -> bool) (pick : Z -> Z).
Hypothesis locks_ok : all = true -> forall b, try_lock b = true.
Context (wr : bool) (w : world) (g : Z) (gr gr1 : bufferevent_rate_limit_group).
Hypothesis (W : world_ok w) (Hg : groups w !! g = Some gr) (Hgr : regroup gr gr1).
Hypothesis (Hother : forall wr', wr' <> wr -> LIM wr' (rate_limit gr1) <= 0 -> GROUP_SUSPENDED wr' gr = true).
Lemma regroup_nodup : NoDup (members gr1).
Proof. rewrite (rg_members _ _ Hgr). apply (wo_group _ _ _ _ W g gr Hg). Qed.
Lemma group_suspend_world : world_ok (bev_group_suspend_ try_lock wr (set_group w g gr1) g).
Proof.
  eapply (switched_ok cfg_of event_add_ok all try_lock wr true w g gr gr1); [done | done | by apply regroup_other | done | |].
  - apply (regroup_switched true wr _ gr gr1); [exact (wo_group _ _ _ _ W g gr Hg) | done | done |]. intros wr'. destruct (eqb_spec wr wr'); [done|]. by apply Hother.
  - apply group_suspend_switched; [apply set_group_eq | apply regroup_nodup].
Qed.
Lemma group_resume_world : 0 < LIM wr (rate_limit gr1) -> world_ok (bev_group_unsuspend_ try_lock pick wr (set_group w g gr1) g).
Proof.
  intros Hl. eapply (switched_ok cfg_of event_add_ok all try_lock wr false w g gr gr1); [done | done | by apply regroup_other | done | |].
  - apply (regroup_switched false wr _ gr gr1); [exact (wo_group _ _ _ _ W g gr Hg) | done | done |]. intros wr'. destruct (eqb_spec wr wr') as [->|]; [lia|]. by apply Hother.
  - apply group_unsuspend_switched; [apply set_group_eq | apply regroup_nodup].
Qed.
Lemma group_keep_world : (LIM wr (rate_limit gr1) <= 0 -> GROUP_SUSPENDED wr gr = true) -> world_ok (set_group w g gr1).
Proof.
  intros Hl. eapply group_step; [done | done | |].
  - apply (regroup_ok gr); [exact (wo_group _ _ _ _ W g gr Hg) | done |]. intros wr'. destruct (decide (wr' = wr)) as [->|]; [done | by apply Hother].
  - split; [apply Hgr | apply Hgr].
Qed.
End Group.

Lemma charge_regroup wr gr n (tot : bool) : group_ok gr -> charge_ok (rate_limit_cfg gr) wr (rate_limit gr) n ->
  let gr1 := (if tot then add_total wr n else id) (charge_group wr n gr) in
  regroup gr gr1 /\ LIM wr (rate_limit gr1) = LIM wr (rate_limit gr) - n /\
  forall wr', wr' <> wr -> LIM wr' (rate_limit gr1) <= 0 -> GROUP_SUSPENDED wr' gr = true.
Proof.
  intros Hok Hn. destruct (charged_ok (rate_limit_cfg gr) wr (rate_limit gr) n (go_cfg _ Hok) (go_bucket _ Hok) Hn) as [Hb HL].
  cbv zeta. assert (E : rate_limit ((if tot then add_total wr n else id) (charge_group wr n gr)) = charged wr (rate_limit gr) n) by by destruct tot, wr.
  rewrite E. split; [split; by destruct tot, wr|].
  rewrite !HL, eqb_reflx. split; [done|]. intros wr' Hne. rewrite HL. replace (eqb wr wr') with false by by destruct wr, wr'. apply Hok.
Qed.
End Ops.
