(* ===== verification/RateLimitSteps.v ===== *)
(** * Operations on groups, membership and the timers *)
From S2P Require Import Prelude Timeval Event RateLimit TokenBucket RateLimitInv RateLimitOps.

Section Timer.
Context (cfg_of : Z -> ev_token_bucket_cfg) (event_add_ok all : bool).
Hypothesis cfgs_ok : forall c, cfg_ok (cfg_of c) /\ 0 < msec_per_tick (cfg_of c).
Implicit Types (w : world) (b g : Z).
Local Notation world_ok := (world_ok cfg_of event_add_ok all).
Local Notation bev_ok := (bev_ok cfg_of event_add_ok).
Local Notation rlim_ok := (rlim_ok cfg_of event_add_ok).

(** ** The timer of a bufferevent. *)

(** What the callback does in one direction. *)
Definition resumed wr (l : ev_token_bucket) (bev : bufferevent_private) : bufferevent_private :=
  if bw_suspended wr bev && (0 <? LIM wr l) then switch false wr bev else bev.
Lemma resumed_bw wr l bev wr' :
  bw_suspended wr' (resumed wr l bev) = bw_suspended wr' bev && negb (eqb wr wr' && (0 <? LIM wr l)).
Proof.
  unfold resumed. destruct (bw_suspended wr bev) eqn:Hb, (0 <? LIM wr l) eqn:Hl; cbn [andb]; rewrite ?bw_switch;
    destruct (eqb_spec wr wr') as [->|]; rewrite ?Hb, ?andb_true_r, ?andb_false_r; try done.
Qed.
Lemma resumed_same wr l bev : transport_ok bev -> transport_ok (resumed wr l bev) /\ same_config bev (resumed wr l bev) /\
  forall wr', group_bit wr' (resumed wr l bev) = group_bit wr' bev.
Proof.
  intros Ht. unfold resumed. destruct (_ && _); [|done].
  split; [by apply switch_ok|]. split; [exact (switch_config wr false BEV_SUSPEND_BW bev) | apply bit_switch].
Qed.
Lemma refill_dir_set wr w b bev rl again : bevs w !! b = Some (set_rlim rl bev) ->
  refill_dir wr w b again = Some (set_bev w b (set_rlim rl (resumed wr (limit rl) bev)), again || bw_suspended wr bev && (LIM wr (limit rl) <=? 0)).
Proof.
  intros Hb. unfold refill_dir. rewrite Hb. cbn [mbind option_bind set_rlim rate_limiting]. f_equal. unfold resumed.
  change (bw_suspended wr (set_rlim rl bev)) with (bw_suspended wr bev).
  destruct (bw_suspended wr bev); cbn [andb]; [|by rewrite set_bev_id, orb_false_r by done].
  destruct (Z.ltb_spec 0 (LIM wr (limit rl))), (Z.leb_spec (LIM wr (limit rl)) 0); try lia; rewrite ?orb_false_r, ?orb_true_r.
  - rewrite (upd_bev_set _ b (set_rlim rl bev)) by done. by rewrite <- switch_rlim.
  - by rewrite set_bev_id.
Qed.

(** What the callback leaves, [l] being in the bucket. *)
Definition resumed_both l (bev : bufferevent_private) : bufferevent_private := resumed true l (resumed false l bev).
Definition after_refill l rl (bev : bufferevent_private) : bufferevent_private :=
  let bev2 := resumed_both l bev in
  set_rlim (set_refill ((bw_suspended false bev2 || bw_suspended true bev2) && event_add_ok) (set_limit l rl)) bev2.
Lemma resumed_both_bw l bev wr : bw_suspended wr (resumed_both l bev) = bw_suspended wr bev && (LIM wr l <=? 0).
Proof. unfold resumed_both. rewrite !resumed_bw, Z.leb_antisym. destruct wr; cbn [eqb andb negb]; by rewrite ?andb_true_r. Qed.
Lemma after_refill_ok bev rl c tick : bev_ok bev -> rate_limiting bev = Some rl -> cfg rl = Some c -> is_u32 tick ->
  let l := snd (ev_token_bucket_update_ (limit rl) (cfg_of c) tick) in
  bev_ok (after_refill l rl bev) /\ same_bond bev (after_refill l rl bev).
Proof.
  intros Hok Hr Hc Hu l. pose proof (bo_rlim _ _ _ Hok rl Hr) as Hrl.
  destruct (update_bucket_ok (cfg_of c) (limit rl) tick (proj1 (cfgs_ok c)) (rlim_bucket _ _ _ _ _ Hrl Hc) Hu) as [Hbk Hle]. fold l in Hbk, Hle.
  destruct (resumed_same false l bev (bo_transport _ _ _ Hok)) as (T1 & (A1 & A2 & A3) & B1).
  destruct (resumed_same true l (resumed false l bev) T1) as (T2 & (C1 & C2 & C3) & B2).
  unfold after_refill. cbv zeta. apply (fit_rlim_ok cfg_of event_add_ok bev (resumed_both l bev) rl _ c); [done | done | done | | |].
  - unfold same_config, resumed_both. by rewrite C1, C2, C3.
  - intros wr. unfold resumed_both. by rewrite B2.
  - split; try done; cbn [set_refill set_limit limit refill_init refill_pending].
    + exact (ro_init _ _ _ _ Hrl c Hc).
    + intros wr Hl. rewrite resumed_both_bw, (ro_empty _ _ _ _ Hrl c wr Hc); [lia|]. specialize (Hle wr). lia.
    + intros -> wr Hw. rewrite andb_true_r. destruct wr; rewrite Hw; [apply orb_true_r | done].
Qed.
Lemma refill_callback_run w b bev rl c tick : bevs w !! b = Some bev -> rate_limiting bev = Some rl -> cfg rl = Some c ->
  ev_token_bucket_get_tick_ (now w) (cfg_of c) = Some tick ->
  bev_refill_callback_ cfg_of event_add_ok (del_refill w b) b =
    Some (set_bev w b (after_refill (snd (ev_token_bucket_update_ (limit rl) (cfg_of c) tick)) rl bev)).
Proof.
  intros Hb Hr Hc Ht. unfold del_refill. rewrite (upd_rlim_set w b bev rl) by done. set (rl0 := set_refill false rl).
  unfold bev_refill_callback_. rewrite set_bev_eq. cbn [mbind option_bind set_rlim rate_limiting]. change (cfg rl0) with (cfg rl). rewrite Hc.
  cbn [now set_bev]. rewrite Ht. cbn [mbind option_bind].
  change (limit rl0) with (limit rl). set (l := snd (ev_token_bucket_update_ (limit rl) (cfg_of c) tick)).
  rewrite (upd_rlim_set _ b (set_rlim rl0 bev) rl0) by (apply set_bev_eq || done). fold (set_bev w b (set_rlim rl0 bev)). rewrite set_bev_twice.
  change (set_rlim ?r (set_rlim rl0 bev)) with (set_rlim r bev). set (rl1 := set_limit l rl0).
  rewrite (refill_dir_set false _ b bev rl1), set_bev_twice by apply set_bev_eq. cbn [mbind option_bind orb].
  rewrite (refill_dir_set true _ b (resumed false (limit rl1) bev) rl1), set_bev_twice by apply set_bev_eq. cbn [mbind option_bind].
  change (limit rl1) with l. change (resumed true l (resumed false l bev)) with (resumed_both l bev).
  assert (E : bw_suspended false bev && (LIM false l <=? 0) || bw_suspended true (resumed false l bev) && (LIM true l <=? 0) =
    bw_suspended false (resumed_both l bev) || bw_suspended true (resumed_both l bev)).
  { rewrite !resumed_both_bw, resumed_bw. cbn [eqb andb negb]. by rewrite andb_true_r. }
  rewrite E. unfold after_refill. cbv zeta. f_equal. destruct (bw_suspended false (resumed_both l bev) || bw_suspended true (resumed_both l bev)); cbn [andb]; [|done].
  rewrite (add_refill_set _ _ b (set_rlim rl1 (resumed_both l bev)) rl1), set_bev_twice by (apply set_bev_eq || done).
  cbn [snd]. by rewrite orb_false_r.
Qed.
(** The refill event of a bufferevent fires. *)
Lemma refill_fires_ok w b bev rl : world_ok w -> bevs w !! b = Some bev -> rate_limiting bev = Some rl ->
  exists w', refill_fires cfg_of event_add_ok w b = Some w' /\ world_ok w'.
Proof.
  intros W Hb Hr. pose proof (wo_bev _ _ _ _ W b bev Hb) as Hok. pose proof (bo_rlim _ _ _ Hok rl Hr) as Hrl.
  unfold refill_fires. rewrite Hb. cbn [mbind option_bind]. rewrite Hr. cbn [mbind option_bind]. destruct (refill_pending rl); [|eauto].
  destruct (cfg rl) as [c|] eqn:Hc.
  - destruct (get_tick_ok (now w) (cfg_of c) (proj2 (cfgs_ok c))) as (tick & Ht & Hu). rewrite (refill_callback_run w b bev rl c tick) by done.
    eexists. split; [done|]. destruct (after_refill_ok bev rl c tick Hok Hr Hc Hu). by eapply bev_step.
  - unfold del_refill. rewrite (upd_rlim_set w b bev rl) by done. unfold bev_refill_callback_. rewrite set_bev_eq. cbn. rewrite Hc. eexists. split; [done|].
    eapply bev_step; [done | done | | by eapply set_rlim_bond].
    apply set_rlim_ok; [done|]. destruct Hrl. split; try done. intros _ wr. by rewrite ro_none.
Qed.

(** ** Configuration of a bufferevent. *)
Lemma new_rlim_ok bev i : bev_ok bev -> rate_limiting bev = None ->
  bev_ok (set_rlim {| new_rlim with refill_init := i |} bev) /\ same_bond bev (set_rlim {| new_rlim with refill_init := i |} bev).
Proof.
  intros Hok Hr. pose proof (bo_none _ _ _ Hok Hr) as Hn. split; [|split; [cbn; by rewrite Hr | done]].
  eapply (bev_ok_intro _ _ bev _ {| new_rlim with refill_init := i |}); try done; [apply Hok|].
  split; cbn; try done.
  - intros []; cbn; lia.
  - intros _ wr. apply (Hn wr).
  - intros _ wr Hw. destruct (Hn wr) as [Hn1 _]. assert (bw_suspended wr bev = true) by exact Hw. congruence.
  - intros _ wr. apply (Hn wr).
Qed.
Lemma set_dir_set wr w b bev rl susp : bevs w !! b = Some (set_rlim rl bev) ->
  set_dir wr w b susp = Some (set_bev w b (set_rlim rl (switch (LIM wr (limit rl) <=? 0) wr bev)), susp || (LIM wr (limit rl) <=? 0)).
Proof.
  intros Hb. unfold set_dir. rewrite Hb. cbn [mbind option_bind set_rlim rate_limiting]. f_equal.
  destruct (Z.ltb_spec 0 (LIM wr (limit rl))), (Z.leb_spec (LIM wr (limit rl)) 0); try lia; rewrite ?orb_false_r, ?orb_true_r;
    rewrite (upd_bev_set _ b (set_rlim rl bev)) by done; rewrite <- switch_rlim; done.
Qed.
Definition limited (c : Z) (tick : Z) rl (bev : bufferevent_private) : bufferevent_private :=
  let reinit := match cfg rl with Some _ => true | None => false end in
  let l := ev_token_bucket_init_ (limit rl) (cfg_of c) tick reinit in
  let susp wr := LIM wr l <=? 0 in
  set_rlim (Rlim (group rl) l (Some c) true ((susp false || susp true) && event_add_ok || negb reinit && refill_pending rl))
           (switch (susp true) true (switch (susp false) false bev)).
Lemma limited_ok c tick rl bev : bev_ok bev -> rate_limiting bev = Some rl -> is_u32 tick ->
  bev_ok (limited c tick rl bev) /\ same_bond bev (limited c tick rl bev).
Proof.
  intros Hok Hr Hu. pose proof (bo_rlim _ _ _ Hok rl Hr) as Hrl. unfold limited. cbv zeta.
  set (l := ev_token_bucket_init_ _ _ _ _). set (bev2 := switch (LIM true l <=? 0) true _).
  assert (Hb : bucket_ok (cfg_of c) l) by (apply init_bucket_ok; [apply cfgs_ok | done | apply Hrl | apply Hrl]).
  assert (Hbw : forall wr, bw_suspended wr bev2 = (LIM wr l <=? 0)) by (intros wr; unfold bev2; rewrite !bw_switch; by destruct wr).
  apply (fit_rlim_ok cfg_of event_add_ok bev bev2 rl _ c); [done | done | by apply switch_ok, switch_ok, Hok | | |].
  - destruct (switch_config true (LIM true l <=? 0) BEV_SUSPEND_BW (switch (LIM false l <=? 0) false bev)) as (C1 & C2 & C3).
    destruct (switch_config false (LIM false l <=? 0) BEV_SUSPEND_BW bev) as (B1 & B2 & B3).
    split; [by etransitivity|]. split; by etransitivity.
  - intros wr. unfold bev2. by rewrite !bit_switch.
  - split; try done; cbn [limit refill_pending].
    + intros wr Hl. rewrite Hbw. lia.
    + intros -> wr Hw. rewrite Hbw in Hw. destruct wr; rewrite Hw; by rewrite ?orb_true_r.
Qed.
End Timer.

Section Steps.
Context (cfg_of : Z -> ev_token_bucket_cfg) (try_lock : Z -> bool) (pick : Z -> Z) (event_add_ok all : bool).
Hypothesis cfgs_ok : forall c, cfg_ok (cfg_of c) /\ 0 < msec_per_tick (cfg_of c).
Hypothesis locks_ok : all = true -> forall b, try_lock b = true.
Implicit Types (w : world) (b g : Z).
Local Notation world_ok := (world_ok cfg_of event_add_ok all).
Local Notation bev_ok := (bev_ok cfg_of event_add_ok).
Local Notation rlim_ok := (rlim_ok cfg_of event_add_ok).
Local Notation suspend_g := (bev_group_suspend_ try_lock).
Local Notation unsuspend_g := (bev_group_unsuspend_ try_lock pick).

(** ** Charging a group. *)
Lemma group_decrement_ok wr w g n gr : world_ok w -> groups w !! g = Some gr -> charge_ok (rate_limit_cfg gr) wr (rate_limit gr) n ->
  exists w', bufferevent_rate_limit_group_decrement try_lock pick wr w g n = Some (0, w') /\ world_ok w'.
Proof.
  intros W Hg Hn. pose proof (wo_group _ _ _ _ W g gr Hg) as Hok.
  destruct (charge_regroup wr gr n false Hok Hn) as (Hrg & HL & Ho). cbn [id] in *.
  unfold bufferevent_rate_limit_group_decrement. rewrite Hg. cbn [mbind option_bind]. cbv zeta. rewrite (upd_group_set w g gr) by done.
  assert (Hnew : s64 (LIM wr (rate_limit gr) - n) = LIM wr (rate_limit gr) - n).
  { pose proof (cfg_ok_dir _ wr (go_cfg _ Hok)). unfold charge_ok, EV_RATE_LIMIT_MAX, EV_SSIZE_MAX in *. apply s64_small. lia. }
  rewrite Hnew. eexists. split; [done|]. destruct (_ && _) eqn:E1; [|destruct (_ && _) eqn:E2 in |- *].
  - by eapply group_suspend_world.
  - eapply group_resume_world; [done..|]. lia.
  - eapply group_keep_world; [done..|]. intros Hl. apply (go_empty _ Hok). lia.
Qed.

Lemma charge_own wr w b n bev rl : world_ok w -> bevs w !! b = Some bev -> rate_limiting bev = Some rl ->
  (forall c, cfg rl = Some c -> charge_ok (cfg_of c) wr (limit rl) n) ->
  exists r w', match cfg rl with
        | None => (0, w)
        | Some _ =>
            let lim := s64 (LIM wr (limit rl) - n) in
            let w := upd_rlim w b (set_limit (set_lim wr lim (limit rl))) in
            if lim <=? 0 then add_refill event_add_ok (upd_bev w b (bufferevent_suspend_ wr BEV_SUSPEND_BW)) b
            else if bw_suspended wr bev then
              let w := if negb (bw_suspended (negb wr) bev) then del_refill w b else w in
              (0, upd_bev w b (bufferevent_unsuspend_ wr BEV_SUSPEND_BW))
            else (0, w)
        end = (r, w') /\ world_ok w' /\ groups w' = groups w.
Proof.
  intros W Hb Hr Hn. destruct (cfg rl) as [c|] eqn:Hc; [|eauto]. specialize (Hn c eq_refl). cbv zeta.
  change (set_lim wr (s64 (LIM wr (limit rl) - n)) (limit rl)) with (charged wr (limit rl) n). change (upd_rlim w b _) with (charged_world wr w b n rl).
  destruct (charge_facts cfg_of event_add_ok all cfgs_ok wr w b n bev rl c W Hb Hr Hc Hn) as (Hok & _ & _ & HL). specialize (HL wr). rewrite eqb_reflx in HL.
  assert (Hnew : s64 (LIM wr (limit rl) - n) = LIM wr (limit rl) - n).
  { pose proof (cfg_ok_dir (cfg_of c) wr (proj1 (cfgs_ok c))). unfold charge_ok, EV_RATE_LIMIT_MAX, EV_SSIZE_MAX in *. apply s64_small. lia. }
  rewrite Hnew. destruct (Z.leb_spec (LIM wr (limit rl) - n) 0); [|destruct (bw_suspended wr bev) eqn:Hbw].
  - eapply charge_suspend; [done..|]. lia.
  - edestruct (charge_resume cfg_of event_add_ok all cfgs_ok wr w b n bev rl c) as (w' & R & W' & G'); [done.. | lia|]. rewrite R. eauto.
  - edestruct (charge_keep cfg_of event_add_ok all cfgs_ok wr w b n bev rl c) as [W1 G1]; [done.. | lia | eauto].
Qed.
Lemma decrement_buckets_ok wr w b n bev : world_ok w -> bevs w !! b = Some bev ->
  (forall rl c, rate_limiting bev = Some rl -> cfg rl = Some c -> charge_ok (cfg_of c) wr (limit rl) n) ->
  (forall g gr, group_of w b = Some g -> groups w !! g = Some gr -> charge_ok (rate_limit_cfg gr) wr (rate_limit gr) n) ->
  exists r w', bufferevent_decrement_buckets_ try_lock pick event_add_ok wr w b n = Some (r, w') /\ world_ok w'.
Proof.
  intros W Hb Hn Hng. unfold bufferevent_decrement_buckets_. rewrite Hb. cbn [mbind option_bind].
  destruct (rate_limiting bev) as [rl|] eqn:Hr; [|eauto].
  destruct (charge_own wr w b n bev rl W Hb Hr (fun c => Hn rl c eq_refl)) as (r & w1 & E & W1 & G1).
  destruct (match cfg rl with Some _ => _ | None => _ end) as [r' w1'] in E |- *. injection E as -> ->.
  destruct (group rl) as [g|] eqn:Hgr; [|eauto].
  assert (Hof : group_of w b = Some g) by (unfold group_of; rewrite Hb; cbn; by rewrite Hr).
  destruct (proj1 (wo_member _ _ _ _ W b g) Hof) as (gr & Hg & _). specialize (Hng g gr Hof Hg).
  rewrite <- G1 in Hg. pose proof (wo_group _ _ _ _ W1 g gr Hg) as Hok.
  destruct (charge_regroup wr gr n true Hok Hng) as (Hrg & HL & Ho).
  rewrite (upd_group_set w1 g gr) by done. cbv zeta. rewrite set_group_eq. cbn [mbind option_bind].
  destruct (rg_state _ _ Hrg wr) as [Hst _]. do 2 eexists. split; [done|].
  destruct (Z.leb_spec (LIM wr (rate_limit (add_total wr n (charge_group wr n gr)))) 0); [|destruct (GROUP_SUSPENDED wr _)].
  - by eapply group_suspend_world.
  - by eapply group_resume_world.
  - eapply group_keep_world; [done..|]. lia.
Qed.

(** ** The timer of a group. *)
Lemma regroup_refl gr : group_ok gr -> regroup gr gr.
Proof. intros []. by split. Qed.
Lemma set_group_id w g gr : groups w !! g = Some gr -> set_group w g gr = w.
Proof. intros Hg. destruct w. unfold set_group. cbn in *. f_equal. by apply insert_id. Qed.
Lemma group_dir_ok wr w g gr : world_ok w -> groups w !! g = Some gr -> exists w' gr',
  (if pending_unsuspend wr gr || (GROUP_SUSPENDED wr gr && (min_share gr <=? LIM wr (rate_limit gr))) then unsuspend_g wr w g else w) = w' /\
  world_ok w' /\ groups w' !! g = Some gr'.
Proof.
  intros W Hg. pose proof (wo_group _ _ _ _ W g gr Hg) as Hok. destruct (_ || _) eqn:E; [|eauto]. eexists. 
  pose proof (group_unsuspend_switched try_lock pick wr w g gr Hg (go_nodup _ Hok)) as [Eg _ _]. rewrite Eg, lookup_insert_eq.
  eexists. split; [done|]. split; [|done].
  rewrite <- (set_group_id w g gr) by done. eapply group_resume_world; [done | done | done | by apply regroup_refl | |].
  - intros wr' _. apply Hok.
  - destruct (Z.le_gt_cases (LIM wr (rate_limit gr)) 0) as [Hl|]; [|done]. pose proof (go_empty _ Hok wr Hl) as Hs.
    pose proof (go_share _ Hok wr). destruct (pending_unsuspend wr gr) eqn:Hp; [by rewrite (go_pending _ Hok wr Hp) in Hs|]. lia.
Qed.
Lemma group_refill_ok w g gr : world_ok w -> groups w !! g = Some gr ->
  exists w', bev_group_refill_callback_ try_lock pick w g = Some w' /\ world_ok w'.
Proof.
  intros W Hg. pose proof (wo_group _ _ _ _ W g gr Hg) as Hok. unfold bev_group_refill_callback_. rewrite Hg. cbn [mbind option_bind].
  destruct (get_tick_ok (now w) (rate_limit_cfg gr) (go_msec _ Hok)) as (tick & Ht & Hu). rewrite Ht. cbn [mbind option_bind]. cbv zeta.
  rewrite (upd_group_set w g gr) by done. set (l := snd (ev_token_bucket_update_ (rate_limit gr) (rate_limit_cfg gr) tick)).
  destruct (update_bucket_ok (rate_limit_cfg gr) (rate_limit gr) tick (go_cfg _ Hok) (go_bucket _ Hok) Hu) as [Hb Hle]. fold l in Hb, Hle.
  match goal with |- context [set_group w g ?x] => set (gr1 := x) end.
  assert (Hempty : forall wr, LIM wr (rate_limit gr1) <= 0 -> GROUP_SUSPENDED wr gr = true).
  { intros wr Hl. apply (go_empty _ Hok). specialize (Hle wr). change (rate_limit gr1) with l in Hl. lia. }
  assert (W1 : world_ok (set_group w g gr1)).
  { apply (group_keep_world cfg_of event_add_ok all false w g gr); [done | done | by split | intros ? _; apply Hempty | apply Hempty]. }
  rewrite set_group_eq. cbn [mbind option_bind].
  destruct (group_dir_ok false _ g gr1 W1 (set_group_eq w g gr1)) as (w2 & gr2 & -> & W2 & Hg2). rewrite Hg2. cbn [mbind option_bind].
  destruct (group_dir_ok true _ g gr2 W2 Hg2) as (w3 & gr3 & -> & W3 & _). eauto.
Qed.
End Steps.

(** * Setting limits, and joining and leaving groups *)
Section Members.
Context (cfg_of : Z -> ev_token_bucket_cfg) (event_add_ok all : bool).
Hypothesis cfgs_ok : forall c, cfg_ok (cfg_of c) /\ 0 < msec_per_tick (cfg_of c).
Implicit Types (w : world) (b g : Z).
Local Notation world_ok := (world_ok cfg_of event_add_ok all).
Local Notation bev_ok := (bev_ok cfg_of event_add_ok).
Local Notation rlim_ok := (rlim_ok cfg_of event_add_ok).
Local Notation limited := (limited cfg_of event_add_ok).

Lemma set_rlim_twice r r' bev : set_rlim r (set_rlim r' bev) = set_rlim r bev.
Proof. done. Qed.
Lemma set_world_eq w b bev : bevs w !! b = Some bev -> rate_limiting bev = None -> world_ok w ->
  let bev0 := set_rlim {| new_rlim with refill_init := false |} bev in world_ok (set_bev w b bev0) /\ bevs (set_bev w b bev0) !! b = Some bev0.
Proof.
  intros Hb Hr W bev0. destruct (new_rlim_ok cfg_of event_add_ok bev false) as [H1 H2]; [by eapply wo_bev | done|].
  split; [by eapply bev_step | apply set_bev_eq].
Qed.

(** The part of [bufferevent_set_rate_limit] that stores a configuration. *)
Lemma limited_run w b bev rl c tick : bevs w !! b = Some bev ->
  (forall c0, cfg rl = Some c0 -> refill_init rl = true) ->
  let reinit := match cfg rl with Some _ => true | None => false end in
  (let w := upd_bev w b (fun bev => {| bev with rate_limiting :=
              Some {| rl with cfg := Some c; limit := ev_token_bucket_init_ (limit rl) (cfg_of c) tick reinit |} |}) in
   w ← (if reinit then if refill_init rl then Some (del_refill w b) else None else Some w);
   let w := upd_rlim w b (fun rl => {| rl with refill_init := true |}) in
   '(w, susp) ← set_dir false w b false;
   '(w, susp) ← set_dir true w b susp;
   Some (0, if (susp : bool) then snd (add_refill event_add_ok w b) else w)) = Some (0, set_bev w b (limited c tick rl bev)).
Proof.
  intros Hb Hi reinit. cbv zeta. rewrite (upd_bev_set w b bev) by done. set (l := ev_token_bucket_init_ (limit rl) (cfg_of c) tick reinit).
  set (rl1 := Rlim (group rl) l (Some c) (refill_init rl) (refill_pending rl)).
  change (set_bev w b {| bev with rate_limiting := _ |}) with (set_bev w b (set_rlim rl1 bev)).
  set (p := negb reinit && refill_pending rl). set (rl2 := Rlim (group rl) l (Some c) true p).
  assert (E : (w ← (if reinit then if refill_init rl then Some (del_refill (set_bev w b (set_rlim rl1 bev)) b) else None
                    else Some (set_bev w b (set_rlim rl1 bev)));
               Some (upd_rlim w b (fun rl => {| rl with refill_init := true |}))) = Some (set_bev w b (set_rlim rl2 bev))).
  { unfold p, del_refill in *. destruct reinit eqn:Hre; cbn [negb andb] in *.
    - assert (Hinit : refill_init rl = true) by (unfold reinit in Hre; destruct (cfg rl) eqn:Hc; [by eapply Hi | done]). rewrite Hinit.
      cbn [mbind option_bind]. rewrite (upd_rlim_set (set_bev w b (set_rlim rl1 bev)) b (set_rlim rl1 bev) rl1), set_bev_twice by (apply set_bev_eq || done).
      by rewrite (upd_rlim_set _ b (set_rlim (set_refill false rl1) bev) (set_refill false rl1)), set_bev_twice by (apply set_bev_eq || done).
    - cbn [mbind option_bind]. by rewrite (upd_rlim_set _ b (set_rlim rl1 bev) rl1), set_bev_twice by (apply set_bev_eq || done). }
  match goal with |- mbind _ ?m = _ => destruct m as [w'|]; [|done] end. cbn [mbind option_bind] in *. apply (inj Some) in E. rewrite E.
  rewrite (set_dir_set false _ b bev rl2), set_bev_twice by apply set_bev_eq. cbn [mbind option_bind orb].
  rewrite (set_dir_set true _ b (switch (LIM false l <=? 0) false bev) rl2), set_bev_twice by apply set_bev_eq. cbn [mbind option_bind].
  change (limit rl2) with l. unfold limited. cbv zeta. fold reinit l p. set (bev2 := switch (LIM true l <=? 0) true _).
  do 2 f_equal. destruct (_ || _); cbn [orb andb]; [|done].
  rewrite (add_refill_set _ _ b (set_rlim rl2 bev2) rl2), set_bev_twice by (apply set_bev_eq || done). done.
Qed.

Lemma unlimited_ok w b bev rl : world_ok w -> bevs w !! b = Some bev -> rate_limiting bev = Some rl ->
  let w := upd_rlim w b (fun rl => {| rl with cfg := None |}) in
  let w := upd_bev w b (fun bev => bufferevent_unsuspend_ true BEV_SUSPEND_BW (bufferevent_unsuspend_ false BEV_SUSPEND_BW bev)) in
  world_ok (if refill_init rl then del_refill w b else w).
Proof.
  intros W Hb Hr. cbv zeta. set (rl1 := Rlim (group rl) (limit rl) None (refill_init rl) (refill_pending rl)).
  rewrite (upd_rlim_set w b bev rl) by done. change ({| rl with cfg := None |}) with rl1.
  rewrite (upd_bev_set _ b (set_rlim rl1 bev)), set_bev_twice by apply set_bev_eq.
  change (bufferevent_unsuspend_ true BEV_SUSPEND_BW (bufferevent_unsuspend_ false BEV_SUSPEND_BW ?x)) with (switch false true (switch false false x)).
  rewrite !switch_rlim. set (bev2 := switch false true (switch false false bev)).
  assert (Hfin : forall p, world_ok (set_bev w b (set_rlim (Rlim (group rl) (limit rl) None (refill_init rl) p) bev2))).
  { intros p. pose proof (wo_bev _ _ _ _ W b bev Hb) as Hok. pose proof (bo_rlim _ _ _ Hok rl Hr) as Hrl.
    assert (Hbw : forall wr, bw_suspended wr bev2 = false) by (intros wr; unfold bev2; rewrite !bw_switch; by destruct wr).
    assert (Hbit : forall wr, group_bit wr bev2 = group_bit wr bev) by (intros wr; unfold bev2; by rewrite !bit_switch).
    destruct (switch_config true false BEV_SUSPEND_BW (switch false false bev)) as (C1 & C2 & C3).
    destruct (switch_config false false BEV_SUSPEND_BW bev) as (B1 & B2 & B3).
    eapply bev_step; [done | done | | split; [cbn; by rewrite Hr | exact Hbit]].
    eapply (bev_ok_intro _ _ bev _ (Rlim (group rl) (limit rl) None (refill_init rl) p)); [done | by apply switch_ok, switch_ok, Hok | by etransitivity | by etransitivity | done |].
    destruct Hrl. split; try done; cbn.
    - intros _ wr Hw. assert (bw_suspended wr bev2 = true) by exact Hw. congruence.
    - intros Hg wr. etransitivity; [exact (Hbit wr) | auto]. }
  destruct (refill_init rl); [|apply Hfin]. unfold del_refill.
  rewrite (upd_rlim_set _ b (set_rlim rl1 bev2) rl1), set_bev_twice by (apply set_bev_eq || done). apply Hfin.
Qed.

Lemma set_rate_limit_ok alloc w b bev oc : world_ok w -> bevs w !! b = Some bev ->
  exists r w', bufferevent_set_rate_limit cfg_of event_add_ok alloc w b oc = Some (r, w') /\ world_ok w'.
Proof.
  intros W Hb. pose proof (wo_bev _ _ _ _ W b bev Hb) as Hok. unfold bufferevent_set_rate_limit. rewrite Hb. cbn [mbind option_bind].
  destruct oc as [c|].
  2: { do 2 eexists. split; [done|]. destruct (rate_limiting bev) as [rl|] eqn:Hr; [|done]. by eapply unlimited_ok. }
  destruct (get_tick_ok (now w) (cfg_of c) (proj2 (cfgs_ok c))) as (tick & Ht & Hu). rewrite Ht. cbn [mbind option_bind].
  destruct (rate_limiting bev) as [rl|] eqn:Hr.
  - case_bool_decide; [eauto|]. pose proof (limited_run w b bev rl c tick Hb (ro_init _ _ _ _ (bo_rlim _ _ _ Hok rl Hr))) as E.
    do 2 eexists. split; [exact E|].
    destruct (limited_ok cfg_of event_add_ok cfgs_ok c tick rl bev) as [H1 H2]; [done..|]. by eapply bev_step.
  - destruct alloc; [|eauto]. destruct (set_world_eq w b bev Hb Hr W) as [W1 Hb1]. set (bev0 := set_rlim _ bev) in *.
    pose proof (limited_run w b bev new_rlim c tick Hb ltac:(done)) as E. do 2 eexists. split; [exact E|].
    replace (limited c tick new_rlim bev) with (limited c tick new_rlim bev0) by (unfold limited, bev0; cbv zeta; by rewrite !switch_rlim).
    rewrite <- (set_bev_twice w b bev0). destruct (limited_ok cfg_of event_add_ok cfgs_ok c tick new_rlim bev0) as [H1 H2]; [by eapply wo_bev | done | done|].
    by eapply bev_step.
Qed.

(** ** Leaving a group. *)
Definition without b (gr : bufferevent_rate_limit_group) : bufferevent_rate_limit_group :=
  {| gr with n_members := n_members gr - 1; members := filter (fun x => x <> b) (members gr) |}.
Lemma filter_out_absent (l : list Z) b : b ∉ l -> filter (fun x => x <> b) l = l.
Proof.
  induction l as [|x l IH]; intros Hb; [done|]. apply not_elem_of_cons in Hb as [Hx Hl]. rewrite filter_cons, decide_True by done. by rewrite IH.
Qed.
Lemma filter_out_length (l : list Z) b : NoDup l -> b ∈ l -> length (filter (fun x => x <> b) l) = pred (length l).
Proof.
  intros Hn Hb. induction Hn as [|x l Hx Hn IH]; [by apply elem_of_nil in Hb|]. rewrite filter_cons. destruct (decide (x <> b)) as [Hne|He].
  - cbn. apply elem_of_cons in Hb as [->|Hb]; [done|]. rewrite IH by done. destruct l; [by apply elem_of_nil in Hb|]. done.
  - apply dec_stable in He as ->. cbn. by rewrite filter_out_absent.
Qed.
Lemma without_ok b gr : group_ok gr -> b ∈ members gr -> group_ok (without b gr).
Proof.
  intros [] Hb. split; try done; cbn.
  - by apply NoDup_filter.
  - rewrite filter_out_length, go_len by done. destruct (members gr); [by apply elem_of_nil in Hb|]. cbn [length pred]. lia.
Qed.

(** The groups after [b] has left its group, if it was in one. *)
Definition groups_without w b : gmap Z bufferevent_rate_limit_group :=
  match group_of w b with Some g => alter (without b) g (groups w) | None => groups w end.
Lemma groups_without_lookup w b g gr' : world_ok w -> groups_without w b !! g = Some gr' -> exists gr, groups w !! g = Some gr /\ group_ok gr' /\
  (forall wr, GROUP_SUSPENDED wr gr' = GROUP_SUSPENDED wr gr /\ pending_unsuspend wr gr' = pending_unsuspend wr gr) /\
  forall x, x ∈ members gr' <-> x ∈ members gr /\ x <> b.
Proof.
  intros W Hg. unfold groups_without in Hg. destruct (group_of w b) as [g0|] eqn:E.
  - destruct (proj1 (wo_member _ _ _ _ W b g0) E) as (gr0 & Hg0 & Hi). destruct (decide (g = g0)) as [->|Hne].
    + rewrite lookup_alter_eq, Hg0 in Hg. injection Hg as <-. exists gr0. split; [done|]. split; [apply without_ok; [by eapply wo_group | done]|].
      split; [done|]. intros x. cbn. rewrite list_elem_of_filter. tauto.
    + rewrite lookup_alter_ne in Hg by done. exists gr'. split; [done|]. split; [by eapply wo_group|]. split; [done|].
      intros x. split; [|tauto]. intros Hi'. split; [done|]. intros ->. assert (group_of w b = Some g); [apply (wo_member _ _ _ _ W); eauto | congruence].
  - exists gr'. split; [done|]. split; [by eapply wo_group|]. split; [done|]. intros x. split; [|tauto]. intros Hi'. split; [done|]. intros ->.
    assert (group_of w b = Some g); [apply (wo_member _ _ _ _ W); eauto | congruence].
Qed.
Lemma groups_without_some w b g gr : groups w !! g = Some gr -> exists gr', groups_without w b !! g = Some gr'.
Proof.
  intros Hg. unfold groups_without. destruct (group_of w b) as [g0|]; [|eauto]. destruct (decide (g = g0)) as [->|Hne].
  - rewrite lookup_alter_eq, Hg. by eexists.
  - rewrite lookup_alter_ne by done. eauto.
Qed.
Lemma leave_ok w b w' : world_ok w -> groups w' = groups_without w b ->
  (forall x, x <> b -> bevs w' !! x = bevs w !! x) ->
  (forall bev', bevs w' !! b = Some bev' -> bev_ok bev' /\ (rl ← rate_limiting bev'; group rl) = None) -> world_ok w'.
Proof.
  intros W Hgs Hx Hb'.
  assert (Hof : forall x, x <> b -> group_of w' x = group_of w x) by (intros x Hne; unfold group_of; by rewrite Hx).
  assert (Hofb : group_of w' b = None).
  { unfold group_of. destruct (bevs w' !! b) as [bev'|] eqn:E; [|done]. by apply Hb'. }
  pose proof (fun g gr' => groups_without_lookup w b g gr' W) as Hgr. pose proof (fun g gr => groups_without_some w b g gr) as Hgr2.
  rewrite <- Hgs in Hgr, Hgr2.
  split.
  - intros x bx Hbx. destruct (decide (x = b)) as [->|Hne]; [by apply Hb'|]. rewrite Hx in Hbx by done. by eapply wo_bev.
  - intros g gr' (gr & _ & Hok & _)%Hgr. done.
  - intros x g. destruct (decide (x = b)) as [->|Hne].
    + rewrite Hofb. split; [done|]. intros (gr' & Hg' & Hi). destruct (Hgr g gr' Hg') as (gr & _ & _ & _ & Hm). by destruct (proj1 (Hm _) Hi).
    + rewrite Hof, (wo_member _ _ _ _ W) by done. split; intros (gr & Hg & Hi).
      * destruct (Hgr2 g gr Hg) as (gr' & Hg'). exists gr'. split; [done|]. destruct (Hgr g gr' Hg') as (gr0 & Hg0 & _ & _ & Hm). apply Hm. split; [congruence | done].
      * destruct (Hgr g gr Hg) as (gr0 & Hg0 & _ & _ & Hm). exists gr0. split; [done|]. by destruct (proj1 (Hm _) Hi).
  - intros g gr' wr x bx Hg' Hi Hbx. destruct (Hgr g gr' Hg') as (gr & Hg & _ & Hs & Hm). destruct (proj1 (Hm _) Hi) as [Hi' Hne]. destruct (Hs wr) as [-> ->]. rewrite Hx in Hbx by done. by eapply wo_resumed.
  - intros Ha g gr' wr x bx Hg' Hi Hbx. destruct (Hgr g gr' Hg') as (gr & Hg & _ & Hs & Hm). destruct (proj1 (Hm _) Hi) as [Hi' Hne]. destruct (Hs wr) as [-> _]. rewrite Hx in Hbx by done. by eapply wo_suspended.
Qed.

Definition ungroup (bev : bufferevent_private) : bufferevent_private :=
  {| bev with rate_limiting := (fun rl => {| rl with group := None |}) <$> rate_limiting bev |}.
Definition left_group (bev : bufferevent_private) : bufferevent_private :=
  bufferevent_unsuspend_ true BEV_SUSPEND_BW_GROUP (bufferevent_unsuspend_ false BEV_SUSPEND_BW_GROUP (ungroup bev)).
Lemma left_group_ok bev : bev_ok bev -> bev_ok (left_group bev) /\ rate_limiting (left_group bev) = rate_limiting (ungroup bev) /\
  forall wr, group_bit wr (left_group bev) = false.
Proof.
  intros Hok. unfold left_group. set (bev1 := ungroup bev). set (bev2 := bufferevent_unsuspend_ false _ bev1).
  destruct (unsuspend_config true BEV_SUSPEND_BW_GROUP bev2) as (C1 & C2 & C3). destruct (unsuspend_config false BEV_SUSPEND_BW_GROUP bev1) as (B1 & B2 & B3).
  fold bev2 in B1, B2, B3. rewrite B1 in C1. rewrite B2 in C2. rewrite B3 in C3.
  assert (Hbit : forall wr, group_bit wr (bufferevent_unsuspend_ true BEV_SUSPEND_BW_GROUP bev2) = false).
  { intros wr. unfold bev2. rewrite !group_unsuspend. by destruct wr. }
  assert (Hbw : forall wr, bw_suspended wr (bufferevent_unsuspend_ true BEV_SUSPEND_BW_GROUP bev2) = bw_suspended wr bev).
  { intros wr. unfold bev2. by rewrite !bw_group_unsuspend. }
  assert (Ht : transport_ok (bufferevent_unsuspend_ true BEV_SUSPEND_BW_GROUP bev2)) by (apply unsuspend_ok, unsuspend_ok, Hok).
  split; [|done]. destruct Hok as [_ Hrd Hwr Hrl Hno]. split; rewrite ?C1, ?C2, ?C3; [done | done | done | |].
  - intros rl Hr. cbn in Hr. apply fmap_Some in Hr as (rl0 & Hr0 & ->). destruct (Hrl rl0 Hr0).
    split; try done; cbn [cfg limit refill_pending]; setoid_rewrite Hbw; done.
  - intros Hr wr. rewrite Hbw. split; [|done]. cbn in Hr. apply fmap_None in Hr. by apply Hno.
Qed.
Lemma internal_run w b bev u : world_ok w -> bevs w !! b = Some bev -> exists w',
  bufferevent_remove_from_rate_limit_group_internal_ w b u = Some (0, w') /\
  groups w' = groups_without w b /\ bevs w' = <[b := if u then left_group bev else ungroup bev]> (bevs w) /\ now w' = now w.
Proof.
  intros W Hb. unfold bufferevent_remove_from_rate_limit_group_internal_. rewrite Hb. cbn [mbind option_bind]. eexists. split; [done|].
  match goal with |- context [groups (if u then upd_bev ?x _ _ else ?x)] => set (w1 := x) end.
  assert (H1 : groups w1 = groups_without w b /\ bevs w1 = <[b := ungroup bev]> (bevs w) /\ now w1 = now w).
  { unfold w1, groups_without, group_of, ungroup. rewrite Hb. cbn [mbind option_bind].
    assert (Hid : forall bev1, bev1 = bev -> bevs w = <[b := bev1]> (bevs w)) by (intros ? ->; symmetry; by apply insert_id).
    destruct (rate_limiting bev) as [rl|] eqn:Hr; cbn [mbind option_bind fmap option_fmap option_map].
    - destruct (group rl) as [g|] eqn:Hg.
      + rewrite (upd_rlim_set w b bev rl) by done. done.
      + do 2 (split; [done || (apply Hid; destruct bev, rl; cbn in *; congruence)|]). done.
    - do 2 (split; [done || (apply Hid; destruct bev; cbn in *; congruence)|]). done. }
  destruct H1 as (G & B & N). destruct u; [|done]. rewrite (upd_bev_set w1 b (ungroup bev)) by (rewrite B; apply lookup_insert_eq).
  split; [done|]. split; [|done]. cbn. by rewrite B, insert_insert_eq.
Qed.
Lemma leave_group_ok w b bev : world_ok w -> bevs w !! b = Some bev -> exists w' bev',
  bufferevent_remove_from_rate_limit_group w b = Some (0, w') /\ world_ok w' /\ groups w' = groups_without w b /\
  bevs w' !! b = Some bev' /\ rate_limiting bev' = rate_limiting (ungroup bev).
Proof.
  intros W Hb. destruct (internal_run w b bev true W Hb) as (w' & R & G & B & _). destruct (left_group_ok bev) as (H1 & H2 & H3); [by eapply wo_bev|].
  exists w', (left_group bev). split; [done|]. split; [|by rewrite B, lookup_insert_eq]. apply (leave_ok w b); [done | done | |].
  - intros x Hx. by rewrite B, lookup_insert_ne.
  - intros bev'. rewrite B, lookup_insert_eq. intros [= <-]. split; [done|]. rewrite H2. cbn. by destruct (rate_limiting bev).
Qed.
Lemma finalize_ok w b bev : world_ok w -> bevs w !! b = Some bev ->
  exists w', bufferevent_finalize w b = Some w' /\ world_ok w' /\ bevs w' = delete b (bevs w).
Proof.
  intros W Hb. unfold bufferevent_finalize. rewrite Hb. cbn [mbind option_bind].
  match goal with |- context [mbind _ ?m] => assert (E : exists w1, m = Some w1 /\ groups w1 = groups_without w b /\ delete b (bevs w1) = delete b (bevs w)) end.
  { destruct (rate_limiting bev) as [rl|] eqn:Hr.
    - destruct (group rl) as [g|] eqn:Hg.
      + destruct (internal_run w b bev false W Hb) as (w' & R & G & B & _). rewrite R. exists w'. rewrite B. split; [done|]. split; [done|]. apply delete_insert_eq.
      + exists w. unfold groups_without, group_of. rewrite Hb. cbn. rewrite Hr. cbn. by rewrite Hg.
    - exists w. unfold groups_without, group_of. rewrite Hb. cbn. by rewrite Hr. }
  destruct E as (w1 & -> & G & B). cbn [mbind option_bind]. eexists. split; [done|]. split; [|done].
  apply (leave_ok w b); [done | done | |]; cbn; rewrite B.
  - intros x Hx. by rewrite lookup_delete_ne.
  - intros bev'. by rewrite lookup_delete_eq.
Qed.

(** ** Joining a group. *)
Definition with_member b (gr : bufferevent_rate_limit_group) : bufferevent_rate_limit_group :=
  {| gr with n_members := n_members gr + 1; members := b :: members gr |}.
Definition join_dir wr gr (bev : bufferevent_private) : bufferevent_private :=
  if GROUP_SUSPENDED wr gr then bufferevent_suspend_ wr BEV_SUSPEND_BW_GROUP bev else bev.
Definition joined g gr rl (bev : bufferevent_private) : bufferevent_private :=
  join_dir true gr (join_dir false gr (set_rlim {| rl with group := Some g |} bev)).
Lemma join_dir_config wr gr bev : same_config bev (join_dir wr gr bev).
Proof. unfold join_dir. destruct (GROUP_SUSPENDED wr gr); [apply suspend_config | done]. Qed.
Lemma join_dir_bits wr gr bev wr' : group_bit wr' (join_dir wr gr bev) = eqb wr wr' && GROUP_SUSPENDED wr gr || group_bit wr' bev /\
  bw_suspended wr' (join_dir wr gr bev) = bw_suspended wr' bev.
Proof.
  unfold join_dir. destruct (GROUP_SUSPENDED wr gr); [rewrite group_suspend, bw_group_suspend; by rewrite andb_true_r | by rewrite andb_false_r].
Qed.
Lemma join_dir_ok wr gr bev g : bev_ok bev -> (rl ← rate_limiting bev; group rl) = Some g -> bev_ok (join_dir wr gr bev).
Proof. intros Hok Hg. unfold join_dir. destruct (GROUP_SUSPENDED wr gr); [by eapply group_suspend_ok | done]. Qed.

Lemma joined_ok g gr rl bev : bev_ok bev -> rate_limiting bev = Some rl -> group rl = None ->
  bev_ok (joined g gr rl bev) /\ rate_limiting (joined g gr rl bev) = Some {| rl with group := Some g |} /\
  forall wr, group_bit wr (joined g gr rl bev) = GROUP_SUSPENDED wr gr.
Proof.
  intros Hok Hr Hg. pose proof (bo_rlim _ _ _ Hok rl Hr) as Hrl. set (bev1 := set_rlim {| rl with group := Some g |} bev).
  assert (H1 : bev_ok bev1).
  { apply set_rlim_ok; [done|]. destruct Hrl. split; try done. }
  destruct (join_dir_config false gr bev1) as (C1 & _). destruct (join_dir_config true gr (join_dir false gr bev1)) as (C2 & _).
  unfold joined. fold bev1. split; [|split].
  - apply (join_dir_ok _ _ _ g); [by apply (join_dir_ok _ _ _ g)|]. rewrite C1. done.
  - by rewrite C2, C1.
  - intros wr. destruct (join_dir_bits true gr (join_dir false gr bev1) wr) as [-> _]. destruct (join_dir_bits false gr bev1 wr) as [-> _].
    assert (group_bit wr bev1 = false) as -> by exact (ro_group _ _ _ _ Hrl Hg wr). destruct wr; cbn [eqb andb]; by rewrite ?orb_false_r.
Qed.
Lemma with_member_ok b gr : group_ok gr -> b ∉ members gr -> group_ok (with_member b gr).
Proof.
  intros [] Hb. split; try done; cbn [with_member members n_members].
  - by constructor.
  - cbn [length]. lia.
Qed.
Lemma join_world w b bev rl g gr : world_ok w -> bevs w !! b = Some bev -> rate_limiting bev = Some rl -> group rl = None ->
  groups w !! g = Some gr -> world_ok (set_bev (set_group w g (with_member b gr)) b (joined g gr rl bev)).
Proof.
  intros W Hb Hr Hgn Hg. destruct (joined_ok g gr rl bev) as (J1 & J2 & J3); [by eapply wo_bev | done | done|].
  set (w' := set_bev _ _ _). set (bev' := joined g gr rl bev) in *.
  assert (Hof : forall x, group_of w' x = if decide (x = b) then Some g else group_of w x).
  { intros x. unfold group_of, w'. cbn [bevs set_bev set_group]. destruct (decide (x = b)) as [->|Hne].
    - rewrite lookup_insert_eq. cbn [mbind option_bind]. by rewrite J2.
    - by rewrite lookup_insert_ne. }
  assert (Hofb : group_of w b = None) by (unfold group_of; rewrite Hb; cbn; by rewrite Hr).
  assert (Hnot : forall x gx, groups w !! x = Some gx -> b ∉ members gx).
  { intros x gx Hx Hi. assert (group_of w b = Some x); [apply (wo_member _ _ _ _ W); eauto | congruence]. }
  assert (Hfit : forall x gx y by_, groups w' !! x = Some gx -> y ∈ members gx -> bevs w' !! y = Some by_ -> bits_fit all gx by_).
  { intros x gx y by_ Hx Hi Hy. unfold w' in Hx, Hy. cbn [bevs groups set_bev set_group] in Hx, Hy.
    rewrite lookup_insert_Some in Hx. rewrite lookup_insert_Some in Hy.
    destruct Hx as [[<- <-]|[Hne Hx]], Hy as [[<- <-]|[Hne' Hy]].
    - intros wr. change (GROUP_SUSPENDED wr (with_member b gr)) with (GROUP_SUSPENDED wr gr). by rewrite J3.
    - assert (Hin : y ∈ members gr) by (cbn in Hi; apply elem_of_cons in Hi as [->|]; done). exact (wo_fit _ _ _ w g gr y by_ W Hg Hin Hy).
    - by destruct (Hnot x gx Hx).
    - by eapply wo_fit. }
  split.
  - intros x bx. unfold w'. cbn [bevs set_bev set_group]. rewrite lookup_insert_Some. intros [[_ <-]|[_ Hx]]; [done|]. by eapply wo_bev.
  - intros x gx. unfold w'. cbn [groups set_bev set_group]. rewrite lookup_insert_Some. intros [[_ <-]|[_ Hx]]; [|by eapply wo_group].
    apply with_member_ok; [by eapply wo_group | by eapply Hnot].
  - intros x y. rewrite Hof. unfold w'. cbn [groups set_bev set_group]. destruct (decide (x = b)) as [->|Hne].
    + split; [intros [= <-]; rewrite lookup_insert_eq; eexists; split; [done | by left]|].
      intros (gy & Hy & Hi). rewrite lookup_insert_Some in Hy. destruct Hy as [[<- <-]|[Hne Hy]]; [done | by destruct (Hnot y gy Hy)].
    + rewrite (wo_member _ _ _ _ W). destruct (decide (y = g)) as [->|Hyg]; [|by rewrite lookup_insert_ne].
      rewrite Hg, lookup_insert_eq. split; intros (gy & [= <-] & Hi); (eexists; split; [reflexivity|]); [by right|].
      cbn in Hi. by apply elem_of_cons in Hi as [->|].
  - intros x gx wr y bx H1 H2 H3. by eapply Hfit.
  - intros Ha x gx wr y bx H1 H2 H3. by eapply Hfit.
Qed.

(** The end of [bufferevent_add_to_rate_limit_group]. *)
Lemma join_run w b bev rl g gr : bevs w !! b = Some bev -> rate_limiting bev = Some rl -> groups w !! g = Some gr ->
  (let w := upd_rlim w b (fun rl => {| rl with group := Some g |}) in
   let w := upd_group w g (with_member b) in
   gr ← groups w !! g;
   let w := if g_read_suspended gr then upd_bev w b (bufferevent_suspend_ false BEV_SUSPEND_BW_GROUP) else w in
   Some (0, if g_write_suspended gr then upd_bev w b (bufferevent_suspend_ true BEV_SUSPEND_BW_GROUP) else w)) =
  Some (0, set_bev (set_group w g (with_member b gr)) b (joined g gr rl bev)).
Proof.
  intros Hb Hr Hg. cbv zeta. rewrite (upd_rlim_set w b bev rl) by done. set (bev1 := set_rlim {| rl with group := Some g |} bev).
  rewrite (upd_group_set _ g gr) by done. rewrite set_group_eq. cbn [mbind option_bind]. do 2 f_equal.
  change (set_group (set_bev w b bev1) g (with_member b gr)) with (set_bev (set_group w g (with_member b gr)) b bev1). set (w1 := set_group w g _).
  assert (E : forall wr bv, (if GROUP_SUSPENDED wr gr then upd_bev (set_bev w1 b bv) b (bufferevent_suspend_ wr BEV_SUSPEND_BW_GROUP) else set_bev w1 b bv) =
    set_bev w1 b (join_dir wr gr bv)).
  { intros wr bv. unfold join_dir. destruct (GROUP_SUSPENDED wr gr); [|done]. rewrite (upd_bev_set _ b bv), set_bev_twice by apply set_bev_eq. done. }
  pose proof (E false bev1) as E1. cbn [GROUP_SUSPENDED] in E1. cbn [with_member g_read_suspended g_write_suspended]. rewrite E1. apply (E true).
Qed.
Lemma add_to_ok alloc w b g bev gr : world_ok w -> bevs w !! b = Some bev -> groups w !! g = Some gr ->
  exists r w', bufferevent_add_to_rate_limit_group alloc w b g = Some (r, w') /\ world_ok w' /\
    (r = 0 -> group_of w' b = Some g).
Proof.
  intros W Hb Hg. unfold bufferevent_add_to_rate_limit_group. rewrite Hb. cbn [mbind option_bind]. rewrite Hg. cbn [mbind option_bind].
  (* from a bufferevent that has its limits *)
  assert (Hgo : forall w bev rl gr, world_ok w -> bevs w !! b = Some bev -> rate_limiting bev = Some rl -> groups w !! g = Some gr ->
    exists r w', (if bool_decide (group rl = Some g) then Some (0, w) else
        w ← (if group rl then '(_, w) ← bufferevent_remove_from_rate_limit_group w b; Some w else Some w);
        let w := upd_rlim w b (fun rl => {| rl with group := Some g |}) in
        let w := upd_group w g (with_member b) in
        gr ← groups w !! g;
        let w := if g_read_suspended gr then upd_bev w b (bufferevent_suspend_ false BEV_SUSPEND_BW_GROUP) else w in
        Some (0, if g_write_suspended gr then upd_bev w b (bufferevent_suspend_ true BEV_SUSPEND_BW_GROUP) else w)) = Some (r, w') /\
      world_ok w' /\ group_of w' b = Some g).
  { clear. intros w bev rl gr W Hb Hr Hg. case_bool_decide as Hgr.
    { exists 0, w. split; [done|]. split; [done|]. unfold group_of. rewrite Hb. cbn. by rewrite Hr. }
    assert (E : exists w1 bev1 rl1 gr1, (if group rl then '(_, w) ← bufferevent_remove_from_rate_limit_group w b; Some w else Some w) = Some w1 /\
      world_ok w1 /\ bevs w1 !! b = Some bev1 /\ rate_limiting bev1 = Some rl1 /\ group rl1 = None /\ groups w1 !! g = Some gr1).
    { destruct (group rl) as [g0|] eqn:Hg0; [|by exists w, bev, rl, gr].
      destruct (leave_group_ok w b bev W Hb) as (w1 & bev1 & R & W1 & G1 & Hb1 & Hr1). destruct (groups_without_some w b g gr Hg) as (gr1 & Hg1).
      exists w1, bev1, ({| rl with group := None |}), gr1. rewrite R, G1. split; [done|]. split; [done|]. split; [done|]. split; [|done]. rewrite Hr1. cbn. by rewrite Hr. }
    destruct E as (w1 & bev1 & rl1 & gr1 & -> & W1 & Hb1 & Hr1 & Hn1 & Hg1). cbn [mbind option_bind].
    pose proof (join_run w1 b bev1 rl1 g gr1 Hb1 Hr1 Hg1) as E. do 2 eexists. split; [exact E|].
    split; [by apply join_world|]. destruct (joined_ok g gr1 rl1 bev1) as (_ & J & _); [by eapply wo_bev | done | done|].
    unfold group_of. rewrite set_bev_eq. cbn [mbind option_bind]. by rewrite J. }
  destruct (rate_limiting bev) as [rl|] eqn:Hr; [|destruct alloc].
  - rewrite (upd_bev_set w b bev) by done. change {| bev with rate_limiting := _ |} with (set_rlim rl bev). rewrite set_rlim_id, set_bev_id by done.
    destruct (Hgo w bev rl gr W Hb Hr Hg) as (r & w' & E & W' & H'). exists r, w'. split; [exact E | done].
  - destruct (new_rlim_ok cfg_of event_add_ok bev true) as [H1 H2]; [by eapply wo_bev | done|]. set (bev1 := set_rlim _ bev) in *.
    rewrite (upd_bev_set w b bev) by done. change {| bev with rate_limiting := _ |} with bev1.
    destruct (Hgo (set_bev w b bev1) bev1 {| new_rlim with refill_init := true |} gr) as (r & w' & E & W' & H'); [by eapply bev_step | apply set_bev_eq | done | done|].
    exists r, w'. split; [exact E | done].
  - exists (-1), w. done.
Qed.
End Members.
