(* ===== verification/RateLimitProps.v ===== *)
(** * Rate limits in every reachable world

    The operations of the program on its bufferevents and groups as steps, the
    worlds they reach, and what holds there. *)
From S2P Require Import Prelude Timeval Event RateLimit TokenBucket RateLimitInv RateLimitOps RateLimitSteps.

(** ** The remaining operations. *)
Lemma has_clr_dir fl a wr : has (clr_flag fl a) (EV_DIR wr) = has fl (EV_DIR wr) && negb (has a (EV_DIR wr)).
Proof. destruct wr; [apply (has_clr_pow2 fl a 2) | apply (has_clr_pow2 fl a 1)]; lia. Qed.

Lemma enable_facts ok event bev : let bev' := snd (bufferevent_enable ok event bev) in
  same_config bev bev' /\ (forall wr, suspended wr bev' = suspended wr bev) /\ enabled bev' = set_flag (enabled bev) event /\
  forall wr, transport wr bev' = transport wr bev || has event (EV_DIR wr) && (suspended wr bev =? 0).
Proof.
  unfold bufferevent_enable. set (e1 := if c_true (read_suspended bev) then clr_flag event EV_READ else event).
  set (e2 := if c_true (write_suspended bev) then clr_flag e1 EV_WRITE else e1).
  assert (E2 : forall wr, has e2 (EV_DIR wr) = has event (EV_DIR wr) && (suspended wr bev =? 0)).
  { intros wr. unfold e2, e1, c_true. destruct wr; cbn [EV_DIR suspended]; destruct (read_suspended bev =? 0), (write_suspended bev =? 0);
      cbn [negb]; flags; by rewrite ?has_clr_same, ?andb_true_r, ?andb_false_r. }
  cbv zeta. destruct (c_true e2) eqn:Hc.
  - destruct (has e2 EV_READ) eqn:F, (has e2 EV_WRITE) eqn:T; (split; [done|]; split; [by intros []|]; split; [done|]); intros wr; rewrite <- E2;
      destruct wr; cbn [EV_DIR]; rewrite ?F, ?T; cbn; by rewrite ?orb_true_r, ?orb_false_r.
  - split; [done|]. split; [done|]. split; [done|]. intros wr. rewrite <- E2. unfold has, c_true in *.
    assert (e2 = 0) as -> by lia. cbn. by rewrite orb_false_r.
Qed.
Lemma disable_facts ok event bev : let bev' := snd (bufferevent_disable ok event bev) in
  same_config bev bev' /\ (forall wr, suspended wr bev' = suspended wr bev) /\ enabled bev' = clr_flag (enabled bev) event /\
  forall wr, transport wr bev' = transport wr bev && negb (has event (EV_DIR wr)).
Proof.
  unfold bufferevent_disable. cbv zeta. destruct (has event EV_READ) eqn:F, (has event EV_WRITE) eqn:T;
    (split; [done|]; split; [by intros []|]; split; [done|]); intros []; cbn [EV_DIR]; rewrite ?F, ?T; cbn; by rewrite ?andb_true_r, ?andb_false_r.
Qed.

(** ** Steps.

    [OpInit] is bufferevent_init_common_ with the transport of the socket,
    which works in the enabled directions from the start.  Adding an event
    either succeeds throughout or fails throughout ([event_add_ok]). *)
Inductive rl_op :=
  | OpInit (b enabled : Z)                          (* bufferevent_init_common_ *)
  | OpFinalize (b : Z)
  | OpEnable (b : Z) (ok : bool) (event : Z)
  | OpDisable (b : Z) (ok : bool) (event : Z)
  | OpSetMax (wr : bool) (b size : Z)
  | OpGetMax (wr : bool) (b : Z)                    (* before reading or writing *)
  | OpCharge (wr : bool) (b n : Z)                  (* after reading or writing *)
  | OpDecrement (wr : bool) (b n : Z)
  | OpGetLimit (wr : bool) (b : Z)
  | OpSetLimit (alloc : bool) (b : Z) (c : option Z)
  | OpRefill (b : Z)                                (* the timer of b is due *)
  | OpGroupNew (alloc : bool) (g : Z) (c : ev_token_bucket_cfg)
  | OpGroupCfg (g : Z) (c : ev_token_bucket_cfg)
  | OpGroupShare (g share : Z)
  | OpGroupDecrement (wr : bool) (g n : Z)
  | OpGroupRefill (g : Z)                           (* the timer of g is due *)
  | OpGroupReset (g : Z)
  | OpGroupFree (g : Z)
  | OpJoin (alloc : bool) (b g : Z)
  | OpLeave (b : Z)
  | OpClock (tv : timeval).

Section Step.
Context (cfg_of : Z -> ev_token_bucket_cfg) (event_add_ok : bool).
Implicit Types (w : world) (b g : Z).
Definition drop_result {A} (o : option (A * world)) : option world := snd <$> o.
Definition rl_step (try_lock : Z -> bool) (pick : Z -> Z) (op : rl_op) w : option world :=
  match op with
  | OpInit b en => Some {| w with bevs := <[b := bufferevent_ratelim_init_ (Bev en 0 0 (has en EV_READ) (has en EV_WRITE) None 0 0)]> (bevs w) |}
  | OpFinalize b => bufferevent_finalize w b
  | OpEnable b ok event => Some (upd_bev w b (fun bev => snd (bufferevent_enable ok event bev)))
  | OpDisable b ok event => Some (upd_bev w b (fun bev => snd (bufferevent_disable ok event bev)))
  | OpSetMax wr b size => Some (if wr then bufferevent_set_max_single_write w b size else bufferevent_set_max_single_read w b size)
  | OpGetMax wr b => drop_result (bufferevent_get_rlim_max_ cfg_of wr w b)
  | OpCharge wr b n => drop_result (bufferevent_decrement_buckets_ try_lock pick event_add_ok wr w b n)
  | OpDecrement wr b n => drop_result (bufferevent_decrement_limit event_add_ok wr w b n)
  | OpGetLimit wr b => drop_result (bufferevent_get_limit cfg_of wr w b)
  | OpSetLimit alloc b c => drop_result (bufferevent_set_rate_limit cfg_of event_add_ok alloc w b c)
  | OpRefill b => refill_fires cfg_of event_add_ok w b
  | OpGroupNew alloc g c => drop_result (bufferevent_rate_limit_group_new event_add_ok alloc w g c)
  | OpGroupCfg g c => drop_result (bufferevent_rate_limit_group_set_cfg event_add_ok w g c)
  | OpGroupShare g share => Some (upd_group w g (fun gr => snd (bufferevent_rate_limit_group_set_min_share share gr)))
  | OpGroupDecrement wr g n => drop_result (bufferevent_rate_limit_group_decrement try_lock pick wr w g n)
  | OpGroupRefill g => bev_group_refill_callback_ try_lock pick w g
  | OpGroupReset g => Some (bufferevent_rate_limit_group_reset_totals w g)
  | OpGroupFree g => bufferevent_rate_limit_group_free w g
  | OpJoin alloc b g => drop_result (bufferevent_add_to_rate_limit_group alloc w b g)
  | OpLeave b => drop_result (bufferevent_remove_from_rate_limit_group w b)
  | OpClock tv => Some {| w with now := tv |}
  end.

(** What the caller must respect: objects that exist, configurations that
    [ev_token_bucket_cfg_new] made with ticks of a millisecond or more, limits
    that are not driven out of their type or over the maximum, a positive
    minimum share, and no group freed with members. *)
Definition config_ok (c : ev_token_bucket_cfg) : Prop := cfg_ok c /\ 0 < msec_per_tick c.
Definition has_bev w b : Prop := is_Some (bevs w !! b).
Definition has_group w g : Prop := is_Some (groups w !! g).
Definition own_charge_ok wr w b n : Prop := forall bev rl c, bevs w !! b = Some bev -> rate_limiting bev = Some rl -> cfg rl = Some c ->
  charge_ok (cfg_of c) wr (limit rl) n.
Definition group_charge_ok wr w g n : Prop := forall gr, groups w !! g = Some gr -> charge_ok (rate_limit_cfg gr) wr (rate_limit gr) n.
Definition op_ok w (op : rl_op) : Prop :=
  match op with
  | OpInit b _ => bevs w !! b = None
  | OpEnable _ _ _ | OpDisable _ _ _ | OpGroupReset _ | OpClock _ => True
  | OpSetMax _ _ size => 0 <= size
  | OpFinalize b | OpGetMax _ b | OpGetLimit _ b | OpSetLimit _ b _ | OpLeave b => has_bev w b
  | OpRefill b => exists bev rl, bevs w !! b = Some bev /\ rate_limiting bev = Some rl
  | OpCharge wr b n => has_bev w b /\ own_charge_ok wr w b n /\ forall g, group_of w b = Some g -> group_charge_ok wr w g n
  | OpDecrement wr b n => (exists bev rl c, bevs w !! b = Some bev /\ rate_limiting bev = Some rl /\ cfg rl = Some c) /\ own_charge_ok wr w b n
  | OpGroupNew _ g c => groups w !! g = None /\ config_ok c
  | OpGroupCfg g c => has_group w g /\ config_ok c
  | OpGroupShare _ share => 1 <= share
  | OpGroupDecrement wr g n => has_group w g /\ group_charge_ok wr w g n
  | OpGroupRefill g => has_group w g
  | OpGroupFree g => exists gr, groups w !! g = Some gr /\ members gr = []
  | OpJoin _ b g => has_bev w b /\ has_group w g
  end.

(** The worlds that are reached; [all]: every lock could be taken. *)
Inductive reachable (all : bool) : world -> Prop :=
  | reach_start tv : reachable all (World ∅ ∅ tv)
  | reach_step w op try_lock pick w' : reachable all w -> op_ok w op -> (all = true -> forall b, try_lock b = true) ->
      rl_step try_lock pick op w = Some w' -> reachable all w'.
End Step.

(** ** Every step keeps the invariant. *)
Section Preserve.
Context (cfg_of : Z -> ev_token_bucket_cfg) (event_add_ok all : bool).
Hypothesis cfgs_ok : forall c, config_ok (cfg_of c).
Implicit Types (w : world) (b g : Z).
Local Notation world_ok := (world_ok cfg_of event_add_ok all).
Local Notation bev_ok := (bev_ok cfg_of event_add_ok).

Lemma init_ok w b en : world_ok w -> bevs w !! b = None ->
  world_ok {| w with bevs := <[b := bufferevent_ratelim_init_ (Bev en 0 0 (has en EV_READ) (has en EV_WRITE) None 0 0)]> (bevs w) |}.
Proof.
  intros W Hb. set (bev := bufferevent_ratelim_init_ _).
  assert (Hok : bev_ok bev).
  { split; [intros []; cbn; by rewrite andb_true_r | unfold size_ok; cbn; unfold MAX_SINGLE_READ_DEFAULT, MAX_SINGLE_WRITE_DEFAULT, EV_SSIZE_MAX; lia.. | done |]. intros _ []; done. }
  assert (Hofb : group_of w b = None) by (unfold group_of; by rewrite Hb).
  assert (Hof : forall x, group_of {| w with bevs := <[b := bev]> (bevs w) |} x = group_of w x).
  { intros x. unfold group_of. cbn [bevs]. destruct (decide (x = b)) as [->|]; [by rewrite lookup_insert_eq, Hb | by rewrite lookup_insert_ne]. }
  assert (Hnot : forall g gr, groups w !! g = Some gr -> b ∉ members gr).
  { intros g gr Hg Hi. assert (group_of w b = Some g); [apply (wo_member _ _ _ _ W); eauto | congruence]. }
  split.
  - intros x bx. cbn [bevs]. rewrite lookup_insert_Some. intros [[_ <-]|[_ Hx]]; [done|]. by eapply wo_bev.
  - apply W.
  - intros x g. rewrite Hof. apply (wo_member _ _ _ _ W).
  - intros g gr wr x bx Hg Hi. cbn [bevs]. rewrite lookup_insert_Some. intros [[<- _]|[_ Hx]]; [by destruct (Hnot g gr) | by eapply wo_resumed].
  - intros Ha g gr wr x bx Hg Hi. cbn [bevs]. rewrite lookup_insert_Some. intros [[<- _]|[_ Hx]]; [by destruct (Hnot g gr) | by eapply wo_suspended].
Qed.

(** An update of a bufferevent that does not exist changes nothing. *)
Lemma upd_bev_none w b f : bevs w !! b = None -> upd_bev w b f = w.
Proof. intros Hb. destruct w as [bs gs n]. unfold upd_bev. cbn in *. f_equal. apply map_eq. intros x. destruct (decide (x = b)) as [->|]; [by rewrite lookup_alter_eq, Hb | by rewrite lookup_alter_ne]. Qed.
Lemma upd_group_none w g f : groups w !! g = None -> upd_group w g f = w.
Proof. intros Hb. destruct w as [bs gs n]. unfold upd_group. cbn in *. f_equal. apply map_eq. intros x. destruct (decide (x = g)) as [->|]; [by rewrite lookup_alter_eq, Hb | by rewrite lookup_alter_ne]. Qed.
Lemma upd_bev_ok w b f : world_ok w -> (forall bev, bevs w !! b = Some bev -> bev_ok bev -> bev_ok (f bev) /\ same_bond bev (f bev)) -> world_ok (upd_bev w b f).
Proof.
  intros W Hf. destruct (bevs w !! b) as [bev|] eqn:Hb; [|by rewrite upd_bev_none].
  rewrite (upd_bev_set w b bev) by done. destruct (Hf bev) as [H1 H2]; [done | by eapply wo_bev|]. by eapply bev_step.
Qed.
Lemma upd_group_ok w g f : world_ok w -> (forall gr, groups w !! g = Some gr -> group_ok gr -> group_ok (f gr) /\ same_state gr (f gr)) -> world_ok (upd_group w g f).
Proof.
  intros W Hf. destruct (groups w !! g) as [gr|] eqn:Hb; [|by rewrite upd_group_none].
  rewrite (upd_group_set w g gr) by done. destruct (Hf gr) as [H1 H2]; [done | by eapply wo_group|]. by eapply group_step.
Qed.

(** What enabling, disabling and the sizes leave alone. *)
Lemma same_limits_ok bev bev' : bev_ok bev -> rate_limiting bev' = rate_limiting bev -> (forall wr, suspended wr bev' = suspended wr bev) ->
  transport_ok bev' -> size_ok (max_single_read bev') -> size_ok (max_single_write bev') -> bev_ok bev' /\ same_bond bev bev'.
Proof.
  intros Hok Hr Hs Ht H1 H2.
  assert (Hbw : forall wr, bw_suspended wr bev' = bw_suspended wr bev) by (intros wr; unfold bw_suspended; by rewrite Hs).
  assert (Hbit : forall wr, group_bit wr bev' = group_bit wr bev) by (intros wr; unfold group_bit; by rewrite Hs).
  split; [|split; [by rewrite Hr | done]]. split; [done..| |]; rewrite Hr.
  - intros rl Hrl. destruct (bo_rlim _ _ _ Hok rl Hrl). split; try done; try setoid_rewrite Hbw; try setoid_rewrite Hbit; done.
  - intros Hno wr. rewrite Hbw, Hbit. by apply (bo_none _ _ _ Hok).
Qed.
Lemma enable_ok w b ok event : world_ok w -> world_ok (upd_bev w b (fun bev => snd (bufferevent_enable ok event bev))).
Proof.
  intros W. apply upd_bev_ok; [done|]. intros bev _ Hok. destruct (enable_facts ok event bev) as ((C1 & C2 & C3) & Hs & He & Ht).
  apply same_limits_ok; [done | done | done | | rewrite C2; apply Hok | rewrite C3; apply Hok].
  intros wr. rewrite Ht, Hs, He, has_set, (bo_transport _ _ _ Hok wr). by destruct (has (enabled bev) _), (has event _), (_ =? 0).
Qed.
Lemma disable_ok w b ok event : world_ok w -> world_ok (upd_bev w b (fun bev => snd (bufferevent_disable ok event bev))).
Proof.
  intros W. apply upd_bev_ok; [done|]. intros bev _ Hok. destruct (disable_facts ok event bev) as ((C1 & C2 & C3) & Hs & He & Ht).
  apply same_limits_ok; [done | done | done | | rewrite C2; apply Hok | rewrite C3; apply Hok].
  intros wr. rewrite Ht, Hs, He, has_clr_dir, (bo_transport _ _ _ Hok wr). by destruct (has (enabled bev) _), (has event _), (_ =? 0).
Qed.
Lemma set_max_ok (wr : bool) w b size : world_ok w -> 0 <= size ->
  world_ok (if wr then bufferevent_set_max_single_write w b size else bufferevent_set_max_single_read w b size).
Proof.
  intros W Hs. assert (Hsz : forall d, size_ok d -> size_ok (if (size =? 0) || (EV_SSIZE_MAX <? size) then d else size)).
  { intros d Hd. destruct (_ || _) eqn:E; [done|]. unfold size_ok in *. lia. }
  destruct wr; (apply upd_bev_ok; [done|]; intros bev _ Hok; apply same_limits_ok; [done | done | by intros [] | | |]);
    try (apply Hok); apply Hsz; split; unfold EV_SSIZE_MAX; done.
Qed.
Lemma get_limit_ok wr w b : world_ok w -> has_bev w b -> exists n w', bufferevent_get_limit cfg_of wr w b = Some (n, w') /\ world_ok w'.
Proof.
  intros W [bev Hb]. unfold bufferevent_get_limit. rewrite Hb. cbn [mbind option_bind]. destruct (rate_limiting bev) as [rl|] eqn:Hr; [|eauto].
  destruct (cfg rl) as [c|] eqn:Hc; [|eauto]. destruct (update_buckets_ok cfg_of event_add_ok all cfgs_ok w b bev rl c W Hb Hr Hc) as (l & -> & _ & W').
  cbn [mbind option_bind]. rewrite set_bev_eq. cbn. eauto.
Qed.

(** *** Groups. *)
Lemma min_share_ok share gr : cfg_ok (rate_limit_cfg gr) -> size_ok share -> exists m,
  snd (bufferevent_rate_limit_group_set_min_share share gr) = {| gr with configured_min_share := share; min_share := m |} /\
  forall wr, 1 <= m <= rate wr (rate_limit_cfg gr).
Proof.
  intros Hc Hs. unfold bufferevent_rate_limit_group_set_min_share, size_ok in *. replace (EV_SSIZE_MAX <? share) with false by lia. cbn [snd].
  eexists. split; [done|]. pose proof (cfg_ok_dir _ false Hc). pose proof (cfg_ok_dir _ true Hc). cbn [rate] in *. intros []; cbn [rate]; lia.
Qed.
Lemma group_share_ok w g share : world_ok w -> 1 <= share ->
  world_ok (upd_group w g (fun gr => snd (bufferevent_rate_limit_group_set_min_share share gr))).
Proof.
  intros W Hs. apply upd_group_ok; [done|]. intros gr _ Hok. destruct (Z.le_gt_cases share EV_SSIZE_MAX) as [Hle|Hgt].
  - destruct (min_share_ok share gr (go_cfg _ Hok)) as (m & -> & Hm); [done|]. destruct Hok. by split.
  - unfold bufferevent_rate_limit_group_set_min_share. by replace (EV_SSIZE_MAX <? share) with true by lia.
Qed.
Lemma group_cfg_ok w g c : world_ok w -> has_group w g -> config_ok c ->
  exists w', bufferevent_rate_limit_group_set_cfg event_add_ok w g c = Some (0, w') /\ world_ok w'.
Proof.
  intros W [gr Hg] [Hc Hms]. unfold bufferevent_rate_limit_group_set_cfg. rewrite Hg. cbn [mbind option_bind]. eexists. split; [done|]. cbv zeta.
  set (clip := fun (wr : bool) (l : ev_token_bucket) => if s64 (maximum wr c) <? LIM wr l then set_lim wr (s64 (maximum wr c)) l else l).
  assert (Hclip : forall wr l, (forall wr', LIM wr' (clip wr l) = if eqb wr wr' then Z.min (maximum wr c) (LIM wr l) else LIM wr' l) /\
    last_updated (clip wr l) = last_updated l).
  { intros wr l. unfold clip. pose proof (cfg_ok_dir c wr Hc). unfold EV_RATE_LIMIT_MAX, EV_SSIZE_MAX in *. rewrite s64_small by lia.
    destruct (Z.ltb_spec (maximum wr c) (LIM wr l)); (split; [intros wr'; destruct wr, wr'; cbn [LIM eqb set_lim read_limit write_limit maximum] in *; lia | by destruct wr]). }
  apply upd_group_ok; [done|]. intros gr0 _ Hok. 
  match goal with |- group_ok (snd (_ _ ?x)) /\ _ => set (gr1 := x) end.
  destruct (min_share_ok (configured_min_share gr1) gr1 Hc (go_conf _ Hok)) as (m & -> & Hm).
  assert (El : rate_limit gr1 = clip true (clip false (rate_limit gr0))) by done.
  destruct Hok. split; [|done]. split; try done; cbn [rate_limit rate_limit_cfg]; rewrite El; change (rate_limit_cfg gr1) with c.
  - destruct go_bucket as [Hu Hb]. destruct (Hclip true (clip false (rate_limit gr0))) as [E1 E2]. destruct (Hclip false (rate_limit gr0)) as [F1 F2].
    split; [by rewrite E2, F2|]. intros wr. rewrite E1, !F1. pose proof (Hb wr). pose proof (cfg_ok_dir c wr Hc).
    destruct wr; cbn [eqb] in *; lia.
  - intros wr. destruct (Hclip true (clip false (rate_limit gr0))) as [E1 _]. destruct (Hclip false (rate_limit gr0)) as [F1 _].
    rewrite E1, !F1. pose proof (cfg_ok_dir c wr Hc). intros Hl. apply (go_empty wr). destruct wr; cbn [eqb] in *; lia.
Qed.
Lemma group_reset_ok w g : world_ok w -> world_ok (bufferevent_rate_limit_group_reset_totals w g).
Proof. intros W. apply upd_group_ok; [done|]. intros gr _ []. by split. Qed.

Lemma group_new_ok alloc w g c : world_ok w -> groups w !! g = None -> config_ok c ->
  exists r w', bufferevent_rate_limit_group_new event_add_ok alloc w g c = Some (r, w') /\ world_ok w'.
Proof.
  intros W Hg [Hc Hms]. unfold bufferevent_rate_limit_group_new. destruct (get_tick_ok (now w) c Hms) as (tick & -> & Hu). cbn [mbind option_bind].
  destruct alloc; cbn [negb]; [|eauto]. do 2 eexists. split; [done|]. set (gr0 := Group [] 0 _ _ _ _ _ _ _ _ _ _ _).
  destruct (min_share_ok 64 gr0 Hc) as (m & -> & Hm); [done|].
  assert (Hok : group_ok {| gr0 with configured_min_share := 64; min_share := m |}).
  { split; try done; cbn [rate_limit rate_limit_cfg gr0]; [apply init_bucket_ok; try done; intros []; cbn; lia | constructor | by intros [] |].
    intros wr. cbn [ev_token_bucket_init_]. pose proof (cfg_ok_dir c false Hc). pose proof (cfg_ok_dir c true Hc).
    unfold EV_RATE_LIMIT_MAX, EV_SSIZE_MAX in *. cbn [rate maximum] in *. destruct wr; cbn [LIM read_limit write_limit]; rewrite s64_small; lia. }
  set (gr1 := {| gr0 with configured_min_share := 64; min_share := m |}) in *.
  assert (Hempty : forall x, x ∉ members gr1) by (intros x; apply not_elem_of_nil).
  split.
  - apply W.
  - intros x gx. cbn [groups]. rewrite lookup_insert_Some. intros [[_ <-]|[_ Hx]]; [done|]. by eapply wo_group.
  - intros b x. change (group_of _ b) with (group_of w b). cbn [groups]. rewrite (wo_member _ _ _ _ W). destruct (decide (x = g)) as [->|].
    + rewrite Hg, lookup_insert_eq. split; [by intros (? & ? & _)|]. intros (gx & [= <-] & Hi). by destruct (Hempty b).
    + by rewrite lookup_insert_ne.
  - intros x gx wr b bev. cbn [groups]. rewrite lookup_insert_Some. intros [[_ <-]|[_ Hx]] Hi Hb Hs Hp; [by destruct (Hempty b) | exact (wo_resumed _ _ _ _ W x gx wr b bev Hx Hi Hb Hs Hp)].
  - intros Ha x gx wr b bev. cbn [groups]. rewrite lookup_insert_Some. intros [[_ <-]|[_ Hx]] Hi Hb Hs; [by destruct (Hempty b) | exact (wo_suspended _ _ _ _ W Ha x gx wr b bev Hx Hi Hb Hs)].
Qed.
Lemma group_free_ok w g gr : world_ok w -> groups w !! g = Some gr -> members gr = [] ->
  exists w', bufferevent_rate_limit_group_free w g = Some w' /\ world_ok w'.
Proof.
  intros W Hg Hm. pose proof (wo_group _ _ _ _ W g gr Hg) as Hok. unfold bufferevent_rate_limit_group_free. rewrite Hg. cbn [mbind option_bind].
  rewrite (go_len _ Hok), Hm. eexists. split; [done|]. split.
  - apply W.
  - intros x gx. cbn [groups]. rewrite lookup_delete_Some. intros [_ Hx]. by eapply wo_group.
  - intros b x. change (group_of _ b) with (group_of w b). cbn [groups]. rewrite (wo_member _ _ _ _ W). destruct (decide (x = g)) as [->|].
    + rewrite Hg, lookup_delete_eq. split; [|by intros (? & ? & _)]. intros (gx & [= <-] & Hi). rewrite Hm in Hi. by apply elem_of_nil in Hi.
    + by rewrite lookup_delete_ne.
  - intros x gx wr b bev. cbn [groups]. rewrite lookup_delete_Some. intros [_ Hx] Hi Hb Hs Hp. exact (wo_resumed _ _ _ _ W x gx wr b bev Hx Hi Hb Hs Hp).
  - intros Ha x gx wr b bev. cbn [groups]. rewrite lookup_delete_Some. intros [_ Hx] Hi Hb Hs. exact (wo_suspended _ _ _ _ W Ha x gx wr b bev Hx Hi Hb Hs).
Qed.
Lemma world_ok_now w tv : world_ok w -> world_ok {| w with now := tv |}.
Proof. intros []. by split. Qed.

Lemma drop_result_some {A} (o : option (A * world)) (r : A) w' : o = Some (r, w') -> drop_result o = Some w'.
Proof. by intros ->. Qed.
Lemma step_ok try_lock pick w op : (all = true -> forall b, try_lock b = true) -> world_ok w -> op_ok cfg_of w op ->
  exists w', rl_step cfg_of event_add_ok try_lock pick op w = Some w' /\ world_ok w'.
Proof.
  intros Hl W Hop. destruct op; cbn [rl_step op_ok] in *.
  - eexists. split; [done|]. by apply init_ok.
  - destruct Hop as [bev Hb]. destruct (finalize_ok cfg_of event_add_ok all w b bev W Hb) as (w' & R & W' & _). eauto.
  - eexists. split; [done|]. by apply enable_ok.
  - eexists. split; [done|]. by apply disable_ok.
  - eexists. split; [done|]. by apply set_max_ok.
  - destruct Hop as [bev Hb]. destruct (get_max_ok cfg_of event_add_ok all cfgs_ok wr w b bev W Hb) as (n & w' & bev' & R & W' & _).
    exists w'. split; [by eapply drop_result_some | done].
  - destruct Hop as ([bev Hb] & Hown & Hgr). destruct (decrement_buckets_ok cfg_of try_lock pick event_add_ok all cfgs_ok Hl wr w b n bev W Hb) as (r & w' & R & W').
    + intros rl c. by apply Hown.
    + intros g gr Hof Hg. by apply (Hgr g).
    + exists w'. split; [by eapply drop_result_some | done].
  - destruct Hop as ((bev & rl & c & Hb & Hr & Hc) & Hown).
    destruct (decrement_limit_ok cfg_of event_add_ok all cfgs_ok wr w b n bev rl c W Hb Hr Hc (Hown bev rl c Hb Hr Hc)) as (r & w' & R & W' & _).
    exists w'. split; [by eapply drop_result_some | done].
  - destruct (get_limit_ok wr w b W Hop) as (n & w' & R & W'). exists w'. split; [by eapply drop_result_some | done].
  - destruct Hop as [bev Hb]. destruct (set_rate_limit_ok cfg_of event_add_ok all cfgs_ok alloc w b bev c W Hb) as (r & w' & R & W').
    exists w'. split; [by eapply drop_result_some | done].
  - destruct Hop as (bev & rl & Hb & Hr). by eapply refill_fires_ok.
  - destruct Hop as [Hg Hc]. destruct (group_new_ok alloc w g c W Hg Hc) as (r & w' & R & W'). exists w'. split; [by eapply drop_result_some | done].
  - destruct Hop as [Hg Hc]. destruct (group_cfg_ok w g c W Hg Hc) as (w' & R & W'). exists w'. split; [by eapply drop_result_some | done].
  - eexists. split; [done|]. by apply group_share_ok.
  - destruct Hop as [[gr Hg] Hc]. destruct (group_decrement_ok cfg_of try_lock pick event_add_ok all Hl wr w g n gr W Hg (Hc gr Hg)) as (w' & R & W').
    exists w'. split; [by eapply drop_result_some | done].
  - destruct Hop as [gr Hg]. by eapply group_refill_ok.
  - eexists. split; [done|]. by apply group_reset_ok.
  - destruct Hop as (gr & Hg & Hm). by eapply group_free_ok.
  - destruct Hop as [[bev Hb] [gr Hg]]. destruct (add_to_ok cfg_of event_add_ok all alloc w b g bev gr W Hb Hg) as (r & w' & R & W' & _).
    exists w'. split; [by eapply drop_result_some | done].
  - destruct Hop as [bev Hb]. destruct (leave_group_ok cfg_of event_add_ok all w b bev W Hb) as (w' & bev' & R & W' & _).
    exists w'. split; [by eapply drop_result_some | done].
  - eexists. split; [done|]. by apply world_ok_now.
Qed.

Lemma start_ok tv : world_ok (World ∅ ∅ tv).
Proof.
  split; cbn; try done.
  intros b g. unfold group_of. cbn. rewrite lookup_empty. split; [done|]. intros (gr & Hg & _). by rewrite lookup_empty in Hg.
Qed.
Lemma reachable_ok w : reachable cfg_of event_add_ok all w -> world_ok w.
Proof.
  induction 1 as [tv|w op try_lock pick w' Hr IH Hop Hl R]; [apply start_ok|].
  destruct (step_ok try_lock pick w op Hl IH Hop) as (w1 & R1 & W1). rewrite R in R1. by injection R1 as <-.
Qed.
End Preserve.

(** * What rate limiting guarantees *)
(** ** A suspended bufferevent is resumed. *)
Section Resume.
Context (cfg_of : Z -> ev_token_bucket_cfg) (all : bool).
Hypothesis cfgs_ok : forall c, config_ok (cfg_of c).
Implicit Types (w : world) (b : Z).
Local Notation world_ok := (world_ok cfg_of true all).

(** The refill event of [b] fires at these times. *)
Fixpoint refills b (ts : list timeval) w : option world :=
  match ts with
  | [] => Some w
  | tv :: ts => w ← refill_fires cfg_of true {| w with now := tv |} b; refills b ts w
  end.
(** At each of them [n] ticks have passed since the one before. *)
Fixpoint ticks_pass (c : ev_token_bucket_cfg) (last : Z) (ts : list timeval) (ns : list Z) : Prop :=
  match ts, ns with
  | [], [] => True
  | tv :: ts, n :: ns => 1 <= n <= INT_MAX /\ ev_token_bucket_get_tick_ tv c = Some (u32 (last + n)) /\ ticks_pass c (u32 (last + n)) ts ns
  | _, _ => False
  end.
Definition sum (ns : list Z) : Z := foldr Z.add 0 ns.

(** One refill, of [n] ticks if the bufferevent is still suspended. *)
Lemma refill_once w b bev rl c wr tv : world_ok w -> bevs w !! b = Some bev -> rate_limiting bev = Some rl -> cfg rl = Some c ->
  exists w' bev' rl', refill_fires cfg_of true {| w with now := tv |} b = Some w' /\ world_ok w' /\ bevs w' !! b = Some bev' /\
    rate_limiting bev' = Some rl' /\ cfg rl' = Some c /\
    (bw_suspended wr bev' = true -> bw_suspended wr bev = true /\ forall n, 1 <= n <= INT_MAX ->
      ev_token_bucket_get_tick_ tv (cfg_of c) = Some (later (limit rl) n) ->
      LIM wr (limit rl') = LIM wr (limit rl) + n * rate wr (cfg_of c) /\ LIM wr (limit rl') <= 0 /\ last_updated (limit rl') = later (limit rl) n).
Proof.
  intros W Hb Hr Hc. pose proof (wo_bev _ _ _ _ W b bev Hb) as Hok. pose proof (bo_rlim _ _ _ Hok rl Hr) as Hrl.
  unfold refill_fires. cbn [bevs]. rewrite Hb. cbn [mbind option_bind]. rewrite Hr. cbn [mbind option_bind].
  destruct (refill_pending rl) eqn:Hp.
  2: { exists {| w with now := tv |}, bev, rl. split; [done|]. split; [by apply world_ok_now|]. do 3 (split; [done|]).
       intros Hw. pose proof (ro_refill _ _ _ _ Hrl eq_refl wr Hw). congruence. }
  destruct (get_tick_ok tv (cfg_of c) (proj2 (cfgs_ok c))) as (tick & Ht & Hu).
  rewrite (refill_callback_run cfg_of true {| w with now := tv |} b bev rl c tick) by done.
  destruct (after_refill_ok cfg_of true cfgs_ok bev rl c tick Hok Hr Hc Hu) as [H1 H2]. set (l := snd (ev_token_bucket_update_ (limit rl) (cfg_of c) tick)) in *.
  do 3 eexists. split; [done|]. split; [by eapply bev_step; [apply world_ok_now | ..]|]. split; [apply set_bev_eq|].
  split; [reflexivity|]. split; [exact Hc|]. cbn [limit set_refill set_limit].
  change (bw_suspended wr (after_refill true l rl bev)) with (bw_suspended wr (resumed_both l bev)). rewrite resumed_both_bw.
  intros [Hw Hl]%andb_prop. split; [done|]. intros n Hn Htn. rewrite Ht in Htn. injection Htn as ->.
  unfold l in Hl |- *. rewrite update_ok in * by (done || apply cfgs_ok || by eapply rlim_bucket). 
  pose proof (cfg_ok_dir (cfg_of c) wr (proj1 (cfgs_ok c))). cbn [snd last_updated] in *.
  destruct wr; cbn [LIM read_limit write_limit rate maximum] in *; lia.
Qed.

Lemma refills_ok b c wr ts : forall ns w bev rl, world_ok w -> bevs w !! b = Some bev -> rate_limiting bev = Some rl -> cfg rl = Some c ->
  (bw_suspended wr bev = true -> ticks_pass (cfg_of c) (last_updated (limit rl)) ts ns /\ 0 < LIM wr (limit rl) + sum ns * rate wr (cfg_of c) /\
     (ts = [] -> LIM wr (limit rl) <= 0)) ->
  exists w' bev', refills b ts w = Some w' /\ world_ok w' /\ bevs w' !! b = Some bev' /\ bw_suspended wr bev' = false.
Proof.
  induction ts as [|tv ts IH]; intros ns w bev rl W Hb Hr Hc HS; cbn [refills].
  - exists w, bev. do 3 (split; [done|]). destruct (bw_suspended wr bev); [|done]. destruct HS as (Ht & Hl & Hl'); [done|].
    destruct ns; [|done]. cbn in Hl. specialize (Hl' eq_refl). lia.
  - destruct (refill_once w b bev rl c wr tv W Hb Hr Hc) as (w1 & bev1 & rl1 & R & W1 & Hb1 & Hr1 & Hc1 & HF). rewrite R. cbn [mbind option_bind].
    apply (IH (tail ns) w1 bev1 rl1); [done..|]. intros Hw. destruct (HF Hw) as [Hw0 Hn]. destruct (HS Hw0) as (Ht & Hl & Hl').
    destruct ns as [|n ns]; [done|]. destruct Ht as (Hn1 & Htick & Hrest). destruct (Hn n Hn1 Htick) as (E1 & E2 & E3).
    cbn [tail]. rewrite E3. split; [exact Hrest|]. cbn [sum foldr] in Hl. fold (sum ns) in Hl. lia.
Qed.
End Resume.

(** C14: In every reachable world the invariant holds: the transport is told to
    work just in the directions that are enabled and not suspended, a bucket
    without room suspends its bufferevent and has its refill event pending, a
    group's list, count and the members' own pointers agree, members are
    suspended with their group and resumed with it (or the group knows that it
    must try again); and every operation that respects its precondition is
    defined: no division by zero, no missing object, no failed assertion. *)
Theorem rate_limit_invariant cfg_of event_add_ok all w :
  (forall c, config_ok (cfg_of c)) -> reachable cfg_of event_add_ok all w ->
  world_ok cfg_of event_add_ok all w /\
  forall try_lock pick op, op_ok cfg_of w op -> (all = true -> forall b, try_lock b = true) ->
    is_Some (rl_step cfg_of event_add_ok try_lock pick op w).
Proof.
  intros Hc Hr. pose proof (reachable_ok cfg_of event_add_ok all Hc w Hr) as W. split; [done|]. intros try_lock pick op Hop Hl.
  destruct (step_ok cfg_of event_add_ok all Hc try_lock pick w op Hl W Hop) as (w' & -> & _). by eexists.
Qed.

(** The number of bytes that a bufferevent may read or write now is what
    its own bucket (or its maximum for one operation) and its share of its
    group's bucket allow; and when that is 0 the bufferevent is suspended in that
    direction and its transport has been told to stop. *)
Theorem get_rlim_max_bound cfg_of event_add_ok all wr w b bev :
  (forall c, config_ok (cfg_of c)) -> reachable cfg_of event_add_ok all w -> bevs w !! b = Some bev ->
  exists n w' bev', bufferevent_get_rlim_max_ cfg_of wr w b = Some (n, w') /\ bevs w' !! b = Some bev' /\
    n = Z.max 0 (match group_of w b ≫= (fun g => groups w !! g) with
                 | Some gr => Z.min (own_max wr bev') (share wr gr)
                 | None => own_max wr bev'
                 end) /\
    (n = 0 -> suspended wr bev' <> 0 /\ transport wr bev' = false).
Proof.
  intros Hc Hr Hb. pose proof (reachable_ok cfg_of event_add_ok all Hc w Hr) as W.
  destruct (get_max_ok cfg_of event_add_ok all Hc wr w b bev W Hb) as (n & w' & bev' & R & W' & Hb' & _ & Hn & Hz).
  exists n, w', bev'. do 3 (split; [done|]). intros H0. split; [by apply Hz|].
  rewrite (bo_transport _ _ _ (wo_bev _ _ _ _ W' b bev' Hb') wr), eqb_nonzero by by apply Hz. apply andb_false_r.
Qed.

(** C28: As long as [event_add] does not fail, a bufferevent that is suspended
    for want of bandwidth is resumed: when
    its refill event, which is pending, has fired at later ticks, and the ticks
    that passed are enough for its rate to make up for the debt, it is not
    suspended for bandwidth any more. *)
Theorem refill_resumes cfg_of all b c wr w bev rl ts ns :
  (forall c, config_ok (cfg_of c)) -> reachable cfg_of true all w ->
  bevs w !! b = Some bev -> rate_limiting bev = Some rl -> cfg rl = Some c -> bw_suspended wr bev = true ->
  ticks_pass (cfg_of c) (last_updated (limit rl)) ts ns -> ts <> [] -> 0 < LIM wr (limit rl) + sum ns * rate wr (cfg_of c) ->
  refill_pending rl = true /\
  exists w' bev', refills cfg_of b ts w = Some w' /\ bevs w' !! b = Some bev' /\ bw_suspended wr bev' = false.
Proof.
  intros Hc Hr Hb Hrl Hcfg Hw Ht Hne Hsum. pose proof (reachable_ok cfg_of true all Hc w Hr) as W.
  split; [exact (ro_refill _ _ _ _ (bo_rlim _ _ _ (wo_bev _ _ _ _ W b bev Hb) rl Hrl) eq_refl wr Hw)|].
  destruct (refills_ok cfg_of all Hc b c wr ts ns w bev rl W Hb Hrl Hcfg) as (w' & bev' & R & _ & Hb' & Hf); [done | eauto].
Qed.
