(* ===== verification/RateLimitDemo.v ===== *)
(** * Rate limits on concrete worlds

    Witnesses for the theorems of [RateLimitClaims], and inputs on which the
    code does not do what its documentation says. *)
From S2P Require Import Prelude Timeval Event RateLimit TokenBucket RateLimitInv RateLimitOps RateLimitSteps RateLimitProps.

#[global] Instance timeval_eq : EqDecision timeval.
Proof. solve_decision. Defined.
#[global] Instance cfg_eq : EqDecision ev_token_bucket_cfg.
Proof. solve_decision. Defined.

Definition demo_cfgs (c : Z) : ev_token_bucket_cfg := demo_cfg.
Definition demo_locks (b : Z) : bool := true.
Definition demo_pick (n : Z) : Z := 0.
Definition demo_step (op : rl_op) (w : world) : option world := rl_step demo_cfgs true demo_locks demo_pick op w.
Fixpoint demo_run (ops : list rl_op) (w : world) : option world :=
  match ops with [] => Some w | op :: ops => w ← demo_step op w; demo_run ops w end.
(** The preconditions of the operations of the demonstration, decided. *)
Definition charge_okb (c : ev_token_bucket_cfg) wr (l : ev_token_bucket) (n : Z) : bool := (- 2 ^ 63 <=? LIM wr l - n) && (LIM wr l - n <=? maximum wr c).
Definition limit_of w b : option ev_token_bucket := bev ← bevs w !! b; rl ← rate_limiting bev; _ ← cfg rl; Some (limit rl).
Definition op_okb (w : world) (op : rl_op) : bool :=
  match op with
  | OpInit b _ => negb (bool_decide (is_Some (bevs w !! b)))
  | OpGroupNew _ g c => negb (bool_decide (is_Some (groups w !! g))) && bool_decide (c = demo_cfg)
  | OpJoin _ b g => bool_decide (is_Some (bevs w !! b)) && bool_decide (is_Some (groups w !! g))
  | OpSetLimit _ b _ | OpGetMax _ b => bool_decide (is_Some (bevs w !! b))
  | OpGroupShare _ share => 1 <=? share
  | OpCharge wr b n => bool_decide (is_Some (bevs w !! b)) &&
      match limit_of w b with Some l => charge_okb demo_cfg wr l n | None => true end &&
      match group_of w b ≫= (fun g => groups w !! g) with Some gr => charge_okb (rate_limit_cfg gr) wr (rate_limit gr) n | None => true end
  | OpClock _ => true
  | _ => false
  end.
Fixpoint demo_ok (ops : list rl_op) (w : world) : bool :=
  match ops with
  | [] => true
  | op :: ops => op_okb w op && match demo_step op w with Some w => demo_ok ops w | None => false end
  end.
Lemma demo_cfgs_ok c : config_ok (demo_cfgs c).
Proof. split; [exact demo_cfg_ok | cbn; lia]. Qed.
Lemma charge_okb_ok c wr l n : charge_okb c wr l n = true -> charge_ok c wr l n.
Proof. unfold charge_okb, charge_ok. lia. Qed.
Lemma op_okb_ok w op : op_okb w op = true -> op_ok demo_cfgs w op.
Proof.
  destruct op; cbn [op_okb op_ok]; try done; rewrite ?andb_true_iff, ?negb_true_iff, ?bool_decide_eq_true, ?bool_decide_eq_false; try done.
  - intros Hn. destruct (bevs w !! b); [exfalso; apply Hn; by eexists | done].
  - intros [[Hb Ho] Hg]. split; [done|]. split.
    + intros bev rl c E1 E2 E3. unfold limit_of in Ho. rewrite E1 in Ho. cbn in Ho. rewrite E2 in Ho. cbn in Ho. rewrite E3 in Ho. by apply charge_okb_ok.
    + intros g Hof gr E. rewrite Hof in Hg. cbn in Hg. rewrite E in Hg. by apply charge_okb_ok.
  - intros [Hg ->]. split; [destruct (groups w !! g); [exfalso; apply Hg; by eexists | done] | exact (demo_cfgs_ok 0)].
  - lia.
Qed.
Lemma demo_run_reachable ops : forall w w', reachable demo_cfgs true true w -> demo_ok ops w = true -> demo_run ops w = Some w' ->
  reachable demo_cfgs true true w'.
Proof.
  induction ops as [|op ops IH]; intros w w' Hr Hok R; cbn [demo_ok demo_run] in *; [by injection R as <-|].
  apply andb_prop in Hok as [Hop%op_okb_ok Hok]. destruct (demo_step op w) as [w1|] eqn:E; [|done]. cbn [mbind option_bind] in R.
  eapply IH; [|exact Hok | exact R]. eapply reach_step; [exact Hr | exact Hop | done | exact E].
Qed.

Definition demo_start : world := World ∅ ∅ (Timeval 5000 0).
(** Two bufferevents in a group; one has a limit of its own, and reads beyond it. *)
Definition demo_ops : list rl_op :=
  [OpInit 1 (Z.lor EV_READ EV_WRITE); OpInit 2 EV_READ; OpGroupNew true 9 demo_cfg; OpJoin true 1 9; OpJoin true 2 9;
   OpSetLimit true 1 (Some 7); OpGroupShare 9 100; OpCharge false 1 3500].
Definition demo_world : world := default demo_start (demo_run demo_ops demo_start).
Definition demo_bev : bufferevent_private := default (Bev 0 0 0 false false None 0 0) (bevs demo_world !! 1).
Definition demo_rlim : bufferevent_rate_limit := default new_rlim (rate_limiting demo_bev).

Lemma demo_reachable : reachable demo_cfgs true true demo_world.
Proof. apply (demo_run_reachable demo_ops demo_start); [apply reach_start | by vm_compute | by vm_compute]. Qed.
(** It is suspended with a debt of 2500 bytes, and refilled with 1000 a second. *)
Example demo_debt : bevs demo_world !! 1 = Some demo_bev /\ rate_limiting demo_bev = Some demo_rlim /\ cfg demo_rlim = Some 7 /\
  LIM false (limit demo_rlim) = -2500 /\ bw_suspended false demo_bev = true /\ refill_pending demo_rlim = true.
Proof. by vm_compute. Qed.

Lemma rate_limit_invariant_witness : world_ok demo_cfgs true true demo_world /\
  forall try_lock pick op, op_ok demo_cfgs demo_world op -> (true = true -> forall b, try_lock b = true) ->
    is_Some (rl_step demo_cfgs true try_lock pick op demo_world).
Proof.
  apply (rate_limit_invariant demo_cfgs true true demo_world).
  - exact demo_cfgs_ok.
  - exact demo_reachable.
Defined.
Lemma get_rlim_max_bound_witness : exists n w' bev', bufferevent_get_rlim_max_ demo_cfgs false demo_world 1 = Some (n, w') /\ bevs w' !! 1 = Some bev' /\
  n = Z.max 0 (match group_of demo_world 1 ≫= (fun g => groups demo_world !! g) with
               | Some gr => Z.min (own_max false bev') (share false gr)
               | None => own_max false bev'
               end) /\
  (n = 0 -> suspended false bev' <> 0 /\ transport false bev' = false).
Proof.
  apply (get_rlim_max_bound demo_cfgs true true false demo_world 1 demo_bev).
  - exact demo_cfgs_ok.
  - exact demo_reachable.
  - exact (proj1 demo_debt).
Defined.
(** After two seconds it still has a debt of 500; after four it may read again. *)
Lemma refill_resumes_witness : refill_pending demo_rlim = true /\
  exists w' bev', refills demo_cfgs 1 [Timeval 5002 0; Timeval 5004 0] demo_world = Some w' /\ bevs w' !! 1 = Some bev' /\ bw_suspended false bev' = false.
Proof.
  apply (refill_resumes demo_cfgs true 1 7 false demo_world demo_bev demo_rlim [Timeval 5002 0; Timeval 5004 0] [2; 2]).
  - exact demo_cfgs_ok.
  - exact demo_reachable.
  - exact (proj1 demo_debt).
  - exact (proj1 (proj2 demo_debt)).
  - exact (proj1 (proj2 (proj2 demo_debt))).
  - vm_compute. reflexivity.
  - vm_compute. repeat split; discriminate.
  - discriminate.
  - vm_compute. reflexivity.
Defined.

(** ** Where the code differs from what is said of it. *)

(** With a minimum share of 0 a group is resumed while its bucket is empty, and
    a member is told to read 0 bytes though nothing suspends it. *)
Definition zero_share_ops : list rl_op :=
  [OpInit 1 EV_READ; OpGroupNew true 9 demo_cfg; OpJoin true 1 9; OpGroupShare 9 0; OpCharge false 1 1000; OpGroupRefill 9].
Lemma zero_share_reads_nothing : option_map (fun w => (fst <$> bufferevent_get_rlim_max_ demo_cfgs false w 1, suspended false <$> bevs w !! 1))
  (demo_run zero_share_ops demo_start) = Some (Some 0, Some 0).
Proof. by vm_compute. Qed.
(** The limit on a single read is ignored when the bufferevent has a bucket. *)
Lemma single_read_ignored : option_map (fun w => fst <$> bufferevent_get_rlim_max_ demo_cfgs false w 1)
  (demo_run [OpInit 1 EV_READ; OpSetMax false 1 100; OpSetLimit true 1 (Some 7)] demo_start) = Some (Some 1000).
Proof. by vm_compute. Qed.
(** A bucket that is filled by hand over its maximum is not brought back to it,
    but filled further with every tick. *)
Lemma refill_over_maximum : LIM false (snd (ev_token_bucket_update_ (Bucket 6000 0 0) demo_cfg 10)) = 16000 /\ read_maximum demo_cfg = 5000.
Proof. by vm_compute. Qed.
